(* ===== verification/_CoqProject ===== *)
-Q . S2P
Prelude.v
Addr.v
Cap.v
Key.v
Klog.v
Frames.v
Elf.v
Sched.v
Net.v
Pager.v
Irq.v
Kernel.v
Ipc.v
Paging.v
Domains.v
Exec.v
Syscall.v
Confine.v
Mail.v
Wakeup.v
Bytes.v
Slots.v
Mount.v
Vfs.v
Tmpfs.v
BlockCache.v
Crc.v
Clock.v
MfsBlock.v
MfsItab.v
MfsDir.v
MfsGc.v
MfsMount.v
MfsPtr.v
MfsFile.v
NetWire.v
NetTcp.v
NetStack.v
NetInv.v
NetLoop.v
Pci.v
Acpi.v
Iommu.v
Device.v
Virtio.v
