(* ===== verification/Prelude.v ===== *)
(** * Morion OS: a verification library

    Morion OS is a microkernel for x86-64 with its services in user space. The kernel
    (src/kernel/src) offers protection domains, capabilities, messages, a scheduler and address
    spaces; everything else (mounting, file systems, block devices, networking) runs in domains
    that talk through messages (src/user/srv/src, with the client library in
    src/user/libmorion/src). This library translates the kernel's core and a number of services
    into Gallina and proves what makes them correct. Every definition is executable; names follow
    the source.

    ** How the parts interact

    A program enters the kernel through [syscall_dispatch], a page fault or an interrupt. The kernel
    runs with interrupts disabled on one processor, so each entry is one step of a transition
    system on the record of its global tables (Kernel, Syscall). Tasks block by switching away; the
    point where a task continues is kept in its task record. A program reaches a file by asking the
    mount service which service owns the path, sending a request to it and wrapping the answer in a
    kernel handle (Vfs). The file services store their data in memory (Tmpfs) or on volumes
    (MorionFS, the Mfs files), which they reach through the block service (BlockCache).

    ** The kernel (src/kernel/src)

    - Prelude: machine integers, error and state monads, tables, tactics and hint databases.
    - Addr, Paging (memory/paging.rs): layout constants, the test for user addresses, page tables,
      mapping, unmapping, tear-down and the boot tables. The mapper of the x86_64 crate is the
      parameter [Mapper] with the laws of its documentation.
    - Frames (memory/frame_allocator.rs): the bitmap of frames, pinned ranges, reference counts.
    - Cap (cap.rs), Pager (pager.rs), Net (net.rs), Key (key.rs), Klog (klog.rs), Irq (irq.rs): the
      per-domain tables, the two ring buffers and interrupt forwarding.
    - Elf (elf.rs), Exec (exec.rs): the parser of program images and the loader.
    - Sched (scheduler/mod.rs), Ipc (ipc.rs), Domains (domain.rs): tasks, messages, domains.
    - Kernel: the state record and the kernel monad. Syscall (syscall.rs, arch/idt.rs, bootinfo.rs):
      one definition per system call and handler, and the transition system.
    - Confine, Wakeup, Mail: what holds in all runs of the kernel.

    - Pci (arch/pci.rs, arch/apic.rs), Acpi (arch/acpi.rs), Iommu (arch/iommu.rs): configuration
      space and the local APIC, firmware tables, DMA remapping. Ports and device registers are the
      parameters [Hardware] and [UnitRegs].
    - Device (device.rs, the device part of main.rs, user/libdevice/src/grant.rs and msix.rs): what
      of a device is granted to its driver, the assignment at boot, the device system calls.
    - Virtio (user/libdevice/src/virtio.rs, net_srv.rs): the virtio transport and the receive ring,
      over the parameter [Regs].

    What the theorems show. No kernel entry creates authority: a domain comes to hold a capability
    only by delegation from a holder or as one of the few a new program gets (Confine, Exec); a
    destroyed domain leaves nothing in the tables of the kernel except its network ports, which the
    kernel does not release (Domains); a new one starts with the kernel mappings alone. Messages
    between two domains arrive in order, once, unless the receiver is destroyed or loaded again
    (Ipc, Mail), and a task that waits for one is never left asleep with a message in its mailbox
    (Wakeup). These runs exclude stores of the kernel outside of user space, which SYS_RECV and
    SYS_TRY_RECV do not refuse. The scheduler runs one
    task at a time, passes over no ready task for ever, and fires timeouts (Sched). A frame is
    handed out once and freed when its last user drops it; only usable memory is handed out; tearing
    down an address space gives back every table and every mapped frame as often as it was mapped
    (Frames, Paging). The parser accepts exactly the images its checks describe and never panics,
    and the loader's page count is bounded (Elf, Exec).

    For devices: enumeration finds exactly the functions present and the walk of a capability list
    finds an MSI-X capability whenever one can be reached (Pci); after boot a driver reaches, through
    the device system calls, the configuration space of devices of its own kind only, apart from what SYS_PCI_INFO tells
    everyone, and no
    interrupt vector is held by two domains (Device); with remapping on, no device reaches memory beyond the
    limit of its window and a function that was not enumerated reaches none, though the mapping
    inside is not the identity it is meant to be (Iommu); the DMAR table is parsed
    without a read out of range whatever its bytes (Acpi); every receive buffer is always either
    offered to the network device, used by it and unread, or with the driver (Virtio).

    ** The services (src/user/srv/src, src/user/libmorion/src)

    - Bytes, Clock, Crc (common.rs): little-endian access, shared-page requests, calendar, checksum.
    - Slots: a table of slots seen as a finite map, used by Mount and Tmpfs.
    - Mount (mount_srv.rs), Vfs (libmorion/src/vfs.rs): the mount table and the client library. The
      client is written against the interface [UserWorld]; its instance runs it on the kernel's
      handle table and on the mount service's table.
    - Tmpfs (tmpfs_srv.rs): the file service in memory.
    - BlockCache (block_srv.rs): volumes and the read cache, over the interface [BlockDevice].
    - MorionFS (mfs_srv.rs), over the interface [MfsDevice] (the messages to the block service) with
      the laws [MfsDeviceLaws]: MfsBlock (sealed blocks, write window, bitmap, copy on write),
      MfsItab (superblock and inode table), MfsDir (directory blocks), MfsGc (reclamation), MfsMount
      (mounting and formatting), MfsPtr (block pointers of a file), MfsFile (file contents). Reading
      files uses the further interface [MfsReader].
    - The network stack (netstack_srv.rs): NetWire (checksums, frame builders and parsers), NetTcp
      (a TCP connection and its state machine), NetStack (the service: links, UDP sockets, TCP
      connections, received frames, requests, timer, start), over the interface [NetEnv] (drivers,
      kernel calls, other domains) with the laws [NetEnvOk], whose instance [sim_env] runs on the
      kernel's port table (Net); NetInv (invariants of the service), NetLoop (the loopback).

    What the theorems show. The mount table is a finite map and a path is routed to its longest
    mounted prefix; a descriptor works only while the handle it carries is held (Mount, Vfs). The
    memory file service implements a tree of files, and reads return what was written (Tmpfs). The
    block cache is invisible as long as no command of the device has failed since the last flush
    (BlockCache); the checksum detects every change within four bytes (Crc).
    For MorionFS: committing a block never touches one in use; the inode table is a map; a directory
    block is a map from names; reclamation keeps exactly what is reachable from the root and the
    snapshots; a completed commit is what the next mount finds as long as one of the two copies of
    the metadata is intact, also after a crash in the middle of a later commit; a file is an array
    of bytes under reading, writing and truncation. [durable] (MfsMount) is the invariant that ties
    these together.

    For the network: what a TCP builder writes the parsers read back, over both IP versions, and a
    segment with one damaged byte is refused (NetWire). Two connections joined by a network that
    loses, repeats, delays and reorders segments store each other's streams in order, and an
    application that reads in time gets all of it; an unanswered segment is sent again at doubling
    intervals, five times at most (NetTcp). Whatever the applications request and whatever frames
    arrive, the tables of the service stay well formed and a TCP port is used by the domain the
    kernel lists for it, provided the buffers named in the requests are not the service's own
    memory, which it does not check; a request on a connection of another domain does nothing (NetInv). Two
    applications of one machine connect with one request and transfer their data (NetLoop).

    ** Conventions, bounds and fuel

    A w-bit integer is a [Z] with the wrap-around written out ([w8], [w32], [w64]) where the source
    can reach it. Memory is a function from addresses to bytes; a buffer is such a function. A Rust
    panic is a value of its own where the code can reach one. Loops that are not structural take
    fuel, computed from the state by the calling definition, and the theorems are about these
    callers, for which the fuel is shown to suffice or is the loop's own counter: the number of
    slots of a table, the bytes left to move (each turn of [write_loop] and [read_loop] moves at
    least one), the number of blocks of the volume for the marking traversal. Operations on a
    device may fail at any call; the theorems cover these failures, and where an operation is
    claimed to succeed the claim says which transfers must.

    ** Not modelled

    The interrupt controller, the timer, segment tables, the assembly of context switches, the
    device drivers (except the receive path above) and the boot loader, which are sequences of
    register accesses and firmware calls; drawing, diagnostics and statistics that are only
    printed, and programs that are loops of system calls. Of MorionFS: path walk and hashed
    directories, permissions, snapshots, the consistency check and the request loop. The other
    on-disk formats (FAT32, exFAT, ext2, ISO 9660).
    Of the block service: batched requests, partition tables and the queues of the device.
    Of the network service: the self-tests it runs when it starts and what it prints. Its waits for
    an echo have no bound in the source; there the fuel is an argument ([ping_drain]), [None] means
    that the wait still goes on, and the theorems hold for any fuel. *)

From stdpp Require Export base tactics list list_numbers gmap.
From Stdlib Require Export ZArith Lia Bool.

#[global] Open Scope Z_scope.
#[global] Set Default Proof Using "Type".

(** ** Machine integers

    The kernel is built with [--release], so integer overflow wraps. A [uN] value is a
    [Z] in [[0, 2^N)]; [wN] is the wrap-around (also the meaning of an [as uN] cast). *)
Definition w8 (x : Z) : Z := x mod 2^8.
Definition w16 (x : Z) : Z := x mod 2^16.
Definition w32 (x : Z) : Z := x mod 2^32.
Definition w64 (x : Z) : Z := x mod 2^64.
Definition U64_MAX : Z := 2^64 - 1.
Definition U8_MAX : Z := 255.

(** [u64::checked_add] and [u64::checked_mul]. *)
Definition checked_add (a b : Z) : option Z := if a + b <? 2^64 then Some (a + b) else None.
Definition checked_mul (a b : Z) : option Z := if a * b <? 2^64 then Some (a * b) else None.
Definition saturating_mul (a b : Z) : Z := Z.min (a * b) U64_MAX.
Definition saturating_sub (a b : Z) : Z := Z.max (a - b) 0.
Definition div_ceil (a b : Z) : Z := (a + b - 1) / b.

Definition is_u64 (x : Z) : Prop := 0 <= x < 2^64.

(** ** Panics

    [Panic] stands for a Rust panic (index out of bounds, [expect], [unwrap]); the kernel
    halts there. *)
Inductive res (A : Type) : Type :=
| Ok (a : A)
| Panic.
Arguments Ok {A} a.
Arguments Panic {A}.

#[export] Instance res_ret : MRet res := fun _ a => Ok a.
#[export] Instance res_bind : MBind res :=
  fun _ _ f m => match m with Ok a => f a | Panic => Panic end.

Definition is_ok {A} (r : res A) : bool := match r with Ok _ => true | Panic => false end.

(** [option::expect] / [unwrap]. *)
Definition expect {A} (o : option A) : res A :=
  match o with Some a => Ok a | None => Panic end.

(** Functions that return [Option] and use [?] as well as operations that may panic: [Value]
    carries on, [Fail] is [return None], [Crash] a panic. *)
Inductive outcome (A : Type) : Type :=
| Value (a : A)
| Fail
| Crash.
Arguments Value {A} a.
Arguments Fail {A}.
Arguments Crash {A}.

#[export] Instance outcome_ret : MRet outcome := fun _ a => Value a.
#[export] Instance outcome_bind : MBind outcome :=
  fun _ _ f m => match m with Value a => f a | Fail => Fail | Crash => Crash end.

(** [o?] and a panicking operation inside such a function. *)
Definition ask {A} (o : option A) : outcome A := match o with Some a => Value a | None => Fail end.
Definition unpanic {A} (r : res A) : outcome A := match r with Ok a => Value a | Panic => Crash end.
(** [if !b { return None; }] *)
Definition require (b : bool) : outcome unit := if b then Value tt else Fail.

(** ** Vectors indexed by machine integers

    [l !!! i] in Rust is a bounds check followed by a read. The check comes first here too,
    so that evaluating an out-of-range index never converts a huge [Z] to unary. *)
Definition lookupZ {A} (l : list A) (i : Z) : option A :=
  if (0 <=? i) && (i <? Z.of_nat (length l)) then l !! Z.to_nat i else None.

Definition insertZ {A} (l : list A) (i : Z) (x : A) : list A :=
  if (0 <=? i) && (i <? Z.of_nat (length l)) then <[Z.to_nat i := x]> l else l.

(** [v[i]]: panics out of range. *)
Definition index {A} (l : list A) (i : Z) : res A := expect (lookupZ l i).

(** [v[i] = x]: panics out of range. *)
Definition index_set {A} (l : list A) (i : Z) (x : A) : res (list A) :=
  if (0 <=? i) && (i <? Z.of_nat (length l)) then Ok (insertZ l i x) else Panic.

(** [Iterator::position]. *)
Fixpoint position {A} (p : A -> bool) (l : list A) : option nat :=
  match l with
  | [] => None
  | x :: l => if p x then Some 0%nat else S <$> position p l
  end.

Definition is_none {A} (o : option A) : bool := match o with None => true | _ => false end.
Definition is_some {A} (o : option A) : bool := negb (is_none o).

(** "Put [x] into the first empty slot": the loop [for slot in slots.iter_mut() { if
    slot.is_none() { *slot = Some(x); ..; break } }] that the kernel's tables share. *)
Definition fill_slot {A} (x : A) (l : list (option A)) : option (nat * list (option A)) :=
  match position is_none l with
  | Some i => Some (i, <[i := Some x]> l)
  | None => None
  end.

(** [while v.len() <= idx { v.push(d) }]: the growth loop of the per-domain tables. *)
Definition grow_to {A} (l : list A) (idx : Z) (d : A) : list A :=
  l ++ replicate (Z.to_nat (idx + 1) - length l) d.

(** The first index in [[i, i + fuel)] that satisfies [p]; the linear scans of the frame
    bitmap. *)
Fixpoint find_from (p : Z -> bool) (fuel : nat) (i : Z) : option Z :=
  match fuel with
  | O => None
  | S n => if p i then Some i else find_from p n (i + 1)
  end.

(** ** Lemmas on these helpers *)

Create HintDb morion.
Create HintDb preserve.
Create Rewrite HintDb morion_rw.

(** Case analysis on the scrutinee of a [match] or [if] in the goal or a hypothesis. *)
Ltac case_match_eq :=
  match goal with
  | H : context [match ?x with _ => _ end] |- _ => destruct x eqn:?
  | |- context [match ?x with _ => _ end] => destruct x eqn:?
  end.

(** Turn boolean comparisons into propositions. *)
Ltac bool_to_prop :=
  repeat match goal with
  | H : (_ && _) = true |- _ => apply andb_prop in H; destruct H
  | H : (_ || _) = false |- _ => apply orb_false_elim in H; destruct H
  | H : negb _ = true |- _ => apply negb_true_iff in H
  | H : negb _ = false |- _ => apply negb_false_iff in H
  | H : (_ =? _) = true |- _ => apply Z.eqb_eq in H
  | H : (_ =? _) = false |- _ => apply Z.eqb_neq in H
  | H : (_ <? _) = true |- _ => apply Z.ltb_lt in H
  | H : (_ <? _) = false |- _ => apply Z.ltb_ge in H
  | H : (_ <=? _) = true |- _ => apply Z.leb_le in H
  | H : (_ <=? _) = false |- _ => apply Z.leb_gt in H
  end.

Lemma res_bind_ok {A B} (m : res A) (f : A -> res B) b :
  m ≫= f = Ok b -> exists a, m = Ok a /\ f a = Ok b.
Proof. destruct m; [eauto | discriminate]. Qed.

Lemma outcome_bind_value {A B} (m : outcome A) (f : A -> outcome B) b :
  m ≫= f = Value b <-> exists a, m = Value a /\ f a = Value b.
Proof. destruct m; simpl; split; intros H; try (naive_solver discriminate); by destruct H as (? & ? & ?). Qed.

Lemma ask_value {A} (o : option A) a : ask o = Value a <-> o = Some a.
Proof. destruct o; simpl; split; congruence. Qed.

Lemma require_value b u : require b = Value u <-> b = true.
Proof. destruct u, b; simpl; split; congruence. Qed.

Lemma lookupZ_Some {A} (l : list A) i x :
  lookupZ l i = Some x <-> 0 <= i /\ l !! Z.to_nat i = Some x.
Proof.
  unfold lookupZ. split.
  - intros H. case_match_eq; [|discriminate]. bool_to_prop. split; [lia | exact H].
  - intros [Hi H]. pose proof (lookup_lt_Some _ _ _ H) as Hlt.
    replace (0 <=? i) with true by (symmetry; apply Z.leb_le; lia).
    replace (i <? Z.of_nat (length l)) with true by (symmetry; apply Z.ltb_lt; lia).
    exact H.
Qed.

Lemma lookupZ_nat {A} (l : list A) (n : nat) : lookupZ l (Z.of_nat n) = l !! n.
Proof.
  destruct (l !! n) eqn:E.
  - apply lookupZ_Some. rewrite Nat2Z.id. split; [lia | exact E].
  - destruct (lookupZ l (Z.of_nat n)) eqn:E2; [|reflexivity].
    apply lookupZ_Some in E2. rewrite Nat2Z.id in E2. destruct E2; congruence.
Qed.

Lemma lookupZ_None {A} (l : list A) i :
  lookupZ l i = None <-> i < 0 \/ Z.of_nat (length l) <= i.
Proof.
  unfold lookupZ.
  destruct (0 <=? i) eqn:E1, (i <? Z.of_nat (length l)) eqn:E2; simpl; bool_to_prop;
    split; intros; try lia; try reflexivity.
  destruct (lookup_lt_is_Some_2 l (Z.to_nat i)) as [x Hx]; [lia | congruence].
Qed.

Lemma length_insertZ {A} (l : list A) i x : length (insertZ l i x) = length l.
Proof. unfold insertZ. case_match; [apply length_insert | reflexivity]. Qed.

Lemma lookupZ_insertZ_eq {A} (l : list A) i x :
  is_Some (lookupZ l i) -> lookupZ (insertZ l i x) i = Some x.
Proof.
  intros [y Hy]. pose proof Hy as H. apply lookupZ_Some in H as [Hi H].
  pose proof (lookup_lt_Some _ _ _ H) as Hlt.
  unfold insertZ, lookupZ in *. destruct (_ && _) eqn:E; [|discriminate].
  rewrite length_insert, E. by apply list_lookup_insert_eq.
Qed.

Lemma lookupZ_insertZ_ne {A} (l : list A) i j x :
  i <> j -> lookupZ (insertZ l i x) j = lookupZ l j.
Proof.
  intros Hne. unfold insertZ, lookupZ. destruct (_ && (i <? _)) eqn:E; [|reflexivity].
  rewrite length_insert. destruct (_ && (j <? _)) eqn:E2; [|reflexivity].
  bool_to_prop. apply list_lookup_insert_ne. lia.
Qed.

Lemma insertZ_insertZ {A} (l : list A) i x y : insertZ (insertZ l i x) i y = insertZ l i y.
Proof.
  unfold insertZ. destruct ((0 <=? i) && (i <? Z.of_nat (length l))) eqn:E; [|by rewrite E].
  rewrite length_insert, E. apply list_insert_insert_eq.
Qed.

Lemma insertZ_id {A} (l : list A) i x : lookupZ l i = Some x -> insertZ l i x = l.
Proof.
  unfold lookupZ, insertZ. destruct (_ && _); [|done]. apply list_insert_id.
Qed.

Lemma index_ok {A} (l : list A) i x : index l i = Ok x <-> lookupZ l i = Some x.
Proof. unfold index, expect. destruct (lookupZ l i); split; congruence. Qed.

Lemma position_Some {A} (p : A -> bool) l i :
  position p l = Some i <->
  (exists x, l !! i = Some x /\ p x = true) /\
  (forall j y, (j < i)%nat -> l !! j = Some y -> p y = false).
Proof.
  revert i. induction l as [|a l IH]; intros i; simpl.
  { split; [discriminate|]. intros [[x [H _]] _]. discriminate. }
  destruct (p a) eqn:Ha.
  - split.
    + intros [= <-]. split; [by exists a | lia].
    + intros [[x [H1 H2]] H3]. destruct i; [reflexivity|].
      specialize (H3 0%nat a ltac:(lia) eq_refl). congruence.
  - split.
    + intros H. destruct (position p l) as [k|] eqn:E; [|discriminate].
      inv H. destruct (proj1 (IH k) eq_refl) as [[x [H1 H2]] H3].
      split; [by exists x|]. intros [|j] y Hj Hy; [by inv Hy | eapply H3; [|exact Hy]; lia].
    + intros [[x [H1 H2]] H3]. destruct i as [|i]; [inv H1; congruence|].
      rewrite (proj2 (IH i)); [reflexivity|].
      split; [by exists x|]. intros j y Hj Hy. apply (H3 (S j) y); [lia | exact Hy].
Qed.

Lemma position_None {A} (p : A -> bool) l :
  position p l = None <-> forall i x, l !! i = Some x -> p x = false.
Proof.
  induction l as [|a l IH]; simpl; [split; [intros _ i x H; discriminate | done]|].
  destruct (p a) eqn:Ha.
  - split; [discriminate|]. intros H. specialize (H 0%nat a eq_refl). congruence.
  - split.
    + intros H. destruct (position p l) eqn:E; [discriminate|].
      intros [|i] x Hx; [by inv Hx | exact (proj1 IH eq_refl i x Hx)].
    + intros H. rewrite (proj2 IH); [done|]. intros i x Hx. exact (H (S i) x Hx).
Qed.

(** The empty slot [fill_slot] picks was empty, and everything else is unchanged. *)
Lemma fill_slot_Some {A} (x : A) l i l' :
  fill_slot x l = Some (i, l') -> l !! i = Some None /\ l' = <[i := Some x]> l.
Proof.
  unfold fill_slot. destruct (position is_none l) as [k|] eqn:E; [|discriminate].
  intros [= <- <-]. apply position_Some in E as [[[y|] [H1 H2]] _]; [discriminate|done].
Qed.

Lemma fill_slot_None {A} (x : A) l :
  fill_slot x l = None -> forall i y, l !! i = Some y -> is_some y = true.
Proof.
  unfold fill_slot. destruct (position is_none l) eqn:E; [discriminate|].
  intros _ i y Hy. rewrite position_None in E. specialize (E i y Hy).
  unfold is_some. by rewrite E.
Qed.

Lemma lookup_grow_to {A} (l : list A) idx d i :
  0 <= idx ->
  grow_to l idx d !! i =
  (if decide (i < length l)%nat then l !! i
   else if decide (Z.of_nat i <= idx) then Some d else None).
Proof.
  intros Hidx. unfold grow_to. case_decide as H1.
  - by rewrite lookup_app_l.
  - rewrite lookup_app_r by lia. case_decide as H2.
    + apply lookup_replicate_2. lia.
    + apply lookup_replicate_None. lia.
Qed.

Lemma length_grow_to {A} (l : list A) idx d :
  0 <= idx -> Z.of_nat (length (grow_to l idx d)) = Z.max (Z.of_nat (length l)) (idx + 1).
Proof. intros. unfold grow_to. rewrite length_app, length_replicate. lia. Qed.

Lemma find_from_Some p n i r :
  find_from p n i = Some r <->
  i <= r < i + Z.of_nat n /\ p r = true /\ (forall j, i <= j < r -> p j = false).
Proof.
  revert i. induction n as [|n IH]; intros i; simpl.
  { split; [discriminate | lia]. }
  destruct (p i) eqn:E.
  - split.
    + intros [= <-]. split; [lia|]. split; [done | lia].
    + intros (H1 & H2 & H3). destruct (decide (i = r)) as [->|]; [done|].
      specialize (H3 i ltac:(lia)). congruence.
  - rewrite IH. split; intros (H1 & H2 & H3).
    + split; [lia|]. split; [done|]. intros j Hj.
      destruct (decide (j = i)) as [->|]; [done | apply H3; lia].
    + assert (i <> r) by congruence.
      split; [lia|]. split; [done|]. intros j Hj. apply H3; lia.
Qed.

Lemma find_from_None p n i :
  find_from p n i = None <-> forall j, i <= j < i + Z.of_nat n -> p j = false.
Proof.
  revert i. induction n as [|n IH]; intros i; simpl; [split; [lia | done]|].
  destruct (p i) eqn:E.
  - split; [discriminate|]. intros H. specialize (H i ltac:(lia)). congruence.
  - rewrite IH. split; intros H j Hj; [|apply H; lia].
    destruct (decide (j = i)) as [->|]; [done | apply H; lia].
Qed.

(** Filters that agree on the elements of the list. *)
Lemma filter_ext_elem {A} (P Q : A -> Prop) `{!forall x, Decision (P x), !forall x, Decision (Q x)}
    (l : list A) :
  (forall x, x ∈ l -> P x <-> Q x) -> filter P l = filter Q l.
Proof.
  induction l as [|a l IH]; intros Heq; [done|]. rewrite !filter_cons.
  assert (filter P l = filter Q l) as -> by (apply IH; set_solver).
  specialize (Heq a ltac:(set_solver)). destruct (decide (P a)), (decide (Q a)); tauto.
Qed.

(** Packing a field below another: [(a << n) | b] with [b] in [n] bits is a sum. *)
Lemma lor_shiftl_add a b n : 0 <= n -> 0 <= b < 2^n -> Z.lor (Z.shiftl a n) b = a * 2^n + b.
Proof.
  intros Hn Hb. rewrite <- (Z.shiftl_mul_pow2 a n Hn).
  assert (Hl : Z.land (Z.shiftl a n) b = 0).
  { apply Z.bits_inj'. intros i Hi. rewrite Z.land_spec, Z.bits_0.
    destruct (Z.lt_ge_cases i n).
    - rewrite Z.shiftl_spec_low by lia. reflexivity.
    - destruct (Z.eq_dec b 0) as [->|]; [by rewrite Z.bits_0, andb_false_r|].
      rewrite (Z.bits_above_log2 b i), andb_false_r; [reflexivity | lia |].
      apply Z.lt_le_trans with n; [apply Z.log2_lt_pow2; lia | lia]. }
  rewrite Z.add_nocarry_lxor, Z.lxor_lor by exact Hl. reflexivity.
Qed.

Lemma land_ones_low a b n : 0 <= n -> 0 <= b < 2^n -> Z.land (a * 2^n + b) (2^n - 1) = b.
Proof.
  intros Hn Hb. replace (2^n - 1) with (Z.ones n) by (rewrite Z.ones_equiv; lia).
  rewrite Z.land_ones by lia. rewrite Z.add_comm, Z.mod_add by lia. by apply Z.mod_small.
Qed.

Lemma shiftr_high a b n : 0 <= n -> 0 <= b < 2^n -> Z.shiftr (a * 2^n + b) n = a.
Proof.
  intros Hn Hb. rewrite Z.shiftr_div_pow2 by lia.
  rewrite Z.div_add_l by lia. rewrite Z.div_small by lia. lia.
Qed.

(** A property every step of a fold preserves. *)
Lemma foldl_preserve_in {A B} (P : A -> Prop) (g : A -> B -> A) l a :
  P a -> (forall a x, x ∈ l -> P a -> P (g a x)) -> P (foldl g a l).
Proof.
  revert a. induction l as [|x l IH]; intros a Ha Hg; [exact Ha|]. cbn. apply IH.
  - apply Hg; [apply list_elem_of_here | exact Ha].
  - intros b y Hy. apply Hg, list_elem_of_further, Hy.
Qed.

Lemma foldl_preserve {A B} (P : A -> Prop) (g : A -> B -> A) l a :
  P a -> (forall a x, P a -> P (g a x)) -> P (foldl g a l).
Proof. intros Ha Hg. apply foldl_preserve_in; auto. Qed.

#[export] Hint Resolve lookupZ_insertZ_eq length_insertZ : morion.
#[export] Hint Rewrite @length_insertZ @length_insert @length_app @length_replicate : morion_rw.
