(* ===== verification/Addr.v ===== *)
(** * Address-space constants and the user-address test (kernel/src/memory/paging.rs)

    The virtual-address layout, the predicate every syscall uses as its trust boundary, and
    the page permissions with their page-table flags. *)

From S2P Require Import Prelude.

Definition PHYS_OFFSET : Z := 0xFFFF800000000000.
Definition USER_SPACE_BASE : Z := 0x8000000000.
Definition USER_SPACE_END : Z := USER_SPACE_BASE + 0x8000000000.
Definition USER_STACK_TOP : Z := USER_SPACE_BASE + 0x401000.
Definition USER_STACK_PAGES : Z := 8.
Definition HEAP_START : Z := 0x444444440000.
Definition MANAGED_MEMORY : Z := 32 * 1024 * 1024 * 1024.
Definition FRAME_SIZE : Z := 4096.

Definition is_identity_mapped (addr len : Z) : bool :=
  match checked_add addr len with
  | Some e => e <=? MANAGED_MEMORY
  | None => false
  end.

Definition is_user_address (vaddr : Z) : bool := Z.land (Z.shiftr vaddr 39) 0x1FF =? 1.

Inductive UserPagePerm : Type := ReadOnly | ReadWrite | ReadExecute.

#[export] Instance UserPagePerm_eq_dec : EqDecision UserPagePerm.
Proof. solve_decision. Defined.

(** Page-table flag bits used by the kernel (x86-64 [PageTableFlags]). *)
Definition PRESENT : Z := 1.
Definition WRITABLE : Z := 2.
Definition USER_ACCESSIBLE : Z := 4.
Definition NO_CACHE : Z := 16.
Definition HUGE_PAGE : Z := 128.
Definition NO_EXECUTE : Z := 2^63.

Definition flags_for (perm : UserPagePerm) : Z :=
  let base := Z.lor PRESENT USER_ACCESSIBLE in
  match perm with
  | ReadExecute => base
  | ReadWrite => Z.lor (Z.lor base WRITABLE) NO_EXECUTE
  | ReadOnly => Z.lor base NO_EXECUTE
  end.

(** The flags [map_mmio] installs. *)
Definition mmio_flags : Z :=
  Z.lor (Z.lor (Z.lor (Z.lor PRESENT WRITABLE) USER_ACCESSIBLE) NO_CACHE) NO_EXECUTE.

(** [contains]: all the bits of [f] are set. *)
Definition has_flag (flags f : Z) : bool := Z.land flags f =? f.

(** [vaddr & !(FRAME_SIZE - 1)]. *)
Definition page_floor (a : Z) : Z := Z.land a (Z.lxor (2^64 - 1) (FRAME_SIZE - 1)).

(** ** Lemmas *)

Lemma is_user_address_alt v : is_user_address v = true <-> (v / 2^39) mod 512 = 1.
Proof.
  unfold is_user_address. rewrite Z.shiftr_div_pow2 by lia. change 0x1FF with (Z.ones 9).
  rewrite Z.land_ones by lia. apply Z.eqb_eq.
Qed.

(** What the test decides: bits 39..47 only, so the address modulo 2^48. *)
Lemma is_user_address_mod v :
  0 <= v -> is_user_address v = true <-> USER_SPACE_BASE <= v mod 2^48 < USER_SPACE_END.
Proof.
  intros Hv. rewrite is_user_address_alt. unfold USER_SPACE_END, USER_SPACE_BASE.
  change (2^48) with (2^39 * 512). rewrite Z.rem_mul_r by lia.
  pose proof (Z.mod_pos_bound v (2^39) ltac:(lia)) as H1.
  pose proof (Z.mod_pos_bound (v / 2^39) 512 ltac:(lia)) as H2.
  revert H1 H2. generalize (v mod 2^39) as lo, ((v / 2^39) mod 512) as hi.
  change (2^39) with 0x8000000000. lia.
Qed.

Lemma is_user_address_canonical v :
  0 <= v < 2^48 -> is_user_address v = true <-> USER_SPACE_BASE <= v < USER_SPACE_END.
Proof. intros Hv. rewrite is_user_address_mod by lia. by rewrite Z.mod_small by lia. Qed.

(** An interval of at most 2^39 bytes whose two ends pass the user-address test lies inside
    the user slot. *)
Lemma user_interval a n i :
  0 <= a -> 0 < n <= 2^39 -> 0 <= i < n ->
  is_user_address a = true -> is_user_address (w64 (a + n - 1)) = true -> a + n - 1 < 2^64 ->
  is_user_address (a + i) = true.
Proof.
  intros Ha Hn Hi H1 H2 H3. unfold w64 in H2. rewrite Z.mod_small in H2 by lia.
  apply is_user_address_mod in H1; [|lia]. apply is_user_address_mod in H2; [|lia].
  apply is_user_address_mod; [lia|]. unfold USER_SPACE_END, USER_SPACE_BASE in *.
  Z.to_euclidean_division_equations. lia.
Qed.

Lemma page_floor_spec a : 0 <= a < 2^64 -> page_floor a = a - a mod FRAME_SIZE.
Proof.
  intros Ha. unfold page_floor, FRAME_SIZE. replace (Z.lxor (2^64 - 1) (4096 - 1)) with
    (Z.shiftl (Z.ones 52) 12) by reflexivity.
  transitivity (Z.shiftl (Z.shiftr a 12) 12).
  - apply Z.bits_inj'. intros i Hi. rewrite Z.land_spec.
    destruct (Z.lt_ge_cases i 12).
    + rewrite !Z.shiftl_spec_low by lia. apply andb_false_r.
    + rewrite !Z.shiftl_spec by lia. rewrite Z.shiftr_spec by lia. rewrite Z.sub_add.
      destruct (Z.lt_ge_cases i 64).
      * rewrite Z.ones_spec_low by lia. apply andb_true_r.
      * rewrite Z.ones_spec_high, andb_false_r by lia. symmetry.
        destruct (Z.eq_dec a 0) as [->|]; [apply Z.bits_0|].
        apply Z.bits_above_log2; [lia|]. apply Z.lt_le_trans with 64; [|lia].
        apply Z.log2_lt_pow2; lia.
  - rewrite Z.shiftl_mul_pow2, Z.shiftr_div_pow2 by lia. change (2^12) with 4096.
    pose proof (Z.div_mod a 4096 ltac:(lia)). lia.
Qed.

(** Every user page is W^X: the flags [flags_for] gives to a permission always contain
    PRESENT and USER, and never both WRITABLE and executable; MMIO pages are never executable. *)
Theorem user_pages_wx perm :
  has_flag (flags_for perm) PRESENT = true /\ has_flag (flags_for perm) USER_ACCESSIBLE = true /\
  (has_flag (flags_for perm) WRITABLE = true <-> perm = ReadWrite) /\
  (has_flag (flags_for perm) NO_EXECUTE = false <-> perm = ReadExecute) /\
  has_flag mmio_flags NO_EXECUTE = true.
Proof. destruct perm; repeat split; done. Qed.

(** The trust-boundary test accepts an address exactly when its low 48 bits lie in the
    512 GiB user slot: on canonical lower-half addresses this is the interval
    [[USER_SPACE_BASE, USER_SPACE_END)], but the 16 upper bits are not examined, so
    2^16 - 1 non-canonical copies of every user address pass too. *)
Theorem user_address_test v :
  is_u64 v ->
  (is_user_address v = true <-> USER_SPACE_BASE <= v mod 2^48 < USER_SPACE_END) /\
  (v < 2^48 -> is_user_address v = true <-> USER_SPACE_BASE <= v < USER_SPACE_END) /\
  (is_user_address v = true -> forall k, 0 <= k < 2^16 ->
     is_user_address (v mod 2^48 + k * 2^48) = true).
Proof.
  intros Hv. unfold is_u64 in Hv. split; [apply is_user_address_mod; lia|].
  split; [intros; apply is_user_address_canonical; lia|].
  intros H k Hk. apply is_user_address_mod in H; [|lia].
  pose proof (Z.mod_pos_bound v (2^48) ltac:(lia)).
  apply is_user_address_mod; [lia|]. rewrite Z.mod_add by lia. rewrite Z.mod_small by lia. done.
Qed.

Lemma user_address_test_witness :
  is_user_address USER_SPACE_BASE = true /\
  is_user_address (USER_SPACE_BASE mod 2^48 + 1 * 2^48) = true.
Proof.
  split; [reflexivity|].
  refine (proj2 (proj2 (user_address_test USER_SPACE_BASE _)) _ 1 _);
    [split; vm_compute; congruence | reflexivity | lia].
Defined.
