(* ===== verification/Cap.v ===== *)
(** * Capabilities and handles (kernel/src/cap.rs)

    The capability table and the handle table, both indexed by domain id. Operations that
    index the table directly ([has], [grant], [revoke]) panic on an unknown domain; the
    others test the row first. The interrupt flag, saved and restored around each critical
    section in the source, is what makes every operation here one atomic step. *)

From S2P Require Import Prelude.

(** ** Data *)

Inductive Capability : Type :=
| SendTo (d : Z)
| MapInto (d : Z)
| Irq (v : Z)
| Mmio (p : Z)
| IoPort (base len : Z)
| Net (lo hi : Z)
| Fb
| Spawn.

#[export] Instance Capability_eq_dec : EqDecision Capability.
Proof. solve_decision. Defined.

Definition CAP_SLOTS : nat := 32.
Definition HANDLE_SLOTS : nat := 32.

Definition CAP_KIND_SEND_TO : Z := 0.
Definition CAP_KIND_MAP_INTO : Z := 1.
Definition CAP_KIND_IRQ : Z := 2.
Definition CAP_KIND_MMIO : Z := 3.
Definition CAP_KIND_SPAWN : Z := 4.
Definition CAP_KIND_FB : Z := 5.
Definition CAP_KIND_IO_PORT : Z := 6.
Definition CAP_KIND_NET : Z := 7.

Record cap_state : Type := mk_cap_state {
  CAP_TABLE : list (list (option Capability));
  HANDLE_TABLE : list (list (option Z));
}.

(** ** Encoding of capabilities in syscall arguments *)

Definition decode (kind arg : Z) : option Capability :=
  if kind =? CAP_KIND_SEND_TO then Some (SendTo arg)
  else if kind =? CAP_KIND_MAP_INTO then Some (MapInto arg)
  else if (kind =? CAP_KIND_IRQ) && (arg <=? U8_MAX) then Some (Irq (w8 arg))
  else if (kind =? CAP_KIND_MMIO) && (Z.land arg 0xFFF =? 0) then Some (Mmio arg)
  else if kind =? CAP_KIND_SPAWN then Some Spawn
  else if kind =? CAP_KIND_FB then Some Fb
  else if (kind =? CAP_KIND_IO_PORT) && (Z.shiftr arg 32 =? 0)
          && negb (Z.land arg 0xFFFF =? 0) then
    let base := w16 (Z.shiftr arg 16) in
    let len := w16 (Z.land arg 0xFFFF) in
    if base + len <=? 0x10000 then Some (IoPort base len) else None
  else if (kind =? CAP_KIND_NET) && (Z.shiftr arg 32 =? 0) then
    let lo := w16 (Z.shiftr arg 16) in
    let hi := w16 (Z.land arg 0xFFFF) in
    if lo <=? hi then Some (Net lo hi) else None
  else None.

(** The [(kind, arg)] pair computed by the match of [pack_audit]. *)
Definition kind_arg (cap : Capability) : Z * Z :=
  match cap with
  | SendTo d => (CAP_KIND_SEND_TO, d)
  | MapInto d => (CAP_KIND_MAP_INTO, d)
  | Irq v => (CAP_KIND_IRQ, v)
  | Mmio p => (CAP_KIND_MMIO, p)
  | Spawn => (CAP_KIND_SPAWN, 0)
  | Fb => (CAP_KIND_FB, 0)
  | IoPort base len => (CAP_KIND_IO_PORT, Z.lor (Z.shiftl base 16) len)
  | Net lo hi => (CAP_KIND_NET, Z.lor (Z.shiftl lo 16) hi)
  end.

Definition pack_audit (cap : Capability) : Z :=
  let '(kind, arg) := kind_arg cap in
  Z.lor (w64 (Z.shiftl (kind + 1) 56)) arg.

(** ** Table maintenance *)

(** [fn set_row]. *)
Definition set_row {T} (table : list T) (id : Z) (row : T) : list T :=
  insertZ (grow_to table id row) id row.

Definition empty_caps : list (option Capability) := replicate CAP_SLOTS None.
Definition empty_handles : list (option Z) := replicate HANDLE_SLOTS None.

Definition init (domain_count : nat) : cap_state :=
  mk_cap_state (replicate domain_count empty_caps) (replicate domain_count empty_handles).

Definition add_domain (id : Z) (s : cap_state) : cap_state :=
  mk_cap_state (set_row (CAP_TABLE s) id empty_caps) (set_row (HANDLE_TABLE s) id empty_handles).

Definition remove_domain (id : Z) (s : cap_state) : cap_state :=
  mk_cap_state (set_row (CAP_TABLE s) id empty_caps) (set_row (HANDLE_TABLE s) id empty_handles).

(** ** Handles *)

Definition handle_issue (domain obj : Z) (s : cap_state) : Z * cap_state :=
  match lookupZ (HANDLE_TABLE s) domain with
  | Some slots =>
      match fill_slot obj slots with
      | Some (i, slots') =>
          (Z.of_nat i, mk_cap_state (CAP_TABLE s) (insertZ (HANDLE_TABLE s) domain slots'))
      | None => (U64_MAX, s)
      end
  | None => (U64_MAX, s)
  end.

Definition handle_lookup (domain handle : Z) (s : cap_state) : option Z :=
  slots ← lookupZ (HANDLE_TABLE s) domain;
  slot ← lookupZ slots handle;
  slot.

Definition handle_drop (domain handle : Z) (s : cap_state) : bool * cap_state :=
  match lookupZ (HANDLE_TABLE s) domain with
  | Some slots =>
      match lookupZ slots handle with
      | Some (Some _) =>
          (true, mk_cap_state (CAP_TABLE s)
                   (insertZ (HANDLE_TABLE s) domain (insertZ slots handle None)))
      | _ => (false, s)
      end
  | None => (false, s)
  end.

(** [slot.take()] on handle slot [handle] of domain [from]. *)
Definition take_handle (from handle : Z) (t : list (list (option Z)))
  : option Z * list (list (option Z)) :=
  match lookupZ t from with
  | Some slots =>
      match lookupZ slots handle with
      | Some (Some o) => (Some o, insertZ t from (insertZ slots handle None))
      | _ => (None, t)
      end
  | None => (None, t)
  end.

Definition handle_move (from to handle : Z) (s : cap_state) : Z * cap_state :=
  let '(obj, t) := take_handle from handle (HANDLE_TABLE s) in
  match obj with
  | None => (U64_MAX, mk_cap_state (CAP_TABLE s) t)
  | Some o =>
      match (slots ← lookupZ t to; fill_slot o slots) with
      | Some (i, slots') => (Z.of_nat i, mk_cap_state (CAP_TABLE s) (insertZ t to slots'))
      | None =>
          (* no slot at the receiver: put the object back *)
          let t' := match lookupZ t from with
                    | Some slots =>
                        match lookupZ slots handle with
                        | Some _ => insertZ t from (insertZ slots handle (Some o))
                        | None => t
                        end
                    | None => t
                    end in
          (U64_MAX, mk_cap_state (CAP_TABLE s) t')
      end
  end.

(** ** Capabilities *)

(** [slots.contains(&Some(cap))]. *)
Definition contains (cap : Capability) (slots : list (option Capability)) : bool :=
  existsb (fun slot => bool_decide (slot = Some cap)) slots.

Definition has (domain : Z) (cap : Capability) (s : cap_state) : res bool :=
  slots ← index (CAP_TABLE s) domain;
  mret (contains cap slots).

Definition port_in_range (base len port : Z) : bool :=
  (base <=? port) && (port <? base + len).

Definition net_port_in_range (lo hi port : Z) : bool :=
  (lo <=? port) && (port <=? hi).

Definition has_port (domain port : Z) (s : cap_state) : bool :=
  match lookupZ (CAP_TABLE s) domain with
  | Some slots =>
      existsb (fun slot => match slot with
                           | Some (IoPort base len) => port_in_range base len port
                           | _ => false
                           end) slots
  | None => false
  end.

Definition has_net_port (domain port : Z) (s : cap_state) : bool :=
  match lookupZ (CAP_TABLE s) domain with
  | Some slots =>
      existsb (fun slot => match slot with
                           | Some (Net lo hi) => net_port_in_range lo hi port
                           | _ => false
                           end) slots
  | None => false
  end.

Definition audit_slot (domain slot : Z) (s : cap_state) : option (option Capability) :=
  row ← lookupZ (CAP_TABLE s) domain;
  lookupZ row slot.

Definition grant (domain : Z) (cap : Capability) (s : cap_state) : res (bool * cap_state) :=
  slots ← index (CAP_TABLE s) domain;
  match fill_slot cap slots with
  | Some (_, slots') =>
      mret (true, mk_cap_state (insertZ (CAP_TABLE s) domain slots') (HANDLE_TABLE s))
  | None => mret (false, s)
  end.

Definition revoke (domain : Z) (cap : Capability) (s : cap_state) : res (bool * cap_state) :=
  slots ← index (CAP_TABLE s) domain;
  match position (fun slot => bool_decide (slot = Some cap)) slots with
  | Some i =>
      mret (true, mk_cap_state (insertZ (CAP_TABLE s) domain (<[i := None]> slots))
                    (HANDLE_TABLE s))
  | None => mret (false, s)
  end.

Definition delegate (from to : Z) (cap : Capability) (s : cap_state) : bool * cap_state :=
  let held := match lookupZ (CAP_TABLE s) from with
              | Some slots => contains cap slots
              | None => false
              end in
  if held then
    match lookupZ (CAP_TABLE s) to with
    | Some slots =>
        if contains cap slots then (true, s)
        else
          match fill_slot cap slots with
          | Some (_, slots') =>
              (true, mk_cap_state (insertZ (CAP_TABLE s) to slots') (HANDLE_TABLE s))
          | None => (false, s)
          end
    | None => (false, s)
    end
  else (false, s).

(** ** What a domain holds *)

Definition held (s : cap_state) (d : Z) (c : Capability) : Prop :=
  exists slots i, lookupZ (CAP_TABLE s) d = Some slots /\ slots !! i = Some (Some c).

(** Every row of both tables has its fixed number of slots. *)
Definition cap_wf (s : cap_state) : Prop :=
  (forall d slots, lookupZ (CAP_TABLE s) d = Some slots -> length slots = CAP_SLOTS) /\
  (forall d slots, lookupZ (HANDLE_TABLE s) d = Some slots -> length slots = HANDLE_SLOTS) /\
  length (CAP_TABLE s) = length (HANDLE_TABLE s).

Lemma contains_spec c slots : contains c slots = true <-> exists i : nat, slots !! i = Some (Some c).
Proof.
  unfold contains. rewrite existsb_exists. split.
  - intros (x & Hin & Hx). apply bool_decide_eq_true_1 in Hx. subst.
    apply list_elem_of_In, list_elem_of_lookup in Hin. exact Hin.
  - intros [i Hi]. exists (Some c). split; [|by apply bool_decide_eq_true_2].
    apply list_elem_of_In, list_elem_of_lookup. eauto.
Qed.

Lemma held_alt s d c :
  held s d c <-> exists slots, lookupZ (CAP_TABLE s) d = Some slots /\ contains c slots = true.
Proof. unfold held. setoid_rewrite contains_spec. naive_solver. Qed.

Lemma has_spec s d c b :
  has d c s = Ok b -> (b = true <-> held s d c).
Proof.
  unfold has. intros H. apply res_bind_ok in H as (slots & H1 & H2).
  apply index_ok in H1. inv H2. rewrite held_alt. split; [eauto|].
  intros (sl & Hs & Hc). congruence.
Qed.

(** [held] after one row of the capability table has been replaced. *)
Lemma held_insert_row t h d row d' c' :
  is_Some (lookupZ t d) ->
  held (mk_cap_state (insertZ t d row) h) d' c' <->
  (if decide (d' = d) then exists i : nat, row !! i = Some (Some c')
   else held (mk_cap_state t h) d' c').
Proof.
  intros Hd. unfold held; simpl. case_decide as E; [subst|].
  - rewrite lookupZ_insertZ_eq by done. naive_solver.
  - rewrite lookupZ_insertZ_ne by congruence. done.
Qed.

(** Filling the first empty slot adds exactly one capability to a row. *)
Lemma fill_slot_elem {A} (x : A) slots i slots' y :
  fill_slot x slots = Some (i, slots') ->
  (exists j : nat, slots' !! j = Some (Some y)) <->
  (exists j : nat, slots !! j = Some (Some y)) \/ y = x.
Proof.
  intros H. apply fill_slot_Some in H as [Hi ->].
  pose proof (lookup_lt_Some _ _ _ Hi). split.
  - intros [j Hj]. rewrite list_lookup_insert in Hj. case_decide; naive_solver.
  - intros [[j Hj]| ->].
    + exists j. rewrite list_lookup_insert_ne; [done|]. intros ->. congruence.
    + exists i. by rewrite list_lookup_insert_eq.
Qed.

Lemma held_fill_row s d slots i slots' c d' c' :
  lookupZ (CAP_TABLE s) d = Some slots ->
  fill_slot c slots = Some (i, slots') ->
  held (mk_cap_state (insertZ (CAP_TABLE s) d slots') (HANDLE_TABLE s)) d' c' <->
  held s d' c' \/ (d' = d /\ c' = c).
Proof.
  intros Hd Hf. rewrite held_insert_row by eauto. destruct s as [t h]; simpl in *.
  case_decide as E.
  - subst. rewrite (fill_slot_elem _ _ _ _ _ Hf). unfold held; simpl. naive_solver.
  - naive_solver.
Qed.

(** ** Exact effect of the capability operations *)

Lemma grant_spec s d c b s' :
  grant d c s = Ok (b, s') ->
  HANDLE_TABLE s' = HANDLE_TABLE s /\
  (forall d' c', held s' d' c' <-> held s d' c' \/ (b = true /\ d' = d /\ c' = c)).
Proof.
  unfold grant. intros H. apply res_bind_ok in H as (slots & H1 & H2). apply index_ok in H1.
  destruct (fill_slot c slots) as [[i slots']|] eqn:E; inv H2; simpl; split; try done; intros.
  - rewrite (held_fill_row _ _ _ _ _ _ _ _ H1 E). naive_solver.
  - naive_solver.
Qed.

Lemma delegate_spec from to c s b s' :
  delegate from to c s = (b, s') ->
  HANDLE_TABLE s' = HANDLE_TABLE s /\
  (b = true -> held s from c) /\
  (forall d' c', held s' d' c' <-> held s d' c' \/ (b = true /\ d' = to /\ c' = c)).
Proof.
  unfold delegate. destruct (lookupZ (CAP_TABLE s) from) as [fs|] eqn:Ef.
  2:{ intros [= <- <-]. naive_solver. }
  destruct (contains c fs) eqn:Ec; [|intros [= <- <-]; naive_solver].
  assert (Hheld : held s from c) by (apply held_alt; eauto).
  destruct (lookupZ (CAP_TABLE s) to) as [ts|] eqn:Et; [|intros [= <- <-]; naive_solver].
  destruct (contains c ts) eqn:Ec2.
  - intros [= <- <-]. repeat split; try done; [naive_solver|].
    intros [?|(_ & -> & ->)]; [done|]. apply held_alt; eauto.
  - destruct (fill_slot c ts) as [[i ts']|] eqn:E; intros [= <- <-]; [|naive_solver].
    simpl. repeat split; try done;
      rewrite (held_fill_row _ _ _ _ _ _ _ _ Et E); naive_solver.
Qed.

Lemma revoke_spec d c s b s' :
  revoke d c s = Ok (b, s') ->
  (b = true <-> held s d c) /\
  (forall d' c', held s' d' c' -> held s d' c') /\
  (forall d' c', (d', c') <> (d, c) -> held s d' c' -> held s' d' c').
Proof.
  unfold revoke. intros H. apply res_bind_ok in H as (slots & H1 & H2). apply index_ok in H1.
  destruct (position _ slots) as [i|] eqn:E; inv H2.
  - apply position_Some in E as [(x & Hx & Hb) _]. apply bool_decide_eq_true_1 in Hb. subst.
    pose proof (lookup_lt_Some _ _ _ Hx).
    assert (Hrow : forall d' c', held (mk_cap_state (insertZ (CAP_TABLE s) d (<[i:=None]> slots))
              (HANDLE_TABLE s)) d' c' <->
        if decide (d' = d) then exists j : nat, <[i:=None]> slots !! j = Some (Some c')
        else held s d' c').
    { intros. rewrite held_insert_row by eauto. destruct s; done. }
    split; [|split].
    + split; [|done]. intros _. exists slots, i. done.
    + intros d' c' Hh. apply Hrow in Hh. case_decide; [subst|done].
      destruct Hh as [j Hj]. rewrite list_lookup_insert in Hj. case_decide; [naive_solver|].
      exists slots, j. done.
    + intros d' c' Hne (sl & j & Hs & Hj). apply Hrow. case_decide; [subst|by exists sl, j].
      assert (sl = slots) as -> by congruence.
      exists j. rewrite list_lookup_insert_ne; [done|]. intros ->. congruence.
  - rewrite position_None in E. split; [split; [done|]|done].
    intros (sl & j & Hs & Hj). assert (sl = slots) as -> by congruence.
    specialize (E _ _ Hj). by apply bool_decide_eq_false_1 in E.
Qed.

Lemma set_row_lookup {T} (t : list T) id row d :
  0 <= id ->
  lookupZ (set_row t id row) d =
  (if decide (d = id) then Some row
   else if decide (0 <= d < id /\ Z.of_nat (length t) <= d) then Some row
   else lookupZ t d).
Proof.
  intros Hid. unfold set_row.
  assert (Hs : is_Some (lookupZ (grow_to t id row) id)).
  { destruct (lookupZ (grow_to t id row) id) eqn:E; [eauto|].
    apply lookupZ_None in E. rewrite length_grow_to in E by done. lia. }
  case_decide as E1; [subst; by apply lookupZ_insertZ_eq|].
  rewrite lookupZ_insertZ_ne by congruence.
  destruct (decide (0 <= d)) as [Hd|Hd].
  2:{ case_decide; [lia|]. transitivity (@None T); [|symmetry]; apply lookupZ_None; lia. }
  replace d with (Z.of_nat (Z.to_nat d)) by lia. rewrite !lookupZ_nat.
  rewrite lookup_grow_to by done. repeat case_decide; try lia; try done.
  symmetry. apply lookup_ge_None. lia.
Qed.

(** ** Row-length invariant *)

(** The length of the table after [set_row]. *)
Lemma length_set_row {T} (t : list T) id row :
  0 <= id -> Z.of_nat (length (set_row t id row)) = Z.max (Z.of_nat (length t)) (id + 1).
Proof. intros. unfold set_row. rewrite length_insertZ. by apply length_grow_to. Qed.

Lemma fill_slot_length {A} (x : A) l i l' : fill_slot x l = Some (i, l') -> length l' = length l.
Proof. intros H. apply fill_slot_Some in H as [_ ->]. apply length_insert. Qed.

Lemma cap_wf_init n : cap_wf (init n).
Proof.
  split; [|split]; simpl.
  1,2: intros d slots H; apply lookupZ_Some in H as [_ H]; apply lookup_replicate in H as [-> _];
       apply length_replicate.
  by rewrite !length_replicate.
Qed.

Lemma rows_insert {T} (P : list T -> Prop) (t : list (list T)) d row :
  (forall d' r, lookupZ t d' = Some r -> P r) -> P row ->
  forall d' r, lookupZ (insertZ t d row) d' = Some r -> P r.
Proof.
  intros Ht Hr d' r H. destruct (decide (d = d')) as [->|Hne].
  - destruct (lookupZ t d') eqn:E.
    + rewrite lookupZ_insertZ_eq in H by eauto. naive_solver.
    + apply lookupZ_None in E. assert (lookupZ (insertZ t d' row) d' = None) as E2
        by (apply lookupZ_None; rewrite length_insertZ; lia). congruence.
  - rewrite lookupZ_insertZ_ne in H by done. eauto.
Qed.

Lemma rows_set_row {T} (P : list T -> Prop) (t : list (list T)) id row :
  (forall d' r, lookupZ t d' = Some r -> P r) -> P row ->
  forall d' r, lookupZ (set_row t id row) d' = Some r -> P r.
Proof.
  intros Ht Hr. unfold set_row. apply rows_insert; [|done]. intros d' r H.
  apply lookupZ_Some in H as [Hd H]. unfold grow_to in H.
  apply lookup_app_Some in H as [H|[_ H]].
  - apply (Ht d'). apply lookupZ_Some. done.
  - apply lookup_replicate in H as [-> _]. done.
Qed.

Lemma cap_wf_set_rows id s :
  0 <= id -> cap_wf s ->
  cap_wf (mk_cap_state (set_row (CAP_TABLE s) id empty_caps) (set_row (HANDLE_TABLE s) id empty_handles)).
Proof.
  intros Hid (H1 & H2 & H3). split; [|split]; simpl.
  - by apply rows_set_row.
  - by apply rows_set_row.
  - apply Nat2Z.inj. rewrite !length_set_row by done. lia.
Qed.

Lemma cap_wf_grant d c s b s' : grant d c s = Ok (b, s') -> cap_wf s -> cap_wf s'.
Proof.
  unfold grant. intros H (H1 & H2 & H3).
  apply res_bind_ok in H as (slots & Hs & H). apply index_ok in Hs.
  destruct (fill_slot c slots) as [[i sl]|] eqn:E; inv H; [|done].
  split; [|split]; simpl; [apply rows_insert; [done|] | done | by rewrite length_insertZ].
  rewrite (fill_slot_length _ _ _ _ E). eauto.
Qed.

Lemma cap_wf_delegate from to c s b s' : delegate from to c s = (b, s') -> cap_wf s -> cap_wf s'.
Proof.
  unfold delegate. intros H (H1 & H2 & H3).
  repeat (case_match; simplify_eq; try done).
  split; [|split]; simpl; [apply rows_insert; [done|] | done | by rewrite length_insertZ].
  erewrite fill_slot_length by done. eauto.
Qed.

(** ** Handles: objects are conserved *)

(** All objects held in handle slots, over all domains. *)
Definition row_objects (row : list (option Z)) : list Z := omap id row.
Definition objects (t : list (list (option Z))) : list Z := concat (row_objects <$> t).

Lemma row_objects_fill row (i : nat) o :
  row !! i = Some None -> row_objects (<[i := Some o]> row) ≡ₚ o :: row_objects row.
Proof.
  intros H. pose proof (lookup_lt_Some _ _ _ H). rewrite insert_take_drop by done.
  rewrite <- (take_drop_middle row i None H) at 3. unfold row_objects.
  rewrite !omap_app; simpl. by rewrite Permutation_middle.
Qed.

Lemma row_objects_clear row (i : nat) o :
  row !! i = Some (Some o) -> row_objects row ≡ₚ o :: row_objects (<[i := None]> row).
Proof.
  intros H. pose proof (lookup_lt_Some _ _ _ H).
  rewrite <- (row_objects_fill (<[i := None]> row) i o).
  - by rewrite list_insert_insert_eq, list_insert_id.
  - by apply list_lookup_insert_eq.
Qed.

(** Replacing row [d] changes the multiset of objects by the difference of the rows. *)
Lemma objects_insert t d row row' :
  lookupZ t d = Some row ->
  objects (insertZ t d row') ++ row_objects row ≡ₚ objects t ++ row_objects row'.
Proof.
  intros H. pose proof H as H'. apply lookupZ_Some in H' as [Hd Hr].
  pose proof (lookup_lt_Some _ _ _ Hr).
  unfold insertZ, lookupZ in *. destruct (_ && _) eqn:E; [|discriminate].
  rewrite insert_take_drop by done. rewrite <- (take_drop_middle t _ _ Hr) at 3.
  unfold objects. rewrite !fmap_app, !concat_app; simpl. solve_Permutation.
Qed.

Lemma objects_fill t d row i row' o :
  lookupZ t d = Some row -> fill_slot o row = Some (i, row') ->
  objects (insertZ t d row') ≡ₚ o :: objects t.
Proof.
  intros Ht Hf. apply fill_slot_Some in Hf as [Hi ->].
  pose proof (objects_insert _ _ _ (<[i := Some o]> row) Ht) as HP.
  rewrite (row_objects_fill _ _ _ Hi) in HP.
  apply (Permutation_app_inv_r (row_objects row)). rewrite HP. solve_Permutation.
Qed.

Lemma take_handle_objects from h t o t' :
  take_handle from h t = (Some o, t') -> objects t ≡ₚ o :: objects t'.
Proof.
  unfold take_handle. intros H. destruct (lookupZ t from) as [row|] eqn:Ht; [|discriminate].
  destruct (lookupZ row h) as [[o'|]|] eqn:Hr; inv H.
  pose proof (objects_insert _ _ _ (insertZ row h None) Ht) as HP.
  pose proof Hr as Hr'. apply lookupZ_Some in Hr' as [Hh Hr'].
  assert (insertZ row h None = <[Z.to_nat h := None]> row) as Heq.
  { clear HP Ht. unfold insertZ, lookupZ in *. destruct (_ && _); [done | discriminate]. }
  rewrite Heq in *. rewrite (row_objects_clear _ _ _ Hr') in HP.
  apply (Permutation_app_inv_r (row_objects (<[Z.to_nat h := None]> row))).
  rewrite <- HP. solve_Permutation.
Qed.

(** Putting a taken object back restores the table. *)
Lemma take_handle_restore from h t o t' :
  take_handle from h t = (Some o, t') ->
  exists row row', lookupZ t from = Some row /\ lookupZ row h = Some (Some o) /\
    row' = insertZ row h None /\ t' = insertZ t from row' /\
    lookupZ t' from = Some row' /\ lookupZ row' h = Some None /\
    insertZ t' from (insertZ row' h (Some o)) = t.
Proof.
  unfold take_handle. intros H. destruct (lookupZ t from) as [row|] eqn:Ht; [|discriminate].
  destruct (lookupZ row h) as [[o'|]|] eqn:Hr; inv H.
  exists row, (insertZ row h None). repeat split; try done.
  - apply lookupZ_insertZ_eq; eauto.
  - apply lookupZ_insertZ_eq; eauto.
  - rewrite !insertZ_insertZ, (insertZ_id row h) by done. by apply insertZ_id.
Qed.

Lemma fill_slot_index {A} (x : A) l i l' :
  fill_slot x l = Some (i, l') -> (i < length l)%nat /\ l' !! i = Some (Some x).
Proof.
  intros H. apply fill_slot_Some in H as [Hi ->]. pose proof (lookup_lt_Some _ _ _ Hi).
  split; [done|]. by apply list_lookup_insert_eq.
Qed.

(** The three outcomes of [handle_move]: nothing to move, no room at the receiver, moved. *)
Lemma handle_move_cases from to h s r s' :
  cap_wf s -> handle_move from to h s = (r, s') ->
  (r = U64_MAX /\ s' = s) \/
  (exists o t row i row',
     take_handle from h (HANDLE_TABLE s) = (Some o, t) /\ lookupZ t to = Some row /\
     fill_slot o row = Some (i, row') /\ (i < HANDLE_SLOTS)%nat /\ r = Z.of_nat i /\
     s' = mk_cap_state (CAP_TABLE s) (insertZ t to row')).
Proof.
  intros (_ & Hwf & _). unfold handle_move.
  destruct (take_handle from h (HANDLE_TABLE s)) as [[o|] t] eqn:Et.
  2:{ intros [= <- <-]. left. split; [done|]. unfold take_handle in Et.
      repeat (case_match; simplify_eq; try done); by destruct s. }
  pose proof Et as (row & row' & H1 & H2 & H3 & H4 & H5 & H6 & H7)%take_handle_restore.
  destruct (lookupZ t to) as [trow|] eqn:Eto; simpl.
  - destruct (fill_slot o trow) as [[i trow']|] eqn:Ef.
    + intros [= <- <-]. right. exists o, t, trow, i, trow'. repeat split; try done.
      pose proof (fill_slot_index _ _ _ _ Ef) as [Hi _].
      enough (length trow = HANDLE_SLOTS) by lia. subst t.
      refine (rows_insert (fun r => length r = HANDLE_SLOTS) _ from row' Hwf _ to trow Eto).
      subst row'. rewrite length_insertZ. eauto.
    + rewrite H5, H6, H7. intros [= <- <-]. left. by destruct s.
  - rewrite H5, H6, H7. intros [= <- <-]. left. by destruct s.
Qed.

Lemma cap_wf_handle_move from to h s r s' :
  handle_move from to h s = (r, s') -> cap_wf s -> cap_wf s'.
Proof.
  intros H Hwf. apply (handle_move_cases _ _ _ _ _ _ Hwf) in H.
  destruct H as [[_ ->]|(o & t & row & i & row' & Ht & Hto & Hf & Hi & -> & ->)]; [done|].
  apply take_handle_restore in Ht as (fr & fr' & E1 & E2 & E3 & E4 & _).
  destruct Hwf as (H1 & H2 & H3). split; [done|]. split; simpl.
  - assert (forall d' r, lookupZ t d' = Some r -> length r = HANDLE_SLOTS) as Ht.
    { subst t. apply rows_insert; [done|]. subst fr'. rewrite length_insertZ. eauto. }
    apply rows_insert; [done|]. rewrite (fill_slot_length _ _ _ _ Hf). eauto.
  - subst t. by rewrite !length_insertZ.
Qed.

Lemma handle_lookup_insert t c d row d' k :
  is_Some (lookupZ t d) ->
  handle_lookup d' k (mk_cap_state c (insertZ t d row)) =
  (if decide (d' = d) then (slot ← lookupZ row k; slot)
   else handle_lookup d' k (mk_cap_state c t)).
Proof.
  intros H. unfold handle_lookup; simpl. case_decide; [subst|].
  - by rewrite lookupZ_insertZ_eq.
  - by rewrite lookupZ_insertZ_ne by congruence.
Qed.

Lemma lookupZ_insert_nat {A} (l : list A) (i : nat) x k :
  (i < length l)%nat ->
  lookupZ (<[i := x]> l) k = if decide (k = Z.of_nat i) then Some x else lookupZ l k.
Proof.
  intros Hi. replace (<[i := x]> l) with (insertZ l (Z.of_nat i) x).
  - case_decide; [subst; apply lookupZ_insertZ_eq; rewrite lookupZ_nat; by apply lookup_lt_is_Some
                 | by apply lookupZ_insertZ_ne].
  - unfold insertZ. rewrite (proj2 (Z.leb_le _ _)), (proj2 (Z.ltb_lt _ _)), Nat2Z.id by lia. done.
Qed.

(** A free handle slot of domain [d]. *)
Definition handle_free (s : cap_state) (d : Z) : Prop :=
  exists row k, lookupZ (HANDLE_TABLE s) d = Some row /\ lookupZ row k = Some None.

(** Every slot but the source and the destination of a move keeps its content. *)
Lemma handle_move_frame from to h o t row i row' s :
  take_handle from h (HANDLE_TABLE s) = (Some o, t) -> lookupZ t to = Some row ->
  fill_slot o row = Some (i, row') ->
  forall d k, handle_lookup d k (mk_cap_state (CAP_TABLE s) (insertZ t to row')) =
    if decide ((d, k) = (to, Z.of_nat i)) then Some o
    else if decide ((d, k) = (from, h)) then None
    else handle_lookup d k s.
Proof.
  intros Ht Hto Hf d k.
  apply take_handle_restore in Ht as (fr & fr' & E1 & E2 & E3 & E4 & E5 & E6 & E7).
  pose proof (fill_slot_index _ _ _ _ Hf) as [Hi _]. apply fill_slot_Some in Hf as [Hf ->].
  (* the table after the take *)
  assert (Hmid : handle_lookup d k (mk_cap_state (CAP_TABLE s) t) =
                 if decide ((d, k) = (from, h)) then None else handle_lookup d k s).
  { subst t. rewrite handle_lookup_insert by eauto. destruct s as [c t0]; simpl in *.
    destruct (decide (d = from)) as [->|Hd]; [|rewrite decide_False by congruence; done].
    subst fr'. destruct (decide (k = h)) as [->|Hk].
    - by rewrite decide_True, E6.
    - rewrite decide_False by congruence. rewrite lookupZ_insertZ_ne by congruence.
      unfold handle_lookup; simpl. by rewrite E1. }
  rewrite handle_lookup_insert by eauto. destruct (decide (d = to)) as [->|Hd].
  - rewrite lookupZ_insert_nat by done. destruct (decide (k = Z.of_nat i)) as [->|Hk].
    + by rewrite decide_True.
    + rewrite decide_False by congruence. rewrite <- Hmid. unfold handle_lookup; simpl. by rewrite Hto.
  - rewrite decide_False by congruence. exact Hmid.
Qed.

(** A move succeeds when the source slot is occupied and the receiver has room. *)
Lemma handle_move_progress from to h s :
  cap_wf s -> is_Some (handle_lookup from h s) -> handle_free s to ->
  fst (handle_move from to h s) <> U64_MAX.
Proof.
  intros Hwf [o Ho] (row & k & Hr & Hk).
  unfold handle_lookup in Ho. unfold handle_move, take_handle.
  destruct (lookupZ (HANDLE_TABLE s) from) as [fr|] eqn:Ef; [|discriminate]; simpl in Ho.
  destruct (lookupZ fr h) as [[o'|]|] eqn:Eh; try discriminate.
  injection Ho as ->. set (t := insertZ _ from _).
  assert (exists row2 k2, lookupZ t to = Some row2 /\ lookupZ row2 k2 = Some None)
    as (row2 & k2 & Hr2 & Hk2).
  { destruct (decide (from = to)) as [->|Hne].
    - exists (insertZ fr h None), h. split; apply lookupZ_insertZ_eq; eauto.
    - exists row, k. split; [|done]. subst t. by rewrite lookupZ_insertZ_ne. }
  rewrite Hr2; simpl. destruct (fill_slot o row2) as [[i row2']|] eqn:Ef2; simpl.
  - apply fill_slot_index in Ef2 as [Hi _].
    assert (length row2 = HANDLE_SLOTS).
    { refine (rows_insert (fun r => length r = HANDLE_SLOTS) _ from _ (proj1 (proj2 Hwf)) _ to row2 Hr2).
      rewrite length_insertZ. apply Hwf in Ef. done. }
    unfold HANDLE_SLOTS, U64_MAX in *. lia.
  - apply lookupZ_Some in Hk2 as [_ Hk2]. pose proof (fill_slot_None _ _ Ef2 _ _ Hk2). done.
Qed.

Lemma cap_wf_handle_issue d o s : cap_wf s -> cap_wf (snd (handle_issue d o s)).
Proof.
  intros (H1 & H2 & H3). unfold handle_issue.
  destruct (lookupZ (HANDLE_TABLE s) d) as [row|] eqn:E; [|done].
  destruct (fill_slot o row) as [[i row']|] eqn:Ef; [|done].
  split; [done|]. split; simpl; [|by rewrite length_insertZ].
  apply rows_insert; [done|]. rewrite (fill_slot_length _ _ _ _ Ef). eauto.
Qed.

Lemma cap_wf_handle_drop d h s : cap_wf s -> cap_wf (snd (handle_drop d h s)).
Proof.
  intros (H1 & H2 & H3). unfold handle_drop.
  destruct (lookupZ (HANDLE_TABLE s) d) as [row|] eqn:E; [|done].
  destruct (lookupZ row h) as [[o|]|] eqn:Ef; try done.
  split; [done|]. split; simpl; [|by rewrite length_insertZ].
  apply rows_insert; [done|]. rewrite length_insertZ. eauto.
Qed.

#[export] Hint Resolve cap_wf_init cap_wf_handle_issue cap_wf_handle_drop cap_wf_handle_move
  cap_wf_grant cap_wf_delegate cap_wf_set_rows : morion.

(** [handle_move] is atomic and conserves objects: the multiset of all objects in handle
    slots never changes, a failed call changes nothing, a successful one leaves the object
    at the receiver's new handle and at no other place than before, and the call succeeds
    whenever the source slot is occupied and the receiver has a free slot. *)
Theorem handle_move_atomic from to h s r s' :
  cap_wf s -> handle_move from to h s = (r, s') ->
  objects (HANDLE_TABLE s') ≡ₚ objects (HANDLE_TABLE s) /\
  CAP_TABLE s' = CAP_TABLE s /\
  ((r = U64_MAX /\ s' = s) \/
   exists o, handle_lookup from h s = Some o /\ r <> U64_MAX /\
     forall d k, handle_lookup d k s' =
       if decide ((d, k) = (to, r)) then Some o
       else if decide ((d, k) = (from, h)) then None
       else handle_lookup d k s) /\
  (is_Some (handle_lookup from h s) -> handle_free s to -> r <> U64_MAX).
Proof.
  intros Hwf Hm. pose proof (handle_move_progress from to h s Hwf) as Hprog.
  rewrite Hm in Hprog; simpl in Hprog.
  pose proof (handle_move_cases _ _ _ _ _ _ Hwf Hm)
    as [[-> ->]|(o & t & row & i & row' & Ht & Hto & Hf & Hi & -> & ->)].
  - split; [done|]. split; [done|]. split; [by left | done].
  - assert (Hr : Z.of_nat i <> U64_MAX) by (unfold HANDLE_SLOTS, U64_MAX in *; lia).
    split; [|split; [done|split; [right|done]]].
    + simpl. rewrite (objects_fill _ _ _ _ _ _ Hto Hf). symmetry. by apply (take_handle_objects from h).
    + exists o. split; [|split; [done|by apply (handle_move_frame from to h o t row)]].
      apply take_handle_restore in Ht as (fr & _ & E1 & E2 & _).
      unfold handle_lookup. rewrite E1; simpl. by rewrite E2.
Qed.

(** A two-domain table in which domain 0 owns object 77 at handle 0. *)
Definition demo_caps : cap_state := snd (handle_issue 0 77 (init 2)).

Lemma handle_move_atomic_witness :
  fst (handle_move 0 1 0 demo_caps) = 0 /\
  handle_lookup 1 0 (snd (handle_move 0 1 0 demo_caps)) = Some 77 /\
  handle_lookup 0 0 (snd (handle_move 0 1 0 demo_caps)) = None /\
  objects (HANDLE_TABLE (snd (handle_move 0 1 0 demo_caps))) ≡ₚ objects (HANDLE_TABLE demo_caps).
Proof.
  split; [reflexivity|]. split; [reflexivity|]. split; [reflexivity|].
  refine (proj1 (handle_move_atomic 0 1 0 demo_caps _ _ _ eq_refl)).
  unfold demo_caps. auto with morion.
Defined.

(** ** The audit encoding *)

(** The capabilities whose arguments fit the 56-bit field of [pack_audit]: every value the
    kernel creates ([decode] rejects the rest of the port and page encodings). *)
Definition cap_ok (c : Capability) : Prop :=
  match c with
  | SendTo d | MapInto d => 0 <= d < 2^56
  | Irq v => 0 <= v < 2^8
  | Mmio p => 0 <= p < 2^56 /\ Z.land p 0xFFF = 0
  | IoPort base len => 0 <= base < 2^16 /\ 0 < len < 2^16 /\ base + len <= 0x10000
  | Net lo hi => 0 <= lo /\ lo <= hi < 2^16
  | Fb | Spawn => True
  end.

Lemma kind_arg_bounds c :
  cap_ok c -> 0 <= fst (kind_arg c) < 8 /\ 0 <= snd (kind_arg c) < 2^56.
Proof.
  destruct c; simpl; unfold CAP_KIND_SEND_TO, CAP_KIND_MAP_INTO, CAP_KIND_IRQ, CAP_KIND_MMIO,
    CAP_KIND_SPAWN, CAP_KIND_FB, CAP_KIND_IO_PORT, CAP_KIND_NET; intros H;
    rewrite ?lor_shiftl_add by lia; lia.
Qed.

Lemma pack_audit_sum c :
  cap_ok c -> pack_audit c = (fst (kind_arg c) + 1) * 2^56 + snd (kind_arg c).
Proof.
  intros H. destruct (kind_arg_bounds c H) as [Hk Ha]. unfold pack_audit.
  destruct (kind_arg c) as [k a]; simpl in *.
  unfold w64. rewrite Z.mod_small by (rewrite Z.shiftl_mul_pow2 by lia; lia).
  apply lor_shiftl_add; lia.
Qed.

(** The two 16-bit fields of a port range survive the packing. *)
Lemma port_fields a b :
  0 <= a < 2^16 -> 0 <= b < 2^16 ->
  let x := Z.lor (Z.shiftl a 16) b in
  Z.shiftr x 32 = 0 /\ w16 (Z.shiftr x 16) = a /\ Z.land x 0xFFFF = b /\ w16 b = b.
Proof.
  intros Ha Hb. simpl. rewrite lor_shiftl_add by lia.
  split; [rewrite Z.shiftr_div_pow2 by lia; apply Z.div_small; lia|].
  rewrite shiftr_high by lia. change 0xFFFF with (2^16 - 1). rewrite land_ones_low by lia.
  unfold w16. rewrite !Z.mod_small by lia. done.
Qed.

(** Decoding the [(kind, arg)] pair of a well-formed capability gives it back. *)
Lemma decode_kind_arg c :
  cap_ok c -> decode (fst (kind_arg c)) (snd (kind_arg c)) = Some c.
Proof.
  destruct c; cbn [kind_arg fst snd cap_ok]; intros H; unfold decode;
    cbv [CAP_KIND_SEND_TO CAP_KIND_MAP_INTO CAP_KIND_IRQ CAP_KIND_MMIO CAP_KIND_SPAWN
         CAP_KIND_FB CAP_KIND_IO_PORT CAP_KIND_NET]; cbn [Z.eqb Pos.eqb andb].
  1,2,7,8: reflexivity.
  - unfold U8_MAX, w8. rewrite (proj2 (Z.leb_le v 255)) by lia. by rewrite Z.mod_small by lia.
  - destruct H as [_ ->]. reflexivity.
  - destruct (port_fields base len) as (-> & -> & -> & ->); [lia..|]. simpl.
    rewrite (proj2 (Z.eqb_neq len 0)) by lia. simpl. by rewrite (proj2 (Z.leb_le _ _)) by lia.
  - destruct (port_fields lo hi) as (-> & -> & -> & ->); [lia..|]. simpl.
    by rewrite (proj2 (Z.leb_le _ _)) by lia.
Qed.

(** The audit encoding is faithful: for every well-formed capability, splitting the
    packed word into [kind = (word >> 56) - 1] and the low 56 bits and decoding them gives
    the capability back, and the word is never 0, the value that stands for an empty slot. *)
Theorem pack_audit_decode c :
  cap_ok c ->
  decode (Z.shiftr (pack_audit c) 56 - 1) (Z.land (pack_audit c) (2^56 - 1)) = Some c /\
  pack_audit c <> 0 /\ is_u64 (pack_audit c).
Proof.
  intros H. rewrite (pack_audit_sum c H). destruct (kind_arg_bounds c H) as [Hk Ha].
  rewrite shiftr_high, land_ones_low by lia.
  split; [|unfold is_u64; lia]. rewrite Z.add_simpl_r. by apply decode_kind_arg.
Qed.

Lemma pack_audit_decode_witness :
  cap_ok (IoPort 0x1F0 8) /\
  decode (Z.shiftr (pack_audit (IoPort 0x1F0 8)) 56 - 1)
         (Z.land (pack_audit (IoPort 0x1F0 8)) (2^56 - 1)) = Some (IoPort 0x1F0 8).
Proof.
  assert (H : cap_ok (IoPort 0x1F0 8)) by (simpl; lia).
  split; [exact H|]. exact (proj1 (pack_audit_decode _ H)).
Defined.

(** The arguments [decode] accepts are exactly those the checks at the points of use can
    match: in-range ports, ordered port intervals, page-aligned MMIO bases. *)
Lemma decode_sound kind arg c :
  is_u64 arg -> decode kind arg = Some c ->
  match c with
  | Irq v => 0 <= v < 2^8
  | Mmio p => Z.land p 0xFFF = 0
  | IoPort base len => 0 <= base < 2^16 /\ 0 < len < 2^16 /\ base + len <= 0x10000
  | Net lo hi => 0 <= lo /\ lo <= hi < 2^16
  | _ => True
  end.
Proof.
  unfold decode, w8, w16. intros Hu H.
  repeat (case_match; simplify_eq; bool_to_prop; simpl; try done);
    try (apply Z.mod_pos_bound; lia).
  - pose proof (Z.mod_pos_bound (Z.shiftr arg 16) (2^16) ltac:(lia)).
    change 0xFFFF with (Z.ones 16) in *. rewrite Z.land_ones in * by lia.
    rewrite Z.mod_mod in * by lia. pose proof (Z.mod_pos_bound arg (2^16) ltac:(lia)). lia.
  - pose proof (Z.mod_pos_bound (Z.shiftr arg 16) (2^16) ltac:(lia)).
    pose proof (Z.mod_pos_bound (Z.land arg 0xFFFF) (2^16) ltac:(lia)). lia.
Qed.
