(* ===== verification/Key.v ===== *)
(** * The key-byte ring queue (kernel/src/key.rs)

    A 64-byte ring buffer filled by the keyboard domain ([SYS_KEY_PUSH]) and drained by the
    screen console. The theorems show that it implements a bounded FIFO that drops new
    bytes when full. The wake-up that [push] performs is in the kernel-level file. *)

From S2P Require Import Prelude.

Definition QUEUE_LEN : Z := 64.

Record KeyQueue : Type := mk_KeyQueue {
  buf : list Z;
  head : Z;
  tail : Z;
  count : Z;
}.

(** [KeyQueue::new]. *)
Definition new : KeyQueue := mk_KeyQueue (replicate (Z.to_nat QUEUE_LEN) 0) 0 0 0.

(** [KeyQueue::push]; [None] is the panic of an out-of-range [buf] index. *)
Definition push (c : Z) (q : KeyQueue) : res (bool * KeyQueue) :=
  if QUEUE_LEN <=? count q then mret (false, q)
  else
    b ← index_set (buf q) (tail q) c;
    mret (true, mk_KeyQueue b (head q) ((tail q + 1) mod QUEUE_LEN) (count q + 1)).

(** [KeyQueue::pop]. *)
Definition pop (q : KeyQueue) : res (option Z * KeyQueue) :=
  if count q =? 0 then mret (None, q)
  else
    c ← index (buf q) (head q);
    mret (Some c, mk_KeyQueue (buf q) ((head q + 1) mod QUEUE_LEN) (tail q) (count q - 1)).

(** ** Abstraction: the bytes in arrival order *)

Definition key_wf (q : KeyQueue) : Prop :=
  length (buf q) = Z.to_nat QUEUE_LEN /\ 0 <= head q < QUEUE_LEN /\
  0 <= count q <= QUEUE_LEN /\ tail q = (head q + count q) mod QUEUE_LEN.

Definition cell (q : KeyQueue) (i : Z) : Z :=
  default 0 (lookupZ (buf q) ((head q + i) mod QUEUE_LEN)).

Definition contents (q : KeyQueue) : list Z := cell q <$> seqZ 0 (count q).

Inductive key_op : Type := KPush (c : Z) | KPop.
Inductive key_out : Type := OPush (accepted : bool) | OPop (c : option Z).

(** The ring buffer, one operation at a time. *)
Definition key_exec (o : key_op) (q : KeyQueue) : res (key_out * KeyQueue) :=
  match o with
  | KPush c => r ← push c q; mret (OPush (fst r), snd r)
  | KPop => r ← pop q; mret (OPop (fst r), snd r)
  end.

(** The specification: a FIFO of at most [QUEUE_LEN] bytes that drops what does not fit. *)
Definition fifo_exec (o : key_op) (l : list Z) : key_out * list Z :=
  match o with
  | KPush c => if Z.of_nat (length l) <? QUEUE_LEN then (OPush true, l ++ [c]) else (OPush false, l)
  | KPop => match l with [] => (OPop None, []) | c :: l => (OPop (Some c), l) end
  end.

Fixpoint key_run (ops : list key_op) (q : KeyQueue) : res (list key_out * KeyQueue) :=
  match ops with
  | [] => mret ([], q)
  | o :: ops => r ← key_exec o q; r' ← key_run ops (snd r); mret (fst r :: fst r', snd r')
  end.

Fixpoint fifo_run (ops : list key_op) (l : list Z) : list key_out * list Z :=
  match ops with
  | [] => ([], l)
  | o :: ops => let '(x, l1) := fifo_exec o l in let '(xs, l2) := fifo_run ops l1 in (x :: xs, l2)
  end.

(** ** Proofs *)

Lemma key_wf_new : key_wf new.
Proof. repeat split; vm_compute; congruence. Qed.

Lemma mod_QL i : 0 <= i mod QUEUE_LEN < QUEUE_LEN.
Proof. apply Z.mod_pos_bound. unfold QUEUE_LEN. lia. Qed.

(** Two offsets below the capacity from the same head address distinct cells. *)
Lemma ring_distinct h i j :
  0 <= i < QUEUE_LEN -> 0 <= j < QUEUE_LEN -> i <> j ->
  (h + i) mod QUEUE_LEN <> (h + j) mod QUEUE_LEN.
Proof. unfold QUEUE_LEN. intros ??? H. Z.to_euclidean_division_equations. lia. Qed.

Lemma length_contents q : 0 <= count q -> Z.of_nat (length (contents q)) = count q.
Proof. intros. unfold contents. rewrite length_fmap, length_seqZ. lia. Qed.

Lemma push_contents c q b' :
  key_wf q -> count q < QUEUE_LEN -> index_set (buf q) (tail q) c = Ok b' ->
  contents (mk_KeyQueue b' (head q) ((tail q + 1) mod QUEUE_LEN) (count q + 1)) = contents q ++ [c].
Proof.
  intros (Hl & Hh & Hc & Ht) Hlt Hb. unfold index_set in Hb.
  destruct (_ && _) eqn:E; inv Hb. unfold contents; cbn [count].
  rewrite seqZ_app, fmap_app by lia. f_equal.
  - apply list_fmap_ext. intros i x Hx. apply lookup_seqZ in Hx as [-> Hi].
    unfold cell; cbn [buf head]. rewrite lookupZ_insertZ_ne; [done|].
    rewrite Ht. apply ring_distinct; lia.
  - rewrite (seqZ_cons (0 + count q) 1) by lia. rewrite Z.add_0_l.
    change (seqZ (Z.succ (count q)) (Z.pred 1)) with (@nil Z).
    cbn [fmap list_fmap]. unfold cell; cbn [buf head]. rewrite <- Ht.
    rewrite lookupZ_insertZ_eq; [done|].
    destruct (lookupZ (buf q) (tail q)) eqn:E2; [eauto|]. apply lookupZ_None in E2. bool_to_prop. lia.
Qed.

Lemma key_exec_refines o q :
  key_wf q ->
  exists q', key_exec o q = Ok (fst (fifo_exec o (contents q)), q') /\ key_wf q' /\
             contents q' = snd (fifo_exec o (contents q)).
Proof.
  intros Hwf. pose proof Hwf as (Hl & Hh & Hc & Ht). destruct o as [c|]; simpl.
  - rewrite length_contents by lia. unfold push. destruct (Z.leb_spec QUEUE_LEN (count q)).
    + rewrite (proj2 (Z.ltb_ge _ _)) by lia. exists q. done.
    + rewrite (proj2 (Z.ltb_lt _ _)) by lia. pose proof (mod_QL (head q + count q)) as Hm.
      destruct (index_set (buf q) (tail q) c) as [b'|] eqn:E.
      * eexists. split; [reflexivity|]. split; [|by apply push_contents].
        unfold index_set in E. destruct (_ && _); inv E.
        repeat split; cbn; rewrite ?length_insertZ; try lia.
        rewrite Ht, Zplus_mod_idemp_l. f_equal. lia.
      * unfold index_set in E. destruct (_ && _) eqn:E2; [done|].
        apply andb_false_iff in E2 as [E2|E2]; bool_to_prop; unfold QUEUE_LEN in *; lia.
  - unfold pop. destruct (Z.eqb_spec (count q) 0) as [E|E].
    + assert (contents q = []) as -> by (unfold contents; by rewrite E). exists q.
      repeat split; try done; [lia..|]. unfold contents. by rewrite E.
    + assert (contents q = cell q 0 :: (cell q <$> seqZ 1 (count q - 1))) as Hcons.
      { unfold contents. rewrite seqZ_cons by lia. simpl. do 3 f_equal; lia. }
      assert (exists c, lookupZ (buf q) (head q) = Some c) as [c Hc'].
      { destruct (lookupZ (buf q) (head q)) eqn:E2; [eauto|]. apply lookupZ_None in E2.
        unfold QUEUE_LEN in *. lia. }
      unfold index. rewrite Hc'. rewrite Hcons. simpl.
      assert (cell q 0 = c) as ->.
      { unfold cell. rewrite Z.add_0_r, Z.mod_small by lia. by rewrite Hc'. }
      eexists. split; [reflexivity|]. pose proof (mod_QL (head q + 1)). split.
      * repeat split; cbn; try lia. rewrite Ht, Zplus_mod_idemp_l. f_equal. lia.
      * unfold contents; cbn. rewrite <- (fmap_add_seqZ 1 0), <- list_fmap_compose.
        apply list_fmap_ext. intros i x _. unfold cell; cbn. f_equal. f_equal.
        rewrite Zplus_mod_idemp_l. f_equal. lia.
Qed.

(** The ring buffer refines a bounded FIFO: for every sequence of pushes and pops on a
    queue in any well-formed state no index panics, and the results returned are those of a
    list that appends at the back, removes at the front and rejects (without effect) a byte
    pushed when 64 are waiting; the bytes left in the ring are the list's. *)
Theorem key_queue_refines_fifo ops q :
  key_wf q ->
  exists q', key_run ops q = Ok (fst (fifo_run ops (contents q)), q') /\ key_wf q' /\
             contents q' = snd (fifo_run ops (contents q)).
Proof.
  revert q. induction ops as [|o ops IH]; intros q Hwf; simpl; [eauto|].
  destruct (key_exec_refines o q Hwf) as (q1 & E1 & Hwf1 & Hc1).
  destruct (IH q1 Hwf1) as (q2 & E2 & Hwf2 & Hc2).
  exists q2. rewrite E1; simpl. rewrite E2; simpl. rewrite Hc1 in *.
  destruct (fifo_exec o (contents q)) as [x l1]; simpl in *.
  destruct (fifo_run ops l1) as [xs l2]; simpl in *. done.
Qed.

Lemma key_queue_refines_fifo_witness :
  exists q', key_run [KPush 97; KPush 98; KPop; KPop; KPop] new =
    Ok ([OPush true; OPush true; OPop (Some 97); OPop (Some 98); OPop None], q').
Proof.
  destruct (key_queue_refines_fifo [KPush 97; KPush 98; KPop; KPop; KPop] new key_wf_new)
    as (q' & H & _). exists q'. exact H.
Defined.
