(* ===== verification/Klog.v ===== *)
(** * The kernel log ring (kernel/src/klog.rs)

    A 64 KiB ring that keeps the newest console output, addressed by absolute offsets.
    The theorems relate it to the complete history of captured bytes. *)

From S2P Require Import Prelude Addr.

Definition LOG_CAP : Z := 64 * 1024.
Definition LOG_READ_MAX : Z := 2^20.

Record klog : Type := mk_klog {
  LOG_BUF : list Z;
  LOG_HEAD : Z;
  LOG_TOTAL : Z;
}.

Definition klog_init : klog := mk_klog (replicate (Z.to_nat LOG_CAP) 0) 0 0.

(** The body of the loop of [capture_bytes]. *)
Definition capture_byte (k : klog) (b : Z) : klog :=
  mk_klog (insertZ (LOG_BUF k) (LOG_HEAD k) b) ((LOG_HEAD k + 1) mod LOG_CAP) (w64 (LOG_TOTAL k + 1)).

Definition capture_bytes (bytes : list Z) (k : klog) : klog := foldl capture_byte k bytes.

Definition total (k : klog) : Z := LOG_TOTAL k.

Definition oldest (k : klog) : Z := saturating_sub (LOG_TOTAL k) LOG_CAP.

(** The [while s < total && n < dst.len()] loop; [room] is what is left of [dst]. *)
Fixpoint read_loop (room : nat) (s : Z) (k : klog) : list Z :=
  match room with
  | O => []
  | S room =>
      if s <? LOG_TOTAL k then
        default 0 (lookupZ (LOG_BUF k) (s mod LOG_CAP)) :: read_loop room (s + 1) k
      else []
  end.

(** [read]: the bytes written into [dst]; the value returned is their number. *)
Definition read (start : Z) (dst_len : nat) (k : klog) : list Z :=
  let oldest := saturating_sub (LOG_TOTAL k) LOG_CAP in
  let s := if start <? oldest then oldest else start in
  if LOG_TOTAL k <=? s then [] else read_loop dst_len s k.

(** [handle_read]: the value returned and the bytes stored at [a1]. *)
Definition handle_read (a1 a2 a3 : Z) (k : klog) : Z * list Z :=
  if (a1 =? 0) || (a2 =? 0) then (0, [])
  else
    let len := if LOG_READ_MAX <? a2 then LOG_READ_MAX else a2 in
    if negb (is_user_address a1) || negb (is_user_address (w64 (a1 + len - 1))) then (0, [])
    else
      let out := read a3 (Z.to_nat len) k in
      (Z.of_nat (length out), out).

(** ** The ring holds the newest [LOG_CAP] bytes of the history *)

Definition log_inv (hist : list Z) (k : klog) : Prop :=
  length (LOG_BUF k) = Z.to_nat LOG_CAP /\
  LOG_TOTAL k = Z.of_nat (length hist) /\
  LOG_HEAD k = Z.of_nat (length hist) mod LOG_CAP /\
  forall s : nat, (s < length hist)%nat -> Z.of_nat (length hist) - LOG_CAP <= Z.of_nat s ->
    lookupZ (LOG_BUF k) (Z.of_nat s mod LOG_CAP) = hist !! s.

Lemma log_inv_init : log_inv [] klog_init.
Proof. split; [apply length_replicate|]. split; [done|]. split; [done|]. intros s Hs. simpl in Hs. lia. Qed.

Lemma log_slot_distinct a b :
  0 < b - a < LOG_CAP -> a mod LOG_CAP <> b mod LOG_CAP.
Proof. unfold LOG_CAP. intros ? H. Z.to_euclidean_division_equations. lia. Qed.

Lemma capture_byte_inv hist k b :
  Z.of_nat (length hist) + 1 < 2^64 -> log_inv hist k -> log_inv (hist ++ [b]) (capture_byte k b).
Proof.
  intros Hlen (H1 & H2 & H3 & H4). unfold capture_byte, log_inv; cbn [LOG_BUF LOG_HEAD LOG_TOTAL].
  rewrite length_insertZ, length_app; simpl length.
  split; [done|]. split; [unfold w64; rewrite Z.mod_small; lia|].
  split; [rewrite H3, Zplus_mod_idemp_l; f_equal; lia|].
  intros s Hs Hw. destruct (decide (s = length hist)) as [->|Hne].
  - rewrite list_lookup_middle by done. rewrite <- H3. apply lookupZ_insertZ_eq.
    destruct (lookupZ (LOG_BUF k) (LOG_HEAD k)) eqn:E; [eauto|]. apply lookupZ_None in E.
    pose proof (Z.mod_pos_bound (Z.of_nat (length hist)) LOG_CAP ltac:(unfold LOG_CAP; lia)).
    unfold LOG_CAP in *. lia.
  - rewrite lookup_app_l by lia. rewrite lookupZ_insertZ_ne; [apply H4; lia|].
    rewrite H3. intros E. symmetry in E. revert E. apply log_slot_distinct. lia.
Qed.

Lemma capture_bytes_inv bytes hist k :
  Z.of_nat (length hist + length bytes) < 2^64 ->
  log_inv hist k -> log_inv (hist ++ bytes) (capture_bytes bytes k).
Proof.
  revert hist k. induction bytes as [|b bytes IH]; intros hist k Hlen Hinv; simpl in *.
  - by rewrite app_nil_r.
  - replace (hist ++ b :: bytes) with ((hist ++ [b]) ++ bytes) by by rewrite <- app_assoc.
    apply IH; [rewrite length_app; simpl; lia|]. apply capture_byte_inv; [lia | done].
Qed.

Lemma read_loop_window hist k room s :
  log_inv hist k -> 0 <= s -> Z.of_nat (length hist) - LOG_CAP <= s ->
  read_loop room s k = take room (drop (Z.to_nat s) hist).
Proof.
  intros (H1 & H2 & H3 & H4). revert s. induction room as [|room IH]; intros s Hs Hw; simpl; [done|].
  rewrite H2. destruct (Z.ltb_spec s (Z.of_nat (length hist))) as [Hlt|Hge].
  - destruct (lookup_lt_is_Some_2 hist (Z.to_nat s)) as [x Hx]; [lia|].
    rewrite (drop_S _ _ _ Hx). simpl. f_equal.
    + replace s with (Z.of_nat (Z.to_nat s)) at 1 by lia. rewrite H4, Hx by lia. done.
    + rewrite IH by lia. do 2 f_equal. lia.
  - rewrite drop_ge by lia. by rewrite take_nil.
Qed.

Lemma read_window hist k start n :
  log_inv hist k -> 0 <= start ->
  read start n k = take n (drop (Z.to_nat (Z.max start (oldest k))) hist).
Proof.
  intros Hinv Hs. pose proof Hinv as (H1 & H2 & H3 & H4).
  unfold read, oldest, saturating_sub. rewrite H2.
  set (o := Z.max (Z.of_nat (length hist) - LOG_CAP) 0).
  replace (if start <? o then o else start) with (Z.max start o)
    by (destruct (Z.ltb_spec start o); lia).
  destruct (Z.leb_spec (Z.of_nat (length hist)) (Z.max start o)).
  - rewrite drop_ge by lia. by rewrite take_nil.
  - apply read_loop_window; [done | lia..].
Qed.

(** The log ring is a window on the complete history: after any sequence of captured
    bytes [hist] (fewer than 2^64), [total] is their number, [oldest] the offset of the
    newest 64 KiB, and [read start n] returns exactly the [n] bytes of [hist] from offset
    [max start oldest] on (fewer at the end of the log), never stale or reordered ones. *)
Theorem klog_reads_history hist start n :
  Z.of_nat (length hist) < 2^64 -> 0 <= start ->
  let k := capture_bytes hist klog_init in
  total k = Z.of_nat (length hist) /\
  oldest k = Z.max 0 (Z.of_nat (length hist) - LOG_CAP) /\
  read start n k = take n (drop (Z.to_nat (Z.max start (oldest k))) hist).
Proof.
  intros Hlen Hs k. assert (Hinv : log_inv hist k).
  { exact (capture_bytes_inv hist [] klog_init Hlen log_inv_init). }
  split; [apply Hinv|]. split; [|by apply read_window].
  destruct Hinv as (_ & H2 & _). unfold oldest, saturating_sub. rewrite H2. lia.
Qed.

Lemma klog_reads_history_witness :
  read 1 2 (capture_bytes [104; 105; 33; 10] klog_init) = [105; 33].
Proof.
  destruct (klog_reads_history [104; 105; 33; 10] 1 2 ltac:(simpl; lia) ltac:(lia)) as (_ & Ho & Hr).
  rewrite Hr, Ho. reflexivity.
Defined.

Lemma length_read_le start n k : (length (read start n k) <= n)%nat.
Proof.
  unfold read. destruct (_ <=? _); [simpl; lia|]. set (s := if _ <? _ then _ else _). clearbody s.
  revert s. induction n as [|n IH]; intros s; simpl; [lia|].
  destruct (_ <? _); simpl; [specialize (IH (s + 1))|]; lia.
Qed.

(** [SYS_LOG_READ] stays inside its trust boundary: whatever the three arguments are, it
    stores at most [min a2 2^20] bytes, every byte it stores is at an address that passes the
    user-address test, and the value it returns is the number of bytes stored. *)
Theorem handle_read_user_only a1 a2 a3 k :
  is_u64 a1 -> is_u64 a2 ->
  fst (handle_read a1 a2 a3 k) = Z.of_nat (length (snd (handle_read a1 a2 a3 k))) /\
  fst (handle_read a1 a2 a3 k) <= Z.min a2 LOG_READ_MAX /\
  forall i, 0 <= i < fst (handle_read a1 a2 a3 k) -> is_user_address (a1 + i) = true.
Proof.
  unfold is_u64, handle_read. intros H1 H2.
  destruct ((a1 =? 0) || (a2 =? 0)) eqn:E0; [cbn [fst snd length]; unfold LOG_READ_MAX; repeat split; lia|].
  set (len := if LOG_READ_MAX <? a2 then LOG_READ_MAX else a2).
  assert (Hlen : 0 < len <= Z.min a2 LOG_READ_MAX).
  { apply orb_false_elim in E0 as [_ E0]. bool_to_prop. subst len.
    destruct (Z.ltb_spec LOG_READ_MAX a2); unfold LOG_READ_MAX in *; lia. }
  clearbody len. unfold LOG_READ_MAX in *.
  destruct (is_user_address a1) eqn:Ea; cbn [negb orb]; [|cbn [fst snd length]; repeat split; lia].
  destruct (is_user_address (w64 _)) eqn:Eb; cbn [negb orb]; [|cbn [fst snd length]; repeat split; lia].
  cbn [fst snd]. pose proof (length_read_le a3 (Z.to_nat len) k) as Hb.
  split; [done|]. split; [lia|]. intros i Hi.
  apply (user_interval a1 len); try done; [lia..|].
  apply is_user_address_mod in Ea; [|lia]. unfold USER_SPACE_END, USER_SPACE_BASE in Ea.
  Z.to_euclidean_division_equations. lia.
Qed.

Lemma handle_read_user_only_witness :
  fst (handle_read USER_SPACE_BASE 2 0 (capture_bytes [104; 105; 33] klog_init)) = 2 /\
  is_user_address (USER_SPACE_BASE + 1) = true.
Proof.
  split; [reflexivity|].
  refine (proj2 (proj2 (handle_read_user_only USER_SPACE_BASE 2 0 (capture_bytes [104; 105; 33] klog_init) _ _)) 1 _);
    [split; vm_compute; congruence | split; vm_compute; congruence |].
  split; [lia|]. vm_compute. reflexivity.
Defined.
