(* ===== verification/Frames.v ===== *)
(** * The physical frame allocator (kernel/src/memory/frame_allocator.rs)

    A bitmap with one bit per 4 KiB frame (1 = in use), a list of pinned ranges that must
    never be released, and a table of reference counts for shared frames. *)

From S2P Require Import Prelude Addr.

(** ** Data *)

Definition PTE_ADDR_MASK : Z := 0x000FFFFFFFFFF000.
Definition PTE_HUGE : Z := 128.
Definition BITMAP_SIZE : Z := 1024 * 1024.
Definition MAX_MANAGED_FRAMES : Z := BITMAP_SIZE * 8.
Definition MAX_PINNED_RANGES : nat := 4.
Definition MAX_SHARED_FRAMES : nat := 1024.

(** The byte array [FRAME_BITMAP]: [dflt] is the byte of the last [fill], [over] what was
    stored since. *)
Record bytes_array : Type := mk_bytes { dflt : Z; over : gmap Z Z }.
Definition byte_at (a : bytes_array) (i : Z) : Z := default (dflt a) (over a !! i).
Definition byte_set (a : bytes_array) (i v : Z) : bytes_array := mk_bytes (dflt a) (<[i := v]> (over a)).
Definition byte_fill (v : Z) : bytes_array := mk_bytes v ∅.

Record frames : Type := mk_frames {
  FRAME_BITMAP : bytes_array;
  TOTAL_FRAMES : Z;
  FREE_FRAMES : Z;
  PINNED_RANGES : list (Z * Z);        (* the first PINNED_LEN entries *)
  SHARED_FRAMES : list (Z * Z);        (* (frame, count), count = 0 is a free slot *)
}.

Definition frames_boot : frames :=
  mk_frames (byte_fill 0) 0 0 [] (replicate MAX_SHARED_FRAMES (0, 0)).

Definition with_bitmap (f : frames) (b : bytes_array) : frames :=
  mk_frames b (TOTAL_FRAMES f) (FREE_FRAMES f) (PINNED_RANGES f) (SHARED_FRAMES f).
Definition with_free (f : frames) (n : Z) : frames :=
  mk_frames (FRAME_BITMAP f) (TOTAL_FRAMES f) n (PINNED_RANGES f) (SHARED_FRAMES f).
Definition with_shared (f : frames) (s : list (Z * Z)) : frames :=
  mk_frames (FRAME_BITMAP f) (TOTAL_FRAMES f) (FREE_FRAMES f) (PINNED_RANGES f) s.

(** ** Bitmap primitives *)

Definition bitmap_set (idx : Z) (b : bytes_array) : bytes_array :=
  byte_set b (idx / 8) (Z.lor (byte_at b (idx / 8)) (Z.shiftl 1 (idx mod 8))).

Definition bitmap_clear (idx : Z) (b : bytes_array) : bytes_array :=
  byte_set b (idx / 8) (Z.land (byte_at b (idx / 8)) (Z.lxor 0xFF (Z.shiftl 1 (idx mod 8)))).

Definition bitmap_test (idx : Z) (b : bytes_array) : bool :=
  negb (Z.land (byte_at b (idx / 8)) (Z.shiftl 1 (idx mod 8)) =? 0).

Definition pin_range (start stop : Z) (f : frames) : frames :=
  let s := page_floor start in
  let e := page_floor (w64 (stop + FRAME_SIZE - 1)) in
  if (length (PINNED_RANGES f) <? MAX_PINNED_RANGES)%nat then
    mk_frames (FRAME_BITMAP f) (TOTAL_FRAMES f) (FREE_FRAMES f) (PINNED_RANGES f ++ [(s, e)])
      (SHARED_FRAMES f)
  else f.

Definition is_pinned (addr : Z) (f : frames) : bool :=
  existsb (fun '(s, e) => (s <=? addr) && (addr <? e)) (PINNED_RANGES f).

(** ** Allocation and release *)

Definition reserve_frame (addr : Z) (f : frames) : frames :=
  let idx := addr / FRAME_SIZE in
  if (idx <? MAX_MANAGED_FRAMES) && negb (bitmap_test idx (FRAME_BITMAP f)) then
    with_free (with_bitmap f (bitmap_set idx (FRAME_BITMAP f))) (saturating_sub (FREE_FRAMES f) 1)
  else f.

Definition allocate_frame (f : frames) : option Z * frames :=
  match find_from (fun idx => negb (bitmap_test idx (FRAME_BITMAP f)))
          (Z.to_nat MAX_MANAGED_FRAMES) 0 with
  | Some idx =>
      (Some (idx * FRAME_SIZE),
       with_free (with_bitmap f (bitmap_set idx (FRAME_BITMAP f))) (w64 (FREE_FRAMES f - 1)))
  | None => (None, f)
  end.

(** The scan of [allocate_frames]: [run] consecutive free frames end just before [idx],
    the first of them at [run_start]. *)
Fixpoint run_scan (b : bytes_array) (count : Z) (fuel : nat) (idx run run_start : Z) : option Z :=
  match fuel with
  | O => None
  | S fuel =>
      if negb (bitmap_test idx b) then
        let run_start := if run =? 0 then idx else run_start in
        if run + 1 =? count then Some run_start
        else run_scan b count fuel (idx + 1) (run + 1) run_start
      else run_scan b count fuel (idx + 1) 0 run_start
  end.

Definition allocate_frames (count : Z) (f : frames) : option Z * frames :=
  if count =? 0 then (None, f)
  else
    match run_scan (FRAME_BITMAP f) count (Z.to_nat MAX_MANAGED_FRAMES) 0 0 0 with
    | Some run_start =>
        (Some (run_start * FRAME_SIZE),
         with_free
           (with_bitmap f (foldl (fun b i => bitmap_set i b) (FRAME_BITMAP f) (seqZ run_start count)))
           (w64 (FREE_FRAMES f - count)))
    | None => (None, f)
    end.

Definition free_frame (addr : Z) (f : frames) : frames :=
  if is_pinned addr f then f
  else
    let idx := addr / FRAME_SIZE in
    if (idx <? MAX_MANAGED_FRAMES) && bitmap_test idx (FRAME_BITMAP f) then
      with_free (with_bitmap f (bitmap_clear idx (FRAME_BITMAP f))) (w64 (FREE_FRAMES f + 1))
    else f.

(** ** Reference counts of shared frames *)

Definition live_slot (addr : Z) (slot : Z * Z) : bool := (fst slot =? addr) && (0 <? snd slot).

Definition inc_ref (addr : Z) (f : frames) : frames :=
  match position (live_slot addr) (SHARED_FRAMES f) with
  | Some i =>
      with_shared f (alter (fun slot => (fst slot, w8 (snd slot + 1))) i (SHARED_FRAMES f))
  | None =>
      match position (fun slot => snd slot =? 0) (SHARED_FRAMES f) with
      | Some i => with_shared f (<[i := (addr, 1)]> (SHARED_FRAMES f))
      | None => f
      end
  end.

Definition dec_ref (addr : Z) (f : frames) : bool * frames :=
  match position (live_slot addr) (SHARED_FRAMES f) with
  | Some i =>
      match SHARED_FRAMES f !! i with
      | Some (a, n) =>
          if n - 1 =? 0 then (true, with_shared f (<[i := (0, 0)]> (SHARED_FRAMES f)))
          else (false, with_shared f (<[i := (a, n - 1)]> (SHARED_FRAMES f)))
      | None => (false, f)
      end
  | None => (false, f)
  end.

Definition is_tracked (addr : Z) (f : frames) : bool := existsb (live_slot addr) (SHARED_FRAMES f).

Definition release_user_frame (addr : Z) (f : frames) : frames :=
  if is_tracked addr f then
    let '(last, f') := dec_ref addr f in
    if last then free_frame addr f' else f'
  else free_frame addr f.

Definition total_frames (f : frames) : Z := TOTAL_FRAMES f.
Definition free_frames (f : frames) : Z := FREE_FRAMES f.
Definition total_memory_bytes (f : frames) : Z := total_frames f * FRAME_SIZE.
Definition free_memory_bytes (f : frames) : Z := free_frames f * FRAME_SIZE.

(** ** Initialisation from the boot memory map *)

Definition MEMORY_CONVENTIONAL : Z := 7.

Record MemoryDescriptor : Type := mk_desc { ty : Z; phys_start : Z; page_count : Z }.

(** The fields of [BootInfo] the allocator reads; [mmap] is the descriptor array. *)
Record fb_mmap : Type := mk_fb_mmap {
  fb_addr : Z; fb_height : Z; fb_stride : Z; fb_bpp : Z; mmap : list MemoryDescriptor;
}.

(** The loop over the frames of one descriptor. The loop leaves at the first frame above the
    managed range, so [MAX_MANAGED_FRAMES + 1] iterations are always enough. *)
Fixpoint init_loop (fuel : nat) (kernel_end fb_start fb_end stop frame_addr : Z)
    (acc : bytes_array * Z) : bytes_array * Z :=
  match fuel with
  | O => acc
  | S fuel =>
      if frame_addr <? stop then
        let idx := frame_addr / FRAME_SIZE in
        if MAX_MANAGED_FRAMES <=? idx then acc
        else
          let acc' :=
            if frame_addr <? kernel_end then acc
            else if (fb_start <=? idx) && (idx <? fb_end) then acc
            else (bitmap_clear idx (fst acc), snd acc + 1) in
          init_loop fuel kernel_end fb_start fb_end stop (frame_addr + FRAME_SIZE) acc'
      else acc
  end.

(** One 8-byte page-table entry of the tables the boot loader left active. *)
Definition reserve_pd (rd : Z -> Z) (pd : Z) (f : frames) : frames :=
  foldl (fun f k =>
           let e2 := rd (pd + 8 * k) in
           if (Z.land e2 1 =? 0) || negb (Z.land e2 PTE_HUGE =? 0) then f
           else reserve_frame (Z.land e2 PTE_ADDR_MASK) f) f (seqZ 0 512).

Definition reserve_pdpt (rd : Z -> Z) (pdpt : Z) (f : frames) : frames :=
  foldl (fun f j =>
           let e3 := rd (pdpt + 8 * j) in
           if (Z.land e3 1 =? 0) || negb (Z.land e3 PTE_HUGE =? 0) then f
           else let pd := Z.land e3 PTE_ADDR_MASK in reserve_pd rd pd (reserve_frame pd f))
        f (seqZ 0 512).

Definition reserve_active_page_tables (rd : Z -> Z) (pml4 : Z) (f : frames) : frames :=
  foldl (fun f i =>
           let e4 := rd (pml4 + 8 * i) in
           if Z.land e4 1 =? 0 then f
           else let pdpt := Z.land e4 PTE_ADDR_MASK in reserve_pdpt rd pdpt (reserve_frame pdpt f))
        (reserve_frame pml4 f) (seqZ 0 512).

(** [init]: [kernel_end_sym] is the address of the linker symbol, [rd] reads a physical
    8-byte word and [cr3] is the page-table root in use. *)
Definition init (info : fb_mmap) (kernel_end_sym : Z) (rd : Z -> Z) (cr3 : Z) (f : frames) : frames :=
  let kernel_end := Z.land (kernel_end_sym + 0x10000 - 1) (Z.lxor (2^64 - 1) (0x10000 - 1)) in
  let fb_bytes := w64 (w64 (fb_height info * fb_stride info) * (fb_bpp info / 8)) in
  let fb_start_frame := fb_addr info / FRAME_SIZE in
  let fb_end_frame := div_ceil (w64 (fb_addr info + fb_bytes)) FRAME_SIZE in
  let f := pin_range (fb_addr info) (w64 (fb_addr info + fb_bytes)) f in
  let '(b, n) :=
    foldl (fun acc desc =>
             if negb (ty desc =? MEMORY_CONVENTIONAL) then acc
             else
               let start := phys_start desc in
               let stop := w64 (start + w64 (page_count desc * FRAME_SIZE)) in
               init_loop (Z.to_nat (MAX_MANAGED_FRAMES + 1)) kernel_end fb_start_frame fb_end_frame
                 stop start acc)
          (byte_fill 0xFF, 0) (mmap info) in
  reserve_active_page_tables rd cr3 (mk_frames b n n (PINNED_RANGES f) (SHARED_FRAMES f)).

(** ** Bits of the bitmap *)

Lemma MAX_val : MAX_MANAGED_FRAMES = 8388608.
Proof. reflexivity. Qed.
#[global] Opaque MAX_MANAGED_FRAMES.

Lemma land_bit x k : 0 <= k -> negb (Z.land x (Z.shiftl 1 k) =? 0) = Z.testbit x k.
Proof.
  intros Hk. rewrite Z.shiftl_1_l. destruct (Z.testbit x k) eqn:E.
  - apply negb_true_iff, Z.eqb_neq. intros H. apply (f_equal (fun y => Z.testbit y k)) in H.
    rewrite Z.land_spec, Z.pow2_bits_true, E, Z.bits_0 in H by lia. discriminate.
  - apply negb_false_iff, Z.eqb_eq, Z.bits_inj'. intros n Hn. rewrite Z.land_spec, Z.bits_0.
    destruct (Z.eq_dec n k) as [->|]; [by rewrite E|].
    rewrite Z.pow2_bits_false by lia. apply andb_false_r.
Qed.

Lemma bitmap_test_bit i b : bitmap_test i b = Z.testbit (byte_at b (i / 8)) (i mod 8).
Proof. unfold bitmap_test. apply land_bit. apply Z.mod_pos_bound. lia. Qed.

Lemma byte_at_set b i v j : byte_at (byte_set b i v) j = if decide (i = j) then v else byte_at b j.
Proof. unfold byte_at, byte_set; simpl. rewrite lookup_insert. by case_decide. Qed.

Lemma same_byte i j : i / 8 = j / 8 -> i mod 8 = j mod 8 -> i = j.
Proof. intros. rewrite (Z.div_mod i 8), (Z.div_mod j 8) by lia. congruence. Qed.

Lemma bitmap_test_set i j b :
  bitmap_test j (bitmap_set i b) = if decide (i = j) then true else bitmap_test j b.
Proof.
  rewrite !bitmap_test_bit. unfold bitmap_set. rewrite byte_at_set.
  pose proof (Z.mod_pos_bound i 8 ltac:(lia)). pose proof (Z.mod_pos_bound j 8 ltac:(lia)).
  destruct (decide (i / 8 = j / 8)) as [E|E].
  - rewrite Z.lor_spec, Z.shiftl_1_l, E. destruct (decide (i = j)) as [->|Hne].
    + rewrite Z.pow2_bits_true by lia. apply orb_true_r.
    + rewrite Z.pow2_bits_false by (intros ?; apply Hne, same_byte; congruence). apply orb_false_r.
  - rewrite decide_False by congruence. done.
Qed.

Lemma testbit_byte_mask n k :
  0 <= n < 8 -> 0 <= k < 8 -> Z.testbit (Z.lxor 0xFF (2 ^ n)) k = negb (Z.eqb n k).
Proof.
  intros Hn Hk. rewrite Z.lxor_spec. change 0xFF with (Z.ones 8). rewrite Z.ones_spec_low by lia.
  destruct (Z.eqb_spec n k) as [->|]; [by rewrite Z.pow2_bits_true by lia|].
  by rewrite Z.pow2_bits_false by lia.
Qed.

Lemma bitmap_test_clear i j b :
  bitmap_test j (bitmap_clear i b) = if decide (i = j) then false else bitmap_test j b.
Proof.
  rewrite !bitmap_test_bit. unfold bitmap_clear. rewrite byte_at_set.
  pose proof (Z.mod_pos_bound i 8 ltac:(lia)). pose proof (Z.mod_pos_bound j 8 ltac:(lia)).
  destruct (decide (i / 8 = j / 8)) as [E|E].
  - rewrite Z.land_spec, Z.shiftl_1_l, E, testbit_byte_mask by lia.
    destruct (decide (i = j)) as [->|Hne].
    + rewrite Z.eqb_refl. apply andb_false_r.
    + rewrite (proj2 (Z.eqb_neq _ _)) by (intros ?; apply Hne, same_byte; congruence).
      apply andb_true_r.
  - rewrite decide_False by congruence. done.
Qed.

#[export] Hint Rewrite bitmap_test_set bitmap_test_clear : morion_rw.

(** ** Free frames and their number *)

Definition is_free (f : frames) (idx : Z) : Prop := bitmap_test idx (FRAME_BITMAP f) = false.

Definition managed : list Z := seqZ 0 MAX_MANAGED_FRAMES.

(** The number of free frames the bitmap shows. *)
Definition free_count (b : bytes_array) : Z :=
  Z.of_nat (length (filter (fun i => bitmap_test i b = false) managed)).

(** The counter kept beside the bitmap is exact. *)
Definition frames_wf (f : frames) : Prop := FREE_FRAMES f = free_count (FRAME_BITMAP f).

Lemma elem_of_managed i : i ∈ managed <-> 0 <= i < MAX_MANAGED_FRAMES.
Proof. unfold managed. rewrite elem_of_seqZ. lia. Qed.

Lemma free_count_bounds b : 0 <= free_count b <= MAX_MANAGED_FRAMES.
Proof.
  unfold free_count. pose proof (length_filter (fun i => bitmap_test i b = false) managed) as H.
  unfold managed in *. rewrite length_seqZ in H. rewrite MAX_val in *. lia.
Qed.

(** Two predicates that differ only at [i]. *)
Lemma filter_flip (P Q : Z -> Prop) `{!forall x, Decision (P x), !forall x, Decision (Q x)} i l :
  NoDup l -> i ∈ l -> P i -> ~ Q i -> (forall j, j <> i -> P j <-> Q j) ->
  length (filter P l) = S (length (filter Q l)).
Proof.
  intros Hnd Hin HP HQ Heq. induction Hnd as [|x l Hx Hnd IH]; [by apply not_elem_of_nil in Hin|].
  rewrite !filter_cons. destruct (decide (x = i)) as [->|Hne].
  - rewrite decide_True, decide_False by done. simpl. f_equal. f_equal.
    apply filter_ext_elem. intros y Hy. apply Heq. intros ->. done.
  - assert (i ∈ l) by set_solver. specialize (Heq x Hne) as Hx'.
    destruct (decide (P x)), (decide (Q x)); simpl; try tauto; rewrite IH; done.
Qed.

Lemma NoDup_managed : NoDup managed.
Proof. apply NoDup_seqZ. Qed.

Lemma free_count_set i b :
  0 <= i < MAX_MANAGED_FRAMES -> bitmap_test i b = false ->
  free_count (bitmap_set i b) = free_count b - 1.
Proof.
  intros Hi Hb. unfold free_count.
  rewrite (filter_flip (fun j => bitmap_test j b = false)
             (fun j => bitmap_test j (bitmap_set i b) = false) i managed NoDup_managed); [lia|..].
  - by apply elem_of_managed.
  - done.
  - rewrite bitmap_test_set, decide_True; done.
  - intros j Hj. rewrite bitmap_test_set, decide_False; done.
Qed.

Lemma free_count_clear i b :
  0 <= i < MAX_MANAGED_FRAMES -> bitmap_test i b = true ->
  free_count (bitmap_clear i b) = free_count b + 1.
Proof.
  intros Hi Hb. unfold free_count.
  rewrite (filter_flip (fun j => bitmap_test j (bitmap_clear i b) = false)
             (fun j => bitmap_test j b = false) i managed NoDup_managed); [lia|..].
  - by apply elem_of_managed.
  - rewrite bitmap_test_clear, decide_True; done.
  - congruence.
  - intros j Hj. rewrite bitmap_test_clear, decide_False; done.
Qed.

Lemma byte_fill_used j : bitmap_test j (byte_fill 0xFF) = true.
Proof.
  rewrite bitmap_test_bit. unfold byte_at, byte_fill; cbn [over dflt]. rewrite lookup_empty. cbn [default].
  change 255 with (Z.ones 8). apply Z.ones_spec_low. apply Z.mod_pos_bound. lia.
Qed.

Lemma free_count_used : free_count (byte_fill 0xFF) = 0.
Proof.
  unfold free_count. rewrite (filter_ext_elem _ (fun _ => False)).
  - induction managed as [|x l IH]; [done|]. rewrite filter_cons, decide_False; [exact IH | tauto].
  - intros x _. rewrite byte_fill_used. split; [discriminate | done].
Qed.

(** ** Single frames *)

Lemma allocate_frame_Some f a f' :
  allocate_frame f = (Some a, f') ->
  exists idx, 0 <= idx < MAX_MANAGED_FRAMES /\ a = idx * FRAME_SIZE /\ is_free f idx /\
    (forall j, 0 <= j < idx -> ~ is_free f j) /\
    f' = with_free (with_bitmap f (bitmap_set idx (FRAME_BITMAP f))) (w64 (FREE_FRAMES f - 1)).
Proof.
  unfold allocate_frame. destruct (find_from _ _ _) as [idx|] eqn:E; [|discriminate].
  intros [= <- <-]. apply find_from_Some in E as (H1 & H2 & H3).
  exists idx. split; [lia|]. split; [done|]. split; [by apply negb_true_iff|]. split; [|done].
  intros j Hj Hf. specialize (H3 j ltac:(lia)). unfold is_free in Hf. by rewrite Hf in H3.
Qed.

Lemma allocate_frame_None f f' :
  allocate_frame f = (None, f') ->
  f' = f /\ forall i, 0 <= i < MAX_MANAGED_FRAMES -> ~ is_free f i.
Proof.
  unfold allocate_frame. destruct (find_from _ _ _) as [idx|] eqn:E; [discriminate|].
  intros [= <-]. split; [done|]. intros i Hi Hf. rewrite find_from_None in E.
  specialize (E i ltac:(lia)). unfold is_free in Hf. by rewrite Hf in E.
Qed.

Lemma frames_wf_allocate_frame f o f' : allocate_frame f = (o, f') -> frames_wf f -> frames_wf f'.
Proof.
  intros H Hwf. destruct o as [a|].
  - apply allocate_frame_Some in H as (idx & Hi & -> & Hf & _ & ->). unfold frames_wf in *; simpl.
    rewrite free_count_set by done. rewrite Hwf. unfold w64. apply Z.mod_small.
    pose proof (free_count_bounds (FRAME_BITMAP f)) as Hb.
    pose proof (free_count_bounds (bitmap_set idx (FRAME_BITMAP f))) as Hb'.
    rewrite free_count_set in Hb' by done. rewrite MAX_val in *. lia.
  - by apply allocate_frame_None in H as [-> _].
Qed.

Lemma frames_wf_free_frame a f : 0 <= a -> frames_wf f -> frames_wf (free_frame a f).
Proof.
  intros Ha Hwf. unfold free_frame. destruct (is_pinned a f); [done|].
  destruct (_ && _) eqn:E; [|done]. bool_to_prop. unfold frames_wf in *; simpl.
  assert (0 <= a / FRAME_SIZE) by (apply Z.div_pos; [done | unfold FRAME_SIZE; lia]).
  rewrite free_count_clear by (done || lia). rewrite Hwf. unfold w64. apply Z.mod_small.
  pose proof (free_count_bounds (FRAME_BITMAP f)). rewrite MAX_val in *. lia.
Qed.

Lemma free_frame_test a f j :
  0 <= j < MAX_MANAGED_FRAMES ->
  bitmap_test j (FRAME_BITMAP (free_frame a f)) =
  if decide (j = a / FRAME_SIZE /\ is_pinned a f = false) then false
  else bitmap_test j (FRAME_BITMAP f).
Proof.
  intros Hj. unfold free_frame. destruct (is_pinned a f) eqn:Ep.
  { rewrite decide_False by naive_solver. done. }
  destruct (decide (j = a / FRAME_SIZE)) as [->|Hne].
  - rewrite decide_True by done. rewrite (proj2 (Z.ltb_lt _ _)) by lia. simpl.
    destruct (bitmap_test (a / FRAME_SIZE) (FRAME_BITMAP f)) eqn:E; simpl; [|done].
    by rewrite bitmap_test_clear, decide_True.
  - rewrite decide_False by naive_solver. destruct (_ && _); [|done]. simpl.
    by rewrite bitmap_test_clear, decide_False.
Qed.

(** ** Runs of frames *)

(** [n] consecutive free frames from [s] on. *)
Definition free_run (b : bytes_array) (n s : Z) : Prop :=
  forall j, s <= j < s + n -> bitmap_test j b = false.

Lemma run_scan_spec b n fuel idx run rs :
  0 < n -> 0 <= run < n -> run <= idx ->
  (0 < run -> rs = idx - run) ->
  (forall j, idx - run <= j < idx -> bitmap_test j b = false) ->
  (idx - run = 0 \/ bitmap_test (idx - run - 1) b = true) ->
  (forall s, 0 <= s -> s + n <= idx -> ~ free_run b n s) ->
  match run_scan b n fuel idx run rs with
  | Some r => 0 <= r /\ r + n <= idx + Z.of_nat fuel /\ free_run b n r /\
              forall s, 0 <= s < r -> ~ free_run b n s
  | None => forall s, 0 <= s -> s + n <= idx + Z.of_nat fuel -> ~ free_run b n s
  end.
Proof.
  intros Hn. revert idx run rs. induction fuel as [|fuel IH];
    intros idx run rs Hrun Hidx Hrs Hfree Hmax Hno; simpl.
  { intros s Hs Hle. apply Hno; lia. }
  destruct (bitmap_test idx b) eqn:E; simpl.
  - assert (forall s, 0 <= s -> s + n <= idx + 1 -> ~ free_run b n s) as Hno'.
    { intros s Hs Hle Hw. destruct (Z.eq_dec (s + n) (idx + 1)).
      - specialize (Hw idx ltac:(lia)). congruence.
      - apply (Hno s); [lia | lia | done]. }
    specialize (IH (idx + 1) 0 rs ltac:(lia) ltac:(lia) ltac:(lia)).
    replace (idx + 1 - 0 - 1) with idx in IH by lia.
    specialize (IH ltac:(lia) ltac:(by right) Hno').
    destruct (run_scan _ _ _ _ _ _).
    + replace (idx + Z.of_nat (S fuel)) with (idx + 1 + Z.of_nat fuel) by lia. exact IH.
    + intros s Hs Hle. apply IH; lia.
  - assert (Hrs' : (if run =? 0 then idx else rs) = idx - run)
      by (destruct (Z.eqb_spec run 0); lia).
    rewrite Hrs'. destruct (Z.eqb_spec (run + 1) n) as [Hfull|Hpart].
    + split; [lia|]. split; [lia|]. split.
      * intros j Hj. destruct (Z.eq_dec j idx) as [->|]; [done | apply Hfree; lia].
      * intros s Hs. apply Hno; lia.
    + assert (forall s, 0 <= s -> s + n <= idx + 1 -> ~ free_run b n s) as Hno'.
      { intros s Hs Hle Hw. destruct (Z.eq_dec (s + n) (idx + 1)); [|apply (Hno s); [lia|lia|done]].
        destruct Hmax as [Hz|Hz]; [lia|]. specialize (Hw (idx - run - 1) ltac:(lia)). congruence. }
      specialize (IH (idx + 1) (run + 1) (idx - run) ltac:(lia) ltac:(lia) ltac:(lia)).
      replace (idx + 1 - (run + 1)) with (idx - run) in IH by lia.
      assert (Hf' : forall j, idx - run <= j < idx + 1 -> bitmap_test j b = false).
      { intros j Hj. destruct (Z.eq_dec j idx) as [->|]; [done | apply Hfree; lia]. }
      specialize (IH Hf' Hmax Hno'). destruct (run_scan _ _ _ _ _ _).
      * replace (idx + Z.of_nat (S fuel)) with (idx + 1 + Z.of_nat fuel) by lia. exact IH.
      * intros s Hs Hle. apply IH; lia.
Qed.

(** Setting the bits of a list of distinct free frames. *)
Lemma set_all_test l b j :
  bitmap_test j (foldl (fun b i => bitmap_set i b) b l) = true <-> j ∈ l \/ bitmap_test j b = true.
Proof.
  revert b. induction l as [|i l IH]; intros b; simpl; [set_solver|].
  rewrite IH, bitmap_test_set, elem_of_cons. case_decide; naive_solver.
Qed.

Lemma set_all_count l b :
  NoDup l -> (forall i, i ∈ l -> 0 <= i < MAX_MANAGED_FRAMES /\ bitmap_test i b = false) ->
  free_count (foldl (fun b i => bitmap_set i b) b l) = free_count b - Z.of_nat (length l).
Proof.
  intros Hnd. revert b. induction Hnd as [|i l Hi Hnd IH]; intros b H; simpl; [lia|].
  destruct (H i ltac:(set_solver)) as [H1 H2]. rewrite IH.
  - rewrite free_count_set by done. lia.
  - intros j Hj. specialize (H j ltac:(set_solver)) as [H3 H4]. split; [done|].
    rewrite bitmap_test_set, decide_False; [done|]. intros ->. done.
Qed.

Lemma allocate_frames_cases n f :
  0 < n ->
  match allocate_frames n f with
  | (Some a, f') =>
      exists r, a = r * FRAME_SIZE /\ 0 <= r /\ r + n <= MAX_MANAGED_FRAMES /\
        free_run (FRAME_BITMAP f) n r /\
        (forall s, 0 <= s < r -> ~ free_run (FRAME_BITMAP f) n s) /\
        f' = with_free (with_bitmap f
               (foldl (fun b i => bitmap_set i b) (FRAME_BITMAP f) (seqZ r n))) (w64 (FREE_FRAMES f - n))
  | (None, f') =>
      f' = f /\ forall s, 0 <= s -> s + n <= MAX_MANAGED_FRAMES -> ~ free_run (FRAME_BITMAP f) n s
  end.
Proof.
  intros Hn. unfold allocate_frames. rewrite (proj2 (Z.eqb_neq n 0)) by lia.
  pose proof (run_scan_spec (FRAME_BITMAP f) n (Z.to_nat MAX_MANAGED_FRAMES) 0 0 0) as H.
  assert (Hm : Z.of_nat (Z.to_nat MAX_MANAGED_FRAMES) = MAX_MANAGED_FRAMES) by (rewrite MAX_val; lia).
  rewrite Hm in H.
  specialize (H Hn ltac:(lia) ltac:(lia) ltac:(lia) ltac:(intros; lia) ltac:(by left) ltac:(intros; lia)).
  destruct (run_scan _ _ _ _ _ _) as [r|].
  - destruct H as (H1 & H2 & H3 & H4). exists r. split; [done|]. split; [done|].
    split; [lia|]. split; [done|]. split; done.
  - split; [done|]. intros s Hs Hle. apply H; lia.
Qed.

Lemma frames_wf_allocate_frames n f o f' :
  0 <= n -> allocate_frames n f = (o, f') -> frames_wf f -> frames_wf f'.
Proof.
  intros Hn H Hwf. destruct (Z.eq_dec n 0) as [->|Hnz].
  { unfold allocate_frames in H. simpl in H. congruence. }
  pose proof (allocate_frames_cases n f ltac:(lia)) as Hc. rewrite H in Hc. destruct o as [a|].
  - destruct Hc as (r & -> & Hr & Hle & Hrun & _ & ->). unfold frames_wf in *; simpl.
    assert (Hcnt : free_count (foldl (fun b i => bitmap_set i b) (FRAME_BITMAP f) (seqZ r n)) =
                   free_count (FRAME_BITMAP f) - n).
    { rewrite set_all_count; [rewrite length_seqZ; lia | apply NoDup_seqZ |].
      intros i Hi. apply elem_of_seqZ in Hi. split; [lia|]. apply Hrun. lia. }
    pose proof (free_count_bounds (foldl (fun b i => bitmap_set i b) (FRAME_BITMAP f) (seqZ r n))).
    pose proof (free_count_bounds (FRAME_BITMAP f)).
    rewrite Hcnt in *. rewrite Hwf. unfold w64. rewrite Z.mod_small; [done|]. rewrite MAX_val in *. lia.
  - by destruct Hc as [-> _].
Qed.

Lemma frames_wf_reserve_frame a f : 0 <= a -> frames_wf f -> frames_wf (reserve_frame a f).
Proof.
  intros Ha Hwf. unfold reserve_frame. destruct (_ && _) eqn:E; [|done]. bool_to_prop.
  assert (0 <= a / FRAME_SIZE) by (apply Z.div_pos; [done | unfold FRAME_SIZE; lia]).
  unfold frames_wf in *; simpl. pose proof (free_count_bounds (bitmap_set (a / FRAME_SIZE) (FRAME_BITMAP f))).
  rewrite free_count_set in * by (done || lia). unfold saturating_sub. lia.
Qed.

(** ** Reference counts *)

(** The count recorded for a frame; 0 when the frame has no live slot. *)
Definition refcount (addr : Z) (l : list (Z * Z)) : Z :=
  match position (live_slot addr) l with
  | Some i => match l !! i with Some slot => snd slot | None => 0 end
  | None => 0
  end.

(** At most one live slot per frame, counts are bytes. *)
Definition shared_wf (l : list (Z * Z)) : Prop :=
  (forall (i j : nat) a m n, l !! i = Some (a, m) -> l !! j = Some (a, n) -> 0 < m -> 0 < n -> i = j) /\
  (forall (i : nat) a n, l !! i = Some (a, n) -> 0 <= n < 256).

Lemma live_slot_true a slot : live_slot a slot = true <-> exists n, slot = (a, n) /\ 0 < n.
Proof.
  destruct slot as [x n]. unfold live_slot; simpl. rewrite andb_true_iff, Z.eqb_eq, Z.ltb_lt.
  naive_solver.
Qed.

Lemma position_live_Some a l i :
  position (live_slot a) l = Some i -> exists n, l !! i = Some (a, n) /\ 0 < n.
Proof.
  intros H. apply position_Some in H as [(x & Hx & Hl) _].
  apply live_slot_true in Hl as (n & -> & Hn). eauto.
Qed.

Lemma position_live_None a l (i : nat) n :
  position (live_slot a) l = None -> l !! i = Some (a, n) -> ~ 0 < n.
Proof.
  intros H Hi Hn. rewrite position_None in H. specialize (H _ _ Hi).
  assert (live_slot a (a, n) = true) by (apply live_slot_true; eauto). congruence.
Qed.

Lemma refcount_slot l a (i : nat) n :
  shared_wf l -> l !! i = Some (a, n) -> 0 < n -> refcount a l = n.
Proof.
  intros [Hu _] Hi Hn. unfold refcount. destruct (position (live_slot a) l) as [k|] eqn:E.
  - apply position_live_Some in E as (m & Hm & Hpos). rewrite Hm; simpl.
    assert (k = i) as -> by (eapply Hu; eauto). congruence.
  - by pose proof (position_live_None _ _ _ _ E Hi).
Qed.

Lemma refcount_zero l a :
  (forall (i : nat) n, l !! i = Some (a, n) -> ~ 0 < n) -> refcount a l = 0.
Proof.
  intros H. unfold refcount. destruct (position (live_slot a) l) as [k|] eqn:E; [|done].
  apply position_live_Some in E as (m & Hm & Hpos). by pose proof (H _ _ Hm).
Qed.

Lemma refcount_cases l a :
  (refcount a l = 0 /\ position (live_slot a) l = None) \/
  (exists i n, position (live_slot a) l = Some i /\ l !! i = Some (a, n) /\ 0 < n /\ refcount a l = n).
Proof.
  unfold refcount. destruct (position (live_slot a) l) as [k|] eqn:E; [right | by left].
  pose proof (position_live_Some _ _ _ E) as (n & Hn & Hp). exists k, n. by rewrite Hn.
Qed.

(** Replacing slot [i] by [(a, m)] where it held [a]'s live entry or was free leaves the
    counts of other frames alone and gives [a] the count [m]. *)
Lemma refcount_insert l (i : nat) a x m m' b :
  shared_wf l -> l !! i = Some (x, m) -> 0 <= m' < 256 ->
  (x = a /\ 0 < m) \/ (m = 0 /\ position (live_slot a) l = None) ->
  shared_wf (<[i := (a, m')]> l) /\
  refcount b (<[i := (a, m')]> l) = if decide (b = a) then m' else refcount b l.
Proof.
  intros Hwf Hi Hm' Hor. pose proof (lookup_lt_Some _ _ _ Hi) as Hlt. pose proof Hwf as [Hu Hc].
  assert (Hother : forall (j : nat) n, j <> i -> l !! j = Some (a, n) -> ~ 0 < n).
  { intros j n Hj Hn Hp. destruct Hor as [[-> Hm]|[_ Hnone]].
    - apply Hj. eapply Hu; eauto.
    - by apply (position_live_None _ _ _ _ Hnone Hn). }
  assert (Hwf' : shared_wf (<[i := (a, m')]> l)).
  { split.
    - intros j k y p q Hj Hk Hp Hq.
      rewrite list_lookup_insert in Hj, Hk. repeat case_decide; simplify_eq; try naive_solver.
      all: eapply Hu; eauto.
    - intros j y n Hj. rewrite list_lookup_insert in Hj. case_decide; simplify_eq; [lia | eauto]. }
  split; [done|]. destruct (decide (b = a)) as [->|Hne].
  - destruct (Z.eq_dec m' 0) as [->|].
    + apply refcount_zero. intros j n Hj. rewrite list_lookup_insert in Hj.
      case_decide; [naive_solver lia | eapply Hother; [|done]; naive_solver].
    + eapply refcount_slot; [done | by apply list_lookup_insert_eq | lia].
  - destruct (refcount_cases l b) as [[-> Hnone]|(j & n & Hj & Hjn & Hn & ->)].
    + apply refcount_zero. intros j n Hj. rewrite list_lookup_insert in Hj.
      case_decide; [naive_solver | by apply (position_live_None _ _ _ _ Hnone Hj)].
    + eapply refcount_slot; [done | | done]. rewrite list_lookup_insert_ne; [done|].
      intros <-. rewrite Hi in Hjn. simplify_eq. destruct Hor as [[-> _]|[-> _]]; [done | lia].
Qed.

Lemma inc_ref_spec a f :
  shared_wf (SHARED_FRAMES f) ->
  shared_wf (SHARED_FRAMES (inc_ref a f)) /\
  (forall b, b <> a -> refcount b (SHARED_FRAMES (inc_ref a f)) = refcount b (SHARED_FRAMES f)) /\
  (0 < refcount a (SHARED_FRAMES f) < 255 \/
   refcount a (SHARED_FRAMES f) = 0 /\ (exists (i : nat) x, SHARED_FRAMES f !! i = Some (x, 0)) ->
   refcount a (SHARED_FRAMES (inc_ref a f)) = refcount a (SHARED_FRAMES f) + 1).
Proof.
  intros Hwf. unfold inc_ref.
  destruct (refcount_cases (SHARED_FRAMES f) a) as [[Hz Hnone]|(i & n & Hi & Hin & Hn & Hr)].
  - rewrite Hnone, Hz. destruct (position (fun slot => snd slot =? 0) (SHARED_FRAMES f)) as [i|] eqn:E.
    + apply position_Some in E as [([x m] & Hx & Hm) _]. simpl in Hm. bool_to_prop. subst m. simpl.
      pose proof (fun b => refcount_insert _ i a x 0 1 b Hwf Hx ltac:(lia) (or_intror (conj eq_refl Hnone))) as H.
      split; [apply (H a)|]. split; [intros b Hb; destruct (H b) as [_ ->]; by rewrite decide_False|].
      intros _. destruct (H a) as [_ ->]. by rewrite decide_True.
    + split; [done|]. split; [done|]. intros [?|[_ (i & x & Hx)]]; [lia|].
      rewrite position_None in E. specialize (E _ _ Hx). done.
  - rewrite Hi. simpl. destruct (proj2 Hwf _ _ _ Hin) as [_ Hb256].
    assert (Halter : alter (fun slot => (fst slot, w8 (snd slot + 1))) i (SHARED_FRAMES f) =
                     <[i := (a, w8 (n + 1))]> (SHARED_FRAMES f)).
    { apply list_eq. intros j. rewrite list_lookup_alter, list_lookup_insert.
      pose proof (lookup_lt_Some _ _ _ Hin). repeat case_decide; try naive_solver. subst. by rewrite Hin. }
    rewrite Halter.
    assert (Hw : 0 <= w8 (n + 1) < 256) by (apply Z.mod_pos_bound; lia).
    pose proof (fun b => refcount_insert _ i a a n _ b Hwf Hin Hw (or_introl (conj eq_refl Hn))) as H.
    split; [apply (H a)|]. split; [intros b Hb; destruct (H b) as [_ ->]; by rewrite decide_False|].
    intros Hrange. destruct (H a) as [_ ->]. rewrite decide_True by done. unfold w8.
    rewrite Hr in *. apply Z.mod_small. lia.
Qed.

(** Clearing the live slot of [a]. *)
Lemma refcount_kill l (i : nat) a n b :
  shared_wf l -> l !! i = Some (a, n) -> 0 < n ->
  shared_wf (<[i := (0, 0)]> l) /\
  refcount b (<[i := (0, 0)]> l) = if decide (b = a) then 0 else refcount b l.
Proof.
  intros Hwf Hi Hn. pose proof Hwf as [Hu Hc].
  assert (Hlk : forall (j : nat) y m, <[i := (0, 0)]> l !! j = Some (y, m) -> 0 < m -> j <> i /\ l !! j = Some (y, m)).
  { intros j y m Hj Hm. rewrite list_lookup_insert in Hj. case_decide; [naive_solver lia|].
    split; [|done]. intros ->. pose proof (lookup_lt_Some _ _ _ Hi). naive_solver. }
  assert (Hwf' : shared_wf (<[i := (0, 0)]> l)).
  { split.
    - intros j k y p q Hj Hk Hp Hq. apply Hlk in Hj as [_ Hj]; [|done]. apply Hlk in Hk as [_ Hk]; [|done].
      eapply Hu; eauto.
    - intros j y m Hj. rewrite list_lookup_insert in Hj. case_decide; [naive_solver lia | eauto]. }
  split; [done|]. destruct (decide (b = a)) as [->|Hne].
  - apply refcount_zero. intros j m Hj Hm. apply Hlk in Hj as [Hj1 Hj2]; [|done].
    apply Hj1. eapply Hu; eauto.
  - destruct (refcount_cases l b) as [[-> Hnone]|(j & m & Hj & Hjm & Hm & ->)].
    + apply refcount_zero. intros j m Hj Hm. apply Hlk in Hj as [_ Hj]; [|done].
      by apply (position_live_None _ _ _ _ Hnone Hj).
    + eapply refcount_slot; [done | | done]. rewrite list_lookup_insert_ne; [done|]. congruence.
Qed.

Lemma dec_ref_spec a f :
  shared_wf (SHARED_FRAMES f) ->
  shared_wf (SHARED_FRAMES (snd (dec_ref a f))) /\
  fst (dec_ref a f) = (refcount a (SHARED_FRAMES f) =? 1) /\
  (forall b, refcount b (SHARED_FRAMES (snd (dec_ref a f))) =
     if decide (b = a) then Z.max 0 (refcount a (SHARED_FRAMES f) - 1) else refcount b (SHARED_FRAMES f)) /\
  FRAME_BITMAP (snd (dec_ref a f)) = FRAME_BITMAP f /\
  FREE_FRAMES (snd (dec_ref a f)) = FREE_FRAMES f /\
  PINNED_RANGES (snd (dec_ref a f)) = PINNED_RANGES f.
Proof.
  intros Hwf. unfold dec_ref.
  destruct (refcount_cases (SHARED_FRAMES f) a) as [[Hz Hnone]|(i & n & Hi & Hin & Hn & Hr)].
  - rewrite Hnone, Hz. simpl. split; [done|]. split; [done|]. split; [|done].
    intros b. case_decide; [by subst | done].
  - rewrite Hi, Hin, Hr. destruct (Z.eqb_spec (n - 1) 0) as [E|E]; simpl.
    + assert (n = 1) as -> by lia. rewrite Z.eqb_refl.
      pose proof (fun b => refcount_kill _ i a 1 b Hwf Hin ltac:(lia)) as Hb.
      split; [apply (Hb a)|]. split; [done|]. split; [|done]. intros b. destruct (Hb b) as [_ ->]. done.
    + pose proof (fun b => refcount_insert _ i a a n (n - 1) b Hwf Hin
                             ltac:(destruct (proj2 Hwf _ _ _ Hin); lia) (or_introl (conj eq_refl Hn))) as H.
      split; [apply (H a)|]. rewrite (proj2 (Z.eqb_neq n 1)) by lia. split; [done|]. split; [|done].
      intros b. destruct (H b) as [_ ->]. case_decide; [lia | done].
Qed.

(** ** The boot memory map *)

(** A frame index the initialisation may hand out, given the reserved bounds. *)
Definition eligible (kernel_end fb_start fb_end i : Z) : Prop :=
  i < MAX_MANAGED_FRAMES /\ kernel_end <= i * FRAME_SIZE /\ ~ (fb_start <= i < fb_end).

#[export] Instance eligible_dec ke fs fe i : Decision (eligible ke fs fe i).
Proof. unfold eligible. apply _. Defined.

Lemma init_loop_spec ke fs fe e fuel s acc :
  0 <= s -> MAX_MANAGED_FRAMES - s < Z.of_nat fuel \/ e - s < Z.of_nat fuel ->
  let acc' := init_loop fuel ke fs fe (e * FRAME_SIZE) (s * FRAME_SIZE) acc in
  (forall j, bitmap_test j (fst acc') =
     if decide (s <= j < e /\ eligible ke fs fe j) then false else bitmap_test j (fst acc)) /\
  ((forall j, s <= j < e -> bitmap_test j (fst acc) = true) ->
   snd acc = free_count (fst acc) -> snd acc' = free_count (fst acc')).
Proof.
  revert s acc. induction fuel as [|fuel IH]; intros s acc Hs Hf; cbn [init_loop].
  { split; [|done]. intros j. rewrite decide_False; [done|]. intros [? [? _]]. lia. }
  destruct (Z.ltb_spec (s * FRAME_SIZE) (e * FRAME_SIZE)) as [Hlt|Hge].
  2:{ split; [|done]. intros j. rewrite decide_False; [done|]. intros [? _].
      unfold FRAME_SIZE in *. lia. }
  rewrite Z.div_mul by (unfold FRAME_SIZE; lia).
  destruct (Z.leb_spec MAX_MANAGED_FRAMES s) as [Hm|Hm].
  { split; [|done]. intros j. rewrite decide_False; [done|]. intros [? [? _]]. lia. }
  replace (s * FRAME_SIZE + FRAME_SIZE) with ((s + 1) * FRAME_SIZE) by lia.
  set (acc1 := if s * FRAME_SIZE <? ke then acc else _).
  assert (Hacc1 : acc1 = if decide (eligible ke fs fe s) then (bitmap_clear s (fst acc), snd acc + 1) else acc).
  { subst acc1. destruct (Z.ltb_spec (s * FRAME_SIZE) ke).
    - rewrite decide_False; [done|]. intros (_ & ? & _). lia.
    - destruct (Z.leb_spec fs s), (Z.ltb_spec s fe); simpl;
        [rewrite decide_False; [done|]; intros (_ & _ & Hn); apply Hn; lia|..];
        (rewrite decide_True; [done|]; split; [lia|split; [lia|lia]]). }
  clearbody acc1. subst acc1.
  specialize (IH (s + 1) (if decide (eligible ke fs fe s) then (bitmap_clear s (fst acc), snd acc + 1) else acc)
                ltac:(lia) ltac:(lia)). cbn zeta in IH.
  set (acc' := init_loop _ _ _ _ _ _ _) in *. destruct IH as [IH1 IH2]. split.
  - intros j. rewrite IH1. destruct (decide (eligible ke fs fe s)) as [He|He]; cbn [fst].
    + rewrite bitmap_test_clear. destruct (decide (s = j)) as [<-|Hne].
      * rewrite decide_False by lia. rewrite decide_True by (split; [unfold FRAME_SIZE in *; lia | done]). done.
      * apply decide_ext. split; intros [? ?]; (split; [lia|done]).
    + destruct (decide (s = j)) as [<-|Hne].
      * rewrite !decide_False by (intros [? ?]; lia || done). done.
      * apply decide_ext. split; intros [? ?]; (split; [lia|done]).
  - intros Hset Hcnt. apply IH2; destruct (decide (eligible ke fs fe s)) as [He|He]; cbn [fst snd].
    + intros j Hj. rewrite bitmap_test_clear, decide_False by lia. apply Hset. lia.
    + intros j Hj. apply Hset. lia.
    + rewrite free_count_clear; [lia | lia |]. apply Hset. unfold FRAME_SIZE in *. lia.
    + done.
Qed.

(** Page [i] belongs to the region of descriptor [d]. *)
Definition desc_frame (d : MemoryDescriptor) (i : Z) : Prop :=
  phys_start d / FRAME_SIZE <= i < phys_start d / FRAME_SIZE + page_count d.

(** What UEFI guarantees of a memory descriptor: page alignment, no wrap-around. *)
Definition desc_wf (d : MemoryDescriptor) : Prop :=
  phys_start d mod FRAME_SIZE = 0 /\ 0 <= phys_start d /\ 0 <= page_count d /\
  phys_start d + page_count d * FRAME_SIZE < 2^64.

Definition ram (descs : list MemoryDescriptor) (i : Z) : Prop :=
  exists d, d ∈ descs /\ ty d = MEMORY_CONVENTIONAL /\ desc_frame d i.

(** Regions do not overlap. *)
Definition disjoint_descs (descs : list MemoryDescriptor) : Prop :=
  forall (i j : nat) d d' x, descs !! i = Some d -> descs !! j = Some d' -> i <> j ->
    desc_frame d x -> ~ desc_frame d' x.

#[local] Opaque init_loop bitmap_test free_count.

Definition init_desc (ke fs fe : Z) (acc : bytes_array * Z) (desc : MemoryDescriptor) : bytes_array * Z :=
  if negb (ty desc =? MEMORY_CONVENTIONAL) then acc
  else init_loop (Z.to_nat (MAX_MANAGED_FRAMES + 1)) ke fs fe
         (w64 (phys_start desc + w64 (page_count desc * FRAME_SIZE))) (phys_start desc) acc.

Lemma init_desc_spec ke fs fe acc d :
  desc_wf d ->
  (forall j, bitmap_test j (fst (init_desc ke fs fe acc d)) = false <->
     bitmap_test j (fst acc) = false \/
     (ty d = MEMORY_CONVENTIONAL /\ desc_frame d j /\ eligible ke fs fe j)) /\
  ((forall j, desc_frame d j -> bitmap_test j (fst acc) = true) ->
   snd acc = free_count (fst acc) ->
   snd (init_desc ke fs fe acc d) = free_count (fst (init_desc ke fs fe acc d))).
Proof.
  intros (Ha & H0 & Hp & Hw). unfold init_desc.
  destruct (Z.eqb_spec (ty d) MEMORY_CONVENTIONAL) as [E|E]; simpl; [|split; [naive_solver|done]].
  set (s := phys_start d / FRAME_SIZE).
  assert (Hs : phys_start d = s * FRAME_SIZE).
  { unfold s, FRAME_SIZE in *. pose proof (Z.div_mod (phys_start d) 4096 ltac:(lia)). lia. }
  assert (Hw1 : w64 (page_count d * FRAME_SIZE) = page_count d * FRAME_SIZE)
    by (unfold w64, FRAME_SIZE in *; apply Z.mod_small; lia).
  assert (Hw2 : w64 (phys_start d + page_count d * FRAME_SIZE) = (s + page_count d) * FRAME_SIZE)
    by (unfold w64, FRAME_SIZE in *; rewrite Z.mod_small; lia).
  rewrite Hw1, Hw2, Hs.
  assert (0 <= s) by (unfold s, FRAME_SIZE; apply Z.div_pos; lia).
  destruct (init_loop_spec ke fs fe (s + page_count d) (Z.to_nat (MAX_MANAGED_FRAMES + 1)) s acc) as [H1 H2];
    [lia | left; rewrite MAX_val; lia |].
  unfold desc_frame. fold s. split; [|exact H2]. intros j. rewrite H1. case_decide; naive_solver.
Qed.

Lemma init_descs_spec ke fs fe descs acc :
  Forall desc_wf descs -> disjoint_descs descs ->
  (forall j, bitmap_test j (fst (foldl (init_desc ke fs fe) acc descs)) = false <->
     bitmap_test j (fst acc) = false \/ (ram descs j /\ eligible ke fs fe j)) /\
  ((forall j d, d ∈ descs -> desc_frame d j -> bitmap_test j (fst acc) = true) ->
   snd acc = free_count (fst acc) ->
   snd (foldl (init_desc ke fs fe) acc descs) = free_count (fst (foldl (init_desc ke fs fe) acc descs))).
Proof.
  revert acc. induction descs as [|d descs IH]; intros acc Hwf Hdis; simpl.
  { split; [|done]. intros j. split; [by left|]. intros [?|[(d & Hd & _) _]]; [done|set_solver]. }
  apply Forall_cons in Hwf as [Hd Hwf].
  assert (Hdis' : disjoint_descs descs).
  { intros i j a b x Hi Hj Hne. apply (Hdis (S i) (S j) a b x Hi Hj). congruence. }
  destruct (init_desc_spec ke fs fe acc d Hd) as [H1 H2].
  destruct (IH (init_desc ke fs fe acc d) Hwf Hdis') as [H3 H4]. split.
  - intros j. rewrite H3, H1. unfold ram. split.
    + intros [[?|(Ht & Hf & He)]|[(d' & Hd' & Ht & Hf) He]]; [by left | right; split; [exists d; set_solver | done]|].
      right. split; [exists d'; set_solver | done].
    + intros [?|[(d' & Hd' & Ht & Hf) He]]; [by left; left|].
      apply elem_of_cons in Hd' as [->|Hd']; [left; right; exact (conj Ht (conj Hf He))|].
      right. split; [exists d'; exact (conj Hd' (conj Ht Hf)) | exact He].
  - intros Hset Hcnt. apply H4; [|apply H2; [intros j; apply (Hset j d), list_elem_of_here | exact Hcnt]].
    intros j d' Hd' Hf. apply not_false_iff_true. rewrite H1. intros [Hx|(_ & Hf' & _)].
    + rewrite (Hset j d' (list_elem_of_further _ _ _ Hd') Hf) in Hx. discriminate.
    + apply list_elem_of_lookup in Hd' as [k Hk].
      apply (Hdis 0%nat (S k) d d' j eq_refl Hk ltac:(lia) Hf' Hf).
Qed.

(** Reserving the active tables keeps the counter exact and never frees a frame. *)
Definition reserves (b0 : bytes_array) (n : Z) (f : frames) : Prop :=
  frames_wf f /\ TOTAL_FRAMES f = n /\
  forall j, bitmap_test j b0 = true -> bitmap_test j (FRAME_BITMAP f) = true.

Lemma reserves_frame b0 n a f : 0 <= a -> reserves b0 n f -> reserves b0 n (reserve_frame a f).
Proof.
  intros Ha (H1 & H2 & H3). split; [by apply frames_wf_reserve_frame|].
  unfold reserve_frame. destruct (_ && _); [|done]. split; [done|]. intros j Hj. simpl.
  rewrite bitmap_test_set. case_decide; [done | auto].
Qed.

Lemma land_nonneg_r a b : 0 <= b -> 0 <= Z.land a b.
Proof. intros. apply Z.land_nonneg. by right. Qed.

Lemma reserves_active b0 n rd cr3 f :
  0 <= cr3 -> reserves b0 n f -> reserves b0 n (reserve_active_page_tables rd cr3 f).
Proof.
  intros Hc Hres. unfold reserve_active_page_tables, reserve_pdpt, reserve_pd.
  assert (Hmask : 0 <= PTE_ADDR_MASK) by (unfold PTE_ADDR_MASK; lia).
  apply foldl_preserve; [by apply reserves_frame|]. intros f1 i Hf1. cbn zeta. case_match; [done|].
  apply foldl_preserve; [apply reserves_frame; [by apply land_nonneg_r | done]|].
  intros f2 j Hf2. cbn zeta. case_match; [done|].
  apply foldl_preserve; [apply reserves_frame; [by apply land_nonneg_r | done]|].
  intros f3 k Hf3. cbn zeta. case_match; [done|]. apply reserves_frame; [by apply land_nonneg_r | done].
Qed.

(** A page of the page-table tree the boot loader left active. *)
Inductive table_page (rd : Z -> Z) (cr3 : Z) : Z -> Prop :=
| tp_root : table_page rd cr3 cr3
| tp_pdpt i :
    0 <= i < 512 -> Z.land (rd (cr3 + 8 * i)) 1 <> 0 ->
    table_page rd cr3 (Z.land (rd (cr3 + 8 * i)) PTE_ADDR_MASK)
| tp_pd i j pdpt :
    0 <= i < 512 -> Z.land (rd (cr3 + 8 * i)) 1 <> 0 ->
    pdpt = Z.land (rd (cr3 + 8 * i)) PTE_ADDR_MASK ->
    0 <= j < 512 -> Z.land (rd (pdpt + 8 * j)) 1 <> 0 -> Z.land (rd (pdpt + 8 * j)) PTE_HUGE = 0 ->
    table_page rd cr3 (Z.land (rd (pdpt + 8 * j)) PTE_ADDR_MASK)
| tp_pt i j k pdpt pd :
    0 <= i < 512 -> Z.land (rd (cr3 + 8 * i)) 1 <> 0 ->
    pdpt = Z.land (rd (cr3 + 8 * i)) PTE_ADDR_MASK ->
    0 <= j < 512 -> Z.land (rd (pdpt + 8 * j)) 1 <> 0 -> Z.land (rd (pdpt + 8 * j)) PTE_HUGE = 0 ->
    pd = Z.land (rd (pdpt + 8 * j)) PTE_ADDR_MASK ->
    0 <= k < 512 -> Z.land (rd (pd + 8 * k)) 1 <> 0 -> Z.land (rd (pd + 8 * k)) PTE_HUGE = 0 ->
    table_page rd cr3 (Z.land (rd (pd + 8 * k)) PTE_ADDR_MASK).

(** Frame [a] is managed and in use. *)
Definition taken (a : Z) (f : frames) : Prop :=
  a / FRAME_SIZE < MAX_MANAGED_FRAMES -> bitmap_test (a / FRAME_SIZE) (FRAME_BITMAP f) = true.

Lemma taken_mono a c f : taken a f -> taken a (reserve_frame c f).
Proof.
  intros H Hlt. specialize (H Hlt). unfold reserve_frame. destruct (_ && _); [|exact H].
  cbn [FRAME_BITMAP with_free with_bitmap]. rewrite bitmap_test_set. by case_decide.
Qed.

Lemma taken_reserved a f : taken a (reserve_frame a f).
Proof.
  intros Hlt. unfold reserve_frame. rewrite (proj2 (Z.ltb_lt _ _) Hlt). cbn [andb].
  destruct (bitmap_test (a / FRAME_SIZE) (FRAME_BITMAP f)) eqn:E; [exact E|].
  cbn [FRAME_BITMAP with_free with_bitmap negb]. rewrite bitmap_test_set. by rewrite decide_True.
Qed.

(** A property that a step establishes for [x] and every step keeps. *)
Lemma foldl_establish {A B} (P : A -> Prop) (g : A -> B -> A) l a x :
  x ∈ l -> (forall a, P (g a x)) -> (forall a y, P a -> P (g a y)) -> P (foldl g a l).
Proof.
  intros Hx He Hk. revert a. induction l as [|y l IH]; intros a; [by apply not_elem_of_nil in Hx|].
  apply elem_of_cons in Hx as [<-|Hx]; simpl; [apply foldl_preserve; auto | auto].
Qed.

Lemma taken_pd a rd pd f : taken a f -> taken a (reserve_pd rd pd f).
Proof.
  intros H. unfold reserve_pd. apply foldl_preserve; [done|]. intros. cbv zeta.
  case_match; [done | by apply taken_mono].
Qed.

Lemma taken_pdpt a rd pdpt f : taken a f -> taken a (reserve_pdpt rd pdpt f).
Proof.
  intros H. unfold reserve_pdpt. apply foldl_preserve; [done|]. intros. cbv zeta.
  case_match; [done | by apply taken_pd, taken_mono].
Qed.

Lemma taken_active_step a rd pml4 f i : taken a f ->
  taken a (let e4 := rd (pml4 + 8 * i) in
           if Z.land e4 1 =? 0 then f
           else let pdpt := Z.land e4 PTE_ADDR_MASK in reserve_pdpt rd pdpt (reserve_frame pdpt f)).
Proof. intros. cbv zeta. case_match; [done | by apply taken_pdpt, taken_mono]. Qed.

Lemma skip_test_false e : Z.land e 1 <> 0 -> Z.land e PTE_HUGE = 0 ->
  (Z.land e 1 =? 0) || negb (Z.land e PTE_HUGE =? 0) = false.
Proof. intros H1 H2. rewrite H2. apply Z.eqb_neq in H1. by rewrite H1. Qed.

(** Descend one level of the walk: the entry at index [i] is handled by its own iteration. *)
Ltac walk_entry i :=
  apply (foldl_establish _ _ _ _ i);
    [apply elem_of_seqZ; lia
    | intros ?; cbv zeta
    | intros; cbv zeta; case_match; [done | auto using taken_mono, taken_pd, taken_pdpt]].

Lemma table_page_taken rd cr3 a f :
  table_page rd cr3 a -> taken a (reserve_active_page_tables rd cr3 f).
Proof.
  unfold reserve_active_page_tables. intros [|i Hi H4|i j pdpt Hi H4 -> Hj H3 H3'|
    i j k pdpt pd Hi H4 -> Hj H3 H3' -> Hk H2 H2'].
  { apply foldl_preserve; [apply taken_reserved | intros; by apply taken_active_step]. }
  all: apply Z.eqb_neq in H4; walk_entry i; rewrite H4.
  { apply taken_pdpt, taken_reserved. }
  all: unfold reserve_pdpt; walk_entry j; rewrite (skip_test_false _ H3 H3').
  { apply taken_pd, taken_reserved. }
  unfold reserve_pd; walk_entry k; rewrite (skip_test_false _ H2 H2'). apply taken_reserved.
Qed.

(** ** The allocator's contract *)

(** Contiguous allocation is exact first fit. On a table whose counter agrees with the
    bitmap, a request for [n > 0] frames returns the lowest run of [n] free frames, marks
    exactly these as used, lowers the counter by [n] and keeps it exact; it fails only if no
    such run exists, changing nothing. A single-frame allocation is the case [n = 1]. *)
Theorem allocate_frames_first_fit n f :
  frames_wf f -> 0 < n ->
  match allocate_frames n f with
  | (Some a, f') =>
      exists r, a = r * FRAME_SIZE /\ 0 <= r /\ r + n <= MAX_MANAGED_FRAMES /\
        free_run (FRAME_BITMAP f) n r /\
        (forall s, 0 <= s < r -> ~ free_run (FRAME_BITMAP f) n s) /\
        (forall j, is_free f' j <-> is_free f j /\ ~ (r <= j < r + n)) /\
        FREE_FRAMES f' = FREE_FRAMES f - n /\ frames_wf f' /\
        PINNED_RANGES f' = PINNED_RANGES f /\ SHARED_FRAMES f' = SHARED_FRAMES f
  | (None, f') =>
      f' = f /\ forall s, 0 <= s -> s + n <= MAX_MANAGED_FRAMES -> ~ free_run (FRAME_BITMAP f) n s
  end /\
  allocate_frame f = allocate_frames 1 f.
Proof.
  intros Hwf Hn. split.
  - pose proof (allocate_frames_cases n f Hn) as H.
    destruct (allocate_frames n f) as [[a|] f'] eqn:E; [|exact H].
    destruct H as (r & Ha & Hr & Hle & Hrun & Hmin & Hf'). exists r.
    assert (Hwf' : frames_wf f') by (eapply frames_wf_allocate_frames; [|exact E|]; [lia | exact Hwf]).
    repeat (split; [assumption|]). split; [|split; [|split; [exact Hwf'|subst f'; split; reflexivity]]].
    + intros j. subst f'. unfold is_free. cbn [FRAME_BITMAP with_free with_bitmap].
      rewrite <- !not_true_iff_false, set_all_test, elem_of_seqZ. tauto.
    + unfold frames_wf in Hwf', Hwf. rewrite Hwf', Hwf. subst f'. cbn [FRAME_BITMAP with_free with_bitmap].
      rewrite set_all_count; [rewrite length_seqZ; lia | apply NoDup_seqZ |].
      intros i Hi. apply elem_of_seqZ in Hi. split; [lia|]. apply Hrun. lia.
  - pose proof (allocate_frames_cases 1 f ltac:(lia)) as H1.
    destruct (allocate_frame f) as [o f1] eqn:E1. destruct (allocate_frames 1 f) as [o2 f2] eqn:E2.
    assert (Hone : forall s, is_free f s -> free_run (FRAME_BITMAP f) 1 s).
    { intros s Hs j Hj. assert (j = s) as -> by lia. exact Hs. }
    destruct o as [a|].
    + apply allocate_frame_Some in E1 as (i & Hi & -> & Hfree & Hlow & ->).
      destruct o2 as [a2|]; [|destruct H1 as [_ H1]; exfalso; apply (H1 i); [lia | lia | by apply Hone]].
      destruct H1 as (r & -> & Hr & Hle & Hrun & Hmin & ->).
      assert (i = r) as ->; [|done]. destruct (Z.lt_trichotomy i r) as [Hlt|[Heq|Hgt]]; [|done|].
      * exfalso. apply (Hmin i); [lia | by apply Hone].
      * exfalso. apply (Hlow r); [lia|]. apply Hrun. lia.
    + apply allocate_frame_None in E1 as [-> Hnone].
      destruct o2 as [a2|]; [|by destruct H1 as [-> _]].
      destruct H1 as (r & -> & Hr & Hle & Hrun & _). exfalso. apply (Hnone r); [lia|]. apply Hrun. lia.
Qed.

(** A table with exactly the frames of [l] free. *)
Definition sample_frames (l : list Z) : frames :=
  mk_frames (foldl (fun b i => bitmap_clear i b) (byte_fill 0xFF) l) (Z.of_nat (length l))
    (Z.of_nat (length l)) [] (replicate MAX_SHARED_FRAMES (0, 0)).

Lemma clear_all l b :
  NoDup l -> (forall i, i ∈ l -> 0 <= i < MAX_MANAGED_FRAMES /\ bitmap_test i b = true) ->
  free_count (foldl (fun b i => bitmap_clear i b) b l) = free_count b + Z.of_nat (length l).
Proof.
  intros Hnd. revert b. induction Hnd as [|i l Hi Hnd IH]; intros b H; cbn [foldl length]; [lia|].
  destruct (H i (list_elem_of_here _ _)) as [H1 H2]. rewrite IH.
  - rewrite free_count_clear by done. lia.
  - intros j Hj. destruct (H j (list_elem_of_further _ _ _ Hj)) as [H3 H4]. split; [done|].
    rewrite bitmap_test_clear, decide_False; [done|]. intros ->. done.
Qed.

Lemma sample_frames_wf l :
  NoDup l -> (forall i, i ∈ l -> 0 <= i < MAX_MANAGED_FRAMES) -> frames_wf (sample_frames l).
Proof.
  intros Hnd Hl. unfold frames_wf, sample_frames. cbn [FREE_FRAMES FRAME_BITMAP].
  rewrite clear_all; [by rewrite free_count_used | done|]. auto using byte_fill_used.
Qed.

Lemma sample_567 : frames_wf (sample_frames [5; 6; 7; 9]).
Proof.
  apply sample_frames_wf; [apply (bool_decide_eq_true_1 (NoDup [5; 6; 7; 9])); vm_compute; reflexivity|].
  intros i Hi. rewrite MAX_val. set_unfold. lia.
Qed.

Lemma allocate_frames_first_fit_witness :
  frames_wf (sample_frames [5; 6; 7; 9]) /\ 0 < 2 /\
  allocate_frame (sample_frames [5; 6; 7; 9]) = allocate_frames 1 (sample_frames [5; 6; 7; 9]).
Proof.
  split; [exact sample_567|]. split; [lia|].
  exact (proj2 (allocate_frames_first_fit 2 (sample_frames [5; 6; 7; 9]) sample_567 ltac:(lia))).
Defined.

Lemma tracked_refcount a f : is_tracked a f = negb (refcount a (SHARED_FRAMES f) =? 0).
Proof.
  unfold is_tracked. destruct (refcount_cases (SHARED_FRAMES f) a) as [[Hz Hnone]|(i & n & Hi & Hin & Hn & Hr)].
  - rewrite Hz. cbn. apply not_true_iff_false. intros H. apply existsb_exists in H as (x & Hx & Hl).
    apply list_elem_of_In, list_elem_of_lookup in Hx as [k Hk]. rewrite position_None in Hnone.
    specialize (Hnone _ _ Hk). congruence.
  - rewrite Hr, (proj2 (Z.eqb_neq n 0)) by lia. cbn. apply existsb_exists. exists (a, n).
    split; [apply list_elem_of_In, list_elem_of_lookup; eauto | apply live_slot_true; eauto].
Qed.

Lemma free_frame_rest a f :
  SHARED_FRAMES (free_frame a f) = SHARED_FRAMES f /\ PINNED_RANGES (free_frame a f) = PINNED_RANGES f.
Proof. unfold free_frame. destruct (is_pinned a f); [done|]. by destruct (_ && _). Qed.

Lemma free_frame_free a f j :
  0 <= j < MAX_MANAGED_FRAMES ->
  is_free (free_frame a f) j <-> is_free f j \/ j = a / FRAME_SIZE /\ is_pinned a f = false.
Proof.
  intros Hj. unfold is_free. rewrite free_frame_test by done.
  destruct (decide _) as [Hd|Hd]; [split; [by right | done]|]. split; [by left|].
  intros [?|?]; [done | by destruct Hd].
Qed.

Lemma release_user_frame_spec a f :
  frames_wf f -> shared_wf (SHARED_FRAMES f) -> 0 <= a ->
  let f' := release_user_frame a f in
  frames_wf f' /\ shared_wf (SHARED_FRAMES f') /\ PINNED_RANGES f' = PINNED_RANGES f /\
  (forall b, refcount b (SHARED_FRAMES f') =
     if decide (b = a) then Z.max 0 (refcount a (SHARED_FRAMES f) - 1) else refcount b (SHARED_FRAMES f)) /\
  (forall j, 0 <= j < MAX_MANAGED_FRAMES ->
     (is_free f' j <-> is_free f j \/
        j = a / FRAME_SIZE /\ refcount a (SHARED_FRAMES f) <= 1 /\ is_pinned a f = false)).
Proof.
  intros Hwf Hs Ha. unfold release_user_frame. rewrite tracked_refcount.
  destruct (dec_ref_spec a f Hs) as (D1 & D2 & D3 & D4 & D5 & D6).
  destruct (dec_ref a f) as [last f1]. cbn [fst snd] in *.
  assert (Hwf1 : frames_wf f1) by (unfold frames_wf; congruence).
  assert (Hpin : is_pinned a f1 = is_pinned a f) by (unfold is_pinned; by rewrite D6).
  assert (Hge : 0 <= refcount a (SHARED_FRAMES f)).
  { destruct (refcount_cases (SHARED_FRAMES f) a) as [[-> _]|(i & n & _ & _ & ? & ->)]; lia. }
  destruct (Z.eqb_spec (refcount a (SHARED_FRAMES f)) 0) as [Ez|Ez]; cbn [negb].
  - destruct (free_frame_rest a f) as [-> ->]. split; [by apply frames_wf_free_frame|].
    split; [done|]. split; [done|]. split.
    + intros b. case_decide; [subst; lia | done].
    + intros j Hj. rewrite free_frame_free, Ez by done. split; [|tauto].
      intros [?|[? ?]]; [by left | right; split; [done | split; [lia | done]]].
  - subst last. destruct (Z.eqb_spec (refcount a (SHARED_FRAMES f)) 1) as [E1|E1].
    + destruct (free_frame_rest a f1) as [-> ->]. split; [by apply frames_wf_free_frame|].
      split; [done|]. split; [done|]. split; [done|].
      intros j Hj. rewrite free_frame_free, Hpin, E1 by done. unfold is_free. rewrite D4.
      split; [|tauto]. intros [?|[? ?]]; [by left | right; split; [done | split; [lia | done]]].
    + split; [done|]. split; [done|]. split; [done|]. split; [done|].
      intros j Hj. unfold is_free. rewrite D4. split; [by left | intros [?|(_ & ? & _)]; [done | lia]].
Qed.

(** C35. A shared frame is given back with its last mapping, neither sooner nor later. Let
    frame [a] be managed, in use, not pinned and recorded with [k >= 1] mappings. After
    [n] releases the recorded count is [k - n] (0 once none is left), the frame is free
    exactly when [n >= k], no other frame changed its state and the free counter is still
    exact. *)
Theorem shared_frame_lifetime a f (n : nat) :
  frames_wf f -> shared_wf (SHARED_FRAMES f) -> 0 <= a -> a / FRAME_SIZE < MAX_MANAGED_FRAMES ->
  ~ is_free f (a / FRAME_SIZE) -> is_pinned a f = false -> 1 <= refcount a (SHARED_FRAMES f) ->
  let f' := Nat.iter n (release_user_frame a) f in
  frames_wf f' /\
  refcount a (SHARED_FRAMES f') = Z.max 0 (refcount a (SHARED_FRAMES f) - Z.of_nat n) /\
  (is_free f' (a / FRAME_SIZE) <-> refcount a (SHARED_FRAMES f) <= Z.of_nat n) /\
  (forall j, 0 <= j < MAX_MANAGED_FRAMES -> j <> a / FRAME_SIZE -> (is_free f' j <-> is_free f j)) /\
  (forall b, b <> a -> refcount b (SHARED_FRAMES f') = refcount b (SHARED_FRAMES f)).
Proof.
  intros Hwf Hs Ha Hm Hused Hpin Hk.
  assert (0 <= a / FRAME_SIZE) by (apply Z.div_pos; [done | unfold FRAME_SIZE; lia]).
  enough (H' : shared_wf (SHARED_FRAMES (Nat.iter n (release_user_frame a) f)) /\
               PINNED_RANGES (Nat.iter n (release_user_frame a) f) = PINNED_RANGES f /\
               (let f' := Nat.iter n (release_user_frame a) f in
                frames_wf f' /\
                refcount a (SHARED_FRAMES f') = Z.max 0 (refcount a (SHARED_FRAMES f) - Z.of_nat n) /\
                (is_free f' (a / FRAME_SIZE) <-> refcount a (SHARED_FRAMES f) <= Z.of_nat n) /\
                (forall j, 0 <= j < MAX_MANAGED_FRAMES -> j <> a / FRAME_SIZE -> (is_free f' j <-> is_free f j)) /\
                (forall b, b <> a -> refcount b (SHARED_FRAMES f') = refcount b (SHARED_FRAMES f))))
    by exact (proj2 (proj2 H')).
  induction n as [|n IH].
  { change (Nat.iter 0 (release_user_frame a) f) with f. split; [done|]. split; [done|]. cbv zeta. split; [done|]. split; [lia|]. split; [|done].
    split; [done | intros; lia]. }
  destruct IH as (I1 & I2 & I3). cbv zeta in I3. destruct I3 as (I3 & I4 & I5 & I6 & I7).
  change (Nat.iter (S n) (release_user_frame a) f)
    with (release_user_frame a (Nat.iter n (release_user_frame a) f)).
  set (f1 := Nat.iter n (release_user_frame a) f) in *. clearbody f1.
  destruct (release_user_frame_spec a f1 I3 I1 Ha) as (R1 & R2 & R3 & R4 & R5).
  split; [exact R2|]. split; [congruence|]. cbv zeta. split; [exact R1|].
  split; [rewrite R4, decide_True by done; lia|]. split.
  - assert (is_pinned a f1 = false) by (unfold is_pinned in *; by rewrite I2).
    rewrite R5 by lia. rewrite I5, I4. split; [intros [?|(_ & ? & _)]; lia|].
    intros Hle. right. split; [done|]. split; [lia | done].
  - split.
    + intros j Hj Hne. rewrite R5 by done. rewrite <- (I6 j Hj Hne). tauto.
    + intros b Hb. rewrite R4, decide_False by done. auto.
Qed.

(** Frame 8 in use with three mappings, beside the free frames 5, 6, 7, 9. *)
Definition sample_shared : frames := Nat.iter 3 (inc_ref (8 * FRAME_SIZE)) (sample_frames [5; 6; 7; 9]).

Lemma shared_wf_empty n : shared_wf (replicate n (0, 0)).
Proof.
  split.
  - intros i j a p q Hi _ Hp. apply lookup_replicate_1 in Hi as [Hi _]. simplify_eq. lia.
  - intros i a p Hi. apply lookup_replicate_1 in Hi as [Hi _]. simplify_eq. lia.
Qed.

Lemma sample_shared_wf : frames_wf sample_shared /\ shared_wf (SHARED_FRAMES sample_shared).
Proof.
  unfold sample_shared.
  assert (Hb : forall x f, frames_wf f -> frames_wf (inc_ref x f)).
  { intros x f Hf. unfold inc_ref. destruct (position _ _); [exact Hf|]. destruct (position _ _); exact Hf. }
  split; [do 3 apply Hb; apply sample_567|].
  do 3 apply inc_ref_spec. apply shared_wf_empty.
Qed.

Lemma shared_frame_lifetime_witness :
  refcount 32768 (SHARED_FRAMES sample_shared) = 3 /\
  ~ is_free (Nat.iter 2 (release_user_frame 32768) sample_shared) 8 /\
  is_free (Nat.iter 3 (release_user_frame 32768) sample_shared) 8.
Proof.
  assert (Hc : refcount 32768 (SHARED_FRAMES sample_shared) = 3) by (vm_compute; reflexivity).
  assert (Hu : ~ is_free sample_shared (32768 / FRAME_SIZE)) by (unfold is_free; vm_compute; discriminate).
  assert (Hp : is_pinned 32768 sample_shared = false) by (vm_compute; reflexivity).
  pose proof (fun n => shared_frame_lifetime 32768 sample_shared n (proj1 sample_shared_wf)
    (proj2 sample_shared_wf) ltac:(lia) ltac:(rewrite MAX_val; reflexivity) Hu Hp ltac:(rewrite Hc; lia)) as H.
  change (32768 / FRAME_SIZE) with 8 in H. rewrite Hc in H.
  split; [exact Hc|]. split.
  - destruct (H 2%nat) as (_ & _ & Hf & _). rewrite Hf. lia.
  - destruct (H 3%nat) as (_ & _ & Hf & _). rewrite Hf. lia.
Defined.

(** ** What start-up hands out *)

Definition kernel_end_of (kernel_end_sym : Z) : Z :=
  Z.land (kernel_end_sym + 0x10000 - 1) (Z.lxor (2^64 - 1) (0x10000 - 1)).
Definition fb_bytes_of (info : fb_mmap) : Z := w64 (w64 (fb_height info * fb_stride info) * (fb_bpp info / 8)).
Definition fb_first_frame (info : fb_mmap) : Z := fb_addr info / FRAME_SIZE.
Definition fb_last_frame (info : fb_mmap) : Z := div_ceil (w64 (fb_addr info + fb_bytes_of info)) FRAME_SIZE.

(** The frames that may be handed out: conventional memory above the kernel image and
    outside the framebuffer. *)
Definition usable (info : fb_mmap) (kernel_end_sym j : Z) : Prop :=
  0 <= j < MAX_MANAGED_FRAMES /\ ram (mmap info) j /\ kernel_end_of kernel_end_sym <= j * FRAME_SIZE /\
  ~ (fb_first_frame info <= j < fb_last_frame info).

Lemma init_unfold info ke rd cr3 f :
  init info ke rd cr3 f =
  let acc := foldl (init_desc (kernel_end_of ke) (fb_first_frame info) (fb_last_frame info))
               (byte_fill 0xFF, 0) (mmap info) in
  reserve_active_page_tables rd cr3
    (mk_frames (fst acc) (snd acc) (snd acc)
       (PINNED_RANGES (pin_range (fb_addr info) (w64 (fb_addr info + fb_bytes_of info)) f)) (SHARED_FRAMES f)).
Proof.
  unfold init. fold (kernel_end_of ke) (fb_bytes_of info) (fb_first_frame info) (fb_last_frame info).
  change (foldl (fun acc desc => if negb (ty desc =? MEMORY_CONVENTIONAL) then acc else _) _ _)
    with (foldl (init_desc (kernel_end_of ke) (fb_first_frame info) (fb_last_frame info))
               (byte_fill 0xFF, 0) (mmap info)).
  assert (Hs : SHARED_FRAMES (pin_range (fb_addr info) (w64 (fb_addr info + fb_bytes_of info)) f) = SHARED_FRAMES f)
    by (unfold pin_range; destruct (_ <? _)%nat; reflexivity).
  rewrite Hs. destruct (foldl _ _ _) as [b n]. reflexivity.
Qed.

(** Start-up hands out ordinary RAM only. For a memory map whose descriptors are
    page-aligned, do not wrap and do not overlap, after [init]: every free frame is
    conventional memory above the kernel image and outside the framebuffer; no frame that
    holds a page of the active page tables (the root and every table below it) is free;
    the free counter equals the number of free bits; and the recorded total is the number of
    usable frames. *)
Theorem init_hands_out_ram info ke rd cr3 f :
  Forall desc_wf (mmap info) -> disjoint_descs (mmap info) -> 0 <= cr3 ->
  let f' := init info ke rd cr3 f in
  frames_wf f' /\
  (forall j, 0 <= j < MAX_MANAGED_FRAMES -> is_free f' j -> usable info ke j) /\
  (forall a, table_page rd cr3 a -> a / FRAME_SIZE < MAX_MANAGED_FRAMES -> ~ is_free f' (a / FRAME_SIZE)) /\
  (exists l, NoDup l /\ (forall j, j ∈ l <-> usable info ke j) /\ TOTAL_FRAMES f' = Z.of_nat (length l)).
Proof.
  intros Hwf Hdis Hcr3. cbv zeta. rewrite init_unfold. cbv zeta.
  destruct (init_descs_spec (kernel_end_of ke) (fb_first_frame info) (fb_last_frame info)
              (mmap info) (byte_fill 0xFF, 0) Hwf Hdis) as [H1 H2].
  cbn [fst snd] in H1, H2. set (acc := foldl _ _ _) in *.
  assert (Hcnt : snd acc = free_count (fst acc)).
  { apply H2; [intros; apply byte_fill_used | symmetry; apply free_count_used]. }
  assert (Hus : forall j, 0 <= j < MAX_MANAGED_FRAMES -> bitmap_test j (fst acc) = false <-> usable info ke j).
  { intros j Hj. rewrite H1, byte_fill_used. unfold usable, eligible. split.
    - intros [?|(? & ? & ? & ?)]; [discriminate | tauto].
    - intros (_ & ? & ? & ?). right. tauto. }
  clearbody acc. set (f0 := mk_frames _ _ _ _ _).
  assert (Hr0 : reserves (fst acc) (snd acc) f0) by (split; [exact Hcnt | split; [reflexivity | intros j Hj; exact Hj]]).
  destruct (reserves_active _ _ rd cr3 f0 Hcr3 Hr0) as (R1 & R2 & R3).
  split; [exact R1|]. split; [|split].
  - intros j Hj Hfree. apply (Hus j Hj). apply not_true_iff_false. intros Ht. specialize (R3 j Ht).
    unfold is_free in Hfree. congruence.
  - intros a Ha Hm Hfree. pose proof (table_page_taken rd cr3 a f0 Ha Hm). unfold is_free in Hfree. congruence.
  - exists (filter (fun j => bitmap_test j (fst acc) = false) managed).
    split; [apply NoDup_filter, NoDup_managed|]. split.
    + intros j. rewrite list_elem_of_filter, elem_of_managed. split.
      * intros [Hb Hj]. by apply Hus.
      * intros Hu. pose proof Hu as [Hj _]. split; [by apply Hus | exact Hj].
    + rewrite R2, Hcnt. with_strategy transparent [free_count] reflexivity.
Qed.

Definition sample_info : fb_mmap :=
  mk_fb_mmap 0x80000000 600 800 32 [mk_desc 7 0x100000 64; mk_desc 4 0x140000 16; mk_desc 7 0x150000 32].

Lemma init_hands_out_ram_witness :
  frames_wf (init sample_info 0x108000 (fun _ => 0) 0x110000 frames_boot) /\
  (forall j, 0 <= j < MAX_MANAGED_FRAMES ->
     is_free (init sample_info 0x108000 (fun _ => 0) 0x110000 frames_boot) j -> usable sample_info 0x108000 j).
Proof.
  assert (Hd : disjoint_descs (mmap sample_info)).
  { intros i j d d' x Hi Hj Hne Hd Hd'.
    pose proof (lookup_lt_Some _ _ _ Hi) as Li. pose proof (lookup_lt_Some _ _ _ Hj) as Lj. cbn in Li, Lj.
    destruct i as [|[|[|i]]]; try lia; injection Hi as <-;
      (destruct j as [|[|[|j]]]; try lia; injection Hj as <-);
      unfold desc_frame, FRAME_SIZE in Hd, Hd'; cbn [phys_start page_count] in Hd, Hd';
      Z.to_euclidean_division_equations; lia. }
  assert (Hw : Forall desc_wf (mmap sample_info)).
  { repeat (apply Forall_cons; split; [repeat split; vm_compute; congruence|]). apply Forall_nil_2. }
  destruct (init_hands_out_ram sample_info 0x108000 (fun _ => 0) 0x110000 frames_boot Hw Hd ltac:(lia))
    as (H1 & H2 & _).
  split; [exact H1 | exact H2].
Defined.
