(* ===== verification/Elf.v ===== *)
(** * The ELF64 parser (kernel/src/elf.rs)

    The trust boundary of program loading: [parse] takes bytes a user program supplied and
    either rejects them or returns the entry point and the loadable segments. The model keeps
    three outcomes apart: a value, [None], and a panic. *)

From S2P Require Import Prelude Addr.

(** ** Data *)

Definition MAX_SEGMENTS : Z := 32.
Definition PHENT_SIZE : Z := 56.
Definition PF_X : Z := 1.
Definition PF_W : Z := 2.

Record Segment : Type := mk_segment {
  offset : Z; vaddr : Z; filesz : Z; memsz : Z; flags : Z;
}.

Record Image : Type := mk_image {
  entry : Z; segs : list Segment;       (* the whole array [segments] *)
  count : Z;
}.

(** [Image::segments]. *)
Definition segments (img : Image) : list Segment := take (Z.to_nat (count img)) (segs img).

(** ** Little-endian reads *)

(** [bytes.get(s..e)]. *)
Definition get_range (bytes : list Z) (s e : Z) : option (list Z) :=
  if (s <=? e) && (e <=? Z.of_nat (length bytes)) then
    Some (take (Z.to_nat (e - s)) (drop (Z.to_nat s) bytes))
  else None.

(** [from_le_bytes]. *)
Definition le_value (l : list Z) : Z := foldr (fun b acc => b + 256 * acc) 0 l.

Definition u16le (bytes : list Z) (off : Z) : option Z := le_value <$> get_range bytes off (w64 (off + 2)).
Definition u32le (bytes : list Z) (off : Z) : option Z := le_value <$> get_range bytes off (w64 (off + 4)).
Definition u64le (bytes : list Z) (off : Z) : option Z := le_value <$> get_range bytes off (w64 (off + 8)).

Definition in_user_space (v : Z) : bool := is_user_address v && (USER_SPACE_BASE <=? v).

(** ** Parsing *)

(** One iteration of the program-header loop ([continue] returns the image unchanged). *)
Definition parse_phdr (bytes : list Z) (phoff phentsize : Z) (image : Image) (i : Z) : outcome Image :=
  let ph := w64 (phoff + w64 (i * phentsize)) in
  p_type ← ask (u32le bytes ph);
  if negb (p_type =? 1) then mret image
  else
    p_flags ← ask (u32le bytes (w64 (ph + 4)));
    p_offset ← ask (u64le bytes (w64 (ph + 8)));
    p_vaddr ← ask (u64le bytes (w64 (ph + 16)));
    p_filesz ← ask (u64le bytes (w64 (ph + 32)));
    p_memsz ← ask (u64le bytes (w64 (ph + 40)));
    _ ← require (negb (negb (Z.land p_flags PF_W =? 0) && negb (Z.land p_flags PF_X =? 0)));
    file_end ← ask (checked_add p_offset p_filesz);
    _ ← require (negb (Z.of_nat (length bytes) <? file_end));
    _ ← require (negb (p_memsz <? p_filesz));
    if p_memsz =? 0 then mret image
    else
      _ ← require (in_user_space p_vaddr);
      mem_end ← ask (checked_add p_vaddr p_memsz);
      _ ← require (negb (USER_SPACE_END <? mem_end));
      segs' ← unpanic (index_set (segs image) (count image)
                         (mk_segment p_offset p_vaddr p_filesz p_memsz p_flags));
      mret (mk_image (entry image) segs' (count image + 1)).

(** [for i in 0..phnum]. *)
Fixpoint parse_phdrs (bytes : list Z) (phoff phentsize : Z) (image : Image) (idxs : list Z) : outcome Image :=
  match idxs with
  | [] => mret image
  | i :: idxs =>
      image' ← parse_phdr bytes phoff phentsize image i;
      parse_phdrs bytes phoff phentsize image' idxs
  end.

Definition parse (bytes : list Z) : outcome Image :=
  let len := Z.of_nat (length bytes) in
  _ ← require (negb (len <? 64));
  magic ← ask (get_range bytes 0 4);
  _ ← require (bool_decide (magic = [0x7f; 0x45; 0x4c; 0x46]));
  class ← unpanic (index bytes 4); _ ← require (class =? 2);
  data ← unpanic (index bytes 5); _ ← require (data =? 1);
  version ← unpanic (index bytes 6); _ ← require (version =? 1);
  e_type ← ask (u16le bytes 16); _ ← require (e_type =? 2);
  e_machine ← ask (u16le bytes 18); _ ← require (e_machine =? 62);
  entry ← ask (u64le bytes 24);
  phoff ← ask (u64le bytes 32);
  phentsize ← ask (u16le bytes 54);
  phnum ← ask (u16le bytes 56);
  _ ← require (phentsize =? PHENT_SIZE);
  _ ← require (negb ((phnum =? 0) || (MAX_SEGMENTS <? phnum)));
  table ← ask (checked_mul phentsize phnum);
  ph_end ← ask (checked_add phoff table);
  _ ← require (negb (len <? ph_end));
  _ ← require (in_user_space entry);
  let image0 := mk_image entry (replicate (Z.to_nat MAX_SEGMENTS) (mk_segment 0 0 0 0 0)) 0 in
  image ← parse_phdrs bytes phoff phentsize image0 (seqZ 0 phnum);
  _ ← require (negb (count image =? 0));
  _ ← require (existsb (fun s => (vaddr s <=? entry) && (entry <? w64 (vaddr s + memsz s))) (segments image));
  mret image.

(** ** Examples: the sample image of the unit tests *)

Fixpoint le_bytes (n : nat) (x : Z) : list Z :=
  match n with O => [] | S n => x mod 256 :: le_bytes n (x / 256) end.

Definition sample_elf (seg_flags base size : Z) : list Z :=
  [0x7f; 0x45; 0x4c; 0x46; 2; 1; 1] ++ replicate 9 0 ++ le_bytes 2 2 ++ le_bytes 2 62 ++ replicate 4 0 ++
  le_bytes 8 (USER_SPACE_BASE + 0x1000) ++ le_bytes 8 64 ++ replicate 14 0 ++ le_bytes 2 56 ++
  le_bytes 2 1 ++ replicate 6 0 ++
  le_bytes 4 1 ++ le_bytes 4 seg_flags ++ le_bytes 8 0 ++ le_bytes 8 base ++ le_bytes 8 0 ++
  le_bytes 8 0x10 ++ le_bytes 8 size ++ le_bytes 8 0 ++ replicate 16 0.

Example accepts_minimal_image :
  (img ← parse (sample_elf 5 USER_SPACE_BASE 0x2000); mret (segments img)) =
  Value [mk_segment 0 USER_SPACE_BASE 0x10 0x2000 5].
Proof. vm_compute. reflexivity. Qed.

Example rejects_writable_executable_segment : parse (sample_elf 3 USER_SPACE_BASE 0x2000) = Fail.
Proof. vm_compute. reflexivity. Qed.

(** One more loadable header after the first. *)
Definition sample_elf2 (off vaddr filesz memsz : Z) : list Z :=
  take 56 (sample_elf 5 USER_SPACE_BASE 0x2000) ++ le_bytes 2 2 ++ take 62 (drop 58 (sample_elf 5 USER_SPACE_BASE 0x2000)) ++
  le_bytes 4 1 ++ le_bytes 4 2 ++ le_bytes 8 off ++ le_bytes 8 vaddr ++ le_bytes 8 0 ++ le_bytes 8 filesz ++
  le_bytes 8 memsz ++ le_bytes 8 0.

(** Overlapping segments are accepted, here a writable one over an executable one, although the
    module comment says that they are rejected. *)
Example accepts_overlapping_segments :
  (img ← parse (sample_elf2 0 (USER_SPACE_BASE + 0x1000) 0x10 0x1000); mret (segments img)) =
  Value [mk_segment 0 USER_SPACE_BASE 0x10 0x2000 5; mk_segment 0 (USER_SPACE_BASE + 0x1000) 0x10 0x1000 2].
Proof. vm_compute. reflexivity. Qed.

(** A segment without contents whose file offset lies outside the file is rejected, although the
    comment at the check exempts such segments. *)
Example rejects_empty_contents_outside : parse (sample_elf2 0x10000 (USER_SPACE_BASE + 0x2000) 0 0x1000) = Fail.
Proof. vm_compute. reflexivity. Qed.

(** ** What a valid image is *)

(** The [n]-byte little-endian field at offset [off]. *)
Definition field (bytes : list Z) (off : Z) (n : nat) : Z :=
  le_value (take n (drop (Z.to_nat off) bytes)).

(** Program header [i] of a table at [phoff], read as a segment. *)
Definition phdr_type (bytes : list Z) (ph : Z) : Z := field bytes ph 4.
Definition phdr_seg (bytes : list Z) (ph : Z) : Segment :=
  mk_segment (field bytes (ph + 8) 8) (field bytes (ph + 16) 8) (field bytes (ph + 32) 8)
    (field bytes (ph + 40) 8) (field bytes (ph + 4) 4).

(** A loadable header is acceptable: W^X, its file range inside the image, file size at most
    the memory size, and a non-empty memory range inside the user slot. *)
Definition segment_wx (s : Segment) : Prop := Z.land (flags s) PF_W = 0 \/ Z.land (flags s) PF_X = 0.
Definition segment_ok (len : Z) (s : Segment) : Prop :=
  segment_wx s /\ offset s + filesz s <= len /\ filesz s <= memsz s /\
  (memsz s = 0 \/ USER_SPACE_BASE <= vaddr s /\ vaddr s + memsz s <= USER_SPACE_END).

#[export] Instance segment_ok_dec len s : Decision (segment_ok len s).
Proof. unfold segment_ok, segment_wx. apply _. Defined.

Definition phdr_ok (bytes : list Z) (ph : Z) : Prop :=
  phdr_type bytes ph = 1 -> segment_ok (Z.of_nat (length bytes)) (phdr_seg bytes ph).

#[export] Instance phdr_ok_dec bytes ph : Decision (phdr_ok bytes ph).
Proof. unfold phdr_ok. apply _. Defined.

(** The headers' positions and the segments that are loaded. *)
Definition phdrs (phoff : Z) (idxs : list Z) : list Z := (fun i => phoff + i * PHENT_SIZE) <$> idxs.
Definition loaded (bytes : list Z) (phs : list Z) : list Segment :=
  filter (fun s => memsz s <> 0) (phdr_seg bytes <$> filter (fun ph => phdr_type bytes ph = 1) phs).

Definition image_of (e : Z) (l : list Segment) : Image :=
  mk_image e (l ++ replicate (Z.to_nat MAX_SEGMENTS - length l) (mk_segment 0 0 0 0 0)) (Z.of_nat (length l)).

Definition elf_segments (bytes : list Z) : list Segment :=
  loaded bytes (phdrs (field bytes 32 8) (seqZ 0 (field bytes 56 2))).

Record valid_elf (bytes : list Z) : Prop := {
  ve_len : 64 <= Z.of_nat (length bytes);
  ve_ident : take 7 bytes = [0x7f; 0x45; 0x4c; 0x46; 2; 1; 1];
  ve_type : field bytes 16 2 = 2;
  ve_machine : field bytes 18 2 = 62;
  ve_phentsize : field bytes 54 2 = PHENT_SIZE;
  ve_phnum : 1 <= field bytes 56 2 <= MAX_SEGMENTS;
  ve_table : field bytes 32 8 + field bytes 56 2 * PHENT_SIZE <= Z.of_nat (length bytes);
  ve_phdrs : Forall (phdr_ok bytes) (phdrs (field bytes 32 8) (seqZ 0 (field bytes 56 2)));
  ve_entry : Exists (fun s => vaddr s <= field bytes 24 8 < vaddr s + memsz s) (elf_segments bytes);
}.

(** A byte slice: its elements are bytes and its length is at most [isize::MAX]. *)
Definition is_slice (bytes : list Z) : Prop :=
  Forall (fun b => 0 <= b < 256) bytes /\ Z.of_nat (length bytes) < 2^63.

(** ** Reads *)

Lemma le_value_bound l : Forall (fun b => 0 <= b < 256) l -> 0 <= le_value l < 256 ^ Z.of_nat (length l).
Proof.
  induction 1 as [|b l Hb _ IH]; [simpl; lia|]. cbn [le_value foldr length].
  fold (le_value l). rewrite Nat2Z.inj_succ, Z.pow_succ_r by lia. lia.
Qed.

Lemma field_bound bytes off n : is_slice bytes -> 0 <= field bytes off n < 256 ^ Z.of_nat n.
Proof.
  intros [Hb _]. unfold field.
  pose proof (le_value_bound (take n (drop (Z.to_nat off) bytes)) ltac:(by apply Forall_take, Forall_drop)) as H.
  rewrite length_take in H. split; [lia|]. eapply Z.lt_le_trans; [apply H|].
  apply Z.pow_le_mono_r; lia.
Qed.

Lemma read_field bytes off (n : nat) :
  is_slice bytes -> 0 <= off -> off + Z.of_nat n <= Z.of_nat (length bytes) ->
  le_value <$> get_range bytes off (w64 (off + Z.of_nat n)) = Some (field bytes off n).
Proof.
  intros [_ Hl] Ho Hn. unfold get_range, w64. rewrite Z.mod_small by lia.
  rewrite (proj2 (Z.leb_le _ _)), (proj2 (Z.leb_le _ _)) by lia. cbn [andb fmap option_fmap option_map].
  unfold field. by replace (Z.to_nat (off + Z.of_nat n - off)) with n by lia.
Qed.

Lemma u16le_field bytes off :
  is_slice bytes -> 0 <= off -> off + 2 <= Z.of_nat (length bytes) -> u16le bytes off = Some (field bytes off 2).
Proof. intros. by apply (read_field bytes off 2). Qed.
Lemma u32le_field bytes off :
  is_slice bytes -> 0 <= off -> off + 4 <= Z.of_nat (length bytes) -> u32le bytes off = Some (field bytes off 4).
Proof. intros. by apply (read_field bytes off 4). Qed.
Lemma u64le_field bytes off :
  is_slice bytes -> 0 <= off -> off + 8 <= Z.of_nat (length bytes) -> u64le bytes off = Some (field bytes off 8).
Proof. intros. by apply (read_field bytes off 8). Qed.

(** ** The program-header loop *)

(** A non-empty range passes the two range checks exactly if it lies in the user slot. *)
Lemma user_range_check v n :
  0 <= v < 2^64 -> 0 < n < 2^64 ->
  in_user_space v = true /\ (exists e, checked_add v n = Some e /\ (USER_SPACE_END <? e) = false) <->
  USER_SPACE_BASE <= v /\ v + n <= USER_SPACE_END.
Proof.
  intros Hv Hn. unfold in_user_space, checked_add. split.
  - intros [H (e & He & Hle)]. case_match; [|discriminate]. injection He as <-. bool_to_prop. lia.
  - intros [H1 H2]. assert (v < 2^48) by (unfold USER_SPACE_END, USER_SPACE_BASE in *; lia). split.
    + rewrite (proj2 (is_user_address_canonical v ltac:(lia))) by lia. cbn. by apply Z.leb_le.
    + exists (v + n). rewrite (proj2 (Z.ltb_lt _ _)) by (unfold USER_SPACE_END, USER_SPACE_BASE in *; lia).
      split; [done|]. apply Z.ltb_ge. lia.
Qed.

Lemma wx_check f : (negb (negb (Z.land f PF_W =? 0) && negb (Z.land f PF_X =? 0))) = true <->
  Z.land f PF_W = 0 \/ Z.land f PF_X = 0.
Proof. destruct (Z.eqb_spec (Z.land f PF_W) 0), (Z.eqb_spec (Z.land f PF_X) 0); cbn; naive_solver. Qed.

Lemma image_of_push e l s :
  (length l < Z.to_nat MAX_SEGMENTS)%nat ->
  index_set (segs (image_of e l)) (count (image_of e l)) s = Ok (segs (image_of e (l ++ [s]))) /\
  count (image_of e l) + 1 = count (image_of e (l ++ [s])).
Proof.
  intros Hl. unfold image_of; cbn [segs count]. unfold index_set, insertZ. rewrite !length_app, length_replicate.
  rewrite (proj2 (Z.leb_le _ _)), (proj2 (Z.ltb_lt _ _)) by lia. cbn [andb length]. split; [|lia].
  f_equal. rewrite Nat2Z.id.
  replace (Z.to_nat MAX_SEGMENTS - length l)%nat with (S (Z.to_nat MAX_SEGMENTS - (length l + 1)))%nat by lia.
  cbn [replicate]. rewrite insert_app_r_alt, Nat.sub_diag by lia. cbn. by rewrite <- app_assoc.
Qed.

(** The checks on one loadable header, and what they amount to. *)
Lemma accept_segment len e l s :
  0 <= len < 2^63 -> (length l < Z.to_nat MAX_SEGMENTS)%nat ->
  0 <= offset s < 2^64 -> 0 <= vaddr s < 2^64 -> 0 <= filesz s < 2^64 -> 0 <= memsz s < 2^64 ->
  (_ ← require (negb (negb (Z.land (flags s) PF_W =? 0) && negb (Z.land (flags s) PF_X =? 0)));
   file_end ← ask (checked_add (offset s) (filesz s));
   _ ← require (negb (len <? file_end));
   _ ← require (negb (memsz s <? filesz s));
   if memsz s =? 0 then mret (image_of e l)
   else
     _ ← require (in_user_space (vaddr s));
     mem_end ← ask (checked_add (vaddr s) (memsz s));
     _ ← require (negb (USER_SPACE_END <? mem_end));
     segs' ← unpanic (index_set (segs (image_of e l)) (count (image_of e l))
                        (mk_segment (offset s) (vaddr s) (filesz s) (memsz s) (flags s)));
     mret (mk_image (entry (image_of e l)) segs' (count (image_of e l) + 1))) =
  if decide (segment_ok len s) then
    Value (image_of e (l ++ filter (fun s => memsz s <> 0) [s]))
  else Fail.
Proof.
  intros Hlen Hl Ho Hv Hf Hm. unfold segment_ok, segment_wx.
  destruct (decide (Z.land (flags s) PF_W = 0 \/ Z.land (flags s) PF_X = 0)) as [Hwx|Hwx].
  2:{ rewrite decide_False by tauto. rewrite <- wx_check in Hwx. apply not_true_iff_false in Hwx.
      by rewrite Hwx. }
  rewrite (proj2 (wx_check _) Hwx). cbn [require mbind outcome_bind].
  change (checked_add (offset s) (filesz s)) with
    (if offset s + filesz s <? 2^64 then Some (offset s + filesz s) else None).
  destruct (Z.ltb_spec (offset s + filesz s) (2^64)) as [H1|H1].
  2:{ rewrite decide_False; [done|]. intros (_ & ? & _). lia. }
  cbn [ask mbind outcome_bind]. destruct (Z.ltb_spec len (offset s + filesz s)) as [H2|H2].
  { rewrite decide_False; [done|]. intros (_ & ? & _). lia. }
  cbn [negb require mbind outcome_bind]. destruct (Z.ltb_spec (memsz s) (filesz s)) as [H3|H3].
  { rewrite decide_False; [done|]. intros (_ & _ & ? & _). lia. }
  cbn [negb require mbind outcome_bind]. rewrite filter_cons, filter_nil.
  destruct (Z.eqb_spec (memsz s) 0) as [H4|H4].
  { rewrite decide_True by (split; [done|]; split; [done|]; split; [done | by left]).
    rewrite decide_False by tauto. by rewrite app_nil_r. }
  rewrite (decide_True (P := memsz s <> 0)) by done.
  pose proof (user_range_check (vaddr s) (memsz s) Hv ltac:(lia)) as Hr.
  destruct (decide (USER_SPACE_BASE <= vaddr s /\ vaddr s + memsz s <= USER_SPACE_END)) as [Hu|Hu].
  - rewrite decide_True by (split; [done|]; split; [done|]; split; [done | by right]).
    apply Hr in Hu as [-> (me & -> & Hle)]. cbn [ask require mbind outcome_bind]. rewrite Hle.
    cbn [negb require mbind outcome_bind]. destruct s as [so sv sf sm sfl]; cbn [offset vaddr filesz memsz flags].
    destruct (image_of_push e l (mk_segment so sv sf sm sfl) Hl) as [-> ->]. reflexivity.
  - rewrite decide_False by (intros (_ & _ & _ & [?|?]); tauto). rewrite <- Hr in Hu.
    destruct (in_user_space (vaddr s)); [|done]. cbn [require mbind outcome_bind].
    destruct (checked_add (vaddr s) (memsz s)) as [me|]; [|done]. cbn [ask mbind outcome_bind].
    destruct (USER_SPACE_END <? me) eqn:E; [done|]. exfalso. apply Hu. eauto.
Qed.

Lemma parse_phdr_spec bytes phoff e l i :
  is_slice bytes -> 0 <= phoff -> 0 <= i -> phoff + (i + 1) * PHENT_SIZE <= Z.of_nat (length bytes) ->
  (length l < Z.to_nat MAX_SEGMENTS)%nat ->
  parse_phdr bytes phoff PHENT_SIZE (image_of e l) i =
  if decide (phdr_ok bytes (phoff + i * PHENT_SIZE)) then
    Value (image_of e (l ++ loaded bytes [phoff + i * PHENT_SIZE]))
  else Fail.
Proof.
  intros Hs Hp Hi Hle Hl. pose proof (proj2 Hs) as Hlen. unfold parse_phdr, PHENT_SIZE in *.
  assert (Hw : forall k, 0 <= k <= 56 -> w64 (phoff + i * 56 + k) = phoff + i * 56 + k)
    by (intros; unfold w64; apply Z.mod_small; lia).
  replace (w64 (phoff + w64 (i * 56))) with (phoff + i * 56)
    by (unfold w64; rewrite (Z.mod_small (i * 56)), Z.mod_small by lia; lia).
  assert (Hph : 0 <= phoff + i * 56 /\ phoff + i * 56 + 56 <= Z.of_nat (length bytes)) by lia.
  set (ph := phoff + i * 56) in *. cbv zeta.
  rewrite (u32le_field bytes ph) by (done || lia). cbn [ask mbind outcome_bind].
  unfold loaded, phdr_ok. rewrite filter_cons, filter_nil. unfold phdr_type.
  destruct (Z.eqb_spec (field bytes ph 4) 1) as [Ht|Ht]; cbn [negb].
  2:{ rewrite decide_True by tauto. rewrite decide_False by done. by rewrite app_nil_r. }
  rewrite !Hw by lia. rewrite (u32le_field bytes (ph + 4)) by (done || lia). cbn [ask mbind outcome_bind].
  rewrite !u64le_field by (done || lia). cbn [ask mbind outcome_bind].
  rewrite (decide_True (P := field bytes ph 4 = 1)) by done.
  pose proof (fun o => field_bound bytes o 8 Hs) as Hfb. change (256 ^ Z.of_nat 8) with (2^64) in Hfb.
  pose proof (accept_segment (Z.of_nat (length bytes)) e l (phdr_seg bytes ph) ltac:(lia) Hl
                (Hfb _) (Hfb _) (Hfb _) (Hfb _)) as Ha.
  cbn [phdr_seg offset vaddr filesz memsz flags] in Ha.
  etransitivity; [exact Ha|]. apply decide_ext. tauto.
Qed.

Lemma loaded_app bytes l1 l2 : loaded bytes (l1 ++ l2) = loaded bytes l1 ++ loaded bytes l2.
Proof. unfold loaded. by rewrite filter_app, fmap_app, filter_app. Qed.

Lemma loaded_length bytes l : (length (loaded bytes l) <= length l)%nat.
Proof.
  unfold loaded. etransitivity; [apply length_filter|]. rewrite length_fmap. apply length_filter.
Qed.

Lemma parse_phdrs_spec bytes phoff e idxs l :
  is_slice bytes -> 0 <= phoff ->
  Forall (fun i => 0 <= i /\ phoff + (i + 1) * PHENT_SIZE <= Z.of_nat (length bytes)) idxs ->
  (length l + length idxs <= Z.to_nat MAX_SEGMENTS)%nat ->
  parse_phdrs bytes phoff PHENT_SIZE (image_of e l) idxs =
  if decide (Forall (phdr_ok bytes) (phdrs phoff idxs)) then
    Value (image_of e (l ++ loaded bytes (phdrs phoff idxs)))
  else Fail.
Proof.
  intros Hs Hp Hidx. revert l. induction Hidx as [|i idxs [Hi Hle] _ IH]; intros l Hl; cbn [parse_phdrs phdrs].
  - rewrite decide_True by constructor. cbn. by rewrite app_nil_r.
  - cbn [length] in Hl. rewrite parse_phdr_spec by (done || lia).
    change (phdrs phoff (i :: idxs)) with ([phoff + i * PHENT_SIZE] ++ phdrs phoff idxs).
    destruct (decide (phdr_ok bytes (phoff + i * PHENT_SIZE))) as [H|H].
    + cbn [mbind outcome_bind].
      pose proof (loaded_length bytes [phoff + i * PHENT_SIZE]) as Hn. cbn [length] in Hn.
      rewrite IH by (rewrite length_app; lia). rewrite loaded_app, app_assoc. apply decide_ext.
      rewrite Forall_app, Forall_singleton. tauto.
    + cbn [mbind outcome_bind]. rewrite decide_False; [done|]. rewrite Forall_app, Forall_singleton. tauto.
Qed.

(** ** The parser against its specification *)

Section exact.
Context (bytes : list Z) (Hs : is_slice bytes).

Definition parsed : Image := image_of (field bytes 24 8) (elf_segments bytes).

(** [r] is the right answer for [bytes]. *)
Definition exact_answer (r : outcome Image) : Prop :=
  r <> Crash /\ forall img, r = Value img <-> valid_elf bytes /\ img = parsed.

Lemma exact_fail : ~ valid_elf bytes -> exact_answer Fail.
Proof. intros H. split; [done|]. intros img. split; [done | tauto]. Qed.

Lemma exact_require b k :
  (b = false -> ~ valid_elf bytes) -> (b = true -> exact_answer (k tt)) -> exact_answer (require b ≫= k).
Proof. intros H1 H2. destruct b; [by apply H2 | by apply exact_fail, H1]. Qed.

Lemma ident_index (k : nat) x :
  (k < 7)%nat -> 64 <= Z.of_nat (length bytes) -> index bytes (Z.of_nat k) = Ok x -> take 7 bytes !! k = Some x.
Proof. intros Hk Hl H. apply index_ok in H. rewrite lookupZ_nat in H. by rewrite lookup_take, decide_True. Qed.

Lemma index_in (k : nat) : Z.of_nat k < Z.of_nat (length bytes) -> exists x, index bytes (Z.of_nat k) = Ok x.
Proof.
  intros Hk. destruct (lookup_lt_is_Some_2 bytes k) as [x Hx]; [lia|]. exists x. apply index_ok.
  by rewrite lookupZ_nat.
Qed.

(** The last checks: at least one segment, and the entry point in a segment. *)
Lemma exact_tail :
  (length (elf_segments bytes) <= Z.to_nat MAX_SEGMENTS)%nat ->
  Forall (fun s => 0 <= vaddr s /\ 0 <= memsz s /\ vaddr s + memsz s < 2^64) (elf_segments bytes) ->
  (Exists (fun s => vaddr s <= field bytes 24 8 < vaddr s + memsz s) (elf_segments bytes) -> valid_elf bytes) ->
  exact_answer
    (_ ← require (negb (count parsed =? 0));
     _ ← require (existsb (fun s => (vaddr s <=? field bytes 24 8) &&
                     (field bytes 24 8 <? w64 (vaddr s + memsz s))) (segments parsed));
     mret parsed).
Proof.
  intros Hlen Hwf Hval.
  assert (Hsegs : segments parsed = elf_segments bytes).
  { unfold segments, parsed, image_of; cbn [segs count]. rewrite Nat2Z.id. by rewrite take_app_length. }
  assert (Hex : existsb (fun s => (vaddr s <=? field bytes 24 8) &&
                  (field bytes 24 8 <? w64 (vaddr s + memsz s))) (elf_segments bytes) = true <->
                Exists (fun s => vaddr s <= field bytes 24 8 < vaddr s + memsz s) (elf_segments bytes)).
  { rewrite existsb_exists, Exists_exists. rewrite Forall_forall in Hwf.
    split; intros (s & H1 & H2); exists s; rewrite ?list_elem_of_In in *; (split; [done|]).
    - apply andb_prop in H2 as [? ?]. bool_to_prop. specialize (Hwf s ltac:(by apply list_elem_of_In)).
      unfold w64 in *. rewrite Z.mod_small in * by lia. lia.
    - specialize (Hwf s ltac:(by apply list_elem_of_In)). unfold w64. rewrite Z.mod_small by lia.
      apply andb_true_iff. split; [apply Z.leb_le | apply Z.ltb_lt]; lia. }
  apply exact_require; [|intros _; apply exact_require].
  - intros E Hv. apply negb_false_iff, Z.eqb_eq in E. cbn [parsed image_of count] in E.
    pose proof (ve_entry _ Hv) as Hx. destruct (elf_segments bytes); [by apply Exists_nil in Hx | discriminate].
  - rewrite Hsegs. intros E Hv. apply not_true_iff_false in E. apply E, Hex, Hv.
  - rewrite Hsegs. intros E. split; [done|]. intros img. split.
    + intros [= <-]. split; [by apply Hval, Hex | done].
    + intros [_ ->]. done.
Qed.

Lemma loaded_wf phs :
  Forall (phdr_ok bytes) phs ->
  Forall (fun s => 0 <= vaddr s /\ 0 <= memsz s /\ vaddr s + memsz s < 2^64) (loaded bytes phs).
Proof using Hs.
  intros H. apply Forall_forall. intros s Hin. unfold loaded in Hin.
  apply list_elem_of_filter in Hin as [Hm Hin]. apply list_elem_of_fmap in Hin as (ph & -> & Hin).
  apply list_elem_of_filter in Hin as [Ht Hin]. rewrite Forall_forall in H.
  destruct (H ph Hin Ht) as (_ & _ & _ & Hr). cbn [phdr_seg vaddr memsz] in *.
  pose proof (field_bound bytes (ph + 16) 8 Hs). pose proof (field_bound bytes (ph + 40) 8 Hs).
  unfold USER_SPACE_END, USER_SPACE_BASE in *. lia.
Qed.

Lemma in_user_space_entry :
  Forall (phdr_ok bytes) (phdrs (field bytes 32 8) (seqZ 0 (field bytes 56 2))) ->
  Exists (fun s => vaddr s <= field bytes 24 8 < vaddr s + memsz s) (elf_segments bytes) ->
  in_user_space (field bytes 24 8) = true.
Proof.
  intros Hok Hex. apply Exists_exists in Hex as (s & Hin & He). unfold elf_segments, loaded in Hin.
  apply list_elem_of_filter in Hin as [Hm Hin]. apply list_elem_of_fmap in Hin as (ph & -> & Hin).
  apply list_elem_of_filter in Hin as [Ht Hin]. rewrite Forall_forall in Hok.
  destruct (Hok ph Hin Ht) as (_ & _ & _ & Hr). destruct Hr as [?|Hr]; [done|].
  unfold in_user_space. apply andb_true_iff. rewrite Z.leb_le.
  split; [|lia]. apply is_user_address_canonical; unfold USER_SPACE_END, USER_SPACE_BASE in *; lia.
Qed.

Lemma ident_spec x4 x5 x6 :
  64 <= Z.of_nat (length bytes) ->
  index bytes 4 = Ok x4 -> index bytes 5 = Ok x5 -> index bytes 6 = Ok x6 ->
  take 7 bytes = take 4 bytes ++ [x4; x5; x6].
Proof.
  intros Hl H4 H5 H6.
  apply (ident_index 4) in H4; [|lia|done]. apply (ident_index 5) in H5; [|lia|done].
  apply (ident_index 6) in H6; [|lia|done]. clear Hs.
  destruct bytes as [|a [|b [|c [|d [|e [|f [|g t]]]]]]]; cbn [length] in Hl; try lia; by simplify_eq/=.
Qed.

Lemma exact_parse : exact_answer (parse bytes).
Proof using Hs.
  unfold parse. cbv zeta. apply exact_require; intros Hl.
  { intros Hv. pose proof (ve_len _ Hv). apply negb_false_iff in Hl. bool_to_prop. lia. }
  apply negb_true_iff in Hl. bool_to_prop.
  assert (Hmagic : get_range bytes 0 4 = Some (take 4 bytes)).
  { unfold get_range. by rewrite (proj2 (Z.leb_le 4 (Z.of_nat (length bytes)))) by lia. }
  destruct (index_in 4 ltac:(lia)) as [x4 H4]. destruct (index_in 5 ltac:(lia)) as [x5 H5].
  destruct (index_in 6 ltac:(lia)) as [x6 H6]. 
  change (index bytes 4 = Ok x4) in H4. change (index bytes 5 = Ok x5) in H5. change (index bytes 6 = Ok x6) in H6.
  pose proof (ident_spec x4 x5 x6 Hl H4 H5 H6) as Hid.
  assert (Hve : valid_elf bytes -> take 4 bytes = [0x7f; 0x45; 0x4c; 0x46] /\ x4 = 2 /\ x5 = 1 /\ x6 = 1).
  { intros Hv. pose proof (ve_ident _ Hv) as E. rewrite Hid in E.
    clear -E Hl. destruct bytes as [|a [|b [|c [|d t]]]]; cbn in *; try discriminate. naive_solver. }
  rewrite Hmagic, H4, H5, H6, !u16le_field, !u64le_field by (done || lia).
  cbn [ask unpanic mbind outcome_bind]. apply exact_require; intros E1.
  { apply bool_decide_eq_false in E1. tauto. }
  apply bool_decide_eq_true in E1.
  do 3 (apply exact_require; [intros E Hv; apply Z.eqb_neq in E; tauto|]; intros ?).
  apply exact_require; [intros E Hv; apply Z.eqb_neq in E; apply E, ve_type, Hv|]; intros ?.
  apply exact_require; [intros E Hv; apply Z.eqb_neq in E; apply E, ve_machine, Hv|]; intros ?.
  apply exact_require; [intros E Hv; apply Z.eqb_neq in E; apply E, ve_phentsize, Hv|]; intros Hpe.
  bool_to_prop. rewrite Hpe.
  apply exact_require; intros Hn.
  { intros Hv. pose proof (ve_phnum _ Hv). apply negb_false_iff, orb_true_iff in Hn as [Hn|Hn]; bool_to_prop; lia. }
  apply negb_true_iff in Hn. bool_to_prop.
  pose proof (field_bound bytes 56 2 Hs) as B56. pose proof (field_bound bytes 32 8 Hs) as B32.
  change (256 ^ Z.of_nat 8) with (2^64) in B32. pose proof (proj2 Hs) as Hlen.
  set (phoff := field bytes 32 8) in *. set (phnum := field bytes 56 2) in *.
  unfold checked_mul. unfold MAX_SEGMENTS, PHENT_SIZE in *.
  rewrite (proj2 (Z.ltb_lt (56 * phnum) (2^64))) by lia. cbn [ask mbind outcome_bind].
  unfold checked_add. destruct (Z.ltb_spec (phoff + 56 * phnum) (2^64)) as [Hlt|Hge].
  2:{ apply exact_fail. intros Hv. pose proof (ve_table _ Hv). unfold PHENT_SIZE in *. lia. }
  cbn [ask mbind outcome_bind]. apply exact_require; intros Ht.
  { intros Hv. pose proof (ve_table _ Hv). apply negb_false_iff in Ht. bool_to_prop. unfold PHENT_SIZE in *. lia. }
  apply negb_true_iff in Ht. bool_to_prop.
  apply exact_require; intros Hu.
  { intros Hv. rewrite (in_user_space_entry (ve_phdrs _ Hv) (ve_entry _ Hv)) in Hu. discriminate. }
  change (mk_image _ _ _) with (image_of (field bytes 24 8) []).
  change 56 with PHENT_SIZE.
  rewrite parse_phdrs_spec; [|done|lia| |cbn [length]; rewrite length_seqZ; unfold MAX_SEGMENTS; lia].
  2:{ apply Forall_forall. intros i Hi. apply elem_of_seqZ in Hi. unfold PHENT_SIZE. lia. }
  change (loaded bytes (phdrs phoff (seqZ 0 phnum))) with (elf_segments bytes).
  destruct (decide (Forall (phdr_ok bytes) (phdrs phoff (seqZ 0 phnum)))) as [Hok|Hok].
  2:{ apply exact_fail. intros Hv. exact (Hok (ve_phdrs _ Hv)). }
  cbn [mbind outcome_bind app]. apply exact_tail.
  - unfold elf_segments. etransitivity; [apply loaded_length|]. unfold phdrs.
    rewrite length_fmap, length_seqZ. fold phnum. unfold MAX_SEGMENTS. lia.
  - by apply loaded_wf.
  - intros Hex. constructor; try done; try (unfold PHENT_SIZE, MAX_SEGMENTS; lia).
    rewrite Hid, E1. naive_solver.
Qed.
End exact.

(** C30. The parser decides exactly the set of valid images. For every byte slice it never
    panics, it returns an image iff the header is that of an ELF64 little-endian [ET_EXEC]
    x86-64 file with 1 to 32 program headers inside the file, every loadable header is
    acceptable on its own ([segment_ok]: not both writable and executable; its file range inside the
    file, also when it has no contents; no more contents than memory; a memory range inside user
    space) and the entry point lies in a loaded segment; the image returned is the entry point with
    the non-empty loadable segments in file order. Segments are not compared with each other:
    overlapping ones are accepted, which the module comment denies. *)
Theorem parse_exact bytes :
  is_slice bytes ->
  parse bytes <> Crash /\
  forall img, parse bytes = Value img <-> valid_elf bytes /\ img = image_of (field bytes 24 8) (elf_segments bytes).
Proof. intros Hs. exact (exact_parse bytes Hs). Qed.

Lemma sample_elf_slice : is_slice (sample_elf 5 USER_SPACE_BASE 0x2000).
Proof. split; [apply (bool_decide_eq_true_1 (Forall _ _)); vm_compute; reflexivity | vm_compute; reflexivity]. Qed.

Lemma parse_exact_witness :
  is_slice (sample_elf 5 USER_SPACE_BASE 0x2000) /\ valid_elf (sample_elf 5 USER_SPACE_BASE 0x2000).
Proof.
  split; [exact sample_elf_slice|].
  destruct (parse (sample_elf 5 USER_SPACE_BASE 0x2000)) as [img| |] eqn:E; [|vm_compute in E; discriminate..].
  exact (proj1 (proj1 (proj2 (parse_exact _ sample_elf_slice) img) E)).
Defined.

Lemma loaded_ok bytes phs s :
  Forall (phdr_ok bytes) phs -> s ∈ loaded bytes phs -> segment_ok (Z.of_nat (length bytes)) s /\ memsz s <> 0.
Proof.
  intros H Hin. unfold loaded in Hin.
  apply list_elem_of_filter in Hin as [Hm Hin]. apply list_elem_of_fmap in Hin as (ph & -> & Hin).
  apply list_elem_of_filter in Hin as [Ht Hin]. rewrite Forall_forall in H. by split; [apply H|].
Qed.

Lemma segments_image_of e l : segments (image_of e l) = l.
Proof. unfold segments, image_of; cbn [segs count]. rewrite Nat2Z.id. by rewrite take_app_length. Qed.

(** What the loader may rely on: an accepted segment is W^X, non-empty, lies in the user slot
    below [USER_SPACE_END], and its file bytes exist. *)
Lemma parse_segments bytes img :
  is_slice bytes -> parse bytes = Value img ->
  (1 <= length (segments img) <= Z.to_nat MAX_SEGMENTS)%nat /\
  USER_SPACE_BASE <= entry img < USER_SPACE_END /\
  Exists (fun s => vaddr s <= entry img < vaddr s + memsz s) (segments img) /\
  Forall (fun s => segment_wx s /\ 0 <= offset s /\ 0 <= filesz s <= memsz s /\ 0 < memsz s /\
            offset s + filesz s <= Z.of_nat (length bytes) /\
            USER_SPACE_BASE <= vaddr s /\ vaddr s + memsz s <= USER_SPACE_END) (segments img).
Proof.
  intros Hs E. apply (exact_parse bytes Hs) in E as [Hv ->]. unfold parsed. rewrite segments_image_of.
  cbn [entry image_of]. pose proof (ve_entry _ Hv) as Hex. pose proof (ve_phdrs _ Hv) as Hok.
  assert (Hall : Forall (fun s => segment_wx s /\ 0 <= offset s /\ 0 <= filesz s <= memsz s /\ 0 < memsz s /\
            offset s + filesz s <= Z.of_nat (length bytes) /\
            USER_SPACE_BASE <= vaddr s /\ vaddr s + memsz s <= USER_SPACE_END) (elf_segments bytes)).
  { apply Forall_forall. intros s Hin. pose proof (loaded_wf bytes Hs _ Hok) as Hw.
    rewrite Forall_forall in Hw. specialize (Hw s Hin).
    destruct (loaded_ok _ _ _ Hok Hin) as [(? & ? & ? & Hr) ?]. destruct Hr as [?|?]; [done|].
    unfold elf_segments, loaded in Hin. apply list_elem_of_filter in Hin as [_ Hin].
    apply list_elem_of_fmap in Hin as (ph & -> & _). cbn [phdr_seg offset filesz memsz vaddr flags] in *.
    pose proof (field_bound bytes (ph + 8) 8 Hs). pose proof (field_bound bytes (ph + 32) 8 Hs).
    split; [done|]. lia. }
  split; [|split; [|split; [done | done]]].
  - split; [destruct (elf_segments bytes); [by apply Exists_nil in Hex | cbn; lia]|].
    unfold elf_segments. etransitivity; [apply loaded_length|]. unfold phdrs. rewrite length_fmap, length_seqZ.
    pose proof (ve_phnum _ Hv). lia.
  - apply Exists_exists in Hex as (s & Hin & He). rewrite Forall_forall in Hall. specialize (Hall s Hin). lia.
Qed.
