(* ===== verification/Sched.v ===== *)
(** * The scheduler (kernel/src/scheduler/mod.rs)

    A fixed table of 32 task slots, the index of the running task and a tick counter.
    [switch(old, new)] saves the machine context of the caller in [old]: the model stores in
    the task the point at which its kernel code continues ([resume]) when it is switched to
    again. [cpu] holds the registers a switch loads: CR3 and the kernel stack used on entry
    from ring 3. *)

From S2P Require Import Prelude.

(** ** Data *)

Definition MAX_TASKS : Z := 32.
Definition TARGET_FREQ : Z := 1000.
Definition KEY_WAIT : Z := U64_MAX - 1.
Definition IRQ_WAIT_MARK : Z := U64_MAX - 0x300.
Definition irq_wait_token (domain : Z) : Z := w64 (IRQ_WAIT_MARK - domain).

Inductive TaskState : Type := Ready | Running | Sleeping | Blocked | Terminated.

#[export] Instance TaskState_eq_dec : EqDecision TaskState.
Proof. solve_decision. Defined.

(** Where a task that was switched away continues. *)
Inductive resume : Type :=
| REntry                       (* a new task: its entry function or [user_trampoline] *)
| RTick                        (* back from [tick] to the interrupted code *)
| RYield                       (* in [yield_now], after [schedule_next] *)
| RSleep                       (* in [sleep] *)
| RReceive (a1 : Z)            (* top of the loop of [ipc::receive], called by SYS_RECV(a1) *)
| RCall (to : Z)               (* in the loop of [ipc::call], after blocking *)
| RKeyRead                     (* top of the loop of SYS_KEY_READ *)
| RIrqWait (domain mask : Z)   (* in SYS_IRQ_WAIT, after blocking *)
| RFault                       (* in the page-fault handler: retry the instruction *)
| RDead.                       (* after [exit_current]: never resumed *)

#[export] Instance resume_eq_dec : EqDecision resume.
Proof. solve_decision. Defined.

Record Task : Type := mk_task {
  t_id : Z;
  t_state : TaskState;
  t_ctx : resume;
  t_cr3 : Z;
  t_domain : Z;
  t_kernel_stack_top : Z;
  t_user_entry : Z;
  t_user_stack : Z;
  t_sleep_until : Z;
  t_wait_on : Z;
  t_wake_deadline : Z;
  t_reply_target : Z;
}.

#[export] Instance Task_eq_dec : EqDecision Task.
Proof. solve_decision. Defined.

Definition set_state (st : TaskState) (t : Task) : Task :=
  mk_task (t_id t) st (t_ctx t) (t_cr3 t) (t_domain t) (t_kernel_stack_top t) (t_user_entry t)
    (t_user_stack t) (t_sleep_until t) (t_wait_on t) (t_wake_deadline t) (t_reply_target t).
Definition set_ctx (c : resume) (t : Task) : Task :=
  mk_task (t_id t) (t_state t) c (t_cr3 t) (t_domain t) (t_kernel_stack_top t) (t_user_entry t)
    (t_user_stack t) (t_sleep_until t) (t_wait_on t) (t_wake_deadline t) (t_reply_target t).
Definition set_sleep_until (v : Z) (t : Task) : Task :=
  mk_task (t_id t) (t_state t) (t_ctx t) (t_cr3 t) (t_domain t) (t_kernel_stack_top t) (t_user_entry t)
    (t_user_stack t) v (t_wait_on t) (t_wake_deadline t) (t_reply_target t).
Definition set_wait (on deadline : Z) (t : Task) : Task :=
  mk_task (t_id t) (t_state t) (t_ctx t) (t_cr3 t) (t_domain t) (t_kernel_stack_top t) (t_user_entry t)
    (t_user_stack t) (t_sleep_until t) on deadline (t_reply_target t).
Definition set_reply_target (v : Z) (t : Task) : Task :=
  mk_task (t_id t) (t_state t) (t_ctx t) (t_cr3 t) (t_domain t) (t_kernel_stack_top t) (t_user_entry t)
    (t_user_stack t) (t_sleep_until t) (t_wait_on t) (t_wake_deadline t) v.
(** [task.state = Ready; task.wake_deadline = 0;] *)
Definition make_ready (t : Task) : Task :=
  mk_task (t_id t) Ready (t_ctx t) (t_cr3 t) (t_domain t) (t_kernel_stack_top t) (t_user_entry t)
    (t_user_stack t) (t_sleep_until t) (t_wait_on t) 0 (t_reply_target t).

(** The scheduler, with the registers it loads when it switches. *)
Record Scheduler : Type := mk_sched {
  tasks : list (option Task);
  current : Z;
  ticks : Z;
  cpu_cr3 : Z;
  cpu_kstack : Z;     (* RSP0 of the TSS and CURRENT_KERNEL_STACK_TOP *)
}.

Definition with_tasks (s : Scheduler) (ts : list (option Task)) : Scheduler :=
  mk_sched ts (current s) (ticks s) (cpu_cr3 s) (cpu_kstack s).

(** [Scheduler::new], at an initial page-table root. *)
Definition new (cr3 : Z) : Scheduler := mk_sched (replicate (Z.to_nat MAX_TASKS) None) 0 0 cr3 0.

Definition ms_to_ticks (ms : Z) : Z := Z.max (div_ceil (saturating_mul ms TARGET_FREQ) 1000) 1.

(** [sched.tasks[i].as_ref().unwrap()] (or [expect]). *)
Definition task_at (s : Scheduler) (i : Z) : res Task := o ← index (tasks s) i; expect o.

Definition update_task (f : Task -> Task) (i : Z) (s : Scheduler) : res Scheduler :=
  t ← task_at s i; ts ← index_set (tasks s) i (Some (f t)); mret (with_tasks s ts).

(** ** Creating tasks *)

(** [spawn_inner]: [kernel_stack_top] is the aligned top of the stack just allocated, [cr3] is
    [domain::pml4_of(domain)]. *)
Definition spawn_inner (cr3 kernel_stack_top domain user_entry user_stack : Z) (s : Scheduler)
  : option (Z * Scheduler) :=
  match position is_none (tasks s) with
  | None => None
  | Some slot =>
      Some (Z.of_nat slot,
            with_tasks s (<[slot := Some (mk_task (Z.of_nat slot) Ready REntry cr3 domain kernel_stack_top
                                            user_entry user_stack 0 0 0 U64_MAX)]> (tasks s)))
  end.

Definition spawn (cr3 kstack domain : Z) (s : Scheduler) : res (Z * Scheduler) :=
  expect (spawn_inner cr3 kstack domain 0 0 s).

Definition spawn_user (cr3 kstack entry user_stack domain : Z) (s : Scheduler) : option (Z * Scheduler) :=
  spawn_inner cr3 kstack domain entry user_stack s.

(** [try_spawn_user] reports whether a slot was free. *)
Definition try_spawn_user (cr3 kstack entry user_stack domain : Z) (s : Scheduler) : bool * Scheduler :=
  match spawn_user cr3 kstack entry user_stack domain s with
  | Some (_, s') => (true, s')
  | None => (false, s)
  end.

(** ** Switching *)

Definition is_ready (o : option Task) : bool :=
  match o with Some t => bool_decide (t_state t = Ready) | None => false end.

(** [next_ready]: the loop over [1..=MAX_TASKS]. *)
Definition next_ready (ts : list (option Task)) (after : Z) : option Z :=
  match find_from (fun i => match lookupZ ts ((after + i) mod MAX_TASKS) with
                            | Some o => is_ready o | None => false end) (Z.to_nat MAX_TASKS) 1 with
  | Some i => Some ((after + i) mod MAX_TASKS)
  | None => None
  end.

(** [schedule_next]: [k] is the continuation [switch] saves for the task left. *)
Definition schedule_next (k : resume) (current_state : TaskState) (s : Scheduler) : res Scheduler :=
  let cur := current s in
  o ← index (tasks s) cur;
  ts ← match o with
       | Some t => index_set (tasks s) cur (Some (set_state current_state t))
       | None => mret (tasks s)
       end;
  next ← expect (next_ready ts cur);
  let s1 := with_tasks s ts in
  t_cur ← task_at s1 cur;
  t_next ← task_at s1 next;
  let cr3 := if t_cr3 t_cur =? t_cr3 t_next then cpu_cr3 s else t_cr3 t_next in
  s2 ← update_task (set_ctx k) cur s1;
  s3 ← update_task (set_state Running) next s2;
  mret (mk_sched (tasks s3) next (ticks s) cr3 (t_kernel_stack_top t_next)).

(** [for task in sched.tasks.iter_mut().flatten() { .. }] *)
Definition for_tasks (f : Task -> Task) (ts : list (option Task)) : list (option Task) :=
  (fun o => match o with Some t => Some (f t) | None => None end) <$> ts.

(** The wake-up loop of [tick]. *)
Definition wake_expired (now : Z) (t : Task) : Task :=
  if bool_decide (t_state t = Sleeping) && (t_sleep_until t <=? now) then set_state Ready t
  else if bool_decide (t_state t = Blocked) && negb (t_wake_deadline t =? 0) && (t_wake_deadline t <=? now)
  then make_ready t
  else t.

Definition tick_wake (s : Scheduler) : Scheduler :=
  let now := w64 (ticks s + 1) in
  mk_sched (for_tasks (wake_expired now) (tasks s)) (current s) now (cpu_cr3 s) (cpu_kstack s).

(** [tick] after [domain::reclaim_pending]. *)
Definition tick (s : Scheduler) : res Scheduler := schedule_next RTick Ready (tick_wake s).

Definition yield_now (s : Scheduler) : res Scheduler := schedule_next RYield Ready s.

Definition sleep (ms : Z) (s : Scheduler) : res Scheduler :=
  let wake := w64 (ticks s + ms_to_ticks ms) in
  s' ← update_task (set_sleep_until wake) (current s) s;
  schedule_next RSleep Sleeping s'.

Definition current_domain (s : Scheduler) : res Z := t ← task_at s (current s); mret (t_domain t).
Definition set_current_reply_target (target : Z) (s : Scheduler) : res Scheduler :=
  update_task (set_reply_target target) (current s) s.
Definition current_reply_target (s : Scheduler) : res Z := t ← task_at s (current s); mret (t_reply_target t).

Definition block_current (k : resume) (on : Z) (s : Scheduler) : res Scheduler :=
  s' ← update_task (set_wait on 0) (current s) s; schedule_next k Blocked s'.

Definition block_current_timeout_ms (k : resume) (on ms : Z) (s : Scheduler) : res Scheduler :=
  let deadline := w64 (ticks s + ms_to_ticks ms) in
  s' ← update_task (set_wait on deadline) (current s) s; schedule_next k Blocked s'.

(** ** Waking and removing *)

Definition waits_on (key : Z) (t : Task) : bool := bool_decide (t_state t = Blocked) && (t_wait_on t =? key).

Definition wake_one (key : Z) (s : Scheduler) : Scheduler :=
  match position (fun o => match o with Some t => waits_on key t | None => false end) (tasks s) with
  | Some i => with_tasks s (alter (option_map make_ready) i (tasks s))
  | None => s
  end.

Definition in_domain (d : Z) (o : option Task) : bool :=
  match o with Some t => t_domain t =? d | None => false end.

Definition remove_domain (d : Z) (s : Scheduler) : Scheduler :=
  let ts := (fun o => if in_domain d o then None else o) <$> tasks s in
  with_tasks s (for_tasks (fun t => if waits_on d t then make_ready t else t) ts).

Definition live_in (d : Z) (o : option Task) : bool :=
  match o with Some t => (t_domain t =? d) && negb (bool_decide (t_state t = Terminated)) | None => false end.

Definition live_tasks (d : Z) (s : Scheduler) : Z := Z.of_nat (length (filter (fun o => live_in d o = true) (tasks s))).

Definition dead_in (d : Z) (o : option Task) : bool :=
  match o with Some t => (t_domain t =? d) && bool_decide (t_state t = Terminated) | None => false end.

Definition reap_terminated (d : Z) (s : Scheduler) : Z * Scheduler :=
  (Z.of_nat (length (filter (fun o => dead_in d o = true) (tasks s))),
   with_tasks s ((fun o => if dead_in d o then None else o) <$> tasks s)).

(** [run]: the first switch, from the boot context. *)
Definition run (s : Scheduler) : res Scheduler :=
  first ← expect (next_ready (tasks s) (MAX_TASKS - 1));
  t ← task_at s first;
  s' ← update_task (set_state Running) first s;
  mret (mk_sched (tasks s') first (ticks s) (t_cr3 t) (t_kernel_stack_top t)).

(** [exit_current]: the domain, and whether the current task is its last live one (the caller
    then registers the domain for destruction), and the switch. *)
Definition exit_check (s : Scheduler) : res (Z * bool) :=
  t ← task_at s (current s); mret (t_domain t, live_tasks (t_domain t) s <=? 1).
Definition exit_switch (s : Scheduler) : res Scheduler := schedule_next RDead Terminated s.

(** ** Reading the task table *)

Definition get (ts : list (option Task)) (i : Z) : option Task :=
  match lookupZ ts i with Some (Some t) => Some t | _ => None end.

Lemma get_in_table ts i t : get ts i = Some t -> 0 <= i < Z.of_nat (length ts).
Proof.
  unfold get. destruct (lookupZ ts i) as [o|] eqn:E; [|discriminate]. intros _.
  apply lookupZ_Some in E as [H1 H2]. apply lookup_lt_Some in H2. lia.
Qed.

Lemma get_insert ts i j t :
  0 <= i < Z.of_nat (length ts) -> get (insertZ ts i (Some t)) j = if decide (j = i) then Some t else get ts j.
Proof.
  intros Hi. unfold get. case_decide as H.
  - subst j. rewrite lookupZ_insertZ_eq; [done|]. destruct (lookupZ ts i) eqn:E; [eauto|].
    apply lookupZ_None in E. lia.
  - by rewrite lookupZ_insertZ_ne by congruence.
Qed.

Lemma get_for_tasks f ts i :
  get (for_tasks f ts) i = match get ts i with Some t => Some (f t) | None => None end.
Proof.
  unfold get, for_tasks, lookupZ. rewrite length_fmap. destruct (_ && _); [|done].
  rewrite list_lookup_fmap. by destruct (ts !! Z.to_nat i) as [[t|]|].
Qed.

Lemma get_keep (p : option Task -> bool) ts i :
  get ((fun o => if p o then None else o) <$> ts) i =
  match get ts i with Some t => if p (Some t) then None else Some t | None => None end.
Proof.
  unfold get, lookupZ. rewrite length_fmap. destruct (_ && _); [|done].
  rewrite list_lookup_fmap. destruct (ts !! Z.to_nat i) as [[t|]|]; simpl; [by destruct (p (Some t)) | | done].
  by destruct (p None).
Qed.

Lemma task_at_ok s i t : task_at s i = Ok t <-> get (tasks s) i = Some t.
Proof. unfold task_at, get, index. destruct (lookupZ (tasks s) i) as [[u|]|]; simpl; split; congruence. Qed.

Lemma task_at_get s i : task_at s i = match get (tasks s) i with Some t => Ok t | None => Panic end.
Proof. unfold task_at, get, index. by destruct (lookupZ (tasks s) i) as [[u|]|]. Qed.

Lemma update_task_get f i s :
  update_task f i s = match get (tasks s) i with
                      | Some t => Ok (with_tasks s (insertZ (tasks s) i (Some (f t))))
                      | None => Panic end.
Proof.
  unfold update_task. rewrite task_at_get. destruct (get (tasks s) i) as [t|] eqn:E; [|done].
  apply get_in_table in E. cbn [mbind res_bind]. unfold index_set.
  by rewrite (proj2 (Z.leb_le _ _)), (proj2 (Z.ltb_lt _ _)) by lia.
Qed.

(** ** The search for the next task *)

(** Distance from slot [a] forward to slot [i], between 1 and 32. *)
Definition dist (a i : Z) : Z := (i - a - 1) mod MAX_TASKS + 1.

Definition ready_at (ts : list (option Task)) (i : Z) : Prop :=
  exists t, get ts i = Some t /\ t_state t = Ready.

Lemma ready_at_test ts i :
  (match lookupZ ts i with Some o => is_ready o | None => false end) = true <-> ready_at ts i.
Proof.
  unfold ready_at, get. destruct (lookupZ ts i) as [[t|]|]; simpl; rewrite ?bool_decide_eq_true; naive_solver.
Qed.

Lemma dist_range a i : 1 <= dist a i <= MAX_TASKS.
Proof. unfold dist, MAX_TASKS. pose proof (Z.mod_pos_bound (i - a - 1) 32 ltac:(lia)). lia. Qed.

Lemma dist_inv a i : 0 <= i < MAX_TASKS -> (a + dist a i) mod MAX_TASKS = i.
Proof. unfold dist, MAX_TASKS. intros. Z.to_euclidean_division_equations. lia. Qed.

Lemma dist_of a d : 1 <= d <= MAX_TASKS -> dist a ((a + d) mod MAX_TASKS) = d.
Proof. unfold dist, MAX_TASKS. intros. Z.to_euclidean_division_equations. lia. Qed.

(** [next_ready] returns the Ready slot at the smallest forward distance. *)
Lemma next_ready_Some ts a n :
  next_ready ts a = Some n <->
  0 <= n < MAX_TASKS /\ ready_at ts n /\
  (forall j, 0 <= j < MAX_TASKS -> ready_at ts j -> dist a n <= dist a j).
Proof.
  assert (Hm : MAX_TASKS = 32) by reflexivity. unfold next_ready. destruct (find_from _ _ _) as [d|] eqn:E.
  - apply find_from_Some in E as (H1 & H2 & H3). rewrite ready_at_test in H2.
    change (1 + Z.of_nat (Z.to_nat MAX_TASKS)) with 33 in H1. split.
    + intros [= <-]. split; [apply Z.mod_pos_bound; lia|]. split; [done|].
      intros j Hj Hr. rewrite (dist_of a d) by lia.
      destruct (Z_le_gt_dec d (dist a j)) as [|Hgt]; [done|]. exfalso.
      pose proof (dist_range a j). specialize (H3 (dist a j) ltac:(lia)).
      rewrite (dist_inv a j) in H3 by lia. apply ready_at_test in Hr. congruence.
    + intros (Hn & Hr & Hmin). f_equal.
      pose proof (Hmin ((a + d) mod MAX_TASKS) ltac:(apply Z.mod_pos_bound; lia) H2) as Hle.
      rewrite (dist_of a d) in Hle by lia. pose proof (dist_range a n).
      destruct (Z.eq_dec (dist a n) d) as [<-|]; [apply dist_inv; lia|].
      specialize (H3 (dist a n) ltac:(lia)). rewrite (dist_inv a n) in H3 by lia.
      apply ready_at_test in Hr. congruence.
  - rewrite find_from_None in E. split; [done|]. intros (Hn & Hr & _).
    pose proof (dist_range a n). specialize (E (dist a n)).
    change (1 + Z.of_nat (Z.to_nat MAX_TASKS)) with 33 in E.
    specialize (E ltac:(lia)). rewrite (dist_inv a n) in E by lia.
    apply ready_at_test in Hr. congruence.
Qed.

Lemma next_ready_None ts a :
  next_ready ts a = None <-> forall j, 0 <= j < MAX_TASKS -> ~ ready_at ts j.
Proof.
  assert (Hm : MAX_TASKS = 32) by reflexivity. unfold next_ready. destruct (find_from _ _ _) as [d|] eqn:E.
  - split; [done|]. intros H. exfalso. apply find_from_Some in E as (_ & H2 & _). rewrite ready_at_test in H2.
    apply (H ((a + d) mod MAX_TASKS)); [apply Z.mod_pos_bound; lia | done].
  - split; [|done]. intros _ j Hj Hr. rewrite find_from_None in E. pose proof (dist_range a j).
    specialize (E (dist a j)). change (1 + Z.of_nat (Z.to_nat MAX_TASKS)) with 33 in E.
    specialize (E ltac:(lia)). rewrite (dist_inv a j) in E by lia.
    apply ready_at_test in Hr. congruence.
Qed.

(** ** The invariant: exactly the current task runs, on its own page table and stack *)

Record sched_wf (s : Scheduler) : Prop := {
  sw_len : Z.of_nat (length (tasks s)) = MAX_TASKS;
  sw_current : exists t, get (tasks s) (current s) = Some t /\ t_state t = Running /\
                 cpu_cr3 s = t_cr3 t /\ cpu_kstack s = t_kernel_stack_top t;
  sw_unique : forall i t, get (tasks s) i = Some t -> t_state t = Running -> i = current s;
}.

Lemma sched_wf_cur_range s : sched_wf s -> 0 <= current s < MAX_TASKS.
Proof. intros H. destruct (sw_current _ H) as (t & Ht & _). apply get_in_table in Ht. pose proof (sw_len _ H). lia. Qed.

(** The table after the running task gave up the processor in state [st]. *)
Definition yielded (st : TaskState) (k : resume) (s : Scheduler) (j : Z) : option Task :=
  match get (tasks s) j with
  | Some t => Some (if decide (j = current s) then set_ctx k (set_state st t) else t)
  | None => None
  end.

Lemma schedule_next_spec k st s t :
  sched_wf s -> get (tasks s) (current s) = Some t ->
  match schedule_next k st s with
  | Ok s' =>
      exists n tn, current s' = n /\ 0 <= n < MAX_TASKS /\
        yielded st k s n = Some tn /\ t_state tn = Ready /\
        (forall j u, yielded st k s j = Some u -> t_state u = Ready -> dist (current s) n <= dist (current s) j) /\
        (forall j, get (tasks s') j = if decide (j = n) then Some (set_state Running tn) else yielded st k s j) /\
        ticks s' = ticks s /\ length (tasks s') = length (tasks s) /\
        cpu_cr3 s' = t_cr3 tn /\ cpu_kstack s' = t_kernel_stack_top tn
  | Panic => forall j u, yielded st k s j = Some u -> t_state u <> Ready
  end.
Proof.
  intros Hwf Ht. pose proof (sched_wf_cur_range _ Hwf) as Hc. pose proof (sw_len _ Hwf) as Hl.
  destruct (sw_current _ Hwf) as (t' & Ht' & _ & Hcr3 & _). rewrite Ht in Ht'. injection Ht' as <-.
  unfold schedule_next.
  assert (Hidx : index (tasks s) (current s) = Ok (Some t)).
  { apply index_ok. unfold get in Ht. by destruct (lookupZ (tasks s) (current s)) as [[u|]|]; simplify_eq. }
  rewrite Hidx. cbn [mbind res_bind].
  unfold index_set. rewrite (proj2 (Z.leb_le _ _)), (proj2 (Z.ltb_lt _ _)) by lia. cbn [andb mbind res_bind].
  set (ts := insertZ (tasks s) (current s) (Some (set_state st t))).
  assert (Hts : forall j, get ts j = if decide (j = current s) then Some (set_state st t) else get (tasks s) j)
    by (intros j; apply get_insert; lia).
  assert (Hready : forall j, ready_at ts j <-> exists u, yielded st k s j = Some u /\ t_state u = Ready).
  { intros j. unfold ready_at, yielded. rewrite Hts. case_decide; [subst; rewrite Ht|].
    - split; intros (u & [= <-] & Hu); eexists; (split; [reflexivity | exact Hu]).
    - destruct (get (tasks s) j); naive_solver. }
  assert (Hyr : forall j u, yielded st k s j = Some u -> 0 <= j < MAX_TASKS).
  { intros j u. unfold yielded. destruct (get (tasks s) j) eqn:E; [|done]. intros _. apply get_in_table in E. lia. }
  destruct (next_ready ts (current s)) as [n|] eqn:En; cbn [expect mbind res_bind].
  2:{ rewrite next_ready_None in En. intros j u Hj Hu. apply (En j); [eauto | apply Hready; eauto]. }
  apply next_ready_Some in En as (Hn & Hnr & Hmin).
  assert (Hlts : Z.of_nat (length ts) = MAX_TASKS) by (unfold ts; rewrite length_insertZ; done).
  rewrite !task_at_get. cbn [tasks with_tasks]. rewrite (Hts (current s)), decide_True by done. cbn [mbind res_bind].
  destruct (proj1 (Hready n) Hnr) as (tn & Htn & Hst).
  assert (Hgn : exists u, get ts n = Some u /\ t_cr3 u = t_cr3 tn /\ t_kernel_stack_top u = t_kernel_stack_top tn).
  { unfold yielded in Htn. rewrite Hts. case_decide; [subst n; rewrite Ht in Htn | destruct (get (tasks s) n)];
      simplify_eq; eauto. }
  destruct Hgn as (u & Hu & Hu1 & Hu2). rewrite Hu. cbn [mbind res_bind].
  rewrite update_task_get. cbn [tasks with_tasks]. rewrite (Hts (current s)), decide_True by done. cbn [mbind res_bind].
  set (ts2 := insertZ ts (current s) (Some (set_ctx k (set_state st t)))).
  assert (Hts2 : forall j, get ts2 j = yielded st k s j).
  { intros j. unfold ts2. rewrite get_insert by lia. unfold yielded. rewrite Hts. case_decide; [by subst; rewrite Ht|].
    by destruct (get (tasks s) j). }
  rewrite update_task_get. cbn [tasks with_tasks]. rewrite Hts2, Htn. cbn [mbind res_bind].
  exists n, tn. cbn [current tasks ticks cpu_cr3 cpu_kstack with_tasks]. split; [done|]. split; [done|].
  split; [done|]. split; [done|]. split; [intros j v Hj Hv; apply Hmin; [eauto | apply Hready; eauto]|].
  assert (Hl2 : Z.of_nat (length ts2) = MAX_TASKS) by (unfold ts2; by rewrite length_insertZ).
  split; [intros j; rewrite get_insert by lia; case_decide; [done | apply Hts2]|].
  split; [done|]. split; [rewrite length_insertZ; lia|]. split; [|done].
  cbn [set_state t_cr3]. destruct (Z.eqb_spec (t_cr3 t) (t_cr3 u)); congruence.
Qed.

Lemma yielded_range st k s j u : sched_wf s -> yielded st k s j = Some u -> 0 <= j < MAX_TASKS.
Proof.
  intros H. unfold yielded. destruct (get (tasks s) j) eqn:E; [|done]. apply get_in_table in E.
  pose proof (sw_len _ H). lia.
Qed.

Lemma sched_wf_schedule_next k st s s' :
  st <> Running -> sched_wf s -> schedule_next k st s = Ok s' -> sched_wf s'.
Proof.
  intros Hst Hwf E. destruct (sw_current _ Hwf) as (t & Ht & _).
  pose proof (schedule_next_spec k st s t Hwf Ht) as H. rewrite E in H.
  destruct H as (n & tn & <- & Hn & Htn & _ & _ & Hg & _ & Hlen & Hcr3 & Hk).
  constructor.
  - rewrite Hlen. apply Hwf.
  - exists (set_state Running tn). rewrite Hg, decide_True by done. done.
  - intros i u Hi Hu. rewrite Hg in Hi. destruct (decide (i = current s')) as [|Hne]; [done|].
    unfold yielded in Hi. destruct (get (tasks s) i) as [v|] eqn:Ev; [|done]. injection Hi as <-.
    case_decide as Hic; [cbn in Hu; done|]. exfalso. apply Hic. eapply sw_unique; eauto.
Qed.

(** Operations that change tasks one by one, leaving identity, domain and address space alone
    and neither starting nor stopping a running task. *)
Lemma sched_wf_pointwise s ts n :
  sched_wf s -> length ts = length (tasks s) ->
  (forall i t, get (tasks s) i = Some t -> t_state t = Running ->
     exists t', get ts i = Some t' /\ t_state t' = Running /\ t_cr3 t' = t_cr3 t /\
                t_kernel_stack_top t' = t_kernel_stack_top t) ->
  (forall i t', get ts i = Some t' -> t_state t' = Running ->
     exists t, get (tasks s) i = Some t /\ t_state t = Running) ->
  sched_wf (mk_sched ts (current s) n (cpu_cr3 s) (cpu_kstack s)).
Proof.
  intros Hwf Hlen Hrun Hno. destruct (sw_current _ Hwf) as (t & Ht & Hr & Hc & Hk).
  destruct (Hrun _ _ Ht Hr) as (t' & Ht' & Hr' & Hc' & Hk'). constructor; cbn [tasks current cpu_cr3 cpu_kstack].
  - rewrite Hlen. apply Hwf.
  - exists t'. split; [done|]. split; [done|]. split; congruence.
  - intros i u Hi Hu. destruct (Hno i u Hi Hu) as (v & Hv & Hv'). eapply sw_unique; eauto.
Qed.

(** [for_tasks] with a function that touches only non-running tasks and never makes one run. *)
Lemma sched_wf_for_tasks f s n :
  sched_wf s ->
  (forall t, t_state t = Running -> f t = t) -> (forall t, t_state (f t) = Running -> t_state t = Running) ->
  sched_wf (mk_sched (for_tasks f (tasks s)) (current s) n (cpu_cr3 s) (cpu_kstack s)).
Proof.
  intros Hwf H1 H2. apply sched_wf_pointwise; [done | by unfold for_tasks; rewrite length_fmap | |].
  - intros i t Ht Hr. exists t. rewrite get_for_tasks, Ht, H1 by done. done.
  - intros i t' Ht' Hr. rewrite get_for_tasks in Ht'. destruct (get (tasks s) i) as [t|]; [|done].
    injection Ht' as <-. eauto.
Qed.

Lemma sched_wf_update_current f s s' :
  sched_wf s -> (forall t, t_state (f t) = t_state t /\ t_cr3 (f t) = t_cr3 t /\ t_kernel_stack_top (f t) = t_kernel_stack_top t) ->
  update_task f (current s) s = Ok s' -> sched_wf s' /\ current s' = current s /\ ticks s' = ticks s.
Proof.
  intros Hwf Hf. rewrite update_task_get. destruct (get (tasks s) (current s)) as [t|] eqn:Ht; [|done].
  intros [= <-]. split; [|done]. pose proof (sched_wf_cur_range _ Hwf). pose proof (sw_len _ Hwf).
  apply sched_wf_pointwise; [done | apply length_insertZ | |].
  - intros i u Hu Hr. rewrite get_insert by lia. case_decide as Hd; [subst; rewrite Ht in Hu; injection Hu as <-|].
    + destruct (Hf t) as (? & ? & ?). eexists. split; [done|]. split; [congruence | done].
    + eauto.
  - intros i u Hu Hr. rewrite get_insert in Hu by lia. case_decide; [simplify_eq|eauto].
    destruct (Hf t) as (E & _). exists t. split; congruence.
Qed.

Lemma update_current_total f s : sched_wf s -> exists s', update_task f (current s) s = Ok s'.
Proof.
  intros Hwf. destruct (sw_current _ Hwf) as (t & Ht & _). rewrite update_task_get, Ht. eauto.
Qed.

Lemma sched_wf_tick_wake s : sched_wf s -> sched_wf (tick_wake s).
Proof.
  intros Hwf. apply sched_wf_for_tasks; [done| |]; intros t H; unfold wake_expired in *.
  - by rewrite H.
  - repeat case_match; try done.
Qed.

Lemma sched_wf_wake_one key s : sched_wf s -> sched_wf (wake_one key s).
Proof.
  intros Hwf. unfold wake_one. destruct (position _ _) as [i|] eqn:E; [|done].
  apply position_Some in E as [([t|] & Hi & Hw) _]; [|done].
  unfold waits_on in Hw. apply andb_prop in Hw as [Hw _]. apply bool_decide_eq_true in Hw.
  assert (Hg : forall j, get (alter (option_map make_ready) i (tasks s)) j =
                         if decide (j = Z.of_nat i) then Some (make_ready t) else get (tasks s) j).
  { intros j. unfold get, lookupZ. rewrite length_alter. destruct (_ && _) eqn:Ej.
    - bool_to_prop. rewrite list_lookup_alter. repeat case_decide; try lia; subst; [|done]. by rewrite Hi.
    - rewrite decide_False; [done|]. intros ->. apply lookup_lt_Some in Hi.
      apply andb_false_iff in Ej as [Ej|Ej]; bool_to_prop; lia. }
  assert (Ht : get (tasks s) (Z.of_nat i) = Some t) by (unfold get; by rewrite lookupZ_nat, Hi).
  apply sched_wf_pointwise; [done | apply length_alter | |].
  - intros j u Hu Hr. rewrite Hg. case_decide; [subst; congruence | eauto].
  - intros j u Hu Hr. rewrite Hg in Hu. case_decide; [simplify_eq; done | eauto].
Qed.

Lemma sched_wf_spawn_inner cr3 ks d ue us s i s' :
  sched_wf s -> spawn_inner cr3 ks d ue us s = Some (i, s') -> sched_wf s'.
Proof.
  intros Hwf. unfold spawn_inner. destruct (position _ _) as [k|] eqn:E; [|done]. intros [= <- <-].
  apply position_Some in E as [([t|] & Hk & Hn) _]; [done|].
  pose proof (lookup_lt_Some _ _ _ Hk) as Hlt.
  set (nt := mk_task _ _ _ _ _ _ _ _ _ _ _ _).
  assert (Hins : <[k := Some nt]> (tasks s) = insertZ (tasks s) (Z.of_nat k) (Some nt)).
  { unfold insertZ. rewrite (proj2 (Z.leb_le _ _)), (proj2 (Z.ltb_lt _ _)) by lia. cbn. by rewrite Nat2Z.id. }
  assert (Hgk : get (tasks s) (Z.of_nat k) = None) by (unfold get; by rewrite lookupZ_nat, Hk).
  apply sched_wf_pointwise; [done | by rewrite length_insert | |]; intros j u Hu Hr; rewrite Hins in *.
  - rewrite get_insert by lia. case_decide; [subst; congruence | eauto].
  - rewrite get_insert in Hu by lia. case_decide; [simplify_eq | eauto].
Qed.

(** Removing tasks is sound as long as the running task is not among them. *)
Lemma sched_wf_keep (p : option Task -> bool) s :
  sched_wf s -> (forall t, get (tasks s) (current s) = Some t -> p (Some t) = false) ->
  sched_wf (with_tasks s ((fun o => if p o then None else o) <$> tasks s)).
Proof.
  intros Hwf Hp. apply sched_wf_pointwise; [done | by rewrite length_fmap | |]; intros i t Ht Hr.
  - exists t. rewrite get_keep, Ht. rewrite (sw_unique _ Hwf _ _ Ht Hr) in Ht. rewrite Hp by done. done.
  - rewrite get_keep in Ht. destruct (get (tasks s) i) as [u|]; [|done]. destruct (p (Some u)); [done|].
    injection Ht as <-. eauto.
Qed.

Lemma sched_wf_remove_domain d s :
  sched_wf s -> (forall t, get (tasks s) (current s) = Some t -> t_domain t <> d) -> sched_wf (remove_domain d s).
Proof.
  intros Hwf Hd. unfold remove_domain.
  apply (sched_wf_for_tasks _ (with_tasks s _)).
  - apply sched_wf_keep; [done|]. intros t Ht. cbn. apply Z.eqb_neq. auto.
  - intros t Ht. unfold waits_on. by rewrite Ht.
  - intros t. unfold waits_on. repeat case_match; done.
Qed.

Lemma sched_wf_reap d s : sched_wf s -> sched_wf (snd (reap_terminated d s)).
Proof.
  intros Hwf. apply sched_wf_keep; [done|]. intros t Ht. cbn.
  destruct (sw_current _ Hwf) as (u & Hu & Hr & _). assert (t = u) as -> by congruence.
  rewrite Hr. apply andb_false_r.
Qed.

(** ** Every operation of the scheduler *)

Inductive sched_op : Type :=
| OTick | OYield | OSleep (ms : Z) | OBlock (k : resume) (on : Z) | OBlockFor (k : resume) (on ms : Z)
| OExit | OWake (key : Z) | OSpawn (cr3 kstack entry stack domain : Z) | ORemove (d : Z) | OReap (d : Z)
| OReplyTo (v : Z).

#[export] Instance sched_op_eq_dec : EqDecision sched_op.
Proof. solve_decision. Defined.

Definition exec_op (op : sched_op) (s : Scheduler) : res Scheduler :=
  match op with
  | OTick => tick s
  | OYield => yield_now s
  | OSleep ms => sleep ms s
  | OBlock k on => block_current k on s
  | OBlockFor k on ms => block_current_timeout_ms k on ms s
  | OExit => exit_switch s
  | OWake key => Ok (wake_one key s)
  | OSpawn cr3 ks e st d => Ok (snd (try_spawn_user cr3 ks e st d s))
  | ORemove d => Ok (remove_domain d s)
  | OReap d => Ok (snd (reap_terminated d s))
  | OReplyTo v => set_current_reply_target v s
  end.

(** The state in which the running task gives up the processor, for the operations that switch. *)
Definition leaves_in (op : sched_op) : option TaskState :=
  match op with
  | OTick | OYield => Some Ready
  | OSleep _ => Some Sleeping
  | OBlock _ _ | OBlockFor _ _ _ => Some Blocked
  | OExit => Some Terminated
  | _ => None
  end.

(** The running task's own domain is never removed under it. *)
Definition allowed (op : sched_op) (s : Scheduler) : Prop :=
  match op with ORemove d => forall t, get (tasks s) (current s) = Some t -> t_domain t <> d | _ => True end.

(** A switching operation is a preparation that does not switch, followed by [schedule_next]. *)
Definition prepare (op : sched_op) (s : Scheduler) : res Scheduler :=
  match op with
  | OTick => Ok (tick_wake s)
  | OSleep ms => update_task (set_sleep_until (w64 (ticks s + ms_to_ticks ms))) (current s) s
  | OBlock _ on => update_task (set_wait on 0) (current s) s
  | OBlockFor _ on ms => update_task (set_wait on (w64 (ticks s + ms_to_ticks ms))) (current s) s
  | OYield | OExit => Ok s
  | _ => exec_op op s
  end.

Definition continuation (op : sched_op) : resume :=
  match op with
  | OTick => RTick | OYield => RYield | OSleep _ => RSleep
  | OBlock k _ | OBlockFor k _ _ => k | _ => RDead
  end.

Lemma exec_op_split op s :
  exec_op op s =
  (s1 ← prepare op s; match leaves_in op with Some st => schedule_next (continuation op) st s1 | None => Ok s1 end).
Proof.
  destruct op; try done; cbn [exec_op prepare leaves_in continuation];
    unfold set_current_reply_target, sleep, block_current, block_current_timeout_ms;
    by destruct (update_task _ _ _).
Qed.

Lemma prepare_wf op s :
  sched_wf s -> allowed op s ->
  exists s1, prepare op s = Ok s1 /\ sched_wf s1 /\ current s1 = current s.
Proof.
  intros Hwf Ha.
  assert (Hupd : forall f, (forall t, t_state (f t) = t_state t /\ t_cr3 (f t) = t_cr3 t /\
                              t_kernel_stack_top (f t) = t_kernel_stack_top t) ->
    exists s1, update_task f (current s) s = Ok s1 /\ sched_wf s1 /\ current s1 = current s).
  { intros f Hf. destruct (update_current_total f s Hwf) as [s1 H1]. exists s1. split; [done|].
    edestruct (sched_wf_update_current f s s1) as (? & ? & _); eauto. }
  destruct op; cbn [prepare exec_op]; unfold set_current_reply_target; eauto; try (by apply Hupd; done).
  - exists (tick_wake s). eauto using sched_wf_tick_wake.
  - eexists. split; [done|]. split; [by apply sched_wf_wake_one|]. unfold wake_one. by destruct (position _ _).
  - eexists. split; [done|]. unfold try_spawn_user, spawn_user. destruct (spawn_inner _ _ _ _ _ _) as [[i s1]|] eqn:E; [|done].
    split; [by eapply sched_wf_spawn_inner|]. unfold spawn_inner in E. destruct (position _ _); by simplify_eq.
  - eexists. split; [done|]. split; [by apply sched_wf_remove_domain | done].
  - eexists. split; [done|]. split; [by apply sched_wf_reap | done].
Qed.

Lemma exec_op_wf op s :
  sched_wf s -> allowed op s ->
  match exec_op op s with
  | Ok s' => sched_wf s'
  | Panic => (exists st, leaves_in op = Some st /\ st <> Ready) /\
             forall s1 i t, prepare op s = Ok s1 -> get (tasks s1) i = Some t -> t_state t <> Ready
  end.
Proof.
  intros Hwf Ha. rewrite exec_op_split. destruct (prepare_wf op s Hwf Ha) as (s1 & -> & Hwf1 & Hc). cbn [mbind res_bind].
  destruct (leaves_in op) as [st|] eqn:El; [|done].
  destruct (sw_current _ Hwf1) as (t & Ht & Hr & _).
  pose proof (schedule_next_spec (continuation op) st s1 t Hwf1 Ht) as H.
  destruct (schedule_next (continuation op) st s1) as [s'|] eqn:E.
  - eapply sched_wf_schedule_next; [|exact Hwf1|exact E]. destruct op; cbn in El; congruence.
  - split.
    + exists st. split; [done|]. intros ->. apply (H (current s1) (set_ctx (continuation op) (set_state Ready t)));
        [|done]. unfold yielded. by rewrite Ht, decide_True.
    + intros s2 i u [= <-] Hu Hur. assert (i <> current s1) by (intros ->; congruence).
      apply (H i u); [|done]. unfold yielded. by rewrite Hu, decide_False.
Qed.

(** C31. At every moment exactly one task runs, on its own address space and kernel stack. Every
    scheduler operation (tick, yield, sleep, the two kinds of blocking, exit, wake-up, task
    creation and removal), started in a state where the current task is the only one in state
    [Running] and CR3 and the kernel stack pointer are its own, ends in such a state, provided a
    domain is not removed under its own running task. The only failure is the panic of the
    scheduler when the current task stops being runnable and no other task is ready; the timer
    tick and [yield_now] never panic. *)
Theorem one_running_task op s :
  sched_wf s -> allowed op s ->
  match exec_op op s with
  | Ok s' => sched_wf s'
  | Panic => (exists st, leaves_in op = Some st /\ st <> Ready) /\
             forall s1 i t, prepare op s = Ok s1 -> get (tasks s1) i = Some t -> t_state t <> Ready
  end.
Proof. exact (exec_op_wf op s). Qed.

(** ** Starvation freedom *)

(** Task slot [i] holds a ready task of domain [d]. *)
Definition ready_in (s : Scheduler) (i d : Z) : Prop :=
  exists t, get (tasks s) i = Some t /\ t_state t = Ready /\ t_domain t = d.

Lemma ready_prepare op s s1 i d :
  sched_wf s -> prepare op s = Ok s1 -> ready_in s i d -> op <> ORemove d -> ready_in s1 i d.
Proof.
  intros Hwf E (t & Ht & Hr & Hd) Hop.
  assert (Hne : i <> current s).
  { intros ->. destruct (sw_current _ Hwf) as (u & Hu & Hur & _). congruence. }
  assert (Hupd : forall f, update_task f (current s) s = Ok s1 -> ready_in s1 i d).
  { intros f Hf. rewrite update_task_get in Hf. destruct (get (tasks s) (current s)) as [u|] eqn:Eu; [|done].
    injection Hf as <-. exists t. cbn [tasks with_tasks]. apply get_in_table in Eu.
    rewrite get_insert, decide_False by done. done. }
  destruct op; cbn [prepare exec_op] in E; eauto; try (injection E as <-).
  - exists t. cbn [tick_wake tasks]. rewrite get_for_tasks, Ht. unfold wake_expired. by rewrite Hr.
  - exists t. done.
  - exists t. done.
  - exists t. split; [|done]. unfold wake_one. destruct (position _ _) as [k|] eqn:Ep; [|done].
    apply position_Some in Ep as [([u|] & Hk & Hw) _]; [|done]. unfold get, lookupZ in *.
    cbn [tasks with_tasks]. rewrite length_alter. destruct (_ && _); [|done].
    rewrite list_lookup_alter_ne; [done|]. intros ->. rewrite Hk in Ht. injection Ht as ->.
    unfold waits_on in Hw. rewrite Hr in Hw. done.
  - exists t. split; [|done]. unfold try_spawn_user, spawn_user, spawn_inner.
    destruct (position _ _) as [k|] eqn:Ep; [|done].
    apply position_Some in Ep as [([u|] & Hk & Hw) _]; [done|]. unfold get, lookupZ in *.
    cbn [snd tasks with_tasks]. rewrite length_insert. destruct (_ && _); [|done].
    rewrite list_lookup_insert_ne; [done|]. intros ->. by rewrite Hk in Ht.
  - exists t. split; [|done]. unfold remove_domain. cbn [tasks with_tasks]. rewrite get_for_tasks, get_keep, Ht.
    cbn. rewrite (proj2 (Z.eqb_neq _ _)) by congruence. unfold waits_on. by rewrite Hr.
  - exists t. split; [|done]. cbn [reap_terminated snd tasks with_tasks]. rewrite get_keep, Ht. cbn.
    rewrite Hr. by rewrite andb_false_r.
Qed.

Lemma dist_step c n i :
  0 <= c < MAX_TASKS -> 0 <= n < MAX_TASKS -> 0 <= i < MAX_TASKS -> n <> i ->
  dist c n <= dist c i -> dist n i < dist c i.
Proof. unfold dist, MAX_TASKS. intros. Z.to_euclidean_division_equations. lia. Qed.

Lemma ready_switch k st s s' i d :
  sched_wf s -> schedule_next k st s = Ok s' -> ready_in s i d ->
  current s' = i \/ (ready_in s' i d /\ dist (current s') i < dist (current s) i).
Proof.
  intros Hwf E (t & Ht & Hr & Hd). destruct (sw_current _ Hwf) as (u & Hu & Hur & _).
  pose proof (schedule_next_spec k st s u Hwf Hu) as H. rewrite E in H.
  destruct H as (n & tn & Hc & Hn & Htn & _ & Hmin & Hg & _).
  destruct (decide (n = i)) as [->|Hne]; [by left|]. right. rewrite Hc.
  assert (Hyi : yielded st k s i = Some t).
  { unfold yielded. rewrite Ht, decide_False; [done|]. intros ->. congruence. }
  split.
  - exists t. by rewrite Hg, decide_False by done.
  - apply dist_step; [by apply sched_wf_cur_range | done | | done | by apply (Hmin i t)].
    apply get_in_table in Ht. pose proof (sw_len _ Hwf). lia.
Qed.

Fixpoint exec_ops (ops : list sched_op) (s : Scheduler) : res Scheduler :=
  match ops with [] => Ok s | op :: ops => s1 ← exec_op op s; exec_ops ops s1 end.

(** Every operation of the run respects [allowed]. *)
Fixpoint allowed_all (ops : list sched_op) (s : Scheduler) : Prop :=
  match ops with
  | [] => True
  | op :: ops => allowed op s /\ match exec_op op s with Ok s1 => allowed_all ops s1 | Panic => True end
  end.

Definition switches (ops : list sched_op) : Z :=
  Z.of_nat (length (filter (fun op => leaves_in op <> None) ops)).

(** C32. Round-robin scheduling starves nobody. Let a task be ready in slot [i]. In every run of
    scheduler operations, whatever they are (no panic, no removal of the task's domain or of a
    running domain), the task is the current task after at most as many context switches as
    slot [i] lies ahead of the current slot in the table, hence after at most 32. *)
Theorem no_starvation ops s s' i d :
  sched_wf s -> allowed_all ops s -> exec_ops ops s = Ok s' -> ready_in s i d -> ORemove d ∉ ops ->
  dist (current s) i <= switches ops ->
  dist (current s) i <= MAX_TASKS /\
  exists ops1 ops2 s1, ops = ops1 ++ ops2 /\ exec_ops ops1 s = Ok s1 /\ current s1 = i /\
    switches ops1 <= dist (current s) i.
Proof.
  intros Hwf Ha E Hr Hno Hsw. split; [apply dist_range|].
  revert s Hwf Ha E Hr Hsw. induction ops as [|op ops IH]; intros s Hwf Ha E Hr Hsw.
  { pose proof (dist_range (current s) i). unfold switches in Hsw. cbn in Hsw. lia. }
  cbn [exec_ops] in E. destruct Ha as [Ha1 Ha2]. apply not_elem_of_cons in Hno as [Hno1 Hno2].
  destruct (exec_op op s) as [s1|] eqn:E1; [|done]. cbn [mbind res_bind] in E.
  pose proof (exec_op_wf op s Hwf Ha1) as Hwf1. rewrite E1 in Hwf1.
  destruct (prepare_wf op s Hwf Ha1) as (sp & Hsp & Hwfp & Hcp).
  pose proof (ready_prepare op s sp i d Hwf Hsp Hr ltac:(congruence)) as Hrp.
  pose proof E1 as E1'. rewrite exec_op_split, Hsp in E1'. cbn [mbind res_bind] in E1'.
  assert (Hext : forall ops1 ops2 s2, ops = ops1 ++ ops2 -> exec_ops ops1 s1 = Ok s2 ->
            op :: ops = (op :: ops1) ++ ops2 /\ exec_ops (op :: ops1) s = Ok s2).
  { intros ops1 ops2 s2 -> H. split; [done|]. cbn [exec_ops]. by rewrite E1. }
  unfold switches in Hsw. rewrite filter_cons in Hsw. destruct (leaves_in op) as [st|] eqn:El.
  - rewrite decide_True in Hsw by done. cbn [length] in Hsw.
    destruct (ready_switch _ _ _ _ i d Hwfp E1' Hrp) as [Hi|[Hr1 Hd]].
    + exists [op], ops, s1. destruct (Hext [] ops s1 eq_refl eq_refl) as [? ?]. split; [done|]. split; [done|].
      split; [done|]. unfold switches. rewrite filter_cons, El, decide_True by done. cbn.
      pose proof (dist_range (current s) i). lia.
    + rewrite Hcp in Hd. destruct (IH Hno2 s1 Hwf1 Ha2 E Hr1) as (ops1 & ops2 & s2 & H1 & H2 & H3 & H4);
        [unfold switches; lia|].
      exists (op :: ops1), ops2, s2. destruct (Hext _ _ _ H1 H2) as [? ?]. split; [done|]. split; [done|].
      split; [done|]. unfold switches in *. rewrite filter_cons, El, decide_True by done. cbn [length]. lia.
  - rewrite decide_False in Hsw by tauto. injection E1' as <-.
    destruct (IH Hno2 sp Hwf1 Ha2 E Hrp) as (ops1 & ops2 & s2 & H1 & H2 & H3 & H4); [unfold switches; by rewrite Hcp|].
    exists (op :: ops1), ops2, s2. destruct (Hext _ _ _ H1 H2) as [? ?]. split; [done|]. split; [done|].
    split; [done|]. rewrite Hcp in H4. unfold switches in *. rewrite filter_cons, El, decide_False by tauto. done.
Qed.

(** ** Timeouts *)

(** Slot [i] sleeps until tick [T]. *)
Definition sleeping (s : Scheduler) (i d T : Z) : Prop :=
  exists t, get (tasks s) i = Some t /\ t_domain t = d /\ t_state t = Sleeping /\ t_sleep_until t = T.

(** Slot [i] is blocked with deadline [T]. *)
Definition blocked_until (s : Scheduler) (i d T : Z) : Prop :=
  exists t, get (tasks s) i = Some t /\ t_domain t = d /\ t_state t = Blocked /\ t_wake_deadline t = T /\ T <> 0.

Definition runnable (s : Scheduler) (i d : Z) : Prop :=
  exists t, get (tasks s) i = Some t /\ t_domain t = d /\ (t_state t = Ready \/ t_state t = Running).

Lemma prepare_waiting op s s1 i t :
  sched_wf s -> prepare op s = Ok s1 -> get (tasks s) i = Some t -> t_state t <> Running ->
  t_state t <> Terminated -> op <> ORemove (t_domain t) ->
  exists t', get (tasks s1) i = Some t' /\
    (if decide (op = OTick) then t' = wake_expired (ticks s1) t /\ ticks s1 = w64 (ticks s + 1)
     else (t' = t \/ t_state t = Blocked /\ t' = make_ready t) /\ ticks s1 = ticks s).
Proof.
  intros Hwf E Ht Hr Htm Hop.
  assert (Hne : i <> current s).
  { intros ->. destruct (sw_current _ Hwf) as (u & Hu & Hur & _). congruence. }
  assert (Hupd : forall f, update_task f (current s) s = Ok s1 -> get (tasks s1) i = Some t /\ ticks s1 = ticks s).
  { intros f Hf. rewrite update_task_get in Hf. destruct (get (tasks s) (current s)) as [u|] eqn:Eu; [|done].
    injection Hf as <-. cbn [tasks with_tasks ticks]. apply get_in_table in Eu.
    by rewrite get_insert, decide_False by done. }
  destruct (decide (op = OTick)) as [->|Hnt].
  { injection E as <-. cbn [tick_wake tasks ticks]. rewrite get_for_tasks, Ht. eauto. }
  destruct op; cbn [prepare exec_op] in E; try done; try (injection E as <-);
    try (apply Hupd in E as [? ?]; by eauto 6).
  - eauto.
  - eauto.
  - unfold wake_one. destruct (position _ _) as [k|] eqn:Ep; [|eauto].
    apply position_Some in Ep as [([u|] & Hk & Hw) _]; [|done]. unfold get, lookupZ in *.
    cbn [tasks with_tasks ticks]. rewrite length_alter. destruct (_ && _); [|done].
    rewrite list_lookup_alter. case_decide as Hd; [subst k|eauto 6].
    rewrite Hk in Ht |- *. injection Ht as ->. cbn. eexists. split; [done|]. split; [|done]. right. split; [|done].
    unfold waits_on in Hw. apply andb_prop in Hw as [Hw _]. by apply bool_decide_eq_true in Hw.
  - unfold try_spawn_user, spawn_user, spawn_inner. destruct (position _ _) as [k|] eqn:Ep; [|eauto].
    apply position_Some in Ep as [([u|] & Hk & Hw) _]; [done|]. unfold get, lookupZ in *.
    cbn [snd tasks with_tasks ticks]. rewrite length_insert. destruct (_ && _); [|done].
    rewrite list_lookup_insert_ne; [eauto 6|]. intros ->. by rewrite Hk in Ht.
  - unfold remove_domain. cbn [tasks with_tasks ticks]. rewrite get_for_tasks, get_keep, Ht.
    cbn. rewrite (proj2 (Z.eqb_neq _ _)) by congruence. eexists. split; [done|]. split; [|done].
    unfold waits_on. destruct (bool_decide_reflect (t_state t = Blocked)); cbn; [|by left].
    case_match; [by right | by left].
  - cbn [reap_terminated snd tasks with_tasks ticks]. rewrite get_keep, Ht. cbn.
    rewrite bool_decide_eq_false_2, andb_false_r by done. eauto 6.
Qed.

Lemma switch_waiting k st s s' i t :
  sched_wf s -> schedule_next k st s = Ok s' -> get (tasks s) i = Some t -> t_state t <> Running ->
  ticks s' = ticks s /\
  exists t', get (tasks s') i = Some t' /\ (t' = t \/ t_state t = Ready /\ t' = set_state Running t).
Proof.
  intros Hwf E Ht Hr. destruct (sw_current _ Hwf) as (u & Hu & Hur & _).
  pose proof (schedule_next_spec k st s u Hwf Hu) as H. rewrite E in H.
  destruct H as (n & tn & Hc & Hn & Htn & Hst & _ & Hg & Htk & _). split; [done|].
  assert (Hyi : yielded st k s i = Some t).
  { unfold yielded. rewrite Ht, decide_False; [done|]. intros ->. congruence. }
  rewrite Hg. case_decide as Hi; [|eauto]. rewrite <- Hi, Hyi in Htn. injection Htn as <-. eauto.
Qed.

Definition nticks (ops : list sched_op) : Z := Z.of_nat (length (filter (fun op => op = OTick) ops)).

Lemma wake_expired_cases now t :
  wake_expired now t = t \/ t_state (wake_expired now t) = Ready /\ t_domain (wake_expired now t) = t_domain t.
Proof. unfold wake_expired. repeat case_match; auto. Qed.

(** One operation, seen from a task waiting for a timeout. *)
Lemma exec_waiting op s s' i t :
  sched_wf s -> allowed op s -> exec_op op s = Ok s' -> get (tasks s) i = Some t ->
  t_state t <> Running -> t_state t <> Terminated -> op <> ORemove (t_domain t) ->
  (if decide (op = OTick) then ticks s' = w64 (ticks s + 1) else ticks s' = ticks s) /\
  exists t', get (tasks s') i = Some t' /\
    ((if decide (op = OTick) then t' = wake_expired (ticks s') t else t' = t) \/
     t_domain t' = t_domain t /\ (t_state t' = Ready \/ t_state t' = Running) /\
     (t_state t = Sleeping -> op = OTick /\ t_sleep_until t <= ticks s')).
Proof.
  intros Hwf Ha E Ht Hr Htm Hop. rewrite exec_op_split in E.
  destruct (prepare_wf op s Hwf Ha) as (s1 & H1 & Hwf1 & _). rewrite H1 in E. cbn [mbind res_bind] in E.
  destruct (prepare_waiting op s s1 i t Hwf H1 Ht Hr Htm Hop) as (t1 & Ht1 & Hcase).
  assert (Hs' : exists t', ticks s' = ticks s1 /\ get (tasks s') i = Some t' /\
                  (t' = t1 \/ t_state t1 = Ready /\ t' = set_state Running t1)).
  { destruct (leaves_in op) as [st|]; [|injection E as <-; eauto].
    assert (t_state t1 <> Running).
    { destruct (decide (op = OTick)); destruct Hcase as [Hc _].
      - subst t1. destruct (wake_expired_cases (ticks s1) t) as [->|[-> _]]; done.
      - destruct Hc as [->|[_ ->]]; done. }
    destruct (switch_waiting _ _ s1 s' i t1 Hwf1 E Ht1) as [? (t' & ? & ?)]; eauto. }
  destruct Hs' as (t' & Htk & Ht' & Hor). rewrite Htk.
  destruct (decide (op = OTick)) as [->|Hnt]; destruct Hcase as [Hc Hk]; (split; [done|]); exists t'; (split; [done|]).
  - destruct (decide (wake_expired (ticks s1) t = t)) as [Heq|Hneq].
    + destruct Hor as [->|[Hr1 ->]]; [by left|]. subst t1. rewrite Heq in *.
      right. split; [done|]. split; [by right|]. congruence.
    + right. subst t1. destruct (wake_expired_cases (ticks s1) t) as [|[Hw Hwd]]; [done|].
      split; [|split; [|intros Hsl; split; [done|]]].
      * destruct Hor as [->|[_ ->]]; done.
      * destruct Hor as [->|[_ ->]]; [by left | by right].
      * unfold wake_expired in Hneq. rewrite Hsl in Hneq. cbn in Hneq.
        destruct (Z.leb_spec (t_sleep_until t) (ticks s1)); [done|].
        exfalso. apply Hneq. done.
  - destruct Hc as [->|[Hb ->]].
    + destruct Hor as [->|[Hr1 ->]]; [by left|]. right. split; [done|]. split; [by right|]. congruence.
    + right. split; [by destruct Hor as [->|[_ ->]]|]. split; [|congruence].
      destruct Hor as [->|[_ ->]]; [by left | by right].
Qed.

Lemma nticks_cons op ops : nticks (op :: ops) = (if decide (op = OTick) then 1 else 0) + nticks ops.
Proof. unfold nticks. rewrite filter_cons. destruct (decide (op = OTick)); cbn [length]; lia. Qed.

Lemma nticks_nonneg ops : 0 <= nticks ops.
Proof. unfold nticks. lia. Qed.

Lemma sleeping_step op s s' i d T :
  sched_wf s -> allowed op s -> exec_op op s = Ok s' -> op <> ORemove d ->
  0 <= ticks s -> ticks s + 1 < 2^64 -> sleeping s i d T ->
  ticks s' = ticks s + (if decide (op = OTick) then 1 else 0) /\
  if decide (op = OTick /\ T <= ticks s + 1) then runnable s' i d else sleeping s' i d T.
Proof.
  intros Hwf Ha E Hop H0 Hw (t & Ht & Hd & Hst & HT).
  destruct (exec_waiting op s s' i t Hwf Ha E Ht) as [Htk (t' & Ht' & Hor)]; [congruence..|].
  assert (Htk' : ticks s' = ticks s + (if decide (op = OTick) then 1 else 0)).
  { destruct (decide (op = OTick)); [|lia]. rewrite Htk. apply Z.mod_small. lia. }
  split; [exact Htk'|]. destruct (decide (op = OTick)) as [->|Hnt].
  - unfold wake_expired in Hor. rewrite Hst in Hor. cbn in Hor.
    destruct (Z.leb_spec (t_sleep_until t) (ticks s')) as [Hle|Hgt].
    + rewrite decide_True by (split; [done | lia]). exists t'. destruct Hor as [->|(? & ? & _)]; cbn; naive_solver.
    + rewrite decide_False by (intros [_ ?]; lia). exists t'.
      destruct Hor as [->|(_ & _ & Hx)]; [done|]. destruct (Hx eq_refl). lia.
  - rewrite decide_False by tauto. exists t'. destruct Hor as [->|(_ & _ & Hx)]; [done|]. by destruct (Hx Hst).
Qed.

Lemma blocked_step op s s' i d T :
  sched_wf s -> allowed op s -> exec_op op s = Ok s' -> op <> ORemove d ->
  0 <= ticks s -> ticks s + 1 < 2^64 -> blocked_until s i d T ->
  ticks s' = ticks s + (if decide (op = OTick) then 1 else 0) /\
  (runnable s' i d \/ blocked_until s' i d T /\ ~ (op = OTick /\ T <= ticks s + 1)).
Proof.
  intros Hwf Ha E Hop H0 Hw (t & Ht & Hd & Hst & HT & HT0).
  destruct (exec_waiting op s s' i t Hwf Ha E Ht) as [Htk (t' & Ht' & Hor)]; [congruence..|].
  assert (Htk' : ticks s' = ticks s + (if decide (op = OTick) then 1 else 0)).
  { destruct (decide (op = OTick)); [|lia]. rewrite Htk. apply Z.mod_small. lia. }
  split; [exact Htk'|]. destruct Hor as [Hor|(? & ? & _)]; [|left; exists t'; naive_solver].
  destruct (decide (op = OTick)) as [->|Hnt].
  - unfold wake_expired in Hor. rewrite Hst in Hor. cbn in Hor.
    rewrite (proj2 (Z.eqb_neq (t_wake_deadline t) 0)) in Hor by congruence. cbn in Hor.
    destruct (Z.leb_spec (t_wake_deadline t) (ticks s')) as [Hle|Hgt]; subst t'.
    + left. exists (make_ready t). cbn. auto.
    + right. split; [exists t; auto | intros [_ ?]; lia].
  - right. subst t'. split; [exists t; auto | tauto].
Qed.

(** Timeouts fire on time. Take any run of scheduler operations (no panic, no tick overflow,
    no removal of the task's domain). A task asleep until tick [T] is still asleep at the end if
    the run contains fewer than [T - now] ticks, so it is never woken early; and if the run
    contains [T - now] ticks or more, the task is runnable after a prefix with exactly that many
    ticks. A task blocked with deadline [T] is runnable after a prefix with at most [T - now]
    ticks, whether or not the event it waits for occurs. *)
Theorem timeouts_fire ops s s' i d T :
  sched_wf s -> allowed_all ops s -> exec_ops ops s = Ok s' -> ORemove d ∉ ops ->
  0 <= ticks s < T -> ticks s + nticks ops < 2^64 - 1 ->
  (sleeping s i d T -> ticks s + nticks ops < T -> sleeping s' i d T) /\
  (sleeping s i d T -> T <= ticks s + nticks ops ->
     exists ops1 ops2 s1, ops = ops1 ++ ops2 /\ exec_ops ops1 s = Ok s1 /\ runnable s1 i d /\
       nticks ops1 = T - ticks s) /\
  (blocked_until s i d T -> T <= ticks s + nticks ops ->
     exists ops1 ops2 s1, ops = ops1 ++ ops2 /\ exec_ops ops1 s = Ok s1 /\ runnable s1 i d /\
       nticks ops1 <= T - ticks s).
Proof.
  revert s. induction ops as [|op ops IH]; intros s Hwf Ha E Hno Ht Hov.
  { cbn in E. injection E as <-. unfold nticks; cbn. split; [done|]. split; lia. }
  cbn [exec_ops] in E. destruct Ha as [Ha1 Ha2]. apply not_elem_of_cons in Hno as [Hno1 Hno2].
  destruct (exec_op op s) as [s1|] eqn:E1; [|done]. cbn [mbind res_bind] in E.
  pose proof (exec_op_wf op s Hwf Ha1) as Hwf1. rewrite E1 in Hwf1.
  rewrite nticks_cons in *. pose proof (nticks_nonneg ops) as Hnn.
  assert (Hstop : forall P : Prop, (P -> runnable s1 i d) -> P ->
    exists ops1 ops2 s2, op :: ops = ops1 ++ ops2 /\ exec_ops ops1 s = Ok s2 /\ runnable s2 i d /\
      nticks ops1 = if decide (op = OTick) then 1 else 0).
  { intros P HP p. exists [op], ops, s1. split; [done|]. cbn [exec_ops]. rewrite E1. split; [done|].
    split; [auto|]. rewrite nticks_cons. unfold nticks; cbn. lia. }
  assert (Hgo : forall (Q : Z -> Prop), (exists ops1 ops2 s2, ops = ops1 ++ ops2 /\ exec_ops ops1 s1 = Ok s2 /\
      runnable s2 i d /\ Q (nticks ops1)) ->
    exists ops1 ops2 s2, op :: ops = ops1 ++ ops2 /\ exec_ops ops1 s = Ok s2 /\ runnable s2 i d /\
      exists n, Q n /\ nticks ops1 = (if decide (op = OTick) then 1 else 0) + n).
  { intros Q (ops1 & ops2 & s2 & -> & H2 & H3 & H4). exists (op :: ops1), ops2, s2. split; [done|].
    cbn [exec_ops]. rewrite E1. split; [done|]. split; [done|]. rewrite nticks_cons. eauto. }
  split; [|split].
  - intros Hsl Hlt.
    assert (Hw64 : ticks s + 1 < 2^64) by (destruct (decide (op = OTick)); lia).
    destruct (sleeping_step op s s1 i d T Hwf Ha1 E1) as [Htk Hs]; [congruence | lia | lia | done |].
    rewrite decide_False in Hs by (intros [-> ?]; rewrite decide_True in Hlt by done; lia).
    apply (IH s1); try done; destruct (decide (op = OTick)); lia.
  - intros Hsl Hle.
    assert (Hw64 : ticks s + 1 < 2^64) by (destruct (decide (op = OTick)); lia).
    destruct (sleeping_step op s s1 i d T Hwf Ha1 E1) as [Htk Hs]; [congruence | lia | lia | done |].
    destruct (decide (op = OTick /\ T <= ticks s + 1)) as [[-> Hd]|Hd].
    + destruct (Hstop True) as (o1 & o2 & s2 & ? & ? & ? & Hn); [done | done |].
      rewrite decide_True in Hn by done. exists o1, o2, s2. split; [done|]. split; [done|]. split; [done | lia].
    + destruct (Hgo (fun n => n = T - ticks s1)) as (o1 & o2 & s2 & ? & ? & ? & n & -> & Hn).
      * assert (ticks s1 < T).
        { destruct (decide (op = OTick)) as [->|]; [|lia]. destruct (Z_le_gt_dec T (ticks s + 1)); [tauto | lia]. }
        apply (IH s1); try done; destruct (decide (op = OTick)); lia.
      * exists o1, o2, s2. split; [done|]. split; [done|]. split; [done|]. rewrite Hn, Htk. lia.
  - intros Hbl Hle.
    assert (Hw64 : ticks s + 1 < 2^64) by (destruct (decide (op = OTick)); lia).
    destruct (blocked_step op s s1 i d T Hwf Ha1 E1) as [Htk Hs]; [congruence | lia | lia | done |].
    destruct Hs as [Hs|[Hs Hd]].
    + destruct (Hstop True) as (o1 & o2 & s2 & ? & ? & ? & Hn); [done | done |].
      exists o1, o2, s2. split; [done|]. split; [done|]. split; [done|]. rewrite Hn. destruct (decide (op = OTick)); lia.
    + destruct (Hgo (fun n => n <= T - ticks s1)) as (o1 & o2 & s2 & ? & ? & ? & n & Hq & Hn).
      * assert (ticks s1 < T).
        { destruct (decide (op = OTick)) as [->|]; [|lia]. destruct (Z_le_gt_dec T (ticks s + 1)); [tauto | lia]. }
        apply (IH s1); try done; destruct (decide (op = OTick)); lia.
      * exists o1, o2, s2. split; [done|]. split; [done|]. split; [done|]. rewrite Hn. lia.
Qed.

(** ** Start-up and sample runs *)

(** [run] establishes the invariant on a table of tasks none of which runs. *)
Lemma run_wf s s' :
  Z.of_nat (length (tasks s)) = MAX_TASKS -> (forall i t, get (tasks s) i = Some t -> t_state t <> Running) ->
  run s = Ok s' -> sched_wf s'.
Proof.
  intros Hlen Hno. unfold run. destruct (next_ready (tasks s) (MAX_TASKS - 1)) as [n|] eqn:En; [|done].
  apply next_ready_Some in En as (Hn & (t & Ht & Hr) & _). cbn [expect mbind res_bind].
  rewrite task_at_get, Ht. cbn [mbind res_bind]. rewrite update_task_get, Ht. cbn [mbind res_bind].
  intros [= <-]. constructor; cbn [tasks with_tasks current cpu_cr3 cpu_kstack].
  - by rewrite length_insertZ.
  - exists (set_state Running t). rewrite get_insert, decide_True by (done || lia). done.
  - intros i u Hu Hru. rewrite get_insert in Hu by lia. case_decide; [done|]. exfalso. by apply (Hno i u).
Qed.

Lemma ms_to_ticks_exact ms : 0 <= ms -> ms * 1000 < 2^64 -> ms_to_ticks ms = Z.max ms 1.
Proof.
  intros H0 H1. unfold ms_to_ticks, saturating_mul, div_ceil, TARGET_FREQ, U64_MAX.
  rewrite Z.min_l by lia. f_equal. Z.to_euclidean_division_equations. lia.
Qed.

(** [n] user tasks of domains 0, 1, ... . *)
Fixpoint spawn_all (ds : list Z) (s : Scheduler) : Scheduler :=
  match ds with
  | [] => s
  | d :: ds => spawn_all ds (snd (try_spawn_user (0x1000 * (d + 1)) (0x100000 + d) 0x8000000000 0x8000401000 d s))
  end.

Definition sample_sched : Scheduler :=
  match run (spawn_all [0; 1; 2; 3] (new 0)) with Ok s => s | Panic => new 0 end.

Lemma get_check (p : Task -> bool) ts :
  forallb (fun o => match o with Some t => p t | None => true end) ts = true ->
  forall i t, get ts i = Some t -> p t = true.
Proof.
  rewrite forallb_forall. intros H i t Ht. unfold get in Ht. destruct (lookupZ ts i) as [[u|]|] eqn:E; simplify_eq.
  apply lookupZ_Some in E as [_ E]. apply (H (Some t)), list_elem_of_In, list_elem_of_lookup. eauto.
Qed.

Lemma sample_sched_wf : sched_wf sample_sched.
Proof.
  apply (run_wf (spawn_all [0; 1; 2; 3] (new 0))); [vm_compute; reflexivity | | vm_compute; reflexivity].
  intros i t Ht. apply (get_check (fun t => bool_decide (t_state t <> Running))) in Ht; [|vm_compute; reflexivity].
  by apply bool_decide_eq_true in Ht.
Qed.

Lemma one_running_task_witness :
  sched_wf sample_sched /\ sched_wf (match exec_op OTick sample_sched with Ok s => s | Panic => sample_sched end).
Proof.
  split; [exact sample_sched_wf|]. pose proof (one_running_task OTick sample_sched sample_sched_wf I) as H.
  destruct (exec_op OTick sample_sched) as [s|] eqn:E; [exact H | exact sample_sched_wf].
Defined.

Definition busy_run : list sched_op := [OYield; OWake 7; OTick; OYield; OTick].

Lemma ready_in_check s i d :
  match get (tasks s) i with Some t => bool_decide (t_state t = Ready) && (t_domain t =? d) | None => false end = true ->
  ready_in s i d.
Proof.
  intros H. unfold ready_in. destruct (get (tasks s) i) as [t|]; [|done]. exists t. split; [done|].
  apply andb_prop in H as [H1 H2]. apply bool_decide_eq_true in H1. bool_to_prop. done.
Qed.

Lemma no_starvation_witness :
  exists ops1 ops2 s1, busy_run = ops1 ++ ops2 /\ exec_ops ops1 sample_sched = Ok s1 /\ current s1 = 3.
Proof.
  destruct (exec_ops busy_run sample_sched) as [s'|] eqn:E; [|vm_compute in E; discriminate].
  destruct (no_starvation busy_run sample_sched s' 3 3 sample_sched_wf) as [_ (o1 & o2 & s1 & H1 & H2 & H3 & _)].
  - vm_compute. tauto.
  - exact E.
  - apply ready_in_check. vm_compute. reflexivity.
  - unfold busy_run. intros H. repeat (apply elem_of_cons in H as [H|H]; [discriminate|]). by apply not_elem_of_nil in H.
  - vm_compute. discriminate.
  - exists o1, o2, s1. split; [exact H1|]. split; [exact H2 | exact H3].
Defined.

(** Task 0 sleeps for 2 ms, then the others run and two ticks pass. *)
Definition sample_asleep : Scheduler :=
  match sleep 2 sample_sched with Ok s => s | Panic => sample_sched end.

Lemma sample_asleep_wf : sched_wf sample_asleep.
Proof.
  pose proof (exec_op_wf (OSleep 2) sample_sched sample_sched_wf I) as H. unfold sample_asleep.
  change (exec_op (OSleep 2) sample_sched) with (sleep 2 sample_sched) in H.
  destruct (sleep 2 sample_sched) as [s|] eqn:E; [exact H | exact sample_sched_wf].
Qed.

Lemma timeouts_fire_witness :
  exists ops1 ops2 s1, busy_run = ops1 ++ ops2 /\ exec_ops ops1 sample_asleep = Ok s1 /\ runnable s1 0 0 /\
    nticks ops1 = 2.
Proof.
  destruct (exec_ops busy_run sample_asleep) as [s'|] eqn:E; [|vm_compute in E; discriminate].
  assert (Hs : sleeping sample_asleep 0 0 2) by (eexists; split; [vm_compute; reflexivity | vm_compute; tauto]).
  destruct (timeouts_fire busy_run sample_asleep s' 0 0 2 sample_asleep_wf) as (_ & H & _).
  - vm_compute. tauto.
  - exact E.
  - unfold busy_run. intros H. repeat (apply elem_of_cons in H as [H|H]; [discriminate|]). by apply not_elem_of_nil in H.
  - vm_compute. split; [discriminate | reflexivity].
  - vm_compute. reflexivity.
  - exact (H Hs ltac:(vm_compute; discriminate)).
Defined.

(** ** Waking a given waiter *)

(** Slot [j] holds the only task blocked on [key]. *)
Definition sole_waiter (s : Scheduler) (key j : Z) : Prop :=
  (exists t, get (tasks s) j = Some t /\ waits_on key t = true) /\
  forall i u, get (tasks s) i = Some u -> waits_on key u = true -> i = j.

Definition is_ready_at (s : Scheduler) (j : Z) : Prop := ready_at (tasks s) j.

Lemma wake_one_get key s j :
  get (tasks (wake_one key s)) j = get (tasks s) j \/
  exists t, get (tasks s) j = Some t /\ waits_on key t = true /\ get (tasks (wake_one key s)) j = Some (make_ready t).
Proof.
  unfold wake_one. destruct (position _ _) as [i|] eqn:E; [|by left].
  apply position_Some in E as [([t|] & Hi & Hw) _]; [|done]. unfold get, lookupZ. cbn [tasks with_tasks].
  rewrite length_alter. destruct (_ && _); [|by left]. rewrite list_lookup_alter. case_decide; [|by left].
  subst i. right. exists t. by rewrite Hi.
Qed.

Lemma wake_one_ready key s j : is_ready_at s j -> is_ready_at (wake_one key s) j.
Proof.
  intros (t & Ht & Hr). destruct (wake_one_get key s j) as [E|(u & Hu & Hw & E)].
  - exists t. by rewrite E.
  - exists (make_ready u). by rewrite E.
Qed.

Lemma wake_one_sole key s j : sole_waiter s key j -> is_ready_at (wake_one key s) j.
Proof.
  intros [(t & Ht & Hw) Huniq]. unfold wake_one. destruct (position _ _) as [i|] eqn:E.
  - apply position_Some in E as [([u|] & Hi & Hu) _]; [|done].
    assert (Hg : get (tasks s) (Z.of_nat i) = Some u) by (unfold get; by rewrite lookupZ_nat, Hi).
    assert (Z.of_nat i = j) as <- by (eapply Huniq; eauto).
    exists (make_ready u). split; [|done]. cbn [tasks with_tasks]. unfold get. rewrite lookupZ_nat.
    by rewrite list_lookup_alter_eq, Hi.
  - exfalso. rewrite position_None in E. unfold get in Ht. destruct (lookupZ (tasks s) j) as [[u|]|] eqn:Ej; simplify_eq.
    apply lookupZ_Some in Ej as [_ Ej]. specialize (E _ _ Ej). cbn in E. congruence.
Qed.

Lemma wake_one_other key key' s j : key <> key' -> sole_waiter s key j -> sole_waiter (wake_one key' s) key j.
Proof.
  intros Hne [(t & Ht & Hw) Huniq].
  assert (Hkeep : forall u, waits_on key u = true -> waits_on key' u = true -> False).
  { unfold waits_on. intros u H1 H2. apply andb_prop in H1 as [_ H1]. apply andb_prop in H2 as [_ H2]. bool_to_prop. congruence. }
  split.
  - exists t. split; [|done]. destruct (wake_one_get key' s j) as [->|(u & Hu & Hu' & _)]; [done|].
    exfalso. assert (u = t) as -> by congruence. eauto.
  - intros i u Hi Hu. destruct (wake_one_get key' s i) as [E|(v & Hv & Hv' & E)]; rewrite E in Hi; [eauto|].
    injection Hi as <-. by unfold waits_on in Hu.
Qed.

(** Waking a list of distinct keys wakes the waiter of each. *)
Lemma wake_keys_sole keys s key j :
  key ∈ keys -> sole_waiter s key j -> is_ready_at (foldl (fun s k => wake_one k s) s keys) j.
Proof.
  assert (Hkeep : forall keys s, is_ready_at s j -> is_ready_at (foldl (fun s k => wake_one k s) s keys) j).
  { clear. intros keys. induction keys as [|k keys IH]; intros s H; [done|]. cbn. apply IH. by apply wake_one_ready. }
  revert s. induction keys as [|k keys IH]; intros s Hin Hs; [by apply not_elem_of_nil in Hin|]. cbn.
  destruct (decide (key = k)) as [->|Hne]; [by apply Hkeep, wake_one_sole|].
  apply elem_of_cons in Hin as [?|Hin]; [done|]. apply IH; [done|]. by apply wake_one_other.
Qed.
