(* ===== verification/Net.v ===== *)
(** * Port ownership (kernel/src/net.rs)

    The table of network-port bindings the kernel keeps for the protocol stack, and the table
    of network cards it publishes. *)

From S2P Require Import Prelude Addr Cap.

(** ** The published card table *)

Definition NIC_TABLE_VADDR : Z := USER_SPACE_BASE + 0x850000.
Definition NIC_TABLE_MAGIC : Z := 0x004E494354423031.
Definition NIC_MAX : Z := 8.

Record NicEntry : Type := mk_nic { nic_domain : Z; io_vaddr : Z; nic_kind : Z }.
Record NicTable : Type := mk_nic_table { magic : Z; nic_count : Z; entries : list NicEntry }.

(** The table [publish_nic_table] writes: the copy loop stops at the shorter of the two
    arrays. *)
Fixpoint copy_entries (src : list NicEntry) (dst : list NicEntry) (i : Z) : list NicEntry * Z :=
  match src, dst with
  | e :: src, _ :: dst => let '(l, n) := copy_entries src dst (i + 1) in (e :: l, n)
  | _, _ => (dst, i)
  end.

Definition nic_table (es : list NicEntry) : NicTable :=
  let '(l, n) := copy_entries es (replicate (Z.to_nat NIC_MAX) (mk_nic 0 0 0)) 0 in
  mk_nic_table NIC_TABLE_MAGIC n l.

Definition nic_io_vaddr (index : Z) : Z := w64 (USER_SPACE_BASE + 0x1A0000 + w64 (index * 0x1000)).

(** ** Bindings *)

Definition MAX_BINDINGS : Z := 64.

Record Binding : Type := mk_binding { b_domain : Z; b_port : Z }.

Notation bindings := (list Binding).

Definition init (_ : bindings) : bindings := [].

Definition bind (domain port : Z) (caps : cap_state) (b : bindings) : bool * bindings :=
  if negb (has_net_port domain port caps) then (false, b)
  else if existsb (fun x => b_port x =? port) b then
    (existsb (fun x => (b_port x =? port) && (b_domain x =? domain)) b, b)
  else if MAX_BINDINGS <=? Z.of_nat (length b) then (false, b)
  else (true, b ++ [mk_binding domain port]).

Definition owner (port : Z) (b : bindings) : Z :=
  match find (fun x => b_port x =? port) b with Some x => b_domain x | None => U64_MAX end.

Definition remove_domain (domain : Z) (b : bindings) : bindings :=
  filter (fun x => negb (b_domain x =? domain) = true) b.

(** ** Exclusive ownership *)

Definition net_wf (b : bindings) : Prop := NoDup (b_port <$> b) /\ Z.of_nat (length b) <= MAX_BINDINGS.

Lemma port_bound b p : existsb (fun x => b_port x =? p) b = true <-> p ∈ b_port <$> b.
Proof.
  rewrite existsb_exists, list_elem_of_fmap. split.
  - intros (x & Hx & He). apply Z.eqb_eq in He. exists x. split; [done | by apply list_elem_of_In].
  - intros (x & -> & Hx). exists x. split; [by apply list_elem_of_In | by apply Z.eqb_eq].
Qed.

Lemma owner_bound b p : p ∈ b_port <$> b -> mk_binding (owner p b) p ∈ b.
Proof.
  induction b as [|x b IH]; intros Hp; [by apply not_elem_of_nil in Hp|]. unfold owner. cbn [find].
  destruct (Z.eqb_spec (b_port x) p) as [<-|Hne]; [destruct x; apply list_elem_of_here|].
  apply list_elem_of_further, IH. rewrite fmap_cons in Hp. apply elem_of_cons in Hp as [?|?]; [congruence | done].
Qed.

Lemma owner_free b p : p ∉ b_port <$> b -> owner p b = U64_MAX.
Proof.
  induction b as [|x b IH]; intros Hp; [done|]. unfold owner. cbn [find]. rewrite fmap_cons in Hp.
  apply not_elem_of_cons in Hp as [H1 H2]. rewrite (proj2 (Z.eqb_neq _ _)) by congruence. by apply IH.
Qed.

Lemma owner_unique b d p : NoDup (b_port <$> b) -> mk_binding d p ∈ b -> owner p b = d.
Proof.
  induction b as [|x b IH]; intros Hnd Hin; [by apply not_elem_of_nil in Hin|].
  rewrite fmap_cons in Hnd. apply NoDup_cons in Hnd as [Hx Hnd]. unfold owner. cbn [find].
  apply elem_of_cons in Hin as [<-|Hin]; [by rewrite Z.eqb_refl|].
  destruct (Z.eqb_spec (b_port x) p) as [<-|_]; [|by apply IH].
  exfalso. apply Hx. apply list_elem_of_fmap. by exists (mk_binding d (b_port x)).
Qed.

Lemma self_bound b d p :
  NoDup (b_port <$> b) -> p ∈ b_port <$> b ->
  existsb (fun x => (b_port x =? p) && (b_domain x =? d)) b = true <-> owner p b = d.
Proof.
  intros Hnd Hp. rewrite existsb_exists. split.
  - intros ([d' p'] & Hx & He). apply andb_prop in He as [H1 H2]. cbn in *. bool_to_prop. subst.
    apply owner_unique; [done | by apply list_elem_of_In].
  - intros <-. exists (mk_binding (owner p b) p). split; [by apply list_elem_of_In, owner_bound|].
    cbn. by rewrite !Z.eqb_refl.
Qed.

Lemma owner_app_other b x p : b_port x <> p -> owner p (b ++ [x]) = owner p b.
Proof.
  intros Hne. unfold owner. induction b as [|y b IH]; cbn; [by rewrite (proj2 (Z.eqb_neq _ _))|].
  by destruct (b_port y =? p).
Qed.

(** The callers of the port table. *)
Inductive net_op : Type := NBind (domain port : Z) | NRemove (domain : Z).

Definition net_step (caps : cap_state) (op : net_op) (b : bindings) : bindings :=
  match op with NBind d p => snd (bind d p caps b) | NRemove d => remove_domain d b end.

Lemma net_wf_step caps op b : net_wf b -> net_wf (net_step caps op b).
Proof.
  intros [Hnd Hlen]. destruct op as [d p|d]; cbn [net_step].
  - unfold bind. destruct (negb _); [done|]. destruct (existsb _ b) eqn:E; [done|].
    destruct (Z.leb_spec MAX_BINDINGS (Z.of_nat (length b))); [done|]. cbn [snd]. split.
    + rewrite fmap_app. apply NoDup_app. split; [done|]. split; [|apply NoDup_singleton].
      intros q Hq Hq'. apply list_elem_of_singleton in Hq'. cbn in Hq'. subst q.
      apply port_bound in Hq. congruence.
    + rewrite length_app. cbn. lia.
  - split; [|etransitivity; [apply Nat2Z.inj_le, length_filter | exact Hlen]].
    unfold remove_domain. clear Hlen. induction b as [|x b IH]; [constructor|].
    rewrite fmap_cons in Hnd. apply NoDup_cons in Hnd as [Hx Hnd]. rewrite filter_cons. case_decide; [|auto].
    rewrite fmap_cons. apply NoDup_cons. split; [|auto]. intros Hin. apply Hx.
    apply list_elem_of_fmap in Hin as (y & -> & Hy). apply list_elem_of_filter in Hy as [_ Hy].
    apply list_elem_of_fmap. eauto.
Qed.

Lemma foldl_net_wf caps ops b : net_wf b -> net_wf (foldl (fun b op => net_step caps op b) b ops).
Proof. revert b. induction ops as [|op ops IH]; intros b Hb; [done|]. cbn. apply IH. by apply net_wf_step. Qed.

(** A port has one owner. In every state reached from the empty table by binds and removals:
    a bind by domain [d] succeeds exactly if [d] holds a [Net] capability covering the port and
    either already owns it, or nobody does and the table has room; on success [d] is the owner;
    no bind changes the owner of another port, nor of a port that is owned; and removing a
    domain frees its ports and only these. *)
Theorem net_ports_exclusive caps ops d p :
  let b := foldl (fun b op => net_step caps op b) [] ops in
  let bound q := q ∈ b_port <$> b in
  (fst (bind d p caps b) = true <->
     has_net_port d p caps = true /\
     (bound p /\ owner p b = d \/ ~ bound p /\ Z.of_nat (length b) < MAX_BINDINGS)) /\
  (fst (bind d p caps b) = true -> owner p (snd (bind d p caps b)) = d) /\
  (forall q, q <> p \/ bound p -> owner q (snd (bind d p caps b)) = owner q b) /\
  (forall q, bound q ->
     (q ∈ b_port <$> remove_domain d b <-> owner q b <> d) /\
     (owner q b <> d -> owner q (remove_domain d b) = owner q b)).
Proof.
  cbv zeta. pose proof (foldl_net_wf caps ops [] ltac:(split; [constructor | unfold MAX_BINDINGS; cbn; lia])) as Hwf.
  set (b := foldl _ _ _) in *. clearbody b. destruct Hwf as [Hnd Hlen].
  assert (Hbind : bind d p caps b =
    if negb (has_net_port d p caps) then (false, b)
    else if decide (p ∈ b_port <$> b) then (bool_decide (owner p b = d), b)
    else if MAX_BINDINGS <=? Z.of_nat (length b) then (false, b) else (true, b ++ [mk_binding d p])).
  { unfold bind. destruct (negb _); [done|]. case_decide as Hp.
    - rewrite (proj2 (port_bound b p) Hp). f_equal. apply eq_bool_prop_intro.
      rewrite !Is_true_true, bool_decide_eq_true. by apply self_bound.
    - destruct (existsb _ b) eqn:E; [by apply port_bound in E | done]. }
  rewrite Hbind. split; [|split; [|split]].
  - destruct (has_net_port d p caps); cbn; [|naive_solver]. case_decide as Hp; cbn.
    + rewrite bool_decide_eq_true. naive_solver.
    + destruct (Z.leb_spec MAX_BINDINGS (Z.of_nat (length b))); cbn; naive_solver lia.
  - destruct (negb _); [done|]. case_decide as Hp; cbn; [by rewrite bool_decide_eq_true|].
    destruct (Z.leb_spec MAX_BINDINGS (Z.of_nat (length b))); cbn; [done|]. intros _.
    apply owner_unique.
    + rewrite fmap_app. apply NoDup_app. split; [done|]. split; [|apply NoDup_singleton].
      intros q Hq Hq'. apply list_elem_of_singleton in Hq'. cbn in Hq'. congruence.
    + apply elem_of_app. right. by apply list_elem_of_singleton.
  - intros q Hq. destruct (negb _); [done|]. case_decide as Hp; cbn; [done|].
    destruct (Z.leb_spec MAX_BINDINGS (Z.of_nat (length b))); cbn; [done|].
    destruct Hq as [Hq|Hq]; [|done]. apply owner_app_other. cbn. congruence.
  - intros q Hq. pose proof (owner_bound b q Hq) as Hin.
    assert (Hkeep : owner q b <> d -> mk_binding (owner q b) q ∈ remove_domain d b).
    { intros Hne. apply list_elem_of_filter. split; [|done]. cbn. by rewrite (proj2 (Z.eqb_neq _ _)). }
    assert (Hnd' : NoDup (b_port <$> remove_domain d b)) by (apply (net_wf_step caps (NRemove d) b (conj Hnd Hlen))).
    split; [split|].
    + intros Hx. apply list_elem_of_fmap in Hx as ([dx px] & -> & Hx). apply list_elem_of_filter in Hx as [Hx1 Hx2].
      cbn in *. rewrite (owner_unique b dx px Hnd Hx2). apply negb_true_iff in Hx1. by apply Z.eqb_neq.
    + intros Hne. apply list_elem_of_fmap. exists (mk_binding (owner q b) q). split; [done | auto].
    + intros Hne. apply owner_unique; auto.
Qed.
