(* ===== verification/Pager.v ===== *)
(** * Pager registration (kernel/src/pager.rs)

    Which domain serves the page faults of which domain, and the fault message. *)

From S2P Require Import Prelude.

Definition FAULT_TAG : Z := 0x504641554C54.

Record PageFaultInfo : Type := mk_fault { fault_domain : Z; fault_addr : Z; error_code : Z }.

Notation pagers := (list (option Z)).

Definition init (domain_count : nat) (pager_domain : Z) : pagers := replicate domain_count (Some pager_domain).

Definition set_pager (id : Z) (pager : option Z) (p : pagers) : pagers := insertZ (grow_to p id None) id pager.

Definition add_domain (id pager_domain : Z) (p : pagers) : pagers := set_pager id (Some pager_domain) p.

Definition remove_domain (id : Z) (p : pagers) : pagers := set_pager id None p.

(** [PAGERS.get(domain).copied().flatten()]. *)
Definition pager_of (domain : Z) (p : pagers) : option Z :=
  match lookupZ p domain with Some o => o | None => None end.

(** The bytes of a [#[repr(C)]] struct of three [u64]: the payload of the fault message. *)
Fixpoint le64 (n : nat) (x : Z) : list Z :=
  match n with O => [] | S n => x mod 256 :: le64 n (x / 256) end.

Definition fault_payload (info : PageFaultInfo) : list Z :=
  le64 8 (fault_domain info) ++ le64 8 (fault_addr info) ++ le64 8 (error_code info).

Lemma pager_of_set id o p d :
  0 <= id -> pager_of d (set_pager id o p) = if decide (d = id) then o else pager_of d p.
Proof.
  intros Hid. unfold pager_of, set_pager. pose proof (length_grow_to p id None Hid) as Hl. case_decide as Hd.
  - subst d. rewrite lookupZ_insertZ_eq; [done|]. destruct (lookupZ (grow_to p id None) id) eqn:E; [eauto|].
    apply lookupZ_None in E. lia.
  - rewrite lookupZ_insertZ_ne by congruence. unfold lookupZ. rewrite Hl.
    destruct (Z.leb_spec 0 d); cbn [andb]; [|done].
    rewrite lookup_grow_to by done.
    destruct (Z.ltb_spec d (Z.of_nat (length p))) as [H1|H1].
    + rewrite (proj2 (Z.ltb_lt _ _)) by lia. by rewrite decide_True by lia.
    + destruct (Z.ltb_spec d (Z.max (Z.of_nat (length p)) (id + 1))); [|done].
      rewrite decide_False by lia. by rewrite decide_True by lia.
Qed.
