(* ===== verification/Irq.v ===== *)
(** * Interrupt forwarding (kernel/src/irq.rs)

    Registration of PIC interrupts and MSI vectors, the pending flags of the vectors and the
    wait masks of the domains. [set_pending] also wakes tasks, so it acts on the scheduler. *)

From S2P Require Import Prelude Sched.

Definition MSI_VECTOR_BASE : Z := 0x50.
Definition MSI_VECTOR_COUNT : Z := 16.
Definition ANY_MAX_DOMAINS : Z := 64.

Record irq_state : Type := mk_irq {
  HANDLERS : list (option Z);      (* 16 PIC lines *)
  VECTORS : list (option Z);       (* 256 vectors *)
  PENDING : list bool;             (* 256 vectors *)
  ANY_MASK : list Z;               (* 64 domains *)
}.

Definition irq_boot : irq_state :=
  mk_irq (replicate 16 None) (replicate 256 None) (replicate 256 false) (replicate (Z.to_nat ANY_MAX_DOMAINS) 0).

Definition vector_bit (vector : Z) : option Z :=
  if (MSI_VECTOR_BASE <=? vector) && (vector <? MSI_VECTOR_BASE + MSI_VECTOR_COUNT) then
    Some (Z.shiftl 1 (vector - MSI_VECTOR_BASE))
  else None.

Definition register (irq domain : Z) (q : irq_state) : res irq_state :=
  h ← index_set (HANDLERS q) irq (Some domain); mret (mk_irq h (VECTORS q) (PENDING q) (ANY_MASK q)).

Definition register_vector (vector domain : Z) (q : irq_state) : res irq_state :=
  v ← index_set (VECTORS q) vector (Some domain); mret (mk_irq (HANDLERS q) v (PENDING q) (ANY_MASK q)).

Definition is_registered_by (vector domain : Z) (q : irq_state) : res bool :=
  o ← index (VECTORS q) vector; mret (bool_decide (o = Some domain)).

(** The loop of [take_pending_any], from vector index [i] on. *)
Fixpoint take_loop (fuel : nat) (i mask domain : Z) (q : irq_state) : res (option Z * irq_state) :=
  match fuel with
  | O => mret (None, q)
  | S fuel =>
      if Z.land mask (Z.shiftl 1 i) =? 0 then take_loop fuel (i + 1) mask domain q
      else
        let vector := MSI_VECTOR_BASE + i in
        o ← index (VECTORS q) vector;
        if negb (bool_decide (o = Some domain)) then take_loop fuel (i + 1) mask domain q
        else
          p ← index (PENDING q) vector;
          if p : bool then
            pend ← index_set (PENDING q) vector false;
            mret (Some vector, mk_irq (HANDLERS q) (VECTORS q) pend (ANY_MASK q))
          else take_loop fuel (i + 1) mask domain q
  end.

Definition take_pending_any (mask domain : Z) (q : irq_state) : res (option Z * irq_state) :=
  take_loop (Z.to_nat MSI_VECTOR_COUNT) 0 mask domain q.

Definition set_any_mask (domain mask : Z) (q : irq_state) : bool * irq_state :=
  if ANY_MAX_DOMAINS <=? domain then (false, q)
  else (true, mk_irq (HANDLERS q) (VECTORS q) (PENDING q) (insertZ (ANY_MASK q) domain mask)).

Definition clear_any_mask (domain : Z) (q : irq_state) : irq_state :=
  if domain <? ANY_MAX_DOMAINS then
    mk_irq (HANDLERS q) (VECTORS q) (PENDING q) (insertZ (ANY_MASK q) domain 0)
  else q.

(** The domains whose mask contains [bit], in increasing order. *)
Definition hit_domains (bit : Z) (masks : list Z) : list Z :=
  filter (fun d => match lookupZ masks d with Some m => negb (Z.land m bit =? 0) | None => false end = true)
         (seqZ 0 (Z.of_nat (length masks))).

Definition set_pending (vector : Z) (q : irq_state) (s : Scheduler) : res (irq_state * Scheduler) :=
  o ← index (VECTORS q) vector;
  match o with
  | None => mret (q, s)
  | Some _ =>
      pend ← index_set (PENDING q) vector true;
      let q' := mk_irq (HANDLERS q) (VECTORS q) pend (ANY_MASK q) in
      match vector_bit vector with
      | None => mret (q', s)
      | Some bit => mret (q', foldl (fun s d => wake_one (irq_wait_token d) s) s (hit_domains bit (ANY_MASK q)))
      end
  end.

Definition remove_domain (domain : Z) (q : irq_state) : irq_state :=
  let clear := fun slot : option Z => if bool_decide (slot = Some domain) then None else slot in
  mk_irq (clear <$> HANDLERS q) (clear <$> VECTORS q) (PENDING q)
    (if domain <? ANY_MAX_DOMAINS then insertZ (ANY_MASK q) domain 0 else ANY_MASK q).

(** ** Lemmas *)

Definition irq_wf (q : irq_state) : Prop :=
  length (HANDLERS q) = 16%nat /\ length (VECTORS q) = 256%nat /\ length (PENDING q) = 256%nat /\
  Z.of_nat (length (ANY_MASK q)) = ANY_MAX_DOMAINS.

(** Vector [MSI_VECTOR_BASE + i] is selected by the mask, registered by [d] and pending. *)
Definition deliverable (mask d : Z) (q : irq_state) (i : Z) : Prop :=
  Z.land mask (Z.shiftl 1 i) <> 0 /\ lookupZ (VECTORS q) (MSI_VECTOR_BASE + i) = Some (Some d) /\
  lookupZ (PENDING q) (MSI_VECTOR_BASE + i) = Some true.

Lemma take_loop_spec fuel i mask d q :
  irq_wf q -> 0 <= i -> i + Z.of_nat fuel <= MSI_VECTOR_COUNT ->
  exists r q', take_loop fuel i mask d q = Ok (r, q') /\
    match r with
    | Some v => exists k, v = MSI_VECTOR_BASE + k /\ i <= k < i + Z.of_nat fuel /\ deliverable mask d q k /\
                  (forall j, i <= j < k -> ~ deliverable mask d q j) /\
                  q' = mk_irq (HANDLERS q) (VECTORS q) (insertZ (PENDING q) v false) (ANY_MASK q)
    | None => q' = q /\ forall j, i <= j < i + Z.of_nat fuel -> ~ deliverable mask d q j
    end.
Proof.
  intros (_ & Hv & Hp & _). revert i. induction fuel as [|fuel IH]; intros i Hi Hle.
  { exists None, q. split; [done|]. split; [done | lia]. }
  assert (Hskip : ~ deliverable mask d q i -> exists r q', take_loop fuel (i + 1) mask d q = Ok (r, q') /\
    match r with
    | Some v => exists k, v = MSI_VECTOR_BASE + k /\ i <= k < i + Z.of_nat (S fuel) /\ deliverable mask d q k /\
                  (forall j, i <= j < k -> ~ deliverable mask d q j) /\
                  q' = mk_irq (HANDLERS q) (VECTORS q) (insertZ (PENDING q) v false) (ANY_MASK q)
    | None => q' = q /\ forall j, i <= j < i + Z.of_nat (S fuel) -> ~ deliverable mask d q j
    end).
  { intros Hnd. destruct (IH (i + 1)) as (r & q' & E & H); [lia | lia |]. exists r, q'. split; [done|].
    destruct r as [v|].
    - destruct H as (k & -> & Hk & Hd & Hlow & ->). exists k. split; [done|]. split; [lia|]. split; [done|].
      split; [|done]. intros j Hj. destruct (Z.eq_dec j i) as [->|]; [done | apply Hlow; lia].
    - destruct H as [-> Hno]. split; [done|]. intros j Hj.
      destruct (Z.eq_dec j i) as [->|]; [done | apply Hno; lia]. }
  cbn [take_loop]. unfold MSI_VECTOR_COUNT, MSI_VECTOR_BASE in *.
  destruct (Z.eqb_spec (Z.land mask (Z.shiftl 1 i)) 0) as [E|E]; [apply Hskip; intros (? & _); done|].
  destruct (lookupZ (VECTORS q) (0x50 + i)) as [o|] eqn:Eo; [|apply lookupZ_None in Eo; lia].
  destruct (lookupZ (PENDING q) (0x50 + i)) as [p|] eqn:Ep; [|apply lookupZ_None in Ep; lia].
  unfold index. rewrite Eo, Ep. cbn [expect mbind res_bind].
  destruct (bool_decide_reflect (o = Some d)) as [->|Ho]; cbn [negb].
  2:{ apply Hskip. intros (_ & ? & _). unfold MSI_VECTOR_BASE in *. congruence. }
  destruct p.
  - exists (Some (0x50 + i)). eexists. unfold index_set.
    rewrite (proj2 (Z.leb_le _ _)), (proj2 (Z.ltb_lt _ _)) by lia. cbn [andb mbind res_bind]. split; [done|].
    exists i. split; [done|]. split; [lia|]. split; [done|]. split; [lia | done].
  - apply Hskip. intros (_ & _ & ?). unfold MSI_VECTOR_BASE in *. congruence.
Qed.

Lemma irq_wf_pending q l : irq_wf q -> length l = length (PENDING q) ->
  irq_wf (mk_irq (HANDLERS q) (VECTORS q) l (ANY_MASK q)).
Proof. intros (? & ? & ? & ?) Hl. split; [done|]. split; [done|]. cbn. split; [congruence | done]. Qed.

Lemma hit_domains_spec bit masks d :
  d ∈ hit_domains bit masks <-> exists m, lookupZ masks d = Some m /\ Z.land m bit <> 0.
Proof.
  unfold hit_domains. rewrite list_elem_of_filter, elem_of_seqZ.
  destruct (lookupZ masks d) as [m|] eqn:E; [|naive_solver]. rewrite negb_true_iff, Z.eqb_neq. split.
  - intros [H _]. eauto.
  - intros (m' & [= <-] & H). split; [done|]. apply lookupZ_Some in E as [H0 E]. apply lookup_lt_Some in E. lia.
Qed.

Lemma foldl_wake ds s :
  foldl (fun s d => wake_one (irq_wait_token d) s) s ds = foldl (fun s k => wake_one k s) s (irq_wait_token <$> ds).
Proof. revert s. induction ds as [|d ds IH]; intros s; [done|]. cbn. apply IH. Qed.

Lemma vector_bit_in v :
  MSI_VECTOR_BASE <= v < MSI_VECTOR_BASE + MSI_VECTOR_COUNT -> vector_bit v = Some (Z.shiftl 1 (v - MSI_VECTOR_BASE)).
Proof.
  intros Hv. unfold vector_bit. by rewrite (proj2 (Z.leb_le _ _)), (proj2 (Z.ltb_lt _ _)) by lia.
Qed.

Lemma land_bit_neq i j : 0 <= i -> 0 <= j -> Z.land (Z.shiftl 1 i) (Z.shiftl 1 j) <> 0 -> i = j.
Proof.
  intros Hi Hj H. destruct (Z.eq_dec i j) as [|Hne]; [done|]. exfalso. apply H.
  apply Z.bits_inj'. intros n Hn. rewrite Z.land_spec, Z.bits_0, !Z.shiftl_1_l, !Z.pow2_bits_eqb by lia.
  destruct (Z.eqb_spec i n), (Z.eqb_spec j n); try done. congruence.
Qed.

Lemma take_pending_spec mask d q :
  irq_wf q ->
  exists r q', take_pending_any mask d q = Ok (r, q') /\
    match r with
    | Some v => exists k, v = MSI_VECTOR_BASE + k /\ 0 <= k < MSI_VECTOR_COUNT /\ deliverable mask d q k /\
                  (forall j, 0 <= j < k -> ~ deliverable mask d q j) /\
                  q' = mk_irq (HANDLERS q) (VECTORS q) (insertZ (PENDING q) v false) (ANY_MASK q)
    | None => q' = q /\ forall j, 0 <= j < MSI_VECTOR_COUNT -> ~ deliverable mask d q j
    end.
Proof. intros Hwf. exact (take_loop_spec 16 0 mask d q Hwf ltac:(lia) ltac:(done)). Qed.

(** What firing a registered vector does. *)
Lemma set_pending_registered v d q s :
  irq_wf q -> MSI_VECTOR_BASE <= v < MSI_VECTOR_BASE + MSI_VECTOR_COUNT -> lookupZ (VECTORS q) v = Some (Some d) ->
  set_pending v q s =
  Ok (mk_irq (HANDLERS q) (VECTORS q) (insertZ (PENDING q) v true) (ANY_MASK q),
      foldl (fun s k => wake_one k s) s
        (irq_wait_token <$> hit_domains (Z.shiftl 1 (v - MSI_VECTOR_BASE)) (ANY_MASK q))).
Proof.
  intros (_ & Hlv & Hlp & _) Hv Hreg. unfold set_pending, index. rewrite Hreg. cbn [expect mbind res_bind].
  unfold index_set. unfold MSI_VECTOR_BASE, MSI_VECTOR_COUNT in Hv.
  rewrite (proj2 (Z.leb_le _ _)), (proj2 (Z.ltb_lt _ _)) by lia. cbn [andb mbind res_bind].
  rewrite vector_bit_in by (unfold MSI_VECTOR_COUNT, MSI_VECTOR_BASE; lia). by rewrite foldl_wake.
Qed.

(** Taking the only bit of a vector that is not pending yields nothing. *)
Lemma take_single_none k d q :
  irq_wf q -> 0 <= k -> lookupZ (PENDING q) (MSI_VECTOR_BASE + k) = Some false ->
  take_pending_any (Z.shiftl 1 k) d q = Ok (None, q).
Proof.
  intros Hwf Hk Hp. destruct (take_pending_spec (Z.shiftl 1 k) d q Hwf) as ([w|] & q3 & E3 & H3);
    [|by destruct H3 as [-> _]].
  exfalso. destruct H3 as (i & -> & Hi & (Hi1 & _ & Hi3) & _).
  apply land_bit_neq in Hi1; [|lia|lia]. subst i. congruence.
Qed.

(** A take by the registrant of a pending selected vector succeeds. *)
Lemma take_after_pending mask d q i :
  irq_wf q -> 0 <= i < MSI_VECTOR_COUNT -> deliverable mask d q i ->
  exists w q2, take_pending_any mask d q = Ok (Some w, q2) /\ w <= MSI_VECTOR_BASE + i /\
    lookupZ (VECTORS q) w = Some (Some d) /\
    take_pending_any (Z.shiftl 1 (w - MSI_VECTOR_BASE)) d q2 = Ok (None, q2).
Proof.
  intros Hwf Hi Hdel. destruct (take_pending_spec mask d q Hwf) as ([w|] & q2 & E & H).
  2:{ exfalso. destruct H as [_ Hno]. by apply (Hno i). }
  destruct H as (k & -> & Hk & (Hk1 & Hk2 & Hk3) & Hlow & ->).
  exists (MSI_VECTOR_BASE + k). eexists. split; [exact E|]. split; [|split; [exact Hk2|]].
  - destruct (Z_le_gt_dec k i); [lia|]. exfalso. apply (Hlow i); [lia | done].
  - replace (MSI_VECTOR_BASE + k - MSI_VECTOR_BASE) with k by lia.
    apply take_single_none; [apply irq_wf_pending; [done | apply length_insertZ] | lia |].
    cbn [PENDING]. apply lookupZ_insertZ_eq. eauto.
Qed.

(** An MSI interrupt is neither lost nor duplicated. When vector [v], registered by domain
    [d], fires: the task of [d] blocked in [SYS_IRQ_WAIT] with a mask that contains [v] becomes
    ready; the next take by [d] with such a mask yields a vector, and only vectors registered by
    [d]; the vector taken is no longer pending, so a second take of it fails; and no other domain
    can take [v]. *)
Theorem irq_delivered_once q s v d mask :
  irq_wf q -> MSI_VECTOR_BASE <= v < MSI_VECTOR_BASE + MSI_VECTOR_COUNT ->
  lookupZ (VECTORS q) v = Some (Some d) -> Z.land mask (Z.shiftl 1 (v - MSI_VECTOR_BASE)) <> 0 ->
  exists q1 s1, set_pending v q s = Ok (q1, s1) /\
    (forall j, lookupZ (ANY_MASK q) d = Some mask -> sole_waiter s (irq_wait_token d) j -> is_ready_at s1 j) /\
    (exists w q2, take_pending_any mask d q1 = Ok (Some w, q2) /\ w <= v /\
       lookupZ (VECTORS q) w = Some (Some d) /\
       take_pending_any (Z.shiftl 1 (w - MSI_VECTOR_BASE)) d q2 = Ok (None, q2)) /\
    (forall d' m w q2, d' <> d -> take_pending_any m d' q1 = Ok (Some w, q2) -> w <> v).
Proof.
  intros Hwf Hv Hreg Hm. rewrite (set_pending_registered v d q s Hwf Hv Hreg).
  set (q1 := mk_irq _ _ _ _).
  assert (Hwf1 : irq_wf q1) by (apply irq_wf_pending; [done | apply length_insertZ]).
  eexists q1, _. split; [reflexivity|]. split; [|split].
  - intros j Hmask Hsole. eapply wake_keys_sole; [|exact Hsole].
    apply list_elem_of_fmap. exists d. split; [reflexivity|]. apply hit_domains_spec. eauto.
  - destruct (take_after_pending mask d q1 (v - MSI_VECTOR_BASE) Hwf1 ltac:(lia)) as (w & q2 & H1 & H2 & H3 & H4).
    + split; [done|]. rewrite Zplus_minus. split; [done|]. cbn [PENDING q1]. apply lookupZ_insertZ_eq.
      destruct (lookupZ (PENDING q) v) eqn:E; [eauto|]. apply lookupZ_None in E. destruct Hwf as (_ & _ & Hlp & _).
      unfold MSI_VECTOR_COUNT, MSI_VECTOR_BASE in Hv. lia.
    + rewrite Zplus_minus in H2. exists w, q2. split; [exact H1|]. split; [exact H2|]. split; [exact H3 | exact H4].
  - intros d' m w q2 Hne E. destruct (take_pending_spec m d' q1 Hwf1) as (r & q3 & E' & H).
    rewrite E in E'. injection E' as <- <-. destruct H as (k & -> & _ & (_ & Hk & _) & _).
    cbn [VECTORS q1] in Hk. intros <-. congruence.
Qed.

(** Domain 3 waits for vectors 0x50 and 0x51, of which 0x51 fires. *)
Definition sample_irq : irq_state :=
  snd (set_any_mask 3 3 (mk_irq (replicate 16 None) (insertZ (insertZ (replicate 256 None) 0x50 (Some 3)) 0x51 (Some 3))
    (replicate 256 false) (replicate 64 0))).

Lemma irq_delivered_once_witness :
  exists q1 s1, set_pending 0x51 sample_irq sample_sched = Ok (q1, s1) /\
    exists w q2, take_pending_any 3 3 q1 = Ok (Some w, q2) /\ w <= 0x51.
Proof.
  destruct (irq_delivered_once sample_irq sample_sched 0x51 3 3) as (q1 & s1 & H1 & _ & (w & q2 & H2 & H3 & _) & _).
  - repeat split; vm_compute; reflexivity.
  - vm_compute. split; [discriminate | reflexivity].
  - vm_compute. reflexivity.
  - vm_compute. discriminate.
  - exists q1, s1. split; [exact H1|]. exists w, q2. split; [exact H2 | exact H3].
Defined.
