(* ===== verification/Kernel.v ===== *)
(** * The kernel state and the monad of kernel code

    The global tables of the kernel (each a [static] behind a lock in the source) in one record.
    Kernel code runs with interrupts disabled on one processor, so an operation is a function
    from state to state; [Panic] is a Rust panic, after which the machine halts. *)

From S2P Require Import Prelude Cap Key Klog Frames Sched Net Pager Irq.

(** ** Messages and domains *)

Definition PAYLOAD_LEN : Z := 96.

Record Message : Type := mk_message { from : Z; to : Z; tag : Z; payload : list Z }.

Record Domain : Type := mk_domain { dom_id : Z; pml4 : Z }.

(** ** The state *)

Record kernel : Type := mk_kernel {
  k_caps : cap_state;
  k_sched : Scheduler;
  k_boxes : list (list Message);         (* ipc::MAILBOXES *)
  k_pagers : list (option Z);
  k_irq : irq_state;
  k_net : list Binding;
  k_keys : KeyQueue;
  k_log : klog;
  k_frames : frames;
  k_mem : Z -> Z;                        (* physical memory, one byte per address *)
  k_domains : list (option Domain);      (* domain::DOMAINS *)
  k_pending : list Z;                    (* domain::PENDING *)
}.

Definition set_caps (k : kernel) (x : cap_state) : kernel :=
  mk_kernel x (k_sched k) (k_boxes k) (k_pagers k) (k_irq k) (k_net k) (k_keys k) (k_log k) (k_frames k)
    (k_mem k) (k_domains k) (k_pending k).
Definition set_sched (k : kernel) (x : Scheduler) : kernel :=
  mk_kernel (k_caps k) x (k_boxes k) (k_pagers k) (k_irq k) (k_net k) (k_keys k) (k_log k) (k_frames k)
    (k_mem k) (k_domains k) (k_pending k).
Definition set_boxes (k : kernel) (x : list (list Message)) : kernel :=
  mk_kernel (k_caps k) (k_sched k) x (k_pagers k) (k_irq k) (k_net k) (k_keys k) (k_log k) (k_frames k)
    (k_mem k) (k_domains k) (k_pending k).
Definition set_pagers (k : kernel) (x : list (option Z)) : kernel :=
  mk_kernel (k_caps k) (k_sched k) (k_boxes k) x (k_irq k) (k_net k) (k_keys k) (k_log k) (k_frames k)
    (k_mem k) (k_domains k) (k_pending k).
Definition set_irq (k : kernel) (x : irq_state) : kernel :=
  mk_kernel (k_caps k) (k_sched k) (k_boxes k) (k_pagers k) x (k_net k) (k_keys k) (k_log k) (k_frames k)
    (k_mem k) (k_domains k) (k_pending k).
Definition set_net (k : kernel) (x : list Binding) : kernel :=
  mk_kernel (k_caps k) (k_sched k) (k_boxes k) (k_pagers k) (k_irq k) x (k_keys k) (k_log k) (k_frames k)
    (k_mem k) (k_domains k) (k_pending k).
Definition set_keys (k : kernel) (x : KeyQueue) : kernel :=
  mk_kernel (k_caps k) (k_sched k) (k_boxes k) (k_pagers k) (k_irq k) (k_net k) x (k_log k) (k_frames k)
    (k_mem k) (k_domains k) (k_pending k).
Definition set_frames (k : kernel) (x : frames) : kernel :=
  mk_kernel (k_caps k) (k_sched k) (k_boxes k) (k_pagers k) (k_irq k) (k_net k) (k_keys k) (k_log k) x
    (k_mem k) (k_domains k) (k_pending k).
Definition set_mem (k : kernel) (x : Z -> Z) : kernel :=
  mk_kernel (k_caps k) (k_sched k) (k_boxes k) (k_pagers k) (k_irq k) (k_net k) (k_keys k) (k_log k) (k_frames k)
    x (k_domains k) (k_pending k).
Definition set_domains (k : kernel) (x : list (option Domain)) : kernel :=
  mk_kernel (k_caps k) (k_sched k) (k_boxes k) (k_pagers k) (k_irq k) (k_net k) (k_keys k) (k_log k) (k_frames k)
    (k_mem k) x (k_pending k).
Definition set_pending_destroy (k : kernel) (x : list Z) : kernel :=
  mk_kernel (k_caps k) (k_sched k) (k_boxes k) (k_pagers k) (k_irq k) (k_net k) (k_keys k) (k_log k) (k_frames k)
    (k_mem k) (k_domains k) x.

(** ** The monad *)

Definition M (A : Type) : Type := kernel -> res (A * kernel).

#[export] Instance M_ret : MRet M := fun _ a k => Ok (a, k).
#[export] Instance M_bind : MBind M :=
  fun _ _ f m k => match m k with Ok (a, k') => f a k' | Panic => Panic end.

Definition gets {A} (f : kernel -> A) : M A := fun k => Ok (f k, k).
Definition modify (f : kernel -> kernel) : M unit := fun k => Ok (tt, f k).
Definition panic {A} : M A := fun _ => Panic.
(** An operation that may panic, on a value read from the state. *)
Definition try {A} (f : kernel -> res A) : M A := fun k => a ← f k; Ok (a, k).

Definition step {A} (f : kernel -> res (A * kernel)) : M A := f.

(** Operations of one component, lifted to the kernel. *)
Definition on_caps {A} (f : cap_state -> A * cap_state) : M A :=
  fun k => let '(a, x) := f (k_caps k) in Ok (a, set_caps k x).
Definition on_caps_res {A} (f : cap_state -> res (A * cap_state)) : M A :=
  fun k => match f (k_caps k) with Ok (a, x) => Ok (a, set_caps k x) | Panic => Panic end.
Definition on_sched (f : Scheduler -> res Scheduler) : M unit :=
  fun k => match f (k_sched k) with Ok x => Ok (tt, set_sched k x) | Panic => Panic end.
Definition on_frames {A} (f : frames -> A * frames) : M A :=
  fun k => let '(a, x) := f (k_frames k) in Ok (a, set_frames k x).
Definition on_keys {A} (f : KeyQueue -> res (A * KeyQueue)) : M A :=
  fun k => match f (k_keys k) with Ok (a, x) => Ok (a, set_keys k x) | Panic => Panic end.
Definition on_irq {A} (f : irq_state -> res (A * irq_state)) : M A :=
  fun k => match f (k_irq k) with Ok (a, x) => Ok (a, set_irq k x) | Panic => Panic end.

Definition current_domain : M Z := try (fun k => Sched.current_domain (k_sched k)).
Definition has_cap (d : Z) (c : Capability) : M bool := try (fun k => has d c (k_caps k)).
Definition wake (key : Z) : M unit := modify (fun k => set_sched k (wake_one key (k_sched k))).

(** Effects outside the kernel state: bytes stored at a virtual address the caller gave, and
    writes to I/O ports. *)
Inductive output : Type :=
| Store (addr : Z) (bytes : list Z)
| PortOut (width port v : Z).

(** What a system call does when it ends: return a value with its outputs, or leave the
    processor to another task. *)
Inductive sysres : Type :=
| Return (v : Z) (out : list output)
| Switched.

Definition ret (v : Z) : M sysres := mret (Return v []).
Definition b2z (b : bool) : Z := if b then 1 else 0.

(** ** Lemmas on the monad *)

Lemma M_bind_ok {A B} (m : M A) (f : A -> M B) k b k' :
  (m ≫= f) k = Ok (b, k') <-> exists a k1, m k = Ok (a, k1) /\ f a k1 = Ok (b, k').
Proof.
  unfold mbind, M_bind. destruct (m k) as [[a k1]|]; split.
  - eauto.
  - intros (a' & k1' & [= <- <-] & H). exact H.
  - discriminate.
  - by intros (? & ? & ? & _).
Qed.

Lemma bind_gets {A B} (f : kernel -> A) (g : A -> M B) k : (gets f ≫= g) k = g (f k) k.
Proof. reflexivity. Qed.

Lemma bind_modify {B} (f : kernel -> kernel) (g : unit -> M B) k : (modify f ≫= g) k = g tt (f k).
Proof. reflexivity. Qed.

(** ** Operations related to a preorder on states

    [transforms R m]: every run of [m] that does not panic takes the state to an [R]-later one. *)

Definition transforms {A} (R : relation kernel) (m : M A) : Prop :=
  forall k a k', m k = Ok (a, k') -> R k k'.

Section transforms.
Context (R : relation kernel) `{!PreOrder R}.

Lemma transforms_bind {A B} (m : M A) (f : A -> M B) :
  transforms R m -> (forall a, transforms R (f a)) -> transforms R (m ≫= f).
Proof using PreOrder0.
  intros Hm Hf k b k' E. apply M_bind_ok in E as (a & k1 & H1 & H2).
  transitivity k1; [exact (Hm _ _ _ H1) | exact (Hf _ _ _ _ H2)].
Qed.

Lemma transforms_ret {A} (a : A) : transforms R (mret a).
Proof using PreOrder0. intros k b k' [= <- <-]. reflexivity. Qed.

Lemma transforms_gets {A} (f : kernel -> A) : transforms R (gets f).
Proof using PreOrder0. intros k b k' [= <- <-]. reflexivity. Qed.

Lemma transforms_try {A} (f : kernel -> res A) : transforms R (try f).
Proof using PreOrder0. intros k b k' E. unfold try in E. destruct (f k); [|done]. injection E as <- <-. reflexivity. Qed.

Lemma transforms_panic {A} : transforms R (@panic A).
Proof using. by intros k b k' E. Qed.

Lemma transforms_modify (f : kernel -> kernel) : (forall k, R k (f k)) -> transforms R (modify f).
Proof using. intros Hf k b k' [= <- <-]. apply Hf. Qed.

Lemma transforms_caps {A} (f : cap_state -> A * cap_state) :
  (forall k x, R k (set_caps k x)) -> transforms R (on_caps f).
Proof using. intros Hf k b k' E. unfold on_caps in E. destruct (f (k_caps k)). injection E as <- <-. apply Hf. Qed.

Lemma transforms_sched (f : Scheduler -> res Scheduler) :
  (forall k x, R k (set_sched k x)) -> transforms R (on_sched f).
Proof using. intros Hf k b k' E. unfold on_sched in E. destruct (f (k_sched k)); [|done]. injection E as <- <-. apply Hf. Qed.

Lemma transforms_frames {A} (f : frames -> A * frames) :
  (forall k x, R k (set_frames k x)) -> transforms R (on_frames f).
Proof using. intros Hf k b k' E. unfold on_frames in E. destruct (f (k_frames k)). injection E as <- <-. apply Hf. Qed.

Lemma transforms_irq {A} (f : irq_state -> res (A * irq_state)) :
  (forall k x, R k (set_irq k x)) -> transforms R (on_irq f).
Proof using. intros Hf k b k' E. unfold on_irq in E. destruct (f (k_irq k)) as [[? ?]|]; [|done]. injection E as <- <-. apply Hf. Qed.

Lemma transforms_keys {A} (f : KeyQueue -> res (A * KeyQueue)) :
  (forall k x, R k (set_keys k x)) -> transforms R (on_keys f).
Proof using. intros Hf k b k' E. unfold on_keys in E. destruct (f (k_keys k)) as [[? ?]|]; [|done]. injection E as <- <-. apply Hf. Qed.

End transforms.

(** Decompose a program; the leaves are closed by the database [preserve], or left. *)
Ltac transform :=
  repeat match goal with
  | |- transforms _ (mret _) => apply transforms_ret; exact _
  | |- transforms _ (ret _) => apply transforms_ret; exact _
  | |- transforms _ (gets _) => apply transforms_gets; exact _
  | |- transforms _ (try _) => apply transforms_try; exact _
  | |- transforms _ panic => apply transforms_panic
  | |- transforms _ _ => solve [auto with preserve nocore]
  | |- transforms _ (_ ≫= _) => apply transforms_bind; [exact _| |intros ?]
  | |- transforms _ (match ?x with _ => _ end) => destruct x
  end.

(** ** A sample state: four domains, the task of domain 0 running *)

Definition sample_kernel : kernel :=
  mk_kernel
    (match grant 0 (SendTo 1) (Cap.init 4) with Ok (_, c) => c | Panic => Cap.init 4 end)
    sample_sched (replicate 4 []) (Pager.init 4 2) irq_boot [] Key.new klog_init (sample_frames [5; 6; 7; 9])
    (fun _ => 0)
    [Some (mk_domain 0 0x1000); Some (mk_domain 1 0x2000); Some (mk_domain 2 0x3000); Some (mk_domain 3 0x4000)] [].
