(* ===== verification/Ipc.v ===== *)
(** * Inter-domain messages (kernel/src/ipc.rs)

    Mailboxes indexed by domain id; [send] is gated by a capability. The two blocking
    operations are split at the points where the task is switched away: [receive] re-enters at
    the top of its loop ([RReceive]), [call] after its blocking call ([RCall]). *)

From S2P Require Import Prelude Cap Key Klog Frames Sched Net Pager Irq Kernel.

Definition MAILBOX_CAP : Z := 16.
Definition CALL_POLL_MS : Z := 200.

Definition init (domain_count : nat) : M unit := modify (fun k => set_boxes k (replicate domain_count [])).

Definition set_mailbox (id : Z) (box : list Message) : M unit :=
  modify (fun k => set_boxes k (insertZ (grow_to (k_boxes k) id []) id box)).

Definition add_domain (id : Z) : M unit := set_mailbox id [].
Definition remove_domain (id : Z) : M unit := set_mailbox id [].

(** [payload: [0; PAYLOAD_LEN]] and the copy of the first [min(len, PAYLOAD_LEN)] bytes. *)
Definition fill_payload (p : list Z) : list Z :=
  let n := Nat.min (length p) (Z.to_nat PAYLOAD_LEN) in
  take n p ++ replicate (Z.to_nat PAYLOAD_LEN - n) 0.

(** [boxes[to].push_back(msg)], unless the box is full. *)
Definition push_capped (d : Z) (msg : Message) : M bool :=
  fun k =>
    box ← index (k_boxes k) d;
    if MAILBOX_CAP <=? Z.of_nat (length box) then Ok (false, k)
    else Ok (true, set_boxes k (insertZ (k_boxes k) d (box ++ [msg]))).

(** [boxes[to].push_back(msg)]. *)
Definition push_back (d : Z) (msg : Message) : M unit :=
  fun k => box ← index (k_boxes k) d; Ok (tt, set_boxes k (insertZ (k_boxes k) d (box ++ [msg]))).

Definition send (to tag : Z) (p : list Z) : M bool :=
  from ← current_domain;
  allowed ← has_cap from (SendTo to);
  if negb allowed then mret false
  else
    ok ← push_capped to (mk_message from to tag (fill_payload p));
    if ok : bool then _ ← wake to; mret true else mret false.

Definition deliver (from to tag : Z) (p : list Z) : M bool :=
  ok ← push_capped to (mk_message from to tag (fill_payload p));
  if ok : bool then _ ← wake to; mret true else mret false.

(** [boxes[me].pop_front()]. *)
Definition pop_front (d : Z) : M (option Message) :=
  fun k =>
    box ← index (k_boxes k) d;
    match box with
    | [] => Ok (None, k)
    | m :: rest => Ok (Some m, set_boxes k (insertZ (k_boxes k) d rest))
    end.

Definition set_reply (target : Z) : M unit := on_sched (set_current_reply_target target).

(** One turn of the loop of [receive], called from SYS_RECV(a1): the message, or [None] when
    the task was blocked and switched away. *)
Definition receive (a1 : Z) : M (option Message) :=
  me ← current_domain;
  got ← pop_front me;
  match got with
  | Some msg => _ ← set_reply (from msg); mret (Some msg)
  | None => _ ← on_sched (block_current (RReceive a1) me); mret None
  end.

Definition try_receive : M (option Message) :=
  me ← current_domain;
  got ← pop_front me;
  match got with
  | Some msg => _ ← set_reply (from msg); mret (Some msg)
  | None => mret None
  end.

Definition failed : Message := mk_message 0 0 U64_MAX (replicate (Z.to_nat PAYLOAD_LEN) 0).

(** [call] up to its first blocking: the failure message, or [None] once it waits. *)
Definition call (to tag : Z) (p : list Z) : M (option Message) :=
  me ← current_domain;
  allowed ← has_cap me (SendTo to);
  if negb allowed then mret (Some failed)
  else
    live ← gets (fun k => live_tasks to (k_sched k));
    if live =? 0 then mret (Some failed)
    else
      _ ← push_back to (mk_message me to tag (fill_payload p));
      _ ← wake to;
      _ ← on_sched (block_current_timeout_ms (RCall to) me CALL_POLL_MS);
      mret None.

(** [mbox.iter().position(|m| m.from == to)] and [mbox.remove(i)]. *)
Definition take_from (peer : Z) (box : list Message) : option (Message * list Message) :=
  match position (fun m => from m =? peer) box with
  | Some i => match box !! i with Some m => Some (m, take i box ++ drop (S i) box) | None => None end
  | None => None
  end.

Definition take_reply (me peer : Z) : M (option Message) :=
  fun k =>
    box ← index (k_boxes k) me;
    match take_from peer box with
    | Some (m, rest) => Ok (Some m, set_boxes k (insertZ (k_boxes k) me rest))
    | None => Ok (None, k)
    end.

(** The loop of [call] after the task blocked and was switched to again. *)
Definition call_resume (to : Z) : M (option Message) :=
  me ← current_domain;
  reply ← take_reply me to;
  match reply with
  | Some r => mret (Some r)
  | None =>
      live ← gets (fun k => live_tasks to (k_sched k));
      if live =? 0 then mret (Some failed)
      else _ ← on_sched (block_current_timeout_ms (RCall to) me CALL_POLL_MS); mret None
  end.

Definition reply (tag : Z) (p : list Z) : M bool :=
  me ← current_domain;
  target ← try (fun k => current_reply_target (k_sched k));
  if target =? U64_MAX then mret false
  else
    _ ← push_back target (mk_message me target tag (fill_payload p));
    _ ← wake target;
    mret true.

(** [irq::dispatch]: a PIC interrupt becomes a message to the registered driver. *)
Definition dispatch (irq data : Z) : M unit :=
  h ← try (fun k => index (HANDLERS (k_irq k)) irq);
  match h with
  | Some domain => _ ← deliver 0 domain data []; mret tt
  | None => mret tt
  end.

(** [pager::deliver_fault]; the result of [deliver] is ignored. *)
Definition deliver_fault (pager : Z) (info : PageFaultInfo) : M unit :=
  _ ← deliver (fault_domain info) pager FAULT_TAG (fault_payload info); mret tt.

(** ** Mailboxes as seen from outside *)

Definition mailbox (k : kernel) (d : Z) : list Message := default [] (lookupZ (k_boxes k) d).

(** Messages of sender [s] in a list. *)
Definition sent_by (s : Z) (l : list Message) : list Message := filter (fun m => from m = s) l.

Lemma length_fill_payload p : length (fill_payload p) = Z.to_nat PAYLOAD_LEN.
Proof.
  unfold fill_payload. rewrite length_app, length_take, length_replicate. lia.
Qed.

Lemma mailbox_insert k d d' box :
  is_Some (lookupZ (k_boxes k) d) ->
  mailbox (set_boxes k (insertZ (k_boxes k) d box)) d' = if decide (d' = d) then box else mailbox k d'.
Proof.
  intros Hd. unfold mailbox. cbn [k_boxes set_boxes]. case_decide; [subst; by rewrite lookupZ_insertZ_eq|].
  by rewrite lookupZ_insertZ_ne by congruence.
Qed.

Lemma mailbox_sched k s d : mailbox (set_sched k s) d = mailbox k d.
Proof. done. Qed.

Lemma current_domain_ok k me k' :
  current_domain k = Ok (me, k') <-> k' = k /\ Sched.current_domain (k_sched k) = Ok me.
Proof.
  unfold current_domain, try. destruct (Sched.current_domain (k_sched k)); cbn; split;
    [intros [= <- <-]; done | intros [-> [= <-]]; done | done | by intros [_ ?]].
Qed.

Lemma has_cap_ok k d c b k' : has_cap d c k = Ok (b, k') <-> k' = k /\ has d c (k_caps k) = Ok b.
Proof.
  unfold has_cap, try. destruct (has d c (k_caps k)); cbn; split;
    [intros [= <- <-]; done | intros [-> [= <-]]; done | done | by intros [_ ?]].
Qed.

Lemma push_back_ok k d m u k' :
  push_back d m k = Ok (u, k') <->
  exists box, lookupZ (k_boxes k) d = Some box /\ k' = set_boxes k (insertZ (k_boxes k) d (box ++ [m])).
Proof.
  unfold push_back, index. destruct u, (lookupZ (k_boxes k) d) as [box|]; cbn; split.
  - intros [= <-]. eauto.
  - intros (b & [= <-] & ->). done.
  - done.
  - by intros (b & ? & _).
Qed.

Lemma push_capped_ok k d m ok k' :
  push_capped d m k = Ok (ok, k') ->
  exists box, lookupZ (k_boxes k) d = Some box /\
    if ok then Z.of_nat (length box) < MAILBOX_CAP /\ k' = set_boxes k (insertZ (k_boxes k) d (box ++ [m]))
    else MAILBOX_CAP <= Z.of_nat (length box) /\ k' = k.
Proof.
  unfold push_capped, index. destruct (lookupZ (k_boxes k) d) as [box|]; [|done]. cbn. intros H. exists box.
  split; [done|]. destruct (Z.leb_spec MAILBOX_CAP (Z.of_nat (length box))); injection H as <- <-; done.
Qed.

Lemma pop_front_ok k d o k' :
  pop_front d k = Ok (o, k') ->
  exists box, lookupZ (k_boxes k) d = Some box /\
    match o with
    | None => box = [] /\ k' = k
    | Some m => exists rest, box = m :: rest /\ k' = set_boxes k (insertZ (k_boxes k) d rest)
    end.
Proof.
  unfold pop_front, index. destruct (lookupZ (k_boxes k) d) as [box|]; [|done]. cbn. intros H. exists box.
  split; [done|]. destruct box as [|m rest]; injection H as <- <-; eauto.
Qed.

Lemma on_sched_ok f k u k' :
  on_sched f k = Ok (u, k') <-> exists s, f (k_sched k) = Ok s /\ k' = set_sched k s.
Proof.
  unfold on_sched. destruct u, (f (k_sched k)); split;
    [intros [= <-]; eauto | intros (s & [= <-] & ->); done | done | by intros (s & ? & _)].
Qed.

(** ** Sending *)

(** The mailbox and the wake-up part that the sending operations share. *)
Definition enqueued (k : kernel) (d : Z) (m : Message) : kernel :=
  set_sched (set_boxes k (insertZ (k_boxes k) d (mailbox k d ++ [m]))) (wake_one d (k_sched k)).

Lemma capped_wake_ok k d m b k' :
  (ok ← push_capped d m; if ok : bool then _ ← wake d; mret true else mret false) k = Ok (b, k') ->
  is_Some (lookupZ (k_boxes k) d) /\
  (b = true <-> Z.of_nat (length (mailbox k d)) < MAILBOX_CAP) /\ k' = if b then enqueued k d m else k.
Proof.
  intros H. apply M_bind_ok in H as (ok & k1 & H1 & H2). apply push_capped_ok in H1 as (box & Hb & H1).
  assert (Hm : mailbox k d = box) by (unfold mailbox; by rewrite Hb).
  split; [eauto|]. rewrite Hm. destruct ok; destruct H1 as [Hlen ->].
  - apply M_bind_ok in H2 as (u & k2 & H2 & H3). injection H2 as <- <-. injection H3 as <- <-.
    split; [done|]. unfold enqueued. by rewrite Hm.
  - injection H2 as <- <-. split; [split; [done | lia] | done].
Qed.

Lemma send_ok k to tag p b k' me :
  Sched.current_domain (k_sched k) = Ok me -> send to tag p k = Ok (b, k') ->
  (b = true <-> held (k_caps k) me (SendTo to) /\ Z.of_nat (length (mailbox k to)) < MAILBOX_CAP) /\
  (b = true -> is_Some (lookupZ (k_boxes k) to)) /\
  k' = if b then enqueued k to (mk_message me to tag (fill_payload p)) else k.
Proof.
  intros Hme H. unfold send in H. apply M_bind_ok in H as (me' & k1 & H1 & H).
  apply current_domain_ok in H1 as [-> H1]. rewrite Hme in H1. injection H1 as <-.
  apply M_bind_ok in H as (al & k1 & H1 & H). apply has_cap_ok in H1 as [-> H1].
  apply has_spec in H1. destruct al; cbn [negb] in H.
  - apply capped_wake_ok in H as (Hs & Hb & ->). split; [|done].
    rewrite Hb. split; [intros ?; split; [by apply H1 | done] | tauto].
  - injection H as <- <-. split; [|done]. split; [done|]. intros [Hh _]. apply H1 in Hh. discriminate.
Qed.

(** ** Observing the mailboxes *)

Inductive label : Type :=
| Accept (d : Z) (m : Message)     (* message [m] entered the mailbox of [d] *)
| Take (d : Z) (m : Message)       (* domain [d] took message [m] *)
| Drop (d : Z) (l : list Message). (* the mailbox of [d] was emptied; [l] were in it *)

(** Every operation of this module that moves messages, with what it puts in or hands out;
    [is_other] is any kernel activity that leaves the mailboxes alone. (Mailboxes are emptied with
    their domains: Mail.) *)
Inductive ipc_step : kernel -> list label -> kernel -> Prop :=
| is_send k me to tag p b k' :
    Sched.current_domain (k_sched k) = Ok me -> send to tag p k = Ok (b, k') ->
    ipc_step k (if b then [Accept to (mk_message me to tag (fill_payload p))] else []) k'
| is_deliver k from to tag p b k' :
    deliver from to tag p k = Ok (b, k') ->
    ipc_step k (if b then [Accept to (mk_message from to tag (fill_payload p))] else []) k'
| is_reply k me target tag p b k' :
    Sched.current_domain (k_sched k) = Ok me -> current_reply_target (k_sched k) = Ok target ->
    reply tag p k = Ok (b, k') ->
    ipc_step k (if b then [Accept target (mk_message me target tag (fill_payload p))] else []) k'
| is_call k me to tag p o k' :
    Sched.current_domain (k_sched k) = Ok me -> call to tag p k = Ok (o, k') ->
    ipc_step k (match o with None => [Accept to (mk_message me to tag (fill_payload p))] | Some _ => [] end) k'
| is_receive k me a1 o k' :
    Sched.current_domain (k_sched k) = Ok me -> receive a1 k = Ok (o, k') ->
    ipc_step k (match o with Some m => [Take me m] | None => [] end) k'
| is_try_receive k me o k' :
    Sched.current_domain (k_sched k) = Ok me -> try_receive k = Ok (o, k') ->
    ipc_step k (match o with Some m => [Take me m] | None => [] end) k'
| is_call_resume k me to o k' :
    Sched.current_domain (k_sched k) = Ok me -> call_resume to k = Ok (o, k') ->
    ipc_step k (if decide (sent_by to (mailbox k me) = []) then []
                else match o with Some m => [Take me m] | None => [] end) k'
| is_other k k' : k_boxes k' = k_boxes k -> ipc_step k [] k'.

(** The messages from [s] that entered the mailbox of [d], and those that left it, in order. *)
Definition accepted (s d : Z) (ls : list label) : list Message :=
  ls ≫= fun l => match l with Accept d' m => if decide (d' = d /\ from m = s) then [m] else [] | _ => [] end.
Definition gone (s d : Z) (ls : list label) : list Message :=
  ls ≫= fun l => match l with
                 | Take d' m => if decide (d' = d /\ from m = s) then [m] else []
                 | Drop d' box => if decide (d' = d) then sent_by s box else []
                 | Accept _ _ => []
                 end.

(** What one step does to the mailboxes. *)
Definition effect (k : kernel) (ls : list label) (k' : kernel) : Prop :=
  (ls = [] /\ forall d, mailbox k' d = mailbox k d) \/
  (exists d m, ls = [Accept d m] /\ to m = d /\
     forall d', mailbox k' d' = if decide (d' = d) then mailbox k d ++ [m] else mailbox k d') \/
  (exists d m l1 l2, ls = [Take d m] /\ mailbox k d = l1 ++ m :: l2 /\ Forall (fun x => from x <> from m) l1 /\
     forall d', mailbox k' d' = if decide (d' = d) then l1 ++ l2 else mailbox k d') \/
  (exists d, ls = [Drop d (mailbox k d)] /\ forall d', mailbox k' d' = if decide (d' = d) then [] else mailbox k d').

Lemma effect_enqueued k d m :
  is_Some (lookupZ (k_boxes k) d) -> to m = d -> effect k [Accept d m] (enqueued k d m).
Proof.
  intros Hs Hto. right. left. exists d, m. split; [done|]. split; [done|]. intros d'. unfold enqueued.
  rewrite mailbox_sched. by apply mailbox_insert.
Qed.

Lemma effect_none k k' : k_boxes k' = k_boxes k -> effect k [] k'.
Proof. intros H. left. split; [done|]. intros d. unfold mailbox. by rewrite H. Qed.

Lemma pop_effect k d o k1 k' :
  pop_front d k = Ok (o, k1) -> k_boxes k' = k_boxes k1 ->
  effect k (match o with Some m => [Take d m] | None => [] end) k'.
Proof.
  intros H Hk. apply pop_front_ok in H as (box & Hb & H). destruct o as [m|].
  - destruct H as (rest & -> & ->). right. right. left. exists d, m, [], rest. split; [done|].
    split; [unfold mailbox; by rewrite Hb|]. split; [constructor|]. intros d'.
    assert (mailbox k' d' = mailbox (set_boxes k (insertZ (k_boxes k) d rest)) d') as -> by (unfold mailbox; by rewrite Hk).
    rewrite mailbox_insert by eauto. done.
  - destruct H as [-> ->]. by apply effect_none.
Qed.

Lemma take_from_Some peer box m rest :
  take_from peer box = Some (m, rest) ->
  exists l1 l2, box = l1 ++ m :: l2 /\ rest = l1 ++ l2 /\ from m = peer /\ Forall (fun x => from x <> peer) l1.
Proof.
  unfold take_from. destruct (position _ box) as [i|] eqn:E; [|done].
  apply position_Some in E as [(x & Hx & Hp) Hlow]. rewrite Hx. intros [= <- <-]. apply Z.eqb_eq in Hp.
  exists (take i box), (drop (S i) box). split; [by rewrite take_drop_middle|]. split; [done|]. split; [done|].
  apply Forall_forall. intros y Hy. apply list_elem_of_lookup in Hy as [j Hj].
  apply lookup_take_Some in Hj as [Hj Hlt]. specialize (Hlow j y Hlt Hj). by apply Z.eqb_neq.
Qed.

Lemma take_from_None peer box : take_from peer box = None -> sent_by peer box = [].
Proof.
  unfold take_from. destruct (position _ box) as [i|] eqn:E.
  - apply position_Some in E as [(x & Hx & _) _]. by rewrite Hx.
  - intros _. rewrite position_None in E. unfold sent_by. induction box as [|x box IH]; [done|].
    rewrite filter_cons, decide_False.
    + apply IH. intros i y Hy. exact (E (S i) y Hy).
    + specialize (E 0%nat x eq_refl). by apply Z.eqb_neq.
Qed.

Lemma sent_by_taken peer l1 m l2 : from m = peer -> sent_by peer (l1 ++ m :: l2) <> [].
Proof.
  intros Hm H. unfold sent_by in H. rewrite filter_app, filter_cons, decide_True in H by done.
  by apply app_eq_nil in H as [_ H].
Qed.

Ltac mstep H a k H1 := apply M_bind_ok in H as (a & k & H1 & H).

(** Read the current domain in a computation that starts so. *)
Ltac mcurrent H Hme :=
  let me' := fresh in let k1 := fresh in let H1 := fresh in
  mstep H me' k1 H1; apply current_domain_ok in H1 as [-> H1]; rewrite Hme in H1; injection H1 as <-.

Lemma receive_effect k me o k' a1 :
  Sched.current_domain (k_sched k) = Ok me -> receive a1 k = Ok (o, k') ->
  effect k (match o with Some m => [Take me m] | None => [] end) k'.
Proof.
  intros Hme H. unfold receive in H. mcurrent H Hme. mstep H got k1 H1. destruct got as [m|].
  - mstep H u k2 H2. injection H as <- <-. apply on_sched_ok in H2 as (s & _ & ->). by apply (pop_effect k me (Some m) k1).
  - mstep H u k2 H2. injection H as <- <-. apply on_sched_ok in H2 as (s & _ & ->). by apply (pop_effect k me None k1).
Qed.

Lemma try_receive_effect k me o k' :
  Sched.current_domain (k_sched k) = Ok me -> try_receive k = Ok (o, k') ->
  effect k (match o with Some m => [Take me m] | None => [] end) k'.
Proof.
  intros Hme H. unfold try_receive in H. mcurrent H Hme. mstep H got k1 H1. destruct got as [m|].
  - mstep H u k2 H2. injection H as <- <-. apply on_sched_ok in H2 as (s & _ & ->). by apply (pop_effect k me (Some m) k1).
  - injection H as <- <-. by apply (pop_effect k me None k1).
Qed.

Lemma push_wake_ok k d m u1 k1 u2 k2 :
  push_back d m k = Ok (u1, k1) -> wake d k1 = Ok (u2, k2) ->
  is_Some (lookupZ (k_boxes k) d) /\ k2 = enqueued k d m.
Proof.
  intros H1 H2. apply push_back_ok in H1 as (box & Hb & ->). injection H2 as <- <-. split; [eauto|].
  unfold enqueued, mailbox. by rewrite Hb.
Qed.

Lemma call_effect k me to tag p o k' :
  Sched.current_domain (k_sched k) = Ok me -> call to tag p k = Ok (o, k') ->
  effect k (match o with None => [Accept to (mk_message me to tag (fill_payload p))] | Some _ => [] end) k'.
Proof.
  intros Hme H. unfold call in H. mcurrent H Hme. mstep H al k1 H1. apply has_cap_ok in H1 as [-> _].
  destruct (negb al); [injection H as <- <-; by apply effect_none|].
  mstep H live k1 H1. injection H1 as <- <-. destruct (_ =? 0); [injection H as <- <-; by apply effect_none|].
  mstep H u1 k1 H1. mstep H u2 k2 H2. mstep H u3 k3 H3. injection H as <- <-.
  destruct (push_wake_ok _ _ _ _ _ _ _ H1 H2) as [Hs ->]. apply on_sched_ok in H3 as (s & _ & ->).
  destruct (effect_enqueued k to (mk_message me to tag (fill_payload p)) Hs eq_refl)
    as [[? _]|[(d & m & E1 & E2 & E3)|[(d & m & l1 & l2 & E1 & _)|(d & E1 & _)]]]; [done| |done|done].
  injection E1 as <- <-. right. left. exists to, (mk_message me to tag (fill_payload p)). done.
Qed.

Lemma call_resume_effect k me to o k' :
  Sched.current_domain (k_sched k) = Ok me -> call_resume to k = Ok (o, k') ->
  effect k (if decide (sent_by to (mailbox k me) = []) then []
            else match o with Some m => [Take me m] | None => [] end) k'.
Proof.
  intros Hme H. unfold call_resume in H. mcurrent H Hme. mstep H r k1 H1. unfold take_reply, index in H1.
  destruct (lookupZ (k_boxes k) me) as [box|] eqn:Hb; [|done]. cbn in H1.
  assert (Hm : mailbox k me = box) by (unfold mailbox; by rewrite Hb). rewrite Hm.
  destruct (take_from to box) as [[m rest]|] eqn:Et.
  - injection H1 as <- <-. injection H as <- <-. apply take_from_Some in Et as (l1 & l2 & -> & -> & Hf & Hl1).
    rewrite decide_False by (by apply sent_by_taken). right. right. left. exists me, m, l1, l2.
    split; [done|]. split; [done|]. split; [by rewrite Hf|]. intros d'. by rewrite mailbox_insert by eauto.
  - injection H1 as <- <-. rewrite decide_True by (by apply take_from_None). apply effect_none.
    mstep H live k2 H2. injection H2 as <- <-. destruct (_ =? 0); [injection H as <- <-; done|].
    mstep H u k3 H3. injection H as <- <-. by apply on_sched_ok in H3 as (s & _ & ->).
Qed.

Lemma ipc_step_effect k ls k' : ipc_step k ls k' -> effect k ls k'.
Proof.
  intros [k0 me to tag p b k1 Hme H|k0 from to tag p b k1 H|k0 me target tag p b k1 Hme Ht H|
    k0 me to tag p o k1 Hme H|k0 me a1 o k1 Hme H|k0 me o k1 Hme H|k0 me to o k1 Hme H|k0 k1 H].
  - apply (send_ok _ _ _ _ _ _ me) in H as (_ & Hs & ->); [|done].
    destruct b; [by apply effect_enqueued; [apply Hs|] | by apply effect_none].
  - unfold deliver in H. apply capped_wake_ok in H as (Hs & _ & ->).
    destruct b; [by apply effect_enqueued | by apply effect_none].
  - unfold reply in H. mcurrent H Hme. mstep H tg k2 H1. unfold try in H1. rewrite Ht in H1. injection H1 as <- <-.
    destruct (target =? U64_MAX); [injection H as <- <-; by apply effect_none|].
    mstep H u1 k2 H1. mstep H u2 k3 H2. injection H as <- <-.
    destruct (push_wake_ok _ _ _ _ _ _ _ H1 H2) as [Hs ->]. by apply effect_enqueued.
  - by apply call_effect.
  - by apply (receive_effect _ _ _ _ a1).
  - by apply try_receive_effect.
  - by apply call_resume_effect.
  - by apply effect_none.
Qed.

Lemma effect_fifo k ls k' s d :
  effect k ls k' ->
  sent_by s (mailbox k d) ++ accepted s d ls = gone s d ls ++ sent_by s (mailbox k' d).
Proof.
  intros [[-> H]|[(d0 & m & -> & _ & H)|[(d0 & m & l1 & l2 & -> & Hm & Hl1 & H)|(d0 & -> & H)]]]; rewrite H; unfold accepted, gone; cbn.
  - by rewrite app_nil_r.
  - destruct (decide (d = d0)) as [->|Hd].
    + unfold sent_by. rewrite filter_app, filter_cons, filter_nil.
      destruct (decide (from m = s)); [rewrite decide_True by done | rewrite decide_False by tauto]; done.
    + rewrite decide_False by (intros [? _]; congruence). by rewrite app_nil_r.
  - rewrite !app_nil_r. destruct (decide (d = d0)) as [->|Hd].
    + rewrite Hm. unfold sent_by. rewrite !filter_app, filter_cons.
      destruct (decide (from m = s)) as [<-|Hf]; [rewrite decide_True by done | rewrite decide_False by tauto; done].
      assert (filter (fun x => from x = from m) l1 = []) as ->; [|done].
      clear -Hl1. induction Hl1 as [|x l1 Hx _ IH]; [done|]. by rewrite filter_cons, decide_False.
    + rewrite decide_False by (intros [? _]; congruence). done.
  - rewrite !app_nil_r. destruct (decide (d = d0)) as [->|Hd]; [rewrite decide_True by done; by rewrite app_nil_r|].
    rewrite decide_False by congruence. done.
Qed.

Lemma accepted_app s d l1 l2 : accepted s d (l1 ++ l2) = accepted s d l1 ++ accepted s d l2.
Proof. apply bind_app. Qed.
Lemma gone_app s d l1 l2 : gone s d (l1 ++ l2) = gone s d l1 ++ gone s d l2.
Proof. apply bind_app. Qed.

(** Sending is gated by exactly one capability and never touches anything else. A [send]
    that returns reports success exactly if the running task's domain holds [SendTo(to)] and the
    mailbox has room; then the mailbox of [to] gains this message, stamped with the true sender
    and a payload of exactly 96 bytes, and a task waiting on [to] is woken; otherwise the kernel
    state is unchanged. *)
Theorem send_exact k to tag p b k' me :
  Sched.current_domain (k_sched k) = Ok me -> send to tag p k = Ok (b, k') ->
  (b = true <-> held (k_caps k) me (SendTo to) /\ Z.of_nat (length (mailbox k to)) < MAILBOX_CAP) /\
  (b = false -> k' = k) /\
  (b = true ->
     (forall d, mailbox k' d = mailbox k d ++ (if decide (d = to) then [mk_message me to tag (fill_payload p)] else [])) /\
     length (fill_payload p) = Z.to_nat PAYLOAD_LEN /\
     (forall j, sole_waiter (k_sched k) to j -> is_ready_at (k_sched k') j) /\
     k_caps k' = k_caps k /\ k_frames k' = k_frames k /\ k_domains k' = k_domains k /\ k_irq k' = k_irq k).
Proof.
  intros Hme H. destruct (send_ok k to tag p b k' me Hme H) as (H1 & H2 & ->).
  split; [exact H1|]. split; [by intros ->|]. intros ->. split; [|split; [apply length_fill_payload|split]].
  - intros d. unfold enqueued. rewrite mailbox_sched, mailbox_insert by auto.
    case_decide; [by subst | by rewrite app_nil_r].
  - intros j Hj. unfold enqueued. cbn [k_sched set_sched]. by apply wake_one_sole.
  - done.
Qed.

Lemma sample_send_ok p :
  p = [1; 2; 3] \/ p = [7] -> exists k', send 1 42 p sample_kernel = Ok (true, k').
Proof.
  intros Hp. assert (Hv : match send 1 42 p sample_kernel with Ok (b, _) => b | Panic => false end = true)
    by (destruct Hp as [->| ->]; vm_compute; reflexivity).
  destruct (send 1 42 p sample_kernel) as [[b k']|]; [subst b; eauto | discriminate].
Qed.

Lemma send_exact_witness :
  exists k', send 1 42 [1; 2; 3] sample_kernel = Ok (true, k') /\
    mailbox k' 1 = [mk_message 0 1 42 (fill_payload [1; 2; 3])].
Proof.
  destruct (sample_send_ok [1; 2; 3] (or_introl eq_refl)) as [k' E]. exists k'. split; [exact E|].
  destruct (send_exact sample_kernel 1 42 [1; 2; 3] true k' 0 ltac:(vm_compute; reflexivity) E) as (_ & _ & H).
  destruct (H eq_refl) as (Hm & _). rewrite Hm. reflexivity.
Defined.
