(* ===== verification/Paging.v ===== *)
(** * Address spaces (kernel/src/memory/paging.rs)

    Page tables live in physical memory, which the kernel reaches through its offset mapping;
    the model reads and writes physical memory directly. Building and removing a 4 KiB mapping
    is done by the [x86_64] crate ([Mapper::map_to], [Mapper::unmap], with the checked address
    constructors), which is a parameter here; the walks written out in the source
    ([resolve_user_page], [free_user_space], the boot tables) are translated. *)

From S2P Require Import Prelude Addr Cap Key Klog Frames Sched Net Pager Irq Kernel.

(** ** Physical memory *)

Notation memory := (Z -> Z).

Fixpoint rd_le (n : nat) (m : memory) (a : Z) : Z :=
  match n with O => 0 | S n => m a + 256 * rd_le n m (a + 1) end.

(** An 8-byte little-endian word. *)
Definition rd64 (m : memory) (a : Z) : Z := rd_le 8 m a.
Definition wr64 (m : memory) (a v : Z) : memory :=
  fun x => if (a <=? x) && (x <? a + 8) then (v / 256 ^ (x - a)) mod 256 else m x.

(** [write_bytes(p, 0, 4096)]. *)
Definition zero_page (m : memory) (p : Z) : memory :=
  fun x => if (p <=? x) && (x <? p + FRAME_SIZE) then 0 else m x.

(** ** Page-table entries *)

Definition entry_addr (e : Z) : Z := Z.land e PTE_ADDR_MASK.
Definition entry_has (e f : Z) : bool := negb (Z.land e f =? 0).
(** Entry [i] of the table at [table]. *)
Definition entry (m : memory) (table i : Z) : Z := rd64 m (table + 8 * i).

(** ** The crate's mapper *)

Inductive map_error : Type := FrameAllocationFailed | ParentEntryHugePage | PageAlreadyMapped.

Class Mapper : Type := {
  (** [VirtAddr::new] and [PhysAddr::new]; [None] is their panic on an invalid address. *)
  virt_addr_new : Z -> option Z;
  phys_addr_new : Z -> option Z;
  (** [map_to page frame flags], on the table at a root, taking new tables from the allocator. *)
  map_to : Z -> Z -> Z -> Z -> memory -> frames -> option map_error * memory * frames;
  (** [unmap page]: the frame that was mapped, or an error. *)
  unmap : Z -> Z -> memory -> option Z * memory;
}.

Section with_mapper.
Context `{Mapper}.

(** [domain::pml4_of]. *)
Definition pml4_of (id : Z) : M Z :=
  try (fun k => o ← index (k_domains k) id; d ← expect o; mret (pml4 d)).

Definition map_page (pml4 vaddr paddr flags : Z) : M unit :=
  v ← try (fun _ => expect (virt_addr_new vaddr));
  p ← try (fun _ => expect (phys_addr_new paddr));
  step (fun k =>
    match map_to pml4 (page_floor v) (page_floor p) flags (k_mem k) (k_frames k) with
    | (None, m, f) => Ok (tt, set_frames (set_mem k m) f)
    | (Some _, _, _) => Panic
    end).

Definition map_user_page (domain_id vaddr paddr : Z) (perm : UserPagePerm) : M unit :=
  pml4 ← pml4_of domain_id; map_page pml4 vaddr paddr (flags_for perm).

Definition map_mmio (domain_id vaddr paddr : Z) : M unit :=
  pml4 ← pml4_of domain_id; map_page pml4 vaddr paddr mmio_flags.

Definition unmap_user_page (domain_id vaddr : Z) : M (option Z) :=
  pml4 ← pml4_of domain_id;
  v ← try (fun _ => expect (virt_addr_new vaddr));
  step (fun k => let '(o, m) := unmap pml4 (page_floor v) (k_mem k) in Ok (o, set_mem k m)).

End with_mapper.

(** ** The walks *)

Definition p4_index (v : Z) : Z := Z.land (Z.shiftr v 39) 0x1FF.
Definition p3_index (v : Z) : Z := Z.land (Z.shiftr v 30) 0x1FF.
Definition p2_index (v : Z) : Z := Z.land (Z.shiftr v 21) 0x1FF.
Definition p1_index (v : Z) : Z := Z.land (Z.shiftr v 12) 0x1FF.

(** The body of [resolve_user_page], from the root. *)
Definition walk (m : memory) (pml4 vaddr : Z) : option Z :=
  let pml4e := entry m pml4 (p4_index vaddr) in
  if negb (entry_has pml4e PRESENT) then None
  else
    let pdpte := entry m (entry_addr pml4e) (p3_index vaddr) in
    if negb (entry_has pdpte PRESENT) then None
    else
      let pde := entry m (entry_addr pdpte) (p2_index vaddr) in
      if negb (entry_has pde PRESENT) then None
      else if entry_has pde HUGE_PAGE then Some (entry_addr pde + Z.land vaddr 0x1FFFFF)
      else
        let pte := entry m (entry_addr pde) (p1_index vaddr) in
        if negb (entry_has pte PRESENT) then None
        else Some (entry_addr pte + Z.land vaddr 0xFFF).

Definition resolve_user_page (domain_id vaddr : Z) : M (option Z) :=
  pml4 ← pml4_of domain_id; gets (fun k => walk (k_mem k) pml4 vaddr).

(** [free_user_space], loop by loop; the state is the memory and the allocator. *)
Notation mf := (memory * frames)%type.

Definition free_pt (pt : Z) (s : mf) : mf :=
  foldl (fun '(m, f) p1 =>
           let e := entry m pt p1 in
           if e =? 0 then (m, f)
           else (wr64 m (pt + 8 * p1) 0, release_user_frame (entry_addr e) f)) s (seqZ 0 512).

Definition free_pd (pd : Z) (s : mf) : mf :=
  foldl (fun '(m, f) p2 =>
           let e := entry m pd p2 in
           if e =? 0 then (m, f)
           else if entry_has e HUGE_PAGE then
             (wr64 m (pd + 8 * p2) 0,
              foldl (fun f i => release_user_frame (entry_addr e + i * FRAME_SIZE) f) f (seqZ 0 512))
           else
             let '(m1, f1) := free_pt (entry_addr e) (m, f) in
             (wr64 m1 (pd + 8 * p2) 0, free_frame (entry_addr e) f1)) s (seqZ 0 512).

Definition free_pdpt (pdpt : Z) (s : mf) : mf :=
  foldl (fun '(m, f) p3 =>
           let e := entry m pdpt p3 in
           if e =? 0 then (m, f)
           else
             let '(m1, f1) := free_pd (entry_addr e) (m, f) in
             (wr64 m1 (pdpt + 8 * p3) 0, free_frame (entry_addr e) f1)) s (seqZ 0 512).

Definition free_user_space (pml4_phys : Z) (s : mf) : mf :=
  let p4 := p4_index USER_SPACE_BASE in
  let e := entry (fst s) pml4_phys p4 in
  if e =? 0 then s
  else
    let '(m, f) := free_pdpt (entry_addr e) s in
    (wr64 m (pml4_phys + 8 * p4) 0, free_frame (entry_addr e) f).

(** ** The boot page tables *)

Definition MANAGED_PDS : Z := MANAGED_MEMORY / (512 * 0x200000).
Definition FB_VIRT_BASE : Z := 0xFFFFC00000000000.
Definition FB_WINDOW_SIZE : Z := 512 * 0x200000.
Definition boot_flags : Z := Z.lor PRESENT WRITABLE.

(** [table[i].set_addr(addr, flags)]. *)
Definition set_entry (m : memory) (table i addr flags : Z) : memory := wr64 m (table + 8 * i) (Z.lor addr flags).

(** [setup_page_tables]: the arguments are the addresses of the static tables. *)
Definition setup_page_tables (pml4_phys pdpt_phys pds_base : Z) (m : memory) : memory :=
  let pd i := pds_base + i * FRAME_SIZE in
  let m := zero_page (zero_page m pml4_phys) pdpt_phys in
  let m := foldl (fun m i => if pd i =? 0 then m else zero_page m (pd i)) m (seqZ 0 MANAGED_PDS) in
  let m := set_entry m pml4_phys 0 pdpt_phys boot_flags in
  let m := set_entry m pml4_phys 256 pdpt_phys boot_flags in
  let m := foldl (fun m i => if pd i =? 0 then m else set_entry m pdpt_phys i (pd i) boot_flags) m
             (seqZ 0 MANAGED_PDS) in
  foldl (fun m i =>
           if pd i =? 0 then m
           else foldl (fun m j => set_entry m (pd i) j (i * 0x40000000 + j * 0x200000) (Z.lor boot_flags HUGE_PAGE))
                  m (seqZ 0 512)) m (seqZ 0 MANAGED_PDS).

(** [map_framebuffer]: the virtual address of the first byte, and the memory. Storing entry 512
    of the page directory panics. *)
Definition map_framebuffer (pml4_phys pdpt_phys pd_phys fb_addr fb_len : Z) (m : memory)
  : res (option Z * memory) :=
  let PAGE := 0x200000 in
  if (fb_addr =? 0) || (fb_len =? 0) then Ok (None, m)
  else
    let aligned := Z.land fb_addr (Z.lxor (2^64 - 1) (PAGE - 1)) in
    let offset := fb_addr - aligned in
    match checked_add offset fb_len with
    | None => Ok (None, m)
    | Some span =>
        let pages := div_ceil span PAGE in
        if FB_WINDOW_SIZE <? w64 (pages * PAGE) then Ok (None, m)
        else if 512 <? pages then Panic
        else
          let m := zero_page (zero_page m pdpt_phys) pd_phys in
          let m := set_entry m pml4_phys (p4_index FB_VIRT_BASE) pdpt_phys boot_flags in
          let m := set_entry m pdpt_phys 0 pd_phys boot_flags in
          let m := foldl (fun m i => set_entry m pd_phys i (w64 (aligned + i * PAGE)) (Z.lor boot_flags HUGE_PAGE))
                     m (seqZ 0 pages) in
          Ok (Some (w64 (FB_VIRT_BASE + offset)), m)
    end.

(** ** Words in memory *)

Lemma rd_le_ext n m m' a : (forall x, a <= x < a + Z.of_nat n -> m x = m' x) -> rd_le n m a = rd_le n m' a.
Proof.
  revert a. induction n as [|n IH]; intros a H; [done|]. cbn [rd_le]. rewrite (H a) by lia.
  rewrite (IH (a + 1)); [done|]. intros x Hx. apply H. lia.
Qed.

(** The bytes of [v], read back. *)
Lemma rd_le_bytes n m a v k :
  0 <= k -> (forall i, 0 <= i < Z.of_nat n -> m (a + i) = (v / 256 ^ (k + i)) mod 256) ->
  rd_le n m a = (v / 256 ^ k) mod 256 ^ Z.of_nat n.
Proof.
  revert a k. induction n as [|n IH]; intros a k Hk H.
  { cbn. by rewrite Z.mod_1_r. }
  cbn [rd_le]. rewrite (IH (a + 1) (k + 1)).
  - specialize (H 0 ltac:(lia)). rewrite !Z.add_0_r in H. rewrite H.
    rewrite Nat2Z.inj_succ, Z.pow_succ_r by lia.
    assert (0 < 256 ^ k) by (apply Z.pow_pos_nonneg; lia).
    assert (0 < 256 ^ Z.of_nat n) by (apply Z.pow_pos_nonneg; lia).
    rewrite Z.pow_add_r by lia. change (256 ^ 1) with 256. rewrite <- Z.div_div by lia.
    symmetry. apply Z.rem_mul_r; lia.
  - lia.
  - intros i Hi. replace (a + 1 + i) with (a + (1 + i)) by lia. rewrite H by lia.
    by replace (k + (1 + i)) with (k + 1 + i) by lia.
Qed.

Lemma rd64_wr64_eq m a v : 0 <= v < 2^64 -> rd64 (wr64 m a v) a = v.
Proof.
  intros Hv. unfold rd64. rewrite (rd_le_bytes 8 _ a v 0); [|lia|].
  - rewrite Z.pow_0_r, Z.div_1_r. apply Z.mod_small. change (256 ^ Z.of_nat 8) with (2^64). lia.
  - intros i Hi. unfold wr64. rewrite (proj2 (Z.leb_le _ _)), (proj2 (Z.ltb_lt _ _)) by lia. cbn.
    by replace (a + i - a) with (0 + i) by lia.
Qed.

Lemma rd64_wr64 m a b v :
  a mod 8 = 0 -> b mod 8 = 0 -> 0 <= v < 2^64 ->
  rd64 (wr64 m a v) b = if decide (b = a) then v else rd64 m b.
Proof.
  intros Ha Hb Hv. case_decide as H; [subst; by apply rd64_wr64_eq|].
  apply rd_le_ext. intros x Hx. unfold wr64.
  destruct (Z.leb_spec a x), (Z.ltb_spec x (a + 8)); cbn [andb]; try done.
  exfalso. apply H. Z.to_euclidean_division_equations. lia.
Qed.

Lemma rd64_zero_page m p b :
  p mod 4096 = 0 -> b mod 8 = 0 ->
  rd64 (zero_page m p) b = if decide (p <= b < p + 4096) then 0 else rd64 m b.
Proof.
  intros Hp Hb. case_decide as H.
  - unfold rd64. rewrite (rd_le_bytes 8 _ b 0 0); [done | lia |]. intros i Hi. unfold zero_page, FRAME_SIZE.
    rewrite (proj2 (Z.leb_le _ _)), (proj2 (Z.ltb_lt _ _)); [| Z.to_euclidean_division_equations; lia | lia].
    cbn [andb]. rewrite Z.div_0_l; [done|]. apply Z.pow_nonzero; lia.
  - apply rd_le_ext. intros x Hx. unfold zero_page, FRAME_SIZE.
    destruct (Z.leb_spec p x), (Z.ltb_spec x (p + 4096)); cbn [andb]; try done.
    exfalso. apply H. Z.to_euclidean_division_equations. lia.
Qed.

(** ** Entries *)

Lemma testbit_page a i : a mod 4096 = 0 -> 0 <= a < 2^52 -> 0 <= i -> (i < 12 \/ 52 <= i) -> Z.testbit a i = false.
Proof.
  intros Ha Hb Hi [H|H].
  - assert (Hs : a = Z.shiftl (a / 4096) 12).
    { rewrite Z.shiftl_mul_pow2 by lia. change (2^12) with 4096. pose proof (Z.div_mod a 4096 ltac:(lia)). lia. }
    rewrite Hs. by apply Z.shiftl_spec_low.
  - destruct (Z.eq_dec a 0) as [->|]; [apply Z.bits_0|]. apply Z.bits_above_log2; [lia|].
    apply Z.lt_le_trans with 52; [apply Z.log2_lt_pow2; lia | lia].
Qed.

Lemma testbit_flags fl i : 0 <= fl < 4096 -> 12 <= i -> Z.testbit fl i = false.
Proof.
  intros Hf Hi. destruct (Z.eq_dec fl 0) as [->|]; [apply Z.bits_0|]. apply Z.bits_above_log2; [lia|].
  apply Z.lt_le_trans with 12; [apply Z.log2_lt_pow2; lia | lia].
Qed.

Lemma entry_addr_make a fl :
  a mod 4096 = 0 -> 0 <= a < 2^52 -> 0 <= fl < 4096 -> entry_addr (Z.lor a fl) = a.
Proof.
  intros Ha Hb Hf. unfold entry_addr, PTE_ADDR_MASK. change 0x000FFFFFFFFFF000 with (Z.shiftl (Z.ones 40) 12).
  apply Z.bits_inj'. intros i Hi. rewrite Z.land_spec, Z.lor_spec.
  destruct (Z.lt_ge_cases i 12) as [H|H].
  { rewrite Z.shiftl_spec_low, andb_false_r by lia. symmetry. apply testbit_page; auto. }
  rewrite Z.shiftl_spec by lia. rewrite (testbit_flags fl), orb_false_r by lia.
  destruct (Z.lt_ge_cases i 52).
  - rewrite Z.ones_spec_low by lia. apply andb_true_r.
  - rewrite Z.ones_spec_high, andb_false_r by lia. symmetry. apply testbit_page; auto.
Qed.

Lemma entry_has_make a fl b :
  a mod 4096 = 0 -> 0 <= a < 2^52 -> 0 <= b < 4096 -> entry_has (Z.lor a fl) b = entry_has fl b.
Proof.
  intros Ha Hb Hbit. unfold entry_has. do 2 f_equal.
  apply Z.bits_inj'. intros i Hi. rewrite !Z.land_spec, Z.lor_spec.
  destruct (Z.lt_ge_cases i 12) as [H|H].
  - by rewrite (testbit_page a) by auto.
  - by rewrite (testbit_flags b), !andb_false_r by lia.
Qed.

Lemma lor_range a fl : a mod 4096 = 0 -> 0 <= a < 2^52 -> 0 <= fl < 4096 -> 0 <= Z.lor a fl < 2^64.
Proof.
  intros Ha Hb Hf. split; [apply Z.lor_nonneg; lia|].
  destruct (Z.eq_dec (Z.lor a fl) 0) as [->|Hne]; [lia|]. apply Z.log2_lt_pow2; [pose proof (Z.lor_nonneg a fl); lia|].
  rewrite Z.log2_lor by lia. apply Z.max_lub_lt.
  - destruct (Z.eq_dec a 0) as [->|]; [done|]. apply Z.lt_trans with 52; [apply Z.log2_lt_pow2; lia | lia].
  - destruct (Z.eq_dec fl 0) as [->|]; [done|]. apply Z.lt_trans with 12; [apply Z.log2_lt_pow2; lia | lia].
Qed.

(** Different entries of page-aligned tables have different addresses. *)
Lemma entry_slot_inj t t' i j :
  t mod 4096 = 0 -> t' mod 4096 = 0 -> 0 <= i < 512 -> 0 <= j < 512 -> t + 8 * i = t' + 8 * j -> t = t' /\ i = j.
Proof. intros. Z.to_euclidean_division_equations. lia. Qed.

(** Reading entry [j] of a page-aligned table after one entry was set. *)
Lemma entry_set m table i a fl table' j :
  table mod 4096 = 0 -> table' mod 4096 = 0 -> 0 <= i < 512 -> 0 <= j < 512 ->
  a mod 4096 = 0 -> 0 <= a < 2^52 -> 0 <= fl < 4096 ->
  entry (set_entry m table i a fl) table' j =
  if decide (table' = table /\ j = i) then Z.lor a fl else entry m table' j.
Proof.
  intros Ht Ht' Hi Hj Ha Hb Hf. unfold entry, set_entry.
  rewrite rd64_wr64; [|Z.to_euclidean_division_equations; lia..|by apply lor_range].
  repeat case_decide; try done; exfalso; [|lia].
  assert (table' = table /\ j = i); [|done]. by apply entry_slot_inj.
Qed.

(** Filling the first [n] entries of a table in a loop. *)
Lemma entry_fill (n : nat) (val : Z -> Z) m table fl table' j (s : Z) :
  table mod 4096 = 0 -> table' mod 4096 = 0 -> 0 <= s -> s + Z.of_nat n <= 512 -> 0 <= j < 512 ->
  (forall i, s <= i < s + Z.of_nat n -> val i mod 4096 = 0 /\ 0 <= val i < 2^52) -> 0 <= fl < 4096 ->
  entry (foldl (fun m i => set_entry m table i (val i) fl) m (seqZ s (Z.of_nat n))) table' j =
  if decide (table' = table /\ s <= j < s + Z.of_nat n) then Z.lor (val j) fl else entry m table' j.
Proof.
  intros Ht Ht' Hs Hn Hj Hv Hf. revert m s Hs Hn Hv. induction n as [|n IH]; intros m s Hs Hn Hv.
  { cbn. rewrite decide_False by lia. done. }
  rewrite seqZ_cons by lia. replace (Z.pred (Z.of_nat (S n))) with (Z.of_nat n) by lia. cbn [foldl].
  rewrite IH; [|lia|lia|intros i Hi; apply Hv; lia]. destruct (Hv s ltac:(lia)) as [Hs1 Hs2].
  rewrite entry_set by (done || lia).
  destruct (decide (table' = table /\ j = s)) as [[-> ->]|Hne].
  - rewrite (decide_True (P := _ /\ s <= s < _)) by lia. rewrite decide_False by lia. done.
  - apply decide_ext. split; intros [? ?]; (split; [done|]); [lia|]. assert (j <> s) by tauto. lia.
Qed.

(** ** The identity and offset mappings *)

(** Where the linker puts the static tables: page-aligned, below 1 TiB, pairwise disjoint. *)
Record boot_layout (pml4 pdpt pds : Z) : Prop := {
  bl_pml4 : pml4 mod 4096 = 0 /\ 0 <= pml4 < 2^40;
  bl_pdpt : pdpt mod 4096 = 0 /\ 0 <= pdpt < 2^40;
  bl_pds : pds mod 4096 = 0 /\ 0 < pds < 2^40;
  bl_ne : pml4 <> pdpt;
  bl_out : forall i, 0 <= i < MANAGED_PDS -> pds + i * FRAME_SIZE <> pml4 /\ pds + i * FRAME_SIZE <> pdpt;
}.

Lemma foldl_ext_in {A B} (f g : A -> B -> A) l a b :
  a = b -> (forall a x, x ∈ l -> f a x = g a x) -> foldl f a l = foldl g b l.
Proof.
  intros <-. revert a. induction l as [|x l IH]; intros a H; [done|]. cbn.
  rewrite (H a x (list_elem_of_here _ _)). apply IH. intros b y Hy. apply H, list_elem_of_further, Hy.
Qed.

(** The nested loop that fills the page directories. *)
Lemma entry_fill_pds pds (n : nat) m s t j :
  pds mod 4096 = 0 -> 0 < pds -> t mod 4096 = 0 -> 0 <= s -> s + Z.of_nat n <= 32 -> 0 <= j < 512 ->
  entry (foldl (fun m i => foldl (fun m j => set_entry m (pds + i * FRAME_SIZE) j (i * 0x40000000 + j * 0x200000)
                                               (Z.lor boot_flags HUGE_PAGE)) m (seqZ 0 512)) m (seqZ s (Z.of_nat n))) t j =
  let i := (t - pds) / 4096 in
  if decide (pds <= t /\ s <= i < s + Z.of_nat n) then Z.lor (i * 0x40000000 + j * 0x200000) (Z.lor boot_flags HUGE_PAGE)
  else entry m t j.
Proof.
  intros Hp Hp0 Ht Hs Hn Hj. cbv zeta. revert m s Hs Hn. induction n as [|n IH]; intros m s Hs Hn.
  { cbn. rewrite decide_False by lia. done. }
  rewrite (seqZ_cons s (Z.of_nat (S n))) by lia. replace (Z.pred (Z.of_nat (S n))) with (Z.of_nat n) by lia. cbn [foldl].
  rewrite IH by lia. unfold FRAME_SIZE. change (seqZ 0 512) with (seqZ 0 (Z.of_nat 512)).
  rewrite (entry_fill 512 (fun j => s * 0x40000000 + j * 0x200000)
             m (pds + s * 4096) (Z.lor boot_flags HUGE_PAGE) t j 0);
    [|Z.to_euclidean_division_equations; lia|done|lia|lia|done| |vm_compute; split; [discriminate|reflexivity]].
  2:{ intros i Hi. split; [|lia]. change 0x40000000 with (262144 * 4096). change 0x200000 with (512 * 4096).
      rewrite !Z.mul_assoc, <- Z.mul_add_distr_r. apply Z.mod_mul. lia. }
  assert (Heq : t = pds + s * 4096 <-> pds <= t /\ (t - pds) / 4096 = s) by (Z.to_euclidean_division_equations; lia).
  destruct (decide (t = pds + s * 4096)) as [E|E].
  - apply Heq in E as [E1 E2]. rewrite E2.
    rewrite (decide_True (P := pds <= t /\ s <= s < _)) by lia. rewrite decide_False by lia.
    rewrite decide_True; [done|]. split; [by apply Heq | lia].
  - rewrite (decide_False (P := t = _ /\ _)) by tauto. apply decide_ext. rewrite Heq in E. lia.
Qed.

Lemma index_small v (n k : Z) : 0 <= v -> 0 <= n -> Z.land (Z.shiftr v n) 0x1FF = (v / 2^n) mod 512.
Proof. intros. rewrite Z.shiftr_div_pow2 by lia. change 0x1FF with (Z.ones 9). by rewrite Z.land_ones by lia. Qed.

(** The loops of [setup_page_tables] without their tests for a null table. *)
Lemma setup_loops pml4 pdpt pds m :
  boot_layout pml4 pdpt pds ->
  exists m0, setup_page_tables pml4 pdpt pds m =
    foldl (fun m i => foldl (fun m j => set_entry m (pds + i * FRAME_SIZE) j (i * 0x40000000 + j * 0x200000)
                                          (Z.lor boot_flags HUGE_PAGE)) m (seqZ 0 512))
      (foldl (fun m i => set_entry m pdpt i (pds + i * FRAME_SIZE) boot_flags)
         (set_entry (set_entry m0 pml4 0 pdpt boot_flags) pml4 256 pdpt boot_flags) (seqZ 0 (Z.of_nat 32)))
      (seqZ 0 (Z.of_nat 32)).
Proof.
  intros L. destruct (bl_pds _ _ _ L) as [_ C2].
  assert (Hpd : forall k, k ∈ seqZ 0 (Z.of_nat 32) -> (pds + k * FRAME_SIZE =? 0) = false).
  { intros k Hk. apply elem_of_seqZ in Hk. apply Z.eqb_neq. unfold FRAME_SIZE. lia. }
  eexists. unfold setup_page_tables. cbv beta zeta. change MANAGED_PDS with (Z.of_nat 32).
  apply foldl_ext_in; [|intros a x Hx; by rewrite (Hpd x Hx)].
  apply foldl_ext_in; [reflexivity | intros a x Hx; by rewrite (Hpd x Hx)].
Qed.

(** The entries the walk of a managed address meets. *)
Lemma boot_entries pml4 pdpt pds m i j :
  boot_layout pml4 pdpt pds -> 0 <= i < MANAGED_PDS -> 0 <= j < 512 ->
  let m' := setup_page_tables pml4 pdpt pds m in
  entry m' pml4 0 = Z.lor pdpt boot_flags /\ entry m' pml4 256 = Z.lor pdpt boot_flags /\
  entry m' pdpt i = Z.lor (pds + i * 4096) boot_flags /\
  entry m' (pds + i * 4096) j = Z.lor (i * 0x40000000 + j * 0x200000) (Z.lor boot_flags HUGE_PAGE).
Proof.
  intros L Hi Hj. destruct (bl_pml4 _ _ _ L) as [A1 A2], (bl_pdpt _ _ _ L) as [B1 B2], (bl_pds _ _ _ L) as [C1 C2].
  change MANAGED_PDS with 32 in Hi. cbv zeta. destruct (setup_loops pml4 pdpt pds m L) as [m0 ->].
  set (m1 := set_entry (set_entry m0 pml4 0 pdpt boot_flags) pml4 256 pdpt boot_flags).
  set (m2 := foldl (fun m i => set_entry m pdpt i (pds + i * FRAME_SIZE) boot_flags) m1 (seqZ 0 (Z.of_nat 32))).
  assert (Hfl : 0 <= boot_flags < 4096) by (vm_compute; split; [discriminate|reflexivity]).
  assert (Hm2 : forall t k, t mod 4096 = 0 -> 0 <= k < 512 -> entry m2 t k =
    if decide (t = pdpt /\ 0 <= k < 32) then Z.lor (pds + k * 4096) boot_flags else entry m1 t k).
  { intros t k Ht Hk. unfold m2. rewrite entry_fill; [done|done|done|lia|lia|done| |done].
    intros x Hx. unfold FRAME_SIZE. split; [Z.to_euclidean_division_equations; lia | lia]. }
  assert (Hm1 : forall k, 0 <= k < 512 -> k = 0 \/ k = 256 -> entry m1 pml4 k = Z.lor pdpt boot_flags).
  { intros k Hk Hor. unfold m1. rewrite !entry_set by (done || lia).
    destruct Hor as [->| ->]; repeat case_decide; try done; exfalso; tauto || lia. }
  assert (Hout : forall t, t = pml4 \/ t = pdpt -> ~ (pds <= t /\ 0 <= (t - pds) / 4096 < 32)).
  { intros t Ht [H1 H2]. destruct (bl_out _ _ _ L ((t - pds) / 4096) H2) as [N1 N2]. unfold FRAME_SIZE in *.
    assert (t mod 4096 = 0) by (by destruct Ht as [->| ->]).
    assert (pds + (t - pds) / 4096 * 4096 = t) by (Z.to_euclidean_division_equations; lia). destruct Ht; congruence. }
  assert (Hfin : forall t k, t mod 4096 = 0 -> 0 <= k < 512 -> (t = pml4 \/ t = pdpt) ->
     entry (foldl (fun m i => foldl (fun m j => set_entry m (pds + i * FRAME_SIZE) j (i * 0x40000000 + j * 0x200000)
        (Z.lor boot_flags HUGE_PAGE)) m (seqZ 0 512)) m2 (seqZ 0 (Z.of_nat 32))) t k = entry m2 t k).
  { intros t k Ht Hk Hor. rewrite entry_fill_pds by (done || lia). cbv zeta. by rewrite decide_False by (by apply Hout). }
  rewrite !Hfin by (done || lia || tauto). rewrite !Hm2 by (done || lia).
  rewrite !(decide_False (P := pml4 = pdpt /\ _)) by (intros [? _]; by apply (bl_ne _ _ _ L)).
  rewrite !Hm1 by (lia || tauto). rewrite decide_True by (split; [done|lia]).
  split; [done|]. split; [done|]. split; [done|].
  rewrite entry_fill_pds by (done || lia || (Z.to_euclidean_division_equations; lia)). cbv zeta.
  replace ((pds + i * 4096 - pds) / 4096) with i by (Z.to_euclidean_division_equations; lia).
  by rewrite decide_True by lia.
Qed.

(** Walking the boot tables, once the two upper indices are known. *)
Lemma walk_boot pml4 pdpt pds m v x :
  boot_layout pml4 pdpt pds -> 0 <= v < MANAGED_MEMORY -> 0 <= x ->
  p4_index x = 0 \/ p4_index x = 256 ->
  (x / 2^30) mod 512 = v / 2^30 -> (x / 2^21) mod 512 = (v / 2^21) mod 512 -> x mod 2^21 = v mod 2^21 ->
  walk (setup_page_tables pml4 pdpt pds m) pml4 x = Some v.
Proof.
  intros L Hv Hx H4 H3 H2 H1. unfold MANAGED_MEMORY in Hv.
  assert (Hi : 0 <= v / 2^30 < MANAGED_PDS) by (change MANAGED_PDS with 32; Z.to_euclidean_division_equations; lia).
  pose proof (Z.mod_pos_bound (v / 2^21) 512 ltac:(lia)) as Hj.
  destruct (boot_entries pml4 pdpt pds m (v / 2^30) ((v / 2^21) mod 512) L Hi Hj) as (E0 & E256 & E3 & E2).
  destruct (bl_pdpt _ _ _ L) as [B1 B2], (bl_pds _ _ _ L) as [C1 C2]. change MANAGED_PDS with 32 in Hi.
  unfold walk, p3_index, p2_index. rewrite !index_small, H3, H2 by (lia || exact 0).
  set (m' := setup_page_tables _ _ _ _) in *. clearbody m'.
  assert (E4 : entry m' pml4 (p4_index x) = Z.lor pdpt boot_flags) by (destruct H4 as [->| ->]; done).
  rewrite E4, entry_has_make, entry_addr_make, E3 by (done || lia). cbn [negb entry_has].
  change (entry_has boot_flags PRESENT) with true. cbn [negb].
  assert (Hpd : (pds + v / 2^30 * 4096) mod 4096 = 0) by (rewrite Z.mod_add by lia; done).
  rewrite entry_has_make, entry_addr_make, E2 by (done || (revert Hi C2; generalize (v / 2^30); lia)).
  change (entry_has boot_flags PRESENT) with true. cbn [negb].
  set (a := v / 2^30 * 0x40000000 + (v / 2^21) mod 512 * 0x200000).
  assert (Ha : a mod 4096 = 0).
  { unfold a. change 0x40000000 with (262144 * 4096). change 0x200000 with (512 * 4096).
    rewrite !Z.mul_assoc, <- Z.mul_add_distr_r. apply Z.mod_mul. lia. }
  assert (Ha2 : 0 <= a < 2^52) by (unfold a; revert Hi Hj; generalize (v / 2^30), ((v / 2^21) mod 512); lia).
  rewrite (entry_has_make a _ PRESENT), (entry_has_make a _ HUGE_PAGE), entry_addr_make
    by (done || (vm_compute; split; [discriminate|reflexivity])).
  change (entry_has (Z.lor boot_flags HUGE_PAGE) PRESENT) with true.
  change (entry_has (Z.lor boot_flags HUGE_PAGE) HUGE_PAGE) with true. cbn [negb]. f_equal.
  change 0x1FFFFF with (Z.ones 21). rewrite Z.land_ones, H1 by lia. unfold a.
  clear. change (2^30) with (2097152 * 512). change (2^21) with 2097152. rewrite <- Z.div_div by lia.
  generalize (v / 2097152) (v mod 2097152) (Z.div_mod v 2097152 ltac:(lia)). intros q r Hr.
  pose proof (Z.div_mod q 512 ltac:(lia)). lia.
Qed.

(** The boot page tables map all managed memory twice. For every placement of the static
    tables by the linker (page-aligned, disjoint) and every previous memory contents, after
    [setup_page_tables] every address below 32 GiB translates to itself, and the same physical
    byte is found at [PHYS_OFFSET] plus it. *)
Theorem boot_tables_map_memory pml4 pdpt pds m v :
  boot_layout pml4 pdpt pds -> 0 <= v < MANAGED_MEMORY ->
  walk (setup_page_tables pml4 pdpt pds m) pml4 v = Some v /\
  walk (setup_page_tables pml4 pdpt pds m) pml4 (PHYS_OFFSET + v) = Some v.
Proof.
  intros L Hv. unfold MANAGED_MEMORY in *. split; apply walk_boot; try done; try (unfold PHYS_OFFSET; lia).
  - left. unfold p4_index. rewrite index_small by (lia || exact 0). Z.to_euclidean_division_equations. lia.
  - Z.to_euclidean_division_equations. lia.
  - right. unfold p4_index. rewrite index_small by (lia || exact 0 || (unfold PHYS_OFFSET; lia)).
    unfold PHYS_OFFSET. Z.to_euclidean_division_equations. lia.
  - unfold PHYS_OFFSET. Z.to_euclidean_division_equations. lia.
  - unfold PHYS_OFFSET. Z.to_euclidean_division_equations. lia.
  - unfold PHYS_OFFSET. Z.to_euclidean_division_equations. lia.
Qed.

Lemma boot_tables_map_memory_witness :
  walk (setup_page_tables 0x200000 0x201000 0x202000 (fun _ => 0xAA)) 0x200000 0x123456789 = Some 0x123456789 /\
  walk (setup_page_tables 0x200000 0x201000 0x202000 (fun _ => 0xAA)) 0x200000 (PHYS_OFFSET + 0x123456789) =
    Some 0x123456789.
Proof.
  apply boot_tables_map_memory.
  - constructor; try (split; [reflexivity | lia]); [lia|]. intros i Hi. unfold FRAME_SIZE. lia.
  - unfold MANAGED_MEMORY. lia.
Defined.

(** ** Giving an address space back *)

(** What tearing down does to the allocator: a table frame is freed, a mapped frame is released. *)
Inductive give : Type := Table (a : Z) | Page (a : Z).

#[export] Instance give_eq_dec : EqDecision give.
Proof. solve_decision. Defined.

Definition give_back (f : frames) (g : give) : frames :=
  match g with Table a => free_frame a f | Page a => release_user_frame a f end.
Definition give_addr (g : give) : Z := match g with Table a | Page a => a end.

(** How often the frame at [a] is released. *)
Definition pages_at (a : Z) (l : list give) : Z := Z.of_nat (length (filter (fun g => g = Page a) l)).

Lemma pages_at_snoc a l g : pages_at a (l ++ [g]) = pages_at a l + (if decide (g = Page a) then 1 else 0).
Proof. unfold pages_at. rewrite filter_app, length_app, filter_cons, filter_nil. case_decide; cbn [length]; lia. Qed.

Lemma pages_at_nonneg a l : 0 <= pages_at a l.
Proof. unfold pages_at. lia. Qed.

Lemma aligned_frame a j : a mod 4096 = 0 -> j = a / FRAME_SIZE <-> a = j * FRAME_SIZE.
Proof. intros Ha. unfold FRAME_SIZE. Z.to_euclidean_division_equations. lia. Qed.

(** The allocator after a list of frames was given back, exactly. *)
Lemma give_back_spec l f :
  frames_wf f -> shared_wf (SHARED_FRAMES f) -> Forall (fun g => 0 <= give_addr g /\ give_addr g mod 4096 = 0) l ->
  let f' := foldl give_back f l in
  frames_wf f' /\ shared_wf (SHARED_FRAMES f') /\ PINNED_RANGES f' = PINNED_RANGES f /\
  (forall b, refcount b (SHARED_FRAMES f') = Z.max 0 (refcount b (SHARED_FRAMES f) - pages_at b l)) /\
  (forall j, 0 <= j < MAX_MANAGED_FRAMES -> let a := j * FRAME_SIZE in
     (is_free f' j <-> is_free f j \/ is_pinned a f = false /\
        (Table a ∈ l \/ Page a ∈ l /\ refcount a (SHARED_FRAMES f) <= pages_at a l))).
Proof.
  intros Hwf Hs. induction l as [|g l IH] using rev_ind; intros Hl f'.
  { cbn. split; [done|]. split; [done|]. split; [done|].
    assert (Hr : forall b, 0 <= refcount b (SHARED_FRAMES f)).
    { intros b. destruct (refcount_cases (SHARED_FRAMES f) b) as [[-> _]|(i & n & _ & _ & Hn & ->)]; lia. }
    split; [intros b; specialize (Hr b); change (pages_at b []) with 0; lia|]. intros j Hj. split; [by left|]. intros [?|[_ [H|[H _]]]]; [done|by apply elem_of_nil in H..]. }
  apply Forall_app in Hl as [Hl Hg]. apply Forall_singleton in Hg as [Hg0 Hga].
  destruct (IH Hl) as (I1 & I2 & I3 & I4 & I5). unfold f'. rewrite foldl_app. cbn [foldl].
  set (f1 := foldl give_back f l) in *. clearbody f1. clear f' IH.
  assert (Hpin : forall a, is_pinned a f1 = is_pinned a f) by (intros a; unfold is_pinned; by rewrite I3).
  destruct g as [a|a]; cbn [give_back give_addr] in *.
  - destruct (free_frame_rest a f1) as [E1 E2]. split; [by apply frames_wf_free_frame|]. split; [by rewrite E1|].
    split; [congruence|]. split.
    + intros b. rewrite E1, I4, pages_at_snoc, decide_False by done. lia.
    + intros j Hj. cbv zeta. rewrite free_frame_free, I5, Hpin, pages_at_snoc, !elem_of_app, !list_elem_of_singleton by done.
      rewrite decide_False, Z.add_0_r by done. rewrite aligned_frame by done. split.
      * intros [[?|(? & [?|[? ?]])]|[-> ?]]; tauto.
      * intros [?|(? & [[?|[= E]]|[[?|E] ?]])]; [tauto | tauto | right; by rewrite <- E | tauto | discriminate].
  - destruct (release_user_frame_spec a f1 I1 I2 Hg0) as (R1 & R2 & R3 & R4 & R5).
    split; [done|]. split; [done|]. split; [congruence|]. split.
    + intros b. rewrite R4, !I4, pages_at_snoc. destruct (decide (b = a)) as [->|Hb].
      * rewrite decide_True by done. lia.
      * rewrite decide_False by congruence. lia.
    + intros j Hj. cbv zeta. rewrite R5, I5, Hpin, I4, pages_at_snoc, !elem_of_app, !list_elem_of_singleton by done.
      rewrite aligned_frame by done. pose proof (pages_at_nonneg a l) as Hn. split.
      * intros [[?|(? & [?|[? ?]])]|(-> & ? & ?)]; [tauto|tauto| |].
        { right. split; [done|]. right. split; [by left|]. case_decide; lia. }
        right. split; [done|]. right. split; [by right|]. rewrite decide_True by done. lia.
      * intros [?|(Hp & [[?|?]|[[Hin|E] Hle]])]; [tauto|tauto|congruence| |].
        { destruct (decide (Page a = Page (j * FRAME_SIZE))) as [E|E]; [|left; right; split; [done|]; right; split; [done|lia]].
          injection E as ->. destruct (Z.le_gt_cases (refcount (j * FRAME_SIZE) (SHARED_FRAMES f)) (pages_at (j * FRAME_SIZE) l)).
          - tauto.
          - right. split; [done|]. split; [lia|done]. }
        injection E as <-. rewrite decide_True in Hle by done. right. split; [done|]. split; [lia|done].
Qed.

(** ** What a user address space consists of *)

Definition used_entries (m : memory) (t : Z) : list Z := filter (fun i => entry m t i <> 0) (seqZ 0 512).
Definition huge (e : Z) : bool := entry_has e HUGE_PAGE.

(** The frames given back for each kind of table, in order. *)
Definition pt_gives (m : memory) (pt : Z) : list give := used_entries m pt ≫= fun i => [Page (entry_addr (entry m pt i))].
Definition pde_gives (m : memory) (e : Z) : list give :=
  if huge e then (fun i => Page (entry_addr e + i * FRAME_SIZE)) <$> seqZ 0 512
  else pt_gives m (entry_addr e) ++ [Table (entry_addr e)].
Definition pd_gives (m : memory) (pd : Z) : list give := used_entries m pd ≫= fun i => pde_gives m (entry m pd i).
Definition pdpt_gives (m : memory) (pdpt : Z) : list give :=
  used_entries m pdpt ≫= fun i => pd_gives m (entry_addr (entry m pdpt i)) ++ [Table (entry_addr (entry m pdpt i))].
Definition space_gives (m : memory) (root : Z) : list give :=
  if entry m root 1 =? 0 then [] else pdpt_gives m (entry_addr (entry m root 1)) ++ [Table (entry_addr (entry m root 1))].

(** The tables below an entry of each level; a space is a tree when all its tables are different. *)
Definition pde_tables (e : Z) : list Z := if huge e then [] else [entry_addr e].
Definition pd_tables (m : memory) (pd : Z) : list Z := pd :: (used_entries m pd ≫= fun i => pde_tables (entry m pd i)).
Definition pdpt_tables (m : memory) (pdpt : Z) : list Z :=
  pdpt :: (used_entries m pdpt ≫= fun i => pd_tables m (entry_addr (entry m pdpt i))).
Definition space_is_tree (m : memory) (root : Z) : Prop := NoDup (pdpt_tables m (entry_addr (entry m root 1))).

Lemma entry_addr_nonneg e : 0 <= entry_addr e.
Proof. unfold entry_addr. apply land_nonneg_r. unfold PTE_ADDR_MASK. lia. Qed.

Lemma entry_addr_aligned e : entry_addr e mod 4096 = 0.
Proof.
  unfold entry_addr, PTE_ADDR_MASK. change 0x000FFFFFFFFFF000 with (Z.shiftl (Z.ones 40) 12). change 4096 with (2^12).
  rewrite <- Z.land_ones by lia. rewrite <- Z.land_assoc. change (Z.land (Z.shiftl (Z.ones 40) 12) (Z.ones 12)) with 0. apply Z.land_0_r.
Qed.

(** ** Tearing down is giving back exactly that *)

(** The entries of all tables but [ts] are the same. *)
Definition same_except (ts : list Z) (m m' : memory) : Prop :=
  forall q i, q mod 4096 = 0 -> 0 <= i < 512 -> q ∉ ts -> entry m' q i = entry m q i.

Lemma entry_clear m t i q j :
  t mod 4096 = 0 -> q mod 4096 = 0 -> 0 <= i < 512 -> 0 <= j < 512 ->
  entry (wr64 m (t + 8 * i) 0) q j = if decide (q = t /\ j = i) then 0 else entry m q j.
Proof.
  intros Ht Hq Hi Hj. unfold entry. rewrite rd64_wr64 by (lia || (Z.to_euclidean_division_equations; lia)).
  apply decide_ext. split; [intros E; by apply entry_slot_inj in E | by intros [-> ->]].
Qed.

Lemma bind_ext {A B} (g h : A -> list B) (l : list A) : (forall x, x ∈ l -> g x = h x) -> l ≫= g = l ≫= h.
Proof.
  induction l as [|x l IH]; intros H; [done|]. rewrite !bind_cons, IH by (intros y Hy; apply H; by right).
  by rewrite (H x) by left.
Qed.

(** One level of the tree: [body] gives back what hangs below an entry. *)
Section level.
Context (t : Z) (body : Z -> mf -> mf) (G : memory -> Z -> list give) (T : memory -> Z -> list Z).
Hypothesis t_aligned : t mod 4096 = 0.
Hypothesis T_aligned : forall m e q, q ∈ T m e -> q mod 4096 = 0.
Hypothesis body_ok : forall m f e, NoDup (T m e) ->
  exists m1, body e (m, f) = (m1, foldl give_back f (G m e)) /\ same_except (T m e) m m1.
Hypothesis T_local : forall m m' e, (forall q i, q ∈ T m e -> 0 <= i < 512 -> entry m' q i = entry m q i) ->
  G m' e = G m e /\ T m' e = T m e.

Definition level_step (s : mf) (i : Z) : mf :=
  let '(m, f) := s in
  let e := entry m t i in
  if e =? 0 then (m, f) else let '(m1, f1) := body e (m, f) in (wr64 m1 (t + 8 * i) 0, f1).

Lemma level_loop l m f :
  NoDup l -> Forall (fun i => 0 <= i < 512) l ->
  NoDup (t :: (filter (fun i => entry m t i <> 0) l ≫= fun i => T m (entry m t i))) ->
  exists m', foldl level_step (m, f) l = (m', foldl give_back f (filter (fun i => entry m t i <> 0) l ≫= fun i => G m (entry m t i))) /\
    same_except (t :: (filter (fun i => entry m t i <> 0) l ≫= fun i => T m (entry m t i))) m m'.
Proof using All.
  revert m f. induction l as [|i l IH]; intros m f Hnd Hr Htree; cbn [foldl].
  { by exists m. }
  apply NoDup_cons in Hnd as [Hi Hnd]. apply Forall_cons in Hr as [Hir Hr]. rewrite filter_cons in *.
  unfold level_step at 2. destruct (Z.eqb_spec (entry m t i) 0) as [E0|E0].
  { rewrite decide_False in * by (intros H; by apply H). by apply IH. }
  rewrite decide_True in * by done. rewrite !bind_cons in *. set (e := entry m t i) in *.
  apply NoDup_cons in Htree as [Ht Htree]. apply NoDup_app in Htree as (Hd1 & Hd2 & Hd3). rewrite elem_of_app in Ht.
  destruct (body_ok m f e Hd1) as (m1 & E1 & Hsame1). rewrite E1. set (m2 := wr64 m1 (t + 8 * i) 0).
  assert (Hm2 : forall q j, q mod 4096 = 0 -> 0 <= j < 512 -> q ∉ T m e -> q <> t \/ j <> i -> entry m2 q j = entry m q j).
  { intros q j Hq Hj Hn Hor. unfold m2. rewrite entry_clear, decide_False by (done || tauto). by apply Hsame1. }
  assert (Ht2 : forall j, j ∈ l -> entry m2 t j = entry m t j).
  { intros j Hj. rewrite Forall_forall in Hr. apply Hm2; [done | by apply Hr | tauto | right; by intros ->]. }
  assert (Hf : filter (fun i => entry m2 t i <> 0) l = filter (fun i => entry m t i <> 0) l).
  { apply filter_ext_elem. intros j Hj. by rewrite Ht2. }
  assert (Hloc : forall j, j ∈ filter (fun i => entry m t i <> 0) l ->
    G m2 (entry m2 t j) = G m (entry m t j) /\ T m2 (entry m2 t j) = T m (entry m t j)).
  { intros j Hj. rewrite Ht2 by (by apply list_elem_of_filter in Hj as [_ ?]). apply T_local. intros q k Hq Hk.
    assert (Hin : q ∈ filter (fun i => entry m t i <> 0) l ≫= fun i => T m (entry m t i)) by (apply list_elem_of_bind; eauto).
    apply Hm2; [by eapply T_aligned | done | by intros Hn; apply (Hd2 q Hn) | left; intros ->; tauto]. }
  assert (HG : (filter (fun i => entry m2 t i <> 0) l ≫= fun i => G m2 (entry m2 t i)) =
               (filter (fun i => entry m t i <> 0) l ≫= fun i => G m (entry m t i))).
  { rewrite Hf. apply bind_ext. intros j Hj. by apply Hloc. }
  assert (HT : (filter (fun i => entry m2 t i <> 0) l ≫= fun i => T m2 (entry m2 t i)) =
               (filter (fun i => entry m t i <> 0) l ≫= fun i => T m (entry m t i))).
  { rewrite Hf. apply bind_ext. intros j Hj. by apply Hloc. }
  destruct (IH m2 (foldl give_back f (G m e)) Hnd Hr) as (m' & -> & Hsame).
  { rewrite HT. apply NoDup_cons. split; [tauto | done]. }
  exists m'. rewrite HG, foldl_app. split; [done|]. intros q j Hq Hj Hn. rewrite HT in Hsame.
  rewrite elem_of_cons, elem_of_app in Hn. rewrite Hsame; [|done|done|rewrite elem_of_cons; tauto].
  apply Hm2; [done | done | tauto | left; tauto].
Qed.

End level.

Lemma seqZ_512 : NoDup (seqZ 0 512) /\ Forall (fun i => 0 <= i < 512) (seqZ 0 512).
Proof. split; [apply NoDup_seqZ|]. apply Forall_forall. intros i Hi. apply elem_of_seqZ in Hi. lia. Qed.

Lemma used_entries_ext m m' t :
  (forall i, 0 <= i < 512 -> entry m' t i = entry m t i) -> used_entries m' t = used_entries m t.
Proof. intros H. apply filter_ext_elem. intros i Hi%elem_of_seqZ. by rewrite H by lia. Qed.

Lemma used_range m t i : i ∈ used_entries m t -> 0 <= i < 512.
Proof. intros [_ Hi%elem_of_seqZ]%list_elem_of_filter. lia. Qed.

(** What hangs below entries that did not change, of tables that did not change, is the same. *)
Lemma used_bind_ext {A} (g : memory -> Z -> list A) m m' t :
  (forall i, 0 <= i < 512 -> entry m' t i = entry m t i) ->
  (forall i, i ∈ used_entries m t -> g m' (entry m t i) = g m (entry m t i)) ->
  (used_entries m' t ≫= fun i => g m' (entry m' t i)) = (used_entries m t ≫= fun i => g m (entry m t i)).
Proof.
  intros H1 H2. rewrite (used_entries_ext m m' t H1). apply bind_ext. intros i Hi. rewrite H1 by (by eapply used_range). by apply H2.
Qed.

Lemma bind_empty {A B} (l : list A) : (l ≫= fun _ => []) = ([] : list B).
Proof. induction l as [|x l IH]; [done|]. by rewrite bind_cons, IH. Qed.

Lemma free_pt_gives pt m f :
  pt mod 4096 = 0 -> exists m', free_pt pt (m, f) = (m', foldl give_back f (pt_gives m pt)) /\ same_except [pt] m m'.
Proof.
  intros Hpt. destruct seqZ_512 as [N R].
  destruct (level_loop pt (fun e '(m, f) => (m, release_user_frame (entry_addr e) f)) (fun _ e => [Page (entry_addr e)]) (fun _ _ => []))
    with (l := seqZ 0 512) (m := m) (f := f) as (m' & E & Hs); try done.
  - intros m0 e q Hq%elem_of_nil. done.
  - intros m0 f0 e _. by exists m0.
  - rewrite bind_empty. apply NoDup_singleton.
  - exists m'. split; [refine (eq_trans _ E); apply foldl_ext_in; [done|]; by intros [m0 f0] i _|]. by rewrite bind_empty in Hs.
Qed.

Lemma pt_gives_local m m' pt : (forall i, 0 <= i < 512 -> entry m' pt i = entry m pt i) -> pt_gives m' pt = pt_gives m pt.
Proof. intros H. exact (used_bind_ext (fun _ e => [Page (entry_addr e)]) m m' pt H (fun _ _ => eq_refl)). Qed.

Lemma pde_gives_local m m' e :
  (forall q i, q ∈ pde_tables e -> 0 <= i < 512 -> entry m' q i = entry m q i) -> pde_gives m' e = pde_gives m e.
Proof.
  unfold pde_tables, pde_gives. destruct (huge e); [done|]. intros H. f_equal. apply pt_gives_local. intros i Hi.
  apply H; [by apply list_elem_of_singleton | done].
Qed.

Lemma foldl_fmap_give (g : Z -> Z) l f :
  foldl (fun f i => release_user_frame (g i) f) f l = foldl give_back f ((fun i => Page (g i)) <$> l).
Proof. revert f. induction l as [|i l IH]; intros f; [done|]. cbn. by rewrite IH. Qed.

(** The loop bodies as functions of the entry. *)
Definition pde_body (e : Z) (s : mf) : mf :=
  let '(m, f) := s in
  if huge e then (m, foldl (fun f i => release_user_frame (entry_addr e + i * FRAME_SIZE) f) f (seqZ 0 512))
  else let '(m1, f1) := free_pt (entry_addr e) (m, f) in (m1, free_frame (entry_addr e) f1).
Definition pdpte_body (e : Z) (s : mf) : mf :=
  let '(m1, f1) := free_pd (entry_addr e) s in (m1, free_frame (entry_addr e) f1).

Lemma pde_body_ok m f e :
  exists m1, pde_body e (m, f) = (m1, foldl give_back f (pde_gives m e)) /\ same_except (pde_tables e) m m1.
Proof.
  unfold pde_tables, pde_gives, pde_body. destruct (huge e).
  - exists m. split; [|intros q i _ _ _; reflexivity]. apply (f_equal (pair m)), (foldl_fmap_give (fun i => entry_addr e + i * FRAME_SIZE)).
  - destruct (free_pt_gives (entry_addr e) m f (entry_addr_aligned e)) as (m1 & -> & Hs). exists m1. by rewrite foldl_app.
Qed.

Lemma pde_tables_aligned e q : q ∈ pde_tables e -> q mod 4096 = 0.
Proof. unfold pde_tables. destruct (huge e); [by intros ?%elem_of_nil|]. intros ->%list_elem_of_singleton. apply entry_addr_aligned. Qed.

Lemma free_pd_step pd s i : level_step pd pde_body s i =
  (let '(m, f) := s in
   let e := entry m pd i in
   if e =? 0 then (m, f)
   else if entry_has e HUGE_PAGE then
     (wr64 m (pd + 8 * i) 0, foldl (fun f i => release_user_frame (entry_addr e + i * FRAME_SIZE) f) f (seqZ 0 512))
   else let '(m1, f1) := free_pt (entry_addr e) (m, f) in (wr64 m1 (pd + 8 * i) 0, free_frame (entry_addr e) f1)).
Proof.
  destruct s as [m f]. unfold level_step, pde_body, huge. cbv zeta. destruct (entry m pd i =? 0); [reflexivity|].
  destruct (entry_has _ _); [reflexivity|]. destruct (free_pt _ _). reflexivity.
Qed.

Lemma free_pd_gives pd m f :
  pd mod 4096 = 0 -> NoDup (pd_tables m pd) ->
  exists m', free_pd pd (m, f) = (m', foldl give_back f (pd_gives m pd)) /\ same_except (pd_tables m pd) m m'.
Proof.
  intros Hpd Htree. destruct seqZ_512 as [N R].
  destruct (level_loop pd pde_body pde_gives (fun _ e => pde_tables e) Hpd (fun _ e q Hq => pde_tables_aligned e q Hq)
    (fun m f e _ => pde_body_ok m f e) (fun m m' e H => conj (pde_gives_local m m' e H) eq_refl) (seqZ 0 512) m f N R Htree) as (m' & E & Hs).
  exists m'. split; [|exact Hs]. refine (eq_trans _ E). apply foldl_ext_in; [reflexivity|]. intros [m0 f0] i _. symmetry. exact (free_pd_step pd (m0, f0) i).
Qed.

Lemma pd_local m m' pd :
  (forall q i, q ∈ pd_tables m pd -> 0 <= i < 512 -> entry m' q i = entry m q i) ->
  pd_gives m' pd = pd_gives m pd /\ pd_tables m' pd = pd_tables m pd.
Proof.
  intros H. assert (Hpd : forall i, 0 <= i < 512 -> entry m' pd i = entry m pd i) by (intros i Hi; apply H; [by left | done]).
  assert (Hsub : forall i q j, i ∈ used_entries m pd -> q ∈ pde_tables (entry m pd i) -> 0 <= j < 512 -> entry m' q j = entry m q j).
  { intros i q j Hi Hq Hj. apply H; [|done]. right. apply list_elem_of_bind. by exists i. }
  split.
  - apply (used_bind_ext pde_gives); [done|]. intros i Hi. apply pde_gives_local. eauto.
  - unfold pd_tables. f_equal. by apply (used_bind_ext (fun _ e => pde_tables e)).
Qed.

Lemma pd_tables_aligned m pd q : pd mod 4096 = 0 -> q ∈ pd_tables m pd -> q mod 4096 = 0.
Proof.
  intros Hpd [->|(i & Hq & _)%list_elem_of_bind]%elem_of_cons; [done|]. revert Hq. unfold pde_tables.
  destruct (huge _); [by intros ?%elem_of_nil|]. intros ->%list_elem_of_singleton. apply entry_addr_aligned.
Qed.

Lemma pdpte_body_ok m f e :
  NoDup (pd_tables m (entry_addr e)) ->
  exists m1, pdpte_body e (m, f) = (m1, foldl give_back f (pd_gives m (entry_addr e) ++ [Table (entry_addr e)])) /\
    same_except (pd_tables m (entry_addr e)) m m1.
Proof.
  intros Hn. unfold pdpte_body. destruct (free_pd_gives (entry_addr e) m f (entry_addr_aligned e) Hn) as (m1 & -> & Hs).
  exists m1. by rewrite foldl_app.
Qed.

Lemma pdpte_local m m' e :
  (forall q i, q ∈ pd_tables m (entry_addr e) -> 0 <= i < 512 -> entry m' q i = entry m q i) ->
  pd_gives m' (entry_addr e) ++ [Table (entry_addr e)] = pd_gives m (entry_addr e) ++ [Table (entry_addr e)] /\
  pd_tables m' (entry_addr e) = pd_tables m (entry_addr e).
Proof. intros H. destruct (pd_local m m' (entry_addr e) H) as [-> ->]. done. Qed.

Lemma free_pdpt_gives pdpt m f :
  pdpt mod 4096 = 0 -> NoDup (pdpt_tables m pdpt) ->
  exists m', free_pdpt pdpt (m, f) = (m', foldl give_back f (pdpt_gives m pdpt)).
Proof.
  intros Hp Htree. destruct seqZ_512 as [N R].
  destruct (level_loop pdpt pdpte_body (fun m e => pd_gives m (entry_addr e) ++ [Table (entry_addr e)])
    (fun m e => pd_tables m (entry_addr e)) Hp (fun m e q Hq => pd_tables_aligned m _ q (entry_addr_aligned e) Hq)
    pdpte_body_ok pdpte_local (seqZ 0 512) m f N R Htree) as (m' & E & _).
  exists m'. refine (eq_trans _ E). apply foldl_ext_in; [reflexivity|]. intros [m0 f0] i _. unfold level_step, pdpte_body. cbv zeta.
  destruct (entry m0 pdpt i =? 0); [reflexivity|]. destruct (free_pd _ _). reflexivity.
Qed.

Lemma free_user_space_gives root m f :
  space_is_tree m root -> exists m', free_user_space root (m, f) = (m', foldl give_back f (space_gives m root)) /\
    (forall v, is_user_address v = true -> walk m' root v = None).
Proof.
  intros Htree. assert (Hnone : forall mm, entry mm root 1 = 0 -> forall v, is_user_address v = true -> walk mm root v = None).
  { intros mm He v Hv. unfold walk. unfold is_user_address in Hv. apply Z.eqb_eq in Hv. unfold p4_index.
    rewrite Hv, He. reflexivity. }
  unfold free_user_space, space_gives. change (p4_index USER_SPACE_BASE) with 1. cbn [fst]. cbv zeta.
  destruct (Z.eqb_spec (entry m root 1) 0) as [Hz|Hnz]; [exists m; split; [done | by apply Hnone]|].
  destruct (free_pdpt_gives (entry_addr (entry m root 1)) m f (entry_addr_aligned _) Htree) as (m1 & ->).
  eexists. rewrite foldl_app. split; [reflexivity|]. apply Hnone. unfold entry. apply rd64_wr64_eq. lia.
Qed.

Lemma used_entry m t i : 0 <= i < 512 -> entry m t i <> 0 -> i ∈ used_entries m t.
Proof. intros Hi He. apply list_elem_of_filter. split; [done|]. apply elem_of_seqZ. lia. Qed.

Lemma present_used e : entry_has e PRESENT = true -> e <> 0.
Proof. intros H ->. vm_compute in H. discriminate. Qed.

Lemma index_range v n : 0 <= Z.land (Z.shiftr v n) 0x1FF < 512.
Proof. change 0x1FF with (Z.ones 9). rewrite Z.land_ones by lia. by apply Z.mod_pos_bound. Qed.

(** Every frame a user address translates to is released. *)
Lemma walk_gives m root v pa :
  is_user_address v = true -> walk m root v = Some pa -> Page (pa / 4096 * 4096) ∈ space_gives m root.
Proof.
  intros Hv Hw. unfold walk in Hw. unfold is_user_address in Hv. apply Z.eqb_eq in Hv. unfold p4_index in Hw. rewrite Hv in Hw.
  destruct (entry_has (entry m root 1) PRESENT) eqn:E4; [|done]. apply present_used in E4. cbn [negb] in Hw.
  destruct (entry_has (entry m _ (p3_index v)) PRESENT) eqn:E3; [|done]. apply present_used in E3. cbn [negb] in Hw.
  destruct (entry_has (entry m _ (p2_index v)) PRESENT) eqn:E2; [|done]. apply present_used in E2. cbn [negb] in Hw.
  unfold space_gives. rewrite (proj2 (Z.eqb_neq _ _) E4). apply elem_of_app. left.
  apply list_elem_of_bind. exists (p3_index v). split; [|apply used_entry; [apply index_range | done]].
  apply elem_of_app. left. apply list_elem_of_bind. exists (p2_index v). split; [|apply used_entry; [apply index_range | done]].
  unfold pde_gives, huge. set (pde := entry m _ (p2_index v)) in *.
  destruct (entry_has pde HUGE_PAGE).
  - injection Hw as <-. apply list_elem_of_fmap. exists (Z.land v 0x1FFFFF / 4096). change 0x1FFFFF with (Z.ones 21).
    rewrite Z.land_ones by lia. pose proof (Z.mod_pos_bound v (2^21) ltac:(lia)). pose proof (entry_addr_aligned pde) as Ha.
    split; [|apply elem_of_seqZ; Z.to_euclidean_division_equations; lia].
    f_equal. unfold FRAME_SIZE. Z.to_euclidean_division_equations. lia.
  - destruct (entry_has (entry m _ (p1_index v)) PRESENT) eqn:E1; [|done]. apply present_used in E1. injection Hw as <-.
    apply elem_of_app. left. apply list_elem_of_bind. exists (p1_index v). split; [|apply used_entry; [apply index_range | done]].
    apply list_elem_of_singleton. f_equal. change 0xFFF with (Z.ones 12). rewrite Z.land_ones by lia.
    pose proof (Z.mod_pos_bound v (2^12) ltac:(lia)). set (e := entry m _ (p1_index v)). pose proof (entry_addr_aligned e) as Ha.
    Z.to_euclidean_division_equations. lia.
Qed.

(** The tables of the user half. *)
Definition user_tables (m : memory) (root : Z) : list Z :=
  if entry m root 1 =? 0 then [] else pdpt_tables m (entry_addr (entry m root 1)).

Lemma Table_pde m a e : Table a ∈ pde_gives m e <-> a ∈ pde_tables e.
Proof.
  unfold pde_gives, pde_tables. destruct (huge e).
  - split; [by intros (? & ? & _)%list_elem_of_fmap | by intros ?%elem_of_nil].
  - rewrite elem_of_app, !list_elem_of_singleton. split; [|intros ->; by right].
    intros [(i & Hi%list_elem_of_singleton & _)%list_elem_of_bind|[= ->]]; done.
Qed.

Lemma Table_pd m a pd : Table a ∈ pd_gives m pd ++ [Table pd] <-> a ∈ pd_tables m pd.
Proof.
  unfold pd_gives, pd_tables. rewrite elem_of_app, list_elem_of_singleton, elem_of_cons, !list_elem_of_bind.
  setoid_rewrite Table_pde. split; [intros [?|[= ->]]; tauto | intros [-> | ?]; tauto].
Qed.

Lemma Table_space m root a : Table a ∈ space_gives m root <-> a ∈ user_tables m root.
Proof.
  unfold space_gives, user_tables. destruct (entry m root 1 =? 0); [by rewrite !elem_of_nil|].
  unfold pdpt_gives, pdpt_tables. rewrite elem_of_app, list_elem_of_singleton, elem_of_cons, !list_elem_of_bind.
  setoid_rewrite Table_pd. split; [intros [?|[= ->]]; tauto | intros [-> | ?]; tauto].
Qed.

Lemma gives_aligned m root : Forall (fun g => 0 <= give_addr g /\ give_addr g mod 4096 = 0) (space_gives m root).
Proof.
  assert (Ha : forall e i, 0 <= i -> 0 <= entry_addr e + i * FRAME_SIZE /\ (entry_addr e + i * FRAME_SIZE) mod 4096 = 0).
  { intros e i Hi. pose proof (entry_addr_nonneg e). pose proof (entry_addr_aligned e). unfold FRAME_SIZE.
    split; [lia|]. rewrite Z.mod_add by lia. done. }
  assert (Ha0 : forall e, 0 <= entry_addr e /\ entry_addr e mod 4096 = 0) by (intros e; split; [apply entry_addr_nonneg | apply entry_addr_aligned]).
  apply Forall_forall. intros g. unfold space_gives. destruct (_ =? 0); [by intros ?%elem_of_nil|].
  intros [(i3 & H3 & _)%list_elem_of_bind| ->%list_elem_of_singleton]%elem_of_app; [|apply Ha0].
  apply elem_of_app in H3 as [(i2 & H2 & _)%list_elem_of_bind| ->%list_elem_of_singleton]; [|apply Ha0].
  unfold pde_gives in H2. destruct (huge _).
  - apply list_elem_of_fmap in H2 as (i & -> & Hi%elem_of_seqZ). apply Ha. lia.
  - apply elem_of_app in H2 as [(i1 & ->%list_elem_of_singleton & _)%list_elem_of_bind| ->%list_elem_of_singleton]; apply Ha0.
Qed.

(** How many pieces of 4 KiB of user space are mapped to the frame at [a]. *)
Definition mappings (m : memory) (root a : Z) : Z := pages_at a (space_gives m root).

(** C36. Tearing down an address space removes every user mapping and gives every frame back as
    often as it was in use. For an address space whose tables form a tree, after [free_user_space] no
    user address of that root translates; the recorded count of every frame is lower by the number
    of its mappings there; and a managed frame is free exactly if it was free before, or it is not
    pinned and is one of the tables of the space or is mapped in it at least as often as it is
    recorded. In particular an unpinned frame to which a user address translated and which was not
    recorded as shared is free. The free counter stays exact. *)
Theorem free_user_space_unmaps root m f m' f' :
  frames_wf f -> shared_wf (SHARED_FRAMES f) -> space_is_tree m root -> free_user_space root (m, f) = (m', f') ->
  (forall v, is_user_address v = true -> walk m' root v = None) /\
  frames_wf f' /\ shared_wf (SHARED_FRAMES f') /\
  (forall a, refcount a (SHARED_FRAMES f') = Z.max 0 (refcount a (SHARED_FRAMES f) - mappings m root a)) /\
  (forall j, 0 <= j < MAX_MANAGED_FRAMES -> let a := j * FRAME_SIZE in
     (is_free f' j <-> is_free f j \/ is_pinned a f = false /\
        (a ∈ user_tables m root \/ 1 <= mappings m root a /\ refcount a (SHARED_FRAMES f) <= mappings m root a))) /\
  (forall v pa, is_user_address v = true -> walk m root v = Some pa ->
     let a := pa / FRAME_SIZE * FRAME_SIZE in
     a / FRAME_SIZE < MAX_MANAGED_FRAMES -> is_pinned a f = false -> refcount a (SHARED_FRAMES f) <= 1 ->
     is_free f' (a / FRAME_SIZE)).
Proof.
  intros Hwf Hs Htree E. destruct (free_user_space_gives root m f Htree) as (m1 & E1 & Hnone). rewrite E1 in E. injection E as <- <-.
  destruct (give_back_spec (space_gives m root) f Hwf Hs (gives_aligned m root)) as (G1 & G2 & _ & G4 & G5). cbv zeta in *.
  assert (Hpage : forall a, Page a ∈ space_gives m root <-> 1 <= mappings m root a).
  { intros a. unfold mappings, pages_at. split.
    - intros Hin. destruct (filter (fun g => g = Page a) (space_gives m root)) as [|x l] eqn:Ef; [|cbn [length]; lia].
      assert (Hin' : Page a ∈ filter (fun g => g = Page a) (space_gives m root)) by (by apply list_elem_of_filter).
      rewrite Ef in Hin'. by apply elem_of_nil in Hin'.
    - intros Hl. destruct (filter (fun g => g = Page a) (space_gives m root)) as [|x l] eqn:Ef; [cbn in Hl; lia|].
      assert (Hin : x ∈ filter (fun g => g = Page a) (space_gives m root)) by (rewrite Ef; by left).
      by apply list_elem_of_filter in Hin as [-> Hin]. }
  split; [done|]. split; [done|]. split; [done|]. split; [exact G4|].
  assert (Hfree : forall j, 0 <= j < MAX_MANAGED_FRAMES ->
     (is_free (foldl give_back f (space_gives m root)) j <-> is_free f j \/ is_pinned (j * FRAME_SIZE) f = false /\
        (j * FRAME_SIZE ∈ user_tables m root \/ 1 <= mappings m root (j * FRAME_SIZE) /\
         refcount (j * FRAME_SIZE) (SHARED_FRAMES f) <= mappings m root (j * FRAME_SIZE)))).
  { intros j Hj. rewrite G5, Table_space, Hpage by done. done. }
  split; [exact Hfree|]. intros v pa Hv Hw Hm Hpin Hr. unfold FRAME_SIZE in *.
  assert (Hd : pa / 4096 * 4096 / 4096 = pa / 4096) by (by apply Z.div_mul). rewrite Hd in *.
  apply walk_gives in Hw; [|done]. assert (Hin := proj1 (Hpage _) Hw).
  assert (0 <= pa / 4096).
  { pose proof (gives_aligned m root) as Hall. rewrite Forall_forall in Hall. destruct (Hall _ Hw) as [H0 _]. cbn [give_addr] in H0. lia. }
  apply Hfree; [lia|]. right. split; [done|]. right. split; [done|lia].
Qed.
(** One user page (frame 12) below tables in frames 9, 10 and 11 under the root in frame 8. *)
Definition sample_space : memory :=
  set_entry (set_entry (set_entry (set_entry (fun _ => 0) 0x8000 1 0x9000 7) 0x9000 0 0xA000 7) 0xA000 0 0xB000 7)
    0xB000 3 0xC000 7.

Lemma free_user_space_unmaps_witness :
  walk sample_space 0x8000 (USER_SPACE_BASE + 0x3000) = Some 0xC000 /\
  walk (fst (free_user_space 0x8000 (sample_space, sample_frames [5; 6; 7]))) 0x8000 (USER_SPACE_BASE + 0x3000) = None /\
  is_free (snd (free_user_space 0x8000 (sample_space, sample_frames [5; 6; 7]))) 12.
Proof.
  split; [vm_compute; reflexivity|].
  destruct (free_user_space 0x8000 (sample_space, sample_frames [5; 6; 7])) as [m' f'] eqn:E.
  destruct (free_user_space_unmaps 0x8000 sample_space (sample_frames [5; 6; 7]) m' f') as (Hw & _ & _ & _ & _ & Hf); [| | |exact E|].
  - apply sample_frames_wf; [apply (bool_decide_eq_true_1 (NoDup [5; 6; 7])); vm_compute; reflexivity|].
    intros i Hi. rewrite MAX_val. apply elem_of_cons in Hi as [->|Hi]; [lia|].
    apply elem_of_cons in Hi as [->|Hi]; [lia|]. apply list_elem_of_singleton in Hi as ->. lia.
  - apply shared_wf_empty.
  - apply (bool_decide_eq_true_1 (space_is_tree sample_space 0x8000)). vm_compute. reflexivity.
  - split; [apply Hw; vm_compute; reflexivity|].
    apply (Hf (USER_SPACE_BASE + 0x3000) 0xC000); vm_compute; first [reflexivity | discriminate].
Defined.

(** ** A mapper for examples

    Four-level tables written out: missing tables are taken from the allocator and cleared, a used
    leaf entry is an error. *)

Definition table_flags : Z := Z.lor (Z.lor PRESENT WRITABLE) USER_ACCESSIBLE.

Definition soft_next (table i : Z) (s : mf) : map_error + (Z * mf) :=
  let '(m, f) := s in
  let e := entry m table i in
  if entry_has e PRESENT then
    if entry_has e HUGE_PAGE then inl ParentEntryHugePage else inr (entry_addr e, s)
  else
    match allocate_frame f with
    | (None, _) => inl FrameAllocationFailed
    | (Some p, f') => inr (p, (set_entry (zero_page m p) table i p table_flags, f'))
    end.

Definition soft_map_to (root page frame flags : Z) (m : memory) (f : frames) : option map_error * memory * frames :=
  match soft_next root (p4_index page) (m, f) with
  | inl e => (Some e, m, f)
  | inr (pdpt, s) =>
      match soft_next pdpt (p3_index page) s with
      | inl e => (Some e, fst s, snd s)
      | inr (pd, s) =>
          match soft_next pd (p2_index page) s with
          | inl e => (Some e, fst s, snd s)
          | inr (pt, (m, f)) =>
              if entry m pt (p1_index page) =? 0 then (None, set_entry m pt (p1_index page) frame flags, f)
              else (Some PageAlreadyMapped, m, f)
          end
      end
  end.

Definition soft_unmap (root page : Z) (m : memory) : option Z * memory :=
  match walk m root page with
  | Some p =>
      let pdpt := entry_addr (entry m root (p4_index page)) in
      let pd := entry_addr (entry m pdpt (p3_index page)) in
      if entry_has (entry m pd (p2_index page)) HUGE_PAGE then (None, m)
      else (Some p, wr64 m (entry_addr (entry m pd (p2_index page)) + 8 * p1_index page) 0)
  | None => (None, m)
  end.

Definition canonical (v : Z) : bool := (v <? 2^47) || (2^64 - 2^47 <=? v).

Definition soft_mapper : Mapper := {|
  virt_addr_new v := if canonical v then Some v else None;
  phys_addr_new p := if p <? 2^52 then Some p else None;
  map_to := soft_map_to;
  unmap := soft_unmap;
|}.
