(* ===== verification/Domains.v ===== *)
(** * Protection domains (kernel/src/domain.rs)

    The domain table, creation and destruction of domains, and the deferred destruction of a
    domain whose last task exited. *)

From S2P Require Import Prelude Addr Cap Key Klog Frames Sched Net Pager Irq Kernel Ipc Paging.

Definition USER_SPACE_P4_INDEX : Z := 1.
Definition BOOT_DOMAINS : Z := 26.

Definition is_boot (id : Z) : bool := id <? BOOT_DOMAINS.

Definition slot_for (domains : list (option Domain)) : nat :=
  match position is_none domains with Some i => i | None => length domains end.

(** The copy loop of [Domain::new]: the kernel entries of the active root [src]. *)
Definition copy_kernel_entries (src dst : Z) (m : memory) : memory :=
  foldl (fun m i =>
           if i =? USER_SPACE_P4_INDEX then m
           else let e := entry m src i in if e =? 0 then m else wr64 m (dst + 8 * i) e) m (seqZ 0 512).

(** [Domain::new]; the active root is CR3. *)
Definition domain_new (id : Z) : M Domain :=
  o ← on_frames allocate_frame;
  match o with
  | None => panic
  | Some p =>
      _ ← modify (fun k => set_mem k (copy_kernel_entries (cpu_cr3 (k_sched k)) p (zero_page (k_mem k) p)));
      mret (mk_domain id p)
  end.

Definition create : M Z :=
  i ← gets (fun k => slot_for (k_domains k));
  d ← domain_new (Z.of_nat i);
  _ ← modify (fun k =>
        if (i <? length (k_domains k))%nat then set_domains k (<[i := Some d]> (k_domains k))
        else set_domains k (k_domains k ++ [Some d]));
  mret (Z.of_nat i).

Definition is_alive (id : Z) (k : kernel) : bool :=
  match lookupZ (k_domains k) id with Some o => is_some o | None => false end.

Definition alive_count (k : kernel) : Z :=
  Z.of_nat (length (filter (fun o => is_some o = true) (k_domains k))).

(** [paging::free_user_space] on the kernel state. *)
Definition free_space (root : Z) : M unit :=
  modify (fun k => let '(m, f) := free_user_space root (k_mem k, k_frames k) in set_frames (set_mem k m) f).

Definition destroy (id : Z) : M bool :=
  o ← gets (fun k => match lookupZ (k_domains k) id with Some o => o | None => None end);
  match o with
  | None => mret false
  | Some d =>
      _ ← modify (fun k => set_domains k (insertZ (k_domains k) id None));
      _ ← free_space (pml4 d);
      _ ← modify (fun k => set_frames k (free_frame (pml4 d) (k_frames k)));
      _ ← modify (fun k => set_caps k (Cap.remove_domain id (k_caps k)));
      _ ← Ipc.remove_domain id;
      _ ← modify (fun k => set_pagers k (Pager.remove_domain id (k_pagers k)));
      _ ← modify (fun k => set_irq k (Irq.remove_domain id (k_irq k)));
      _ ← modify (fun k => set_sched k (Sched.remove_domain id (k_sched k)));
      mret true
  end.

Definition reset (id : Z) : M bool :=
  o ← gets (fun k => match lookupZ (k_domains k) id with Some o => o | None => None end);
  match o with
  | None => mret false
  | Some d => _ ← free_space (pml4 d); mret true
  end.

Definition request_destroy (id : Z) : M unit :=
  if is_boot id then mret tt else modify (fun k => set_pending_destroy k (k_pending k ++ [id])).

(** The loop of [reclaim_pending]; [PENDING.pop()] takes the last entry. Destroying a domain
    registers no new one, so the length of the queue bounds the number of rounds. *)
Fixpoint reclaim_loop (fuel : nat) : M unit :=
  match fuel with
  | O => mret tt
  | S fuel =>
      id ← step (fun k => match last (k_pending k) with
                          | Some id => Ok (Some id, set_pending_destroy k (removelast (k_pending k)))
                          | None => Ok (None, k)
                          end);
      match id with
      | Some id => _ ← destroy id; reclaim_loop fuel
      | None => mret tt
      end
  end.

Definition reclaim_pending : M unit := n ← gets (fun k => length (k_pending k)); reclaim_loop n.

(** [scheduler::tick], the handler of the timer interrupt. *)
Definition timer_tick : M unit := _ ← reclaim_pending; on_sched tick.

(** [scheduler::exit_current]. *)
Definition exit_current : M sysres :=
  c ← try (fun k => exit_check (k_sched k));
  _ ← (if snd c : bool then request_destroy (fst c) else mret tt);
  _ ← on_sched exit_switch;
  mret Switched.

(** The loop of [reclaim_pending], for any preorder its steps respect. *)
Lemma transforms_reclaim R `{!PreOrder R} :
  (forall id, transforms R (destroy id)) -> (forall k l, R k (set_pending_destroy k l)) -> transforms R reclaim_pending.
Proof.
  intros Hd Hp. unfold reclaim_pending. transform. rename a into n. induction n as [|n IH]; cbn [reclaim_loop]; transform.
  intros k a k' E. unfold step in E. destruct (last (k_pending k)); injection E as <- <-; [apply Hp | reflexivity].
Qed.

(** ** Destruction leaves nothing behind *)

(** Nothing in the kernel refers to domain [id] any more. *)
Record no_trace (id : Z) (k : kernel) : Prop := {
  nt_caps : forall c, ~ held (k_caps k) id c;
  nt_handles : forall h, handle_lookup id h (k_caps k) = None;
  nt_mail : mailbox k id = [];
  nt_pager : pager_of id (k_pagers k) = None;
  nt_irq : forall i, lookupZ (HANDLERS (k_irq k)) i <> Some (Some id);
  nt_vectors : forall v, lookupZ (VECTORS (k_irq k)) v <> Some (Some id);
  nt_mask : forall m, lookupZ (ANY_MASK (k_irq k)) id = Some m -> m = 0;
  nt_tasks : forall i t, get (tasks (k_sched k)) i = Some t -> t_domain t <> id;
  nt_waiters : forall i t, get (tasks (k_sched k)) i = Some t -> t_state t = Blocked -> t_wait_on t <> id;
}.

Lemma lookupZ_set_row {T} (t : list T) id row d :
  0 <= id -> lookupZ (set_row t id row) id = Some row /\
  (d <> id -> lookupZ (set_row t id row) d = lookupZ t d \/ lookupZ t d = None /\ lookupZ (set_row t id row) d = Some row).
Proof.
  intros Hid. unfold set_row. pose proof (length_grow_to t id row Hid) as Hl. split.
  - apply lookupZ_insertZ_eq. destruct (lookupZ (grow_to t id row) id) eqn:E; [eauto|]. apply lookupZ_None in E. lia.
  - intros Hne. rewrite lookupZ_insertZ_ne by congruence. unfold lookupZ. rewrite Hl.
    destruct (Z.leb_spec 0 d); cbn [andb]; [|by left]. rewrite lookup_grow_to by done.
    destruct (Z.ltb_spec d (Z.of_nat (length t))) as [H1|H1].
    + rewrite (proj2 (Z.ltb_lt _ _)) by lia. rewrite decide_True by lia. by left.
    + destruct (Z.ltb_spec d (Z.max (Z.of_nat (length t)) (id + 1))); [|by left].
      rewrite decide_False, decide_True by lia. by right.
Qed.

Lemma removed_caps id s :
  0 <= id ->
  (forall c, ~ held (Cap.remove_domain id s) id c) /\ (forall h, handle_lookup id h (Cap.remove_domain id s) = None) /\
  (forall d c, d <> id -> held (Cap.remove_domain id s) d c <-> held s d c).
Proof.
  intros Hid. unfold Cap.remove_domain. split; [|split].
  - intros c Hc. apply held_alt in Hc as (slots & Hs & Hc). cbn [CAP_TABLE] in Hs.
    rewrite (proj1 (lookupZ_set_row _ id empty_caps 0 Hid)) in Hs. injection Hs as <-.
    apply contains_spec in Hc as [i Hi]. by apply lookup_replicate_1 in Hi as [? _].
  - intros h. unfold handle_lookup. cbn [HANDLE_TABLE].
    rewrite (proj1 (lookupZ_set_row _ id empty_handles 0 Hid)).
    change (lookupZ empty_handles h ≫= (fun slot => slot) = None).
    destruct (lookupZ empty_handles h) as [o|] eqn:E; [|done]. apply lookupZ_Some in E as [_ E].
    by apply lookup_replicate_1 in E as [-> _].
  - intros d c Hne. rewrite !held_alt. cbn [CAP_TABLE].
    destruct (proj2 (lookupZ_set_row (CAP_TABLE s) id empty_caps d Hid) Hne) as [->|[-> ->]]; [done|]. split.
    + intros (slots & [= <-] & Hc). apply contains_spec in Hc as [i Hi]. by apply lookup_replicate_1 in Hi as [? _].
    + by intros (slots & ? & _).
Qed.

Lemma removed_irq id q :
  irq_wf q -> 0 <= id ->
  (forall i, lookupZ (HANDLERS (Irq.remove_domain id q)) i <> Some (Some id)) /\
  (forall v, lookupZ (VECTORS (Irq.remove_domain id q)) v <> Some (Some id)) /\
  (forall m, lookupZ (ANY_MASK (Irq.remove_domain id q)) id = Some m -> m = 0).
Proof.
  intros (_ & _ & _ & Hl) Hid.
  assert (Hclear : forall (l : list (option Z)) i,
    lookupZ ((fun slot => if bool_decide (slot = Some id) then None else slot) <$> l) i <> Some (Some id)).
  { intros l i H. apply lookupZ_Some in H as [_ H]. rewrite list_lookup_fmap in H.
    destruct (l !! Z.to_nat i) as [o|]; [|done]. cbn in H. injection H as H. case_bool_decide; congruence. }
  split; [|split]; cbn [HANDLERS VECTORS ANY_MASK Irq.remove_domain]; [intros; apply Hclear..|].
  intros m. destruct (Z.ltb_spec id ANY_MAX_DOMAINS) as [H|H].
  - rewrite lookupZ_insertZ_eq; [by intros [= <-]|]. destruct (lookupZ (ANY_MASK q) id) eqn:E; [eauto|].
    apply lookupZ_None in E. lia.
  - intros E. apply lookupZ_Some in E as [_ E]. apply lookup_lt_Some in E. lia.
Qed.

Lemma removed_tasks id s i t :
  get (tasks (Sched.remove_domain id s)) i = Some t ->
  t_domain t <> id /\ (t_state t = Blocked -> t_wait_on t <> id).
Proof.
  unfold Sched.remove_domain. cbn [tasks with_tasks]. rewrite get_for_tasks, get_keep.
  destruct (get (tasks s) i) as [u|]; [|done]. cbn [in_domain].
  destruct (Z.eqb_spec (t_domain u) id); [done|]. intros [= <-]. unfold waits_on.
  destruct (bool_decide_reflect (t_state u = Blocked)) as [Hb|Hb]; cbn [andb]; [|done].
  destruct (Z.eqb_spec (t_wait_on u) id) as [Hw|Hw]; [|done]. split; [done | intros E; cbn in E; discriminate].
Qed.

(** The state [destroy] leaves. *)
Definition destroyed (id : Z) (d : Domain) (k : kernel) : kernel :=
  let '(m, f) := free_user_space (pml4 d) (k_mem k, k_frames k) in
  mk_kernel (Cap.remove_domain id (k_caps k)) (Sched.remove_domain id (k_sched k))
    (insertZ (grow_to (k_boxes k) id []) id []) (Pager.remove_domain id (k_pagers k))
    (Irq.remove_domain id (k_irq k)) (k_net k) (k_keys k) (k_log k) (free_frame (pml4 d) f) m
    (insertZ (k_domains k) id None) (k_pending k).

Lemma destroy_spec id k :
  destroy id k = match lookupZ (k_domains k) id with
                 | Some (Some d) => Ok (true, destroyed id d k)
                 | _ => Ok (false, k) end.
Proof.
  unfold destroy. rewrite bind_gets. destruct (lookupZ (k_domains k) id) as [[d|]|]; [|done..].
  unfold free_space, Ipc.remove_domain, set_mailbox. rewrite !bind_modify. unfold destroyed.
  cbn [k_mem k_frames set_domains]. destruct (free_user_space _ _) as [m f]. reflexivity.
Qed.

Lemma destroy_total id k :
  irq_wf (k_irq k) -> 0 <= id ->
  exists b k', destroy id k = Ok (b, k') /\ b = is_alive id k /\ (b = false -> k' = k) /\
    (b = true -> no_trace id k' /\ is_alive id k' = false) /\
    (forall d, d <> id ->
       (forall c, held (k_caps k') d c <-> held (k_caps k) d c) /\ mailbox k' d = mailbox k d /\
       pager_of d (k_pagers k') = pager_of d (k_pagers k) /\ is_alive d k' = is_alive d k) /\
    k_net k' = k_net k.
Proof.
  intros Hirq Hid. rewrite destroy_spec. unfold is_alive.
  destruct (lookupZ (k_domains k) id) as [[d|]|] eqn:E; cbn [is_some is_none negb];
    [|exists false, k; split; [done|]; split; [done|]; split; [done|]; split; [done|]; split; done..].
  exists true, (destroyed id d k). split; [done|]. split; [done|]. split; [done|].
  unfold destroyed. destruct (free_user_space _ _) as [m f].
  destruct (removed_caps id (k_caps k) Hid) as (C1 & C2 & C3).
  destruct (removed_irq id (k_irq k) Hirq Hid) as (I1 & I2 & I3).
  split; [intros _; split; [constructor; cbn [k_caps k_pagers k_irq k_sched]|]|split; [|done]].
  - exact C1.
  - exact C2.
  - unfold mailbox. cbn [k_boxes]. pose proof (proj1 (lookupZ_set_row (k_boxes k) id [] 0 Hid)) as Hr. unfold set_row in Hr. by rewrite Hr.
  - unfold Pager.remove_domain. by rewrite pager_of_set, decide_True.
  - exact I1.
  - exact I2.
  - exact I3.
  - intros i t Ht. apply removed_tasks in Ht as [? _]. done.
  - intros i t Ht. apply removed_tasks in Ht as [_ ?]. done.
  - cbn [k_domains]. by rewrite lookupZ_insertZ_eq by eauto.
  - intros x Hx. cbn [k_caps k_pagers k_domains]. split; [intros c; by apply C3|]. split; [|split].
    + unfold mailbox. cbn [k_boxes].
      destruct (proj2 (lookupZ_set_row (k_boxes k) id [] x Hid) Hx) as [Hs|[-> Hs]]; unfold set_row in Hs;
        by rewrite Hs.
    + unfold Pager.remove_domain. by rewrite pager_of_set, decide_False.
    + by rewrite lookupZ_insertZ_ne by congruence.
Qed.

(** C4. Destroying a domain clears it from every table but that of the network ports. [destroy]
    never panics; on a live domain it clears the slot and afterwards the domain has no capability, no handle, no queued message, no
    pager, no registered interrupt line or vector, no wait mask and no task, and no task is
    blocked on it; every other domain keeps exactly its capabilities, mailbox, pager and slot. On
    a dead slot it does nothing. (The network-port bindings are not touched.) *)
Theorem destroy_leaves_no_trace id k :
  irq_wf (k_irq k) -> 0 <= id ->
  exists b k', destroy id k = Ok (b, k') /\ b = is_alive id k /\ (b = false -> k' = k) /\
    (b = true -> no_trace id k' /\ is_alive id k' = false) /\
    (forall d, d <> id ->
       (forall c, held (k_caps k') d c <-> held (k_caps k) d c) /\ mailbox k' d = mailbox k d /\
       pager_of d (k_pagers k') = pager_of d (k_pagers k) /\ is_alive d k' = is_alive d k) /\
    k_net k' = k_net k.
Proof. apply destroy_total. Qed.

Lemma destroy_leaves_no_trace_witness :
  is_alive 1 sample_kernel = true /\
  exists k', destroy 1 sample_kernel = Ok (true, k') /\ no_trace 1 k' /\ is_alive 1 k' = false.
Proof.
  split; [vm_compute; reflexivity|].
  destruct (destroy_leaves_no_trace 1 sample_kernel) as (b & k' & H1 & H2 & _ & H3 & _).
  - repeat split; vm_compute; reflexivity.
  - lia.
  - assert (b = true) as -> by (rewrite H2; vm_compute; reflexivity). exists k'. split; [exact H1|].
    split; [exact (proj1 (H3 eq_refl)) | exact (proj2 (H3 eq_refl))].
Defined.

(** ** New domains *)

(** The entries of the new root: the kernel part of the old one, and an empty user part. *)
Lemma copy_entries_spec src dst m (n : nat) s i :
  src mod 4096 = 0 -> dst mod 4096 = 0 -> src <> dst -> 0 <= s -> s + Z.of_nat n <= 512 -> 0 <= i < 512 ->
  (forall j, 0 <= j < 512 -> 0 <= entry m src j < 2^64) ->
  entry (foldl (fun m i => if i =? USER_SPACE_P4_INDEX then m
           else let e := entry m src i in if e =? 0 then m else wr64 m (dst + 8 * i) e) m (seqZ s (Z.of_nat n))) dst i =
  if decide (s <= i < s + Z.of_nat n /\ i <> 1 /\ entry m src i <> 0) then entry m src i else entry m dst i.
Proof.
  intros Hsrc Hdst Hne Hs Hn Hi. revert m s Hs Hn. induction n as [|n IH]; intros m s Hs Hn Hr.
  { cbn. rewrite decide_False by lia. done. }
  rewrite seqZ_cons by lia. replace (Z.pred (Z.of_nat (S n))) with (Z.of_nat n) by lia. cbn [foldl].
  set (m1 := if s =? USER_SPACE_P4_INDEX then m else _).
  assert (H1 : forall t j, t mod 4096 = 0 -> 0 <= j < 512 -> entry m1 t j =
    if decide (t = dst /\ j = s /\ s <> 1 /\ entry m src s <> 0) then entry m src s else entry m t j).
  { intros t j Ht Hj. unfold m1, USER_SPACE_P4_INDEX. destruct (Z.eqb_spec s 1) as [->|Hs1];
      [rewrite decide_False by tauto; done|]. cbv zeta.
    destruct (Z.eqb_spec (entry m src s) 0) as [Hz|Hz]; [rewrite decide_False by tauto; done|].
    unfold entry at 1. rewrite rd64_wr64;
      [|Z.to_euclidean_division_equations; lia|Z.to_euclidean_division_equations; lia|apply Hr; lia].
    destruct (decide (t + 8 * j = dst + 8 * s)) as [Hd|Hd].
    - destruct (entry_slot_inj t dst j s Ht Hdst Hj ltac:(lia) Hd) as [-> ->]. by rewrite decide_True by tauto.
    - rewrite decide_False; [done|]. intros (-> & -> & _). done. }
  assert (Hsrc1 : forall j, 0 <= j < 512 -> entry m1 src j = entry m src j).
  { intros j Hj. rewrite H1 by done. by rewrite decide_False by tauto. }
  rewrite IH; [|lia|lia|intros j Hj; rewrite Hsrc1 by done; auto]. rewrite Hsrc1, H1 by done.
  destruct (decide (dst = dst /\ i = s /\ s <> 1 /\ entry m src s <> 0)) as [(_ & -> & H2 & H3)|H2].
  - rewrite decide_False by lia. rewrite decide_True; [done|]. split; [lia | done].
  - apply decide_ext. split; intros (? & ? & ?); (split; [|done]); [lia|].
    destruct (decide (i = s)) as [->|]; [exfalso; tauto | lia].
Qed.

Definition bytes_ok (m : memory) : Prop := forall x, 0 <= m x < 256.

Lemma rd_le_range n m a : bytes_ok m -> 0 <= rd_le n m a < 256 ^ Z.of_nat n.
Proof.
  intros Hm. revert a. induction n as [|n IH]; intros a; [cbn; lia|]. cbn [rd_le].
  rewrite Nat2Z.inj_succ, Z.pow_succ_r by lia. pose proof (IH (a + 1)). pose proof (Hm a). lia.
Qed.

Lemma new_root_entries src p m i :
  src mod 4096 = 0 -> p mod 4096 = 0 -> src <> p -> bytes_ok m -> 0 <= i < 512 ->
  entry (copy_kernel_entries src p (zero_page m p)) p i = if decide (i = 1) then 0 else entry m src i.
Proof.
  intros Hs Hp Hne Hm Hi.
  assert (Hz : forall t j, t mod 4096 = 0 -> 0 <= j < 512 ->
    entry (zero_page m p) t j = if decide (t = p) then 0 else entry m t j).
  { intros t j Ht Hj. unfold entry. rewrite rd64_zero_page; [|done|Z.to_euclidean_division_equations; lia].
    apply decide_ext. Z.to_euclidean_division_equations. lia. }
  unfold copy_kernel_entries. change (seqZ 0 512) with (seqZ 0 (Z.of_nat 512)).
  rewrite copy_entries_spec; [|done|done|done|lia|lia|done|].
  - rewrite !Hz by done. rewrite (decide_True (P := p = p)) by done. rewrite (decide_False (P := src = p)) by done.
    destruct (decide (i = 1)) as [->|H1]; [by rewrite decide_False by tauto|].
    destruct (decide (entry m src i = 0)) as [E|E]; [by rewrite decide_False by tauto | by rewrite decide_True by lia].
  - intros j Hj. rewrite Hz by done. case_decide; [lia|]. unfold entry, rd64.
    pose proof (rd_le_range 8 m (src + 8 * j) Hm) as Hrd. by change (256 ^ Z.of_nat 8) with (2^64) in Hrd.
Qed.

Lemma create_ok k id k' :
  create k = Ok (id, k') ->
  exists p f, allocate_frame (k_frames k) = (Some p, f) /\ id = Z.of_nat (slot_for (k_domains k)) /\
    k_mem k' = copy_kernel_entries (cpu_cr3 (k_sched k)) p (zero_page (k_mem k) p) /\ k_frames k' = f /\
    k_domains k' = (let i := slot_for (k_domains k) in
                    if (i <? length (k_domains k))%nat then <[i := Some (mk_domain id p)]> (k_domains k)
                    else k_domains k ++ [Some (mk_domain id p)]) /\
    k_caps k' = k_caps k /\ k_boxes k' = k_boxes k /\ k_sched k' = k_sched k /\ k_pagers k' = k_pagers k /\
    k_irq k' = k_irq k /\ k_net k' = k_net k /\ k_pending k' = k_pending k /\ k_keys k' = k_keys k /\ k_log k' = k_log k.
Proof.
  unfold create. rewrite bind_gets. intros H. apply M_bind_ok in H as (d & k1 & H1 & H).
  rewrite bind_modify in H. injection H as <- <-. unfold domain_new in H1.
  apply M_bind_ok in H1 as (o & k2 & H2 & H1). unfold on_frames in H2.
  destruct (allocate_frame (k_frames k)) as [o' f] eqn:Ea. injection H2 as <- <-.
  destruct o' as [p|]; [|done]. rewrite bind_modify in H1. injection H1 as <- <-. exists p, f.
  split; [done|]. split; [done|]. cbn [k_domains set_mem set_frames].
  destruct (_ <? _)%nat; repeat (split; [reflexivity|]); reflexivity.
Qed.

Lemma slot_for_spec ds :
  (forall i, (i < slot_for ds)%nat -> exists d, ds !! i = Some (Some d)) /\
  (ds !! slot_for ds = None \/ ds !! slot_for ds = Some None) /\ (slot_for ds <= length ds)%nat.
Proof.
  unfold slot_for. destruct (position is_none ds) as [n|] eqn:E.
  - apply position_Some in E as [(x & Hx & Hn) Hlow]. destruct x; [done|]. split; [|split; [by right|]].
    + intros i Hi. pose proof (lookup_lt_Some _ _ _ Hx). destruct (lookup_lt_is_Some_2 ds i) as [[d|] Hd]; [lia|eauto|].
      by specialize (Hlow i None Hi Hd).
    + apply lookup_lt_Some in Hx. lia.
  - rewrite position_None in E. split; [|split; [left; by apply lookup_ge_None|done]].
    intros i Hi. destruct (lookup_lt_is_Some_2 ds i Hi) as [[d|] Hd]; [eauto|]. by specialize (E i None Hd).
Qed.

(** C37. A new domain starts with an empty user space and the shared kernel mappings. [create]
    returns the lowest id that was not alive (so never the id of a live domain, and a boot
    domain's id only if that domain is dead); its page-table root is a frame that was free; no
    user address translates in it, while each of the other 511 top-level entries equals that of
    the active root; and the slots of all other domains are unchanged. *)
Theorem create_isolated k id k' :
  create k = Ok (id, k') -> bytes_ok (k_mem k) -> cpu_cr3 (k_sched k) mod 4096 = 0 ->
  ~ is_free (k_frames k) (cpu_cr3 (k_sched k) / FRAME_SIZE) ->
  is_alive id k = false /\ (forall d, 0 <= d < id -> is_alive d k = true) /\
  (forall d, d <> id -> lookupZ (k_domains k') d = lookupZ (k_domains k) d) /\
  exists root, lookupZ (k_domains k') id = Some (Some (mk_domain id root)) /\
    is_free (k_frames k) (root / FRAME_SIZE) /\ ~ is_free (k_frames k') (root / FRAME_SIZE) /\
    (forall v, is_user_address v = true -> walk (k_mem k') root v = None) /\
    (forall i, 0 <= i < 512 -> i <> 1 -> entry (k_mem k') root i = entry (k_mem k) (cpu_cr3 (k_sched k)) i).
Proof.
  intros H Hm Ha Hused. apply create_ok in H as (p & f & Hal & Hid & Hmem & Hf & Hd & _).
  apply allocate_frame_Some in Hal as (idx & Hidx & Hp & Hfree & _ & Hf').
  assert (Hpa : p mod 4096 = 0) by (subst p; unfold FRAME_SIZE; apply Z.mod_mul; lia).
  assert (Hpi : p / FRAME_SIZE = idx) by (subst p; unfold FRAME_SIZE; apply Z.div_mul; lia).
  assert (Hne : cpu_cr3 (k_sched k) <> p) by (intros E; rewrite E, Hpi in Hused; exact (Hused Hfree)).
  destruct (slot_for_spec (k_domains k)) as (S1 & S2 & S3). cbv zeta in Hd.
  set (n := slot_for (k_domains k)) in *. subst id.
  split; [|split; [|split; [|exists p; split; [|split; [|split; [|split]]]]]].
  - unfold is_alive. rewrite lookupZ_nat. by destruct S2 as [->| ->].
  - intros d Hd'. destruct (S1 (Z.to_nat d)) as [x Hx]; [lia|]. unfold is_alive.
    assert (lookupZ (k_domains k) d = Some (Some x)) as -> by (apply lookupZ_Some; split; [lia|done]). done.
  - intros d Hne'. rewrite Hd. destruct (Nat.ltb_spec n (length (k_domains k))) as [Hlt|Hge].
    + assert (<[n:=Some (mk_domain (Z.of_nat n) p)]> (k_domains k) =
              insertZ (k_domains k) (Z.of_nat n) (Some (mk_domain (Z.of_nat n) p))) as ->.
      { unfold insertZ. rewrite (proj2 (Z.leb_le _ _)), (proj2 (Z.ltb_lt _ _)) by lia. cbn. by rewrite Nat2Z.id. }
      by apply lookupZ_insertZ_ne.
    + unfold lookupZ. rewrite length_app. cbn [length]. destruct (Z.leb_spec 0 d); cbn [andb]; [|done].
      destruct (Z.ltb_spec d (Z.of_nat (length (k_domains k)))).
      * rewrite (proj2 (Z.ltb_lt _ _)) by lia. apply lookup_app_l. lia.
      * rewrite (proj2 (Z.ltb_ge _ _)) by lia. done.
  - rewrite Hd, lookupZ_nat. destruct (Nat.ltb_spec n (length (k_domains k))); [by apply list_lookup_insert_eq|].
    assert (n = length (k_domains k)) as -> by lia. by rewrite lookup_app_r, Nat.sub_diag by lia.
  - by rewrite Hpi.
  - rewrite Hf, Hpi, Hf'. unfold is_free. cbn [FRAME_BITMAP with_free with_bitmap].
    rewrite bitmap_test_set, decide_True by done. discriminate.
  - intros v Hv. unfold walk, p4_index. unfold is_user_address in Hv. apply Z.eqb_eq in Hv.
    rewrite Hv, Hmem, new_root_entries; [reflexivity | assumption | assumption | assumption | assumption | lia].
  - intros i Hi Hi1. rewrite Hmem, new_root_entries by done. by rewrite decide_False.
Qed.

Lemma create_isolated_witness :
  exists id k' root, create sample_kernel = Ok (id, k') /\ is_alive id sample_kernel = false /\
    walk (k_mem k') root USER_SPACE_BASE = None.
Proof.
  assert (Hv : match create sample_kernel with Ok (i, _) => i =? 4 | Panic => false end = true)
    by (unfold create, domain_new, on_frames; rewrite bind_gets;
        unfold mbind, M_bind; destruct (allocate_frame (k_frames sample_kernel)) as [[p|] f] eqn:E;
        [vm_compute; reflexivity|];
        apply allocate_frame_None in E as [_ E]; exfalso; apply (E 5); [rewrite MAX_val; lia | vm_compute; reflexivity]).
  destruct (create sample_kernel) as [[id k']|] eqn:E; [|discriminate].
  destruct (create_isolated sample_kernel id k' E) as (H1 & _ & _ & root & _ & _ & _ & H2 & _).
  - intros x. cbn. lia.
  - vm_compute. reflexivity.
  - unfold is_free. vm_compute. discriminate.
  - exists id, k', root. split; [reflexivity|]. split; [exact H1|]. apply H2. vm_compute. reflexivity.
Defined.
