(* ===== verification/Exec.v ===== *)
(** * Loading programs (kernel/src/exec.rs)

    [spawn_elf] parses an image, creates a domain with the capabilities needed to reach the file
    services and nothing else, maps the segments and a stack, and starts a task. The image is the
    byte sequence the slice [&[u8]] denotes during the call; page-table updates go through the
    [Mapper] parameter. *)

From S2P Require Import Prelude Addr Cap Key Klog Frames Elf Sched Net Pager Irq Kernel Ipc Paging Domains.

Definition MAX_IMAGE_PAGES : Z := 4096.
Definition MOUNT_SRV_DOMAIN : Z := 9.
Definition MFS_SRV_DOMAIN : Z := 11.

(** [page_vaddr >= start && page_vaddr < end] in [page_perm]. *)
Definition covers (page_vaddr : Z) (seg : Segment) : bool :=
  (page_floor (vaddr seg) <=? page_vaddr) && (page_vaddr <? w64 (vaddr seg + memsz seg)).

Definition page_perm (elf : Image) (page_vaddr : Z) : option UserPagePerm :=
  let '(writable, executable) :=
    foldl (fun '(w, x) seg =>
             if covers page_vaddr seg
             then (w || negb (Z.land (flags seg) PF_W =? 0), x || negb (Z.land (flags seg) PF_X =? 0))
             else (w, x)) (false, false) (segments elf) in
  match writable, executable with
  | true, true => None
  | _, true => Some ReadExecute
  | true, false => Some ReadWrite
  | false, false => Some ReadOnly
  end.

(** [copy_nonoverlapping(image + src_off, dst, n)]; reading past the image has no meaning. *)
Definition copy_bytes (image : list Z) (src_off dst n : Z) (m : memory) : res memory :=
  if (0 <=? src_off) && (src_off + n <=? Z.of_nat (length image)) then
    Ok (fun x => if (dst <=? x) && (x <? dst + n) then default 0 (lookupZ image (src_off + (x - dst))) else m x)
  else Panic.

Definition copy_segment_page (image : list Z) (seg : Segment) (page_vaddr paddr : Z) (m : memory) : res memory :=
  let file_end := w64 (vaddr seg + filesz seg) in
  let page_end := w64 (page_vaddr + FRAME_SIZE) in
  let lo := Z.max page_vaddr (vaddr seg) in
  let hi := Z.min page_end file_end in
  if hi <=? lo then Ok m
  else copy_bytes image (w64 (offset seg + (lo - vaddr seg))) (paddr + (lo - page_vaddr)) (hi - lo) m.

(** The loop [while page_vaddr < end { body; page_vaddr += FRAME_SIZE }] over the pages of a
    segment, stopping when [body] returns [None]. The number of pages bounds the rounds. *)
Fixpoint page_loop (fuel : nat) (page_vaddr stop : Z) (body : Z -> M bool) : M bool :=
  if page_vaddr <? stop then
    match fuel with
    | O => panic
    | S fuel =>
        ok ← body page_vaddr;
        if ok : bool then page_loop fuel (w64 (page_vaddr + FRAME_SIZE)) stop body else mret false
    end
  else mret true.

Definition seg_first (seg : Segment) : Z := page_floor (vaddr seg).
Definition seg_end (seg : Segment) : Z := w64 (vaddr seg + memsz seg).
Definition seg_pages (seg : Segment) : nat := Z.to_nat (div_ceil (seg_end seg - seg_first seg) FRAME_SIZE).

(** [for x in l { body? }]. *)
Fixpoint for_each {A} (l : list A) (body : A -> M bool) : M bool :=
  match l with
  | [] => mret true
  | x :: l => ok ← body x; if ok : bool then for_each l body else mret false
  end.

Section with_mapper.
Context `{Mapper}.

(** A zeroed frame for a user page: [allocate_frame()?] and [write_bytes]. *)
Definition map_fresh (domain vaddr : Z) (perm : UserPagePerm) : M bool :=
  o ← on_frames allocate_frame;
  match o with
  | None => mret false
  | Some p =>
      _ ← modify (fun k => set_mem k (zero_page (k_mem k) p));
      _ ← map_user_page domain vaddr p perm;
      mret true
  end.

(** The body of the first pass: a page is mapped once, with the union of the permissions. *)
Definition map_image_page (elf : Image) (domain page_vaddr : Z) : M bool :=
  o ← resolve_user_page domain page_vaddr;
  match o with
  | Some _ => mret true
  | None =>
      match page_perm elf page_vaddr with
      | None => mret false
      | Some perm => map_fresh domain page_vaddr perm
      end
  end.

(** The body of the second pass. *)
Definition copy_image_page (image : list Z) (seg : Segment) (domain page_vaddr : Z) : M bool :=
  o ← resolve_user_page domain page_vaddr;
  match o with
  | None => mret false
  | Some paddr =>
      m ← try (fun k => copy_segment_page image seg page_vaddr paddr (k_mem k));
      _ ← modify (fun k => set_mem k m);
      mret true
  end.

Definition stack_base : Z := USER_STACK_TOP - USER_STACK_PAGES * FRAME_SIZE.

(** [map_image]; [Some(())] is [true]. *)
Definition map_image (image : list Z) (elf : Image) (domain : Z) : M bool :=
  ok1 ← for_each (segments elf) (fun seg =>
          page_loop (seg_pages seg) (seg_first seg) (seg_end seg) (map_image_page elf domain));
  if negb ok1 then mret false
  else
    ok2 ← for_each (segments elf) (fun seg =>
            page_loop (seg_pages seg) (seg_first seg) (seg_end seg) (copy_image_page image seg domain));
    if negb ok2 then mret false
    else for_each (seqZ 0 USER_STACK_PAGES) (fun i => map_fresh domain (stack_base + i * FRAME_SIZE) ReadWrite).

(** The page budget: the stack and [memsz / FRAME_SIZE + 1] pages per segment. *)
Definition page_budget (elf : Image) : option Z :=
  foldl (fun acc seg => pages ← acc; checked_add pages (memsz seg / FRAME_SIZE + 1)) (Some USER_STACK_PAGES)
    (segments elf).

(** [scheduler::try_spawn_user]; [stack_top] is where the heap puts the new kernel stack. *)
Context (stack_top : Scheduler -> Z).

Definition start_user (entry user_stack domain : Z) : M bool :=
  free ← gets (fun k => existsb is_none (tasks (k_sched k)));
  if free : bool then
    cr3 ← pml4_of domain;
    step (fun k => let '(b, s) := try_spawn_user cr3 (stack_top (k_sched k)) entry user_stack domain (k_sched k) in
                   Ok (b, set_sched k s))
  else mret false.

(** [map_image(..).is_some() && try_spawn_user(..)]. *)
Definition load_image (image : list Z) (elf : Image) (domain : Z) : M bool :=
  ok ← map_image image elf domain;
  if ok : bool then start_user (Elf.entry elf) USER_STACK_TOP domain else mret false.

Definition grant_new (domain : Z) (c : Capability) : M unit := _ ← on_caps_res (grant domain c); mret tt.

Definition spawn_elf (image : list Z) (loader : Z) : M (option Z) :=
  match parse image with
  | Crash => panic
  | Fail => mret None
  | Value elf =>
      match page_budget elf with
      | None => mret None
      | Some pages =>
          if MAX_IMAGE_PAGES <? pages then mret None
          else
            domain ← create;
            _ ← modify (fun k => set_caps k (Cap.add_domain domain (k_caps k)));
            _ ← Ipc.add_domain domain;
            _ ← modify (fun k => set_pagers k (Pager.add_domain domain loader (k_pagers k)));
            _ ← grant_new domain (SendTo MOUNT_SRV_DOMAIN);
            _ ← grant_new domain (SendTo MFS_SRV_DOMAIN);
            _ ← grant_new domain (MapInto MFS_SRV_DOMAIN);
            built ← load_image image elf domain;
            if built : bool then mret (Some domain)
            else _ ← destroy domain; mret None
      end
  end.

Definition spawn_elf_at (domain : Z) (image : list Z) : M bool :=
  match parse image with
  | Crash => panic
  | Fail => mret false
  | Value elf =>
      match page_budget elf with
      | None => mret false
      | Some pages => if MAX_IMAGE_PAGES <? pages then mret false else load_image image elf domain
      end
  end.

End with_mapper.

(** ** Page permissions *)

Definition wants (bit : Z) (elf : Image) (page_vaddr : Z) : Prop :=
  Exists (fun seg => covers page_vaddr seg = true /\ Z.land (flags seg) bit <> 0) (segments elf).

Lemma page_perm_fold v l w x :
  foldl (fun '(w, x) seg =>
           if covers v seg
           then (w || negb (Z.land (flags seg) PF_W =? 0), x || negb (Z.land (flags seg) PF_X =? 0))
           else (w, x)) (w, x) l =
  (w || existsb (fun seg => covers v seg && negb (Z.land (flags seg) PF_W =? 0)) l,
   x || existsb (fun seg => covers v seg && negb (Z.land (flags seg) PF_X =? 0)) l).
Proof.
  revert w x. induction l as [|s l IH]; intros w x; cbn [foldl existsb]; [by rewrite !orb_false_r|].
  destruct (covers v s); rewrite IH; cbn [andb]; [by rewrite !orb_assoc | done].
Qed.

Lemma wants_test bit elf v :
  existsb (fun seg => covers v seg && negb (Z.land (flags seg) bit =? 0)) (segments elf) = true <-> wants bit elf v.
Proof.
  unfold wants. rewrite existsb_exists, Exists_exists. split; intros (s & Hin & Hs); exists s.
  - split; [by apply list_elem_of_In|]. apply andb_prop in Hs as [? Hs]. apply negb_true_iff, Z.eqb_neq in Hs. done.
  - split; [by apply list_elem_of_In|]. destruct Hs as [-> Hs]. cbn [andb]. by apply negb_true_iff, Z.eqb_neq.
Qed.

Lemma perm_flags p :
  has_flag (flags_for p) WRITABLE = (match p with ReadWrite => true | _ => false end) /\
  has_flag (flags_for p) NO_EXECUTE = (match p with ReadExecute => false | _ => true end).
Proof. by destruct p. Qed.

(** The permissions of a page are the union over the segments that touch it, and W^X holds
    page by page. [page_perm] refuses a page exactly when one covering segment is writable and
    one is executable; otherwise the page-table flags it leads to allow writing exactly when some
    covering segment asks for it and allow execution exactly when some covering segment asks for
    it, never both. *)
Theorem page_perm_union elf v :
  (page_perm elf v = None <-> wants PF_W elf v /\ wants PF_X elf v) /\
  (forall p, page_perm elf v = Some p ->
     (has_flag (flags_for p) WRITABLE = true <-> wants PF_W elf v) /\
     (has_flag (flags_for p) NO_EXECUTE = false <-> wants PF_X elf v) /\
     (has_flag (flags_for p) WRITABLE = true -> has_flag (flags_for p) NO_EXECUTE = true)).
Proof.
  unfold page_perm. rewrite page_perm_fold. cbn [orb].
  pose proof (wants_test PF_W elf v) as HW. pose proof (wants_test PF_X elf v) as HX.
  assert (Hb : forall (b : bool) P, (b = true <-> P) -> (b = true /\ P) \/ (b = false /\ ~ P))
    by (intros [] P; intuition congruence).
  destruct (Hb _ _ HW) as [[-> W]|[-> W]], (Hb _ _ HX) as [[-> X]|[-> X]];
    (split; [split; [intros E; first [discriminate E | tauto] | intros [? ?]; first [reflexivity | contradiction]]|]);
    intros p Hp; try discriminate; injection Hp as <-;
    match goal with |- context [flags_for ?q] => destruct (perm_flags q) as [-> ->] end; cbn; intuition congruence.
Qed.

(** ** Copying a segment *)

Definition loadable (image : list Z) (seg : Segment) : Prop :=
  0 <= offset seg /\ 0 <= filesz seg <= memsz seg /\ 0 < memsz seg /\
  offset seg + filesz seg <= Z.of_nat (length image) /\
  USER_SPACE_BASE <= vaddr seg /\ vaddr seg + memsz seg <= USER_SPACE_END.

Lemma parsed_loadable image elf seg :
  is_slice image -> parse image = Value elf -> seg ∈ segments elf -> loadable image seg.
Proof.
  intros Hs Hp Hin. apply parse_segments in Hp as (_ & _ & _ & Hall); [|done].
  rewrite Forall_forall in Hall. specialize (Hall seg Hin). unfold loadable. tauto.
Qed.

Lemma user_end_val : USER_SPACE_END = 0x10000000000.
Proof. reflexivity. Qed.

(** Copying one page of a segment is exact and stays in bounds. For a segment of a parsed
    image and a page address of the user slot, [copy_segment_page] reads only inside the image;
    byte [i] of the frame becomes the file byte at [offset + (page + i - vaddr)] when that address
    lies in the file part of the segment and keeps its value otherwise (the zeroes of [.bss]); no
    byte outside the frame changes. *)
Theorem copy_segment_exact image elf seg page paddr m :
  is_slice image -> parse image = Value elf -> seg ∈ segments elf ->
  0 <= page < USER_SPACE_END -> page mod FRAME_SIZE = 0 ->
  exists m', copy_segment_page image seg page paddr m = Ok m' /\
    (forall i, 0 <= i < FRAME_SIZE ->
       m' (paddr + i) =
       if decide (vaddr seg <= page + i < vaddr seg + filesz seg)
       then default 0 (lookupZ image (offset seg + (page + i - vaddr seg))) else m (paddr + i)) /\
    (forall x, ~ paddr <= x < paddr + FRAME_SIZE -> m' x = m x).
Proof.
  intros Hs Hp Hin Hpage Hal. pose proof (parsed_loadable _ _ _ Hs Hp Hin) as L. destruct L as (L1 & L2 & L3 & L4 & L5 & L6).
  pose proof Hs as [_ Hlen]. unfold copy_segment_page, w64, FRAME_SIZE in *. rewrite user_end_val in *.
  unfold USER_SPACE_BASE in L5. rewrite !Z.mod_small by lia.
  destruct (Z.leb_spec (Z.min (page + 4096) (vaddr seg + filesz seg)) (Z.max page (vaddr seg))).
  { exists m. split; [done|]. split; [|done]. intros i Hi. by rewrite decide_False by lia. }
  unfold copy_bytes. rewrite (proj2 (Z.leb_le 0 _)), (proj2 (Z.leb_le (_ + _) _)) by lia.
  cbn [andb]. eexists. split; [reflexivity|]. split; [intros i Hi|intros x Hx]; cbv beta.
  - destruct (decide _) as [D|D].
    + rewrite (proj2 (Z.leb_le _ _)), (proj2 (Z.ltb_lt _ _)) by lia. cbn [andb]. do 2 f_equal. lia.
    + destruct (Z.leb_spec (paddr + (Z.max page (vaddr seg) - page)) (paddr + i)); cbn [andb]; [|done].
      destruct (Z.ltb_spec (paddr + i) (paddr + (Z.max page (vaddr seg) - page) +
        (Z.min (page + 4096) (vaddr seg + filesz seg) - Z.max page (vaddr seg)))); [lia|done].
  - destruct (Z.leb_spec (paddr + (Z.max page (vaddr seg) - page)) x); cbn [andb]; [|done].
    destruct (Z.ltb_spec x (paddr + (Z.max page (vaddr seg) - page) +
        (Z.min (page + 4096) (vaddr seg + filesz seg) - Z.max page (vaddr seg)))); [lia|done].
Qed.

Lemma copy_segment_exact_witness :
  exists m', copy_segment_page (sample_elf 5 USER_SPACE_BASE 0x2000) (mk_segment 0 USER_SPACE_BASE 0x10 0x2000 5)
               USER_SPACE_BASE 0x5000 (fun _ => 7) = Ok m' /\ m' 0x5001 = 0x45 /\ m' 0x5010 = 7.
Proof.
  destruct (parse (sample_elf 5 USER_SPACE_BASE 0x2000)) as [elf| |] eqn:E; [|vm_compute in E; discriminate..].
  destruct (copy_segment_exact (sample_elf 5 USER_SPACE_BASE 0x2000) elf (mk_segment 0 USER_SPACE_BASE 0x10 0x2000 5)
              USER_SPACE_BASE 0x5000 (fun _ => 7)) as (m' & H1 & H2 & _).
  - exact sample_elf_slice.
  - exact E.
  - vm_compute in E. injection E as <-. vm_compute. left.
  - vm_compute. split; [discriminate|reflexivity].
  - reflexivity.
  - exists m'. split; [exact H1|]. split; [exact (H2 1 ltac:(vm_compute; split; [discriminate|reflexivity]))|].
    exact (H2 16 ltac:(vm_compute; split; [discriminate|reflexivity])).
Defined.

(** ** The loops terminate within the budget *)

Definition page_list (seg : Segment) : list Z :=
  (fun i => seg_first seg + i * FRAME_SIZE) <$> seqZ 0 (Z.of_nat (seg_pages seg)).

Lemma page_loop_list (n : nat) a stop body k :
  0 <= a -> stop < 2^63 -> (stop <= a + Z.of_nat n * FRAME_SIZE) ->
  (n = 0%nat \/ a + (Z.of_nat n - 1) * FRAME_SIZE < stop) ->
  page_loop n a stop body k = for_each ((fun i => a + i * FRAME_SIZE) <$> seqZ 0 (Z.of_nat n)) body k.
Proof.
  revert a k. induction n as [|n IH]; intros a k Ha Hs Hn Hlast; unfold FRAME_SIZE in *.
  { cbn. rewrite (proj2 (Z.ltb_ge _ _)) by lia. done. }
  assert (Hcons : ((fun i => a + i * 4096) <$> seqZ 0 (Z.of_nat (S n))) =
                  a :: ((fun i => (a + 4096) + i * 4096) <$> seqZ 0 (Z.of_nat n))).
  { rewrite seqZ_cons by lia. replace (Z.pred (Z.of_nat (S n))) with (Z.of_nat n) by lia. cbn [fmap list_fmap].
    f_equal; [lia|]. change (Z.succ 0) with (1 + 0). rewrite <- (fmap_add_seqZ 1 0 (Z.of_nat n)).
    rewrite <- list_fmap_compose. apply list_fmap_ext. intros i x Hx. cbn. lia. }
  rewrite Hcons. cbn [page_loop for_each]. rewrite (proj2 (Z.ltb_lt _ _)) by lia.
  unfold mbind, M_bind. destruct (body a k) as [[ok k1]|]; [|done]. destruct ok; [|done].
  unfold w64. destruct n as [|n].
  - cbn [page_loop seqZ]. unfold FRAME_SIZE. rewrite Z.mod_small by lia.
    rewrite (proj2 (Z.ltb_ge _ _)) by lia. done.
  - change FRAME_SIZE with 4096. rewrite Z.mod_small by lia. apply IH; lia.
Qed.

Lemma seg_bounds image seg :
  loadable image seg -> 
  seg_end seg = vaddr seg + memsz seg /\ seg_first seg = vaddr seg - vaddr seg mod FRAME_SIZE /\
  Z.of_nat (seg_pages seg) = div_ceil (seg_end seg - seg_first seg) FRAME_SIZE /\ 1 <= Z.of_nat (seg_pages seg).
Proof.
  intros (L1 & L2 & L3 & L4 & L5 & L6). rewrite user_end_val in L6. unfold USER_SPACE_BASE in L5.
  unfold seg_pages, seg_end, seg_first, w64. rewrite page_floor_spec, Z.mod_small by lia.
  split; [done|]. split; [done|]. unfold div_ceil, FRAME_SIZE. Z.to_euclidean_division_equations. lia.
Qed.

(** The loop over the pages of a segment visits each page once, in order. *)
Lemma segment_loop image seg body k :
  loadable image seg ->
  page_loop (seg_pages seg) (seg_first seg) (seg_end seg) body k = for_each (page_list seg) body k.
Proof.
  intros L. destruct (seg_bounds _ _ L) as (H1 & H2 & H3 & H4). destruct L as (L1 & L2 & L3 & L4 & L5 & L6).
  rewrite user_end_val in L6. unfold USER_SPACE_BASE in L5. unfold page_list.
  apply page_loop_list; unfold div_ceil, FRAME_SIZE in *; rewrite ?H1, ?H2, ?H3 in *;
    Z.to_euclidean_division_equations; lia.
Qed.

Definition total_pages (elf : Image) : Z := foldr (fun seg n => Z.of_nat (length (page_list seg)) + n) USER_STACK_PAGES (segments elf).

Lemma length_page_list seg : length (page_list seg) = seg_pages seg.
Proof. unfold page_list. by rewrite length_fmap, length_seqZ, Nat2Z.id. Qed.

Lemma budget_fold image l acc n :
  Forall (loadable image) l ->
  foldl (fun acc seg => pages ← acc; checked_add pages (memsz seg / FRAME_SIZE + 1)) (Some acc) l = Some n ->
  foldr (fun seg n => Z.of_nat (length (page_list seg)) + n) acc l <= n + Z.of_nat (length l).
Proof.
  revert acc. induction l as [|s l IH]; intros acc Hl; cbn [foldl foldr length].
  { intros [= <-]. lia. }
  inversion_clear Hl as [|? ? Hs Hl']. cbn [mbind option_bind]. unfold checked_add at 2.
  destruct (Z.ltb_spec (acc + (memsz s / FRAME_SIZE + 1)) (2^64)).
  - intros E. apply IH in E; [|done]. rewrite length_page_list. destruct (seg_bounds _ _ Hs) as (H1 & H2 & H3 & _). rewrite H3, H1, H2. unfold div_ceil, FRAME_SIZE in *.
    assert (Hmono : forall a b, foldr (fun seg n => Z.of_nat (length (page_list seg)) + n) (a + b) l =
                     foldr (fun seg n => Z.of_nat (length (page_list seg)) + n) a l + b).
    { clear. intros a b. induction l as [|s l IH]; cbn [foldr]; [done | rewrite IH; lia]. }
    rewrite Hmono in E. Z.to_euclidean_division_equations. lia.
  - intros E. exfalso. clear -E. induction l as [|s l IH]; cbn in E; [done | exact (IH E)].
Qed.

(** The page budget bounds what a load maps. For a parsed image that passes the budget test,
    the loops of [map_image] visit every page that a segment touches exactly once per segment
    (they terminate), and the visited pages together with the stack number at most
    [MAX_IMAGE_PAGES] plus one for every segment: an unaligned segment can touch one page more
    than the [memsz / 4096 + 1] it is charged for. *)
Theorem load_page_bound image elf pages :
  is_slice image -> parse image = Value elf -> page_budget elf = Some pages -> pages <= MAX_IMAGE_PAGES ->
  (forall seg body k, seg ∈ segments elf ->
     page_loop (seg_pages seg) (seg_first seg) (seg_end seg) body k = for_each (page_list seg) body k) /\
  (forall seg a, seg ∈ segments elf ->
     a ∈ page_list seg <-> a mod FRAME_SIZE = 0 /\ exists v, vaddr seg <= v < vaddr seg + memsz seg /\ a <= v < a + FRAME_SIZE) /\
  total_pages elf <= MAX_IMAGE_PAGES + Z.of_nat (length (segments elf)) <= MAX_IMAGE_PAGES + MAX_SEGMENTS.
Proof.
  intros Hs Hp Hb Hmax.
  assert (Hall : Forall (loadable image) (segments elf)) by (apply Forall_forall; intros s; by apply parsed_loadable).
  split; [|split; [|split]].
  - intros seg body k Hin. eapply segment_loop, parsed_loadable; eauto.
  - intros seg a Hin. rewrite Forall_forall in Hall. specialize (Hall seg Hin).
    destruct (seg_bounds _ _ Hall) as (H1 & H2 & H3 & _). destruct Hall as (_ & _ & L3 & _ & L5 & _).
    unfold page_list. rewrite list_elem_of_fmap. setoid_rewrite elem_of_seqZ. rewrite H3, H1, H2.
    unfold div_ceil, FRAME_SIZE, USER_SPACE_BASE in *. split.
    + intros (i & -> & Hi). split; [Z.to_euclidean_division_equations; lia|].
      exists (Z.max (vaddr seg) (vaddr seg - vaddr seg mod 4096 + i * 4096)).
      assert (i * 4096 < memsz seg + vaddr seg mod 4096) by (Z.to_euclidean_division_equations; lia).
      pose proof (Z.mod_pos_bound (vaddr seg) 4096 ltac:(lia)). lia.
    + intros (Ha & v & Hv1 & Hv2). exists ((a - (vaddr seg - vaddr seg mod 4096)) / 4096).
      Z.to_euclidean_division_equations. lia.
  - unfold page_budget in Hb. apply (budget_fold image) in Hb; [|done]. unfold total_pages. lia.
  - apply parse_segments in Hp as ([_ Hl] & _); [|done]. unfold MAX_SEGMENTS in *. lia.
Qed.

Lemma load_page_bound_witness :
  exists elf, parse (sample_elf 5 USER_SPACE_BASE 0x2000) = Value elf /\ total_pages elf <= MAX_IMAGE_PAGES + 1.
Proof.
  destruct (parse (sample_elf 5 USER_SPACE_BASE 0x2000)) as [elf| |] eqn:E; [|vm_compute in E; discriminate..].
  destruct (load_page_bound (sample_elf 5 USER_SPACE_BASE 0x2000) elf 11) as (_ & _ & H & _).
  - exact sample_elf_slice.
  - exact E.
  - vm_compute in E. injection E as <-. vm_compute. reflexivity.
  - vm_compute. discriminate.
  - exists elf. split; [reflexivity|]. replace 1 with (Z.of_nat (length (segments elf))); [exact H|].
    vm_compute in E. injection E as <-. vm_compute. reflexivity.
Defined.

(** ** Loading touches memory and the frame allocator only *)

Definition memory_only (k k' : kernel) : Prop := exists mm ff, k' = set_frames (set_mem k mm) ff.

#[export] Instance memory_only_preorder : PreOrder memory_only.
Proof.
  split.
  - intros k. exists (k_mem k), (k_frames k). by destruct k.
  - intros k1 k2 k3 (m1 & f1 & ->) (m2 & f2 & ->). by exists m2, f2.
Qed.

Lemma memory_only_mem k m : memory_only k (set_mem k m).
Proof. exists m, (k_frames k). by destruct k. Qed.

Lemma memory_only_frames k f : memory_only k (set_frames k f).
Proof. exists (k_mem k), f. by destruct k. Qed.

(** The loops, for any preorder. *)
Lemma transforms_for_each R `{!PreOrder R} {A} (l : list A) body :
  (forall x, transforms R (body x)) -> transforms R (for_each l body).
Proof. intros H. induction l as [|x l IH]; cbn [for_each]; transform. Qed.

Lemma transforms_page_loop R `{!PreOrder R} n v stop body :
  (forall x, transforms R (body x)) -> transforms R (page_loop n v stop body).
Proof. intros H. revert v. induction n as [|n IH]; intros v; cbn [page_loop]; transform. Qed.

Section with_mapper.
Context `{Mapper}.

(** Any relation that lets memory and the allocator change. *)
Section relation.
Context (R : relation kernel) `{!PreOrder R} (Hmem : forall k k', memory_only k k' -> R k k').

Lemma transforms_memory {A} (m : M A) : transforms memory_only m -> transforms R m.
Proof using Hmem. intros Hm k a k' E. apply Hmem. exact (Hm _ _ _ E). Qed.

End relation.

Lemma memory_map_page root v p fl : transforms memory_only (map_page root v p fl).
Proof using.
  unfold map_page. transform. intros k x k' E. unfold step in E.
  destruct (map_to _ _ _ _ _ _) as [[[e|] m] f]; [done|]. injection E as <- <-. by exists m, f.
Qed.

Lemma memory_map_user_page d v p perm : transforms memory_only (map_user_page d v p perm).
Proof using. unfold map_user_page, pml4_of. transform. apply memory_map_page. Qed.

Lemma memory_map_mmio d v p : transforms memory_only (map_mmio d v p).
Proof using. unfold map_mmio, pml4_of. transform. apply memory_map_page. Qed.

Lemma memory_unmap d v : transforms memory_only (unmap_user_page d v).
Proof using.
  unfold unmap_user_page, pml4_of. transform. intros k x k' E. unfold step in E. destruct (unmap _ _ _). injection E as <- <-.
  apply memory_only_mem.
Qed.

Lemma memory_resolve d v : transforms memory_only (resolve_user_page d v).
Proof using. unfold resolve_user_page, pml4_of. transform. Qed.

Lemma memory_frames {A} (f : frames -> A * frames) : transforms memory_only (on_frames f).
Proof using. apply transforms_frames, memory_only_frames. Qed.

Lemma memory_modify (f : kernel -> memory) : transforms memory_only (modify (fun k => set_mem k (f k))).
Proof using. apply transforms_modify. intros. apply memory_only_mem. Qed.

Lemma memory_modify_frames (f : kernel -> frames) : transforms memory_only (modify (fun k => set_frames k (f k))).
Proof using. apply transforms_modify. intros. apply memory_only_frames. Qed.

#[local] Hint Resolve memory_map_user_page memory_resolve memory_frames memory_map_mmio memory_unmap : preserve.

Lemma memory_map_fresh d v perm : transforms memory_only (map_fresh d v perm).
Proof using. unfold map_fresh. transform. apply (memory_modify (fun k => zero_page (k_mem k) _)). Qed.

Lemma memory_map_image image elf d : transforms memory_only (map_image image elf d).
Proof using.
  unfold map_image. transform.
  - apply transforms_for_each; [exact _|]. intros s. apply transforms_page_loop; [exact _|]. intros v.
    unfold map_image_page. transform. apply memory_map_fresh.
  - apply transforms_for_each; [exact _|]. intros s. apply transforms_page_loop; [exact _|]. intros v.
    unfold copy_image_page. transform. apply (memory_modify (fun _ => _)).
  - apply transforms_for_each; [exact _|]. intros i. apply memory_map_fresh.
Qed.

End with_mapper.

#[export] Hint Resolve memory_map_user_page memory_resolve memory_frames memory_map_mmio memory_unmap memory_map_fresh
  memory_map_image : preserve.

(** ** What a new domain holds *)

Lemma grant_row d c s slots i slots' :
  lookupZ (CAP_TABLE s) d = Some slots -> fill_slot c slots = Some (i, slots') ->
  exists s', grant d c s = Ok (true, s') /\ HANDLE_TABLE s' = HANDLE_TABLE s /\
    lookupZ (CAP_TABLE s') d = Some slots'.
Proof.
  intros H1 H2. unfold grant, index. rewrite H1. cbn. rewrite H2. eexists. split; [reflexivity|]. split; [done|].
  cbn. apply lookupZ_insertZ_eq. eauto.
Qed.

Definition default_caps : list Capability :=
  [SendTo MOUNT_SRV_DOMAIN; SendTo MFS_SRV_DOMAIN; MapInto MFS_SRV_DOMAIN].

(** The three grants of [spawn_elf] all find a free slot. *)
Lemma default_grants id s :
  0 <= id ->
  exists s1 s2 s3, grant id (SendTo MOUNT_SRV_DOMAIN) (Cap.add_domain id s) = Ok (true, s1) /\
    grant id (SendTo MFS_SRV_DOMAIN) s1 = Ok (true, s2) /\ grant id (MapInto MFS_SRV_DOMAIN) s2 = Ok (true, s3) /\
    (forall c, held s3 id c <-> c ∈ default_caps) /\ (forall d c, d <> id -> held s3 d c <-> held s d c) /\
    (forall h, handle_lookup id h s3 = None).
Proof.
  intros Hid. change (Cap.add_domain id s) with (Cap.remove_domain id s).
  destruct (removed_caps id s Hid) as (C1 & C2 & C3). set (s0 := Cap.remove_domain id s) in *.
  assert (H0 : lookupZ (CAP_TABLE s0) id = Some empty_caps) by exact (proj1 (lookupZ_set_row _ id empty_caps 0 Hid)).
  destruct (grant_row id (SendTo MOUNT_SRV_DOMAIN) s0 _ _ _ H0 eq_refl) as (s1 & G1 & T1 & H1).
  destruct (grant_row id (SendTo MFS_SRV_DOMAIN) s1 _ _ _ H1 eq_refl) as (s2 & G2 & T2 & H2).
  destruct (grant_row id (MapInto MFS_SRV_DOMAIN) s2 _ _ _ H2 eq_refl) as (s3 & G3 & T3 & H3).
  exists s1, s2, s3. split; [done|]. split; [done|]. split; [done|].
  apply grant_spec in G1 as [_ G1], G2 as [_ G2], G3 as [_ G3]. unfold default_caps. split; [|split].
  - intros c. rewrite G3, G2, G1, !elem_of_cons, elem_of_nil. specialize (C1 c). naive_solver.
  - intros d c Hd. rewrite G3, G2, G1, <- C3 by done. naive_solver.
  - intros h. specialize (C2 h). unfold handle_lookup in *. by rewrite T3, T2, T1.
Qed.

Definition others_kept (id : Z) (k k' : kernel) : Prop :=
  forall d, d <> id ->
    (forall c, held (k_caps k') d c <-> held (k_caps k) d c) /\ mailbox k' d = mailbox k d /\
    pager_of d (k_pagers k') = pager_of d (k_pagers k) /\ is_alive d k' = is_alive d k.

(** The kernel [k'] after a new domain [id] was set up in [k]. *)
Record new_domain (id loader : Z) (k k' : kernel) : Prop := {
  nd_fresh : 0 <= id /\ is_alive id k = false;
  nd_alive : is_alive id k' = true;
  nd_caps : forall c, held (k_caps k') id c <-> c ∈ default_caps;
  nd_handles : forall h, handle_lookup id h (k_caps k') = None;
  nd_mail : mailbox k' id = [];
  nd_pager : pager_of id (k_pagers k') = Some loader;
  nd_others : others_kept id k k';
  nd_irq : k_irq k' = k_irq k;
  nd_net : k_net k' = k_net k;
  nd_len : (length (k_domains k) <= length (k_domains k'))%nat;
}.

(** The domain-creating prefix of [spawn_elf]. *)
Definition setup_domain (loader : Z) : M Z :=
  domain ← create;
  _ ← modify (fun k => set_caps k (Cap.add_domain domain (k_caps k)));
  _ ← Ipc.add_domain domain;
  _ ← modify (fun k => set_pagers k (Pager.add_domain domain loader (k_pagers k)));
  _ ← grant_new domain (SendTo MOUNT_SRV_DOMAIN);
  _ ← grant_new domain (SendTo MFS_SRV_DOMAIN);
  _ ← grant_new domain (MapInto MFS_SRV_DOMAIN);
  mret domain.

Lemma grant_new_eq d c b k s : grant d c (k_caps k) = Ok (b, s) -> grant_new d c k = Ok (tt, set_caps k s).
Proof. intros H. unfold grant_new, on_caps_res, mbind, M_bind. by rewrite H. Qed.

Lemma create_alive k id k' :
  create k = Ok (id, k') -> 0 <= id /\ is_alive id k = false /\ is_alive id k' = true /\
  (forall d, d <> id -> is_alive d k' = is_alive d k).
Proof.
  intros E. apply create_ok in E as (p & f & _ & -> & _ & _ & Hd & _).
  destruct (slot_for_spec (k_domains k)) as (_ & S2 & S3). set (n := slot_for (k_domains k)) in *. cbv zeta in Hd.
  unfold is_alive. rewrite Hd. split; [lia|]. split; [rewrite lookupZ_nat; by destruct S2 as [->| ->]|].
  destruct (Nat.ltb_spec n (length (k_domains k))) as [Hn|Hn].
  - split; [by rewrite lookupZ_nat, list_lookup_insert_eq|]. intros d Hd'.
    assert (lookupZ (<[n:=Some (mk_domain (Z.of_nat n) p)]> (k_domains k)) d = lookupZ (k_domains k) d) as ->; [|done].
    rewrite lookupZ_insert_nat by done. by rewrite decide_False by congruence.
  - assert (n = length (k_domains k)) as Hl by lia. split.
    + rewrite lookupZ_nat, Hl, lookup_app_r, Nat.sub_diag by lia. done.
    + intros d Hd'. unfold lookupZ. rewrite length_app. cbn [length]. destruct (Z.leb_spec 0 d); cbn [andb]; [|done].
      destruct (Z.ltb_spec d (Z.of_nat (length (k_domains k)))).
      * rewrite (proj2 (Z.ltb_lt _ _)), lookup_app_l by lia. done.
      * rewrite (proj2 (Z.ltb_ge _ _)) by lia. done.
Qed.

Lemma setup_domain_ok loader k id k' :
  setup_domain loader k = Ok (id, k') -> new_domain id loader k k' /\ k_sched k' = k_sched k.
Proof.
  unfold setup_domain. intros E. apply M_bind_ok in E as (d & k1 & E1 & E).
  pose proof (create_alive _ _ _ E1) as (Hid & Hfresh & Halive & Hkeep).
  apply create_ok in E1 as (p & f & _ & _ & _ & _ & Hdom & C1 & C2 & C3 & C4 & C5 & C6 & _).
  unfold Ipc.add_domain, set_mailbox in E. rewrite !bind_modify in E.
  destruct (default_grants d (k_caps k) Hid) as (s1 & s2 & s3 & G1 & G2 & G3 & Hc & Ho & Hh).
  rewrite <- C1 in G1.
  do 3 (apply M_bind_ok in E as ([] & ? & E1 & E); erewrite grant_new_eq in E1 by eassumption; injection E1 as <-).
  injection E as <- <-. split; [|exact C3]. constructor; cbn [k_caps k_pagers k_irq k_net set_caps set_pagers set_boxes].
  - done.
  - exact Halive.
  - exact Hc.
  - exact Hh.
  - unfold mailbox. cbn [k_boxes set_caps set_pagers set_boxes].
    pose proof (proj1 (lookupZ_set_row (k_boxes k1) d [] 0 Hid)) as Hr. unfold set_row in Hr. by rewrite Hr.
  - unfold Pager.add_domain. by rewrite pager_of_set, decide_True.
  - intros x Hx. cbn [k_caps k_pagers set_caps set_pagers set_boxes]. split; [intros c; by apply Ho|]. split; [|split].
    + unfold mailbox. cbn [k_boxes set_caps set_pagers set_boxes]. rewrite <- C2.
      destruct (proj2 (lookupZ_set_row (k_boxes k1) d [] x Hid) Hx) as [Hs|[-> Hs]]; unfold set_row in Hs; by rewrite Hs.
    + unfold Pager.add_domain. by rewrite pager_of_set, decide_False, C4 by done.
    + exact (Hkeep x Hx).
  - done.
  - done.
  - cbn [k_domains set_caps set_pagers set_boxes]. rewrite Hdom. cbv zeta. case_match; [by rewrite length_insert|].
    rewrite length_app. lia.
Qed.

(** [destroy] on any domain, without the network bindings. *)
Lemma destroy_effect id k b k' :
  destroy id k = Ok (b, k') -> irq_wf (k_irq k) -> 0 <= id -> is_alive id k = true ->
  is_alive id k' = false /\ no_trace id k' /\ others_kept id k k'.
Proof.
  intros E Hirq Hid Ha. destruct (destroy_total id k Hirq Hid) as (b' & k1 & E' & -> & _ & H1 & H2 & _).
  rewrite E' in E. injection E as <- <-. destruct (H1 Ha) as [? ?]. done.
Qed.

Lemma new_domain_memory id loader k k' mm ff : new_domain id loader k k' -> new_domain id loader k (set_frames (set_mem k' mm) ff).
Proof. intros []. by constructor. Qed.

Lemma others_kept_trans id k k1 k2 : others_kept id k k1 -> others_kept id k1 k2 -> others_kept id k k2.
Proof.
  intros H1 H2 d Hd. destruct (H1 d Hd) as (A1 & A2 & A3 & A4), (H2 d Hd) as (B1 & B2 & B3 & B4).
  split; [intros c; by rewrite B1|]. split; [congruence|]. split; congruence.
Qed.

Section with_mapper.
Context `{Mapper} (stack_top : Scheduler -> Z).

Lemma spawn_elf_split image loader elf pages k :
  parse image = Value elf -> page_budget elf = Some pages -> pages <= MAX_IMAGE_PAGES ->
  spawn_elf stack_top image loader k =
  (domain ← setup_domain loader;
   built ← load_image stack_top image elf domain;
   if built : bool then mret (Some domain) else _ ← destroy domain; mret None) k.
Proof using.
  intros Hp Hb Hm. unfold spawn_elf. rewrite Hp, Hb, (proj2 (Z.ltb_ge _ _)) by done.
  unfold setup_domain, mbind, M_bind. destruct (create k) as [[d k1]|]; [|done].
  unfold Ipc.add_domain, set_mailbox, modify. cbv beta iota.
  do 3 (match goal with |- context [grant_new ?d ?c ?k] => destruct (grant_new d c k) as [[? ?]|]; [|done] end).
  reflexivity.
Qed.

(** The task a successful load starts. *)
Definition starts_task (elf : Image) (id : Z) (k k' : kernel) : Prop :=
  exists slot root ks, tasks (k_sched k) !! slot = Some None /\
    lookupZ (k_domains k') id = Some (Some root) /\
    tasks (k_sched k') = <[slot := Some (mk_task (Z.of_nat slot) Ready REntry (pml4 root) id ks
                                          (Elf.entry elf) USER_STACK_TOP 0 0 0 U64_MAX)]> (tasks (k_sched k)) /\
    current (k_sched k') = current (k_sched k).

Lemma start_user_ok entry stack id k b k' :
  start_user stack_top entry stack id k = Ok (b, k') ->
  if b then exists slot root, tasks (k_sched k) !! slot = Some None /\ lookupZ (k_domains k) id = Some (Some root) /\
              k' = set_sched k (with_tasks (k_sched k)
                     (<[slot := Some (mk_task (Z.of_nat slot) Ready REntry (pml4 root) id (stack_top (k_sched k))
                                        entry stack 0 0 0 U64_MAX)]> (tasks (k_sched k))))
  else k' = k.
Proof using.
  unfold start_user. rewrite bind_gets. destruct (existsb is_none (tasks (k_sched k))).
  2:{ by intros [= <- <-]. }
  intros E. apply M_bind_ok in E as (cr3 & k1 & E1 & E). unfold pml4_of, try in E1.
  destruct (lookupZ (k_domains k) id) as [o|] eqn:Ed; unfold index in E1; rewrite Ed in E1; [|done].
  destruct o as [root|]; [|done]. cbn in E1. injection E1 as <- <-.
  unfold step, try_spawn_user, spawn_user, spawn_inner in E.
  destruct (position is_none (tasks (k_sched k))) as [slot|] eqn:Ep; injection E as <- <-.
  - exists slot, root. apply position_Some in Ep as [(x & Hx & Hn) _]. destruct x; [done|]. done.
  - by destruct k.
Qed.

(** The three ways [spawn_elf] ends: refused, started, or undone. *)
Lemma spawn_elf_cases image loader k r k' :
  spawn_elf stack_top image loader k = Ok (r, k') ->
  (r = None /\ k' = k) \/
  exists elf id, parse image = Value elf /\
    ((r = Some id /\ new_domain id loader k k' /\ starts_task elf id k k') \/
     (exists k1 b, r = None /\ new_domain id loader k k1 /\ k_sched k1 = k_sched k /\ destroy id k1 = Ok (b, k'))).
Proof using.
  intros E. destruct (parse image) as [elf| |] eqn:Hp; unfold spawn_elf in E; rewrite Hp in E;
    [|injection E as <- <-; by left|done].
  destruct (page_budget elf) as [pages|] eqn:Hb; [|injection E as <- <-; by left].
  destruct (Z.ltb_spec MAX_IMAGE_PAGES pages) as [Hm|Hm]; [injection E as <- <-; by left|]. right. exists elf.
  assert (E' : spawn_elf stack_top image loader k = Ok (r, k'))
    by (unfold spawn_elf; rewrite Hp, Hb, (proj2 (Z.ltb_ge _ _)) by done; exact E). clear E.
  rewrite (spawn_elf_split _ _ _ _ _ Hp Hb Hm) in E'. apply M_bind_ok in E' as (id & k1 & E1 & E).
  apply setup_domain_ok in E1 as [N Hs]. apply M_bind_ok in E as (built & k2 & E2 & E).
  unfold load_image in E2. apply M_bind_ok in E2 as (ok & k3 & E3 & E2).
  apply memory_map_image in E3 as (mm & ff & ->). pose proof (new_domain_memory _ _ _ _ mm ff N) as N3.
  set (k3 := set_frames (set_mem k1 mm) ff) in *. exists id. split; [done|].
  assert (H2 : if built then starts_task elf id k k2 /\ new_domain id loader k k2 else k2 = k3).
  { destruct ok; [|by injection E2 as <- <-]. apply start_user_ok in E2. destruct built; [|done].
    destruct E2 as (slot & root & T1 & T2 & ->). change (k_sched k3) with (k_sched k1) in *. rewrite Hs in *. split.
    - by exists slot, root, (stack_top (k_sched k)).
    - destruct N3. by constructor. }
  destruct built.
  - injection E as <- <-. destruct H2 as [H2 H3]. by left.
  - subst k2. apply M_bind_ok in E as (b & k4 & E4 & E). injection E as <- <-. right. by exists k3, b.
Qed.

(** C3. A loaded program starts with the least privilege, and a failed load leaves nothing. When
    [spawn_elf] succeeds, the new domain was dead before; it holds exactly the three
    capabilities [SendTo 9], [SendTo 11] and [MapInto 11], no handle and no queued message; its
    pager is the loader; one task was added in a free slot, ready to enter the image's entry
    point on the new page table; and no other domain's capabilities, mailbox, pager or
    liveness changed. When it fails, either nothing changed or the half-built domain is dead
    again without a trace, and the other domains are as before. The network bindings are those
    before the call in both cases, also the ones a former domain of that id left. *)
Theorem spawn_elf_least_privilege image loader k r k' :
  spawn_elf stack_top image loader k = Ok (r, k') -> irq_wf (k_irq k) ->
  k_net k' = k_net k /\
  match r with
  | Some id => exists elf, parse image = Value elf /\ new_domain id loader k k' /\ starts_task elf id k k'
  | None => k' = k \/
      exists id, is_alive id k = false /\ is_alive id k' = false /\ no_trace id k' /\ others_kept id k k'
  end.
Proof using.
  intros E Hirq. apply spawn_elf_cases in E as [[-> ->]|(elf & id & Hp & [(-> & N & T)|(k1 & b & -> & N & _ & E)])].
  - auto.
  - split; [exact (nd_net _ _ _ _ N) | eauto].
  - assert (Hn : k_net k' = k_net k1).
    { rewrite destroy_spec in E. destruct (lookupZ _ _) as [[]|]; injection E as <- <-; [|done..].
      unfold destroyed. by destruct (free_user_space _ _). }
    rewrite Hn, (nd_net _ _ _ _ N). split; [done|]. right. exists id. destruct (nd_fresh _ _ _ _ N) as [Hid Hf].
    apply destroy_effect in E as (A & B & C); [|by rewrite (nd_irq _ _ _ _ N)|done|exact (nd_alive _ _ _ _ N)].
    split; [done|]. split; [done|]. split; [done|]. exact (others_kept_trans _ _ _ _ (nd_others _ _ _ _ N) C).
Qed.

End with_mapper.

(** ** Examples *)

Definition load_kernel : kernel := set_frames sample_kernel (sample_frames (seqZ 5 40)).

Definition stack_at (s : Scheduler) : Z := 0x444444450000.

(** The sample image loads; the code page is mapped read-execute and holds the image's bytes. *)
Example sample_image_loads :
  match spawn_elf (H := soft_mapper) stack_at (sample_elf 5 USER_SPACE_BASE 0x2000) 0 load_kernel with
  | Ok (Some id, k') =>
      match lookupZ (k_domains k') id with
      | Some (Some d) =>
          match walk (k_mem k') (pml4 d) (USER_SPACE_BASE + 1) with
          | Some p => (id =? 4) && (k_mem k' p =? 0x45) && is_some (walk (k_mem k') (pml4 d) (USER_STACK_TOP - 1))
          | None => false
          end
      | _ => false
      end
  | _ => false
  end = true.
Proof. vm_compute. reflexivity. Qed.

(** An image whose only segment lies on the stack pages passes every check of [parse] and of
    [spawn_elf], and then the mapping of the stack finds the page taken: a panic, not [None]. *)
Definition stack_elf : list Z :=
  take 24 (sample_elf 6 stack_base 0x1000) ++ le_bytes 8 stack_base ++ drop 32 (sample_elf 5 stack_base 0x1000).

Example stack_overlap_panics :
  is_ok (spawn_elf (H := soft_mapper) stack_at stack_elf 0 load_kernel) = false.
Proof. vm_compute. reflexivity. Qed.

Lemma spawn_elf_least_privilege_witness :
  exists id k', spawn_elf (H := soft_mapper) stack_at (sample_elf 5 USER_SPACE_BASE 0x2000) 0 load_kernel = Ok (Some id, k') /\
    new_domain id 0 load_kernel k'.
Proof.
  assert (Hv : match spawn_elf (H := soft_mapper) stack_at (sample_elf 5 USER_SPACE_BASE 0x2000) 0 load_kernel with
               | Ok (Some _, _) => true | _ => false end = true) by (vm_compute; reflexivity).
  destruct (spawn_elf (H := soft_mapper) stack_at (sample_elf 5 USER_SPACE_BASE 0x2000) 0 load_kernel)
    as [[[id|] k']|] eqn:E; [|discriminate..].
  destruct (spawn_elf_least_privilege (H := soft_mapper) stack_at _ _ _ _ _ E) as (_ & elf & _ & N & _).
  - repeat split; vm_compute; reflexivity.
  - exists id, k'. split; [reflexivity | exact N].
Defined.
