(* ===== verification/Syscall.v ===== *)
(** * System calls, interrupt handlers and the kernel as a transition system
    (kernel/src/syscall.rs, kernel/src/arch/idt.rs, kernel/src/bootinfo.rs)

    One definition per arm of [syscall_dispatch]. An arm that blocks ends in [Switched]; the part
    of it that runs when the task is switched to again is a definition of its own, reached from
    the task's saved context through [resume_current]. Arms that belong to the device, display
    and power modules are the parameter [forward]. *)

From S2P Require Import Prelude Addr Cap Key Klog Frames Elf Sched Net Pager Irq Kernel Ipc Paging Domains Exec.

(** ** System-call numbers *)

Definition SYS_YIELD : Z := 0.
Definition SYS_SLEEP : Z := 1.
Definition SYS_SEND : Z := 2.
Definition SYS_RECV : Z := 3.
Definition SYS_PUTS : Z := 4.
Definition SYS_EXIT : Z := 5.
Definition SYS_ALLOC_PAGE : Z := 6.
Definition SYS_SHARE_PAGE : Z := 7.
Definition SYS_UNMAP : Z := 8.
Definition SYS_MAP_ANON : Z := 9.
Definition SYS_PAGE_FAULT_REPLY : Z := 10.
Definition SYS_CALL : Z := 12.
Definition SYS_REPLY : Z := 13.
Definition SYS_REGISTER_IRQ : Z := 14.
Definition SYS_MAP_MMIO : Z := 21.
Definition SYS_PORT_IN8 : Z := 22.
Definition SYS_PORT_IN16 : Z := 23.
Definition SYS_PORT_OUT8 : Z := 24.
Definition SYS_PORT_OUT16 : Z := 25.
Definition SYS_VIRT_TO_PHYS : Z := 26.
Definition SYS_CLEAR : Z := 28.
Definition SYS_CAP_ISSUE : Z := 29.
Definition SYS_CAP_LOOKUP : Z := 30.
Definition SYS_CAP_DROP : Z := 31.
Definition SYS_HANDLE_SEND : Z := 32.
Definition SYS_CAP_SEND : Z := 33.
Definition SYS_IRQ_POLL : Z := 34.
Definition SYS_MSIX_ENABLE : Z := 35.
Definition SYS_IRQ_WAIT : Z := 36.
Definition SYS_SPAWN_ELF : Z := 37.
Definition SYS_DOMAIN_DESTROY : Z := 38.
Definition SYS_DOMAIN_COUNT : Z := 39.
Definition SYS_FRAME_FREE : Z := 40.
Definition SYS_SPAWN_ELF_AT : Z := 41.
Definition SYS_DOMAIN_ALIVE : Z := 42.
Definition SYS_SPAWN_ELF_MODULE : Z := 43.
Definition SYS_FB_INFO : Z := 44.
Definition SYS_FB_MAP : Z := 45.
Definition SYS_FB_TAKEOVER : Z := 46.
Definition SYS_CONSOLE_READY : Z := 47.
Definition SYS_KEY_PUSH : Z := 48.
Definition SYS_KEY_READ : Z := 49.
Definition SYS_DEVICE_CONFIG_READ : Z := 50.
Definition SYS_UNAME : Z := 51.
Definition SYS_DEVICE_INFO : Z := 52.
Definition SYS_DEVICE_GRANT : Z := 53.
Definition SYS_CAP_AUDIT : Z := 54.
Definition SYS_TRY_RECV : Z := 55.
Definition SYS_NET_BIND : Z := 56.
Definition SYS_NET_OWNER : Z := 57.
Definition SYS_LOG_TOTAL : Z := 58.
Definition SYS_LOG_READ : Z := 59.
Definition SYS_PCI_INFO : Z := 60.
Definition SYS_POWEROFF : Z := 61.
Definition SYS_REBOOT : Z := 62.
Definition SYS_KEY_TRY_READ : Z := 63.
Definition SYS_CONSOLE_SCROLL : Z := 64.
Definition SYS_LOG_OLDEST : Z := 65.

Definition MAX_ELF_LEN : Z := 1024 * 1024.

(** ** What the boot loader and the board provide *)

Record ServiceModule : Type := mk_module { m_domain : Z; m_addr : Z; m_len : Z }.

(** The fields of [BootInfo] the kernel reads for the module table, and the table itself. *)
Record BootInfo : Type := mk_bootinfo {
  svc_addr : Z; svc_count : Z; svc_entry_size : Z; svc_table : list ServiceModule;
}.

Definition service_modules (info : BootInfo) : option (list ServiceModule) :=
  if (svc_addr info =? 0) || (svc_count info =? 0) then None
  else if negb (svc_entry_size info =? 24) then None
  else Some (take (Z.to_nat (svc_count info)) (svc_table info)).

Record FbInfo : Type := mk_fbinfo { fb_phys : Z; width : Z; height : Z; stride : Z; fb_bits : Z }.

(** The I/O ports, the display and the boot information. *)
Class Board : Type := {
  port_in : Z -> Z -> Z;          (* [port_in width port] *)
  fb_info : FbInfo;               (* [video::fb_base], [video::fb_geometry] *)
  fb_len : Z;                     (* [video::fb_bytes] *)
  boot_info : BootInfo;
}.

(** ** Access to user memory *)

(** A kernel-mode read of a virtual address; a page fault there halts the machine. *)
Definition load_byte (v : Z) : M Z :=
  try (fun k => if canonical v then
                  match walk (k_mem k) (cpu_cr3 (k_sched k)) v with Some p => Ok (k_mem k p) | None => Panic end
                else Panic).

Fixpoint load_bytes (n : nat) (v : Z) : M (list Z) :=
  match n with
  | O => mret []
  | S n => b ← load_byte v; l ← load_bytes n (w64 (v + 1)); mret (b :: l)
  end.

Definition read_user_payload (ptr : Z) : M (list Z) :=
  if (ptr =? 0) || negb (is_user_address ptr) then mret (replicate (Z.to_nat PAYLOAD_LEN) 0)
  else load_bytes (Z.to_nat PAYLOAD_LEN) ptr.

(** The bytes of a [#[repr(C)] Message]. *)
Definition message_bytes (m : Message) : list Z := le64 8 (from m) ++ le64 8 (to m) ++ le64 8 (tag m) ++ payload m.

Definition user_elf_image (ptr len : Z) : M (option (list Z)) :=
  if negb (is_user_address ptr) || negb ((64 <=? len) && (len <=? MAX_ELF_LEN)) then mret None
  else
    match checked_add ptr len with
    | None => mret None
    | Some stop =>
        if negb (is_user_address (stop - 1)) then mret None
        else
          from ← current_domain;
          let page := page_floor ptr in
          ok ← page_loop (Z.to_nat (div_ceil (stop - page) 4096)) page stop
                 (fun page => o ← resolve_user_page from page; mret (is_some o));
          if ok : bool then image ← load_bytes (Z.to_nat len) ptr; mret (Some image) else mret None
    end.

Section arms.
Context `{Mapper} `{Board}.
Context (stack_top : Scheduler -> Z).

(** [len] bytes of physical memory at [addr]. *)
Definition phys_bytes (addr len : Z) (k : kernel) : list Z := (fun i => k_mem k (addr + i)) <$> seqZ 0 len.

Definition boot_module_image (domain : Z) : M (option (list Z)) :=
  match service_modules boot_info with
  | None => mret None
  | Some modules =>
      match find (fun m => m_domain m =? domain) modules with
      | None => mret None
      | Some m =>
          if (m_len m =? 0) || negb (is_identity_mapped (m_addr m) (m_len m)) then mret None
          else gets (fun k => Some (phys_bytes (m_addr m) (m_len m) k))
      end
  end.

Definition restart_in_place (target : Z) (image : list Z) : M Z :=
  match parse image with
  | Crash => panic
  | Fail => mret U64_MAX
  | Value _ =>
      refuse ← gets (fun k => negb (is_alive target k) || negb (live_tasks target (k_sched k) =? 0));
      if refuse : bool then mret U64_MAX
      else
        _ ← reset target;
        _ ← Ipc.remove_domain target;
        _ ← modify (fun k => set_sched k (snd (reap_terminated target (k_sched k))));
        ok ← spawn_elf_at stack_top target image;
        mret (if ok : bool then target else U64_MAX)
  end.

Fixpoint irq_mask_loop (fuel : nat) (i domain mask : Z) : M bool :=
  match fuel with
  | O => mret true
  | S fuel =>
      if Z.land mask (Z.shiftl 1 i) =? 0 then irq_mask_loop fuel (i + 1) domain mask
      else
        let vector := MSI_VECTOR_BASE + i in
        cap ← has_cap domain (Cap.Irq vector);
        if negb cap then mret false
        else
          reg ← try (fun k => is_registered_by vector domain (k_irq k));
          if negb reg then mret false else irq_mask_loop fuel (i + 1) domain mask
  end.

Definition irq_mask_ok (domain mask : Z) : M bool := irq_mask_loop (Z.to_nat MSI_VECTOR_COUNT) 0 domain mask.

(** ** The arms *)

Definition flag (b : bool) : M sysres := ret (b2z b).

Definition sys_yield : M sysres := _ ← on_sched yield_now; mret Switched.
Definition sys_sleep (a1 : Z) : M sysres := _ ← on_sched (sleep a1); mret Switched.

Definition sys_send (a1 a2 a3 : Z) : M sysres :=
  payload ← read_user_payload a3;
  ok ← send a1 a2 payload;
  flag ok.

(** The end of SYS_RECV, once [receive] has a message. *)
Definition store_message (a1 : Z) (msg : Message) : M sysres :=
  mret (Return (tag msg) (if a1 =? 0 then [] else [Store a1 (message_bytes msg)])).

Definition sys_recv (a1 : Z) : M sysres :=
  o ← receive a1;
  match o with Some msg => store_message a1 msg | None => mret Switched end.

Definition finish_call (o : option Message) : M sysres :=
  match o with Some m => ret (tag m) | None => mret Switched end.

Definition sys_call (a1 a2 a3 : Z) : M sysres :=
  payload ← read_user_payload a3;
  o ← call a1 a2 payload;
  finish_call o.

Definition sys_reply (a1 : Z) : M sysres := ok ← reply a1 []; flag ok.

Definition inc_frame (p : Z) : M unit := modify (fun k => set_frames k (inc_ref p (k_frames k))).

(** [if dec_ref(p) { free_frame(p) }]. *)
Definition drop_frame (p : Z) : M unit :=
  last ← on_frames (dec_ref p);
  if last : bool then modify (fun k => set_frames k (free_frame p (k_frames k))) else mret tt.

Definition sys_alloc_page (a1 : Z) : M sysres :=
  if negb (is_user_address a1) then ret 0
  else
    o ← on_frames allocate_frame;
    match o with
    | None => ret 0
    | Some paddr =>
        domain ← current_domain;
        _ ← map_user_page domain a1 paddr ReadWrite;
        _ ← inc_frame paddr;
        ret 1
    end.

Definition sys_share_page (a1 a2 : Z) : M sysres :=
  from ← current_domain;
  allowed ← has_cap from (MapInto a2);
  if negb allowed then ret 0
  else if negb (is_user_address a1) then ret 0
  else
    o ← resolve_user_page from a1;
    match o with
    | None => ret 0
    | Some paddr =>
        old ← resolve_user_page a2 a1;
        let map_in :=
          _ ← map_user_page a2 a1 paddr ReadWrite;
          _ ← inc_frame paddr;
          ret 1 in
        match old with
        | None => map_in
        | Some old =>
            if old =? paddr then ret 1
            else
              u ← unmap_user_page a2 a1;
              _ ← (match u with Some u => drop_frame u | None => mret tt end);
              map_in
        end
    end.

Definition sys_unmap (a1 : Z) : M sysres :=
  domain ← current_domain;
  o ← unmap_user_page domain a1;
  match o with
  | Some paddr => _ ← drop_frame paddr; ret 1
  | None => ret 0
  end.

Definition sys_map_anon (a1 a2 : Z) : M sysres :=
  from ← current_domain;
  allowed ← has_cap from (MapInto a1);
  if negb allowed then ret 0
  else if negb (is_user_address a2) then ret 0
  else
    o ← on_frames allocate_frame;
    match o with
    | Some p =>
        _ ← modify (fun k => set_mem k (zero_page (k_mem k) p));
        _ ← map_user_page a1 a2 p ReadWrite;
        _ ← inc_frame p;
        ret 1
    | None => ret 0
    end.

Definition sys_page_fault_reply : M sysres :=
  target ← try (fun k => current_reply_target (k_sched k));
  if negb (target =? U64_MAX) then _ ← wake target; ret 1 else ret 0.

Definition on_irq_unit (f : irq_state -> res irq_state) : M unit :=
  on_irq (fun q => q' ← f q; mret (tt, q')).

Definition sys_register_irq (a1 : Z) : M sysres :=
  domain ← current_domain;
  let irq := w8 a1 in
  allowed ← has_cap domain (Cap.Irq irq);
  if negb allowed then ret 0
  else if irq <? 16 then _ ← on_irq_unit (register irq domain); ret 1
  else if 32 <=? irq then _ ← on_irq_unit (register_vector irq domain); ret 1
  else ret 0.

(** [take_pending_any(mask, domain).map_or(0, ..)]. *)
Definition take_any (mask domain : Z) : M (option Z) := on_irq (take_pending_any mask domain).

Definition sys_irq_poll (a1 : Z) : M sysres :=
  domain ← current_domain;
  if a1 =? 0 then ret 0
  else
    ok ← irq_mask_ok domain a1;
    if negb ok then ret 0 else v ← take_any a1 domain; ret (default 0 v).

Definition sys_irq_wait (a1 a2 : Z) : M sysres :=
  domain ← current_domain;
  if a1 =? 0 then ret 0
  else
    ok ← irq_mask_ok domain a1;
    if negb ok then ret 0
    else
      v ← take_any a1 domain;
      match v with
      | Some vector => ret vector
      | None =>
          set ← on_irq (fun q => Ok (set_any_mask domain a1 q));
          if negb set then ret 0
          else
            _ ← on_sched (block_current_timeout_ms (RIrqWait domain a1) (irq_wait_token domain) a2);
            mret Switched
      end.

(** SYS_IRQ_WAIT after the task was switched to again. *)
Definition irq_wait_resume (domain mask : Z) : M sysres :=
  _ ← on_irq (fun q => Ok (tt, clear_any_mask domain q));
  v ← take_any mask domain;
  ret (default 0 v).

Definition sys_map_mmio (a1 a2 : Z) : M sysres :=
  domain ← current_domain;
  let bar := page_floor a1 in
  allowed ← has_cap domain (Mmio bar);
  if allowed && is_user_address a2 then _ ← map_mmio domain a2 bar; ret 1 else ret 0.

Definition may_use_port (port : Z) : M bool :=
  domain ← current_domain; gets (fun k => has_port domain port (k_caps k)).

Definition sys_port_in (width a1 : Z) : M sysres :=
  let port := w16 a1 in
  ok ← may_use_port port;
  if ok : bool then ret (port_in width port) else ret U64_MAX.

Definition sys_port_out (width a1 a2 : Z) : M sysres :=
  let port := w16 a1 in
  ok ← may_use_port port;
  if ok : bool then mret (Return 0 [PortOut width port (a2 mod 2 ^ width)]) else ret U64_MAX.

Definition sys_virt_to_phys (a1 : Z) : M sysres :=
  domain ← current_domain;
  if is_user_address a1 then o ← resolve_user_page domain a1; ret (default 0 o) else ret 0.

Definition sys_cap_issue (a1 : Z) : M sysres :=
  domain ← current_domain; h ← on_caps (handle_issue domain a1); ret h.

Definition sys_cap_lookup (a1 : Z) : M sysres :=
  domain ← current_domain; o ← gets (fun k => handle_lookup domain a1 (k_caps k)); ret (default U64_MAX o).

Definition sys_cap_drop (a1 : Z) : M sysres :=
  domain ← current_domain; ok ← on_caps (handle_drop domain a1); flag ok.

Definition sys_handle_send (a1 a2 : Z) : M sysres :=
  me ← current_domain;
  allowed ← has_cap me (SendTo a1);
  if negb allowed then ret U64_MAX else h ← on_caps (handle_move me a1 a2); ret h.

Definition sys_cap_send (a1 a2 a3 : Z) : M sysres :=
  me ← current_domain;
  allowed ← has_cap me (SendTo a1);
  if negb allowed then ret 0
  else
    match decode a2 a3 with
    | Some cap => ok ← on_caps (delegate me a1 cap); flag ok
    | None => ret 0
    end.

(** SYS_PUTS: the text goes to the log; drawing it on the screen is not modelled. *)
Definition sys_puts (a1 a2 : Z) : M sysres :=
  bytes ← load_bytes (Z.to_nat a2) a1;
  _ ← modify (fun k => mk_kernel (k_caps k) (k_sched k) (k_boxes k) (k_pagers k) (k_irq k) (k_net k) (k_keys k)
                         (capture_bytes bytes (k_log k)) (k_frames k) (k_mem k) (k_domains k) (k_pending k));
  ret 0.

(** [if !has(from, Spawn) { return refused }]. *)
Definition with_spawn (refused : Z) (body : Z -> M sysres) : M sysres :=
  from ← current_domain;
  allowed ← has_cap from Spawn;
  if negb allowed then ret refused else body from.

Definition sys_spawn_elf (a1 a2 : Z) : M sysres :=
  with_spawn U64_MAX (fun from =>
    image ← user_elf_image a1 a2;
    match image with
    | None => ret U64_MAX
    | Some image => o ← spawn_elf stack_top image from; ret (default U64_MAX o)
    end).

Definition sys_spawn_elf_at (a1 a2 a3 : Z) : M sysres :=
  with_spawn U64_MAX (fun _ =>
    image ← user_elf_image a2 a3;
    match image with
    | None => ret U64_MAX
    | Some image => v ← restart_in_place a1 image; ret v
    end).

Definition sys_spawn_elf_module (a1 : Z) : M sysres :=
  with_spawn U64_MAX (fun _ =>
    image ← boot_module_image a1;
    match image with
    | None => ret U64_MAX
    | Some image => v ← restart_in_place a1 image; ret v
    end).

(** The bytes of a [#[repr(C)] FbInfo]. *)
Definition fbinfo_bytes (i : FbInfo) : list Z :=
  le64 8 (fb_phys i) ++ le64 4 (width i) ++ le64 4 (height i) ++ le64 4 (stride i) ++ le64 4 (fb_bits i).

Definition sys_fb_info (a1 : Z) : M sysres :=
  domain ← current_domain;
  allowed ← has_cap domain Fb;
  if negb allowed then ret 0
  else if (a1 =? 0) || negb (is_user_address a1) || negb (is_user_address (w64 (a1 + 24 - 1))) then ret 0
  else mret (Return 1 [Store a1 (fbinfo_bytes fb_info)]).

Definition sys_fb_map (a1 : Z) : M sysres :=
  domain ← current_domain;
  allowed ← has_cap domain Fb;
  if negb allowed then ret 0
  else
    let base := fb_phys fb_info in
    if (base =? 0) || (fb_len =? 0) || negb (Z.land a1 0xFFF =? 0) then ret 0
    else
      match checked_add a1 fb_len with
      | None => ret 0
      | Some stop =>
          if negb (is_user_address a1) || negb (is_user_address (stop - 1)) then ret 0
          else
            let pages := seqZ 0 (div_ceil fb_len 4096) in
            free ← for_each pages (fun i => o ← resolve_user_page domain (a1 + i * 4096); mret (is_none o));
            if negb free then ret 0
            else
              _ ← for_each pages (fun i => _ ← map_mmio domain (a1 + i * 4096) (w64 (base + i * 4096)); mret true);
              ret 1
      end.

(** [key::push] ignores whether the queue had room. *)
Definition sys_key_push (a1 : Z) : M sysres :=
  _ ← on_keys (push (w8 a1));
  _ ← wake KEY_WAIT;
  ret 1.

(** One turn of the loop of SYS_KEY_READ. *)
Definition sys_key_read : M sysres :=
  o ← on_keys pop;
  match o with
  | Some c => ret c
  | None => _ ← on_sched (block_current RKeyRead KEY_WAIT); mret Switched
  end.

Definition sys_key_try_read : M sysres := o ← on_keys pop; ret (default U64_MAX o).

Definition sys_domain_alive (a1 : Z) : M sysres :=
  b ← gets (fun k => is_alive a1 k && (0 <? live_tasks a1 (k_sched k))); flag b.

Definition sys_domain_destroy (a1 : Z) : M sysres :=
  with_spawn 0 (fun from =>
    owner ← gets (fun k => pager_of a1 (k_pagers k));
    if negb (bool_decide (owner = Some from)) then ret 0
    else ok ← destroy a1; flag ok).

Definition sys_cap_audit (a1 a2 : Z) : M sysres :=
  with_spawn 0 (fun _ =>
    o ← gets (fun k => audit_slot a1 a2 (k_caps k));
    match o with
    | Some (Some cap) => ret (pack_audit cap)
    | Some None => ret 0
    | None => ret U64_MAX
    end).

Definition sys_try_recv (a1 : Z) : M sysres :=
  o ← try_receive;
  match o with Some msg => store_message a1 msg | None => ret U64_MAX end.

Definition sys_net_bind (a1 : Z) : M sysres :=
  me ← current_domain;
  ok ← step (fun k => let '(b, t) := bind me (w16 a1) (k_caps k) (k_net k) in Ok (b, set_net k t));
  flag ok.

Definition sys_log_read (a1 a2 a3 : Z) : M sysres :=
  r ← gets (fun k => handle_read a1 a2 a3 (k_log k));
  mret (Return (fst r) (match snd r with [] => [] | out => [Store a1 out] end)).

(** The arms of other modules: MSI-X, device configuration, display, version, PCI, power. *)
Context (forward : Z -> Z -> Z -> Z -> M sysres).

Definition sys_power (num : Z) : M sysres := with_spawn 0 (fun _ => forward num 0 0 0).

Definition is_forwarded (num : Z) : bool :=
  bool_decide (num ∈ [SYS_MSIX_ENABLE; SYS_DEVICE_CONFIG_READ; SYS_CLEAR; SYS_FB_TAKEOVER; SYS_CONSOLE_READY;
                      SYS_CONSOLE_SCROLL; SYS_UNAME; SYS_DEVICE_INFO; SYS_DEVICE_GRANT; SYS_PCI_INFO;
                      SYS_POWEROFF; SYS_REBOOT]).

Definition syscall_dispatch (num a1 a2 a3 : Z) : M sysres :=
  if num =? SYS_YIELD then sys_yield
  else if num =? SYS_SLEEP then sys_sleep a1
  else if num =? SYS_SEND then sys_send a1 a2 a3
  else if num =? SYS_RECV then sys_recv a1
  else if num =? SYS_CALL then sys_call a1 a2 a3
  else if num =? SYS_REPLY then sys_reply a1
  else if num =? SYS_ALLOC_PAGE then sys_alloc_page a1
  else if num =? SYS_SHARE_PAGE then sys_share_page a1 a2
  else if num =? SYS_UNMAP then sys_unmap a1
  else if num =? SYS_MAP_ANON then sys_map_anon a1 a2
  else if num =? SYS_PAGE_FAULT_REPLY then sys_page_fault_reply
  else if num =? SYS_REGISTER_IRQ then sys_register_irq a1
  else if num =? SYS_IRQ_POLL then sys_irq_poll a1
  else if num =? SYS_IRQ_WAIT then sys_irq_wait a1 a2
  else if num =? SYS_MAP_MMIO then sys_map_mmio a1 a2
  else if num =? SYS_PORT_IN8 then sys_port_in 8 a1
  else if num =? SYS_PORT_IN16 then sys_port_in 16 a1
  else if num =? SYS_PORT_OUT8 then sys_port_out 8 a1 a2
  else if num =? SYS_PORT_OUT16 then sys_port_out 16 a1 a2
  else if num =? SYS_VIRT_TO_PHYS then sys_virt_to_phys a1
  else if num =? SYS_CAP_ISSUE then sys_cap_issue a1
  else if num =? SYS_CAP_LOOKUP then sys_cap_lookup a1
  else if num =? SYS_CAP_DROP then sys_cap_drop a1
  else if num =? SYS_HANDLE_SEND then sys_handle_send a1 a2
  else if num =? SYS_CAP_SEND then sys_cap_send a1 a2 a3
  else if num =? SYS_PUTS then sys_puts a1 a2
  else if num =? SYS_SPAWN_ELF then sys_spawn_elf a1 a2
  else if num =? SYS_SPAWN_ELF_AT then sys_spawn_elf_at a1 a2 a3
  else if num =? SYS_SPAWN_ELF_MODULE then sys_spawn_elf_module a1
  else if num =? SYS_FB_INFO then sys_fb_info a1
  else if num =? SYS_FB_MAP then sys_fb_map a1
  else if num =? SYS_KEY_PUSH then sys_key_push a1
  else if num =? SYS_KEY_READ then sys_key_read
  else if num =? SYS_KEY_TRY_READ then sys_key_try_read
  else if num =? SYS_DOMAIN_ALIVE then sys_domain_alive a1
  else if num =? SYS_EXIT then exit_current
  else if num =? SYS_DOMAIN_DESTROY then sys_domain_destroy a1
  else if num =? SYS_DOMAIN_COUNT then n ← gets alive_count; ret n
  else if num =? SYS_FRAME_FREE then n ← gets (fun k => free_frames (k_frames k)); ret n
  else if num =? SYS_CAP_AUDIT then sys_cap_audit a1 a2
  else if num =? SYS_TRY_RECV then sys_try_recv a1
  else if num =? SYS_NET_BIND then sys_net_bind a1
  else if num =? SYS_NET_OWNER then n ← gets (fun k => owner (w16 a1) (k_net k)); ret n
  else if num =? SYS_LOG_TOTAL then n ← gets (fun k => total (k_log k)); ret n
  else if num =? SYS_LOG_READ then sys_log_read a1 a2 a3
  else if num =? SYS_LOG_OLDEST then n ← gets (fun k => oldest (k_log k)); ret n
  else if (num =? SYS_POWEROFF) || (num =? SYS_REBOOT) then sys_power num
  else if is_forwarded num then forward num a1 a2 a3
  else ret 0.

(** ** Interrupt and exception handlers *)

Definition USER_MODE : Z := 4.
Definition PROTECTION_VIOLATION : Z := 1.

(** [page_fault_handler]; the kernel-mode branch and a domain without a pager halt. *)
Definition page_fault_handler (fault_addr error_code : Z) : M sysres :=
  if negb (has_flag error_code USER_MODE) then panic
  else if has_flag error_code PROTECTION_VIOLATION then exit_current
  else
    fault_domain ← current_domain;
    pager ← gets (fun k => pager_of fault_domain (k_pagers k));
    match pager with
    | None => panic
    | Some pager =>
        _ ← deliver_fault pager (mk_fault fault_domain fault_addr error_code);
        _ ← on_sched (block_current RFault fault_domain);
        mret Switched
    end.

Definition timer_handler : M sysres := _ ← timer_tick; mret Switched.

(** The scan code is an input; scrolling the log on screen is not modelled. *)
Definition keyboard_handler (scancode : Z) : M sysres := _ ← dispatch 1 scancode; ret 0.

Definition msi_handler (vector : Z) : M sysres :=
  step (fun k => match set_pending vector (k_irq k) (k_sched k) with
                 | Ok (q, s) => Ok (Return 0 [], set_sched (set_irq k q) s)
                 | Panic => Panic
                 end).

(** ** Continuing a task *)

(** What the task that was just switched to does in the kernel before it leaves it. *)
Definition resume_current : M sysres :=
  t ← try (fun k => task_at (k_sched k) (current (k_sched k)));
  match t_ctx t with
  | REntry | RTick | RYield | RSleep | RFault => ret 0
  | RReceive a1 => sys_recv a1
  | RCall to => o ← call_resume to; finish_call o
  | RKeyRead => sys_key_read
  | RIrqWait domain mask => irq_wait_resume domain mask
  | RDead => panic
  end.

(** ** The machine

    Kernel code runs with interrupts off, so a transition is one entry into the kernel up to the
    next switch or return. [switching] says that the current task was just switched to and has
    its continuation to run. *)

Inductive event : Type :=
| ESyscall (num a1 a2 a3 : Z)
| EFault (addr code : Z)
| ETimer
| EKeyboard (scancode : Z)
| EMsi (vector : Z).

Definition handle (e : event) : M sysres :=
  match e with
  | ESyscall num a1 a2 a3 => syscall_dispatch num a1 a2 a3
  | EFault addr code => page_fault_handler addr code
  | ETimer => timer_handler
  | EKeyboard sc => keyboard_handler sc
  | EMsi v => msi_handler v
  end.

(** Events inside the model: not an arm of another module. *)
Definition modelled (e : event) : Prop :=
  match e with ESyscall num _ _ _ => is_forwarded num = false | _ => True end.

Definition is_switched (r : sysres) : bool := match r with Switched => true | Return _ _ => false end.

Inductive machine_step : kernel * bool -> kernel * bool -> Prop :=
| step_event e k r k' :
    modelled e -> handle e k = Ok (r, k') -> machine_step (k, false) (k', is_switched r)
| step_resume k r k' :
    resume_current k = Ok (r, k') -> machine_step (k, true) (k', is_switched r).

Definition machine_run : kernel * bool -> kernel * bool -> Prop := rtc machine_step.

End arms.

(** ** A board for examples *)

Definition plain_board : Board :=
  {| port_in := fun _ _ => 0; fb_info := mk_fbinfo 0 0 0 0 0; fb_len := 0; boot_info := mk_bootinfo 0 0 0 [] |}.

Definition no_forward (_ _ _ _ : Z) : M sysres := ret 0.
