(* ===== verification/Confine.v ===== *)
(** * Capability confinement

    No kernel entry creates authority. Every way a domain can come to hold a capability is
    followed through the handlers of [Syscall]: a delegation by a domain that holds it, or the
    fixed set a freshly loaded program gets. *)

From S2P Require Import Prelude Addr Cap Key Klog Frames Elf Sched Net Pager Irq Kernel Ipc Paging Domains Exec Syscall.

(** ** Operations that add no capability *)

Definition caps_shrink (k k' : kernel) : Prop := forall d c, held (k_caps k') d c -> held (k_caps k) d c.

#[export] Instance caps_shrink_preorder : PreOrder caps_shrink.
Proof. split; [by intros k d c | intros k1 k2 k3 H1 H2 d c H; auto]. Qed.

Lemma caps_shrink_same k k' : k_caps k' = k_caps k -> caps_shrink k k'.
Proof. intros E d c. by rewrite E. Qed.

Lemma caps_shrink_table k s : CAP_TABLE s = CAP_TABLE (k_caps k) -> caps_shrink k (set_caps k s).
Proof. intros E d c. rewrite !held_alt. cbn [k_caps set_caps]. by rewrite E. Qed.

Lemma shrink_memory {A} (m : M A) : transforms memory_only m -> transforms caps_shrink m.
Proof. apply transforms_memory. intros k k' (m' & f & ->). by apply caps_shrink_same. Qed.

Lemma shrink_sched f : transforms caps_shrink (on_sched f).
Proof. apply transforms_sched. intros. by apply caps_shrink_same. Qed.
Lemma shrink_irq {A} (f : irq_state -> res (A * irq_state)) : transforms caps_shrink (on_irq f).
Proof. apply transforms_irq. intros. by apply caps_shrink_same. Qed.
Lemma shrink_keys {A} (f : KeyQueue -> res (A * KeyQueue)) : transforms caps_shrink (on_keys f).
Proof. apply transforms_keys. intros. by apply caps_shrink_same. Qed.
Lemma shrink_wake key : transforms caps_shrink (wake key).
Proof. apply transforms_modify. intros. by apply caps_shrink_same. Qed.

Lemma shrink_push_capped d msg : transforms caps_shrink (push_capped d msg).
Proof.
  intros k a k' E. unfold push_capped in E. destruct (index _ _) as [box|]; [|done]. cbn in E.
  destruct (_ <=? _); injection E as <- <-; by apply caps_shrink_same.
Qed.
Lemma shrink_push_back d msg : transforms caps_shrink (push_back d msg).
Proof.
  intros k a k' E. unfold push_back in E. destruct (index _ _) as [box|]; [|done]. injection E as <- <-.
  by apply caps_shrink_same.
Qed.
Lemma shrink_pop_front d : transforms caps_shrink (pop_front d).
Proof.
  intros k a k' E. unfold pop_front in E. destruct (index _ _) as [[|m box]|]; [| |done]; injection E as <- <-;
    by apply caps_shrink_same.
Qed.
Lemma shrink_take_reply me p : transforms caps_shrink (take_reply me p).
Proof.
  intros k a k' E. unfold take_reply in E. destruct (index _ _) as [box|]; [|done]. cbn in E.
  destruct (take_from p box) as [[m rest]|]; injection E as <- <-; by apply caps_shrink_same.
Qed.

#[export] Hint Resolve shrink_sched shrink_irq shrink_keys shrink_wake shrink_push_capped shrink_push_back
  shrink_pop_front shrink_take_reply : preserve.
#[export] Hint Extern 3 (transforms caps_shrink _) => (simple apply shrink_memory; solve [auto 3 with preserve nocore]) : preserve.

Lemma shrink_current : transforms caps_shrink current_domain.
Proof. apply transforms_try. exact _. Qed.
Lemma shrink_has d c : transforms caps_shrink (has_cap d c).
Proof. apply transforms_try. exact _. Qed.
#[export] Hint Resolve shrink_current shrink_has : preserve.

(** ** IPC, interrupts, domains *)

Lemma shrink_send to tag p : transforms caps_shrink (send to tag p).
Proof. unfold send. transform. Qed.
Lemma shrink_deliver from to tag p : transforms caps_shrink (deliver from to tag p).
Proof. unfold deliver. transform. Qed.
Lemma shrink_receive a1 : transforms caps_shrink (receive a1).
Proof. unfold receive, set_reply. transform. Qed.
Lemma shrink_try_receive : transforms caps_shrink try_receive.
Proof. unfold try_receive, set_reply. transform. Qed.
Lemma shrink_call to tag p : transforms caps_shrink (call to tag p).
Proof. unfold call. transform. Qed.
Lemma shrink_call_resume to : transforms caps_shrink (call_resume to).
Proof. unfold call_resume. transform. Qed.
Lemma shrink_reply tag p : transforms caps_shrink (reply tag p).
Proof. unfold reply. transform. Qed.
#[export] Hint Resolve shrink_send shrink_deliver shrink_receive shrink_try_receive shrink_call shrink_call_resume
  shrink_reply : preserve.

Lemma shrink_destroy id : 0 <= id -> transforms caps_shrink (destroy id).
Proof.
  intros Hid k b k' E. rewrite destroy_spec in E. destruct (lookupZ (k_domains k) id) as [[d|]|]; injection E as <- <-;
    [|by apply caps_shrink_same..].
  intros x c. unfold destroyed. destruct (free_user_space _ _) as [m f]. cbn [k_caps].
  destruct (removed_caps id (k_caps k) Hid) as (C1 & _ & C3). destruct (decide (x = id)) as [->|Hne].
  - intros Hc. by apply C1 in Hc.
  - by rewrite C3.
Qed.

(** [destroy] on an id that is no index does nothing. *)
Lemma shrink_destroy_any id : transforms caps_shrink (destroy id).
Proof.
  destruct (Z.le_gt_cases 0 id); [by apply shrink_destroy|]. intros k b k' E. rewrite destroy_spec in E.
  rewrite (proj2 (lookupZ_None (k_domains k) id)) in E by lia. injection E as <- <-. by apply caps_shrink_same.
Qed.
#[export] Hint Resolve shrink_destroy_any : preserve.

Lemma shrink_reclaim : transforms caps_shrink reclaim_pending.
Proof.
  apply transforms_reclaim; [exact _|apply shrink_destroy_any|]. intros. by apply caps_shrink_same.
Qed.
#[export] Hint Resolve shrink_reclaim : preserve.

Lemma shrink_exit : transforms caps_shrink exit_current.
Proof.
  unfold exit_current, request_destroy. transform. apply transforms_modify. intros. by apply caps_shrink_same.
Qed.
#[export] Hint Resolve shrink_exit : preserve.

(** ** The other arms *)

Lemma shrink_load_bytes n v : transforms caps_shrink (load_bytes n v).
Proof. revert v. induction n as [|n IH]; intros v; cbn [load_bytes]; unfold load_byte; transform. Qed.
#[export] Hint Resolve shrink_load_bytes : preserve.

Lemma shrink_payload p : transforms caps_shrink (read_user_payload p).
Proof. unfold read_user_payload. transform. Qed.
Lemma shrink_store_message a m : transforms caps_shrink (store_message a m).
Proof. unfold store_message. transform. Qed.
Lemma shrink_finish_call o : transforms caps_shrink (finish_call o).
Proof. unfold finish_call. transform. Qed.
Lemma shrink_flag b : transforms caps_shrink (flag b).
Proof. unfold flag. transform. Qed.
Lemma shrink_recv a1 : transforms caps_shrink (sys_recv a1).
Proof. unfold sys_recv, store_message. transform. Qed.
Lemma shrink_key_read : transforms caps_shrink sys_key_read.
Proof. unfold sys_key_read. transform. Qed.
#[export] Hint Resolve shrink_payload shrink_store_message shrink_finish_call shrink_flag shrink_recv shrink_key_read : preserve.

Lemma shrink_mask_loop n i d m : transforms caps_shrink (irq_mask_loop n i d m).
Proof. revert i. induction n as [|n IH]; intros i; cbn [irq_mask_loop]; transform. Qed.
Lemma shrink_mask d m : transforms caps_shrink (irq_mask_ok d m).
Proof. apply shrink_mask_loop. Qed.
#[export] Hint Resolve shrink_mask : preserve.

Lemma shrink_elf_image p l : transforms caps_shrink (user_elf_image p l).
Proof.
  unfold user_elf_image. transform. apply transforms_page_loop; [exact _|]. intros v. transform.
Qed.
#[export] Hint Resolve shrink_elf_image : preserve.

(** Reading the image of SYS_SPAWN_ELF changes nothing. *)
Lemma load_bytes_state n v k l k' : load_bytes n v k = Ok (l, k') -> k' = k.
Proof.
  assert (Hs : transforms eq (load_bytes n v)).
  { revert v. induction n as [|n IH]; intros v; cbn [load_bytes]; unfold load_byte; transform. }
  intros E. symmetry. exact (Hs _ _ _ E).
Qed.

Lemma user_elf_image_state p l k o k' : user_elf_image p l k = Ok (o, k') -> k' = k.
Proof.
  assert (Hs : transforms eq (user_elf_image p l)).
  { unfold user_elf_image, current_domain. transform.
    - apply transforms_page_loop; [exact _|]. intros v. unfold resolve_user_page, pml4_of. transform.
    - intros k1 x k2 E. symmetry. exact (load_bytes_state _ _ _ _ _ E). }
  intros E. symmetry. exact (Hs _ _ _ E).
Qed.

Section arms.
Context `{Mapper} `{Board} (stack_top : Scheduler -> Z) (forward : Z -> Z -> Z -> Z -> M sysres).

Lemma shrink_start_user e s d : transforms caps_shrink (start_user stack_top e s d).
Proof using.
  unfold start_user, pml4_of. transform. intros k b k' E. unfold step in E. destruct (try_spawn_user _ _ _ _ _ _).
  injection E as <- <-. by apply caps_shrink_same.
Qed.

Lemma shrink_restart t image : transforms caps_shrink (restart_in_place stack_top t image).
Proof using.
  unfold restart_in_place, reset, free_space, Ipc.remove_domain, set_mailbox, spawn_elf_at, load_image. transform.
  all: try apply shrink_start_user.
  all: apply transforms_modify; intros; try destruct (free_user_space _ _); by apply caps_shrink_same.
Qed.

Lemma shrink_inc_frame p : transforms caps_shrink (inc_frame p).
Proof using. apply transforms_modify. intros. by apply caps_shrink_same. Qed.

Lemma shrink_drop_frame p : transforms caps_shrink (drop_frame p).
Proof using. unfold drop_frame. transform. apply transforms_modify. intros. by apply caps_shrink_same. Qed.

#[local] Hint Resolve shrink_restart shrink_inc_frame shrink_drop_frame : preserve.

(** The handle operations change the handle table only. *)
Lemma shrink_handles {A} (f : cap_state -> A * cap_state) :
  (forall s, CAP_TABLE (snd (f s)) = CAP_TABLE s) -> transforms caps_shrink (on_caps f).
Proof using.
  intros Hf k a k' E. unfold on_caps in E. specialize (Hf (k_caps k)). destruct (f (k_caps k)) as [b s].
  injection E as <- <-. by apply caps_shrink_table.
Qed.

Lemma shrink_issue d o : transforms caps_shrink (on_caps (handle_issue d o)).
Proof using. apply shrink_handles. intros s. unfold handle_issue. repeat case_match; done. Qed.
Lemma shrink_drop d h : transforms caps_shrink (on_caps (handle_drop d h)).
Proof using. apply shrink_handles. intros s. unfold handle_drop. repeat case_match; done. Qed.
Lemma shrink_move d d' h : transforms caps_shrink (on_caps (handle_move d d' h)).
Proof using. apply shrink_handles. intros s. unfold handle_move. repeat case_match; done. Qed.

#[local] Hint Resolve shrink_issue shrink_drop shrink_move : preserve.

(** Every handled call other than the delegation and the loading of a new program. *)
Lemma shrink_dispatch num a1 a2 a3 :
  is_forwarded num = false -> num <> SYS_CAP_SEND -> num <> SYS_SPAWN_ELF ->
  transforms caps_shrink (syscall_dispatch stack_top forward num a1 a2 a3).
Proof using.
  intros Hf H1 H2. unfold syscall_dispatch.
  assert (Hp : (num =? SYS_POWEROFF) || (num =? SYS_REBOOT) = false).
  { apply orb_false_iff. split; apply Z.eqb_neq; intros ->; discriminate Hf. }
  rewrite Hp, Hf.
  repeat match goal with |- transforms _ (if ?n =? ?c then _ else _) => destruct (Z.eqb_spec n c); [try congruence|] end.
  all: unfold sys_yield, sys_sleep, sys_send, sys_call, sys_reply, sys_alloc_page, sys_share_page, sys_unmap,
    sys_map_anon, sys_page_fault_reply, sys_register_irq, sys_irq_poll, sys_irq_wait, sys_map_mmio, sys_port_in,
    sys_port_out, may_use_port, sys_virt_to_phys, sys_cap_issue, sys_cap_lookup, sys_cap_drop, sys_handle_send,
    sys_puts, sys_spawn_elf_at, sys_spawn_elf_module, sys_fb_info, sys_fb_map, sys_key_push, sys_key_try_read,
    sys_domain_alive, sys_domain_destroy, sys_cap_audit, sys_try_recv, sys_net_bind, sys_log_read, with_spawn,
    boot_module_image, take_any, on_irq_unit.
  all: transform.
  all: try (apply transforms_modify; intros; by apply caps_shrink_same).
  - apply transforms_for_each; [exact _|]. intros i. transform.
  - apply transforms_for_each; [exact _|]. intros i. transform.
  - intros k b k' E. unfold step in E. destruct (bind _ _ _ _). injection E as <- <-. by apply caps_shrink_same.
Qed.

(** ** Confinement *)

(** How domain [d] may come to hold [c] in one kernel entry: the running domain held it and
    may send to [d], or the running domain may spawn, [d] was dead, and [c] is one of the three
    capabilities every loaded program gets. *)
Definition delegated (k : kernel) (d : Z) (c : Capability) : Prop :=
  exists me, Sched.current_domain (k_sched k) = Ok me /\ held (k_caps k) me c /\ held (k_caps k) me (SendTo d).
Definition by_loading (k : kernel) (d : Z) (c : Capability) : Prop :=
  exists me, Sched.current_domain (k_sched k) = Ok me /\ held (k_caps k) me Spawn /\ is_alive d k = false /\
    c ∈ default_caps.

Definition confined (k k' : kernel) : Prop :=
  forall d c, held (k_caps k') d c -> held (k_caps k) d c \/ delegated k d c \/ by_loading k d c.

Lemma confined_shrink k k' : caps_shrink k k' -> confined k k'.
Proof using. intros Hs d c Hc. left. auto. Qed.

Lemma confined_cap_send a1 a2 a3 : transforms confined (sys_cap_send a1 a2 a3).
Proof using.
  intros k r k' E. unfold sys_cap_send in E. apply M_bind_ok in E as (me & k1 & E1 & E).
  apply current_domain_ok in E1 as [-> Hme]. apply M_bind_ok in E as (b & k2 & E2 & E).
  apply has_cap_ok in E2 as [-> Hb]. apply has_spec in Hb.
  destruct b; cbn [negb] in E; [|injection E as <- <-; by apply confined_shrink].
  destruct (decode a2 a3) as [c|]; [|injection E as <- <-; by apply confined_shrink].
  apply M_bind_ok in E as (ok & k3 & E3 & E). injection E as <- <-. unfold on_caps in E3.
  destruct (delegate me a1 c (k_caps k)) as [ok' s] eqn:Ed. injection E3 as <- <-.
  apply delegate_spec in Ed as (_ & Hheld & Hall). intros d c' Hc. cbn [k_caps set_caps] in Hc.
  apply Hall in Hc as [Hc|(-> & -> & ->)]; [by left|]. right; left. exists me. split; [done|]. split; [auto|]. by apply Hb.
Qed.

Lemma confined_spawn_elf a1 a2 : transforms confined (sys_spawn_elf stack_top a1 a2).
Proof using.
  intros k r k' E. unfold sys_spawn_elf, with_spawn in E. apply M_bind_ok in E as (me & k1 & E1 & E).
  apply current_domain_ok in E1 as [-> Hme]. apply M_bind_ok in E as (b & k2 & E2 & E).
  apply has_cap_ok in E2 as [-> Hb]. apply has_spec in Hb.
  destruct b; cbn [negb] in E; [|injection E as <- <-; by apply confined_shrink].
  apply M_bind_ok in E as (image & k3 & E3 & E). apply user_elf_image_state in E3 as ->.
  destruct image as [image|]; [|injection E as <- <-; by apply confined_shrink].
  apply M_bind_ok in E as (o & k4 & E4 & E). injection E as <- <-.
  assert (Hnew : forall id k1, new_domain id me k k1 -> confined k k1).
  { intros id k1 N d c Hc. destruct (decide (d = id)) as [->|Hd].
    - right; right. exists me. split; [done|]. split; [by apply Hb|]. split; [exact (proj2 (nd_fresh _ _ _ _ N))|].
      by apply (nd_caps _ _ _ _ N).
    - left. by apply (proj1 (nd_others _ _ _ _ N d Hd)). }
  apply spawn_elf_cases in E4 as [[_ ->]|(elf & id & _ & [(_ & N & _)|(k1 & b & _ & N & _ & E)])].
  - by apply confined_shrink.
  - eauto.
  - apply shrink_destroy_any in E. intros d c Hc. apply (Hnew id k1 N d c), E, Hc.
Qed.

Lemma confined_resume : transforms confined resume_current.
Proof using.
  assert (Hs : transforms caps_shrink resume_current).
  { unfold resume_current, irq_wait_resume, take_any. transform. }
  intros k r k' E. apply confined_shrink. eauto.
Qed.

Lemma confined_handle e : modelled e -> transforms confined (handle stack_top forward e).
Proof using.
  intros Hm. destruct e as [num a1 a2 a3|addr code| |sc|v]; cbn [handle modelled] in *.
  - destruct (decide (num = SYS_CAP_SEND)) as [->|H1]; [exact (confined_cap_send a1 a2 a3)|].
    destruct (decide (num = SYS_SPAWN_ELF)) as [->|H2]; [exact (confined_spawn_elf a1 a2)|].
    intros k r k' E. apply confined_shrink. eapply shrink_dispatch; eauto.
  - assert (Hs : transforms caps_shrink (page_fault_handler addr code))
      by (unfold page_fault_handler, deliver_fault; transform).
    intros k r k' E. apply confined_shrink. eauto.
  - assert (Hs : transforms caps_shrink timer_handler) by (unfold timer_handler, timer_tick; transform).
    intros k r k' E. apply confined_shrink. eauto.
  - assert (Hs : transforms caps_shrink (keyboard_handler sc)) by (unfold keyboard_handler, dispatch; transform).
    intros k r k' E. apply confined_shrink. eauto.
  - intros k r k' E. unfold msi_handler, step in E. destruct (set_pending _ _ _) as [[q s]|]; [|done].
    injection E as <- <-. apply confined_shrink, caps_shrink_same. reflexivity.
Qed.

(** C1. Capabilities are confined. In one step of the machine (a system call, a fault, an
    interrupt, or a task continuing) a domain [d] comes to hold a capability [c] only if the
    running domain held [c] and may send to [d], or if the running domain holds [Spawn], [d] was
    dead and [c] is one of the three capabilities of a loaded program. Stores to addresses the
    caller supplies are outputs of the step, and the arms of the device and display modules are
    not events of the machine. *)
Theorem capability_confinement k b k' b' :
  machine_step stack_top forward (k, b) (k', b') ->
  forall d c, held (k_caps k') d c -> held (k_caps k) d c \/ delegated k d c \/ by_loading k d c.
Proof using.
  intros Hstep. change (confined k k'). inversion Hstep; subst.
  - eapply confined_handle; eauto.
  - eapply confined_resume; eauto.
Qed.

(** ** Runs of the whole system *)

(** Every store goes to user space, from its first byte to its last. *)
Definition user_output (o : output) : Prop :=
  match o with
  | Store a l => is_user_address a = true /\ is_user_address (a + Z.of_nat (length l) - 1) = true
  | PortOut _ _ _ => True
  end.
Definition user_result (r : sysres) : Prop := match r with Return _ out => Forall user_output out | Switched => True end.

(** A kernel entry whose stores stay in user space, or programs (and the stores of the kernel for
    them) changing memory. *)
Inductive system_step : kernel * bool -> kernel * bool -> Prop :=
| system_event e k r k' :
    modelled e -> handle stack_top forward e k = Ok (r, k') -> user_result r -> system_step (k, false) (k', is_switched r)
| system_resume k r k' :
    resume_current k = Ok (r, k') -> user_result r -> system_step (k, true) (k', is_switched r)
| system_user k m : system_step (k, false) (set_mem k m, false).

Definition system_run : kernel * bool -> kernel * bool -> Prop := rtc system_step.

(** [c] came from [d0] in the state [x] to [d] in the state [y] by being kept and by delegations, each made by a
    running domain that held [c] and the right to send to the receiver. *)
Inductive inherits (c : Capability) (x : kernel * bool) (d0 : Z) : kernel * bool -> Z -> Prop :=
| inherits_start : inherits c x d0 x d0
| inherits_keep y z d : inherits c x d0 y d -> held (k_caps (fst y)) d c -> system_step y z -> inherits c x d0 z d
| inherits_pass y z d d' :
    inherits c x d0 y d -> system_step y z -> Sched.current_domain (k_sched (fst y)) = Ok d ->
    held (k_caps (fst y)) d c -> held (k_caps (fst y)) d (SendTo d') -> inherits c x d0 z d'.

Lemma confined_system x y : system_step x y -> confined (fst x) (fst y).
Proof using.
  intros Hs. destruct Hs; cbn [fst]; [eapply confined_handle; eauto | eapply confined_resume; eauto|].
  intros d c Hc. by left.
Qed.

(** C34. Authority flows along delegations only. In any run of the system (kernel entries, tasks
    continuing and programs changing memory), a capability other than [SendTo 9], [SendTo 11] and
    [MapInto 11] that a domain holds at the end was held at the start by some domain, and came from
    it through a chain of delegations, each made by a running domain that held the capability and
    the right to send to the receiver; in particular device, port, interrupt, network, framebuffer
    and spawn rights held by nobody stay held by nobody. The events exclude the arms of the device
    and display modules, and kernel entries that store outside of user space: the kernel does not
    check the address of SYS_RECV and SYS_TRY_RECV, and a program that passes a kernel address there
    is not covered. *)
Theorem no_privilege_creation x y d c :
  system_run x y -> held (k_caps (fst y)) d c -> c ∉ default_caps ->
  exists d0, held (k_caps (fst x)) d0 c /\ inherits c x d0 y d.
Proof using.
  intros Hrun Hc Hnot. revert d Hc. revert y Hrun.
  apply (rtc_ind_r (fun y => forall d, held (k_caps (fst y)) d c -> exists d0, held (k_caps (fst x)) d0 c /\ inherits c x d0 y d)).
  { intros d Hc. exists d. split; [done | constructor]. }
  intros y z _ Hyz IH d Hc.
  destruct (confined_system _ _ Hyz _ _ Hc) as [Hd|[(me & Hme & Hd & Hto)|(me & _ & _ & _ & Hd)]]; [| |done].
  - destruct (IH d Hd) as (d0 & Hs & Hi). exists d0. split; [done|]. by eapply inherits_keep.
  - destruct (IH me Hd) as (d0 & Hs & Hi). exists d0. split; [done|]. by eapply inherits_pass.
Qed.

End arms.

(** ** Examples: domain 0 delegates its right to send to domain 1 *)

Definition holds (s : cap_state) (d : Z) (c : Capability) : bool :=
  match lookupZ (CAP_TABLE s) d with Some slots => contains c slots | None => false end.

Lemma holds_held s d c : holds s d c = true <-> held s d c.
Proof.
  rewrite held_alt. unfold holds. destruct (lookupZ (CAP_TABLE s) d) as [slots|]; [|naive_solver].
  split; [eauto | by intros (? & [= <-] & ?)].
Qed.

Notation sample_step := (machine_step (H := soft_mapper) (H0 := plain_board) stack_at no_forward).

Lemma sample_delegation_event :
  exists v k', handle (H := soft_mapper) (H0 := plain_board) stack_at no_forward (ESyscall SYS_CAP_SEND 1 0 1) sample_kernel =
      Ok (Return v [], k') /\ held (k_caps k') 1 (SendTo 1).
Proof.
  assert (Hv : match handle (H := soft_mapper) (H0 := plain_board) stack_at no_forward
                 (ESyscall SYS_CAP_SEND 1 0 1) sample_kernel with
               | Ok (Return _ [], k') => holds (k_caps k') 1 (SendTo 1) | _ => false end = true)
    by (vm_compute; reflexivity).
  destruct (handle _ _ _ sample_kernel) as [[[v [|]|] k']|]; try discriminate Hv.
  exists v, k'. split; [done|]. by apply holds_held.
Qed.

Lemma sample_delegation :
  exists k', sample_step (sample_kernel, false) (k', false) /\ held (k_caps k') 1 (SendTo 1).
Proof.
  destruct sample_delegation_event as (v & k' & E & Hh). exists k'. split; [|done].
  exact (step_event (H := soft_mapper) (H0 := plain_board) stack_at no_forward (ESyscall SYS_CAP_SEND 1 0 1) _ (Return v []) _ eq_refl E).
Qed.

Lemma capability_confinement_witness :
  exists k', sample_step (sample_kernel, false) (k', false) /\
    (held (k_caps sample_kernel) 1 (SendTo 1) \/ delegated sample_kernel 1 (SendTo 1) \/
     by_loading sample_kernel 1 (SendTo 1)).
Proof.
  destruct sample_delegation as (k' & Hs & Hh). exists k'. split; [exact Hs|].
  exact (capability_confinement (H := soft_mapper) (H0 := plain_board) stack_at no_forward _ _ _ _ Hs 1 (SendTo 1) Hh).
Defined.

Lemma no_privilege_creation_witness :
  exists k', held (k_caps k') 1 (SendTo 1) /\ exists d0, held (k_caps sample_kernel) d0 (SendTo 1) /\
    inherits (H := soft_mapper) (H0 := plain_board) stack_at no_forward (SendTo 1) (sample_kernel, false) d0 (k', false) 1.
Proof.
  destruct sample_delegation_event as (v & k' & E & Hh). exists k'. split; [exact Hh|].
  refine (no_privilege_creation (H := soft_mapper) (H0 := plain_board) stack_at no_forward (sample_kernel, false) (k', false) 1
            (SendTo 1) _ Hh _).
  - apply rtc_once. exact (system_event (H := soft_mapper) (H0 := plain_board) stack_at no_forward (ESyscall SYS_CAP_SEND 1 0 1) _ (Return v []) _ eq_refl E (Forall_nil_2 _)).
  - intros Hin. apply (bool_decide_eq_true_2 (SendTo 1 ∈ default_caps)) in Hin. vm_compute in Hin. discriminate.
Defined.
