(* ===== verification/Mail.v ===== *)
(** * Messages in runs of the kernel

    Every kernel entry is a sequence of operations on the mailboxes (Ipc), of changes that leave
    the mailboxes alone, and of the three ways a mailbox is emptied: its domain is destroyed, a new
    domain takes its number, or a program is loaded again into a domain without live tasks. This
    file follows all handlers of Syscall and concludes that messages stay in order and that none is
    lost in any other way. *)

From S2P Require Import Prelude Addr Cap Key Klog Frames Elf Sched Net Pager Irq Kernel Ipc Paging Domains Exec Syscall Confine.

Section mail.
Context `{Mapper} `{Board} (stack_top : Scheduler -> Z) (forward : Z -> Z -> Z -> Z -> M sysres).

(** ** Steps and runs *)

Inductive mail_step : kernel -> list label -> kernel -> Prop :=
| ms_ipc k ls k' : ipc_step k ls k' -> mail_step k ls k'
| ms_destroy k id k' : destroy id k = Ok (true, k') -> mail_step k [Drop id (mailbox k id)] k'
| ms_create k loader id k' : setup_domain loader k = Ok (id, k') -> mail_step k [Drop id (mailbox k id)] k'
| ms_restart k id u k' :
    is_alive id k = true -> live_tasks id (k_sched k) = 0 -> Ipc.remove_domain id k = Ok (u, k') ->
    mail_step k [Drop id (mailbox k id)] k'.

Inductive mail_run : kernel -> list label -> kernel -> Prop :=
| mr_nil k : mail_run k [] k
| mr_cons k ls k1 ls' k' : mail_step k ls k1 -> mail_run k1 ls' k' -> mail_run k (ls ++ ls') k'.

Lemma set_mailbox_effect k id k' u :
  0 <= id -> set_mailbox id [] k = Ok (u, k') -> effect k [Drop id (mailbox k id)] k'.
Proof using.
  intros Hid [= <- <-]. do 3 right. exists id. split; [done|]. intros d. unfold mailbox. cbn [k_boxes set_boxes].
  destruct (lookupZ_set_row (k_boxes k) id [] d Hid) as [E1 E2]. unfold set_row in *. case_decide as Hd.
  - subst d. by rewrite E1.
  - destruct (E2 Hd) as [->|[-> ->]]; done.
Qed.

Lemma others_effect k id k' :
  mailbox k' id = [] -> (forall d, d <> id -> mailbox k' d = mailbox k d) -> effect k [Drop id (mailbox k id)] k'.
Proof using. intros H1 H2. do 3 right. exists id. split; [done|]. intros d. case_decide; [by subst|auto]. Qed.

Lemma alive_nonneg id k : is_alive id k = true -> 0 <= id.
Proof using.
  unfold is_alive. destruct (lookupZ (k_domains k) id) eqn:E; [|done]. by apply lookupZ_Some in E as [? _].
Qed.

Lemma mail_step_effect k ls k' : mail_step k ls k' -> effect k ls k'.
Proof using.
  intros [k0 ls0 k1 Hs|k0 id k1 E|k0 loader id k1 E|k0 id u k1 Ha _ E].
  - by apply ipc_step_effect.
  - assert (0 <= id) as Hid.
    { apply (alive_nonneg id k0). rewrite destroy_spec in E. unfold is_alive. destruct (lookupZ (k_domains k0) id) as [[d|]|]; done. }
    rewrite destroy_spec in E. destruct (lookupZ (k_domains k0) id) as [[d|]|]; try discriminate E. injection E as <-.
    unfold destroyed. destruct (free_user_space _ _) as [m f].
    pose proof (lookupZ_set_row (k_boxes k0) id []) as Hr. unfold set_row in Hr. apply others_effect; unfold mailbox; cbn [k_boxes].
    + by rewrite (proj1 (Hr 0 Hid)).
    + intros x Hx. by destruct (proj2 (Hr x Hid) Hx) as [->|[-> ->]].
  - apply setup_domain_ok in E as [N _]. apply others_effect; [apply N|]. intros d Hd. apply (nd_others _ _ _ _ N d Hd).
  - eapply set_mailbox_effect; [by eapply alive_nonneg|exact E].
Qed.

Lemma mail_run_fifo k ls k' s d :
  mail_run k ls k' -> sent_by s (mailbox k d) ++ accepted s d ls = gone s d ls ++ sent_by s (mailbox k' d).
Proof using.
  induction 1 as [k|k ls k1 ls' k' Hstep _ IH]; [unfold accepted, gone; cbn; by rewrite app_nil_r|].
  apply mail_step_effect, (effect_fifo _ _ _ s d) in Hstep.
  rewrite accepted_app, gone_app, app_assoc, Hstep, <- app_assoc, IH. by rewrite app_assoc.
Qed.

(** ** Every handler is such a run *)

Definition mail (k k' : kernel) : Prop := exists ls, mail_run k ls k'.

#[local] Instance mail_preorder : PreOrder mail.
Proof using.
  split; [intros k; exists []; constructor|]. intros k1 k2 k3 [l1 H1] [l2 H2]. exists (l1 ++ l2).
  induction H1 as [k|k ls k' ls' k'' Hs _ IH]; [exact H2|]. rewrite <- app_assoc. econstructor; eauto.
Qed.

Lemma mail_one k ls k' : mail_step k ls k' -> mail k k'.
Proof using. intros Hs. exists (ls ++ []). econstructor; [exact Hs|constructor]. Qed.
Lemma mail_same k k' : k_boxes k' = k_boxes k -> mail k k'.
Proof using. intros E. eapply mail_one, ms_ipc, is_other, E. Qed.

Lemma mail_memory {A} (m : M A) : transforms memory_only m -> transforms mail m.
Proof using. apply transforms_memory. intros k k' (m' & f & ->). by apply mail_same. Qed.
Lemma mail_sched f : transforms mail (on_sched f).
Proof using. apply transforms_sched. intros. by apply mail_same. Qed.
Lemma mail_irq {A} (f : irq_state -> res (A * irq_state)) : transforms mail (on_irq f).
Proof using. apply transforms_irq. intros. by apply mail_same. Qed.
Lemma mail_keys {A} (f : KeyQueue -> res (A * KeyQueue)) : transforms mail (on_keys f).
Proof using. apply transforms_keys. intros. by apply mail_same. Qed.
Lemma mail_caps {A} (f : cap_state -> A * cap_state) : transforms mail (on_caps f).
Proof using. apply transforms_caps. intros. by apply mail_same. Qed.
Lemma mail_wake key : transforms mail (wake key).
Proof using. apply transforms_modify. intros. by apply mail_same. Qed.
Lemma mail_current : transforms mail current_domain.
Proof using. apply transforms_try. exact _. Qed.
Lemma mail_has d c : transforms mail (has_cap d c).
Proof using. apply transforms_try. exact _. Qed.

#[local] Hint Resolve mail_sched mail_irq mail_keys mail_caps mail_wake mail_current mail_has : preserve.
#[local] Hint Extern 3 (transforms mail _) => (simple apply mail_memory; solve [auto 3 with preserve nocore]) : preserve.

(** An operation that starts by reading the running domain. *)
Lemma reads_current {A} (f : Z -> M A) k x k' :
  (me ← current_domain; f me) k = Ok (x, k') -> exists me, Sched.current_domain (k_sched k) = Ok me.
Proof using. intros E. apply M_bind_ok in E as (me & k1 & E1 & _). apply current_domain_ok in E1 as [_ E1]. eauto. Qed.

Lemma mail_send to tag p : transforms mail (send to tag p).
Proof using. intros k b k' E. destruct (reads_current _ _ _ _ E) as [me Hme]. by eapply mail_one, ms_ipc, is_send. Qed.
Lemma mail_deliver from to tag p : transforms mail (deliver from to tag p).
Proof using. intros k b k' E. by eapply mail_one, ms_ipc, is_deliver. Qed.
Lemma mail_receive a1 : transforms mail (receive a1).
Proof using. intros k b k' E. destruct (reads_current _ _ _ _ E) as [me Hme]. by eapply mail_one, ms_ipc, is_receive. Qed.
Lemma mail_try_receive : transforms mail try_receive.
Proof using. intros k b k' E. destruct (reads_current _ _ _ _ E) as [me Hme]. by eapply mail_one, ms_ipc, is_try_receive. Qed.
Lemma mail_call to tag p : transforms mail (call to tag p).
Proof using. intros k b k' E. destruct (reads_current _ _ _ _ E) as [me Hme]. by eapply mail_one, ms_ipc, is_call. Qed.
Lemma mail_call_resume to : transforms mail (call_resume to).
Proof using. intros k b k' E. destruct (reads_current _ _ _ _ E) as [me Hme]. by eapply mail_one, ms_ipc, is_call_resume. Qed.
Lemma mail_reply tag p : transforms mail (reply tag p).
Proof using.
  intros k b k' E. destruct (reads_current _ _ _ _ E) as [me Hme]. pose proof E as E0. unfold reply in E0.
  apply M_bind_ok in E0 as (me' & k1 & E1 & E0). apply current_domain_ok in E1 as [-> _].
  apply M_bind_ok in E0 as (tg & k2 & E2 & _). unfold try in E2.
  destruct (current_reply_target (k_sched k)) as [t|] eqn:Et; [|discriminate E2]. by eapply mail_one, ms_ipc, is_reply.
Qed.
#[local] Hint Resolve mail_send mail_deliver mail_receive mail_try_receive mail_call mail_call_resume mail_reply : preserve.

Lemma mail_destroy id : transforms mail (destroy id).
Proof using.
  intros k b k' E. destruct b; [by eapply mail_one, ms_destroy|]. rewrite destroy_spec in E.
  destruct (lookupZ (k_domains k) id) as [[d|]|]; [discriminate E|injection E as <-; reflexivity..].
Qed.
#[local] Hint Resolve mail_destroy : preserve.
Lemma mail_reclaim : transforms mail reclaim_pending.
Proof using. apply transforms_reclaim; [exact _|apply mail_destroy|]. intros. by apply mail_same. Qed.
Lemma mail_exit : transforms mail exit_current.
Proof using. unfold exit_current, request_destroy. transform. apply transforms_modify. intros. by apply mail_same. Qed.
#[local] Hint Resolve mail_reclaim mail_exit : preserve.

Lemma mail_start_user e s d : transforms mail (start_user stack_top e s d).
Proof using.
  unfold start_user, pml4_of. transform. intros k b k' E. unfold step in E. destruct (try_spawn_user _ _ _ _ _ _).
  injection E as <- <-. by apply mail_same.
Qed.
Lemma mail_load_image image elf d : transforms mail (load_image stack_top image elf d).
Proof using. unfold load_image. transform. apply mail_start_user. Qed.
#[local] Hint Resolve mail_load_image : preserve.

Lemma mail_spawn_elf image loader : transforms mail (spawn_elf stack_top image loader).
Proof using.
  intros k r k' E. destruct (parse image) as [elf| |] eqn:Hp; unfold spawn_elf in E; rewrite Hp in E;
    [|injection E as <- <-; reflexivity|done].
  destruct (page_budget elf) as [pages|] eqn:Hb; [|injection E as <- <-; reflexivity].
  destruct (Z.ltb_spec MAX_IMAGE_PAGES pages) as [Hm|Hm]; [injection E as <- <-; reflexivity|].
  assert (E' : spawn_elf stack_top image loader k = Ok (r, k'))
    by (unfold spawn_elf; rewrite Hp, Hb, (proj2 (Z.ltb_ge _ _)) by done; exact E). clear E.
  rewrite (spawn_elf_split _ _ _ _ _ _ Hp Hb Hm) in E'. apply M_bind_ok in E' as (id & k1 & E1 & E).
  etrans; [by eapply mail_one, ms_create|]. revert E.
  match goal with |- ?m k1 = _ -> _ => assert (Hr : transforms mail m) by transform; apply Hr end.
Qed.

(** [reset] changes memory only. *)
Lemma reset_state id k b k1 :
  reset id k = Ok (b, k1) -> k_domains k1 = k_domains k /\ k_sched k1 = k_sched k /\ k_boxes k1 = k_boxes k.
Proof using.
  unfold reset. rewrite bind_gets. destruct (match lookupZ (k_domains k) id with Some o => o | None => None end) as [d|];
    [|intros [= <- <-]; done].
  unfold free_space. rewrite bind_modify. destruct (free_user_space _ _). intros [= <- <-]. done.
Qed.

Lemma mail_restart t image : transforms mail (restart_in_place stack_top t image).
Proof using.
  intros k r k' E. unfold restart_in_place in E. destruct (parse image) as [elf| |]; [|by injection E as <- <-|done].
  rewrite bind_gets in E. destruct (negb (is_alive t k) || negb (live_tasks t (k_sched k) =? 0)) eqn:Er; [by injection E as <- <-|].
  apply orb_false_iff in Er as [Ha Hl]. apply negb_false_iff in Ha, Hl. apply Z.eqb_eq in Hl.
  apply M_bind_ok in E as (b & k1 & E1 & E). apply reset_state in E1 as (D1 & D2 & D3).
  etrans; [by apply mail_same, D3|]. apply M_bind_ok in E as (u & k2 & E2 & E).
  etrans; [eapply mail_one, (ms_restart k1 t u k2); [unfold is_alive in *; by rewrite D1|by rewrite D2|exact E2]|].
  revert E. match goal with |- ?m k2 = _ -> _ => assert (Hr : transforms mail m); [|apply Hr] end.
  unfold spawn_elf_at. transform. apply transforms_modify. intros. by apply mail_same.
Qed.
#[local] Hint Resolve mail_spawn_elf mail_restart : preserve.

Lemma mail_load_bytes n v : transforms mail (load_bytes n v).
Proof using. revert v. induction n as [|n IH]; intros v; cbn [load_bytes]; unfold load_byte; transform. Qed.
#[local] Hint Resolve mail_load_bytes : preserve.
Lemma mail_elf_image p l : transforms mail (user_elf_image p l).
Proof using. unfold user_elf_image. transform. apply transforms_page_loop; [exact _|]. intros v. transform. Qed.
Lemma mail_mask d m : transforms mail (irq_mask_ok d m).
Proof using.
  unfold irq_mask_ok. generalize 0 as i. induction (Z.to_nat MSI_VECTOR_COUNT) as [|n IH]; intros i; cbn [irq_mask_loop]; transform.
Qed.
Lemma mail_inc_frame p : transforms mail (inc_frame p).
Proof using. apply transforms_modify. intros. by apply mail_same. Qed.
Lemma mail_drop_frame p : transforms mail (drop_frame p).
Proof using. unfold drop_frame. transform. apply transforms_modify. intros. by apply mail_same. Qed.
#[local] Hint Resolve mail_elf_image mail_mask mail_inc_frame mail_drop_frame : preserve.

Lemma mail_dispatch num a1 a2 a3 :
  is_forwarded num = false -> transforms mail (syscall_dispatch stack_top forward num a1 a2 a3).
Proof using.
  intros Hf. unfold syscall_dispatch.
  assert (Hp : (num =? SYS_POWEROFF) || (num =? SYS_REBOOT) = false).
  { apply orb_false_iff. split; apply Z.eqb_neq; intros ->; discriminate Hf. }
  rewrite Hp, Hf.
  repeat match goal with |- transforms _ (if ?n =? ?c then _ else _) => destruct (n =? c) end.
  all: unfold sys_yield, sys_sleep, sys_send, sys_call, sys_reply, sys_alloc_page, sys_share_page, sys_unmap,
    sys_map_anon, sys_page_fault_reply, sys_register_irq, sys_irq_poll, sys_irq_wait, sys_map_mmio, sys_port_in,
    sys_port_out, may_use_port, sys_virt_to_phys, sys_cap_issue, sys_cap_lookup, sys_cap_drop, sys_handle_send, sys_cap_send,
    sys_spawn_elf, sys_puts, sys_spawn_elf_at, sys_spawn_elf_module, sys_fb_info, sys_fb_map, sys_key_push, sys_key_try_read,
    sys_domain_alive, sys_domain_destroy, sys_cap_audit, sys_try_recv, sys_net_bind, sys_log_read, with_spawn,
    boot_module_image, take_any, on_irq_unit, sys_recv, sys_key_read, store_message, finish_call, flag, read_user_payload.
  all: transform.
  all: try (apply transforms_modify; intros; by apply mail_same).
  all: try (apply transforms_for_each; [exact _|]; intros i; transform).
  intros k b k' E. unfold step in E. destruct (bind _ _ _ _). injection E as <- <-. by apply mail_same.
Qed.

Lemma mail_resume : transforms mail resume_current.
Proof using.
  unfold resume_current, irq_wait_resume, take_any, sys_recv, store_message, finish_call, sys_key_read, flag. transform.
Qed.

Lemma mail_handle e : modelled e -> transforms mail (handle stack_top forward e).
Proof using.
  intros Hm. destruct e as [num a1 a2 a3|addr code| |sc|v]; cbn [handle modelled] in *.
  - by apply mail_dispatch.
  - unfold page_fault_handler, deliver_fault. transform.
  - unfold timer_handler, timer_tick. transform.
  - unfold keyboard_handler, dispatch. transform.
  - intros k r k' E. unfold msi_handler, step in E. destruct (set_pending _ _ _) as [[q s]|]; [|done].
    injection E as <- <-. by apply mail_same.
Qed.

Lemma system_mail x y : system_step stack_top forward x y -> mail (fst x) (fst y).
Proof using.
  intros Hs. destruct Hs; cbn [fst]; [eapply mail_handle; eauto|eapply mail_resume; eauto|by apply mail_same].
Qed.


End mail.

(** ** Domain 0 sends a message to domain 1, where it waits *)

Lemma sample_send_event :
  exists v k', handle (H := soft_mapper) (H0 := plain_board) stack_at no_forward (ESyscall SYS_SEND 1 42 0) sample_kernel =
      Ok (Return v [], k') /\ length (sent_by 0 (mailbox k' 1)) = 1%nat.
Proof.
  assert (Hv : match handle (H := soft_mapper) (H0 := plain_board) stack_at no_forward
                 (ESyscall SYS_SEND 1 42 0) sample_kernel with
               | Ok (Return _ [], k') => (length (sent_by 0 (mailbox k' 1)) =? 1)%nat | _ => false end = true)
    by (vm_compute; reflexivity).
  destruct (handle _ _ _ sample_kernel) as [[[v [|]|] k']|]; try discriminate Hv.
  exists v, k'. split; [done|]. by apply Nat.eqb_eq.
Qed.

