(* ===== verification/Wakeup.v ===== *)
(** * No lost wake-ups

    A task blocked in [receive] is woken when a message arrives. The check of the mailbox and
    the blocking happen in one kernel entry, and every delivery wakes one task blocked on the
    receiving domain; this file shows that this is enough: in every reachable state a task that
    is blocked in [receive] has an empty mailbox. *)

From S2P Require Import Prelude Addr Cap Key Klog Frames Elf Sched Net Pager Irq Kernel Ipc Paging Domains Exec Syscall.

(** ** The invariant on the task table *)

(** The keys a task blocks on: its own domain, or the reserved keys. *)
Definition own_key (t : Task) : Prop :=
  t_wait_on t = t_domain t \/ t_wait_on t = KEY_WAIT \/ t_wait_on t = irq_wait_token (t_domain t).

(** [alive] says which domains are alive, [empty] which mailboxes are empty. *)
Record tasks_ok (alive empty : Z -> Prop) (s : Scheduler) : Prop := {
  to_alive : forall i t, get (tasks s) i = Some t -> alive (t_domain t);
  to_one : forall i j t u, get (tasks s) i = Some t -> get (tasks s) j = Some u -> t_domain t = t_domain u ->
             t_state t <> Terminated -> t_state u <> Terminated -> i = j;
  to_key : forall i t, get (tasks s) i = Some t -> t_state t = Blocked -> own_key t;
  to_recv : forall i t a, get (tasks s) i = Some t -> t_state t = Blocked -> t_ctx t = RReceive a ->
              t_wait_on t = t_domain t /\ empty (t_domain t);
  to_cur : forall t, get (tasks s) (current s) = Some t -> t_state t <> Terminated /\ t_state t <> Blocked;
}.

(** A change of a task that cannot break the invariant. *)
Definition tame (t u : Task) : Prop :=
  t_domain u = t_domain t /\ (t_state u <> Terminated -> t_state t <> Terminated) /\
  (t_state u = Blocked -> t_state t = Blocked /\ t_wait_on u = t_wait_on t /\ t_ctx u = t_ctx t).

Lemma tame_refl t : tame t t.
Proof. done. Qed.

Lemma tame_ready t : t_state t = Blocked -> tame t (make_ready t).
Proof. intros Hb. split; [done|]. split; [by rewrite Hb | done]. Qed.

Lemma tasks_ok_tame alive empty s s' :
  tasks_ok alive empty s ->
  (forall j u, get (tasks s') j = Some u -> exists t, get (tasks s) j = Some t /\ tame t u) ->
  (forall t, get (tasks s') (current s') = Some t -> t_state t <> Terminated /\ t_state t <> Blocked) ->
  tasks_ok alive empty s'.
Proof.
  intros [A B C D _] Hget Hcur. constructor.
  - intros i u Hu. destruct (Hget _ _ Hu) as (t & Ht & -> & _). eauto.
  - intros i j t u Ht Hu Hd N1 N2. destruct (Hget _ _ Ht) as (t0 & Ht0 & E1 & F1 & _), (Hget _ _ Hu) as (u0 & Hu0 & E2 & F2 & _).
    apply (B i j t0 u0 Ht0 Hu0); [congruence | auto | auto].
  - intros i u Hu Hb. destruct (Hget _ _ Hu) as (t & Ht & E & _ & F). destruct (F Hb) as (Hb' & Hw & _).
    unfold own_key. rewrite Hw, E. exact (C i t Ht Hb').
  - intros i u a Hu Hb Hc. destruct (Hget _ _ Hu) as (t & Ht & E & _ & F). destruct (F Hb) as (Hb' & Hw & Hx).
    rewrite Hw, E. apply (D i t a Ht Hb'). congruence.
  - exact Hcur.
Qed.

Lemma tasks_ok_weaken (alive empty alive' empty' : Z -> Prop) s :
  tasks_ok alive empty s -> (forall i t, get (tasks s) i = Some t -> alive (t_domain t) -> alive' (t_domain t)) ->
  (forall i t, get (tasks s) i = Some t -> empty (t_domain t) -> empty' (t_domain t)) -> tasks_ok alive' empty' s.
Proof.
  intros [A B C D E] Ha He. constructor; [eauto..| |exact E]. intros i t a Ht Hb Hc. destruct (D i t a Ht Hb Hc). eauto.
Qed.

(** ** The scheduler's operations *)

Lemma schedule_next_get k st s s' :
  schedule_next k st s = Ok s' ->
  exists tc n tn, get (tasks s) (current s) = Some tc /\ current s' = n /\
    yielded st k s n = Some tn /\ t_state tn = Ready /\
    (forall j, get (tasks s') j = if decide (j = n) then Some (set_state Running tn) else yielded st k s j).
Proof.
  unfold schedule_next. intros E. apply res_bind_ok in E as (o & Eo & E). apply index_ok in Eo.
  destruct o as [tc|].
  2:{ cbn [mbind res_bind mret res_ret] in E. apply res_bind_ok in E as (n & _ & E). apply res_bind_ok in E as (t & Et & _).
      rewrite task_at_get in Et. cbn [tasks with_tasks] in Et. unfold get in Et. by rewrite Eo in Et. }
  assert (Hc : get (tasks s) (current s) = Some tc) by (unfold get; by rewrite Eo).
  pose proof (get_in_table _ _ _ Hc) as Hr. unfold index_set in E.
  rewrite (proj2 (Z.leb_le _ _)), (proj2 (Z.ltb_lt _ _)) in E by lia. cbn [andb mbind res_bind] in E.
  set (ts := insertZ (tasks s) (current s) (Some (set_state st tc))) in *.
  assert (Hts : forall j, get ts j = if decide (j = current s) then Some (set_state st tc) else get (tasks s) j)
    by (intros j; apply get_insert; lia).
  apply res_bind_ok in E as (n & En & E). destruct (next_ready ts (current s)) as [n'|] eqn:En'; [|done].
  injection En as ->. apply next_ready_Some in En' as (_ & (u & Hu & Hst) & _).
  apply res_bind_ok in E as (t1 & _ & E). apply res_bind_ok in E as (t2 & Et2 & E).
  rewrite task_at_get in Et2. cbn [tasks with_tasks] in Et2. rewrite Hu in Et2. injection Et2 as <-.
  apply res_bind_ok in E as (s2 & E2 & E). rewrite update_task_get in E2. cbn [tasks with_tasks] in E2.
  rewrite (Hts (current s)), decide_True in E2 by done. injection E2 as <-.
  apply res_bind_ok in E as (s3 & E3 & E). rewrite update_task_get in E3. cbn [tasks with_tasks] in E3.
  set (ts2 := insertZ ts (current s) (Some (set_ctx k (set_state st tc)))) in *.
  assert (Hl : Z.of_nat (length ts) = Z.of_nat (length (tasks s))) by (unfold ts; by rewrite length_insertZ).
  assert (Hts2 : forall j, get ts2 j = yielded st k s j).
  { intros j. unfold ts2. rewrite get_insert by lia. unfold yielded. rewrite Hts. case_decide; [by subst; rewrite Hc|].
    by destruct (get (tasks s) j). }
  rewrite Hts2 in E3. assert (Hyn : exists tn, yielded st k s n = Some tn /\ t_state tn = Ready).
  { rewrite Hts in Hu. unfold yielded. case_decide; [subst n; rewrite Hc; injection Hu as <-; eauto|]. rewrite Hu. eauto. }
  destruct Hyn as (tn & Hyn & Hr'). rewrite Hyn in E3. injection E3 as <-. injection E as <-.
  exists tc, n, tn. split; [done|]. split; [done|]. split; [done|]. split; [done|].
  intros j. cbn [tasks with_tasks]. rewrite get_insert; [case_decide; [done | apply Hts2]|].
  apply get_in_table in Hu. unfold ts2. rewrite length_insertZ. lia.
Qed.

(** Giving up the processor; a task that blocks must block on one of its keys, and one that
    blocks in [receive] on its empty mailbox. *)
Lemma tasks_ok_switch alive empty k st s s' :
  schedule_next k st s = Ok s' -> tasks_ok alive empty s ->
  (st = Blocked -> forall t, get (tasks s) (current s) = Some t ->
     own_key t /\ forall a, k = RReceive a -> t_wait_on t = t_domain t /\ empty (t_domain t)) ->
  tasks_ok alive empty s'.
Proof.
  intros E Hok Hb. apply schedule_next_get in E as (tc & n & tn & Hc & Hn & Hy & Hr & Hget).
  pose proof Hok as [A B C D F]. destruct (F tc Hc) as [F1 F2].
  assert (Hsrc : forall j u, get (tasks s') j = Some u ->
    (exists t, get (tasks s) j = Some t /\ tame t u) \/ (st = Blocked /\ u = set_ctx k (set_state st tc) /\ j = current s)).
  { intros j u. rewrite Hget. unfold yielded in *. destruct (decide (j = n)) as [->|Hj].
    - intros [= <-]. left. destruct (get (tasks s) n) as [t|] eqn:Et; [|done]. exists t. split; [done|].
      destruct (decide (n = current s)) as [->|Hnc]; injection Hy as <-.
      + rewrite Hc in Et. injection Et as <-. by split.
      + split; [done|]. split; [intros _ Ht; by rewrite Ht in Hr | done].
    - destruct (get (tasks s) j) as [t|] eqn:Et; [|done]. intros [= <-].
      destruct (decide (j = current s)) as [->|Hj2]; [|left; by exists t]. rewrite Hc in Et. injection Et as <-. destruct (decide (st = Blocked)) as [->|Hst]; [by right|].
      left. exists tc. split; [done|]. split; [done|]. split; [done | by intros ?]. }
  constructor.
  - intros i u Hu. destruct (Hsrc _ _ Hu) as [(t & Ht & -> & _)|(_ & -> & ->)]; [eauto | exact (A _ _ Hc)].
  - intros i j t u Ht Hu Hd N1 N2. destruct (Hsrc _ _ Ht) as [(t0 & Ht0 & E1 & G1 & _)|(_ & -> & ->)],
      (Hsrc _ _ Hu) as [(u0 & Hu0 & E2 & G2 & _)|(_ & -> & ->)]; [| | |done].
    + apply (B i j t0 u0 Ht0 Hu0); [congruence | auto | auto].
    + eapply B; [exact Ht0 | exact Hc | cbn in *; congruence | auto | auto].
    + eapply B; [exact Hc | exact Hu0 | cbn in *; congruence | auto | auto].
  - intros i u Hu Hbl. destruct (Hsrc _ _ Hu) as [(t & Ht & Ed & _ & G)|(Hst & -> & ->)].
    + destruct (G Hbl) as (G1 & G2 & _). unfold own_key. rewrite G2, Ed. exact (C _ _ Ht G1).
    + exact (proj1 (Hb Hst tc Hc)).
  - intros i u a Hu Hbl Hx. destruct (Hsrc _ _ Hu) as [(t & Ht & Ed & _ & G)|(Hst & -> & ->)].
    + destruct (G Hbl) as (G1 & G2 & G3). rewrite G2, Ed. apply (D i t a Ht G1). congruence.
    + exact (proj2 (Hb Hst tc Hc) a Hx).
  - intros t. rewrite Hn, Hget, decide_True by done. intros [= <-]. done.
Qed.

Lemma get_wake_one key s j u :
  get (tasks (wake_one key s)) j = Some u -> exists t, get (tasks s) j = Some t /\ tame t u.
Proof.
  destruct (wake_one_get key s j) as [->|(t & Ht & Hw & ->)]; intros Hu.
  - exists u. split; [done | apply tame_refl].
  - injection Hu as <-. exists t. split; [done|]. apply tame_ready. unfold waits_on in Hw.
    apply andb_prop in Hw as [Hw _]. by apply bool_decide_eq_true_1 in Hw.
Qed.

Lemma current_wake_one key s : current (wake_one key s) = current s.
Proof. unfold wake_one. by case_match. Qed.

Lemma current_kept alive empty s s' :
  tasks_ok alive empty s -> current s' = current s ->
  (forall t, get (tasks s') (current s') = Some t ->
     get (tasks s) (current s) = Some t \/
     exists u, get (tasks s) (current s) = Some u /\ (t_state u = Blocked \/ t_state t = t_state u)) ->
  forall t, get (tasks s') (current s') = Some t -> t_state t <> Terminated /\ t_state t <> Blocked.
Proof.
  intros Hok Hc H t Ht. destruct (H t Ht) as [Hu|(u & Hu & [Hb|Hb])]; [exact (to_cur _ _ _ Hok _ Hu)| |].
  - by destruct (to_cur _ _ _ Hok _ Hu).
  - rewrite Hb. exact (to_cur _ _ _ Hok _ Hu).
Qed.

Lemma tasks_ok_wake alive empty key s : tasks_ok alive empty s -> tasks_ok alive empty (wake_one key s).
Proof.
  intros Hok. apply (tasks_ok_tame _ _ _ _ Hok); [intros j u; apply get_wake_one|].
  apply (current_kept _ _ _ _ Hok (current_wake_one key s)). rewrite current_wake_one. intros t Ht.
  destruct (wake_one_get key s (current s)) as [E|(u & Hu & Hw & E)]; rewrite E in Ht; [by left|]. right. exists u.
  split; [done|]. left. unfold waits_on in Hw. apply andb_prop in Hw as [Hw _]. by apply bool_decide_eq_true_1 in Hw.
Qed.

(** A table obtained task by task, the current slot included. *)
Lemma tasks_ok_map alive empty (f : Task -> option Task) s s' :
  tasks_ok alive empty s -> current s' = current s ->
  (forall j, get (tasks s') j = match get (tasks s) j with Some t => f t | None => None end) ->
  (forall t u, f t = Some u -> tame t u /\ (t_state u = t_state t \/ t_state t <> Running /\ t_state u = Ready)) ->
  tasks_ok alive empty s'.
Proof.
  intros Hok Hc Hget Hf. apply (tasks_ok_tame _ _ _ _ Hok).
  - intros j u. rewrite Hget. destruct (get (tasks s) j) as [t|]; [|done]. intros Hu. exists t. split; [done|]. by apply Hf.
  - intros u. rewrite Hc, Hget. destruct (get (tasks s) (current s)) as [t|] eqn:Et; [|done]. intros Hu.
    destruct (Hf t u Hu) as [_ [->|[_ ->]]]; [exact (to_cur _ _ _ Hok _ Et) | done].
Qed.

Lemma tasks_ok_tick_wake alive empty s : tasks_ok alive empty s -> tasks_ok alive empty (tick_wake s).
Proof.
  intros Hok. apply (tasks_ok_map _ _ (fun t => Some (wake_expired (w64 (ticks s + 1)) t)) _ _ Hok); [done| |].
  - intros j. unfold tick_wake. cbn [tasks]. by rewrite get_for_tasks.
  - intros t u [= <-]. unfold wake_expired.
    destruct (bool_decide_reflect (t_state t = Sleeping)) as [Hs|Hs]; cbn [andb].
    + case_match; [split; [|right; cbn; by rewrite Hs]|].
      * split; [done|]. split; [by rewrite Hs | done].
      * rewrite Hs. cbn [andb]. split; [apply tame_refl | by left].
    + destruct (bool_decide_reflect (t_state t = Blocked)) as [Hb|Hb]; cbn [andb]; [|split; [apply tame_refl | by left]].
      case_match; [split; [by apply tame_ready | right; cbn; by rewrite Hb] | split; [apply tame_refl | by left]].
Qed.

Lemma tasks_ok_update alive empty f s s' :
  update_task f (current s) s = Ok s' -> tasks_ok alive empty s ->
  (forall t, t_domain (f t) = t_domain t /\ t_state (f t) = t_state t) -> tasks_ok alive empty s'.
Proof.
  intros E Hok Hf. rewrite update_task_get in E. destruct (get (tasks s) (current s)) as [t|] eqn:Et; [|done].
  injection E as <-. pose proof (get_in_table _ _ _ Et) as Hr.
  assert (Hget : forall j, get (insertZ (tasks s) (current s) (Some (f t))) j =
    if decide (j = current s) then Some (f t) else get (tasks s) j) by (intros j; by apply get_insert).
  destruct (Hf t) as [F1 F2]. destruct (to_cur _ _ _ Hok _ Et) as [F3 F4].
  apply (tasks_ok_tame _ _ _ _ Hok); cbn [tasks with_tasks current].
  - intros j u. rewrite Hget. case_decide; [subst; intros [= <-]|].
    + exists t. split; [done|]. split; [done|]. rewrite F2. done.
    + intros Hu. exists u. split; [done | apply tame_refl].
  - intros u. rewrite Hget, decide_True by done. intros [= <-]. by rewrite F2.
Qed.

(** [block_current] and [block_current_timeout_ms]. *)
Lemma tasks_ok_block alive empty k on dl s s' :
  (s1 ← update_task (set_wait on dl) (current s) s; schedule_next k Blocked s1) = Ok s' -> tasks_ok alive empty s ->
  (forall d, Sched.current_domain s = Ok d ->
     (on = d \/ on = KEY_WAIT \/ on = irq_wait_token d) /\ forall a, k = RReceive a -> on = d /\ empty d) ->
  tasks_ok alive empty s'.
Proof.
  intros E Hok Hkey. apply res_bind_ok in E as (s1 & E1 & E).
  assert (Hok1 : tasks_ok alive empty s1) by (eapply tasks_ok_update; [exact E1|done|done]).
  apply (tasks_ok_switch _ _ _ _ _ _ E Hok1). intros _ t Ht. rewrite update_task_get in E1.
  destruct (get (tasks s) (current s)) as [t0|] eqn:Et; [|done]. injection E1 as <-. cbn [tasks with_tasks current] in Ht.
  rewrite get_insert, decide_True in Ht by (done || by apply get_in_table in Et). injection Ht as <-.
  destruct (Hkey (t_domain t0)) as [H1 H2]; [unfold Sched.current_domain; by rewrite task_at_get, Et|].
  split; [exact H1 | exact H2].
Qed.

(** ** The invariant on the kernel *)

Definition alive_in (k : kernel) (d : Z) : Prop := is_alive d k = true.
Definition no_mail (k : kernel) (d : Z) : Prop := mailbox k d = [].

Definition wake_inv (k : kernel) : Prop := tasks_ok (alive_in k) (no_mail k) (k_sched k).

(** Domain ids stay far below the reserved wait keys. *)
Definition few_domains (k : kernel) : Prop := Z.of_nat (length (k_domains k)) <= 2^32.

Definition keeps_inv (k k' : kernel) : Prop :=
  (length (k_domains k) <= length (k_domains k'))%nat /\ (few_domains k' -> wake_inv k -> wake_inv k').

#[export] Instance keeps_inv_preorder : PreOrder keeps_inv.
Proof.
  split; [by intros k|]. intros k1 k2 k3 [L1 H1] [L2 H2]. split; [lia|]. intros Hf Hk. apply H2; [done|]. apply H1; [|done].
  unfold few_domains in *. lia.
Qed.

(** Only the scheduler changed. *)
Lemma keeps_sched k s : (wake_inv k -> tasks_ok (alive_in k) (no_mail k) s) -> keeps_inv k (set_sched k s).
Proof. intros Hs. split; [done|]. intros _ Hk. exact (Hs Hk). Qed.

(** Nothing the invariant looks at changed. *)
Lemma keeps_rest k k' :
  k_sched k' = k_sched k -> k_boxes k' = k_boxes k -> k_domains k' = k_domains k -> keeps_inv k k'.
Proof.
  intros E1 E2 E3. split; [by rewrite E3|]. intros _ Hk. unfold wake_inv. rewrite E1.
  apply (tasks_ok_weaken _ _ _ _ _ Hk); intros i t _; unfold alive_in, is_alive, no_mail, mailbox; [by rewrite E3 | by rewrite E2].
Qed.

Lemma keeps_memory {A} (m : M A) : transforms memory_only m -> transforms keeps_inv m.
Proof. apply transforms_memory. intros k k' (m' & f & ->). by apply keeps_rest. Qed.
Lemma keeps_caps {A} (f : cap_state -> A * cap_state) : transforms keeps_inv (on_caps f).
Proof. apply transforms_caps. intros. by apply keeps_rest. Qed.
Lemma keeps_irq {A} (f : irq_state -> res (A * irq_state)) : transforms keeps_inv (on_irq f).
Proof. apply transforms_irq. intros. by apply keeps_rest. Qed.
Lemma keeps_keys {A} (f : KeyQueue -> res (A * KeyQueue)) : transforms keeps_inv (on_keys f).
Proof. apply transforms_keys. intros. by apply keeps_rest. Qed.
Lemma keeps_wake key : transforms keeps_inv (wake key).
Proof. apply transforms_modify. intros k. apply keeps_sched. apply tasks_ok_wake. Qed.
Lemma keeps_current : transforms keeps_inv current_domain.
Proof. apply transforms_try. exact _. Qed.
Lemma keeps_has d c : transforms keeps_inv (has_cap d c).
Proof. apply transforms_try. exact _. Qed.

#[export] Hint Resolve keeps_caps keeps_irq keeps_keys keeps_wake keeps_current keeps_has : preserve.
#[export] Hint Extern 3 (transforms keeps_inv _) => (simple apply keeps_memory; solve [auto 3 with preserve nocore]) : preserve.

Lemma keeps_on_sched f :
  (forall alive empty s s', f s = Ok s' -> tasks_ok alive empty s -> tasks_ok alive empty s') ->
  transforms keeps_inv (on_sched f).
Proof.
  intros Hf k u k' E. apply on_sched_ok in E as (s & E & ->). apply keeps_sched. intros Hk. eauto.
Qed.

(** A switch that does not block. *)
Lemma keeps_switch k st : st <> Blocked -> transforms keeps_inv (on_sched (schedule_next k st)).
Proof. intros Hst. apply keeps_on_sched. intros al em s s' E Hok. eapply tasks_ok_switch; eauto. by intros ->. Qed.

Lemma keeps_yield : transforms keeps_inv (on_sched yield_now).
Proof. by apply keeps_switch. Qed.
Lemma keeps_exit_switch : transforms keeps_inv (on_sched exit_switch).
Proof. by apply keeps_switch. Qed.
Lemma keeps_tick : transforms keeps_inv (on_sched tick).
Proof.
  apply keeps_on_sched. intros al em s s' E Hok. apply (tasks_ok_switch _ _ _ _ _ _ E); [|done]. by apply tasks_ok_tick_wake.
Qed.
Lemma keeps_sleep ms : transforms keeps_inv (on_sched (sleep ms)).
Proof.
  apply keeps_on_sched. intros al em s s' E Hok. unfold sleep in E. apply res_bind_ok in E as (s1 & E1 & E).
  apply (tasks_ok_switch _ _ _ _ _ _ E); [|done]. eapply tasks_ok_update; [exact E1|done|done].
Qed.
Lemma keeps_set_reply d : transforms keeps_inv (set_reply d).
Proof. apply keeps_on_sched. intros al em s s' E Hok. eapply tasks_ok_update; [exact E|done|done]. Qed.
#[export] Hint Resolve keeps_yield keeps_exit_switch keeps_tick keeps_sleep keeps_set_reply : preserve.

(** ** Blocking *)

(** [f] is one of the two blocking operations, on key [on] with continuation [c]. *)
Definition blocks (f : Scheduler -> res Scheduler) (c : resume) (on : Z) : Prop :=
  forall s, exists dl, f s = (s1 ← update_task (set_wait on dl) (current s) s; schedule_next c Blocked s1).

Lemma blocks_now c on : blocks (block_current c on) c on.
Proof. intros s. by exists 0. Qed.
Lemma blocks_for c on ms : blocks (block_current_timeout_ms c on ms) c on.
Proof. intros s. eexists. unfold block_current_timeout_ms. reflexivity. Qed.

Lemma keeps_block_at k f c on u k' :
  on_sched f k = Ok (u, k') -> blocks f c on ->
  (forall d, Sched.current_domain (k_sched k) = Ok d ->
     (on = d \/ on = KEY_WAIT \/ on = irq_wait_token d) /\ forall a, c = RReceive a -> on = d /\ no_mail k d) ->
  keeps_inv k k'.
Proof.
  intros E Hf Hk. apply on_sched_ok in E as (s & E & ->). apply keeps_sched. intros Hi.
  destruct (Hf (k_sched k)) as [dl Ef]. rewrite Ef in E. exact (tasks_ok_block _ _ _ _ _ _ _ E Hi Hk).
Qed.

Lemma keeps_block_key : transforms keeps_inv (on_sched (block_current RKeyRead KEY_WAIT)).
Proof. intros k u k' E. eapply keeps_block_at; [exact E|apply blocks_now|]. intros d _. split; [auto | done]. Qed.
#[export] Hint Resolve keeps_block_key : preserve.

Lemma keeps_boxes k d box :
  is_Some (lookupZ (k_boxes k) d) -> (mailbox k d = [] -> box = []) -> keeps_inv k (set_boxes k (insertZ (k_boxes k) d box)).
Proof.
  intros Hd Hbox. split; [done|]. intros _ Hi. apply (tasks_ok_weaken _ _ _ _ _ Hi); [done|]. intros i t Ht.
  unfold no_mail. rewrite mailbox_insert by done. case_decide as E; [rewrite E; exact Hbox | done].
Qed.

Lemma keeps_pop_front d : transforms keeps_inv (pop_front d).
Proof.
  intros k o k' E. apply pop_front_ok in E as (box & Hb & E). destruct o as [m|]; [|by destruct E as [_ ->]].
  destruct E as (rest & -> & ->). apply keeps_boxes; [eauto|]. unfold mailbox. by rewrite Hb.
Qed.

Lemma keeps_take_reply me p : transforms keeps_inv (take_reply me p).
Proof.
  intros k o k' E. unfold take_reply, index in E. destruct (lookupZ (k_boxes k) me) as [box|] eqn:Hb; [|done]. cbn in E.
  destruct (take_from p box) as [[m rest]|] eqn:Et; injection E as <- <-; [|done].
  apply keeps_boxes; [eauto|]. unfold mailbox. rewrite Hb. cbn. by intros ->.
Qed.
#[export] Hint Resolve keeps_pop_front keeps_take_reply : preserve.

Lemma keeps_try_receive : transforms keeps_inv try_receive.
Proof. unfold try_receive. transform. Qed.

Lemma keeps_receive a1 : transforms keeps_inv (receive a1).
Proof.
  intros k r k' E. unfold receive in E. apply M_bind_ok in E as (me & k1 & E1 & E).
  apply current_domain_ok in E1 as [-> Hme]. apply M_bind_ok in E as (got & k2 & E2 & E).
  destruct got as [m|].
  - transitivity k2; [exact (keeps_pop_front _ _ _ _ E2)|]. revert E. apply transforms_bind; [exact _|auto with preserve|].
    intros _. transform.
  - apply pop_front_ok in E2 as (box & Hb & -> & ->). apply M_bind_ok in E as (u & k3 & E3 & E). injection E as <- <-.
    eapply keeps_block_at; [exact E3|apply blocks_now|]. intros d Hd. rewrite Hme in Hd. injection Hd as <-. split; [by left|].
    intros a _. split; [done|]. unfold no_mail, mailbox. by rewrite Hb.
Qed.
#[export] Hint Resolve keeps_receive keeps_try_receive : preserve.

(** ** Delivering wakes the receiver *)

Lemma reserved_keys d e n : 0 <= d < n -> 0 <= e < n -> n <= 2^32 -> d <> KEY_WAIT /\ d <> irq_wait_token e.
Proof.
  intros. unfold irq_wait_token, IRQ_WAIT_MARK, KEY_WAIT, U64_MAX, w64. rewrite Z.mod_small by lia. lia.
Qed.

Lemma alive_range k d : alive_in k d -> 0 <= d < Z.of_nat (length (k_domains k)).
Proof.
  unfold alive_in, is_alive. destruct (lookupZ (k_domains k) d) as [o|] eqn:E; [|done]. intros _.
  apply lookupZ_Some in E as [? E]. apply lookup_lt_Some in E. lia.
Qed.

(** A task blocked in [receive] is the only task blocked on its domain. *)
Lemma receiver_sole k i t a :
  wake_inv k -> few_domains k -> get (tasks (k_sched k)) i = Some t -> t_state t = Blocked -> t_ctx t = RReceive a ->
  sole_waiter (k_sched k) (t_domain t) i.
Proof.
  intros Hi Hf Ht Hb Hc. destruct (to_recv _ _ _ Hi i t a Ht Hb Hc) as [Hw _]. split.
  - exists t. split; [done|]. unfold waits_on. rewrite Hw, Z.eqb_refl, andb_true_r. by apply bool_decide_eq_true_2.
  - intros j u Hu Hwu. unfold waits_on in Hwu. apply andb_prop in Hwu as [Hbu Hwu].
    apply bool_decide_eq_true_1 in Hbu. apply Z.eqb_eq in Hwu.
    pose proof (alive_range _ _ (to_alive _ _ _ Hi _ _ Ht)) as R1. pose proof (alive_range _ _ (to_alive _ _ _ Hi _ _ Hu)) as R2.
    destruct (reserved_keys _ _ _ R1 R2 Hf) as [N1 N2].
    destruct (to_key _ _ _ Hi j u Hu Hbu) as [E|[E|E]]; [|congruence|congruence].
    apply (to_one _ _ _ Hi j i u t Hu Ht); [congruence | by rewrite Hbu | by rewrite Hb].
Qed.

Lemma keeps_enqueued k d m : is_Some (lookupZ (k_boxes k) d) -> keeps_inv k (enqueued k d m).
Proof.
  intros Hd. split; [done|]. intros Hf Hi. pose proof (tasks_ok_wake _ _ d _ Hi) as [A B C D F].
  constructor; [exact A|exact B|exact C| |exact F]. cbn [k_sched enqueued set_sched] in *.
  intros i t a Ht Hb Hc. destruct (D i t a Ht Hb Hc) as [Hw He]. split; [done|].
  unfold no_mail, enqueued. rewrite mailbox_sched, mailbox_insert by done. case_decide as Hdd; [|done]. exfalso.
  destruct (wake_one_get d (k_sched k) i) as [E|(u & Hu & _ & E)]; rewrite E in Ht; [|by injection Ht as <-].
  pose proof (receiver_sole k i t a Hi Hf Ht Hb Hc) as Hs. rewrite Hdd in Hs. apply wake_one_sole in Hs as (u & Hu & Hr).
  rewrite E in Hu. congruence.
Qed.

Lemma keeps_capped_wake d m :
  transforms keeps_inv (ok ← push_capped d m; if ok : bool then _ ← wake d; mret true else mret false).
Proof.
  intros k b k' E. apply capped_wake_ok in E as (Hd & _ & ->). destruct b; [by apply keeps_enqueued | done].
Qed.

Lemma push_wake_run k d m {A} (f : M A) r k' :
  (_ ← push_back d m; _ ← wake d; f) k = Ok (r, k') ->
  is_Some (lookupZ (k_boxes k) d) /\ f (enqueued k d m) = Ok (r, k').
Proof.
  intros E. apply M_bind_ok in E as (u & k1 & E1 & E). apply push_back_ok in E1 as (box & Hb & ->). split; [eauto|].
  apply M_bind_ok in E as (v & k2 & E2 & E). injection E2 as <- <-. unfold enqueued, mailbox. by rewrite Hb.
Qed.

Lemma keeps_push_wake d m {A} (f : M A) : transforms keeps_inv f -> transforms keeps_inv (_ ← push_back d m; _ ← wake d; f).
Proof.
  intros Hf k b k' E. apply push_wake_run in E as [Hd E]. etransitivity; [by apply keeps_enqueued | exact (Hf _ _ _ E)].
Qed.
#[export] Hint Resolve keeps_capped_wake : preserve.

Lemma keeps_send to tag p : transforms keeps_inv (send to tag p).
Proof. unfold send. transform. Qed.
Lemma keeps_deliver from to tag p : transforms keeps_inv (deliver from to tag p).
Proof. apply keeps_capped_wake. Qed.
Lemma keeps_reply tag p : transforms keeps_inv (reply tag p).
Proof.
  unfold reply. apply transforms_bind; [exact _|auto with preserve|intros me]. apply transforms_bind; [exact _|transform|intros t].
  destruct (_ =? _); [transform|]. apply keeps_push_wake. transform.
Qed.
#[export] Hint Resolve keeps_send keeps_deliver keeps_reply : preserve.

(** ** Calls, faults, interrupt waits: blocking on the caller's own keys *)

Lemma current_domain_wake key s : Sched.current_domain (wake_one key s) = Sched.current_domain s.
Proof.
  unfold Sched.current_domain. rewrite !task_at_get, current_wake_one.
  destruct (wake_one_get key s (current s)) as [->|(t & -> & _ & ->)]; done.
Qed.

(** Blocking on the running domain, not in [receive]. *)
Lemma keeps_block_own k f c on u k' me :
  on_sched f k = Ok (u, k') -> blocks f c on ->
  Sched.current_domain (k_sched k) = Ok me -> (on = me \/ on = irq_wait_token me) -> (forall a, c <> RReceive a) ->
  keeps_inv k k'.
Proof.
  intros E Hf Hme Hon Hc. eapply keeps_block_at; [exact E|exact Hf|]. intros d Hd. rewrite Hme in Hd. injection Hd as <-.
  split; [tauto|]. intros a ->. by destruct (Hc a).
Qed.

Lemma keeps_call to tag p : transforms keeps_inv (call to tag p).
Proof.
  intros k r k' E. unfold call in E. apply M_bind_ok in E as (me & k1 & E1 & E).
  apply current_domain_ok in E1 as [-> Hme]. apply M_bind_ok in E as (b & k2 & E2 & E).
  apply has_cap_ok in E2 as [-> _]. destruct b; cbn [negb] in E; [|by injection E as <- <-].
  rewrite bind_gets in E. destruct (_ =? 0); [by injection E as <- <-|].
  apply push_wake_run in E as [Hd E]. apply M_bind_ok in E as (u & k3 & E3 & E). injection E as <- <-.
  etransitivity; [by apply keeps_enqueued|]. eapply keeps_block_own; [exact E3|apply blocks_for| |by left|done].
  cbn [enqueued k_sched set_sched]. by rewrite current_domain_wake.
Qed.

Lemma keeps_call_resume to : transforms keeps_inv (call_resume to).
Proof.
  intros k r k' E. unfold call_resume in E. apply M_bind_ok in E as (me & k1 & E1 & E).
  apply current_domain_ok in E1 as [-> Hme]. apply M_bind_ok in E as (o & k2 & E2 & E).
  pose proof (keeps_take_reply _ _ _ _ _ E2) as K. destruct o as [m|]; [by injection E as <- <-|].
  assert (k2 = k) as ->.
  { unfold take_reply, index in E2. destruct (lookupZ _ _) as [box|]; [|done]. cbn in E2.
    destruct (take_from to box) as [[? ?]|]; by simplify_eq. }
  rewrite bind_gets in E. destruct (_ =? 0); [by injection E as <- <-|].
  apply M_bind_ok in E as (u & k3 & E3 & E). injection E as <- <-. eapply keeps_block_own; [exact E3|apply blocks_for|exact Hme|by left|done].
Qed.
#[export] Hint Resolve keeps_call keeps_call_resume : preserve.

Lemma deliver_current from to tag p k b k' :
  deliver from to tag p k = Ok (b, k') -> Sched.current_domain (k_sched k') = Sched.current_domain (k_sched k).
Proof.
  intros E. apply capped_wake_ok in E as (_ & _ & ->). destruct b; [|done]. cbn [enqueued k_sched set_sched].
  apply current_domain_wake.
Qed.

(** ** Domains coming and going *)

Lemma keeps_destroy id : transforms keeps_inv (destroy id).
Proof.
  intros k b k' E. rewrite destroy_spec in E. destruct (lookupZ (k_domains k) id) as [[d|]|] eqn:Ed; injection E as <- <-;
    [|done..].
  assert (Hid : 0 <= id) by (apply lookupZ_Some in Ed; tauto).
  destruct (destroyed id d k) as [cs sc bx pg iq nt ky lg fr mm dm pd] eqn:Ek. unfold destroyed in Ek.
  destruct (free_user_space _ _) as [m f]. injection Ek as <- <- <- <- <- <- <- <- <- <- <- <-.
  split; [cbn [k_domains]; by rewrite length_insertZ|]. intros _ Hi. cbn [k_sched].
  assert (H1 : tasks_ok (alive_in k) (no_mail k) (Sched.remove_domain id (k_sched k))).
  { apply (tasks_ok_map _ _ (fun t => if in_domain id (Some t) then None
             else Some (if waits_on id t then make_ready t else t)) _ _ Hi); [done| |].
    - intros j. unfold Sched.remove_domain. cbn [tasks with_tasks]. rewrite get_for_tasks, get_keep.
      destruct (get (tasks (k_sched k)) j) as [t|]; [|done]. by destruct (in_domain id (Some t)).
    - intros t u Hu. destruct (in_domain id (Some t)); [done|]. injection Hu as <-. unfold waits_on.
      destruct (bool_decide_reflect (t_state t = Blocked)) as [Hb|Hb]; cbn [andb]; [|split; [apply tame_refl | by left]].
      destruct (_ =? _); [split; [by apply tame_ready | right; by rewrite Hb] | split; [apply tame_refl | by left]]. }
  apply (tasks_ok_weaken _ _ _ _ _ H1); intros i t Ht; cbn [k_sched] in Ht; apply removed_tasks in Ht as [Hne _].
  - unfold alive_in, is_alive. cbn [k_domains]. by rewrite lookupZ_insertZ_ne by congruence.
  - unfold no_mail, mailbox. cbn [k_boxes].
    destruct (proj2 (lookupZ_set_row (k_boxes k) id [] (t_domain t) Hid) Hne) as [Hs|[_ Hs]]; unfold set_row in Hs; by rewrite Hs.
Qed.

Lemma keeps_reclaim : transforms keeps_inv reclaim_pending.
Proof. apply transforms_reclaim; [exact _|apply keeps_destroy|]. intros. by apply keeps_rest. Qed.

Lemma keeps_exit : transforms keeps_inv exit_current.
Proof. unfold exit_current, request_destroy. transform. apply transforms_modify. intros. by apply keeps_rest. Qed.
#[export] Hint Resolve keeps_destroy keeps_reclaim keeps_exit : preserve.

(** A new task, in a domain that is alive and has no live task. *)
Lemma tasks_ok_spawn alive empty s slot (t : Task) s' :
  tasks_ok alive empty s -> tasks s !! slot = Some None -> tasks s' = <[slot := Some t]> (tasks s) ->
  current s' = current s -> alive (t_domain t) -> t_state t = Ready ->
  (forall j u, get (tasks s) j = Some u -> t_domain u = t_domain t -> t_state u = Terminated) ->
  tasks_ok alive empty s'.
Proof.
  intros [A B C D F] Hs Ht Hc Ha Hr Hd. pose proof (lookup_lt_Some _ _ _ Hs) as Hl.
  assert (Hget : forall j, get (tasks s') j = if decide (j = Z.of_nat slot) then Some t else get (tasks s) j).
  { intros j. rewrite Ht. unfold get. rewrite lookupZ_insert_nat by done. by case_decide. }
  assert (Hcase : forall j u, get (tasks s') j = Some u -> (j = Z.of_nat slot /\ u = t) \/ get (tasks s) j = Some u).
  { intros j u. rewrite Hget. case_decide; [intros [= <-]; by left | by right]. }
  constructor.
  - intros i u Hu. destruct (Hcase _ _ Hu) as [[_ ->]|Hu']; [done | eauto].
  - intros i j u v Hu Hv E N1 N2. destruct (Hcase _ _ Hu) as [[-> ->]|Hu'], (Hcase _ _ Hv) as [[-> ->]|Hv']; [done| | |eauto].
    + by destruct N2; apply (Hd j v).
    + by destruct N1; apply (Hd i u).
  - intros i u Hu Hb. destruct (Hcase _ _ Hu) as [[_ ->]|Hu']; [congruence | eauto].
  - intros i u a Hu Hb Hx. destruct (Hcase _ _ Hu) as [[_ ->]|Hu']; [congruence | eauto].
  - intros u Hu. destruct (Hcase _ _ Hu) as [[_ ->]|Hu']; [by rewrite Hr | apply F; congruence].
Qed.

(** Setting up a domain adds no task and disturbs no other domain. *)
Lemma keeps_new_tables id loader k k1 :
  new_domain id loader k k1 -> wake_inv k -> tasks_ok (alive_in k1) (no_mail k1) (k_sched k) /\
    forall j u, get (tasks (k_sched k)) j = Some u -> t_domain u <> id.
Proof.
  intros N Hi. assert (Hne : forall j u, get (tasks (k_sched k)) j = Some u -> t_domain u <> id).
  { intros j u Hu Hd. pose proof (to_alive _ _ _ Hi _ _ Hu) as Ha. unfold alive_in in Ha.
    rewrite Hd, (proj2 (nd_fresh _ _ _ _ N)) in Ha. discriminate. }
  split; [|exact Hne]. apply (tasks_ok_weaken _ _ _ _ _ Hi); intros i t Ht;
    destruct (nd_others _ _ _ _ N (t_domain t) (Hne _ _ Ht)) as (_ & Hm & _ & Ha).
  - unfold alive_in. by rewrite Ha.
  - unfold no_mail. by rewrite Hm.
Qed.

Section arms.
Context `{Mapper} `{Board} (stack_top : Scheduler -> Z) (forward : Z -> Z -> Z -> Z -> M sysres).

Lemma keeps_spawn_elf image loader : transforms keeps_inv (spawn_elf stack_top image loader).
Proof using.
  intros k r k' E. apply spawn_elf_cases in E as [[_ ->]|(elf & id & _ & [(_ & N & T)|(k1 & b & _ & N & Hs & E)])]; [done| |].
  - split; [exact (nd_len _ _ _ _ N)|]. intros _ Hi. destruct (keeps_new_tables _ _ _ _ N Hi) as [Hok Hne].
    destruct T as (slot & root & ks & T1 & T2 & T3 & T4).
    apply (tasks_ok_spawn _ _ _ _ _ _ Hok T1 T3 T4); [exact (nd_alive _ _ _ _ N)|done|].
    intros j u Hu Hd. destruct (Hne j u Hu Hd).
  - transitivity k1; [|exact (keeps_destroy _ _ _ _ E)]. split; [exact (nd_len _ _ _ _ N)|]. intros _ Hi.
    unfold wake_inv. rewrite Hs. exact (proj1 (keeps_new_tables _ _ _ _ N Hi)).
Qed.

Lemma live_tasks_zero d s j t :
  live_tasks d s = 0 -> get (tasks s) j = Some t -> t_domain t = d -> t_state t = Terminated.
Proof using.
  intros Hl Ht Hd. destruct (decide (t_state t = Terminated)) as [?|Hn]; [done|]. exfalso.
  unfold live_tasks in Hl. unfold get in Ht. destruct (lookupZ (tasks s) j) as [[u|]|] eqn:E; simplify_eq.
  apply lookupZ_Some in E as [_ E]. apply list_elem_of_lookup_2 in E.
  assert (Hin : Some t ∈ filter (fun o => live_in (t_domain t) o = true) (tasks s)).
  { apply list_elem_of_filter. split; [|done]. cbn. rewrite Z.eqb_refl, bool_decide_eq_false_2 by done. done. }
  destruct (filter _ _); [by apply not_elem_of_nil in Hin | cbn in Hl; lia].
Qed.

Lemma keeps_reap target s alive empty :
  tasks_ok alive empty s -> tasks_ok alive empty (snd (reap_terminated target s)).
Proof using.
  intros Hok. apply (tasks_ok_map _ _ (fun t => if dead_in target (Some t) then None else Some t) _ _ Hok); [done| |].
  - intros j. unfold reap_terminated. cbn [tasks with_tasks snd]. rewrite get_keep. by destruct (get (tasks s) j).
  - intros t u. destruct (dead_in target (Some t)); [done|]. intros [= <-]. split; [apply tame_refl | by left].
Qed.

(** Starting a task in a live domain without live tasks. *)
Lemma keeps_load image elf d k b k' :
  load_image stack_top image elf d k = Ok (b, k') ->
  (forall j t, get (tasks (k_sched k)) j = Some t -> t_domain t = d -> t_state t = Terminated) -> keeps_inv k k'.
Proof using.
  intros E Hd. unfold load_image in E. apply M_bind_ok in E as (ok & k1 & E1 & E).
  pose proof (keeps_memory _ (memory_map_image image elf d) _ _ _ E1) as K.
  apply memory_map_image in E1 as (mm & ff & ->). set (k1 := set_frames (set_mem k mm) ff) in *.
  destruct ok; [|by injection E as <- <-]. apply start_user_ok in E. destruct b; [|by subst].
  destruct E as (slot & root & T1 & T2 & ->). transitivity k1; [done|]. apply keeps_sched. intros Hi.
  eapply (tasks_ok_spawn _ _ _ slot); [exact Hi|exact T1|reflexivity|done| |done|exact Hd].
  unfold alive_in, is_alive. cbn [t_domain]. by rewrite T2.
Qed.

Lemma memory_reset id : transforms memory_only (reset id).
Proof using.
  unfold reset, free_space. transform. apply transforms_modify. intros k. destruct (free_user_space _ _) as [m f].
  by exists m, f.
Qed.

Lemma keeps_restart target image : transforms keeps_inv (restart_in_place stack_top target image).
Proof using.
  intros k r k' E. unfold restart_in_place in E. destruct (parse image) as [elf'| |]; [|by injection E as <- <-|done].
  rewrite bind_gets in E. destruct (_ || _) eqn:Eg; [by injection E as <- <-|].
  apply orb_false_iff in Eg as [_ Hl]. apply negb_false_iff, Z.eqb_eq in Hl.
  apply M_bind_ok in E as (b1 & k1 & E1 & E).
  apply memory_reset in E1 as (mm & ff & ->). unfold Ipc.remove_domain, set_mailbox in E. rewrite !bind_modify in E.
  set (k2 := set_boxes _ _) in E.
  assert (Ht : 0 <= target \/ k2 = set_frames (set_mem k mm) ff).
  { destruct (Z.le_gt_cases 0 target); [by left|]. right. unfold k2. cbn [k_boxes set_frames set_mem].
    assert (Hn : Z.to_nat (target + 1) = 0%nat) by lia.
    unfold grow_to. rewrite Hn. cbn [Nat.sub replicate]. rewrite app_nil_r. unfold insertZ.
    rewrite (proj2 (Z.leb_gt _ _)) by lia. cbn [andb]. by destruct k. }
  assert (K2 : keeps_inv k k2).
  { destruct Ht as [Ht| ->]; [|by apply keeps_rest]. split; [done|]. intros _ Hi.
    apply (tasks_ok_weaken _ _ _ _ _ Hi); [done|]. intros i t _. unfold no_mail, mailbox, k2. cbn [k_boxes set_boxes set_frames set_mem].
    destruct (decide (t_domain t = target)) as [->|Hne].
    - pose proof (proj1 (lookupZ_set_row (k_boxes k) target [] 0 Ht)) as Hr. unfold set_row in Hr. by rewrite Hr.
    - destruct (proj2 (lookupZ_set_row (k_boxes k) target [] (t_domain t) Ht) Hne) as [Hs|[_ Hs]]; unfold set_row in Hs; by rewrite Hs. }
  transitivity k2; [done|]. set (k3 := set_sched k2 _) in E.
  transitivity k3; [apply keeps_sched; apply keeps_reap|].
  apply M_bind_ok in E as (ok & k4 & E4 & E). injection E as <- <-. unfold spawn_elf_at in E4.
  destruct (parse image) as [elf| |]; [|by injection E4 as <- <-|done].
  destruct (page_budget elf) as [pages|]; [|by injection E4 as <- <-].
  destruct (_ <? _); [by injection E4 as <- <-|]. eapply keeps_load; [exact E4|].
  intros j t Hj Hd. unfold k3 in Hj. cbn [k_sched set_sched reap_terminated snd tasks with_tasks k2 set_boxes set_frames set_mem] in Hj.
  rewrite get_keep in Hj. destruct (get (tasks (k_sched k)) j) as [u|] eqn:Eu; [|done].
  destruct (dead_in target (Some u)); [done|]. injection Hj as ->. exact (live_tasks_zero _ _ _ _ Hl Eu Hd).
Qed.

#[local] Hint Resolve keeps_spawn_elf keeps_restart : preserve.

(** The guards of an arm only read, so what holds at entry still holds at the blocking point. *)
Lemma reads_only {A} (m : M A) k a k' : transforms eq m -> m k = Ok (a, k') -> k' = k.
Proof using. intros Hm E. symmetry. exact (Hm _ _ _ E). Qed.

Lemma irq_mask_reads n i d m : transforms eq (irq_mask_loop n i d m).
Proof using. revert i. induction n as [|n IH]; intros i; cbn [irq_mask_loop]; unfold has_cap; transform. Qed.

Lemma irq_mask_ok_reads d m : transforms eq (irq_mask_ok d m).
Proof using. unfold irq_mask_ok. apply irq_mask_reads. Qed.

Lemma on_irq_sched {A} (f : irq_state -> res (A * irq_state)) k a k' : on_irq f k = Ok (a, k') -> k_sched k' = k_sched k.
Proof using. unfold on_irq. destruct (f (k_irq k)) as [[? ?]|]; [|done]. by intros [= <- <-]. Qed.

Lemma keeps_take_any m d : transforms keeps_inv (take_any m d).
Proof using. unfold take_any. apply keeps_irq. Qed.
Lemma take_any_sched m d k a k' : take_any m d k = Ok (a, k') -> k_sched k' = k_sched k.
Proof using. unfold take_any. apply on_irq_sched. Qed.
#[local] Hint Resolve keeps_take_any : preserve.

(** The last two steps of SYS_IRQ_WAIT: note the mask, then block. *)
Lemma keeps_irq_block k me a1 a2 r k' :
  Sched.current_domain (k_sched k) = Ok me ->
  (set ← on_irq (fun q => Ok (set_any_mask me a1 q));
   if negb set then ret 0
   else _ ← on_sched (block_current_timeout_ms (RIrqWait me a1) (irq_wait_token me) a2); mret Switched) k = Ok (r, k') ->
  keeps_inv k k'.
Proof using.
  intros Hme E. apply M_bind_ok in E as (b & k2 & E2 & E).
  pose proof (keeps_irq _ _ _ _ E2) as K2. apply on_irq_sched in E2.
  destruct b; cbn [negb] in E; [|by injection E as <- <-].
  apply M_bind_ok in E as (u & k3 & E3 & E). injection E as <- <-. transitivity k2; [done|].
  eapply keeps_block_own; [exact E3|apply blocks_for|rewrite E2; exact Hme|right; reflexivity|done].
Qed.

Lemma keeps_irq_wait a1 a2 : transforms keeps_inv (sys_irq_wait a1 a2).
Proof using.
  intros k r k' E. unfold sys_irq_wait in E. apply M_bind_ok in E as (me & k1 & E1 & E).
  apply current_domain_ok in E1 as [-> Hme]. destruct (a1 =? 0); [by injection E as <- <-|].
  apply M_bind_ok in E as (ok & k1 & E1 & E). apply reads_only in E1 as ->; [|exact (irq_mask_ok_reads me a1)].
  destruct (negb ok); [by injection E as <- <-|].
  apply M_bind_ok in E as (v & k1 & E1 & E). pose proof (keeps_take_any _ _ _ _ _ E1) as K1. apply take_any_sched in E1.
  destruct v as [v|]; [by injection E as <- <-|]. transitivity k1; [exact K1|].
  exact (keeps_irq_block k1 me a1 a2 r k' (eq_trans (f_equal Sched.current_domain E1) Hme) E).
Qed.

Lemma keeps_fault addr code : transforms keeps_inv (page_fault_handler addr code).
Proof using.
  unfold page_fault_handler. destruct (negb _); [apply transforms_panic|]. destruct (has_flag _ _); [apply keeps_exit|].
  intros k r k' E. apply M_bind_ok in E as (me & k1 & E1 & E).
  apply current_domain_ok in E1 as [-> Hme]. rewrite bind_gets in E.
  destruct (pager_of me (k_pagers k)) as [pager|]; [|done]. apply M_bind_ok in E as (u & k2 & E2 & E).
  unfold deliver_fault in E2. apply M_bind_ok in E2 as (b & k3 & E3 & E2). injection E2 as <- <-.
  apply M_bind_ok in E as (u' & k4 & E4 & E). injection E as <- <-.
  transitivity k3; [exact (keeps_deliver _ _ _ _ _ _ _ E3)|]. apply deliver_current in E3.
  eapply keeps_block_own; [exact E4|apply blocks_now|rewrite E3; exact Hme|by left|done].
Qed.

#[local] Hint Resolve keeps_irq_wait keeps_fault : preserve.

Lemma keeps_load_bytes n v : transforms keeps_inv (load_bytes n v).
Proof using. revert v. induction n as [|n IH]; intros v; cbn [load_bytes]; unfold load_byte; transform. Qed.
#[local] Hint Resolve keeps_load_bytes : preserve.

Lemma keeps_payload p : transforms keeps_inv (read_user_payload p).
Proof using. unfold read_user_payload. transform. Qed.
Lemma keeps_elf_image p l : transforms keeps_inv (user_elf_image p l).
Proof using. unfold user_elf_image. transform. apply transforms_page_loop; [exact _|]. intros v. transform. Qed.
Lemma keeps_mask d m : transforms keeps_inv (irq_mask_ok d m).
Proof using. intros k a k' E. apply reads_only in E as ->; [done | apply irq_mask_ok_reads]. Qed.
Lemma keeps_store a m : transforms keeps_inv (store_message a m).
Proof using. unfold store_message. transform. Qed.
Lemma keeps_flag b : transforms keeps_inv (flag b).
Proof using. unfold flag. transform. Qed.
Lemma keeps_finish_call o : transforms keeps_inv (finish_call o).
Proof using. unfold finish_call. transform. Qed.
Lemma keeps_recv a1 : transforms keeps_inv (sys_recv a1).
Proof using. unfold sys_recv, store_message. transform. Qed.
Lemma keeps_key_read : transforms keeps_inv sys_key_read.
Proof using. unfold sys_key_read. transform. Qed.
Lemma keeps_inc_frame p : transforms keeps_inv (inc_frame p).
Proof using. apply transforms_modify. intros. by apply keeps_rest. Qed.
Lemma keeps_drop_frame p : transforms keeps_inv (drop_frame p).
Proof using. unfold drop_frame. transform. apply transforms_modify. intros. by apply keeps_rest. Qed.
Lemma keeps_on_irq_unit f : transforms keeps_inv (on_irq_unit f).
Proof using. unfold on_irq_unit. transform. Qed.
#[local] Hint Resolve keeps_payload keeps_elf_image keeps_mask keeps_store keeps_flag keeps_finish_call keeps_recv
  keeps_key_read keeps_inc_frame keeps_drop_frame keeps_on_irq_unit : preserve.

Lemma keeps_dispatch num a1 a2 a3 :
  is_forwarded num = false -> transforms keeps_inv (syscall_dispatch stack_top forward num a1 a2 a3).
Proof using.
  intros Hf. unfold syscall_dispatch.
  assert (Hp : (num =? SYS_POWEROFF) || (num =? SYS_REBOOT) = false).
  { apply orb_false_iff. split; apply Z.eqb_neq; intros ->; discriminate Hf. }
  rewrite Hp, Hf.
  repeat match goal with |- transforms _ (if ?n =? ?c then _ else _) => destruct (n =? c) end.
  all: unfold sys_yield, sys_sleep, sys_send, sys_call, sys_reply, sys_alloc_page, sys_share_page, sys_unmap,
    sys_map_anon, sys_page_fault_reply, sys_register_irq, sys_irq_poll, sys_map_mmio, sys_port_in,
    sys_port_out, may_use_port, sys_virt_to_phys, sys_cap_issue, sys_cap_lookup, sys_cap_drop, sys_handle_send, sys_cap_send,
    sys_puts, sys_spawn_elf, sys_spawn_elf_at, sys_spawn_elf_module, sys_fb_info, sys_fb_map, sys_key_push, sys_key_try_read,
    sys_domain_alive, sys_domain_destroy, sys_cap_audit, sys_try_recv, sys_net_bind, sys_log_read, with_spawn,
    boot_module_image.
  all: transform.
  all: try (apply transforms_modify; intros; by apply keeps_rest).
  - apply transforms_for_each; [exact _|]. intros i. transform.
  - apply transforms_for_each; [exact _|]. intros i. transform.
  - intros k b k' E. unfold step in E. destruct (bind _ _ _ _). injection E as <- <-. by apply keeps_rest.
Qed.

Lemma keeps_resume : transforms keeps_inv resume_current.
Proof using. unfold resume_current, irq_wait_resume. transform. Qed.

Lemma keeps_handle e : modelled e -> transforms keeps_inv (handle stack_top forward e).
Proof using.
  intros Hm. destruct e as [num a1 a2 a3|addr code| |sc|v]; cbn [handle modelled] in *.
  - by apply keeps_dispatch.
  - apply keeps_fault.
  - unfold timer_handler, timer_tick. transform.
  - unfold keyboard_handler, dispatch. transform.
  - intros k r k' E. unfold msi_handler, step in E. destruct (set_pending v (k_irq k) (k_sched k)) as [[q s]|] eqn:Es; [|done].
    injection E as <- <-. transitivity (set_irq k q); [by apply keeps_rest|]. apply keeps_sched. intros Hi.
    unfold set_pending in Es. apply res_bind_ok in Es as (o & _ & Es). destruct o; [|by injection Es as <- <-].
    apply res_bind_ok in Es as (p & _ & Es). destruct (vector_bit v); injection Es as <- <-; [|exact Hi].
    apply foldl_preserve; [exact Hi|]. intros s d Hs. by apply tasks_ok_wake.
Qed.


End arms.

(** ** Example: a task of domain 0 waits for mail *)

(** In the sample state the task in slot [i] belongs to domain [i]. *)
Lemma sample_slots i t :
  get (tasks (k_sched sample_kernel)) i = Some t ->
  t_domain t = i /\ 0 <= i < 4 /\ t_state t <> Blocked /\ t_state t <> Terminated.
Proof.
  intros Ht. pose proof (get_in_table _ _ _ Ht) as Hr. change (Z.of_nat (length (tasks (k_sched sample_kernel)))) with 32 in Hr.
  apply (get_check (fun t => bool_decide (t_state t <> Blocked /\ t_state t <> Terminated))) in Ht as Hs;
    [|vm_compute; reflexivity]. apply bool_decide_eq_true in Hs.
  assert (Hall : forallb (fun i => match get (tasks (k_sched sample_kernel)) i with
                                   | Some t => (t_domain t =? i) && (i <? 4) | None => true end) (seqZ 0 32) = true)
    by (vm_compute; reflexivity).
  rewrite forallb_forall in Hall. specialize (Hall i). rewrite <- list_elem_of_In, elem_of_seqZ in Hall.
  specialize (Hall ltac:(lia)). rewrite Ht in Hall. bool_to_prop. destruct Hs. split; [done|]. split; [lia|done].
Qed.

Lemma sample_wake_inv : wake_inv sample_kernel.
Proof.
  constructor.
  - intros i t Ht. apply sample_slots in Ht as (-> & Hi & _). unfold alive_in.
    assert (i = 0 \/ i = 1 \/ i = 2 \/ i = 3) as [->|[->|[->| ->]]] by lia; vm_compute; reflexivity.
  - intros i j t u Ht Hu Hd _ _. apply sample_slots in Ht as (<- & _), Hu as (<- & _). exact Hd.
  - intros i t Ht Hb. apply sample_slots in Ht as (_ & _ & ? & _). done.
  - intros i t a Ht Hb. apply sample_slots in Ht as (_ & _ & ? & _). done.
  - intros t Ht. apply sample_slots in Ht as (_ & _ & ? & ?). done.
Qed.

