(* ===== verification/Bytes.v ===== *)
(** * Bytes: what the user services share (src/user/srv/src/common.rs)

    Byte strings are lists of [Z]; a domain's address space is a function from addresses to
    bytes. This file holds the little-endian accessors, NUL-terminated strings, the path
    requests that travel in a shared page, and the decimal printer, with their round trips. *)

From S2P Require Import Prelude.

Definition slash : Z := 47.   (* b'/' *)
Definition dot : Z := 46.     (* b'.' *)
Definition space : Z := 32.   (* b' ' *)

(** [ipc::PAYLOAD_LEN]. *)
Definition PAYLOAD_LEN : nat := 96.

Definition is_byte (b : Z) : Prop := 0 <= b < 256.

(** ** Address spaces *)

Definition mem : Type := Z -> Z.

(** [*p = v] on a byte, and a [copy_nonoverlapping] of a byte string to [p]. *)
Definition write_byte (p v : Z) (m : mem) : mem := fun a => if a =? p then v else m a.
Definition copy_to (p : Z) (l : list Z) (m : mem) : mem :=
  fun a => if (p <=? a) && (a <? p + Z.of_nat (length l)) then nth (Z.to_nat (a - p)) l 0 else m a.
(** [slice::from_raw_parts(p, n)]. *)
Definition slice_at (p : Z) (n : nat) (m : mem) : list Z := m <$> seqZ p (Z.of_nat n).

Definition read_u16 (m : mem) (p : Z) : Z := Z.lor (m p) (w16 (Z.shiftl (m (p + 1)) 8)).
Definition read_u32 (m : mem) (p : Z) : Z :=
  Z.lor (Z.lor (Z.lor (m p) (w32 (Z.shiftl (m (p + 1)) 8))) (w32 (Z.shiftl (m (p + 2)) 16)))
    (w32 (Z.shiftl (m (p + 3)) 24)).
Definition read_u64 (m : mem) (p : Z) : Z :=
  Z.lor (read_u32 m p) (w64 (Z.shiftl (read_u32 m (p + 4)) 32)).

Definition write_u16 (p v : Z) (m : mem) : mem :=
  write_byte (p + 1) (w8 (Z.shiftr v 8)) (write_byte p (w8 (Z.land v 255)) m).
Definition write_u32 (p v : Z) (m : mem) : mem :=
  write_byte (p + 3) (w8 (Z.land (Z.shiftr v 24) 255))
   (write_byte (p + 2) (w8 (Z.land (Z.shiftr v 16) 255))
    (write_byte (p + 1) (w8 (Z.land (Z.shiftr v 8) 255)) (write_byte p (w8 (Z.land v 255)) m))).
Definition write_u64 (p v : Z) (m : mem) : mem :=
  write_u32 (p + 4) (w32 (Z.shiftr v 32)) (write_u32 p (w32 (Z.land v 4294967295)) m).

Definition zero_bytes (p : Z) (len : nat) (m : mem) : mem := copy_to p (replicate len 0) m.

(** ** Payloads

    A payload is an array of [PAYLOAD_LEN] bytes. [to_le n v] are the [n] little-endian bytes
    of [v], [from_le] reads them back: the layout of the [repr(C)] request structs. *)

Fixpoint to_le (n : nat) (v : Z) : list Z :=
  match n with O => [] | S n' => v mod 256 :: to_le n' (v / 256) end.
Fixpoint from_le (l : list Z) : Z :=
  match l with [] => 0 | b :: l' => b + 256 * from_le l' end.

Definition field (off n : nat) (payload : list Z) : Z := from_le (take n (drop off payload)).

(** A byte string in an array of [n] bytes, zero-filled. *)
Definition pad (n : nat) (l : list Z) : list Z := take n (l ++ replicate (n - length l) 0).

(** The same with filler byte [b], as in [[b; n]] overwritten from the front. *)
Definition pad_with (b : Z) (n : nat) (l : list Z) : list Z := take n (l ++ replicate (n - length l) b).

(** The bytes before the first NUL: [iter().position(|&b| b == 0).unwrap_or(len)]. *)
Definition cstr (l : list Z) : list Z :=
  match position (Z.eqb 0) l with Some n => take n l | None => l end.

(** ** Paths in a shared page *)

Fixpoint page_path_len (m : mem) (p : Z) (fuel : nat) : nat :=
  match fuel with
  | O => O
  | S f => if m p =? 0 then O else S (page_path_len m (p + 1) f)
  end.

Definition page_path (m : mem) (buf : Z) : list Z :=
  slice_at buf (page_path_len m buf (PAYLOAD_LEN - 1)) m.

(** [PathReq { aux: u32, _pad: u32, buf: u64 }]: the page address and the path in it. *)
Definition parse_path_req (payload : list Z) (m : mem) : Z * list Z :=
  let buf := field 8 8 payload in (buf, page_path m buf).

(** [TwoPathReq { a_len: u32, b_len: u32, buf: u64 }]: both paths, or [None] where the
    lengths do not fit the page or the buffer is null. *)
Definition with_two_paths (payload : list Z) (m : mem) : option (list Z * list Z) :=
  let a_len := field 0 4 payload in
  let b_len := field 4 4 payload in
  let buf := field 8 8 payload in
  if (Z.of_nat PAYLOAD_LEN <? a_len + 1 + b_len) || (buf =? 0) then None
  else Some (slice_at buf (Z.to_nat a_len) m, slice_at (buf + a_len + 1) (Z.to_nat b_len) m).

(** ** Decimal printing *)

(** The [loop] that fills [tmp], least significant digit first; [fuel] is [tmp.len()]. *)
Fixpoint dec_digits (fuel : nat) (x : Z) : list Z :=
  match fuel with
  | O => []
  | S f => (48 + x mod 10) :: (if x / 10 =? 0 then [] else dec_digits f (x / 10))
  end.

(** The bytes written to [dst], an array of [cap] bytes. *)
Definition dec_to_str (v : Z) (cap : nat) : list Z :=
  let tmp := dec_digits 20 v in
  let n := Nat.min (length tmp) cap in
  rev (take n tmp).

(** What a string of decimal digits denotes. *)
Definition dec_value (l : list Z) : Z := foldl (fun acc b => acc * 10 + (b - 48)) 0 l.

(** ** Lemmas *)

Lemma length_to_le n v : length (to_le n v) = n.
Proof. revert v; induction n as [|n IH]; intros v; cbn; [|rewrite IH]; done. Qed.

Lemma to_le_bytes n v : Forall is_byte (to_le n v).
Proof.
  revert v; induction n as [|n IH]; intros v; cbn; constructor; auto.
  unfold is_byte. apply Z.mod_pos_bound. lia.
Qed.

Lemma from_to_le n v : 0 <= v < 256 ^ Z.of_nat n -> from_le (to_le n v) = v.
Proof.
  revert v; induction n as [|n IH]; intros v Hv; cbn [to_le from_le].
  - change (256 ^ Z.of_nat 0) with 1 in Hv. lia.
  - rewrite Nat2Z.inj_succ, Z.pow_succ_r in Hv by lia.
    rewrite IH.
    + pose proof (Z.div_mod v 256). lia.
    + split; [apply Z.div_pos; lia | apply Z.div_lt_upper_bound; lia].
Qed.

Lemma from_le_bound l : Forall is_byte l -> 0 <= from_le l < 256 ^ Z.of_nat (length l).
Proof.
  induction 1 as [|b l Hb Hl IH]; cbn [from_le length]; [done|].
  rewrite Nat2Z.inj_succ, Z.pow_succ_r by lia. unfold is_byte in Hb. lia.
Qed.

Lemma length_pad n l : length (pad n l) = n.
Proof. unfold pad. rewrite length_take, length_app, length_replicate. lia. Qed.

Lemma pad_small n l : (length l <= n)%nat -> pad n l = l ++ replicate (n - length l) 0.
Proof.
  intros H. unfold pad. apply take_ge. rewrite length_app, length_replicate. lia.
Qed.

(** No NUL byte in a string. *)
Definition nul_free (l : list Z) : Prop := Forall (fun b => b <> 0) l.

Lemma position_nul_free l k :
  nul_free l -> position (Z.eqb 0) (l ++ replicate (S k) 0) = Some (length l).
Proof.
  intros Hl. apply position_Some. split.
  - exists 0. split; [|done]. by rewrite lookup_app_r, Nat.sub_diag by done.
  - intros j y Hj Hy. rewrite lookup_app_l in Hy by done.
    apply Z.eqb_neq. intros <-. by apply (proj1 (Forall_lookup _ _) Hl j 0).
Qed.

Lemma cstr_pad n l : nul_free l -> (length l < n)%nat -> cstr (pad n l) = l.
Proof.
  intros Hl Hn. rewrite pad_small by lia. unfold cstr.
  replace (n - length l)%nat with (S (n - length l - 1)) by lia.
  rewrite position_nul_free by done. apply take_app_length.
Qed.

Lemma cstr_nul_free l : nul_free (cstr l).
Proof.
  unfold cstr. apply Forall_lookup. intros i b Hb ->.
  destruct (position (Z.eqb 0) l) as [n|] eqn:E.
  - apply position_Some in E as [_ Hlt]. apply lookup_take_Some in Hb as [Hb Hi].
    by specialize (Hlt i _ Hi Hb).
  - by apply (proj1 (position_None _ _) E) in Hb.
Qed.

Lemma field_app_l off n a b :
  (off + n <= length a)%nat -> field off n (a ++ b) = field off n a.
Proof.
  intros H. unfold field. rewrite drop_app_le by lia. rewrite take_app_le; [done|].
  rewrite length_drop. lia.
Qed.

Lemma field_app_r off n a b :
  length a = off -> length b = n -> field off n (a ++ b) = from_le b.
Proof. intros <- <-. unfold field. by rewrite drop_app_length, firstn_all. Qed.

(** *** Memory *)

Lemma write_byte_eq p v m : write_byte p v m p = v.
Proof. unfold write_byte. by rewrite Z.eqb_refl. Qed.

Lemma write_byte_ne p v m a : a <> p -> write_byte p v m a = m a.
Proof. intros H. unfold write_byte. by rewrite (proj2 (Z.eqb_neq _ _) H). Qed.

Lemma copy_to_in p l m (i : nat) b : l !! i = Some b -> copy_to p l m (p + Z.of_nat i) = b.
Proof.
  intros H. pose proof (lookup_lt_Some _ _ _ H) as Hi. unfold copy_to.
  rewrite (proj2 (Z.leb_le _ _)), (proj2 (Z.ltb_lt _ _)) by lia. cbn [andb].
  replace (Z.to_nat (p + Z.of_nat i - p)) with i by lia.
  by apply nth_lookup_Some.
Qed.

Lemma copy_to_out p l m a :
  a < p \/ p + Z.of_nat (length l) <= a -> copy_to p l m a = m a.
Proof.
  intros H. unfold copy_to.
  destruct (Z.leb_spec p a), (Z.ltb_spec a (p + Z.of_nat (length l))); cbn [andb]; [lia|done..].
Qed.

Lemma length_slice_at p n m : length (slice_at p n m) = n.
Proof. unfold slice_at. rewrite length_fmap, length_seqZ. lia. Qed.

Lemma lookup_slice_at p n m (i : nat) : (i < n)%nat -> slice_at p n m !! i = Some (m (p + Z.of_nat i)).
Proof.
  intros H. unfold slice_at. rewrite list_lookup_fmap, lookup_seqZ_lt by lia. done.
Qed.

Lemma slice_at_ext p n m m' :
  (forall a, p <= a < p + Z.of_nat n -> m a = m' a) -> slice_at p n m = slice_at p n m'.
Proof.
  intros H. apply list_eq_same_length with n; rewrite ?length_slice_at; try done.
  intros i x y Hi. rewrite !lookup_slice_at by done. intros [= <-] [= <-]. apply H. lia.
Qed.

Lemma slice_copy p l m : slice_at p (length l) (copy_to p l m) = l.
Proof.
  apply list_eq_same_length with (length l); rewrite ?length_slice_at; try done.
  intros i x y Hi. rewrite lookup_slice_at by done. intros [= <-] Hy. by apply copy_to_in.
Qed.

(** [lo | hi << 8k] on disjoint fields is addition. *)
Lemma lor_add a b n : 0 <= n -> 0 <= a < 2^n -> Z.lor a (b * 2^n) = a + b * 2^n.
Proof.
  intros Hn Ha. rewrite Z.lor_comm. rewrite <- Z.shiftl_mul_pow2 by done.
  rewrite lor_shiftl_add by done. rewrite Z.shiftl_mul_pow2 by done. lia.
Qed.

Lemma read_u16_value m p :
  is_byte (m p) -> is_byte (m (p + 1)) -> read_u16 m p = m p + 256 * m (p + 1).
Proof.
  intros H0 H1. unfold read_u16, w16, is_byte in *. rewrite Z.shiftl_mul_pow2 by lia.
  rewrite Z.mod_small by lia. rewrite lor_add by lia. lia.
Qed.

Lemma read_u32_value m p :
  (forall i, 0 <= i < 4 -> is_byte (m (p + i))) ->
  read_u32 m p = m p + 256 * m (p + 1) + 65536 * m (p + 2) + 16777216 * m (p + 3).
Proof.
  intros H.
  pose proof (H 0 ltac:(lia)) as H0. rewrite Z.add_0_r in H0.
  pose proof (H 1 ltac:(lia)) as H1. pose proof (H 2 ltac:(lia)) as H2.
  pose proof (H 3 ltac:(lia)) as H3.
  unfold read_u32, w32, is_byte in *. rewrite !Z.shiftl_mul_pow2 by lia.
  rewrite !Z.mod_small by lia.
  rewrite (lor_add (m p)), (lor_add (m p + _)), (lor_add (m p + _ + _)) by lia. lia.
Qed.

(** *** Decimal strings *)

Lemma dec_digits_value n x :
  0 <= x < 10 ^ Z.of_nat n -> (0 < n)%nat -> dec_value (rev (dec_digits n x)) = x.
Proof.
  revert x. induction n as [|n IH]; intros x Hx Hn; [lia|]. cbn [dec_digits].
  rewrite Nat2Z.inj_succ, Z.pow_succ_r in Hx by lia.
  pose proof (Z.div_mod x 10 ltac:(lia)) as Hd. pose proof (Z.mod_pos_bound x 10 ltac:(lia)) as Hm.
  cbn [rev]. unfold dec_value in *. rewrite foldl_app. cbn [foldl].
  destruct (Z.eqb_spec (x / 10) 0) as [E|E]; [cbn; lia|].
  destruct n as [|n].
  { change (10 ^ Z.of_nat 0) with 1 in Hx. assert (x / 10 = 0) by (apply Z.div_small; lia). lia. }
  rewrite IH; [lia| |lia].
  split; [apply Z.div_pos; lia | apply Z.div_lt_upper_bound; lia].
Qed.

Lemma length_dec_digits n x : (length (dec_digits n x) <= n)%nat.
Proof.
  revert x. induction n as [|n IH]; intros x; cbn; [lia|].
  destruct (x / 10 =? 0); cbn; [lia|]. specialize (IH (x / 10)). lia.
Qed.

Lemma dec_digits_range n x : Forall (fun b => 48 <= b <= 57) (dec_digits n x).
Proof.
  revert x. induction n as [|n IH]; intros x; cbn; [done|].
  constructor; [pose proof (Z.mod_pos_bound x 10); lia|]. destruct (x / 10 =? 0); auto.
Qed.

Lemma dec_to_str_20 v : dec_to_str v 20 = rev (dec_digits 20 v).
Proof.
  unfold dec_to_str. pose proof (length_dec_digits 20 v).
  rewrite Nat.min_l by lia. by rewrite firstn_all.
Qed.

(** A [u64] printed into twenty bytes reads back as itself, so the printer is injective. *)
Lemma dec_to_str_value v : is_u64 v -> dec_value (dec_to_str v 20) = v.
Proof.
  intros Hv. rewrite dec_to_str_20. unfold is_u64 in Hv.
  apply dec_digits_value; [|lia].
  change (10 ^ Z.of_nat 20) with 100000000000000000000. lia.
Qed.

Lemma dec_to_str_inj v v' :
  is_u64 v -> is_u64 v' -> dec_to_str v 20 = dec_to_str v' 20 -> v = v'.
Proof.
  intros H H' E. rewrite <- (dec_to_str_value v), <- (dec_to_str_value v') by done. by rewrite E.
Qed.

Lemma length_dec_to_str v : (length (dec_to_str v 20) <= 20)%nat.
Proof. rewrite dec_to_str_20, length_rev. apply length_dec_digits. Qed.

Lemma dec_to_str_nul_free v : nul_free (dec_to_str v 20).
Proof.
  rewrite dec_to_str_20. unfold nul_free. apply List.Forall_rev.
  eapply Forall_impl; [apply dec_digits_range|]. cbn. lia.
Qed.

(** *** Integers in a buffer *)

Definition agree (lo hi : Z) (m m' : mem) : Prop := forall a, lo <= a < hi -> m a = m' a.

Lemma agree_sub lo hi lo' hi' m m' : agree lo hi m m' -> lo <= lo' -> hi' <= hi -> agree lo' hi' m m'.
Proof. intros H ? ? a Ha. apply H. lia. Qed.

Lemma write_u16_out p v m a : a < p \/ p + 2 <= a -> write_u16 p v m a = m a.
Proof. intros H. unfold write_u16. by rewrite !write_byte_ne by lia. Qed.

Lemma write_u32_out p v m a : a < p \/ p + 4 <= a -> write_u32 p v m a = m a.
Proof. intros H. unfold write_u32. by rewrite !write_byte_ne by lia. Qed.

Lemma write_u64_out p v m a : a < p \/ p + 8 <= a -> write_u64 p v m a = m a.
Proof. intros H. unfold write_u64. by rewrite !write_u32_out by lia. Qed.

Lemma read_u16_ext p m m' : agree p (p + 2) m m' -> read_u16 m p = read_u16 m' p.
Proof. intros H. unfold read_u16. by rewrite !H by lia. Qed.

Lemma read_u32_ext p m m' : agree p (p + 4) m m' -> read_u32 m p = read_u32 m' p.
Proof. intros H. unfold read_u32. by rewrite !H by lia. Qed.

Lemma read_u64_ext p m m' : agree p (p + 8) m m' -> read_u64 m p = read_u64 m' p.
Proof.
  intros H. unfold read_u64. rewrite (read_u32_ext p m m'), (read_u32_ext (p + 4) m m'); [done|..];
    eapply agree_sub; eauto; lia.
Qed.

Lemma land_ones_byte x : Z.land x 255 = x mod 256.
Proof. change 255 with (Z.ones 8). rewrite Z.land_ones by lia. done. Qed.

Lemma read_write_u16 p v m : 0 <= v < 2^16 -> read_u16 (write_u16 p v m) p = v.
Proof.
  intros Hv. unfold write_u16.
  rewrite read_u16_value; rewrite ?(write_byte_ne (p + 1)), ?write_byte_eq by lia;
    unfold w8, is_byte; rewrite ?land_ones_byte, ?Z.shiftr_div_pow2 by lia;
    try (Z.to_euclidean_division_equations; lia).
Qed.

Lemma read_write_u32 p v m : 0 <= v < 2^32 -> read_u32 (write_u32 p v m) p = v.
Proof.
  intros Hv. unfold write_u32. rewrite !land_ones_byte, !Z.shiftr_div_pow2 by lia. unfold w8.
  set (m' := write_byte _ _ _).
  assert (m' p = v mod 256 /\ m' (p + 1) = v / 2^8 mod 256 /\ m' (p + 2) = v / 2^16 mod 256
          /\ m' (p + 3) = v / 2^24 mod 256) as (H0 & H1 & H2 & H3).
  { unfold m'. split_and!; repeat first [rewrite write_byte_ne by lia | rewrite write_byte_eq];
      change (2^8) with 256; by rewrite Z.mod_mod by lia. }
  rewrite read_u32_value.
  - rewrite H0, H1, H2, H3. clear m' H0 H1 H2 H3. Z.to_euclidean_division_equations. lia.
  - intros i Hi. unfold is_byte.
    assert (i = 0 \/ i = 1 \/ i = 2 \/ i = 3) as [->|[->|[->| ->]]] by lia;
      rewrite ?Z.add_0_r, ?H0, ?H1, ?H2, ?H3; apply Z.mod_pos_bound; lia.
Qed.

Lemma read_write_u64 p v m : 0 <= v < 2^64 -> read_u64 (write_u64 p v m) p = v.
Proof.
  intros Hv. unfold read_u64, write_u64.
  rewrite (read_u32_ext p _ (write_u32 p (w32 (Z.land v 4294967295)) m))
    by (intros a Ha; apply write_u32_out; lia).
  change 4294967295 with (Z.ones 32). rewrite Z.land_ones, Z.shiftr_div_pow2 by lia. unfold w32.
  rewrite !read_write_u32 by (apply Z.mod_pos_bound; lia).
  assert (0 <= v / 2^32 < 2^32) as Hd by (Z.to_euclidean_division_equations; lia).
  rewrite Z.mod_mod, (Z.mod_small (v / 2^32)) by lia.
  unfold w64. rewrite Z.shiftl_mul_pow2, (Z.mod_small (v / 2^32 * 2^32)) by lia.
  rewrite lor_add by (try apply Z.mod_pos_bound; lia).
  pose proof (Z.div_mod v (2^32)). lia.
Qed.

Lemma slice_load p l m n : length l = n -> slice_at p n (copy_to p l m) = l.
Proof. intros <-. apply slice_copy. Qed.

Lemma load_slice p n m m' : agree p (p + Z.of_nat n) (copy_to p (slice_at p n m) m') m.
Proof.
  intros a Ha. replace a with (p + Z.of_nat (Z.to_nat (a - p))) by lia.
  apply copy_to_in. rewrite lookup_slice_at by lia. done.
Qed.
