(* ===== verification/Slots.v ===== *)
(** * Slots: a table of slots seen as a finite map

    Several services keep their objects in a fixed array whose slots are free or hold an object
    found by a key (a mount prefix, a path). The key-to-value map of such a table and how it
    changes when one slot is filled, cleared or updated. *)

From S2P Require Import Prelude.

Lemma position_ext {A} (p q : A -> bool) l : (forall x, p x = q x) -> position p l = position q l.
Proof. intros Hpq. induction l as [|a l IH]; cbn; [done|]. by rewrite Hpq, IH. Qed.

Section slots.
Context {E K V : Type} `{Countable K} (bind : E -> option (K * V)).

Definition bindings (t : list E) : list (K * V) := omap bind t.
Definition slot_map (t : list E) : gmap K V := list_to_map (bindings t).

(** No key is held twice. *)
Definition distinct (t : list E) : Prop := NoDup (bindings t).*1.

Lemma elem_of_bindings t b : b ∈ bindings t <-> exists e, e ∈ t /\ bind e = Some b.
Proof using Type. apply list_elem_of_omap. Qed.

Lemma slot_map_Some t k v : distinct t -> slot_map t !! k = Some v <-> (k, v) ∈ bindings t.
Proof using Type. intros Hd. symmetry. by apply elem_of_list_to_map. Qed.

Lemma slot_map_is_Some t k : is_Some (slot_map t !! k) <-> exists v, (k, v) ∈ bindings t.
Proof using Type.
  unfold slot_map. split.
  - intros [v Hv]. exists v. by apply elem_of_list_to_map_2.
  - intros [v Hv]. apply not_eq_None_Some. intros En. apply not_elem_of_list_to_map_2 in En.
    apply En, list_elem_of_fmap. by exists (k, v).
Qed.

Lemma slot_map_slot t i e k v :
  distinct t -> t !! i = Some e -> bind e = Some (k, v) -> slot_map t !! k = Some v.
Proof using Type.
  intros Hd Hi Hb. apply slot_map_Some; [done|]. apply elem_of_bindings. exists e.
  split; [by eapply list_elem_of_lookup_2|done].
Qed.

Lemma slot_map_None t k :
  slot_map t !! k = None <-> forall i e v, t !! i = Some e -> bind e <> Some (k, v).
Proof using Type.
  rewrite eq_None_not_Some, slot_map_is_Some. split.
  - intros Hn i e v Hi Hb. apply Hn. exists v. apply elem_of_bindings. exists e.
    split; [by eapply list_elem_of_lookup_2|done].
  - intros Hn [v (e & He & Hb)%elem_of_bindings]. apply list_elem_of_lookup in He as [i Hi].
    by eapply Hn.
Qed.

Lemma slot_map_inv t k v :
  slot_map t !! k = Some v -> exists i e, t !! i = Some e /\ bind e = Some (k, v).
Proof using Type.
  intros Hm. apply elem_of_list_to_map_2 in Hm. apply elem_of_bindings in Hm as (e & He & Hb).
  apply list_elem_of_lookup in He as [i Hi]. eauto.
Qed.

(** The slot of a key is unique. *)
Lemma distinct_slot t i j e e' k v v' :
  distinct t -> t !! i = Some e -> t !! j = Some e' ->
  bind e = Some (k, v) -> bind e' = Some (k, v') -> i = j.
Proof using Type.
  unfold distinct, bindings. revert i j. induction t as [|a t IH]; intros i j Hd Hi Hj Hb Hb'; [done|].
  cbn in Hd. destruct i as [|i], j as [|j]; [done| | |].
  - inv Hi. rewrite Hb in Hd. cbn in Hd. apply NoDup_cons in Hd as [Hn _]. destruct Hn.
    apply list_elem_of_fmap. exists (k, v'). split; [done|]. apply list_elem_of_omap. exists e'.
    split; [by eapply list_elem_of_lookup_2|done].
  - inv Hj. rewrite Hb' in Hd. cbn in Hd. apply NoDup_cons in Hd as [Hn _]. destruct Hn.
    apply list_elem_of_fmap. exists (k, v). split; [done|]. apply list_elem_of_omap. exists e.
    split; [by eapply list_elem_of_lookup_2|done].
  - f_equal. apply (IH i j); try done. destruct (bind a); [by apply NoDup_cons in Hd as [_ ?]|done].
Qed.

(** Overwriting one slot replaces its binding and keeps the others. *)
Lemma bindings_insert t i e e' :
  t !! i = Some e ->
  exists rest, bindings t ≡ₚ option_list (bind e) ++ rest /\
               bindings (<[i := e']> t) ≡ₚ option_list (bind e') ++ rest.
Proof using Type.
  intros Hi. pose proof (lookup_lt_Some _ _ _ Hi) as Hl.
  exists (bindings (take i t) ++ bindings (drop (S i) t)). unfold bindings.
  rewrite (insert_take_drop t i e') by done.
  assert (Ht : omap bind t = omap bind (take i t ++ e :: drop (S i) t))
    by (by rewrite (take_drop_middle t i e Hi)).
  rewrite Ht, !omap_app. cbn [omap list_omap].
  split; [destruct (bind e) | destruct (bind e')]; try done;
    rewrite <- Permutation_middle; done.
Qed.

Lemma slot_map_fill t i e e' k v :
  t !! i = Some e -> bind e = None -> bind e' = Some (k, v) ->
  distinct t -> slot_map t !! k = None ->
  distinct (<[i := e']> t) /\ slot_map (<[i := e']> t) = <[k := v]> (slot_map t).
Proof using Type.
  intros Hi Hb Hb' Hd Hf. unfold distinct in *.
  destruct (bindings_insert t i e e' Hi) as [rest [Eq Eq']].
  rewrite Hb in Eq. rewrite Hb' in Eq'. cbn in Eq, Eq'. rewrite <- Eq in Eq'.
  assert (Hn : NoDup (bindings (<[i := e']> t)).*1).
  { rewrite Eq'. cbn. constructor; [|done]. by apply not_elem_of_list_to_map. }
  split; [done|]. etrans; [exact (list_to_map_proper _ _ Hn Eq') | done].
Qed.

Lemma slot_map_clear t i e e' k v :
  t !! i = Some e -> bind e = Some (k, v) -> bind e' = None -> distinct t ->
  distinct (<[i := e']> t) /\ slot_map (<[i := e']> t) = delete k (slot_map t).
Proof using Type.
  intros Hi Hb Hb' Hd. unfold distinct in *.
  destruct (bindings_insert t i e e' Hi) as [rest [Eq Eq']].
  rewrite Hb in Eq. rewrite Hb' in Eq'. cbn in Eq, Eq'. rewrite <- Eq' in Eq.
  pose proof Hd as Hd'. rewrite Eq in Hd'. cbn in Hd'. apply NoDup_cons in Hd' as [Hni Hn].
  split; [done|].
  assert (Hm : slot_map t = <[k := v]> (slot_map (<[i := e']> t)))
    by exact (list_to_map_proper _ _ Hd Eq).
  rewrite Hm. symmetry. apply delete_insert_id. by apply not_elem_of_list_to_map.
Qed.

(** An update that keeps the binding changes nothing. *)
Lemma slot_map_keep t i e e' :
  t !! i = Some e -> bind e' = bind e -> distinct t ->
  distinct (<[i := e']> t) /\ slot_map (<[i := e']> t) = slot_map t.
Proof using Type.
  intros Hi Hb Hd.
  assert (Eq : bindings (<[i := e']> t) = bindings t).
  { unfold bindings. pose proof (lookup_lt_Some _ _ _ Hi).
    rewrite (insert_take_drop t i e') by done.
    rewrite <- (take_drop_middle t i e Hi) at 3. rewrite !omap_app. cbn. by rewrite Hb. }
  unfold distinct, slot_map. by rewrite Eq.
Qed.

Lemma slot_map_size t : distinct t -> size (slot_map t) = length (bindings t).
Proof using Type. intros Hd. by apply map_size_list_to_map. Qed.

(** Whether a slot is left. *)
Lemma bindings_full t : position (fun e => is_none (bind e)) t = None -> length (bindings t) = length t.
Proof using Type.
  induction t as [|e t IH]; [done|]. cbn. unfold bindings in *. cbn.
  destruct (bind e); cbn; [|done]. destruct (position _ t); cbn; [done|]. intros _. by rewrite IH.
Qed.

Lemma length_bindings t : (length (bindings t) <= length t)%nat.
Proof using Type. unfold bindings. induction t as [|a t IHt]; cbn; [done|]. destruct (bind a); cbn; lia. Qed.

Lemma bindings_free t i :
  position (fun e => is_none (bind e)) t = Some i -> (length (bindings t) < length t)%nat.
Proof using Type.
  revert i. induction t as [|e t IH]; intros i; [done|]. cbn.
  pose proof (length_bindings t) as Hl. unfold bindings in *. cbn. destruct (bind e); cbn; [|lia].
  destruct (position _ t) as [k|]; [|done]. intros _. specialize (IH k eq_refl). lia.
Qed.

(** The first slot that holds a key. *)
Definition holds_key (k : K) (e : E) : bool :=
  match bind e with Some (k', _) => bool_decide (k' = k) | None => false end.
Definition find_key (k : K) (t : list E) : option nat := position (holds_key k) t.

Lemma holds_key_true k e : holds_key k e = true <-> exists v, bind e = Some (k, v).
Proof using Type.
  unfold holds_key. destruct (bind e) as [[k' v']|]; [|naive_solver].
  rewrite bool_decide_eq_true. naive_solver.
Qed.

Lemma find_key_Some t k i :
  find_key k t = Some i -> exists e v, t !! i = Some e /\ bind e = Some (k, v).
Proof using Type.
  unfold find_key. intros Hf. apply position_Some in Hf as [[e [He Hk]] _].
  apply holds_key_true in Hk as [v Hv]. eauto.
Qed.

Lemma find_key_None t k : find_key k t = None <-> slot_map t !! k = None.
Proof using Type.
  unfold find_key. rewrite position_None, slot_map_None. split.
  - intros Hn i e v Hi Hb. specialize (Hn i e Hi).
    rewrite (proj2 (holds_key_true k e)) in Hn; [done|eauto].
  - intros Hn i e Hi. apply not_true_iff_false. intros [v Hv]%holds_key_true. by eapply Hn.
Qed.

End slots.

Lemma alter_insert {A} (l : list A) i x f : l !! i = Some x -> alter f i l = <[i := f x]> l.
Proof.
  intros H. apply list_eq. intros j. destruct (decide (i = j)) as [<-|Hne].
  - rewrite list_lookup_alter_eq, H, list_lookup_insert_eq; [done|]. by eapply lookup_lt_Some.
  - by rewrite list_lookup_alter_ne, list_lookup_insert_ne by done.
Qed.
