(* ===== verification/Mount.v ===== *)
(** * Mount: the mount service (src/user/srv/src/mount_srv.rs)

    The service keeps the table that joins the file services into one tree: sixteen slots,
    each binding a prefix to a service domain and, optionally, to one of its volumes. This
    file holds the table, every request of the service loop, the abstract namespace (a finite
    map from prefixes to bindings) and the proof that the table implements it. *)

From S2P Require Import Prelude Bytes Slots.

Definition MOUNT_MAX : nat := 16.
Definition MOUNT_PREFIX_MAX : nat := 24.

Definition FAT32_DOMAIN : Z := 6.
Definition MOUNT_DOMAIN : Z := 9.
Definition TMPFS_DOMAIN : Z := 10.
Definition MFS_DOMAIN : Z := 11.
Definition EXT2_DOMAIN : Z := 12.
Definition EXFAT_DOMAIN : Z := 13.
Definition ISO9660_DOMAIN : Z := 20.

Definition VFS_LOOKUP_TAG : Z := 0x4D4E5451.
Definition VFS_MOUNT_TAG : Z := 0x4D4E5441.
Definition VFS_UMOUNT_TAG : Z := 0x4D4E5444.
Definition VFS_MOUNT_VOL_TAG : Z := 0x4D4E5456.

Record MountEntry : Type := mk_MountEntry {
  used : bool;
  plen : Z;
  vol_enc : Z;
  domain : Z;
  prefix : list Z
}.

Definition MOUNT_EMPTY : MountEntry := mk_MountEntry false 0 0 0 (replicate MOUNT_PREFIX_MAX 0).

(** [MOUNTS]. *)
Notation mount_table := (list MountEntry).
Definition no_mounts : mount_table := replicate MOUNT_MAX MOUNT_EMPTY.

Definition mount_prefix_of (e : MountEntry) : list Z := take (Z.to_nat (plen e)) (prefix e).

Definition root : list Z := [slash].

(** Whether [path] lies under the mount point [prefix]; the length of the prefix if so. *)
Definition mount_prefix_match (path prefix : list Z) : option nat :=
  if negb (bool_decide (head path = Some slash)) then None
  else if bool_decide (prefix = root) then Some 1%nat
  else if (length path <? length prefix)%nat
          || negb (bool_decide (take (length prefix) path = prefix)) then None
  else if (length path =? length prefix)%nat
          || bool_decide (path !! length prefix = Some slash) then Some (length prefix)
  else None.

Definition mount_find (prefix : list Z) (t : mount_table) : option nat :=
  position (fun e => used e && bool_decide (mount_prefix_of e = prefix)) t.

Definition mount_add (prefix : list Z) (domain vol_enc : Z) (t : mount_table) : Z * mount_table :=
  if bool_decide (prefix = []) || negb (bool_decide (head prefix = Some slash))
     || (MOUNT_PREFIX_MAX <=? length prefix)%nat || (domain =? 0) then (U64_MAX, t)
  else if is_some (mount_find prefix t) then (U64_MAX, t)
  else match position (fun e => negb (used e)) t with
  | Some i =>
      (Z.of_nat i + 1,
       <[i := mk_MountEntry true (w8 (Z.of_nat (length prefix))) vol_enc domain
                (pad MOUNT_PREFIX_MAX prefix)]> t)
  | None => (U64_MAX, t)
  end.

(** One byte after the stem, [b'0' + n]; the comments of the source write [/mnt<N>]. *)
Definition mnt_name (n : nat) : list Z := [47; 109; 110; 116; w8 (48 + Z.of_nat n)].

Definition mount_auto (domain : Z) (t : mount_table) : Z * mount_table :=
  match position (fun n => is_none (mount_find (mnt_name n) t)) (seq 0 MOUNT_MAX) with
  | Some n => mount_add (mnt_name n) domain 0 t
  | None => (U64_MAX, t)
  end.

(** [vfs::enc_of_vol]: [(vol + 1) as u32]. *)
Definition enc_of_vol (vol : Z) : Z := w32 (w64 (vol + 1)).

(** [/usb<vol>] in a buffer of twenty-four bytes. *)
Definition usb_name (vol : Z) : list Z := [47; 117; 115; 98] ++ dec_to_str vol (MOUNT_PREFIX_MAX - 4).

Definition mount_auto_vol (dom vol : Z) (t : mount_table) : Z * mount_table :=
  let name := usb_name vol in
  match mount_find name t with
  | Some i =>
      match t !! i with
      | Some e =>
          (if (domain e =? dom) && (vol_enc e =? enc_of_vol vol) then Z.of_nat i + 1 else U64_MAX, t)
      | None => (U64_MAX, t)
      end
  | None => mount_add name dom (enc_of_vol vol) t
  end.

Definition clear_used (e : MountEntry) : MountEntry :=
  mk_MountEntry false (plen e) (vol_enc e) (domain e) (prefix e).

Definition mount_del (prefix : list Z) (t : mount_table) : Z * mount_table :=
  if bool_decide (prefix = root) then (U64_MAX, t)
  else match mount_find prefix t with
  | Some i => (1, alter clear_used i t)
  | None => (U64_MAX, t)
  end.

Definition mounts_init (t : mount_table) : mount_table :=
  let t := snd (mount_add root FAT32_DOMAIN 0 t) in
  let t := snd (mount_add [47; 116; 109; 112] TMPFS_DOMAIN 0 t) in               (* /tmp *)
  let t := snd (mount_add [47; 109; 102; 115] MFS_DOMAIN 0 t) in                 (* /mfs *)
  let t := snd (mount_add [47; 101; 120; 116; 50] EXT2_DOMAIN 0 t) in            (* /ext2 *)
  let t := snd (mount_add [47; 117; 115; 98] EXFAT_DOMAIN 0 t) in                (* /usb *)
  snd (mount_add [47; 99; 100; 114; 111; 109] ISO9660_DOMAIN 0 t).               (* /cdrom *)

(** The loop body of [mount_resolve]. *)
Definition resolve_step (path : list Z) (best : option (Z * Z * nat)) (e : MountEntry)
    : option (Z * Z * nat) :=
  if negb (used e) then best
  else match mount_prefix_match path (mount_prefix_of e) with
  | Some len =>
      if match best with None => true | Some (_, _, bl) => (bl <? len)%nat end
      then Some (domain e, vol_enc e, len) else best
  | None => best
  end.

Definition mount_resolve (path : list Z) (t : mount_table) : option (Z * Z * nat) :=
  foldl (resolve_step path) None t.

(** ** The service loop *)

Inductive mount_request : Type :=
| Lookup (path : list Z)
| Mount (dom : Z) (pfx : list Z)
| MountVol (dom vol : Z)
| Umount (pfx : list Z)
| Unknown.

(** How [run] reads a message: [MountReq { domain, prefix: [u8; 24] }] and
    [MountVolReq { domain, vol }] are overlaid on the payload. *)
Definition decode_request (tag : Z) (payload : list Z) : mount_request :=
  if tag =? VFS_LOOKUP_TAG then Lookup (cstr payload)
  else if tag =? VFS_MOUNT_TAG then
    Mount (field 0 8 payload) (cstr (take MOUNT_PREFIX_MAX (drop 8 payload)))
  else if tag =? VFS_MOUNT_VOL_TAG then MountVol (field 0 8 payload) (field 8 8 payload)
  else if tag =? VFS_UMOUNT_TAG then Umount (cstr payload)
  else Unknown.

(** The reply to a lookup: [(vol_enc << 40) | (domain << 32) | prefix_len]. *)
Definition pack_route (dom venc : Z) (len : nat) : Z :=
  Z.lor (Z.lor (w64 (Z.shiftl venc 40)) (w64 (Z.shiftl dom 32))) (Z.of_nat len).

Definition serve (req : mount_request) (t : mount_table) : Z * mount_table :=
  match req with
  | Lookup path =>
      (match mount_resolve path t with
       | Some (dom, venc, len) => pack_route dom venc len
       | None => U64_MAX
       end, t)
  | Mount dom pfx => if bool_decide (pfx = []) then mount_auto dom t else mount_add pfx dom 0 t
  | MountVol dom vol => mount_auto_vol dom vol t
  | Umount pfx => mount_del pfx t
  | Unknown => (U64_MAX, t)
  end.

(** One turn of [run]: receive a message, reply. *)
Definition mount_turn (tag : Z) (payload : list Z) (t : mount_table) : Z * mount_table :=
  serve (decode_request tag payload) t.

(** [run]: the replies to a sequence of messages. *)
Fixpoint mount_run (msgs : list (Z * list Z)) (t : mount_table) : list Z * mount_table :=
  match msgs with
  | [] => ([], t)
  | (tag, payload) :: rest =>
      let '(r, t) := mount_turn tag payload t in
      let '(rs, t) := mount_run rest t in
      (r :: rs, t)
  end.

(** ** The abstract namespace *)

Notation namespace := (gmap (list Z) (Z * Z)).

Definition binding (e : MountEntry) : option (list Z * (Z * Z)) :=
  if used e then Some (mount_prefix_of e, (domain e, vol_enc e)) else None.
Definition ns (t : mount_table) : namespace := slot_map binding t.

(** A mount point covers a path that is absolute and is the mount point itself or continues
    it at a component boundary; the root covers every absolute path. *)
Definition covers (pfx path : list Z) : Prop :=
  head path = Some slash /\
  (pfx = root \/ path = pfx \/ exists rest, path = pfx ++ slash :: rest).

(** Routing picks the longest mount point that covers the path. *)
Inductive routed (n : namespace) (path : list Z) : option (Z * Z * nat) -> Prop :=
| routed_to pfx d v :
    n !! pfx = Some (d, v) -> covers pfx path ->
    (forall pfx', is_Some (n !! pfx') -> covers pfx' path -> (length pfx' <= length pfx)%nat) ->
    routed n path (Some (d, v, length pfx))
| unrouted :
    (forall pfx, is_Some (n !! pfx) -> ~ covers pfx path) -> routed n path None.

Definition addable (n : namespace) (pfx : list Z) (d : Z) : Prop :=
  head pfx = Some slash /\ (length pfx < MOUNT_PREFIX_MAX)%nat /\ d <> 0 /\ n !! pfx = None /\
  (size n < MOUNT_MAX)%nat.

Inductive ns_add (pfx : list Z) (d v : Z) (n : namespace) : Z -> namespace -> Prop :=
| added slot : addable n pfx d -> 1 <= slot <= 16 -> ns_add pfx d v n slot (<[pfx := (d, v)]> n)
| add_refused : ~ addable n pfx d -> ns_add pfx d v n U64_MAX n.

(** What each request does to the namespace, and its reply. *)
Inductive ns_step (n : namespace) : mount_request -> Z -> namespace -> Prop :=
| ns_lookup path best :
    routed n path best ->
    ns_step n (Lookup path)
      (match best with Some (d, v, len) => pack_route d v len | None => U64_MAX end) n
| ns_mount d pfx r n' : pfx <> [] -> ns_add pfx d 0 n r n' -> ns_step n (Mount d pfx) r n'
| ns_mount_auto d k r n' :
    (k < MOUNT_MAX)%nat -> (forall j, (j < k)%nat -> is_Some (n !! mnt_name j)) -> n !! mnt_name k = None ->
    ns_add (mnt_name k) d 0 n r n' -> ns_step n (Mount d []) r n'
| ns_mount_auto_full d :
    (forall j, (j < MOUNT_MAX)%nat -> is_Some (n !! mnt_name j)) ->
    ns_step n (Mount d []) U64_MAX n
| ns_vol_again d vol slot :
    n !! usb_name vol = Some (d, enc_of_vol vol) -> 1 <= slot <= 16 ->
    ns_step n (MountVol d vol) slot n
| ns_vol_taken d vol b :
    n !! usb_name vol = Some b -> b <> (d, enc_of_vol vol) -> ns_step n (MountVol d vol) U64_MAX n
| ns_vol_add d vol r n' :
    n !! usb_name vol = None -> ns_add (usb_name vol) d (enc_of_vol vol) n r n' ->
    ns_step n (MountVol d vol) r n'
| ns_umount pfx : pfx <> root -> is_Some (n !! pfx) -> ns_step n (Umount pfx) 1 (delete pfx n)
| ns_umount_refused pfx : pfx = root \/ n !! pfx = None -> ns_step n (Umount pfx) U64_MAX n
| ns_unknown : ns_step n Unknown U64_MAX n.

(** ** The table's invariant *)

Definition entry_ok (e : MountEntry) : Prop :=
  used e = true ->
  head (mount_prefix_of e) = Some slash /\ (length (mount_prefix_of e) < MOUNT_PREFIX_MAX)%nat /\
  0 < plen e < 24 /\ length (prefix e) = MOUNT_PREFIX_MAX /\ domain e <> 0.

Record mount_inv (t : mount_table) : Prop := {
  inv_length : length t = MOUNT_MAX;
  inv_entries : Forall entry_ok t;
  inv_distinct : distinct binding t;
  inv_root : ns t !! root = Some (FAT32_DOMAIN, 0)
}.

(** ** Lemmas *)

Lemma mount_prefix_match_spec path pfx n :
  head pfx = Some slash ->
  mount_prefix_match path pfx = Some n <-> covers pfx path /\ n = length pfx.
Proof.
  intros Hp. unfold mount_prefix_match, covers.
  case_bool_decide as Hh; cbn [negb]; [|split; [done|tauto]].
  case_bool_decide as Hr.
  { subst pfx. cbn. split; [intros [= <-]; tauto | intros [_ ->]; done]. }
  destruct (Nat.ltb_spec (length path) (length pfx)) as [Hl|Hl]; cbn [orb].
  { split; [done|]. intros [[_ [?|[->|[rest ->]]]] _]; [done|lia|].
    rewrite length_app in Hl. lia. }
  case_bool_decide as Ht; cbn [negb].
  2:{ split; [done|]. intros [[_ [?|[->|[rest ->]]]] _]; [done| |]; destruct Ht.
      - apply firstn_all. - apply take_app_length. }
  destruct (Nat.eqb_spec (length path) (length pfx)) as [He|He]; cbn [orb].
  { assert (path = pfx) by (rewrite <- Ht, <- He; symmetry; apply firstn_all).
    split; [intros [= <-]; auto | intros [_ ->]; done]. }
  rewrite <- (take_drop (length pfx) path), Ht.
  case_bool_decide as Hs.
  - rewrite lookup_app_r, Nat.sub_diag in Hs by done.
    destruct (drop (length pfx) path) as [|c rest] eqn:Ed; [done|]. inv Hs.
    assert (Hc : path = pfx ++ slash :: rest) by (rewrite <- Ed, <- Ht at 1; by rewrite take_drop).
    rewrite <- Hc. split; [intros [= <-]; eauto 10 | intros [_ ->]; done].
  - split; [done|]. intros [[_ [?|[E|[rest E]]]] _]; [done| |]; destruct Hs.
    + apply (f_equal length) in E. rewrite length_app, length_drop in E. lia.
    + apply app_inv_head in E. rewrite E, lookup_app_r, Nat.sub_diag by done. done.
Qed.

(** *** Finding and resolving *)

Lemma mount_find_key pfx t : mount_find pfx t = find_key binding pfx t.
Proof. apply position_ext. intros e. unfold holds_key, binding. by destruct (used e). Qed.

Lemma mount_find_Some t pfx i :
  mount_find pfx t = Some i ->
  exists e, t !! i = Some e /\ binding e = Some (pfx, (domain e, vol_enc e)).
Proof.
  rewrite mount_find_key. intros (e & v & Hi & Hb)%find_key_Some. exists e. split; [done|].
  unfold binding in *. destruct (used e); [by inv Hb|done].
Qed.

Lemma mount_find_None t pfx : mount_find pfx t = None <-> ns t !! pfx = None.
Proof. rewrite mount_find_key. apply find_key_None. Qed.

Lemma mount_find_lookup t pfx i e :
  distinct binding t -> mount_find pfx t = Some i -> t !! i = Some e ->
  ns t !! pfx = Some (domain e, vol_enc e).
Proof.
  intros Hn Hf Hi. apply mount_find_Some in Hf as (e' & Hi' & Hb).
  rewrite Hi in Hi'. inv Hi'. by eapply slot_map_slot.
Qed.

(** [best] is the longest covering prefix among the bindings [bs]. *)
Definition best_of (bs : list (list Z * (Z * Z))) (path : list Z) (best : option (Z * Z * nat))
    : Prop :=
  match best with
  | Some (d, v, len) =>
      exists pfx, (pfx, (d, v)) ∈ bs /\ covers pfx path /\ len = length pfx /\
        forall pfx' b, (pfx', b) ∈ bs -> covers pfx' path -> (length pfx' <= len)%nat
  | None => forall pfx b, (pfx, b) ∈ bs -> ~ covers pfx path
  end.

Lemma best_of_take bs path best p d v :
  best_of bs path best -> covers p path ->
  (match best with None => True | Some (_, _, bl) => (bl < length p)%nat end) ->
  best_of (bs ++ [(p, (d, v))]) path (Some (d, v, length p)).
Proof.
  intros H Hc Hl. exists p. split_and!; [set_solver|done..|].
  intros pfx' b [Hb|Hb%list_elem_of_singleton]%elem_of_app Hc'; [|by inv Hb].
  destruct best as [[[d0 v0] bl]|]; cbn in H; [|naive_solver].
  destruct H as (q & _ & _ & _ & Hmax). specialize (Hmax _ _ Hb Hc'). lia.
Qed.

Lemma best_of_keep bs path best p b :
  best_of bs path best ->
  (covers p path -> match best with None => False | Some (_, _, bl) => (length p <= bl)%nat end) ->
  best_of (bs ++ [(p, b)]) path best.
Proof.
  intros H Hk. destruct best as [[[d v] bl]|]; cbn in *.
  - destruct H as (q & Hq & Hc & Hl & Hmax). exists q. split_and!; [set_solver|done..|].
    intros pfx' b' [Hb|Hb%list_elem_of_singleton]%elem_of_app Hc'; [eauto|]. inv Hb. auto.
  - intros pfx b' [Hb|Hb%list_elem_of_singleton]%elem_of_app Hc'; [eapply H; eauto|]. inv Hb. auto.
Qed.

Lemma resolve_bindings t path :
  Forall entry_ok t -> best_of (bindings binding t) path (mount_resolve path t).
Proof.
  unfold mount_resolve. induction t as [|e t IH] using rev_ind.
  { intros _ pfx b H. by apply elem_of_nil in H. }
  intros Hok. apply Forall_app in Hok as [Hok He]. apply Forall_cons_1 in He as [He _].
  specialize (IH Hok). rewrite foldl_app. cbn [foldl]. unfold bindings in *. rewrite omap_app.
  set (best := foldl (resolve_step path) None t) in *. set (bs := omap binding t) in *.
  unfold resolve_step, entry_ok in *. cbn [omap list_omap].
  assert (Hb : binding e = if used e then Some (mount_prefix_of e, (domain e, vol_enc e)) else None)
    by done.
  rewrite Hb. destruct (used e) eqn:Hu; cbn [negb]; [|by rewrite app_nil_r].
  destruct (He eq_refl) as [Hs _].
  pose proof (fun n => mount_prefix_match_spec path (mount_prefix_of e) n Hs) as Hm.
  destruct (mount_prefix_match path (mount_prefix_of e)) as [len|].
  - destruct (proj1 (Hm len) eq_refl) as [Hc ->]. destruct best as [[[d v] bl]|].
    + destruct (Nat.ltb_spec bl (length (mount_prefix_of e))).
      * by apply (best_of_take bs path (Some (d, v, bl))).
      * by apply best_of_keep.
    + by apply (best_of_take bs path None).
  - apply best_of_keep; [done|]. intros Hc.
    pose proof (proj2 (Hm _) (conj Hc eq_refl)). done.
Qed.

Lemma mount_resolve_routed t path : mount_inv t -> routed (ns t) path (mount_resolve path t).
Proof.
  intros [Hl Hok Hn Hr]. pose proof (resolve_bindings t path Hok) as H. unfold best_of in H.
  destruct (mount_resolve path t) as [[[d v] len]|].
  - destruct H as (pfx & Hp & Hc & -> & Hmax). constructor; [by apply slot_map_Some|done|].
    intros pfx' [b Hb]%slot_map_is_Some Hc'. eauto.
  - constructor. intros pfx [b Hb]%slot_map_is_Some. eauto.
Qed.

(** *** Adding and removing *)

Lemma free_slot t :
  position (fun e => negb (used e)) t = position (fun e => is_none (binding e)) t.
Proof. apply position_ext. intros e. unfold binding. by destruct (used e). Qed.

Lemma mount_inv_ns_root t : mount_inv t -> is_Some (ns t !! root).
Proof. intros H. rewrite (inv_root _ H). eauto. Qed.

Lemma mount_add_refines pfx d v t r t' :
  mount_inv t -> mount_add pfx d v t = (r, t') ->
  mount_inv t' /\ ns_add pfx d v (ns t) r (ns t').
Proof.
  intros Hinv. pose proof Hinv as [Hl Hok Hn Hr]. unfold mount_add.
  destruct (_ || _) eqn:Eg.
  { intros [= <- <-]. split; [done|]. apply add_refused. intros (H1 & H2 & H3 & _).
    rewrite !orb_true_iff, Nat.leb_le, Z.eqb_eq, negb_true_iff in Eg.
    destruct Eg as [[[Eg|Eg]|Eg]|Eg]; [|by rewrite bool_decide_eq_true_2 in Eg|lia|done].
    apply bool_decide_eq_true in Eg as ->. done. }
  rewrite !orb_false_iff, Nat.leb_gt, Z.eqb_neq, negb_false_iff in Eg.
  destruct Eg as [[[_ Hs] Hlen] Hd]. apply bool_decide_eq_true in Hs.
  unfold is_some. destruct (mount_find pfx t) as [k|] eqn:Ef; cbn [is_none negb].
  { intros [= <- <-]. split; [done|]. apply add_refused. intros (_ & _ & _ & Hf & _).
    apply mount_find_None in Hf. congruence. }
  apply mount_find_None in Ef. rewrite free_slot.
  destruct (position _ t) as [i|] eqn:Ep; intros [= <- <-].
  2:{ split; [done|]. apply add_refused. intros (_ & _ & _ & _ & Hsz).
      unfold ns in Hsz. rewrite slot_map_size in Hsz by done. apply bindings_full in Ep. lia. }
  pose proof (bindings_free _ _ _ Ep) as Hfree.
  apply position_Some in Ep as [[e [Hi Hu]] _].
  assert (Hbe : binding e = None) by (by destruct (binding e)).
  set (e' := mk_MountEntry _ _ _ _ _).
  assert (Hp : mount_prefix_of e' = pfx).
  { unfold mount_prefix_of, e'. cbn [plen prefix]. rewrite pad_small by lia.
    unfold w8. rewrite Z.mod_small by (unfold MOUNT_PREFIX_MAX in Hlen; lia).
    rewrite Nat2Z.id. apply take_app_length. }
  assert (Hb : binding e' = Some (pfx, (d, v))) by (unfold binding; cbn [used e']; by rewrite Hp).
  destruct (slot_map_fill binding t i e e' _ _ Hi Hbe Hb Hn Ef) as [Hn' E].
  fold (ns (<[i := e']> t)) in E. fold (ns t) in E. rewrite E. split.
  - split; [by rewrite length_insert| |done|].
    + apply Forall_insert; [done|]. intros _. rewrite Hp. unfold e'; cbn [plen prefix domain].
      rewrite length_pad. unfold w8. unfold MOUNT_PREFIX_MAX in *.
      destruct pfx; [done|]. cbn [length] in *. rewrite Z.mod_small by lia. split_and!; [done|lia..].
    + rewrite E. apply lookup_insert_Some. right. split; [|done]. intros ->. congruence.
  - constructor.
    + unfold addable, ns. rewrite slot_map_size by done. split_and!; try done. lia.
    + apply lookup_lt_Some in Hi. unfold MOUNT_MAX in *. lia.
Qed.

Lemma mount_del_refines pfx t r t' :
  mount_inv t -> mount_del pfx t = (r, t') ->
  mount_inv t' /\ ns_step (ns t) (Umount pfx) r (ns t').
Proof.
  intros Hinv. pose proof Hinv as [Hl Hok Hn Hr]. unfold mount_del.
  case_bool_decide as Hroot.
  { intros [= <- <-]. split; [done|]. apply ns_umount_refused. by left. }
  destruct (mount_find pfx t) as [i|] eqn:Ef; intros [= <- <-].
  2:{ split; [done|]. apply ns_umount_refused. right. by apply mount_find_None. }
  apply mount_find_Some in Ef as (e & Hi & Hb).
  rewrite (alter_insert t i e clear_used Hi).
  destruct (slot_map_clear binding t i e (clear_used e) _ _ Hi Hb eq_refl Hn) as [Hn' E].
  fold (ns (<[i := clear_used e]> t)) in E. fold (ns t) in E. rewrite E. split.
  - split; [by rewrite length_insert|by apply Forall_insert|done|].
    rewrite E. by apply lookup_delete_Some.
  - constructor; [done|]. unfold ns. rewrite (slot_map_slot binding t i e _ _ Hn Hi Hb). eauto.
Qed.

Lemma position_seq (p : nat -> bool) n :
  match position p (seq 0 n) with
  | Some k => (k < n)%nat /\ p k = true /\ forall j, (j < k)%nat -> p j = false
  | None => forall j, (j < n)%nat -> p j = false
  end.
Proof.
  destruct (position p (seq 0 n)) as [k|] eqn:E.
  - apply position_Some in E as [[x [Hx Hp]] Hlt]. apply lookup_seq in Hx as [-> Hk].
    split_and!; [done|done|]. intros j Hj. apply (Hlt j j Hj). apply lookup_seq. lia.
  - intros j Hj. apply (proj1 (position_None _ _) E j). apply lookup_seq. lia.
Qed.

Lemma mount_auto_refines d t r t' :
  mount_inv t -> mount_auto d t = (r, t') ->
  mount_inv t' /\ ns_step (ns t) (Mount d []) r (ns t').
Proof.
  intros Hinv. unfold mount_auto.
  assert (Hs : forall j, is_none (mount_find (mnt_name j) t) = false -> is_Some (ns t !! mnt_name j)).
  { intros j Hj. apply not_eq_None_Some. rewrite <- mount_find_None.
    by destruct (mount_find (mnt_name j) t). }
  pose proof (position_seq (fun n => is_none (mount_find (mnt_name n) t)) MOUNT_MAX) as Hp.
  destruct (position _ _) as [k|].
  - destruct Hp as (Hk & Hfree & Hlt). intros E. apply mount_add_refines in E as [Hi Ha]; [|done].
    split; [done|]. apply (ns_mount_auto _ _ k); [done | by eauto | | done].
    rewrite <- mount_find_None. by destruct (mount_find (mnt_name k) t).
  - intros [= <- <-]. split; [done|]. apply ns_mount_auto_full. eauto.
Qed.

Lemma mount_auto_vol_refines d vol t r t' :
  mount_inv t -> mount_auto_vol d vol t = (r, t') ->
  mount_inv t' /\ ns_step (ns t) (MountVol d vol) r (ns t').
Proof.
  intros Hinv. unfold mount_auto_vol. destruct (mount_find (usb_name vol) t) as [i|] eqn:Ef.
  - destruct (mount_find_Some _ _ _ Ef) as (e & Hi & _). rewrite Hi.
    pose proof (mount_find_lookup _ _ _ _ (inv_distinct _ Hinv) Ef Hi) as Hl.
    intros [= <- <-]. split; [done|].
    destruct (Z.eqb_spec (domain e) d) as [<-|]; cbn [andb];
      [destruct (Z.eqb_spec (vol_enc e) (enc_of_vol vol)) as [Ev|]|].
    + rewrite Ev in Hl. apply ns_vol_again; [done|].
      apply lookup_lt_Some in Hi. rewrite (inv_length _ Hinv) in Hi. unfold MOUNT_MAX in Hi. lia.
    + eapply ns_vol_taken; [done|congruence].
    + eapply ns_vol_taken; [done|congruence].
  - intros E. apply mount_add_refines in E as [Hi Ha]; [|done]. split; [done|].
    apply ns_vol_add; [by apply mount_find_None|done].
Qed.

Lemma serve_refines req t r t' :
  mount_inv t -> serve req t = (r, t') -> mount_inv t' /\ ns_step (ns t) req r (ns t').
Proof.
  intros Hinv. destruct req as [path|d pfx|d vol|pfx|]; cbn [serve].
  - intros [= <- <-]. split; [done|]. by apply ns_lookup, mount_resolve_routed.
  - case_bool_decide as Hp.
    + subst pfx. by apply mount_auto_refines.
    + intros E. apply mount_add_refines in E as [Hi Ha]; [|done]. split; [done|].
      by apply ns_mount.
  - by apply mount_auto_vol_refines.
  - by apply mount_del_refines.
  - intros [= <- <-]. split; [done|constructor].
Qed.

(** A run of the abstract namespace. *)
Inductive ns_run : list (Z * list Z) -> namespace -> list Z -> namespace -> Prop :=
| ns_run_nil n : ns_run [] n [] n
| ns_run_cons tag payload msgs n r n' rs n'' :
    ns_step n (decode_request tag payload) r n' -> ns_run msgs n' rs n'' ->
    ns_run ((tag, payload) :: msgs) n (r :: rs) n''.

Lemma mount_run_refines msgs t rs t' :
  mount_inv t -> mount_run msgs t = (rs, t') -> mount_inv t' /\ ns_run msgs (ns t) rs (ns t').
Proof.
  revert t rs t'. induction msgs as [|[tag payload] msgs IH]; intros t rs t' Hinv; cbn [mount_run].
  { intros [= <- <-]. split; [done|constructor]. }
  destruct (mount_turn tag payload t) as [r t1] eqn:E1.
  destruct (mount_run msgs t1) as [rs1 t2] eqn:E2. intros [= <- <-].
  apply serve_refines in E1 as [Hi1 Hs1]; [|done].
  destruct (IH _ _ _ Hi1 E2) as [Hi2 Hs2]. split; [done|]. by econstructor.
Qed.

Definition boot_mounts : mount_table := mounts_init no_mounts.

Definition boot_namespace : namespace :=
  list_to_map [(root, (FAT32_DOMAIN, 0)); ([47; 116; 109; 112], (TMPFS_DOMAIN, 0));
    ([47; 109; 102; 115], (MFS_DOMAIN, 0)); ([47; 101; 120; 116; 50], (EXT2_DOMAIN, 0));
    ([47; 117; 115; 98], (EXFAT_DOMAIN, 0)); ([47; 99; 100; 114; 111; 109], (ISO9660_DOMAIN, 0))].

Lemma boot_mounts_ok : mount_inv boot_mounts /\ ns boot_mounts = boot_namespace.
Proof.
  split; [split|]; [reflexivity| | |reflexivity|reflexivity].
  - repeat (apply Forall_cons_2; [intros Hu; vm_compute; (discriminate Hu || (repeat split; lia || easy))|]).
    constructor.
  - refine (bool_decide_unpack _ _). vm_compute. exact I.
Qed.

(** C16. for every sequence of messages the service can receive after boot, its replies and
    the changes of its table are those of the abstract namespace: lookups answer with the
    longest mount point that covers the path at a component boundary; a mount is accepted
    exactly when the domain is not 0, the prefix is absolute, short enough and free and a slot is
    left; an automatic mount point takes the first free of the sixteen names made of "/mnt" and the
    one byte '0' + n (so "/mnt0" to "/mnt9", then "/mnt:" and on, not the decimal numbers the
    comments promise); remounting a volume is idempotent; and the root mount is never removed. *)
Theorem mount_service_refines msgs rs t' :
  mount_run msgs boot_mounts = (rs, t') ->
  mount_inv t' /\ ns_run msgs boot_namespace rs (ns t') /\
  ns t' !! root = Some (FAT32_DOMAIN, 0) /\ length rs = length msgs.
Proof.
  intros E. destruct boot_mounts_ok as [Hi <-].
  destruct (mount_run_refines _ _ _ _ Hi E) as [Hi' Hr].
  split_and!; [done|done|apply Hi'|]. clear -Hr. induction Hr; cbn; congruence.
Qed.

Definition hotplug_msgs : list (Z * list Z) :=
  [(VFS_MOUNT_VOL_TAG, pad PAYLOAD_LEN (to_le 8 13 ++ to_le 8 3));          (* /usb3 *)
   (VFS_LOOKUP_TAG, pad PAYLOAD_LEN [47; 117; 115; 98; 51; 47; 97]);        (* /usb3/a *)
   (VFS_UMOUNT_TAG, pad PAYLOAD_LEN root);
   (VFS_UMOUNT_TAG, pad PAYLOAD_LEN [47; 117; 115; 98; 51]);
   (VFS_LOOKUP_TAG, pad PAYLOAD_LEN [47; 117; 115; 98; 51; 47; 97])].

(** After one mount point is removed, eleven automatic ones fit; the eleventh is "/mnt:". *)
Example eleventh_auto_mount :
  let auto := (VFS_MOUNT_TAG, pad PAYLOAD_LEN (to_le 8 13)) in
  let '(rs, t) := mount_run ((VFS_UMOUNT_TAG, pad PAYLOAD_LEN [47; 116; 109; 112]) :: replicate 11 auto) boot_mounts in
  last rs = Some 16 /\ ns t !! [47; 109; 110; 116; 58] = Some (13, 0) /\ ns t !! [47; 109; 110; 116; 49; 48] = None.
Proof. vm_compute. done. Qed.

Lemma mount_service_refines_witness :
  fst (mount_run hotplug_msgs boot_mounts)
    = [7; pack_route 13 4 5; U64_MAX; 1; pack_route 6 0 1] /\
  ns (snd (mount_run hotplug_msgs boot_mounts)) !! root = Some (FAT32_DOMAIN, 0).
Proof.
  split; [vm_compute; reflexivity|].
  destruct (mount_service_refines hotplug_msgs _ _ (surjective_pairing _)) as (_ & _ & H & _).
  exact H.
Defined.
