(* ===== verification/Vfs.v ===== *)
(** * Vfs: the file-system client library (src/user/libmorion/src/vfs.rs)

    Applications reach the file services through this library: it asks the mount service
    where a path lives, sends the request to that service, and packs the answer together with
    a kernel handle into the descriptor the application sees. The kernel and the services are
    an interface here ([UserWorld], with the laws the library relies on in [UserLaws] and
    [MountLaws]); the instance at the end runs the library on the kernel's handle table and on
    the mount service's table. *)

From S2P Require Import Prelude Cap Bytes Slots Mount.

Definition VFS_OPEN_TAG : Z := 0x4F50454E.
Definition VFS_READ_TAG : Z := 0x52454144.
Definition VFS_READDIR_TAG : Z := 0x52444952.
Definition VFS_CLOSE_TAG : Z := 0x434C5345.
Definition VFS_WRITE_TAG : Z := 0x57524954.
Definition VFS_CREAT_TAG : Z := 0x43524541.
Definition VFS_MKDIR_TAG : Z := 0x4D4B4449.
Definition VFS_UNLINK_TAG : Z := 0x554E4C4B.
Definition VFS_RMDIR_TAG : Z := 0x524D4449.
Definition VFS_STAT_TAG : Z := 0x53544154.
Definition VFS_TRUNCATE_TAG : Z := 0x54524E43.
Definition VFS_RENAME_TAG : Z := 0x52454E4D.
Definition VFS_CHMOD_TAG : Z := 0x43484D44.
Definition VFS_LINK_TAG : Z := 0x4C494E4B.
Definition VFS_SYMLINK_TAG : Z := 0x53594D4C.
Definition VFS_READLINK_TAG : Z := 0x52444C4B.
Definition VFS_LSTAT_TAG : Z := 0x4C535441.
Definition MFS_CHOWN_TAG : Z := 0x43484F57.
Definition VFS_MKFS_TAG : Z := 0x4D4B4653.
Definition MFS_SETPRIMARY_TAG : Z := 0x4D535052.
Definition MFS_FSCK_TAG : Z := 0x4D465343.
Definition MFS_SNAPLIST_TAG : Z := 0x4D534E4C.
Definition MFS_SNAPRESTORE_TAG : Z := 0x4D534E52.

(** ** Replies, tags and descriptors *)

Definition mfs_is_err (v : Z) : bool := Z.shiftr v 48 =? 65535.
Definition mfs_errno (v : Z) : Z := if mfs_is_err v then Z.land v 65535 else 0.

Definition tag_body (tag : Z) : Z := Z.land tag 4294967295.
Definition tag_vol (tag : Z) : Z := w32 (Z.land (Z.shiftr tag 32) 255).
Definition vol_from_enc (enc default_vol : Z) : Z := if enc =? 0 then default_vol else enc - 1.
Definition with_vol (tag vol_enc : Z) : Z := Z.lor tag (w64 (Z.shiftl (Z.land vol_enc 255) 32)).

Definition make_fd (handle domain local : Z) : Z :=
  if local =? U64_MAX then U64_MAX
  else Z.lor (Z.lor (w64 (Z.shiftl handle 48)) (w64 (Z.shiftl (Z.land domain 65535) 32)))
         (Z.land local 4294967295).
Definition fd_handle (fd : Z) : Z := Z.shiftr fd 48.
Definition fd_domain (fd : Z) : Z := Z.land (Z.shiftr fd 32) 65535.
Definition fd_local (fd : Z) : Z := Z.land fd 4294967295.

(** The path in a payload: at most [PAYLOAD_LEN - 1] bytes, zero-filled. *)
Definition encode_path (path : list Z) : list Z := take (PAYLOAD_LEN - 1) path.
Definition path_payload (path : list Z) : list Z := pad PAYLOAD_LEN (encode_path path).

(** The request structs, as their bytes. *)
Definition path_req (aux buf : Z) : list Z := to_le 4 aux ++ to_le 4 0 ++ to_le 8 buf.
Definition rw_req (fd count offset buf : Z) : list Z :=
  to_le 4 fd ++ to_le 4 count ++ to_le 8 offset ++ to_le 8 buf.
Definition dir_req (fd buf : Z) : list Z := to_le 4 fd ++ to_le 4 0 ++ to_le 8 buf.
Definition truncate_req (fd size : Z) : list Z := to_le 4 fd ++ to_le 4 0 ++ to_le 8 size.
Definition two_path_req (a_len b_len buf : Z) : list Z := to_le 4 a_len ++ to_le 4 b_len ++ to_le 8 buf.
Definition mount_req (domain : Z) (pfx : list Z) : list Z := to_le 8 domain ++ pad MOUNT_PREFIX_MAX pfx.
Definition mount_vol_req (domain vol : Z) : list Z := to_le 8 domain ++ to_le 8 vol.

(** ** The interface to the kernel and to the services *)

Class UserWorld (W : Type) : Type := {
  (** [SYS_CALL] with the address of a [PAYLOAD_LEN]-byte buffer: runs the called service *)
  sys_call : Z -> Z -> list Z -> W -> Z * W;
  sys_cap_issue : Z -> W -> Z * W;
  sys_cap_lookup : Z -> W -> Z;
  sys_cap_drop : Z -> W -> W;
  (** the calling domain's memory *)
  peek : W -> mem;
  poke : Z -> list Z -> W -> W;
  (** [MFS_LAST_ERRNO] *)
  set_errno : Z -> W -> W
}.

Section client.
Context {W : Type} `{!UserWorld W}.

(** Code of the library: it runs in a world and leaves a world. *)
Definition client (A : Type) : Type := W -> A * W.

#[local] Instance client_ret : MRet client := fun _ a w => (a, w).
#[local] Instance client_bind : MBind client := fun _ _ f m w => let '(a, w') := m w in f a w'.

Definition effect (f : W -> W) : client unit := fun w => (tt, f w).
Definition get {A} (f : W -> A) : client A := fun w => (f w, w).

(** [syscall::sys_call_payload]: the payload goes into a zeroed buffer of [PAYLOAD_LEN]. *)
Definition sys_call_raw (domain tag : Z) (payload : list Z) : client Z :=
  fun w => sys_call domain tag (pad PAYLOAD_LEN payload) w.

Definition sys_call_payload (domain tag : Z) (payload : list Z) : client Z :=
  v ← sys_call_raw domain tag payload;
  if mfs_is_err v then (_ ← effect (set_errno (Z.land v 65535)); mret U64_MAX)
  else (_ ← effect (set_errno 0); mret v).

Definition mount_vol (domain vol : Z) : client Z :=
  sys_call_payload MOUNT_DOMAIN VFS_MOUNT_VOL_TAG (mount_vol_req domain vol).
Definition mount (pfx : list Z) (domain : Z) : client Z :=
  sys_call_payload MOUNT_DOMAIN VFS_MOUNT_TAG (mount_req domain pfx).
Definition umount (pfx : list Z) : client Z :=
  sys_call_payload MOUNT_DOMAIN VFS_UMOUNT_TAG (path_payload pfx).

Definition mfs_set_primary (vol : Z) : client Z :=
  sys_call_payload MFS_DOMAIN MFS_SETPRIMARY_TAG (to_le 8 vol).
Definition mfs_mkfs_flags (vol flags : Z) : client Z :=
  sys_call_payload MFS_DOMAIN VFS_MKFS_TAG (to_le 8 vol ++ to_le 8 flags).
Definition mfs_fsck (repair : bool) : client Z :=
  sys_call_payload MFS_DOMAIN MFS_FSCK_TAG (to_le 8 (if repair then 1 else 0)).
Definition mfs_snapshot_list (buf : Z) : client Z :=
  sys_call_payload MFS_DOMAIN MFS_SNAPLIST_TAG (to_le 8 buf).
Definition mfs_snapshot_restore (idx : Z) : client Z :=
  sys_call_payload MFS_DOMAIN MFS_SNAPRESTORE_TAG (to_le 4 idx).

(** ** Routing *)

(** What [mount_lookup] makes of the mount service's reply. *)
Definition unpack_route (path : list Z) (r : Z) : option (Z * Z * Z) :=
  if r =? U64_MAX then None
  else
    let domain := Z.land (Z.shiftr r 32) 255 in
    let vol_enc := w32 (Z.land (Z.shiftr r 40) 255) in
    let prefix_len := Z.land r 4294967295 in
    if (domain =? 0) || (prefix_len =? 0) || (Z.of_nat (length path) <? prefix_len) then None
    else Some (domain, vol_enc, prefix_len).

Definition mount_lookup (path : list Z) : client (option (Z * Z * Z)) :=
  r ← sys_call_payload MOUNT_DOMAIN VFS_LOOKUP_TAG (path_payload path);
  mret (unpack_route path r).

Definition route (path : list Z) : client (option (Z * Z * list Z)) :=
  o ← mount_lookup path;
  mret (match o with
        | None => None
        | Some (domain, vol_enc, prefix_len) =>
            if Z.of_nat (length path) <? prefix_len then None
            else if prefix_len =? 1 then Some (domain, vol_enc, path)
            else let rest := drop (Z.to_nat prefix_len) path in
                 Some (domain, vol_enc, if bool_decide (rest = []) then root else rest)
        end).

(** ** Capabilities *)

Definition fd_object (fd : Z) : Z := Z.lor (w64 (Z.shiftl (fd_domain fd) 32)) (fd_local fd).

Definition cap_guard (fd : Z) : client bool :=
  if fd =? U64_MAX then mret false
  else (obj ← get (sys_cap_lookup (fd_handle fd)); mret (obj =? fd_object fd)).

Definition wrap_open (domain local : Z) : client Z :=
  if local =? U64_MAX then mret U64_MAX
  else
    handle ← sys_cap_issue (Z.lor (w64 (Z.shiftl domain 32)) (Z.land local 4294967295));
    if handle =? U64_MAX then
      (_ ← sys_call_payload domain VFS_CLOSE_TAG (to_le 4 (w32 local)); mret U64_MAX)
    else mret (make_fd handle domain local).

(** ** Operations on paths *)

(** [match route(path) { Some(..) => k, None => u64::MAX }] *)
Definition routed_to_service (path : list Z) (k : Z -> Z -> list Z -> client Z) : client Z :=
  o ← route path;
  match o with
  | Some (domain, vol_enc, sub) => k domain vol_enc sub
  | None => mret U64_MAX
  end.

Definition open (path : list Z) : client Z :=
  routed_to_service path (fun domain vol_enc sub =>
    local ← sys_call_payload domain (with_vol VFS_OPEN_TAG vol_enc) (path_payload sub);
    wrap_open domain local).

Definition creat (path : list Z) : client Z :=
  routed_to_service path (fun domain vol_enc sub =>
    local ← sys_call_payload domain (with_vol VFS_CREAT_TAG vol_enc) (path_payload sub);
    wrap_open domain local).

Definition mkdir (path : list Z) : client Z :=
  routed_to_service path (fun domain vol_enc sub =>
    sys_call_payload domain (with_vol VFS_MKDIR_TAG vol_enc) (path_payload sub)).
Definition unlink (path : list Z) : client Z :=
  routed_to_service path (fun domain vol_enc sub =>
    sys_call_payload domain (with_vol VFS_UNLINK_TAG vol_enc) (path_payload sub)).
Definition rmdir (path : list Z) : client Z :=
  routed_to_service path (fun domain vol_enc sub =>
    sys_call_payload domain (with_vol VFS_RMDIR_TAG vol_enc) (path_payload sub)).

(** A NUL-terminated string in the shared page. *)
Definition write_cstr (s : list Z) (buf : Z) : client unit :=
  _ ← effect (poke buf (take (PAYLOAD_LEN - 1) s));
  effect (poke (buf + Z.of_nat (length (take (PAYLOAD_LEN - 1) s))) [0]).

Definition stat_into (path : list Z) (buf : Z) : client Z :=
  routed_to_service path (fun domain vol_enc sub =>
    _ ← write_cstr sub buf;
    sys_call_payload domain (with_vol VFS_STAT_TAG vol_enc) (path_req 0 buf)).
Definition lstat_into (path : list Z) (buf : Z) : client Z :=
  routed_to_service path (fun domain vol_enc sub =>
    _ ← write_cstr sub buf;
    sys_call_payload domain (with_vol VFS_LSTAT_TAG vol_enc) (path_req 0 buf)).
Definition chmod_into (path : list Z) (mode buf : Z) : client Z :=
  routed_to_service path (fun domain vol_enc sub =>
    _ ← write_cstr sub buf;
    sys_call_payload domain (with_vol VFS_CHMOD_TAG vol_enc) (path_req mode buf)).
Definition chown_into (path : list Z) (uid gid buf : Z) : client Z :=
  routed_to_service path (fun domain vol_enc sub =>
    _ ← write_cstr sub buf;
    sys_call_payload domain (with_vol MFS_CHOWN_TAG vol_enc)
      (path_req (Z.lor (w32 (Z.shiftl uid 16)) gid) buf)).

Definition readlink_into (path : list Z) (buf : Z) : client Z :=
  routed_to_service path (fun domain vol_enc sub =>
    o ← mount_lookup path;
    let prefix_len := match o with Some (_, _, n) => n | None => 0 end in
    _ ← write_cstr sub buf;
    n ← sys_call_payload domain (with_vol VFS_READLINK_TAG vol_enc) (path_req 0 buf);
    if (n =? U64_MAX) || (n =? 0) || (Z.of_nat PAYLOAD_LEN - 1 <? n) then mret U64_MAX
    else
      m ← get peek;
      let raw := slice_at buf (Z.to_nat n) m in
      if (prefix_len =? 0) || negb (m buf =? slash) || (Z.of_nat PAYLOAD_LEN - 1 <? prefix_len + n)
      then mret n
      else
        _ ← effect (poke buf (take (Z.to_nat prefix_len) path ++ raw));
        _ ← effect (poke (buf + prefix_len + n) [0]);
        mret (prefix_len + n)).

(** [src\0dst\0] in the shared page. *)
Definition write_two_paths (a b : list Z) (buf : Z) : client unit :=
  _ ← effect (poke buf a);
  _ ← effect (poke (buf + Z.of_nat (length a)) [0]);
  _ ← effect (poke (buf + Z.of_nat (length a) + 1) b);
  effect (poke (buf + Z.of_nat (length a) + 1 + Z.of_nat (length b)) [0]).

Definition rename_into (src dst : list Z) (buf : Z) : client Z :=
  routed_to_service src (fun sd senc ssub =>
    routed_to_service dst (fun dd denc dsub =>
      if negb (sd =? dd) || negb (senc =? denc) then mret U64_MAX
      else
        _ ← write_two_paths ssub dsub buf;
        sys_call_payload sd (with_vol VFS_RENAME_TAG senc)
          (two_path_req (w32 (Z.of_nat (length ssub))) (w32 (Z.of_nat (length dsub))) buf))).

Definition link_into (src dst : list Z) (buf : Z) : client Z :=
  routed_to_service src (fun sd senc ssub =>
    routed_to_service dst (fun dd denc dsub =>
      if negb (sd =? dd) || negb (senc =? denc) then mret U64_MAX
      else
        _ ← write_two_paths ssub dsub buf;
        sys_call_payload sd (with_vol VFS_LINK_TAG senc)
          (two_path_req (w32 (Z.of_nat (length ssub))) (w32 (Z.of_nat (length dsub))) buf))).

(** The target as it is stored: an absolute one must lie on the link's own mount and loses
    the mount prefix. *)
Definition link_target (target : list Z) (ld lenc : Z) : client (option (list Z)) :=
  if bool_decide (head target = Some slash) then
    o ← mount_lookup target;
    mret (match o with
          | Some (td, tenc, tplen) =>
              if (td =? ld) && (tenc =? lenc) then
                let rest := drop (Z.to_nat tplen) target in
                Some (if bool_decide (rest = []) then root else rest)
              else None
          | None => None
          end)
  else mret (Some target).

Definition symlink_into (target linkpath : list Z) (buf : Z) : client Z :=
  routed_to_service linkpath (fun ld lenc lsub =>
    if bool_decide (target = []) then mret U64_MAX
    else
      o ← link_target target ld lenc;
      match o with
      | None => mret U64_MAX
      | Some tgt =>
          if (PAYLOAD_LEN - 1 <? length tgt + 1 + length lsub)%nat then mret U64_MAX
          else
            _ ← write_two_paths tgt lsub buf;
            sys_call_payload ld (with_vol VFS_SYMLINK_TAG lenc)
              (two_path_req (w32 (Z.of_nat (length tgt))) (w32 (Z.of_nat (length lsub))) buf)
      end).

(** ** Operations on descriptors *)

Definition read_into (fd offset count buf : Z) : client Z :=
  ok ← cap_guard fd;
  if negb ok then mret U64_MAX
  else sys_call_payload (fd_domain fd) VFS_READ_TAG (rw_req (fd_local fd) count offset buf).

Definition write_into (fd offset : Z) (data : list Z) (buf : Z) : client Z :=
  ok ← cap_guard fd;
  if negb ok then mret U64_MAX
  else
    let n := Nat.min (length data) 4096 in
    _ ← effect (poke buf (take n data));
    sys_call_payload (fd_domain fd) VFS_WRITE_TAG (rw_req (fd_local fd) (Z.of_nat n) offset buf).

Definition readdir_into (fd buf : Z) : client Z :=
  ok ← cap_guard fd;
  if negb ok then mret U64_MAX
  else sys_call_payload (fd_domain fd) VFS_READDIR_TAG (dir_req (fd_local fd) buf).

Definition truncate (fd size : Z) : client Z :=
  ok ← cap_guard fd;
  if negb ok then mret U64_MAX
  else sys_call_payload (fd_domain fd) VFS_TRUNCATE_TAG (truncate_req (fd_local fd) size).

Definition close (fd : Z) : client Z :=
  if fd =? U64_MAX then mret 0
  else
    r ← sys_call_payload (fd_domain fd) VFS_CLOSE_TAG (to_le 4 (fd_local fd));
    _ ← effect (sys_cap_drop (fd_handle fd));
    mret (if r =? 1 then 1 else 0).

(** An operation on an open descriptor. *)
Inductive fd_op : Type :=
| OpRead (offset count buf : Z)
| OpWrite (offset : Z) (data : list Z) (buf : Z)
| OpReaddir (buf : Z)
| OpTruncate (size : Z).

Definition run_fd_op (op : fd_op) (fd : Z) : client Z :=
  match op with
  | OpRead offset count buf => read_into fd offset count buf
  | OpWrite offset data buf => write_into fd offset data buf
  | OpReaddir buf => readdir_into fd buf
  | OpTruncate size => truncate fd size
  end.

(** Without a handle for the object it names, a descriptor reaches no service. *)
Lemma unguarded_refused op fd w :
  fst (cap_guard fd w) = false -> run_fd_op op fd w = (U64_MAX, w).
Proof.
  intros H. assert (E : cap_guard fd w = (false, w)).
  { revert H. unfold cap_guard, get, mbind, client_bind, mret, client_ret.
    destruct (fd =? U64_MAX); cbn; [done|]. by intros ->. }
  destruct op; cbn [run_fd_op];
    unfold read_into, write_into, readdir_into, truncate, mbind, client_bind; by rewrite E.
Qed.

End client.

(** The laws of the kernel's handles. *)
Class UserLaws (W : Type) `{!UserWorld W} : Type := {
  world_ok : W -> Prop;
  call_ok domain tag payload w : world_ok w -> world_ok (snd (sys_call domain tag payload w));
  errno_ok e w : world_ok w -> world_ok (set_errno e w);
  issue_lookup obj w h w' :
    world_ok w -> sys_cap_issue obj w = (h, w') -> h <> U64_MAX ->
    0 <= h < 32 /\ sys_cap_lookup h w' = obj;
  drop_lookup h w : sys_cap_lookup h (sys_cap_drop h w) = U64_MAX
}.

(** The domain [MOUNT_DOMAIN] is the mount service with table [mounts]; a lookup does not
    change the table or anything else the client sees. *)
Class MountLaws (W : Type) `{!UserWorld W} : Type := {
  mounts : W -> mount_table;
  lookup_served payload w :
    length payload = PAYLOAD_LEN ->
    sys_call MOUNT_DOMAIN VFS_LOOKUP_TAG payload w
      = (fst (mount_turn VFS_LOOKUP_TAG payload (mounts w)), w)
}.

(** ** Bit fields *)

Lemma land_mask a n : 0 <= n -> Z.land a (2^n - 1) = a mod 2^n.
Proof. intros Hn. rewrite <- (Z.land_ones a n Hn), Z.ones_equiv. done. Qed.

Lemma pack_fields h d l :
  0 <= h < 2^16 -> 0 <= d < 2^16 -> 0 <= l < 2^32 ->
  Z.lor (Z.lor (w64 (Z.shiftl h 48)) (w64 (Z.shiftl d 32))) l = (h * 2^16 + d) * 2^32 + l.
Proof.
  intros Hh Hd Hl. unfold w64.
  rewrite !Z.mod_small by (rewrite Z.shiftl_mul_pow2 by lia; lia).
  rewrite (lor_shiftl_add h (Z.shiftl d 32) 48) by (rewrite ?Z.shiftl_mul_pow2 by lia; lia).
  rewrite Z.shiftl_mul_pow2 by lia.
  replace (h * 2^48 + d * 2^32) with (Z.shiftl (h * 2^16 + d) 32)
    by (rewrite Z.shiftl_mul_pow2 by lia; lia).
  by rewrite lor_shiftl_add by lia.
Qed.

Lemma make_fd_value h d l :
  0 <= h < 2^16 -> 0 <= d < 2^16 -> l <> U64_MAX ->
  make_fd h d l = (h * 2^16 + d) * 2^32 + l mod 2^32.
Proof.
  intros Hh Hd Hl. unfold make_fd. rewrite (proj2 (Z.eqb_neq _ _) Hl).
  change 65535 with (2^16 - 1). change 4294967295 with (2^32 - 1).
  rewrite !land_mask by lia. rewrite (Z.mod_small d) by lia.
  apply pack_fields; [done|done|]. apply Z.mod_pos_bound. lia.
Qed.

Lemma fd_fields h d l :
  0 <= h < 2^16 -> 0 <= d < 2^16 -> 0 <= l < 2^32 ->
  let fd := (h * 2^16 + d) * 2^32 + l in
  fd_handle fd = h /\ fd_domain fd = d /\ fd_local fd = l.
Proof.
  intros Hh Hd Hl fd. unfold fd_handle, fd_domain, fd_local.
  change 65535 with (2^16 - 1). change 4294967295 with (2^32 - 1).
  rewrite !land_mask, !Z.shiftr_div_pow2 by lia. unfold fd. repeat split.
  - replace ((h * 2^16 + d) * 2^32 + l) with (l + d * 2^32 + h * 2^48) by lia.
    rewrite Z.div_add by lia. rewrite Z.div_small; lia.
  - rewrite Z.div_add_l, (Z.div_small l) by lia.
    rewrite Z.add_0_r, Z.add_comm, Z.mod_add, Z.mod_small by lia. done.
  - rewrite Z.add_comm, Z.mod_add, Z.mod_small by lia. done.
Qed.

(** The mount service's reply, read back by the client. *)
Lemma unpack_pack path d v len :
  0 < d < 256 -> 0 <= v < 256 -> (0 < len <= length path)%nat -> Z.of_nat len < 2^32 ->
  mfs_is_err (pack_route d v len) = false /\
  unpack_route path (pack_route d v len) = Some (d, v, Z.of_nat len).
Proof.
  intros Hd Hv Hl Hl32.
  assert (E : pack_route d v len = (v * 2^8 + d) * 2^32 + Z.of_nat len).
  { unfold pack_route, w64. rewrite !Z.mod_small by (rewrite Z.shiftl_mul_pow2 by lia; lia).
    rewrite (lor_shiftl_add v (Z.shiftl d 32) 40) by (rewrite ?Z.shiftl_mul_pow2 by lia; lia).
    rewrite Z.shiftl_mul_pow2 by lia.
    replace (v * 2^40 + d * 2^32) with (Z.shiftl (v * 2^8 + d) 32)
      by (rewrite Z.shiftl_mul_pow2 by lia; lia).
    by rewrite lor_shiftl_add by lia. }
  rewrite E. set (r := (v * 2^8 + d) * 2^32 + Z.of_nat len).
  assert (E32 : r / 2^32 = v * 2^8 + d).
  { unfold r. rewrite Z.div_add_l, (Z.div_small (Z.of_nat len)) by lia. lia. }
  split.
  - unfold mfs_is_err. rewrite Z.shiftr_div_pow2 by lia. apply Z.eqb_neq.
    rewrite Z.div_small by (unfold r; lia). lia.
  - unfold unpack_route. rewrite (proj2 (Z.eqb_neq _ _)) by (unfold r, U64_MAX; lia).
    change 255 with (2^8 - 1). change 4294967295 with (2^32 - 1).
    rewrite !land_mask, !Z.shiftr_div_pow2 by lia.
    assert (Ed : (r / 2^32) mod 2^8 = d) by (rewrite E32, Z.add_comm, Z.mod_add, Z.mod_small by lia; lia).
    assert (Ev : (r / 2^40) mod 2^8 = v).
    { change (2^40) with (2^32 * 2^8). rewrite <- Z.div_div, E32, Z.div_add_l by lia.
      rewrite (Z.div_small d) by lia. rewrite Z.mod_small; lia. }
    assert (El : r mod 2^32 = Z.of_nat len)
      by (unfold r; rewrite Z.add_comm, Z.mod_add, Z.mod_small by lia; lia).
    cbv zeta. rewrite Ed, Ev, El. unfold w32. rewrite Z.mod_small by lia.
    destruct (Z.eqb_spec d 0); [lia|]. destruct (Z.eqb_spec (Z.of_nat len) 0); [lia|].
    destruct (Z.ltb_spec (Z.of_nat (length path)) (Z.of_nat len)); [lia|]. done.
Qed.

(** ** Routing *)

Lemma covers_truncated pfx path n :
  (length pfx < n)%nat -> covers pfx (take n path) <-> covers pfx path.
Proof.
  intros Hn. unfold covers.
  assert (Hh : head (take n path) = head path) by (destruct n; [lia|]; by destruct path).
  rewrite Hh. split; intros [Hs H]; split; try done; destruct H as [?|[H|[rest H]]]; auto.
  - right; left. rewrite <- (take_drop n path), H.
    assert (length path < n)%nat.
    { apply (f_equal length) in H. rewrite length_take in H. lia. }
    rewrite drop_ge by lia. by rewrite app_nil_r.
  - right; right. exists (rest ++ drop n path). rewrite <- (take_drop n path), H at 1.
    by rewrite <- app_assoc.
  - right; left. subst path. by rewrite take_ge by lia.
  - right; right. subst path. exists (take (n - length pfx - 1) rest).
    rewrite take_app. rewrite take_ge by lia. f_equal.
    destruct (n - length pfx)%nat as [|k] eqn:E; [lia|]. cbn. by rewrite Nat.sub_0_r.
Qed.

Lemma routed_truncated n path k best :
  (forall pfx, is_Some (n !! pfx) -> (length pfx < k)%nat) ->
  routed n (take k path) best -> routed n path best.
Proof.
  intros Hk [pfx d v Hp Hc Hmax | Hno].
  - constructor; [done|apply (covers_truncated _ _ k); eauto|].
    intros pfx' Hp' Hc'. apply Hmax; [done|]. by apply covers_truncated; eauto.
  - constructor. intros pfx Hp Hc. apply (Hno pfx Hp). by apply covers_truncated; eauto.
Qed.

(** Every binding fits the fields of the reply: a domain id and a volume code of eight bits. *)
Definition routable (n : namespace) : Prop :=
  forall pfx d v, n !! pfx = Some (d, v) -> 0 < d < 256 /\ 0 <= v < 256.

Lemma ns_prefix_short t pfx :
  mount_inv t -> is_Some (ns t !! pfx) -> (0 < length pfx < MOUNT_PREFIX_MAX)%nat.
Proof.
  intros Hi [b Hb]%slot_map_is_Some. apply elem_of_bindings in Hb as [e [He Hb]].
  pose proof (proj1 (Forall_forall _ _) (inv_entries _ Hi) e He) as Hok.
  unfold binding in Hb. destruct (used e) eqn:Hu; [|done]. inv Hb.
  destruct (Hok Hu) as (Hs & Hl & _). split; [|done]. destruct (mount_prefix_of e); [done|cbn; lia].
Qed.

Lemma covers_length pfx path : covers pfx path -> (length pfx <= length path)%nat.
Proof.
  intros [Hh [->|[->|[rest ->]]]]; [|done|rewrite length_app; lia].
  destruct path; [done|]. cbn. lia.
Qed.

(** What a service sees of a path: the path itself under the root mount; otherwise the rest
    after the mount point, which is absolute in the service's own tree. *)
Definition subpath (pfx path sub : list Z) : Prop :=
  if bool_decide (pfx = root) then sub = path
  else (path = pfx /\ sub = root) \/ (path = pfx ++ sub /\ head sub = Some slash).

Section routing.
Context {W : Type} `{!UserWorld W, !MountLaws W}.

Lemma mount_lookup_value path w :
  nul_free path -> mount_inv (mounts w) -> routable (ns (mounts w)) ->
  match mount_resolve (take (PAYLOAD_LEN - 1) path) (mounts w) with
  | Some (d, v, len) => fst (mount_lookup path w) = Some (d, v, Z.of_nat len)
  | None => fst (mount_lookup path w) = None
  end.
Proof.
  intros Hnul Hi Hr. unfold mount_lookup, sys_call_payload, sys_call_raw, mbind, client_bind.
  unfold path_payload, encode_path.
  assert (Ep : forall l, length l = PAYLOAD_LEN -> pad PAYLOAD_LEN l = l).
  { intros l Hl. rewrite pad_small by lia. by rewrite Hl, Nat.sub_diag, app_nil_r. }
  rewrite Ep by apply length_pad. rewrite lookup_served by apply length_pad.
  unfold mount_turn, decode_request. rewrite Z.eqb_refl. cbn [serve fst].
  assert (Hlen : (length (take (PAYLOAD_LEN - 1) path) < PAYLOAD_LEN)%nat)
    by (rewrite length_take; unfold PAYLOAD_LEN; lia).
  rewrite cstr_pad; [|by apply Forall_take|done].
  pose proof (mount_resolve_routed (mounts w) (take (PAYLOAD_LEN - 1) path) Hi) as Hrt.
  destruct Hrt as [pfx d v Hp Hc _ | _]; cbn [serve fst].
  - destruct (Hr _ _ _ Hp) as [Hd Hv].
    pose proof (ns_prefix_short _ _ Hi (ex_intro _ _ Hp)) as Hs.
    assert (Hle : (length pfx <= length path)%nat)
      by (apply covers_length in Hc; rewrite length_take in Hc; lia).
    destruct (unpack_pack path d v (length pfx)) as [E1 E2];
      [done|done|lia|unfold MOUNT_PREFIX_MAX in Hs; lia|].
    rewrite E1. exact E2.
  - change (mfs_is_err U64_MAX) with true. reflexivity.
Qed.

(** on an absolute path, the library's routing, through the mount service's lookup and its
    packed reply, yields the service bound to the longest mount point that covers the path, and
    hands that service the path with the mount point removed; a path longer than a payload is
    routed like the whole path. *)
Theorem route_longest_mount path w :
  head path = Some slash -> nul_free path ->
  mount_inv (mounts w) -> routable (ns (mounts w)) ->
  exists pfx d v sub,
    fst (route path w) = Some (d, v, sub) /\
    ns (mounts w) !! pfx = Some (d, v) /\ covers pfx path /\
    (forall pfx', is_Some (ns (mounts w) !! pfx') -> covers pfx' path ->
       (length pfx' <= length pfx)%nat) /\
    subpath pfx path sub.
Proof.
  intros Hh Hnul Hi Hr.
  pose proof (mount_lookup_value path w Hnul Hi Hr) as Hl.
  pose proof (mount_resolve_routed (mounts w) (take (PAYLOAD_LEN - 1) path) Hi) as Hrt.
  apply routed_truncated in Hrt;
    [|intros pfx Hp; pose proof (ns_prefix_short _ _ Hi Hp); unfold MOUNT_PREFIX_MAX, PAYLOAD_LEN in *; lia].
  unfold route, mbind, client_bind. destruct (mount_lookup path w) as [o w']. cbn [fst] in Hl.
  destruct Hrt as [pfx d v Hp Hc Hmax | Hno].
  2:{ destruct (Hno root); [by apply mount_inv_ns_root|]. split; auto. }
  rewrite Hl. cbn. pose proof (covers_length _ _ Hc) as Hle.
  destruct (Z.ltb_spec (Z.of_nat (length path)) (Z.of_nat (length pfx))); [lia|].
  pose proof (ns_prefix_short _ _ Hi (ex_intro _ _ Hp)) as Hs.
  exists pfx, d, v. unfold subpath.
  destruct (bool_decide_reflect (pfx = root)) as [Hroot|Hroot].
  - subst pfx. cbn. eauto 10.
  - destruct Hc as [_ [?|[->|[rest Hrest]]]]; [done| |].
    + destruct (Z.eqb_spec (Z.of_nat (length pfx)) 1).
      { destruct pfx as [|c [|? ?]]; cbn in *; try lia. by inv Hh. }
      rewrite Nat2Z.id, drop_all. rewrite bool_decide_eq_true_2 by done.
      eexists. split_and!; eauto. split; eauto.
    + assert (Hpfx : head pfx = Some slash) by (subst path; destruct pfx; cbn in *; [lia|done]).
      destruct (Z.eqb_spec (Z.of_nat (length pfx)) 1).
      { destruct pfx as [|c [|? ?]]; cbn in *; try lia. by inv Hpfx. }
      rewrite Nat2Z.id. subst path. rewrite drop_app_length. rewrite bool_decide_eq_false_2 by done.
      eexists. split_and!; eauto. split; [done|]. right; right. eauto.
Qed.

End routing.

(** ** The life of a descriptor *)

Section lifecycle.
Context {W : Type} `{!UserWorld W, !UserLaws W}.

Lemma sys_call_payload_ok domain tag payload w :
  world_ok w -> world_ok (snd (sys_call_payload domain tag payload w)).
Proof.
  intros H. unfold sys_call_payload, sys_call_raw, mbind, client_bind.
  pose proof (call_ok domain tag (pad PAYLOAD_LEN payload) w H) as Hc.
  destruct (sys_call _ _ _ w) as [v w']. cbn in *. destruct (mfs_is_err v); cbn; by apply errno_ok.
Qed.

Lemma mount_lookup_domain path w d v n :
  fst (mount_lookup path w) = Some (d, v, n) -> 0 < d < 256.
Proof.
  unfold mount_lookup, mbind, client_bind. destruct (sys_call_payload _ _ _ w) as [r w'].
  cbn [fst mret client_ret]. unfold unpack_route. destruct (r =? U64_MAX); [done|].
  change 255 with (2^8 - 1). rewrite !land_mask by lia.
  pose proof (Z.mod_pos_bound (Z.shiftr r 32) (2^8) ltac:(lia)).
  destruct (Z.eqb_spec (Z.shiftr r 32 mod 2^8) 0); cbn [orb]; [done|].
  destruct (_ || _); [done|]. intros [= <- _ _]. lia.
Qed.

Lemma route_domain path w d v sub :
  fst (route path w) = Some (d, v, sub) -> 0 < d < 256.
Proof.
  unfold route, mbind, client_bind. pose proof (mount_lookup_domain path w) as H.
  destruct (mount_lookup path w) as [[[[d' v'] n]|] w']; cbn in *; [|done].
  specialize (H _ _ _ eq_refl). destruct (_ <? n); [done|].
  destruct (n =? 1); intros [= <- _ _]; done.
Qed.

Lemma route_world_ok path w : world_ok w -> world_ok (snd (route path w)).
Proof.
  intros H. unfold route, mount_lookup, mbind, client_bind.
  pose proof (sys_call_payload_ok MOUNT_DOMAIN VFS_LOOKUP_TAG (path_payload path) w H) as Hc.
  by destruct (sys_call_payload _ _ _ w) as [r w'].
Qed.

Lemma cap_guard_value fd w :
  fd <> U64_MAX -> fst (cap_guard fd w) = (sys_cap_lookup (fd_handle fd) w =? fd_object fd).
Proof. intros H. unfold cap_guard. by rewrite (proj2 (Z.eqb_neq _ _) H). Qed.

(** A descriptor packed by [wrap_open] names the object its handle was issued for. *)
Lemma wrap_open_guarded domain local w fd w' :
  world_ok w -> 0 < domain < 256 ->
  wrap_open domain local w = (fd, w') -> fd <> U64_MAX ->
  fst (cap_guard fd w') = true /\ fd_domain fd = domain /\ fd_local fd = local mod 2^32.
Proof.
  intros Hok Hd. unfold wrap_open, mbind, client_bind.
  destruct (Z.eqb_spec local U64_MAX) as [|Hl]; [by intros [= <- _]|].
  set (obj := Z.lor _ _). destruct (sys_cap_issue obj w) as [h w1] eqn:Ei.
  destruct (Z.eqb_spec h U64_MAX) as [|Hh].
  { destruct (sys_call_payload _ _ _ w1); by intros [= <- _]. }
  destruct (issue_lookup _ _ _ _ Hok Ei Hh) as [Hh32 Hlk].
  intros [= <- <-] _. pose proof (Z.mod_pos_bound local (2^32) ltac:(lia)) as Hm.
  rewrite make_fd_value by (done || lia).
  destruct (fd_fields h domain (local mod 2^32)) as (E1 & E2 & E3); [lia|lia|done|].
  split_and!; [|done|done]. rewrite cap_guard_value by (unfold U64_MAX; lia).
  rewrite E1, Hlk. apply Z.eqb_eq. unfold fd_object. rewrite E2, E3. unfold obj.
  change 4294967295 with (2^32 - 1). by rewrite land_mask by lia.
Qed.

Lemma open_guarded path w fd w' :
  world_ok w -> open path w = (fd, w') -> fd <> U64_MAX -> fst (cap_guard fd w') = true.
Proof.
  intros Hok. unfold open, routed_to_service, mbind, client_bind.
  pose proof (route_domain path w) as Hd. pose proof (route_world_ok path w Hok) as Hok1.
  destruct (route path w) as [[[[d v] sub]|] w1]; cbn in *; [|by intros [= <- _]].
  pose proof (sys_call_payload_ok d (with_vol VFS_OPEN_TAG v) (path_payload sub) w1 Hok1) as Hok2.
  destruct (sys_call_payload _ _ _ w1) as [local w2]. cbn in Hok2.
  intros E Hfd. eapply wrap_open_guarded in E as [H _]; eauto.
Qed.

Lemma close_drops fd w : fd <> U64_MAX -> fst (cap_guard fd (snd (close fd w))) = false.
Proof using UserLaws0.
  intros Hfd. unfold close, mbind, client_bind. rewrite (proj2 (Z.eqb_neq _ _) Hfd).
  destruct (sys_call_payload _ _ _ w) as [r w1]. rewrite cap_guard_value by done.
  cbn [snd effect mret client_ret]. rewrite drop_lookup.
  apply Z.eqb_neq. unfold fd_object, fd_domain, fd_local.
  change 65535 with (2^16 - 1). change 4294967295 with (2^32 - 1). rewrite !land_mask by lia.
  pose proof (Z.mod_pos_bound (Z.shiftr fd 32) (2^16) ltac:(lia)).
  pose proof (Z.mod_pos_bound fd (2^32) ltac:(lia)).
  unfold w64. rewrite Z.mod_small by (rewrite Z.shiftl_mul_pow2 by lia; lia).
  rewrite lor_shiftl_add by lia. unfold U64_MAX. lia.
Qed.

(** C33. a descriptor is a capability. What [open] returns passes the kernel's handle check; a
    descriptor whose handle does not name its service and local number is refused by read,
    write, readdir and truncate before any service is called, with the world unchanged; and
    closing a descriptor makes every such operation on it fail that way. *)
Theorem descriptor_is_capability path w fd w' op :
  world_ok w -> open path w = (fd, w') -> fd <> U64_MAX ->
  fst (cap_guard fd w') = true /\
  run_fd_op op fd (snd (close fd w')) = (U64_MAX, snd (close fd w')) /\
  (forall fd' w0, sys_cap_lookup (fd_handle fd') w0 <> fd_object fd' ->
     run_fd_op op fd' w0 = (U64_MAX, w0)).
Proof.
  intros Hok E Hfd. split_and!.
  - by eapply open_guarded.
  - by apply unguarded_refused, close_drops.
  - intros fd' w0 Hne. apply unguarded_refused. destruct (decide (fd' = U64_MAX)) as [->|Hf]; [done|].
    rewrite cap_guard_value by done. by apply Z.eqb_neq.
Qed.

End lifecycle.

(** ** The library on the kernel's handle table and the mount service's table

    [F] and [file_service] stand for the file services behind the other domain numbers: given
    the domain, the tag, the payload and the memory shared with the client, a service replies
    and may change the memory and its own state. *)

Record host (F : Type) : Type := mk_host {
  h_caps : cap_state;
  h_me : Z;
  h_mem : mem;
  h_errno : Z;
  h_mounts : mount_table;
  h_files : F
}.
Arguments mk_host {F}.
Arguments h_caps {F}.
Arguments h_me {F}.
Arguments h_mem {F}.
Arguments h_errno {F}.
Arguments h_mounts {F}.
Arguments h_files {F}.

Section host.
Context {F : Type} (file_service : Z -> Z -> list Z -> mem -> F -> Z * (mem * F)).

Definition host_call (dom tag : Z) (payload : list Z) (w : host F) : Z * host F :=
  if dom =? MOUNT_DOMAIN then
    let '(r, t) := mount_turn tag payload (h_mounts w) in
    (r, mk_host (h_caps w) (h_me w) (h_mem w) (h_errno w) t (h_files w))
  else
    let '(r, (m, f)) := file_service dom tag payload (h_mem w) (h_files w) in
    (r, mk_host (h_caps w) (h_me w) m (h_errno w) (h_mounts w) f).

Definition host_with_caps (w : host F) (c : cap_state) : host F :=
  mk_host c (h_me w) (h_mem w) (h_errno w) (h_mounts w) (h_files w).

#[local] Instance host_world : UserWorld (host F) := {
  sys_call := host_call;
  sys_cap_issue obj w :=
    let '(h, c) := handle_issue (h_me w) obj (h_caps w) in (h, host_with_caps w c);
  sys_cap_lookup h w := default U64_MAX (handle_lookup (h_me w) h (h_caps w));
  sys_cap_drop h w := host_with_caps w (snd (handle_drop (h_me w) h (h_caps w)));
  peek := h_mem;
  poke p l w := mk_host (h_caps w) (h_me w) (copy_to p l (h_mem w)) (h_errno w) (h_mounts w) (h_files w);
  set_errno e w := mk_host (h_caps w) (h_me w) (h_mem w) e (h_mounts w) (h_files w)
}.

Lemma handle_issue_lookup d obj c h c' :
  cap_wf c -> handle_issue d obj c = (h, c') -> h <> U64_MAX ->
  0 <= h < 32 /\ handle_lookup d h c' = Some obj.
Proof using Type.
  intros Hwf. unfold handle_issue.
  destruct (lookupZ (HANDLE_TABLE c) d) as [row|] eqn:Er; [|intros [= <- <-]; done].
  destruct (fill_slot obj row) as [[i row']|] eqn:Ef; [|intros [= <- <-]; done].
  intros [= <- <-] _. destruct (fill_slot_index _ _ _ _ Ef) as [Hi Hx].
  apply (proj1 (proj2 Hwf)) in Er as Hlen. unfold HANDLE_SLOTS in Hlen. split; [lia|].
  unfold handle_lookup. cbn [HANDLE_TABLE]. rewrite lookupZ_insertZ_eq by eauto. cbn.
  by rewrite lookupZ_nat, Hx.
Qed.

Lemma handle_drop_lookup d h c : handle_lookup d h (snd (handle_drop d h c)) = None.
Proof using Type.
  unfold handle_drop. destruct (lookupZ (HANDLE_TABLE c) d) as [row|] eqn:Er.
  - destruct (lookupZ row h) as [[o|]|] eqn:Eh; cbn [snd]; unfold handle_lookup; cbn [HANDLE_TABLE].
    + rewrite lookupZ_insertZ_eq by eauto. cbn. by rewrite lookupZ_insertZ_eq by eauto.
    + rewrite Er. cbn. by rewrite Eh.
    + rewrite Er. cbn. by rewrite Eh.
  - unfold handle_lookup. cbn [snd]. by rewrite Er.
Qed.

#[local] Instance host_laws : UserLaws (host F).
Proof using Type.
  refine (Build_UserLaws _ _ (fun w => cap_wf (h_caps w)) _ _ _ _).
  - intros dom tag payload w H. cbn. unfold host_call. destruct (dom =? MOUNT_DOMAIN).
    + by destruct (mount_turn tag payload (h_mounts w)).
    + by destruct (file_service dom tag payload (h_mem w) (h_files w)) as [r [m f]].
  - done.
  - intros obj w h w' Hok. cbn. destruct (handle_issue (h_me w) obj (h_caps w)) as [h0 c] eqn:E.
    intros [= <- <-] Hne. destruct (handle_issue_lookup _ _ _ _ _ Hok E Hne) as [H1 H2].
    split; [done|]. cbn. by rewrite H2.
  - intros h w. cbn. by rewrite handle_drop_lookup.
Defined.

#[local] Instance host_mounts : MountLaws (host F).
Proof using Type.
  refine (Build_MountLaws _ _ h_mounts _). intros payload [c me m e t f] _. reflexivity.
Defined.

End host.

(** A file service that accepts every open and reads nothing, for the examples. *)
Definition open_only (dom tag : Z) (payload : list Z) (m : mem) (f : unit) : Z * (mem * unit) :=
  (if tag_body tag =? VFS_OPEN_TAG then 5 else if tag_body tag =? VFS_CLOSE_TAG then 1 else 0, (m, f)).

Definition demo_host : host unit :=
  mk_host (init 4) 1 (fun _ => 0) 0 boot_mounts tt.

Definition demo_path : list Z := [47; 116; 109; 112; 47; 97].    (* /tmp/a *)

Lemma route_longest_mount_witness :
  @route _ (host_world open_only) demo_path demo_host = (Some (TMPFS_DOMAIN, 0, [47; 97]), demo_host) /\
  exists pfx, covers pfx demo_path /\ length pfx = 4%nat.
Proof.
  split; [vm_compute; reflexivity|].
  destruct boot_mounts_ok as [Hi Hn].
  destruct (@route_longest_mount _ (host_world open_only) (host_mounts open_only) demo_path demo_host)
    as (pfx & d & v & sub & E & Hp & Hc & Hmax & Hs); [reflexivity| |exact Hi| |].
  - repeat (constructor; [discriminate|]). constructor.
  - intros p d v Hp. change (mounts demo_host) with boot_mounts in Hp. rewrite Hn in Hp.
    apply elem_of_list_to_map_2 in Hp. unfold FAT32_DOMAIN, TMPFS_DOMAIN, MFS_DOMAIN, EXT2_DOMAIN,
      EXFAT_DOMAIN, ISO9660_DOMAIN in Hp.
    repeat (apply elem_of_cons in Hp as [Hp|Hp]; [injection Hp as _ -> ->; lia|]).
    by apply elem_of_nil in Hp.
  - exists pfx. split; [exact Hc|].
    assert (H4 : (4 <= length pfx)%nat).
    { apply (Hmax [47; 116; 109; 112]); [vm_compute; eauto|].
      split; [reflexivity|]. right; right. exists [97]. reflexivity. }
    assert (H6 : subpath pfx demo_path [47; 97]).
    { vm_compute in E. injection E as _ _ <-. exact Hs. }
    unfold subpath in H6. case_bool_decide as Hr; [subst pfx; cbn in H4; lia|].
    destruct H6 as [[_ H6]|[H6 _]]; [discriminate|].
    apply (f_equal length) in H6. rewrite length_app in H6. cbn in H6. lia.
Defined.

Lemma descriptor_is_capability_witness :
  let '(fd, w) := @open _ (host_world open_only) demo_path demo_host in
  fd = 10 * 2^32 + 5 /\ fst (@cap_guard _ (host_world open_only) fd w) = true /\
  fst (@run_fd_op _ (host_world open_only) (OpRead 0 16 4096) fd w) = 0 /\
  fst (@run_fd_op _ (host_world open_only) (OpRead 0 16 4096) fd
         (snd (@close _ (host_world open_only) fd w))) = U64_MAX.
Proof.
  destruct (@open _ (host_world open_only) demo_path demo_host) as [fd w] eqn:E.
  assert (Efd : fd = 10 * 2^32 + 5) by (vm_compute in E; by injection E as <- _).
  destruct (@descriptor_is_capability _ (host_world open_only) (host_laws open_only)
              demo_path demo_host fd w (OpRead 0 16 4096)) as (H1 & H2 & _).
  - apply cap_wf_init.
  - exact E.
  - subst fd. discriminate.
  - split_and!; [exact Efd|exact H1| |by rewrite H2].
    vm_compute in E. injection E as <- <-. vm_compute. reflexivity.
Defined.

(** On the root mount the prefix is the leading slash itself: an absolute link target is stored
    without it, that is, as a relative one. *)
Example root_symlink_target_relative :
  fst (@link_target _ (host_world open_only) [47; 97] FAT32_DOMAIN 0 demo_host) = Some [97].
Proof. vm_compute. reflexivity. Qed.

(** [close] has no capability check: it releases the service's descriptor for a number that
    was never opened by the caller. *)
Example close_unguarded :
  let fd := 10 * 2^32 + 5 in
  fst (@cap_guard _ (host_world open_only) fd demo_host) = false /\
  fst (@close _ (host_world open_only) fd demo_host) = 1.
Proof. vm_compute. split; reflexivity. Qed.
