(* ===== verification/Tmpfs.v ===== *)
(** * Tmpfs: the in-memory file service (src/user/srv/src/tmpfs_srv.rs)

    A flat table of nodes, each with its whole path, a bump-allocated data area and a table of
    open descriptors. This file holds the path normaliser with its reference definition, every
    request of the service loop, and the invariants of the tree and of the data area. *)

From S2P Require Import Prelude Bytes Slots Mount Vfs.

Definition TMP_MAX_NODES : nat := 32.
Definition TMP_PATH_MAX : nat := PAYLOAD_LEN.
Definition TMP_DATA_CAP : Z := 32 * 1024.
Definition TMP_MAX_FD : nat := 16.
Definition RESULT_MAX_ENTRIES : nat := 23.    (* 4096 / size_of::<DirEntry>() *)
Definition U32_MAX : Z := 2^32 - 1.

Record TmpNode : Type := mk_TmpNode {
  used : bool;
  is_dir : bool;
  path_len : Z;
  size : Z;
  cap : Z;
  data_off : Z;
  path : list Z
}.

Definition TMP_NODE_EMPTY : TmpNode := mk_TmpNode false false 0 0 0 0 (replicate TMP_PATH_MAX 0).

Record TmpFd : Type := mk_TmpFd { fd_used : bool; node : Z }.
Definition TMP_FD_EMPTY : TmpFd := mk_TmpFd false 0.

(** The statics: [TMP_NODES], [TMP_DATA], [TMP_DATA_USED], [TMP_FDS]. *)
Record tmpfs : Type := mk_tmpfs {
  TMP_NODES : list TmpNode;
  TMP_DATA : mem;
  TMP_DATA_USED : Z;
  TMP_FDS : list TmpFd
}.

Definition set_nodes (s : tmpfs) (l : list TmpNode) : tmpfs :=
  mk_tmpfs l (TMP_DATA s) (TMP_DATA_USED s) (TMP_FDS s).
Definition set_fds (s : tmpfs) (l : list TmpFd) : tmpfs :=
  mk_tmpfs (TMP_NODES s) (TMP_DATA s) (TMP_DATA_USED s) l.

Definition cold : tmpfs :=
  mk_tmpfs (replicate TMP_MAX_NODES TMP_NODE_EMPTY) (fun _ => 0) 0 (replicate TMP_MAX_FD TMP_FD_EMPTY).

(** ** Paths *)

(** The position of the only dot; [None] for a second one. *)
Fixpoint one_dot (seg : list Z) (i : nat) (d : option nat) : option (option nat) :=
  match seg with
  | [] => Some d
  | b :: seg' =>
      if b =? dot then match d with Some _ => None | None => one_dot seg' (S i) (Some i) end
      else one_dot seg' (S i) d
  end.

Definition tmp_norm_component (seg : list Z) : option (list Z) :=
  d ← one_dot seg 0 None;
  let '(base, ext) :=
    match d with
    | Some i => (take i seg, drop (S i) seg)
    | None => (seg, [])
    end in
  if bool_decide (base = []) || (8 <? length base)%nat || (3 <? length ext)%nat then None
  else Some (base ++ (if bool_decide (ext = []) then [] else dot :: ext)).

(** The bytes up to the next slash, and the rest. *)
Fixpoint next_segment (bytes : list Z) : list Z * list Z :=
  match bytes with
  | [] => ([], [])
  | b :: bytes' =>
      if b =? slash then ([], bytes)
      else let '(seg, rest) := next_segment bytes' in (b :: seg, rest)
  end.

(** [while k > 0 && out[k - 1] != b'/' { k -= 1 }] *)
Fixpoint after_slash (out : list Z) (k : nat) : nat :=
  match k with
  | O => O
  | S k' => if bool_decide (out !! k' = Some slash) then k else after_slash out k'
  end.

(** [".."]: the length left of [out]. *)
Definition pop_component (out : list Z) : list Z :=
  let n := length out in
  if (1 <? n)%nat then
    let k := after_slash out (n - 1) in
    take (if (1 <? k)%nat then k - 1 else 1)%nat out
  else out.

(** The loop of [tmp_normalize]: [out] is [out[..n]], [max] its capacity. *)
Fixpoint normalize_loop (fuel : nat) (bytes out : list Z) (max : nat) : option (list Z) :=
  match fuel with
  | O => None
  | S fuel' =>
      match bytes with
      | [] => Some out
      | b :: bytes' =>
          if b =? slash then normalize_loop fuel' bytes' out max
          else
            let '(seg, rest) := next_segment bytes in
            if bool_decide (seg = [dot]) then normalize_loop fuel' rest out max
            else if bool_decide (seg = [dot; dot]) then normalize_loop fuel' rest (pop_component out) max
            else
              comp ← tmp_norm_component seg;
              out ← (if (1 <? length out)%nat then
                       if (max <? length out + 1)%nat then None else Some (out ++ [slash])
                     else Some out);
              if (max <? length out + length comp)%nat then None
              else normalize_loop fuel' rest (out ++ comp) max
      end
  end.

Definition tmp_normalize (path : list Z) (max : nat) : option (list Z) :=
  if negb (bool_decide (head path = Some slash)) || (max =? 0)%nat then None
  else normalize_loop (length path) (tail path) [slash] max.

(** [while n > 1 && path[n - 1] != b'/'] and [while m > 1 && path[m - 1] == b'/']. *)
Fixpoint back_to_slash (p : list Z) (n : nat) : nat :=
  match n with
  | S (S _ as n') => if bool_decide (p !! n' = Some slash) then n else back_to_slash p n'
  | _ => n
  end.
Fixpoint back_over_slash (p : list Z) (m : nat) : nat :=
  match m with
  | S (S _ as m') => if bool_decide (p !! m' = Some slash) then back_over_slash p m' else m
  | _ => m
  end.

Definition tmp_parent (p : list Z) : list Z :=
  let m := back_over_slash p (back_to_slash p (length p)) in
  take (if (m =? 0)%nat then 1%nat else m) p.

(** ** The node table *)

Definition node_path (nd : TmpNode) : list Z := take (Z.to_nat (path_len nd)) (path nd).

Definition tmp_find (p : list Z) (s : tmpfs) : option nat :=
  position (fun nd => used nd && bool_decide (node_path nd = p)) (TMP_NODES s).

Definition tmp_alloc_node (p : list Z) (dir : bool) (s : tmpfs) : option nat * tmpfs :=
  if bool_decide (p = []) || (TMP_PATH_MAX <? length p)%nat then (None, s)
  else match position (fun nd => negb (used nd)) (TMP_NODES s) with
  | Some i =>
      (Some i, set_nodes s (alter (fun nd =>
         mk_TmpNode true dir (w8 (Z.of_nat (length p))) 0 0 0 (p ++ drop (length p) (path nd)))
         i (TMP_NODES s)))
  | None => (None, s)
  end.

Definition is_child (dir : list Z) (nd : TmpNode) : bool :=
  used nd && negb (bool_decide (node_path nd = dir)) && bool_decide (tmp_parent (node_path nd) = dir).

Definition tmp_dir_empty (dir : list Z) (s : tmpfs) : bool :=
  negb (existsb (is_child dir) (TMP_NODES s)).

(** The last component as an 8.3 name of eleven bytes. *)
Definition tmp_name_83 (p : list Z) : list Z :=
  let seg := drop (back_to_slash p (length p)) p in
  let d := match position (Z.eqb dot) seg with Some i => i | None => length seg end in
  pad_with space 8 (take 8 (take d seg)) ++ pad_with space 3 (take 3 (drop (S d) seg)).

(** ** Data and descriptors *)

Definition tmp_data_alloc (need : Z) (s : tmpfs) : option (Z * tmpfs) :=
  let u := TMP_DATA_USED s in
  if TMP_DATA_CAP <? u + need then None
  else Some (u, mk_tmpfs (TMP_NODES s) (TMP_DATA s) (u + need) (TMP_FDS s)).

Definition tmp_fd_alloc (idx : nat) (s : tmpfs) : Z * tmpfs :=
  match position (fun f => negb (fd_used f)) (TMP_FDS s) with
  | Some i => (Z.of_nat i, set_fds s (<[i := mk_TmpFd true (w32 (Z.of_nat idx))]> (TMP_FDS s)))
  | None => (U64_MAX, s)
  end.

Definition tmp_fd_node (fd : Z) (s : tmpfs) : option Z :=
  match lookupZ (TMP_FDS s) fd with
  | Some f => if fd_used f then Some (node f) else None
  | None => None
  end.

Definition tmp_fd_free (fd : Z) (s : tmpfs) : Z * tmpfs :=
  match lookupZ (TMP_FDS s) fd with
  | Some f =>
      if fd_used f then (1, set_fds s (insertZ (TMP_FDS s) fd (mk_TmpFd false (node f)))) else (0, s)
  | None => (0, s)
  end.

(** ** Requests *)

Definition canon (payload : list Z) : option (list Z) := tmp_normalize (cstr payload) TMP_PATH_MAX.

Definition tmp_open (payload : list Z) (s : tmpfs) : Z * tmpfs :=
  match canon payload with
  | Some p => match tmp_find p s with Some idx => tmp_fd_alloc idx s | None => (U64_MAX, s) end
  | None => (U64_MAX, s)
  end.

(** [ReadReq { fd: u32, count: u32, offset: u64, buf: u64 }]. *)
Definition tmp_read (payload : list Z) (m : mem) (s : tmpfs) : Z * mem :=
  let fd := field 0 4 payload in
  let count := field 4 4 payload in
  let offset := field 8 8 payload in
  let buf := field 16 8 payload in
  if U32_MAX <? offset then (U64_MAX, m)
  else match tmp_fd_node fd s with
  | Some idx =>
      match lookupZ (TMP_NODES s) idx with
      | Some nd =>
          if is_dir nd then (U64_MAX, m)
          else if size nd <=? offset then (0, m)
          else
            let cnt := Z.min count (size nd - offset) in
            (cnt, copy_to buf (slice_at (data_off nd + offset) (Z.to_nat cnt) (TMP_DATA s)) m)
      | None => (U64_MAX, m)
      end
  | None => (U64_MAX, m)
  end.

(** The region of a file that must hold [end] bytes: where it is, how large it is, and the
    state after a move to a larger region. *)
Definition grow_region (nd : TmpNode) (end_ : Z) (s : tmpfs) : Z * Z * tmpfs :=
  if cap nd <? end_ then
    match tmp_data_alloc end_ s with
    | Some (o, s') =>
        (o, end_,
         if 0 <? cap nd then
           mk_tmpfs (TMP_NODES s')
             (copy_to o (slice_at (data_off nd) (Z.to_nat (cap nd)) (TMP_DATA s')) (TMP_DATA s'))
             (TMP_DATA_USED s') (TMP_FDS s')
         else s')
    | None => (data_off nd, cap nd, s)
    end
  else (data_off nd, cap nd, s).

Definition tmp_write (payload : list Z) (m : mem) (s : tmpfs) : Z * tmpfs :=
  let fd := field 0 4 payload in
  let count := field 4 4 payload in
  let offset := field 8 8 payload in
  let buf := field 16 8 payload in
  if U32_MAX <? offset then (U64_MAX, s)
  else match tmp_fd_node fd s with
  | Some idx =>
      match lookupZ (TMP_NODES s) idx with
      | Some nd =>
          if is_dir nd then (U64_MAX, s)
          else
            let end_ := offset + count in
            let '(off, c, s') := grow_region nd end_ s in
            if c <? end_ then (U64_MAX, s')
            else
              let nd' := mk_TmpNode (used nd) (is_dir nd) (path_len nd)
                           (if size nd <? w32 end_ then w32 end_ else size nd) (w32 c) (w32 off) (path nd) in
              (count,
               mk_tmpfs (insertZ (TMP_NODES s') idx nd')
                 (copy_to (off + offset) (slice_at buf (Z.to_nat count) m) (TMP_DATA s'))
                 (TMP_DATA_USED s') (TMP_FDS s'))
      | None => (U64_MAX, s)
      end
  | None => (U64_MAX, s)
  end.

(** [DirEntry::short] and [Stat::plain], as their bytes ([repr(C)], 176 and 48 bytes). *)
Definition mode_of (dir : bool) : Z := if dir then 493 else 420.   (* 0o755 / 0o644 *)
Definition flag_of (dir : bool) : Z := if dir then 1 else 0.
Definition dir_entry (name : list Z) (sz : Z) (dir : bool) : list Z :=
  name ++ [0] ++ replicate 3 0 ++ replicate 128 0 ++ [0] ++ to_le 8 sz ++ to_le 4 (flag_of dir)
  ++ to_le 2 (mode_of dir) ++ to_le 2 0 ++ to_le 2 0 ++ to_le 2 0 ++ to_le 4 1 ++ to_le 8 0.
Definition stat_plain (sz : Z) (dir : bool) : list Z :=
  to_le 8 sz ++ to_le 4 (flag_of dir) ++ to_le 2 (mode_of dir) ++ to_le 2 0 ++ to_le 2 0 ++ to_le 2 0
  ++ to_le 4 1 ++ to_le 8 0 ++ to_le 8 0 ++ to_le 8 0.

Definition child_entry (nd : TmpNode) : list Z :=
  dir_entry (tmp_name_83 (node_path nd)) (if is_dir nd then 0 else size nd) (is_dir nd).

Definition tmp_readdir (payload : list Z) (m : mem) (s : tmpfs) : Z * mem :=
  let fd := field 0 4 payload in
  let buf := field 8 8 payload in
  match tmp_fd_node fd s with
  | Some idx =>
      match lookupZ (TMP_NODES s) idx with
      | Some nd =>
          if is_dir nd then
            let entries := take RESULT_MAX_ENTRIES
              (map child_entry (List.filter (is_child (node_path nd)) (TMP_NODES s))) in
            (Z.of_nat (length entries) * 176, copy_to buf (concat entries) m)
          else (U64_MAX, m)
      | None => (U64_MAX, m)
      end
  | None => (U64_MAX, m)
  end.

(** [Some(pidx) if tmp_node_at(pidx).is_dir] on the parent of [p]. *)
Definition parent_is_dir (p : list Z) (s : tmpfs) : bool :=
  match tmp_find (tmp_parent p) s with
  | Some i => match TMP_NODES s !! i with Some nd => is_dir nd | None => false end
  | None => false
  end.

Definition tmp_creat (payload : list Z) (s : tmpfs) : Z * tmpfs :=
  match canon payload with
  | Some p =>
      match tmp_find p s with
      | Some idx =>
          match TMP_NODES s !! idx with
          | Some nd => if is_dir nd then (U64_MAX, s) else tmp_fd_alloc idx s
          | None => (U64_MAX, s)
          end
      | None =>
          if parent_is_dir p s then
            match tmp_alloc_node p false s with
            | (Some idx, s') => tmp_fd_alloc idx s'
            | (None, s') => (U64_MAX, s')
            end
          else (U64_MAX, s)
      end
  | None => (U64_MAX, s)
  end.

Definition tmp_mkdir (payload : list Z) (s : tmpfs) : Z * tmpfs :=
  match canon payload with
  | Some p =>
      if (1 <? length p)%nat && is_none (tmp_find p s) then
        if parent_is_dir p s then
          match tmp_alloc_node p true s with
          | (Some _, s') => (1, s')
          | (None, s') => (U64_MAX, s')
          end
        else (U64_MAX, s)
      else (U64_MAX, s)
  | None => (U64_MAX, s)
  end.

Definition release (nd : TmpNode) : TmpNode :=
  mk_TmpNode false (is_dir nd) (path_len nd) (size nd) (cap nd) (data_off nd) (path nd).

Definition tmp_unlink (payload : list Z) (s : tmpfs) : Z * tmpfs :=
  match canon payload with
  | Some p =>
      match tmp_find p s with
      | Some idx =>
          match TMP_NODES s !! idx with
          | Some nd =>
              if negb (is_dir nd) then (1, set_nodes s (<[idx := release nd]> (TMP_NODES s)))
              else (U64_MAX, s)
          | None => (U64_MAX, s)
          end
      | None => (U64_MAX, s)
      end
  | None => (U64_MAX, s)
  end.

Definition tmp_rmdir (payload : list Z) (s : tmpfs) : Z * tmpfs :=
  match canon payload with
  | Some p =>
      if (1 <? length p)%nat then
        match tmp_find p s with
        | Some idx =>
            match TMP_NODES s !! idx with
            | Some nd =>
                if is_dir nd && tmp_dir_empty p s
                then (1, set_nodes s (<[idx := release nd]> (TMP_NODES s)))
                else (U64_MAX, s)
            | None => (U64_MAX, s)
            end
        | None => (U64_MAX, s)
        end
      else (U64_MAX, s)
  | None => (U64_MAX, s)
  end.

Definition tmp_stat (payload : list Z) (m : mem) (s : tmpfs) : Z * mem :=
  let '(buf, p) := parse_path_req payload m in
  match tmp_normalize p TMP_PATH_MAX with
  | Some p =>
      match tmp_find p s with
      | Some idx =>
          match TMP_NODES s !! idx with
          | Some nd => (48, copy_to buf (stat_plain (size nd) (is_dir nd)) m)
          | None => (U64_MAX, m)
          end
      | None => (U64_MAX, m)
      end
  | None => (U64_MAX, m)
  end.

Definition keep_mem (m : mem) (r : Z * tmpfs) : Z * (mem * tmpfs) := (fst r, (m, snd r)).
Definition keep_fs (s : tmpfs) (r : Z * mem) : Z * (mem * tmpfs) := (fst r, (snd r, s)).

(** One turn of [run]: a message is handled and answered; [m] is the memory the client shares
    with the service. *)
Definition tmp_turn (tag : Z) (payload : list Z) (m : mem) (s : tmpfs) : Z * (mem * tmpfs) :=
  let t := tag_body tag in
  if t =? VFS_OPEN_TAG then keep_mem m (tmp_open payload s)
  else if t =? VFS_READ_TAG then keep_fs s (tmp_read payload m s)
  else if t =? VFS_WRITE_TAG then keep_mem m (tmp_write payload m s)
  else if t =? VFS_READDIR_TAG then keep_fs s (tmp_readdir payload m s)
  else if t =? VFS_CLOSE_TAG then keep_mem m (tmp_fd_free (field 0 4 payload) s)
  else if t =? VFS_CREAT_TAG then keep_mem m (tmp_creat payload s)
  else if t =? VFS_MKDIR_TAG then keep_mem m (tmp_mkdir payload s)
  else if t =? VFS_UNLINK_TAG then keep_mem m (tmp_unlink payload s)
  else if t =? VFS_RMDIR_TAG then keep_mem m (tmp_rmdir payload s)
  else if t =? VFS_STAT_TAG then keep_fs s (tmp_stat payload m s)
  else (U64_MAX, (m, s)).

(** The service after its root is in place. *)
Definition tmp_boot : tmpfs := snd (tmp_alloc_node root true cold).

(** ** The reference normaliser

    A path is a sequence of components; [canonical] walks it with a stack and prints the
    stack. *)

Fixpoint split_slash (bytes : list Z) : list (list Z) :=
  match bytes with
  | [] => [[]]
  | b :: bytes' =>
      if b =? slash then [] :: split_slash bytes'
      else match split_slash bytes' with
           | seg :: segs => (b :: seg) :: segs
           | [] => [[b]]
           end
  end.

Fixpoint walk (segs : list (list Z)) (stack : list (list Z)) : option (list (list Z)) :=
  match segs with
  | [] => Some stack
  | seg :: segs' =>
      if bool_decide (seg = []) || bool_decide (seg = [dot]) then walk segs' stack
      else if bool_decide (seg = [dot; dot]) then walk segs' (removelast stack)
      else comp ← tmp_norm_component seg; walk segs' (stack ++ [comp])
  end.

Definition joined (cs : list (list Z)) : list Z := concat (map (cons slash) cs).
Definition render (cs : list (list Z)) : list Z := match cs with [] => root | _ => joined cs end.

Definition canonical (p : list Z) : option (list Z) :=
  if bool_decide (head p = Some slash) then render <$> walk (split_slash (tail p)) [] else None.

(** A component of the tree: not empty and without a slash. *)
Definition comp_ok (c : list Z) : Prop := c <> [] /\ Forall (fun b => b <> slash) c.

(** ** Lemmas on paths *)

Lemma norm_component_props seg comp :
  tmp_norm_component seg = Some comp ->
  (0 < length comp <= length seg)%nat /\ (length comp <= 12)%nat /\
  (Forall (fun b => b <> slash) seg -> Forall (fun b => b <> slash) comp).
Proof.
  unfold tmp_norm_component. destruct (one_dot seg 0 None) as [d|] eqn:E; cbn [mbind option_bind]; [|done].
  assert (Hd : forall i, d = Some i -> seg !! i = Some dot).
  { intros i ->. revert E.
    enough (H : forall l k d, one_dot l k d = Some (Some i) -> d <> Some i -> (k <= i)%nat /\ l !! (i - k)%nat = Some dot).
    { intros E. destruct (H _ _ _ E ltac:(done)) as [_ H']. by rewrite Nat.sub_0_r in H'. }
    intros l. induction l as [|b l IH]; intros k d' Hl Hne; cbn in Hl; [congruence|].
    destruct (Z.eqb_spec b dot) as [->|].
    - destruct d'; [done|]. destruct (decide (k = i)) as [->|Hk].
      + by rewrite Nat.sub_diag.
      + apply IH in Hl as [H1 H2]; [|congruence]. split; [lia|].
        replace (i - k)%nat with (S (i - S k)) by lia. done.
    - apply IH in Hl as [H1 H2]; [|done]. split; [lia|].
      replace (i - k)%nat with (S (i - S k)) by lia. done. }
  destruct d as [i|].
  - specialize (Hd i eq_refl). pose proof (lookup_lt_Some _ _ _ Hd) as Hi.
    destruct (_ || _) eqn:Eg; [done|]. intros [= <-].
    rewrite !orb_false_iff, !Nat.ltb_ge, bool_decide_eq_false in Eg. destruct Eg as [[Hb H8] H3].
    rewrite length_take in H8. rewrite length_drop in H3. rewrite length_app, length_take.
    assert (i <> 0%nat) by (intros ->; by destruct Hb).
    case_bool_decide as Hx; cbn [length]; rewrite ?length_drop.
    + split_and!; [lia|lia|lia|]. intros Hs. rewrite app_nil_r. by apply Forall_take.
    + split_and!; [lia|lia|lia|]. intros Hs. apply Forall_app; split; [by apply Forall_take|].
      constructor; [done|]. by apply Forall_drop.
  - destruct (_ || _) eqn:Eg; [done|]. intros [= <-].
    rewrite !orb_false_iff, !Nat.ltb_ge, bool_decide_eq_false in Eg. destruct Eg as [[Hb H8] H3].
    rewrite app_nil_r. destruct seg; [done|]. cbn [length] in *. split_and!; [lia|lia|lia|done].
Qed.

Lemma next_segment_spec l seg rest :
  next_segment l = (seg, rest) ->
  l = seg ++ rest /\ Forall (fun b => b <> slash) seg /\
  (rest = [] \/ exists r, rest = slash :: r) /\
  split_slash l = seg :: (match rest with [] => [] | _ :: r => split_slash r end).
Proof.
  revert seg rest. induction l as [|b l IH]; intros seg rest; cbn.
  { intros [= <- <-]. auto. }
  destruct (Z.eqb_spec b slash) as [->|Hb].
  - intros [= <- <-]. split_and!; auto. right. eauto.
  - destruct (next_segment l) as [sg rs]. intros [= <- <-].
    destruct (IH _ _ eq_refl) as (-> & H2 & H3 & H4). rewrite H4. split_and!; auto.
Qed.

Lemma joined_snoc cs c : joined (cs ++ [c]) = joined cs ++ slash :: c.
Proof. unfold joined. rewrite map_app, concat_app. cbn. by rewrite app_nil_r. Qed.

Lemma render_snoc cs c : render (cs ++ [c]) = joined cs ++ slash :: c.
Proof. rewrite <- joined_snoc. unfold render. by destruct cs. Qed.

Lemma last_slash_stop (f : list Z -> nat -> nat) pre c k :
  Forall (fun b => b <> slash) c -> (length pre < k <= length (pre ++ slash :: c))%nat ->
  (forall k', (length pre < k')%nat ->
     f (pre ++ slash :: c) (S k') =
     if bool_decide ((pre ++ slash :: c) !! k' = Some slash) then S k' else f (pre ++ slash :: c) k') ->
  f (pre ++ slash :: c) (S (length pre)) = S (length pre) ->
  f (pre ++ slash :: c) k = S (length pre).
Proof.
  intros Hc Hk Hstep Hend. induction k as [|k IH]; [lia|].
  destruct (decide (k = length pre)) as [->|Hne]; [done|].
  rewrite Hstep by lia. rewrite bool_decide_eq_false_2; [apply IH; lia|].
  rewrite lookup_app_r by lia. destruct (k - length pre)%nat as [|j] eqn:Ej; [lia|]. cbn.
  intros Hj. by apply (proj1 (Forall_lookup _ _) Hc j slash).
Qed.

Lemma lookup_middle_slash (pre c : list Z) : (pre ++ slash :: c) !! length pre = Some slash.
Proof. by rewrite lookup_app_r, Nat.sub_diag by done. Qed.

Lemma after_slash_last pre c k :
  Forall (fun b => b <> slash) c -> (length pre < k <= length (pre ++ slash :: c))%nat ->
  after_slash (pre ++ slash :: c) k = S (length pre).
Proof.
  intros Hc Hk. apply last_slash_stop; [done|done|done|].
  cbn. by rewrite lookup_middle_slash.
Qed.

Lemma back_to_slash_last pre c k :
  Forall (fun b => b <> slash) c -> (length pre < k <= length (pre ++ slash :: c))%nat ->
  back_to_slash (pre ++ slash :: c) k = S (length pre).
Proof.
  intros Hc Hk. apply last_slash_stop; [done|done| |].
  - intros [|k']; [lia|]. done.
  - destruct (length pre) as [|n] eqn:E; [done|]. cbn. rewrite <- E, lookup_middle_slash. done.
Qed.

Lemma comp_ok_nonempty c : comp_ok c -> (0 < length c)%nat.
Proof. intros [H _]. destruct c; [done|]. cbn. lia. Qed.

(** [".."] drops the last component. *)
Lemma pop_render cs : Forall comp_ok cs -> pop_component (render cs) = render (removelast cs).
Proof.
  intros H. destruct cs as [|c cs _] using rev_ind; [done|].
  apply Forall_app in H as [Hcs Hc]. apply Forall_cons_1 in Hc as [Hc _].
  rewrite removelast_last, render_snoc. unfold pop_component.
  pose proof (comp_ok_nonempty _ Hc) as Hn. rewrite length_app. cbn [length].
  destruct (Nat.ltb_spec 1 (length (joined cs) + S (length c))); [|lia].
  rewrite after_slash_last; [|apply Hc|rewrite length_app; cbn; lia].
  destruct cs as [|c0 cs].
  - cbn. done.
  - cbn [render]. set (j := joined (c0 :: cs)).
    destruct (Nat.ltb_spec 1 (S (length j))).
    + rewrite Nat.sub_succ, Nat.sub_0_r. apply take_app_length.
    + unfold j, joined in *. cbn in *. lia.
Qed.

Lemma walk_ok segs stack stack' :
  Forall (Forall (fun b => b <> slash)) segs -> Forall comp_ok stack ->
  walk segs stack = Some stack' -> Forall comp_ok stack'.
Proof.
  revert stack. induction segs as [|seg segs IH]; intros stack Hs Hst; cbn [walk].
  { by intros [= <-]. }
  apply Forall_cons_1 in Hs as [Hseg Hs]. destruct (_ || _); [by apply IH|].
  case_bool_decide.
  { apply IH; [done|]. destruct stack as [|c stack _] using rev_ind; [done|].
    rewrite removelast_last. by apply Forall_app in Hst as [? _]. }
  destruct (tmp_norm_component seg) as [comp|] eqn:E; cbn [mbind option_bind]; [|done].
  apply norm_component_props in E as (H1 & H2 & H3). apply IH; [done|].
  apply Forall_app; split; [done|]. constructor; [|done]. split; [|auto].
  by destruct comp; [cbn in H1; lia|].
Qed.

Lemma split_slash_ok l : Forall (Forall (fun b => b <> slash)) (split_slash l).
Proof.
  induction l as [|b l IH]; cbn; [repeat constructor|].
  destruct (Z.eqb_spec b slash); [by constructor|].
  destruct (split_slash l) as [|seg segs]; [by repeat constructor|].
  apply Forall_cons_1 in IH as [H1 H2]. by repeat constructor.
Qed.

(** Room for a separator is needed only before a component that follows another one. *)
Definition needs_sep (bytes : list Z) : bool :=
  match bytes with [] => false | b :: _ => negb (b =? slash) end.
Definition sep_len (bytes out : list Z) : nat :=
  if (1 <? length out)%nat && needs_sep bytes then 1 else 0.
Definition room (bytes out : list Z) (max : nat) : Prop :=
  (length out + sep_len bytes out + length bytes <= max)%nat.

Lemma length_pop out : (length (pop_component out) <= length out)%nat.
Proof. unfold pop_component. destruct (_ <? _)%nat; [|done]. rewrite length_take. lia. Qed.

(** What follows a segment is empty or starts with a slash, so it needs no separator. *)
Lemma room_rest rest out max :
  rest = [] \/ (exists r, rest = slash :: r) -> (length out + length rest <= max)%nat -> room rest out max.
Proof.
  unfold room, sep_len. intros Hr H.
  assert (needs_sep rest = false) as -> by (by destruct Hr as [->|[r ->]]).
  rewrite andb_false_r. lia.
Qed.

Lemma length_render cs : Forall comp_ok cs -> cs <> [] -> (1 < length (render cs))%nat.
Proof.
  intros H Hne. destruct cs as [|c cs _] using rev_ind; [done|].
  apply Forall_app in H as [_ Hc]. apply Forall_cons_1 in Hc as [Hc _].
  rewrite render_snoc, length_app. pose proof (comp_ok_nonempty _ Hc). cbn. lia.
Qed.

(** Appending a component, with its separator, to the printed stack. *)
Lemma render_append stack comp :
  Forall comp_ok stack ->
  (if (1 <? length (render stack))%nat then render stack ++ [slash] else render stack) ++ comp
  = render (stack ++ [comp]).
Proof.
  intros H. rewrite render_snoc. destruct stack as [|c stack]; [done|].
  pose proof (length_render (c :: stack) H ltac:(done)) as Hl.
  rewrite (proj2 (Nat.ltb_lt _ _) Hl). rewrite <- app_assoc. done.
Qed.

Lemma removelast_ok (stack : list (list Z)) : Forall comp_ok stack -> Forall comp_ok (removelast stack).
Proof.
  destruct stack as [|c stack _] using rev_ind; [done|].
  rewrite removelast_last. by intros [? _]%Forall_app.
Qed.

Lemma norm_component_ok seg comp :
  Forall (fun b => b <> slash) seg -> tmp_norm_component seg = Some comp -> comp_ok comp.
Proof.
  intros Hs E. apply norm_component_props in E as (H1 & _ & H3).
  split; [|auto]. destruct comp; [cbn in H1; lia|done].
Qed.

Lemma normalize_loop_walk fuel bytes stack max :
  (length bytes < fuel)%nat -> Forall comp_ok stack -> room bytes (render stack) max ->
  normalize_loop fuel bytes (render stack) max = render <$> walk (split_slash bytes) stack.
Proof.
  revert bytes stack. induction fuel as [|fuel IH]; intros bytes stack Hf Hst Hroom; [lia|].
  destruct bytes as [|b bytes]; [done|]. cbn [normalize_loop].
  destruct (Z.eqb_spec b slash) as [->|Hb].
  { rewrite IH; [done|cbn in Hf; lia|done|].
    unfold room, sep_len in *. cbn [needs_sep length] in Hroom.
    destruct (_ && needs_sep bytes); lia. }
  destruct (next_segment (b :: bytes)) as [seg rest] eqn:En.
  assert (Hne : seg <> []).
  { cbn in En. destruct (Z.eqb_spec b slash); [done|]. destruct (next_segment bytes). by inv En. }
  destruct (next_segment_spec _ _ _ En) as (Hl & Hseg & Hrest & ->).
  assert (Hlen : length (b :: bytes) = (length seg + length rest)%nat) by (rewrite Hl; apply length_app).
  assert (Hseg0 : (0 < length seg)%nat) by (destruct seg; [done|cbn; lia]).
  (* the rest of the loop sees the remaining segments *)
  assert (Hcont : forall stack', Forall comp_ok stack' ->
            (length (render stack') + length rest <= max)%nat ->
            normalize_loop fuel rest (render stack') max
            = render <$> walk (match rest with [] => [] | _ :: r => split_slash r end) stack').
  { intros stack' Hst' Hle. rewrite IH; [|lia|done|by apply room_rest].
    destruct Hrest as [->|[r ->]]; done. }
  unfold room, sep_len in Hroom. cbn [needs_sep] in Hroom.
  rewrite (proj2 (Z.eqb_neq _ _) Hb), andb_true_r, Hlen in Hroom.
  cbn [walk]. rewrite (bool_decide_eq_false_2 (seg = [])) by done. cbn [orb].
  case_bool_decide; [apply Hcont; [done|lia]|].
  case_bool_decide.
  { rewrite pop_render by done. apply Hcont; [by apply removelast_ok|].
    rewrite <- pop_render by done. pose proof (length_pop (render stack)). lia. }
  destruct (tmp_norm_component seg) as [comp|] eqn:Ec; cbn [mbind option_bind]; [|done].
  destruct (norm_component_props _ _ Ec) as (Hc1 & _ & _).
  pose proof (norm_component_ok _ _ Hseg Ec) as Hcok.
  rewrite <- Hcont.
  2:{ apply Forall_app; auto. }
  2:{ rewrite <- render_append by done. rewrite length_app.
      destruct (_ <? _)%nat; [rewrite length_app; cbn|]; lia. }
  rewrite <- render_append by done. destruct (Nat.ltb_spec 1 (length (render stack))).
  - destruct (Nat.ltb_spec max (length (render stack) + 1)); [lia|]. cbn [mbind option_bind].
    destruct (Nat.ltb_spec max (length (render stack ++ [slash]) + length comp)) as [Hx|]; [|done].
    rewrite length_app in Hx. cbn in Hx. lia.
  - cbn [mbind option_bind].
    destruct (Nat.ltb_spec max (length (render stack) + length comp)); [lia|done].
Qed.

Lemma normalize_eq path max :
  (0 < max)%nat -> (length path <= max)%nat -> tmp_normalize path max = canonical path.
Proof.
  intros Hm Hl. unfold tmp_normalize, canonical.
  destruct (Nat.eqb_spec max 0); [lia|]. rewrite orb_false_r.
  case_bool_decide as Hh; cbn [negb]; [|done].
  destruct path as [|b path]; [done|]. cbn [tail].
  change [slash] with (render []). cbn in Hl.
  apply normalize_loop_walk; [cbn; lia|constructor|].
  unfold room, sep_len. cbn. lia.
Qed.

(** on every path a request can carry (at most [max] bytes), the buffer-based normaliser
    computes what the reference does: the components are folded over a stack, [""] and ["."]
    skipped, [".."] popping (at the root, nothing), every other one checked against the 8.3
    form; the result is the printed stack, and a relative path or a bad component fails. The
    buffer never overflows. *)
Theorem tmp_normalize_canonical path max :
  (0 < max)%nat -> (length path <= max)%nat -> tmp_normalize path max = canonical path.
Proof. apply normalize_eq. Qed.

Lemma tmp_normalize_canonical_witness :
  tmp_normalize [47; 97; 47; 46; 46; 47; 98; 46; 116; 47; 47; 46] 96 = Some [47; 98; 46; 116] /\
  canonical [47; 97; 47; 46; 46; 47; 98; 46; 116; 47; 47; 46] = Some [47; 98; 46; 116].
Proof.
  assert (E : tmp_normalize [47; 97; 47; 46; 46; 47; 98; 46; 116; 47; 47; 46] 96 = Some [47; 98; 46; 116])
    by (vm_compute; reflexivity).
  split; [exact E|]. rewrite <- (tmp_normalize_canonical _ 96); [exact E|lia|cbn; lia].
Defined.

(** ** The tree

    The tree a state represents maps each path to whether it is a directory. *)

Definition node_binding (nd : TmpNode) : option (list Z * bool) :=
  if used nd then Some (node_path nd, is_dir nd) else None.
Definition tree (s : tmpfs) : gmap (list Z) bool := slot_map node_binding (TMP_NODES s).

(** [q] is the entry [c] of the directory [p]. *)
Definition child_of (q p : list Z) : Prop :=
  exists cs c, Forall comp_ok cs /\ comp_ok c /\ p = render cs /\ q = render (cs ++ [c]).

(** The root is a directory, and every other path is an entry of a directory of the tree. *)
Definition tree_ok (t : gmap (list Z) bool) : Prop :=
  t !! root = Some true /\
  forall q b, t !! q = Some b -> q = root \/ exists p, child_of q p /\ t !! p = Some true.

Lemma back_over_step p n :
  back_over_slash p (S (S n)) =
  if bool_decide (p !! S n = Some slash) then back_over_slash p (S n) else S (S n).
Proof. done. Qed.

Lemma parent_render cs c : Forall comp_ok cs -> comp_ok c -> tmp_parent (render (cs ++ [c])) = render cs.
Proof.
  intros Hcs Hc. rewrite render_snoc. unfold tmp_parent.
  rewrite back_to_slash_last; [|apply Hc|rewrite length_app; cbn; lia].
  destruct cs as [|c0 cs]; [done|]. cbn [render].
  set (pre := joined (c0 :: cs)).
  assert (Hp : (0 < length pre)%nat /\ forall b, pre !! (length pre - 1)%nat = Some b -> b <> slash).
  { unfold pre. destruct (exists_last (l := c0 :: cs)) as (l & c1 & E); [done|].
    rewrite E, joined_snoc, length_app. cbn [length]. split; [lia|]. intros b Hb.
    rewrite E in Hcs. apply Forall_app in Hcs as [_ Hc1]. apply Forall_cons_1 in Hc1 as [[Hn Hf] _].
    destruct (exists_last Hn) as (c2 & x & ->).
    rewrite lookup_app_r in Hb by lia. rewrite length_app in Hb. cbn in Hb.
    replace (length (joined l) + S (length c2 + 1) - 1 - length (joined l))%nat with (S (length c2)) in Hb by lia.
    change ((c2 ++ [x]) !! length c2 = Some b) in Hb. rewrite lookup_app_r, Nat.sub_diag in Hb by done. inv Hb.
    apply Forall_app in Hf as [_ Hf]. by apply Forall_cons_1 in Hf as [? _]. }
  destruct Hp as [Hp Hlast].
  destruct (length pre) as [|n] eqn:En; [lia|]. rewrite back_over_step.
  rewrite <- En, lookup_middle_slash, bool_decide_eq_true_2 by done. rewrite En.
  assert (Hs : back_over_slash (pre ++ slash :: c) (S n) = S n).
  { destruct n as [|n]; [done|]. rewrite back_over_step, bool_decide_eq_false_2; [done|].
    rewrite lookup_app_l by lia. intros Hb. apply (Hlast slash); [|done].
    by replace (S (S n) - 1)%nat with (S n) by lia. }
  rewrite Hs. cbn [Nat.eqb]. rewrite <- En. apply take_app_length.
Qed.

Lemma child_parent q p : child_of q p -> tmp_parent q = p.
Proof. intros (cs & c & Hcs & Hc & -> & ->). by apply parent_render. Qed.

Lemma child_not_root q p : child_of q p -> (1 < length q)%nat.
Proof.
  intros (cs & c & Hcs & Hc & -> & ->). apply length_render; [|by destruct cs].
  apply Forall_app; auto.
Qed.

Lemma child_ne q p : child_of q p -> q <> p.
Proof.
  intros (cs & c & Hcs & Hc & -> & ->) E. apply (f_equal length) in E.
  rewrite render_snoc, length_app in E. pose proof (comp_ok_nonempty _ Hc).
  destruct cs; cbn in E; lia.
Qed.

(** A printed stack is the root or an entry of the directory one level up. *)
Lemma render_cases cs : Forall comp_ok cs -> render cs = root \/ exists p, child_of (render cs) p.
Proof.
  intros H. destruct cs as [|c cs _] using rev_ind; [by left|]. right.
  apply Forall_app in H as [Hcs Hc]. apply Forall_cons_1 in Hc as [Hc _].
  exists (render cs), cs, c. done.
Qed.

Lemma normalize_loop_bound fuel bytes out max r :
  (length out <= max)%nat -> normalize_loop fuel bytes out max = Some r -> (length r <= max)%nat.
Proof.
  revert bytes out. induction fuel as [|fuel IH]; intros bytes out Ho; [done|]. cbn [normalize_loop].
  destruct bytes as [|b bytes]; [by intros [= <-]|].
  destruct (b =? slash); [by apply IH|]. destruct (next_segment (b :: bytes)) as [seg rest].
  case_bool_decide; [by apply IH|].
  case_bool_decide; [apply IH; pose proof (length_pop out); lia|].
  destruct (tmp_norm_component seg) as [comp|]; cbn [mbind option_bind]; [|done].
  destruct (if (1 <? length out)%nat then _ else _) as [out'|]; cbn [mbind option_bind]; [|done].
  destruct (Nat.ltb_spec max (length out' + length comp)); [done|]. apply IH. rewrite length_app. lia.
Qed.

Lemma normalized_path p q :
  (length p <= TMP_PATH_MAX)%nat -> tmp_normalize p TMP_PATH_MAX = Some q ->
  canonical p = Some q /\ (length q <= TMP_PATH_MAX)%nat /\ (q = root \/ exists d, child_of q d).
Proof.
  intros Hl E. assert (H0 : (0 < TMP_PATH_MAX)%nat) by (unfold TMP_PATH_MAX, PAYLOAD_LEN; lia).
  split; [rewrite <- E; symmetry; by apply normalize_eq|]. split.
  - unfold tmp_normalize in E. destruct (_ || _); [done|].
    eapply normalize_loop_bound; [|exact E]. cbn. unfold TMP_PATH_MAX, PAYLOAD_LEN. lia.
  - rewrite normalize_eq in E by done.
    unfold canonical in E. case_bool_decide; [|done].
    destruct (walk _ []) as [cs|] eqn:Ew; [|done]. inv E. apply render_cases.
    eapply walk_ok; [|constructor|exact Ew]. apply split_slash_ok.
Qed.

(** ** Invariants *)

Definition node_shape (nd : TmpNode) : Prop :=
  length (path nd) = TMP_PATH_MAX /\ 0 <= path_len nd <= 96.

(** The data regions of the nodes (in use or not, since a descriptor may outlive its file) lie
    below the bump pointer and do not overlap; everything above it is still zero. *)
Definition regions_apart (nd nd' : TmpNode) : Prop :=
  cap nd = 0 \/ cap nd' = 0 \/ data_off nd + cap nd <= data_off nd' \/ data_off nd' + cap nd' <= data_off nd.

Record data_ok (nodes : list TmpNode) (data : mem) (used_ : Z) : Prop := {
  do_used : 0 <= used_ <= TMP_DATA_CAP;
  do_region i nd : nodes !! i = Some nd ->
    0 <= cap nd /\ size nd = cap nd /\ 0 <= data_off nd /\ data_off nd + cap nd <= used_;
  do_apart i j nd nd' : nodes !! i = Some nd -> nodes !! j = Some nd' -> i <> j -> regions_apart nd nd';
  do_fresh a : used_ <= a -> data a = 0
}.

Record tmp_inv (s : tmpfs) : Prop := {
  ti_nodes : length (TMP_NODES s) = TMP_MAX_NODES;
  ti_fds : length (TMP_FDS s) = TMP_MAX_FD;
  ti_shape : Forall node_shape (TMP_NODES s);
  ti_distinct : distinct node_binding (TMP_NODES s);
  ti_tree : tree_ok (tree s);
  ti_targets i f : TMP_FDS s !! i = Some f -> 0 <= node f < 32;
  ti_data : data_ok (TMP_NODES s) (TMP_DATA s) (TMP_DATA_USED s)
}.

(** The bytes of a file. *)
Definition content (s : tmpfs) (nd : TmpNode) : list Z :=
  slice_at (data_off nd) (Z.to_nat (size nd)) (TMP_DATA s).

(** ** What the requests do to the tree *)

Inductive tree_request : Type :=
| ReqMkdir (p : list Z) | ReqCreat (p : list Z) | ReqUnlink (p : list Z) | ReqRmdir (p : list Z) | ReqOther.

Definition tree_request_of (tag : Z) (payload : list Z) : tree_request :=
  let t := tag_body tag in
  if t =? VFS_CREAT_TAG then ReqCreat (cstr payload)
  else if t =? VFS_MKDIR_TAG then ReqMkdir (cstr payload)
  else if t =? VFS_UNLINK_TAG then ReqUnlink (cstr payload)
  else if t =? VFS_RMDIR_TAG then ReqRmdir (cstr payload)
  else ReqOther.

(** A path can be added: it is canonical, not there, its parent is a directory and there is a
    free slot. *)
Definition can_add (t : gmap (list Z) bool) (p q : list Z) : Prop :=
  canonical p = Some q /\ t !! q = None /\ (exists d, child_of q d /\ t !! d = Some true) /\
  (base.size t < TMP_MAX_NODES)%nat.

(** The lowest free descriptor, and the answer of a request that opens a file. *)
Definition free_fd (s : tmpfs) : option nat := position (fun f => negb (fd_used f)) (TMP_FDS s).
Definition fd_reply (free : option nat) : Z := match free with Some i => Z.of_nat i | None => U64_MAX end.

(** What a request does to the tree and answers; [free] is the lowest free descriptor. A file that
    can be created is created also if no descriptor is left to open it: then, and only then, a
    request that is answered [U64_MAX] changes the tree. *)
Inductive tree_step (t : gmap (list Z) bool) (free : option nat) : tree_request -> Z -> gmap (list Z) bool -> Prop :=
| step_mkdir p q : can_add t p q -> tree_step t free (ReqMkdir p) 1 (<[q := true]> t)
| step_mkdir_refused p : (forall q, ~ can_add t p q) -> tree_step t free (ReqMkdir p) U64_MAX t
| step_creat p q : can_add t p q -> tree_step t free (ReqCreat p) (fd_reply free) (<[q := false]> t)
| step_creat_exists p q :
    canonical p = Some q -> t !! q = Some false -> tree_step t free (ReqCreat p) (fd_reply free) t
| step_creat_refused p :
    (forall q, ~ can_add t p q) -> (forall q, canonical p = Some q -> t !! q <> Some false) ->
    tree_step t free (ReqCreat p) U64_MAX t
| step_unlink p q :
    canonical p = Some q -> t !! q = Some false -> tree_step t free (ReqUnlink p) 1 (delete q t)
| step_unlink_refused p :
    (forall q, canonical p = Some q -> t !! q <> Some false) -> tree_step t free (ReqUnlink p) U64_MAX t
| step_rmdir p q :
    canonical p = Some q -> q <> root -> t !! q = Some true ->
    (forall c b, t !! c = Some b -> ~ child_of c q) -> tree_step t free (ReqRmdir p) 1 (delete q t)
| step_rmdir_refused p :
    (forall q, canonical p = Some q -> q = root \/ t !! q <> Some true \/
       exists c b, t !! c = Some b /\ child_of c q) -> tree_step t free (ReqRmdir p) U64_MAX t
| step_other r : tree_step t free ReqOther r t.

(** ** Lemmas on the tree *)

Lemma tmp_find_key p s : tmp_find p s = find_key node_binding p (TMP_NODES s).
Proof. apply position_ext. intros nd. unfold holds_key, node_binding. by destruct (used nd). Qed.

Lemma tmp_find_Some p s i :
  tmp_inv s -> tmp_find p s = Some i ->
  exists nd, TMP_NODES s !! i = Some nd /\ used nd = true /\ node_path nd = p /\
             tree s !! p = Some (is_dir nd).
Proof.
  intros Hinv. rewrite tmp_find_key. intros (nd & v & Hi & Hb)%find_key_Some. exists nd.
  pose proof (slot_map_slot _ _ _ _ _ _ (ti_distinct _ Hinv) Hi Hb) as Hs.
  unfold node_binding in Hb. destruct (used nd); [|done]. by inv Hb.
Qed.

Lemma tmp_find_None p s : tmp_find p s = None <-> tree s !! p = None.
Proof. rewrite tmp_find_key. apply find_key_None. Qed.

Lemma parent_is_dir_spec q d s :
  tmp_inv s -> child_of q d -> parent_is_dir q s = true <-> tree s !! d = Some true.
Proof.
  intros Hinv Hc. unfold parent_is_dir. rewrite (child_parent _ _ Hc).
  destruct (tmp_find d s) as [i|] eqn:Ef.
  - destruct (tmp_find_Some _ _ _ Hinv Ef) as (nd & -> & _ & _ & ->). split; congruence.
  - apply tmp_find_None in Ef. rewrite Ef. split; congruence.
Qed.

Lemma tree_ok_add t q d b :
  tree_ok t -> child_of q d -> t !! d = Some true -> t !! q = None -> tree_ok (<[q := b]> t).
Proof.
  intros [Hr Ht] Hc Hd Hq. split.
  - rewrite lookup_insert_ne; [done|]. congruence.
  - intros q' b' Hq'. destruct (decide (q = q')) as [<-|Hne].
    + right. exists d. split; [done|]. rewrite lookup_insert_ne by congruence. done.
    + rewrite lookup_insert_ne in Hq' by done. destruct (Ht q' b' Hq') as [?|(p & Hp & Htp)]; [auto|].
      right. exists p. split; [done|]. rewrite lookup_insert_ne by congruence. done.
Qed.

Lemma tree_ok_delete t q :
  tree_ok t -> q <> root -> (forall c b, t !! c = Some b -> child_of c q -> False) ->
  tree_ok (delete q t).
Proof.
  intros [Hr Ht] Hq Hno. split; [by rewrite lookup_delete_ne|].
  intros q' b'. rewrite lookup_delete_Some. intros [Hne Hq'].
  destruct (Ht q' b' Hq') as [?|(p & Hp & Htp)]; [auto|]. right. exists p. split; [done|].
  rewrite lookup_delete_ne; [done|]. intros <-. exact (Hno _ _ Hq' Hp).
Qed.

(** A file has no entries. *)
Lemma file_childless t q : tree_ok t -> t !! q = Some false -> forall c b, t !! c = Some b -> ~ child_of c q.
Proof.
  intros [Hr Ht] Hq c b Hc Hch. destruct (Ht c b Hc) as [->|(p & Hp & Htp)].
  - apply child_not_root in Hch. cbn in Hch. lia.
  - apply child_parent in Hch. apply child_parent in Hp. congruence.
Qed.

Lemma tree_lookup_slot s i nd :
  tmp_inv s -> TMP_NODES s !! i = Some nd -> used nd = true -> tree s !! node_path nd = Some (is_dir nd).
Proof.
  intros Hinv Hi Hu. eapply slot_map_slot; [apply Hinv|done|]. unfold node_binding. by rewrite Hu.
Qed.

Lemma is_child_spec s i nd q :
  tmp_inv s -> TMP_NODES s !! i = Some nd ->
  is_child q nd = true <-> used nd = true /\ child_of (node_path nd) q.
Proof.
  intros Hinv Hi. unfold is_child. rewrite !andb_true_iff, negb_true_iff, bool_decide_eq_false, bool_decide_eq_true.
  split.
  - intros [[Hu Hne] Hp]. split; [done|].
    pose proof (tree_lookup_slot s i nd Hinv Hi Hu) as Ht.
    destruct (proj2 (ti_tree _ Hinv) _ _ Ht) as [E|(p & Hc & _)].
    + rewrite E in Hp, Hne. by destruct Hne.
    + rewrite (child_parent _ _ Hc) in Hp. by subst p.
  - intros [Hu Hc]. split_and!; [done|by apply child_ne|by apply child_parent].
Qed.

Lemma dir_empty_spec q s :
  tmp_inv s -> tmp_dir_empty q s = true <-> forall c b, tree s !! c = Some b -> ~ child_of c q.
Proof.
  intros Hinv. unfold tmp_dir_empty. rewrite negb_true_iff, <- not_true_iff_false, existsb_exists. split.
  - intros H c b (i & nd & Hi & Hb)%slot_map_inv Hc. apply H. exists nd.
    split; [apply list_elem_of_In; by eapply list_elem_of_lookup_2|].
    unfold node_binding in Hb. destruct (used nd) eqn:Hu; [|done]. inv Hb.
    by apply (is_child_spec s i nd q Hinv Hi).
  - intros H (nd & Hin & Hc). apply list_elem_of_In, list_elem_of_lookup in Hin as [i Hi].
    apply (is_child_spec s i nd q Hinv Hi) in Hc as [Hu Hc].
    by eapply H; [eapply tree_lookup_slot|].
Qed.

(** ** Preservation *)

Lemma data_ok_insert nodes data u i nd :
  data_ok nodes data u ->
  0 <= cap nd /\ size nd = cap nd /\ 0 <= data_off nd /\ data_off nd + cap nd <= u ->
  (forall j nd', j <> i -> nodes !! j = Some nd' -> regions_apart nd nd') ->
  data_ok (<[i := nd]> nodes) data u.
Proof.
  intros [H1 H2 H3 H4] Hr Ha. split; [done| |  |done].
  - intros j nd' Hj. apply list_lookup_insert_Some in Hj as [(-> & -> & _)|[_ Hj]]; eauto.
  - intros j k nd1 nd2 Hj Hk Hne.
    apply list_lookup_insert_Some in Hj as [(-> & -> & _)|[Hn1 Hj]];
      apply list_lookup_insert_Some in Hk as [(-> & -> & _)|[Hn2 Hk]]; try done.
    + eapply Ha; eauto.
    + specialize (Ha j nd1 (not_eq_sym Hn1) Hj). unfold regions_apart in *. tauto.
    + eauto.
Qed.

Lemma inv_set_fds s l :
  tmp_inv s -> length l = TMP_MAX_FD -> (forall i f, l !! i = Some f -> 0 <= node f < 32) ->
  tmp_inv (set_fds s l).
Proof. intros [H1 H2 H3 H4 H5 H6 H7] Hl Ht. by split. Qed.

Lemma fd_alloc_inv idx s :
  tmp_inv s -> (idx < TMP_MAX_NODES)%nat ->
  tmp_inv (snd (tmp_fd_alloc idx s)) /\ TMP_NODES (snd (tmp_fd_alloc idx s)) = TMP_NODES s.
Proof.
  intros Hinv Hidx. unfold tmp_fd_alloc. destruct (position _ _) as [i|]; [|done]. cbn [snd].
  split; [|done]. apply inv_set_fds; [done|by rewrite length_insert, (ti_fds _ Hinv)|].
  intros j f Hj. apply list_lookup_insert_Some in Hj as [(_ & <- & _)|[_ Hj]]; [|by eapply ti_targets].
  cbn [node]. unfold w32, TMP_MAX_NODES in *. rewrite Z.mod_small; lia.
Qed.

Lemma fd_alloc_reply idx s : fst (tmp_fd_alloc idx s) = fd_reply (free_fd s).
Proof. unfold tmp_fd_alloc, free_fd. by destruct (position _ _). Qed.
Lemma alloc_node_fds p dir s : TMP_FDS (snd (tmp_alloc_node p dir s)) = TMP_FDS s.
Proof. unfold tmp_alloc_node. destruct (_ || _); [done|]. by destruct (position _ _). Qed.

Lemma fd_free_inv fd s :
  tmp_inv s -> tmp_inv (snd (tmp_fd_free fd s)) /\ TMP_NODES (snd (tmp_fd_free fd s)) = TMP_NODES s.
Proof.
  intros Hinv. unfold tmp_fd_free. destruct (lookupZ (TMP_FDS s) fd) as [f|] eqn:E; [|done].
  destruct (fd_used f); [|done]. cbn [snd]. split; [|done].
  apply inv_set_fds; [done|by rewrite length_insertZ, (ti_fds _ Hinv)|].
  intros j g Hj. unfold insertZ in Hj. destruct (_ && _); [|by eapply ti_targets].
  apply list_lookup_insert_Some in Hj as [(_ & <- & _)|[_ Hj]]; [|by eapply ti_targets].
  apply lookupZ_Some in E as [_ E]. cbn. by eapply ti_targets in E.
Qed.

Lemma free_node s :
  position (fun nd => negb (used nd)) (TMP_NODES s)
  = position (fun nd => is_none (node_binding nd)) (TMP_NODES s).
Proof. apply position_ext. intros nd. unfold node_binding. by destruct (used nd). Qed.

Lemma alloc_node_inv q d dir s :
  tmp_inv s -> (length q <= TMP_PATH_MAX)%nat -> child_of q d -> tree s !! d = Some true ->
  tree s !! q = None ->
  match tmp_alloc_node q dir s with
  | (Some i, s') =>
      tmp_inv s' /\ tree s' = <[q := dir]> (tree s) /\ (i < TMP_MAX_NODES)%nat /\
      (base.size (tree s) < TMP_MAX_NODES)%nat
  | (None, s') => s' = s /\ (TMP_MAX_NODES <= base.size (tree s))%nat
  end.
Proof.
  intros Hinv Hl Hc Hd Hq. pose proof Hinv as [H1 H2 H3 H4 H5 H6 H7]. unfold tmp_alloc_node.
  pose proof (child_not_root _ _ Hc) as Hlen.
  rewrite (bool_decide_eq_false_2 (q = [])) by (intros ->; cbn in Hlen; lia).
  destruct (Nat.ltb_spec TMP_PATH_MAX (length q)); [lia|]. cbn [orb]. rewrite free_node.
  unfold tree. rewrite slot_map_size by done.
  destruct (position _ _) as [i|] eqn:Ep.
  2:{ split; [done|]. apply bindings_full in Ep. lia. }
  pose proof (bindings_free _ _ _ Ep) as Hfree.
  apply position_Some in Ep as [[nd [Hi Hu]] _].
  assert (Hb : node_binding nd = None) by (by destruct (node_binding nd)).
  rewrite (alter_insert _ _ _ _ Hi). set (nd' := mk_TmpNode _ _ _ _ _ _ _).
  assert (Hw : w8 (Z.of_nat (length q)) = Z.of_nat (length q))
    by (unfold w8, TMP_PATH_MAX, PAYLOAD_LEN in *; rewrite Z.mod_small; lia).
  assert (Hp : node_path nd' = q).
  { unfold node_path, nd'. cbn [path_len path]. rewrite Hw, Nat2Z.id. apply take_app_length. }
  assert (Hb' : node_binding nd' = Some (q, dir)) by (unfold node_binding; cbn [used nd']; by rewrite Hp).
  destruct (slot_map_fill node_binding _ _ _ nd' _ _ Hi Hb Hb' H4 Hq) as [Hdist Hmap].
  split_and!; [|exact Hmap|by apply lookup_lt_Some in Hi; lia|lia].
  split; cbn [TMP_NODES TMP_FDS TMP_DATA TMP_DATA_USED set_nodes].
  - by rewrite length_insert.
  - done.
  - apply Forall_insert; [done|]. pose proof (proj1 (Forall_lookup _ _) H3 i nd Hi) as [Hs1 Hs2].
    split; cbn [path path_len nd'].
    + rewrite length_app, length_drop. lia.
    + rewrite Hw. unfold TMP_PATH_MAX, PAYLOAD_LEN in *. lia.
  - done.
  - unfold tree. cbn [TMP_NODES set_nodes]. rewrite Hmap. by eapply tree_ok_add.
  - done.
  - apply data_ok_insert; [done| |].
    + cbn. pose proof (do_used _ _ _ H7). lia.
    + intros j nd2 _ _. by left.
Qed.

Lemma release_inv s i nd :
  tmp_inv s -> TMP_NODES s !! i = Some nd -> used nd = true -> node_path nd <> root ->
  (forall c b, tree s !! c = Some b -> ~ child_of c (node_path nd)) ->
  let s' := set_nodes s (<[i := release nd]> (TMP_NODES s)) in
  tmp_inv s' /\ tree s' = delete (node_path nd) (tree s).
Proof.
  intros Hinv Hi Hu Hroot Hno s'. pose proof Hinv as [H1 H2 H3 H4 H5 H6 H7].
  assert (Hb : node_binding nd = Some (node_path nd, is_dir nd)) by (unfold node_binding; by rewrite Hu).
  destruct (slot_map_clear node_binding _ _ _ (release nd) _ _ Hi Hb eq_refl H4) as [Hdist Hmap].
  split; [|exact Hmap]. split; unfold s'; cbn [TMP_NODES TMP_FDS TMP_DATA TMP_DATA_USED set_nodes].
  - by rewrite length_insert.
  - done.
  - apply Forall_insert; [done|]. exact (proj1 (Forall_lookup _ _) H3 i nd Hi).
  - done.
  - unfold tree. cbn [TMP_NODES set_nodes]. rewrite Hmap. apply tree_ok_delete; [done|done|].
    intros c b Hc Hch. by eapply Hno.
  - done.
  - apply data_ok_insert; [done|exact (do_region _ _ _ H7 _ _ Hi)|].
    intros j nd2 Hne Hj. exact (do_apart _ _ _ H7 _ _ _ _ Hi Hj (not_eq_sym Hne)).
Qed.

(** ** File contents *)

(** [bs] written over [l] at [off]; a gap is filled with zeros. *)
Definition splice (l : list Z) (off : nat) (bs : list Z) : list Z :=
  take off (l ++ replicate (off - length l) 0) ++ bs ++ drop (off + length bs) l.

Lemma lookup_splice l off bs i :
  splice l off bs !! i =
  if (i <? off)%nat then (if (i <? length l)%nat then l !! i else Some 0)
  else if (i <? off + length bs)%nat then bs !! (i - off)%nat else l !! i.
Proof.
  unfold splice.
  assert (Hlen : length (take off (l ++ replicate (off - length l) 0)) = off)
    by (rewrite length_take, length_app, length_replicate; lia).
  destruct (Nat.ltb_spec i off).
  - rewrite lookup_app_l by lia. rewrite lookup_take_lt by lia.
    destruct (Nat.ltb_spec i (length l)); [by rewrite lookup_app_l|].
    rewrite lookup_app_r by lia. apply lookup_replicate. lia.
  - rewrite lookup_app_r, Hlen by lia. destruct (Nat.ltb_spec i (off + length bs)).
    + rewrite lookup_app_l by lia. done.
    + rewrite lookup_app_r by lia. rewrite lookup_drop. f_equal. lia.
Qed.

Lemma field_nonneg off n payload : Forall is_byte payload -> 0 <= field off n payload.
Proof.
  intros H. unfold field. apply from_le_bound. by apply Forall_take, Forall_drop.
Qed.

Lemma tmp_fd_node_spec fd s idx :
  tmp_inv s -> tmp_fd_node fd s = Some idx -> exists nd, lookupZ (TMP_NODES s) idx = Some nd.
Proof.
  intros Hinv. unfold tmp_fd_node. destruct (lookupZ (TMP_FDS s) fd) as [f|] eqn:E; [|done].
  destruct (fd_used f); [|done]. intros [= <-]. apply lookupZ_Some in E as [_ E].
  apply (ti_targets _ Hinv) in E. pose proof (ti_nodes _ Hinv) as Hn. unfold TMP_MAX_NODES in Hn.
  destruct (lookupZ (TMP_NODES s) (node f)) eqn:El; [eauto|]. apply lookupZ_None in El. lia.
Qed.

(** Where the bytes of a file are after room was made for [end_] of them. *)
Lemma grow_region_spec s idx nd end_ off c s1 :
  data_ok (TMP_NODES s) (TMP_DATA s) (TMP_DATA_USED s) -> TMP_NODES s !! idx = Some nd -> 0 <= end_ ->
  grow_region nd end_ s = (off, c, s1) ->
  TMP_NODES s1 = TMP_NODES s /\ TMP_FDS s1 = TMP_FDS s /\
  (if c <? end_ then s1 = s
   else
     c = Z.max (cap nd) end_ /\ 0 <= off /\ off + c <= TMP_DATA_USED s1 /\
     data_ok (TMP_NODES s) (TMP_DATA s1) (TMP_DATA_USED s1) /\
     (forall k, 0 <= k < c ->
        TMP_DATA s1 (off + k) = if k <? cap nd then TMP_DATA s (data_off nd + k) else 0) /\
     (forall j nd', j <> idx -> TMP_NODES s !! j = Some nd' -> forall k, 0 <= k < cap nd' ->
        TMP_DATA s1 (data_off nd' + k) = TMP_DATA s (data_off nd' + k) /\
        (data_off nd' + k < off \/ off + c <= data_off nd' + k))).
Proof.
  intros Hd Hi He. pose proof Hd as [Hu Hreg Hap Hfr].
  destruct (Hreg _ _ Hi) as (Hc & Hsz & Ho & Hoc). unfold grow_region.
  destruct (Z.ltb_spec (cap nd) end_) as [Hlt|Hge].
  2:{ intros [= <- <- <-]. destruct (Z.ltb_spec (cap nd) end_); [lia|].
      split_and!; try done; try lia.
      - intros k Hk. by rewrite (proj2 (Z.ltb_lt _ _)) by lia.
      - intros j nd' Hne Hj k Hk. split; [done|].
        destruct (Hap _ _ _ _ Hi Hj (not_eq_sym Hne)) as [?|[?|[?|?]]]; lia. }
  unfold tmp_data_alloc. destruct (Z.ltb_spec TMP_DATA_CAP (TMP_DATA_USED s + end_)) as [Hf|Hf].
  { intros [= <- <- <-]. destruct (Z.ltb_spec (cap nd) end_); [done|lia]. }
  set (u := TMP_DATA_USED s) in *. cbn [TMP_NODES TMP_DATA TMP_DATA_USED TMP_FDS].
  set (data' := if 0 <? cap nd then copy_to u (slice_at (data_off nd) (Z.to_nat (cap nd)) (TMP_DATA s)) (TMP_DATA s)
                else TMP_DATA s).
  intros E.
  assert (off = u /\ c = end_ /\ TMP_NODES s1 = TMP_NODES s /\ TMP_FDS s1 = TMP_FDS s /\
          TMP_DATA s1 = data' /\ TMP_DATA_USED s1 = u + end_) as (-> & -> & En & Ef & Ed & Eu).
  { unfold data'. destruct (0 <? cap nd); injection E as <- <- <-; done. }
  rewrite En, Ef, Ed, Eu. rewrite (proj2 (Z.ltb_ge end_ end_)) by lia.
  assert (Hin : forall k, 0 <= k < end_ -> data' (u + k) = if k <? cap nd then TMP_DATA s (data_off nd + k) else 0).
  { intros k Hk. unfold data'. destruct (Z.ltb_spec 0 (cap nd)).
    - destruct (Z.ltb_spec k (cap nd)).
      + replace (u + k) with (u + Z.of_nat (Z.to_nat k)) by lia. apply copy_to_in.
        rewrite lookup_slice_at by lia. do 2 f_equal. lia.
      + rewrite copy_to_out by (rewrite length_slice_at; lia). apply Hfr. lia.
    - destruct (Z.ltb_spec k (cap nd)); [lia|]. apply Hfr. lia. }
  assert (Hout : forall a, a < u \/ u + end_ <= a -> data' a = TMP_DATA s a).
  { intros a Ha. unfold data'. destruct (Z.ltb_spec 0 (cap nd)); [|done].
    apply copy_to_out. rewrite length_slice_at. lia. }
  split_and!; try done; try lia.
  - split; [lia| |done|].
    + intros j nd' Hj. destruct (Hreg _ _ Hj) as (? & ? & ? & ?). lia.
    + intros a Ha. rewrite Hout by lia. apply Hfr. lia.
  - intros j nd' Hne Hj k Hk. destruct (Hreg _ _ Hj) as (? & ? & ? & ?).
    split; [apply Hout; lia|lia].
Qed.

Lemma lookup_slice_at_ge p n m (i : nat) : (n <= i)%nat -> slice_at p n m !! i = None.
Proof. intros H. apply lookup_ge_None. by rewrite length_slice_at. Qed.

(** The bytes of a grown region with [bs] copied in are the old bytes with [bs] spliced in. *)
Lemma splice_region (old new : mem) o off capn c offset bs :
  0 <= capn <= c -> 0 <= offset -> offset + Z.of_nat (length bs) <= c ->
  c = Z.max capn (offset + Z.of_nat (length bs)) ->
  (forall k, 0 <= k < c -> new (off + k) = if k <? capn then old (o + k) else 0) ->
  slice_at off (Z.to_nat c) (copy_to (off + offset) bs new)
  = splice (slice_at o (Z.to_nat capn) old) (Z.to_nat offset) bs.
Proof.
  intros Hc Ho Hle Hmax Hnew. apply list_eq. intros i.
  rewrite lookup_splice, length_slice_at.
  destruct (decide (Z.of_nat i < c)) as [Hi|Hi].
  - rewrite lookup_slice_at by lia.
    destruct (Nat.ltb_spec i (Z.to_nat offset)).
    + rewrite copy_to_out by lia. rewrite Hnew by lia.
      destruct (Z.ltb_spec (Z.of_nat i) capn), (Nat.ltb_spec i (Z.to_nat capn)); try lia; [|done].
      by rewrite lookup_slice_at by lia.
    + destruct (Nat.ltb_spec i (Z.to_nat offset + length bs)).
      * destruct (lookup_lt_is_Some_2 bs (i - Z.to_nat offset)) as [x Hx]; [lia|]. rewrite Hx. f_equal.
        replace (off + Z.of_nat i) with (off + offset + Z.of_nat (i - Z.to_nat offset)) by lia.
        by apply copy_to_in.
      * rewrite copy_to_out by lia. rewrite Hnew by lia. rewrite (proj2 (Z.ltb_lt _ _)) by lia.
        by rewrite lookup_slice_at by lia.
  - rewrite lookup_slice_at_ge by lia.
    destruct (Nat.ltb_spec i (Z.to_nat offset)); [lia|].
    destruct (Nat.ltb_spec i (Z.to_nat offset + length bs)); [lia|].
    symmetry. apply lookup_slice_at_ge. lia.
Qed.

(** What a write did: it was refused and changed nothing, or it spliced the bytes into the file
    behind the descriptor and left every other node and its bytes alone. *)
Definition write_refused (payload : list Z) (s : tmpfs) : Prop :=
  let fd := field 0 4 payload in
  let end_ := field 8 8 payload + field 4 4 payload in
  U32_MAX < field 8 8 payload \/ tmp_fd_node fd s = None \/
  exists idx nd, tmp_fd_node fd s = Some idx /\ lookupZ (TMP_NODES s) idx = Some nd /\
    (is_dir nd = true \/ cap nd < end_ /\ TMP_DATA_CAP < TMP_DATA_USED s + end_).

Definition written (payload : list Z) (m : mem) (s s' : tmpfs) : Prop :=
  exists (idx : nat) nd nd',
    tmp_fd_node (field 0 4 payload) s = Some (Z.of_nat idx) /\
    TMP_NODES s !! idx = Some nd /\ is_dir nd = false /\
    TMP_NODES s' = <[idx := nd']> (TMP_NODES s) /\ TMP_FDS s' = TMP_FDS s /\
    (used nd', is_dir nd', path_len nd', path nd') = (used nd, is_dir nd, path_len nd, path nd) /\
    content s' nd' = splice (content s nd) (Z.to_nat (field 8 8 payload))
                       (slice_at (field 16 8 payload) (Z.to_nat (field 4 4 payload)) m) /\
    (forall j nd2, j <> idx -> TMP_NODES s !! j = Some nd2 -> content s' nd2 = content s nd2).

Lemma tmp_write_spec payload m s r s' :
  tmp_inv s -> Forall is_byte payload -> tmp_write payload m s = (r, s') ->
  (r = U64_MAX /\ s' = s /\ write_refused payload s) \/
  (r = field 4 4 payload /\ written payload m s s' /\ tmp_inv s').
Proof.
  intros Hinv Hb. unfold tmp_write, write_refused, written.
  pose proof (field_nonneg 4 4 payload Hb) as Hcnt. pose proof (field_nonneg 8 8 payload Hb) as Hoff.
  set (fd := field 0 4 payload). set (count := field 4 4 payload) in *.
  set (offset := field 8 8 payload) in *. set (buf := field 16 8 payload).
  destruct (Z.ltb_spec U32_MAX offset) as [Hbig|_]; [intros [= <- <-]; left; auto|].
  destruct (tmp_fd_node fd s) as [idx|] eqn:Efd; [|intros [= <- <-]; left; auto].
  destruct (tmp_fd_node_spec _ _ _ Hinv Efd) as [nd Hnd]. rewrite Hnd.
  destruct (is_dir nd) eqn:Edir; [intros [= <- <-]; left; eauto 12|].
  destruct (grow_region nd (offset + count) s) as [[off c] s1] eqn:Eg.
  pose proof Hnd as Hnd'. apply lookupZ_Some in Hnd' as [Hz Hi].
  assert (Hend : 0 <= offset + count) by lia.
  destruct (grow_region_spec _ _ _ _ _ _ _ (ti_data _ Hinv) Hi Hend Eg) as (En & Ef & Hg).
  destruct (do_region _ _ _ (ti_data _ Hinv) _ _ Hi) as (Hcap & Hsz & Hdo & Hdoc).
  destruct (Z.ltb_spec c (offset + count)) as [Hlt|Hge].
  { intros [= <- <-]. left. split_and!; [done|done|]. right; right. exists idx, nd.
    split_and!; [done|done|]. right. clear Hg. unfold grow_region, tmp_data_alloc in Eg.
    destruct (Z.ltb_spec (cap nd) (offset + count)) as [H1|H1]; [|injection Eg as _ Ec _; lia].
    destruct (Z.ltb_spec TMP_DATA_CAP (TMP_DATA_USED s + (offset + count))); [lia|].
    injection Eg as _ Ec _; lia. }
  destruct Hg as (Hc & Ho & Hoc & Hd1 & Hin & Hother). intros [= <- <-]. right. split; [done|].
  pose proof (do_used _ _ _ Hd1) as Hu1. unfold TMP_DATA_CAP in Hu1.
  set (bs := slice_at buf (Z.to_nat count) m).
  assert (Hlbs : length bs = Z.to_nat count) by apply length_slice_at.
  assert (Hw1 : w32 (offset + count) = offset + count) by (unfold w32; rewrite Z.mod_small; lia).
  assert (Hw2 : w32 c = c) by (unfold w32; rewrite Z.mod_small; lia).
  assert (Hw3 : w32 off = off) by (unfold w32; rewrite Z.mod_small; lia).
  rewrite Hw1, Hw2, Hw3.
  assert (Hsize : (if size nd <? offset + count then offset + count else size nd) = c)
    by (destruct (Z.ltb_spec (size nd) (offset + count)); lia).
  rewrite Hsize. set (nd' := mk_TmpNode _ _ _ _ _ _ _).
  assert (Eins : insertZ (TMP_NODES s1) idx nd' = <[Z.to_nat idx := nd']> (TMP_NODES s)).
  { pose proof (lookup_lt_Some _ _ _ Hi). unfold insertZ. rewrite En. rewrite (proj2 (Z.leb_le _ _)), (proj2 (Z.ltb_lt _ _)) by lia. done. }
  rewrite Eins.
  assert (Hfar : forall j nd2, j <> Z.to_nat idx -> TMP_NODES s !! j = Some nd2 -> forall k, 0 <= k < cap nd2 ->
            copy_to (off + offset) bs (TMP_DATA s1) (data_off nd2 + k) = TMP_DATA s (data_off nd2 + k)).
  { intros j nd2 Hne Hj k Hk. destruct (Hother _ _ Hne Hj k Hk) as [E1 E2].
    rewrite copy_to_out by (rewrite Hlbs; lia). done. }
  split.
  - exists (Z.to_nat idx), nd, nd'. cbn [TMP_NODES TMP_FDS]. rewrite Z2Nat.id by lia.
    split_and!; try done.
    + by rewrite Edir.
    + unfold content. cbn [data_off size nd' TMP_DATA]. rewrite Hsz.
      eapply splice_region; try eassumption; lia.
    + intros j nd2 Hne Hj. unfold content. apply slice_at_ext. intros a Ha. cbn [TMP_DATA].
      destruct (do_region _ _ _ (ti_data _ Hinv) _ _ Hj) as (Hc2 & Hs2 & _).
      replace a with (data_off nd2 + (a - data_off nd2)) by lia. eapply Hfar; [done|done|lia].
  - pose proof Hinv as [H1 H2 H3 H4 H5 H6 H7].
    assert (Hbind : node_binding nd' = node_binding nd) by (unfold node_binding, nd'; cbn; by rewrite Edir).
    destruct (slot_map_keep node_binding _ _ _ nd' Hi Hbind H4) as [Hdist Hmap].
    split; cbn [TMP_NODES TMP_FDS TMP_DATA TMP_DATA_USED].
    + by rewrite length_insert.
    + by rewrite Ef.
    + apply Forall_insert; [done|]. exact (proj1 (Forall_lookup _ _) H3 _ _ Hi).
    + done.
    + unfold tree. cbn [TMP_NODES]. by rewrite Hmap.
    + intros j f. rewrite Ef. apply H6.
    + assert (Hdi : data_ok (<[Z.to_nat idx := nd']> (TMP_NODES s)) (TMP_DATA s1) (TMP_DATA_USED s1)).
      { apply data_ok_insert; [done|cbn; lia|]. intros j nd2 Hne Hj. unfold regions_apart. cbn [cap data_off nd'].
        destruct (do_region _ _ _ (ti_data _ Hinv) _ _ Hj) as (Hc2 & _ & _).
        destruct (decide (cap nd2 = 0)) as [|Hz2]; [tauto|].
        destruct (decide (c = 0)) as [|Hzc]; [tauto|].
        destruct (Hother _ _ Hne Hj 0 ltac:(lia)) as [_ E1].
        destruct (Hother _ _ Hne Hj (cap nd2 - 1) ltac:(lia)) as [_ E2].
        destruct (decide (off <= data_off nd2)); [lia|].
        (* the region of [nd2] starts before [off], so it ends before it *)
        assert (data_off nd2 + (cap nd2 - 1) < off); [|lia].
        destruct E2 as [E2|E2]; [done|].
        destruct (Hother _ _ Hne Hj (off - data_off nd2) ltac:(lia)) as [_ [E3|E3]]; lia. }
      destruct Hdi as [D1 D2 D3 D4]. split; [done|done|done|].
      intros a Ha. rewrite copy_to_out by (rewrite Hlbs; lia). by apply D4.
Qed.

(** ** Requests on the tree *)

(** The paths a request can carry. *)
Lemma canon_spec payload q :
  length payload = PAYLOAD_LEN -> canon payload = Some q ->
  canonical (cstr payload) = Some q /\ (length q <= TMP_PATH_MAX)%nat /\
  (q = root \/ exists d, child_of q d).
Proof.
  intros Hl. apply normalized_path. unfold cstr.
  destruct (position _ _); [rewrite length_take|]; unfold TMP_PATH_MAX; lia.
Qed.

Lemma canon_None payload :
  length payload = PAYLOAD_LEN -> canon payload = None -> canonical (cstr payload) = None.
Proof.
  intros Hl <-. symmetry. apply normalize_eq; unfold TMP_PATH_MAX; [unfold PAYLOAD_LEN; lia|].
  unfold cstr. destruct (position _ _); [rewrite length_take|]; lia.
Qed.

Lemma find_index_bound q s i : tmp_inv s -> tmp_find q s = Some i -> (i < TMP_MAX_NODES)%nat.
Proof.
  intros Hinv E. apply tmp_find_Some in E as (nd & Hi & _); [|done].
  apply lookup_lt_Some in Hi. by rewrite (ti_nodes _ Hinv) in Hi.
Qed.

Lemma tmp_open_inv payload s :
  tmp_inv s -> tmp_inv (snd (tmp_open payload s)) /\ tree (snd (tmp_open payload s)) = tree s.
Proof.
  intros Hinv. unfold tmp_open. destruct (canon payload) as [q|]; [|done].
  destruct (tmp_find q s) as [i|] eqn:Ef; [|done].
  destruct (fd_alloc_inv i s Hinv (find_index_bound _ _ _ Hinv Ef)) as [H1 H2].
  split; [done|]. unfold tree. by rewrite H2.
Qed.

Lemma tmp_mkdir_refines payload s r s' :
  tmp_inv s -> length payload = PAYLOAD_LEN -> tmp_mkdir payload s = (r, s') ->
  tmp_inv s' /\ tree_step (tree s) (free_fd s) (ReqMkdir (cstr payload)) r (tree s').
Proof.
  intros Hinv Hl. unfold tmp_mkdir. destruct (canon payload) as [q|] eqn:Ec.
  2:{ intros [= <- <-]. split; [done|]. apply step_mkdir_refused. intros q (H & _).
      rewrite canon_None in H by done. done. }
  destruct (canon_spec _ _ Hl Ec) as (Hcan & Hlen & Hq).
  destruct ((1 <? length q)%nat && is_none (tmp_find q s)) eqn:Eg.
  2:{ intros [= <- <-]. split; [done|]. apply step_mkdir_refused. intros q' (H1 & H2 & (d & Hc & _) & _).
      assert (q' = q) as -> by congruence. apply tmp_find_None in H2. rewrite H2 in Eg.
      rewrite (proj2 (Nat.ltb_lt _ _)) in Eg by (by eapply child_not_root). done. }
  apply andb_true_iff in Eg as [H1 Hfree]. apply Nat.ltb_lt in H1.
  destruct (tmp_find q s) eqn:Ef; [done|]. clear Hfree. apply tmp_find_None in Ef.
  destruct Hq as [->|[d Hc]]; [cbn in H1; lia|].
  pose proof (parent_is_dir_spec q d s Hinv Hc) as Hp. destruct (parent_is_dir q s).
  - pose proof (alloc_node_inv q d true s Hinv Hlen Hc (proj1 Hp eq_refl) Ef) as Ha.
    destruct (tmp_alloc_node q true s) as [[i|] s1]; intros [= <- <-].
    + destruct Ha as (Hi & -> & _ & Hsz). split; [done|]. apply step_mkdir. split_and!; eauto.
      exists d. split; [done|]. by apply Hp.
    + destruct Ha as [-> Hsz]. split; [done|]. apply step_mkdir_refused. intros q' (_ & _ & _ & Hs). lia.
  - intros [= <- <-]. split; [done|]. apply step_mkdir_refused.
    intros q' (H2 & H3 & (d' & Hc' & Hd') & _). assert (q' = q) as -> by congruence.
    apply child_parent in Hc, Hc'. assert (d' = d) as -> by congruence. by apply Hp in Hd'.
Qed.

Lemma tmp_creat_refines payload s r s' :
  tmp_inv s -> length payload = PAYLOAD_LEN -> tmp_creat payload s = (r, s') ->
  tmp_inv s' /\ tree_step (tree s) (free_fd s) (ReqCreat (cstr payload)) r (tree s').
Proof.
  intros Hinv Hl. unfold tmp_creat. destruct (canon payload) as [q|] eqn:Ec.
  2:{ intros [= <- <-]. pose proof (canon_None _ Hl Ec) as Hn. split; [done|].
      apply step_creat_refused; [intros q (H & _)|intros q H]; congruence. }
  destruct (canon_spec _ _ Hl Ec) as (Hcan & Hlen & Hq).
  destruct (tmp_find q s) as [i|] eqn:Ef.
  - destruct (tmp_find_Some _ _ _ Hinv Ef) as (nd & Hi & _ & _ & Ht). rewrite Hi.
    destruct (is_dir nd).
    + intros [= <- <-]. split; [done|].
      apply step_creat_refused; [intros q' (H & H' & _)|intros q' H]; congruence.
    + intros E. destruct (fd_alloc_inv i s Hinv (find_index_bound _ _ _ Hinv Ef)) as [H1 H2].
      pose proof (fd_alloc_reply i s) as H3. rewrite E in H1, H2, H3. cbn in H1, H2, H3. subst r.
      split; [done|]. unfold tree at 2. rewrite H2. by eapply step_creat_exists.
  - apply tmp_find_None in Ef.
    destruct Hq as [->|[d Hc]]; [rewrite (proj1 (ti_tree _ Hinv)) in Ef; done|].
    pose proof (parent_is_dir_spec q d s Hinv Hc) as Hp. destruct (parent_is_dir q s).
    + pose proof (alloc_node_inv q d false s Hinv Hlen Hc (proj1 Hp eq_refl) Ef) as Ha.
      destruct (tmp_alloc_node q false s) as [[i|] s1] eqn:Ea.
      * destruct Ha as (Hi & Htr & Hb & Hsz). intros E.
        destruct (fd_alloc_inv i s1 Hi Hb) as [H1 H2]. pose proof (fd_alloc_reply i s1) as H3.
        rewrite E in H1, H2, H3. cbn in H1, H2, H3. subst r.
        assert (free_fd s1 = free_fd s) as -> by (pose proof (alloc_node_fds q false s) as Hf; rewrite Ea in Hf; cbn [snd] in Hf; unfold free_fd; by rewrite Hf).
        split; [done|]. unfold tree at 2. rewrite H2. fold (tree s1). rewrite Htr.
        apply step_creat. split_and!; eauto. exists d. split; [done|]. by apply Hp.
      * intros [= <- <-]. destruct Ha as [-> Hsz]. split; [done|].
        apply step_creat_refused; [intros q' (_ & _ & _ & Hs); lia|intros q' H; congruence].
    + intros [= <- <-]. split; [done|]. apply step_creat_refused; [|intros q' H; congruence].
      intros q' (H2 & H3 & (d' & Hc' & Hd') & _). assert (q' = q) as -> by congruence.
      apply child_parent in Hc, Hc'. assert (d' = d) as -> by congruence. by apply Hp in Hd'.
Qed.

Lemma tmp_unlink_refines payload s r s' :
  tmp_inv s -> length payload = PAYLOAD_LEN -> tmp_unlink payload s = (r, s') ->
  tmp_inv s' /\ tree_step (tree s) (free_fd s) (ReqUnlink (cstr payload)) r (tree s').
Proof.
  intros Hinv Hl. unfold tmp_unlink. destruct (canon payload) as [q|] eqn:Ec.
  2:{ intros [= <- <-]. pose proof (canon_None _ Hl Ec) as Hn. split; [done|].
      apply step_unlink_refused. intros q H. congruence. }
  destruct (canon_spec _ _ Hl Ec) as (Hcan & Hlen & Hq).
  destruct (tmp_find q s) as [i|] eqn:Ef.
  - destruct (tmp_find_Some _ _ _ Hinv Ef) as (nd & Hi & Hu & Hp & Ht). rewrite Hi.
    destruct (is_dir nd) eqn:Ed; cbn [negb]; intros [= <- <-].
    + split; [done|]. apply step_unlink_refused. intros q' H. congruence.
    + subst q. destruct (release_inv s i nd Hinv Hi Hu) as [H1 H2].
      * intros E. rewrite E in Ht. pose proof (proj1 (ti_tree _ Hinv)). congruence.
      * eapply file_childless; [apply Hinv|done].
      * split; [done|]. rewrite H2. by apply step_unlink.
  - intros [= <- <-]. apply tmp_find_None in Ef. split; [done|]. apply step_unlink_refused.
    intros q' H. congruence.
Qed.

Lemma tmp_rmdir_refines payload s r s' :
  tmp_inv s -> length payload = PAYLOAD_LEN -> tmp_rmdir payload s = (r, s') ->
  tmp_inv s' /\ tree_step (tree s) (free_fd s) (ReqRmdir (cstr payload)) r (tree s').
Proof.
  intros Hinv Hl. unfold tmp_rmdir. destruct (canon payload) as [q|] eqn:Ec.
  2:{ intros [= <- <-]. pose proof (canon_None _ Hl Ec) as Hn. split; [done|].
      apply step_rmdir_refused. intros q H. congruence. }
  destruct (canon_spec _ _ Hl Ec) as (Hcan & Hlen & Hq).
  destruct (Nat.ltb_spec 1 (length q)) as [H1|H1].
  2:{ intros [= <- <-]. split; [done|]. apply step_rmdir_refused. intros q' H.
      assert (q' = q) as -> by congruence. destruct Hq as [?|[d Hc]]; [auto|].
      apply child_not_root in Hc. lia. }
  assert (Hroot : q <> root) by (intros ->; cbn in H1; lia).
  destruct (tmp_find q s) as [i|] eqn:Ef.
  - destruct (tmp_find_Some _ _ _ Hinv Ef) as (nd & Hi & Hu & Hp & Ht). rewrite Hi.
    pose proof (dir_empty_spec q s Hinv) as He.
    destruct (is_dir nd) eqn:Ed; cbn [andb]; [destruct (tmp_dir_empty q s) eqn:Ee|]; intros [= <- <-].
    + subst q. destruct (release_inv s i nd Hinv Hi Hu Hroot (proj1 He eq_refl)) as [H2 H3].
      split; [done|]. rewrite H3. apply step_rmdir; try done. by apply He.
    + split; [done|]. apply step_rmdir_refused. intros q' H. assert (q' = q) as -> by congruence.
      right; right. unfold tmp_dir_empty in Ee. apply negb_false_iff, existsb_exists in Ee as (nd2 & Hin & Hc).
      apply list_elem_of_In, list_elem_of_lookup in Hin as [j Hj].
      apply (is_child_spec s j nd2 q Hinv Hj) in Hc as [Hu2 Hc].
      exists (node_path nd2), (is_dir nd2). split; [by eapply tree_lookup_slot|done].
    + split; [done|]. apply step_rmdir_refused. intros q' H. right; left. congruence.
  - intros [= <- <-]. apply tmp_find_None in Ef. split; [done|]. apply step_rmdir_refused.
    intros q' H. right; left. congruence.
Qed.

Lemma written_tree payload m s s' : tmp_inv s -> written payload m s s' -> tree s' = tree s.
Proof.
  intros Hinv (idx & nd & nd' & _ & Hi & _ & En & _ & Hsame & _). unfold tree. rewrite En.
  injection Hsame as E1 E2 E3 E4.
  apply (slot_map_keep node_binding _ _ nd); [done| |apply Hinv].
  unfold node_binding, node_path. by rewrite E1, E2, E3, E4.
Qed.

Lemma tmp_turn_refines tag payload m s r m' s' :
  tmp_inv s -> length payload = PAYLOAD_LEN -> Forall is_byte payload ->
  tmp_turn tag payload m s = (r, (m', s')) ->
  tmp_inv s' /\ tree_step (tree s) (free_fd s) (tree_request_of tag payload) r (tree s').
Proof.
  intros Hinv Hl Hb. unfold tmp_turn, tree_request_of, keep_mem, keep_fs. set (t := tag_body tag).
  destruct (Z.eqb_spec t VFS_OPEN_TAG) as [->|_].
  { intros [= <- <- <-]. destruct (tmp_open_inv payload s Hinv) as [H1 H2]. rewrite H2.
    split; [done|constructor]. }
  destruct (Z.eqb_spec t VFS_READ_TAG) as [->|_]; [intros [= <- <- <-]; split; [done|constructor]|].
  destruct (Z.eqb_spec t VFS_WRITE_TAG) as [->|_].
  { intros [= <- <- <-]. destruct (tmp_write payload m s) as [r1 s1] eqn:E. cbn [fst snd].
    destruct (tmp_write_spec _ _ _ _ _ Hinv Hb E) as [(_ & -> & _)|(_ & Hw & Hi)].
    - split; [done|constructor].
    - rewrite (written_tree _ _ _ _ Hinv Hw). split; [done|constructor]. }
  destruct (Z.eqb_spec t VFS_READDIR_TAG) as [->|_]; [intros [= <- <- <-]; split; [done|constructor]|].
  destruct (Z.eqb_spec t VFS_CLOSE_TAG) as [->|_].
  { intros [= <- <- <-]. destruct (fd_free_inv (field 0 4 payload) s Hinv) as [H1 H2].
    split; [done|]. unfold tree at 2. rewrite H2. constructor. }
  destruct (t =? VFS_CREAT_TAG).
  { destruct (tmp_creat payload s) as [r1 s1] eqn:E. intros [= <- <- <-]. by apply tmp_creat_refines. }
  destruct (t =? VFS_MKDIR_TAG).
  { destruct (tmp_mkdir payload s) as [r1 s1] eqn:E. intros [= <- <- <-]. by apply tmp_mkdir_refines. }
  destruct (t =? VFS_UNLINK_TAG).
  { destruct (tmp_unlink payload s) as [r1 s1] eqn:E. intros [= <- <- <-]. by apply tmp_unlink_refines. }
  destruct (t =? VFS_RMDIR_TAG).
  { destruct (tmp_rmdir payload s) as [r1 s1] eqn:E. intros [= <- <- <-]. by apply tmp_rmdir_refines. }
  destruct (t =? VFS_STAT_TAG); intros [= <- <- <-]; split; first [done|constructor].
Qed.

(** The states the service can reach, with clients changing the shared memory as they like. *)
Inductive tmp_reach : tmpfs -> Prop :=
| reach_boot : tmp_reach tmp_boot
| reach_turn s tag payload m r m' s' :
    tmp_reach s -> length payload = PAYLOAD_LEN -> Forall is_byte payload ->
    tmp_turn tag payload m s = (r, (m', s')) -> tmp_reach s'.

Lemma replicate_lookup_eq {A} n (x y : A) i : replicate n x !! i = Some y -> y = x.
Proof. intros H. by apply lookup_replicate in H as [-> _]. Qed.

Lemma tmp_boot_inv : tmp_inv tmp_boot.
Proof.
  assert (Hb : TMP_NODES tmp_boot =
    mk_TmpNode true true 1 0 0 0 (slash :: replicate 95 0) :: replicate 31 TMP_NODE_EMPTY) by reflexivity.
  split.
  - reflexivity.
  - reflexivity.
  - rewrite Hb. constructor; [split; [reflexivity|cbn; lia]|].
    apply Forall_replicate. split; [reflexivity|cbn; lia].
  - unfold distinct. assert (bindings node_binding (TMP_NODES tmp_boot) = [(root, true)]) as -> by reflexivity.
    cbn. repeat constructor; set_solver.
  - assert (Ht : tree tmp_boot = {[ root := true ]}) by reflexivity.
    rewrite Ht. split; [done|]. intros q b H. apply lookup_singleton_Some in H as [<- _]. by left.
  - intros i f H. change (TMP_FDS tmp_boot) with (replicate 16 TMP_FD_EMPTY) in H.
    apply replicate_lookup_eq in H as ->. cbn. lia.
  - assert (Hz : forall i nd, TMP_NODES tmp_boot !! i = Some nd -> size nd = 0 /\ cap nd = 0 /\ data_off nd = 0).
    { intros i nd. rewrite Hb. destruct i as [|i]; [intros [= <-]; done|].
      intros H. change (replicate 31 TMP_NODE_EMPTY !! i = Some nd) in H.
      apply replicate_lookup_eq in H as ->. done. }
    split; [cbn; unfold TMP_DATA_CAP; lia| |  |done].
    + intros i nd H. destruct (Hz i nd H) as (-> & -> & ->). cbn. lia.
    + intros i j nd nd' H _ _. left. apply (Hz i nd H).
Qed.

Lemma tmp_reach_inv s : tmp_reach s -> tmp_inv s.
Proof. induction 1; [apply tmp_boot_inv|]. by eapply tmp_turn_refines. Qed.

(** A failure changes the tree only when a file was created that no descriptor is left for. *)
Lemma failed_step t free req t' :
  tree_step t free req U64_MAX t' -> (forall i, free = Some i -> (i < TMP_MAX_FD)%nat) ->
  t' = t \/ (exists p, req = ReqCreat p) /\ free = None.
Proof.
  intros Hs Hf. inversion Hs; subst; auto. right. split; [by eexists|].
  destruct free as [i|]; [|done]. specialize (Hf i eq_refl). unfold fd_reply, U64_MAX, TMP_MAX_FD in *. lia.
Qed.


Lemma tmp_read_spec payload m s idx nd :
  tmp_inv s -> Forall is_byte payload ->
  tmp_fd_node (field 0 4 payload) s = Some idx -> lookupZ (TMP_NODES s) idx = Some nd ->
  is_dir nd = false -> field 8 8 payload <= U32_MAX ->
  let got := take (Z.to_nat (field 4 4 payload)) (drop (Z.to_nat (field 8 8 payload)) (content s nd)) in
  fst (tmp_read payload m s) = Z.of_nat (length got) /\
  forall a, snd (tmp_read payload m s) a = copy_to (field 16 8 payload) got m a.
Proof.
  intros Hinv Hb Hfd Hnd Hdir Hoff got. unfold tmp_read. rewrite (proj2 (Z.ltb_ge _ _) Hoff), Hfd, Hnd, Hdir.
  pose proof (field_nonneg 4 4 payload Hb) as Hcnt. pose proof (field_nonneg 8 8 payload Hb) as Ho.
  pose proof Hnd as [_ Hi]%lookupZ_Some.
  destruct (do_region _ _ _ (ti_data _ Hinv) _ _ Hi) as (Hcap & Hsz & _).
  set (count := field 4 4 payload) in *. set (offset := field 8 8 payload) in *.
  assert (Hlen : length got = Z.to_nat (Z.min count (size nd - offset))).
  { unfold got, content. rewrite length_take, length_drop, length_slice_at. lia. }
  destruct (Z.leb_spec (size nd) offset) as [Hge|Hlt]; cbn [fst snd].
  - split; [lia|]. intros a. symmetry. apply copy_to_out. lia.
  - split; [lia|]. intros a. f_equal. unfold got, content.
    apply list_eq. intros i. destruct (decide (i < Z.to_nat (Z.min count (size nd - offset)))%nat).
    + rewrite lookup_slice_at by done. rewrite lookup_take_lt by lia.
      rewrite lookup_drop, lookup_slice_at by lia. do 2 f_equal. lia.
    + rewrite lookup_slice_at_ge by lia. symmetry. apply lookup_ge_None.
      rewrite length_take, length_drop, length_slice_at. lia.
Qed.

(** in every state the service can reach, a write is either refused (offset too large, not
    an open descriptor, a directory, or no room in the data area) and changes nothing, or makes
    the file behind the descriptor its old bytes with the client's bytes spliced in at the
    offset (a gap reads as zeros) and leaves the bytes of every other file alone; and a read
    copies exactly the requested part of the file's bytes to the client. *)
Theorem tmpfs_contents s payload m r s' :
  tmp_reach s -> Forall is_byte payload -> tmp_write payload m s = (r, s') ->
  ((r = U64_MAX /\ s' = s /\ write_refused payload s) \/
   (r = field 4 4 payload /\ written payload m s s')) /\
  forall idx nd, tmp_fd_node (field 0 4 payload) s = Some idx -> lookupZ (TMP_NODES s) idx = Some nd ->
    is_dir nd = false -> field 8 8 payload <= U32_MAX ->
    let got := take (Z.to_nat (field 4 4 payload)) (drop (Z.to_nat (field 8 8 payload)) (content s nd)) in
    fst (tmp_read payload m s) = Z.of_nat (length got) /\
    forall a, snd (tmp_read payload m s) a = copy_to (field 16 8 payload) got m a.
Proof.
  intros Hr Hb E. apply tmp_reach_inv in Hr. split.
  - destruct (tmp_write_spec _ _ _ _ _ Hr Hb E) as [?|(? & ? & _)]; auto.
  - intros idx nd. by apply tmp_read_spec.
Qed.

(** An example session: make /d, create /d/f, write [AB] at offset 2. *)
Definition s_mkdir : list Z := pad PAYLOAD_LEN [47; 100].
Definition s_creat : list Z := pad PAYLOAD_LEN [47; 100; 47; 102].
Definition s_write : list Z := pad PAYLOAD_LEN (rw_req 0 2 2 4096).
Definition client_page : mem := fun a => if a =? 4096 then 65 else if a =? 4097 then 66 else 0.

Definition demo_dir : tmpfs := snd (snd (tmp_turn VFS_MKDIR_TAG s_mkdir client_page tmp_boot)).
Definition demo_file : tmpfs := snd (snd (tmp_turn VFS_CREAT_TAG s_creat client_page demo_dir)).

Lemma bytes_check l : forallb (fun b => (0 <=? b) && (b <? 256)) l = true -> Forall is_byte l.
Proof.
  intros H. apply Forall_forall. intros b Hb. apply list_elem_of_In in Hb.
  apply (proj1 (forallb_forall _ _) H) in Hb. unfold is_byte. lia.
Qed.

Lemma demo_file_reach : tmp_reach demo_file.
Proof.
  assert (Hd : tmp_reach demo_dir).
  { eapply (reach_turn _ VFS_MKDIR_TAG s_mkdir client_page); [apply reach_boot|reflexivity| |reflexivity].
    by apply bytes_check. }
  eapply (reach_turn _ VFS_CREAT_TAG s_creat client_page); [exact Hd|reflexivity| |reflexivity].
  by apply bytes_check.
Qed.


Lemma tmpfs_contents_witness :
  fst (tmp_write s_write client_page demo_file) = 2 /\
  written s_write client_page demo_file (snd (tmp_write s_write client_page demo_file)).
Proof.
  split; [vm_compute; reflexivity|].
  destruct (tmpfs_contents demo_file s_write client_page 2 (snd (tmp_write s_write client_page demo_file)))
    as [[(H & _)|(_ & H)] _].
  - apply demo_file_reach.
  - by apply bytes_check.
  - reflexivity.
  - discriminate.
  - exact H.
Defined.

(** A descriptor outlives its file: after the file is unlinked and its slot taken by a new file,
    the old descriptor reads the new file. *)
Definition s_creat_other : list Z := pad PAYLOAD_LEN [47; 103].
Definition after_reuse : tmpfs :=
  let s := snd (snd (tmp_turn VFS_UNLINK_TAG s_creat client_page demo_file)) in
  snd (snd (tmp_turn VFS_CREAT_TAG s_creat_other client_page s)).

Example stale_descriptor :
  tree after_reuse !! [47; 100; 47; 102] = None /\
  tmp_fd_node 0 after_reuse = Some 2 /\
  (node_path <$> lookupZ (TMP_NODES after_reuse) 2) = Some [47; 103].
Proof. vm_compute. repeat split. Qed.

(** [creat] with every descriptor in use creates the file and still reports failure. *)
Definition fds_full : tmpfs :=
  Nat.iter 16 (fun s => snd (snd (tmp_turn VFS_OPEN_TAG s_mkdir client_page s))) demo_dir.

Example creat_fails_after_creating :
  let '(r, (_, s)) := tmp_turn VFS_CREAT_TAG s_creat client_page fds_full in
  r = U64_MAX /\ tree fds_full !! [47; 100; 47; 102] = None /\ tree s !! [47; 100; 47; 102] = Some false.
Proof. vm_compute. repeat split. Qed.
