(* ===== verification/BlockCache.v ===== *)
(** * BlockCache: volumes and the read cache of the block service
      (src/user/srv/src/block_srv.rs)

    The block service serves sector reads and writes on volumes (ranges of a disk) and keeps a
    direct-mapped read cache of 240 lines of eight sectors, filled on demand and by sequential
    prefetch, and invalidated by writes. The NVMe queues are the interface [BlockDevice]; this
    file proves that requests behave as if there were no cache. Statistics are left out. *)

From S2P Require Import Prelude Bytes.

Definition VOL_MAX : nat := 16.
Definition ATTACH_MAX : nat := 4.
Definition BACKEND_NVME : Z := 0.
Definition BACKEND_AHCI : Z := 1.
Definition BACKEND_USB : Z := 3.
Definition NVME_SECTOR_SIZE : Z := 512.
Definition NVME_MAX_SECTORS : Z := 256.
Definition BLK_CACHE_LINES : Z := 240.
Definition BLK_CACHE_SECTORS_PER_LINE : Z := 8.
Definition BLK_CACHE_LINE_BYTES : Z := 4096.
Definition BLK_CACHE_VADDR : Z := 0x8000300000.
Definition BLK_CACHE_PREFETCH_LINES : Z := 2.

Record Volume : Type := mk_Volume {
  nsid : Z;
  start_lba : Z;
  sectors : Z;
  kind : Z;
  backend : Z
}.

Record BlkCacheTag : Type := mk_tag { valid : bool; tvol : Z; tpage : Z; tsectors : Z }.
Definition BLK_CACHE_TAG_EMPTY : BlkCacheTag := mk_tag false 0 0 0.

(** One NVMe command, up to its completion: [nvme_read] also yields the bytes the device moved
    into the buffer. [backend_rw] forwards a request to the AHCI or USB driver. [disk] and [faults]
    are what the theorems observe of a device: its contents, and how many of its commands have not
    completed successfully. *)
Class BlockDevice (D : Type) : Type := {
  disk : D -> Z -> mem;
  faults : D -> Z;
  nvme_read : Z -> Z -> Z -> D -> bool * list Z * D;
  nvme_write : Z -> Z -> list Z -> D -> bool * D;
  backend_rw : Z -> bool -> Z -> Z -> Z -> mem -> D -> bool * mem * D
}.

Record bsrv (D : Type) : Type := mk_bsrv {
  VOLUMES : list Volume;          (* [VOLUMES[..VOL_COUNT]] *)
  ATTACH_VOLS : list Volume;      (* [ATTACH_VOLS[..ATTACH_VOL_COUNT]] *)
  BLK_CACHE_TAGS : list BlkCacheTag;
  BLK_CACHE_ON : bool;
  BLK_CACHE_SEQ_VOL : Z;
  BLK_CACHE_SEQ_NEXT : Z;
  memory : mem;
  dev : D
}.
Arguments mk_bsrv {D}.
Arguments VOLUMES {D}.
Arguments ATTACH_VOLS {D}.
Arguments BLK_CACHE_TAGS {D}.
Arguments BLK_CACHE_ON {D}.
Arguments BLK_CACHE_SEQ_VOL {D}.
Arguments BLK_CACHE_SEQ_NEXT {D}.
Arguments memory {D}.
Arguments dev {D}.

Section block.
Context {D : Type} `{!BlockDevice D}.

Definition set_tags (s : bsrv D) (l : list BlkCacheTag) : bsrv D :=
  mk_bsrv (VOLUMES s) (ATTACH_VOLS s) l (BLK_CACHE_ON s) (BLK_CACHE_SEQ_VOL s) (BLK_CACHE_SEQ_NEXT s)
    (memory s) (dev s).
Definition set_seq (s : bsrv D) (v n : Z) : bsrv D :=
  mk_bsrv (VOLUMES s) (ATTACH_VOLS s) (BLK_CACHE_TAGS s) (BLK_CACHE_ON s) v n (memory s) (dev s).
Definition set_memory (s : bsrv D) (m : mem) : bsrv D :=
  mk_bsrv (VOLUMES s) (ATTACH_VOLS s) (BLK_CACHE_TAGS s) (BLK_CACHE_ON s) (BLK_CACHE_SEQ_VOL s)
    (BLK_CACHE_SEQ_NEXT s) m (dev s).
Definition set_dev (s : bsrv D) (d : D) : bsrv D :=
  mk_bsrv (VOLUMES s) (ATTACH_VOLS s) (BLK_CACHE_TAGS s) (BLK_CACHE_ON s) (BLK_CACHE_SEQ_VOL s)
    (BLK_CACHE_SEQ_NEXT s) (memory s) d.
Definition set_volumes (s : bsrv D) (vs att : list Volume) : bsrv D :=
  mk_bsrv vs att (BLK_CACHE_TAGS s) (BLK_CACHE_ON s) (BLK_CACHE_SEQ_VOL s) (BLK_CACHE_SEQ_NEXT s)
    (memory s) (dev s).

(** ** The volume table *)

Definition vol_has_backend (b : Z) (s : bsrv D) : bool := existsb (fun v => backend v =? b) (VOLUMES s).

Definition vol_push (v : Volume) (s : bsrv D) : bsrv D :=
  if (VOL_MAX <=? length (VOLUMES s))%nat then s
  else set_volumes s (VOLUMES s ++ [v])
         (if negb (backend v =? BACKEND_NVME) && (length (ATTACH_VOLS s) <? ATTACH_MAX)%nat
          then ATTACH_VOLS s ++ [v] else ATTACH_VOLS s).

Definition vol_get (i : Z) (s : bsrv D) : option Volume := lookupZ (VOLUMES s) i.

Definition vol_reset (s : bsrv D) : bsrv D := set_volumes s [] (ATTACH_VOLS s).

Definition vol_attached_reattach (s : bsrv D) : bsrv D :=
  set_volumes s (take VOL_MAX (VOLUMES s ++ ATTACH_VOLS s)) (ATTACH_VOLS s).

(** ** Commands *)

Definition nvme_read_sectors (ns lba count buf : Z) (s : bsrv D) : bool * bsrv D :=
  if (count =? 0) || (NVME_MAX_SECTORS <? count) then (false, s)
  else let '(ok, bs, d) := nvme_read ns lba count (dev s) in
       (ok, set_dev (set_memory s (copy_to buf bs (memory s))) d).

Definition nvme_write_sectors (ns lba count buf : Z) (s : bsrv D) : bool * bsrv D :=
  if (count =? 0) || (NVME_MAX_SECTORS <? count) then (false, s)
  else let '(ok, d) := nvme_write ns lba (slice_at buf (Z.to_nat (count * NVME_SECTOR_SIZE)) (memory s)) (dev s) in
       (ok, set_dev s d).

(** ** The cache *)

Definition blk_cache_slot (vol_id page : Z) : Z :=
  Z.lxor (w64 (vol_id * 0x9E3779B1)) page mod BLK_CACHE_LINES.

Definition blk_cache_line_ptr (slot : Z) : Z := BLK_CACHE_VADDR + slot * BLK_CACHE_LINE_BYTES.

Definition blk_cache_flush_all (s : bsrv D) : bsrv D :=
  set_seq (set_tags s (replicate (Z.to_nat BLK_CACHE_LINES) BLK_CACHE_TAG_EMPTY)) (2^32 - 1) 0.

(** [t.valid && t.vol == vol_id as u32 && t.page == page] for the tag in the page's slot. *)
Definition tag_hit (vol_id page : Z) (s : bsrv D) : option BlkCacheTag :=
  match lookupZ (BLK_CACHE_TAGS s) (blk_cache_slot vol_id page) with
  | Some t => if valid t && (tvol t =? w32 vol_id) && (tpage t =? page) then Some t else None
  | None => None
  end.

Definition invalidate_page (vol_id : Z) (s : bsrv D) (p : Z) : bsrv D :=
  match tag_hit vol_id p s with
  | Some t => set_tags s (insertZ (BLK_CACHE_TAGS s) (blk_cache_slot vol_id p)
                            (mk_tag false (tvol t) (tpage t) (tsectors t)))
  | None => s
  end.

Definition blk_cache_invalidate (vol_id lba count : Z) (s : bsrv D) : bsrv D :=
  if count =? 0 then s
  else
    let first := lba / BLK_CACHE_SECTORS_PER_LINE in
    let last := (lba + count - 1) / BLK_CACHE_SECTORS_PER_LINE in
    foldl (invalidate_page vol_id) s (seqZ first (last - first + 1)).

Definition blk_cache_fill (vol_id : Z) (vol : Volume) (page : Z) (s : bsrv D) : bool * bsrv D :=
  let first_sector := page * BLK_CACHE_SECTORS_PER_LINE in
  if (sectors vol =? 0) || (sectors vol <=? first_sector) then (false, s)
  else
    let n := Z.min (sectors vol - first_sector) BLK_CACHE_SECTORS_PER_LINE in
    let slot := blk_cache_slot vol_id page in
    let lba := w32 (start_lba vol + w32 first_sector) in
    let '(ok, s) := nvme_read_sectors (nsid vol) lba n (blk_cache_line_ptr slot) s in
    if negb ok then (false, s)
    else (true, set_tags s (insertZ (BLK_CACHE_TAGS s) slot (mk_tag true (w32 vol_id) page n))).

Definition blk_cache_probe (vol_id page : Z) (s : bsrv D) : option Z := tsectors <$> tag_hit vol_id page s.

(** [let line_sectors = match blk_cache_probe(..) { .. }]; [None] is [return false]. *)
Definition line_sectors_of (vol_id : Z) (vol : Volume) (page : Z) (s : bsrv D) : option Z * bsrv D :=
  match blk_cache_probe vol_id page s with
  | Some n => (Some n, s)
  | None =>
      let '(ok, s) := blk_cache_fill vol_id vol page s in
      if negb ok then (None, s)
      else (tsectors <$> lookupZ (BLK_CACHE_TAGS s) (blk_cache_slot vol_id page), s)
  end.

(** [while done < count]: every turn copies at least one sector, so [count] turns are enough. *)
Fixpoint cache_read_loop (fuel : nat) (vol_id : Z) (vol : Volume) (lba count dst done : Z) (s : bsrv D)
    : bool * bsrv D :=
  if count <=? done then (true, s)
  else match fuel with
  | O => (false, s)
  | S fuel' =>
      let cur := lba + done in
      let page := cur / BLK_CACHE_SECTORS_PER_LINE in
      let off := cur mod BLK_CACHE_SECTORS_PER_LINE in
      let slot := blk_cache_slot vol_id page in
      let '(o, s) := line_sectors_of vol_id vol page s in
      match o with
      | None => (false, s)
      | Some line_sectors =>
          if line_sectors <=? off then (false, s)
          else
            let n := Z.min (line_sectors - off) (count - done) in
            let bytes := slice_at (blk_cache_line_ptr slot + off * NVME_SECTOR_SIZE)
                           (Z.to_nat (n * NVME_SECTOR_SIZE)) (memory s) in
            let s := set_memory s (copy_to (dst + done * NVME_SECTOR_SIZE) bytes (memory s)) in
            cache_read_loop fuel' vol_id vol lba count dst (done + n) s
      end
  end.

Definition prefetch_page (vol_id : Z) (vol : Volume) (s : bsrv D) (p : Z) : bsrv D :=
  if is_none (blk_cache_probe vol_id p s) then snd (blk_cache_fill vol_id vol p s) else s.

Definition blk_cache_read (vol_id : Z) (vol : Volume) (lba count dst : Z) (s : bsrv D) : bool * bsrv D :=
  let sequential := (BLK_CACHE_SEQ_VOL s =? w32 vol_id) && (lba =? BLK_CACHE_SEQ_NEXT s) in
  let '(ok, s) := cache_read_loop (Z.to_nat count) vol_id vol lba count dst 0 s in
  if negb ok then (false, s)
  else
    let s :=
      if sequential && negb (sectors vol =? 0) then
        let last_page := (lba + count - 1) / BLK_CACHE_SECTORS_PER_LINE in
        foldl (prefetch_page vol_id vol) s (seqZ (last_page + 1) BLK_CACHE_PREFETCH_LINES)
      else s in
    (true, set_seq s (w32 vol_id) (lba + count)).

(** ** Requests *)

Definition saturating_add32 (a b : Z) : Z := Z.min (a + b) (2^32 - 1).

(** The direct path: commands of at most [NVME_MAX_SECTORS]. *)
Fixpoint direct_loop (fuel : nat) (is_read : bool) (ns base_lba total buf done : Z) (s : bsrv D)
    : bool * bsrv D :=
  if total <=? done then (true, s)
  else match fuel with
  | O => (false, s)
  | S fuel' =>
      let chunk := Z.min (total - done) NVME_MAX_SECTORS in
      let seg_buf := buf + done * 512 in
      let lba := saturating_add32 base_lba (w32 done) in
      let '(ok, s) := (if is_read then nvme_read_sectors else nvme_write_sectors) ns lba chunk seg_buf s in
      if negb ok then (false, s) else direct_loop fuel' is_read ns base_lba total buf (done + chunk) s
  end.

Definition direct_turns (total : Z) : nat := Z.to_nat (div_ceil total NVME_MAX_SECTORS).

(** [BLOCK_OP_READ | BLOCK_OP_WRITE]. *)
Definition block_rw (is_read : bool) (vol_id lba count buf : Z) (s : bsrv D) : Z * bsrv D :=
  match vol_get vol_id s with
  | None => (0, s)
  | Some vol =>
      if (backend vol =? BACKEND_AHCI) || (backend vol =? BACKEND_USB) then
        let '(ok, m, d) := backend_rw (backend vol) is_read (start_lba vol + lba) count buf (memory s) (dev s) in
        ((if ok : bool then 1 else 0), set_dev (set_memory s m) d)
      else if count =? 0 then (0, s)
      else if is_read && BLK_CACHE_ON s && negb (sectors vol =? 0) && (count <=? BLK_CACHE_SECTORS_PER_LINE) then
        let '(ok, s) := blk_cache_read vol_id vol lba count buf s in ((if ok : bool then 1 else 0), s)
      else
        let base_lba := saturating_add32 (start_lba vol) (w32 lba) in
        let '(ok, s) := direct_loop (direct_turns count) is_read (nsid vol) base_lba count buf 0 s in
        let s := if negb is_read && ok then blk_cache_invalidate vol_id lba count s else s in
        ((if ok : bool then 1 else 0), s)
  end.

(** [VolumeDesc]: id, nsid, start, sectors, kind and padding, 24 bytes. *)
Definition volume_desc (i : nat) (v : Volume) : list Z :=
  to_le 4 (Z.of_nat i) ++ to_le 4 (nsid v) ++ to_le 4 (start_lba v) ++ to_le 4 (sectors v)
  ++ to_le 4 (kind v) ++ to_le 4 0.

(** [BLOCK_OP_LIST_VOLUMES]. *)
Definition vol_reply_list (count buf : Z) (s : bsrv D) : Z * bsrv D :=
  let n := Z.min count (Z.of_nat (length (VOLUMES s))) in
  (n, set_memory s (copy_to buf (concat (imap volume_desc (take (Z.to_nat n) (VOLUMES s)))) (memory s))).

End block.

(** ** What the proofs rely on *)

Definition same_disk {D} `{!BlockDevice D} (d d' : D) : Prop := forall k a, disk d' k a = disk d k a.

(** A completed read moved the sectors asked for and a completed write stored the bytes. A read that
    fails may have moved anything, but only into the buffer of the command, and a read does not
    change the disk; what a failed write leaves on the disk is open. The other drivers neither touch
    the NVMe disks nor write outside the request's buffer. *)
Class DeviceLaws (D : Type) `{!BlockDevice D} : Prop := {
  read_done ns lba n d bs d' :
    nvme_read ns lba n d = (true, bs, d') ->
    bs = slice_at (lba * 512) (Z.to_nat (n * 512)) (disk d ns) /\ same_disk d d' /\ faults d' = faults d;
  read_failed ns lba n d bs d' :
    nvme_read ns lba n d = (false, bs, d') ->
    (length bs <= Z.to_nat (n * 512))%nat /\ same_disk d d' /\ faults d < faults d';
  write_done ns lba bs d d' :
    nvme_write ns lba bs d = (true, d') ->
    faults d' = faults d /\
    forall k a, disk d' k a = if k =? ns then copy_to (lba * 512) bs (disk d ns) a else disk d k a;
  write_failed ns lba bs d d' : nvme_write ns lba bs d = (false, d') -> faults d < faults d';
  backend_frame b r lba n buf m d ok m' d' :
    backend_rw b r lba n buf m d = (ok, m', d') ->
    same_disk d d' /\ faults d' = faults d /\ forall a, a < buf \/ buf + n * 512 <= a -> m' a = m a
}.

Definition is_local (v : Volume) : bool := negb ((backend v =? BACKEND_AHCI) || (backend v =? BACKEND_USB)).

(** Volumes lie on their disks and do not overlap. *)
Record volumes_ok (vs : list Volume) : Prop := {
  vo_count : (length vs <= VOL_MAX)%nat;
  vo_range i v : lookupZ vs i = Some v -> 0 <= start_lba v /\ 0 <= sectors v /\ start_lba v + sectors v < 2^32;
  vo_disjoint i j v w :
    lookupZ vs i = Some v -> lookupZ vs j = Some w -> i <> j -> is_local v = true -> is_local w = true ->
    nsid v <> nsid w \/ start_lba v + sectors v <= start_lba w \/ start_lba w + sectors w <= start_lba v
}.

Definition window (a : Z) : Prop := BLK_CACHE_VADDR <= a < BLK_CACHE_VADDR + 240 * 4096.
Definition buffer_ok (buf count : Z) : Prop :=
  buf + count * 512 <= BLK_CACHE_VADDR \/ BLK_CACHE_VADDR + 240 * 4096 <= buf.

Section coherence.
Context {D : Type} `{!BlockDevice D, !DeviceLaws D}.
Implicit Types s : bsrv D.

(** A valid line holds the bytes the disk has for its page. *)
Definition line_ok s (slot : Z) (t : BlkCacheTag) : Prop :=
  valid t = true ->
  exists v, vol_get (tvol t) s = Some v /\ is_local v = true /\ 0 <= tpage t /\
    blk_cache_slot (tvol t) (tpage t) = slot /\
    tsectors t = Z.min (sectors v - tpage t * 8) 8 /\ 0 < tsectors t /\
    forall k, 0 <= k < tsectors t * 512 ->
      memory s (blk_cache_line_ptr slot + k) = disk (dev s) (nsid v) ((start_lba v + tpage t * 8) * 512 + k).

Definition coherent s : Prop :=
  length (BLK_CACHE_TAGS s) = Z.to_nat BLK_CACHE_LINES /\
  forall slot t, lookupZ (BLK_CACHE_TAGS s) slot = Some t -> line_ok s slot t.

Lemma slot_range vol_id page : 0 <= blk_cache_slot vol_id page < 240.
Proof using Type. apply Z.mod_pos_bound. unfold BLK_CACHE_LINES. lia. Qed.

Lemma line_window slot k : 0 <= slot < 240 -> 0 <= k < 4096 -> window (blk_cache_line_ptr slot + k).
Proof using Type. unfold window, blk_cache_line_ptr, BLK_CACHE_LINE_BYTES. lia. Qed.

Lemma lookup_tag_range s slot t :
  coherent s -> lookupZ (BLK_CACHE_TAGS s) slot = Some t -> 0 <= slot < 240.
Proof using Type.
  intros [Hl _] H. apply lookupZ_Some in H as [H1 H2]. apply lookup_lt_Some in H2.
  rewrite Hl in H2. unfold BLK_CACHE_LINES in H2. lia.
Qed.

Lemma coherent_frame s s' :
  coherent s -> VOLUMES s' = VOLUMES s -> BLK_CACHE_TAGS s' = BLK_CACHE_TAGS s ->
  (forall a, window a -> memory s' a = memory s a) -> same_disk (dev s) (dev s') -> coherent s'.
Proof using Type.
  intros Hc Hv Ht Hm Hd. pose proof Hc as [Hl Hok]. split; [by rewrite Ht|].
  intros slot t Hs Hval. rewrite Ht in Hs. pose proof (lookup_tag_range _ _ _ Hc Hs) as Hr.
  destruct (Hok slot t Hs Hval) as (v & H1 & H2 & H3 & H4 & H5 & H6 & H7).
  exists v. unfold vol_get in *. rewrite Hv. split_and!; try done.
  intros k Hk. rewrite Hm by (apply line_window; lia). rewrite Hd. by apply H7.
Qed.

(** The commands of [s'] after those of [s] have all completed. *)
Definition no_fault s s' : Prop := faults (dev s') = faults (dev s).

Lemma read_sectors_spec ns lba n buf s ok s' :
  nvme_read_sectors ns lba n buf s = (ok, s') ->
  VOLUMES s' = VOLUMES s /\ BLK_CACHE_TAGS s' = BLK_CACHE_TAGS s /\ BLK_CACHE_ON s' = BLK_CACHE_ON s /\
  same_disk (dev s) (dev s') /\
  (forall a, a < buf \/ buf + Z.max n 0 * 512 <= a -> memory s' a = memory s a) /\
  if ok then no_fault s s' /\ n <= 256 /\ (forall k, 0 <= k < n * 512 -> memory s' (buf + k) = disk (dev s) ns (lba * 512 + k))
  else s' = s \/ faults (dev s) < faults (dev s').
Proof using DeviceLaws0.
  unfold nvme_read_sectors, NVME_MAX_SECTORS.
  destruct ((n =? 0) || (256 <? n)) eqn:Eg; [intros [= <- <-]; split_and!; auto; done|].
  destruct (nvme_read ns lba n (dev s)) as [[ok0 bs] d] eqn:E. intros [= <- <-].
  cbn [VOLUMES BLK_CACHE_TAGS BLK_CACHE_ON dev memory set_dev set_memory].
  destruct ok0.
  - apply read_done in E as (-> & Hd & Hf). split_and!; try done.
    + intros a Ha. apply copy_to_out. rewrite length_slice_at. lia.
    + lia.
    + intros k Hk. replace (buf + k) with (buf + Z.of_nat (Z.to_nat k)) by lia.
      apply copy_to_in. rewrite lookup_slice_at by lia. do 2 f_equal. lia.
  - apply read_failed in E as (Hl & Hd & Hf). split_and!; try done; [|by right].
    intros a Ha. apply copy_to_out. lia.
Qed.

Lemma w32_small x : 0 <= x < 2^32 -> w32 x = x.
Proof using Type. intros H. unfold w32. by apply Z.mod_small. Qed.

Lemma vol_id_range s vol_id v : volumes_ok (VOLUMES s) -> vol_get vol_id s = Some v -> 0 <= vol_id < 16.
Proof using Type.
  intros Hv H. pose proof (vo_count _ Hv). apply lookupZ_Some in H as [H1 H2].
  apply lookup_lt_Some in H2. unfold VOL_MAX in *. lia.
Qed.

(** Nothing but the cache window and the tags changed. *)
Definition cache_only s s' : Prop :=
  VOLUMES s' = VOLUMES s /\ BLK_CACHE_ON s' = BLK_CACHE_ON s /\ same_disk (dev s) (dev s') /\
  forall a, ~ window a -> memory s' a = memory s a.

Lemma cache_only_refl s : cache_only s s.
Proof using Type. by unfold cache_only, same_disk. Qed.

Lemma same_disk_trans (d1 d2 d3 : D) : same_disk d1 d2 -> same_disk d2 d3 -> same_disk d1 d3.
Proof using Type. intros H1 H2 k a. by rewrite H2. Qed.

Lemma cache_only_trans s1 s2 s3 : cache_only s1 s2 -> cache_only s2 s3 -> cache_only s1 s3.
Proof using Type.
  intros (A1 & A2 & A3 & A4) (B1 & B2 & B3 & B4).
  split_and!; [congruence|congruence|by eapply same_disk_trans|]. intros a Ha. by rewrite B4, A4.
Qed.

(** What a fill does, whatever the cache holds: it touches nothing outside the cache window, and a
    fill that fails has left everything as it was or met a failed command. *)
Lemma fill_frame vol_id v page s ok s' :
  blk_cache_fill vol_id v page s = (ok, s') ->
  cache_only s s' /\ faults (dev s) <= faults (dev s') /\
  (ok = true -> no_fault s s') /\ (ok = false -> s' = s \/ faults (dev s) < faults (dev s')).
Proof using DeviceLaws0.
  unfold blk_cache_fill, BLK_CACHE_SECTORS_PER_LINE.
  destruct ((sectors v =? 0) || (sectors v <=? page * 8)) eqn:Eg.
  { intros [= <- <-]. split_and!; [apply cache_only_refl|lia|done|by left]. }
  pose proof (slot_range vol_id page) as Hslot. set (n := Z.min (sectors v - page * 8) 8).
  destruct (nvme_read_sectors _ _ n _ s) as [ok1 s1] eqn:Er.
  destruct (read_sectors_spec _ _ _ _ _ _ _ Er) as (E1 & E2 & E3 & E4 & E5 & E6).
  assert (Hout : forall a, ~ window a -> memory s1 a = memory s a).
  { intros a Ha. apply E5. unfold window, blk_cache_line_ptr, BLK_CACHE_LINE_BYTES in *. lia. }
  destruct ok1; cbn [negb]; intros [= <- <-].
  - destruct E6 as [E6 _]. unfold no_fault in *. split_and!; try done. cbn [dev set_tags]. lia.
  - split_and!; try done. destruct E6 as [-> | E6]; lia.
Qed.

(** On success the page's slot holds the page. *)
Lemma fill_spec vol_id v page s s' :
  coherent s -> volumes_ok (VOLUMES s) -> vol_get vol_id s = Some v -> is_local v = true -> 0 <= page ->
  blk_cache_fill vol_id v page s = (true, s') ->
  coherent s' /\ page * 8 < sectors v /\
  lookupZ (BLK_CACHE_TAGS s') (blk_cache_slot vol_id page)
    = Some (mk_tag true vol_id page (Z.min (sectors v - page * 8) 8)).
Proof using DeviceLaws0.
  intros Hc Hvs Hg Hloc Hp. unfold blk_cache_fill, BLK_CACHE_SECTORS_PER_LINE.
  destruct ((sectors v =? 0) || (sectors v <=? page * 8)) eqn:Eg; [done|].
  assert (Hsec : page * 8 < sectors v) by lia.
  destruct (vo_range _ Hvs _ _ Hg) as (Hs0 & Hs1 & Hs2).
  pose proof (vol_id_range _ _ _ Hvs Hg) as Hid.
  set (slot := blk_cache_slot vol_id page). pose proof (slot_range vol_id page) as Hslot. fold slot in Hslot.
  set (n := Z.min (sectors v - page * 8) 8) in *.
  rewrite !(w32_small (page * 8)), (w32_small (start_lba v + page * 8)), (w32_small vol_id) by lia.
  destruct (nvme_read_sectors (nsid v) (start_lba v + page * 8) n (blk_cache_line_ptr slot) s) as [ok1 s1] eqn:Er.
  destruct (read_sectors_spec _ _ _ _ _ _ _ Er) as (E1 & E2 & E3 & E4 & E5 & E6).
  destruct ok1; cbn [negb]; intros [= <-].
  cbn [BLK_CACHE_TAGS set_tags].
  pose proof Hc as [Hl Hok]. destruct E6 as (E0 & _ & E6).
  assert (Hin : is_Some (lookupZ (BLK_CACHE_TAGS s) slot)).
  { destruct (lookupZ (BLK_CACHE_TAGS s) slot) eqn:El; [eauto|]. apply lookupZ_None in El.
    rewrite Hl in El. unfold BLK_CACHE_LINES in El. lia. }
  split_and!; [|done|rewrite E2; by apply lookupZ_insertZ_eq].
  split; [cbn; by rewrite length_insertZ, E2|].
  intros slot' t Ht Hval. cbn [BLK_CACHE_TAGS set_tags] in Ht. rewrite E2 in Ht.
  destruct (decide (slot' = slot)) as [->|Hne].
  - rewrite lookupZ_insertZ_eq in Ht by done. inv Ht. cbn [tvol tpage tsectors].
    exists v. unfold vol_get in *. cbn [VOLUMES set_tags]. rewrite E1. split_and!; try done; try lia.
    intros k Hk. cbn [memory dev set_tags]. rewrite E6 by done. by rewrite E4.
  - rewrite lookupZ_insertZ_ne in Ht by done. pose proof (lookup_tag_range _ _ _ Hc Ht) as Hr.
    destruct (Hok slot' t Ht Hval) as (w & H1 & H2 & H3 & H4 & H5 & H6 & H7).
    exists w. unfold vol_get in *. cbn [VOLUMES set_tags memory dev]. rewrite E1. split_and!; try done.
    intros k Hk. rewrite E4. rewrite <- H7 by done. apply E5.
    unfold blk_cache_line_ptr, BLK_CACHE_LINE_BYTES. lia.
Qed.

(** Whatever a fill meets: if no command failed, the cache is still coherent. *)
Lemma fill_coherent vol_id v page s ok s' :
  coherent s -> volumes_ok (VOLUMES s) -> vol_get vol_id s = Some v -> is_local v = true -> 0 <= page ->
  blk_cache_fill vol_id v page s = (ok, s') -> no_fault s s' -> coherent s'.
Proof using DeviceLaws0.
  intros Hc Hvs Hg Hloc Hp E Hn. destruct ok; [by eapply fill_spec|].
  destruct (fill_frame _ _ _ _ _ _ E) as (_ & _ & _ & F). unfold no_fault in *. destruct (F eq_refl) as [-> | F1]; [done|lia].
Qed.

(** A device that completes every well-formed read. *)
Definition reads_complete : Prop :=
  forall ns lba n d, 0 < n <= 256 -> fst (fst (nvme_read ns lba n d)) = true.

Lemma fill_complete vol_id v page s :
  reads_complete -> 0 <= page -> page * 8 < sectors v -> fst (blk_cache_fill vol_id v page s) = true.
Proof using Type.
  intros Hrc Hp Hs. unfold blk_cache_fill, nvme_read_sectors, BLK_CACHE_SECTORS_PER_LINE, NVME_MAX_SECTORS.
  destruct (Z.eqb_spec (sectors v) 0); [lia|]. destruct (Z.leb_spec (sectors v) (page * 8)); [lia|]. cbn [orb].
  set (cnt := Z.min _ _). destruct (Z.eqb_spec cnt 0); [lia|]. destruct (Z.ltb_spec 256 cnt); [lia|]. cbn [orb].
  specialize (Hrc (nsid v) (w32 (start_lba v + w32 (page * 8))) cnt (dev s) ltac:(lia)).
  destruct (nvme_read _ _ cnt (dev s)) as [[ok bs] d]. cbn in Hrc. by subst ok.
Qed.

Lemma tag_hit_Some vol_id page s t :
  tag_hit vol_id page s = Some t ->
  lookupZ (BLK_CACHE_TAGS s) (blk_cache_slot vol_id page) = Some t /\ valid t = true /\
  tvol t = w32 vol_id /\ tpage t = page.
Proof using Type.
  unfold tag_hit. destruct (lookupZ _ _) as [t'|]; [|done]. destruct (_ && _) eqn:E; [|done].
  intros [= ->]. rewrite !andb_true_iff, !Z.eqb_eq in E. tauto.
Qed.

(** The line of a page, found or filled. *)
Lemma line_sectors_spec vol_id v page s o s' :
  coherent s -> volumes_ok (VOLUMES s) -> vol_get vol_id s = Some v -> is_local v = true -> 0 <= page ->
  line_sectors_of vol_id v page s = (o, s') ->
  cache_only s s' /\ faults (dev s) <= faults (dev s') /\ (no_fault s s' -> coherent s') /\
  (reads_complete -> page * 8 < sectors v -> is_Some o) /\
  forall n, o = Some n ->
    no_fault s s' /\ n = Z.min (sectors v - page * 8) 8 /\ 0 < n /\
    forall k, 0 <= k < n * 512 ->
      memory s' (blk_cache_line_ptr (blk_cache_slot vol_id page) + k)
      = disk (dev s) (nsid v) ((start_lba v + page * 8) * 512 + k).
Proof using DeviceLaws0.
  intros Hc Hvs Hg Hloc Hp. pose proof (vol_id_range _ _ _ Hvs Hg) as Hid.
  assert (Hline : forall s1 t, coherent s1 -> VOLUMES s1 = VOLUMES s -> same_disk (dev s) (dev s1) ->
            lookupZ (BLK_CACHE_TAGS s1) (blk_cache_slot vol_id page) = Some t -> valid t = true ->
            tvol t = vol_id -> tpage t = page ->
            tsectors t = Z.min (sectors v - page * 8) 8 /\ 0 < tsectors t /\
            forall k, 0 <= k < tsectors t * 512 ->
              memory s1 (blk_cache_line_ptr (blk_cache_slot vol_id page) + k)
              = disk (dev s) (nsid v) ((start_lba v + page * 8) * 512 + k)).
  { intros s1 t [_ Hok] Hv Hd Hl Hval <- <-.
    destruct (Hok _ _ Hl Hval) as (w & H1 & _ & _ & _ & H5 & H6 & H7).
    assert (w = v) as -> by (unfold vol_get in *; congruence). split_and!; [done|done|].
    intros k Hk. rewrite H7 by done. by rewrite Hd. }
  unfold line_sectors_of, blk_cache_probe. destruct (tag_hit vol_id page s) as [t|] eqn:Et; cbn [fmap option_fmap option_map].
  - intros [= <- <-]. apply tag_hit_Some in Et as (H1 & H2 & H3 & H4).
    rewrite w32_small in H3 by lia.
    split_and!; [apply cache_only_refl|lia|done|eauto|]. intros n [= <-].
    split; [done|]. by apply (Hline s t).
  - pose proof (fill_complete vol_id v page s) as Hcomp.
    destruct (blk_cache_fill vol_id v page s) as [ok s1] eqn:Ef. cbn [fst] in Hcomp.
    destruct (fill_frame _ _ _ _ _ _ Ef) as (F1 & F2 & F3 & F4).
    pose proof (fill_coherent _ _ _ _ _ _ Hc Hvs Hg Hloc Hp Ef) as F5. pose proof F1 as (F6 & _ & F7 & _).
    destruct ok; cbn [negb]; intros [= <- <-].
    + destruct (fill_spec _ _ _ _ _ Hc Hvs Hg Hloc Hp Ef) as (F8 & F9 & F10). rewrite F10. split_and!; [done|done|done|eauto|].
      intros n [= <-]. split; [by apply F3|]. apply (Hline s1 (mk_tag true vol_id page (Z.min (sectors v - page * 8) 8))); done.
    + split_and!; [done|done|done| |done]. intros Hrc Hs. by specialize (Hcomp Hrc Hp Hs).
Qed.

(** *** Reading through the cache *)

Definition sector_bytes s (v : Volume) (lba : Z) (k : Z) : Z :=
  disk (dev s) (nsid v) ((start_lba v + lba) * 512 + k).

Lemma cache_read_loop_spec fuel vol_id v lba count dst done_ s ok s' :
  coherent s -> volumes_ok (VOLUMES s) -> vol_get vol_id s = Some v -> is_local v = true ->
  0 <= lba -> 0 <= done_ -> count - done_ <= Z.of_nat fuel -> buffer_ok dst count ->
  (done_ = 0 \/ lba + done_ <= sectors v) -> done_ <= count ->
  (forall k, 0 <= k < done_ * 512 -> memory s (dst + k) = sector_bytes s v lba k) ->
  cache_read_loop fuel vol_id v lba count dst done_ s = (ok, s') ->
  (faults (dev s) <= faults (dev s') /\ (no_fault s s' -> coherent s') /\ (ok = true -> no_fault s s')) /\ VOLUMES s' = VOLUMES s /\ BLK_CACHE_ON s' = BLK_CACHE_ON s /\ same_disk (dev s) (dev s') /\
  (forall a, ~ window a -> a < dst \/ dst + count * 512 <= a -> memory s' a = memory s a) /\
  (ok = true -> (count = 0 \/ lba + count <= sectors v) /\
     forall k, 0 <= k < count * 512 -> memory s' (dst + k) = sector_bytes s v lba k) /\
  (reads_complete -> lba + count <= sectors v -> ok = true).
Proof using DeviceLaws0.
  revert done_ s. induction fuel as [|fuel IH];
    intros done_ s Hc Hvs Hg Hloc Hlba Hd0 Hf Hbuf Hin Hdc Hbytes; cbn [cache_read_loop];
    destruct (Z.leb_spec count done_) as [Hle|Hlt].
  - assert (done_ = count) as -> by lia. intros [= <- <-]. by split_and!.
  - lia.
  - assert (done_ = count) as -> by lia. intros [= <- <-]. by split_and!.
  - unfold BLK_CACHE_SECTORS_PER_LINE, NVME_SECTOR_SIZE.
    pose proof (Z.div_mod (lba + done_) 8 ltac:(lia)) as Hdm.
    pose proof (Z.mod_pos_bound (lba + done_) 8 ltac:(lia)) as Hoff.
    set (page := (lba + done_) / 8) in *. set (off := (lba + done_) mod 8) in *.
    assert (Hpage : 0 <= page) by (unfold page; apply Z.div_pos; lia).
    destruct (line_sectors_of vol_id v page s) as [o s1] eqn:El.
    destruct (line_sectors_spec _ _ _ _ _ _ Hc Hvs Hg Hloc Hpage El) as ((L2 & L3 & L4 & L5) & L0 & L1 & L6 & L7).
    assert (Hsame : forall a, ~ window a -> a < dst \/ dst + count * 512 <= a -> memory s1 a = memory s a) by auto.
    destruct o as [ls|].
    2:{ intros [= <- <-]. split_and!; try done. intros Hrc Hle.
        destruct (L6 Hrc ltac:(lia)) as [? ?]. done. }
    destruct (L7 ls eq_refl) as (Hnf & Hls & Hls0 & Hline). specialize (L1 Hnf).
    destruct (Z.leb_spec ls off) as [Hlo|Hlo].
    { intros [= <- <-]. split_and!; try done. intros _ Hle. lia. }
    set (n := Z.min (ls - off) (count - done_)) in *.
    set (bs := slice_at _ _ (memory s1)). set (s2 := set_memory s1 _).
    assert (Hlen : length bs = Z.to_nat (n * 512)) by apply length_slice_at.
    assert (Hnw : forall k, 0 <= k < count * 512 -> ~ window (dst + k))
      by (intros k Hk; unfold window, buffer_ok in *; lia).
    intros E. eapply IH in E; clear IH.
    + destruct E as ((R0 & R1 & R1') & R2 & R3 & R4 & R5 & R6 & R7). unfold no_fault in *.
      cbn [VOLUMES BLK_CACHE_ON dev s2 set_memory] in R0, R1, R1', R2, R3, R4.
      assert (Hsd : same_disk (dev s) (dev s')) by (intros k a; by rewrite R4, L4).
      rewrite Hnf in R0, R1, R1'. split_and!; try congruence; try done.
      * intros a Ha Hb. rewrite R5 by done. cbn [memory s2 set_memory].
        rewrite copy_to_out by lia. by apply L5.
      * intros Hok. destruct (R6 Hok) as [R8 R9]. split; [done|]. intros k Hk. rewrite R9 by done.
        unfold sector_bytes. cbn [dev s2 set_memory]. apply L4.
    + apply (coherent_frame s1); try done. intros a Ha. cbn [memory s2 set_memory]. apply copy_to_out.
      unfold window, buffer_ok in *. lia.
    + cbn [VOLUMES s2 set_memory]. by rewrite L2.
    + unfold vol_get in *. cbn [VOLUMES s2 set_memory]. by rewrite L2.
    + done.
    + done.
    + lia.
    + lia.
    + done.
    + lia.
    + lia.
    + intros k Hk. unfold sector_bytes. cbn [memory dev s2 set_memory]. rewrite L4.
      destruct (decide (k < done_ * 512)).
      * rewrite copy_to_out by lia. rewrite L5 by (apply Hnw; lia). apply Hbytes. lia.
      * replace (dst + k) with (dst + done_ * 512 + Z.of_nat (Z.to_nat (k - done_ * 512))) by lia.
        apply copy_to_in. unfold bs. rewrite lookup_slice_at by lia. f_equal.
        replace (blk_cache_line_ptr (blk_cache_slot vol_id page) + off * 512 + Z.of_nat (Z.to_nat (k - done_ * 512)))
          with (blk_cache_line_ptr (blk_cache_slot vol_id page) + (off * 512 + (k - done_ * 512))) by lia.
        rewrite Hline by lia. f_equal. lia.
Qed.

(** Prefetching changes only the cache, and leaves it coherent if no command failed. *)
Lemma prefetch_spec vol_id v pages s :
  Forall (fun p => 0 <= p) pages ->
  let s' := foldl (prefetch_page vol_id v) s pages in
  cache_only s s' /\ faults (dev s) <= faults (dev s') /\
  (coherent s -> volumes_ok (VOLUMES s) -> vol_get vol_id s = Some v -> is_local v = true -> no_fault s s' -> coherent s').
Proof using DeviceLaws0.
  cbv zeta. intros Hp. revert s. induction Hp as [|p pages Hp _ IH]; intros s; cbn [foldl].
  { split_and!; [apply cache_only_refl|lia|done]. }
  assert (H1 : let s1 := prefetch_page vol_id v s p in cache_only s s1 /\ faults (dev s) <= faults (dev s1) /\
    (coherent s -> volumes_ok (VOLUMES s) -> vol_get vol_id s = Some v -> is_local v = true -> no_fault s s1 -> coherent s1)).
  { cbv zeta. unfold prefetch_page. destruct (is_none _); [|split_and!; [apply cache_only_refl|lia|done]].
    destruct (blk_cache_fill vol_id v p s) as [ok s1] eqn:Ef. cbn [snd].
    destruct (fill_frame _ _ _ _ _ _ Ef) as (F1 & F2 & _). split_and!; [done|done|]. intros. by eapply fill_coherent. }
  cbv zeta in H1. destruct H1 as (H1 & H2 & H3). destruct (IH (prefetch_page vol_id v s p)) as (K1 & K2 & K3).
  pose proof (proj1 H1) as Hv. split_and!; [by eapply cache_only_trans|lia|].
  unfold no_fault in *. intros Hc Hvs Hg Hl Hn. apply K3; [apply H3; try done; lia|by rewrite Hv|unfold vol_get in *; by rewrite Hv|done|lia].
Qed.

Lemma blk_cache_read_spec vol_id v lba count dst s ok s' :
  coherent s -> volumes_ok (VOLUMES s) -> vol_get vol_id s = Some v -> is_local v = true ->
  0 <= lba -> 0 < count -> buffer_ok dst count ->
  blk_cache_read vol_id v lba count dst s = (ok, s') ->
  (faults (dev s) <= faults (dev s') /\ (no_fault s s' -> coherent s')) /\ VOLUMES s' = VOLUMES s /\ BLK_CACHE_ON s' = BLK_CACHE_ON s /\ same_disk (dev s) (dev s') /\
  (forall a, ~ window a -> a < dst \/ dst + count * 512 <= a -> memory s' a = memory s a) /\
  (ok = true -> lba + count <= sectors v /\
     forall k, 0 <= k < count * 512 -> memory s' (dst + k) = sector_bytes s v lba k) /\
  (reads_complete -> lba + count <= sectors v -> ok = true).
Proof using DeviceLaws0.
  intros Hc Hvs Hg Hloc Hlba Hcnt Hbuf. unfold blk_cache_read.
  destruct (cache_read_loop _ _ _ _ _ _ _ s) as [ok1 s1] eqn:El.
  apply cache_read_loop_spec in El as ((R0 & R1 & R1') & R2 & R3 & R4 & R5 & R6 & R7); try done; try lia.
  destruct ok1; cbn [negb]; [|by intros [= <- <-]].
  destruct (R6 eq_refl) as [R8 R9]. specialize (R1' eq_refl). specialize (R1 R1').
  set (s2 := if _ && _ then _ else s1).
  assert (H2 : cache_only s1 s2 /\ faults (dev s1) <= faults (dev s2) /\ (no_fault s1 s2 -> coherent s2)).
  { unfold s2. destruct (_ && _); [|split_and!; [apply cache_only_refl|lia|done]].
    edestruct (prefetch_spec vol_id v) as (P1 & P2 & P3); [|split_and!; [exact P1|exact P2|]].
    - apply Forall_forall. intros p Hp%elem_of_seqZ. unfold BLK_CACHE_SECTORS_PER_LINE in *.
      pose proof (Z.div_pos (lba + count - 1) 8). lia.
    - apply P3; [done|by rewrite R2|unfold vol_get in *; by rewrite R2|done]. }
  clearbody s2. destruct H2 as ((H2 & H3 & H4 & H5) & H6 & H7). unfold no_fault in *.
  assert (Hnw : forall k, 0 <= k < count * 512 -> ~ window (dst + k))
    by (intros k Hk; unfold window, buffer_ok in *; lia).
  intros [= <- <-]. cbn [VOLUMES BLK_CACHE_ON dev memory set_seq].
  split_and!; [lia|intros Hn; apply (coherent_frame s2); try done; apply H7; lia|congruence|congruence|by eapply same_disk_trans| | |done].
  - intros a Ha Hb. by rewrite H5, R5.
  - intros _. split; [lia|]. intros k Hk. rewrite H5 by auto. by apply R9.
Qed.

(** *** The direct path *)

Lemma direct_read_spec fuel ns base total buf done_ s ok s' :
  0 <= done_ <= total -> total - done_ <= Z.of_nat fuel * 256 ->
  0 <= base -> base + total < 2^32 -> buffer_ok buf total -> coherent s ->
  (forall k, 0 <= k < done_ * 512 -> memory s (buf + k) = disk (dev s) ns (base * 512 + k)) ->
  direct_loop fuel true ns base total buf done_ s = (ok, s') ->
  (faults (dev s) <= faults (dev s') /\ coherent s') /\ VOLUMES s' = VOLUMES s /\ BLK_CACHE_ON s' = BLK_CACHE_ON s /\ same_disk (dev s) (dev s') /\
  (forall a, a < buf \/ buf + total * 512 <= a -> memory s' a = memory s a) /\
  (ok = true -> forall k, 0 <= k < total * 512 -> memory s' (buf + k) = disk (dev s) ns (base * 512 + k)) /\
  (reads_complete -> ok = true).
Proof using DeviceLaws0.
  revert done_ s. induction fuel as [|fuel IH];
    intros done_ s Hd Hf Hb Hb32 Hbuf Hc Hbytes; cbn [direct_loop];
    destruct (Z.leb_spec total done_) as [Hle|Hlt].
  - assert (done_ = total) as -> by lia. intros [= <- <-]. by split_and!.
  - lia.
  - assert (done_ = total) as -> by lia. intros [= <- <-]. by split_and!.
  - unfold NVME_MAX_SECTORS. set (chunk := Z.min (total - done_) 256) in *.
    assert (Ea : saturating_add32 base (w32 done_) = base + done_)
      by (unfold saturating_add32; rewrite w32_small by lia; lia).
    rewrite Ea.
    assert (Hcomp : reads_complete -> fst (nvme_read_sectors ns (base + done_) chunk (buf + done_ * 512) s) = true).
    { intros Hrc. unfold nvme_read_sectors, NVME_MAX_SECTORS.
      destruct (Z.eqb_spec chunk 0); [lia|]. destruct (Z.ltb_spec 256 chunk); [lia|]. cbn [orb].
      specialize (Hrc ns (base + done_) chunk (dev s) ltac:(lia)).
      by destruct (nvme_read ns (base + done_) chunk (dev s)) as [[? ?] ?]. }
    destruct (nvme_read_sectors ns (base + done_) chunk (buf + done_ * 512) s) as [ok1 s1] eqn:Er.
    cbn [fst] in Hcomp.
    destruct (read_sectors_spec _ _ _ _ _ _ _ Er) as (E1 & E2 & E3 & E4 & E5 & E6).
    assert (Hc1 : coherent s1).
    { apply (coherent_frame s); try done. intros a Ha. apply E5. unfold window, buffer_ok in *. lia. }
    destruct ok1; cbn [negb].
    2:{ intros [= <- <-]. split_and!; try done; [destruct E6 as [-> | E6]; lia|]. intros a Ha. apply E5. lia. }
    destruct E6 as (E0 & _ & E6). unfold no_fault in E0. intros E. eapply IH in E; try done; try lia.
    + destruct E as ((R0 & R1) & R2 & R3 & R4 & R5 & R6 & R7).
      split_and!; [lia|done|congruence|congruence|by eapply same_disk_trans| | |done].
      * intros a Ha. rewrite R5 by done. apply E5. lia.
      * intros Hok k Hk. rewrite R6 by done. apply E4.
    + intros k Hk. rewrite E4. destruct (decide (k < done_ * 512)).
      * rewrite E5 by lia. apply Hbytes. lia.
      * replace (buf + k) with (buf + done_ * 512 + (k - done_ * 512)) by lia.
        rewrite E6 by lia. f_equal. lia.
Qed.

Lemma direct_write_spec fuel ns base total buf done_ s s' :
  0 <= done_ <= total -> total - done_ <= Z.of_nat fuel * 256 -> 0 <= base -> base + total < 2^32 ->
  direct_loop fuel false ns base total buf done_ s = (true, s') ->
  VOLUMES s' = VOLUMES s /\ BLK_CACHE_ON s' = BLK_CACHE_ON s /\ BLK_CACHE_TAGS s' = BLK_CACHE_TAGS s /\
  memory s' = memory s /\ no_fault s s' /\
  forall k a, disk (dev s') k a =
    if (k =? ns) && ((base + done_) * 512 <=? a) && (a <? (base + total) * 512)
    then memory s (buf + (a - base * 512)) else disk (dev s) k a.
Proof using DeviceLaws0.
  revert done_ s. induction fuel as [|fuel IH]; intros done_ s Hd Hf Hb Hb32; cbn [direct_loop];
    destruct (Z.leb_spec total done_) as [Hle|Hlt].
  - assert (done_ = total) as -> by lia. intros [= <-]. split_and!; try done. intros k a.
    destruct (Z.leb_spec ((base + total) * 512) a), (Z.ltb_spec a ((base + total) * 512)); try lia;
      by rewrite ?andb_false_r.
  - lia.
  - assert (done_ = total) as -> by lia. intros [= <-]. split_and!; try done. intros k a.
    destruct (Z.leb_spec ((base + total) * 512) a), (Z.ltb_spec a ((base + total) * 512)); try lia;
      by rewrite ?andb_false_r.
  - unfold NVME_MAX_SECTORS. set (chunk := Z.min (total - done_) 256) in *.
    assert (Ea : saturating_add32 base (w32 done_) = base + done_)
      by (unfold saturating_add32; rewrite w32_small by lia; lia).
    rewrite Ea. unfold nvme_write_sectors, NVME_MAX_SECTORS, NVME_SECTOR_SIZE.
    destruct (Z.eqb_spec chunk 0); [lia|]. destruct (Z.ltb_spec 256 chunk); [lia|]. cbn [orb].
    set (bs := slice_at _ _ (memory s)).
    destruct (nvme_write ns (base + done_) bs (dev s)) as [ok1 d1] eqn:Ew.
    destruct ok1; cbn [negb]; [|done]. destruct (write_done _ _ _ _ _ Ew) as [Hf1 Hw].
    intros E. apply IH in E as (R1 & R2 & R3 & R4 & R0 & R5); [|lia..]. unfold no_fault in *.
    cbn [VOLUMES BLK_CACHE_ON BLK_CACHE_TAGS memory dev set_dev] in *. split_and!; try done; [congruence|].
    intros k a. rewrite R5. rewrite Hw. destruct (Z.eqb_spec k ns) as [->|]; cbn [andb]; [|done].
    assert (Hlen : length bs = Z.to_nat (chunk * 512)) by apply length_slice_at.
    destruct (Z.ltb_spec a ((base + total) * 512)) as [Ht|Ht].
    + rewrite !andb_true_r. destruct (Z.leb_spec ((base + (done_ + chunk)) * 512) a) as [H1|H1].
      { by rewrite (proj2 (Z.leb_le _ _)) by lia. }
      destruct (Z.leb_spec ((base + done_) * 512) a) as [H2|H2].
      * replace a with ((base + done_) * 512 + Z.of_nat (Z.to_nat (a - (base + done_) * 512))) at 1 by lia.
        apply copy_to_in. unfold bs. rewrite lookup_slice_at by lia. do 2 f_equal. lia.
      * apply copy_to_out. lia.
    + rewrite !andb_false_r. apply copy_to_out. lia.
Qed.

(** A write that is not completed has met a failed command. *)
Lemma direct_write_failed fuel ns base total buf done_ s s' :
  0 <= done_ <= total -> total - done_ <= Z.of_nat fuel * 256 ->
  direct_loop fuel false ns base total buf done_ s = (false, s') ->
  VOLUMES s' = VOLUMES s /\ faults (dev s) < faults (dev s').
Proof using DeviceLaws0.
  revert done_ s. induction fuel as [|fuel IH]; intros done_ s Hd Hf; cbn [direct_loop];
    destruct (Z.leb_spec total done_) as [Hle|Hlt]; try done; [lia|].
  unfold NVME_MAX_SECTORS. set (chunk := Z.min (total - done_) 256) in *. set (lba := saturating_add32 _ _).
  unfold nvme_write_sectors, NVME_MAX_SECTORS.
  destruct (Z.eqb_spec chunk 0); [lia|]. destruct (Z.ltb_spec 256 chunk); [lia|]. cbn [orb].
  set (bs := slice_at _ _ _). destruct (nvme_write ns lba bs (dev s)) as [[|] d1] eqn:Ew; cbn [negb].
  - apply write_done in Ew as [Ew _]. intros E. apply IH in E as [E1 E2]; [|lia..]. cbn [VOLUMES dev set_dev] in *. split; [done|lia].
  - apply write_failed in Ew. by intros [= <-].
Qed.

(** *** Invalidation *)

Lemma invalidate_pages_spec vol_id pages s :
  let s' := foldl (invalidate_page vol_id) s pages in
  VOLUMES s' = VOLUMES s /\ BLK_CACHE_ON s' = BLK_CACHE_ON s /\ memory s' = memory s /\ dev s' = dev s /\
  length (BLK_CACHE_TAGS s') = length (BLK_CACHE_TAGS s) /\
  forall slot t, lookupZ (BLK_CACHE_TAGS s') slot = Some t -> valid t = true ->
    lookupZ (BLK_CACHE_TAGS s) slot = Some t /\
    forall p, p ∈ pages -> tvol t = w32 vol_id -> tpage t = p -> slot <> blk_cache_slot vol_id p.
Proof using Type.
  revert s. induction pages as [|p pages IH]; intros s; cbn [foldl].
  { split_and!; try done. intros slot t H _. split; [done|]. intros q Hq. by apply elem_of_nil in Hq. }
  destruct (IH (invalidate_page vol_id s p)) as (I1 & I2 & I3 & I4 & I5 & I6).
  assert (Hone : VOLUMES (invalidate_page vol_id s p) = VOLUMES s /\
    BLK_CACHE_ON (invalidate_page vol_id s p) = BLK_CACHE_ON s /\
    memory (invalidate_page vol_id s p) = memory s /\ dev (invalidate_page vol_id s p) = dev s /\
    length (BLK_CACHE_TAGS (invalidate_page vol_id s p)) = length (BLK_CACHE_TAGS s) /\
    forall slot t, lookupZ (BLK_CACHE_TAGS (invalidate_page vol_id s p)) slot = Some t -> valid t = true ->
      lookupZ (BLK_CACHE_TAGS s) slot = Some t /\
      (tvol t = w32 vol_id -> tpage t = p -> slot <> blk_cache_slot vol_id p)).
  { unfold invalidate_page. destruct (tag_hit vol_id p s) as [t0|] eqn:Et.
    - apply tag_hit_Some in Et as (H1 & H2 & H3 & H4). cbn [VOLUMES BLK_CACHE_ON memory dev BLK_CACHE_TAGS set_tags].
      split_and!; try done; [apply length_insertZ|]. intros slot t Ht Hval.
      destruct (decide (slot = blk_cache_slot vol_id p)) as [->|Hne].
      + rewrite lookupZ_insertZ_eq in Ht by eauto. by inv Ht.
      + rewrite lookupZ_insertZ_ne in Ht by done. done.
    - split_and!; try done. intros slot t Ht Hval. split; [done|]. intros Hv Hpg ->.
      unfold tag_hit in Et. rewrite Ht, Hval, Hv, Hpg, !Z.eqb_refl in Et. done. }
  destruct Hone as (O1 & O2 & O3 & O4 & O5 & O6). split_and!; try congruence.
  intros slot t Ht Hval. destruct (I6 slot t Ht Hval) as [K1 K2]. destruct (O6 slot t K1 Hval) as [K3 K4].
  split; [done|]. intros q Hq. apply elem_of_cons in Hq as [->|Hq]; [done|]. by apply K2.
Qed.

(** The disk after a write: the sectors written, and nothing else. *)
Definition sectors_written s s' (v : Volume) (lba count buf : Z) : Prop :=
  forall k a, disk (dev s') k a =
    if (k =? nsid v) && ((start_lba v + lba) * 512 <=? a) && (a <? (start_lba v + lba + count) * 512)
    then memory s (buf + (a - (start_lba v + lba) * 512)) else disk (dev s) k a.

Lemma invalidate_coherent vol_id v lba count buf s s1 :
  coherent s -> volumes_ok (VOLUMES s) -> vol_get vol_id s = Some v -> is_local v = true ->
  0 <= lba -> 0 < count -> lba + count <= sectors v ->
  VOLUMES s1 = VOLUMES s -> BLK_CACHE_TAGS s1 = BLK_CACHE_TAGS s -> memory s1 = memory s ->
  sectors_written s s1 v lba count buf ->
  coherent (blk_cache_invalidate vol_id lba count s1).
Proof using Type.
  intros Hc Hvs Hg Hloc Hlba Hcnt Hin E1 E2 E3 Hw. unfold blk_cache_invalidate, BLK_CACHE_SECTORS_PER_LINE.
  destruct (Z.eqb_spec count 0); [lia|].
  set (first := lba / 8). set (last := (lba + count - 1) / 8).
  destruct (invalidate_pages_spec vol_id (seqZ first (last - first + 1)) s1) as (I1 & I2 & I3 & I4 & I5 & I6).
  set (s2 := foldl _ s1 _) in *. pose proof (vol_id_range _ _ _ Hvs Hg) as Hid.
  split; [rewrite I5, E2; apply Hc|].
  intros slot t Ht Hval. destruct (I6 slot t Ht Hval) as [K1 K2]. rewrite E2 in K1.
  destruct (proj2 Hc slot t K1 Hval) as (w & H1 & H2 & H3 & H4 & H5 & H6 & H7).
  exists w. unfold vol_get in *. rewrite I1, E1. split_and!; try done.
  intros k Hk. rewrite I3, E3, I4, H7 by done. symmetry. rewrite Hw.
  destruct (Z.eqb_spec (nsid w) (nsid v)) as [Ens|]; cbn [andb]; [|done].
  set (a := (start_lba w + tpage t * 8) * 512 + k).
  assert (Hout : a < (start_lba v + lba) * 512 \/ (start_lba v + lba + count) * 512 <= a).
  { destruct (decide (tvol t = vol_id)) as [Ev|Ev].
    - rewrite Ev in H1. assert (w = v) as -> by congruence.
      assert (Hpg : tpage t < first \/ last < tpage t).
      { destruct (decide (first <= tpage t <= last)); [|lia]. exfalso.
        apply (K2 (tpage t)); [apply elem_of_seqZ; lia|rewrite w32_small by lia; done|done|].
        by rewrite <- Ev. }
      pose proof (Z.div_mod lba 8 ltac:(lia)). pose proof (Z.mod_pos_bound lba 8 ltac:(lia)).
      pose proof (Z.div_mod (lba + count - 1) 8 ltac:(lia)).
      pose proof (Z.mod_pos_bound (lba + count - 1) 8 ltac:(lia)).
      fold first in H. fold last in H8. unfold a. lia.
    - destruct (vo_disjoint _ Hvs _ _ _ _ H1 Hg Ev H2 Hloc) as [?|Hdis]; [done|].
      destruct (vo_range _ Hvs _ _ H1) as (? & ? & ?). unfold a. lia. }
  destruct (Z.leb_spec ((start_lba v + lba) * 512) a), (Z.ltb_spec a ((start_lba v + lba + count) * 512));
    cbn [andb]; done || lia.
Qed.

(** ** Requests *)

(** A request on a local volume, inside the volume and with its buffer outside the cache. *)
Definition in_volume s (vol_id : Z) (v : Volume) (lba count buf : Z) : Prop :=
  vol_get vol_id s = Some v /\ is_local v = true /\ 0 <= lba /\ 0 < count /\ lba + count <= sectors v /\
  buffer_ok buf count.

Lemma direct_turns_enough total : 0 < total -> total <= Z.of_nat (direct_turns total) * 256.
Proof using Type.
  intros H. unfold direct_turns, div_ceil, NVME_MAX_SECTORS.
  pose proof (Z.div_mod (total + 256 - 1) 256 ltac:(lia)).
  pose proof (Z.mod_pos_bound (total + 256 - 1) 256 ltac:(lia)). lia.
Qed.

Lemma local_backend v : is_local v = true -> (backend v =? BACKEND_AHCI) || (backend v =? BACKEND_USB) = false.
Proof using Type. unfold is_local. by destruct (_ || _). Qed.

Lemma base_lba_exact v lba count :
  0 <= start_lba v -> 0 <= lba -> 0 < count -> lba + count <= sectors v -> start_lba v + sectors v < 2^32 ->
  saturating_add32 (start_lba v) (w32 lba) = start_lba v + lba.
Proof using Type. intros. unfold saturating_add32. rewrite w32_small by lia. lia. Qed.

Lemma block_read_spec s vol_id v lba count buf r s' :
  coherent s -> volumes_ok (VOLUMES s) -> in_volume s vol_id v lba count buf ->
  block_rw true vol_id lba count buf s = (r, s') ->
  (faults (dev s) <= faults (dev s') /\ (no_fault s s' -> coherent s')) /\ VOLUMES s' = VOLUMES s /\ same_disk (dev s) (dev s') /\
  (forall a, ~ window a -> a < buf \/ buf + count * 512 <= a -> memory s' a = memory s a) /\
  (r = 1 -> forall k, 0 <= k < count * 512 -> memory s' (buf + k) = sector_bytes s v lba k) /\
  (reads_complete -> r = 1) /\ (r = 0 \/ r = 1).
Proof using DeviceLaws0.
  intros Hc Hvs (Hg & Hloc & Hlba & Hcnt & Hin & Hbuf). unfold block_rw. rewrite Hg, local_backend by done.
  destruct (Z.eqb_spec count 0); [lia|]. cbn [andb negb].
  destruct (vo_range _ Hvs _ _ Hg) as (Hs0 & Hs1 & Hs2).
  destruct (BLK_CACHE_ON s && _ && _).
  - destruct (blk_cache_read vol_id v lba count buf s) as [ok s1] eqn:E.
    apply blk_cache_read_spec in E as ((R0 & R1) & R2 & R3 & R4 & R5 & R6 & R7); try done; try lia.
    intros [= <- <-]. destruct ok.
    + destruct (R6 eq_refl) as [_ R8]. split_and!; try done; auto.
    + split_and!; try done; auto. intros Hrc. by specialize (R7 Hrc Hin).
  - rewrite (base_lba_exact v lba count) by lia.
    destruct (direct_loop _ true _ _ count buf 0 s) as [ok s1] eqn:E.
    apply direct_read_spec in E as ((R0 & R1) & R2 & R3 & R4 & R5 & R6 & R7); try done; try lia.
    2:{ pose proof (direct_turns_enough count Hcnt). lia. }
    intros [= <- <-]. destruct ok.
    + split_and!; try done; auto.
    + split_and!; try done; auto. intros Hrc. by specialize (R7 Hrc).
Qed.

Lemma block_write_spec s vol_id v lba count buf s' :
  coherent s -> volumes_ok (VOLUMES s) -> in_volume s vol_id v lba count buf ->
  block_rw false vol_id lba count buf s = (1, s') ->
  coherent s' /\ no_fault s s' /\ VOLUMES s' = VOLUMES s /\ memory s' = memory s /\ sectors_written s s' v lba count buf.
Proof using DeviceLaws0.
  intros Hc Hvs (Hg & Hloc & Hlba & Hcnt & Hin & Hbuf). unfold block_rw. rewrite Hg, local_backend by done.
  destruct (Z.eqb_spec count 0); [lia|]. cbn [andb negb].
  destruct (vo_range _ Hvs _ _ Hg) as (Hs0 & Hs1 & Hs2).
  rewrite (base_lba_exact v lba count) by lia.
  destruct (direct_loop _ false _ _ count buf 0 s) as [[|] s1] eqn:E; [|done].
  pose proof (direct_turns_enough count Hcnt) as Ht.
  apply direct_write_spec in E as (R1 & R2 & R3 & R4 & R0 & R5); [|lia..]. unfold no_fault in *.
  assert (Hw : sectors_written s s1 v lba count buf).
  { intros k a. rewrite R5. by rewrite Z.add_0_r. }
  intros [= <-].
  assert (Hf : forall x, blk_cache_invalidate vol_id lba count s1 = x ->
             VOLUMES x = VOLUMES s1 /\ memory x = memory s1 /\ dev x = dev s1).
  { intros x <-. unfold blk_cache_invalidate. destruct (count =? 0); [done|].
    edestruct (invalidate_pages_spec vol_id) as (I1 & _ & I3 & I4 & _). by rewrite I1, I3, I4. }
  destruct (Hf _ eq_refl) as (F1 & F2 & F3). split_and!; try congruence.
  - by eapply (invalidate_coherent vol_id v lba count buf s).
  - intros k a. rewrite F3. apply Hw.
Qed.

(** A write that is answered with a failure has met a failed command. *)
Lemma block_write_failed s vol_id v lba count buf r s' :
  in_volume s vol_id v lba count buf -> block_rw false vol_id lba count buf s = (r, s') -> r <> 1 ->
  VOLUMES s' = VOLUMES s /\ faults (dev s) < faults (dev s').
Proof using DeviceLaws0.
  intros (Hg & Hloc & Hlba & Hcnt & Hin & Hbuf). unfold block_rw. rewrite Hg, local_backend by done.
  destruct (Z.eqb_spec count 0); [lia|]. cbn [andb negb].
  destruct (direct_loop _ false _ _ count buf 0 s) as [[|] s1] eqn:E; intros [= <- <-] Hr; [done|].
  pose proof (direct_turns_enough count Hcnt) as Ht. apply direct_write_failed in E; [done|lia..].
Qed.

(** The states reached by requests inside their volumes, whatever they are answered; requests on
    other drivers' volumes, new volumes of these and listings may come in between. Flushing the cache, which every request that may
    change the partition table ends with, starts again from any volume table; the index is the
    number of failed commands at the last flush. Batches (BLOCK_OP_BATCH_READ, BLOCK_OP_BATCH_WRITE) are not
    modelled. *)
Inductive served : Z -> bsrv D -> Prop :=
| served_flush s : volumes_ok (VOLUMES s) -> served (faults (dev s)) (blk_cache_flush_all s)
| served_rw f s is_read vol_id v lba count buf r s' :
    served f s -> in_volume s vol_id v lba count buf -> block_rw is_read vol_id lba count buf s = (r, s') -> served f s'
| served_other f s is_read vol_id v lba count buf r s' :
    served f s -> vol_get vol_id s = Some v -> is_local v = false -> buffer_ok buf count ->
    block_rw is_read vol_id lba count buf s = (r, s') -> served f s'
| served_attach f s v :
    served f s -> is_local v = false -> volumes_ok (VOLUMES (vol_push v s)) -> served f (vol_push v s)
| served_list f s count buf r s' :
    served f s -> buffer_ok buf 1 -> vol_reply_list count buf s = (r, s') -> served f s'.

(** A volume of another driver is added at the end of the table. *)
Lemma push_coherent s v : coherent s -> coherent (vol_push v s).
Proof using Type.
  intros [Hl Hok]. unfold vol_push. destruct (_ <=? _)%nat; [done|]. split; [done|].
  intros slot t Ht Hval. destruct (Hok slot t Ht Hval) as (w & H1 & H2 & H3 & H4 & H5 & H6 & H7).
  exists w. split_and!; try done. unfold vol_get in *. cbn [VOLUMES set_volumes].
  apply lookupZ_Some in H1 as [H0 H1]. apply lookupZ_Some. split; [done|]. by apply lookup_app_l_Some.
Qed.

Lemma length_descs l (k : nat) : length (concat (imap (fun i => volume_desc (k + i)) l)) = (24 * length l)%nat.
Proof using Type.
  revert k. induction l as [|v l IH]; intros k; [done|]. cbn [imap]. cbn [concat length]. rewrite length_app.
  unfold volume_desc at 1. rewrite !length_app, !length_to_le.
  rewrite (imap_ext _ (fun i => volume_desc (S k + i))) by (intros i x _; unfold compose; f_equal; lia). rewrite IH. lia.
Qed.

(** The list of volumes fits in the first sector of the buffer. *)
Lemma list_frame s count buf r s' :
  volumes_ok (VOLUMES s) -> vol_reply_list count buf s = (r, s') ->
  VOLUMES s' = VOLUMES s /\ BLK_CACHE_TAGS s' = BLK_CACHE_TAGS s /\ dev s' = dev s /\
  forall a, a < buf \/ buf + 512 <= a -> memory s' a = memory s a.
Proof using Type.
  intros Hv [= <- <-]. split_and!; try done. intros a Ha. cbn [memory set_memory]. apply copy_to_out.
  pose proof (length_descs (take (Z.to_nat (Z.min count (Z.of_nat (length (VOLUMES s))))) (VOLUMES s)) 0) as Hl.
  change (fun i => volume_desc (0 + i)) with volume_desc in Hl. rewrite Hl, length_take. pose proof (vo_count _ Hv). unfold VOL_MAX in *. lia.
Qed.

Lemma flush_coherent s : coherent (blk_cache_flush_all s).
Proof using Type.
  split; [apply length_replicate|]. intros slot t Ht Hval. cbn in Ht. apply lookupZ_Some in Ht as [_ Ht].
  change (replicate 240 BLK_CACHE_TAG_EMPTY !! Z.to_nat slot = Some t) in Ht.
  apply lookup_replicate in Ht as [-> _]. done.
Qed.

(** Whatever the cache holds, a request keeps the volumes and can only add failed commands. *)
Definition mono s s' : Prop := VOLUMES s' = VOLUMES s /\ faults (dev s) <= faults (dev s').
#[local] Instance mono_preorder : PreOrder mono.
Proof using Type. split; [by intros s|]. intros s1 s2 s3 [H1 H2] [H3 H4]. split; [congruence|lia]. Qed.

Lemma read_sectors_mono ns lba n buf s : mono s (nvme_read_sectors ns lba n buf s).2.
Proof using DeviceLaws0.
  destruct (nvme_read_sectors ns lba n buf s) as [ok s'] eqn:E. apply read_sectors_spec in E as (E1 & _ & _ & _ & _ & E6).
  split; [done|]. cbn [snd]. unfold no_fault in E6. destruct ok; [lia|destruct E6 as [-> | E6]; lia].
Qed.
Lemma write_sectors_mono ns lba n buf s : mono s (nvme_write_sectors ns lba n buf s).2.
Proof using DeviceLaws0.
  unfold nvme_write_sectors. destruct (_ || _); [done|]. destruct (nvme_write _ _ _ _) as [[|] d] eqn:E; cbn [snd].
  - apply write_done in E as [E _]. split; [done|cbn; lia].
  - apply write_failed in E. split; [done|cbn; lia].
Qed.
Lemma fill_mono vol_id v page s : mono s (blk_cache_fill vol_id v page s).2.
Proof using DeviceLaws0.
  destruct (blk_cache_fill vol_id v page s) as [ok s'] eqn:E. apply fill_frame in E as ((E1 & _) & E2 & _). done.
Qed.
Lemma line_sectors_mono vol_id v page s : mono s (line_sectors_of vol_id v page s).2.
Proof using DeviceLaws0.
  unfold line_sectors_of. destruct (blk_cache_probe _ _ _); [done|]. pose proof (fill_mono vol_id v page s) as H.
  destruct (blk_cache_fill _ _ _ _) as [[|] s1]; exact H.
Qed.
Lemma cache_read_loop_mono fuel vol_id v lba count dst done_ s : mono s (cache_read_loop fuel vol_id v lba count dst done_ s).2.
Proof using DeviceLaws0.
  revert done_ s. induction fuel as [|fuel IH]; intros done_ s; cbn [cache_read_loop]; destruct (count <=? done_); try done.
  pose proof (line_sectors_mono vol_id v ((lba + done_) / BLK_CACHE_SECTORS_PER_LINE) s) as H.
  destruct (line_sectors_of _ _ _ s) as [[ls|] s1]; cbn [snd] in H; [|done]. destruct (ls <=? _); [done|].
  etrans; [exact H|]. set (s2 := set_memory s1 _). etrans; [|apply IH]. done.
Qed.
Lemma prefetch_mono vol_id v pages s : mono s (foldl (prefetch_page vol_id v) s pages).
Proof using DeviceLaws0.
  revert s. induction pages as [|p pages IH]; intros s; [done|]. cbn [foldl]. etrans; [|apply IH].
  unfold prefetch_page. destruct (is_none _); [apply fill_mono|done].
Qed.
Lemma direct_mono fuel is_read ns base total buf done_ s : mono s (direct_loop fuel is_read ns base total buf done_ s).2.
Proof using DeviceLaws0.
  revert done_ s. induction fuel as [|fuel IH]; intros done_ s; cbn [direct_loop]; destruct (total <=? done_); try done.
  set (lba := saturating_add32 _ _). set (chunk := Z.min _ _). set (sb := buf + _).
  assert (H : mono s ((if is_read then nvme_read_sectors else nvme_write_sectors) ns lba chunk sb s).2)
    by (destruct is_read; [apply read_sectors_mono|apply write_sectors_mono]).
  destruct ((if is_read then _ else _) ns lba chunk sb s) as [[|] s1]; cbn [snd negb] in *; [|done]. etrans; [exact H|apply IH].
Qed.

Lemma block_rw_mono s is_read vol_id v lba count buf r s' :
  in_volume s vol_id v lba count buf -> block_rw is_read vol_id lba count buf s = (r, s') -> mono s s'.
Proof using DeviceLaws0.
  intros (Hg & Hloc & _) E. unfold block_rw in E. rewrite Hg, local_backend in E by done.
  destruct (count =? 0); [by inv E|]. destruct (is_read && _ && _ && _).
  - unfold blk_cache_read in E. pose proof (cache_read_loop_mono (Z.to_nat count) vol_id v lba count buf 0 s) as H.
    destruct (cache_read_loop _ _ _ _ _ _ _ s) as [[|] s1]; cbn [negb snd] in *; [|by inv E].
    revert E. set (s2 := if _ && _ then _ else s1). intros [= <- <-].
    assert (H2 : mono s1 s2) by (subst s2; destruct (_ && _); [apply prefetch_mono|done]). etrans; [exact H|exact H2].
  - match type of E with context [direct_loop ?n ?i ?a ?b ?c ?d ?e s] => pose proof (direct_mono n i a b c d e s) as H;
      destruct (direct_loop n i a b c d e s) as [ok s1] end. inv E. cbn [snd] in H.
    destruct (negb is_read && ok); [|done]. unfold blk_cache_invalidate. destruct (count =? 0); [done|].
    edestruct (invalidate_pages_spec vol_id) as (I1 & _ & _ & I4 & _). etrans; [exact H|]. split; [exact I1|rewrite I4; lia].
Qed.

(** No command has failed since the cache was flushed, or more have failed than before. *)
Lemma served_inv f s :
  served f s -> volumes_ok (VOLUMES s) /\ f <= faults (dev s) /\ (faults (dev s) = f -> coherent s).
Proof using DeviceLaws0.
  induction 1 as [s Hv|f s is_read vol_id v lba count buf r s' _ (IH1 & IH2 & IH3) Hin E
                 |f s is_read vol_id v lba count buf r s' _ (IH1 & IH2 & IH3) Hg Hl Hb E
                 |f s v _ (IH1 & IH2 & IH3) Hl Hv|f s count buf r s' _ (IH1 & IH2 & IH3) Hb E].
  - split_and!; [done|cbn; lia|intros _; apply flush_coherent].
  - destruct (decide (faults (dev s) = f)) as [Hf|Hf].
    2:{ destruct (block_rw_mono _ _ _ _ _ _ _ _ _ Hin E) as [E1 E2]. split_and!; [by rewrite E1|lia|lia]. }
    specialize (IH3 Hf). destruct is_read.
    + destruct (block_read_spec _ _ _ _ _ _ _ _ IH3 IH1 Hin E) as ((R0 & R1) & R2 & _).
      split_and!; [by rewrite R2|lia|intros Hn; apply R1; unfold no_fault; lia].
    + destruct (decide (r = 1)) as [->|Hr].
      * destruct (block_write_spec _ _ _ _ _ _ _ IH3 IH1 Hin E) as (R1 & R0 & R2 & _). unfold no_fault in R0.
        split_and!; [by rewrite R2|lia|done].
      * destruct (block_write_failed _ _ _ _ _ _ _ _ Hin E Hr) as [R1 R2]. split_and!; [by rewrite R1|lia|lia].
  - unfold block_rw in E. rewrite Hg in E. unfold is_local in Hl. apply negb_false_iff in Hl. rewrite Hl in E.
    destruct (backend_rw _ _ _ _ _ _ _) as [[ok m] d] eqn:Eb. inv E.
    apply backend_frame in Eb as (B1 & B2 & B3). split_and!; [done|cbn; lia|]. cbn [dev set_dev]. intros Hf.
    apply (coherent_frame s); try done; [apply IH3; lia|].
    intros a Ha. cbn. apply B3. unfold window, buffer_ok in *. lia.
  - assert (dev (vol_push v s) = dev s) as Hd by (unfold vol_push; by destruct (_ <=? _)%nat). rewrite Hd.
    split_and!; [done|done|]. intros Hf. by apply push_coherent, IH3.
  - destruct (list_frame _ _ _ _ _ IH1 E) as (L1 & L2 & L3 & L4). rewrite L3. split_and!; [by rewrite L1|done|]. intros Hf.
    apply (coherent_frame s); [by apply IH3|done|done| |by rewrite L3]. intros a Ha. apply L4. unfold window, buffer_ok in *. lia.
Qed.


End coherence.

(** ** A disk in memory, and what a failing one shows *)

Definition ram : Type := (Z -> mem) * Z.

Definition ram_write (ns lba : Z) (bs : list Z) (d : ram) : ram :=
  (fun k => if k =? ns then copy_to (lba * 512) bs (d.1 ns) else d.1 k, d.2).

(** [good ns lba] says whether a command that starts at [lba] completes; a read that does not
    has moved [junk] into the buffer. *)
Definition ram_device (read_good write_good : Z -> bool) (junk : list Z) : BlockDevice ram := {|
  disk d := d.1;
  faults d := d.2;
  nvme_read ns lba n d :=
    if read_good lba then (true, slice_at (lba * 512) (Z.to_nat (n * 512)) (d.1 ns), d) else (false, junk, (d.1, d.2 + 1));
  nvme_write ns lba bs d := if write_good lba then (true, ram_write ns lba bs d) else (false, (d.1, d.2 + 1));
  backend_rw b r lba n buf m d := (false, m, d)
|}.

#[local] Instance sound_ram : BlockDevice ram := ram_device (fun _ => true) (fun _ => true) [].

#[local] Instance sound_ram_laws : DeviceLaws ram.
Proof.
  split; cbn.
  - intros ns lba n d bs d' [= <- <-]. by unfold same_disk.
  - done.
  - intros ns lba bs d d' [= <-]. split; [done|]. intros k a. unfold ram_write. cbn. by destruct (k =? ns).
  - done.
  - intros b r lba n buf m d ok m' d' [= <- <- <-]. by unfold same_disk.
Qed.

(** Two neighbouring volumes of 4000 and 100 sectors; every byte of the disk is the number of
    its sector (modulo 251). *)
Definition demo_vols : list Volume :=
  [mk_Volume 1 2048 4000 1 BACKEND_NVME; mk_Volume 1 6048 100 1 BACKEND_NVME].
Definition demo_start : bsrv ram := mk_bsrv demo_vols [] [] true 0 0 (fun _ => 7) (fun _ a => (a / 512) mod 251, 0).
Definition demo_blocks : bsrv ram := blk_cache_flush_all demo_start.

Lemma demo_vols_ok : volumes_ok demo_vols.
Proof.
  assert (H : forall i v, lookupZ demo_vols i = Some v ->
            (i = 0 /\ v = mk_Volume 1 2048 4000 1 BACKEND_NVME) \/ (i = 1 /\ v = mk_Volume 1 6048 100 1 BACKEND_NVME)).
  { intros i v H. apply lookupZ_Some in H as [Hi H].
    destruct (Z.to_nat i) as [|[|?]] eqn:E; cbn in H; simplify_eq; [left|right]; split; (done || lia). }
  split.
  - cbn. unfold VOL_MAX. lia.
  - intros i v [[_ ->]|[_ ->]]%H; cbn; lia.
  - intros i j v w [[-> ->]|[-> ->]]%H [[-> ->]|[-> ->]]%H Hne _ _; cbn; lia.
Qed.


(** A fill reads into the slot's page before the old tag is dropped: when the read of another
    page fails halfway, the old line stays valid with the new bytes in it. *)
Example failed_fill_corrupts_line :
  let dev := ram_device (fun lba => lba <? 2048 + 240 * 8) (fun _ => true) (replicate 512 0) in
  let s1 := snd (@block_rw ram dev true 0 0 1 4096 demo_blocks) in
  let s2 := snd (@block_rw ram dev true 0 1920 1 8192 s1) in
  let '(r, s3) := @block_rw ram dev true 0 0 1 4096 s2 in
  memory s1 4096 = 2048 mod 251 /\ r = 1 /\ memory s3 4096 = 0 /\ (BlockCache.dev s3).2 = 1.
Proof. vm_compute. repeat split. Qed.

(** A write of two commands of which the second fails is answered with 0 and invalidates
    nothing, so the cache keeps the old bytes of the sectors the first command changed. *)
Definition warm_blocks : bsrv ram :=
  mk_bsrv demo_vols [] (mk_tag true 0 0 8 :: replicate 239 BLK_CACHE_TAG_EMPTY) true 0 0
    (fun a => if (BLK_CACHE_VADDR <=? a) && (a <? BLK_CACHE_VADDR + 4096)
              then (2048 + (a - BLK_CACHE_VADDR) / 512) mod 251 else 7)
    (fun _ a => (a / 512) mod 251, 0).

Example partial_write_leaves_stale_line :
  let dev := ram_device (fun _ => true) (fun lba => lba <? 2048 + 256) [] in
  let '(r, s2) := @block_rw ram dev false 0 0 257 65536 warm_blocks in
  let s3 := snd (@block_rw ram dev true 0 0 1 4096 s2) in
  r = 0 /\ (BlockCache.dev s3).1 1 (2048 * 512) = 7 /\ memory s3 4096 = 2048 mod 251.
Proof. lazy. repeat split. Qed.

(** The direct path does not check the volume's size: a write past the end of the first volume
    lands on the second. *)
Example write_crosses_volume_end :
  let '(r, s) := block_rw false 0 4000 1 65536 demo_blocks in
  r = 1 /\ disk (dev s) 1 (6048 * 512) = 7 /\ disk (dev demo_blocks) 1 (6048 * 512) = 6048 mod 251.
Proof. vm_compute. repeat split. Qed.
