(* ===== verification/Crc.v ===== *)
(** * Crc: the CRC-32 of the file and block services (src/user/srv/src/common.rs)

    The bitwise register update, and what the checksum detects: any change confined to four
    consecutive bytes, which is what a torn or corrupted word on disk looks like. *)

From S2P Require Import Prelude Bytes.

Definition CRC_POLY : Z := 0xEDB88320.

(** One turn of the inner loop of [crc32_update]. *)
Definition crc_bit (crc : Z) : Z :=
  if negb (Z.land crc 1 =? 0) then Z.lxor (Z.shiftr crc 1) CRC_POLY else Z.shiftr crc 1.

Definition crc_byte (crc b : Z) : Z := Nat.iter 8 crc_bit (Z.lxor crc b).

Definition crc32_update (crc : Z) (data : list Z) : Z := foldl crc_byte crc data.

Definition mfs_crc32 (data : list Z) : Z := Z.lxor (crc32_update 0xFFFFFFFF data) 0xFFFFFFFF.

(** ** The register step is linear and injective *)

Definition reg (x : Z) : Prop := 0 <= x < 2^32.

Lemma crc_bit_odd c : crc_bit c = Z.lxor (Z.shiftr c 1) (if Z.testbit c 0 then CRC_POLY else 0).
Proof.
  unfold crc_bit. change (Z.land c 1) with (Z.land c (Z.ones 1)). rewrite (Z.land_ones c 1) by lia. rewrite Z.bit0_odd.
  change (2^1) with 2. rewrite Zmod_odd. destruct (Z.odd c); cbn; [done|by rewrite Z.lxor_0_r].
Qed.

Lemma crc_bit_lxor a b : crc_bit (Z.lxor a b) = Z.lxor (crc_bit a) (crc_bit b).
Proof.
  rewrite !crc_bit_odd, Z.shiftr_lxor, Z.lxor_spec.
  apply Z.bits_inj'. intros n Hn. rewrite !Z.lxor_spec.
  destruct (Z.testbit a 0), (Z.testbit b 0); cbn [xorb]; rewrite ?Z.bits_0;
    destruct (Z.testbit (Z.shiftr a 1) n), (Z.testbit (Z.shiftr b 1) n), (Z.testbit CRC_POLY n); done.
Qed.

Lemma crc_bit_even c : Z.testbit c 0 = false -> crc_bit c = Z.shiftr c 1.
Proof. intros H. rewrite crc_bit_odd, H. apply Z.lxor_0_r. Qed.

Lemma reg_bits x : reg x <-> 0 <= x /\ forall n, 32 <= n -> Z.testbit x n = false.
Proof.
  unfold reg. split.
  - intros [H0 H]. split; [done|]. intros n Hn. destruct (decide (x = 0)) as [->|Hz]; [apply Z.bits_0|].
    apply Z.bits_above_log2; [done|]. apply Z.log2_lt_pow2 in H; lia.
  - intros [H0 H]. split; [done|]. destruct (Z.lt_ge_cases x (2^32)) as [|Hge]; [done|].
    assert (Hx : 0 < x) by lia. pose proof (Z.bit_log2 x Hx) as Hb.
    rewrite H in Hb; [done|]. apply Z.log2_le_pow2; lia.
Qed.

Lemma reg_lxor a b : reg a -> reg b -> reg (Z.lxor a b).
Proof.
  rewrite !reg_bits. intros [Ha1 Ha2] [Hb1 Hb2]. split; [by apply Z.lxor_nonneg|].
  intros n Hn. by rewrite Z.lxor_spec, Ha2, Hb2.
Qed.

Lemma reg_crc_bit c : reg c -> reg (crc_bit c).
Proof.
  intros H. rewrite crc_bit_odd. apply reg_lxor.
  - unfold reg in *. rewrite Z.shiftr_div_pow2 by lia. change (2^1) with 2.
    split; [apply Z.div_pos; lia|apply Z.div_lt_upper_bound; lia].
  - destruct (Z.testbit c 0); unfold reg, CRC_POLY; lia.
Qed.

(** The top bit of the result is the bit shifted out, so the step loses nothing. *)
Lemma crc_bit_zero c : reg c -> crc_bit c = 0 -> c = 0.
Proof.
  intros Hr H. pose proof (proj1 (reg_bits c) Hr) as [H0 Hhi].
  rewrite crc_bit_odd in H.
  assert (Hodd : Z.testbit c 0 = false).
  { assert (Ht : Z.testbit (Z.lxor (Z.shiftr c 1) (if Z.testbit c 0 then CRC_POLY else 0)) 31 = false)
      by (by rewrite H, Z.bits_0).
    rewrite Z.lxor_spec, Z.shiftr_spec in Ht by lia. change (31 + 1) with 32 in Ht.
    rewrite Hhi in Ht by lia. destruct (Z.testbit c 0); [discriminate Ht|done]. }
  rewrite Hodd, Z.lxor_0_r in H. apply Z.bits_inj'. intros n Hn. rewrite Z.bits_0.
  destruct (decide (n = 0)) as [->|Hn0]; [done|].
  replace n with (n - 1 + 1) by lia. rewrite <- Z.shiftr_spec by lia. by rewrite H, Z.bits_0.
Qed.

Lemma iter_crc_lxor n a b : Nat.iter n crc_bit (Z.lxor a b) = Z.lxor (Nat.iter n crc_bit a) (Nat.iter n crc_bit b).
Proof. induction n as [|n IH]; [done|]. by rewrite !Nat.iter_succ, IH, crc_bit_lxor. Qed.

Lemma reg_iter n c : reg c -> reg (Nat.iter n crc_bit c).
Proof. intros H. induction n; [done|]. rewrite Nat.iter_succ. by apply reg_crc_bit. Qed.

Lemma iter_crc_zero n c : reg c -> Nat.iter n crc_bit c = 0 -> c = 0.
Proof.
  intros Hr. induction n as [|n IH]; [done|]. rewrite Nat.iter_succ. intros H. apply IH.
  apply crc_bit_zero; [by apply reg_iter|done].
Qed.

Lemma iter_crc_inj n a b :
  reg a -> reg b -> Nat.iter n crc_bit a = Nat.iter n crc_bit b -> a = b.
Proof.
  intros Ha Hb H. apply Z.lxor_eq. apply (iter_crc_zero n); [by apply reg_lxor|].
  by rewrite iter_crc_lxor, H, Z.lxor_nilpotent.
Qed.

(** Low zero bits are shifted out without feedback. *)
Lemma iter_crc_shift n x : 0 <= x -> Nat.iter n crc_bit (Z.shiftl x (Z.of_nat n)) = x.
Proof.
  intros Hx. induction n as [|n IH]; [apply Z.shiftl_0_r|].
  rewrite Nat.iter_succ_r, Nat2Z.inj_succ. rewrite crc_bit_even.
  - rewrite Z.shiftr_shiftl_l by lia. by replace (Z.succ (Z.of_nat n) - 1) with (Z.of_nat n) by lia.
  - apply Z.shiftl_spec_low. lia.
Qed.

(** ** Words *)

Lemma reg_byte b : is_byte b -> reg b.
Proof. unfold is_byte, reg. lia. Qed.

Lemma reg_crc_byte c b : reg c -> is_byte b -> reg (crc_byte c b).
Proof. intros Hc Hb. apply reg_iter, reg_lxor; [done|by apply reg_byte]. Qed.

Lemma reg_update c data : reg c -> Forall is_byte data -> reg (crc32_update c data).
Proof.
  intros Hc Hd. unfold crc32_update. revert c Hc.
  induction Hd as [|b data Hb Hd IH]; intros c Hc; cbn [foldl]; [done|]. apply IH. by apply reg_crc_byte.
Qed.

Lemma from_le_cons_lxor b l :
  is_byte b -> Forall is_byte l -> from_le (b :: l) = Z.lxor b (Z.shiftl (from_le l) 8).
Proof.
  intros Hb Hl. cbn [from_le]. pose proof (from_le_bound l Hl) as [H0 _].
  replace (b + 256 * from_le l) with (from_le l * 2^8 + b) by lia.
  rewrite <- lor_shiftl_add by (unfold is_byte in Hb; lia).
  rewrite Z.lor_comm. symmetry. apply Z.lxor_lor. apply Z.bits_inj'. intros n Hn.
  rewrite Z.land_spec, Z.bits_0. destruct (decide (n < 8)) as [Hlt|Hge].
  - rewrite Z.shiftl_spec_low by lia. apply andb_false_r.
  - assert (Hz : Z.testbit b n = false).
    { unfold is_byte in Hb. destruct (decide (b = 0)) as [->|]; [apply Z.bits_0|].
      apply Z.bits_above_log2; [lia|]. assert (Z.log2 b < 8) by (apply Z.log2_lt_pow2; lia). lia. }
    by rewrite Hz.
Qed.

(** Up to four bytes are one linear map of the register combined with the word they make. *)
Lemma update_word l c :
  reg c -> Forall is_byte l -> (length l <= 4)%nat ->
  crc32_update c l = Nat.iter (8 * length l) crc_bit (Z.lxor c (from_le l)).
Proof.
  unfold crc32_update. revert c. induction l as [|b l IH]; intros c Hc Hl Hlen; cbn [foldl length].
  { cbn. by rewrite Z.lxor_0_r. }
  apply Forall_cons_1 in Hl as [Hb Hl]. cbn in Hlen. rewrite IH by (done || lia || by apply reg_crc_byte).
  rewrite from_le_cons_lxor by done.
  replace (8 * S (length l))%nat with (8 * length l + 8)%nat by lia. rewrite Nat.iter_add. f_equal.
  rewrite <- Z.lxor_assoc. unfold crc_byte.
  rewrite (iter_crc_lxor 8 (Z.lxor c b)). f_equal. symmetry.
  apply (iter_crc_shift 8). by apply from_le_bound.
Qed.

Lemma update_inj data a b :
  reg a -> reg b -> Forall is_byte data -> crc32_update a data = crc32_update b data -> a = b.
Proof.
  intros Ha Hb Hd. unfold crc32_update. revert a b Ha Hb.
  induction Hd as [|x data Hx Hd IH]; intros a b Ha Hb; cbn [foldl]; [done|].
  intros H. apply IH in H; [|by apply reg_crc_byte..]. unfold crc_byte in H.
  apply iter_crc_inj in H; [|by apply reg_lxor, reg_byte..].
  apply (f_equal (Z.lxor x)) in H. rewrite !(Z.lxor_comm x), !Z.lxor_assoc, Z.lxor_nilpotent in H.
  by rewrite !Z.lxor_0_r in H.
Qed.

Lemma from_le_inj l l' :
  Forall is_byte l -> Forall is_byte l' -> length l = length l' -> from_le l = from_le l' -> l = l'.
Proof.
  intros Hl. revert l'. induction Hl as [|b l Hb Hl IH]; intros [|b' l'] Hl' Hlen; cbn in Hlen |- *; [done..|].
  apply Forall_cons_1 in Hl' as [Hb' Hl']. unfold is_byte in *. intros H.
  assert (b = b' /\ from_le l = from_le l') as [-> H'] by lia. f_equal. apply IH; [done|lia|done].
Qed.

Lemma crc32_update_app c a b : crc32_update c (a ++ b) = crc32_update (crc32_update c a) b.
Proof. apply foldl_app. Qed.

(** C39. Two byte strings that differ only inside a run of at most four bytes have different
    CRC-32 values: the checksum detects every such corruption, wherever it is and whatever
    surrounds it. *)
Theorem crc_detects_bursts pre x y post :
  Forall is_byte pre -> Forall is_byte x -> Forall is_byte y -> Forall is_byte post ->
  length x = length y -> (length x <= 4)%nat -> x <> y ->
  mfs_crc32 (pre ++ x ++ post) <> mfs_crc32 (pre ++ y ++ post).
Proof.
  intros Hpre Hx Hy Hpost Hlen H4 Hne E. apply Hne.
  assert (H0 : reg 0xFFFFFFFF) by (unfold reg; lia).
  pose proof (reg_update _ _ H0 Hpre) as Hr. unfold mfs_crc32 in E.
  apply (f_equal (fun z => Z.lxor z 0xFFFFFFFF)) in E. rewrite !Z.lxor_assoc, Z.lxor_nilpotent, !Z.lxor_0_r in E.
  rewrite !crc32_update_app in E.
  apply update_inj in E; [|by apply reg_update..|done].
  rewrite (update_word x), (update_word y), Hlen in E by (done || lia).
  assert (Hw : forall l, Forall is_byte l -> (length l <= 4)%nat -> reg (from_le l)).
  { intros l Hl Hl4. pose proof (from_le_bound l Hl) as [B1 B2]. split; [done|].
    eapply Z.lt_le_trans; [exact B2|]. change (2^32) with (256 ^ 4). apply Z.pow_le_mono_r; lia. }
  apply iter_crc_inj in E; [|apply reg_lxor; [done|apply Hw; [done|lia]]..].
  apply from_le_inj; try done.
  apply (f_equal (Z.lxor (crc32_update 0xFFFFFFFF pre))) in E.
  by rewrite <- !Z.lxor_assoc, Z.lxor_nilpotent, !Z.lxor_0_l in E.
Qed.

(** The standard check value: the CRC-32 of "123456789" is CBF43926. *)
Example crc_check_value : mfs_crc32 [49; 50; 51; 52; 53; 54; 55; 56; 57] = 0xCBF43926.
Proof. vm_compute. reflexivity. Qed.

Lemma crc_detects_bursts_witness :
  mfs_crc32 ([49; 50] ++ [51; 52; 53; 54] ++ [55]) <> mfs_crc32 ([49; 50] ++ [51; 0; 0; 54] ++ [55]).
Proof.
  apply (crc_detects_bursts [49; 50] [51; 52; 53; 54] [51; 0; 0; 54] [55]);
    [repeat constructor; unfold is_byte; lia..|reflexivity|cbn; lia|discriminate].
Defined.
