(* ===== verification/Clock.v ===== *)
(** * Clock: calendar and real-time clock of the file services (src/user/srv/src/common.rs)

    The conversion between days since 1970-01-01 and the civil calendar, and the decoding of the
    CMOS clock registers. Rust's [/] truncates, so it is [Z.quot] here, and [i64] arithmetic wraps
    around. Reading the ports is not modelled: the registers are arguments. *)

From S2P Require Import Prelude.

Infix "/t" := Z.quot (at level 40, left associativity) : Z_scope.

(** [i64] arithmetic wraps around (in a build that checks for overflow it panics instead). *)
Definition i64 (x : Z) : Z := (x + 2^63) mod 2^64 - 2^63.

Definition civil_from_days (days : Z) : Z * Z * Z :=
  let z := i64 (days + 719468) in
  let era := (if 0 <=? z then z else i64 (z - 146096)) /t 146097 in
  let doe := i64 (z - i64 (era * 146097)) in
  let yoe := i64 (i64 (i64 (doe - doe /t 1460) + doe /t 36524) - doe /t 146096) /t 365 in
  let y := i64 (yoe + i64 (era * 400)) in
  let doy := i64 (doe - i64 (i64 (i64 (365 * yoe) + yoe /t 4) - yoe /t 100)) in
  let mp := i64 (i64 (5 * doy) + 2) /t 153 in
  let d := i64 (i64 (doy - i64 (i64 (153 * mp) + 2) /t 5) + 1) in
  let m := if mp <? 10 then i64 (mp + 3) else i64 (mp - 9) in
  (if m <=? 2 then i64 (y + 1) else y, m, d).

Definition days_from_civil (y m d : Z) : Z :=
  let y := if m <=? 2 then i64 (y - 1) else y in
  let era := (if 0 <=? y then y else i64 (y - 399)) /t 400 in
  let yoe := i64 (y - i64 (era * 400)) in
  let mp := if 2 <? m then i64 (m - 3) else i64 (m + 9) in
  let doy := i64 (i64 (i64 (i64 (153 * mp) + 2) /t 5 + d) - 1) in
  let doe := i64 (i64 (i64 (i64 (yoe * 365) + yoe /t 4) - yoe /t 100) + doy) in
  i64 (i64 (i64 (era * 146097) + doe) - 719468).

(** ** The CMOS clock *)

(** [u8] arithmetic wraps. *)
Definition cmos_bcd (v : Z) : Z := w8 (Z.land v 0x0F + w8 (Z.shiftr v 4 * 10)).

(** [cmos_rtc_snapshot] once the registers are read. *)
Definition cmos_rtc_decode (stat_b sec min hour day mon year : Z) : option Z :=
  let binary := negb (Z.land stat_b 0x04 =? 0) in
  let h24 := negb (Z.land stat_b 0x02 =? 0) in
  let '(sec, min, hour, day, mon, year) :=
    if negb binary then
      let pm := negb h24 && negb (Z.land hour 0x80 =? 0) in
      let hour := cmos_bcd (Z.land hour 0x7F) in
      (cmos_bcd sec, cmos_bcd min, (if pm && (hour <? 12) then w8 (hour + 12) else hour),
       cmos_bcd day, cmos_bcd mon, cmos_bcd year)
    else if negb h24 && negb (Z.land hour 0x80 =? 0) then
      (sec, min, w8 (Z.land hour 0x7F + 12) mod 24, day, mon, year)
    else (sec, min, hour, day, mon, year) in
  let full_year := if 70 <=? year then 1900 + year else 2000 + year in
  if negb ((1 <=? mon) && (mon <=? 12)) || negb ((1 <=? day) && (day <=? 31)) || (23 <? hour)
     || (59 <? min) || (60 <? sec) then None
  else
    let days := days_from_civil full_year mon day in
    let secs := days * 86400 + hour * 3600 + min * 60 + sec in
    if secs <? 0 then None else Some secs.

(** [mfs_now]: up to four attempts at two equal readings; [snap i] is the [i]-th snapshot. *)
Fixpoint mfs_now_loop (snap : nat -> option Z) (attempts i : nat) : Z :=
  match attempts with
  | O => 0
  | S n =>
      match snap i, snap (S i) with
      | Some a, Some b => if a =? b then a else mfs_now_loop snap n (i + 2)
      | _, _ => 0
      end
  end.
Definition mfs_now (snap : nat -> option Z) : Z := mfs_now_loop snap 4 0.

(** ** The civil calendar *)

Definition leap (y : Z) : bool := (y mod 4 =? 0) && (negb (y mod 100 =? 0) || (y mod 400 =? 0)).

Definition month_days (y m : Z) : Z :=
  if m =? 2 then (if leap y then 29 else 28)
  else if (m =? 4) || (m =? 6) || (m =? 9) || (m =? 11) then 30 else 31.

Definition civil_ok (y m d : Z) : Prop := 1 <= m <= 12 /\ 1 <= d <= month_days y m.

(** The day after a date. *)
Definition next_day (c : Z * Z * Z) : Z * Z * Z :=
  let '(y, m, d) := c in
  if d <? month_days y m then (y, m, d + 1)
  else if m <? 12 then (y, m + 1, 1) else (y + 1, 1, 1).

(** ** Lemmas *)

(** The same conversions on unbounded integers. *)
Definition civil_Z (days : Z) : Z * Z * Z :=
  let z := days + 719468 in
  let era := (if 0 <=? z then z else z - 146096) /t 146097 in
  let doe := z - era * 146097 in
  let yoe := (doe - doe /t 1460 + doe /t 36524 - doe /t 146096) /t 365 in
  let y := yoe + era * 400 in
  let doy := doe - (365 * yoe + yoe /t 4 - yoe /t 100) in
  let mp := (5 * doy + 2) /t 153 in
  let d := doy - (153 * mp + 2) /t 5 + 1 in
  let m := if mp <? 10 then mp + 3 else mp - 9 in
  (if m <=? 2 then y + 1 else y, m, d).

Definition days_Z (y m d : Z) : Z :=
  let y := if m <=? 2 then y - 1 else y in
  let era := (if 0 <=? y then y else y - 399) /t 400 in
  let yoe := y - era * 400 in
  let mp := if 2 <? m then m - 3 else m + 9 in
  let doy := (153 * mp + 2) /t 5 + d - 1 in
  let doe := yoe * 365 + yoe /t 4 - yoe /t 100 + doy in
  era * 146097 + doe - 719468.

Lemma quot_floor_era z :
  (if 0 <=? z then z else z - 146096) /t 146097 = z / 146097.
Proof.
  destruct (Z.leb_spec 0 z); [by apply Z.quot_div_nonneg|].
  replace (z - 146096) with (- (146096 - z)) by lia. rewrite Z.quot_opp_l by lia.
  rewrite Z.quot_div_nonneg by lia.
  pose proof (Z.div_mod z 146097). pose proof (Z.mod_pos_bound z 146097).
  pose proof (Z.div_mod (146096 - z) 146097). pose proof (Z.mod_pos_bound (146096 - z) 146097). lia.
Qed.

Lemma quot_floor_400 y : (if 0 <=? y then y else y - 399) /t 400 = y / 400.
Proof.
  destruct (Z.leb_spec 0 y); [by apply Z.quot_div_nonneg|].
  replace (y - 399) with (- (399 - y)) by lia. rewrite Z.quot_opp_l by lia.
  rewrite Z.quot_div_nonneg by lia.
  pose proof (Z.div_mod y 400). pose proof (Z.mod_pos_bound y 400).
  pose proof (Z.div_mod (399 - y) 400). pose proof (Z.mod_pos_bound (399 - y) 400). lia.
Qed.

Definition year_of_era (doe : Z) : Z := (doe - doe / 1460 + doe / 36524 - doe / 146096) / 365.
Definition year_start (yoe : Z) : Z := 365 * yoe + yoe / 4 - yoe / 100.

Lemma year_of_era_range doe : 0 <= doe < 146097 -> 0 <= year_of_era doe <= 399.
Proof. intros H. unfold year_of_era. Z.to_euclidean_division_equations. lia. Qed.

Lemma day_of_year_range doe :
  0 <= doe < 146097 -> 0 <= doe - year_start (year_of_era doe) <= 365.
Proof. intros H. unfold year_start, year_of_era. Z.to_euclidean_division_equations. lia. Qed.

(** The length of the year that starts in March of year [yoe] of an era. *)
Definition year_len (yoe : Z) : Z :=
  year_start (yoe + 1) - year_start yoe + (if yoe =? 399 then 1 else 0).

Lemma day_in_year doe : 0 <= doe < 146097 -> doe - year_start (year_of_era doe) < year_len (year_of_era doe).
Proof.
  intros H. pose proof (year_of_era_range doe H) as Hy. unfold year_len.
  destruct (Z.eqb_spec (year_of_era doe) 399) as [E|E].
  - rewrite E. unfold year_start. change ((399 + 1) / 4) with 100. change ((399 + 1) / 100) with 4. lia.
  - revert Hy E. unfold year_start, year_of_era. Z.to_euclidean_division_equations. lia.
Qed.

Lemma year_of_era_start yoe doy :
  0 <= yoe <= 399 -> 0 <= doy < year_len yoe ->
  0 <= year_start yoe + doy < 146097 /\ year_of_era (year_start yoe + doy) = yoe.
Proof.
  intros Hy Hd. unfold year_len in Hd. destruct (Z.eqb_spec yoe 399) as [->|E].
  - unfold year_start, year_of_era in *. cbn in Hd. Z.to_euclidean_division_equations. lia.
  - unfold year_start, year_of_era in *. split; Z.to_euclidean_division_equations; lia.
Qed.

(** A date from the era, the year of the era and the day of the year that starts in March. *)
Definition civil_of (era yoe doy : Z) : Z * Z * Z :=
  let mp := (5 * doy + 2) / 153 in
  let d := doy - (153 * mp + 2) / 5 + 1 in
  let m := if mp <? 10 then mp + 3 else mp - 9 in
  (if m <=? 2 then yoe + era * 400 + 1 else yoe + era * 400, m, d).

Lemma civil_Z_eq days :
  let z := days + 719468 in
  let yoe := year_of_era (z mod 146097) in
  civil_Z days = civil_of (z / 146097) yoe (z mod 146097 - year_start yoe).
Proof.
  intros z yoe. unfold civil_Z. fold z. rewrite quot_floor_era.
  replace (z - z / 146097 * 146097) with (z mod 146097)
    by (pose proof (Z.div_mod z 146097); lia).
  assert (0 <= z mod 146097 < 146097) as Hd by (apply Z.mod_pos_bound; lia).
  pose proof (year_of_era_range _ Hd) as Hy. pose proof (day_of_year_range _ Hd) as Hn.
  fold yoe in Hy, Hn. set (doe := z mod 146097) in *.
  assert (0 <= doe - doe / 1460 + doe / 36524 - doe / 146096) as Hp
    by (Z.to_euclidean_division_equations; lia).
  rewrite !(Z.quot_div_nonneg doe), (Z.quot_div_nonneg (_ + _ - _)) by lia.
  change ((doe - doe / 1460 + doe / 36524 - doe / 146096) / 365) with yoe.
  rewrite !(Z.quot_div_nonneg yoe) by lia. fold (year_start yoe).
  set (doy := doe - year_start yoe) in *. rewrite (Z.quot_div_nonneg (5 * _ + 2)) by lia.
  rewrite Z.quot_div_nonneg; [done|Z.to_euclidean_division_equations; lia|done].
Qed.

Lemma days_Z_eq y m d :
  1 <= m ->
  let y' := if m <=? 2 then y - 1 else y in
  let mp := if 2 <? m then m - 3 else m + 9 in
  days_Z y m d
  = y' / 400 * 146097 + year_start (y' mod 400) + (153 * mp + 2) / 5 + d - 1 - 719468.
Proof.
  intros Hm y' mp. unfold days_Z. fold y' mp. rewrite quot_floor_400.
  replace (y' - y' / 400 * 400) with (y' mod 400) by (pose proof (Z.div_mod y' 400); lia).
  assert (0 <= y' mod 400 < 400) as Hy by (apply Z.mod_pos_bound; lia).
  assert (0 <= mp) by (unfold mp; destruct (Z.ltb_spec 2 m); lia).
  rewrite !(Z.quot_div_nonneg (y' mod 400)), (Z.quot_div_nonneg (153 * mp + 2)) by lia.
  unfold year_start. lia.
Qed.

Lemma year_len_leap era yoe :
  0 <= yoe <= 399 -> year_len yoe = if leap (yoe + era * 400 + 1) then 366 else 365.
Proof.
  intros Hy. unfold year_len, year_start, leap.
  destruct (Z.eqb_spec yoe 399), (Z.eqb_spec ((yoe + era * 400 + 1) mod 4) 0),
    (Z.eqb_spec ((yoe + era * 400 + 1) mod 100) 0), (Z.eqb_spec ((yoe + era * 400 + 1) mod 400) 0);
    cbn [andb orb negb]; Z.to_euclidean_division_equations; lia.
Qed.

(** Case analysis on a month and evaluation of the tests on it. *)
Ltac month_cases m :=
  let H := fresh in
  assert (m = 1 \/ m = 2 \/ m = 3 \/ m = 4 \/ m = 5 \/ m = 6 \/ m = 7 \/ m = 8 \/ m = 9
          \/ m = 10 \/ m = 11 \/ m = 12) as H by lia;
  destruct H as [->|[->|[->|[->|[->|[->|[->|[->|[->|[->|[->| ->]]]]]]]]]]].

Lemma march_year era yoe :
  0 <= yoe <= 399 -> (yoe + era * 400) / 400 = era /\ (yoe + era * 400) mod 400 = yoe.
Proof. intros H. Z.to_euclidean_division_equations. lia. Qed.

Lemma civil_of_month era yoe doy :
  0 <= doy <= 365 ->
  exists m, 1 <= m <= 12 /\
    let mp := if 2 <? m then m - 3 else m + 9 in
    (5 * doy + 2) / 153 = mp /\
    civil_of era yoe doy
    = (if m <=? 2 then yoe + era * 400 + 1 else yoe + era * 400, m,
       doy - (153 * mp + 2) / 5 + 1).
Proof.
  intros H. unfold civil_of. set (mp := (5 * doy + 2) / 153).
  assert (0 <= mp <= 11) by (unfold mp; Z.to_euclidean_division_equations; lia).
  exists (if mp <? 10 then mp + 3 else mp - 9).
  destruct (Z.ltb_spec mp 10); (split; [lia|]); cbv zeta.
  - rewrite (proj2 (Z.ltb_lt 2 _)) by lia. replace (mp + 3 - 3) with mp by lia. done.
  - rewrite (proj2 (Z.ltb_ge 2 _)) by lia. replace (mp - 9 + 9) with mp by lia. done.
Qed.

(** The date of a day is a date of the calendar and counts back to the day. *)
Lemma civil_of_spec era yoe doy y m d :
  0 <= yoe <= 399 -> 0 <= doy < year_len yoe -> civil_of era yoe doy = (y, m, d) ->
  civil_ok y m d /\ days_Z y m d = era * 146097 + year_start yoe + doy - 719468.
Proof.
  intros Hy Hd Hc. pose proof (year_len_leap era yoe Hy) as Hl.
  assert (doy <= 365) by (destruct (leap _); lia).
  destruct (civil_of_month era yoe doy) as (m' & Hm & Hmp & He); [lia|].
  rewrite Hc in He. injection He as -> -> ->. rewrite days_Z_eq by lia.
  destruct (march_year era yoe Hy) as [E1 E2]. unfold civil_ok, month_days.
  month_cases m'; cbn in Hmp |- *; rewrite ?Z.add_simpl_r, E1, E2; (split; [|lia]);
    try (destruct (leap _)); Z.to_euclidean_division_equations; lia.
Qed.

(** Every date of the calendar is the date of a day. *)
Lemma civil_of_onto y m d :
  civil_ok y m d ->
  let y' := if m <=? 2 then y - 1 else y in
  let mp := if 2 <? m then m - 3 else m + 9 in
  let doy := (153 * mp + 2) / 5 + d - 1 in
  0 <= doy < year_len (y' mod 400) /\ civil_of (y' / 400) (y' mod 400) doy = (y, m, d).
Proof.
  intros [Hm Hd] y' mp doy.
  assert (0 <= y' mod 400 <= 399) as Hy by (pose proof (Z.mod_pos_bound y' 400); lia).
  rewrite (year_len_leap (y' / 400)) by done. unfold civil_of.
  replace (y' mod 400 + y' / 400 * 400) with y' by (pose proof (Z.div_mod y' 400); lia).
  assert (leap y = leap (y' + 1) \/ m <> 2) as Hl
    by (unfold y'; destruct (Z.leb_spec m 2); [left; f_equal|right]; lia).
  unfold month_days in Hd.
  assert ((5 * doy + 2) / 153 = mp) as ->.
  { unfold doy, mp. clearbody y'. clear Hl doy mp.
    month_cases m; cbn in Hd |- *; try destruct (leap y); Z.to_euclidean_division_equations; lia. }
  split.
  - unfold doy, mp. clearbody y'. clear doy mp.
    month_cases m; cbn in Hd, Hl |- *;
      try (destruct Hl as [Hl|]; [rewrite Hl in Hd|done]); destruct (leap (y' + 1));
      Z.to_euclidean_division_equations; lia.
  - assert ((if mp <? 10 then mp + 3 else mp - 9) = m) as ->.
    { unfold mp. month_cases m; done. }
    f_equal; [f_equal|]; [|unfold doy; lia]. unfold y'. destruct (m <=? 2); lia.
Qed.

Lemma day_split n :
  let z := n + 719468 in
  let yoe := year_of_era (z mod 146097) in
  0 <= yoe <= 399 /\ 0 <= z mod 146097 - year_start yoe < year_len yoe.
Proof.
  intros z yoe. assert (0 <= z mod 146097 < 146097) as H by (apply Z.mod_pos_bound; lia).
  pose proof (year_of_era_range _ H) as H1. pose proof (day_of_year_range _ H) as H2.
  pose proof (day_in_year _ H) as H3. fold yoe in H1, H2, H3. lia.
Qed.

Lemma civil_days n y m d :
  civil_Z n = (y, m, d) -> civil_ok y m d /\ days_Z y m d = n.
Proof.
  rewrite civil_Z_eq. intros H. destruct (day_split n) as [Hy Hd].
  destruct (civil_of_spec _ _ _ _ _ _ Hy Hd H) as [Hok ->]. split; [done|].
  pose proof (Z.div_mod (n + 719468) 146097). lia.
Qed.

Lemma days_civil y m d : civil_ok y m d -> civil_Z (days_Z y m d) = (y, m, d).
Proof.
  intros Hok. pose proof (civil_of_onto y m d Hok) as [Hr Ho]. destruct Hok as [Hm Hd].
  rewrite civil_Z_eq, days_Z_eq by lia. revert Hr Ho.
  set (y' := if m <=? 2 then y - 1 else y). set (mp := if 2 <? m then m - 3 else m + 9).
  set (doy := (153 * mp + 2) / 5 + d - 1). intros Hr Ho.
  assert (0 <= y' mod 400 <= 399) as Hy by (pose proof (Z.mod_pos_bound y' 400); lia).
  destruct (year_of_era_start _ _ Hy Hr) as [Hdoe Hyoe].
  match goal with |- context [?x / 146097] =>
    replace x with ((year_start (y' mod 400) + doy) + y' / 400 * 146097) by (unfold doy; lia) end.
  rewrite Z.div_add, Z.mod_add, Z.div_small, Z.mod_small by lia.
  rewrite Hyoe, Z.add_0_l, Z.add_simpl_l. done.
Qed.

Lemma month_days_pos y m : 28 <= month_days y m <= 31.
Proof. unfold month_days. repeat case_match; lia. Qed.

(** Between the end of February and the first of March lies the end of a March year. *)
Lemma march_first y :
  days_Z y 3 1 = days_Z y 2 (month_days y 2) + 1.
Proof.
  rewrite !days_Z_eq by lia. unfold month_days. cbn [Z.leb Z.ltb Z.eqb Z.compare Pos.compare Pos.compare_cont Pos.eqb].
  set (x := y - 1). replace y with (x + 1) by lia. clearbody x. clear y.
  assert (0 <= x mod 400 <= 399) as Hx by (pose proof (Z.mod_pos_bound x 400); lia).
  pose proof (year_len_leap (x / 400) _ Hx) as Hl.
  replace (x mod 400 + x / 400 * 400) with x in Hl by (pose proof (Z.div_mod x 400); lia).
  assert ((x + 1) / 400 * 146097 + year_start ((x + 1) mod 400)
          = x / 400 * 146097 + year_start (x mod 400) + year_len (x mod 400)) as E.
  { unfold year_len. destruct (Z.eqb_spec (x mod 400) 399) as [E|E].
    - replace ((x + 1) mod 400) with 0 by (Z.to_euclidean_division_equations; lia).
      replace ((x + 1) / 400) with (x / 400 + 1) by (Z.to_euclidean_division_equations; lia).
      rewrite E. change (year_start 0) with 0. change (year_start (399 + 1)) with 146096. lia.
    - replace ((x + 1) mod 400) with (x mod 400 + 1) by (Z.to_euclidean_division_equations; lia).
      replace ((x + 1) / 400) with (x / 400) by (Z.to_euclidean_division_equations; lia). lia. }
  rewrite E, Hl. destruct (leap (x + 1)); Z.to_euclidean_division_equations; lia.
Qed.

(** Counting the day after a date gives one more. *)
Lemma next_day_count y m d y' m' d' :
  civil_ok y m d -> next_day (y, m, d) = (y', m', d') ->
  civil_ok y' m' d' /\ days_Z y' m' d' = days_Z y m d + 1.
Proof.
  intros [Hm Hd]. unfold next_day.
  destruct (Z.ltb_spec d (month_days y m)); [|destruct (Z.ltb_spec m 12)];
    intros [= <- <- <-]; (split; [split; [lia|]|]).
  - lia.
  - rewrite !days_Z_eq by lia. lia.
  - pose proof (month_days_pos y (m + 1)). lia.
  - replace d with (month_days y m) by lia. destruct (Z.eqb_spec m 2) as [->|].
    { apply march_first. }
    rewrite !days_Z_eq by lia.
    assert ((m + 1 <=? 2) = (m <=? 2)) as -> by lia.
    generalize (if m <=? 2 then y - 1 else y). intros x.
    generalize (x / 400), (year_start (x mod 400)). intros q r. unfold month_days.
    destruct (Z.ltb_spec 2 (m + 1)), (Z.ltb_spec 2 m);
      month_cases m; try lia; cbn; Z.to_euclidean_division_equations; lia.
  - pose proof (month_days_pos (y + 1) 1). lia.
  - replace d with (month_days y m) by lia. replace m with 12 by lia.
    rewrite !days_Z_eq by lia. change (1 <=? 2) with true. change (12 <=? 2) with false.
    change (2 <? 1) with false. change (2 <? 12) with true. cbv beta iota.
    replace (y + 1 - 1) with y by lia. generalize (y / 400), (year_start (y mod 400)). intros q r.
    unfold month_days. cbn. Z.to_euclidean_division_equations. lia.
Qed.

(** ** The conversions within the width *)

Lemma i64_id x : - 2^63 <= x < 2^63 -> i64 x = x.
Proof. intros H. unfold i64. rewrite Z.mod_small by lia. lia. Qed.

(** Removes the wrap-arounds whose argument is in range, innermost first. *)
Ltac i64_small :=
  repeat match goal with |- context [i64 ?x] =>
    lazymatch x with context [i64 _] => fail | _ => rewrite (i64_id x) by lia end end.

Lemma quot_small a b c : 0 < b -> 0 <= a <= c -> 0 <= a /t b <= c.
Proof. intros Hb Ha. rewrite Z.quot_div_nonneg by lia. split; [apply Z.div_pos; lia|]. apply Z.div_le_upper_bound; nia. Qed.

(** Day numbers for which no step overflows: all but the last 719468. *)
Definition day_fits (n : Z) : Prop := - 2^63 <= n < 2^63 - 719468.

Lemma civil_from_days_Z n : day_fits n -> civil_from_days n = civil_Z n.
Proof.
  intros Hn. unfold day_fits in Hn. unfold civil_from_days, civil_Z. cbv zeta. rewrite (i64_id (n + 719468)) by lia.
  set (z := n + 719468) in *. rewrite (i64_id (z - 146096)) by lia. rewrite quot_floor_era.
  pose proof (Z.div_mod z 146097 ltac:(lia)) as Hz. pose proof (Z.mod_pos_bound z 146097 ltac:(lia)) as Hm.
  set (era := z / 146097) in *. rewrite (i64_id (era * 146097)) by lia. rewrite (i64_id (z - _)) by lia.
  set (doe := z - era * 146097) in *. assert (Hdoe : 0 <= doe <= 146096) by lia. clearbody doe.
  pose proof (quot_small doe 1460 146096 ltac:(lia) Hdoe). pose proof (quot_small doe 36524 146096 ltac:(lia) Hdoe).
  pose proof (quot_small doe 146096 146096 ltac:(lia) Hdoe).
  assert (0 <= doe - doe /t 1460) by (rewrite Z.quot_div_nonneg by lia; Z.to_euclidean_division_equations; lia).
  assert (0 <= doe - doe /t 1460 + doe /t 36524 - doe /t 146096 <= 300000)
    by (rewrite !Z.quot_div_nonneg by lia; Z.to_euclidean_division_equations; lia).
  i64_small. set (yoe := (doe - doe /t 1460 + doe /t 36524 - doe /t 146096) /t 365).
  assert (Hyoe : 0 <= yoe <= 300000) by (by apply quot_small). clearbody yoe.
  pose proof (quot_small yoe 4 300000 ltac:(lia) Hyoe). pose proof (quot_small yoe 100 300000 ltac:(lia) Hyoe).
  assert (-2^60 <= era < 2^60) by lia. i64_small. set (doy := doe - (365 * yoe + yoe /t 4 - yoe /t 100)).
  assert (-2^40 <= doy < 2^40) by lia. clearbody doy. i64_small. set (mp := (5 * doy + 2) /t 153).
  assert (-2^43 <= mp <= 2^43) by (pose proof (Z.quot_rem' (5 * doy + 2) 153); pose proof (Z.rem_bound_abs (5 * doy + 2) 153); lia).
  clearbody mp. i64_small.
  assert (-2^51 <= (153 * mp + 2) /t 5 <= 2^51)
    by (pose proof (Z.quot_rem' (153 * mp + 2) 5); pose proof (Z.rem_bound_abs (153 * mp + 2) 5); lia).
  i64_small. done.
Qed.

Lemma days_from_civil_Z y m d :
  1 <= m <= 12 -> 1 <= d <= 31 -> day_fits (days_Z y m d) -> days_from_civil y m d = days_Z y m d.
Proof.
  intros Hm Hd. rewrite days_Z_eq by lia. unfold days_from_civil, day_fits. cbv zeta.
  set (y' := if m <=? 2 then y - 1 else y). set (mp := if 2 <? m then m - 3 else m + 9).
  assert (Hmp : 0 <= mp <= 11) by (unfold mp; destruct (Z.ltb_spec 2 m); lia).
  pose proof (Z.div_mod y' 400 ltac:(lia)) as Hy. pose proof (Z.mod_pos_bound y' 400 ltac:(lia)) as Hmod.
  assert (0 <= year_start (y' mod 400) <= 146097) by (unfold year_start; Z.to_euclidean_division_equations; lia).
  assert (0 <= (153 * mp + 2) / 5 <= 400) by (Z.to_euclidean_division_equations; lia). intros Hfit.
  assert (Hy' : -2^62 <= y' < 2^62) by lia.
  assert (-2^62 - 1 <= y <= 2^62 + 1) by (unfold y' in Hy'; destruct (m <=? 2); lia).
  rewrite (i64_id (y - 1)) by lia. fold y'. rewrite (i64_id (y' - 399)) by lia. rewrite quot_floor_400.
  rewrite (i64_id (y' / 400 * 400)), (i64_id (y' - _)) by lia. rewrite (i64_id (m - 3)), (i64_id (m + 9)) by lia. fold mp.
  replace (y' - y' / 400 * 400) with (y' mod 400) by lia. i64_small. rewrite (Z.quot_div_nonneg (153 * mp + 2)) by lia.
  rewrite !(Z.quot_div_nonneg (y' mod 400)) by lia. unfold year_start in *.
  assert (0 <= y' mod 400 / 4 <= 100 /\ 0 <= y' mod 400 / 100 <= 4) by (Z.to_euclidean_division_equations; lia).
  i64_small. lia.
Qed.

Lemma days_Z_fits y m d : civil_ok y m d -> - 25 * 10^15 <= y <= 25 * 10^15 -> day_fits (days_Z y m d).
Proof.
  intros [Hm Hd] Hy. pose proof (month_days_pos y m). rewrite days_Z_eq by lia. unfold day_fits.
  set (y' := if m <=? 2 then y - 1 else y). assert (- 25 * 10^15 - 1 <= y' <= 25 * 10^15) by (unfold y'; destruct (m <=? 2); lia).
  set (mp := if 2 <? m then m - 3 else m + 9). assert (0 <= mp <= 11) by (unfold mp; destruct (Z.ltb_spec 2 m); lia).
  unfold year_start. Z.to_euclidean_division_equations. lia.
Qed.

(** ** Claims *)

(** C38. The two conversions of the file services' clock are the Gregorian calendar and inverse
    to each other, before 1970 too, in 64-bit arithmetic: day 0 is 1 January 1970; for every signed
    64-bit day number except the last 719468 (for which the first addition overflows), the date of
    the day is a date of the calendar and counts back to that day, and the date of the next day is
    the day after it, by month lengths and the leap-year rule; and every date of the calendar within
    25 * 10^15 years of the year 0 is the date of the day it counts to. *)
Theorem calendar_correct :
  civil_from_days 0 = (1970, 1, 1)
  /\ (forall n y m d, day_fits n -> civil_from_days n = (y, m, d) ->
        civil_ok y m d /\ days_from_civil y m d = n
        /\ (day_fits (n + 1) -> civil_from_days (n + 1) = next_day (y, m, d)))
  /\ (forall y m d, civil_ok y m d -> - 25 * 10^15 <= y <= 25 * 10^15 ->
        civil_from_days (days_from_civil y m d) = (y, m, d)).
Proof.
  split; [done|]. split.
  - intros n y m d Hn H. rewrite civil_from_days_Z in H by done. destruct (civil_days _ _ _ _ H) as [Hok Hd]. split; [done|].
    pose proof (month_days_pos y m). split.
    + rewrite days_from_civil_Z; [done | apply Hok | destruct Hok; lia | by rewrite Hd].
    + intros Hn1. rewrite civil_from_days_Z by done. destruct (next_day (y, m, d)) as [[y' m'] d'] eqn:E.
      destruct (next_day_count _ _ _ _ _ _ Hok E) as [Hok' Hn']. rewrite <- Hd, <- Hn'. by apply days_civil.
  - intros y m d Hok Hy. pose proof (days_Z_fits y m d Hok Hy) as Hf. pose proof (month_days_pos y m).
    rewrite days_from_civil_Z; [|apply Hok | destruct Hok; lia | done]. rewrite civil_from_days_Z by done. by apply days_civil.
Qed.

(** At the end of the range the first addition wraps around. *)
Example last_day_wraps : civil_from_days (2^63 - 1) <> civil_Z (2^63 - 1).
Proof. vm_compute. discriminate. Qed.

(** In twelve-hour mode the clock writes midnight as 12 AM and noon as 12 PM. The BCD branch
    reads 12:30 AM as half past noon, the binary branch 12:30 PM as half past midnight. *)
Example twelve_hour_midnight :
  cmos_rtc_decode 0 0x00 0x30 0x12 0x01 0x01 0x24 = Some (19723 * 86400 + 12 * 3600 + 30 * 60)
  /\ cmos_rtc_decode 4 0 30 (0x80 + 12) 1 1 24 = Some (19723 * 86400 + 30 * 60).
Proof. done. Qed.

Lemma calendar_correct_witness :
  civil_from_days (days_from_civil 2024 2 29) = (2024, 2, 29)
  /\ civil_from_days (19782 + 1) = (2024, 3, 1).
Proof.
  destruct calendar_correct as (_ & H1 & H2). split.
  - apply H2; [split; [lia|]; change (month_days 2024 2) with 29; lia | lia].
  - destruct (H1 19782 2024 2 29) as (_ & _ & H); [unfold day_fits; lia | reflexivity|]. rewrite H by (unfold day_fits; lia). reflexivity.
Defined.
