(* ===== verification/MfsBlock.v ===== *)
(** * MfsBlock: blocks, free-space bitmap and copy-on-write of MorionFS (src/user/srv/src/mfs_srv.rs)

    MorionFS never overwrites a block in use: a changed node is sealed with a magic number and a
    checksum and written to a freshly allocated block. This file holds the block header, the
    write window that batches block writes, the free-space bitmap with its allocator, and
    [mfs_commit], which combines them. The block service is the interface [MfsDevice].
    Counters that are only printed are left out. *)

From S2P Require Import Prelude Bytes Crc.

Definition MFS_BLOCK : Z := 4096.
Definition MFS_SECTORS_PER_BLOCK : Z := MFS_BLOCK / 512.
Definition MFS_HDR : Z := 8.
Definition MFS_PAYLOAD : Z := MFS_BLOCK - MFS_HDR.
Definition MFS_WB_PAGES : nat := 16.
Definition MFS_BMP_BLOCK_SPAN : Z := MFS_BLOCK * 8.
Definition MFS_BMPH_CRC : Z := 16.
Definition MFS_MAX_BMP_DATA_BLOCKS : Z := (MFS_PAYLOAD - MFS_BMPH_CRC) / 4.
Definition MFS_MAX_BLOCKS : Z := MFS_MAX_BMP_DATA_BLOCKS * MFS_BMP_BLOCK_SPAN.

(** ** The block header *)

(** A buffer is a [mem] whose first [MFS_BLOCK] bytes are the block. *)
Definition mfs_seal (magic : Z) (buf : mem) : mem :=
  let buf := write_u32 0 magic buf in
  let crc := mfs_crc32 (slice_at MFS_HDR (Z.to_nat MFS_PAYLOAD) buf) in
  write_u32 4 crc buf.

Definition mfs_ok (buf : mem) (magic : Z) : bool :=
  if negb (read_u32 buf 0 =? magic) then false
  else mfs_crc32 (slice_at MFS_HDR (Z.to_nat MFS_PAYLOAD) buf) =? read_u32 buf 4.

(** ** Bit arrays

    Bit [i] of a byte array: [*p.add(i >> 3) & (1u8 << (i & 7))] and its updates. *)
Definition bit_get (m : mem) (i : Z) : bool :=
  negb (Z.land (m (Z.shiftr i 3)) (w8 (Z.shiftl 1 (Z.land i 7))) =? 0).
Definition bit_set (m : mem) (i : Z) : mem :=
  let p := Z.shiftr i 3 in write_byte p (Z.lor (m p) (w8 (Z.shiftl 1 (Z.land i 7)))) m.
Definition bit_clear (m : mem) (i : Z) : mem :=
  let p := Z.shiftr i 3 in
  write_byte p (Z.land (m p) (Z.lxor 255 (w8 (Z.shiftl 1 (Z.land i 7))))) m.

(** ** The block service, as the file system uses it *)

(** [content d vol lba] is what sectors [lba .. lba + 8] of the volume hold. A read also yields
    the bytes that reached the buffer; an entry of a batch is a block's first sector and bytes. *)
Class MfsDevice (D : Type) : Type := {
  content : D -> Z -> Z -> list Z;
  block_read_dev : Z -> Z -> D -> bool * list Z * D;
  block_batch : Z -> list (Z * list Z) -> D -> bool * D;
  block_raw_write : Z -> Z -> list Z -> D -> bool * D
}.

(** The current volume and the write window: block numbers and staged bytes, oldest first. *)
Record mfs_io (D : Type) : Type := mk_io {
  MFS_CUR_VOL : Z;
  MFS_WB : list (Z * list Z);
  MFS_DEV : D
}.
Arguments mk_io {D}.
Arguments MFS_CUR_VOL {D}.
Arguments MFS_WB {D}.
Arguments MFS_DEV {D}.

(** The free-space bitmap and the allocator's cursor. *)
Record mfs_space : Type := mk_space {
  MFS_BMP : mem;
  MFS_BMP_DIRTY : mem;
  MFS_TOTAL_BLOCKS : Z;
  MFS_FREE_BLOCKS : Z;
  MFS_ALLOC_NEXT : Z
}.

Section io.
Context {D : Type} `{!MfsDevice D}.
Implicit Types s : mfs_io D.

Definition mfs_wb_has (block_no : Z) s : bool := existsb (fun e => e.1 =? block_no) (MFS_WB s).

(** The fallback of [mfs_commit_flush]: block by block, up to the first failure. *)
Fixpoint write_each (vol : Z) (l : list (Z * list Z)) (d : D) : bool * D :=
  match l with
  | [] => (true, d)
  | (b, bs) :: l' =>
      let '(ok, d) := block_raw_write vol (w32 (b * MFS_SECTORS_PER_BLOCK)) bs d in
      if ok : bool then write_each vol l' d else (false, d)
  end.

Definition mfs_commit_flush s : bool * mfs_io D :=
  match MFS_WB s with
  | [] => (true, s)
  | wb =>
      let vol := MFS_CUR_VOL s in
      let '(ok, d) := block_batch vol ((fun e => (e.1 * MFS_SECTORS_PER_BLOCK, e.2)) <$> wb) (MFS_DEV s) in
      let '(ok, d) := if ok : bool then (true, d) else write_each vol wb d in
      (ok, mk_io vol [] d)
  end.

Definition mfs_wb_stage (block_no : Z) (src : list Z) s : bool * mfs_io D :=
  let '(ok, s) := if (MFS_WB_PAGES <=? length (MFS_WB s))%nat then mfs_commit_flush s else (true, s) in
  if negb ok then (false, s)
  else (true, mk_io (MFS_CUR_VOL s) (MFS_WB s ++ [(block_no, src)]) (MFS_DEV s)).

(** Reads block [block_no] into [dst]. *)
Definition mfs_read_blk (block_no : Z) (dst : mem) s : bool * mem * mfs_io D :=
  let '(ok, s) := if mfs_wb_has block_no s then mfs_commit_flush s else (true, s) in
  if negb ok then (false, dst, s)
  else
    let '(ok, bs, d) := block_read_dev (MFS_CUR_VOL s) (w32 (block_no * MFS_SECTORS_PER_BLOCK)) (MFS_DEV s) in
    (ok, copy_to 0 bs dst, mk_io (MFS_CUR_VOL s) (MFS_WB s) d).

Definition mfs_write_blk (block_no : Z) (src : mem) s : bool * mfs_io D :=
  mfs_wb_stage block_no (slice_at 0 (Z.to_nat MFS_BLOCK) src) s.

End io.

(** ** The bitmap and the allocator *)

Definition mfs_bmp_touch (b : Z) (dirty : mem) : mem :=
  let c := b / MFS_BMP_BLOCK_SPAN in
  if c <? MFS_MAX_BMP_DATA_BLOCKS then bit_set dirty c else dirty.

Definition mfs_bmp_get (b : Z) (p : mfs_space) : bool :=
  if MFS_TOTAL_BLOCKS p <=? b then false else bit_get (MFS_BMP p) b.

Definition mfs_bmp_set (b : Z) (p : mfs_space) : mfs_space :=
  if MFS_TOTAL_BLOCKS p <=? b then p
  else if bit_get (MFS_BMP p) b then p
  else mk_space (bit_set (MFS_BMP p) b) (mfs_bmp_touch b (MFS_BMP_DIRTY p)) (MFS_TOTAL_BLOCKS p)
         (saturating_sub (MFS_FREE_BLOCKS p) 1) (MFS_ALLOC_NEXT p).

Definition mfs_bmp_clear (b : Z) (p : mfs_space) : mfs_space :=
  if MFS_TOTAL_BLOCKS p <=? b then p
  else if bit_get (MFS_BMP p) b then
    mk_space (bit_clear (MFS_BMP p) b) (mfs_bmp_touch b (MFS_BMP_DIRTY p)) (MFS_TOTAL_BLOCKS p)
      (w32 (MFS_FREE_BLOCKS p + 1)) (MFS_ALLOC_NEXT p)
  else p.

Definition count_used (p : mfs_space) (n : Z) : Z :=
  foldl (fun used b => if mfs_bmp_get b p then used + 1 else used) 0 (seqZ 0 n).
Definition mfs_bmp_recount (p : mfs_space) : Z * mfs_space :=
  let free := w32 (MFS_TOTAL_BLOCKS p - count_used p (MFS_TOTAL_BLOCKS p)) in
  (free, mk_space (MFS_BMP p) (MFS_BMP_DIRTY p) (MFS_TOTAL_BLOCKS p) free (MFS_ALLOC_NEXT p)).

Definition mfs_bb_for (total : Z) : Z := div_ceil total MFS_BMP_BLOCK_SPAN.
Definition mfs_data_start (p : mfs_space) : Z := 4 + 2 * mfs_bb_for (MFS_TOTAL_BLOCKS p).

Definition mfs_bmp_take (b : Z) (p : mfs_space) : Z * mfs_space :=
  let p := mfs_bmp_set b p in
  (b, mk_space (MFS_BMP p) (MFS_BMP_DIRTY p) (MFS_TOTAL_BLOCKS p) (MFS_FREE_BLOCKS p) (b + 1)).

Definition mfs_alloc_block (p : mfs_space) : option Z * mfs_space :=
  let total := MFS_TOTAL_BLOCKS p in
  let start := mfs_data_start p in
  if total <=? start then (None, p)
  else
    let hint := Z.min (Z.max (MFS_ALLOC_NEXT p) start) total in
    let free b := negb (mfs_bmp_get b p) in
    match find_from free (Z.to_nat (total - hint)) hint with
    | Some b => let '(b, p) := mfs_bmp_take b p in (Some b, p)
    | None =>
        match find_from free (Z.to_nat (hint - start)) start with
        | Some b => let '(b, p) := mfs_bmp_take b p in (Some b, p)
        | None => (None, p)
        end
    end.

(** Seals [buf], allocates a block and stages the write; also returns the sealed buffer. *)
Definition mfs_commit {D} `{!MfsDevice D} (magic : Z) (buf : mem) (s : mfs_io D) (p : mfs_space)
    : option Z * mem * mfs_io D * mfs_space :=
  let buf := mfs_seal magic buf in
  let '(ob, p) := mfs_alloc_block p in
  match ob with
  | None => (None, buf, s, p)
  | Some b =>
      let '(ok, s) := mfs_write_blk b buf s in
      ((if ok : bool then Some b else None), buf, s, p)
  end.

(** ** What the file system relies on *)

Definition same_content {D} `{!MfsDevice D} (d d' : D) : Prop :=
  forall v lba, content d' v lba = content d v lba.

(** The bytes a batch or a window holds for a block. *)
Definition staged (l : list (Z * list Z)) (k : Z) : option (list Z) :=
  (list_to_map l : gmap Z (list Z)) !! k.

Definition block_data (bs : list Z) : Prop := length bs = Z.to_nat MFS_BLOCK /\ Forall is_byte bs.

(** A completed transfer moved whole blocks, a failed one touched only the blocks it named. Blocks
    start at multiples of eight sectors, and the blocks of a batch are different. *)
Class MfsDeviceLaws (D : Type) `{!MfsDevice D} : Prop := {
  content_data d v lba : block_data (content d v lba);
  read_ok v lba d bs d' :
    block_read_dev v lba d = (true, bs, d') -> bs = content d v lba /\ same_content d d';
  read_bad v lba d bs d' :
    block_read_dev v lba d = (false, bs, d') ->
    (length bs <= Z.to_nat MFS_BLOCK)%nat /\ Forall is_byte bs /\ same_content d d';
  batch_ok v l d d' :
    NoDup l.*1 -> Forall (fun e => e.1 mod 8 = 0 /\ block_data e.2) l -> block_batch v l d = (true, d') ->
    forall v' b, content d' v' (b * 8)
                 = default (content d v' (b * 8)) (if v' =? v then staged l (b * 8) else None);
  batch_bad v l d d' :
    block_batch v l d = (false, d') ->
    forall v' b, staged l (b * 8) = None -> content d' v' (b * 8) = content d v' (b * 8);
  raw_ok v lba bs d d' :
    block_raw_write v lba bs d = (true, d') -> lba mod 8 = 0 -> block_data bs ->
    forall v' b, content d' v' (b * 8)
                 = if (v' =? v) && (b * 8 =? lba) then bs else content d v' (b * 8);
  raw_bad v lba bs d d' :
    block_raw_write v lba bs d = (false, d') ->
    forall v' b, b * 8 <> lba -> content d' v' (b * 8) = content d v' (b * 8)
}.

(** ** Lemmas on headers and bits *)

Definition byte_mem (m : mem) : Prop := forall a, is_byte (m a).

Lemma w8_byte x : is_byte (w8 x).
Proof. unfold is_byte, w8. apply Z.mod_pos_bound. lia. Qed.

Lemma byte_mem_write_byte p v m : byte_mem m -> is_byte v -> byte_mem (write_byte p v m).
Proof. intros Hm Hv a. unfold write_byte. destruct (a =? p); auto. Qed.

Lemma byte_mem_write_u16 p v m : byte_mem m -> byte_mem (write_u16 p v m).
Proof. intros Hm. unfold write_u16. do 2 (apply byte_mem_write_byte; [|apply w8_byte]). exact Hm. Qed.

Lemma byte_mem_write_u32 p v m : byte_mem m -> byte_mem (write_u32 p v m).
Proof. intros Hm. unfold write_u32. do 4 (apply byte_mem_write_byte; [|apply w8_byte]). exact Hm. Qed.

Lemma byte_mem_write_u64 p v m : byte_mem m -> byte_mem (write_u64 p v m).
Proof. intros Hm. unfold write_u64. by do 2 apply byte_mem_write_u32. Qed.

Lemma byte_mem_copy_to p l m : byte_mem m -> Forall is_byte l -> byte_mem (copy_to p l m).
Proof.
  intros Hm Hl a. unfold copy_to. destruct (_ && _) eqn:E; [|done]. bool_to_prop.
  destruct (nth_lookup_or_length l (Z.to_nat (a - p)) 0) as [Hn|Hn]; [|lia].
  by eapply Forall_lookup_1 in Hn.
Qed.

Lemma byte_mem_slice p n m : byte_mem m -> Forall is_byte (slice_at p n m).
Proof. intros Hm. unfold slice_at. apply Forall_fmap, Forall_true. intros. apply Hm. Qed.

Create HintDb bytes discriminated.
#[export] Hint Opaque byte_mem is_byte mfs_seal write_u16 write_u32 write_u64 write_byte copy_to : bytes.
#[export] Hint Resolve byte_mem_write_byte byte_mem_write_u16 byte_mem_write_u32 byte_mem_write_u64
  byte_mem_copy_to byte_mem_slice w8_byte : bytes.

Lemma crc_range l : Forall is_byte l -> 0 <= mfs_crc32 l < 2^32.
Proof.
  intros H. unfold mfs_crc32. apply reg_lxor; [apply reg_update; [|done]|]; unfold reg; lia.
Qed.

Lemma seal_byte_mem magic buf : byte_mem buf -> byte_mem (mfs_seal magic buf).
Proof. intros H. unfold mfs_seal. by do 2 apply byte_mem_write_u32. Qed.
#[export] Hint Resolve seal_byte_mem : bytes.

Lemma seal_payload magic buf a : MFS_HDR <= a -> mfs_seal magic buf a = buf a.
Proof. unfold MFS_HDR, mfs_seal. intros H. by rewrite !write_u32_out by lia. Qed.

Lemma seal_magic magic buf : 0 <= magic < 2^32 -> read_u32 (mfs_seal magic buf) 0 = magic.
Proof.
  intros H. unfold mfs_seal.
  rewrite (read_u32_ext 0 _ (write_u32 0 magic buf)) by (intros a Ha; apply write_u32_out; lia).
  by apply read_write_u32.
Qed.

(** A sealed block is accepted with its magic number and refused with any other. *)
Lemma seal_ok magic buf m :
  0 <= magic < 2^32 -> byte_mem buf -> mfs_ok (mfs_seal magic buf) m = (magic =? m).
Proof.
  intros Hm Hb. unfold mfs_ok. rewrite seal_magic by done.
  destruct (Z.eqb_spec magic m) as [<-|]; [|done]. cbn [negb].
  unfold mfs_seal at 2. set (crc := mfs_crc32 (slice_at _ _ (write_u32 0 magic buf))).
  rewrite read_write_u32 by (by apply crc_range, byte_mem_slice, byte_mem_write_u32). apply Z.eqb_eq. unfold crc. apply (f_equal mfs_crc32).
  apply slice_at_ext. intros a Ha. unfold MFS_HDR in Ha. unfold mfs_seal. apply write_u32_out. lia.
Qed.

Lemma ok_ext buf buf' magic : agree 0 MFS_BLOCK buf buf' -> mfs_ok buf magic = mfs_ok buf' magic.
Proof.
  intros H. unfold mfs_ok.
  assert (read_u32 buf 0 = read_u32 buf' 0) as ->
    by (apply read_u32_ext; eapply agree_sub; [exact H|lia|unfold MFS_BLOCK; lia]).
  assert (read_u32 buf 4 = read_u32 buf' 4) as ->
    by (apply read_u32_ext; eapply agree_sub; [exact H|lia|unfold MFS_BLOCK; lia]).
  assert (slice_at MFS_HDR (Z.to_nat MFS_PAYLOAD) buf = slice_at MFS_HDR (Z.to_nat MFS_PAYLOAD) buf') as ->.
  { apply slice_at_ext. intros a Ha. apply H. revert Ha.
    unfold MFS_HDR, MFS_PAYLOAD, MFS_BLOCK, MFS_HDR. lia. }
  reflexivity.
Qed.

Lemma bit_mask i : 0 <= i -> w8 (Z.shiftl 1 (Z.land i 7)) = 2 ^ (i mod 8) /\ 0 <= i mod 8 < 8.
Proof.
  intros Hi. change 7 with (Z.ones 3). rewrite Z.land_ones by lia. change (2^3) with 8.
  assert (0 <= i mod 8 < 8) as H by (apply Z.mod_pos_bound; lia). split; [|done].
  rewrite Z.shiftl_1_l. unfold w8. apply Z.mod_small. split; [lia|].
  apply Z.pow_lt_mono_r; lia.
Qed.

Lemma bit_get_testbit m i : 0 <= i -> bit_get m i = Z.testbit (m (i / 8)) (i mod 8).
Proof.
  intros Hi. unfold bit_get. destruct (bit_mask i Hi) as [-> Hb].
  rewrite Z.shiftr_div_pow2 by lia. change (2^3) with 8.
  destruct (Z.testbit (m (i / 8)) (i mod 8)) eqn:E.
  - apply negb_true_iff, Z.eqb_neq. intros H.
    assert (Z.testbit (Z.land (m (i / 8)) (2 ^ (i mod 8))) (i mod 8) = true) as Ht
      by (rewrite Z.land_spec, E, Z.pow2_bits_true by lia; done).
    by rewrite H, Z.bits_0 in Ht.
  - apply negb_false_iff, Z.eqb_eq. apply Z.bits_inj'. intros n Hn.
    rewrite Z.land_spec, Z.bits_0. destruct (decide (n = i mod 8)) as [->|]; [by rewrite E|].
    rewrite Z.pow2_bits_false by lia. apply andb_false_r.
Qed.

Lemma same_bit i j : i / 8 = j / 8 -> i mod 8 = j mod 8 -> i = j.
Proof. intros. pose proof (Z.div_mod i 8). pose proof (Z.div_mod j 8). lia. Qed.

Lemma bit_get_set m i j : 0 <= i -> 0 <= j -> bit_get (bit_set m i) j = (j =? i) || bit_get m j.
Proof.
  intros Hi Hj. rewrite !bit_get_testbit by done. unfold bit_set.
  destruct (bit_mask i Hi) as [-> Hb]. rewrite Z.shiftr_div_pow2 by lia. change (2^3) with 8.
  unfold write_byte. destruct (Z.eqb_spec (j / 8) (i / 8)) as [E|E].
  - rewrite Z.lor_spec, E. destruct (Z.eqb_spec j i) as [->|Hne].
    + rewrite Z.pow2_bits_true by lia. apply orb_true_r.
    + rewrite Z.pow2_bits_false; [apply orb_false_r|]. intros H. apply Hne. by apply same_bit.
  - destruct (Z.eqb_spec j i) as [->|]; [done|]. done.
Qed.

Lemma bit_get_clear m i j :
  0 <= i -> 0 <= j -> bit_get (bit_clear m i) j = negb (j =? i) && bit_get m j.
Proof.
  intros Hi Hj. rewrite !bit_get_testbit by done. unfold bit_clear.
  destruct (bit_mask i Hi) as [-> Hb]. rewrite Z.shiftr_div_pow2 by lia. change (2^3) with 8.
  assert (0 <= j mod 8 < 8) as Hjb by (apply Z.mod_pos_bound; lia).
  assert (Z.testbit 255 (j mod 8) = true) as H255
    by (change 255 with (Z.ones 8); apply Z.ones_spec_low; lia).
  unfold write_byte. destruct (Z.eqb_spec (j / 8) (i / 8)) as [E|E].
  - rewrite Z.land_spec, Z.lxor_spec, H255, E. destruct (Z.eqb_spec j i) as [->|Hne].
    + rewrite Z.pow2_bits_true by lia. apply andb_false_r.
    + rewrite Z.pow2_bits_false; [apply andb_true_r|]. intros H. apply Hne. by apply same_bit.
  - destruct (Z.eqb_spec j i) as [->|]; [done|]. done.
Qed.

(** ** The write window *)

Lemma staged_cons b bs l k : staged ((b, bs) :: l) k = if b =? k then Some bs else staged l k.
Proof.
  unfold staged. rewrite list_to_map_cons. destruct (Z.eqb_spec b k) as [->|].
  - by rewrite lookup_insert_eq.
  - by rewrite lookup_insert_ne.
Qed.

Lemma staged_scale l b :
  staged ((fun e => (e.1 * MFS_SECTORS_PER_BLOCK, e.2)) <$> l) (b * 8) = staged l b.
Proof.
  induction l as [|[b' bs] l IH]; [done|]. rewrite fmap_cons, !staged_cons, IH. cbn [fst snd].
  change MFS_SECTORS_PER_BLOCK with 8. destruct (Z.eqb_spec (b' * 8) (b * 8)), (Z.eqb_spec b' b); done || lia.
Qed.

(** A block number in range with a block's bytes. *)
Definition block_ok (e : Z * list Z) : Prop := 0 <= e.1 < 2^28 /\ block_data e.2.

Lemma scale_NoDup (l : list (Z * list Z)) :
  NoDup l.*1 -> NoDup ((fun e => (e.1 * MFS_SECTORS_PER_BLOCK, e.2)) <$> l).*1.
Proof.
  intros Hnd. rewrite <- list_fmap_compose. rewrite (list_fmap_ext _ ((fun x => x * 8) ∘ fst) l) by done.
  rewrite (list_fmap_compose fst (fun x => x * 8)). apply (NoDup_fmap_2_strong _); [|done].
  intros x y _ _ H. lia.
Qed.

Lemma scale_aligned (l : list (Z * list Z)) :
  Forall block_ok l ->
  Forall (fun e => e.1 mod 8 = 0 /\ block_data e.2) ((fun e => (e.1 * MFS_SECTORS_PER_BLOCK, e.2)) <$> l).
Proof.
  intros H. apply Forall_fmap. eapply Forall_impl; [exact H|]. intros x [_ Hx]. cbn. split; [|done].
  change MFS_SECTORS_PER_BLOCK with 8. apply Z.mod_mul. lia.
Qed.

Lemma staged_None l b : staged l b = None <-> b ∉ l.*1.
Proof. symmetry. apply not_elem_of_list_to_map. Qed.

Lemma staged_app l b bs k :
  staged (l ++ [(b, bs)]) k = match staged l k with Some x => Some x | None => if b =? k then Some bs else None end.
Proof.
  induction l as [|[b' bs'] l IH]; cbn [app].
  - rewrite staged_cons. done.
  - rewrite !staged_cons, IH. by destruct (b' =? k).
Qed.

Section window.
Context {D : Type} `{!MfsDevice D, !MfsDeviceLaws D}.
Implicit Types s : mfs_io D.

(** What block [b] holds, staged writes included. *)
Definition mfs_view s (b : Z) : list Z :=
  default (content (MFS_DEV s) (MFS_CUR_VOL s) (b * 8)) (staged (MFS_WB s) b).

(** The window holds different blocks, each complete. *)
Definition io_wf s : Prop := NoDup (MFS_WB s).*1 /\ Forall block_ok (MFS_WB s).

Lemma view_block s b : io_wf s -> block_data (mfs_view s b).
Proof using MfsDeviceLaws0.
  intros [Hd Hok]. unfold mfs_view. destruct (staged (MFS_WB s) b) as [bs|] eqn:E; cbn.
  - unfold staged in E. apply elem_of_list_to_map in E; [|done]. eapply Forall_forall in Hok; [|done]. apply Hok.
  - apply content_data.
Qed.

Lemma wb_has_staged b s : mfs_wb_has b s = negb (is_none (staged (MFS_WB s) b)).
Proof.
  unfold mfs_wb_has. induction (MFS_WB s) as [|[b' bs] l IH]; [done|].
  cbn [existsb fst]. rewrite staged_cons, IH. by destruct (b' =? b).
Qed.

Lemma write_each_ok l vol d d' :
  NoDup l.*1 -> Forall block_ok l -> write_each vol l d = (true, d') ->
  forall v b, content d' v (b * 8)
              = default (content d v (b * 8)) (if v =? vol then staged l b else None).
Proof using MfsDeviceLaws0.
  revert d. induction l as [|[b bs] l IH]; intros d Hnd Hok Hw v k; cbn in Hw.
  { injection Hw as <-. by destruct (v =? vol). }
  destruct (block_raw_write _ _ _ d) as [[] d1] eqn:E1; [|done].
  apply NoDup_cons in Hnd as [Hn Hnd]. apply Forall_cons in Hok as [[Hb Hbd] Hok]. cbn in Hb, Hn.
  rewrite (IH d1 Hnd Hok Hw). unfold w32, MFS_SECTORS_PER_BLOCK, MFS_BLOCK in E1.
  change (4096 / 512) with 8 in E1. rewrite Z.mod_small in E1 by lia.
  rewrite (raw_ok _ _ _ _ _ E1) by (done || (apply Z.mod_mul; lia)).
  destruct (Z.eqb_spec v vol) as [->|]; cbn [andb]; [|done].
  rewrite staged_cons. destruct (Z.eqb_spec (k * 8) (b * 8)) as [Hkb|Hkb].
  - assert (k = b) as -> by lia. rewrite Z.eqb_refl. by rewrite (proj2 (staged_None l b)).
  - by rewrite (proj2 (Z.eqb_neq b k)) by lia.
Qed.

Lemma write_each_frame l vol d ok d' :
  Forall block_ok l -> write_each vol l d = (ok, d') ->
  forall v b, staged l b = None -> content d' v (b * 8) = content d v (b * 8).
Proof using MfsDeviceLaws0.
  revert d. induction l as [|[b bs] l IH]; intros d Hok Hw v k Hk; cbn in Hw.
  { by injection Hw as <- <-. }
  apply Forall_cons in Hok as [[Hb Hbd] Hok]. cbn in Hb.
  apply staged_None in Hk. rewrite fmap_cons, not_elem_of_cons in Hk. destruct Hk as [Hkb Hk].
  cbn in Hkb. apply staged_None in Hk.
  destruct (block_raw_write _ _ _ d) as [o d1] eqn:E1.
  unfold w32, MFS_SECTORS_PER_BLOCK, MFS_BLOCK in E1. change (4096 / 512) with 8 in E1.
  rewrite Z.mod_small in E1 by lia.
  assert (content d1 v (k * 8) = content d v (k * 8)) as E2.
  { destruct o; [|apply (raw_bad _ _ _ _ _ E1); lia].
    rewrite (raw_ok _ _ _ _ _ E1) by (done || (apply Z.mod_mul; lia)).
    destruct (Z.eqb_spec (k * 8) (b * 8)); [lia|]. by rewrite andb_false_r. }
  destruct o; [|injection Hw as <- <-; done]. by rewrite (IH d1 Hok Hw).
Qed.

(** A flush empties the window. When it succeeds every block reads as before; when it fails, the
    blocks that were not in the window do. *)
Lemma flush_spec s ok s' :
  io_wf s -> mfs_commit_flush s = (ok, s') ->
  MFS_WB s' = [] /\ MFS_CUR_VOL s' = MFS_CUR_VOL s
  /\ (forall b, ok = true \/ mfs_wb_has b s = false -> mfs_view s' b = mfs_view s b).
Proof using MfsDeviceLaws0.
  intros [Hnd Hok] Hf. unfold mfs_commit_flush in Hf.
  destruct (MFS_WB s) as [|e wb] eqn:Ewb; [by injection Hf as <- <-|].
  rewrite <- Ewb in *. set (l := MFS_WB s) in *.
  set (l8 := (fun e : Z * list Z => (e.1 * MFS_SECTORS_PER_BLOCK, e.2)) <$> l) in Hf.
  destruct (block_batch _ l8 _) as [ok1 d1] eqn:E1.
  destruct (if ok1 then (true, d1) else write_each (MFS_CUR_VOL s) l d1) as [ok2 d2] eqn:E2.
  injection Hf as <- <-. split; [done|]. split; [done|]. intros b Hb.
  unfold mfs_view. cbn. fold l. rewrite wb_has_staged in Hb. fold l in Hb.
  assert (staged l8 (b * 8) = staged l b) as Hs by apply staged_scale.
  destruct ok1.
  - injection E2 as <- <-. rewrite (batch_ok _ _ _ _ (scale_NoDup l Hnd) (scale_aligned l Hok) E1).
    by rewrite Z.eqb_refl, staged_scale.
  - destruct (staged l b) as [bs|] eqn:Eb.
    + destruct Hb as [-> |]; [|done].
      rewrite (write_each_ok _ _ _ _ Hnd Hok E2), Z.eqb_refl, Eb. done.
    + rewrite (write_each_frame _ _ _ _ _ Hok E2) by done. by apply (batch_bad _ _ _ _ E1); rewrite Hs.
Qed.

Lemma flush_wf s ok s' : io_wf s -> mfs_commit_flush s = (ok, s') -> io_wf s'.
Proof using MfsDeviceLaws0.
  intros Hwf Hf. destruct (flush_spec _ _ _ Hwf Hf) as [E _]. unfold io_wf. rewrite E.
  split; constructor.
Qed.

Lemma wb_has_empty b s : MFS_WB s = [] -> mfs_wb_has b s = false.
Proof. intros E. unfold mfs_wb_has. by rewrite E. Qed.

(** Reading a block gives what it holds; a failed read can lose staged blocks only. *)
Lemma read_blk_spec b dst s ok buf s' :
  io_wf s -> 0 <= b < 2^28 -> mfs_read_blk b dst s = (ok, buf, s') ->
  io_wf s' /\ MFS_CUR_VOL s' = MFS_CUR_VOL s
  /\ (forall b', mfs_wb_has b' s = false -> mfs_wb_has b' s' = false)
  /\ (forall b', ok = true \/ mfs_wb_has b s = false \/ mfs_wb_has b' s = false -> mfs_view s' b' = mfs_view s b')
  /\ (ok = true -> buf = copy_to 0 (mfs_view s b) dst)
  /\ (byte_mem dst -> byte_mem buf).
Proof using MfsDeviceLaws0.
  intros Hwf Hb Hr. unfold mfs_read_blk in Hr.
  destruct (if mfs_wb_has b s then mfs_commit_flush s else (true, s)) as [ok1 s1] eqn:E1.
  assert (io_wf s1 /\ MFS_CUR_VOL s1 = MFS_CUR_VOL s /\ (ok1 = true -> mfs_wb_has b s1 = false)
          /\ (forall b', mfs_wb_has b' s = false -> mfs_wb_has b' s1 = false)
          /\ (forall b', ok1 = true \/ mfs_wb_has b' s = false -> mfs_view s1 b' = mfs_view s b')
          /\ (mfs_wb_has b s = false -> s1 = s))
    as (Hwf1 & Hv1 & Hn & Hsub & Hview & Hsame).
  { destruct (mfs_wb_has b s) eqn:Eb.
    - destruct (flush_spec _ _ _ Hwf E1) as (H1 & H2 & H3).
      split_and!; eauto using flush_wf, wb_has_empty. done.
    - injection E1 as <- <-. done. }
  destruct ok1; cbn [negb] in Hr; [|injection Hr as <- <- <-; split_and!; try done;
    intros b' [?|[Hs|?]]; [done| |auto]; by rewrite Hsame].
  destruct (block_read_dev _ _ _) as [[ok2 bs] d2] eqn:E2. injection Hr as <- <- <-.
  assert (same_content (MFS_DEV s1) d2 /\ Forall is_byte bs
          /\ (ok2 = true -> bs = content (MFS_DEV s1) (MFS_CUR_VOL s1) (b * 8))) as (Hsc & Hbs & Hbs2).
  { unfold w32, MFS_SECTORS_PER_BLOCK, MFS_BLOCK in E2. change (4096 / 512) with 8 in E2.
    rewrite Z.mod_small in E2 by lia. destruct ok2.
    - destruct (read_ok _ _ _ _ _ E2) as [-> ?]. split_and!; try done. apply content_data.
    - destruct (read_bad _ _ _ _ _ E2) as (? & ? & ?). done. }
  assert (forall b', mfs_view (mk_io (MFS_CUR_VOL s1) (MFS_WB s1) d2) b' = mfs_view s1 b') as Hd2.
  { intros b'. unfold mfs_view. cbn. by rewrite Hsc. }
  split_and!; try done.
  - intros b' _. rewrite Hd2. apply Hview. by left.
  - intros Ho. rewrite (Hbs2 Ho), <- (Hview b) by (by left). unfold mfs_view.
    specialize (Hn eq_refl). rewrite wb_has_staged in Hn. destruct (staged (MFS_WB s1) b); done.
  - intros Hdst. by apply byte_mem_copy_to.
Qed.

(** Staging a block that is not in the window. *)
Lemma stage_spec b src s ok s' :
  io_wf s -> block_ok (b, src) -> mfs_wb_has b s = false -> mfs_wb_stage b src s = (ok, s') ->
  io_wf s' /\ MFS_CUR_VOL s' = MFS_CUR_VOL s
  /\ (forall b', b' <> b -> mfs_wb_has b' s = false -> mfs_wb_has b' s' = false)
  /\ (forall b', b' <> b -> ok = true \/ mfs_wb_has b' s = false -> mfs_view s' b' = mfs_view s b')
  /\ (ok = true -> mfs_view s' b = src)
  /\ (ok = false -> mfs_view s' b = mfs_view s b /\ MFS_WB s' = []
      /\ (MFS_WB_PAGES <= length (MFS_WB s))%nat).
Proof using MfsDeviceLaws0.
  intros Hwf Hbo Hb Hr. unfold mfs_wb_stage in Hr.
  destruct (if (MFS_WB_PAGES <=? length (MFS_WB s))%nat then mfs_commit_flush s else (true, s)) as [ok1 s1] eqn:E1.
  assert (io_wf s1 /\ MFS_CUR_VOL s1 = MFS_CUR_VOL s
          /\ (forall b', mfs_wb_has b' s = false -> mfs_wb_has b' s1 = false)
          /\ (forall b', ok1 = true \/ mfs_wb_has b' s = false -> mfs_view s1 b' = mfs_view s b')
          /\ (ok1 = false -> MFS_WB s1 = [] /\ (MFS_WB_PAGES <= length (MFS_WB s))%nat))
    as (Hwf1 & Hv1 & Hsub & Hview & Hemp).
  { destruct (Nat.leb_spec MFS_WB_PAGES (length (MFS_WB s))).
    - destruct (flush_spec _ _ _ Hwf E1) as (H1 & H2 & H3).
      split_and!; eauto using flush_wf, wb_has_empty.
    - injection E1 as <- <-. done. }
  destruct ok1; cbn [negb] in Hr; injection Hr as <- <-; [|split_and!; auto; done].
  specialize (Hsub b Hb) as Hb1. rewrite wb_has_staged in Hb1.
  assert (staged (MFS_WB s1) b = None) as Hs1 by (destruct (staged (MFS_WB s1) b); done).
  split_and!; try done.
  - destruct Hwf1 as [Hnd Hok]. split; cbn.
    + rewrite fmap_app. apply NoDup_app. split_and!; [done| |apply NoDup_singleton].
      cbn. apply staged_None in Hs1. set_solver.
    + apply Forall_app. auto.
  - intros b' Hne H. rewrite wb_has_staged. cbn. rewrite staged_app. specialize (Hsub b' H).
    rewrite wb_has_staged in Hsub. destruct (staged (MFS_WB s1) b'); [done|].
    destruct (Z.eqb_spec b b'); [congruence|done].
  - intros b' Hne _. rewrite <- (Hview b') by (by left). unfold mfs_view. cbn. rewrite staged_app.
    destruct (staged (MFS_WB s1) b'); [done|]. destruct (Z.eqb_spec b b'); [congruence|done].
  - intros _. unfold mfs_view. cbn. by rewrite staged_app, Hs1, Z.eqb_refl.
Qed.

End window.

(** ** The bitmap *)

Lemma bmp_total_set b p : MFS_TOTAL_BLOCKS (mfs_bmp_set b p) = MFS_TOTAL_BLOCKS p.
Proof. unfold mfs_bmp_set. by repeat case_match. Qed.
Lemma bmp_total_clear b p : MFS_TOTAL_BLOCKS (mfs_bmp_clear b p) = MFS_TOTAL_BLOCKS p.
Proof. unfold mfs_bmp_clear. by repeat case_match. Qed.

Lemma bmp_get_set b b' p :
  0 <= b -> 0 <= b' ->
  mfs_bmp_get b' (mfs_bmp_set b p) = (b' =? b) && (b <? MFS_TOTAL_BLOCKS p) || mfs_bmp_get b' p.
Proof.
  intros Hb Hb'. unfold mfs_bmp_set. destruct (Z.leb_spec (MFS_TOTAL_BLOCKS p) b) as [Ht|Ht].
  { rewrite (proj2 (Z.ltb_ge _ _)) by done. by rewrite andb_false_r. }
  rewrite (proj2 (Z.ltb_lt _ _)), andb_true_r by done. destruct (bit_get (MFS_BMP p) b) eqn:E.
  - destruct (Z.eqb_spec b' b) as [->|]; [|done]. unfold mfs_bmp_get.
    by rewrite E, (proj2 (Z.leb_gt _ _)) by done.
  - unfold mfs_bmp_get. cbn. rewrite bit_get_set by done.
    destruct (Z.leb_spec (MFS_TOTAL_BLOCKS p) b'); [|done].
    destruct (Z.eqb_spec b' b); [lia|done].
Qed.

Lemma bmp_get_clear b b' p :
  0 <= b -> 0 <= b' -> mfs_bmp_get b' (mfs_bmp_clear b p) = negb (b' =? b) && mfs_bmp_get b' p.
Proof.
  intros Hb Hb'. unfold mfs_bmp_clear, mfs_bmp_get.
  destruct (Z.leb_spec (MFS_TOTAL_BLOCKS p) b) as [Ht|Ht].
  { destruct (Z.eqb_spec b' b) as [->|]; [|done]. by rewrite (proj2 (Z.leb_le _ _)) by done. }
  destruct (bit_get (MFS_BMP p) b) eqn:E; cbn.
  - rewrite bit_get_clear by done. destruct (_ <=? b'); [by rewrite andb_false_r|done].
  - destruct (Z.eqb_spec b' b) as [->|]; [|done]. rewrite E. by destruct (_ <=? b).
Qed.

(** The number of blocks the bitmap has as free. *)
Definition free_in (f : Z -> bool) (l : list Z) : Z := Z.of_nat (length (filter (fun b => f b = false) l)).
Definition count_free (p : mfs_space) : Z :=
  free_in (fun b => mfs_bmp_get b p) (seqZ 0 (MFS_TOTAL_BLOCKS p)).

Lemma free_in_ext f g l : (forall b, b ∈ l -> f b = g b) -> free_in f l = free_in g l.
Proof. intros H. unfold free_in. f_equal. f_equal. apply filter_ext_elem. intros b Hb. by rewrite H. Qed.

Lemma free_in_take f g l b :
  NoDup l -> b ∈ l -> f b = false -> (forall b', b' ∈ l -> g b' = (b' =? b) || f b') ->
  free_in g l = free_in f l - 1.
Proof.
  intros Hnd. induction Hnd as [|c l Hc Hnd IH]; intros Hb Hf Hg; [by apply elem_of_nil in Hb|].
  unfold free_in in *. rewrite !filter_cons. destruct (decide (c = b)) as [->|Hne].
  - rewrite (Hg b), Z.eqb_refl by set_solver. rewrite decide_False by done. rewrite decide_True by done.
    cbn. rewrite (filter_ext_elem (fun b' => g b' = false) (fun b' => f b' = false)); [lia|].
    intros x Hx. rewrite (Hg x) by set_solver. destruct (Z.eqb_spec x b) as [->|]; [done|done].
  - assert (b ∈ l) as Hbl by set_solver. specialize (IH Hbl Hf ltac:(set_solver)).
    rewrite (Hg c), (proj2 (Z.eqb_neq c b)) by set_solver. cbn [orb].
    destruct (decide (f c = false)); cbn [length]; lia.
Qed.

Lemma count_free_bounds p : 0 <= MFS_TOTAL_BLOCKS p -> 0 <= count_free p <= MFS_TOTAL_BLOCKS p.
Proof.
  intros H. unfold count_free, free_in. split; [lia|].
  pose proof (length_filter (fun b => mfs_bmp_get b p = false) (seqZ 0 (MFS_TOTAL_BLOCKS p))) as Hl.
  rewrite length_seqZ in Hl. lia.
Qed.

(** The free count is exact, and the volume fits the bitmap. *)
Definition space_wf (p : mfs_space) : Prop :=
  0 <= MFS_TOTAL_BLOCKS p <= MFS_MAX_BLOCKS /\ MFS_FREE_BLOCKS p = count_free p.

Lemma bmp_set_wf b p : 0 <= b -> space_wf p -> space_wf (mfs_bmp_set b p).
Proof.
  intros Hb [Ht Hf]. split; [by rewrite bmp_total_set|].
  unfold count_free. rewrite bmp_total_set.
  destruct (mfs_bmp_get b p) eqn:Eg.
  { assert (mfs_bmp_set b p = p) as ->; [|done]. unfold mfs_bmp_get, mfs_bmp_set in *.
    destruct (_ <=? b); [done|]. by rewrite Eg. }
  destruct (Z.leb_spec (MFS_TOTAL_BLOCKS p) b) as [Hbt|Hbt].
  { unfold mfs_bmp_set. by rewrite (proj2 (Z.leb_le _ _)) by done. }
  rewrite (free_in_take (fun b => mfs_bmp_get b p) _ _ b).
  - change (free_in _ _) with (count_free p). rewrite <- Hf.
    unfold mfs_bmp_set, mfs_bmp_get in *. rewrite (proj2 (Z.leb_gt _ _)) in * by done. rewrite Eg. cbn.
    unfold saturating_sub. assert (0 < count_free p); [|lia].
    unfold count_free, free_in.
    assert (b ∈ filter (fun b0 => mfs_bmp_get b0 p = false) (seqZ 0 (MFS_TOTAL_BLOCKS p))) as Hin.
    { apply list_elem_of_filter. split; [|apply elem_of_seqZ; lia].
      unfold mfs_bmp_get. by rewrite (proj2 (Z.leb_gt _ _)) by done. }
    destruct (filter _ _); [by apply elem_of_nil in Hin|cbn; lia].
  - apply NoDup_seqZ.
  - apply elem_of_seqZ. lia.
  - done.
  - intros b' Hb'. apply elem_of_seqZ in Hb'. rewrite bmp_get_set by lia.
    by rewrite (proj2 (Z.ltb_lt _ _)), andb_true_r by done.
Qed.

Lemma data_start_pos p : 0 <= MFS_TOTAL_BLOCKS p -> 4 <= mfs_data_start p.
Proof.
  intros H. unfold mfs_data_start, mfs_bb_for, div_ceil, MFS_BMP_BLOCK_SPAN, MFS_BLOCK.
  assert (0 <= (MFS_TOTAL_BLOCKS p + 4096 * 8 - 1) / (4096 * 8)) by (apply Z.div_pos; lia). lia.
Qed.

(** The allocator hands out a free block of the data area, or there is none. *)
Lemma alloc_block_spec p ob p' :
  space_wf p -> mfs_alloc_block p = (ob, p') ->
  space_wf p' /\ MFS_TOTAL_BLOCKS p' = MFS_TOTAL_BLOCKS p
  /\ match ob with
     | Some b =>
         mfs_data_start p <= b < MFS_TOTAL_BLOCKS p /\ mfs_bmp_get b p = false
         /\ (forall b', 0 <= b' -> mfs_bmp_get b' p' = (b' =? b) || mfs_bmp_get b' p)
     | None => p' = p /\ forall b, mfs_data_start p <= b < MFS_TOTAL_BLOCKS p -> mfs_bmp_get b p = true
     end.
Proof.
  intros Hwf. pose proof (data_start_pos p (proj1 (proj1 Hwf))) as Hs.
  assert (forall b, 0 <= b < MFS_TOTAL_BLOCKS p ->
            let p2 := (mfs_bmp_take b p).2 in
            space_wf p2 /\ MFS_TOTAL_BLOCKS p2 = MFS_TOTAL_BLOCKS p
            /\ forall b', 0 <= b' -> mfs_bmp_get b' p2 = (b' =? b) || mfs_bmp_get b' p) as Htake.
  { intros b Hb p2. pose proof (bmp_set_wf b p (proj1 Hb) Hwf) as Hwf2.
    pose proof (bmp_total_set b p) as Ht. split_and!; [exact Hwf2|exact Ht|].
    intros b' Hb'. transitivity (mfs_bmp_get b' (mfs_bmp_set b p)); [done|].
    rewrite bmp_get_set by lia. by rewrite (proj2 (Z.ltb_lt _ _)), andb_true_r by lia. }
  unfold mfs_alloc_block. destruct (Z.leb_spec (MFS_TOTAL_BLOCKS p) (mfs_data_start p)).
  { intros [= <- <-]. split_and!; try done. lia. }
  set (hint := Z.min _ _).
  assert (mfs_data_start p <= hint <= MFS_TOTAL_BLOCKS p) as Hh by (unfold hint; lia). clearbody hint.
  destruct (find_from _ _ hint) as [b|] eqn:E1.
  { apply find_from_Some in E1 as (Hb & Hfree & _). intros [= <- <-].
    destruct (Htake b ltac:(lia)) as (? & ? & ?). apply negb_true_iff in Hfree.
    split_and!; try done; lia. }
  destruct (find_from _ _ (mfs_data_start p)) as [b|] eqn:E2.
  { apply find_from_Some in E2 as (Hb & Hfree & _). intros [= <- <-].
    destruct (Htake b ltac:(lia)) as (? & ? & ?). apply negb_true_iff in Hfree.
    split_and!; try done; lia. }
  intros [= <- <-]. split_and!; try done. intros b Hb.
  pose proof (proj1 (find_from_None _ _ _) E1 b) as H1. pose proof (proj1 (find_from_None _ _ _) E2 b) as H2.
  apply negb_false_iff. destruct (Z.lt_ge_cases b hint); [apply H2|apply H1]; lia.
Qed.

(** ** Copy on write *)

Section cow.
Context {D : Type} `{!MfsDevice D, !MfsDeviceLaws D}.
Implicit Types (s : mfs_io D) (p : mfs_space).

(** Every block in the write window is marked as used. *)
Definition store_wf s p : Prop :=
  io_wf s /\ space_wf p
  /\ forall b, 0 <= b < 2^28 -> mfs_wb_has b s = true -> mfs_bmp_get b p = true.

Lemma used_bound p b : space_wf p -> 0 <= b -> mfs_bmp_get b p = true -> 0 <= b < 2^28.
Proof.
  intros [[_ H] _] Hb. unfold mfs_bmp_get. destruct (Z.leb_spec (MFS_TOTAL_BLOCKS p) b); [done|].
  intros _. change MFS_MAX_BLOCKS with 33357824 in H. lia.
Qed.

Lemma commit_spec magic buf s p ob buf' s' p' :
  store_wf s p -> byte_mem buf -> mfs_commit magic buf s p = (ob, buf', s', p') ->
  store_wf s' p' /\ buf' = mfs_seal magic buf /\ MFS_TOTAL_BLOCKS p' = MFS_TOTAL_BLOCKS p
  /\ MFS_CUR_VOL s' = MFS_CUR_VOL s
  /\ (forall b, 0 <= b -> mfs_bmp_get b p = true -> mfs_bmp_get b p' = true)
  /\ (forall b, mfs_bmp_get b p = true -> mfs_wb_has b s = false -> mfs_wb_has b s' = false)
  /\ match ob with
     | Some b =>
         mfs_data_start p <= b < MFS_TOTAL_BLOCKS p /\ mfs_bmp_get b p = false
         /\ (forall b', 0 <= b' -> mfs_bmp_get b' p' = (b' =? b) || mfs_bmp_get b' p)
         /\ mfs_view s' b = slice_at 0 (Z.to_nat MFS_BLOCK) (mfs_seal magic buf)
         /\ (forall b', b' <> b -> mfs_view s' b' = mfs_view s b')
     | None =>
         (s' = s /\ p' = p /\ forall b, mfs_data_start p <= b < MFS_TOTAL_BLOCKS p -> mfs_bmp_get b p = true)
         \/ (MFS_WB s' = [] /\ (MFS_WB_PAGES <= length (MFS_WB s))%nat
             /\ forall b, mfs_wb_has b s = false -> mfs_view s' b = mfs_view s b)
     end.
Proof using MfsDeviceLaws0.
  intros (Hio & Hsp & Hwin) Hbm. unfold mfs_commit.
  destruct (mfs_alloc_block p) as [ob1 p1] eqn:Ea.
  destruct (alloc_block_spec _ _ _ Hsp Ea) as (Hsp1 & Ht1 & Hob).
  destruct ob1 as [b|]; [|destruct Hob as [-> Hfull]; intros [= <- <- <- <-];
    split_and!; try done; left; by split_and!].
  destruct Hob as (Hb & Hfree & Hget).
  pose proof (data_start_pos p (proj1 (proj1 Hsp))) as Hds.
  assert (0 <= b < 2^28) as Hb28.
  { apply (used_bound p1); [done|lia|]. rewrite Hget by lia. by rewrite Z.eqb_refl. }
  assert (mfs_wb_has b s = false) as Hnw.
  { destruct (mfs_wb_has b s) eqn:E; [|done]. by rewrite (Hwin b Hb28 E) in Hfree. }
  assert (block_ok (b, slice_at 0 (Z.to_nat MFS_BLOCK) (mfs_seal magic buf))) as Hbo.
  { split; [done|]. split; [apply length_slice_at|by apply byte_mem_slice, seal_byte_mem]. }
  unfold mfs_write_blk. destruct (mfs_wb_stage b _ s) as [ok s1] eqn:Es.
  destruct (stage_spec _ _ _ _ _ Hio Hbo Hnw Es) as (Hio1 & Hv1 & Hsub & Hview & Hnew & Hbad).
  intros [= <- <- <- <-].
  assert (forall b', 0 <= b' -> mfs_bmp_get b' p = true -> mfs_bmp_get b' p1 = true) as Hmono.
  { intros b' Hb' Hg. by rewrite Hget, Hg, orb_true_r by done. }
  split; [split; [done|split; [done|]]|].
  { intros b' Hb' Hw. destruct (decide (b' = b)) as [->|Hne]; [by rewrite Hget, Z.eqb_refl by lia|].
    apply Hmono; [lia|]. apply Hwin; [done|]. destruct (mfs_wb_has b' s) eqn:E; [done|].
    by rewrite (Hsub b' Hne E) in Hw. }
  do 4 (split; [done|]). split.
  { intros b' Hg Hw. apply Hsub; [|done]. intros ->. by rewrite Hg in Hfree. }
  destruct ok.
  - do 3 (split; [done|]). split; [by apply Hnew|]. intros b' Hne. apply Hview; auto.
  - right. destruct (Hbad eq_refl) as (Hb1 & Hemp & Hlen). do 2 (split; [done|]). intros b' Hw.
    destruct (decide (b' = b)) as [->|Hne]; [done|]. apply Hview; auto.
Qed.

End cow.

(** ** A volume in memory *)

Definition ram_blocks : Type := Z -> Z -> list Z.
Definition block_of (l : list Z) : list Z := pad (Z.to_nat MFS_BLOCK) (w8 <$> l).
Definition ram_put (v lba : Z) (bs : list Z) (d : ram_blocks) : ram_blocks :=
  fun v' lba' => if (v' =? v) && (lba' =? lba) then bs else d v' lba'.

(** [good] says which transfers complete. *)
Definition ram_mfs (good : bool) : MfsDevice ram_blocks := {|
  content d v lba := block_of (d v lba);
  block_read_dev v lba d := (good, (if good then block_of (d v lba) else []), d);
  block_batch v l d := (good, if good then foldr (fun e d => ram_put v e.1 e.2 d) d l else d);
  block_raw_write v lba bs d := (good, if good then ram_put v lba bs d else d)
|}.

Lemma block_of_data l : block_data (block_of l).
Proof.
  split; [apply length_pad|]. unfold block_of, pad. apply Forall_take, Forall_app. split.
  - apply Forall_fmap, Forall_true. intros. apply w8_byte.
  - apply Forall_replicate. done.
Qed.

Lemma block_of_id l : block_data l -> block_of l = l.
Proof.
  intros [Hl Hb]. unfold block_of. assert (w8 <$> l = l) as ->.
  { clear Hl. induction Hb as [|b l Hb Hl IH]; [done|]. rewrite fmap_cons, IH. f_equal.
    unfold w8. apply Z.mod_small. done. }
  unfold pad. rewrite Hl, Nat.sub_diag. cbn [replicate]. rewrite app_nil_r. apply take_ge. lia.
Qed.

Lemma ram_batch v l d v' k :
  foldr (fun e d => ram_put v e.1 e.2 d) d l v' k
  = default (d v' k) (if v' =? v then staged l k else None).
Proof.
  induction l as [|[b bs] l IH]; cbn [foldr].
  - by destruct (v' =? v).
  - unfold ram_put at 1. cbn [fst snd]. rewrite staged_cons, IH, (Z.eqb_sym k b).
    by destruct (v' =? v), (b =? k).
Qed.

Lemma ram_mfs_laws good : @MfsDeviceLaws ram_blocks (ram_mfs good).
Proof.
  split; cbn.
  - intros. apply block_of_data.
  - intros v lba d bs d' [= -> <- <-]. done.
  - intros v lba d bs d' [= -> <- <-]. split; [cbn; lia|]. done.
  - intros v l d d' Hnd Hl [= -> <-] v' b. rewrite ram_batch.
    destruct (v' =? v); [|done]. destruct (staged l (b * 8)) as [bs|] eqn:E; [|done]. cbn.
    apply block_of_id. unfold staged in E. apply elem_of_list_to_map in E; [|done].
    eapply Forall_forall in Hl; [|done]. apply Hl.
  - by intros v l d d' [= -> <-].
  - intros v lba bs d d' [= -> <-] _ Hbs v' b. unfold ram_put.
    destruct (_ && _); [by apply block_of_id|done].
  - by intros v lba bs d d' [= -> <-].
Qed.

(** ** Claims *)

(** C25. MorionFS writes copy on write. Committing a node takes a block of the data area that was
    free, marks it and nothing else, and changes no other block: whatever a used block held, it
    still holds. Reading the new block back (through the write window or from the disk) yields a
    block that is valid for exactly the magic number it was sealed with and carries the payload
    of the buffer. A commit that fails has either found every block of the data area in use and
    changed nothing, or met a write error while emptying a full window, which can lose only
    blocks that were waiting in it. The free-block count stays exact in every case. *)
Theorem commit_copy_on_write {D} `{!MfsDevice D, !MfsDeviceLaws D} magic buf (s : mfs_io D) p ob buf' s' p' :
  store_wf s p -> byte_mem buf -> 0 <= magic < 2^32 ->
  mfs_commit magic buf s p = (ob, buf', s', p') ->
  store_wf s' p' /\
  match ob with
  | Some b =>
      mfs_data_start p <= b < MFS_TOTAL_BLOCKS p /\ mfs_bmp_get b p = false
      /\ (forall b', 0 <= b' -> mfs_bmp_get b' p' = (b' =? b) || mfs_bmp_get b' p)
      /\ (forall b', b' <> b -> mfs_view s' b' = mfs_view s b')
      /\ (forall dst r s2, mfs_read_blk b dst s' = (true, r, s2) ->
            (forall m, mfs_ok r m = (magic =? m)) /\ agree MFS_HDR MFS_BLOCK r buf)
  | None =>
      (s' = s /\ p' = p /\ forall b, mfs_data_start p <= b < MFS_TOTAL_BLOCKS p -> mfs_bmp_get b p = true)
      \/ (MFS_WB s' = [] /\ (MFS_WB_PAGES <= length (MFS_WB s))%nat
          /\ forall b, mfs_wb_has b s = false -> mfs_view s' b = mfs_view s b)
  end.
Proof.
  intros Hwf Hbm Hm Hc. destruct (commit_spec _ _ _ _ _ _ _ _ Hwf Hbm Hc) as (Hwf' & _ & _ & _ & _ & _ & Hob).
  split; [done|]. destruct ob as [b|]; [|done]. destruct Hob as (Hb & Hfree & Hget & Hnew & Hold).
  do 4 (split; [done|]). intros dst r s2 Hr.
  assert (0 <= b < 2^28) as Hb28.
  { pose proof (data_start_pos p (proj1 (proj1 (proj1 (proj2 Hwf))))).
    apply (used_bound p'); [apply Hwf'|lia|]. rewrite Hget by lia. by rewrite Z.eqb_refl. }
  destruct (read_blk_spec _ _ _ _ _ _ (proj1 Hwf') Hb28 Hr) as (_ & _ & _ & _ & Hbuf & _).
  rewrite (Hbuf eq_refl), Hnew. clear Hbuf Hr.
  pose proof (load_slice 0 (Z.to_nat MFS_BLOCK) (mfs_seal magic buf) dst) as Hag.
  rewrite Z2Nat.id in Hag by done. rewrite Z.add_0_l in Hag. split.
  - intros m. rewrite (ok_ext _ (mfs_seal magic buf)) by done. by apply seal_ok.
  - intros a Ha. rewrite Hag by (unfold MFS_HDR in Ha; lia). apply seal_payload. lia.
Qed.

Definition demo_space : mfs_space :=
  mk_space (fun a => if a =? 0 then 63 else 0) (fun _ => 0) 16 10 0.

Definition demo_io : mfs_io ram_blocks := mk_io 1 [] (fun _ _ => []).

Lemma commit_copy_on_write_witness :
  exists b buf' s' p',
    @mfs_commit _ (ram_mfs true) 0x4D464441 (fun _ => 7) demo_io demo_space
      = (Some b, buf', s', p')
    /\ b = 6 /\ MFS_FREE_BLOCKS p' = 9 /\ store_wf s' p'.
Proof.
  assert (store_wf demo_io demo_space) as Hwf.
  { split; [split; constructor|]. split; [split; [by vm_compute|reflexivity]|]. done. }
  assert (byte_mem (fun _ => 7)) as Hb by (intros a; done).
  assert (0 <= 0x4D464441 < 2^32) as Hmg by lia.
  destruct (@mfs_commit _ (ram_mfs true) 0x4D464441 (fun _ => 7) demo_io demo_space)
    as [[[ob buf'] s'] p'] eqn:E.
  pose proof (@commit_copy_on_write _ (ram_mfs true) (ram_mfs_laws true) _ _ _ _ _ _ _ _ Hwf Hb Hmg E) as [Hwf' H].
  destruct ob as [b|].
  - exists b, buf', s', p'. split; [done|]. injection E as Eb _ _ Ep. split; [|split]; [| |exact Hwf'].
    + rewrite <- Eb. reflexivity.
    + rewrite <- Ep. reflexivity.
  - exfalso. destruct H as [(_ & _ & Hfull)|(_ & Hlen & _)].
    + specialize (Hfull 6 ltac:(done)). done.
    + unfold MFS_WB_PAGES in Hlen. cbn in Hlen. lia.
Defined.

(** A flush that fails empties the window all the same: the staged block is gone. *)
Example failed_flush_drops_blocks :
  let s := mk_io 1 [(9, replicate 4096 1)] (fun _ _ => []) : mfs_io ram_blocks in
  let '(ok, s') := @mfs_commit_flush _ (ram_mfs false) s in
  (ok, MFS_WB s', nth 0 (@mfs_view _ (ram_mfs false) s 9) 0, nth 0 (@mfs_view _ (ram_mfs false) s' 9) 0)
  = (false, [], 1, 0).
Proof. vm_compute. reflexivity. Qed.
