(* ===== verification/MfsItab.v ===== *)
(** * MfsItab: the inode table and the superblock of MorionFS (src/user/srv/src/mfs_srv.rs)

    Directory entries name inode numbers; a two-level table (an index block of pointers to table
    blocks of pointers) gives the block an inode lives in. Every change writes a new table block,
    a new index block and both superblocks. The directory index cache, which every change of a
    slot invalidates, is not part of this file. *)

From S2P Require Import Prelude Bytes Crc MfsBlock.

Definition MFS_MAGIC_SUPER : Z := 0x4D465338.
Definition MFS_MAGIC_BMPHDR : Z := 0x4D464248.
Definition MFS_MAGIC_ITAB : Z := 0x4D464954.
Definition MFS_MAGIC_ITABX : Z := 0x4D464958.
Definition MFS_VERSION : Z := 8.
Definition MFS_ITAB_SLOTS : Z := MFS_PAYLOAD / 4.
Definition MFS_INO_MAX : Z := MFS_ITAB_SLOTS * MFS_ITAB_SLOTS.
Definition MFS_ROOT_INO : Z := 1.
Definition MFS_SB_BLOCK_SIZE : Z := 4.
Definition MFS_SB_TOTAL : Z := 8.
Definition MFS_SB_INO_COUNT : Z := 12.
Definition MFS_SB_ALLOC_HINT : Z := 16.
Definition MFS_SB_SNAP_COUNT : Z := 20.
Definition MFS_SB_GEN : Z := 24.
Definition MFS_SB_ITAB : Z := 32.
Definition MFS_SB_INO_HINT : Z := 36.
Definition MFS_SB_SNAPS : Z := 48.
Definition MFS_SNAP_REC : Z := 24.
Definition MFS_SB_PRIMARY : Z := 256.
Definition MFS_BMPH_GEN : Z := 0.
Definition MFS_BMPH_TOTAL : Z := 8.
Definition MFS_BMPH_DATA_BLOCKS : Z := 12.
Definition MFS_SB_COPIES : Z := 2.

Record MfsSnap : Type := mk_snap { snap_gen : Z; snap_itab : Z; snap_ino_hint : Z; snap_alloc_next : Z }.

(** What the superblock records besides the bitmap's fields. *)
Record mfs_super : Type := mk_super {
  MFS_GEN : Z;
  MFS_ITAB : Z;
  MFS_INO_COUNT : Z;
  MFS_INO_HINT : Z;
  MFS_SNAPS : list MfsSnap;      (* [MFS_SNAPS[..MFS_SNAP_COUNT]] *)
  MFS_PRIMARY_SERIAL : Z;
  MFS_BMP_DATA_BLOCKS : Z
}.

(** The index block's image in memory and the cached table block. *)
Record mfs_tab : Type := mk_tab {
  MFS_ITAB_MEM : list Z;
  MFS_ITAB_CACHE_IDX : Z;
  mfs_itab_buf : mem
}.

Record mfs (D : Type) : Type := mk_mfs {
  m_io : mfs_io D;
  m_space : mfs_space;
  m_super : mfs_super;
  m_tab : mfs_tab
}.
Arguments mk_mfs {D}.
Arguments m_io {D}.
Arguments m_space {D}.
Arguments m_super {D}.
Arguments m_tab {D}.

(** ** The superblock and the bitmap blocks *)

(** One record of the snapshot table. *)
Definition write_snap (buf : mem) (i : nat) (s : MfsSnap) : mem :=
  let off := MFS_HDR + MFS_SB_SNAPS + Z.of_nat i * MFS_SNAP_REC in
  write_u32 (off + 16) (snap_alloc_next s)
    (write_u32 (off + 12) (snap_ino_hint s)
      (write_u32 (off + 8) (snap_itab s) (write_u64 off (snap_gen s) buf))).

Fixpoint write_snaps (buf : mem) (i : nat) (l : list MfsSnap) : mem :=
  match l with [] => buf | s :: l' => write_snaps (write_snap buf i s) (S i) l' end.

Definition mfs_build_super (p : mfs_space) (sb : mfs_super) (buf : mem) : mem :=
  let buf := zero_bytes 0 (Z.to_nat MFS_BLOCK) buf in
  let h := MFS_HDR in
  let buf := write_u32 h MFS_VERSION buf in
  let buf := write_u32 (h + MFS_SB_BLOCK_SIZE) MFS_BLOCK buf in
  let buf := write_u32 (h + MFS_SB_TOTAL) (MFS_TOTAL_BLOCKS p) buf in
  let buf := write_u32 (h + MFS_SB_INO_COUNT) (MFS_INO_COUNT sb) buf in
  let buf := write_u32 (h + MFS_SB_ALLOC_HINT) (MFS_ALLOC_NEXT p) buf in
  let buf := write_u32 (h + MFS_SB_SNAP_COUNT) (w32 (Z.of_nat (length (MFS_SNAPS sb)))) buf in
  let buf := write_u64 (h + MFS_SB_GEN) (MFS_GEN sb) buf in
  let buf := write_u32 (h + MFS_SB_ITAB) (MFS_ITAB sb) buf in
  let buf := write_u32 (h + MFS_SB_INO_HINT) (MFS_INO_HINT sb) buf in
  let buf := write_snaps buf 0 (MFS_SNAPS sb) in
  let buf := write_u64 (h + MFS_SB_PRIMARY) (MFS_PRIMARY_SERIAL sb) buf in
  mfs_seal MFS_MAGIC_SUPER buf.

(** Consecutive [u32] stores from [p] on. *)
Fixpoint write_words (p : Z) (ws : list Z) (buf : mem) : mem :=
  match ws with [] => buf | w :: ws' => write_words (p + 4) ws' (write_u32 p w buf) end.

(** Block [c] of the bitmap window, and the checksums of the window's blocks ([MFS_BMP_CRC],
    recomputed before every use). *)
Definition bmp_block (p : mfs_space) (c : Z) : list Z :=
  slice_at (c * MFS_BLOCK) (Z.to_nat MFS_BLOCK) (MFS_BMP p).
Definition bmp_crcs (p : mfs_space) (bb : Z) : list Z := (fun c => mfs_crc32 (bmp_block p c)) <$> seqZ 0 bb.

Definition mfs_build_bmp_header (p : mfs_space) (sb : mfs_super) (buf : mem) : mem :=
  let buf := zero_bytes 0 (Z.to_nat MFS_BLOCK) buf in
  let h := MFS_HDR in
  let buf := write_u64 (h + MFS_BMPH_GEN) (MFS_GEN sb) buf in
  let buf := write_u32 (h + MFS_BMPH_TOTAL) (MFS_TOTAL_BLOCKS p) buf in
  let buf := write_u32 (h + MFS_BMPH_DATA_BLOCKS) (MFS_BMP_DATA_BLOCKS sb) buf in
  let buf := write_words (h + MFS_BMPH_CRC) (bmp_crcs p (MFS_BMP_DATA_BLOCKS sb)) buf in
  mfs_seal MFS_MAGIC_BMPHDR buf.

(** A buffer the code zeroes before use. *)
Definition scratch : mem := fun _ => 0.

(** What one copy of the metadata is written as: the changed bitmap blocks, the bitmap header and
    the superblock, in this order. *)
Definition copy_writes (p : mfs_space) (sb : mfs_super) (copy : Z) : list (Z * list Z) :=
  let bb := MFS_BMP_DATA_BLOCKS sb in
  let data_start := if copy =? 0 then 4 else 4 + bb in
  ((fun c => (data_start + c, bmp_block p c))
     <$> filter (fun c => bit_get (MFS_BMP_DIRTY p) c = true) (seqZ 0 bb))
  ++ [(2 + copy, slice_at 0 (Z.to_nat MFS_BLOCK) (mfs_build_bmp_header p sb scratch));
      (copy, slice_at 0 (Z.to_nat MFS_BLOCK) (mfs_build_super p sb scratch))].

Section ops.
Context {D : Type} `{!MfsDevice D}.
Implicit Types m : mfs D.

(** [if !mfs_write_blk(..) { return false; }] for each block in turn. *)
Fixpoint stage_all (l : list (Z * list Z)) (s : mfs_io D) : bool * mfs_io D :=
  match l with
  | [] => (true, s)
  | (b, bs) :: l' =>
      let '(ok, s) := mfs_wb_stage b bs s in
      if ok : bool then stage_all l' s else (false, s)
  end.

Definition mfs_bmp_flush m : bool * mfs D :=
  let sb := m_super m in
  let sb := mk_super (w64 (MFS_GEN sb + 1)) (MFS_ITAB sb) (MFS_INO_COUNT sb) (MFS_INO_HINT sb) (MFS_SNAPS sb)
              (MFS_PRIMARY_SERIAL sb) (MFS_BMP_DATA_BLOCKS sb) in
  let p := m_space m in
  let '(ok, s) := stage_all (copy_writes p sb 0 ++ copy_writes p sb 1) (m_io m) in
  if negb ok then (false, mk_mfs s p sb (m_tab m))
  else
    let '(ok, s) := mfs_commit_flush s in
    if negb ok then (false, mk_mfs s p sb (m_tab m))
    else
      let p := mk_space (MFS_BMP p) (fun _ => 0) (MFS_TOTAL_BLOCKS p) (MFS_FREE_BLOCKS p) (MFS_ALLOC_NEXT p) in
      (true, mk_mfs s p sb (m_tab m)).

(** ** The inode table *)

Definition mfs_ino_slot (ino : Z) : Z * Z := (ino / MFS_ITAB_SLOTS, ino mod MFS_ITAB_SLOTS).

Definition mfs_itab_table (k : Z) (t : mfs_tab) : Z :=
  if MFS_ITAB_SLOTS <=? k then 0 else default 0 (lookupZ (MFS_ITAB_MEM t) k).

Definition mfs_set_itab_table (k blk : Z) (t : mfs_tab) : mfs_tab :=
  if k <? MFS_ITAB_SLOTS then mk_tab (insertZ (MFS_ITAB_MEM t) k blk) (MFS_ITAB_CACHE_IDX t) (mfs_itab_buf t)
  else t.

Definition mfs_ino_block (ino : Z) m : option Z * mfs D :=
  if (ino =? 0) || (MFS_INO_MAX <=? ino) then (None, m)
  else
    let '(k, j) := mfs_ino_slot ino in
    let t := mfs_itab_table k (m_tab m) in
    if t =? 0 then (Some 0, m)
    else
      let buf := mfs_itab_buf (m_tab m) in
      if MFS_ITAB_CACHE_IDX (m_tab m) =? k then (Some (read_u32 buf (MFS_HDR + j * 4)), m)
      else
        let '(ok, buf, s) := mfs_read_blk t buf (m_io m) in
        let loaded idx := mk_mfs s (m_space m) (m_super m) (mk_tab (MFS_ITAB_MEM (m_tab m)) idx buf) in
        if negb ok || negb (mfs_ok buf MFS_MAGIC_ITAB) then (None, loaded (MFS_ITAB_CACHE_IDX (m_tab m)))
        else (Some (read_u32 buf (MFS_HDR + j * 4)), loaded k).

Definition U32_MAX : Z := 2^32 - 1.

(** The slots of an index block. *)
Definition index_slots (x : mem) : list Z := (fun k => read_u32 x (MFS_HDR + k * 4)) <$> seqZ 0 MFS_ITAB_SLOTS.

Definition mfs_itab_reload m : bool * mfs D :=
  let itab := MFS_ITAB (m_super m) in
  if itab =? 0 then (false, m)
  else
    let '(ok, x, s) := mfs_read_blk itab scratch (m_io m) in
    if negb ok || negb (mfs_ok x MFS_MAGIC_ITABX) then
      (false, mk_mfs s (m_space m) (m_super m) (m_tab m))
    else (true, mk_mfs s (m_space m) (m_super m) (mk_tab (index_slots x) U32_MAX (mfs_itab_buf (m_tab m)))).

Definition set_itab (itab : Z) (sb : mfs_super) : mfs_super :=
  mk_super (MFS_GEN sb) itab (MFS_INO_COUNT sb) (MFS_INO_HINT sb) (MFS_SNAPS sb) (MFS_PRIMARY_SERIAL sb)
    (MFS_BMP_DATA_BLOCKS sb).

Definition mfs_itab_flush m : bool * mfs D :=
  let x := zero_bytes 0 (Z.to_nat MFS_BLOCK) scratch in
  let x := mfs_seal MFS_MAGIC_ITABX x in
  let x := write_words MFS_HDR ((fun k => mfs_itab_table k (m_tab m)) <$> seqZ 0 MFS_ITAB_SLOTS) x in
  let '(ob, _, s, p) := mfs_commit MFS_MAGIC_ITABX x (m_io m) (m_space m) in
  match ob with
  | None => (false, mk_mfs s p (m_super m) (m_tab m))
  | Some nb => mfs_bmp_flush (mk_mfs s p (set_itab nb (m_super m)) (m_tab m))
  end.

(** The table block that is to be changed: a new one, the cached one, or one read from the volume. *)
Definition itab_fetch (k : Z) m : bool * mem * mfs_io D :=
  let t := mfs_itab_table k (m_tab m) in
  let buf := mfs_itab_buf (m_tab m) in
  if t =? 0 then (true, zero_bytes 0 (Z.to_nat MFS_BLOCK) buf, m_io m)
  else if MFS_ITAB_CACHE_IDX (m_tab m) =? k then (true, buf, m_io m)
  else let '(ok, buf, s) := mfs_read_blk t buf (m_io m) in (ok && mfs_ok buf MFS_MAGIC_ITAB, buf, s).

Definition mfs_itab_set (ino blk : Z) m : bool * mfs D :=
  if (ino =? 0) || (MFS_INO_MAX <=? ino) then (false, m)
  else
    let '(k, j) := mfs_ino_slot ino in
    let idx := MFS_ITAB_CACHE_IDX (m_tab m) in
    let '(ready, buf, s) := itab_fetch k m in
    let tab := mk_tab (MFS_ITAB_MEM (m_tab m)) in
    if negb ready then (false, mk_mfs s (m_space m) (m_super m) (tab idx buf))
    else
      let buf := write_u32 (MFS_HDR + j * 4) blk buf in
      let '(ob, buf, s, p) := mfs_commit MFS_MAGIC_ITAB buf s (m_space m) in
      match ob with
      | None => (false, mk_mfs s p (m_super m) (tab idx buf))
      | Some new_t => mfs_itab_flush (mk_mfs s p (m_super m) (mfs_set_itab_table k new_t (tab k buf)))
      end.

(** The scan of [mfs_ino_alloc_for] from [ino]; [fuel] is the loop's [0..MFS_INO_MAX]. *)
Fixpoint ino_alloc_loop (fuel : nat) (ino blk : Z) m : option Z * mfs D :=
  match fuel with
  | O => (None, m)
  | S fuel' =>
      let ino := if MFS_INO_MAX <=? ino then MFS_ROOT_INO + 1 else ino in
      let '(o, m) := mfs_ino_block ino m in
      if bool_decide (o = Some 0) then
        let '(ok, m) := mfs_itab_set ino blk m in
        if negb ok then (None, m)
        else
          let sb := m_super m in
          let hint := if MFS_INO_MAX <=? ino + 1 then MFS_ROOT_INO + 1 else ino + 1 in
          let sb := mk_super (MFS_GEN sb) (MFS_ITAB sb) (w32 (MFS_INO_COUNT sb + 1)) hint (MFS_SNAPS sb)
                      (MFS_PRIMARY_SERIAL sb) (MFS_BMP_DATA_BLOCKS sb) in
          (Some ino, mk_mfs (m_io m) (m_space m) sb (m_tab m))
      else ino_alloc_loop fuel' (ino + 1) blk m
  end.

Definition mfs_ino_alloc_for (blk : Z) m : option Z * mfs D :=
  let hint := Z.min (Z.max (MFS_INO_HINT (m_super m)) (MFS_ROOT_INO + 1)) (MFS_INO_MAX - 1) in
  ino_alloc_loop (Z.to_nat MFS_INO_MAX) hint blk m.

Definition mfs_free_ino (ino : Z) m : bool * mfs D :=
  if ino <=? MFS_ROOT_INO then (false, m)
  else
    let '(ok, m) := mfs_itab_set ino 0 m in
    if negb ok then (false, m)
    else
      let sb := m_super m in
      let sb := mk_super (MFS_GEN sb) (MFS_ITAB sb) (saturating_sub (MFS_INO_COUNT sb) 1) (MFS_INO_HINT sb)
                  (MFS_SNAPS sb) (MFS_PRIMARY_SERIAL sb) (MFS_BMP_DATA_BLOCKS sb) in
      (true, mk_mfs (m_io m) (m_space m) sb (m_tab m)).

Definition mfs_commit_object (ino magic : Z) (buf : mem) m : option Z * mem * mfs D :=
  let '(ob, buf, s, p) := mfs_commit magic buf (m_io m) (m_space m) in
  let m := mk_mfs s p (m_super m) (m_tab m) in
  match ob with
  | None => (None, buf, m)
  | Some nb => let '(ok, m) := mfs_itab_set ino nb m in ((if ok : bool then Some nb else None), buf, m)
  end.

End ops.

(** ** Lemmas on buffers *)

Definition loaded (bs : list Z) : mem := copy_to 0 bs scratch.

Lemma loaded_agree bs dst : block_data bs -> agree 0 MFS_BLOCK (copy_to 0 bs dst) (loaded bs).
Proof.
  intros [Hl _] a Ha. unfold loaded, copy_to. rewrite Hl, Z2Nat.id by done.
  destruct ((0 <=? a) && (a <? 0 + MFS_BLOCK)) eqn:E; [done|].
  apply andb_false_iff in E as [E|E]; bool_to_prop; lia.
Qed.

Lemma agree_sym lo hi m m' : agree lo hi m m' -> agree lo hi m' m.
Proof. intros H a Ha. symmetry. by apply H. Qed.
Lemma agree_trans lo hi m1 m2 m3 : agree lo hi m1 m2 -> agree lo hi m2 m3 -> agree lo hi m1 m3.
Proof. intros H1 H2 a Ha. rewrite H1 by done. by apply H2. Qed.

(** The block written from a buffer loads as the buffer. *)
Lemma loaded_slice buf : agree 0 MFS_BLOCK (loaded (slice_at 0 (Z.to_nat MFS_BLOCK) buf)) buf.
Proof. pose proof (load_slice 0 (Z.to_nat MFS_BLOCK) buf scratch) as H. by rewrite Z2Nat.id in H. Qed.

Lemma scratch_bytes : byte_mem scratch.
Proof. done. Qed.

Lemma zero_bytes_mem p n m : byte_mem m -> byte_mem (zero_bytes p n m).
Proof. intros H. apply byte_mem_copy_to; [done|]. by apply Forall_replicate. Qed.

Lemma write_words_out p ws buf a : a < p \/ p + 4 * Z.of_nat (length ws) <= a -> write_words p ws buf a = buf a.
Proof.
  revert p buf. induction ws as [|w ws IH]; intros p buf H; cbn [write_words length] in *; [done|].
  rewrite IH by lia. apply write_u32_out. lia.
Qed.

Lemma write_words_read p ws buf (i : nat) w :
  ws !! i = Some w -> 0 <= w < 2^32 -> read_u32 (write_words p ws buf) (p + 4 * Z.of_nat i) = w.
Proof.
  revert p buf i. induction ws as [|w' ws IH]; intros p buf i Hi Hw; [done|]. cbn [write_words].
  destruct i as [|i]; cbn in Hi.
  - injection Hi as ->. rewrite Z.mul_0_r, Z.add_0_r.
    rewrite (read_u32_ext p _ (write_u32 p w buf)); [by apply read_write_u32|].
    intros a Ha. apply write_words_out. lia.
  - replace (p + 4 * Z.of_nat (S i)) with (p + 4 + 4 * Z.of_nat i) by lia. by apply IH.
Qed.

Lemma write_words_bytes p ws buf : byte_mem buf -> byte_mem (write_words p ws buf).
Proof.
  revert p buf. induction ws as [|w ws IH]; intros p buf H; cbn [write_words]; [done|].
  apply IH. by apply byte_mem_write_u32.
Qed.

Lemma lor_byte a b : is_byte a -> is_byte b -> is_byte (Z.lor a b).
Proof.
  unfold is_byte. intros Ha Hb. split; [apply Z.lor_nonneg; lia|].
  destruct (Z.eq_dec (Z.lor a b) 0) as [->|]; [lia|].
  assert (0 < Z.lor a b) by (assert (0 <= Z.lor a b) by (apply Z.lor_nonneg; lia); lia).
  change 256 with (2^8). apply Z.log2_lt_pow2; [done|]. rewrite Z.log2_lor by lia.
  apply Z.max_lub_lt; [destruct (decide (a = 0)) as [->|]|destruct (decide (b = 0)) as [->|]];
    try done; apply Z.log2_lt_pow2; lia.
Qed.

Lemma bit_set_bytes m i : byte_mem m -> byte_mem (bit_set m i).
Proof. intros H. apply byte_mem_write_byte; [done|]. apply lor_byte; [apply H|apply w8_byte]. Qed.

Lemma alloc_bytes p ob p' : mfs_alloc_block p = (ob, p') -> byte_mem (MFS_BMP p) -> byte_mem (MFS_BMP p').
Proof.
  intros Ha Hb.
  assert (forall b, byte_mem (MFS_BMP (mfs_bmp_take b p).2)) as Ht.
  { intros b. unfold mfs_bmp_take, mfs_bmp_set. cbn. destruct (_ <=? b); [done|].
    destruct (bit_get _ b); [done|]. by apply bit_set_bytes. }
  unfold mfs_alloc_block in Ha. destruct (_ <=? mfs_data_start p); [by injection Ha as <- <-|].
  destruct (find_from _ _ _); [injection Ha as <- <-; apply Ht|].
  destruct (find_from _ _ _); injection Ha as <- <-; [apply Ht|done].
Qed.

Lemma commit_bytes {D} `{!MfsDevice D} magic buf (s : mfs_io D) p ob buf' s' p' :
  mfs_commit magic buf s p = (ob, buf', s', p') -> byte_mem (MFS_BMP p) -> byte_mem (MFS_BMP p').
Proof.
  unfold mfs_commit. destruct (mfs_alloc_block p) as [o p1] eqn:E. intros H Hb.
  pose proof (alloc_bytes _ _ _ E Hb). destruct o; [destruct (mfs_write_blk _ _ _)|]; by injection H as _ _ _ <-.
Qed.

(** ** The metadata writes *)

Lemma write_snaps_out l i buf a :
  a < MFS_HDR + MFS_SB_SNAPS + Z.of_nat i * MFS_SNAP_REC -> write_snaps buf i l a = buf a.
Proof.
  revert i buf. induction l as [|x l IH]; intros i buf Ha; cbn [write_snaps]; [done|].
  unfold MFS_SNAP_REC in *. rewrite IH by lia. unfold write_snap.
  by rewrite !write_u32_out, write_u64_out by (unfold MFS_SNAP_REC; lia).
Qed.

Lemma write_snaps_bytes l i buf : byte_mem buf -> byte_mem (write_snaps buf i l).
Proof.
  revert i buf. induction l as [|x l IH]; intros i buf Hb; cbn [write_snaps]; [done|]. apply IH.
  unfold write_snap. do 3 apply byte_mem_write_u32. by apply byte_mem_write_u64.
Qed.

Lemma build_super_bytes p sb buf : byte_mem buf -> byte_mem (mfs_build_super p sb buf).
Proof.
  intros H. unfold mfs_build_super. apply seal_byte_mem, byte_mem_write_u64, write_snaps_bytes.
  do 2 apply byte_mem_write_u32. apply byte_mem_write_u64. do 6 apply byte_mem_write_u32. by apply zero_bytes_mem.
Qed.

Lemma build_header_bytes p sb buf : byte_mem buf -> byte_mem (mfs_build_bmp_header p sb buf).
Proof.
  intros H. unfold mfs_build_bmp_header. apply seal_byte_mem, write_words_bytes.
  do 2 apply byte_mem_write_u32. by apply byte_mem_write_u64, zero_bytes_mem.
Qed.

(** The fields of the superblock a mount reads. *)
Lemma build_super_fields p sb buf :
  byte_mem buf -> 0 <= MFS_ITAB sb < 2^32 -> 0 <= MFS_GEN sb < 2^64 ->
  let x := mfs_build_super p sb buf in
  (forall m, mfs_ok x m = (MFS_MAGIC_SUPER =? m))
  /\ read_u32 x (MFS_HDR + MFS_SB_ITAB) = MFS_ITAB sb
  /\ read_u64 x (MFS_HDR + MFS_SB_GEN) = MFS_GEN sb.
Proof.
  intros Hb Hi Hg x. unfold x, mfs_build_super. split; [|split].
  - intros m. apply seal_ok; [done|]. apply byte_mem_write_u64, write_snaps_bytes.
    do 2 apply byte_mem_write_u32. apply byte_mem_write_u64. do 6 apply byte_mem_write_u32. by apply zero_bytes_mem.
  - erewrite read_u32_ext; [apply read_write_u32, Hi|]. intros a Ha.
    unfold MFS_HDR, MFS_SB_ITAB in Ha.
    rewrite seal_payload by (unfold MFS_HDR; lia).
    rewrite write_u64_out by (unfold MFS_HDR, MFS_SB_PRIMARY; lia).
    rewrite write_snaps_out by (unfold MFS_HDR, MFS_SB_SNAPS; lia).
    rewrite write_u32_out by (unfold MFS_HDR, MFS_SB_INO_HINT; lia). reflexivity.
  - erewrite read_u64_ext; [apply read_write_u64, Hg|]. intros a Ha.
    unfold MFS_HDR, MFS_SB_GEN in Ha.
    rewrite seal_payload by (unfold MFS_HDR; lia).
    rewrite write_u64_out by (unfold MFS_HDR, MFS_SB_PRIMARY; lia).
    rewrite write_snaps_out by (unfold MFS_HDR, MFS_SB_SNAPS; lia).
    rewrite write_u32_out by (unfold MFS_HDR, MFS_SB_INO_HINT; lia).
    rewrite write_u32_out by (unfold MFS_HDR, MFS_SB_ITAB; lia). reflexivity.
Qed.

Lemma bb_pos p : 0 <= MFS_TOTAL_BLOCKS p -> 0 <= mfs_bb_for (MFS_TOTAL_BLOCKS p).
Proof. intros H. apply Z.div_pos; unfold MFS_BMP_BLOCK_SPAN, MFS_BLOCK; lia. Qed.

Lemma copy_writes_range p sb copy b :
  copy = 0 \/ copy = 1 -> b ∈ (copy_writes p sb copy).*1 ->
  let lo := if copy =? 0 then 4 else 4 + MFS_BMP_DATA_BLOCKS sb in
  b = copy \/ b = 2 + copy \/ lo <= b < lo + MFS_BMP_DATA_BLOCKS sb.
Proof.
  intros Hc Hb lo. unfold copy_writes in Hb. rewrite fmap_app, elem_of_app in Hb.
  destruct Hb as [Hb|Hb]; [|cbn in Hb; set_solver].
  rewrite <- list_fmap_compose in Hb. apply list_elem_of_fmap in Hb as (c & -> & Hin).
  apply list_elem_of_filter in Hin as [_ Hin]. apply elem_of_seqZ in Hin. cbn. fold lo. lia.
Qed.

Lemma copy_writes_NoDup p sb copy :
  0 <= MFS_BMP_DATA_BLOCKS sb -> copy = 0 \/ copy = 1 -> NoDup (copy_writes p sb copy).*1.
Proof.
  intros Hbb Hc. unfold copy_writes. set (lo := if copy =? 0 then 4 else 4 + MFS_BMP_DATA_BLOCKS sb).
  assert (4 <= lo) as Hlo by (unfold lo; destruct (copy =? 0); lia). clearbody lo.
  rewrite fmap_app. apply NoDup_app. split; [|split].
  - rewrite <- list_fmap_compose. apply (NoDup_fmap_2_strong _).
    + intros x y _ _ H. cbn in H. lia.
    + apply NoDup_filter, NoDup_seqZ.
  - intros b Hb. rewrite <- list_fmap_compose in Hb. apply list_elem_of_fmap in Hb as (c & -> & Hin).
    apply list_elem_of_filter in Hin as [_ Hin]. apply elem_of_seqZ in Hin. cbn.
    rewrite !not_elem_of_cons. split; [|split]; [lia..|]. apply not_elem_of_nil.
  - cbn. apply NoDup_cons. split; [rewrite list_elem_of_singleton; lia|apply NoDup_singleton].
Qed.

Lemma meta_NoDup p sb :
  0 <= MFS_BMP_DATA_BLOCKS sb -> NoDup (copy_writes p sb 0 ++ copy_writes p sb 1).*1.
Proof.
  intros Hbb. rewrite fmap_app. apply NoDup_app. split; [|split].
  - apply copy_writes_NoDup; auto.
  - intros b H0 H1. apply copy_writes_range in H0; [|by left]. apply copy_writes_range in H1; [|by right].
    cbn in H0, H1. lia.
  - apply copy_writes_NoDup; auto.
Qed.

Lemma meta_range p sb b :
  0 <= MFS_BMP_DATA_BLOCKS sb -> b ∈ (copy_writes p sb 0 ++ copy_writes p sb 1).*1 ->
  0 <= b < 4 + 2 * MFS_BMP_DATA_BLOCKS sb.
Proof.
  intros Hbb. rewrite fmap_app, elem_of_app. intros [H|H];
    (apply copy_writes_range in H; [|by auto]); cbn in H; lia.
Qed.

Lemma meta_block_data p sb copy :
  byte_mem (MFS_BMP p) -> Forall (fun e => block_data e.2) (copy_writes p sb copy).
Proof.
  intros Hb. unfold copy_writes. apply Forall_app. split.
  - apply Forall_fmap, Forall_true. intros c. cbn. split; [apply length_slice_at|by apply byte_mem_slice].
  - apply Forall_cons. split; [|apply Forall_cons; split; [|apply Forall_nil_2]].
    + split; [apply length_slice_at|]. by apply byte_mem_slice, build_header_bytes.
    + split; [apply length_slice_at|]. by apply byte_mem_slice, build_super_bytes.
Qed.


Section meta.
Context {D : Type} `{!MfsDevice D, !MfsDeviceLaws D}.
Implicit Types (s : mfs_io D) (p : mfs_space) (m : mfs D).

Lemma stage_all_ok l s s' :
  io_wf s -> NoDup l.*1 -> Forall block_ok l -> Forall (fun e => mfs_wb_has e.1 s = false) l ->
  stage_all l s = (true, s') ->
  io_wf s' /\ MFS_CUR_VOL s' = MFS_CUR_VOL s
  /\ forall b, mfs_view s' b = default (mfs_view s b) (staged l b).
Proof using MfsDeviceLaws0.
  revert s. induction l as [|[b bs] l IH]; intros s Hwf Hnd Hok Hw H; cbn in H.
  { by injection H as <-. }
  destruct (mfs_wb_stage b bs s) as [[] s1] eqn:E; [|done].
  apply NoDup_cons in Hnd as [Hn Hnd]. apply Forall_cons in Hok as [Hb Hok]. apply Forall_cons in Hw as [Hw1 Hw].
  destruct (stage_spec _ _ _ _ _ Hwf Hb Hw1 E) as (Hwf1 & Hv1 & Hsub & Hview & Hnew & _).
  destruct (IH s1 Hwf1 Hnd Hok) as (Hwf' & Hv' & Hview'); [|done|].
  { apply Forall_forall. intros e He. apply Hsub.
    - intros Heq. apply Hn. cbn. rewrite <- Heq. apply list_elem_of_fmap. eauto.
    - eapply Forall_forall in Hw; eauto. }
  split_and!; [apply Hwf'..|congruence|]. intros k. rewrite Hview', staged_cons.
  destruct (Z.eqb_spec b k) as [<-|Hne].
  - rewrite (proj2 (staged_None l b)) by done. cbn. by apply Hnew.
  - destruct (staged l k); [done|]. cbn. apply Hview; auto.
Qed.

(** What surrounds the data area: metadata blocks are marked as used and not staged, and the
    bitmap fits the volume. *)
Record meta_wf m : Prop := {
  w_store : store_wf (m_io m) (m_space m);
  w_meta b : 0 <= b < mfs_data_start (m_space m) ->
    mfs_bmp_get b (m_space m) = true /\ mfs_wb_has b (m_io m) = false;
  w_bb : MFS_BMP_DATA_BLOCKS (m_super m) = mfs_bb_for (MFS_TOTAL_BLOCKS (m_space m));
  w_bmp : byte_mem (MFS_BMP (m_space m))
}.

Lemma data_start_bb m :
  meta_wf m -> mfs_data_start (m_space m) = 4 + 2 * MFS_BMP_DATA_BLOCKS (m_super m)
               /\ 0 <= MFS_BMP_DATA_BLOCKS (m_super m).
Proof.
  intros Hwf. rewrite (w_bb _ Hwf). split; [done|].
  apply bb_pos. apply (w_store _ Hwf).
Qed.

Lemma meta_block_bound m b : meta_wf m -> 0 <= b < mfs_data_start (m_space m) -> 0 <= b < 2^28.
Proof.
  intros Hwf Hb. apply (used_bound (m_space m)); [apply (w_store _ Hwf)|lia|]. by apply (w_meta _ Hwf).
Qed.

(** What the volume shows after a flush of the metadata: the blocks of both copies. *)
Lemma bmp_flush_view m m' :
  meta_wf m -> mfs_bmp_flush m = (true, m') ->
  io_wf (m_io m') /\ MFS_WB (m_io m') = [] /\ MFS_CUR_VOL (m_io m') = MFS_CUR_VOL (m_io m)
  /\ (forall b, b ∈ (copy_writes (m_space m) (m_super m') 0 ++ copy_writes (m_space m) (m_super m') 1).*1 ->
        0 <= b < mfs_data_start (m_space m))
  /\ forall b, mfs_view (m_io m') b
       = default (mfs_view (m_io m) b)
           (staged (copy_writes (m_space m) (m_super m') 0 ++ copy_writes (m_space m) (m_super m') 1) b).
Proof using MfsDeviceLaws0.
  intros Hwf. unfold mfs_bmp_flush. set (sb := mk_super _ _ _ _ _ _ _). set (p := m_space m).
  destruct (data_start_bb m Hwf) as [Hds Hbb].
  assert (forall b, b ∈ (copy_writes p sb 0 ++ copy_writes p sb 1).*1 -> 0 <= b < mfs_data_start p) as Hrange.
  { intros b Hb. apply meta_range in Hb; [|done]. unfold p. rewrite Hds. exact Hb. }
  destruct (stage_all _ _) as [[] s1] eqn:E1; cbn [negb]; [|done].
  destruct (mfs_commit_flush s1) as [[] s2] eqn:E2; cbn [negb]; [|done]. intros [= <-].
  destruct (w_store _ Hwf) as (Hio & Hsp & Hwin).
  assert (Forall block_ok (copy_writes p sb 0 ++ copy_writes p sb 1)) as Hok.
  { pose proof (meta_block_data p sb 0 (w_bmp _ Hwf)). pose proof (meta_block_data p sb 1 (w_bmp _ Hwf)).
    apply Forall_forall. intros e He. split.
    - apply (meta_block_bound m); [done|]. apply Hrange, list_elem_of_fmap. eauto.
    - revert e He. apply Forall_forall. by apply Forall_app. }
  assert (Forall (fun e => mfs_wb_has e.1 (m_io m) = false) (copy_writes p sb 0 ++ copy_writes p sb 1)) as Hnw.
  { apply Forall_forall. intros e He. apply (w_meta _ Hwf). apply Hrange, list_elem_of_fmap. eauto. }
  destruct (stage_all_ok _ _ _ Hio (meta_NoDup p sb Hbb) Hok Hnw E1) as (Hio1 & Hv1 & Hview1).
  destruct (flush_spec _ _ _ Hio1 E2) as (Hemp & Hv2 & Hview2).
  split; [by apply (flush_wf _ _ _ Hio1 E2)|]. split; [exact Hemp|]. split; [by rewrite <- Hv1|].
  split; [exact Hrange|]. intros b. cbn [m_io m_super]. rewrite Hview2 by (by left). apply Hview1.
Qed.

(** A flush of the metadata bumps the generation, writes both superblocks and leaves the data area
    as it was; nothing stays in the window. *)
Lemma bmp_flush_spec m m' :
  meta_wf m -> mfs_bmp_flush m = (true, m') ->
  meta_wf m' /\ m_tab m' = m_tab m
  /\ m_super m' = mk_super (w64 (MFS_GEN (m_super m) + 1)) (MFS_ITAB (m_super m)) (MFS_INO_COUNT (m_super m))
                    (MFS_INO_HINT (m_super m)) (MFS_SNAPS (m_super m)) (MFS_PRIMARY_SERIAL (m_super m))
                    (MFS_BMP_DATA_BLOCKS (m_super m))
  /\ MFS_TOTAL_BLOCKS (m_space m') = MFS_TOTAL_BLOCKS (m_space m)
  /\ (forall b, mfs_bmp_get b (m_space m') = mfs_bmp_get b (m_space m))
  /\ MFS_WB (m_io m') = []
  /\ (forall b, mfs_data_start (m_space m) <= b -> mfs_view (m_io m') b = mfs_view (m_io m) b)
  /\ (forall copy, copy = 0 \/ copy = 1 ->
        mfs_view (m_io m') copy
        = slice_at 0 (Z.to_nat MFS_BLOCK) (mfs_build_super (m_space m) (m_super m') scratch)).
Proof using MfsDeviceLaws0.
  intros Hwf Hf. destruct (data_start_bb m Hwf) as [Hds Hbb].
  pose proof (bmp_flush_view _ _ Hwf Hf) as (Hio2 & Hemp & _ & Hrange & Hview).
  destruct (w_store _ Hwf) as (Hio & Hsp & Hwin).
  unfold mfs_bmp_flush in Hf. set (sb := mk_super _ _ _ _ _ _ _) in Hf. set (p := m_space m) in *.
  destruct (stage_all _ _) as [[] s1]; cbn [negb] in Hf; [|done].
  destruct (mfs_commit_flush s1) as [[] s2]; cbn [negb] in Hf; [|done]. injection Hf as <-.
  cbn [m_io m_super m_space] in *. split.
  { split; cbn.
    - split; [exact Hio2|]. split; [exact Hsp|]. intros b _ Hw. by rewrite wb_has_empty in Hw.
    - intros b Hb. split; [by apply (w_meta _ Hwf)|]. by apply wb_has_empty.
    - apply (w_bb _ Hwf).
    - apply (w_bmp _ Hwf). }
  do 5 (split; [done|]). cbn. split.
  - intros b Hb. rewrite Hview. rewrite (proj2 (staged_None _ _)); [done|].
    intros Hin. apply Hrange in Hin. fold p in Hb. lia.
  - intros copy Hc. rewrite Hview. unfold staged.
    erewrite elem_of_list_to_map_1; [done|by apply meta_NoDup|].
    rewrite elem_of_app. destruct Hc as [-> | ->]; [left|right]; unfold copy_writes;
      rewrite elem_of_app; right; apply elem_of_cons; right; by apply list_elem_of_singleton.
Qed.

End meta.

(** ** The table as a map from inodes to blocks *)

Section table.
Context {D : Type} `{!MfsDevice D, !MfsDeviceLaws D}.
Implicit Types (s : mfs_io D) (p : mfs_space) (m : mfs D).

Definition itab_lookup m (ino : Z) : Z :=
  let '(k, j) := mfs_ino_slot ino in
  let t := mfs_itab_table k (m_tab m) in
  if t =? 0 then 0 else read_u32 (loaded (mfs_view (m_io m) t)) (MFS_HDR + j * 4).

(** A used block of the data area with magic number [magic]. *)
Definition node_ok m (magic b : Z) : Prop :=
  mfs_data_start (m_space m) <= b < MFS_TOTAL_BLOCKS (m_space m) /\ mfs_bmp_get b (m_space m) = true
  /\ mfs_ok (loaded (mfs_view (m_io m) b)) magic = true.

Record itab_wf m : Prop := {
  w_mw : meta_wf m;
  w_len : length (MFS_ITAB_MEM (m_tab m)) = Z.to_nat MFS_ITAB_SLOTS;
  w_tables t : t ∈ MFS_ITAB_MEM (m_tab m) -> t <> 0 -> node_ok m MFS_MAGIC_ITAB t;
  w_cache :
    let idx := MFS_ITAB_CACHE_IDX (m_tab m) in
    let t := mfs_itab_table idx (m_tab m) in
    idx = U32_MAX \/ (0 <= idx < MFS_ITAB_SLOTS /\ t <> 0
                      /\ agree 0 MFS_BLOCK (mfs_itab_buf (m_tab m)) (loaded (mfs_view (m_io m) t)));
  w_buf : byte_mem (mfs_itab_buf (m_tab m))
}.

(** Nothing a used block of the data area holds is lost. *)
Definition data_kept m m' : Prop :=
  MFS_TOTAL_BLOCKS (m_space m') = MFS_TOTAL_BLOCKS (m_space m)
  /\ forall b, mfs_data_start (m_space m) <= b -> mfs_bmp_get b (m_space m) = true ->
       mfs_bmp_get b (m_space m') = true /\ mfs_view (m_io m') b = mfs_view (m_io m) b.

Lemma data_kept_start m m' : data_kept m m' -> mfs_data_start (m_space m') = mfs_data_start (m_space m).
Proof. intros [H _]. unfold mfs_data_start. by rewrite H. Qed.

Lemma data_kept_trans m1 m2 m3 : data_kept m1 m2 -> data_kept m2 m3 -> data_kept m1 m3.
Proof.
  intros H1 H2. pose proof (data_kept_start _ _ H1) as Hs. destruct H1 as [T1 H1], H2 as [T2 H2].
  split; [congruence|]. intros b Hb Hu. destruct (H1 b Hb Hu) as [Hu2 <-]. apply H2; [lia|done].
Qed.

Lemma node_kept m m' magic b : data_kept m m' -> node_ok m magic b -> node_ok m' magic b.
Proof.
  intros Hk (Hb & Hu & Hok). pose proof (data_kept_start _ _ Hk) as Hs. destruct Hk as [T H].
  destruct (H b (proj1 Hb) Hu) as [Hu' Hv]. unfold node_ok. rewrite Hs, T, Hv. done.
Qed.

Lemma node_bound m magic b : meta_wf m -> node_ok m magic b -> 0 <= b < 2^28 /\ b <> 0.
Proof.
  intros Hwf (Hb & Hu & _). pose proof (data_start_pos (m_space m) (proj1 (proj1 (proj1 (proj2 (w_store _ Hwf)))))).
  split; [|lia]. apply (used_bound (m_space m)); [apply (w_store _ Hwf)|lia|done].
Qed.

(** [mfs_commit], seen from the whole state. *)
Lemma commit_node m magic buf b buf' s p sb tab :
  meta_wf m -> byte_mem buf -> 0 <= magic < 2^32 ->
  mfs_commit magic buf (m_io m) (m_space m) = (Some b, buf', s, p) ->
  MFS_BMP_DATA_BLOCKS sb = MFS_BMP_DATA_BLOCKS (m_super m) ->
  let m' := mk_mfs s p sb tab in
  meta_wf m' /\ data_kept m m' /\ node_ok m' magic b /\ mfs_bmp_get b (m_space m) = false
  /\ buf' = mfs_seal magic buf /\ agree 0 MFS_BLOCK (loaded (mfs_view s b)) buf'.
Proof using MfsDeviceLaws0.
  intros Hwf Hbm Hmg Hc Hbb m'.
  destruct (commit_spec _ _ _ _ _ _ _ _ (w_store _ Hwf) Hbm Hc)
    as (Hst & Hbuf & Ht & _ & Hmono & Hnw & Hb & Hfree & Hget & Hnew & Hold).
  pose proof (data_start_pos (m_space m) (proj1 (proj1 (proj1 (proj2 (w_store _ Hwf)))))) as Hds.
  assert (mfs_data_start p = mfs_data_start (m_space m)) as Hs by (unfold mfs_data_start; by rewrite Ht).
  assert (agree 0 MFS_BLOCK (loaded (mfs_view s b)) buf') as Hag.
  { rewrite Hnew, Hbuf. apply loaded_slice. }
  split.
  { split; cbn; [done| | |].
    - intros b' Hb'. rewrite Hs in Hb'. destruct (w_meta _ Hwf b' Hb') as [Hu Hw].
      split; [apply Hmono; [lia|done]|by apply Hnw].
    - rewrite Hbb, Ht. apply (w_bb _ Hwf).
    - apply (commit_bytes _ _ _ _ _ _ _ _ Hc), (w_bmp _ Hwf). }
  split.
  { split; [exact Ht|]. cbn. intros b' Hb' Hu. split; [apply Hmono; [lia|done]|].
    apply Hold. intros ->. by rewrite Hu in Hfree. }
  split.
  { split; cbn; [by rewrite Hs, Ht|]. split; [rewrite Hget by lia; by rewrite Z.eqb_refl|].
    rewrite (ok_ext _ _ _ Hag), Hbuf, seal_ok by done. apply Z.eqb_refl. }
  done.
Qed.

Lemma ino_slot_range ino :
  0 < ino < MFS_INO_MAX -> 0 <= ino / MFS_ITAB_SLOTS < MFS_ITAB_SLOTS /\ 0 <= ino mod MFS_ITAB_SLOTS < MFS_ITAB_SLOTS.
Proof.
  change MFS_INO_MAX with 1044484. change MFS_ITAB_SLOTS with 1022. intros H.
  Z.to_euclidean_division_equations. lia.
Qed.

Lemma table_elem m k :
  length (MFS_ITAB_MEM (m_tab m)) = Z.to_nat MFS_ITAB_SLOTS -> 0 <= k < MFS_ITAB_SLOTS ->
  mfs_itab_table k (m_tab m) ∈ MFS_ITAB_MEM (m_tab m).
Proof.
  intros Hl Hk. unfold mfs_itab_table. rewrite (proj2 (Z.leb_gt _ _)) by lia.
  destruct (lookupZ (MFS_ITAB_MEM (m_tab m)) k) as [t|] eqn:E.
  - apply lookupZ_Some in E as [_ E]. by apply list_elem_of_lookup_2 in E.
  - apply lookupZ_None in E. rewrite Hl in E. lia.
Qed.

Lemma table_set t k k' blk :
  length (MFS_ITAB_MEM t) = Z.to_nat MFS_ITAB_SLOTS -> 0 <= k < MFS_ITAB_SLOTS ->
  mfs_itab_table k' (mfs_set_itab_table k blk t) = if k' =? k then blk else mfs_itab_table k' t.
Proof.
  intros Hl Hk. unfold mfs_set_itab_table, mfs_itab_table. rewrite (proj2 (Z.ltb_lt _ _)) by lia. cbn.
  destruct (Z.eqb_spec k' k) as [->|Hne].
  - rewrite (proj2 (Z.leb_gt _ _)) by lia. rewrite lookupZ_insertZ_eq; [done|].
    destruct (lookupZ (MFS_ITAB_MEM t) k) eqn:E; [by eexists|]. apply lookupZ_None in E. lia.
  - by rewrite lookupZ_insertZ_ne by done.
Qed.

Lemma elem_insertZ {A} (l : list A) k x y : y ∈ insertZ l k x -> y = x \/ y ∈ l.
Proof.
  unfold insertZ. destruct (_ && _); [|by right]. intros [i Hi]%list_elem_of_lookup_1.
  apply list_lookup_insert_Some in Hi as [(_ & -> & _)|[_ Hi]]; [by left|].
  right. by eapply list_elem_of_lookup_2.
Qed.

Lemma slot_agree buf buf' j :
  0 <= j < MFS_ITAB_SLOTS -> agree 0 MFS_BLOCK buf buf' ->
  read_u32 buf (MFS_HDR + j * 4) = read_u32 buf' (MFS_HDR + j * 4).
Proof.
  intros Hj H. apply read_u32_ext. eapply agree_sub; [exact H|unfold MFS_HDR; lia|].
  change MFS_ITAB_SLOTS with 1022 in Hj. unfold MFS_HDR, MFS_BLOCK. lia.
Qed.

Lemma zero_slot buf j :
  0 <= j < MFS_ITAB_SLOTS -> read_u32 (zero_bytes 0 (Z.to_nat MFS_BLOCK) buf) (MFS_HDR + j * 4) = 0.
Proof.
  intros Hj. rewrite (slot_agree _ scratch); [done|done|]. intros a Ha.
  unfold zero_bytes, copy_to. rewrite length_replicate, Z2Nat.id by done.
  destruct (_ && _) eqn:E.
  - destruct (nth_lookup_or_length (replicate (Z.to_nat MFS_BLOCK) 0) (Z.to_nat (a - 0)) 0) as [Hn|Hn].
    + by apply lookup_replicate in Hn as [-> _].
    + rewrite length_replicate in Hn. lia.
  - apply andb_false_iff in E as [E|E]; bool_to_prop; lia.
Qed.

(** Looking an inode up. *)
Lemma ino_block_spec m ino o m' :
  itab_wf m -> 0 < ino < MFS_INO_MAX -> mfs_ino_block ino m = (o, m') ->
  m_space m' = m_space m /\ m_super m' = m_super m /\ MFS_ITAB_MEM (m_tab m') = MFS_ITAB_MEM (m_tab m)
  /\ (forall v, o = Some v ->
        v = itab_lookup m ino /\ itab_wf m' /\ forall b, mfs_view (m_io m') b = mfs_view (m_io m) b).
Proof using MfsDeviceLaws0.
  intros Hwf Hino. unfold mfs_ino_block.
  rewrite (proj2 (Z.eqb_neq ino 0)), (proj2 (Z.leb_gt _ _)) by lia. cbn [orb].
  destruct (ino_slot_range ino Hino) as [Hk Hj]. unfold itab_lookup, mfs_ino_slot.
  set (k := ino / MFS_ITAB_SLOTS) in *. set (j := ino mod MFS_ITAB_SLOTS) in *.
  set (t := mfs_itab_table k (m_tab m)).
  destruct (Z.eqb_spec t 0) as [Et|Et].
  { intros [= <- <-]. split_and!; try done. intros v [= <-]. done. }
  destruct (Z.eqb_spec (MFS_ITAB_CACHE_IDX (m_tab m)) k) as [Ek|Ek].
  { intros [= <- <-]. split_and!; try done. intros v [= <-]. split; [|done].
    destruct (w_cache _ Hwf) as [Hc|(_ & _ & Hc)].
    - assert (U32_MAX < MFS_ITAB_SLOTS) by lia. done.
    - rewrite Ek in Hc. by apply slot_agree. }
  pose proof (w_tables _ Hwf t (table_elem m k (w_len _ Hwf) Hk) Et) as Hn.
  destruct (node_bound _ _ _ (w_mw _ Hwf) Hn) as [Hb _].
  destruct (mfs_read_blk t _ (m_io m)) as [[ok buf] s] eqn:Er.
  destruct (w_store _ (w_mw _ Hwf)) as (Hio & Hsp & Hwin).
  destruct (read_blk_spec _ _ _ _ _ _ Hio Hb Er) as (Hio' & Hv & Hsub & Hview & Hbuf & Hbytes).
  destruct (negb ok || negb (mfs_ok buf MFS_MAGIC_ITAB)) eqn:Eok; intros [= <- <-];
    (split_and!; [done..|]); [done|].
  apply orb_false_elim in Eok as [Eok1 Eok2]. apply negb_false_iff in Eok1 as ->.
  intros v [= <-]. specialize (Hbuf eq_refl).
  assert (forall b, mfs_view s b = mfs_view (m_io m) b) as Hview' by (intros b; apply Hview; by left).
  assert (agree 0 MFS_BLOCK buf (loaded (mfs_view (m_io m) t))) as Hag.
  { rewrite Hbuf. by apply loaded_agree, view_block. }
  split; [by apply slot_agree|]. split; [|done].
  assert (data_kept m (mk_mfs s (m_space m) (m_super m) (mk_tab (MFS_ITAB_MEM (m_tab m)) k buf))) as Hkept
    by (split; cbn; auto).
  split; cbn.
  - split; cbn.
    + split; [done|]. split; [done|]. intros b Hb2 Hw. apply Hwin; [done|].
      destruct (mfs_wb_has b (m_io m)) eqn:E; [done|]. by rewrite (Hsub b E) in Hw.
    + intros b Hb2. destruct (w_meta _ (w_mw _ Hwf) b Hb2) as [? ?]. auto.
    + apply (w_bb _ (w_mw _ Hwf)).
    + apply (w_bmp _ (w_mw _ Hwf)).
  - apply (w_len _ Hwf).
  - intros t' Ht' Hz. apply (node_kept _ _ _ _ Hkept). by apply (w_tables _ Hwf).
  - right. split; [done|]. split; [exact Et|]. rewrite Hview'. exact Hag.
  - apply Hbytes, (w_buf _ Hwf).
Qed.

(** Writing the index block and the superblocks. *)
Lemma itab_flush_spec m m' :
  meta_wf m -> length (MFS_ITAB_MEM (m_tab m)) = Z.to_nat MFS_ITAB_SLOTS ->
  Forall (fun t => 0 <= t < 2^32) (MFS_ITAB_MEM (m_tab m)) -> mfs_itab_flush m = (true, m') ->
  meta_wf m' /\ data_kept m m' /\ m_tab m' = m_tab m
  /\ node_ok m' MFS_MAGIC_ITABX (MFS_ITAB (m_super m'))
  /\ index_slots (loaded (mfs_view (m_io m') (MFS_ITAB (m_super m')))) = MFS_ITAB_MEM (m_tab m)
  /\ MFS_GEN (m_super m') = w64 (MFS_GEN (m_super m) + 1)
  /\ MFS_WB (m_io m') = []
  /\ (forall copy, copy = 0 \/ copy = 1 -> exists p,
        mfs_view (m_io m') copy = slice_at 0 (Z.to_nat MFS_BLOCK) (mfs_build_super p (m_super m') scratch)).
Proof using MfsDeviceLaws0.
  intros Hwf Hlen Hu32. unfold mfs_itab_flush. set (x := write_words _ _ _).
  destruct (mfs_commit _ x _ _) as [[[ob buf] s] p] eqn:Ec. destruct ob as [nb|]; [|done].
  assert (byte_mem x) as Hx by (by apply write_words_bytes, seal_byte_mem, zero_bytes_mem).
  destruct (commit_node _ MFS_MAGIC_ITABX _ _ _ _ _ (set_itab nb (m_super m)) (m_tab m) Hwf Hx ltac:(done) Ec eq_refl)
    as (Hwf1 & Hk1 & Hn1 & Hfree & Hbuf & Hag).
  set (m1 := mk_mfs s p (set_itab nb (m_super m)) (m_tab m)) in *. intros Hf.
  destruct (bmp_flush_spec _ _ Hwf1 Hf) as (Hwf' & Htab & Hsb & Ht & Hget & Hemp & Hview & Hcopy).
  assert (data_kept m1 m') as Hk2.
  { split; [done|]. intros b Hb Hu. rewrite Hget. auto. }
  assert (MFS_ITAB (m_super m') = nb) as Hitab by (by rewrite Hsb).
  split; [done|]. split; [by eapply data_kept_trans|]. split; [done|]. rewrite Hitab.
  split; [by apply (node_kept m1)|]. split.
  - rewrite Hview by (apply Hn1). apply list_eq_same_length with (Z.to_nat MFS_ITAB_SLOTS).
    + done.
    + unfold index_slots. by rewrite length_fmap, length_seqZ.
    + intros i a b Hi Ha Hb. unfold index_slots in Ha.
      rewrite list_lookup_fmap, lookup_seqZ_lt in Ha by lia. injection Ha as <-. rewrite Z.add_0_l.
      assert (0 <= Z.of_nat i < MFS_ITAB_SLOTS) as Hir by lia.
      rewrite (slot_agree _ buf) by (done || exact Hag). rewrite Hbuf.
      rewrite (read_u32_ext _ _ x) by (intros c Hc; apply seal_payload; lia).
      replace (MFS_HDR + Z.of_nat i * 4) with (MFS_HDR + 4 * Z.of_nat i) by lia.
      eapply write_words_read; [|by eapply Forall_lookup_1 in Hu32].
      rewrite list_lookup_fmap, lookup_seqZ_lt by lia. cbn. f_equal.
      unfold mfs_itab_table. rewrite Z.add_0_l, (proj2 (Z.leb_gt _ _)) by lia.
      by rewrite lookupZ_nat, Hb.
  - rewrite Hsb at 1. split; [done|]. split; [done|]. intros copy Hc. exists (m_space m1). by apply Hcopy.
Qed.

(** What [itab_fetch] delivers: the block's entries, with the volume as it was. *)
Lemma itab_fetch_spec m k buf s :
  itab_wf m -> 0 <= k < MFS_ITAB_SLOTS -> itab_fetch k m = (true, buf, s) ->
  meta_wf (mk_mfs s (m_space m) (m_super m) (m_tab m)) /\ byte_mem buf
  /\ (forall b, mfs_view s b = mfs_view (m_io m) b)
  /\ (let t := mfs_itab_table k (m_tab m) in
      forall j, 0 <= j < MFS_ITAB_SLOTS ->
        read_u32 buf (MFS_HDR + j * 4)
        = if t =? 0 then 0 else read_u32 (loaded (mfs_view (m_io m) t)) (MFS_HDR + j * 4)).
Proof using MfsDeviceLaws0.
  intros Hwf Hk Eb. unfold itab_fetch in Eb. set (t := mfs_itab_table k (m_tab m)) in *.
  assert (store_wf s (m_space m) /\ byte_mem buf
          /\ (forall b, mfs_view s b = mfs_view (m_io m) b)
          /\ (forall b, mfs_wb_has b (m_io m) = false -> mfs_wb_has b s = false)
          /\ (forall j', 0 <= j' < MFS_ITAB_SLOTS ->
                read_u32 buf (MFS_HDR + j' * 4)
                = if t =? 0 then 0 else read_u32 (loaded (mfs_view (m_io m) t)) (MFS_HDR + j' * 4)))
    as (Hst & Hbb & Hview & Hsub & Hslots).
  { destruct (w_store _ (w_mw _ Hwf)) as (Hio & Hsp & Hwin). pose proof (w_buf _ Hwf) as Hbuf0.
    destruct (Z.eqb_spec t 0) as [Et|Et].
    { injection Eb as <- <-. split_and!; try done; [by apply zero_bytes_mem|]. intros j' Hj'.
      apply zero_slot; done. }
    destruct (Z.eqb_spec (MFS_ITAB_CACHE_IDX (m_tab m)) k) as [Ek|Ek].
    { injection Eb as <- <-. split_and!; try done. intros j' Hj'. apply slot_agree; [done|].
      destruct (w_cache _ Hwf) as [Hc|(_ & _ & Hc)]; [|by rewrite Ek in Hc].
      assert (U32_MAX < MFS_ITAB_SLOTS) by lia. done. }
    destruct (mfs_read_blk t _ _) as [[ok buf1] s1] eqn:Er. injection Eb as Eok <- <-.
    apply andb_prop in Eok as [-> _].
    pose proof (w_tables _ Hwf t (table_elem m k (w_len _ Hwf) Hk) Et) as Hn.
    destruct (node_bound _ _ _ (w_mw _ Hwf) Hn) as [Hb _].
    destruct (read_blk_spec _ _ _ _ _ _ Hio Hb Er) as (Hio' & _ & Hsub & Hview & Hbuf & Hbytes).
    split; [split; [done|split; [done|]]|].
    { intros b Hb2 Hw. apply Hwin; [done|]. destruct (mfs_wb_has b (m_io m)) eqn:E; [done|].
      by rewrite (Hsub b E) in Hw. }
    split; [by apply Hbytes|]. split; [intros b; apply Hview; by left|]. split; [done|].
    intros j' Hj'. apply slot_agree; [done|]. rewrite (Hbuf eq_refl). by apply loaded_agree, view_block. }
  split; [|done]. destruct (w_mw _ Hwf) as [_ Hmeta ? ?]. split; cbn; try done.
  intros b Hb. destruct (Hmeta b Hb). auto.
Qed.

(** Setting a slot changes the map at one inode, keeps every block in use, and reaches the disk. *)
Lemma itab_set_spec m ino blk m' :
  itab_wf m -> 0 < ino < MFS_INO_MAX -> 0 <= blk < 2^32 -> mfs_itab_set ino blk m = (true, m') ->
  itab_wf m' /\ data_kept m m'
  /\ (forall ino', 0 < ino' < MFS_INO_MAX -> itab_lookup m' ino' = if ino' =? ino then blk else itab_lookup m ino')
  /\ node_ok m' MFS_MAGIC_ITABX (MFS_ITAB (m_super m'))
  /\ index_slots (loaded (mfs_view (m_io m') (MFS_ITAB (m_super m')))) = MFS_ITAB_MEM (m_tab m')
  /\ MFS_GEN (m_super m') = w64 (MFS_GEN (m_super m) + 1)
  /\ MFS_WB (m_io m') = []
  /\ (forall copy, copy = 0 \/ copy = 1 -> exists p,
        mfs_view (m_io m') copy = slice_at 0 (Z.to_nat MFS_BLOCK) (mfs_build_super p (m_super m') scratch)).
Proof using MfsDeviceLaws0.
  intros Hwf Hino Hblk. unfold mfs_itab_set.
  rewrite (proj2 (Z.eqb_neq ino 0)), (proj2 (Z.leb_gt _ _)) by lia. cbn [orb].
  destruct (ino_slot_range ino Hino) as [Hk Hj]. unfold mfs_ino_slot.
  set (k := ino / MFS_ITAB_SLOTS) in *. set (j := ino mod MFS_ITAB_SLOTS) in *.
  destruct (itab_fetch k m) as [[ready buf] s] eqn:Eb. destruct ready; cbn [negb]; [|done].
  destruct (itab_fetch_spec _ _ _ _ Hwf Hk Eb) as (Hm1 & Hbb & Hview & Hslots).
  set (m1 := mk_mfs s (m_space m) (m_super m) (m_tab m)) in *. set (t := mfs_itab_table k (m_tab m)) in *.
  destruct (mfs_commit _ _ s (m_space m)) as [[[ob buf2] s2] p2] eqn:Ec. destruct ob as [new_t|]; [|done].
  assert (byte_mem (write_u32 (MFS_HDR + j * 4) blk buf)) as Hb2 by (by apply byte_mem_write_u32).
  set (tab2 := mfs_set_itab_table k new_t (mk_tab (MFS_ITAB_MEM (m_tab m)) k buf2)).
  destruct (commit_node m1 MFS_MAGIC_ITAB _ _ _ _ _ (m_super m) tab2 Hm1 Hb2 ltac:(done) Ec eq_refl)
    as (Hm2 & Hk2 & Hn2 & Hfree & Hbuf2 & Hag2).
  set (m2 := mk_mfs s2 p2 (m_super m) tab2) in *. intros Hf.
  assert (data_kept m m2) as Hk02.
  { eapply data_kept_trans; [|exact Hk2]. split; cbn; auto. }
  assert (length (MFS_ITAB_MEM tab2) = Z.to_nat MFS_ITAB_SLOTS) as Hl2.
  { unfold tab2, mfs_set_itab_table. destruct (_ <? _); cbn; rewrite ?length_insertZ; apply (w_len _ Hwf). }
  destruct (node_bound _ _ _ Hm2 Hn2) as [Hb28 Hnz].
  assert (forall t', t' ∈ MFS_ITAB_MEM tab2 -> t' <> 0 -> node_ok m2 MFS_MAGIC_ITAB t') as Htabs.
  { intros t' Ht' Hz. unfold tab2, mfs_set_itab_table in Ht'. rewrite (proj2 (Z.ltb_lt _ _)) in Ht' by lia.
    apply elem_insertZ in Ht' as [-> |Ht']; [done|].
    apply (node_kept m); [done|]. by apply (w_tables _ Hwf). }
  destruct (itab_flush_spec m2 m' Hm2 Hl2) as (Hm' & Hk' & Htab & Hx & Hidx & Hgen & Hemp & Hcopy); [|done|].
  { apply Forall_forall. intros t' Ht'. destruct (decide (t' = 0)) as [->|Hz]; [lia|].
    destruct (node_bound _ _ _ Hm2 (Htabs t' Ht' Hz)). lia. }
  assert (mfs_view (m_io m') new_t = mfs_view s2 new_t) as Hvn.
  { apply Hk'; [apply Hn2|apply Hn2]. }
  assert (forall k', mfs_itab_table k' (m_tab m') = if k' =? k then new_t else mfs_itab_table k' (m_tab m)) as Htb.
  { intros k'. rewrite Htab. unfold m2, tab2. cbn. rewrite table_set by (done || apply (w_len _ Hwf)). done. }
  assert (agree 0 MFS_BLOCK buf2 (loaded (mfs_view (m_io m') new_t))) as Hag'.
  { rewrite Hvn. by apply agree_sym. }
  split; [|split; [by eapply data_kept_trans|split]].
  - split; [done|by rewrite Htab| | |].
    + intros t' Ht' Hz. rewrite Htab in Ht'. apply (node_kept m2); [done|]. by apply Htabs.
    + right. rewrite Htb. rewrite Htab. unfold m2, tab2, mfs_set_itab_table.
      rewrite (proj2 (Z.ltb_lt _ _)) by lia. cbn. rewrite Z.eqb_refl. done.
    + rewrite Htab. unfold m2, tab2, mfs_set_itab_table. rewrite (proj2 (Z.ltb_lt _ _)) by lia. cbn.
      rewrite Hbuf2. by apply seal_byte_mem.
  - intros ino' Hino'. destruct (ino_slot_range ino' Hino') as [Hkr Hjr]. unfold itab_lookup, mfs_ino_slot.
    set (k' := ino' / MFS_ITAB_SLOTS) in *. set (j' := ino' mod MFS_ITAB_SLOTS) in *.
    assert (k' = k /\ j' = j <-> ino' = ino) as Heq.
    { split; [|intros ->; done]. unfold k, k', j, j'. intros [H1 H2].
      rewrite (Z.div_mod ino' MFS_ITAB_SLOTS), (Z.div_mod ino MFS_ITAB_SLOTS) by done. by rewrite H1, H2. }
    rewrite Htb. destruct (Z.eqb_spec k' k) as [Ek|Ek].
    + rewrite (proj2 (Z.eqb_neq new_t 0)) by done.
      rewrite (slot_agree _ _ j' Hjr (agree_sym _ _ _ _ Hag')), Hbuf2.
      rewrite (read_u32_ext _ _ (write_u32 (MFS_HDR + j * 4) blk buf)) by (intros c Hc; apply seal_payload; lia).
      destruct (Z.eqb_spec ino' ino) as [Ei|Ei].
      * destruct (proj2 Heq Ei) as [_ ->]. by apply read_write_u32.
      * assert (j' <> j) by tauto. rewrite (read_u32_ext _ _ buf) by (intros c Hc; apply write_u32_out; lia).
        rewrite Hslots by done. rewrite Ek. done.
    + rewrite (proj2 (Z.eqb_neq ino' ino)) by tauto.
      destruct (Z.eqb_spec (mfs_itab_table k' (m_tab m)) 0) as [|Hz]; [done|].
      pose proof (w_tables _ Hwf _ (table_elem m k' (w_len _ Hwf) Hkr) Hz) as Hn.
      destruct (proj2 (data_kept_trans _ _ _ Hk02 Hk') _ (proj1 (proj1 Hn)) (proj1 (proj2 Hn))) as [_ ->]. done.
  - rewrite Htab. done.
Qed.

(** Loading the index block, as a mount does, yields the table it holds. *)
Lemma itab_reload_spec m m' :
  io_wf (m_io m) -> 0 <= MFS_ITAB (m_super m) < 2^28 -> mfs_itab_reload m = (true, m') ->
  MFS_ITAB_MEM (m_tab m') = index_slots (loaded (mfs_view (m_io m) (MFS_ITAB (m_super m))))
  /\ forall b, mfs_view (m_io m') b = mfs_view (m_io m) b.
Proof using MfsDeviceLaws0.
  intros Hio Hb. unfold mfs_itab_reload. destruct (_ =? 0); [done|].
  destruct (mfs_read_blk _ scratch _) as [[ok x] s] eqn:Er.
  destruct (read_blk_spec _ _ _ _ _ _ Hio Hb Er) as (_ & _ & _ & Hview & Hbuf & _).
  destruct (negb ok || negb (mfs_ok x MFS_MAGIC_ITABX)) eqn:E; [done|]. intros [= <-]. cbn.
  apply orb_false_elim in E as [E _]. apply negb_false_iff in E as ->. rewrite (Hbuf eq_refl).
  split; [done|]. intros b. apply Hview. by left.
Qed.

Lemma lookup_ext m m' :
  MFS_ITAB_MEM (m_tab m') = MFS_ITAB_MEM (m_tab m) -> (forall b, mfs_view (m_io m') b = mfs_view (m_io m) b) ->
  forall ino, itab_lookup m' ino = itab_lookup m ino.
Proof.
  intros Ht Hv ino. unfold itab_lookup, mfs_itab_table. rewrite Ht. destruct (mfs_ino_slot ino).
  destruct (if _ <=? _ then _ else _) eqn:E; try done; by rewrite Hv.
Qed.

End table.

(** ** Claims *)

(** C24. The inode table is a map from inode numbers to blocks, changed copy on write and made
    durable by every change. After [mfs_itab_set] succeeds, the inode maps to the new block and
    every other inode to what it did; every block of the data area that was in use still is and
    holds the same bytes (so snapshots and their tables are untouched); nothing waits in the
    write window; both superblocks on disk are valid, carry the next generation and name an
    index block; loading that index block, as a mount does, gives back the same map; and every
    lookup that returns a block returns the map's. *)
Theorem inode_table_refines_map {D} `{!MfsDevice D, !MfsDeviceLaws D} (m : mfs D) ino blk m' :
  itab_wf m -> 0 < ino < MFS_INO_MAX -> 0 <= blk < 2^32 -> mfs_itab_set ino blk m = (true, m') ->
  itab_wf m' /\ data_kept m m'
  /\ (forall ino', 0 < ino' < MFS_INO_MAX -> itab_lookup m' ino' = if ino' =? ino then blk else itab_lookup m ino')
  /\ MFS_WB (m_io m') = []
  /\ (forall copy, copy = 0 \/ copy = 1 ->
        let sb := loaded (mfs_view (m_io m') copy) in
        (forall magic, mfs_ok sb magic = (MFS_MAGIC_SUPER =? magic))
        /\ read_u64 sb (MFS_HDR + MFS_SB_GEN) = w64 (MFS_GEN (m_super m) + 1)
        /\ node_ok m' MFS_MAGIC_ITABX (read_u32 sb (MFS_HDR + MFS_SB_ITAB))
        /\ read_u32 sb (MFS_HDR + MFS_SB_ITAB) = MFS_ITAB (m_super m'))
  /\ (forall m2, mfs_itab_reload m' = (true, m2) -> forall ino', itab_lookup m2 ino' = itab_lookup m' ino')
  /\ (forall ino' v m2, 0 < ino' < MFS_INO_MAX -> mfs_ino_block ino' m' = (Some v, m2) ->
        v = itab_lookup m' ino').
Proof.
  intros Hwf Hino Hblk Hs.
  destruct (itab_set_spec _ _ _ _ Hwf Hino Hblk Hs) as (Hwf' & Hk & Hmap & Hx & Hidx & Hgen & Hemp & Hcopy).
  destruct (node_bound _ _ _ (w_mw _ Hwf') Hx) as [Hb _].
  split; [done|]. split; [done|]. split; [done|]. split; [done|]. split; [|split].
  - intros copy Hc. cbv zeta. destruct (Hcopy copy Hc) as [p ->].
    pose proof (loaded_slice (mfs_build_super p (m_super m') scratch)) as Hag.
    destruct (build_super_fields p (m_super m') scratch scratch_bytes) as (Hok & Hi & Hg).
    { lia. } { rewrite Hgen. apply Z.mod_pos_bound. lia. }
    assert (read_u32 (loaded (slice_at 0 (Z.to_nat MFS_BLOCK) (mfs_build_super p (m_super m') scratch)))
              (MFS_HDR + MFS_SB_ITAB) = MFS_ITAB (m_super m')) as ->.
    { rewrite <- Hi. apply read_u32_ext. eapply agree_sub; [exact Hag|done..]. }
    split; [intros magic; by rewrite (ok_ext _ _ _ Hag)|]. split; [|done].
    rewrite <- Hgen, <- Hg. apply read_u64_ext. eapply agree_sub; [exact Hag|done..].
  - intros m2 Hr. destruct (itab_reload_spec _ _ (proj1 (w_store _ (w_mw _ Hwf'))) Hb Hr) as [Ht Hv].
    apply lookup_ext; [congruence|done].
  - intros ino' v m2 Hino' Hb'. destruct (ino_block_spec _ _ _ _ Hwf' Hino' Hb') as (_ & _ & _ & Hv).
    by destruct (Hv v eq_refl) as [-> _].
Qed.

(** A fresh volume of 32 blocks: the six metadata blocks are in use, the table is empty. *)
Definition demo_mfs : mfs ram_blocks :=
  mk_mfs (mk_io 1 [] (fun _ _ => []))
    (mk_space (fun a => if a =? 0 then 63 else 0) (fun _ => 0) 32 26 0)
    (mk_super 4 0 0 2 [] 0 1)
    (mk_tab (replicate (Z.to_nat MFS_ITAB_SLOTS) 0) U32_MAX (fun _ => 0)).

Lemma demo_mfs_wf : itab_wf (MfsDevice0 := ram_mfs true) demo_mfs.
Proof.
  split.
  - split; cbn.
    + split; [split; constructor|]. split; [split; [done|vm_compute; reflexivity]|]. done.
    + intros b Hb. change (mfs_data_start _) with 6 in Hb. split; [|done].
      assert (b = 0 \/ b = 1 \/ b = 2 \/ b = 3 \/ b = 4 \/ b = 5) as [->|[->|[->|[->|[->| ->]]]]] by lia; done.
    + done.
    + intros a. unfold is_byte. destruct (a =? 0); lia.
  - apply length_replicate.
  - intros t Ht Hz. change (t ∈ replicate (Z.to_nat MFS_ITAB_SLOTS) 0) in Ht. apply elem_of_replicate in Ht as [-> _]. done.
  - by left.
  - done.
Qed.

Lemma inode_table_refines_map_witness :
  exists m', @mfs_itab_set _ (ram_mfs true) 2 9 demo_mfs = (true, m')
    /\ itab_lookup (MfsDevice0 := ram_mfs true) m' 2 = 9 /\ itab_lookup (MfsDevice0 := ram_mfs true) m' 3 = 0.
Proof.
  assert (0 < 2 < MFS_INO_MAX) as H2 by done. assert (0 < 3 < MFS_INO_MAX) as H3 by done.
  assert (0 <= 9 < 2^32) as H9 by lia.
  destruct (@mfs_itab_set _ (ram_mfs true) 2 9 demo_mfs) as [ok m'] eqn:E.
  assert (ok = true) as -> by (change ok with (fst (ok, m')); rewrite <- E; lazy; reflexivity).
  destruct (@inode_table_refines_map _ (ram_mfs true) (ram_mfs_laws true) _ _ _ _ demo_mfs_wf H2 H9 E)
    as (_ & _ & Hmap & _).
  exists m'. split; [done|]. split; [by rewrite (Hmap 2 H2)|by rewrite (Hmap 3 H3)].
Defined.

(** A table block is zeroed in the cache before it is known that a new block can be had. On a full
    volume the first inode of a new table fails, and the cached table of other inodes is gone:
    inode 1 lived in block 7 and now looks free. *)
Definition full_mfs : mfs ram_blocks :=
  mk_mfs (mk_io 1 [] (fun _ _ => []))
    (mk_space (fun _ => 255) (fun _ => 0) 32 0 0)
    (mk_super 4 6 1 2 [] 0 1)
    (mk_tab (8 :: replicate (Z.to_nat MFS_ITAB_SLOTS - 1) 0) 0 (write_u32 12 7 scratch)).

Example failed_set_corrupts_cache :
  (@mfs_ino_block _ (ram_mfs true) 1 full_mfs).1 = Some 7
  /\ (@mfs_itab_set _ (ram_mfs true) 1022 9 full_mfs).1 = false
  /\ (@mfs_ino_block _ (ram_mfs true) 1 (@mfs_itab_set _ (ram_mfs true) 1022 9 full_mfs).2).1 = Some 0.
Proof. lazy. done. Qed.
