(* ===== verification/MfsDir.v ===== *)
(** * MfsDir: directory blocks of MorionFS (src/user/srv/src/mfs_srv.rs)

    The entries of a directory block are records of variable length that tile the block: each has
    an inode number, a type, a name and the distance to the next record; a record without a name
    is free, and a record may be longer than its name needs. This file holds the accessors, the
    scan, the first-fit search, insertion and deletion, and shows that the block is a finite map
    from names to inode and type. *)

From S2P Require Import Prelude Bytes Slots MfsBlock.

Definition MFS_META_LEN : Z := 40.
Definition MFS_DIR_HDR : Z := 8 + MFS_META_LEN.
Definition MFS_DIR_AREA : Z := MFS_PAYLOAD - MFS_DIR_HDR.
Definition MFS_DIR_ENT_HDR : Z := 8.
Definition MFS_DIR_ENT_MIN : Z := 12.
Definition MFS_NAME_MAX : Z := 255.

Definition mfs_ent_rec_len (buf : mem) (off : Z) : Z := read_u16 buf (off + 6).
Definition mfs_ent_name_len (buf : mem) (off : Z) : Z := buf (off + 5).
Definition mfs_ent_ino (buf : mem) (off : Z) : Z := read_u32 buf off.
Definition mfs_ent_type (buf : mem) (off : Z) : Z := buf (off + 4).

(** [for (i, &c) in comp.iter().enumerate()] over the bytes at [p]. *)
Fixpoint bytes_eq (buf : mem) (p : Z) (comp : list Z) : bool :=
  match comp with
  | [] => true
  | c :: comp' => if negb (buf p =? c) then false else bytes_eq buf (p + 1) comp'
  end.

Definition mfs_ent_name_eq (buf : mem) (off : Z) (comp : list Z) : bool :=
  let n := mfs_ent_name_len buf off in
  if (n =? 0) || negb (n =? Z.of_nat (length comp)) then false
  else bytes_eq buf (off + MFS_DIR_ENT_HDR) comp.

Definition mfs_ent_need (name_len : Z) : Z := Z.land (MFS_DIR_ENT_HDR + name_len + 3) (Z.lnot 3).

Definition mfs_ent_fill (buf : mem) (off : Z) (comp : list Z) (child typ rec_len : Z) : mem :=
  let buf := write_u32 off child buf in
  let buf := write_byte (off + 5) (w8 (Z.of_nat (length comp))) (write_byte (off + 4) (w8 typ) buf) in
  let buf := write_u16 (off + 6) (w16 rec_len) buf in
  copy_to (off + MFS_DIR_ENT_HDR) comp buf.

Definition mfs_ent_clear (buf : mem) (off rec_len : Z) : mem :=
  let buf := write_u32 off 0 buf in
  let buf := write_byte (off + 5) 0 (write_byte (off + 4) 0 buf) in
  write_u16 (off + 6) (w16 rec_len) buf.

Definition mfs_dir_ext (buf : mem) : Z := read_u32 buf MFS_HDR.
Definition mfs_dir_set_ext (buf : mem) (b : Z) : mem := write_u32 MFS_HDR b buf.

Definition mfs_dir_init_empty (buf : mem) : mem :=
  let buf := mfs_dir_set_ext buf 0 in
  let buf := write_u32 (MFS_HDR + 4) 0 buf in
  mfs_ent_clear buf (MFS_HDR + MFS_DIR_HDR) MFS_DIR_AREA.

Definition DIR_END : Z := MFS_HDR + MFS_PAYLOAD.
Definition DIR_BASE : Z := MFS_HDR + MFS_DIR_HDR.

Definition mfs_ent_step (buf : mem) (off : Z) : option Z :=
  let rl := mfs_ent_rec_len buf off in
  if (rl <? MFS_DIR_ENT_MIN) || (DIR_END <? off + rl) then None else Some (off + rl).

(** The loops over the records step by at least [MFS_DIR_ENT_MIN], so this many turns do. *)
Definition DIR_TURNS : nat := Z.to_nat (MFS_DIR_AREA / MFS_DIR_ENT_MIN + 1).

Fixpoint scan_loop (fuel : nat) (buf : mem) (comp : list Z) (off : Z) : option Z :=
  match fuel with
  | O => None
  | S fuel' =>
      if DIR_END <? off + MFS_DIR_ENT_HDR then None
      else if mfs_ent_name_eq buf off comp then Some off
      else match mfs_ent_step buf off with
           | Some n => scan_loop fuel' buf comp n
           | None => None
           end
  end.
Definition mfs_dir_scan (buf : mem) (comp : list Z) : option Z := scan_loop DIR_TURNS buf comp DIR_BASE.

Fixpoint slot_loop (fuel : nat) (buf : mem) (need off : Z) : option (Z * Z * Z) :=
  match fuel with
  | O => None
  | S fuel' =>
      if DIR_END <? off + MFS_DIR_ENT_HDR then None
      else
        let rl := mfs_ent_rec_len buf off in
        if (rl <? MFS_DIR_ENT_MIN) || (DIR_END <? off + rl) then None
        else
          let nl := mfs_ent_name_len buf off in
          let used := if nl =? 0 then 0 else mfs_ent_need nl in
          if used + need <=? rl then Some (off, rl, used) else slot_loop fuel' buf need (off + rl)
  end.
Definition mfs_dir_slot (buf : mem) (need : Z) : option (Z * Z * Z) := slot_loop DIR_TURNS buf need DIR_BASE.

Definition mfs_ent_place (buf : mem) (off rl used : Z) (comp : list Z) (child typ : Z) : mem :=
  let need := mfs_ent_need (Z.of_nat (length comp)) in
  let avail := rl - used in
  let take := if MFS_DIR_ENT_MIN <=? avail - need then need else avail in
  let eoff := off + used in
  let buf := if 0 <? used then write_u16 (off + 6) (w16 used) buf else buf in
  let buf := mfs_ent_fill buf eoff comp child typ take in
  if take <? avail then mfs_ent_clear buf (eoff + take) (avail - take) else buf.

Fixpoint has_entry_loop (fuel : nat) (buf : mem) (off : Z) : bool :=
  match fuel with
  | O => false
  | S fuel' =>
      if DIR_END <? off + MFS_DIR_ENT_HDR then false
      else if negb (mfs_ent_name_len buf off =? 0) then true
      else match mfs_ent_step buf off with
           | Some n => has_entry_loop fuel' buf n
           | None => false
           end
  end.
Definition mfs_dir_has_entry (buf : mem) : bool := has_entry_loop DIR_TURNS buf DIR_BASE.

(** The record before [target] in [mfs_dir_delete]: [None] is [return false], [Some prev] the
    value of [prev] after the loop. *)
Fixpoint prev_loop (fuel : nat) (buf : mem) (target : Z) (prev : option Z) (off : Z) : option (option Z) :=
  match fuel with
  | O => None
  | S fuel' =>
      if (DIR_END <? off + MFS_DIR_ENT_HDR) || (target <=? off) then Some prev
      else
        let r := mfs_ent_rec_len buf off in
        if (r <? MFS_DIR_ENT_MIN) || (DIR_END <? off + r) then None
        else prev_loop fuel' buf target (Some off) (off + r)
  end.

(** [mfs_dir_delete] on the block of the entry, between loading and storing it. *)
Definition dir_delete (buf : mem) (off : Z) : option mem :=
  let rl := mfs_ent_rec_len buf off in
  match prev_loop (S DIR_TURNS) buf off None DIR_BASE with
  | None => None
  | Some (Some p) => Some (write_u16 (p + 6) (w16 (mfs_ent_rec_len buf p + rl)) buf)
  | Some None => Some (mfs_ent_clear buf off rl)
  end.

(** Insertion into one block: the part of [mfs_dir_insert] after the block is loaded. *)
Definition dir_insert (buf : mem) (comp : list Z) (child typ : Z) : option mem :=
  if (length comp =? 0)%nat || (MFS_NAME_MAX <? Z.of_nat (length comp)) then None
  else
    match mfs_dir_slot buf (mfs_ent_need (Z.of_nat (length comp))) with
    | Some (off, rl, used) => Some (mfs_ent_place buf off rl used comp child typ)
    | None => None
    end.

(** ** Records *)

Record rec : Type := mk_rec { r_len : Z; r_name : list Z; r_ino : Z; r_typ : Z }.

Definition r_used (r : rec) : Z :=
  match r_name r with [] => 0 | _ => mfs_ent_need (Z.of_nat (length (r_name r))) end.

(** Record [r] lies at [off]. *)
Record rec_at (buf : mem) (off : Z) (r : rec) : Prop := {
  at_len : mfs_ent_rec_len buf off = r_len r;
  at_name_len : mfs_ent_name_len buf off = Z.of_nat (length (r_name r));
  at_min : MFS_DIR_ENT_MIN <= r_len r;
  at_used : r_used r <= r_len r;
  at_entry : r_name r <> [] ->
    mfs_ent_ino buf off = r_ino r /\ mfs_ent_type buf off = r_typ r
    /\ slice_at (off + MFS_DIR_ENT_HDR) (length (r_name r)) buf = r_name r
}.

(** The records [rs] tile the bytes from [off] to [e]. *)
Fixpoint chain (buf : mem) (off : Z) (rs : list rec) (e : Z) : Prop :=
  match rs with
  | [] => off = e
  | r :: rs' => rec_at buf off r /\ chain buf (off + r_len r) rs' e
  end.

Definition span (rs : list rec) : Z := foldr (fun r n => r_len r + n) 0 rs.

Lemma need_eq n : mfs_ent_need n = (8 + n + 3) / 4 * 4.
Proof.
  unfold mfs_ent_need, MFS_DIR_ENT_HDR. rewrite <- Z.ldiff_land. change 3 with (Z.ones 2) at 2.
  by rewrite Z.ldiff_ones_r, Z.shiftl_mul_pow2, Z.shiftr_div_pow2 by lia.
Qed.

Lemma need_spec n : 0 <= n -> 8 + n <= mfs_ent_need n <= 11 + n /\ (1 <= n -> 12 <= mfs_ent_need n).
Proof. intros Hn. rewrite need_eq. Z.to_euclidean_division_equations. lia. Qed.

Lemma need_mono n n' : 0 <= n <= n' -> mfs_ent_need n <= mfs_ent_need n'.
Proof. intros H. rewrite !need_eq. Z.to_euclidean_division_equations. lia. Qed.

Lemma used_bound_name r : r_name r <> [] -> r_used r = mfs_ent_need (Z.of_nat (length (r_name r))) /\ 12 <= r_used r
  /\ 8 + Z.of_nat (length (r_name r)) <= r_used r.
Proof.
  intros H. unfold r_used. destruct (r_name r) as [|c l] eqn:E; [done|]. split; [done|].
  pose proof (need_spec (Z.of_nat (length (c :: l))) ltac:(lia)) as [? ?]. cbn [length] in *. lia.
Qed.

Lemma used_nonneg r : 0 <= r_used r.
Proof. destruct (decide (r_name r = [])) as [E|E]; [unfold r_used; by rewrite E|]. pose proof (used_bound_name r E). lia. Qed.

Lemma rec_at_frame buf buf' off r : agree off (off + r_len r) buf buf' -> rec_at buf off r -> rec_at buf' off r.
Proof.
  intros Hag [Hl Hn Hm Hu He]. unfold MFS_DIR_ENT_MIN in Hm. split; try done.
  - unfold mfs_ent_rec_len in *. rewrite <- (read_u16_ext _ buf buf'); [done|].
    eapply agree_sub; [exact Hag|lia..].
  - unfold mfs_ent_name_len in *. rewrite <- Hag by lia. done.
  - intros Hne. destruct (He Hne) as (H1 & H2 & H3). pose proof (used_bound_name r Hne) as (_ & _ & Hlen).
    split; [|split].
    + unfold mfs_ent_ino in *. rewrite <- (read_u32_ext _ buf buf'); [done|]. eapply agree_sub; [exact Hag|lia..].
    + unfold mfs_ent_type in *. rewrite <- Hag by lia. done.
    + rewrite <- H3 at 2. symmetry. apply slice_at_ext. intros a Ha. apply Hag. unfold MFS_DIR_ENT_HDR in Ha. lia.
Qed.

Lemma chain_span buf off rs e : chain buf off rs e -> e = off + span rs /\ 12 * Z.of_nat (length rs) <= span rs.
Proof.
  revert off. induction rs as [|r rs IH]; intros off H; cbn [chain span foldr length] in *; [lia|].
  destruct H as [Hr H]. destruct (IH _ H) as [-> Hs]. pose proof (at_min _ _ _ Hr).
  unfold MFS_DIR_ENT_MIN in *. fold (span rs) in *. lia.
Qed.

Lemma chain_app buf off rs1 rs2 e :
  chain buf off (rs1 ++ rs2) e <-> chain buf off rs1 (off + span rs1) /\ chain buf (off + span rs1) rs2 e.
Proof.
  revert off. induction rs1 as [|r rs1 IH]; intros off; cbn [app chain].
  - change (span []) with 0. rewrite Z.add_0_r. tauto.
  - change (span (r :: rs1)) with (r_len r + span rs1). rewrite IH, Z.add_assoc. tauto.
Qed.

Lemma chain_frame buf buf' off rs e : agree off e buf buf' -> chain buf off rs e -> chain buf' off rs e.
Proof.
  revert off. induction rs as [|r rs IH]; intros off Hag H; cbn [chain] in *; [done|].
  destruct H as [Hr H]. destruct (chain_span _ _ _ _ H) as [He Hs]. pose proof (at_min _ _ _ Hr).
  unfold MFS_DIR_ENT_MIN in *. split.
  - eapply rec_at_frame; [|exact Hr]. eapply agree_sub; [exact Hag|lia..].
  - apply IH; [|done]. eapply agree_sub; [exact Hag|lia..].
Qed.

Lemma span_app rs1 rs2 : span (rs1 ++ rs2) = span rs1 + span rs2.
Proof.
  induction rs1 as [|r rs1 IH]; [done|]. change (r_len r + span (rs1 ++ rs2) = r_len r + span rs1 + span rs2). lia.
Qed.

(** Replacing one record by a tiling of its bytes. *)
Lemma chain_replace buf buf' off pre r post rs e :
  chain buf off (pre ++ r :: post) e ->
  agree off (off + span pre) buf buf' -> agree (off + span pre + r_len r) e buf buf' ->
  chain buf' (off + span pre) rs (off + span pre + r_len r) ->
  chain buf' off (pre ++ rs ++ post) e.
Proof.
  intros H Hlo Hhi Hnew. apply chain_app in H as [Hpre [Hr Hpost]].
  apply chain_app. split; [by eapply chain_frame|].
  destruct (chain_span _ _ _ _ Hnew) as [Hs _]. apply chain_app. rewrite <- Hs. split; [done|].
  by eapply chain_frame.
Qed.

(** ** The loops *)

Lemma bytes_eq_spec buf p comp : bytes_eq buf p comp = true <-> slice_at p (length comp) buf = comp.
Proof.
  revert p. induction comp as [|c comp IH]; intros p; [done|]. cbn [bytes_eq length].
  assert (slice_at p (S (length comp)) buf = buf p :: slice_at (p + 1) (length comp) buf) as ->.
  { unfold slice_at. rewrite seqZ_cons by lia. rewrite fmap_cons.
    by replace (Z.pred (Z.of_nat (S (length comp)))) with (Z.of_nat (length comp)) by lia. }
  destruct (Z.eqb_spec (buf p) c) as [->|Hne]; cbn.
  - rewrite IH. split; [by intros ->|by intros [= ?]].
  - split; [done|]. congruence.
Qed.

Lemma name_eq_spec buf off r comp :
  rec_at buf off r -> comp <> [] -> mfs_ent_name_eq buf off comp = bool_decide (r_name r = comp).
Proof.
  intros Hr Hc. unfold mfs_ent_name_eq. rewrite (at_name_len _ _ _ Hr).
  destruct (decide (r_name r = [])) as [E|E].
  { rewrite E. cbn. rewrite bool_decide_false by congruence. done. }
  destruct (at_entry _ _ _ Hr E) as (_ & _ & Hn).
  assert (Z.of_nat (length (r_name r)) =? 0 = false) as ->.
  { apply Z.eqb_neq. destruct (r_name r); cbn; [done|lia]. }
  cbn [orb]. destruct (Z.eqb_spec (Z.of_nat (length (r_name r))) (Z.of_nat (length comp))) as [El|El]; cbn [negb].
  - apply Nat2Z.inj in El. apply eq_true_iff_eq. rewrite bytes_eq_spec, bool_decide_eq_true, <- El, Hn. done.
  - rewrite bool_decide_false; [done|]. congruence.
Qed.

Lemma step_spec buf off r :
  rec_at buf off r -> off + r_len r <= DIR_END -> mfs_ent_step buf off = Some (off + r_len r).
Proof.
  intros Hr Hle. unfold mfs_ent_step. rewrite (at_len _ _ _ Hr). pose proof (at_min _ _ _ Hr).
  by rewrite (proj2 (Z.ltb_ge _ _)), (proj2 (Z.ltb_ge _ _)) by lia.
Qed.

Lemma scan_spec fuel buf comp off rs :
  chain buf off rs DIR_END -> comp <> [] -> (length rs < fuel)%nat ->
  match scan_loop fuel buf comp off with
  | Some o => exists pre r post, rs = pre ++ r :: post /\ o = off + span pre /\ r_name r = comp
  | None => Forall (fun r => r_name r <> comp) rs
  end.
Proof.
  revert off rs. induction fuel as [|fuel IH]; intros off rs Hch Hc Hf; [lia|]. cbn [scan_loop].
  destruct rs as [|r rs]; cbn [chain length] in *.
  { rewrite Hch. by rewrite (proj2 (Z.ltb_lt _ _)) by (unfold MFS_DIR_ENT_HDR; lia). }
  destruct Hch as [Hr Hch]. pose proof (at_min _ _ _ Hr) as Hm. unfold MFS_DIR_ENT_MIN in Hm.
  destruct (chain_span _ _ _ _ Hch) as [He Hs].
  rewrite (proj2 (Z.ltb_ge _ _)) by (unfold MFS_DIR_ENT_HDR; lia).
  rewrite (name_eq_spec _ _ _ _ Hr Hc). destruct (bool_decide_reflect (r_name r = comp)) as [E|E].
  { exists [], r, rs. split; [done|]. split; [|done]. change (span []) with 0. lia. }
  rewrite (step_spec _ _ _ Hr) by lia. specialize (IH _ _ Hch Hc ltac:(lia)).
  destruct (scan_loop fuel buf comp _) as [o|]; [|by constructor].
  destruct IH as (pre & r' & post & -> & -> & Hn). exists (r :: pre), r', post.
  split; [done|]. split; [|done]. change (span (r :: pre)) with (r_len r + span pre). lia.
Qed.

Definition fits (need : Z) (r : rec) : Prop := r_used r + need <= r_len r.

Lemma slot_spec fuel buf need off rs :
  chain buf off rs DIR_END -> (length rs < fuel)%nat ->
  match slot_loop fuel buf need off with
  | Some (o, rl, used) =>
      exists pre r post, rs = pre ++ r :: post /\ o = off + span pre /\ rl = r_len r /\ used = r_used r /\ fits need r
  | None => Forall (fun r => ~ fits need r) rs
  end.
Proof.
  revert off rs. induction fuel as [|fuel IH]; intros off rs Hch Hf; [lia|]. cbn [slot_loop].
  destruct rs as [|r rs]; cbn [chain length] in *.
  { rewrite Hch. by rewrite (proj2 (Z.ltb_lt _ _)) by (unfold MFS_DIR_ENT_HDR; lia). }
  destruct Hch as [Hr Hch]. pose proof (at_min _ _ _ Hr) as Hm.
  destruct (chain_span _ _ _ _ Hch) as [He Hs].
  rewrite (proj2 (Z.ltb_ge DIR_END _)) by (unfold MFS_DIR_ENT_HDR, MFS_DIR_ENT_MIN in *; lia).
  rewrite (at_len _ _ _ Hr), (at_name_len _ _ _ Hr).
  rewrite (proj2 (Z.ltb_ge (r_len r) _)), (proj2 (Z.ltb_ge DIR_END _)) by lia. cbn [orb].
  assert ((if Z.of_nat (length (r_name r)) =? 0 then 0 else mfs_ent_need (Z.of_nat (length (r_name r)))) = r_used r)
    as ->.
  { unfold r_used. destruct (r_name r); [done|]. rewrite (proj2 (Z.eqb_neq _ 0)); [done|]. cbn. lia. }
  destruct (Z.leb_spec (r_used r + need) (r_len r)) as [Hfit|Hfit].
  { exists [], r, rs. change (span []) with 0. split_and!; try done. lia. }
  specialize (IH _ _ Hch ltac:(lia)).
  destruct (slot_loop fuel buf need _) as [[[o rl] used]|].
  - destruct IH as (pre & r' & post & -> & -> & ? & ? & ?). exists (r :: pre), r', post.
    change (span (r :: pre)) with (r_len r + span pre). split_and!; try done. lia.
  - constructor; [|done]. unfold fits. lia.
Qed.

Lemma has_entry_spec fuel buf off rs :
  chain buf off rs DIR_END -> (length rs < fuel)%nat ->
  has_entry_loop fuel buf off = true <-> Exists (fun r => r_name r <> []) rs.
Proof.
  revert off rs. induction fuel as [|fuel IH]; intros off rs Hch Hf; [lia|]. cbn [has_entry_loop].
  destruct rs as [|r rs]; cbn [chain length] in *.
  { rewrite Hch, (proj2 (Z.ltb_lt _ _)) by (unfold MFS_DIR_ENT_HDR; lia). by rewrite Exists_nil. }
  destruct Hch as [Hr Hch]. pose proof (at_min _ _ _ Hr) as Hm. unfold MFS_DIR_ENT_MIN in Hm.
  destruct (chain_span _ _ _ _ Hch) as [He Hs].
  rewrite (proj2 (Z.ltb_ge _ _)) by (unfold MFS_DIR_ENT_HDR; lia).
  rewrite (at_name_len _ _ _ Hr), Exists_cons, (step_spec _ _ _ Hr) by lia.
  rewrite <- (IH _ _ Hch) by lia.
  destruct (r_name r) as [|c l]; [cbn; naive_solver|].
  rewrite (proj2 (Z.eqb_neq _ 0)) by (cbn; lia). cbn. split; [|done]. intros _. by left.
Qed.

Lemma prev_spec fuel buf off0 pre r post prev :
  chain buf off0 (pre ++ r :: post) DIR_END -> (length pre < fuel)%nat ->
  prev_loop fuel buf (off0 + span pre) prev off0
  = Some match last pre with
         | Some l => Some (off0 + span pre - r_len l)
         | None => prev
         end.
Proof.
  revert off0 pre prev. induction fuel as [|fuel IH]; intros off0 pre prev Hch Hf; [lia|]. cbn [prev_loop].
  destruct pre as [|x pre].
  { change (span []) with 0. rewrite Z.add_0_r, Z.leb_refl, orb_true_r. done. }
  cbn [app chain length] in *. destruct Hch as [Hx Hch]. destruct (chain_span _ _ _ _ Hch) as [He Hs].
  pose proof (at_min _ _ _ Hx) as Hm. change (span (x :: pre)) with (r_len x + span pre).
  rewrite span_app in He. rewrite length_app in Hs. cbn [length] in Hs. rewrite span_app in Hs.
  destruct (chain_span _ _ _ _ (proj1 (proj1 (chain_app _ _ _ _ _) Hch))) as [_ Hp].
  rewrite (proj2 (Z.ltb_ge DIR_END _)) by (unfold MFS_DIR_ENT_HDR, MFS_DIR_ENT_MIN in *; lia).
  rewrite (proj2 (Z.leb_gt _ _)) by (unfold MFS_DIR_ENT_MIN in *; lia). cbn [orb].
  rewrite (at_len _ _ _ Hx).
  rewrite (proj2 (Z.ltb_ge (r_len x) _)), (proj2 (Z.ltb_ge DIR_END _)) by lia. cbn [orb].
  replace (off0 + (r_len x + span pre)) with (off0 + r_len x + span pre) by lia.
  rewrite (IH _ _ _ Hch) by lia. rewrite last_cons. destruct (last pre) as [l|] eqn:El; [done|].
  apply last_None in El as ->. change (span []) with 0. do 2 f_equal. lia.
Qed.

(** ** Writing records *)

Lemma clear_out buf off len a : a < off \/ off + 8 <= a -> mfs_ent_clear buf off len a = buf a.
Proof.
  intros H. unfold mfs_ent_clear. rewrite write_u16_out, !write_byte_ne, write_u32_out by lia. done.
Qed.

Lemma clear_at buf off len :
  MFS_DIR_ENT_MIN <= len < 2^16 -> rec_at (mfs_ent_clear buf off len) off (mk_rec len [] 0 0).
Proof.
  intros Hl. split; cbn; try done; [| |lia|].
  - unfold mfs_ent_rec_len, mfs_ent_clear. unfold w16. unfold MFS_DIR_ENT_MIN in Hl.
    rewrite read_write_u16, Z.mod_small by (rewrite ?Z.mod_small; lia). done.
  - unfold mfs_ent_name_len, mfs_ent_clear. rewrite write_u16_out by lia. apply write_byte_eq.
  - unfold r_used. cbn. unfold MFS_DIR_ENT_MIN in Hl. lia.
Qed.

Lemma fill_out buf off comp child typ len a :
  a < off \/ off + 8 + Z.of_nat (length comp) <= a -> mfs_ent_fill buf off comp child typ len a = buf a.
Proof.
  intros H. unfold mfs_ent_fill, MFS_DIR_ENT_HDR.
  rewrite copy_to_out, write_u16_out, !write_byte_ne, write_u32_out by lia. done.
Qed.

Lemma fill_at buf off comp child typ len :
  comp <> [] -> Z.of_nat (length comp) <= MFS_NAME_MAX -> 0 <= child < 2^32 -> is_byte typ ->
  mfs_ent_need (Z.of_nat (length comp)) <= len < 2^16 ->
  rec_at (mfs_ent_fill buf off comp child typ len) off (mk_rec len comp child typ).
Proof.
  intros Hc Hn Hch Ht Hl. unfold MFS_NAME_MAX, is_byte in *.
  pose proof (need_spec (Z.of_nat (length comp)) ltac:(lia)) as [Hneed Hmin].
  assert (1 <= Z.of_nat (length comp)) as H1 by (destruct comp; [done|cbn; lia]).
  unfold mfs_ent_fill, MFS_DIR_ENT_HDR. set (b1 := write_u32 off child buf).
  set (b2 := write_byte (off + 5) _ _). set (b3 := write_u16 (off + 6) _ b2).
  assert (agree off (off + 8) (copy_to (off + 8) comp b3) b3) as Hag
    by (intros a Ha; apply copy_to_out; lia).
  split; cbn [r_len r_name r_ino r_typ].
  - unfold mfs_ent_rec_len. rewrite (read_u16_ext _ _ b3) by (eapply agree_sub; [exact Hag|lia..]).
    unfold b3, w16. rewrite read_write_u16, Z.mod_small by (rewrite ?Z.mod_small; lia). done.
  - unfold mfs_ent_name_len. rewrite Hag by lia. unfold b3. rewrite write_u16_out by lia.
    unfold b2. rewrite write_byte_eq. unfold w8. apply Z.mod_small. lia.
  - unfold MFS_DIR_ENT_MIN. lia.
  - unfold r_used. cbn. destruct comp; [done|]. lia.
  - intros _. split; [|split].
    + unfold mfs_ent_ino. rewrite (read_u32_ext _ _ b1); [by apply read_write_u32|].
      intros a Ha. rewrite Hag by lia. unfold b3, b2. rewrite write_u16_out, !write_byte_ne by lia. done.
    + unfold mfs_ent_type. rewrite Hag by lia. unfold b3, b2.
      rewrite write_u16_out, write_byte_ne, write_byte_eq by lia. unfold w8. apply Z.mod_small. lia.
    + apply slice_copy.
Qed.

(** Changing the length of a record in place. *)
Lemma resize_at buf off r len :
  rec_at buf off r -> r_used r <= len -> MFS_DIR_ENT_MIN <= len < 2^16 ->
  rec_at (write_u16 (off + 6) (w16 len) buf) off (mk_rec len (r_name r) (r_ino r) (r_typ r)).
Proof.
  intros [Hl Hn Hm Hu He] Hu' Hlen. split; cbn [r_len r_name r_ino r_typ].
  - unfold mfs_ent_rec_len, w16, MFS_DIR_ENT_MIN in *.
    rewrite read_write_u16, Z.mod_small by (rewrite ?Z.mod_small; lia). done.
  - unfold mfs_ent_name_len in *. by rewrite write_u16_out by lia.
  - lia.
  - exact Hu'.
  - intros Hne. destruct (He Hne) as (H1 & H2 & H3). split; [|split].
    + unfold mfs_ent_ino in *. rewrite (read_u32_ext _ _ buf); [done|].
      intros a Ha. apply write_u16_out. lia.
    + unfold mfs_ent_type in *. by rewrite write_u16_out by lia.
    + rewrite <- H3 at 2. apply slice_at_ext. intros a Ha. unfold MFS_DIR_ENT_HDR in Ha.
      apply write_u16_out. lia.
Qed.

(** What a record becomes when an entry is put into its spare room. *)
Definition placed (r : rec) (comp : list Z) (child typ : Z) : list rec :=
  let need := mfs_ent_need (Z.of_nat (length comp)) in
  let avail := r_len r - r_used r in
  let take := if MFS_DIR_ENT_MIN <=? avail - need then need else avail in
  (if 0 <? r_used r then [mk_rec (r_used r) (r_name r) (r_ino r) (r_typ r)] else [])
  ++ [mk_rec take comp child typ]
  ++ (if take <? avail then [mk_rec (avail - take) [] 0 0] else []).

Lemma place_spec buf off r comp child typ :
  rec_at buf off r -> r_len r < 2^16 -> comp <> [] -> Z.of_nat (length comp) <= MFS_NAME_MAX ->
  0 <= child < 2^32 -> is_byte typ -> fits (mfs_ent_need (Z.of_nat (length comp))) r ->
  let buf' := mfs_ent_place buf off (r_len r) (r_used r) comp child typ in
  chain buf' off (placed r comp child typ) (off + r_len r)
  /\ (forall a, a < off \/ off + r_len r <= a -> buf' a = buf a).
Proof.
  intros Hr Hlen Hc Hn Hch Ht Hfit buf'. unfold fits in Hfit. unfold buf', mfs_ent_place, placed.
  set (need := mfs_ent_need _) in *. set (u := r_used r) in *. set (avail := r_len r - u).
  set (take := if MFS_DIR_ENT_MIN <=? avail - need then need else avail).
  pose proof (need_spec (Z.of_nat (length comp)) ltac:(lia)) as [Hneed Hmin]. fold need in Hneed, Hmin.
  assert (1 <= Z.of_nat (length comp)) as H1 by (destruct comp; [done|cbn; lia]).
  pose proof (used_nonneg r) as Hu0. fold u in Hu0. unfold MFS_NAME_MAX, MFS_DIR_ENT_MIN in *.
  assert (need <= take <= avail /\ (take = avail \/ 12 <= avail - take)) as Htk.
  { unfold take. destruct (Z.leb_spec 12 (avail - need)); unfold avail in *; lia. }
  assert (avail = r_len r - u) as Hav by done. clearbody take avail.
  set (b0 := if 0 <? u then write_u16 (off + 6) (w16 u) buf else buf).
  set (b1 := mfs_ent_fill b0 (off + u) comp child typ take).
  set (b2 := if take <? avail then _ else b1).
  assert (forall a, a < off + u \/ off + r_len r <= a -> b2 a = b0 a) as Hout2.
  { intros a Ha. unfold b2. destruct (Z.ltb_spec take avail).
    - rewrite clear_out by lia. apply fill_out. lia.
    - apply fill_out. lia. }
  assert (agree (off + u) (off + u + take) b1 b2) as Hag12.
  { intros a Ha. unfold b2. destruct (Z.ltb_spec take avail); [|done]. by rewrite clear_out by lia. }
  assert (rec_at b2 (off + u) (mk_rec take comp child typ)) as Hnew.
  { eapply rec_at_frame; [exact Hag12|]. apply fill_at; try done. fold need. lia. }
  split.
  - apply chain_app. destruct (Z.ltb_spec 0 u) as [Hu|Hu].
    + assert (12 <= u) as Hu12.
      { unfold u. apply used_bound_name. intros E. unfold u, r_used in Hu. rewrite E in Hu. lia. }
      change (span [mk_rec u (r_name r) (r_ino r) (r_typ r)]) with (u + 0). rewrite Z.add_0_r. split.
      * cbn. split; [|lia]. eapply (rec_at_frame b0); [intros a Ha; symmetry; apply Hout2; cbn in Ha; lia|].
        unfold b0.
        apply resize_at; [done|fold u; lia|]. unfold MFS_DIR_ENT_MIN. lia.
      * cbn [app chain r_len]. split; [done|]. unfold b2. destruct (Z.ltb_spec take avail); cbn [chain r_len].
        -- split; [|lia]. apply clear_at. unfold MFS_DIR_ENT_MIN. lia.
        -- lia.
    + assert (u = 0) as Hz by lia. change (span []) with 0. rewrite Z.add_0_r. split; [done|].
      rewrite Hz, Z.add_0_r in Hnew. cbn [app chain r_len]. split; [done|].
      unfold b2. rewrite Hz, Z.add_0_r. destruct (Z.ltb_spec take avail); cbn [chain r_len]; [|lia].
      split; [|lia]. apply clear_at. unfold MFS_DIR_ENT_MIN. lia.
  - intros a Ha. rewrite Hout2 by lia. unfold b0. destruct (Z.ltb_spec 0 u); [|done].
    apply write_u16_out. assert (12 <= r_len r) by (by apply (at_min _ _ _ Hr)). lia.
Qed.

(** ** The block as a finite map *)

Definition bind_rec (r : rec) : option (list Z * (Z * Z)) :=
  match r_name r with [] => None | n => Some (n, (r_ino r, r_typ r)) end.

Definition dir_rep (buf : mem) (M : gmap (list Z) (Z * Z)) : Prop :=
  exists rs, chain buf DIR_BASE rs DIR_END /\ distinct bind_rec rs /\ slot_map bind_rec rs = M.

Lemma bindings_app rs1 rs2 : bindings bind_rec (rs1 ++ rs2) = bindings bind_rec rs1 ++ bindings bind_rec rs2.
Proof. apply omap_app. Qed.

Lemma bind_rec_Some r n v : bind_rec r = Some (n, v) <-> r_name r = n /\ n <> [] /\ v = (r_ino r, r_typ r).
Proof. unfold bind_rec. destruct (r_name r); naive_solver. Qed.

Lemma chain_turns buf rs : chain buf DIR_BASE rs DIR_END -> (length rs < DIR_TURNS)%nat.
Proof.
  intros H. destruct (chain_span _ _ _ _ H) as [He Hs].
  change DIR_END with 4096 in He. change DIR_BASE with 56 in He. change DIR_TURNS with 337%nat. lia.
Qed.

Lemma chain_len_bound buf off rs r : chain buf off rs DIR_END -> 0 <= off -> r ∈ rs -> off + r_len r <= DIR_END.
Proof.
  revert off. induction rs as [|x rs IH]; intros off Hch H0 Hin; [by apply elem_of_nil in Hin|].
  destruct Hch as [Hx Hch]. destruct (chain_span _ _ _ _ Hch) as [He Hs].
  pose proof (at_min _ _ _ Hx). unfold MFS_DIR_ENT_MIN in *.
  apply elem_of_cons in Hin as [->|Hin]; [lia|]. specialize (IH _ Hch ltac:(lia) Hin). lia.
Qed.

(** Lists with the same entries give the same map. *)
Lemma slot_map_perm rs rs' b :
  distinct bind_rec rs -> bindings bind_rec rs' ≡ₚ b :: bindings bind_rec rs ->
  slot_map bind_rec rs !! b.1 = None ->
  distinct bind_rec rs' /\ slot_map bind_rec rs' = <[b.1 := b.2]> (slot_map bind_rec rs).
Proof.
  intros Hd Hp Hn. unfold distinct, slot_map in *.
  assert (NoDup (b :: bindings bind_rec rs).*1) as Hd'.
  { rewrite fmap_cons. apply NoDup_cons. split; [|done]. by apply not_elem_of_list_to_map. }
  assert (NoDup (bindings bind_rec rs').*1) as Hd2 by (by rewrite Hp).
  split; [done|]. rewrite (list_to_map_proper _ _ Hd2 Hp).
  destruct b as [k v]. apply list_to_map_cons.
Qed.

Lemma slot_map_remove rs rs' k v :
  distinct bind_rec rs -> bindings bind_rec rs ≡ₚ (k, v) :: bindings bind_rec rs' ->
  distinct bind_rec rs' /\ slot_map bind_rec rs' = delete k (slot_map bind_rec rs).
Proof.
  intros Hd Hp. unfold distinct, slot_map in *. rewrite (list_to_map_proper _ _ Hd Hp).
  rewrite Hp, fmap_cons in Hd. apply NoDup_cons in Hd as [Hn Hd]. split; [done|].
  rewrite list_to_map_cons, delete_insert_id; [done|]. by apply not_elem_of_list_to_map.
Qed.

Lemma placed_bindings r comp child typ :
  comp <> [] -> bindings bind_rec (placed r comp child typ) = bindings bind_rec [r] ++ [(comp, (child, typ))].
Proof.
  intros Hc. unfold placed. rewrite !bindings_app. f_equal.
  - destruct (decide (r_name r = [])) as [E|E].
    + unfold r_used. rewrite E. cbn. unfold bindings. cbn. unfold bind_rec. by rewrite E.
    + pose proof (used_bound_name r E) as (_ & H12 & _). rewrite (proj2 (Z.ltb_lt _ _)) by lia. done.
  - set (take := if _ <=? _ then _ else _). clearbody take. unfold bindings at 1. cbn.
    unfold bind_rec at 1. cbn. destruct comp; [done|]. cbn. f_equal. by destruct (take <? _).
Qed.

Lemma chain_at buf off pre r post e : chain buf off (pre ++ r :: post) e -> rec_at buf (off + span pre) r.
Proof. intros H. apply chain_app in H as [_ [H _]]. done. Qed.

Lemma insert_rep buf M comp child typ buf' :
  dir_rep buf M -> M !! comp = None -> 0 <= child < 2^32 -> is_byte typ ->
  dir_insert buf comp child typ = Some buf' ->
  dir_rep buf' (<[comp := (child, typ)]> M) /\ agree 0 DIR_BASE buf buf'.
Proof.
  intros (rs & Hch & Hd & <-) Hn Hc Ht. unfold dir_insert.
  destruct ((length comp =? 0)%nat || (MFS_NAME_MAX <? Z.of_nat (length comp))) eqn:Eg; [done|].
  apply orb_false_elim in Eg as [Eg1 Eg2]. apply Nat.eqb_neq in Eg1. apply Z.ltb_ge in Eg2.
  assert (comp <> []) as Hcomp by (by destruct comp).
  pose proof (slot_spec DIR_TURNS buf (mfs_ent_need (Z.of_nat (length comp))) DIR_BASE rs Hch (chain_turns _ _ Hch)) as Hs.
  unfold mfs_dir_slot. destruct (slot_loop _ _ _ _) as [[[o rl] used]|]; [|done]. intros [= <-].
  destruct Hs as (pre & r & post & -> & -> & -> & -> & Hfit).
  pose proof (chain_at _ _ _ _ _ _ Hch) as Hr.
  assert (DIR_BASE + r_len r <= DIR_END) as Hlen by (eapply chain_len_bound; [done|done|set_solver]).
  change DIR_BASE with 56 in Hlen. change DIR_END with 4096 in Hlen.
  destruct (place_spec buf _ r comp child typ Hr ltac:(lia) Hcomp Eg2 Hc Ht Hfit) as [Hnew Hout].
  destruct (chain_span _ _ _ _ (proj1 (proj1 (chain_app _ _ _ _ _) Hch))) as [_ Hpre].
  set (buf' := mfs_ent_place _ _ _ _ _ _ _) in *. split.
  - exists (pre ++ placed r comp child typ ++ post). split.
    + eapply chain_replace; [exact Hch| | |exact Hnew]; intros a Ha; symmetry; apply Hout; lia.
    + apply (slot_map_perm (pre ++ r :: post) _ (comp, (child, typ))); [done| |done].
      rewrite !bindings_app, placed_bindings by done.
      change (r :: post) with ([r] ++ post). rewrite bindings_app. solve_Permutation.
  - intros a Ha. symmetry. apply Hout. lia.
Qed.

Lemma delete_chain buf pre r post :
  chain buf DIR_BASE (pre ++ r :: post) DIR_END ->
  exists buf' rs',
    dir_delete buf (DIR_BASE + span pre) = Some buf' /\ chain buf' DIR_BASE rs' DIR_END
    /\ bindings bind_rec (pre ++ r :: post) ≡ₚ option_list (bind_rec r) ++ bindings bind_rec rs'
    /\ Exists (fits (r_len r)) rs' /\ agree 0 DIR_BASE buf buf'.
Proof.
  intros Hch. pose proof (chain_at _ _ _ _ _ _ Hch) as Hr. pose proof (chain_turns _ _ Hch) as Hf.
  rewrite length_app in Hf.
  assert (DIR_BASE + r_len r <= DIR_END) as Hlen by (eapply chain_len_bound; [done|done|set_solver]).
  pose proof (at_min _ _ _ Hr) as Hmin. unfold MFS_DIR_ENT_MIN in Hmin.
  unfold dir_delete. rewrite (at_len _ _ _ Hr), (prev_spec _ _ _ _ _ _ _ Hch) by lia.
  destruct (last pre) as [l|] eqn:El.
  - apply last_Some in El as [pre0 ->]. rewrite <- app_assoc in Hch. cbn [app] in Hch.
    rewrite span_app. change (span [l]) with (r_len l + 0).
    replace (DIR_BASE + (span pre0 + (r_len l + 0)) - r_len l) with (DIR_BASE + span pre0) by lia.
    pose proof (chain_at _ _ _ _ _ _ Hch) as Hl. rewrite (at_len _ _ _ Hl).
    pose proof (at_min _ _ _ Hl) as Hminl. pose proof (at_used _ _ _ Hl) as Hul. unfold MFS_DIR_ENT_MIN in Hminl.
    set (p := DIR_BASE + span pre0). set (len := r_len l + r_len r).
    set (buf' := write_u16 (p + 6) (w16 len) buf).
    set (big := mk_rec len (r_name l) (r_ino l) (r_typ l)).
    destruct (chain_span _ _ _ _ Hch) as [He _]. rewrite span_app in He.
    change (span (l :: r :: post)) with (r_len l + (r_len r + span post)) in He.
    apply chain_app in Hch as [Hpre [_ [_ Hpost]]].
    destruct (chain_span _ _ _ _ Hpre) as [_ Hp0]. destruct (chain_span _ _ _ _ Hpost) as [_ Hp1].
    exists buf', (pre0 ++ big :: post). split; [done|]. split; [|split; [|split]].
    + apply chain_app. split.
      * eapply chain_frame; [|exact Hpre]. intros a Ha. symmetry. apply write_u16_out. unfold p. lia.
      * split.
        -- unfold big. apply resize_at; [done|unfold len; lia|]. unfold len, MFS_DIR_ENT_MIN.
           change DIR_BASE with 56 in He. change DIR_END with 4096 in He. lia.
        -- cbn [r_len big]. unfold len. rewrite Z.add_assoc. eapply chain_frame; [|exact Hpost].
           intros a Ha. symmetry. apply write_u16_out. unfold p. lia.
    + rewrite <- app_assoc. cbn [app]. rewrite !bindings_app. unfold bindings. cbn [omap list_omap].
      change (bind_rec big) with (bind_rec l).
      destruct (bind_rec l), (bind_rec r); cbn; solve_Permutation.
    + apply Exists_app. right. apply Exists_cons. left. unfold fits, big.
      change (r_used l + r_len r <= len). unfold len. lia.
    + intros a Ha. symmetry. apply write_u16_out. unfold p. lia.
  - apply last_None in El as ->. change (span []) with 0. rewrite Z.add_0_r. cbn [app] in *.
    destruct Hch as [_ Hpost]. change DIR_BASE with 56 in *. change DIR_END with 4096 in *.
    exists (mfs_ent_clear buf 56 (r_len r)), (mk_rec (r_len r) [] 0 0 :: post). split; [done|].
    split; [|split; [|split]].
    + split; [apply clear_at; unfold MFS_DIR_ENT_MIN; lia|].
      eapply chain_frame; [|exact Hpost]. intros a Ha. cbn [r_len] in Ha. symmetry. apply clear_out. lia.
    + unfold bindings. cbn. by destruct (bind_rec r).
    + apply Exists_cons. left. unfold fits. cbn. change (r_used _) with 0. lia.
    + intros a Ha. symmetry. apply clear_out. lia.
Qed.

Lemma fits_insert buf rs comp child typ :
  chain buf DIR_BASE rs DIR_END -> comp <> [] -> Z.of_nat (length comp) <= MFS_NAME_MAX ->
  Exists (fits (mfs_ent_need (Z.of_nat (length comp)))) rs ->
  exists buf', dir_insert buf comp child typ = Some buf'.
Proof.
  intros Hch Hc Hn Hex. unfold dir_insert, mfs_dir_slot.
  assert ((length comp =? 0)%nat = false) as -> by (by destruct comp).
  rewrite (proj2 (Z.ltb_ge _ _)) by done. cbn [orb].
  pose proof (slot_spec DIR_TURNS buf (mfs_ent_need (Z.of_nat (length comp))) DIR_BASE rs Hch (chain_turns _ _ Hch)) as Hs.
  destruct (slot_loop _ _ _ _) as [[[o rl] used]|]; [eauto|].
  apply Exists_exists in Hex as (r & Hin & Hf). eapply Forall_forall in Hs; [|exact Hin]. done.
Qed.

Lemma scan_rep buf M comp :
  dir_rep buf M -> comp <> [] ->
  match mfs_dir_scan buf comp with
  | Some off => M !! comp = Some (mfs_ent_ino buf off, mfs_ent_type buf off)
  | None => M !! comp = None
  end.
Proof.
  intros (rs & Hch & Hd & <-) Hc. pose proof (scan_spec _ _ _ _ _ Hch Hc (chain_turns _ _ Hch)) as Hs.
  unfold mfs_dir_scan. destruct (scan_loop _ _ _ _) as [off|].
  - destruct Hs as (pre & r & post & -> & -> & Hn). pose proof (chain_at _ _ _ _ _ _ Hch) as Hr.
    destruct (at_entry _ _ _ Hr) as (-> & -> & _); [congruence|].
    apply (slot_map_slot bind_rec _ (length pre) r); [done| |by apply bind_rec_Some].
    by rewrite list_lookup_middle.
  - apply slot_map_None. intros i r v Hi Hb. apply bind_rec_Some in Hb as (Hn & _ & _).
    by eapply Forall_lookup_1 in Hs.
Qed.

Lemma has_entry_rep buf M : dir_rep buf M -> mfs_dir_has_entry buf = true <-> M <> ∅.
Proof.
  intros (rs & Hch & Hd & <-). unfold mfs_dir_has_entry.
  rewrite (has_entry_spec _ _ _ _ Hch (chain_turns _ _ Hch)), Exists_exists. split.
  - intros (r & Hin & Hn) E. apply list_elem_of_lookup_1 in Hin as [i Hi].
    assert (slot_map bind_rec rs !! r_name r = Some (r_ino r, r_typ r)) as H.
    { apply (slot_map_slot bind_rec _ i r); [done|done|]. by apply bind_rec_Some. }
    by rewrite E, lookup_empty in H.
  - intros Hne. apply map_choose in Hne as (k & v & Hk). apply slot_map_inv in Hk as (i & r & Hi & Hb).
    apply bind_rec_Some in Hb as (Hk2 & Hn & _). exists r. split; [by eapply list_elem_of_lookup_2|congruence].
Qed.

Lemma delete_rep buf M comp off :
  dir_rep buf M -> comp <> [] -> mfs_dir_scan buf comp = Some off ->
  exists buf', dir_delete buf off = Some buf' /\ dir_rep buf' (delete comp M) /\ agree 0 DIR_BASE buf buf'
    /\ forall comp' child typ, comp' <> [] -> (length comp' <= length comp)%nat ->
         Z.of_nat (length comp') <= MFS_NAME_MAX -> exists buf2, dir_insert buf' comp' child typ = Some buf2.
Proof.
  intros (rs & Hch & Hd & <-) Hc Hs. pose proof (scan_spec _ _ _ _ _ Hch Hc (chain_turns _ _ Hch)) as Hsc.
  unfold mfs_dir_scan in Hs. rewrite Hs in Hsc. destruct Hsc as (pre & r & post & -> & -> & Hn).
  destruct (delete_chain _ _ _ _ Hch) as (buf' & rs' & Hdel & Hch' & Hperm & Hfit & Hag).
  exists buf'. split; [done|]. split; [|split; [done|]].
  - exists rs'. split; [done|]. apply (slot_map_remove _ _ _ (r_ino r, r_typ r)); [done|]. rewrite Hperm.
    rewrite (proj2 (bind_rec_Some r comp (r_ino r, r_typ r))) by done. done.
  - intros comp' child typ Hc' Hl Hmax. apply (fits_insert _ rs'); try done.
    eapply Exists_impl; [exact Hfit|]. intros x Hx. unfold fits in *.
    pose proof (used_bound_name r ltac:(congruence)) as (Hu & _ & _).
    pose proof (at_used _ _ _ (chain_at _ _ _ _ _ _ Hch)). rewrite Hn in Hu.
    pose proof (need_mono (Z.of_nat (length comp')) (Z.of_nat (length comp)) ltac:(lia)). lia.
Qed.

(** ** Claims *)

(** C26. A directory block is a finite map from names to inode number and type. A fresh block is
    the empty map and has room for any legal name. Scanning for a name finds the record that
    holds its binding exactly when the map has one. An insertion that succeeds adds the binding
    and changes neither the others nor the block's header; a deletion of a scanned name always
    succeeds, removes that binding only, and leaves room for any name no longer than the deleted
    one. A block reports an entry exactly when the map is not empty. All loops end within the
    number of records a block can hold. *)
Theorem dir_block_refines_map :
  (forall buf, dir_rep (mfs_dir_init_empty buf) ∅)
  /\ (forall buf M, dir_rep buf M ->
       (forall comp, comp <> [] ->
          match mfs_dir_scan buf comp with
          | Some off => M !! comp = Some (mfs_ent_ino buf off, mfs_ent_type buf off)
          | None => M !! comp = None
          end)
       /\ (mfs_dir_has_entry buf = true <-> M <> ∅)
       /\ (forall comp child typ buf', M !! comp = None -> 0 <= child < 2^32 -> is_byte typ ->
             dir_insert buf comp child typ = Some buf' ->
             dir_rep buf' (<[comp := (child, typ)]> M) /\ agree 0 DIR_BASE buf buf')
       /\ (forall comp off, comp <> [] -> mfs_dir_scan buf comp = Some off ->
             exists buf', dir_delete buf off = Some buf' /\ dir_rep buf' (delete comp M)
               /\ agree 0 DIR_BASE buf buf'
               /\ forall comp' child typ, comp' <> [] -> (length comp' <= length comp)%nat ->
                    Z.of_nat (length comp') <= MFS_NAME_MAX ->
                    exists buf2, dir_insert buf' comp' child typ = Some buf2))
  /\ (forall buf comp child typ, comp <> [] -> Z.of_nat (length comp) <= MFS_NAME_MAX ->
       exists buf', dir_insert (mfs_dir_init_empty buf) comp child typ = Some buf').
Proof.
  assert (forall buf, chain (mfs_dir_init_empty buf) DIR_BASE [mk_rec MFS_DIR_AREA [] 0 0] DIR_END) as Hempty.
  { intros buf. split; [|done]. unfold mfs_dir_init_empty. apply clear_at. done. }
  split; [|split].
  - intros buf. exists [mk_rec MFS_DIR_AREA [] 0 0]. split; [apply Hempty|]. split; [constructor|done].
  - intros buf M HM. split; [intros comp Hc; by apply scan_rep|]. split; [by apply has_entry_rep|].
    split; [|intros comp off Hc Hs; by apply (delete_rep buf M)].
    intros comp child typ buf' Hn Hc Ht Hi. by apply (insert_rep buf M).
  - intros buf comp child typ Hc Hmax. eapply fits_insert; [apply Hempty|done|done|].
    apply Exists_cons. left. unfold fits. cbn. change (r_used _) with 0.
    pose proof (need_spec (Z.of_nat (length comp)) ltac:(lia)) as [? _]. change MFS_DIR_AREA with 4040.
    unfold MFS_NAME_MAX in Hmax. lia.
Qed.

Lemma dir_block_refines_map_witness :
  exists buf', dir_insert (mfs_dir_init_empty (fun _ => 0)) [97] 5 1 = Some buf'
    /\ dir_rep buf' {[ [97] := (5, 1) ]} /\ mfs_dir_scan buf' [97] = Some 56.
Proof.
  destruct dir_block_refines_map as (H0 & H1 & _).
  eexists. split; [reflexivity|]. split; [|vm_compute; reflexivity].
  destruct (H1 _ _ (H0 (fun _ => 0))) as (_ & _ & Hi & _).
  destruct (Hi [97] 5 1 _ eq_refl ltac:(lia) ltac:(done) eq_refl) as [H _]. exact H.
Defined.
