(* ===== verification/MfsGc.v ===== *)
(** * MfsGc: space reclamation of MorionFS (src/user/srv/src/mfs_srv.rs)

    Copy on write leaves old versions of blocks behind. Reclamation marks every block that can be
    reached from the root directory, through the current inode table and through the table of
    every snapshot, and then frees the others. This file holds the marking traversal (an explicit
    stack, one visit set per root), the sweep, and the proof that what remains in use is exactly
    what is reachable. *)

From S2P Require Import Prelude Bytes MfsBlock MfsItab MfsDir.

Definition MFS_MAGIC_DIR : Z := 0x4D464449.
Definition MFS_MAGIC_DIDX : Z := 0x4D465849.
Definition MFS_MAGIC_FILE : Z := 0x4D46464C.
Definition MFS_MAGIC_LINK : Z := 0x4D46534C.
Definition MFS_MAGIC_IND : Z := 0x4D46494E.
Definition MFS_MAGIC_IND2 : Z := 0x4D464932.
Definition MFS_MAGIC_IND3 : Z := 0x4D464933.
Definition MFS_FILE_DIRECT : Z := 1005.
Definition MFS_FILE_DIRECT_OFF : Z := MFS_HDR + 16.
Definition MFS_FILE_IND1_OFF : Z := MFS_FILE_DIRECT_OFF + MFS_FILE_DIRECT * 4.
Definition MFS_FILE_IND2_OFF : Z := MFS_FILE_IND1_OFF + 4.
Definition MFS_FILE_IND3_OFF : Z := MFS_FILE_IND2_OFF + 4.
Definition MFS_IND_CAP : Z := MFS_PAYLOAD / 4.
Definition MFS_DIR_SLOTS : Z := MFS_PAYLOAD / 4.
Definition MFS_GC_STACK_MAX : nat := 4096.
Definition MFS_GC_LOW_WATER_DIV : Z := 16.

Definition mfs_file_direct (buf : mem) (i : Z) : Z := read_u32 buf (MFS_FILE_DIRECT_OFF + i * 4).
Definition mfs_file_ind1 (buf : mem) : Z := read_u32 buf MFS_FILE_IND1_OFF.
Definition mfs_file_ind2 (buf : mem) : Z := read_u32 buf MFS_FILE_IND2_OFF.
Definition mfs_file_ind3 (buf : mem) : Z := read_u32 buf MFS_FILE_IND3_OFF.
Definition mfs_ind_slot (buf : mem) (slot : Z) : Z := read_u32 buf (MFS_HDR + slot * 4).

(** ** Marking *)

Definition mfs_mark_set (b total : Z) (mark : mem) : mem := if total <=? b then mark else bit_set mark b.
Definition mfs_mark_get (b total : Z) (mark : mem) : bool := if total <=? b then false else bit_get mark b.
Definition mfs_seen_get (b total : Z) (seen : mem) : bool := if total <=? b then false else bit_get seen b.
Definition mfs_seen_set (b total : Z) (seen : mem) : mem := if b <? total then bit_set seen b else seen.

(** The windows of the traversal, its stack (top first), the index block of the root being
    traversed, and the device behind it. *)
Record gc (D : Type) : Type := mk_gc {
  g_mark : mem;
  g_seen : mem;
  g_stack : list Z;
  g_x : mem;
  g_io : mfs_io D
}.
Arguments mk_gc {D}.
Arguments g_mark {D}.
Arguments g_seen {D}.
Arguments g_stack {D}.
Arguments g_x {D}.
Arguments g_io {D}.

Section mark.
Context {D : Type} `{!MfsDevice D}.
Implicit Types g : gc D.

Definition with_mark g (mark : mem) : gc D := mk_gc mark (g_seen g) (g_stack g) (g_x g) (g_io g).
Definition with_io g (s : mfs_io D) : gc D := mk_gc (g_mark g) (g_seen g) (g_stack g) (g_x g) s.

Definition mfs_gc_push (b total : Z) g : bool * gc D :=
  if (b =? 0) || (total <=? b) || mfs_seen_get b total (g_seen g) then (true, g)
  else if (MFS_GC_STACK_MAX <=? length (g_stack g))%nat then (false, g)
  else (true, mk_gc (mfs_mark_set b total (g_mark g)) (mfs_seen_set b total (g_seen g))
                (b :: g_stack g) (g_x g) (g_io g)).

(** [for .. { if !mfs_gc_push(..) { return false; } }] *)
Fixpoint push_all (l : list Z) (total : Z) g : bool * gc D :=
  match l with
  | [] => (true, g)
  | b :: l' => let '(ok, g) := mfs_gc_push b total g in if ok : bool then push_all l' total g else (false, g)
  end.

(** [for .. { if c != 0 { mfs_mark_set(c, total); } }] *)
Definition mark_all (l : list Z) (total : Z) (mark : mem) : mem :=
  foldl (fun mark c => if c =? 0 then mark else mfs_mark_set c total mark) mark l.

(** The table blocks of an index block: marked, up to one that is out of range. *)
Fixpoint mark_tables (l : list Z) (total : Z) (mark : mem) : bool * mem :=
  match l with
  | [] => (true, mark)
  | t :: l' =>
      if t =? 0 then mark_tables l' total mark
      else if total <=? t then (false, mark)
      else mark_tables l' total (mfs_mark_set t total mark)
  end.

Definition mfs_gc_load_itab (itab total : Z) g : bool * gc D :=
  if (itab =? 0) || (total <=? itab) then (false, g)
  else
    let g := with_mark g (mfs_mark_set itab total (g_mark g)) in
    let '(ok, x, s) := mfs_read_blk itab scratch (g_io g) in
    let g := mk_gc (g_mark g) (g_seen g) (g_stack g) x s in
    if negb ok || negb (mfs_ok x MFS_MAGIC_ITABX) then (false, g)
    else let '(ok, mark) := mark_tables (index_slots x) total (g_mark g) in (ok, with_mark g mark).

Definition mfs_gc_ino_block (ino : Z) g : option Z * gc D :=
  if (ino =? 0) || (MFS_INO_MAX <=? ino) then (None, g)
  else
    let '(k, j) := mfs_ino_slot ino in
    let t := read_u32 (g_x g) (MFS_HDR + k * 4) in
    if t =? 0 then (Some 0, g)
    else
      let '(ok, tb, s) := mfs_read_blk t scratch (g_io g) in
      let g := with_io g s in
      if negb ok || negb (mfs_ok tb MFS_MAGIC_ITAB) then (None, g)
      else (Some (read_u32 tb (MFS_HDR + j * 4)), g).

(** The entries of a directory block. *)
Fixpoint gc_dir_loop (fuel : nat) (gb : mem) (off total : Z) g : bool * gc D :=
  match fuel with
  | O => (false, g)
  | S fuel' =>
      if DIR_END <? off + MFS_DIR_ENT_HDR then (true, g)
      else
        let '(ok, g) :=
          if negb (mfs_ent_name_len gb off =? 0) then
            let '(o, g) := mfs_gc_ino_block (mfs_ent_ino gb off) g in
            match o with Some child => mfs_gc_push child total g | None => (false, g) end
          else (true, g) in
        if negb ok then (false, g)
        else match mfs_ent_step gb off with
             | Some n => gc_dir_loop fuel' gb n total g
             | None => (false, g)
             end
  end.

Definition ind_slots (gb : mem) (n : Z) : list Z := mfs_ind_slot gb <$> seqZ 0 n.

(** What [mfs_gc_drain] does with the block it has read. *)
Definition gc_expand (gb : mem) (total : Z) g : bool * gc D :=
  if mfs_ok gb MFS_MAGIC_DIR then
    let '(ok, g) := gc_dir_loop (S DIR_TURNS) gb DIR_BASE total g in
    if negb ok then (false, g) else mfs_gc_push (mfs_dir_ext gb) total g
  else if mfs_ok gb MFS_MAGIC_DIDX then push_all (ind_slots gb MFS_DIR_SLOTS) total g
  else if mfs_ok gb MFS_MAGIC_FILE then
    let g := with_mark g (mark_all (mfs_file_direct gb <$> seqZ 0 MFS_FILE_DIRECT) total (g_mark g)) in
    push_all [mfs_file_ind1 gb; mfs_file_ind2 gb; mfs_file_ind3 gb] total g
  else if mfs_ok gb MFS_MAGIC_IND then
    (true, with_mark g (mark_all (ind_slots gb MFS_IND_CAP) total (g_mark g)))
  else if mfs_ok gb MFS_MAGIC_IND2 then push_all (ind_slots gb MFS_IND_CAP) total g
  else if mfs_ok gb MFS_MAGIC_IND3 then push_all (ind_slots gb MFS_IND_CAP) total g
  else if mfs_ok gb MFS_MAGIC_LINK then (true, g)
  else (false, g).

(** [while sp > 0]; [None] stands for running out of [fuel]. *)
Fixpoint drain_loop (fuel : nat) (total : Z) g : option (bool * gc D) :=
  match g_stack g with
  | [] => Some (true, g)
  | b :: stack =>
      match fuel with
      | O => None
      | S fuel' =>
          let '(ok, gb, s) := mfs_read_blk b scratch (g_io g) in
          let g := mk_gc (g_mark g) (g_seen g) stack (g_x g) s in
          if negb ok then Some (false, g)
          else
            let '(ok, g) := gc_expand gb total g in
            if negb ok then Some (false, g) else drain_loop fuel' total g
      end
  end.

(** A block is pushed at most once per root, so each turn uses up a block that is on the stack or
    not yet seen. *)
Definition mfs_gc_drain (total : Z) g : bool * gc D :=
  default (false, g) (drain_loop (Z.to_nat total + length (g_stack g)) total g).

(** One root: its index block, then the tree below the root directory. *)
Definition gc_root (itab total : Z) g : bool * gc D :=
  let '(ok, g) := mfs_gc_load_itab itab total g in
  if negb ok then (false, g)
  else
    let g := mk_gc (g_mark g) scratch (g_stack g) (g_x g) (g_io g) in
    let '(o, g) := mfs_gc_ino_block MFS_ROOT_INO g in
    match o with
    | None => (false, g)
    | Some b =>
        if b =? 0 then (false, g)
        else
          let '(ok, g) := mfs_gc_push b total g in
          if negb ok then (false, g) else mfs_gc_drain total g
    end.

Fixpoint gc_roots (l : list Z) (total : Z) g : bool * gc D :=
  match l with
  | [] => (true, g)
  | itab :: l' => let '(ok, g) := gc_root itab total g in if ok : bool then gc_roots l' total g else (false, g)
  end.

(** The current table and those of the snapshots. *)
Definition gc_itabs (sb : mfs_super) : list Z := MFS_ITAB sb :: (snap_itab <$> MFS_SNAPS sb).

(** [stack] is what [MFS_GC_STACK] holds from the traversal before: it is not reset, and a
    traversal that fails leaves blocks on it. Returns the mark window and the stack. *)
Definition mfs_gc_mark (stack : list Z) (m : mfs D) : bool * mem * list Z * mfs_io D :=
  let p := m_space m in
  let total := MFS_TOTAL_BLOCKS p in
  if (total =? 0) || (MFS_MAX_BLOCKS <? total) then (false, scratch, stack, m_io m)
  else
    let mark := foldl (fun mark b => mfs_mark_set b total mark) scratch (seqZ 0 (mfs_data_start p)) in
    let '(ok, g) := gc_roots (gc_itabs (m_super m)) total (mk_gc mark scratch stack scratch (m_io m)) in
    (ok, g_mark g, g_stack g, g_io g).

(** ** Sweeping *)

Definition sweep_step (total : Z) (mark : mem) (acc : Z * mfs_space) (b : Z) : Z * mfs_space :=
  let '(used, p) := acc in
  if mfs_mark_get b total mark then (used + 1, mfs_bmp_set b p) else (used, mfs_bmp_clear b p).

Definition mfs_gc_sweep (mark : mem) (m : mfs D) : Z * mfs D :=
  let total := MFS_TOTAL_BLOCKS (m_space m) in
  let free_before := MFS_FREE_BLOCKS (m_space m) in
  let '(used, p) := foldl (sweep_step total mark) (0, m_space m) (seqZ 0 total) in
  let p := mk_space (MFS_BMP p) (MFS_BMP_DIRTY p) (MFS_TOTAL_BLOCKS p) (w32 (total - used)) (mfs_data_start p) in
  let '(ok, m) := mfs_bmp_flush (mk_mfs (m_io m) p (m_super m) (m_tab m)) in
  if negb ok then (U64_MAX, m) else (saturating_sub (w32 (total - used)) free_before, m).

Definition mfs_gc (stack : list Z) (m : mfs D) : Z * list Z * mfs D :=
  let '(ok, s) := mfs_commit_flush (m_io m) in
  let m := mk_mfs s (m_space m) (m_super m) (m_tab m) in
  if negb ok then (0, stack, m)
  else
    let '(ok, mark, stack, s) := mfs_gc_mark stack m in
    let m := mk_mfs s (m_space m) (m_super m) (m_tab m) in
    if negb ok then (U64_MAX, stack, m)
    else let '(n, m) := mfs_gc_sweep mark m in (n, stack, m).

Definition mfs_maybe_gc (stack : list Z) (m : mfs D) : list Z * mfs D :=
  let total := MFS_TOTAL_BLOCKS (m_space m) in
  if (total =? 0) || (total / MFS_GC_LOW_WATER_DIV <? MFS_FREE_BLOCKS (m_space m)) then (stack, m)
  else let '(_, stack, m) := mfs_gc stack m in (stack, m).

End mark.

(** ** What is reachable *)

(** The block an inode lives in, by the table whose index block is [x]; [V] gives the contents of
    blocks. [None] when the table cannot be trusted. *)
Definition tr_of (V : Z -> list Z) (x : mem) (ino : Z) : option Z :=
  if (ino =? 0) || (MFS_INO_MAX <=? ino) then None
  else
    let '(k, j) := mfs_ino_slot ino in
    let t := read_u32 x (MFS_HDR + k * 4) in
    if t =? 0 then Some 0
    else if mfs_ok (loaded (V t)) MFS_MAGIC_ITAB then Some (read_u32 (loaded (V t)) (MFS_HDR + j * 4))
    else None.

(** The inode numbers in a directory block; [None] when its records do not tile it. *)
Fixpoint dir_inos (fuel : nat) (gb : mem) (off : Z) : option (list Z) :=
  match fuel with
  | O => None
  | S fuel' =>
      if DIR_END <? off + MFS_DIR_ENT_HDR then Some []
      else
        match mfs_ent_step gb off with
        | None => None
        | Some n =>
            rest ← dir_inos fuel' gb n;
            Some (if negb (mfs_ent_name_len gb off =? 0) then mfs_ent_ino gb off :: rest else rest)
        end
  end.

(** The blocks a node refers to: those that are nodes themselves, and plain data. *)
Definition node_edges (V : Z -> list Z) (x : mem) (gb : mem) : option (list Z * list Z) :=
  if mfs_ok gb MFS_MAGIC_DIR then
    inos ← dir_inos (S DIR_TURNS) gb DIR_BASE;
    cs ← mapM (tr_of V x) inos;
    Some (cs ++ [mfs_dir_ext gb], [])
  else if mfs_ok gb MFS_MAGIC_DIDX then Some (ind_slots gb MFS_DIR_SLOTS, [])
  else if mfs_ok gb MFS_MAGIC_FILE then
    Some ([mfs_file_ind1 gb; mfs_file_ind2 gb; mfs_file_ind3 gb], mfs_file_direct gb <$> seqZ 0 MFS_FILE_DIRECT)
  else if mfs_ok gb MFS_MAGIC_IND then Some ([], ind_slots gb MFS_IND_CAP)
  else if mfs_ok gb MFS_MAGIC_IND2 || mfs_ok gb MFS_MAGIC_IND3 then Some (ind_slots gb MFS_IND_CAP, [])
  else if mfs_ok gb MFS_MAGIC_LINK then Some ([], [])
  else None.

Definition edges_of V x (b : Z) : option (list Z * list Z) := node_edges V x (loaded (V b)).

Definition valid (total b : Z) : Prop := 0 < b < total.

(** Nodes that can be reached from [r]. *)
Inductive reach (V : Z -> list Z) (total : Z) (x : mem) (r : Z) : Z -> Prop :=
| reach_root : valid total r -> reach V total x r r
| reach_step b c cs ls :
    reach V total x r b -> edges_of V x b = Some (cs, ls) -> c ∈ cs -> valid total c -> reach V total x r c.

(** The blocks one root keeps alive: its index block, its table blocks, the nodes reached from the
    root directory, and their data blocks. *)
Definition live_root (V : Z -> list Z) (total itab b : Z) : Prop :=
  valid total b /\
  let x := loaded (V itab) in
  (b = itab \/ b ∈ index_slots x
   \/ exists r, tr_of V x MFS_ROOT_INO = Some r /\
        (reach V total x r b
         \/ exists n cs ls, reach V total x r n /\ edges_of V x n = Some (cs, ls) /\ b ∈ ls)).

(** ** Lemmas on the windows *)

Lemma mark_get_set b b' total mark :
  0 <= b -> 0 <= b' ->
  mfs_mark_get b' total (mfs_mark_set b total mark) = (b' =? b) && (b <? total) || mfs_mark_get b' total mark.
Proof.
  intros Hb Hb'. unfold mfs_mark_set, mfs_mark_get. destruct (Z.leb_spec total b).
  - rewrite (proj2 (Z.ltb_ge _ _)), andb_false_r by done. done.
  - rewrite (proj2 (Z.ltb_lt _ _)), andb_true_r, bit_get_set by done.
    destruct (Z.leb_spec total b'); [|done]. destruct (Z.eqb_spec b' b); [lia|done].
Qed.

Lemma seen_get_set b b' total seen :
  0 <= b -> 0 <= b' ->
  mfs_seen_get b' total (mfs_seen_set b total seen) = (b' =? b) && (b <? total) || mfs_seen_get b' total seen.
Proof.
  intros Hb Hb'. unfold mfs_seen_set, mfs_seen_get. destruct (Z.ltb_spec b total).
  - rewrite andb_true_r, bit_get_set by done.
    destruct (Z.leb_spec total b'); [|done]. destruct (Z.eqb_spec b' b); [lia|done].
  - by rewrite andb_false_r.
Qed.

Lemma seen_scratch b total : mfs_seen_get b total scratch = false.
Proof. unfold mfs_seen_get, bit_get, scratch. by destruct (_ <=? b). Qed.
Lemma mark_scratch b total : mfs_mark_get b total scratch = false.
Proof. unfold mfs_mark_get, bit_get, scratch. by destruct (_ <=? b). Qed.

(** Marking each block of a list, zero excepted. *)
Lemma mark_all_get l total mark b :
  0 <= b -> Forall (fun c => 0 <= c) l ->
  mfs_mark_get b total (mark_all l total mark) = true <->
  mfs_mark_get b total mark = true \/ (b ∈ l /\ valid total b).
Proof.
  intros Hb. unfold mark_all, valid. revert mark. induction l as [|c l IH]; intros mark Hl; cbn [foldl].
  { set_solver. }
  apply Forall_cons in Hl as [Hc Hl]. rewrite IH by done. rewrite elem_of_cons.
  destruct (Z.eqb_spec c 0) as [->|Hz]; [naive_solver lia|].
  rewrite mark_get_set by done. rewrite orb_true_iff, andb_true_iff, Z.eqb_eq, Z.ltb_lt. split.
  - intros [[[-> Ht]|H]|H]; [right|by left|right]; naive_solver lia.
  - intros [H|[[->|H] Hv]]; [left; by right| |by right]. left. left. lia.
Qed.

Lemma lor_nonneg2 a b : 0 <= a -> 0 <= b -> 0 <= Z.lor a b.
Proof. intros. by apply Z.lor_nonneg. Qed.

Lemma read_u32_nonneg buf p : byte_mem buf -> 0 <= read_u32 buf p.
Proof.
  intros Hb. unfold read_u32, w32. repeat apply lor_nonneg2; try (apply Z.mod_pos_bound; lia).
  apply Hb.
Qed.

Lemma loaded_bytes bs : Forall is_byte bs -> byte_mem (loaded bs).
Proof. intros H. by apply byte_mem_copy_to. Qed.

(** ** One step of the traversal *)

(** The device shows the blocks [V], with nothing staged. *)
Definition gio_ok {D} `{!MfsDevice D} (V : Z -> list Z) (s : mfs_io D) : Prop :=
  MFS_WB s = [] /\ forall b, mfs_view s b = V b.

Lemma gc_read {D} `{!MfsDevice D, !MfsDeviceLaws D} V b (s : mfs_io D) ok buf s' :
  gio_ok V s -> 0 <= b < 2^28 -> mfs_read_blk b scratch s = (ok, buf, s') ->
  gio_ok V s' /\ (ok = true -> buf = loaded (V b)).
Proof.
  intros [Hwb Hv] Hb Hr.
  assert (io_wf s) as Hwf by (unfold io_wf; rewrite Hwb; split; constructor).
  assert (MFS_WB s' = []) as Hwb'.
  { unfold mfs_read_blk in Hr. rewrite (wb_has_empty _ _ Hwb) in Hr. cbn [negb] in Hr.
    destruct (block_read_dev _ _ _) as [[ok1 bs] d]. by injection Hr as _ _ <-. }
  destruct (read_blk_spec _ _ _ _ _ _ Hwf Hb Hr) as (_ & _ & _ & Hview & Hbuf & _). split.
  - split; [done|]. intros b'. rewrite Hview; [done|]. right. left. by apply wb_has_empty.
  - intros Hok. rewrite (Hbuf Hok), Hv. done.
Qed.

Section step.
Context {D : Type} (total : Z).
Implicit Types g : gc D.

Definition seen g (b : Z) : bool := mfs_seen_get b total (g_seen g).
Definition marked g (b : Z) : bool := mfs_mark_get b total (g_mark g).

(** What remains to be done: the blocks on the stack and those not yet seen. *)
Definition todo g : Z := Z.of_nat (length (g_stack g)) + free_in (seen g) (seqZ 0 total).

(** From [g] to [g'], the nodes [cs] have been visited and the data blocks [ls] marked. *)
Record grow (cs ls : list Z) g g' : Prop := {
  gr_x : g_x g' = g_x g;
  gr_seen b : 0 <= b -> seen g' b = true <-> seen g b = true \/ (b ∈ cs /\ valid total b);
  gr_mark b : 0 <= b ->
    marked g' b = true <->
    marked g b = true \/ (b ∈ ls /\ valid total b) \/ (b ∈ cs /\ valid total b /\ seen g b = false);
  gr_stack b : b ∈ g_stack g' <-> b ∈ g_stack g \/ (b ∈ cs /\ valid total b /\ seen g b = false);
  gr_todo : todo g' = todo g
}.

Lemma grow_refl g : grow [] [] g g.
Proof. split; try done; set_solver. Qed.

Lemma grow_trans cs1 ls1 cs2 ls2 g g1 g2 :
  grow cs1 ls1 g g1 -> grow cs2 ls2 g1 g2 -> grow (cs1 ++ cs2) (ls1 ++ ls2) g g2.
Proof.
  intros H1 H2. split.
  - by rewrite (gr_x _ _ _ _ H2), (gr_x _ _ _ _ H1).
  - intros b Hb. rewrite (gr_seen _ _ _ _ H2), (gr_seen _ _ _ _ H1) by done. set_solver.
  - intros b Hb. rewrite (gr_mark _ _ _ _ H2), (gr_mark _ _ _ _ H1) by done. rewrite !elem_of_app.
    pose proof (gr_seen _ _ _ _ H1 b Hb) as Hs.
    destruct (seen g b), (seen g1 b); naive_solver.
  - intros b. rewrite (gr_stack _ _ _ _ H2), (gr_stack _ _ _ _ H1), elem_of_app.
    destruct (decide (valid total b)) as [Hv|Hv]; [|naive_solver].
    pose proof (gr_seen _ _ _ _ H1 b ltac:(unfold valid in Hv; lia)) as Hs.
    destruct (seen g b), (seen g1 b); naive_solver.
  - by rewrite (gr_todo _ _ _ _ H2), (gr_todo _ _ _ _ H1).
Qed.

Lemma push_grow b g g' : 0 <= b -> mfs_gc_push b total g = (true, g') -> grow [b] [] g g' /\ g_io g' = g_io g.
Proof.
  intros Hb. unfold mfs_gc_push. destruct (_ || _) eqn:E.
  { intros [= <-]. split; [|done].
    assert (forall c, c ∈ [b] -> valid total c -> seen g c = true) as Hin.
    { intros c Hc%list_elem_of_singleton. subst c. unfold valid. intros Hv.
      apply orb_prop in E as [[E|E]%orb_prop|E]; bool_to_prop; [lia|lia|exact E]. }
    split; try done.
    - intros c Hc. naive_solver.
    - intros c Hc. split; [tauto|]. intros [H|[[H _]|(H1 & H2 & H3)]]; [done|by apply elem_of_nil in H|].
      rewrite Hin in H3; done.
    - intros c. split; [tauto|]. intros [H|(H1 & H2 & H3)]; [done|]. rewrite Hin in H3; done. }
  apply orb_false_iff in E as [[E1 E2]%orb_false_iff E3]. bool_to_prop. fold (seen g b) in E3.
  destruct (_ <=? _)%nat; [done|]. intros [= <-]. split; [|done].
  assert (forall c, 0 <= c -> mfs_seen_get c total (mfs_seen_set b total (g_seen g)) = (c =? b) || seen g c) as Hs.
  { intros c Hc. rewrite seen_get_set by done. rewrite (proj2 (Z.ltb_lt b total)), andb_true_r by lia. done. }
  split; try done.
  - intros c Hc. unfold seen at 1. cbn [g_seen]. rewrite Hs, orb_true_iff, Z.eqb_eq, list_elem_of_singleton by done.
    unfold valid. split; [intros [->|H]|intros [H|[-> H]]]; auto. right. split; [done|lia].
  - intros c Hc. unfold marked at 1. cbn [g_mark]. rewrite mark_get_set by done.
    fold (marked g c). rewrite orb_true_iff, andb_true_iff, Z.eqb_eq, Z.ltb_lt, list_elem_of_singleton.
    unfold valid. split.
    + intros [[-> H]|H]; [|by left]. right. right. repeat split; [lia|done|done].
    + intros [H|[[H%elem_of_nil _]|(-> & H & _)]]; [by right|done|]. left. lia.
  - intros c. cbn [g_stack]. rewrite elem_of_cons, list_elem_of_singleton. unfold valid. split.
    + intros [->|H]; [|by left]. right. repeat split; [lia|lia|done].
    + intros [H|(-> & _)]; [by right|by left].
  - unfold todo. cbn [g_stack length].
    rewrite (free_in_take (seen g) _ _ b).
    + lia.
    + apply NoDup_seqZ.
    + apply elem_of_seqZ. lia.
    + done.
    + intros c Hc%elem_of_seqZ. apply Hs. lia.
Qed.

Lemma push_all_grow l g g' :
  Forall (fun b => 0 <= b) l -> push_all l total g = (true, g') -> grow l [] g g' /\ g_io g' = g_io g.
Proof.
  intros Hl. revert g. induction Hl as [|b l Hb Hl IH]; intros g; cbn [push_all].
  { intros [= <-]. split; [apply grow_refl|done]. }
  destruct (mfs_gc_push b total g) as [[] g1] eqn:E; [|done]. intros H.
  destruct (push_grow _ _ _ Hb E) as [G1 I1]. destruct (IH _ H) as [G2 I2].
  split; [exact (grow_trans _ _ _ _ _ _ _ G1 G2)|by rewrite I2].
Qed.

Lemma mark_grow l g : Forall (fun b => 0 <= b) l -> grow [] l g (with_mark g (mark_all l total (g_mark g))).
Proof.
  intros Hl. split; try done.
  - intros b Hb. cbn. set_solver.
  - intros b Hb. unfold marked at 1. cbn [with_mark g_mark]. rewrite mark_all_get by done. set_solver.
  - intros b. cbn. set_solver.
Qed.

End step.

(** ** Expanding a block *)

(** An index block that has been checked: its table blocks lie on the device. *)
Definition x_ok (total : Z) (x : mem) : Prop :=
  byte_mem x /\ forall t, t ∈ index_slots x -> t = 0 \/ valid total t.

Lemma push_io {D} b total (g : gc D) ok g' : mfs_gc_push b total g = (ok, g') -> g_io g' = g_io g.
Proof. unfold mfs_gc_push. destruct (_ || _); [by intros [= _ <-]|]. destruct (_ <=? _)%nat; by intros [= _ <-]. Qed.
Lemma push_all_io {D} l total (g : gc D) ok g' : push_all l total g = (ok, g') -> g_io g' = g_io g.
Proof.
  revert g. induction l as [|b l IH]; intros g; cbn [push_all]; [by intros [= _ <-]|].
  destruct (mfs_gc_push b total g) as [[] g1] eqn:E; apply push_io in E.
  - intros H%IH. by rewrite H.
  - by intros [= _ <-].
Qed.

Lemma read_slots_nonneg (f : Z -> Z) buf l :
  byte_mem buf -> Forall (fun b => 0 <= b) ((fun i => read_u32 buf (f i)) <$> l).
Proof. intros H. apply Forall_fmap, Forall_true. intros i. by apply read_u32_nonneg. Qed.

Lemma index_slots_elem x k : 0 <= k < MFS_ITAB_SLOTS -> read_u32 x (MFS_HDR + k * 4) ∈ index_slots x.
Proof. intros Hk. apply list_elem_of_fmap. exists k. split; [done|]. apply elem_of_seqZ. lia. Qed.

Lemma with_io_grow {D} total (g : gc D) s : grow total [] [] g (with_io g s).
Proof. split; try done; set_solver. Qed.

Section expand.
Context {D : Type} `{!MfsDevice D, !MfsDeviceLaws D} (V : Z -> list Z) (total : Z).
Context (HV : forall b, block_data (V b)) (Htotal : 0 <= total <= MFS_MAX_BLOCKS).
Implicit Types g : gc D.

Lemma valid_range b : valid total b -> 0 <= b < 2^28.
Proof using Htotal. unfold valid. change MFS_MAX_BLOCKS with 33357824 in Htotal. lia. Qed.

Lemma loaded_mem b : byte_mem (loaded (V b)).
Proof using HV. apply loaded_bytes, HV. Qed.

Lemma gc_ino_block_spec ino g o g' :
  0 <= ino -> gio_ok V (g_io g) -> x_ok total (g_x g) -> mfs_gc_ino_block ino g = (o, g') ->
  gio_ok V (g_io g') /\ g' = with_io g (g_io g')
  /\ (forall v, o = Some v -> tr_of V (g_x g) ino = Some v /\ 0 <= v).
Proof using HV Htotal MfsDeviceLaws0.
  intros Hino Hg [_ Hx]. unfold mfs_gc_ino_block, tr_of.
  destruct (_ || _) eqn:E; [intros [= <- <-]; by destruct g|].
  apply orb_false_iff in E as [E1 E2]. bool_to_prop.
  assert (0 < ino < MFS_INO_MAX) as Hr by lia. destruct (ino_slot_range ino Hr) as [Hk _].
  unfold mfs_ino_slot. set (k := ino / MFS_ITAB_SLOTS) in *. set (j := ino mod MFS_ITAB_SLOTS).
  set (t := read_u32 (g_x g) (MFS_HDR + k * 4)).
  assert (t = 0 \/ valid total t) as Ht by (apply Hx, index_slots_elem; exact Hk).
  destruct (Z.eqb_spec t 0) as [Et|Et].
  { intros [= <- <-]. split; [done|]. split; [by destruct g|]. by intros v [= <-]. }
  destruct Ht as [Ht|Ht]; [done|]. destruct (mfs_read_blk t scratch (g_io g)) as [[ok tb] s] eqn:Er.
  destruct (gc_read _ _ _ _ _ _ Hg (valid_range _ Ht) Er) as [Hs Htb].
  destruct ok; cbn [negb orb]; [|intros [= <- <-]; by destruct g].
  rewrite (Htb eq_refl). destruct (mfs_ok (loaded (V t)) MFS_MAGIC_ITAB); intros [= <- <-]; [|by destruct g].
  split; [done|]. split; [done|]. intros v [= <-]. split; [done|]. apply read_u32_nonneg, loaded_mem.
Qed.

Lemma dir_loop_spec fuel gb off g ok g' :
  byte_mem gb -> gio_ok V (g_io g) -> x_ok total (g_x g) -> gc_dir_loop fuel gb off total g = (ok, g') ->
  gio_ok V (g_io g')
  /\ (ok = true -> exists inos cs, dir_inos fuel gb off = Some inos /\ mapM (tr_of V (g_x g)) inos = Some cs
                                   /\ grow total cs [] g g').
Proof using HV Htotal MfsDeviceLaws0.
  intros Hgb. revert off g. induction fuel as [|fuel IH]; intros off g Hg Hx; cbn [gc_dir_loop dir_inos].
  { by intros [= <- <-]. }
  destruct (_ <? _). { intros [= <- <-]. split; [done|]. intros _. exists [], []. auto using grow_refl. }
  destruct (negb (mfs_ent_name_len gb off =? 0)).
  - destruct (mfs_gc_ino_block (mfs_ent_ino gb off) g) as [o g1] eqn:E1.
    apply gc_ino_block_spec in E1 as (Hg1 & E1 & Ho); [|by apply read_u32_nonneg|done|done].
    destruct o as [v|]; [|by intros [= <- <-]]. destruct (Ho v eq_refl) as [Htr Hv].
    destruct (mfs_gc_push v total g1) as [ok2 g2] eqn:E2. pose proof (push_io _ _ _ _ _ E2) as Hio.
    destruct ok2; cbn [negb]; [|intros [= <- <-]; by rewrite Hio].
    destruct (push_grow _ _ _ _ Hv E2) as [G2 _].
    destruct (mfs_ent_step gb off) as [n|]; [|intros [= <- <-]; by rewrite Hio].
    assert (grow total ([] ++ [v]) ([] ++ []) g g2) as G.
    { eapply grow_trans; [|exact G2]. rewrite E1. apply with_io_grow. }
    assert (g_x g2 = g_x g) as Ex by apply (gr_x _ _ _ _ _ G).
    intros H. apply IH in H as [Hg' Hok]; [|by rewrite Hio|by rewrite Ex]. split; [done|].
    intros ->. destruct (Hok eq_refl) as (inos & cs & Hd & Hm & G'). rewrite Ex in Hm.
    exists (mfs_ent_ino gb off :: inos), (v :: cs). rewrite Hd. cbn [mbind option_bind mapM].
    rewrite Htr. cbn [mbind option_bind]. rewrite Hm.
    split; [done|]. split; [done|]. exact (grow_trans _ _ _ _ _ _ _ _ G G').
  - cbn [negb]. destruct (mfs_ent_step gb off) as [n|]; [|by intros [= <- <-]].
    intros H. apply IH in H as [Hg' Hok]; [|done|done]. split; [done|].
    intros ->. destruct (Hok eq_refl) as (inos & cs & Hd & Hm & G'). exists inos, cs. by rewrite Hd.
Qed.

Lemma push_all_spec l g ok g' :
  Forall (fun b => 0 <= b) l -> gio_ok V (g_io g) -> push_all l total g = (ok, g') ->
  gio_ok V (g_io g') /\ (ok = true -> grow total l [] g g').
Proof using Type.
  intros Hl Hg H. split; [by rewrite (push_all_io _ _ _ _ _ H)|]. intros ->. by apply push_all_grow in H as [? _].
Qed.

Lemma expand_spec gb g ok g' :
  byte_mem gb -> gio_ok V (g_io g) -> x_ok total (g_x g) -> gc_expand gb total g = (ok, g') ->
  gio_ok V (g_io g')
  /\ (ok = true -> exists cs ls, node_edges V (g_x g) gb = Some (cs, ls) /\ grow total cs ls g g').
Proof using HV Htotal MfsDeviceLaws0.
  intros Hgb Hg Hx. unfold gc_expand, node_edges.
  assert (forall l, push_all l total g = (ok, g') -> Forall (fun b => 0 <= b) l ->
            gio_ok V (g_io g') /\ (ok = true -> exists cs ls, Some (l, []) = Some (cs, ls) /\ grow total cs ls g g'))
    as Hpush.
  { intros l H Hl. destruct (push_all_spec _ _ _ _ Hl Hg H). split; [done|]. intros. exists l, []. auto. }
  destruct (mfs_ok gb MFS_MAGIC_DIR).
  { destruct (gc_dir_loop _ gb DIR_BASE total g) as [ok1 g1] eqn:E1.
    apply dir_loop_spec in E1 as [Hg1 Hok1]; [|done..].
    destruct ok1; cbn [negb]; [|by intros [= <- <-]]. intros H. split; [by rewrite (push_io _ _ _ _ _ H)|].
    intros ->. destruct (Hok1 eq_refl) as (inos & cs & -> & Hm & G1). cbn [mbind option_bind]. rewrite Hm.
    eexists _, _. split; [done|]. apply push_grow in H as [G2 _]; [|by apply read_u32_nonneg].
    exact (grow_trans _ _ _ _ _ _ _ _ G1 G2). }
  destruct (mfs_ok gb MFS_MAGIC_DIDX). { intros H. eapply Hpush; [exact H|]. by apply read_slots_nonneg. }
  destruct (mfs_ok gb MFS_MAGIC_FILE).
  { intros H. apply push_all_spec in H as [Hg' Hok]; [|repeat constructor; by apply read_u32_nonneg|done].
    split; [exact Hg'|]. intros Ht. eexists _, _. split; [reflexivity|].
    pose proof (mark_grow total (mfs_file_direct gb <$> seqZ 0 MFS_FILE_DIRECT) g
                  ltac:(by apply read_slots_nonneg)) as G1.
    pose proof (grow_trans _ _ _ _ _ _ _ _ G1 (Hok Ht)) as G. by rewrite app_nil_r in G. }
  destruct (mfs_ok gb MFS_MAGIC_IND).
  { intros [<- <-]%pair_equal_spec. split; [exact Hg|]. intros _. eexists _, _. split; [reflexivity|].
    apply mark_grow. by apply read_slots_nonneg. }
  destruct (mfs_ok gb MFS_MAGIC_IND2). { intros H. eapply Hpush; [exact H|]. by apply read_slots_nonneg. }
  destruct (mfs_ok gb MFS_MAGIC_IND3); cbn [orb].
  { intros H. eapply Hpush; [exact H|]. by apply read_slots_nonneg. }
  destruct (mfs_ok gb MFS_MAGIC_LINK); intros [= <- <-]; [|done].
  split; [done|]. intros _. exists [], []. auto using grow_refl.
Qed.

End expand.

(** ** The traversal of one root *)

Section drain.
Context {D : Type} `{!MfsDevice D, !MfsDeviceLaws D} (V : Z -> list Z) (total : Z).
Context (HV : forall b, block_data (V b)) (Htotal : 0 <= total <= MFS_MAX_BLOCKS).
Implicit Types g : gc D.
#[local] Notation seen := (seen total).
#[local] Notation marked := (marked total).
#[local] Notation todo := (todo total).

(** A block whose references have all been followed. *)
Definition expanded g (b : Z) : Prop :=
  exists cs ls, edges_of V (g_x g) b = Some (cs, ls)
    /\ (forall c, c ∈ cs -> valid total c -> seen g c = true)
    /\ (forall c, c ∈ ls -> valid total c -> marked g c = true).

Record drain_inv g : Prop := {
  d_io : gio_ok V (g_io g);
  d_x : x_ok total (g_x g);
  d_stack b : b ∈ g_stack g -> 0 <= b < 2^28;
  d_mark b : 0 <= b -> seen g b = true -> marked g b = true;
  d_seen b : 0 <= b -> seen g b = true -> b ∈ g_stack g \/ expanded g b
}.

(** Only what was there before, and what can be reached from [r], has been visited. *)
Record drain_sound (r : Z) g0 g : Prop := {
  s_seen b : 0 <= b -> seen g b = true -> reach V total (g_x g) r b;
  s_stack b : b ∈ g_stack g -> reach V total (g_x g) r b;
  s_mark b : 0 <= b -> marked g b = true ->
    marked g0 b = true \/ reach V total (g_x g) r b
    \/ exists n cs ls, reach V total (g_x g) r n /\ edges_of V (g_x g) n = Some (cs, ls) /\ b ∈ ls /\ valid total b
}.

(** One turn: the top block is read and expanded. *)
Definition turn g (b : Z) (stack : list Z) : bool * gc D :=
  let '(ok, gb, s) := mfs_read_blk b scratch (g_io g) in
  let g := mk_gc (g_mark g) (g_seen g) stack (g_x g) s in
  if negb ok then (false, g) else gc_expand gb total g.

Lemma drain_unfold fuel g b stack :
  g_stack g = b :: stack ->
  drain_loop (S fuel) total g
  = let '(ok, g') := turn g b stack in if negb ok then Some (false, g') else drain_loop fuel total g'.
Proof.
  intros E. cbn [drain_loop]. rewrite E. unfold turn.
  destruct (mfs_read_blk b scratch (g_io g)) as [[[] gb] s]; cbn [negb]; [|done].
  by destruct (gc_expand gb total _) as [[] g'].
Qed.

Definition popped g (stack : list Z) : gc D := mk_gc (g_mark g) (g_seen g) stack (g_x g) (g_io g).

Lemma turn_spec g b stack ok g' :
  drain_inv g -> g_stack g = b :: stack -> turn g b stack = (ok, g') ->
  gio_ok V (g_io g')
  /\ (ok = true -> exists cs ls, edges_of V (g_x g) b = Some (cs, ls) /\ grow total cs ls (popped g stack) g').
Proof using HV Htotal MfsDeviceLaws0.
  intros Hi E. unfold turn. destruct (mfs_read_blk b scratch (g_io g)) as [[ok1 gb] s] eqn:Er.
  assert (0 <= b < 2^28) as Hb by (apply (d_stack _ Hi); rewrite E; set_solver).
  destruct (gc_read _ _ _ _ _ _ (d_io _ Hi) Hb Er) as [Hs Hgb].
  destruct ok1; cbn [negb]; [|by intros [= <- <-]]. specialize (Hgb eq_refl). subst gb. intros H.
  apply expand_spec with (V := V) in H as [Hg' Hok]; [|done|done|apply loaded_bytes, HV|done|apply (d_x _ Hi)].
  split; [done|]. intros Ht. destruct (Hok Ht) as (cs & ls & Hed & G). exists cs, ls.
  split; [done|]. exact (grow_trans _ [] [] _ _ _ _ _ (with_io_grow _ (popped g stack) s) G).
Qed.

Lemma turn_inv g b stack g' cs ls :
  drain_inv g -> g_stack g = b :: stack -> gio_ok V (g_io g') -> edges_of V (g_x g) b = Some (cs, ls) ->
  grow total cs ls (popped g stack) g' -> drain_inv g'.
Proof using HV Htotal MfsDeviceLaws0.
  intros Hi E Hg' Hed G. pose proof (gr_x _ _ _ _ _ G) as Ex. cbn in Ex.
  assert (forall c, 0 <= c -> seen g c = true -> seen g' c = true) as Hs1
    by (intros c Hc H; apply (gr_seen _ _ _ _ _ G); auto).
  assert (forall c, 0 <= c -> marked g c = true -> marked g' c = true) as Hm1
    by (intros c Hc H; apply (gr_mark _ _ _ _ _ G); auto).
  split.
  - done.
  - rewrite Ex. apply (d_x _ Hi).
  - intros c Hc. apply (gr_stack _ _ _ _ _ G) in Hc as [Hc|(_ & Hv & _)]; cbn in *.
    + apply (d_stack _ Hi). rewrite E. set_solver.
    + exact (valid_range _ Htotal _ Hv).
  - intros c Hc H. destruct (seen g c) eqn:Es; [by apply Hm1, (d_mark _ Hi)|].
    apply (gr_seen _ _ _ _ _ G) in H as [H|[H Hv]]; [change (seen g c = true) in H; congruence| |done].
    apply (gr_mark _ _ _ _ _ G); auto.
  - assert (expanded g' b) as Hb.
    { exists cs, ls. rewrite Ex. split; [done|]. split; intros d Hd Hv.
      - apply (gr_seen _ _ _ _ _ G); [unfold valid in Hv; lia|auto].
      - apply (gr_mark _ _ _ _ _ G); [unfold valid in Hv; lia|auto]. }
    intros c Hc H. destruct (seen g c) eqn:Es.
    + apply (d_seen _ Hi) in Es as [Hst|(cs' & ls' & He & H1 & H2)]; [| |done].
      * rewrite E in Hst. apply elem_of_cons in Hst as [->|Hst]; [by right|].
        left. apply (gr_stack _ _ _ _ _ G). by left.
      * right. exists cs', ls'. rewrite Ex. split; [done|]. split; intros d Hd Hv; unfold valid in Hv.
        -- apply Hs1; [lia|auto].
        -- apply Hm1; [lia|auto].
    + apply (gr_seen _ _ _ _ _ G) in H as [H|[H Hv]]; [change (seen g c = true) in H; congruence| |done].
      left. apply (gr_stack _ _ _ _ _ G). right. auto.
Qed.

Lemma turn_sound r g0 g b stack g' cs ls :
  g_stack g = b :: stack -> edges_of V (g_x g) b = Some (cs, ls) -> grow total cs ls (popped g stack) g' ->
  drain_sound r g0 g -> drain_sound r g0 g'.
Proof using HV Htotal MfsDeviceLaws0.
  intros E Hed G Hs. pose proof (gr_x _ _ _ _ _ G) as Ex. cbn in Ex.
  assert (reach V total (g_x g) r b) as Hb by (apply (s_stack _ _ _ Hs); rewrite E; set_solver).
  assert (forall c, c ∈ cs -> valid total c -> reach V total (g_x g) r c) as Hc
    by (intros; eapply reach_step; eauto).
  split; rewrite Ex.
  - intros c H0 H. apply (gr_seen _ _ _ _ _ G) in H as [H|[H Hv]]; [by apply (s_seen _ _ _ Hs)|auto|done].
  - intros c H. apply (gr_stack _ _ _ _ _ G) in H as [H|(H & Hv & _)]; [|auto].
    apply (s_stack _ _ _ Hs). rewrite E. set_solver.
  - intros c H0 H. apply (gr_mark _ _ _ _ _ G) in H as [H|[[H Hv]|(H & Hv & _)]]; [| | |done].
    + by apply (s_mark _ _ _ Hs).
    + right. right. eauto 10.
    + auto.
Qed.

Lemma todo_pos g : 0 <= todo g.
Proof. unfold todo, free_in. lia. Qed.

(** The loop ends: each turn takes a block off what remains to be done. *)
Lemma drain_ends fuel g : drain_inv g -> todo g <= Z.of_nat fuel -> is_Some (drain_loop fuel total g).
Proof using HV Htotal MfsDeviceLaws0.
  revert g. induction fuel as [|fuel IH]; intros g Hi Hf.
  { cbn. destruct (g_stack g) as [|b stack] eqn:E; [done|]. unfold todo, free_in in Hf. rewrite E in Hf.
    cbn [length] in Hf. lia. }
  destruct (g_stack g) as [|b stack] eqn:E; [cbn; rewrite E; done|].
  rewrite (drain_unfold _ _ _ _ E). destruct (turn g b stack) as [ok g'] eqn:Et.
  destruct (turn_spec _ _ _ _ _ Hi E Et) as [Hg' Hok]. destruct ok; cbn [negb]; [|done].
  destruct (Hok eq_refl) as (cs & ls & Hed & G). apply IH; [by eapply turn_inv|].
  rewrite (gr_todo _ _ _ _ _ G). unfold todo, popped in *. cbn [g_stack]. rewrite E in Hf. cbn [length] in Hf.
  change (seen _) with (seen g). lia.
Qed.

Lemma drain_spec fuel g ok g' :
  drain_inv g -> drain_loop fuel total g = Some (ok, g') ->
  gio_ok V (g_io g')
  /\ (ok = true ->
      drain_inv g' /\ g_x g' = g_x g /\ g_stack g' = []
      /\ (forall b, 0 <= b -> seen g b = true -> seen g' b = true)
      /\ (forall b, 0 <= b -> marked g b = true -> marked g' b = true)
      /\ (forall r g0, drain_sound r g0 g -> drain_sound r g0 g')).
Proof using HV Htotal MfsDeviceLaws0.
  revert g. induction fuel as [|fuel IH]; intros g Hi H; destruct (g_stack g) as [|b stack] eqn:E.
  - cbn in H. rewrite E in H. injection H as <- <-. split; [apply (d_io _ Hi)|]. intros _. auto 10.
  - cbn in H. by rewrite E in H.
  - cbn in H. rewrite E in H. injection H as <- <-. split; [apply (d_io _ Hi)|]. intros _. auto 10.
  - rewrite (drain_unfold _ _ _ _ E) in H. destruct (turn g b stack) as [ok1 g1] eqn:Et.
    destruct (turn_spec _ _ _ _ _ Hi E Et) as [Hg1 Hok1].
    destruct ok1; cbn [negb] in H; [|by injection H as <- <-].
    destruct (Hok1 eq_refl) as (cs & ls & Hed & G).
    destruct (IH g1 (turn_inv _ _ _ _ _ _ Hi E Hg1 Hed G) H) as [Hg' Hok]. split; [done|]. intros Ht.
    destruct (Hok Ht) as (Hi' & Hx & Hst & Hs & Hm & Hso). pose proof (gr_x _ _ _ _ _ G) as Ex. cbn in Ex.
    split; [done|]. split; [by rewrite Hx|]. split; [done|]. split; [|split].
    + intros c Hc H1. apply Hs; [done|]. apply (gr_seen _ _ _ _ _ G); [done|]. by left.
    + intros c Hc H1. apply Hm; [done|]. apply (gr_mark _ _ _ _ _ G); [done|]. by left.
    + intros r g0 H0. apply Hso. exact (turn_sound _ _ _ _ _ _ _ _ E Hed G H0).
Qed.

(** The fuel of [mfs_gc_drain] is enough. *)
Lemma drain_fuel g : drain_inv g -> is_Some (drain_loop (Z.to_nat total + length (g_stack g)) total g).
Proof using HV Htotal MfsDeviceLaws0.
  intros Hi. apply drain_ends; [done|]. unfold todo, free_in.
  pose proof (length_filter (fun b => seen g b = false) (seqZ 0 total)) as H. rewrite length_seqZ in H. lia.
Qed.

End drain.

(** ** All roots *)

Lemma mark_tables_spec l total mark ok mark' :
  Forall (fun t => 0 <= t) l -> mark_tables l total mark = (ok, mark') -> ok = true ->
  (forall t, t ∈ l -> t = 0 \/ valid total t)
  /\ (forall b, 0 <= b ->
        mfs_mark_get b total mark' = true <-> mfs_mark_get b total mark = true \/ (b ∈ l /\ valid total b)).
Proof.
  intros Hl. revert mark. induction Hl as [|t l Ht Hl IH]; intros mark; cbn [mark_tables].
  { intros [= <- <-] _. set_solver. }
  destruct (Z.eqb_spec t 0) as [->|Hz].
  { intros H Hok. destruct (IH _ H Hok) as [H1 H2]. split; [set_solver|].
    intros b Hb. rewrite H2 by done. rewrite elem_of_cons. unfold valid. naive_solver lia. }
  destruct (Z.leb_spec total t) as [Hle|Hlt]; [intros [= <- _]; done|].
  intros H Hok. destruct (IH _ H Hok) as [H1 H2]. unfold valid in *. split.
  - intros t' [->|Ht']%elem_of_cons; [right; lia|auto].
  - intros b Hb. rewrite H2, mark_get_set by done.
    rewrite orb_true_iff, andb_true_iff, Z.eqb_eq, Z.ltb_lt, elem_of_cons. naive_solver lia.
Qed.

Lemma mark_range l total mark b :
  0 <= b -> Forall (fun c => 0 <= c) l ->
  mfs_mark_get b total (foldl (fun mark b => mfs_mark_set b total mark) mark l) = true <->
  mfs_mark_get b total mark = true \/ (b ∈ l /\ b < total).
Proof.
  intros Hb Hl. revert mark. induction Hl as [|c l Hc Hl IH]; intros mark; cbn [foldl]; [set_solver|].
  rewrite IH, mark_get_set by done.
  rewrite orb_true_iff, andb_true_iff, Z.eqb_eq, Z.ltb_lt, elem_of_cons. naive_solver lia.
Qed.

Section roots.
Context {D : Type} `{!MfsDevice D, !MfsDeviceLaws D} (V : Z -> list Z) (total : Z).
Context (HV : forall b, block_data (V b)) (Htotal : 0 <= total <= MFS_MAX_BLOCKS).
Implicit Types g : gc D.
#[local] Notation seen := (seen total).
#[local] Notation marked := (marked total).

Lemma load_itab_spec itab g ok g' :
  0 <= itab -> gio_ok V (g_io g) -> mfs_gc_load_itab itab total g = (ok, g') ->
  gio_ok V (g_io g') /\ g_stack g' = g_stack g
  /\ (ok = true ->
      valid total itab /\ g_x g' = loaded (V itab) /\ x_ok total (g_x g')
      /\ forall b, 0 <= b ->
           marked g' b = true <->
           marked g b = true \/ (valid total b /\ (b = itab \/ b ∈ index_slots (loaded (V itab))))).
Proof using HV Htotal MfsDeviceLaws0.
  intros Hi Hg. unfold mfs_gc_load_itab. destruct (_ || _) eqn:E; [by intros [= <- <-]|].
  apply orb_false_iff in E as [E1 E2]. bool_to_prop.
  assert (valid total itab) as Hv by (unfold valid; lia). cbn [with_mark g_io g_mark g_seen g_stack].
  destruct (mfs_read_blk itab scratch (g_io g)) as [[ok1 x] s] eqn:Er.
  destruct (gc_read _ _ _ _ _ _ Hg (valid_range _ Htotal _ Hv) Er) as [Hs Hx].
  destruct ok1; cbn [negb orb]; [|by intros [= <- <-]]. rewrite (Hx eq_refl).
  destruct (mfs_ok (loaded (V itab)) MFS_MAGIC_ITABX); cbn [negb]; [|by intros [= <- <-]].
  destruct (mark_tables _ _ _) as [ok2 mark] eqn:Em. intros [<- <-]%pair_equal_spec.
  split; [exact Hs|]. split; [reflexivity|]. intros ->.
  apply mark_tables_spec in Em as [H1 H2]; [|apply read_slots_nonneg, loaded_bytes, HV|done].
  split; [exact Hv|]. split; [reflexivity|]. split; [split; [apply loaded_bytes, HV|exact H1]|].
  intros b Hb. unfold marked at 1. cbn [with_mark g_mark]. rewrite H2, mark_get_set by done.
  fold (marked g b). rewrite orb_true_iff, andb_true_iff, Z.eqb_eq, Z.ltb_lt. unfold valid in *. naive_solver lia.
Qed.

(** The state in which the traversal of a root starts: only the root directory has been seen. *)
Lemma root_start r g g' :
  gio_ok V (g_io g) -> x_ok total (g_x g) -> (forall b, b ∈ g_stack g -> 0 <= b < 2^28) ->
  (forall b, seen g b = false) -> grow total [r] [] g g' -> g_io g' = g_io g ->
  drain_inv V total g' /\ (g_stack g = [] -> drain_sound V total r g g').
Proof using HV Htotal MfsDeviceLaws0.
  intros Hg Hx Hst Hn G Hio. pose proof (gr_x _ _ _ _ _ G) as Ex.
  assert (forall b, 0 <= b -> seen g' b = true -> b = r /\ valid total r) as Hs.
  { intros b Hb H. apply (gr_seen _ _ _ _ _ G) in H as [H|[H Hv]]; [by rewrite Hn in H| |done].
    apply list_elem_of_singleton in H as ->. done. }
  split; [split|intros E0; split; rewrite ?Ex].
  - by rewrite Hio.
  - by rewrite Ex.
  - intros b H. apply (gr_stack _ _ _ _ _ G) in H as [H|(_ & Hv & _)]; [auto|]. exact (valid_range _ Htotal _ Hv).
  - intros b Hb H. destruct (Hs b Hb H) as [-> Hv]. apply (gr_mark _ _ _ _ _ G); [done|]. right. right.
    split; [set_solver|]. auto.
  - intros b Hb H. destruct (Hs b Hb H) as [-> Hv]. left. apply (gr_stack _ _ _ _ _ G). right.
    split; [set_solver|]. auto.
  - intros b Hb H. destruct (Hs b Hb H) as [-> Hv]. by constructor.
  - intros b H. apply (gr_stack _ _ _ _ _ G) in H as [H|(H & Hv & _)]; [rewrite E0 in H; by apply elem_of_nil in H|].
    apply list_elem_of_singleton in H as ->. by constructor.
  - intros b Hb H. apply (gr_mark _ _ _ _ _ G) in H as [H|[[H _]|(H & Hv & _)]]; [auto| | |done].
    + by apply elem_of_nil in H.
    + apply list_elem_of_singleton in H as ->. right. left. by constructor.
Qed.

(** A traversal that has ended has seen all that can be reached. *)
Lemma drain_complete r g b :
  drain_inv V total g -> g_stack g = [] -> (valid total r -> seen g r = true) ->
  reach V total (g_x g) r b -> seen g b = true.
Proof using Type.
  intros Hi Hst Hr. induction 1 as [Hv|b c cs ls H IH Hed Hc Hv]; [auto|].
  assert (0 <= b) as Hb by (destruct H as [Hb|? ? ? ? ? ? ? Hb]; unfold valid in Hb; lia).
  destruct (d_seen _ _ _ Hi b Hb IH) as [Hs|(cs' & ls' & He & H1 & _)].
  - rewrite Hst in Hs. by apply elem_of_nil in Hs.
  - rewrite Hed in He. injection He as <- <-. auto.
Qed.


Lemma reach_valid x r b : reach V total x r b -> valid total b.
Proof using Type. by destruct 1. Qed.

(** ... and has marked it, with its data blocks. *)
Lemma drain_live r g b :
  drain_inv V total g -> g_stack g = [] -> (valid total r -> seen g r = true) -> valid total b ->
  reach V total (g_x g) r b
  \/ (exists n cs ls, reach V total (g_x g) r n /\ edges_of V (g_x g) n = Some (cs, ls) /\ b ∈ ls) ->
  marked g b = true.
Proof using Type.
  intros Hi Hst Hr Hv H. pose proof (fun b => drain_complete r g b Hi Hst Hr) as Hc.
  destruct H as [H|(n & cs & ls & Hn & Hed & Hin)].
  { apply (d_mark _ _ _ Hi); [unfold valid in Hv; lia|auto]. }
  pose proof (reach_valid _ _ _ Hn) as Hnv. unfold valid in Hnv.
  destruct (d_seen _ _ _ Hi n ltac:(lia) (Hc _ Hn)) as [Hs|(cs' & ls' & He & _ & H2)].
  - rewrite Hst in Hs. by apply elem_of_nil in Hs.
  - rewrite Hed in He. injection He as <- <-. auto.
Qed.

Lemma gc_root_spec itab g ok g' :
  0 <= itab -> gio_ok V (g_io g) -> (forall b, b ∈ g_stack g -> 0 <= b < 2^28) ->
  gc_root itab total g = (ok, g') ->
  gio_ok V (g_io g')
  /\ (ok = true ->
      g_stack g' = []
      /\ (forall b, 0 <= b -> marked g b = true \/ live_root V total itab b -> marked g' b = true)
      /\ (g_stack g = [] -> forall b, 0 <= b -> marked g' b = true -> marked g b = true \/ live_root V total itab b)).
Proof using HV Htotal MfsDeviceLaws0.
  intros Hit Hg Hst. unfold gc_root. destruct (mfs_gc_load_itab itab total g) as [ok1 g1] eqn:E1.
  destruct (load_itab_spec _ _ _ _ Hit Hg E1) as (Hg1 & Est & Hok1).
  destruct ok1; cbn [negb]; [|by intros [= <- <-]].
  destruct (Hok1 eq_refl) as (Hvi & Ex1 & Hx1 & Hm1). set (g2 := mk_gc _ scratch _ _ _).
  destruct (mfs_gc_ino_block MFS_ROOT_INO g2) as [o g3] eqn:E3.
  apply gc_ino_block_spec with (V := V) (total := total) in E3 as (Hg3 & E3 & Ho); [|done..].
  destruct o as [r|]; [|by intros [= <- <-]]. destruct (Ho r eq_refl) as [Htr Hr].
  destruct (Z.eqb_spec r 0) as [Hz|Hz]; [by intros [= <- <-]|].
  destruct (mfs_gc_push r total g3) as [ok4 g4] eqn:E4.
  pose proof (push_io _ _ _ _ _ E4) as Hio4. destruct ok4; cbn [negb]; [|intros [= <- <-]; by rewrite Hio4].
  destruct (push_grow _ _ _ _ Hr E4) as [G4 _].
  assert (forall b, seen g3 b = false) as Hn by (intros b; rewrite E3; apply seen_scratch).
  destruct (root_start r g3 g4) as [Hi4 Hs4]; [done|by rewrite E3|rewrite E3; cbn; by rewrite Est|done..|].
  unfold mfs_gc_drain. destruct (drain_fuel V total HV Htotal g4 Hi4) as [[ok5 g5] E5]. rewrite E5. cbn [default].
  destruct (drain_spec V total HV Htotal _ _ _ _ Hi4 E5) as [Hg5 Hok5].
  intros [<- <-]%pair_equal_spec. split; [exact Hg5|]. intros Ht.
  destruct (Hok5 Ht) as (Hi5 & Ex5 & Hst5 & Hseen5 & Hmark5 & Hsound5).
  assert (g_x g5 = loaded (V itab)) as Ex.
  { rewrite Ex5, (gr_x _ _ _ _ _ G4), E3. exact Ex1. }
  assert (tr_of V (loaded (V itab)) MFS_ROOT_INO = Some r) as Htr' by (rewrite <- Ex1; exact Htr).
  assert (forall b, marked g3 b = marked g1 b) as Hm3 by (intros b; rewrite E3; reflexivity).
  assert (valid total r -> seen g5 r = true) as Hr5.
  { intros Hv. apply Hseen5; [done|]. apply (gr_seen _ _ _ _ _ G4); [done|]. right. split; [set_solver|done]. }
  assert (forall b, 0 <= b -> marked g1 b = true -> marked g5 b = true) as Hm15.
  { intros b Hb H. apply Hmark5; [done|]. apply (gr_mark _ _ _ _ _ G4); [done|]. left. by rewrite Hm3. }
  split; [exact Hst5|]. split.
  - intros b Hb [H|(Hv & H)]; [by apply Hm15, Hm1; auto|]. cbv zeta in H.
    destruct H as [H|[H|(r' & Hr' & H)]]; [apply Hm15, Hm1; auto|apply Hm15, Hm1; auto|].
    rewrite Htr' in Hr'. injection Hr' as <-. rewrite <- Ex in H. exact (drain_live r g5 b Hi5 Hst5 Hr5 Hv H).
  - intros E0 b Hb H. assert (g_stack g3 = []) as E30 by (rewrite E3; cbn; by rewrite Est).
    apply (s_mark _ _ _ _ _ (Hsound5 _ _ (Hs4 E30))) in H; [|done]. rewrite Ex, Hm3 in H.
    destruct H as [H|[H|(n & cs & ls & Hn' & Hed & Hin & Hv)]].
    + apply Hm1 in H as [H|[Hv H]]; [by left| |done]. right. split; [done|]. cbv zeta. tauto.
    + right. split; [exact (reach_valid _ _ _ H)|]. cbv zeta. right. right. exists r. auto.
    + right. split; [done|]. cbv zeta. right. right. exists r. split; [done|]. right. eauto 10.
Qed.

Lemma gc_roots_spec l g ok g' :
  Forall (fun itab => 0 <= itab) l -> gio_ok V (g_io g) -> (forall b, b ∈ g_stack g -> 0 <= b < 2^28) ->
  gc_roots l total g = (ok, g') ->
  gio_ok V (g_io g')
  /\ (ok = true ->
      (l <> [] \/ g_stack g = [] -> g_stack g' = [])
      /\ (forall b, 0 <= b ->
           marked g b = true \/ (exists itab, itab ∈ l /\ live_root V total itab b) -> marked g' b = true)
      /\ (g_stack g = [] -> forall b, 0 <= b ->
           marked g' b = true -> marked g b = true \/ exists itab, itab ∈ l /\ live_root V total itab b)).
Proof using HV Htotal MfsDeviceLaws0.
  intros Hl. revert g. induction Hl as [|itab l Hi Hl IH]; intros g Hg Hst; cbn [gc_roots].
  { intros [= <- <-]. split; [done|]. intros _. split; [by intros [?|?]|]. set_solver. }
  destruct (gc_root itab total g) as [ok1 g1] eqn:E1.
  destruct (gc_root_spec _ _ _ _ Hi Hg Hst E1) as [Hg1 Hok1]. destruct ok1; [|by intros [= <- <-]].
  destruct (Hok1 eq_refl) as (Hs1 & Hc1 & Hsd1). intros H.
  apply IH in H as [Hg' Hok]; [|done|rewrite Hs1; set_solver]. split; [done|]. intros Ht.
  destruct (Hok Ht) as (Hs & Hc & Hsd). split; [|split].
  - intros _. apply Hs. by right.
  - intros b Hb H. apply Hc; [done|]. destruct H as [H|(it & [->|Hin]%elem_of_cons & H)]; [auto|auto|eauto].
  - intros E0 b Hb H. apply Hsd in H as [H|(it & Hin & H)]; [|right; exists it; set_solver|done|done].
    apply Hsd1 in H as [H|H]; [by left|right; exists itab; set_solver|done|done].
Qed.

End roots.

(** ** The sweep *)

(** Masking a byte gives a byte: [a = a mod 2^8] is [a land 255]. *)
Lemma land_byte a b : is_byte a -> is_byte (Z.land a b).
Proof.
  unfold is_byte. intros Ha. assert (Z.land a b = Z.land (Z.land a b) (Z.ones 8)) as ->.
  { rewrite <- (Z.mod_small a 256) at 1 by lia. change 256 with (2^8). rewrite <- Z.land_ones by lia.
    rewrite <- !Z.land_assoc. f_equal. apply Z.land_comm. }
  rewrite Z.land_ones by lia. apply Z.mod_pos_bound. lia.
Qed.

Lemma bit_clear_bytes m i : byte_mem m -> byte_mem (bit_clear m i).
Proof. intros H. apply byte_mem_write_byte; [done|]. apply land_byte, H. Qed.

Lemma sweep_loop total mark l used p used' p' :
  total = MFS_TOTAL_BLOCKS p -> NoDup l -> Forall (fun b => 0 <= b < total) l ->
  foldl (sweep_step total mark) (used, p) l = (used', p') ->
  MFS_TOTAL_BLOCKS p' = total
  /\ (byte_mem (MFS_BMP p) -> byte_mem (MFS_BMP p'))
  /\ used' + free_in (fun b => mfs_mark_get b total mark) l = used + Z.of_nat (length l)
  /\ (forall b, 0 <= b ->
        mfs_bmp_get b p' = if decide (b ∈ l) then mfs_mark_get b total mark else mfs_bmp_get b p).
Proof.
  intros Ht Hnd Hl. revert used p Ht. induction Hnd as [|c l Hc Hnd IH]; intros used p Ht; cbn [foldl].
  { intros [= <- <-]. auto. }
  apply Forall_cons in Hl as [Hcr Hl]. unfold sweep_step at 2. intros H.
  destruct (mfs_mark_get c total mark) eqn:Em.
  - apply IH in H as (T & B & U & G); [|done|by rewrite bmp_total_set]. split; [done|]. split; [|split].
    + intros Hb. apply B. unfold mfs_bmp_set. destruct (_ <=? c); [done|]. destruct (bit_get _ c); [done|].
      by apply bit_set_bytes.
    + unfold free_in in *. rewrite filter_cons_False by congruence. cbn [length]. lia.
    + intros b Hb. rewrite G by done. rewrite bmp_get_set by lia. rewrite <- Ht, (proj2 (Z.ltb_lt c total)) by lia.
      rewrite andb_true_r. destruct (Z.eqb_spec b c) as [->|Hne]; cbn [orb].
      * rewrite decide_False by done. rewrite decide_True by set_solver. done.
      * destruct (decide (b ∈ l)); [rewrite decide_True by set_solver|rewrite decide_False by set_solver]; done.
  - apply IH in H as (T & B & U & G); [|done|by rewrite bmp_total_clear]. split; [done|]. split; [|split].
    + intros Hb. apply B. unfold mfs_bmp_clear. destruct (_ <=? c); [done|]. destruct (bit_get _ c); [|done].
      by apply bit_clear_bytes.
    + unfold free_in in *. rewrite filter_cons_True by done. cbn [length]. lia.
    + intros b Hb. rewrite G by done. rewrite bmp_get_clear by lia.
      destruct (Z.eqb_spec b c) as [->|Hne]; cbn [negb andb].
      * rewrite decide_False by done. rewrite decide_True by set_solver. done.
      * destruct (decide (b ∈ l)); [rewrite decide_True by set_solver|rewrite decide_False by set_solver]; done.
Qed.

(** Writing the metadata, whether it succeeds or not, leaves the bitmap in memory as it is. *)
Lemma bmp_flush_space {D} `{!MfsDevice D} (m : mfs D) ok m' :
  mfs_bmp_flush m = (ok, m') ->
  MFS_BMP (m_space m') = MFS_BMP (m_space m) /\ MFS_TOTAL_BLOCKS (m_space m') = MFS_TOTAL_BLOCKS (m_space m)
  /\ MFS_FREE_BLOCKS (m_space m') = MFS_FREE_BLOCKS (m_space m).
Proof.
  unfold mfs_bmp_flush. destruct (stage_all _ _) as [[] s1]; cbn [negb]; [|by intros [= <- <-]].
  destruct (mfs_commit_flush s1) as [[] s2]; cbn [negb]; by intros [= <- <-].
Qed.

(** The space after the sweep, with the count the sweep stores. *)
Lemma swept_space mark p used p' next :
  0 <= MFS_TOTAL_BLOCKS p <= MFS_MAX_BLOCKS -> byte_mem (MFS_BMP p) ->
  foldl (sweep_step (MFS_TOTAL_BLOCKS p) mark) (0, p) (seqZ 0 (MFS_TOTAL_BLOCKS p)) = (used, p') ->
  let total := MFS_TOTAL_BLOCKS p in
  let p1 := mk_space (MFS_BMP p') (MFS_BMP_DIRTY p') (MFS_TOTAL_BLOCKS p') (w32 (total - used)) next in
  MFS_TOTAL_BLOCKS p1 = total /\ byte_mem (MFS_BMP p1) /\ space_wf p1
  /\ (forall b, 0 <= b < total -> mfs_bmp_get b p1 = mfs_mark_get b total mark).
Proof.
  intros Htot Hb Ef total p1. fold total in Htot, Ef.
  apply sweep_loop in Ef as (T & B & U & G); [|done|apply NoDup_seqZ|].
  2: { apply Forall_forall. intros b Hbr%elem_of_seqZ. lia. }
  rewrite length_seqZ in U.
  assert (forall b, 0 <= b < total -> mfs_bmp_get b p1 = mfs_mark_get b total mark) as Hget.
  { intros b Hbr. change (mfs_bmp_get b p1) with (mfs_bmp_get b p'). rewrite G by lia.
    rewrite decide_True; [done|]. apply elem_of_seqZ. lia. }
  split; [exact T|]. split; [by apply B|]. split; [|exact Hget].
  split; [change (MFS_TOTAL_BLOCKS p1) with (MFS_TOTAL_BLOCKS p'); by rewrite T|].
  unfold count_free. change (MFS_TOTAL_BLOCKS p1) with (MFS_TOTAL_BLOCKS p'). rewrite T.
  rewrite (free_in_ext _ (fun b => mfs_mark_get b total mark)).
  2: { intros b Hbr%elem_of_seqZ. apply Hget. lia. }
  set (f := free_in _ _) in *. cbn [p1 MFS_FREE_BLOCKS]. assert (0 <= f <= total) as Hf.
  { subst f. unfold free_in.
    pose proof (length_filter (fun b => mfs_mark_get b total mark = false) (seqZ 0 total)) as H.
    rewrite length_seqZ in H. lia. }
  unfold w32. rewrite Z.mod_small; [lia|]. change MFS_MAX_BLOCKS with 33357824 in Htot. lia.
Qed.

Section sweep.
Context {D : Type} `{!MfsDevice D, !MfsDeviceLaws D}.
Implicit Types m : mfs D.

Lemma sweep_spec mark m n m' :
  meta_wf m -> MFS_WB (m_io m) = [] ->
  (forall b, 0 <= b < mfs_data_start (m_space m) -> mfs_mark_get b (MFS_TOTAL_BLOCKS (m_space m)) mark = true) ->
  mfs_gc_sweep mark m = (n, m') ->
  let total := MFS_TOTAL_BLOCKS (m_space m) in
  MFS_TOTAL_BLOCKS (m_space m') = total /\ space_wf (m_space m')
  /\ (forall b, 0 <= b < total -> mfs_bmp_get b (m_space m') = mfs_mark_get b total mark)
  /\ (n <> U64_MAX ->
      meta_wf m' /\ n = saturating_sub (MFS_FREE_BLOCKS (m_space m')) (MFS_FREE_BLOCKS (m_space m))
      /\ m_tab m' = m_tab m
      /\ forall b, mfs_data_start (m_space m) <= b -> mfs_view (m_io m') b = mfs_view (m_io m) b).
Proof using MfsDeviceLaws0.
  intros Hwf Hwb Hmeta. unfold mfs_gc_sweep. set (total := MFS_TOTAL_BLOCKS (m_space m)) in *.
  destruct (foldl _ _ _) as [used p] eqn:Ef.
  destruct (w_store _ Hwf) as (_ & [Htot _] & _).
  destruct (swept_space _ _ _ _ (mfs_data_start p) Htot (w_bmp _ Hwf) Ef) as (T & B & Hp1 & Hget).
  fold total in T, B, Hp1, Hget. set (p1 := mk_space _ _ _ _ _) in *.
  assert (meta_wf (mk_mfs (m_io m) p1 (m_super m) (m_tab m))) as Hwf1.
  { assert (mfs_data_start p1 = mfs_data_start (m_space m)) as Eds by (unfold mfs_data_start; by rewrite T).
    split; cbn.
    - split; [apply (w_store _ Hwf)|]. split; [done|]. intros b _. by rewrite (wb_has_empty _ _ Hwb).
    - intros b Hb. rewrite Eds in Hb. pose proof (Hmeta b Hb) as Hmb. split; [|by apply wb_has_empty].
      rewrite Hget; [done|]. unfold mfs_mark_get in Hmb. destruct (Z.leb_spec total b); [done|lia].
    - rewrite (w_bb _ Hwf). unfold p1 in T. cbn in T. by rewrite T.
    - exact B. }
  destruct (mfs_bmp_flush _) as [ok m2] eqn:Eb. pose proof (bmp_flush_space _ _ _ Eb) as (F1 & F2 & F3).
  cbn [m_space] in F1, F2, F3.
  assert (forall b, mfs_bmp_get b (m_space m2) = mfs_bmp_get b p1) as Hg2
    by (intros b; unfold mfs_bmp_get; by rewrite F1, F2).
  assert (space_wf (m_space m2)) as Hs2.
  { split; [by rewrite F2; apply Hp1|]. rewrite F3, (proj2 Hp1). unfold count_free. rewrite F2. symmetry. by apply free_in_ext. }
  intros H. assert (m' = m2) as -> by (destruct ok; cbn in H; by injection H).
  split; [by rewrite F2|]. split; [done|]. split; [intros b Hb; rewrite Hg2; auto|]. intros Hn.
  destruct ok; cbn [negb] in H; [|by injection H as <-]. injection H as <-.
  destruct (bmp_flush_spec _ _ Hwf1 Eb) as (W & Tb & _ & _ & _ & _ & Hv & _).
  split; [done|]. split; [by rewrite F3|]. split; [done|]. intros b Hb. apply Hv.
  cbn [m_space]. unfold mfs_data_start in *. by rewrite T.
Qed.

(** The blocks in use that reclamation keeps. *)
Definition live (V : Z -> list Z) m (b : Z) : Prop :=
  0 <= b < mfs_data_start (m_space m)
  \/ exists itab, itab ∈ gc_itabs (m_super m)
       /\ live_root V (MFS_TOTAL_BLOCKS (m_space m)) itab b.

Lemma gc_mark_spec V stack m ok mark stack' s' :
  meta_wf m -> (forall b, block_data (V b)) -> gio_ok V (m_io m) -> (forall b, b ∈ stack -> 0 <= b < 2^28) ->
  Forall (fun itab => 0 <= itab) (gc_itabs (m_super m)) -> mfs_gc_mark stack m = (ok, mark, stack', s') ->
  let total := MFS_TOTAL_BLOCKS (m_space m) in
  gio_ok V s'
  /\ (ok = true ->
      stack' = []
      /\ (forall b, 0 <= b < total -> live V m b -> mfs_mark_get b total mark = true)
      /\ (stack = [] -> forall b, 0 <= b -> mfs_mark_get b total mark = true -> live V m b)).
Proof using MfsDeviceLaws0.
  intros Hwf HV Hg Hst Hit. unfold mfs_gc_mark. set (total := MFS_TOTAL_BLOCKS (m_space m)).
  destruct (w_store _ Hwf) as (Hio & [Htot _] & _). fold total in Htot.
  destruct (_ || _); [by intros [= <- <- <- <-]|].
  set (g0 := mk_gc _ _ _ _ _). destruct (gc_roots _ total g0) as [ok1 g] eqn:E.
  apply gc_roots_spec with (V := V) in E as [Hg' Hok]; [|done..].
  intros [[[<- <-]%pair_equal_spec <-]%pair_equal_spec <-]%pair_equal_spec. split; [exact Hg'|]. intros Ht.
  destruct (Hok Ht) as (Hs & Hc & Hsd).
  assert (forall b, 0 <= b -> marked total g0 b = true <-> b < mfs_data_start (m_space m) /\ b < total) as H0.
  { intros b Hb. unfold marked. cbn [g0 g_mark].
    rewrite mark_range; [|done|apply Forall_forall; intros c Hc'%elem_of_seqZ; lia].
    rewrite mark_scratch, elem_of_seqZ. intuition lia. }
  split; [apply Hs; by left|]. unfold live. fold total. split.
  - intros b Hb [H|H]; apply Hc; [lia|left; apply H0; lia|lia|right; exact H].
  - intros Es b Hb H. apply Hsd in H as [H|H]; [|by right|done|done]. left. apply H0 in H; lia.
Qed.

Lemma meta_wf_flushed m (s : mfs_io D) :
  meta_wf m -> MFS_WB s = [] -> meta_wf (mk_mfs s (m_space m) (m_super m) (m_tab m)).
Proof.
  intros Hwf Hwb. destruct (w_store _ Hwf) as (_ & Hsp & _). split; cbn.
  - split; [unfold io_wf; rewrite Hwb; split; constructor|]. split; [done|].
    intros b _. by rewrite (wb_has_empty _ _ Hwb).
  - intros b Hb. split; [by apply (w_meta _ Hwf)|by apply wb_has_empty].
  - apply (w_bb _ Hwf).
  - apply (w_bmp _ Hwf).
Qed.

(** What the sweep keeps is enough for the inode table. *)
Lemma itab_wf_kept m m' :
  itab_wf m -> meta_wf m' -> m_tab m' = m_tab m -> MFS_TOTAL_BLOCKS (m_space m') = MFS_TOTAL_BLOCKS (m_space m) ->
  (forall b, mfs_data_start (m_space m) <= b -> mfs_view (m_io m') b = mfs_view (m_io m) b) ->
  (forall t, t ∈ MFS_ITAB_MEM (m_tab m) -> t <> 0 -> mfs_bmp_get t (m_space m') = true) ->
  itab_wf m' /\ forall ino, 0 < ino < MFS_INO_MAX -> itab_lookup m' ino = itab_lookup m ino.
Proof using MfsDeviceLaws0.
  intros Hwf Hm Et T Hv Hu.
  assert (mfs_data_start (m_space m') = mfs_data_start (m_space m)) as Ed by (unfold mfs_data_start; by rewrite T).
  assert (forall k, 0 <= k < MFS_ITAB_SLOTS -> mfs_itab_table k (m_tab m) <> 0 ->
            mfs_itab_table k (m_tab m) ∈ MFS_ITAB_MEM (m_tab m)) as Hin.
  { intros k Hk. unfold mfs_itab_table. destruct (_ <=? k); [done|].
    unfold lookupZ. destruct (_ && _); [|done].
    destruct (_ !! _) as [t|] eqn:E; [|done]. intros _. by eapply list_elem_of_lookup_2. }
  assert (forall t, t ∈ MFS_ITAB_MEM (m_tab m) -> t <> 0 -> mfs_view (m_io m') t = mfs_view (m_io m) t) as Hvt.
  { intros t Ht Hz. apply Hv. apply (w_tables _ Hwf t Ht Hz). }
  split; [split|].
  - done.
  - rewrite Et. apply (w_len _ Hwf).
  - rewrite Et. intros t Ht Hz. destruct (w_tables _ Hwf t Ht Hz) as (Hr & _ & Hok).
    split; [by rewrite Ed, T|]. split; [auto|]. by rewrite Hvt.
  - rewrite Et. destruct (w_cache _ Hwf) as [H|(Hk & Hz & Ha)]; [by left|right]. split; [done|]. split; [done|].
    rewrite Hvt by auto. done.
  - rewrite Et. apply (w_buf _ Hwf).
  - intros ino Hino. unfold itab_lookup, mfs_ino_slot. rewrite Et. destruct (ino_slot_range ino Hino) as [Hk _].
    destruct (Z.eqb_spec (mfs_itab_table (ino / MFS_ITAB_SLOTS) (m_tab m)) 0) as [|Hz]; [done|].
    by rewrite Hvt by auto.
Qed.

End sweep.

(** C17. Reclamation keeps exactly what is reachable. If the traversal fails, nothing changes.
    Otherwise every block of the metadata area and every block reached from the root directory, by
    the current inode table or by a snapshot's, stays in use, whatever the stack was left with by
    an earlier traversal; if it was left empty, no other block stays in use. The count of free
    blocks is then that of the bitmap. When the new bitmap has been written, the data area is as it
    was, the result is the number of blocks gained, and the inode table still translates every
    inode number as before. *)
Theorem gc_keeps_reachable {D} `{!MfsDevice D, !MfsDeviceLaws D} stack (m : mfs D) s n stack' m' :
  meta_wf m -> (forall b, b ∈ stack -> 0 <= b < 2^28) -> Forall (fun itab => 0 <= itab) (gc_itabs (m_super m)) ->
  mfs_commit_flush (m_io m) = (true, s) -> mfs_gc stack m = (n, stack', m') ->
  (n = U64_MAX /\ m_space m' = m_space m /\ forall b, mfs_view (m_io m') b = mfs_view (m_io m) b)
  \/ (stack' = [] /\ space_wf (m_space m')
      /\ (forall b, 0 <= b < MFS_TOTAL_BLOCKS (m_space m) -> live (mfs_view (m_io m)) m b -> mfs_bmp_get b (m_space m') = true)
      /\ (stack = [] -> forall b, 0 <= b -> mfs_bmp_get b (m_space m') = true -> live (mfs_view (m_io m)) m b)
      /\ (n <> U64_MAX ->
          meta_wf m'
          /\ n = saturating_sub (MFS_FREE_BLOCKS (m_space m')) (MFS_FREE_BLOCKS (m_space m))
          /\ (forall b, mfs_data_start (m_space m) <= b -> mfs_view (m_io m') b = mfs_view (m_io m) b)
          /\ (itab_wf m -> MFS_ITAB_MEM (m_tab m) = index_slots (loaded (mfs_view (m_io m) (MFS_ITAB (m_super m)))) ->
              itab_wf m' /\ forall ino, 0 < ino < MFS_INO_MAX -> itab_lookup m' ino = itab_lookup m ino))).
Proof.
  intros Hwf Hst Hit Hfl. unfold mfs_gc. rewrite Hfl. cbn [negb m_io m_space m_super m_tab].
  set (m1 := mk_mfs s _ _ _). destruct (w_store _ Hwf) as (Hio & Hsp & _).
  destruct (flush_spec _ _ _ Hio Hfl) as (Hwb & _ & Hview).
  assert (forall b, mfs_view s b = mfs_view (m_io m) b) as Hv by (intros b; apply Hview; by left).
  assert (meta_wf m1) as Hwf1 by by apply meta_wf_flushed.
  destruct (mfs_gc_mark stack m1) as [[[ok mark] stack1] s1] eqn:Em.
  apply gc_mark_spec with (V := mfs_view (m_io m)) in Em as [[Hwb1 Hv1] Hok];
    [|done|intros; by apply view_block|done..].
  set (m2 := mk_mfs s1 _ _ _). destruct ok; cbn [negb]; [|by intros [= <- <- <-]; left].
  destruct (Hok eq_refl) as (-> & Hc & Hsd). destruct (mfs_gc_sweep mark m2) as [n1 m3] eqn:Esw.
  assert (meta_wf m2) as Hwf2 by by apply meta_wf_flushed.
  apply sweep_spec in Esw as (T & Hs3 & Hget & Hn); [|done|done|].
  2: { intros b Hb. apply Hc; [|by left]. pose proof (proj1 (w_meta _ Hwf b Hb)) as H. unfold mfs_bmp_get in H.
       cbn. destruct (Z.leb_spec (MFS_TOTAL_BLOCKS (m_space m)) b); [done|lia]. }
  cbn [m2 m_io m_space m_super m_tab] in *. intros [= <- <- <-]. right. split; [done|]. split; [done|].
  assert (forall b, 0 <= b < MFS_TOTAL_BLOCKS (m_space m) -> live (mfs_view (m_io m)) m b ->
            mfs_bmp_get b (m_space m3) = true) as Hkeep by (intros b Hb Hl; rewrite Hget by done; by apply Hc).
  split; [exact Hkeep|]. split.
  - intros Es b Hb H. apply Hsd; [done|done|]. rewrite <- Hget; [done|].
    unfold mfs_bmp_get in H. destruct (Z.leb_spec (MFS_TOTAL_BLOCKS (m_space m3)) b); [done|lia].
  - intros Hne. destruct (Hn Hne) as (W & En & Et & Hvw). split; [done|]. split; [done|].
    assert (forall b, mfs_data_start (m_space m) <= b -> mfs_view (m_io m3) b = mfs_view (m_io m) b) as Hv3
      by (intros b Hb; rewrite Hvw by done; apply Hv1).
    split; [exact Hv3|]. intros Hiw Emem. apply itab_wf_kept; [done..|].
    intros t Ht Hz. destruct (w_tables _ Hiw t Ht Hz) as (Hr & _).
    pose proof (data_start_pos (m_space m) ltac:(apply Hsp)) as Hds.
    apply Hkeep; [lia|]. right. exists (MFS_ITAB (m_super m)). split; [set_solver|].
    split; [unfold valid; lia|]. right. left. by rewrite <- Emem.
Qed.

(** ** A volume

    32 blocks: index block 6, table block 7, an empty root directory in block 8, and block 9 in use
    but not referred to. *)

Definition sealed (magic : Z) (buf : mem) : list Z := slice_at 0 (Z.to_nat MFS_BLOCK) (mfs_seal magic buf).

Lemma sealed_data magic buf : byte_mem buf -> block_data (sealed magic buf).
Proof. intros H. split; [apply length_slice_at|by apply byte_mem_slice, seal_byte_mem]. Qed.

Lemma sealed_ok magic buf m :
  byte_mem buf -> 0 <= magic < 2^32 -> mfs_ok (loaded (sealed magic buf)) m = (magic =? m).
Proof. intros Hb Hm. rewrite (ok_ext _ (mfs_seal magic buf)) by apply loaded_slice. by apply seal_ok. Qed.

Lemma sealed_read magic buf : agree 8 MFS_BLOCK (loaded (sealed magic buf)) buf.
Proof.
  intros a Ha. unfold sealed. rewrite (loaded_slice (mfs_seal magic buf)) by lia. unfold mfs_seal. by rewrite !write_u32_out by lia.
Qed.

Lemma sealed_own magic buf :
  byte_mem buf -> (0 <=? magic) && (magic <? 2^32) = true -> mfs_ok (loaded (sealed magic buf)) magic = true.
Proof.
  intros Hb Hm. apply andb_prop in Hm as [H1 H2]. bool_to_prop. rewrite sealed_ok by done. apply Z.eqb_refl.
Qed.

Lemma sealed_u32 magic buf p : 8 <= p <= MFS_BLOCK - 4 -> read_u32 (loaded (sealed magic buf)) p = read_u32 buf p.
Proof. intros Hp. apply read_u32_ext. eapply agree_sub; [apply sealed_read|lia|lia]. Qed.

Definition demo_index : mem := write_u32 8 7 scratch.
Definition demo_table : mem := write_u32 12 8 scratch.
Definition demo_dir : mem := mfs_dir_init_empty scratch.

Lemma demo_index_bytes : byte_mem demo_index.
Proof. by apply byte_mem_write_u32. Qed.
Lemma demo_table_bytes : byte_mem demo_table.
Proof. by apply byte_mem_write_u32. Qed.
Lemma demo_dir_bytes : byte_mem demo_dir.
Proof.
  unfold demo_dir, mfs_dir_init_empty, mfs_ent_clear, mfs_dir_set_ext.
  apply byte_mem_write_u16. do 2 (apply byte_mem_write_byte; [|done]). by do 3 apply byte_mem_write_u32.
Qed.

Lemma demo_index_slots : forall t, t ∈ index_slots (loaded (sealed MFS_MAGIC_ITABX demo_index)) -> t = 0 \/ t = 7.
Proof.
  intros t (k & -> & Hk%elem_of_seqZ)%list_elem_of_fmap.
  change (0 + MFS_ITAB_SLOTS) with 1022 in Hk. change MFS_HDR with 8.
  rewrite sealed_u32 by (change MFS_BLOCK with 4096; lia). unfold demo_index. destruct (Z.eq_dec k 0) as [->|Hz].
  - right. by rewrite read_write_u32.
  - left. rewrite (read_u32_ext _ _ scratch); [done|]. intros a Ha. apply write_u32_out. lia.
Qed.

Lemma mark_tables_ok l total mark :
  (forall t, t ∈ l -> t = 0 \/ t < total) -> exists mark', mark_tables l total mark = (true, mark').
Proof.
  revert mark. induction l as [|t l IH]; intros mark H; cbn [mark_tables]; [eauto|].
  destruct (Z.eqb_spec t 0); [apply IH; set_solver|].
  destruct (H t) as [|Ht]; [set_solver|done|]. rewrite (proj2 (Z.leb_gt _ _)) by done. apply IH. set_solver.
Qed.

(** A device whose transfers complete: so does the writing of the metadata. *)
Lemma ram_flush (s : mfs_io ram_blocks) : exists s', @mfs_commit_flush _ (ram_mfs true) s = (true, s').
Proof. unfold mfs_commit_flush. destruct (MFS_WB s); cbn; eauto. Qed.

Lemma ram_stage_all l (s : mfs_io ram_blocks) : exists s', @stage_all _ (ram_mfs true) l s = (true, s').
Proof.
  revert s. induction l as [|[b bs] l IH]; intros s; cbn [stage_all]; [eauto|].
  unfold mfs_wb_stage. destruct (_ <=? _)%nat.
  - destruct (ram_flush s) as [s1 ->]. apply IH.
  - apply IH.
Qed.

Lemma ram_sweep mark (m : mfs ram_blocks) :
  MFS_TOTAL_BLOCKS (m_space m) = 32 -> 0 <= MFS_FREE_BLOCKS (m_space m) -> exists n m', @mfs_gc_sweep _ (ram_mfs true) mark m = (n, m') /\ n <> U64_MAX.
Proof.
  intros Ht Hf. unfold mfs_gc_sweep. destruct (foldl _ _ _) as [used p]. unfold mfs_bmp_flush.
  cbn [m_super m_space m_io m_tab]. match goal with |- context [stage_all ?l ?s] => destruct (ram_stage_all l s) as [s1 ->] end.
  cbn [negb]. destruct (ram_flush s1) as [s2 ->]. cbn [negb]. eexists _, _.
  split; [reflexivity|]. rewrite Ht.
  unfold saturating_sub, w32, U64_MAX. pose proof (Z.mod_pos_bound (32 - used) (2^32) ltac:(lia)). lia.
Qed.

Section volume.
Context (c6 c7 c8 : list Z).

Definition demo_blocks : ram_blocks := fun vol lba =>
  if lba =? 48 then c6 else if lba =? 56 then c7 else if lba =? 64 then c8 else [].

Definition demo_gc : mfs ram_blocks :=
  mk_mfs (mk_io 1 [] demo_blocks)
    (mk_space (fun a => if a =? 0 then 255 else if a =? 1 then 3 else 0) (fun _ => 0) 32 22 0)
    (mk_super 4 6 1 2 [] 0 1)
    (mk_tab (7 :: replicate (Z.to_nat MFS_ITAB_SLOTS - 1) 0) U32_MAX (fun _ => 0)).

Lemma demo_gc_wf : meta_wf demo_gc.
Proof.
  split; cbn.
  - split; [split; constructor|]. split; [split; [done|vm_compute; reflexivity]|]. done.
  - intros b Hb. change (mfs_data_start _) with 6 in Hb. split; [|done].
    assert (b = 0 \/ b = 1 \/ b = 2 \/ b = 3 \/ b = 4 \/ b = 5) as [->|[->|[->|[->|[->| ->]]]]] by lia; done.
  - done.
  - intros a. unfold is_byte. destruct (a =? 0); [lia|]. destruct (a =? 1); lia.
Qed.

Lemma demo_read b c :
  demo_blocks 1 (w32 (b * MFS_SECTORS_PER_BLOCK)) = c -> block_data c ->
  @mfs_read_blk _ (ram_mfs true) b scratch (m_io demo_gc) = (true, loaded c, m_io demo_gc).
Proof.
  intros E Hb. unfold mfs_read_blk. cbn -[demo_blocks w32 copy_to block_of MFS_SECTORS_PER_BLOCK].
  rewrite E. by rewrite block_of_id.
Qed.

Context (D6 : block_data c6) (K6 : mfs_ok (loaded c6) MFS_MAGIC_ITABX = true).
Context (S6 : forall t, t ∈ index_slots (loaded c6) -> t = 0 \/ t = 7) (R6 : read_u32 (loaded c6) 8 = 7).
Context (D7 : block_data c7) (K7 : mfs_ok (loaded c7) MFS_MAGIC_ITAB = true) (R7 : read_u32 (loaded c7) 12 = 8).
Context (D8 : block_data c8) (K8 : mfs_ok (loaded c8) MFS_MAGIC_DIR = true).
Context (N8 : mfs_ent_name_len (loaded c8) DIR_BASE = 0) (E8 : mfs_ent_step (loaded c8) DIR_BASE = Some DIR_END).
Context (X8 : mfs_dir_ext (loaded c8) = 0).

Lemma demo_expand g :
  exists g', @gc_expand _ (ram_mfs true) (loaded c8) 32 g = (true, g') /\ g_stack g' = g_stack g.
Proof using K8 N8 E8 X8.
  unfold gc_expand. rewrite K8. generalize dependent (loaded c8). intros gb _ E1 E2 E3.
  change (S DIR_TURNS) with (S (S (pred DIR_TURNS))). cbn [gc_dir_loop].
  change (DIR_END <? DIR_BASE + MFS_DIR_ENT_HDR) with false.
  rewrite E1. change (negb (0 =? 0)) with false. cbn [negb]. rewrite E2.
  change (DIR_END <? DIR_END + MFS_DIR_ENT_HDR) with true. cbn [negb]. rewrite E3.
  exists g. split; reflexivity.
Qed.

Lemma demo_mark : exists mark stack s, @mfs_gc_mark _ (ram_mfs true) [] demo_gc = (true, mark, stack, s).
Proof using All.
  unfold mfs_gc_mark. change (MFS_TOTAL_BLOCKS (m_space demo_gc)) with 32.
  change (gc_itabs (m_super demo_gc)) with [6].
  change ((32 =? 0) || (MFS_MAX_BLOCKS <? 32)) with false. set (mark0 := foldl _ _ _). clearbody mark0.
  cbn [gc_roots]. unfold gc_root, mfs_gc_load_itab. change ((6 =? 0) || (32 <=? 6)) with false.
  cbn [with_mark g_mark g_seen g_stack g_x g_io]. rewrite (demo_read 6 c6 eq_refl D6), K6. cbn [negb orb g_mark].
  destruct (mark_tables_ok (index_slots (loaded c6)) 32 (mfs_mark_set 6 32 mark0)) as [mark1 ->];
    [intros t Ht; apply S6 in Ht; lia|].
  cbn [negb with_mark g_mark g_seen g_stack g_x g_io].
  unfold mfs_gc_ino_block. change ((MFS_ROOT_INO =? 0) || (MFS_INO_MAX <=? MFS_ROOT_INO)) with false.
  change (mfs_ino_slot MFS_ROOT_INO) with (0, 1). cbn [g_x g_io]. change (MFS_HDR + 0 * 4) with 8.
  rewrite R6. change (7 =? 0) with false. rewrite (demo_read 7 c7 eq_refl D7), K7. cbn [negb orb].
  change (MFS_HDR + 1 * 4) with 12. rewrite R7. change (8 =? 0) with false.
  unfold mfs_gc_push. cbn [with_io g_seen g_stack g_mark g_x g_io]. rewrite seen_scratch.
  change ((8 =? 0) || (32 <=? 8) || false) with false.
  change ((MFS_GC_STACK_MAX <=? length [])%nat) with false. cbn [negb].
  unfold mfs_gc_drain. cbn [g_stack length]. change (Z.to_nat 32 + 1)%nat with (S (S 31)).
  cbn [drain_loop g_stack g_io g_mark g_seen g_x]. rewrite (demo_read 8 c8 eq_refl D8). cbn [negb].
  match goal with |- context [gc_expand _ 32 ?g] => destruct (demo_expand g) as (g' & -> & Hst) end.
  cbn [negb]. rewrite Hst. cbn [g_stack default]. eexists _, _, _. reflexivity.
Qed.

Lemma demo_runs :
  exists n stack' m', @mfs_gc _ (ram_mfs true) [] demo_gc = (n, stack', m') /\ n <> U64_MAX.
Proof using All.
  unfold mfs_gc. change (@mfs_commit_flush _ (ram_mfs true) (m_io demo_gc)) with (true, m_io demo_gc). cbn [negb].
  change (mk_mfs (m_io demo_gc) (m_space demo_gc) (m_super demo_gc) (m_tab demo_gc)) with demo_gc.
  destruct demo_mark as (mark & stack & s & ->). cbn [negb].
  destruct (ram_sweep mark (mk_mfs s (m_space demo_gc) (m_super demo_gc) (m_tab demo_gc))) as (n & m' & -> & Hn);
    [done|done|]. eauto.
Qed.

(** The only node below the root directory is the directory itself. *)
Lemma demo_live b :
  live (@mfs_view _ (ram_mfs true) (m_io demo_gc)) demo_gc b -> b < 9.
Proof using All.
  intros [Hb|(itab & Hi & Hv & H)]; [change (mfs_data_start _) with 6 in Hb; lia|].
  apply list_elem_of_singleton in Hi as ->. cbv zeta in H.
  change (MFS_ITAB (m_super demo_gc)) with 6 in *. change (MFS_TOTAL_BLOCKS (m_space demo_gc)) with 32 in *.
  set (V := mfs_view _) in H.
  assert (V 6 = c6 /\ V 7 = c7 /\ V 8 = c8) as (V6 & V7 & V8).
  { split; [exact (block_of_id c6 D6)|]. split; [exact (block_of_id c7 D7)|exact (block_of_id c8 D8)]. }
  clearbody V. rewrite V6 in H. destruct H as [->|[H%S6|(r & Hr & H)]]; [lia|lia|].
  assert (r = 8) as ->.
  { unfold tr_of in Hr. change ((MFS_ROOT_INO =? 0) || (MFS_INO_MAX <=? MFS_ROOT_INO)) with false in Hr.
    change (mfs_ino_slot MFS_ROOT_INO) with (0, 1) in Hr. cbv beta iota zeta in Hr.
    change (MFS_HDR + 0 * 4) with 8 in Hr.
    change (MFS_HDR + 1 * 4) with 12 in Hr. rewrite R6 in Hr. change (7 =? 0) with false in Hr.
    cbv iota in Hr. rewrite V7, K7, R7 in Hr. congruence. }
  assert (edges_of V (loaded c6) 8 = Some ([0], [])) as Hed.
  { unfold edges_of, node_edges. rewrite V8, K8. change (S DIR_TURNS) with (S (S (pred DIR_TURNS))).
    cbn [dir_inos]. change (DIR_END <? DIR_BASE + MFS_DIR_ENT_HDR) with false. rewrite E8, N8.
    change (DIR_END <? DIR_END + MFS_DIR_ENT_HDR) with true. rewrite X8. reflexivity. }
  assert (forall n, reach V 32 (loaded c6) 8 n -> n = 8) as Hre.
  { intros n Hn. induction Hn as [|n c cs ls _ -> He Hc Hvc]; [done|]. rewrite Hed in He. injection He as <- <-.
    apply list_elem_of_singleton in Hc. unfold valid in Hvc. lia. }
  destruct H as [H|(n & cs & ls & Hn & He & Hin)]; [apply Hre in H; lia|].
  rewrite (Hre _ Hn), Hed in He. injection He as <- <-. by apply elem_of_nil in Hin.
Qed.

End volume.

Definition demo_volume : mfs ram_blocks :=
  demo_gc (sealed MFS_MAGIC_ITABX demo_index) (sealed MFS_MAGIC_ITAB demo_table) (sealed MFS_MAGIC_DIR demo_dir).

Lemma demo_dir_facts (c := sealed MFS_MAGIC_DIR demo_dir) :
  mfs_ent_name_len (loaded c) DIR_BASE = 0 /\ mfs_ent_step (loaded c) DIR_BASE = Some DIR_END.
Proof.
  assert (forall a, 8 <= a < MFS_BLOCK -> loaded c a = demo_dir a) as Hr by apply sealed_read. clearbody c.
  split; [unfold mfs_ent_name_len; rewrite Hr by done; reflexivity|].
  unfold mfs_ent_step, mfs_ent_rec_len. assert (read_u16 (loaded c) (DIR_BASE + 6) = 4040) as ->; [|reflexivity].
  rewrite (read_u16_ext _ (loaded c) demo_dir); [reflexivity|]. intros a Ha. apply Hr.
  change (DIR_BASE + 6) with 62 in Ha. change MFS_BLOCK with 4096. lia.
Qed.

Lemma demo_index_root : read_u32 (loaded (sealed MFS_MAGIC_ITABX demo_index)) 8 = 7.
Proof. rewrite sealed_u32 by done. reflexivity. Qed.
Lemma demo_table_root : read_u32 (loaded (sealed MFS_MAGIC_ITAB demo_table)) 12 = 8.
Proof. rewrite sealed_u32 by done. reflexivity. Qed.
Lemma demo_dir_ext : mfs_dir_ext (loaded (sealed MFS_MAGIC_DIR demo_dir)) = 0.
Proof. unfold mfs_dir_ext. change MFS_HDR with 8. rewrite sealed_u32 by done. reflexivity. Qed.

Lemma demo_volume_runs :
  exists n stack' m', @mfs_gc _ (ram_mfs true) [] demo_volume = (n, stack', m') /\ n <> U64_MAX.
Proof.
  exact (demo_runs _ _ _
    (sealed_data MFS_MAGIC_ITABX _ demo_index_bytes) (sealed_own MFS_MAGIC_ITABX _ demo_index_bytes eq_refl) demo_index_slots demo_index_root
    (sealed_data MFS_MAGIC_ITAB _ demo_table_bytes) (sealed_own MFS_MAGIC_ITAB _ demo_table_bytes eq_refl) demo_table_root
    (sealed_data MFS_MAGIC_DIR _ demo_dir_bytes) (sealed_own MFS_MAGIC_DIR _ demo_dir_bytes eq_refl)
    (proj1 demo_dir_facts) (proj2 demo_dir_facts) demo_dir_ext).
Qed.

Lemma demo_nine : ~ live (@mfs_view _ (ram_mfs true) (m_io demo_volume)) demo_volume 9.
Proof.
  intros H. apply (demo_live _ _ _
    (sealed_data MFS_MAGIC_ITABX _ demo_index_bytes) (sealed_own MFS_MAGIC_ITABX _ demo_index_bytes eq_refl) demo_index_slots demo_index_root
    (sealed_data MFS_MAGIC_ITAB _ demo_table_bytes) (sealed_own MFS_MAGIC_ITAB _ demo_table_bytes eq_refl) demo_table_root
    (sealed_data MFS_MAGIC_DIR _ demo_dir_bytes) (sealed_own MFS_MAGIC_DIR _ demo_dir_bytes eq_refl)
    (proj1 demo_dir_facts) (proj2 demo_dir_facts) demo_dir_ext) in H.
  lia.
Qed.

(** The volume can be reclaimed; block 9 is free afterwards, the index block is not. *)
Lemma gc_keeps_reachable_witness :
  exists n stack' m', @mfs_gc _ (ram_mfs true) [] demo_volume = (n, stack', m')
    /\ n <> U64_MAX /\ meta_wf m' /\ mfs_bmp_get 6 (m_space m') = true /\ mfs_bmp_get 9 (m_space m') = false.
Proof.
  assert (forall b : Z, b ∈ @nil Z -> 0 <= b < 2^28) as Hst by (intros b Hb; by apply elem_of_nil in Hb).
  assert (Forall (fun itab => 0 <= itab) (gc_itabs (m_super demo_volume))) as Hit.
  { change (gc_itabs (m_super demo_volume)) with [6]. repeat constructor. lia. }
  assert (0 <= 6 < 32 /\ valid 32 6 /\ 0 <= 9) as (H6 & V6 & H9) by (unfold valid; lia).
  destruct demo_volume_runs as (n & stack' & m' & E & Hn). exists n, stack', m'.
  split; [exact E|]. split; [exact Hn|].
  destruct (@gc_keeps_reachable _ (ram_mfs true) (ram_mfs_laws true) [] demo_volume (m_io demo_volume) n stack' m'
              (demo_gc_wf _ _ _) Hst Hit eq_refl E) as [[Hbad _]|(_ & _ & Hkeep & Honly & Hok)].
  - elim (Hn Hbad).
  - split; [exact (proj1 (Hok Hn))|]. split.
    + apply (Hkeep 6 H6). right. exists 6. split; [left|]. split; [exact V6|]. left. reflexivity.
    + apply not_true_is_false. intros Hu. exact (demo_nine (Honly eq_refl 9 H9 Hu)).
Defined.
