(* ===== verification/MfsMount.v ===== *)
(** * MfsMount: mounting and formatting a MorionFS volume (src/user/srv/src/mfs_srv.rs)

    A commit writes the metadata twice: superblock, bitmap header and bitmap blocks of copy 0 and of
    copy 1. Mounting takes the valid superblock of the higher generation, loads the inode index and
    the bitmap of the same copy, falls back to the other copy when the bitmap is damaged, and
    rebuilds the bitmap by reclamation when both are. This file holds mounting, formatting and the
    tests that keep a volume with data from being formatted, and proves that mounting restores the
    committed state as long as one copy is intact. *)

From S2P Require Import Prelude Bytes Crc MfsBlock MfsItab MfsDir MfsGc.

Definition MFS_MAX_SNAP : nat := 8.
Definition MFS_DEFAULT_TOTAL_BLOCKS : Z := 4096.
Definition MFS_MIN_TOTAL_BLOCKS : Z := 64.
Definition MFS_MAGIC_NONE : Z := 0.
Definition MFS_MAGIC_MATCH : Z := 1.
Definition MFS_MAGIC_FAMILY_MISMATCH : Z := 2.
Definition MFS_MAGIC_FAMILY_PREFIX : Z := 0x4D465300.

(** ** Node metadata *)

Definition MFS_META_MODE : Z := 0.
Definition MFS_META_OWNER : Z := 2.
Definition MFS_META_NLINK : Z := 4.
Definition MFS_META_MTIME : Z := 8.
Definition MFS_META_CTIME : Z := 16.
Definition MFS_META_ATIME : Z := 24.
Definition MFS_META_UID : Z := 32.
Definition MFS_META_GID : Z := 34.
Definition MFS_MODE_DIR : Z := 0x1ED.
Definition MFS_MODE_MASK : Z := 0xFFF.
Definition MFS_FTYPE_MASK : Z := 0xF000.
Definition MFS_FTYPE_DIR : Z := 0x4000.
Definition MFS_UID_ROOT : Z := 0.
Definition MFS_GID_ROOT : Z := 0.
Definition MFS_FILE_RESERVED_OFF : Z := MFS_FILE_IND3_OFF + 4.

Record Cred : Type := mk_cred { cred_uid : Z; cred_gid : Z }.

Definition mfs_meta_off (is_dir : bool) : Z := if is_dir then MFS_HDR + 8 else MFS_FILE_RESERVED_OFF.

Definition mfs_get_mode (buf : mem) (is_dir : bool) : Z := read_u16 buf (mfs_meta_off is_dir + MFS_META_MODE).
Definition mfs_set_mode (is_dir : bool) (v : Z) (buf : mem) : mem :=
  let off := mfs_meta_off is_dir + MFS_META_MODE in
  let ty := Z.land (read_u16 buf off) MFS_FTYPE_MASK in
  write_u16 off (Z.lor ty (Z.land v MFS_MODE_MASK)) buf.
Definition mfs_set_owner (is_dir : bool) (v : Z) (buf : mem) : mem := write_u16 (mfs_meta_off is_dir + MFS_META_OWNER) v buf.
Definition mfs_get_uid (buf : mem) (is_dir : bool) : Z := read_u16 buf (mfs_meta_off is_dir + MFS_META_UID).
Definition mfs_set_uid (is_dir : bool) (v : Z) (buf : mem) : mem := write_u16 (mfs_meta_off is_dir + MFS_META_UID) v buf.
Definition mfs_get_gid (buf : mem) (is_dir : bool) : Z := read_u16 buf (mfs_meta_off is_dir + MFS_META_GID).
Definition mfs_set_gid (is_dir : bool) (v : Z) (buf : mem) : mem := write_u16 (mfs_meta_off is_dir + MFS_META_GID) v buf.
Definition mfs_set_nlink (is_dir : bool) (v : Z) (buf : mem) : mem := write_u32 (mfs_meta_off is_dir + MFS_META_NLINK) v buf.
Definition mfs_set_mtime (is_dir : bool) (v : Z) (buf : mem) : mem := write_u64 (mfs_meta_off is_dir + MFS_META_MTIME) v buf.
Definition mfs_set_ctime (is_dir : bool) (v : Z) (buf : mem) : mem := write_u64 (mfs_meta_off is_dir + MFS_META_CTIME) v buf.
Definition mfs_set_atime (is_dir : bool) (v : Z) (buf : mem) : mem := write_u64 (mfs_meta_off is_dir + MFS_META_ATIME) v buf.

(** [now] is what [mfs_now] returned. *)
Definition mfs_init_meta (now : Z) (is_dir : bool) (ftype owner : Z) (cred : Cred) (mode : Z) (buf : mem) : mem :=
  let off := mfs_meta_off is_dir + MFS_META_MODE in
  let buf := write_u16 off (Z.lor (Z.land ftype MFS_FTYPE_MASK) (Z.land mode MFS_MODE_MASK)) buf in
  let buf := mfs_set_owner is_dir owner buf in
  let buf := mfs_set_gid is_dir (cred_gid cred) (mfs_set_uid is_dir (cred_uid cred) buf) in
  let buf := mfs_set_nlink is_dir 1 buf in
  mfs_set_atime is_dir now (mfs_set_ctime is_dir now (mfs_set_mtime is_dir now buf)).

(** ** The bitmap windows

    Pages are mapped by system calls; [answers] says which succeed, by the order of the calls. *)

Record windows : Type := mk_win {
  MFS_BMP_PAGES : Z;
  MFS_MARK_PAGES : Z;
  MFS_SEEN_PAGES : Z;
  w_calls : nat
}.

Section windows.
Context (answers : nat -> bool).

Definition sys_answer (w : windows) : bool * windows :=
  (answers (w_calls w), mk_win (MFS_BMP_PAGES w) (MFS_MARK_PAGES w) (MFS_SEEN_PAGES w) (S (w_calls w))).

(** [while PAGES < pages]; a bitmap page is allocated and shared with the block service. *)
Fixpoint bmp_pages_loop (fuel : nat) (pages : Z) (w : windows) : bool * windows :=
  if pages <=? MFS_BMP_PAGES w then (true, w)
  else match fuel with
       | O => (false, w)
       | S fuel' =>
           let '(ok, w) := sys_answer w in
           if negb ok then (false, w)
           else let '(ok, w) := sys_answer w in
                if negb ok then (false, w)
                else bmp_pages_loop fuel' pages
                       (mk_win (MFS_BMP_PAGES w + 1) (MFS_MARK_PAGES w) (MFS_SEEN_PAGES w) (w_calls w))
       end.
Fixpoint mark_pages_loop (fuel : nat) (pages : Z) (w : windows) : bool * windows :=
  if pages <=? MFS_MARK_PAGES w then (true, w)
  else match fuel with
       | O => (false, w)
       | S fuel' =>
           let '(ok, w) := sys_answer w in
           if negb ok then (false, w)
           else mark_pages_loop fuel' pages
                  (mk_win (MFS_BMP_PAGES w) (MFS_MARK_PAGES w + 1) (MFS_SEEN_PAGES w) (w_calls w))
       end.
Fixpoint seen_pages_loop (fuel : nat) (pages : Z) (w : windows) : bool * windows :=
  if pages <=? MFS_SEEN_PAGES w then (true, w)
  else match fuel with
       | O => (false, w)
       | S fuel' =>
           let '(ok, w) := sys_answer w in
           if negb ok then (false, w)
           else seen_pages_loop fuel' pages
                  (mk_win (MFS_BMP_PAGES w) (MFS_MARK_PAGES w) (MFS_SEEN_PAGES w + 1) (w_calls w))
       end.

(** Each turn adds a page, so [pages] turns do. *)
Definition mfs_win_ensure (pages : Z) (w : windows) : bool * windows :=
  let '(ok, w) := bmp_pages_loop (Z.to_nat pages) pages w in
  if negb ok then (false, w)
  else let '(ok, w) := mark_pages_loop (Z.to_nat pages) pages w in
       if negb ok then (false, w) else seen_pages_loop (Z.to_nat pages) pages w.

End windows.

(** ** Loading

    The file system's state, its windows, the whole snapshot array (of which [MFS_SNAPS] are the
    first [MFS_SNAP_COUNT] records) and the reclamation stack. *)

Record mnt (D : Type) : Type := mk_mnt {
  t_fs : mfs D;
  t_win : windows;
  t_snaps : list MfsSnap;
  t_stack : list Z
}.
Arguments mk_mnt {D}.
Arguments t_fs {D}.
Arguments t_win {D}.
Arguments t_snaps {D}.
Arguments t_stack {D}.

(** A page of the bitmap window as an I/O buffer. *)
Definition page_at (off : Z) (m : mem) : mem := fun a => m (off + a).
Definition put_page (off : Z) (buf m : mem) : mem :=
  fun a => if (off <=? a) && (a <? off + MFS_BLOCK) then buf (a - off) else m a.

Definition read_snap (buf : mem) (i : nat) : MfsSnap :=
  let off := MFS_HDR + MFS_SB_SNAPS + Z.of_nat i * MFS_SNAP_REC in
  mk_snap (read_u64 buf off) (read_u32 buf (off + 8)) (read_u32 buf (off + 12)) (read_u32 buf (off + 16)).

Section load.
Context {D : Type} `{!MfsDevice D} (answers : nat -> bool) (MFS_CUR_SECTORS : Z).
Implicit Types (m : mfs D) (t : mnt D).

Definition set_io m (s : mfs_io D) : mfs D := mk_mfs s (m_space m) (m_super m) (m_tab m).
Definition set_space m (p : mfs_space) : mfs D := mk_mfs (m_io m) p (m_super m) (m_tab m).
Definition set_bmp (bmp : mem) (p : mfs_space) : mfs_space :=
  mk_space bmp (MFS_BMP_DIRTY p) (MFS_TOTAL_BLOCKS p) (MFS_FREE_BLOCKS p) (MFS_ALLOC_NEXT p).

(** The checksum the header records for bitmap block [c]. *)
Definition chunk_ok (dp head : mem) (c : Z) : bool :=
  mfs_crc32 (slice_at 0 (Z.to_nat MFS_BLOCK) dp) =? read_u32 head (MFS_HDR + MFS_BMPH_CRC + c * 4).

(** The bitmap blocks [c ..] of a copy, read into the window and checked against the header. *)
Fixpoint load_chunks (n : nat) (c data_start : Z) (head : mem) m : bool * mfs D :=
  match n with
  | O => (true, m)
  | S n' =>
      let off := c * MFS_BLOCK in
      let '(ok, dp, s) := mfs_read_blk (data_start + c) (page_at off (MFS_BMP (m_space m))) (m_io m) in
      let m := set_space (set_io m s) (set_bmp (put_page off dp (MFS_BMP (m_space m))) (m_space m)) in
      if negb ok then (false, m)
      else if negb (chunk_ok dp head c) then (false, m)
      else load_chunks n' (c + 1) data_start head m
  end.

Definition mfs_load_bitmap_copy (copy : Z) m : bool * mfs D :=
  let bb := MFS_BMP_DATA_BLOCKS (m_super m) in
  let '(ok, head, s) := mfs_read_blk (2 + copy) scratch (m_io m) in
  let m := set_io m s in
  if negb ok || negb (mfs_ok head MFS_MAGIC_BMPHDR) then (false, m)
  else if negb (read_u64 head (MFS_HDR + MFS_BMPH_GEN) =? MFS_GEN (m_super m)) then (false, m)
  else if negb (read_u32 head (MFS_HDR + MFS_BMPH_TOTAL) =? MFS_TOTAL_BLOCKS (m_space m)) then (false, m)
  else if negb (read_u32 head (MFS_HDR + MFS_BMPH_DATA_BLOCKS) =? bb) then (false, m)
  else load_chunks (Z.to_nat bb) 0 (4 + copy * bb) head m.

Definition mfs_mark_itab_meta (itab : Z) m : mfs D :=
  if itab =? 0 then m
  else
    let m := set_space m (mfs_bmp_set itab (m_space m)) in
    let '(ok, x, s) := mfs_read_blk itab scratch (m_io m) in
    let m := set_io m s in
    if negb ok || negb (mfs_ok x MFS_MAGIC_ITABX) then m
    else set_space m (foldl (fun p k => if k =? 0 then p else mfs_bmp_set k p) (m_space m) (index_slots x)).

Definition mfs_rebuild_bitmap (stack : list Z) m : bool * list Z * mfs D :=
  let bb := MFS_BMP_DATA_BLOCKS (m_super m) in
  let p := m_space m in
  let bmp a := if (0 <=? a) && (a <? bb * MFS_BLOCK) then 255 else MFS_BMP p a in
  let p := mk_space bmp (MFS_BMP_DIRTY p) (MFS_TOTAL_BLOCKS p) 0 (MFS_ALLOC_NEXT p) in
  let '(n, stack, m) := mfs_gc stack (set_space m p) in
  (negb (n =? U64_MAX), stack, m).

(** The fields one superblock gives. *)
Definition adopt_super (buf : mem) t : mnt D :=
  let m := t_fs t in
  let h := MFS_HDR in
  let total := read_u32 buf (h + MFS_SB_TOTAL) in
  let scount := Z.min (read_u32 buf (h + MFS_SB_SNAP_COUNT)) (Z.of_nat MFS_MAX_SNAP) in
  let p := m_space m in
  let p := mk_space (MFS_BMP p) (MFS_BMP_DIRTY p) total (MFS_FREE_BLOCKS p) (read_u32 buf (h + MFS_SB_ALLOC_HINT)) in
  let sb := mk_super (read_u64 buf (h + MFS_SB_GEN)) (read_u32 buf (h + MFS_SB_ITAB))
              (read_u32 buf (h + MFS_SB_INO_COUNT)) (Z.max (read_u32 buf (h + MFS_SB_INO_HINT)) (MFS_ROOT_INO + 1))
              (take (Z.to_nat scount) (t_snaps t)) (read_u64 buf (h + MFS_SB_PRIMARY)) (mfs_bb_for total) in
  let tab := mk_tab (MFS_ITAB_MEM (m_tab m)) U32_MAX (mfs_itab_buf (m_tab m)) in
  mk_mnt (mk_mfs (m_io m) p sb tab) (t_win t) (t_snaps t) (t_stack t).

(** [for i in 0..scount { mfs_set_snap(i, ..) }] *)
Definition adopt_snaps (buf : mem) t : mnt D :=
  let m := t_fs t in
  let sb := m_super m in
  let n := length (MFS_SNAPS sb) in
  let snaps := (read_snap buf <$> seq 0 n) ++ drop n (t_snaps t) in
  let sb := mk_super (MFS_GEN sb) (MFS_ITAB sb) (MFS_INO_COUNT sb) (MFS_INO_HINT sb) (take n snaps)
              (MFS_PRIMARY_SERIAL sb) (MFS_BMP_DATA_BLOCKS sb) in
  mk_mnt (mk_mfs (m_io m) (m_space m) sb (m_tab m)) (t_win t) snaps (t_stack t).

Definition set_fs t m : mnt D := mk_mnt m (t_win t) (t_snaps t) (t_stack t).

(** What the scan over the copies has found: a usable superblock, its generation, its bitmap. *)
Record cand : Type := mk_cand { found : bool; best_gen : Z; bitmap_ok : bool }.

(** One turn of the loop over the copies; each [continue] is a result of its own. *)
Definition load_copy (copy : Z) (c : cand) t : cand * mnt D :=
  let '(ok, buf, s) := mfs_read_blk copy scratch (m_io (t_fs t)) in
  let t := set_fs t (set_io (t_fs t) s) in
  if negb ok || negb (mfs_ok buf MFS_MAGIC_SUPER) then (c, t)
  else if negb (read_u32 buf MFS_HDR =? MFS_VERSION) then (c, t)
  else
    let gen := read_u64 buf (MFS_HDR + MFS_SB_GEN) in
    if found c && ((gen <? best_gen c) || ((gen =? best_gen c) && bitmap_ok c)) then (c, t)
    else
      let total := read_u32 buf (MFS_HDR + MFS_SB_TOTAL) in
      let itab := read_u32 buf (MFS_HDR + MFS_SB_ITAB) in
      if (total =? 0) || (itab =? 0) || (MFS_MAX_BLOCKS <? total) then (c, t)
      else if negb (MFS_CUR_SECTORS =? 0) && (MFS_CUR_SECTORS <? total * MFS_SECTORS_PER_BLOCK) then (c, t)
      else
        let '(ok, x, s) := mfs_read_blk itab scratch (m_io (t_fs t)) in
        let t := set_fs t (set_io (t_fs t) s) in
        if negb ok || negb (mfs_ok x MFS_MAGIC_ITABX) then (c, t)
        else
          let t := adopt_super buf t in
          let '(ok, w) := mfs_win_ensure answers (mfs_bb_for total) (t_win t) in
          let t := mk_mnt (t_fs t) w (t_snaps t) (t_stack t) in
          if negb ok then (c, t)
          else
            let '(ok, m) := mfs_itab_reload (t_fs t) in
            let t := set_fs t m in
            if negb ok then (c, t)
            else
              let t := adopt_snaps buf t in
              let '(ok, m) := mfs_load_bitmap_copy copy (t_fs t) in
              (mk_cand true gen ok, set_fs t m).

(** The bitmap as loaded, with the metadata it must keep marked as used. *)
Definition keep_meta m : mfs D :=
  let m := set_space m (mfs_bmp_recount (m_space m)).2 in
  let m := set_space m (foldl (fun p b => mfs_bmp_set b p) (m_space m) (seqZ 0 (mfs_data_start (m_space m)))) in
  foldl (fun m itab => mfs_mark_itab_meta itab m) m (MFS_ITAB (m_super m) :: (snap_itab <$> MFS_SNAPS (m_super m))).

Definition mfs_load_state t : bool * mnt D :=
  let '(ok, s) := mfs_commit_flush (m_io (t_fs t)) in
  let t := set_fs t (set_io (t_fs t) s) in
  if negb ok then (false, t)
  else
    let '(c, t) := load_copy 0 (mk_cand false 0 false) t in
    let '(c, t) := load_copy 1 c t in
    if negb (found c) then (false, t)
    else if bitmap_ok c then (true, set_fs t (keep_meta (t_fs t)))
    else
      let '(ok, stack, m) := mfs_rebuild_bitmap (t_stack t) (t_fs t) in
      (ok, mk_mnt m (t_win t) (t_snaps t) stack).

End load.

(** ** Formatting *)

Section format.
Context {D : Type} `{!MfsDevice D} (answers : nat -> bool) (MFS_CUR_SECTORS : Z).
Implicit Types (m : mfs D) (t : mnt D).

Definition mfs_format_total_blocks : Z :=
  if MFS_CUR_SECTORS =? 0 then MFS_DEFAULT_TOTAL_BLOCKS
  else Z.max MFS_MIN_TOTAL_BLOCKS (Z.min (MFS_CUR_SECTORS / MFS_SECTORS_PER_BLOCK) MFS_MAX_BLOCKS).

(** The bitmap of an empty volume: every block free, every bitmap block to be written. *)
Definition format_space (total : Z) (p : mfs_space) : mfs_space :=
  let bb := mfs_bb_for total in
  let bmp a := if (0 <=? a) && (a <? bb * MFS_BLOCK) then 0 else MFS_BMP p a in
  let dirty := foldl (fun d c => bit_set d c) (MFS_BMP_DIRTY p) (seqZ 0 bb) in
  mk_space bmp dirty total total (4 + 2 * bb).

Definition format_root (now : Z) : mem :=
  mfs_init_meta now true MFS_FTYPE_DIR 0 (mk_cred MFS_UID_ROOT MFS_GID_ROOT) MFS_MODE_DIR
    (mfs_dir_init_empty (zero_bytes 0 (Z.to_nat MFS_BLOCK) scratch)).

Definition mfs_format (now : Z) t : bool * mnt D :=
  let m := t_fs t in
  let total := mfs_format_total_blocks in
  let p := m_space m in
  let sb := m_super m in
  let sb := mk_super (MFS_GEN sb) (MFS_ITAB sb) (MFS_INO_COUNT sb) (MFS_INO_HINT sb) (MFS_SNAPS sb)
              (MFS_PRIMARY_SERIAL sb) (mfs_bb_for total) in
  let p1 := mk_space (MFS_BMP p) (MFS_BMP_DIRTY p) total (MFS_FREE_BLOCKS p) (MFS_ALLOC_NEXT p) in
  let '(ok, w) := mfs_win_ensure answers (mfs_bb_for total) (t_win t) in
  if negb ok then (false, mk_mnt (mk_mfs (m_io m) p1 sb (m_tab m)) w (t_snaps t) (t_stack t))
  else
    let sb := mk_super 0 0 0 (MFS_ROOT_INO + 1) [] (MFS_PRIMARY_SERIAL sb) (mfs_bb_for total) in
    let p := format_space total p1 in
    let tab := mk_tab (replicate (Z.to_nat MFS_ITAB_SLOTS) 0) U32_MAX (mfs_itab_buf (m_tab m)) in
    let p := foldl (fun p b => mfs_bmp_set b p) p (seqZ 0 (mfs_data_start p)) in
    let '(ob, _, s, p) := mfs_commit MFS_MAGIC_DIR (format_root now) (m_io m) p in
    let with_fs m := mk_mnt m w (t_snaps t) (t_stack t) in
    let m := mk_mfs s p sb tab in
    match ob with
    | None => (false, with_fs m)
    | Some root =>
        let '(ok, m) := mfs_itab_flush m in
        if negb ok then (false, with_fs m)
        else
          let '(ok, m) := mfs_itab_set MFS_ROOT_INO root m in
          if negb ok then (false, with_fs m)
          else
            let sb := m_super m in
            let sb := mk_super (MFS_GEN sb) (MFS_ITAB sb) 1 (MFS_ROOT_INO + 1) (MFS_SNAPS sb)
                        (MFS_PRIMARY_SERIAL sb) (MFS_BMP_DATA_BLOCKS sb) in
            let '(ok, m) := mfs_bmp_flush (mk_mfs (m_io m) (m_space m) sb (m_tab m)) in
            (ok, with_fs m)
    end.

(** The magic numbers at the start of a volume's superblocks. *)
Fixpoint magic_loop (copies : list Z) (vol mismatch : Z) (s : mfs_io D) : (Z * Z) * mfs_io D :=
  match copies with
  | [] => (if mismatch =? 0 then (MFS_MAGIC_NONE, 0) else (MFS_MAGIC_FAMILY_MISMATCH, mismatch), s)
  | copy :: copies' =>
      let '(ok, bs, d) := block_read_dev vol (w32 (copy * MFS_SECTORS_PER_BLOCK)) (MFS_DEV s) in
      let s := mk_io (MFS_CUR_VOL s) (MFS_WB s) d in
      if negb ok then magic_loop copies' vol mismatch s
      else
        let magic := read_u32 (copy_to 0 bs scratch) 0 in
        if magic =? MFS_MAGIC_SUPER then ((MFS_MAGIC_MATCH, magic), s)
        else if (Z.land magic 0xFFFFFF00 =? MFS_MAGIC_FAMILY_PREFIX)
                && (0x30 <=? Z.land magic 0xFF) && (Z.land magic 0xFF <=? 0x39) && (mismatch =? 0)
        then magic_loop copies' vol magic s
        else magic_loop copies' vol mismatch s
  end.

Definition mfs_sb_magic_state (vol : Z) (s : mfs_io D) : (Z * Z) * mfs_io D :=
  let '(ok, s) := mfs_commit_flush s in
  if negb ok then ((MFS_MAGIC_FAMILY_MISMATCH, 0), s) else magic_loop [0; 1] vol 0 s.

(** [vol] is [MFS_VOL], the volume to mount. *)
Definition mfs_mount_or_format (vol now : Z) t : bool * mnt D :=
  let '(ok, t) := mfs_load_state answers MFS_CUR_SECTORS t in
  if ok : bool then (true, t)
  else
    let '(state, _, s) := mfs_sb_magic_state vol (m_io (t_fs t)) in
    let t := set_fs t (set_io (t_fs t) s) in
    if state =? MFS_MAGIC_FAMILY_MISMATCH then (false, t)
    else if state =? MFS_MAGIC_MATCH then (false, t)
    else
      let m := t_fs t in
      let sb := m_super m in
      let sb := mk_super (MFS_GEN sb) (MFS_ITAB sb) (MFS_INO_COUNT sb) (MFS_INO_HINT sb) (MFS_SNAPS sb) 0
                  (MFS_BMP_DATA_BLOCKS sb) in
      mfs_format now (set_fs t (mk_mfs (m_io m) (m_space m) sb (m_tab m))).

(** [vol_sectors] is what the block service answered. *)
Definition mfs_switch_vol (vol sectors : Z) t : bool * mnt D :=
  let '(ok, s) := mfs_commit_flush (m_io (t_fs t)) in
  if negb ok then (false, set_fs t (set_io (t_fs t) s))
  else mfs_load_state answers sectors (set_fs t (set_io (t_fs t) (mk_io vol (MFS_WB s) (MFS_DEV s)))).

End format.

(** ** Reading back what was written *)

Lemma read_u32_u32 p q v m : p + 4 <= q \/ q + 4 <= p -> read_u32 (write_u32 q v m) p = read_u32 m p.
Proof. intros H. apply read_u32_ext. intros a Ha. apply write_u32_out. lia. Qed.
Lemma read_u32_u64 p q v m : p + 4 <= q \/ q + 8 <= p -> read_u32 (write_u64 q v m) p = read_u32 m p.
Proof. intros H. apply read_u32_ext. intros a Ha. apply write_u64_out. lia. Qed.
Lemma read_u64_u32 p q v m : p + 8 <= q \/ q + 4 <= p -> read_u64 (write_u32 q v m) p = read_u64 m p.
Proof. intros H. apply read_u64_ext. intros a Ha. apply write_u32_out. lia. Qed.
Lemma read_u64_u64 p q v m : p + 8 <= q \/ q + 8 <= p -> read_u64 (write_u64 q v m) p = read_u64 m p.
Proof. intros H. apply read_u64_ext. intros a Ha. apply write_u64_out. lia. Qed.
Lemma read_u32_seal p magic m : 8 <= p -> read_u32 (mfs_seal magic m) p = read_u32 m p.
Proof. intros H. unfold mfs_seal. by rewrite !read_u32_u32 by lia. Qed.
Lemma read_u64_seal p magic m : 8 <= p -> read_u64 (mfs_seal magic m) p = read_u64 m p.
Proof. intros H. unfold mfs_seal. by rewrite !read_u64_u32 by lia. Qed.
Lemma read_u32_snaps p l i m :
  p + 4 <= MFS_HDR + MFS_SB_SNAPS + Z.of_nat i * MFS_SNAP_REC -> read_u32 (write_snaps m i l) p = read_u32 m p.
Proof. intros H. apply read_u32_ext. intros a Ha. apply write_snaps_out. lia. Qed.
Lemma read_u64_snaps p l i m :
  p + 8 <= MFS_HDR + MFS_SB_SNAPS + Z.of_nat i * MFS_SNAP_REC -> read_u64 (write_snaps m i l) p = read_u64 m p.
Proof. intros H. apply read_u64_ext. intros a Ha. apply write_snaps_out. lia. Qed.

(** Offsets as numbers, so that [lia] can tell them apart. *)
Ltac offsets :=
  change MFS_HDR with 8 in *; change MFS_SB_BLOCK_SIZE with 4 in *; change MFS_SB_TOTAL with 8 in *;
  change MFS_SB_INO_COUNT with 12 in *; change MFS_SB_ALLOC_HINT with 16 in *; change MFS_SB_SNAP_COUNT with 20 in *;
  change MFS_SB_GEN with 24 in *; change MFS_SB_ITAB with 32 in *; change MFS_SB_INO_HINT with 36 in *;
  change MFS_SB_SNAPS with 48 in *; change MFS_SNAP_REC with 24 in *; change MFS_SB_PRIMARY with 256 in *;
  change MFS_BMPH_GEN with 0 in *; change MFS_BMPH_TOTAL with 8 in *; change MFS_BMPH_DATA_BLOCKS with 12 in *.

(** A read through a chain of writes. *)
Ltac read_back :=
  repeat first
    [ rewrite read_write_u32 by done | rewrite read_write_u64 by done
    | rewrite read_u32_u32 by lia | rewrite read_u32_u64 by lia | rewrite read_u64_u32 by lia
    | rewrite read_u64_u64 by lia | rewrite read_u32_seal by lia | rewrite read_u64_seal by lia
    | rewrite read_u32_snaps by (offsets; lia) | rewrite read_u64_snaps by (offsets; lia) ].

(** Every number fits its field. *)
Record sized (p : mfs_space) (sb : mfs_super) : Prop := {
  z_total : 0 <= MFS_TOTAL_BLOCKS p < 2^32;
  z_next : 0 <= MFS_ALLOC_NEXT p < 2^32;
  z_gen : 0 <= MFS_GEN sb < 2^64;
  z_itab : 0 <= MFS_ITAB sb < 2^32;
  z_count : 0 <= MFS_INO_COUNT sb < 2^32;
  z_hint : MFS_ROOT_INO + 1 <= MFS_INO_HINT sb < 2^32;
  z_primary : 0 <= MFS_PRIMARY_SERIAL sb < 2^64;
  z_snaps : (length (MFS_SNAPS sb) <= MFS_MAX_SNAP)%nat;
  z_snap s : s ∈ MFS_SNAPS sb ->
    0 <= snap_gen s < 2^64 /\ 0 <= snap_itab s < 2^32 /\ 0 <= snap_ino_hint s < 2^32 /\ 0 <= snap_alloc_next s < 2^32
}.

Lemma build_super_read p sb (x := mfs_build_super p sb scratch) :
  sized p sb ->
  read_u32 x MFS_HDR = MFS_VERSION /\ read_u32 x (MFS_HDR + MFS_SB_TOTAL) = MFS_TOTAL_BLOCKS p
  /\ read_u32 x (MFS_HDR + MFS_SB_INO_COUNT) = MFS_INO_COUNT sb
  /\ read_u32 x (MFS_HDR + MFS_SB_ALLOC_HINT) = MFS_ALLOC_NEXT p
  /\ read_u32 x (MFS_HDR + MFS_SB_SNAP_COUNT) = Z.of_nat (length (MFS_SNAPS sb))
  /\ read_u64 x (MFS_HDR + MFS_SB_GEN) = MFS_GEN sb /\ read_u32 x (MFS_HDR + MFS_SB_ITAB) = MFS_ITAB sb
  /\ read_u32 x (MFS_HDR + MFS_SB_INO_HINT) = MFS_INO_HINT sb
  /\ read_u64 x (MFS_HDR + MFS_SB_PRIMARY) = MFS_PRIMARY_SERIAL sb.
Proof.
  intros [Zt Zn Zg Zi Zc Zh Zp Zl _]. subst x. unfold mfs_build_super.
  assert (0 <= MFS_INO_HINT sb < 2^32) as Zh' by (unfold MFS_ROOT_INO in Zh; lia).
  assert (w32 (Z.of_nat (length (MFS_SNAPS sb))) = Z.of_nat (length (MFS_SNAPS sb))) as El.
  { unfold MFS_MAX_SNAP in Zl. unfold w32. apply Z.mod_small. lia. }
  assert (0 <= Z.of_nat (length (MFS_SNAPS sb)) < 2^32) as Zl' by (unfold MFS_MAX_SNAP in Zl; lia).
  assert (0 <= MFS_VERSION < 2^32) as Zv by done.
  set (z := zero_bytes _ _ _). clearbody z. rewrite El. clear El. offsets.
  split; [by read_back|]. split; [by read_back|]. split; [by read_back|]. split; [by read_back|].
  split; [by read_back|]. split; [by read_back|]. split; [by read_back|]. split; by read_back.
Qed.

Lemma snaps_read l i m (j : nat) s :
  l !! j = Some s ->
  0 <= snap_gen s < 2^64 /\ 0 <= snap_itab s < 2^32 /\ 0 <= snap_ino_hint s < 2^32 /\ 0 <= snap_alloc_next s < 2^32 ->
  read_snap (write_snaps m i l) (i + j) = s.
Proof.
  intros Hj (Hg & Hi & Hh & Ha). revert i m j Hj. induction l as [|s0 l IH]; intros i m j Hj; [done|].
  cbn [write_snaps]. destruct j as [|j]; cbn in Hj.
  - injection Hj as ->. rewrite Nat.add_0_r. unfold read_snap, write_snap. offsets.
    rewrite read_u64_snaps by (offsets; lia). rewrite !read_u32_snaps by (offsets; lia). read_back. by destruct s.
  - replace (i + S j)%nat with (S i + j)%nat by lia. by apply IH.
Qed.

Lemma build_super_snaps p sb (x := mfs_build_super p sb scratch) :
  sized p sb -> read_snap x <$> seq 0 (length (MFS_SNAPS sb)) = MFS_SNAPS sb.
Proof.
  intros Hz. subst x. apply list_eq_same_length with (length (MFS_SNAPS sb)); rewrite ?length_fmap, ?length_seq; try done.
  intros i a b Hi. rewrite list_lookup_fmap, lookup_seq_lt by lia. cbn [fmap option_fmap option_map Nat.add].
  intros [= <-] Hb. pose proof (z_snap _ _ Hz b (list_elem_of_lookup_2 _ _ _ Hb)) as Hr.
  pose proof (z_snaps _ _ Hz) as Hl. unfold MFS_MAX_SNAP in Hl.
  assert (i < 8)%nat as Hi8 by lia.
  unfold mfs_build_super, read_snap. offsets.
  rewrite !read_u32_seal, !read_u64_seal, !read_u32_u64, !read_u64_u64 by lia.
  exact (snaps_read (MFS_SNAPS sb) 0 _ i b Hb Hr).
Qed.

(** The header: generation, sizes and the checksums of the bitmap blocks. *)
Lemma build_header_read p sb (x := mfs_build_bmp_header p sb scratch) :
  sized p sb -> byte_mem (MFS_BMP p) -> 0 <= MFS_BMP_DATA_BLOCKS sb <= 1018 ->
  (forall m, mfs_ok x m = (MFS_MAGIC_BMPHDR =? m))
  /\ read_u64 x (MFS_HDR + MFS_BMPH_GEN) = MFS_GEN sb
  /\ read_u32 x (MFS_HDR + MFS_BMPH_TOTAL) = MFS_TOTAL_BLOCKS p
  /\ read_u32 x (MFS_HDR + MFS_BMPH_DATA_BLOCKS) = MFS_BMP_DATA_BLOCKS sb
  /\ forall c, 0 <= c < MFS_BMP_DATA_BLOCKS sb ->
       read_u32 x (MFS_HDR + MFS_BMPH_CRC + c * 4) = mfs_crc32 (bmp_block p c).
Proof.
  intros Hz Hb Hbb. subst x. unfold mfs_build_bmp_header.
  assert (forall q l m, 8 <= q -> q + 4 <= MFS_HDR + MFS_BMPH_CRC ->
            (q + 8 <= MFS_HDR + MFS_BMPH_CRC -> read_u64 (write_words (MFS_HDR + MFS_BMPH_CRC) l m) q = read_u64 m q)
            /\ read_u32 (write_words (MFS_HDR + MFS_BMPH_CRC) l m) q = read_u32 m q) as Hw.
  { intros q l m _ Hq. split; [intros Hq8; apply read_u64_ext|apply read_u32_ext]; intros a Ha; apply write_words_out; lia. }
  split; [|split; [|split; [|split]]].
  - intros m. apply seal_ok; [done|]. apply write_words_bytes. do 2 apply byte_mem_write_u32.
    apply byte_mem_write_u64. by apply zero_bytes_mem.
  - pose proof (z_gen _ _ Hz). rewrite read_u64_seal by (offsets; lia). offsets. change (8 + 0) with 8.
    rewrite (proj1 (Hw 8 _ _ ltac:(lia) ltac:(done)) ltac:(done)). by read_back.
  - pose proof (z_total _ _ Hz). rewrite read_u32_seal by (offsets; lia). offsets. change (8 + 8) with 16.
    rewrite (proj2 (Hw 16 _ _ ltac:(lia) ltac:(done))). by read_back.
  - rewrite read_u32_seal by (offsets; lia). offsets. change (8 + 12) with 20.
    assert (0 <= MFS_BMP_DATA_BLOCKS sb < 2^32) by lia.
    rewrite (proj2 (Hw 20 _ _ ltac:(lia) ltac:(done))). by read_back.
  - intros c Hc. rewrite read_u32_seal by (change MFS_BMPH_CRC with 16; offsets; lia).
    replace (c * 4) with (4 * Z.of_nat (Z.to_nat c)) by lia. apply write_words_read.
    + unfold bmp_crcs. rewrite list_lookup_fmap, lookup_seqZ_lt by lia. cbn. by rewrite Z2Nat.id by lia.
    + apply crc_range, byte_mem_slice, Hb.
Qed.

(** ** The metadata on the volume *)

(** One copy of the metadata, as a commit of [p] and [sb] leaves it. *)
Record copy_intact (V : Z -> list Z) (p : mfs_space) (sb : mfs_super) (copy : Z) : Prop := {
  ci_super : V copy = slice_at 0 (Z.to_nat MFS_BLOCK) (mfs_build_super p sb scratch);
  ci_head : V (2 + copy) = slice_at 0 (Z.to_nat MFS_BLOCK) (mfs_build_bmp_header p sb scratch);
  ci_bits c : 0 <= c < MFS_BMP_DATA_BLOCKS sb -> V (4 + copy * MFS_BMP_DATA_BLOCKS sb + c) = bmp_block p c
}.

(** A bitmap block that is not marked as changed is on the volume, in both copies. *)
Definition synced {D} `{!MfsDevice D} (m : mfs D) : Prop :=
  forall copy c, copy = 0 \/ copy = 1 -> 0 <= c < MFS_BMP_DATA_BLOCKS (m_super m) ->
    bit_get (MFS_BMP_DIRTY (m_space m)) c = false ->
    mfs_view (m_io m) (4 + copy * MFS_BMP_DATA_BLOCKS (m_super m) + c) = bmp_block (m_space m) c.

Lemma flush_fields {D} `{!MfsDevice D} (m : mfs D) m' :
  mfs_bmp_flush m = (true, m') ->
  m_space m' = mk_space (MFS_BMP (m_space m)) (fun _ => 0) (MFS_TOTAL_BLOCKS (m_space m)) (MFS_FREE_BLOCKS (m_space m))
                 (MFS_ALLOC_NEXT (m_space m))
  /\ m_super m' = mk_super (w64 (MFS_GEN (m_super m) + 1)) (MFS_ITAB (m_super m)) (MFS_INO_COUNT (m_super m))
                    (MFS_INO_HINT (m_super m)) (MFS_SNAPS (m_super m)) (MFS_PRIMARY_SERIAL (m_super m))
                    (MFS_BMP_DATA_BLOCKS (m_super m))
  /\ m_tab m' = m_tab m.
Proof.
  unfold mfs_bmp_flush. destruct (stage_all _ _) as [[] s1]; cbn [negb]; [|done].
  destruct (mfs_commit_flush s1) as [[] s2]; cbn [negb]; [|done]. by intros [= <-].
Qed.

(** Which bitmap blocks a copy's writes contain. *)
Lemma chunk_written p sb copy copy' c :
  copy = 0 \/ copy = 1 -> copy' = 0 \/ copy' = 1 -> 0 <= c < MFS_BMP_DATA_BLOCKS sb ->
  4 + copy * MFS_BMP_DATA_BLOCKS sb + c ∈ (copy_writes p sb copy').*1 -> bit_get (MFS_BMP_DIRTY p) c = true.
Proof.
  intros Hc Hc' Hr Hin. unfold copy_writes in Hin. rewrite fmap_app, elem_of_app in Hin. destruct Hin as [Hin|Hin].
  - rewrite <- list_fmap_compose in Hin. apply list_elem_of_fmap in Hin as (c' & E & Hin).
    apply list_elem_of_filter in Hin as [Hd Hin]. apply elem_of_seqZ in Hin. cbn in E.
    assert (c = c') as ->; [|done]. destruct Hc as [-> | ->], Hc' as [-> | ->]; cbn in E; lia.
  - cbn in Hin. apply elem_of_cons in Hin as [E|Hin%list_elem_of_singleton]; destruct Hc as [-> | ->], Hc' as [-> | ->]; lia.
Qed.

Section intact.
Context {D : Type} `{!MfsDevice D, !MfsDeviceLaws D}.
Implicit Types m : mfs D.

(** A flush that completes leaves both copies intact. *)
Lemma flush_intact m m' copy :
  meta_wf m -> synced m -> mfs_bmp_flush m = (true, m') -> copy = 0 \/ copy = 1 ->
  copy_intact (mfs_view (m_io m')) (m_space m') (m_super m') copy.
Proof using MfsDeviceLaws0.
  intros Hwf Hsy Hf Hc. pose proof (bmp_flush_view _ _ Hwf Hf) as (_ & _ & _ & _ & Hview).
  destruct (flush_fields _ _ Hf) as (Ep & Es & _). destruct (data_start_bb m Hwf) as [_ Hbb].
  assert (MFS_BMP_DATA_BLOCKS (m_super m') = MFS_BMP_DATA_BLOCKS (m_super m)) as Ebb by by rewrite Es.
  set (l := copy_writes _ _ 0 ++ copy_writes _ _ 1) in Hview.
  assert (NoDup l.*1) as Hnd by (apply meta_NoDup; by rewrite Ebb).
  assert (forall b bs, (b, bs) ∈ copy_writes (m_space m) (m_super m') copy -> mfs_view (m_io m') b = bs) as Hw.
  { intros b bs Hin. rewrite Hview. unfold staged. erewrite elem_of_list_to_map_1; [done|exact Hnd|].
    unfold l. rewrite elem_of_app. destruct Hc as [-> | ->]; auto. }
  assert (forall buf, mfs_build_super (m_space m') (m_super m') buf = mfs_build_super (m_space m) (m_super m') buf) as E1
    by (intros buf; rewrite Ep; reflexivity).
  assert (forall buf, mfs_build_bmp_header (m_space m') (m_super m') buf
                      = mfs_build_bmp_header (m_space m) (m_super m') buf) as E2
    by (intros buf; unfold mfs_build_bmp_header, bmp_crcs, bmp_block; rewrite Ep; reflexivity).
  split.
  - rewrite E1. apply Hw. unfold copy_writes. rewrite elem_of_app. right. right. left.
  - rewrite E2. apply Hw. unfold copy_writes. rewrite elem_of_app. right. left.
  - intros c Hcr. rewrite Ebb in *.
    assert (bmp_block (m_space m') c = bmp_block (m_space m) c) as -> by (unfold bmp_block; rewrite Ep; reflexivity).
    assert ((if copy =? 0 then 4 else 4 + MFS_BMP_DATA_BLOCKS (m_super m'))
            = 4 + copy * MFS_BMP_DATA_BLOCKS (m_super m)) as Est.
    { rewrite Ebb. destruct Hc as [-> | ->]; [done|]. cbn. lia. }
    destruct (bit_get (MFS_BMP_DIRTY (m_space m)) c) eqn:Ed.
    + apply Hw. unfold copy_writes. rewrite Est, Ebb, elem_of_app. left. apply list_elem_of_fmap. exists c.
      split; [done|]. apply list_elem_of_filter. split; [done|]. apply elem_of_seqZ. lia.
    + rewrite Hview. rewrite (proj2 (staged_None _ _)); [by apply Hsy|].
      intros Hin. unfold l in Hin. rewrite fmap_app, elem_of_app in Hin. rewrite <- Ebb in *.
      assert (bit_get (MFS_BMP_DIRTY (m_space m)) c = true) as Ht; [|by rewrite Ht in Ed].
      destruct Hin as [Hin|Hin];
        [eapply (chunk_written _ _ copy 0)|eapply (chunk_written _ _ copy 1)]; eauto.
Qed.

(** ... and nothing to be written. *)
Lemma flush_synced m m' : meta_wf m -> synced m -> mfs_bmp_flush m = (true, m') -> synced m'.
Proof using MfsDeviceLaws0.
  intros Hwf Hsy Hf copy c Hc Hr _. exact (ci_bits _ _ _ _ (flush_intact _ _ _ Hwf Hsy Hf Hc) c Hr).
Qed.

End intact.

(** ** Loading one copy *)

Definition wins_ok (w : windows) : Prop := 0 <= MFS_BMP_PAGES w /\ 0 <= MFS_MARK_PAGES w /\ 0 <= MFS_SEEN_PAGES w.

(** The three loops that grow the windows differ in the counter only. *)
Ltac pages_frame fuel :=
  induction fuel as [|fuel IH]; intros w; cbn; (destruct (_ <=? _); [by intros [= <- <-]|]); [by intros [= <- <-]|];
  intros H Hw; repeat (destruct (_ (w_calls w)); cbn in H; [|by injection H as <- <-]);
  repeat (destruct (_ (S (w_calls w))); cbn in H; [|by injection H as <- <-]);
  apply IH in H; [done|]; unfold wins_ok in *; cbn; lia.
Ltac pages_ok fuel Hans :=
  induction fuel as [|fuel IH]; intros w H; cbn; (destruct (_ <=? _) eqn:E; [done|bool_to_prop]); [lia|];
  rewrite !Hans; cbn; apply IH; cbn; lia.

Section ensure.
Context (answers : nat -> bool).

Lemma bmp_pages_frame fuel pages w ok w' : bmp_pages_loop answers fuel pages w = (ok, w') -> wins_ok w -> wins_ok w'.
Proof. revert w. pages_frame fuel. Qed.
Lemma mark_pages_frame fuel pages w ok w' : mark_pages_loop answers fuel pages w = (ok, w') -> wins_ok w -> wins_ok w'.
Proof. revert w. pages_frame fuel. Qed.
Lemma seen_pages_frame fuel pages w ok w' : seen_pages_loop answers fuel pages w = (ok, w') -> wins_ok w -> wins_ok w'.
Proof. revert w. pages_frame fuel. Qed.

Lemma ensure_frame pages w ok w' : mfs_win_ensure answers pages w = (ok, w') -> wins_ok w -> wins_ok w'.
Proof.
  unfold mfs_win_ensure. destruct (bmp_pages_loop _ _ _ w) as [[] w1] eqn:E1; cbn [negb].
  - destruct (mark_pages_loop _ _ _ w1) as [[] w2] eqn:E2; cbn [negb].
    + intros E3 H. by eapply seen_pages_frame, mark_pages_frame, bmp_pages_frame.
    + intros [= <- <-] H. by eapply mark_pages_frame, bmp_pages_frame.
  - intros [= <- <-] H. by eapply bmp_pages_frame.
Qed.

Context (Hans : forall n, answers n = true).

Lemma bmp_pages_ok fuel pages w :
  pages <= MFS_BMP_PAGES w + Z.of_nat fuel -> (bmp_pages_loop answers fuel pages w).1 = true.
Proof using Hans. revert w. pages_ok fuel Hans. Qed.
Lemma mark_pages_ok fuel pages w :
  pages <= MFS_MARK_PAGES w + Z.of_nat fuel -> (mark_pages_loop answers fuel pages w).1 = true.
Proof using Hans. revert w. pages_ok fuel Hans. Qed.
Lemma seen_pages_ok fuel pages w :
  pages <= MFS_SEEN_PAGES w + Z.of_nat fuel -> (seen_pages_loop answers fuel pages w).1 = true.
Proof using Hans. revert w. pages_ok fuel Hans. Qed.

(** With memory to be had, the windows can be grown. *)
Lemma ensure_ok pages w : wins_ok w -> exists w', mfs_win_ensure answers pages w = (true, w') /\ wins_ok w'.
Proof using Hans.
  intros Hw. destruct (mfs_win_ensure answers pages w) as [ok w'] eqn:E. pose proof (ensure_frame _ _ _ _ E Hw) as Hw'.
  exists w'. split; [|done]. f_equal. unfold mfs_win_ensure in E.
  pose proof (bmp_pages_ok (Z.to_nat pages) pages w) as H1.
  destruct (bmp_pages_loop _ _ _ w) as [ok1 w1] eqn:E1. pose proof (bmp_pages_frame _ _ _ _ _ E1 Hw) as Hw1.
  cbn in H1. rewrite H1 in E by (destruct Hw; lia). cbn [negb] in E.
  pose proof (mark_pages_ok (Z.to_nat pages) pages w1) as H2.
  destruct (mark_pages_loop _ _ _ w1) as [ok2 w2] eqn:E2. pose proof (mark_pages_frame _ _ _ _ _ E2 Hw1) as Hw2.
  cbn in H2. rewrite H2 in E by (destruct Hw1; lia). cbn [negb] in E.
  pose proof (seen_pages_ok (Z.to_nat pages) pages w2) as H3. rewrite E in H3. cbn in H3.
  apply H3. destruct Hw2; lia.
Qed.

End ensure.

Lemma block_pos : 0 < MFS_BLOCK.
Proof. done. Qed.

(** The page of the window that a block has been read into. *)
Lemma put_page_read off B X M a :
  0 <= off ->
  put_page off (copy_to 0 (slice_at off (Z.to_nat MFS_BLOCK) B) X) M a
  = if (off <=? a) && (a <? off + MFS_BLOCK) then B a else M a.
Proof.
  intros Hoff. unfold put_page. destruct (_ && _) eqn:E; [|done]. apply andb_prop in E as [E1 E2]. bool_to_prop.
  pose proof (copy_to_in 0 (slice_at off (Z.to_nat MFS_BLOCK) B) X (Z.to_nat (a - off)) (B a)) as H.
  rewrite Z2Nat.id in H by lia. apply H. change MFS_BLOCK with 4096 in *. rewrite lookup_slice_at by lia.
  f_equal. f_equal. lia.
Qed.

Lemma put_page_bytes off buf M : byte_mem buf -> byte_mem M -> byte_mem (put_page off buf M).
Proof. intros H1 H2 a. unfold put_page. destruct (_ && _); [apply H1|apply H2]. Qed.

Section restore.
Context {D : Type} `{!MfsDevice D, !MfsDeviceLaws D} (answers : nat -> bool) (MFS_CUR_SECTORS : Z).
Context (V : Z -> list Z) (HV : forall b, block_data (V b)).
Implicit Types (m : mfs D) (t : mnt D) (s : mfs_io D).

(** A read changes nothing, wherever it is. *)
Lemma read_keeps b dst s ok buf s' :
  gio_ok V s -> mfs_read_blk b dst s = (ok, buf, s') -> gio_ok V s' /\ (byte_mem dst -> byte_mem buf).
Proof using MfsDeviceLaws0.
  intros [Hwb Hv] H. unfold mfs_read_blk in H. rewrite (wb_has_empty _ _ Hwb) in H. cbn [negb] in H.
  destruct (block_read_dev _ _ _) as [[ok1 bs] d] eqn:E. injection H as <- <- <-.
  assert (same_content (MFS_DEV s) d /\ Forall is_byte bs) as [Hs Hbs].
  { destruct ok1.
    - apply read_ok in E as [-> Hs]. split; [done|]. apply content_data.
    - by apply read_bad in E as (_ & Hb & Hs). }
  split; [|intros; by apply byte_mem_copy_to]. split; [exact Hwb|]. intros b'. rewrite <- Hv. unfold mfs_view. cbn.
  rewrite Hwb. unfold staged. cbn. by rewrite Hs.
Qed.

(** What a mount never loses. *)
Definition kept t : Prop :=
  gio_ok V (m_io (t_fs t)) /\ wins_ok (t_win t) /\ length (t_snaps t) = MFS_MAX_SNAP
  /\ byte_mem (MFS_BMP (m_space (t_fs t))) /\ byte_mem (mfs_itab_buf (m_tab (t_fs t))).

Lemma load_chunks_keeps n c ds head m ok m' :
  load_chunks n c ds head m = (ok, m') -> gio_ok V (m_io m) -> byte_mem (MFS_BMP (m_space m)) ->
  gio_ok V (m_io m') /\ byte_mem (MFS_BMP (m_space m')) /\ m_tab m' = m_tab m.
Proof using MfsDeviceLaws0.
  revert c m. induction n as [|n IH]; intros c m; cbn [load_chunks]; [by intros [= <- <-]|].
  destruct (mfs_read_blk _ _ _) as [[ok1 dp] s] eqn:E. intros H Hg Hb.
  destruct (read_keeps _ _ _ _ _ _ Hg E) as [Hs Hdp].
  assert (byte_mem (put_page (c * MFS_BLOCK) dp (MFS_BMP (m_space m)))) as Hpb.
  { apply put_page_bytes; [|done]. apply Hdp. intros a. apply Hb. }
  destruct (negb ok1); [by injection H as <- <-|]. destruct (negb _); [by injection H as <- <-|]. by apply IH in H.
Qed.

Lemma load_bitmap_keeps copy m ok m' :
  mfs_load_bitmap_copy copy m = (ok, m') -> gio_ok V (m_io m) -> byte_mem (MFS_BMP (m_space m)) ->
  0 <= copy < 2^27 ->
  gio_ok V (m_io m') /\ byte_mem (MFS_BMP (m_space m')) /\ m_tab m' = m_tab m
  /\ (ok = true -> mfs_ok (loaded (V (2 + copy))) MFS_MAGIC_BMPHDR = true).
Proof using MfsDeviceLaws0.
  unfold mfs_load_bitmap_copy. destruct (mfs_read_blk _ _ _) as [[ok1 head] s] eqn:E. intros H Hg Hb Hc.
  destruct (gc_read V (2 + copy) _ _ _ _ Hg ltac:(lia) E) as [Hs Hh].
  destruct ok1; cbn [negb orb] in H; [|by injection H as <- <-]. rewrite (Hh eq_refl) in H.
  destruct (mfs_ok (loaded (V (2 + copy))) MFS_MAGIC_BMPHDR); cbn [negb] in H; [|by injection H as <- <-].
  repeat (destruct (negb _) in H; [by injection H as <- <-|]).
  apply load_chunks_keeps in H as (H1 & H2 & H3); [|done|done]. auto.
Qed.

Lemma reload_keeps m ok m' :
  mfs_itab_reload m = (ok, m') -> gio_ok V (m_io m) ->
  gio_ok V (m_io m') /\ MFS_BMP (m_space m') = MFS_BMP (m_space m) /\ mfs_itab_buf (m_tab m') = mfs_itab_buf (m_tab m)
  /\ m_space m' = m_space m /\ m_super m' = m_super m.
Proof using MfsDeviceLaws0.
  unfold mfs_itab_reload. destruct (_ =? 0); [by intros [= <- <-]|].
  destruct (mfs_read_blk _ scratch _) as [[ok1 x] s] eqn:E. intros H Hg.
  destruct (read_keeps _ _ _ _ _ _ Hg E) as [Hs _]. destruct (_ || _); by injection H as <- <-.
Qed.

(** Whatever a copy holds, its turn keeps the state mountable, and takes it or leaves it. *)
Lemma load_copy_keeps copy c t c' t' :
  load_copy answers MFS_CUR_SECTORS copy c t = (c', t') -> kept t -> 0 <= copy < 2^27 ->
  kept t'
  /\ (c' = c
      \/ (mfs_ok (loaded (V copy)) MFS_MAGIC_SUPER = true /\ read_u32 (loaded (V copy)) MFS_HDR = MFS_VERSION
          /\ found c' = true /\ best_gen c' = read_u64 (loaded (V copy)) (MFS_HDR + MFS_SB_GEN)
          /\ (bitmap_ok c' = true -> mfs_ok (loaded (V (2 + copy))) MFS_MAGIC_BMPHDR = true))).
Proof using MfsDeviceLaws0.
  intros H (Hg & Hw & Hl & Hb & Hi) Hc. unfold load_copy in H.
  destruct (mfs_read_blk copy scratch _) as [[ok1 buf] s1] eqn:E1.
  destruct (gc_read V copy _ _ _ _ Hg ltac:(lia) E1) as [Hg1 Hbuf].
  destruct ok1; cbn [negb orb] in H; [|injection H as <- <-; split; [done|by left]].
  rewrite (Hbuf eq_refl) in H. clear Hbuf E1 buf. set (buf := loaded (V copy)) in *.
  destruct (mfs_ok buf MFS_MAGIC_SUPER) eqn:Eok; cbn [negb] in H; [|injection H as <- <-; split; [done|by left]].
  destruct (Z.eqb_spec (read_u32 buf MFS_HDR) MFS_VERSION) as [Ev|_]; cbn [negb] in H;
    [|injection H as <- <-; split; [done|by left]].
  destruct (found c && _); [injection H as <- <-; split; [done|by left]|].
  destruct (_ || _); [injection H as <- <-; split; [done|by left]|].
  destruct (_ && _); [injection H as <- <-; split; [done|by left]|].
  destruct (mfs_read_blk _ scratch _) as [[ok2 x] s2] eqn:E2.
  destruct (read_keeps _ _ _ _ _ _ Hg1 E2) as [Hg2 _].
  destruct (_ || _); [injection H as <- <-; split; [done|by left]|].
  destruct (mfs_win_ensure _ _ _) as [ok3 w] eqn:E3. cbn [adopt_super t_win set_fs] in E3.
  apply ensure_frame in E3; [|exact Hw].
  destruct ok3; cbn [negb] in H; [|injection H as <- <-; split; [done|by left]].
  destruct (mfs_itab_reload _) as [ok4 m4] eqn:E4. apply reload_keeps in E4 as (Hg4 & Hb4 & Hi4 & _ & Hs4); [|done].
  cbn [adopt_super t_fs set_fs m_space MFS_BMP m_tab mfs_itab_buf] in Hb4, Hi4.
  destruct ok4; cbn [negb] in H; [|injection H as <- <-; split; [|by left]].
  2: { split; [done|]. split; [done|]. split; [done|]. cbn. rewrite Hb4, Hi4. done. }
  destruct (mfs_load_bitmap_copy _ _) as [ok5 m5] eqn:E5.
  apply load_bitmap_keeps in E5 as (Hg5 & Hb5 & Et5 & Hh5); [|done|cbn; by rewrite Hb4|done].
  injection H as <- <-. split; [|right; auto]. split; [done|]. split; [done|].
  split; [|cbn; rewrite Et5; cbn; by rewrite Hi4].
  cbn [adopt_snaps set_fs t_snaps t_fs]. rewrite length_app, length_fmap, length_seq, length_drop, Hs4.
  cbn [adopt_super t_fs m_super MFS_SNAPS t_snaps set_fs]. rewrite length_take. lia.
Qed.

(** The state [p], [sb] has been loaded. *)
Record restored (p : mfs_space) (sb : mfs_super) t : Prop := {
  re_kept : kept t;
  re_super : m_super (t_fs t) = sb;
  re_total : MFS_TOTAL_BLOCKS (m_space (t_fs t)) = MFS_TOTAL_BLOCKS p;
  re_next : MFS_ALLOC_NEXT (m_space (t_fs t)) = MFS_ALLOC_NEXT p;
  re_bits a : 0 <= a < MFS_BMP_DATA_BLOCKS sb * MFS_BLOCK -> MFS_BMP (m_space (t_fs t)) a = MFS_BMP p a;
  re_tab : MFS_ITAB_MEM (m_tab (t_fs t)) = index_slots (loaded (V (MFS_ITAB sb)));
  re_idx : MFS_ITAB_CACHE_IDX (m_tab (t_fs t)) = U32_MAX
}.

Context (Hread : forall v lba d, (block_read_dev v lba d).1.1 = true).

Lemma read_good b dst s :
  gio_ok V s -> 0 <= b < 2^28 -> exists s', mfs_read_blk b dst s = (true, copy_to 0 (V b) dst, s') /\ gio_ok V s'.
Proof using MfsDeviceLaws0 Hread.
  intros Hg Hb. destruct (mfs_read_blk b dst s) as [[ok buf] s'] eqn:E. exists s'.
  split; [|by apply read_keeps in E as [? _]]. destruct Hg as [Hwb Hv].
  assert (io_wf s) as Hwf by (unfold io_wf; rewrite Hwb; split; constructor).
  assert (ok = true) as ->.
  { unfold mfs_read_blk in E. rewrite (wb_has_empty _ _ Hwb) in E. cbn [negb] in E.
    pose proof (Hread (MFS_CUR_VOL s) (w32 (b * MFS_SECTORS_PER_BLOCK)) (MFS_DEV s)) as H.
    destruct (block_read_dev _ _ _) as [[ok1 bs] d]. cbn in H. by injection E as <- _ _. }
  destruct (read_blk_spec _ _ _ _ _ _ Hwf Hb E) as (_ & _ & _ & _ & Hbuf & _). by rewrite (Hbuf eq_refl), Hv.
Qed.

(** The bitmap blocks of an intact copy are taken. *)
Lemma load_chunks_good (p : mfs_space) n c ds head m :
  gio_ok V (m_io m) -> 0 <= c -> 0 <= ds -> ds + c + Z.of_nat n < 2^28 ->
  (forall c', c <= c' < c + Z.of_nat n ->
     V (ds + c') = bmp_block p c' /\ read_u32 head (MFS_HDR + MFS_BMPH_CRC + c' * 4) = mfs_crc32 (bmp_block p c')) ->
  exists m', load_chunks n c ds head m = (true, m') /\ gio_ok V (m_io m')
    /\ m' = mk_mfs (m_io m') (set_bmp (MFS_BMP (m_space m')) (m_space m)) (m_super m) (m_tab m)
    /\ (forall a, c * MFS_BLOCK <= a < (c + Z.of_nat n) * MFS_BLOCK -> MFS_BMP (m_space m') a = MFS_BMP p a)
    /\ (forall a, a < c * MFS_BLOCK -> MFS_BMP (m_space m') a = MFS_BMP (m_space m) a).
Proof using MfsDeviceLaws0 Hread HV.
  revert c m. induction n as [|n IH]; intros c m Hg Hc Hds Hr Hch; cbn [load_chunks].
  { exists m. split; [done|]. split; [done|]. split; [by destruct m as [? [] ? ?]|]. split; [intros a Ha; lia|done]. }
  destruct (Hch c) as [Ev Ec]; [lia|].
  set (X := page_at (c * MFS_BLOCK) (MFS_BMP (m_space m))).
  destruct (read_good (ds + c) X (m_io m) Hg) as (s & -> & Hs); [lia|].
  assert (chunk_ok (copy_to 0 (V (ds + c)) X) head c = true) as ->.
  { unfold chunk_ok. rewrite slice_load by apply HV. rewrite Ec, Ev. apply Z.eqb_refl. }
  cbn [negb]. rewrite Ev.
  set (m1 := set_space _ _). destruct (IH (c + 1) m1) as (m' & E & Hg' & Em & Hin & Hout); [done|lia|done|lia| |].
  { intros c' Hc'. apply Hch. lia. }
  exists m'. split; [exact E|]. split; [exact Hg'|]. split; [exact Em|].
  assert (forall a, MFS_BMP (m_space m1) a
            = if (c * MFS_BLOCK <=? a) && (a <? c * MFS_BLOCK + MFS_BLOCK) then MFS_BMP p a
              else MFS_BMP (m_space m) a) as Hm1.
  { intros a. subst m1. unfold set_space, set_io, set_bmp. cbn [m_space MFS_BMP]. unfold bmp_block.
    apply put_page_read. pose proof block_pos. apply Z.mul_nonneg_nonneg; lia. }
  clearbody m1.
  pose proof block_pos as HB. split.
  - intros a Ha. destruct (Z.lt_ge_cases a ((c + 1) * MFS_BLOCK)) as [Hlt|Hge]; [|apply Hin; lia].
    rewrite Hout, Hm1 by lia. rewrite (proj2 (Z.leb_le _ _)), (proj2 (Z.ltb_lt _ _)) by lia. done.
  - intros a Ha. rewrite Hout, Hm1 by lia. rewrite (proj2 (Z.leb_gt _ _)) by lia. done.
Qed.

(** What is to be restored: a state whose superblock, header and bitmap can be read back. *)
Record loadable (p : mfs_space) (sb : mfs_super) : Prop := {
  lo_sized : sized p sb;
  lo_bytes : byte_mem (MFS_BMP p);
  lo_total : 0 < MFS_TOTAL_BLOCKS p <= MFS_MAX_BLOCKS;
  lo_bb : MFS_BMP_DATA_BLOCKS sb = mfs_bb_for (MFS_TOTAL_BLOCKS p);
  lo_itab : 0 < MFS_ITAB sb < MFS_TOTAL_BLOCKS p;
  lo_snaps sn : sn ∈ MFS_SNAPS sb -> snap_itab sn < MFS_TOTAL_BLOCKS p;
  lo_index : mfs_ok (loaded (V (MFS_ITAB sb))) MFS_MAGIC_ITABX = true
}.

Lemma bb_bound total : 0 <= total <= MFS_MAX_BLOCKS -> 0 <= mfs_bb_for total <= 1018.
Proof.
  change MFS_MAX_BLOCKS with 33357824. unfold mfs_bb_for, div_ceil. change MFS_BMP_BLOCK_SPAN with 32768. intros H.
  Z.to_euclidean_division_equations. lia.
Qed.

Lemma load_bitmap_good p sb copy m :
  loadable p sb -> copy_intact V p sb copy -> copy = 0 \/ copy = 1 -> gio_ok V (m_io m) ->
  m_super m = sb -> MFS_TOTAL_BLOCKS (m_space m) = MFS_TOTAL_BLOCKS p ->
  exists m', mfs_load_bitmap_copy copy m = (true, m') /\ gio_ok V (m_io m')
    /\ m' = mk_mfs (m_io m') (set_bmp (MFS_BMP (m_space m')) (m_space m)) (m_super m) (m_tab m)
    /\ (forall a, 0 <= a < MFS_BMP_DATA_BLOCKS sb * MFS_BLOCK -> MFS_BMP (m_space m') a = MFS_BMP p a).
Proof using MfsDeviceLaws0 Hread HV.
  intros Hl Hc Hcp Hg Es Et. unfold mfs_load_bitmap_copy. rewrite Es.
  pose proof (lo_total _ _ Hl) as Htot. pose proof (bb_bound (MFS_TOTAL_BLOCKS p) ltac:(lia)) as Hbb.
  rewrite <- (lo_bb _ _ Hl) in Hbb.
  destruct (read_good (2 + copy) scratch (m_io m) Hg) as (s & -> & Hs); [destruct Hcp; subst; lia|].
  change (copy_to 0 (V (2 + copy)) scratch) with (loaded (V (2 + copy))). rewrite (ci_head _ _ _ _ Hc).
  destruct (build_header_read p sb (lo_sized _ _ Hl) (lo_bytes _ _ Hl) Hbb) as (Hok & Hgen & Ht & Hb & Hcrc).
  set (h := mfs_build_bmp_header p sb scratch) in *. clearbody h.
  pose proof (loaded_slice h) as Hag. set (head := loaded _) in *. clearbody head.
  assert (forall q, 8 <= q <= 4092 -> read_u32 head q = read_u32 h q) as H32.
  { intros q Hq. apply read_u32_ext. eapply agree_sub; [exact Hag|lia|unfold MFS_BLOCK; lia]. }
  assert (read_u64 head (MFS_HDR + MFS_BMPH_GEN) = MFS_GEN sb) as ->.
  { rewrite <- Hgen. apply read_u64_ext. eapply agree_sub; [exact Hag|done|done]. }
  rewrite (ok_ext _ _ _ Hag), Hok, !H32, Ht, Hb, Z.eqb_refl by done. cbn [negb orb]. rewrite !Z.eqb_refl.
  cbn [m_super m_space set_io]. rewrite Es, Et, !Z.eqb_refl. cbn [negb].
  destruct (load_chunks_good p (Z.to_nat (MFS_BMP_DATA_BLOCKS sb)) 0 (4 + copy * MFS_BMP_DATA_BLOCKS sb) head (set_io m s))
    as (m' & E & Hg' & Em & Hin & _); [done|lia|destruct Hcp; subst; lia|destruct Hcp; subst; lia| |].
  { intros c Hcr. rewrite Z2Nat.id in Hcr by lia. split; [apply (ci_bits _ _ _ _ Hc); lia|].
    rewrite H32; [apply Hcrc; lia|]. change MFS_HDR with 8. change MFS_BMPH_CRC with 16. lia. }
  exists m'. split; [exact E|]. split; [exact Hg'|]. split; [rewrite <- Es; exact Em|].
  intros a Ha. apply Hin. rewrite Z2Nat.id by lia. exact Ha.
Qed.

Context (Hans : forall n, answers n = true).

(** A volume that is large enough, or whose size is unknown. *)
Definition room (p : mfs_space) : Prop :=
  MFS_CUR_SECTORS = 0 \/ MFS_TOTAL_BLOCKS p * MFS_SECTORS_PER_BLOCK <= MFS_CUR_SECTORS.

Lemma loaded_super p sb copy (buf := loaded (V copy)) :
  loadable p sb -> copy_intact V p sb copy ->
  mfs_ok buf MFS_MAGIC_SUPER = true /\ read_u32 buf MFS_HDR = MFS_VERSION
  /\ read_u32 buf (MFS_HDR + MFS_SB_TOTAL) = MFS_TOTAL_BLOCKS p
  /\ read_u32 buf (MFS_HDR + MFS_SB_INO_COUNT) = MFS_INO_COUNT sb
  /\ read_u32 buf (MFS_HDR + MFS_SB_ALLOC_HINT) = MFS_ALLOC_NEXT p
  /\ read_u32 buf (MFS_HDR + MFS_SB_SNAP_COUNT) = Z.of_nat (length (MFS_SNAPS sb))
  /\ read_u64 buf (MFS_HDR + MFS_SB_GEN) = MFS_GEN sb /\ read_u32 buf (MFS_HDR + MFS_SB_ITAB) = MFS_ITAB sb
  /\ read_u32 buf (MFS_HDR + MFS_SB_INO_HINT) = MFS_INO_HINT sb
  /\ read_u64 buf (MFS_HDR + MFS_SB_PRIMARY) = MFS_PRIMARY_SERIAL sb
  /\ read_snap buf <$> seq 0 (length (MFS_SNAPS sb)) = MFS_SNAPS sb.
Proof using Type.
  intros Hl Hc. subst buf. rewrite (ci_super _ _ _ _ Hc). pose proof (lo_sized _ _ Hl) as Hz.
  pose proof (build_super_read p sb Hz) as Hf. pose proof (build_super_snaps p sb Hz) as Hsn.
  destruct (build_super_fields p sb scratch scratch_bytes (z_itab _ _ Hz) (z_gen _ _ Hz)) as (Hok & _).
  set (x := mfs_build_super p sb scratch) in *. clearbody x.
  pose proof (loaded_slice x) as Hag. set (buf := loaded _) in *. clearbody buf.
  assert (forall q, 8 <= q <= 4092 -> read_u32 buf q = read_u32 x q) as H32.
  { intros q Hq. apply read_u32_ext. eapply agree_sub; [exact Hag|lia|unfold MFS_BLOCK; lia]. }
  assert (forall q, 8 <= q <= 4088 -> read_u64 buf q = read_u64 x q) as H64.
  { intros q Hq. apply read_u64_ext. eapply agree_sub; [exact Hag|lia|unfold MFS_BLOCK; lia]. }
  split; [by rewrite (ok_ext _ _ _ Hag), Hok|]. rewrite !H32, !H64 by done.
  destruct Hf as (F1 & F2 & F3 & F4 & F5 & F6 & F7 & F8 & F9). do 9 (split; [done|]).
  rewrite <- Hsn at 2. apply list_fmap_ext. intros i j Hj%lookup_seq. pose proof (z_snaps _ _ Hz) as H8.
  unfold MFS_MAX_SNAP in H8. unfold read_snap. offsets. rewrite !H32, !H64 by lia. done.
Qed.

Lemma reload_good m :
  gio_ok V (m_io m) -> 0 < MFS_ITAB (m_super m) < 2^28 ->
  mfs_ok (loaded (V (MFS_ITAB (m_super m)))) MFS_MAGIC_ITABX = true ->
  exists s, gio_ok V s
    /\ mfs_itab_reload m
       = (true, mk_mfs s (m_space m) (m_super m)
                  (mk_tab (index_slots (loaded (V (MFS_ITAB (m_super m))))) U32_MAX (mfs_itab_buf (m_tab m)))).
Proof using MfsDeviceLaws0 Hread.
  intros Hg Hi Hok. unfold mfs_itab_reload. rewrite (proj2 (Z.eqb_neq _ _)) by lia.
  destruct (read_good (MFS_ITAB (m_super m)) scratch _ Hg) as (s & -> & Hs); [lia|]. exists s. split; [done|].
  change (copy_to 0 _ scratch) with (loaded (V (MFS_ITAB (m_super m)))). rewrite Hok. reflexivity.
Qed.

(** The snapshot records of an intact superblock. *)
Lemma adopt_snaps_good p sb copy t :
  loadable p sb -> copy_intact V p sb copy -> length (t_snaps t) = MFS_MAX_SNAP ->
  let sb0 := m_super (t_fs t) in
  MFS_SNAPS sb0 = take (Z.to_nat (Z.min (Z.of_nat (length (MFS_SNAPS sb))) (Z.of_nat MFS_MAX_SNAP))) (t_snaps t) ->
  sb0 = mk_super (MFS_GEN sb) (MFS_ITAB sb) (MFS_INO_COUNT sb) (MFS_INO_HINT sb) (MFS_SNAPS sb0)
          (MFS_PRIMARY_SERIAL sb) (MFS_BMP_DATA_BLOCKS sb) ->
  m_super (t_fs (adopt_snaps (loaded (V copy)) t)) = sb.
Proof using Type.
  intros Hl Hc Hlen sb0 Hsn Hsb. pose proof (z_snaps _ _ (lo_sized _ _ Hl)) as H8.
  destruct (loaded_super p sb copy Hl Hc) as (_ & _ & _ & _ & _ & _ & _ & _ & _ & _ & Hrd).
  set (buf := loaded (V copy)) in *. clearbody buf.
  assert (length (MFS_SNAPS sb0) = length (MFS_SNAPS sb)) as En by (rewrite Hsn, length_take; lia).
  unfold adopt_snaps. cbn [t_fs m_super]. fold sb0. rewrite En, Hrd.
  rewrite take_app_length' by done. rewrite Hsb. by destruct sb.
Qed.

(** The turn of an intact copy, unless the scan has it already. *)
Lemma load_copy_good p sb copy c t :
  loadable p sb -> copy_intact V p sb copy -> copy = 0 \/ copy = 1 -> room p -> kept t ->
  (found c = true -> best_gen c < MFS_GEN sb \/ (best_gen c = MFS_GEN sb /\ bitmap_ok c = false)) ->
  exists t', load_copy answers MFS_CUR_SECTORS copy c t = (mk_cand true (MFS_GEN sb) true, t') /\ restored p sb t'.
Proof using MfsDeviceLaws0 Hread HV Hans.
  intros Hl Hc Hcp Hroom Hk Hcand. pose proof Hk as (Hg & Hw & Hsl & Hb & Hi). unfold load_copy.
  destruct (read_good copy scratch _ Hg) as (s & -> & Hs); [destruct Hcp; subst; lia|].
  change (copy_to 0 (V copy) scratch) with (loaded (V copy)).
  destruct (loaded_super p sb copy Hl Hc) as (Hok & Hver & Htot & Hcnt & Hnxt & Hscn & Hgen & Hitab & Hhint & Hprim & Hsn).
  rewrite Hok, Hver, Z.eqb_refl, Hgen, Htot, Hitab. cbn [negb orb].
  pose proof (lo_total _ _ Hl) as Ht. pose proof (lo_itab _ _ Hl) as Hit.
  assert (found c && ((MFS_GEN sb <? best_gen c) || (MFS_GEN sb =? best_gen c) && bitmap_ok c) = false) as ->.
  { destruct (found c); [|done]. destruct (Hcand eq_refl) as [H|[-> ->]].
    - rewrite (proj2 (Z.ltb_ge _ _)), (proj2 (Z.eqb_neq _ _)) by lia. done.
    - rewrite Z.ltb_irrefl, andb_false_r. done. }
  assert ((MFS_TOTAL_BLOCKS p =? 0) || (MFS_ITAB sb =? 0) || (MFS_MAX_BLOCKS <? MFS_TOTAL_BLOCKS p) = false) as ->.
  { rewrite !(proj2 (Z.eqb_neq _ _)), (proj2 (Z.ltb_ge _ _)) by lia. done. }
  assert (negb (MFS_CUR_SECTORS =? 0) && (MFS_CUR_SECTORS <? MFS_TOTAL_BLOCKS p * MFS_SECTORS_PER_BLOCK) = false) as ->.
  { destruct Hroom as [-> | Hr]; [done|]. rewrite (proj2 (Z.ltb_ge _ _)) by lia. apply andb_false_r. }
  cbn [set_fs t_fs set_io m_io].
  destruct (read_good (MFS_ITAB sb) scratch s Hs) as (s2 & -> & Hs2); [change MFS_MAX_BLOCKS with 33357824 in Ht; lia|].
  change (copy_to 0 (V (MFS_ITAB sb)) scratch) with (loaded (V (MFS_ITAB sb))). rewrite (lo_index _ _ Hl). cbn [negb orb].
  set (t1 := adopt_super (loaded (V copy)) _). destruct (ensure_ok _ Hans (mfs_bb_for (MFS_TOTAL_BLOCKS p)) (t_win t1)) as (w & -> & Hw');
    [exact Hw|]. cbn [negb].
  assert (m_super (t_fs t1) = mk_super (MFS_GEN sb) (MFS_ITAB sb) (MFS_INO_COUNT sb) (MFS_INO_HINT sb)
            (take (Z.to_nat (Z.min (Z.of_nat (length (MFS_SNAPS sb))) (Z.of_nat MFS_MAX_SNAP))) (t_snaps t))
            (MFS_PRIMARY_SERIAL sb) (MFS_BMP_DATA_BLOCKS sb)) as Es2.
  { subst t1. unfold adopt_super. cbn [t_fs m_super t_snaps set_fs].
    rewrite Hgen, Hitab, Hcnt, Hhint, Hprim, Hscn, Htot, (lo_bb _ _ Hl).
    pose proof (z_hint _ _ (lo_sized _ _ Hl)) as Hh. by rewrite Z.max_l by lia. }
  destruct (reload_good (t_fs t1)) as (s3 & Hs3 & E3); [exact Hs2|rewrite Es2; cbn..|].
  { change MFS_MAX_BLOCKS with 33357824 in Ht. lia. } { apply (lo_index _ _ Hl). }
  cbn [t_fs]. rewrite E3. cbn [negb]. set (t3 := set_fs _ _).
  assert (m_super (t_fs (adopt_snaps (loaded (V copy)) t3)) = sb) as Es3.
  { apply (adopt_snaps_good p sb copy t3 Hl Hc); subst t3; cbn [set_fs t_fs t_snaps m_super]; [exact Hsl|by rewrite Es2|].
    by rewrite Es2. }
  destruct (load_bitmap_good p sb copy (t_fs (adopt_snaps (loaded (V copy)) t3)) Hl Hc Hcp Hs3 Es3)
    as (m5 & E5 & Hg5 & Em5 & Hb5); [exact Htot|].
  rewrite E5. eexists. split; [reflexivity|].
  destruct (load_bitmap_keeps _ _ _ _ E5 Hs3 Hb) as (_ & Hbm5 & _); [destruct Hcp; subst; lia|].
  assert (kept (set_fs (adopt_snaps (loaded (V copy)) t3) m5)) as Hk5.
  { split; [exact Hg5|]. split; [exact Hw'|]. split; [|split; [exact Hbm5|cbn [set_fs t_fs]; rewrite Em5; exact Hi]].
    unfold adopt_snaps. cbn [set_fs t_snaps]. subst t3. cbn [set_fs t_snaps t_fs m_super].
    rewrite length_app, length_fmap, length_seq, length_drop, Es2. cbn [MFS_SNAPS]. rewrite length_take.
    change (t_snaps t1) with (t_snaps t). lia. }
  split; cbn [set_fs t_fs].
  - exact Hk5.
  - rewrite Em5. cbn [m_super]. exact Es3.
  - rewrite Em5. cbn [m_space]. exact Htot.
  - rewrite Em5. cbn [m_space]. exact Hnxt.
  - exact Hb5.
  - rewrite Em5. cbn [m_tab]. subst t3. unfold adopt_snaps. cbn [set_fs t_fs m_tab MFS_ITAB_MEM]. by rewrite Es2.
  - rewrite Em5. reflexivity.
Qed.

(** A copy that is not newer than what the scan has is passed over. *)
Lemma load_copy_skip copy c t :
  kept t -> 0 <= copy < 2^28 -> found c = true -> bitmap_ok c = true ->
  (mfs_ok (loaded (V copy)) MFS_MAGIC_SUPER = true -> read_u32 (loaded (V copy)) MFS_HDR = MFS_VERSION ->
   read_u64 (loaded (V copy)) (MFS_HDR + MFS_SB_GEN) <= best_gen c) ->
  exists s, gio_ok V s /\ load_copy answers MFS_CUR_SECTORS copy c t = (c, set_fs t (set_io (t_fs t) s)).
Proof using MfsDeviceLaws0 Hread.
  intros (Hg & _) Hc Hf Hb Hgen. unfold load_copy. destruct (read_good copy scratch _ Hg Hc) as (s & -> & Hs).
  change (copy_to 0 (V copy) scratch) with (loaded (V copy)). exists s. split; [exact Hs|]. cbn [negb orb].
  destruct (mfs_ok (loaded (V copy)) MFS_MAGIC_SUPER); cbn [negb]; [|reflexivity].
  destruct (Z.eqb_spec (read_u32 (loaded (V copy)) MFS_HDR) MFS_VERSION) as [Ev|]; cbn [negb]; [|reflexivity].
  specialize (Hgen eq_refl Ev). rewrite Hf, Hb, andb_true_r. cbn [andb].
  assert ((read_u64 (loaded (V copy)) (MFS_HDR + MFS_SB_GEN) <? best_gen c)
          || (read_u64 (loaded (V copy)) (MFS_HDR + MFS_SB_GEN) =? best_gen c) = true) as ->; [|reflexivity].
  apply orb_true_iff. rewrite Z.ltb_lt, Z.eqb_eq. lia.
Qed.

(** What the other copy may have become: intact, unreadable, left at an older generation, or with a
    bitmap header that is damaged. *)
Definition other_copy (p : mfs_space) (sb : mfs_super) (copy : Z) : Prop :=
  let buf := loaded (V copy) in
  copy_intact V p sb copy
  \/ mfs_ok buf MFS_MAGIC_SUPER = false \/ read_u32 buf MFS_HDR <> MFS_VERSION
  \/ read_u64 buf (MFS_HDR + MFS_SB_GEN) < MFS_GEN sb
  \/ (read_u64 buf (MFS_HDR + MFS_SB_GEN) = MFS_GEN sb /\ mfs_ok (loaded (V (2 + copy))) MFS_MAGIC_BMPHDR = false).

Lemma other_gen p sb copy :
  loadable p sb -> other_copy p sb copy ->
  mfs_ok (loaded (V copy)) MFS_MAGIC_SUPER = true -> read_u32 (loaded (V copy)) MFS_HDR = MFS_VERSION ->
  read_u64 (loaded (V copy)) (MFS_HDR + MFS_SB_GEN) <= MFS_GEN sb.
Proof using Type.
  intros Hl [Hc|[H|[H|[H|[H _]]]]] Hok Hv; [|congruence|done|lia|lia].
  destruct (loaded_super p sb copy Hl Hc) as (_ & _ & _ & _ & _ & _ & Hg & _). lia.
Qed.

Lemma restored_io p sb t s : restored p sb t -> gio_ok V s -> restored p sb (set_fs t (set_io (t_fs t) s)).
Proof using Type. intros [(K1 & K2 & K3 & K4 & K5) R1 R2 R3 R4 R5 R6] Hs. by split. Qed.

(** The scan finds the intact copy. *)
Lemma scan_good p sb good t :
  loadable p sb -> room p -> kept t -> good = 0 \/ good = 1 ->
  copy_intact V p sb good -> other_copy p sb (1 - good) ->
  exists t', (let '(c, t) := load_copy answers MFS_CUR_SECTORS 0 (mk_cand false 0 false) t in
              load_copy answers MFS_CUR_SECTORS 1 c t) = (mk_cand true (MFS_GEN sb) true, t')
    /\ restored p sb t'.
Proof using MfsDeviceLaws0 Hread HV Hans.
  intros Hl Hr Hk Hgood Hc Ho.
  assert (copy_intact V p sb 0 -> other_copy p sb 1 ->
    exists t', (let '(c, t) := load_copy answers MFS_CUR_SECTORS 0 (mk_cand false 0 false) t in
                load_copy answers MFS_CUR_SECTORS 1 c t) = (mk_cand true (MFS_GEN sb) true, t')
      /\ restored p sb t') as First.
  { intros Hc0 Ho1. destruct (load_copy_good p sb 0 (mk_cand false 0 false) t Hl Hc0) as (t1 & -> & Hre); [by left|done..|].
    destruct (load_copy_skip 1 (mk_cand true (MFS_GEN sb) true) t1 (re_kept _ _ _ Hre)) as (s & Hs & ->); [lia|done|done| |].
    { by apply (other_gen p sb 1 Hl Ho1). }
    eexists. split; [reflexivity|]. by apply restored_io. }
  destruct Hgood as [-> | ->]; [by apply First|]. change (1 - 1) with 0 in Ho.
  destruct Ho as [Hc0|Ho]; [apply First; [done|by left]|].
  destruct (load_copy answers MFS_CUR_SECTORS 0 _ t) as [c1 t1] eqn:E0.
  apply load_copy_keeps in E0 as [Hk1 Hc1]; [|done|lia].
  apply (load_copy_good p sb 1 c1 t1 Hl Hc); [by right|done|done|]. intros Hf.
  destruct Hc1 as [->|(Hok & Hv & _ & Hg & Hb)]; [done|]. rewrite Hg.
  destruct Ho as [H|[H|[H|[H1 H2]]]]; [congruence|done|by left|right].
  split; [done|]. destruct (bitmap_ok c1); [|done]. rewrite Hb in H2 by done. done.
Qed.


(** ** The bitmap after a mount *)

(** Blocks a mount marks as used, whatever the bitmap says. *)
Definition protected (p : mfs_space) (sb : mfs_super) (b : Z) : Prop :=
  0 <= b < mfs_data_start p
  \/ exists itab, itab ∈ gc_itabs sb /\ itab <> 0
       /\ (b = itab \/ (mfs_ok (loaded (V itab)) MFS_MAGIC_ITABX = true /\ b <> 0 /\ b ∈ index_slots (loaded (V itab)))).

(** From [p] to [p'], exactly the blocks [Q] have been added. *)
Record added (Q : Z -> Prop) (p p' : mfs_space) : Prop := {
  ad_total : MFS_TOTAL_BLOCKS p' = MFS_TOTAL_BLOCKS p;
  ad_next : MFS_ALLOC_NEXT p' = MFS_ALLOC_NEXT p;
  ad_bytes : byte_mem (MFS_BMP p) -> byte_mem (MFS_BMP p');
  ad_wf : space_wf p -> space_wf p';
  ad_get b : 0 <= b -> mfs_bmp_get b p' = true <-> mfs_bmp_get b p = true \/ (Q b /\ b < MFS_TOTAL_BLOCKS p)
}.

Lemma added_refl (Q : Z -> Prop) p : (forall b, ~ Q b) -> added Q p p.
Proof using Type. intros HQ. split; try done. intros b _. specialize (HQ b). tauto. Qed.

Lemma added_trans (Q1 Q2 Q : Z -> Prop) p1 p2 p3 :
  (forall b, Q b <-> Q1 b \/ Q2 b) -> added Q1 p1 p2 -> added Q2 p2 p3 -> added Q p1 p3.
Proof using Type.
  intros HQ [T1 N1 B1 W1 G1] [T2 N2 B2 W2 G2]. split; [congruence|congruence|auto|auto|].
  intros b Hb. rewrite G2, G1, T1, HQ by done. tauto.
Qed.

Lemma added_set b p : 0 <= b -> added (fun b' => b' = b) p (mfs_bmp_set b p).
Proof using Type.
  intros Hb. split.
  - apply bmp_total_set.
  - unfold mfs_bmp_set. destruct (_ <=? _); [done|]. by destruct (bit_get _ _).
  - intros H. unfold mfs_bmp_set. destruct (_ <=? _); [done|]. destruct (bit_get _ _); [done|]. by apply bit_set_bytes.
  - by apply bmp_set_wf.
  - intros b' Hb'. rewrite bmp_get_set by done. rewrite orb_true_iff, andb_true_iff, Z.eqb_eq, Z.ltb_lt.
    split; [intros [[-> H]|H]|intros [H|[-> H]]]; auto.
Qed.

(** Setting the blocks of a list, those that [skip] passes over excepted. *)
Lemma added_list (skip : Z -> bool) l p :
  Forall (fun b => 0 <= b) l ->
  added (fun b => b ∈ l /\ skip b = false) p (foldl (fun p b => if skip b then p else mfs_bmp_set b p) p l).
Proof using Type.
  intros Hl. revert p. induction Hl as [|b l Hb Hl IH]; intros p; cbn [foldl].
  { apply added_refl. intros b [H _]. by apply elem_of_nil in H. }
  destruct (skip b) eqn:Es.
  - eapply added_trans; [|apply (added_refl (fun _ => False)); tauto|apply IH].
    intros b'. rewrite elem_of_cons. cbn. split; [|tauto]. intros [[->|H] H2]; [congruence|auto].
  - eapply added_trans; [|by apply added_set|apply IH]. intros b'. rewrite elem_of_cons. cbn.
    split; [tauto|]. intros [->|[H1 H2]]; auto.
Qed.

Lemma mark_itab_spec itab m :
  gio_ok V (m_io m) -> 0 <= itab < 2^28 ->
  let m' := mfs_mark_itab_meta itab m in
  gio_ok V (m_io m') /\ m_super m' = m_super m /\ m_tab m' = m_tab m
  /\ added (fun b => itab <> 0 /\ (b = itab \/ (mfs_ok (loaded (V itab)) MFS_MAGIC_ITABX = true /\ b <> 0
                                                /\ b ∈ index_slots (loaded (V itab))))) (m_space m) (m_space m').
Proof using MfsDeviceLaws0 Hread HV.
  intros Hg Hi. unfold mfs_mark_itab_meta. destruct (Z.eqb_spec itab 0) as [->|Hz].
  { split; [done|]. split; [done|]. split; [done|]. apply added_refl. intros b [H _]. done. }
  cbn [set_space m_io]. destruct (read_good itab scratch _ Hg Hi) as (s & -> & Hs).
  change (copy_to 0 (V itab) scratch) with (loaded (V itab)). cbn [negb orb].
  destruct (mfs_ok (loaded (V itab)) MFS_MAGIC_ITABX) eqn:Eok; cbn [negb].
  - split; [exact Hs|]. split; [reflexivity|]. split; [reflexivity|]. cbn [set_space set_io m_space].
    eapply added_trans; [|apply added_set, Hi|].
    2: { exact (added_list (fun k => k =? 0) _ _ (read_slots_nonneg _ _ _ (loaded_bytes _ (proj2 (HV itab))))). }
    intros b. cbn beta. rewrite Z.eqb_neq. change ((fun k => read_u32 _ _) <$> _) with (index_slots (loaded (V itab))). tauto.
  - split; [exact Hs|]. split; [reflexivity|]. split; [reflexivity|]. cbn [set_space set_io m_space].
    eapply added_trans; [|apply added_set, Hi|apply (added_refl (fun _ => False)); tauto].
    intros b. cbn beta. intuition congruence.
Qed.


Lemma mark_itabs_spec l m :
  gio_ok V (m_io m) -> Forall (fun itab => 0 <= itab < 2^28) l ->
  let m' := foldl (fun m itab => mfs_mark_itab_meta itab m) m l in
  gio_ok V (m_io m') /\ m_super m' = m_super m /\ m_tab m' = m_tab m
  /\ added (fun b => exists itab, itab ∈ l /\ itab <> 0
                       /\ (b = itab \/ (mfs_ok (loaded (V itab)) MFS_MAGIC_ITABX = true /\ b <> 0
                                        /\ b ∈ index_slots (loaded (V itab))))) (m_space m) (m_space m').
Proof using MfsDeviceLaws0 Hread HV.
  intros Hg Hl. revert m Hg. induction Hl as [|itab l Hi Hl IH]; intros m Hg; cbn [foldl].
  { split; [done|]. split; [done|]. split; [done|]. apply added_refl. intros b (itab & H & _). by apply elem_of_nil in H. }
  destruct (mark_itab_spec itab m Hg Hi) as (Hg1 & Es1 & Et1 & A1).
  destruct (IH _ Hg1) as (Hg2 & Es2 & Et2 & A2). split; [exact Hg2|]. split; [congruence|]. split; [congruence|].
  eapply added_trans; [|exact A1|exact A2]. intros b. cbn beta. split.
  - intros (it & [->|Hin]%elem_of_cons & H); [by left|right; eauto].
  - intros [H|(it & Hin & H)]; [exists itab|exists it]; rewrite elem_of_cons; auto.
Qed.

Lemma count_used_fold (f : Z -> bool) l u :
  foldl (fun used b => if f b then used + 1 else used) u l = u + Z.of_nat (length l) - free_in f l.
Proof using Type.
  revert u. induction l as [|b l IH]; intros u; cbn [foldl]; [unfold free_in; cbn; lia|]. rewrite IH.
  unfold free_in. destruct (f b) eqn:E.
  - rewrite filter_cons_False by congruence. cbn [length]. lia.
  - rewrite filter_cons_True by done. cbn [length]. lia.
Qed.

Lemma recount_wf p :
  0 <= MFS_TOTAL_BLOCKS p <= MFS_MAX_BLOCKS -> space_wf (mfs_bmp_recount p).2.
Proof using Type.
  intros Ht. split; [done|]. cbn [mfs_bmp_recount snd MFS_FREE_BLOCKS]. unfold count_used. rewrite count_used_fold, length_seqZ.
  unfold count_free. change (free_in _ (seqZ 0 (MFS_TOTAL_BLOCKS (mfs_bmp_recount p).2)))
    with (free_in (fun b => mfs_bmp_get b p) (seqZ 0 (MFS_TOTAL_BLOCKS p))).
  set (f := free_in _ _). assert (0 <= f <= MFS_TOTAL_BLOCKS p) as Hf.
  { subst f. unfold free_in.
    pose proof (length_filter (fun b => mfs_bmp_get b p = false) (seqZ 0 (MFS_TOTAL_BLOCKS p))) as H.
    rewrite length_seqZ in H. lia. }
  unfold w32. rewrite Z.mod_small; [lia|]. change MFS_MAX_BLOCKS with 33357824 in Ht. lia.
Qed.

(** The bits of the blocks of the volume lie in the window. *)
Lemma bits_agree p p' bb b :
  MFS_TOTAL_BLOCKS p' = MFS_TOTAL_BLOCKS p -> bb = mfs_bb_for (MFS_TOTAL_BLOCKS p) ->
  (forall a, 0 <= a < bb * MFS_BLOCK -> MFS_BMP p' a = MFS_BMP p a) -> 0 <= b ->
  mfs_bmp_get b p' = mfs_bmp_get b p.
Proof using Type.
  intros Ht Hbb H Hb. unfold mfs_bmp_get. rewrite Ht. destruct (Z.leb_spec (MFS_TOTAL_BLOCKS p) b); [done|].
  unfold bit_get. rewrite H; [done|]. rewrite Z.shiftr_div_pow2 by lia. rewrite Hbb. unfold mfs_bb_for, div_ceil.
  change MFS_BMP_BLOCK_SPAN with 32768. change MFS_BLOCK with 4096. change (2^3) with 8.
  Z.to_euclidean_division_equations. lia.
Qed.

Lemma keep_meta_spec p sb t :
  loadable p sb -> restored p sb t ->
  let m' := keep_meta (t_fs t) in
  gio_ok V (m_io m') /\ m_super m' = sb /\ m_tab m' = m_tab (t_fs t)
  /\ MFS_TOTAL_BLOCKS (m_space m') = MFS_TOTAL_BLOCKS p /\ MFS_ALLOC_NEXT (m_space m') = MFS_ALLOC_NEXT p
  /\ space_wf (m_space m') /\ byte_mem (MFS_BMP (m_space m'))
  /\ (forall b, 0 <= b ->
        mfs_bmp_get b (m_space m') = true <->
        mfs_bmp_get b p = true \/ (protected p sb b /\ b < MFS_TOTAL_BLOCKS p)).
Proof using MfsDeviceLaws0 Hread HV.
  intros Hl [(Hg & _ & _ & Hb & _) Es Et En Hbits _ _]. unfold keep_meta.
  pose proof (lo_total _ _ Hl) as Htot.
  set (m0 := set_space (t_fs t) (mfs_bmp_recount (m_space (t_fs t))).2).
  assert (mfs_data_start (m_space m0) = mfs_data_start p) as Eds by (unfold mfs_data_start; cbn; by rewrite Et).
  set (p1 := foldl _ (m_space m0) (seqZ 0 (mfs_data_start (m_space m0)))).
  assert (added (fun b => b ∈ seqZ 0 (mfs_data_start p) /\ false = false) (m_space m0) p1) as A1.
  { subst p1. rewrite Eds. apply (added_list (fun _ => false)). apply Forall_forall. intros b H%elem_of_seqZ. lia. }
  assert (space_wf (m_space m0)) as Hwf0 by (apply recount_wf; rewrite Et; lia).
  set (m1 := set_space m0 p1).
  change (MFS_ITAB (m_super m1) :: (snap_itab <$> MFS_SNAPS (m_super m1))) with (gc_itabs (m_super m1)).
  change (m_super m1) with (m_super (t_fs t)). rewrite Es.
  assert (Forall (fun itab => 0 <= itab < 2^28) (gc_itabs sb)) as Hit.
  { pose proof (lo_itab _ _ Hl) as Hi. change MFS_MAX_BLOCKS with 33357824 in Htot.
    apply Forall_cons. split; [lia|]. apply Forall_fmap, Forall_forall. intros sn Hsn. cbn.
    pose proof (lo_snaps _ _ Hl sn Hsn). pose proof (z_snap _ _ (lo_sized _ _ Hl) sn Hsn). lia. }
  destruct (mark_itabs_spec (gc_itabs sb) m1 Hg Hit) as (Hg2 & Es2 & Et2 & A2).
  assert (added (protected p sb) (m_space m0) (m_space (foldl (fun m itab => mfs_mark_itab_meta itab m) m1 (gc_itabs sb)))) as A.
  { eapply added_trans; [|exact A1|exact A2]. intros b. unfold protected. rewrite elem_of_seqZ. cbn beta.
    split; (intros [H|H]; [left; intuition lia|by right]). }
  set (m' := foldl _ m1 _) in *. destruct A as [AT AN AB AW AG].
  split; [exact Hg2|]. split; [rewrite Es2; exact Es|]. split; [exact Et2|]. split; [rewrite AT; exact Et|].
  split; [rewrite AN; exact En|]. split; [by apply AW|]. split; [by apply AB|].
  intros b Hb0. rewrite (AG b Hb0). change (MFS_TOTAL_BLOCKS (m_space m0)) with (MFS_TOTAL_BLOCKS (m_space (t_fs t))). rewrite Et.
  change (mfs_bmp_get b (m_space m0)) with (mfs_bmp_get b (m_space (t_fs t))).
  rewrite (bits_agree p (m_space (t_fs t)) (MFS_BMP_DATA_BLOCKS sb) b Et (lo_bb _ _ Hl) Hbits Hb0). done.
Qed.

(** Mounting restores what an intact copy holds. *)
Lemma load_state_good p sb good t :
  loadable p sb -> room p -> kept t -> good = 0 \/ good = 1 ->
  copy_intact V p sb good -> other_copy p sb (1 - good) ->
  exists t', mfs_load_state answers MFS_CUR_SECTORS t = (true, t')
    /\ gio_ok V (m_io (t_fs t')) /\ m_super (t_fs t') = sb
    /\ MFS_TOTAL_BLOCKS (m_space (t_fs t')) = MFS_TOTAL_BLOCKS p /\ MFS_ALLOC_NEXT (m_space (t_fs t')) = MFS_ALLOC_NEXT p
    /\ space_wf (m_space (t_fs t')) /\ byte_mem (MFS_BMP (m_space (t_fs t')))
    /\ (forall b, 0 <= b ->
          mfs_bmp_get b (m_space (t_fs t')) = true <->
          mfs_bmp_get b p = true \/ (protected p sb b /\ b < MFS_TOTAL_BLOCKS p))
    /\ MFS_ITAB_MEM (m_tab (t_fs t')) = index_slots (loaded (V (MFS_ITAB sb)))
    /\ MFS_ITAB_CACHE_IDX (m_tab (t_fs t')) = U32_MAX /\ byte_mem (mfs_itab_buf (m_tab (t_fs t'))).
Proof using MfsDeviceLaws0 Hread HV Hans.
  intros Hl Hr Hk Hgood Hc Ho. unfold mfs_load_state.
  assert (mfs_commit_flush (m_io (t_fs t)) = (true, m_io (t_fs t))) as ->.
  { unfold mfs_commit_flush. by rewrite (proj1 (proj1 Hk)). }
  cbn [negb]. assert (set_fs t (set_io (t_fs t) (m_io (t_fs t))) = t) as -> by by destruct t as [[] ? ? ?].
  destruct (scan_good p sb good t Hl Hr Hk Hgood Hc Ho) as (t1 & Hscan & Hre).
  destruct (load_copy answers MFS_CUR_SECTORS 0 (mk_cand false 0 false) t) as [c0 t0]. rewrite Hscan. cbn [found bitmap_ok negb].
  eexists. split; [reflexivity|]. cbn [set_fs t_fs].
  destruct (keep_meta_spec p sb t1 Hl Hre) as (G1 & G2 & G3 & G4 & G5 & G6 & G7 & G8).
  do 7 (split; [assumption|]). rewrite G3. split; [apply (re_tab _ _ _ Hre)|]. split; [apply (re_idx _ _ _ Hre)|].
  apply (re_kept _ _ _ Hre).
Qed.

End restore.

(** ** Durability *)

(** A file system whose index block is on the volume and whose numbers fit their fields. *)
Record durable {D} `{!MfsDevice D} (m : mfs D) : Prop := {
  du_itab : itab_wf m;
  du_index : node_ok m MFS_MAGIC_ITABX (MFS_ITAB (m_super m));
  du_mem : MFS_ITAB_MEM (m_tab m) = index_slots (loaded (mfs_view (m_io m) (MFS_ITAB (m_super m))));
  du_synced : synced m;
  du_sized : sized (m_space m) (m_super m);
  du_snaps sn : sn ∈ MFS_SNAPS (m_super m) -> snap_itab sn < MFS_TOTAL_BLOCKS (m_space m)
}.

(** The blocks of one copy of the metadata. *)
Definition copy_block (sb : mfs_super) (copy b : Z) : Prop :=
  let bb := MFS_BMP_DATA_BLOCKS sb in b = copy \/ b = 2 + copy \/ 4 + copy * bb <= b < 4 + copy * bb + bb.

Section durable.
Context {D : Type} `{!MfsDevice D, !MfsDeviceLaws D}.
Implicit Types m : mfs D.

Lemma flush_durable m m1 :
  durable m -> mfs_bmp_flush m = (true, m1) ->
  durable m1 /\ data_kept m m1 /\ forall ino, 0 < ino < MFS_INO_MAX -> itab_lookup m1 ino = itab_lookup m ino.
Proof using MfsDeviceLaws0.
  intros Hd Hf. pose proof (w_mw _ (du_itab _ Hd)) as Hwf.
  destruct (bmp_flush_spec _ _ Hwf Hf) as (Hwf1 & Et & Es & Ht & Hbit & _ & Hv & _).
  destruct (flush_fields _ _ Hf) as (Ep & _ & _).
  assert (mfs_data_start (m_space m1) = mfs_data_start (m_space m)) as Eds by (unfold mfs_data_start; by rewrite Ht).
  assert (forall b, mfs_data_start (m_space m) <= b -> loaded (mfs_view (m_io m1) b) = loaded (mfs_view (m_io m) b)) as Hvl
    by (intros b Hb; by rewrite Hv).
  destruct (du_index _ Hd) as (Hr & Hu & Hok).
  destruct (itab_wf_kept m m1 (du_itab _ Hd) Hwf1 Et Ht Hv) as [Hw1 Hl1].
  { intros b Hb Hz. rewrite Hbit. by apply (w_tables _ (du_itab _ Hd) b Hb Hz). }
  split; [|split; [split; [done|intros b Hb Hbu; rewrite Hbit; auto]|exact Hl1]]. split.
  - exact Hw1.
  - rewrite Es. cbn [MFS_ITAB]. split; [by rewrite Eds, Ht|]. split; [by rewrite Hbit|]. rewrite Hvl by lia. exact Hok.
  - rewrite Et, (du_mem _ Hd), Es. cbn [MFS_ITAB]. rewrite Hvl by lia. reflexivity.
  - exact (flush_synced _ _ Hwf (du_synced _ Hd) Hf).
  - destruct (du_sized _ Hd). rewrite Ep, Es. split; try done. cbn. apply Z.mod_pos_bound. lia.
  - rewrite Es, Ht. apply (du_snaps _ Hd).
Qed.

(** A mounted state that agrees with [m1] on the index and on the data area has the same table. *)
Lemma itab_wf_mounted m1 m :
  itab_wf m1 -> io_wf (m_io m) -> MFS_WB (m_io m) = [] -> space_wf (m_space m) -> byte_mem (MFS_BMP (m_space m)) ->
  byte_mem (mfs_itab_buf (m_tab m)) -> MFS_ITAB_CACHE_IDX (m_tab m) = U32_MAX ->
  MFS_ITAB_MEM (m_tab m) = MFS_ITAB_MEM (m_tab m1) ->
  MFS_TOTAL_BLOCKS (m_space m) = MFS_TOTAL_BLOCKS (m_space m1) ->
  MFS_BMP_DATA_BLOCKS (m_super m) = MFS_BMP_DATA_BLOCKS (m_super m1) ->
  (forall b, 0 <= b -> mfs_bmp_get b (m_space m1) = true -> mfs_bmp_get b (m_space m) = true) ->
  (forall b, mfs_data_start (m_space m1) <= b -> mfs_view (m_io m) b = mfs_view (m_io m1) b) ->
  itab_wf m /\ forall ino, 0 < ino < MFS_INO_MAX -> itab_lookup m ino = itab_lookup m1 ino.
Proof using MfsDeviceLaws0.
  intros Hwf Hio Hwb Hsp Hbm Hbuf Hidx Hmem Ht Hbb Hu Hv.
  assert (mfs_data_start (m_space m) = mfs_data_start (m_space m1)) as Eds by (unfold mfs_data_start; by rewrite Ht).
  pose proof (data_start_pos (m_space m) ltac:(apply Hsp)) as Hds.
  assert (forall k, mfs_itab_table k (m_tab m) = mfs_itab_table k (m_tab m1)) as Htab
    by (intros k; unfold mfs_itab_table; by rewrite Hmem).
  assert (forall b, b ∈ MFS_ITAB_MEM (m_tab m1) -> b <> 0 -> node_ok m MFS_MAGIC_ITAB b /\ mfs_view (m_io m) b = mfs_view (m_io m1) b)
    as Hnode.
  { intros b Hb Hz. destruct (w_tables _ Hwf b Hb Hz) as (Hr & Hub & Hok). rewrite <- Eds in Hr.
    split; [|apply Hv; lia]. split; [by rewrite Ht|]. split; [apply Hu; [lia|done]|]. by rewrite Hv by lia. }
  split; [split|].
  - split.
    + split; [done|]. split; [done|]. intros b _. by rewrite (wb_has_empty _ _ Hwb).
    + intros b Hb. split; [|by apply wb_has_empty]. apply Hu; [lia|]. apply (w_meta _ (w_mw _ Hwf)). by rewrite <- Eds.
    + rewrite Hbb, (w_bb _ (w_mw _ Hwf)). by rewrite Ht.
    + done.
  - rewrite Hmem. apply (w_len _ Hwf).
  - rewrite Hmem. intros b Hb Hz. by apply Hnode.
  - left. exact Hidx.
  - done.
  - intros ino Hino. unfold itab_lookup, mfs_ino_slot. rewrite Htab. destruct (ino_slot_range ino Hino) as [Hk _].
    destruct (Z.eqb_spec (mfs_itab_table (ino / MFS_ITAB_SLOTS) (m_tab m1)) 0) as [|Hz]; [done|].
    destruct (Hnode (mfs_itab_table (ino / MFS_ITAB_SLOTS) (m_tab m1))) as [_ ->]; [|done|done].
    apply (table_elem m1); [apply (w_len _ Hwf)|done].
Qed.

End durable.


(** ** Every update is durable *)

(** The state a completed commit leaves on the volume. *)
Definition committed {D} `{!MfsDevice D} (m : mfs D) : Prop :=
  forall copy, copy = 0 \/ copy = 1 -> copy_intact (mfs_view (m_io m)) (m_space m) (m_super m) copy.

(** Allocating a block marks the bitmap block it changes. *)
Lemma set_chunk b c p :
  0 <= b < MFS_TOTAL_BLOCKS p -> MFS_TOTAL_BLOCKS p <= MFS_MAX_BLOCKS -> 0 <= c ->
  bit_get (MFS_BMP_DIRTY (mfs_bmp_set b p)) c = false ->
  bit_get (MFS_BMP_DIRTY p) c = false /\ bmp_block (mfs_bmp_set b p) c = bmp_block p c.
Proof.
  intros Hb Ht Hc. unfold mfs_bmp_set. rewrite (proj2 (Z.leb_gt _ _)) by lia.
  destruct (bit_get (MFS_BMP p) b); [done|]. cbn [MFS_BMP_DIRTY]. unfold mfs_bmp_touch.
  change MFS_MAX_BLOCKS with 33357824 in Ht. change MFS_BMP_BLOCK_SPAN with 32768.
  assert (0 <= b / 32768 < 1018) as Hr by (Z.to_euclidean_division_equations; lia).
  change MFS_MAX_BMP_DATA_BLOCKS with 1018. rewrite (proj2 (Z.ltb_lt _ _)) by lia.
  rewrite bit_get_set by lia. intros [E1 E2]%orb_false_iff. bool_to_prop. split; [done|].
  unfold bmp_block. cbn [MFS_BMP]. apply slice_at_ext. intros a Ha. unfold bit_set. apply write_byte_ne.
  rewrite Z.shiftr_div_pow2 by lia. change (2^3) with 8. change (Z.of_nat (Z.to_nat MFS_BLOCK)) with 4096 in Ha.
  change MFS_BLOCK with 4096 in Ha. Z.to_euclidean_division_equations. lia.
Qed.

Lemma alloc_chunk p b p' c :
  space_wf p -> mfs_alloc_block p = (Some b, p') -> 0 <= c ->
  (bit_get (MFS_BMP_DIRTY p') c = false -> bit_get (MFS_BMP_DIRTY p) c = false /\ bmp_block p' c = bmp_block p c)
  /\ MFS_ALLOC_NEXT p' = b + 1.
Proof.
  intros Hwf Ha Hc. pose proof (alloc_block_spec _ _ _ Hwf Ha) as (_ & _ & Hb & _).
  pose proof (data_start_pos p ltac:(apply Hwf)) as Hds.
  assert (p' = (mfs_bmp_take b p).2) as ->.
  { unfold mfs_alloc_block in Ha. destruct (_ <=? _); [done|]. destruct (find_from _ _ _) as [b1|].
    - by injection Ha as <- <-.
    - destruct (find_from _ _ _) as [b1|]; [|done]. by injection Ha as <- <-. }
  split; [|done]. apply (set_chunk b c p); [lia|apply Hwf|done].
Qed.

Section updates.
Context {D : Type} `{!MfsDevice D, !MfsDeviceLaws D}.
Implicit Types (m : mfs D) (s : mfs_io D).

(** What a commit keeps besides the inode table: bitmap blocks on the volume, numbers in range. *)
Definition stable m : Prop :=
  synced m /\ sized (m_space m) (m_super m)
  /\ forall sn, sn ∈ MFS_SNAPS (m_super m) -> snap_itab sn < MFS_TOTAL_BLOCKS (m_space m).

Lemma commit_stable m magic buf b buf' s p sb tab :
  meta_wf m -> byte_mem buf -> stable m -> mfs_commit magic buf (m_io m) (m_space m) = (Some b, buf', s, p) ->
  sb = m_super m \/ sb = set_itab b (m_super m) -> stable (mk_mfs s p sb tab).
Proof using MfsDeviceLaws0.
  intros Hwf Hb (Hsy & Hsz & Hsn) Hc Hsb.
  destruct (commit_spec _ _ _ _ _ _ _ _ (w_store _ Hwf) Hb Hc) as (Hst & _ & Ht & _ & _ & _ & Hr & _ & _ & _ & Hv).
  pose proof (data_start_bb m Hwf) as [Hds Hbb].
  assert (mfs_alloc_block (m_space m) = (Some b, p)) as Ha.
  { unfold mfs_commit in Hc. destruct (mfs_alloc_block (m_space m)) as [[b1|] p1]; [|done].
    destruct (mfs_write_blk _ _ _) as [[] s1]; [|done]. by injection Hc as <- _ _ <-. }
  assert (MFS_BMP_DATA_BLOCKS sb = MFS_BMP_DATA_BLOCKS (m_super m) /\ MFS_SNAPS sb = MFS_SNAPS (m_super m)) as [Ebb Esn]
    by (destruct Hsb as [-> | ->]; done).
  pose proof (fun c Hc0 => alloc_chunk _ _ _ c (proj1 (proj2 (w_store _ Hwf))) Ha Hc0) as Hch.
  destruct (Hch 0 ltac:(lia)) as [_ Hnx]. pose proof (z_total _ _ Hsz) as Ht32.
  pose proof (proj1 (proj1 (proj2 (w_store _ Hwf)))) as Hmax. change MFS_MAX_BLOCKS with 33357824 in Hmax.
  split; [|split].
  - intros copy c Hcp Hcr Hd. cbn [m_super m_space m_io] in *. rewrite Ebb in *.
    destruct (proj1 (Hch c ltac:(lia)) Hd) as [Hd0 ->]. rewrite Hv; [by apply Hsy|].
    intros E. rewrite <- E, Hds in Hr. destruct Hcp as [-> | ->]; lia.
  - destruct Hsz. cbn [m_space m_super]. destruct Hsb as [-> | ->]; split; cbn; try done; rewrite ?Ht, ?Hnx; lia.
  - cbn [m_super m_space]. rewrite Esn, Ht. exact Hsn.
Qed.

Lemma flush_stable m m' : meta_wf m -> stable m -> mfs_bmp_flush m = (true, m') -> stable m' /\ committed m'.
Proof using MfsDeviceLaws0.
  intros Hwf (Hsy & Hsz & Hsn) Hf. destruct (flush_fields _ _ Hf) as (Ep & Es & _). split.
  - split; [exact (flush_synced _ _ Hwf Hsy Hf)|]. rewrite Ep, Es. split; [|exact Hsn].
    destruct Hsz. split; try done. cbn. apply Z.mod_pos_bound. lia.
  - intros copy Hc. exact (flush_intact _ _ _ Hwf Hsy Hf Hc).
Qed.

Lemma itab_flush_stable m m' :
  meta_wf m -> stable m -> mfs_itab_flush m = (true, m') -> stable m' /\ committed m'.
Proof using MfsDeviceLaws0.
  intros Hwf Hst. unfold mfs_itab_flush. set (x := write_words _ _ _).
  destruct (mfs_commit _ x _ _) as [[[ob buf] s] p] eqn:Ec. destruct ob as [nb|]; [|done].
  assert (byte_mem x) as Hx by (by apply write_words_bytes, seal_byte_mem, zero_bytes_mem).
  destruct (commit_node _ MFS_MAGIC_ITABX _ _ _ _ _ (set_itab nb (m_super m)) (m_tab m) Hwf Hx ltac:(done) Ec eq_refl)
    as (Hwf1 & _). clearbody x.
  apply flush_stable; [exact Hwf1|]. eapply commit_stable; [exact Hwf|exact Hx|exact Hst|exact Ec|by right].
Qed.


Lemma itab_set_stable m ino blk m' :
  itab_wf m -> stable m -> 0 < ino < MFS_INO_MAX -> mfs_itab_set ino blk m = (true, m') -> stable m' /\ committed m'.
Proof using MfsDeviceLaws0.
  intros Hwf (Hsy & Hsz & Hsn) Hino. unfold mfs_itab_set.
  rewrite (proj2 (Z.eqb_neq ino 0)), (proj2 (Z.leb_gt _ _)) by lia. cbn [orb].
  destruct (ino_slot_range ino Hino) as [Hk _]. unfold mfs_ino_slot.
  set (k := ino / MFS_ITAB_SLOTS) in *. set (j := ino mod MFS_ITAB_SLOTS).
  destruct (itab_fetch k m) as [[ready buf] s] eqn:Eb. destruct ready; cbn [negb]; [|done].
  destruct (itab_fetch_spec _ _ _ _ Hwf Hk Eb) as (Hm1 & Hbb & Hview & _).
  set (m1 := mk_mfs s (m_space m) (m_super m) (m_tab m)) in *.
  assert (stable m1) as Hs1.
  { split; [|done]. intros copy c Hc Hr Hd. cbn [m1 m_io m_space m_super]. rewrite Hview. by apply Hsy. }
  destruct (mfs_commit _ _ s (m_space m)) as [[[ob buf2] s2] p2] eqn:Ec. destruct ob as [new_t|]; [|done].
  assert (byte_mem (write_u32 (MFS_HDR + j * 4) blk buf)) as Hb2 by (by apply byte_mem_write_u32).
  set (tab2 := mfs_set_itab_table k new_t _).
  destruct (commit_node m1 MFS_MAGIC_ITAB _ _ _ _ _ (m_super m) tab2 Hm1 Hb2 ltac:(done) Ec eq_refl) as (Hm2 & _).
  apply itab_flush_stable; [exact Hm2|].
  eapply (commit_stable m1); [exact Hm1|exact Hb2|exact Hs1|exact Ec|by left].
Qed.

(** Changing the inode table keeps a durable state durable, and commits it. *)
Lemma itab_set_durable m ino blk m' :
  durable m -> 0 < ino < MFS_INO_MAX -> 0 <= blk < 2^32 -> mfs_itab_set ino blk m = (true, m') ->
  durable m' /\ committed m'
  /\ (forall ino', 0 < ino' < MFS_INO_MAX -> itab_lookup m' ino' = if ino' =? ino then blk else itab_lookup m ino').
Proof using MfsDeviceLaws0.
  intros Hd Hino Hblk Hset.
  destruct (itab_set_spec _ _ _ _ (du_itab _ Hd) Hino Hblk Hset) as (Hwf & _ & Hmap & Hx & Hidx & _).
  destruct (itab_set_stable _ _ _ _ (du_itab _ Hd)
              (conj (du_synced _ Hd) (conj (du_sized _ Hd) (du_snaps _ Hd))) Hino Hset) as ((Hsy & Hsz & Hsn) & Hcm).
  split; [by split|]. done.
Qed.

End updates.

(** ** Mounting after a commit *)

(** A committed state is what the next mount finds, if one copy of the metadata survives. *)
Lemma mount_restores {D} `{!MfsDevice D, !MfsDeviceLaws D} answers sectors (m1 : mfs D) V good (t : mnt D) :
  (forall v lba d, (block_read_dev v lba d).1.1 = true) -> (forall n, answers n = true) ->
  durable m1 -> committed m1 ->
  (forall b, block_data (V b)) ->
  (forall b, copy_block (m_super m1) good b \/ mfs_data_start (m_space m1) <= b -> V b = mfs_view (m_io m1) b) ->
  good = 0 \/ good = 1 -> other_copy V (m_space m1) (m_super m1) (1 - good) ->
  room sectors (m_space m1) -> kept V t ->
  exists t', mfs_load_state answers sectors t = (true, t')
    /\ m_super (t_fs t') = m_super m1
    /\ MFS_TOTAL_BLOCKS (m_space (t_fs t')) = MFS_TOTAL_BLOCKS (m_space m1)
    /\ MFS_ALLOC_NEXT (m_space (t_fs t')) = MFS_ALLOC_NEXT (m_space m1)
    /\ MFS_FREE_BLOCKS (m_space (t_fs t')) = count_free (m_space (t_fs t'))
    /\ (forall b, 0 <= b -> mfs_bmp_get b (m_space m1) = true -> mfs_bmp_get b (m_space (t_fs t')) = true)
    /\ (forall b, 0 <= b -> mfs_bmp_get b (m_space (t_fs t')) = true ->
          mfs_bmp_get b (m_space m1) = true \/ protected V (m_space m1) (m_super m1) b)
    /\ itab_wf (t_fs t')
    /\ (forall ino, 0 < ino < MFS_INO_MAX -> itab_lookup (t_fs t') ino = itab_lookup m1 ino)
    /\ (forall b, mfs_data_start (m_space m1) <= b -> mfs_view (m_io (t_fs t')) b = mfs_view (m_io m1) b).
Proof.
  intros Hread Hans Hd1 Hcm HV Hkeep Hgood Ho Hroom Hk. pose proof (w_mw _ (du_itab _ Hd1)) as Hwf1.
  pose proof (Hcm good Hgood) as [I1 I2 I3].
  destruct (du_index _ Hd1) as (Hri & _ & Hoki).
  pose proof (data_start_pos (m_space m1) ltac:(apply (w_store _ Hwf1))) as Hds.
  assert (copy_intact V (m_space m1) (m_super m1) good) as Hc.
  { unfold copy_block in Hkeep. split.
    - rewrite Hkeep by auto. exact I1.
    - rewrite Hkeep by auto. exact I2.
    - intros c Hcr. rewrite Hkeep; [by apply I3|]. left. right. right. lia. }
  assert (V (MFS_ITAB (m_super m1)) = mfs_view (m_io m1) (MFS_ITAB (m_super m1))) as Evi by (apply Hkeep; lia).
  assert (loadable V (m_space m1) (m_super m1)) as Hl.
  { split; [apply Hd1|apply (w_bmp _ Hwf1)| |apply (w_bb _ Hwf1)|lia|apply Hd1|by rewrite Evi].
    pose proof (proj1 (proj1 (proj2 (w_store _ Hwf1)))) as Ht. lia. }
  destruct (load_state_good answers sectors V HV Hread Hans _ _ good t Hl Hroom Hk Hgood Hc Ho)
    as (t' & E & G1 & G2 & G3 & G4 & G5 & G6 & G7 & G8 & G9 & G10).
  exists t'. split; [exact E|]. split; [exact G2|]. split; [exact G3|]. split; [exact G4|]. split; [apply G5|].
  assert (forall b, 0 <= b -> mfs_bmp_get b (m_space m1) = true -> mfs_bmp_get b (m_space (t_fs t')) = true) as Hmono
    by (intros b Hb H; apply G7; auto).
  assert (forall b, mfs_data_start (m_space m1) <= b -> mfs_view (m_io (t_fs t')) b = mfs_view (m_io m1) b) as Hdata
    by (intros b Hb; rewrite (proj2 G1); apply Hkeep; by right).
  split; [exact Hmono|]. split; [intros b Hb H; apply G7 in H; tauto|].
  assert (io_wf (m_io (t_fs t'))) as Hio by (unfold io_wf; rewrite (proj1 G1); split; constructor).
  assert (MFS_ITAB_MEM (m_tab (t_fs t')) = MFS_ITAB_MEM (m_tab m1)) as Hmem.
  { rewrite G8, Evi. symmetry. exact (du_mem _ Hd1). }
  assert (MFS_BMP_DATA_BLOCKS (m_super (t_fs t')) = MFS_BMP_DATA_BLOCKS (m_super m1)) as Hbb by (rewrite G2; reflexivity).
  destruct (itab_wf_mounted m1 (t_fs t') (du_itab _ Hd1) Hio (proj1 G1) G5 G6 G10 G9 Hmem G3 Hbb Hmono Hdata) as [W L].
  split; [exact W|]. split; [exact L|exact Hdata].
Qed.

(** C19. Mounting restores what was committed, after a crash too. When a commit has completed, and
    afterwards the volume still shows the data area and one copy of the metadata as written, while
    the other copy is intact, unreadable, of an older generation, or has a damaged bitmap header,
    then a mount that can read the volume and gets its memory succeeds from any state of memory.
    It recovers every field of the superblock with the snapshot table, the allocator's cursor and
    an exact count of free blocks; every block in use stays in use, and only blocks of the metadata
    area and of the inode tables can be added; the inode table is well formed and translates every
    inode number as before. *)
Theorem mount_restores_commit {D} `{!MfsDevice D, !MfsDeviceLaws D} answers sectors (m m1 : mfs D) V good (t : mnt D) :
  (forall v lba d, (block_read_dev v lba d).1.1 = true) -> (forall n, answers n = true) ->
  durable m -> mfs_bmp_flush m = (true, m1) ->
  (forall b, block_data (V b)) ->
  (forall b, copy_block (m_super m1) good b \/ mfs_data_start (m_space m1) <= b -> V b = mfs_view (m_io m1) b) ->
  good = 0 \/ good = 1 -> other_copy V (m_space m1) (m_super m1) (1 - good) ->
  room sectors (m_space m1) -> kept V t ->
  exists t', mfs_load_state answers sectors t = (true, t')
    /\ m_super (t_fs t') = m_super m1
    /\ MFS_TOTAL_BLOCKS (m_space (t_fs t')) = MFS_TOTAL_BLOCKS (m_space m1)
    /\ MFS_ALLOC_NEXT (m_space (t_fs t')) = MFS_ALLOC_NEXT (m_space m1)
    /\ MFS_FREE_BLOCKS (m_space (t_fs t')) = count_free (m_space (t_fs t'))
    /\ (forall b, 0 <= b -> mfs_bmp_get b (m_space m1) = true -> mfs_bmp_get b (m_space (t_fs t')) = true)
    /\ (forall b, 0 <= b -> mfs_bmp_get b (m_space (t_fs t')) = true ->
          mfs_bmp_get b (m_space m1) = true \/ protected V (m_space m1) (m_super m1) b)
    /\ itab_wf (t_fs t')
    /\ (forall ino, 0 < ino < MFS_INO_MAX -> itab_lookup (t_fs t') ino = itab_lookup m1 ino)
    /\ (forall b, mfs_data_start (m_space m1) <= b -> mfs_view (m_io (t_fs t')) b = mfs_view (m_io m1) b).
Proof.
  intros Hread Hans Hd Hf. apply mount_restores; [done|done|by eapply (flush_durable m)|].
  intros copy Hc. exact (flush_intact m m1 copy (w_mw _ (du_itab _ Hd)) (du_synced _ Hd) Hf Hc).
Qed.

(** C18. Updates of the inode table are durable. When [mfs_itab_set] has reported success, the file
    system is in a durable state again, and a mount after a crash that spares the data area and one
    copy of the metadata succeeds and translates the updated inode to its new block and every other
    inode as before. *)
Theorem update_survives_crash {D} `{!MfsDevice D, !MfsDeviceLaws D} answers sectors (m m1 : mfs D) ino blk V good
    (t : mnt D) :
  (forall v lba d, (block_read_dev v lba d).1.1 = true) -> (forall n, answers n = true) ->
  durable m -> 0 < ino < MFS_INO_MAX -> 0 <= blk < 2^32 -> mfs_itab_set ino blk m = (true, m1) ->
  (forall b, block_data (V b)) ->
  (forall b, copy_block (m_super m1) good b \/ mfs_data_start (m_space m1) <= b -> V b = mfs_view (m_io m1) b) ->
  good = 0 \/ good = 1 -> other_copy V (m_space m1) (m_super m1) (1 - good) ->
  room sectors (m_space m1) -> kept V t ->
  durable m1
  /\ exists t', mfs_load_state answers sectors t = (true, t') /\ itab_wf (t_fs t')
     /\ forall ino', 0 < ino' < MFS_INO_MAX ->
          itab_lookup (t_fs t') ino' = if ino' =? ino then blk else itab_lookup m ino'.
Proof.
  intros Hread Hans Hd Hino Hblk Hset HV Hkeep Hgood Ho Hroom Hk.
  destruct (itab_set_durable m ino blk m1 Hd Hino Hblk Hset) as (Hd1 & Hcm & Hmap). split; [exact Hd1|].
  destruct (mount_restores answers sectors m1 V good t Hread Hans Hd1 Hcm HV Hkeep Hgood Ho Hroom Hk)
    as (t' & E & _ & _ & _ & _ & _ & _ & W & L & _).
  exists t'. split; [exact E|]. split; [exact W|]. intros ino' Hi. rewrite L by exact Hi. by apply Hmap.
Qed.

(** ** A formatted volume *)

Lemma free_in_all f l : (forall b, b ∈ l -> f b = false) -> free_in f l = Z.of_nat (length l).
Proof.
  intros H. unfold free_in. f_equal. f_equal. induction l as [|b l IH]; [done|].
  rewrite filter_cons_True by (apply H; set_solver). f_equal. apply IH. intros b' Hb'. apply H. set_solver.
Qed.

Lemma bit_set_all l d c : 0 <= c -> Forall (fun b => 0 <= b) l ->
  bit_get (foldl (fun d c => bit_set d c) d l) c = true <-> bit_get d c = true \/ c ∈ l.
Proof.
  intros Hc Hl. revert d. induction Hl as [|b l Hb Hl IH]; intros d; cbn [foldl]; [set_solver|].
  rewrite IH, bit_get_set, orb_true_iff, Z.eqb_eq, elem_of_cons by done. tauto.
Qed.

Lemma set_dirty b c p : 0 <= b -> 0 <= c ->
  bit_get (MFS_BMP_DIRTY p) c = true -> bit_get (MFS_BMP_DIRTY (mfs_bmp_set b p)) c = true.
Proof.
  intros Hb Hc H. unfold mfs_bmp_set. destruct (_ <=? b); [done|]. destruct (bit_get (MFS_BMP p) b); [done|].
  cbn [MFS_BMP_DIRTY]. unfold mfs_bmp_touch. destruct (_ <? _); [|done].
  assert (0 <= b / MFS_BMP_BLOCK_SPAN) as Hq by (apply Z.div_pos; [done|unfold MFS_BMP_BLOCK_SPAN, MFS_BLOCK; lia]).
  rewrite bit_get_set by done.
  rewrite H. apply orb_true_r.
Qed.

(** The bitmap with the metadata area in use. *)
Definition formatted (total : Z) (p : mfs_space) : mfs_space :=
  let p := format_space total p in foldl (fun p b => mfs_bmp_set b p) p (seqZ 0 (mfs_data_start p)).

Lemma formatted_spec total p (p' := formatted total p) :
  64 <= total <= MFS_MAX_BLOCKS -> byte_mem (MFS_BMP p) ->
  MFS_TOTAL_BLOCKS p' = total /\ space_wf p' /\ byte_mem (MFS_BMP p') /\ MFS_ALLOC_NEXT p' = 4 + 2 * mfs_bb_for total
  /\ (forall b, 0 <= b -> mfs_bmp_get b p' = true <-> b < 4 + 2 * mfs_bb_for total)
  /\ (forall c, 0 <= c < mfs_bb_for total -> bit_get (MFS_BMP_DIRTY p') c = true).
Proof.
  intros Ht Hb. subst p'. unfold formatted. set (p0 := format_space total p).
  pose proof (bb_bound total ltac:(lia)) as Hbb.
  assert (4 + 2 * mfs_bb_for total <= total) as Hle.
  { change MFS_MAX_BLOCKS with 33357824 in Ht. unfold mfs_bb_for, div_ceil. change MFS_BMP_BLOCK_SPAN with 32768.
    Z.to_euclidean_division_equations. lia. }
  assert (forall b, 0 <= b < total -> mfs_bmp_get b p0 = false) as H0.
  { intros b Hbr. unfold mfs_bmp_get, p0. cbn [format_space MFS_TOTAL_BLOCKS MFS_BMP].
    destruct (total <=? b); [done|]. unfold bit_get. rewrite Z.shiftr_div_pow2 by lia. change (2^3) with 8.
    rewrite (proj2 (Z.leb_le _ _)) by (apply Z.div_pos; lia).
    rewrite (proj2 (Z.ltb_lt _ _)); [done|]. change MFS_BLOCK with 4096. unfold mfs_bb_for, div_ceil.
    change MFS_BMP_BLOCK_SPAN with 32768. Z.to_euclidean_division_equations. lia. }
  assert (space_wf p0) as Hwf0.
  { split; [cbn; lia|]. unfold count_free. change (MFS_TOTAL_BLOCKS p0) with total. change (MFS_FREE_BLOCKS p0) with total.
    rewrite free_in_all; [rewrite length_seqZ; lia|]. intros b Hbr%elem_of_seqZ. apply H0. lia. }
  assert (byte_mem (MFS_BMP p0)) as Hb0 by (intros a; cbn; destruct (_ && _); [done|apply Hb]).
  change (mfs_data_start p0) with (4 + 2 * mfs_bb_for total).
  assert (Forall (fun b => 0 <= b) (seqZ 0 (4 + 2 * mfs_bb_for total))) as Hl
    by (apply Forall_forall; intros b Hbr%elem_of_seqZ; lia).
  destruct (added_list (fun _ => false) _ p0 Hl) as [AT AN AB AW AG].
  split; [exact AT|]. split; [by apply AW|]. split; [by apply AB|]. split; [exact AN|]. split.
  - intros b Hbr. rewrite (AG b Hbr), elem_of_seqZ. change (MFS_TOTAL_BLOCKS p0) with total.
    split; [|intros; right; lia]. intros [H|H]; [|lia]. destruct (Z.lt_ge_cases b total); [rewrite H0 in H by lia; done|].
    unfold mfs_bmp_get in H. change (MFS_TOTAL_BLOCKS p0) with total in H. by rewrite (proj2 (Z.leb_le _ _)) in H.
  - intros c Hc. assert (bit_get (MFS_BMP_DIRTY p0) c = true) as Hd.
    { cbn [p0 format_space MFS_BMP_DIRTY]. apply bit_set_all; [lia| |right; apply elem_of_seqZ; lia].
      apply Forall_forall. intros b Hbr%elem_of_seqZ. lia. }
    clear -Hl Hd Hc. revert Hd. generalize p0. induction Hl as [|b l Hbn Hl IH]; intros q Hd; cbn [foldl]; [done|].
    apply IH. apply set_dirty; [done|lia|done].
Qed.

Lemma format_total_range sectors : 64 <= mfs_format_total_blocks sectors <= MFS_MAX_BLOCKS.
Proof.
  unfold mfs_format_total_blocks. change MFS_MAX_BLOCKS with 33357824. change MFS_MIN_TOTAL_BLOCKS with 64.
  change MFS_DEFAULT_TOTAL_BLOCKS with 4096. destruct (_ =? 0); lia.
Qed.

Lemma format_root_bytes now : byte_mem (format_root now).
Proof.
  unfold format_root, mfs_init_meta, mfs_set_atime, mfs_set_ctime, mfs_set_mtime, mfs_set_nlink, mfs_set_gid, mfs_set_uid,
    mfs_set_owner, mfs_dir_init_empty, mfs_ent_clear, mfs_dir_set_ext.
  do 3 apply byte_mem_write_u64. apply byte_mem_write_u32. do 4 apply byte_mem_write_u16. apply byte_mem_write_u16.
  do 2 (apply byte_mem_write_byte; [|done]). do 3 apply byte_mem_write_u32. by apply zero_bytes_mem.
Qed.

(** The root directory is empty. *)
Lemma format_root_empty now buf : agree 8 MFS_BLOCK buf (format_root now) -> dir_rep buf ∅.
Proof.
  intros H. exists [mk_rec MFS_DIR_AREA [] 0 0]. split; [|split; [constructor|done]].
  apply (chain_frame (mfs_dir_init_empty (zero_bytes 0 (Z.to_nat MFS_BLOCK) scratch))).
  - intros a Ha. change DIR_BASE with 56 in Ha. change DIR_END with 4096 in Ha.
    rewrite H by (change MFS_BLOCK with 4096; lia).
    unfold format_root, mfs_init_meta, mfs_set_atime, mfs_set_ctime, mfs_set_mtime, mfs_set_nlink, mfs_set_gid,
      mfs_set_uid, mfs_set_owner, mfs_meta_off.
    change MFS_HDR with 8. rewrite !write_u64_out, write_u32_out, !write_u16_out; try reflexivity;
      unfold MFS_META_ATIME, MFS_META_CTIME, MFS_META_MTIME, MFS_META_NLINK, MFS_META_GID, MFS_META_UID, MFS_META_OWNER,
        MFS_META_MODE; lia.
  - split; [|done]. unfold mfs_dir_init_empty. apply clear_at. done.
Qed.

Section formatting.
Context {D : Type} `{!MfsDevice D, !MfsDeviceLaws D}.
Implicit Types (m : mfs D) (s : mfs_io D).

Lemma itab_wf_zero m :
  meta_wf m -> MFS_ITAB_MEM (m_tab m) = replicate (Z.to_nat MFS_ITAB_SLOTS) 0 -> MFS_ITAB_CACHE_IDX (m_tab m) = U32_MAX ->
  byte_mem (mfs_itab_buf (m_tab m)) -> itab_wf m /\ forall ino, itab_lookup m ino = 0.
Proof using Type.
  intros Hm E Hi Hb. split; [split; rewrite ?E|].
  - done.
  - apply length_replicate.
  - intros t Hin Hz. by apply elem_of_replicate in Hin as [-> _].
  - by left.
  - done.
  - intros ino. unfold itab_lookup, mfs_ino_slot, mfs_itab_table. rewrite E.
    destruct (_ <=? _); [done|]. unfold lookupZ. destruct (_ && _); [|done].
    destruct (_ !! _) as [t|] eqn:El; [|done]. by apply lookup_replicate in El as [-> _].
Qed.

(** A formatted bitmap with nothing in the window. *)
Lemma blank_wf s p total sb tab :
  64 <= total <= MFS_MAX_BLOCKS -> byte_mem (MFS_BMP p) -> MFS_WB s = [] -> MFS_BMP_DATA_BLOCKS sb = mfs_bb_for total ->
  meta_wf (mk_mfs s (formatted total p) sb tab).
Proof using Type.
  intros Ht Hb Hwb Hbb. destruct (formatted_spec total p Ht Hb) as (T & Hsp & Hbm & _ & Hget & _).
  split; cbn [m_io m_space m_super].
  - split; [unfold io_wf; rewrite Hwb; split; constructor|]. split; [done|]. intros b _. by rewrite (wb_has_empty _ _ Hwb).
  - intros b Hbr. split; [|by apply wb_has_empty]. apply Hget; [lia|]. unfold mfs_data_start in Hbr. rewrite T in Hbr. lia.
  - by rewrite T.
  - done.
Qed.

Lemma itab_flush_durable m m' :
  itab_wf m -> stable m -> mfs_itab_flush m = (true, m') ->
  durable m' /\ data_kept m m' /\ (forall ino, 0 < ino < MFS_INO_MAX -> itab_lookup m' ino = itab_lookup m ino).
Proof using MfsDeviceLaws0.
  intros Hwf Hst Hf.
  assert (Forall (fun t => 0 <= t < 2^32) (MFS_ITAB_MEM (m_tab m))) as Hu32.
  { apply Forall_forall. intros t Ht. destruct (decide (t = 0)) as [->|Hz]; [lia|].
    destruct (node_bound _ _ _ (w_mw _ Hwf) (w_tables _ Hwf t Ht Hz)). lia. }
  destruct (itab_flush_spec _ _ (w_mw _ Hwf) (w_len _ Hwf) Hu32 Hf) as (Hm' & Hk & Htab & Hn & Hidx & _).
  destruct (itab_flush_stable _ _ (w_mw _ Hwf) Hst Hf) as [(Hsy & Hsz & Hsn) _].
  assert (itab_wf m') as Hwf'.
  { split; rewrite ?Htab.
    - done.
    - apply (w_len _ Hwf).
    - intros t Ht Hz. apply (node_kept m); [done|]. by apply (w_tables _ Hwf).
    - destruct (w_cache _ Hwf) as [H|(Hr & Hz & Ha)]; [by left|right]. split; [done|]. split; [done|].
      pose proof (w_tables _ Hwf _ (table_elem m _ (w_len _ Hwf) Hr) Hz) as Ht.
      destruct (proj2 Hk _ (proj1 (proj1 Ht)) (proj1 (proj2 Ht))) as [_ ->]. done.
    - apply (w_buf _ Hwf). }
  split; [split; try done; by rewrite Htab|]. split; [done|].
  intros ino Hino. unfold itab_lookup, mfs_ino_slot. rewrite Htab. destruct (ino_slot_range ino Hino) as [Hr _].
  destruct (Z.eqb_spec (mfs_itab_table (ino / MFS_ITAB_SLOTS) (m_tab m)) 0) as [|Hz]; [done|].
  pose proof (w_tables _ Hwf _ (table_elem m _ (w_len _ Hwf) Hr) Hz) as Ht.
  destruct (proj2 Hk _ (proj1 (proj1 Ht)) (proj1 (proj2 Ht))) as [_ ->]. done.
Qed.

(** The counters of the superblock can be set freely. *)
Lemma durable_counts m count hint :
  durable m -> 0 <= count < 2^32 -> MFS_ROOT_INO + 1 <= hint < 2^32 ->
  let sb := m_super m in
  durable (mk_mfs (m_io m) (m_space m)
             (mk_super (MFS_GEN sb) (MFS_ITAB sb) count hint (MFS_SNAPS sb) (MFS_PRIMARY_SERIAL sb)
                (MFS_BMP_DATA_BLOCKS sb)) (m_tab m)).
Proof using Type.
  intros Hd Hc Hh sb. destruct Hd as [[[W1 W2 W3 W4] W5 W6 W7 W8] Hx Hm Hsy Hz Hsn]. split.
  - split; [split; assumption|assumption..].
  - exact Hx.
  - exact Hm.
  - exact Hsy.
  - destruct Hz. split; assumption.
  - exact Hsn.
Qed.

Lemma itab_flush_snaps m m' : mfs_itab_flush m = (true, m') -> MFS_SNAPS (m_super m') = MFS_SNAPS (m_super m).
Proof using Type.
  unfold mfs_itab_flush. destruct (mfs_commit _ _ _ _) as [[[ob buf] s] p]. destruct ob as [nb|]; [|done].
  intros Hf. destruct (flush_fields _ _ Hf) as (_ & -> & _). reflexivity.
Qed.
Lemma itab_set_snaps m ino blk m' : mfs_itab_set ino blk m = (true, m') -> MFS_SNAPS (m_super m') = MFS_SNAPS (m_super m).
Proof using Type.
  unfold mfs_itab_set. destruct (_ || _); [done|]. destruct (mfs_ino_slot ino) as [k j].
  destruct (itab_fetch k m) as [[ready buf] s]. destruct (negb ready); [done|].
  destruct (mfs_commit _ _ _ _) as [[[ob buf2] s2] p2]. destruct ob as [nt|]; [|done].
  intros Hf. by apply itab_flush_snaps in Hf.
Qed.

Lemma blank_stable s p total primary tab :
  64 <= total <= MFS_MAX_BLOCKS -> byte_mem (MFS_BMP p) -> 0 <= primary < 2^64 ->
  stable (mk_mfs s (formatted total p) (mk_super 0 0 0 (MFS_ROOT_INO + 1) [] primary (mfs_bb_for total)) tab).
Proof using Type.
  intros Ht Hb Hpr. destruct (formatted_spec total p Ht Hb) as (T & _ & _ & Hnx & _ & Hdirty). split; [|split].
  - intros copy c _ Hc Hd. cbn [m_super m_space] in *. by rewrite Hdirty in Hd.
  - pose proof (bb_bound total ltac:(lia)) as Hbb. change MFS_MAX_BLOCKS with 33357824 in Ht.
    split; cbn [m_space m_super]; rewrite ?T, ?Hnx; cbn; try (unfold MFS_ROOT_INO; lia).
    intros sn Hsn. by apply elem_of_nil in Hsn.
  - intros sn Hsn. by apply elem_of_nil in Hsn.
Qed.

End formatting.

Lemma format_spec {D} `{!MfsDevice D, !MfsDeviceLaws D} answers sectors now (t t' : mnt D) :
  MFS_WB (m_io (t_fs t)) = [] -> byte_mem (MFS_BMP (m_space (t_fs t))) -> byte_mem (mfs_itab_buf (m_tab (t_fs t))) ->
  0 <= MFS_PRIMARY_SERIAL (m_super (t_fs t)) < 2^64 ->
  mfs_format answers sectors now t = (true, t') ->
  let m := t_fs t' in
  durable m /\ committed m
  /\ MFS_TOTAL_BLOCKS (m_space m) = mfs_format_total_blocks sectors
  /\ MFS_SNAPS (m_super m) = [] /\ MFS_INO_COUNT (m_super m) = 1
  /\ exists root, node_ok m MFS_MAGIC_DIR root /\ dir_rep (loaded (mfs_view (m_io m) root)) ∅
     /\ forall ino, 0 < ino < MFS_INO_MAX -> itab_lookup m ino = if ino =? MFS_ROOT_INO then root else 0.
Proof.
  intros Hwb Hb Hbuf Hpr. unfold mfs_format. set (total := mfs_format_total_blocks sectors).
  pose proof (format_total_range sectors) as Ht. fold total in Ht.
  destruct (mfs_win_ensure _ _ _) as [[] w]; cbn [negb]; [|done].
  cbn [MFS_PRIMARY_SERIAL]. set (p1 := mk_space _ _ total _ _). set (sb := mk_super 0 0 0 _ _ _ _).
  change (foldl (fun p b => mfs_bmp_set b p) (format_space total p1) (seqZ 0 (mfs_data_start (format_space total p1))))
    with (formatted total p1).
  set (tab := mk_tab _ _ _). destruct (formatted_spec total p1 Ht Hb) as (T & _).
  assert (meta_wf (mk_mfs (m_io (t_fs t)) (formatted total p1) sb tab)) as W0 by by apply blank_wf.
  assert (stable (mk_mfs (m_io (t_fs t)) (formatted total p1) sb tab)) as S0
    by by apply blank_stable.
  set (m0 := mk_mfs (m_io (t_fs t)) (formatted total p1) sb tab) in *. clearbody total.
  destruct (mfs_commit MFS_MAGIC_DIR (format_root now) _ _) as [[[ob buf1] s1] q1] eqn:Ec. destruct ob as [root|]; [|done].
  destruct (commit_node m0 MFS_MAGIC_DIR _ _ _ _ _ sb tab W0 (format_root_bytes now) ltac:(done) Ec eq_refl)
    as (W1 & K1 & N1 & _ & Ebuf & Hag).
  pose proof (commit_stable m0 _ _ _ _ _ _ sb tab W0 (format_root_bytes now) S0 Ec (or_introl eq_refl)) as S1.
  set (m1 := mk_mfs s1 q1 sb tab) in *.
  destruct (itab_wf_zero m1 W1 eq_refl eq_refl Hbuf) as [I1 L1].
  destruct (mfs_itab_flush m1) as [[] m2] eqn:E2; cbn [negb]; [|done].
  destruct (itab_flush_durable m1 m2 I1 S1 E2) as (D2 & K2 & L2).
  assert (0 <= root < 2^32) as Hroot by (destruct (node_bound _ _ _ W1 N1); lia).
  assert (0 < MFS_ROOT_INO < MFS_INO_MAX) as Hino by done.
  destruct (mfs_itab_set MFS_ROOT_INO root m2) as [[] m3] eqn:E3; cbn [negb]; [|done].
  destruct (itab_set_durable m2 _ _ m3 D2 Hino Hroot E3) as (D3 & _ & L3).
  destruct (itab_set_spec _ _ _ _ (du_itab _ D2) Hino Hroot E3) as (_ & K3 & _).
  set (m4 := mk_mfs (m_io m3) (m_space m3) _ (m_tab m3)).
  assert (durable m4) as D4 by (apply durable_counts; [done|lia|unfold MFS_ROOT_INO; lia]).
  destruct (mfs_bmp_flush m4) as [[] m5] eqn:E5; [|done]. intros [= <-]. cbn [t_fs].
  destruct (flush_durable m4 m5 D4 E5) as (D5 & K5 & L5). destruct (flush_fields _ _ E5) as (_ & Es & _).
  assert (data_kept m1 m5) as K15.
  { eapply data_kept_trans; [exact K2|]. eapply data_kept_trans; [exact K3|exact K5]. }
  split; [exact D5|]. split.
  { intros copy Hc. exact (flush_intact m4 m5 copy (w_mw _ (du_itab _ D4)) (du_synced _ D4) E5 Hc). }
  split; [rewrite (proj1 K15), (proj1 K1); exact T|].
  split; [rewrite Es; cbn; by rewrite (itab_set_snaps _ _ _ _ E3), (itab_flush_snaps _ _ E2)|]. split; [by rewrite Es|].
  exists root. split; [exact (node_kept _ _ _ _ K15 N1)|]. split.
  - destruct (proj2 K15 root (proj1 (proj1 N1)) (proj1 (proj2 N1))) as [_ ->].
    apply (format_root_empty now). intros a Ha. rewrite Hag by lia. rewrite Ebuf. apply seal_payload. exact (proj1 Ha).
  - intros ino Hi. rewrite (L5 ino Hi). change (itab_lookup m4 ino) with (itab_lookup m3 ino). rewrite (L3 ino Hi), (L2 ino Hi), L1.
    reflexivity.
Qed.

(** C20. Formatting makes an empty file system. When [mfs_format] reports success, the state is
    durable and committed: the volume has as many blocks as its capacity allows, no snapshots, one
    inode, whose block holds an empty directory, and every other inode number is free. *)
Theorem format_makes_empty_fs {D} `{!MfsDevice D, !MfsDeviceLaws D} answers sectors now (t t' : mnt D) :
  MFS_WB (m_io (t_fs t)) = [] -> byte_mem (MFS_BMP (m_space (t_fs t))) -> byte_mem (mfs_itab_buf (m_tab (t_fs t))) ->
  0 <= MFS_PRIMARY_SERIAL (m_super (t_fs t)) < 2^64 ->
  mfs_format answers sectors now t = (true, t') ->
  let m := t_fs t' in
  durable m /\ committed m
  /\ MFS_TOTAL_BLOCKS (m_space m) = mfs_format_total_blocks sectors
  /\ MFS_SNAPS (m_super m) = [] /\ MFS_INO_COUNT (m_super m) = 1
  /\ exists root, node_ok m MFS_MAGIC_DIR root /\ dir_rep (loaded (mfs_view (m_io m) root)) ∅
     /\ forall ino, 0 < ino < MFS_INO_MAX -> itab_lookup m ino = if ino =? MFS_ROOT_INO then root else 0.
Proof. apply format_spec. Qed.

(** ** Formatting and mounting a volume in memory *)

Definition blank_mnt (d : ram_blocks) : mnt ram_blocks :=
  mk_mnt (mk_mfs (mk_io 1 [] d) (mk_space scratch scratch 0 0 0) (mk_super 0 0 0 0 [] 0 0) (mk_tab [] U32_MAX scratch))
    (mk_win 0 0 0 0) (replicate MFS_MAX_SNAP (mk_snap 0 0 0 0)) [].

Local Notation new_volume := (@mfs_format _ (ram_mfs true) (fun _ => true) 512 0 (blank_mnt (fun _ _ => []))).

Definition settled (r : bool * mfs ram_blocks) : bool :=
  r.1 && (length (MFS_WB (m_io r.2)) =? 0)%nat && (MFS_CUR_VOL (m_io r.2) =? 1).

Lemma settled_spec r :
  settled r = true -> exists m, r = (true, m) /\ MFS_WB (m_io m) = [] /\ MFS_CUR_VOL (m_io m) = 1.
Proof.
  destruct r as [ok m]. unfold settled. cbn [fst snd]. intros H. apply andb_prop in H as [H Hv].
  apply andb_prop in H as [Hok Hw]. exists m. split; [by rewrite Hok|]. split; [|by apply Z.eqb_eq].
  apply nil_length_inv. by apply Nat.eqb_eq.
Qed.

Lemma new_volume_ok : exists t', new_volume = (true, t').
Proof.
  assert (new_volume.1 = true) as H by (lazy; reflexivity).
  destruct new_volume as [ok t']. cbn [fst] in H. exists t'. by rewrite H.
Qed.
Lemma new_volume_flush : settled (@mfs_bmp_flush _ (ram_mfs true) (t_fs new_volume.2)) = true.
Proof. lazy. reflexivity. Qed.
Lemma new_volume_set : settled (@mfs_itab_set _ (ram_mfs true) 5 9 (t_fs new_volume.2)) = true.
Proof. lazy. reflexivity. Qed.

Lemma new_volume_durable : @durable _ (ram_mfs true) (t_fs new_volume.2).
Proof.
  assert (0 <= 0 < 2^64) as H0 by lia. destruct new_volume_ok as [t' E]. pose proof E as E'. rewrite E. cbn [snd].
  exact (proj1 (@format_spec _ (ram_mfs true) (ram_mfs_laws true) (fun _ => true) 512 0 (blank_mnt (fun _ _ => [])) t'
    eq_refl scratch_bytes scratch_bytes H0 E')).
Qed.

(** What a crash leaves: the memory is blank, and the second superblock has been destroyed. *)
Definition crashed (m : mfs ram_blocks) : mnt ram_blocks :=
  blank_mnt (ram_put 1 8 [] (MFS_DEV (m_io m))).
Definition crash_view (m : mfs ram_blocks) : Z -> list Z := @mfs_view _ (ram_mfs true) (m_io (t_fs (crashed m))).

Lemma crashed_spec m :
  @durable _ (ram_mfs true) m -> MFS_WB (m_io m) = [] -> MFS_CUR_VOL (m_io m) = 1 ->
  @kept _ (ram_mfs true) (crash_view m) (crashed m) /\ (forall b, block_data (crash_view m b))
  /\ (forall b, copy_block (m_super m) 0 b \/ mfs_data_start (m_space m) <= b ->
        crash_view m b = @mfs_view _ (ram_mfs true) (m_io m) b)
  /\ other_copy (crash_view m) (m_space m) (m_super m) (1 - 0).
Proof.
  intros Hd Hwb Hv. split.
  { split; [by split|]. split; [by unfold wins_ok|]. split; [done|]. split; apply scratch_bytes. }
  split; [intros b; apply block_of_data|]. split; [|right; left; reflexivity].
  intros b Hb. assert (b <> 1) as Hne.
  { pose proof (data_start_pos (m_space m) ltac:(apply (w_store _ (w_mw _ (du_itab _ Hd))))). unfold copy_block in Hb. lia. }
  unfold crash_view, mfs_view. rewrite Hwb, Hv. cbn. unfold ram_put. by rewrite (proj2 (Z.eqb_neq (b * 8) 8)) by lia.
Qed.

(** A volume of 64 blocks can be formatted. *)
Lemma format_makes_empty_fs_witness :
  exists t', new_volume = (true, t') /\ MFS_TOTAL_BLOCKS (m_space (t_fs t')) = 64
    /\ @itab_lookup _ (ram_mfs true) (t_fs t') 5 = 0.
Proof.
  assert (0 <= 0 < 2^64) as H0 by lia. assert (0 < 5 < MFS_INO_MAX) as H5 by done.
  destruct new_volume_ok as [t' E]. exists t'. split; [exact E|].
  pose proof (@format_makes_empty_fs _ (ram_mfs true) (ram_mfs_laws true) (fun _ => true) 512 0 (blank_mnt (fun _ _ => [])) t'
    eq_refl scratch_bytes scratch_bytes H0 E) as (_ & _ & Ht & _ & _ & root & _ & _ & Hl).
  split; [exact Ht|]. exact (Hl 5 H5).
Defined.

(** A commit on it survives the loss of the second superblock. *)
Lemma mount_restores_commit_witness :
  exists m1 t', @mfs_bmp_flush _ (ram_mfs true) (t_fs new_volume.2) = (true, m1)
    /\ @mfs_load_state _ (ram_mfs true) (fun _ => true) 0 (crashed m1) = (true, t')
    /\ m_super (t_fs t') = m_super m1.
Proof.
  pose proof new_volume_durable as Hd.
  destruct (settled_spec _ new_volume_flush) as (m1 & E & Hwb & Hv).
  destruct (@flush_durable _ (ram_mfs true) (ram_mfs_laws true) _ _ Hd E) as [Hd1 _].
  destruct (crashed_spec m1 Hd1 Hwb Hv) as (Hk & HV & Hkeep & Ho).
  destruct (@mount_restores_commit _ (ram_mfs true) (ram_mfs_laws true) (fun _ => true) 0 _ m1 (crash_view m1) 0 (crashed m1)
    (fun _ _ _ => eq_refl) (fun _ => eq_refl) Hd E HV Hkeep (or_introl eq_refl) Ho (or_introl eq_refl) Hk)
    as (t' & Hl & Hs & _).
  exists m1, t'. split; [exact E|]. split; [exact Hl|exact Hs].
Defined.

(** So does an update of the inode table. *)
Lemma update_survives_crash_witness :
  exists m1 t', @mfs_itab_set _ (ram_mfs true) 5 9 (t_fs new_volume.2) = (true, m1)
    /\ @mfs_load_state _ (ram_mfs true) (fun _ => true) 0 (crashed m1) = (true, t')
    /\ @itab_lookup _ (ram_mfs true) (t_fs t') 5 = 9.
Proof.
  assert (0 < 5 < MFS_INO_MAX) as H5 by done. assert (0 <= 9 < 2^32) as H9 by lia.
  pose proof new_volume_durable as Hd.
  destruct (settled_spec _ new_volume_set) as (m1 & E & Hwb & Hv).
  destruct (@itab_set_durable _ (ram_mfs true) (ram_mfs_laws true) _ _ _ _ Hd H5 H9 E) as [Hd1 _].
  destruct (crashed_spec m1 Hd1 Hwb Hv) as (Hk & HV & Hkeep & Ho).
  destruct (@update_survives_crash _ (ram_mfs true) (ram_mfs_laws true) (fun _ => true) 0 _ m1 5 9 (crash_view m1) 0 (crashed m1)
    (fun _ _ _ => eq_refl) (fun _ => eq_refl) Hd H5 H9 E HV Hkeep (or_introl eq_refl) Ho (or_introl eq_refl) Hk)
    as (_ & t' & Hl & _ & Hm).
  exists m1, t'. split; [exact E|]. split; [exact Hl|]. exact (Hm 5 H5).
Defined.

(** A volume that cannot be read looks like one that has never been formatted. *)
Example unreadable_looks_blank s :
  MFS_WB s = [] -> (@mfs_sb_magic_state _ (ram_mfs false) 1 s).1 = (MFS_MAGIC_NONE, 0).
Proof. intros H. unfold mfs_sb_magic_state, mfs_commit_flush. rewrite H. reflexivity. Qed.
