(* ===== verification/MfsPtr.v ===== *)
(** * MfsPtr: the block pointers of a MorionFS file (src/user/srv/src/mfs_srv.rs)

    A file node holds the size, the number of logical blocks, 1005 direct block pointers and the
    roots of a one-, a two- and a three-level tree of pointer blocks; a null pointer is a hole. This
    file holds the plan that says where a logical block is mapped, following and changing pointers,
    and the buffer that collects the changed pointers of one pointer block. [cur] is the pointer of
    a plan as the operations see it; the lemmas say how every operation changes it. *)

From S2P Require Import Prelude Bytes Crc Clock MfsBlock MfsItab MfsDir MfsGc MfsMount.

Definition MFS_MAGIC_DATA : Z := 0x4D464441.
Definition MFS_FILE_SIZE_OFF : Z := MFS_HDR.
Definition MFS_FILE_NBLOCKS_OFF : Z := MFS_HDR + 8.
Definition MFS_FILE_MAX_BLOCKS : Z :=
  MFS_FILE_DIRECT + MFS_IND_CAP + MFS_IND_CAP * MFS_IND_CAP + MFS_IND_CAP * MFS_IND_CAP * MFS_IND_CAP.
Definition MFS_DATA_CAP : Z := MFS_PAYLOAD.
Definition MFS_RDBUF_PAGES : Z := 16.

Definition mfs_file_size (buf : mem) : Z := read_u64 buf MFS_FILE_SIZE_OFF.
Definition mfs_file_set_size (v : Z) (buf : mem) : mem := write_u64 MFS_FILE_SIZE_OFF v buf.
Definition mfs_file_nblocks (buf : mem) : Z := read_u32 buf MFS_FILE_NBLOCKS_OFF.
Definition mfs_file_set_nblocks (v : Z) (buf : mem) : mem := write_u32 MFS_FILE_NBLOCKS_OFF v buf.
Definition mfs_file_set_direct (i b : Z) (buf : mem) : mem := write_u32 (MFS_FILE_DIRECT_OFF + i * 4) b buf.
Definition mfs_file_set_ind1 (b : Z) (buf : mem) : mem := write_u32 MFS_FILE_IND1_OFF b buf.
Definition mfs_file_set_ind2 (b : Z) (buf : mem) : mem := write_u32 MFS_FILE_IND2_OFF b buf.
Definition mfs_file_set_ind3 (b : Z) (buf : mem) : mem := write_u32 MFS_FILE_IND3_OFF b buf.
Definition mfs_ind_set_slot (slot b : Z) (buf : mem) : mem := write_u32 (MFS_HDR + slot * 4) b buf.
Definition mfs_touch (now : Z) (is_dir : bool) (buf : mem) : mem :=
  mfs_set_ctime is_dir now (mfs_set_mtime is_dir now buf).

(** ** Where a logical block is mapped *)

Record MfsMapPlan : Type := mk_plan { kind : Z; slot3 : Z; slot2 : Z; slot1 : Z }.

Definition mfs_map_plan (bi : Z) : option MfsMapPlan :=
  if bi <? MFS_FILE_DIRECT then Some (mk_plan 0 0 0 bi)
  else
    let idx := bi - MFS_FILE_DIRECT in
    if idx <? MFS_IND_CAP then Some (mk_plan 1 0 0 idx)
    else
      let idx := idx - MFS_IND_CAP in
      if idx <? MFS_IND_CAP * MFS_IND_CAP then Some (mk_plan 2 0 (idx / MFS_IND_CAP) (idx mod MFS_IND_CAP))
      else
        let idx3 := idx - MFS_IND_CAP * MFS_IND_CAP in
        let s3 := idx3 / (MFS_IND_CAP * MFS_IND_CAP) in
        if MFS_IND_CAP <=? s3 then None
        else let rest := idx3 mod (MFS_IND_CAP * MFS_IND_CAP) in
             Some (mk_plan 3 s3 (rest / MFS_IND_CAP) (rest mod MFS_IND_CAP)).

(** The pointer block held in buffer B while writing. *)
Record MfsIndCache : Type := mk_cache { c_kind : Z; c_slot2 : Z; c_dirty : bool }.
Definition MFS_IND_CACHE_EMPTY : MfsIndCache := mk_cache 0 0 false.

(** ** File operations as computations

    A computation works on the buffers A (the node) and B (a pointer block), the cache and the file
    system; [None] is a failed operation, whose state is kept. *)

Record fstate (D : Type) : Type := mk_fst { f_a : mem; f_b : mem; f_cache : MfsIndCache; f_m : mfs D }.
Arguments mk_fst {D}.
Arguments f_a {D}.
Arguments f_b {D}.
Arguments f_cache {D}.
Arguments f_m {D}.

Definition F (D A : Type) : Type := fstate D -> option A * fstate D.
#[global] Instance F_ret D : MRet (F D) := fun A x s => (Some x, s).
#[global] Instance F_bind D : MBind (F D) := fun A B k e s =>
  match e s with
  | (Some x, s) => k x s
  | (None, s) => (None, s)
  end.

Section file.
Context {D : Type} `{!MfsDevice D}.

Definition fail {A} : F D A := fun s => (None, s).
Definition require (c : bool) : F D unit := if c then mret tt else fail.
Definition get_a : F D mem := fun s => (Some (f_a s), s).
Definition get_b : F D mem := fun s => (Some (f_b s), s).
Definition get_cache : F D MfsIndCache := fun s => (Some (f_cache s), s).
Definition upd_a (f : mem -> mem) : F D unit := fun s => (Some tt, mk_fst (f (f_a s)) (f_b s) (f_cache s) (f_m s)).
Definition upd_b (f : mem -> mem) : F D unit := fun s => (Some tt, mk_fst (f_a s) (f (f_b s)) (f_cache s) (f_m s)).
Definition set_cache (c : MfsIndCache) : F D unit := fun s => (Some tt, mk_fst (f_a s) (f_b s) c (f_m s)).

(** [!mfs_read_blk(blk, b) || !mfs_ok(b, magic)]: read into B and check. *)
Definition read_b (blk magic : Z) : F D unit := fun s =>
  let '(ok, b, io) := mfs_read_blk blk (f_b s) (m_io (f_m s)) in
  let s := mk_fst (f_a s) b (f_cache s) (set_io (f_m s) io) in
  if negb ok || negb (mfs_ok b magic) then (None, s) else (Some tt, s).

(** Read block [blk] into B, or clear B when there is none. *)
Definition read_or_zero (blk magic : Z) : F D unit :=
  if blk =? 0 then upd_b (zero_bytes 0 (Z.to_nat MFS_BLOCK)) else read_b blk magic.

Definition commit_b (magic : Z) : F D Z := fun s =>
  let '(ob, b, io, p) := mfs_commit magic (f_b s) (m_io (f_m s)) (m_space (f_m s)) in
  (ob, mk_fst (f_a s) b (f_cache s) (mk_mfs io p (m_super (f_m s)) (m_tab (f_m s)))).

(** A data block, read into buffer C and checked, and a data block written from it. *)
Definition read_data (blk : Z) : F D mem := fun s =>
  let '(ok, c, io) := mfs_read_blk blk scratch (m_io (f_m s)) in
  let s := mk_fst (f_a s) (f_b s) (f_cache s) (set_io (f_m s) io) in
  if negb ok || negb (mfs_ok c MFS_MAGIC_DATA) then (None, s) else (Some c, s).
Definition commit_data (c : mem) : F D Z := fun s =>
  let '(ob, _, io, p) := mfs_commit MFS_MAGIC_DATA c (m_io (f_m s)) (m_space (f_m s)) in
  (ob, mk_fst (f_a s) (f_b s) (f_cache s) (mk_mfs io p (m_super (f_m s)) (m_tab (f_m s)))).

(** The node of [ino], read into A and checked. *)
Definition load_node (ino : Z) : F D unit := fun s =>
  let '(ob, m) := mfs_ino_block ino (f_m s) in
  let s := mk_fst (f_a s) (f_b s) (f_cache s) m in
  match ob with
  | None => (None, s)
  | Some block =>
      if block =? 0 then (None, s)
      else
        let '(ok, a, io) := mfs_read_blk block (f_a s) (m_io m) in
        let s := mk_fst a (f_b s) (f_cache s) (set_io m io) in
        if negb ok || negb (mfs_ok a MFS_MAGIC_FILE) then (None, s) else (Some tt, s)
  end.
Definition store_node (ino : Z) : F D unit := fun s =>
  let '(ob, a, m) := mfs_commit_object ino MFS_MAGIC_FILE (f_a s) (f_m s) in
  ((fun _ => tt) <$> ob, mk_fst a (f_b s) (f_cache s) m).

(** ** Following pointers *)

Definition plan_of (bi : Z) : F D MfsMapPlan :=
  match mfs_map_plan bi with
  | Some p => mret p
  | None => fail
  end.

Definition mfs_file_map (bi : Z) : F D Z :=
  p ← plan_of bi;
  a ← get_a;
  if kind p =? 0 then mret (mfs_file_direct a (slot1 p))
  else
    l1 ← (if kind p =? 1 then mret (Some (mfs_file_ind1 a))
          else if kind p =? 2 then
            let l2 := mfs_file_ind2 a in
            if l2 =? 0 then mret None
            else (read_b l2 MFS_MAGIC_IND2;; b ← get_b; mret (Some (mfs_ind_slot b (slot2 p))))
          else
            let l3 := mfs_file_ind3 a in
            if l3 =? 0 then mret None
            else (read_b l3 MFS_MAGIC_IND3;; b ← get_b;
                  let l2 := mfs_ind_slot b (slot3 p) in
                  if l2 =? 0 then mret None
                  else (read_b l2 MFS_MAGIC_IND2;; b ← get_b; mret (Some (mfs_ind_slot b (slot2 p))))));
    match l1 with
    | None => mret 0
    | Some l1 =>
        if l1 =? 0 then mret 0
        else (read_b l1 MFS_MAGIC_IND;; b ← get_b; mret (mfs_ind_slot b (slot1 p)))
    end.

Definition mfs_ind_flush : F D unit :=
  cache ← get_cache;
  if (c_kind cache =? 0) || negb (c_dirty cache) then mret tt
  else
    new_l1 ← commit_b MFS_MAGIC_IND;
    (if c_kind cache =? 1 then upd_a (mfs_file_set_ind1 new_l1)
     else
       a ← get_a;
       let l2 := mfs_file_ind2 a in
       require (negb (l2 =? 0));;
       read_b l2 MFS_MAGIC_IND2;;
       upd_b (mfs_ind_set_slot (c_slot2 cache) new_l1);;
       new_l2 ← commit_b MFS_MAGIC_IND2;
       upd_a (mfs_file_set_ind2 new_l2));;
    set_cache (mk_cache (c_kind cache) (c_slot2 cache) false).

Definition mfs_ind_load (bi : Z) : F D unit :=
  p ← plan_of bi;
  cache ← get_cache;
  if kind p =? 0 then
    mfs_ind_flush;;
    cache ← get_cache;
    set_cache (mk_cache 0 (c_slot2 cache) (c_dirty cache))
  else if (c_kind cache =? kind p) && (c_slot2 cache =? slot2 p) then mret tt
  else
    mfs_ind_flush;;
    a ← get_a;
    (if kind p =? 1 then read_or_zero (mfs_file_ind1 a) MFS_MAGIC_IND
     else
       let l2 := mfs_file_ind2 a in
       (if l2 =? 0 then
          upd_b (zero_bytes 0 (Z.to_nat MFS_BLOCK));;
          l2 ← commit_b MFS_MAGIC_IND2;
          upd_a (mfs_file_set_ind2 l2)
        else read_b l2 MFS_MAGIC_IND2);;
       b ← get_b;
       read_or_zero (mfs_ind_slot b (slot2 p)) MFS_MAGIC_IND);;
    set_cache (mk_cache (kind p) (slot2 p) false).

Definition mfs_ind_peek3 (p : MfsMapPlan) : F D Z :=
  a ← get_a;
  let l3 := mfs_file_ind3 a in
  if l3 =? 0 then mret 0
  else
    read_b l3 MFS_MAGIC_IND3;;
    b ← get_b;
    let l2 := mfs_ind_slot b (slot3 p) in
    if l2 =? 0 then mret 0
    else
      read_b l2 MFS_MAGIC_IND2;;
      b ← get_b;
      let l1 := mfs_ind_slot b (slot2 p) in
      if l1 =? 0 then mret 0
      else (read_b l1 MFS_MAGIC_IND;; b ← get_b; mret (mfs_ind_slot b (slot1 p))).

Definition mfs_ind_peek (bi : Z) : F D Z :=
  p ← plan_of bi;
  a ← get_a;
  if kind p =? 0 then mret (mfs_file_direct a (slot1 p))
  else if kind p =? 3 then mfs_ind_flush;; set_cache MFS_IND_CACHE_EMPTY;; mfs_ind_peek3 p
  else mfs_ind_load bi;; b ← get_b; mret (mfs_ind_slot b (slot1 p)).

Definition mfs_ind_link3 (p : MfsMapPlan) (db : Z) : F D unit :=
  a ← get_a;
  let l3 := mfs_file_ind3 a in
  l2 ← (if l3 =? 0 then mret 0 else (read_b l3 MFS_MAGIC_IND3;; b ← get_b; mret (mfs_ind_slot b (slot3 p))));
  l1 ← (if l2 =? 0 then mret 0 else (read_b l2 MFS_MAGIC_IND2;; b ← get_b; mret (mfs_ind_slot b (slot2 p))));
  read_or_zero l1 MFS_MAGIC_IND;;
  upd_b (mfs_ind_set_slot (slot1 p) db);;
  new_l1 ← commit_b MFS_MAGIC_IND;
  read_or_zero l2 MFS_MAGIC_IND2;;
  upd_b (mfs_ind_set_slot (slot2 p) new_l1);;
  new_l2 ← commit_b MFS_MAGIC_IND2;
  read_or_zero l3 MFS_MAGIC_IND3;;
  upd_b (mfs_ind_set_slot (slot3 p) new_l2);;
  new_l3 ← commit_b MFS_MAGIC_IND3;
  upd_a (mfs_file_set_ind3 new_l3).

Definition mfs_ind_link (bi db : Z) : F D unit :=
  p ← plan_of bi;
  cache ← get_cache;
  if kind p =? 0 then upd_a (mfs_file_set_direct (slot1 p) db)
  else if kind p =? 3 then mfs_ind_link3 p db
  else if negb (c_kind cache =? kind p) || negb (c_slot2 cache =? slot2 p) then fail
  else upd_b (mfs_ind_set_slot (slot1 p) db);; set_cache (mk_cache (c_kind cache) (c_slot2 cache) true).

End file.

(** ** Steps that only add blocks *)

Section grow.
Context {D : Type} `{!MfsDevice D, !MfsDeviceLaws D}.
Implicit Types m : mfs D.

(** [m'] has what [m] has: used blocks, inode table and superblock. *)
Record grown m m' : Prop := {
  gr_data : data_kept m m';
  gr_super : m_super m' = m_super m;
  gr_mem : MFS_ITAB_MEM (m_tab m') = MFS_ITAB_MEM (m_tab m)
}.

Lemma grown_refl m : grown m m.
Proof. split; [split|..]; auto. Qed.

Lemma grown_trans m1 m2 m3 : grown m1 m2 -> grown m2 m3 -> grown m1 m3.
Proof.
  intros [K1 S1 M1] [K2 S2 M2]. split; [by eapply data_kept_trans|congruence..].
Qed.

Lemma grown_lookup m m' ino :
  itab_wf m -> grown m m' -> 0 < ino < MFS_INO_MAX -> itab_lookup m' ino = itab_lookup m ino.
Proof.
  intros Hw [K _ M] Hino. destruct (ino_slot_range ino Hino) as [Hk _]. unfold itab_lookup, mfs_ino_slot.
  assert (forall k, mfs_itab_table k (m_tab m') = mfs_itab_table k (m_tab m)) as Ht
    by (intros k; unfold mfs_itab_table; by rewrite M).
  rewrite Ht. destruct (Z.eqb_spec (mfs_itab_table (ino / MFS_ITAB_SLOTS) (m_tab m)) 0) as [|Hz]; [done|].
  destruct (w_tables _ Hw _ (table_elem m _ (w_len _ Hw) Hk) Hz) as (Hr & Hu & _).
  by destruct (proj2 K _ (proj1 Hr) Hu) as [_ ->].
Qed.

Lemma durable_grown m m' :
  durable m -> meta_wf m' -> stable m' -> data_kept m m' -> m_super m' = m_super m -> m_tab m' = m_tab m ->
  durable m' /\ grown m m'.
Proof.
  intros Hd Hwf (Hsy & Hsz & Hsn) K Es Et. split; [|split; [done|done|by rewrite Et]].
  pose proof (du_itab _ Hd) as Hi. destruct (du_index _ Hd) as (Hr & Hu & Hok).
  split; [|rewrite Es; by apply (node_kept m)| |done|done|done].
  - split; [done| | | |]; rewrite Et; [apply (w_len _ Hi)| | |apply (w_buf _ Hi)].
    + intros t Ht Hz. by apply (node_kept m), (w_tables _ Hi).
    + destruct (w_cache _ Hi) as [H|(Hk & Hz & Ha)]; [by left|]. right. split; [done|]. split; [done|].
      destruct (w_tables _ Hi _ (table_elem m _ (w_len _ Hi) Hk) Hz) as (Hr' & Hu' & _).
      by destruct (proj2 K _ (proj1 Hr') Hu') as [_ ->].
  - rewrite Et, Es. destruct (proj2 K _ (proj1 Hr) Hu) as [_ ->]. apply (du_mem _ Hd).
Qed.

Lemma durable_stable m : durable m -> stable m.
Proof. intros Hd. split; [apply Hd|split; apply Hd]. Qed.

(** A read that succeeds changes nothing but the state of the device and the write window. *)
Lemma read_durable m b dst buf s :
  durable m -> 0 <= b < 2^28 -> mfs_read_blk b dst (m_io m) = (true, buf, s) ->
  durable (set_io m s) /\ grown m (set_io m s) /\ (forall b', mfs_view s b' = mfs_view (m_io m) b')
  /\ agree 0 MFS_BLOCK buf (loaded (mfs_view (m_io m) b)) /\ (byte_mem dst -> byte_mem buf).
Proof using MfsDeviceLaws0.
  intros Hd Hb Hr. pose proof (w_mw _ (du_itab _ Hd)) as Hwf. destruct (w_store _ Hwf) as (Hio & Hsp & Hwin).
  destruct (read_blk_spec _ _ _ _ _ _ Hio Hb Hr) as (Hio' & _ & Hsub & Hview & Hbuf & Hbytes).
  assert (forall b', mfs_view s b' = mfs_view (m_io m) b') as Hv by auto.
  assert (meta_wf (set_io m s)) as Hwf'.
  { split; cbn; [|intros b' Hb'; split; [by apply (w_meta _ Hwf)|by apply Hsub, (w_meta _ Hwf)]|apply Hwf..].
    split; [done|]. split; [done|]. intros b' Hb' Hw. apply Hwin; [done|].
    destruct (mfs_wb_has b' (m_io m)) eqn:E; [done|]. by rewrite (Hsub _ E) in Hw. }
  destruct (durable_grown m (set_io m s) Hd Hwf') as [Hd' Hg]; [|by split; auto|done|done|].
  { destruct (durable_stable _ Hd) as (Hsy & Hsz & Hsn). split; [|done]. intros copy c Hc Hcr Hdi. cbn. rewrite Hv. by apply Hsy. }
  do 3 (split; [done|]). split; [|done]. rewrite (Hbuf eq_refl). by apply loaded_agree, view_block.
Qed.

(** A commit adds one block. *)
Lemma commit_durable m magic buf b buf' s p :
  durable m -> byte_mem buf -> 0 <= magic < 2^32 ->
  mfs_commit magic buf (m_io m) (m_space m) = (Some b, buf', s, p) ->
  let m' := mk_mfs s p (m_super m) (m_tab m) in
  durable m' /\ grown m m' /\ node_ok m' magic b /\ buf' = mfs_seal magic buf
  /\ agree MFS_HDR MFS_BLOCK (loaded (mfs_view s b)) buf.
Proof using MfsDeviceLaws0.
  intros Hd Hb Hm Hc m'. pose proof (w_mw _ (du_itab _ Hd)) as Hwf.
  destruct (commit_node m magic buf b buf' s p (m_super m) (m_tab m) Hwf Hb Hm Hc eq_refl) as (Hwf' & K & Hn & _ & Ebuf & Ha).
  destruct (durable_grown m m' Hd Hwf') as [Hd' Hg]; [|done|done|done|].
  { eapply commit_stable; [exact Hwf|exact Hb|by apply durable_stable|exact Hc|by left]. }
  do 4 (split; [done|]). intros a Hra. rewrite Ha by (unfold MFS_HDR in Hra; lia). rewrite Ebuf. apply seal_payload. lia.
Qed.

End grow.

(** ** Pointer trees *)

Section tree.
Context {D : Type} `{!MfsDevice D, !MfsDeviceLaws D}.
Implicit Types (m : mfs D) (l : list (Z * Z)).

Definition slot_of m (p slot : Z) : Z := mfs_ind_slot (loaded (mfs_view (m_io m) p)) slot.

(** Following a path of (magic number, slot) pairs from a root. *)
Fixpoint walk m l (p : Z) : Z :=
  match l with
  | [] => p
  | (_, slot) :: l' => if p =? 0 then 0 else walk m l' (slot_of m p slot)
  end.

(** Every pointer on the path is null or leads to a block of the right kind. *)
Fixpoint path_ok m l (p : Z) : Prop :=
  match l with
  | [] => p = 0 \/ node_ok m MFS_MAGIC_DATA p
  | (magic, slot) :: l' => p = 0 \/ (node_ok m magic p /\ path_ok m l' (slot_of m p slot))
  end.

Lemma slot_kept m m' magic p slot : data_kept m m' -> node_ok m magic p -> slot_of m' p slot = slot_of m p slot.
Proof. intros [_ K] (Hr & Hu & _). unfold slot_of. by destruct (K p (proj1 Hr) Hu) as [_ ->]. Qed.

Lemma walk_kept m m' l p : data_kept m m' -> path_ok m l p -> walk m' l p = walk m l p /\ path_ok m' l p.
Proof.
  intros K. revert p. induction l as [|[magic slot] l IH]; intros p; cbn.
  - intros [->|H]; [auto|]. split; [done|]. right. by apply (node_kept m).
  - intros [->|[Hn H]]; [auto|]. rewrite (slot_kept _ _ _ _ _ K Hn). destruct (IH _ H) as [-> Hok].
    split; [done|]. right. split; [by apply (node_kept m)|done].
Qed.

Lemma walk_zero m l : walk m l 0 = 0.
Proof. by destruct l as [|[]]. Qed.
Lemma path_zero m l : path_ok m l 0.
Proof. destruct l as [|[]]; by left. Qed.

Lemma path_walk_ok m l p : path_ok m l p -> walk m l p = 0 \/ node_ok m MFS_MAGIC_DATA (walk m l p).
Proof.
  revert p. induction l as [|[magic slot] l IH]; intros p; cbn; [done|]. intros [->|[_ H]]; [by left|].
  destruct (p =? 0); [by left|auto].
Qed.

End tree.

(** ** Plans *)

Definition plan_root (a : mem) (p : MfsMapPlan) : Z :=
  if kind p =? 0 then mfs_file_direct a (slot1 p)
  else if kind p =? 1 then mfs_file_ind1 a else if kind p =? 2 then mfs_file_ind2 a else mfs_file_ind3 a.
Definition plan_path (p : MfsMapPlan) : list (Z * Z) :=
  if kind p =? 0 then []
  else if kind p =? 1 then [(MFS_MAGIC_IND, slot1 p)]
  else if kind p =? 2 then [(MFS_MAGIC_IND2, slot2 p); (MFS_MAGIC_IND, slot1 p)]
  else [(MFS_MAGIC_IND3, slot3 p); (MFS_MAGIC_IND2, slot2 p); (MFS_MAGIC_IND, slot1 p)].

Definition ind_slot_ok (i : Z) : Prop := 0 <= i < MFS_IND_CAP.

Record plan_wf (p : MfsMapPlan) : Prop := {
  pw_kind : kind p = 0 \/ kind p = 1 \/ kind p = 2 \/ kind p = 3;
  pw_direct : kind p = 0 -> 0 <= slot1 p < MFS_FILE_DIRECT;
  pw_slot1 : kind p <> 0 -> ind_slot_ok (slot1 p);
  pw_slot2 : ind_slot_ok (slot2 p);
  pw_slot3 : ind_slot_ok (slot3 p);
  pw_low2 : kind p < 2 -> slot2 p = 0;
  pw_low3 : kind p < 3 -> slot3 p = 0
}.

(** The logical block of a plan. *)
Definition plan_index (p : MfsMapPlan) : Z :=
  if kind p =? 0 then slot1 p
  else if kind p =? 1 then MFS_FILE_DIRECT + slot1 p
  else if kind p =? 2 then MFS_FILE_DIRECT + MFS_IND_CAP + slot2 p * MFS_IND_CAP + slot1 p
  else MFS_FILE_DIRECT + MFS_IND_CAP + MFS_IND_CAP * MFS_IND_CAP
       + (slot3 p * MFS_IND_CAP + slot2 p) * MFS_IND_CAP + slot1 p.

Ltac plan_arith := unfold ind_slot_ok; cbn [kind slot1 slot2 slot3]; change MFS_FILE_DIRECT with 1005; change MFS_IND_CAP with 1022;
  intros; Z.to_euclidean_division_equations; lia.

Lemma plan_spec bi p : 0 <= bi -> mfs_map_plan bi = Some p -> plan_wf p /\ plan_index p = bi.
Proof.
  unfold mfs_map_plan. change MFS_FILE_DIRECT with 1005. change MFS_IND_CAP with 1022.
  change (1022 * 1022) with 1044484. intros Hbi H.
  destruct (Z.ltb_spec bi 1005).
  { injection H as <-. split; [split; plan_arith|]. unfold plan_index. cbn. plan_arith. }
  destruct (Z.ltb_spec (bi - 1005) 1022).
  { injection H as <-. split; [split; plan_arith|]. unfold plan_index. cbn [kind Z.eqb Pos.eqb]. plan_arith. }
  destruct (Z.ltb_spec (bi - 1005 - 1022) 1044484).
  { injection H as <-. split; [split; plan_arith|]. unfold plan_index. cbn [kind Z.eqb Pos.eqb]. plan_arith. }
  destruct (Z.leb_spec 1022 ((bi - 1005 - 1022 - 1044484) / 1044484)); [done|].
  injection H as <-. split; [split; plan_arith|]. unfold plan_index. cbn [kind Z.eqb Pos.eqb]. plan_arith.
Qed.

Lemma plan_total bi : 0 <= bi < MFS_FILE_MAX_BLOCKS -> exists p, mfs_map_plan bi = Some p.
Proof.
  unfold MFS_FILE_MAX_BLOCKS, mfs_map_plan. change MFS_FILE_DIRECT with 1005. change MFS_IND_CAP with 1022.
  change (1022 * 1022) with 1044484. intros Hbi. repeat (destruct (_ <? _); [eauto|]).
  destruct (Z.leb_spec 1022 ((bi - 1005 - 1022 - 1044484) / 1044484)); [|eauto].
  Z.to_euclidean_division_equations. lia.
Qed.

Lemma plan_inj bi bi' p : 0 <= bi -> 0 <= bi' -> mfs_map_plan bi = Some p -> mfs_map_plan bi' = Some p -> bi = bi'.
Proof. intros H H' E E'. apply plan_spec in E as [_ <-]; [|done]. by apply plan_spec in E' as [_ <-]. Qed.

(** ** The node's fields *)

Lemma slot_set b slot slot' v :
  0 <= v < 2^32 -> mfs_ind_slot (mfs_ind_set_slot slot v b) slot' = if slot' =? slot then v else mfs_ind_slot b slot'.
Proof.
  intros Hv. unfold mfs_ind_slot, mfs_ind_set_slot. destruct (Z.eqb_spec slot' slot) as [->|]; [by apply read_write_u32|].
  apply read_u32_u32. lia.
Qed.

Lemma slot_ext b b' slot : ind_slot_ok slot -> agree MFS_HDR MFS_BLOCK b b' -> mfs_ind_slot b slot = mfs_ind_slot b' slot.
Proof.
  intros Hs Ha. apply read_u32_ext. eapply agree_sub; [exact Ha|unfold ind_slot_ok in Hs; lia|].
  unfold ind_slot_ok in Hs. change MFS_IND_CAP with 1022 in Hs. change MFS_BLOCK with 4096. change MFS_HDR with 8. lia.
Qed.

Lemma slot_zero b slot : ind_slot_ok slot -> mfs_ind_slot (zero_bytes 0 (Z.to_nat MFS_BLOCK) b) slot = 0.
Proof. apply zero_slot. Qed.

(** Everything of a node but its block pointers: size, number of blocks, metadata. *)
Definition head_kept (a a' : mem) : Prop := agree MFS_HDR MFS_FILE_DIRECT_OFF a' a /\ agree MFS_FILE_RESERVED_OFF MFS_BLOCK a' a.

Lemma head_refl a : head_kept a a.
Proof. by split; intros x _. Qed.
Lemma head_trans a b c : head_kept a b -> head_kept b c -> head_kept a c.
Proof. intros [H1 H2] [H3 H4]. split; intros x Hx; [by rewrite H3, H1|by rewrite H4, H2]. Qed.

(** Changing one root leaves the rest of the node. *)
Definition set_root (p : MfsMapPlan) (v : Z) (a : mem) : mem :=
  if kind p =? 0 then mfs_file_set_direct (slot1 p) v a
  else if kind p =? 1 then mfs_file_set_ind1 v a
  else if kind p =? 2 then mfs_file_set_ind2 v a else mfs_file_set_ind3 v a.

Definition root_off (p : MfsMapPlan) : Z :=
  if kind p =? 0 then MFS_FILE_DIRECT_OFF + slot1 p * 4
  else if kind p =? 1 then MFS_FILE_IND1_OFF else if kind p =? 2 then MFS_FILE_IND2_OFF else MFS_FILE_IND3_OFF.

Lemma root_off_spec a p v :
  plan_root a p = read_u32 a (root_off p) /\ set_root p v a = write_u32 (root_off p) v a.
Proof. unfold plan_root, set_root, root_off. by destruct (kind p =? 0), (kind p =? 1), (kind p =? 2). Qed.

Lemma root_off_range p :
  plan_wf p -> MFS_FILE_DIRECT_OFF <= root_off p /\ root_off p + 4 <= MFS_FILE_RESERVED_OFF
  /\ (kind p = 0 -> root_off p < MFS_FILE_IND1_OFF) /\ (root_off p - MFS_FILE_DIRECT_OFF) mod 4 = 0.
Proof.
  intros [Hk Hd _ _ _ _ _]. unfold root_off, MFS_FILE_RESERVED_OFF, MFS_FILE_IND3_OFF, MFS_FILE_IND2_OFF, MFS_FILE_IND1_OFF,
    MFS_FILE_DIRECT_OFF. change MFS_FILE_DIRECT with 1005 in *. change MFS_HDR with 8.
  destruct Hk as [H|[H|[H|H]]]; rewrite H in *; cbn; [|(split; [lia|]; split; [lia|]; split; [lia|reflexivity])..]. specialize (Hd eq_refl).
  split; [lia|]. split; [lia|]. split; [lia|]. replace (8 + 16 + slot1 p * 4 - (8 + 16)) with (slot1 p * 4) by lia.
  by rewrite Z.mod_mul.
Qed.

Lemma head_set_root p v a : plan_wf p -> head_kept a (set_root p v a).
Proof.
  intros Hp. destruct (root_off_range p Hp) as (H1 & H2 & _). rewrite (proj2 (root_off_spec a p v)).
  split; intros x Hx; apply write_u32_out; lia.
Qed.

(** Which plans share a root. *)
Definition same_root (p q : MfsMapPlan) : bool := (kind p =? kind q) && (negb (kind p =? 0) || (slot1 p =? slot1 q)).

Lemma root_set p q v a :
  plan_wf p -> plan_wf q -> 0 <= v < 2^32 -> plan_root (set_root p v a) q = if same_root p q then v else plan_root a q.
Proof.
  intros Hp Hq Hv. rewrite (proj2 (root_off_spec a p v)), !(proj1 (root_off_spec _ q v)).
  destruct (root_off_range p Hp) as (_ & _ & _ & Mp), (root_off_range q Hq) as (_ & _ & _ & Mq).
  assert (if same_root p q then root_off q = root_off p else root_off q <> root_off p) as H.
  { destruct Hp as [Kp Dp _ _ _ _ _], Hq as [Kq Dq _ _ _ _ _].
    unfold same_root, root_off, MFS_FILE_IND3_OFF, MFS_FILE_IND2_OFF, MFS_FILE_IND1_OFF. change MFS_FILE_DIRECT with 1005 in *.
    destruct Kp as [Kp|[Kp|[Kp|Kp]]], Kq as [Kq|[Kq|[Kq|Kq]]]; rewrite Kp, Kq in *; cbn; try lia.
    destruct (Z.eqb_spec (slot1 p) (slot1 q)); lia. }
  destruct (same_root p q); [by rewrite H, read_write_u32|]. apply read_u32_u32.
  assert (root_off q < root_off p \/ root_off p < root_off q) as [|] by lia; Z.to_euclidean_division_equations; lia.
Qed.

(** ** What a computation keeps *)

Lemma bind_Some {D A B} (e : F D A) (k : A -> F D B) s y s2 :
  (e ≫= k) s = (Some y, s2) -> exists x s1, e s = (Some x, s1) /\ k x s1 = (Some y, s2).
Proof. unfold mbind, F_bind. destruct (e s) as [[x|] s1]; [eauto|done]. Qed.

Lemma ret_Some {D A} (x y : A) (s s' : fstate D) : (mret x : F D A) s = (Some y, s') -> x = y /\ s = s'.
Proof. unfold mret, F_ret. intros H. by apply pair_equal_spec in H as [[= ->] ->]. Qed.

Lemma plan_of_Some {D} bi p (s s' : fstate D) : plan_of bi s = (Some p, s') -> mfs_map_plan bi = Some p /\ s = s'.
Proof. unfold plan_of. destruct (mfs_map_plan bi); [|done]. intros [-> ->]%ret_Some. done. Qed.

(** Take the first step of a computation apart. *)
Tactic Notation "fstep" hyp(H) "as" ident(x) ident(s) ident(E) := apply bind_Some in H as (x & s & E & H).

Section inv.
Context {D : Type} `{!MfsDevice D, !MfsDeviceLaws D}.
Implicit Types (m : mfs D) (s : fstate D).

Definition data_ptr m (q : Z) : Prop := q = 0 \/ node_ok m MFS_MAGIC_DATA q.
Definition ref m (a : mem) (p : MfsMapPlan) : Z := walk m (plan_path p) (plan_root a p).
Definition file_wf m (a : mem) : Prop := forall p, plan_wf p -> path_ok m (plan_path p) (plan_root a p).

(** The plans whose pointer is in buffer B, and the current pointer of a plan. *)
Definition covers (c : MfsIndCache) (p : MfsMapPlan) : bool :=
  negb (c_kind c =? 0) && (c_kind c =? kind p) && (c_slot2 c =? slot2 p).
Definition cur s (p : MfsMapPlan) : Z :=
  if covers (f_cache s) p then mfs_ind_slot (f_b s) (slot1 p) else ref (f_m s) (f_a s) p.

Record fbase s : Prop := {
  fb_m : durable (f_m s);
  fb_a : byte_mem (f_a s);
  fb_b : byte_mem (f_b s);
  fb_wf : file_wf (f_m s) (f_a s)
}.

Record cache_ok s : Prop := {
  co_kind : c_kind (f_cache s) = 0 \/ c_kind (f_cache s) = 1 \/ c_kind (f_cache s) = 2;
  co_low : c_kind (f_cache s) = 1 -> c_slot2 (f_cache s) = 0;
  co_slot : ind_slot_ok (c_slot2 (f_cache s));
  co_ptr slot : c_kind (f_cache s) <> 0 -> ind_slot_ok slot -> data_ptr (f_m s) (mfs_ind_slot (f_b s) slot);
  co_clean p : c_dirty (f_cache s) = false -> plan_wf p -> covers (f_cache s) p = true ->
    mfs_ind_slot (f_b s) (slot1 p) = ref (f_m s) (f_a s) p
}.

Definition fkept s s' : Prop := grown (f_m s) (f_m s') /\ head_kept (f_a s) (f_a s').

Lemma fkept_refl s : fkept s s.
Proof. split; [apply grown_refl|apply head_refl]. Qed.
Lemma fkept_trans s1 s2 s3 : fkept s1 s2 -> fkept s2 s3 -> fkept s1 s3.
Proof. intros [G1 H1] [G2 H2]. split; [by eapply grown_trans|by eapply head_trans]. Qed.

Lemma ref_grown m m' a : grown m m' -> file_wf m a -> file_wf m' a /\ forall p, plan_wf p -> ref m' a p = ref m a p.
Proof. intros [K _ _] Hwf. split; intros p Hp; by apply (walk_kept m m' _ _ K (Hwf p Hp)). Qed.

Lemma data_ptr_grown m m' q : grown m m' -> data_ptr m q -> data_ptr m' q.
Proof. intros [K _ _] [->|H]; [by left|]. right. by apply (node_kept m). Qed.

Lemma node_u32 m magic n : durable m -> node_ok m magic n -> 0 <= n < 2^32 /\ n <> 0 /\ 0 <= n < 2^28.
Proof. intros Hd Hn. destruct (node_bound _ _ _ (w_mw _ (du_itab _ Hd)) Hn). lia. Qed.

Lemma data_ptr_u32 m q : durable m -> data_ptr m q -> 0 <= q < 2^32.
Proof. intros Hd [->|H]; [lia|]. by apply (node_u32 m _ _ Hd) in H as (? & _). Qed.

(** Reading a pointer block into B. *)
Lemma read_b_spec blk magic s s' :
  fbase s -> node_ok (f_m s) magic blk -> read_b blk magic s = (Some tt, s') ->
  fbase s' /\ fkept s s' /\ f_a s' = f_a s /\ f_cache s' = f_cache s
  /\ (forall slot, ind_slot_ok slot -> mfs_ind_slot (f_b s') slot = slot_of (f_m s) blk slot)
  /\ (forall b, mfs_view (m_io (f_m s')) b = mfs_view (m_io (f_m s)) b) /\ m_space (f_m s') = m_space (f_m s).
Proof using MfsDeviceLaws0.
  intros [Hd Ha Hb Hwf] Hn. destruct (node_u32 _ _ _ Hd Hn) as (_ & _ & Hr). unfold read_b.
  destruct (mfs_read_blk _ _ _) as [[ok b] io] eqn:E. destruct ok; cbn [negb orb]; [|done].
  destruct (mfs_ok b magic); cbn [negb]; [|done]. intros H. apply pair_equal_spec in H as [_ <-]. cbn [f_a f_b f_cache f_m].
  destruct (read_durable _ _ _ _ _ Hd Hr E) as (Hd' & Hg & Hv & Hag & Hby).
  destruct (ref_grown _ _ _ Hg Hwf) as [Hwf' _].
  split; [split; cbn; auto|]. split; [split; [exact Hg|apply head_refl]|]. split; [done|]. split; [done|].
  split; [|split; [exact Hv|reflexivity]]. intros slot Hs. apply slot_ext; [done|].
  eapply agree_sub; [exact Hag|unfold MFS_HDR; lia|lia].
Qed.

Lemma read_or_zero_spec blk magic s s' :
  fbase s -> blk = 0 \/ node_ok (f_m s) magic blk -> read_or_zero blk magic s = (Some tt, s') ->
  fbase s' /\ fkept s s' /\ f_a s' = f_a s /\ f_cache s' = f_cache s
  /\ (forall slot, ind_slot_ok slot -> mfs_ind_slot (f_b s') slot = if blk =? 0 then 0 else slot_of (f_m s) blk slot).
Proof using MfsDeviceLaws0.
  intros Hs Hblk. unfold read_or_zero. destruct (Z.eqb_spec blk 0) as [_|Hz].
  - unfold upd_b. intros H. apply pair_equal_spec in H as [_ <-]. destruct Hs as [Hd Ha Hb Hwf].
    split; [split; cbn; auto; by apply zero_bytes_mem|]. split; [split; [apply grown_refl|apply head_refl]|].
    do 2 (split; [done|]). cbn. intros slot Hsl. by apply slot_zero.
  - destruct Hblk as [|Hn]; [done|]. intros H. destruct (read_b_spec _ _ _ _ Hs Hn H) as (H1 & H2 & H3 & H4 & H5 & _). auto.
Qed.

(** Committing B. *)
Lemma commit_b_spec magic n s s' :
  fbase s -> 0 <= magic < 2^32 -> commit_b magic s = (Some n, s') ->
  fbase s' /\ fkept s s' /\ f_a s' = f_a s /\ f_cache s' = f_cache s /\ node_ok (f_m s') magic n
  /\ (forall slot, ind_slot_ok slot -> mfs_ind_slot (f_b s') slot = mfs_ind_slot (f_b s) slot)
  /\ (forall slot, ind_slot_ok slot -> slot_of (f_m s') n slot = mfs_ind_slot (f_b s) slot).
Proof using MfsDeviceLaws0.
  intros [Hd Ha Hb Hwf] Hm. unfold commit_b. destruct (mfs_commit _ _ _ _) as [[[ob b] io] p] eqn:E.
  intros H. apply pair_equal_spec in H as [-> <-]. cbn [f_a f_b f_cache f_m].
  destruct (commit_durable _ _ _ _ _ _ _ Hd Hb Hm E) as (Hd' & Hg & Hn & Eb & Hag).
  destruct (ref_grown _ _ _ Hg Hwf) as [Hwf' _].
  split; [split; cbn; auto; rewrite Eb; by apply seal_byte_mem|]. split; [split; [exact Hg|apply head_refl]|].
  do 2 (split; [done|]). split; [exact Hn|]. split.
  - intros slot Hs. rewrite Eb. apply slot_ext; [done|]. intros x Hx. apply seal_payload. lia.
  - intros slot Hs. unfold slot_of. cbn [m_io]. by apply slot_ext.
Qed.

End inv.

(** ** Changing a pointer *)

Section link.
Context {D : Type} `{!MfsDevice D, !MfsDeviceLaws D}.
Implicit Types (m : mfs D) (s : fstate D) (l : list (Z * Z)).

(** The pointer below a pointer. *)
Definition next_ptr m (p slot : Z) : Z := if p =? 0 then 0 else slot_of m p slot.

Lemma path_head m magic slot l p : path_ok m ((magic, slot) :: l) p -> p = 0 \/ node_ok m magic p.
Proof. intros [H|[H _]]; auto. Qed.
Lemma path_next m magic slot l p : path_ok m ((magic, slot) :: l) p -> path_ok m l (next_ptr m p slot).
Proof.
  unfold next_ptr. intros [->|[_ H]]; [apply path_zero|]. destruct (p =? 0); [apply path_zero|exact H].
Qed.
Lemma walk_next m magic slot l p : walk m ((magic, slot) :: l) p = walk m l (next_ptr m p slot).
Proof. unfold next_ptr. cbn. destruct (p =? 0); [by rewrite walk_zero|done]. Qed.

(** A copy of pointer block [p] in which slot [sl] leads to [q]. *)
Lemma cow_slot m m' magic p n sl q :
  grown m m' -> durable m' -> node_ok m' magic n ->
  (forall sl', ind_slot_ok sl' -> slot_of m' n sl' = if sl' =? sl then q else next_ptr m p sl') ->
  forall l sl', ind_slot_ok sl' -> path_ok m ((magic, sl') :: l) p -> (sl' = sl -> path_ok m' l q) ->
    path_ok m' ((magic, sl') :: l) n
    /\ walk m' ((magic, sl') :: l) n = if sl' =? sl then walk m' l q else walk m ((magic, sl') :: l) p.
Proof using MfsDeviceLaws0.
  intros [K _ _] Hd Hn Hslots l sl' Hs Hp Hq. destruct (node_u32 _ _ _ Hd Hn) as (_ & Hz & _).
  pose proof (path_next _ _ _ _ _ Hp) as Hnext. rewrite (walk_next m). cbn [path_ok walk].
  rewrite (proj2 (Z.eqb_neq n 0)), Hslots by done. destruct (Z.eqb_spec sl' sl) as [E|_].
  - split; [right; split; [done|by apply Hq]|done].
  - destruct (walk_kept m m' l _ K Hnext) as [-> Hok]. split; [by right|done].
Qed.

(** Replacing the root of one of the trees. *)
Definition root_plan (k : Z) : MfsMapPlan := mk_plan k 0 0 0.

Lemma root_plan_wf k : k = 1 \/ k = 2 \/ k = 3 -> plan_wf (root_plan k).
Proof. intros H. split; unfold ind_slot_ok; cbn; change MFS_IND_CAP with 1022; lia. Qed.

Lemma set_root_spec m a k v :
  k = 1 \/ k = 2 \/ k = 3 -> 0 <= v < 2^32 -> file_wf m a -> byte_mem a ->
  (forall q, plan_wf q -> kind q = k -> path_ok m (plan_path q) v) ->
  let a' := set_root (root_plan k) v a in
  file_wf m a' /\ byte_mem a' /\ head_kept a a'
  /\ forall q, plan_wf q -> ref m a' q = if kind q =? k then walk m (plan_path q) v else ref m a q.
Proof.
  intros Hk Hv Hwf Ha Hpath a'. pose proof (root_plan_wf k Hk) as Hp.
  assert (forall q, plan_wf q -> plan_root a' q = if kind q =? k then v else plan_root a q) as Hr.
  { intros q Hq. unfold a'. rewrite (root_set _ _ _ _ Hp Hq Hv). unfold same_root. cbn [kind slot1 root_plan].
    rewrite (proj2 (Z.eqb_neq k 0)) by lia. cbn [negb orb]. by rewrite andb_true_r, Z.eqb_sym. }
  split; [|split; [|split; [by apply head_set_root|]]].
  - intros q Hq. rewrite (Hr q Hq). destruct (Z.eqb_spec (kind q) k); auto.
  - unfold a'. rewrite (proj2 (root_off_spec a (root_plan k) v)). by apply byte_mem_write_u32.
  - intros q Hq. unfold ref. rewrite (Hr q Hq). by destruct (kind q =? k).
Qed.

Lemma upd_a_spec (f : mem -> mem) s s' :
  upd_a f s = (Some tt, s') -> f_a s' = f (f_a s) /\ f_b s' = f_b s /\ f_cache s' = f_cache s /\ f_m s' = f_m s.
Proof. unfold upd_a. intros H. by apply pair_equal_spec in H as [_ <-]. Qed.
Lemma upd_b_spec (f : mem -> mem) s s' :
  upd_b f s = (Some tt, s') -> f_a s' = f_a s /\ f_b s' = f (f_b s) /\ f_cache s' = f_cache s /\ f_m s' = f_m s.
Proof. unfold upd_b. intros H. by apply pair_equal_spec in H as [_ <-]. Qed.
Lemma set_cache_spec c s s' :
  set_cache c s = (Some tt, s') -> f_a s' = f_a s /\ f_b s' = f_b s /\ f_cache s' = c /\ f_m s' = f_m s.
Proof. unfold set_cache. intros H. by apply pair_equal_spec in H as [_ <-]. Qed.
Lemma get_a_spec a s s' : get_a s = (Some a, s') -> a = f_a s /\ s' = s.
Proof. unfold get_a. intros H. by apply pair_equal_spec in H as [[= <-] <-]. Qed.
Lemma get_b_spec b s s' : get_b s = (Some b, s') -> b = f_b s /\ s' = s.
Proof. unfold get_b. intros H. by apply pair_equal_spec in H as [[= <-] <-]. Qed.
Lemma get_cache_spec c s s' : get_cache s = (Some c, s') -> c = f_cache s /\ s' = s.
Proof. unfold get_cache. intros H. by apply pair_equal_spec in H as [[= <-] <-]. Qed.
Lemma require_spec c s s' : require c s = (Some tt, s') -> c = true /\ s' = s.
Proof. unfold require. destruct c; [|done]. intros H. by apply ret_Some in H as [_ <-]. Qed.

(** Setting the root of a tree in buffer A. *)
Lemma upd_root_spec k v s s' :
  k = 1 \/ k = 2 \/ k = 3 -> fbase s -> 0 <= v < 2^32 ->
  (forall q, plan_wf q -> kind q = k -> path_ok (f_m s) (plan_path q) v) ->
  upd_a (set_root (root_plan k) v) s = (Some tt, s') ->
  fbase s' /\ fkept s s' /\ f_b s' = f_b s /\ f_cache s' = f_cache s /\ f_m s' = f_m s
  /\ forall q, plan_wf q -> ref (f_m s') (f_a s') q = if kind q =? k then walk (f_m s) (plan_path q) v else ref (f_m s) (f_a s) q.
Proof.
  intros Hk [Hd Ha Hb Hwf] Hv Hpath E. apply upd_a_spec in E as (Ea & Eb & Ec & Em).
  destruct (set_root_spec _ _ k v Hk Hv Hwf Ha Hpath) as (H1 & H2 & H3 & H4).
  split; [split; rewrite ?Em, ?Ea, ?Eb; done|]. split; [split; [rewrite Em; apply grown_refl|by rewrite Ea]|].
  do 3 (split; [done|]). by rewrite Em, Ea.
Qed.

Lemma plan_path_1 q : kind q = 1 -> plan_path q = [(MFS_MAGIC_IND, slot1 q)].
Proof. unfold plan_path. by intros ->. Qed.
Lemma plan_path_2 q : kind q = 2 -> plan_path q = [(MFS_MAGIC_IND2, slot2 q); (MFS_MAGIC_IND, slot1 q)].
Proof. unfold plan_path. by intros ->. Qed.
Lemma plan_path_3 q : kind q = 3 -> plan_path q = [(MFS_MAGIC_IND3, slot3 q); (MFS_MAGIC_IND2, slot2 q); (MFS_MAGIC_IND, slot1 q)].
Proof. unfold plan_path. by intros ->. Qed.

End link.

(** ** The pointer-block cache *)

Section cache.
Context {D : Type} `{!MfsDevice D, !MfsDeviceLaws D}.
Implicit Types (m : mfs D) (s : fstate D).

Lemma covers_spec c p : covers c p = true <-> c_kind c <> 0 /\ c_kind c = kind p /\ c_slot2 c = slot2 p.
Proof. unfold covers. rewrite !andb_true_iff, negb_true_iff, Z.eqb_neq, !Z.eqb_eq. tauto. Qed.

(** The plan of slot [i] of the cached block. *)
Definition cached_plan (c : MfsIndCache) (i : Z) : MfsMapPlan := mk_plan (c_kind c) 0 (c_slot2 c) i.

Lemma cached_plan_wf c i :
  c_kind c = 1 \/ c_kind c = 2 -> (c_kind c = 1 -> c_slot2 c = 0) -> ind_slot_ok (c_slot2 c) -> ind_slot_ok i ->
  plan_wf (cached_plan c i) /\ covers c (cached_plan c i) = true.
Proof.
  unfold ind_slot_ok. change MFS_IND_CAP with 1022. intros Hk Hl Hs Hi.
  split; [split; unfold ind_slot_ok; cbn; change MFS_IND_CAP with 1022; lia|]. apply covers_spec. cbn. lia.
Qed.

(** A cache whose buffer agrees with the tree. *)
Lemma fresh_cache s :
  fbase s -> c_kind (f_cache s) = 0 \/ c_kind (f_cache s) = 1 \/ c_kind (f_cache s) = 2 ->
  (c_kind (f_cache s) = 1 -> c_slot2 (f_cache s) = 0) -> ind_slot_ok (c_slot2 (f_cache s)) ->
  (forall p, plan_wf p -> covers (f_cache s) p = true -> mfs_ind_slot (f_b s) (slot1 p) = ref (f_m s) (f_a s) p) ->
  cache_ok s /\ forall p, plan_wf p -> cur s p = ref (f_m s) (f_a s) p.
Proof.
  intros Hs Hk Hl Hsl Hag. split.
  - split; [done|done|done| |auto]. intros i Hz Hi.
    destruct (cached_plan_wf (f_cache s) i ltac:(tauto) Hl Hsl Hi) as [Hp Hc].
    rewrite (Hag _ Hp Hc : mfs_ind_slot (f_b s) i = _). apply path_walk_ok, (fb_wf _ Hs), Hp.
  - intros p Hp. unfold cur. destruct (covers _ p) eqn:E; [by apply Hag|done].
Qed.

(** After a flush that had nothing to write. *)
Lemma clean_cur s p : cache_ok s -> c_dirty (f_cache s) = false -> plan_wf p -> cur s p = ref (f_m s) (f_a s) p.
Proof. intros Hc Hd Hp. unfold cur. destruct (covers _ p) eqn:E; [by apply (co_clean _ Hc)|done]. Qed.

Lemma flush_one n s s1 :
  fbase s -> cache_ok s -> c_kind (f_cache s) = 1 -> commit_b MFS_MAGIC_IND s = (Some n, s1) ->
  forall s', upd_a (mfs_file_set_ind1 n) s1 = (Some tt, s') ->
  fbase s' /\ fkept s s' /\ f_cache s' = f_cache s
  /\ (forall slot, ind_slot_ok slot -> mfs_ind_slot (f_b s') slot = mfs_ind_slot (f_b s) slot)
  /\ forall p, plan_wf p -> ref (f_m s') (f_a s') p = cur s p.
Proof using MfsDeviceLaws0.
  intros Hs Hc Hk E s' E'. destruct (commit_b_spec MFS_MAGIC_IND _ _ _ Hs ltac:(done) E) as (Hs1 & K1 & Ea & Ec & Hn & Hb & Hsl).
  destruct (node_u32 _ _ _ (fb_m _ Hs1) Hn) as (Hn32 & Hz & _).
  assert (forall q, plan_wf q -> kind q = 1 ->
            path_ok (f_m s1) (plan_path q) n /\ walk (f_m s1) (plan_path q) n = cur s q) as Htree.
  { intros q Hq Hkq. rewrite (plan_path_1 q Hkq). cbn. rewrite (proj2 (Z.eqb_neq n 0)) by done.
    pose proof (pw_slot1 _ Hq ltac:(lia)) as Hi. rewrite Hsl by done.
    assert (covers (f_cache s) q = true) as Hcov.
    { apply covers_spec. rewrite Hk, Hkq, (co_low _ Hc Hk). split; [done|]. split; [done|]. symmetry. apply (pw_low2 _ Hq). lia. }
    unfold cur. rewrite Hcov. split; [|done]. right. split; [done|].
    apply (data_ptr_grown (f_m s)); [apply K1|]. apply (co_ptr _ Hc); [lia|done]. }
  destruct (upd_root_spec 1 n s1 s' ltac:(auto) Hs1 Hn32 ltac:(intros; by apply Htree) E')
    as (Hs' & K' & Eb' & Ec' & Em' & Href).
  split; [done|]. split; [by eapply fkept_trans|]. split; [congruence|]. split; [intros; rewrite Eb'; auto|].
  intros p Hp. rewrite (Href p Hp). destruct (Z.eqb_spec (kind p) 1) as [E1|E1]; [by apply Htree|].
  rewrite Ea. unfold cur. assert (covers (f_cache s) p = false) as ->.
  { apply not_true_iff_false. rewrite covers_spec. lia. }
  by apply (ref_grown (f_m s)); [apply K1|apply (fb_wf _ Hs)|].
Qed.

(** A copy of pointer block [p] of state [m0] in which one slot is changed, written to block [n]. *)
Lemma cow_commit m0 magic p sl q n s0 s1 s2 s3 :
  fbase s0 -> grown m0 (f_m s0) -> p = 0 \/ node_ok m0 magic p -> 0 <= q < 2^32 -> 0 <= magic < 2^32 ->
  read_or_zero p magic s0 = (Some tt, s1) -> upd_b (mfs_ind_set_slot sl q) s1 = (Some tt, s2) ->
  commit_b magic s2 = (Some n, s3) ->
  fbase s3 /\ fkept s0 s3 /\ f_a s3 = f_a s0 /\ f_cache s3 = f_cache s0 /\ node_ok (f_m s3) magic n
  /\ forall l sl', ind_slot_ok sl' -> path_ok m0 ((magic, sl') :: l) p -> (sl' = sl -> path_ok (f_m s3) l q) ->
       path_ok (f_m s3) ((magic, sl') :: l) n
       /\ walk (f_m s3) ((magic, sl') :: l) n = if sl' =? sl then walk (f_m s3) l q else walk m0 ((magic, sl') :: l) p.
Proof using MfsDeviceLaws0.
  intros Hs0 G0 Hp Hq Hm E1 E2 E3.
  assert (p = 0 \/ node_ok (f_m s0) magic p) as Hp0.
  { destruct Hp as [|Hp]; [by left|right]. exact (node_kept _ _ _ _ (gr_data _ _ G0) Hp). }
  destruct (read_or_zero_spec _ _ _ _ Hs0 Hp0 E1) as (Hs1 & K1 & Ea1 & Ec1 & Hsl1).
  apply upd_b_spec in E2 as (Ea2 & Eb2 & Ec2 & Em2).
  assert (fbase s2) as Hs2.
  { destruct Hs1 as [H1 H2 H3 H4]. split; rewrite ?Em2, ?Ea2, ?Eb2; auto. by apply byte_mem_write_u32. }
  destruct (commit_b_spec magic n s2 s3 Hs2 Hm E3) as (Hs3 & K3 & Ea3 & Ec3 & Hn & _ & Hsl3).
  assert (fkept s1 s3) as K13.
  { split; [rewrite <- Em2; apply K3|]. rewrite Ea3, Ea2. apply head_refl. }
  pose proof (fkept_trans _ _ _ K1 K13) as K. split; [exact Hs3|]. split; [exact K|].
  split; [congruence|]. split; [congruence|]. split; [exact Hn|].
  apply cow_slot; [exact (grown_trans _ _ _ G0 (proj1 K))|apply (fb_m _ Hs3)|exact Hn|].
  intros i Hi. rewrite Hsl3 by exact Hi. rewrite Eb2, (slot_set _ _ _ _ Hq). destruct (i =? sl); [reflexivity|].
  rewrite Hsl1 by exact Hi. unfold next_ptr. destruct (Z.eqb_spec p 0) as [|Hz]; [reflexivity|].
  destruct Hp as [|Hp]; [contradiction|]. exact (slot_kept _ _ _ _ _ (gr_data _ _ G0) Hp).
Qed.

Lemma flush_two n1 n2 s s1 s2 s3 s4 :
  fbase s -> cache_ok s -> c_kind (f_cache s) = 2 -> commit_b MFS_MAGIC_IND s = (Some n1, s1) ->
  mfs_file_ind2 (f_a s1) <> 0 -> read_b (mfs_file_ind2 (f_a s1)) MFS_MAGIC_IND2 s1 = (Some tt, s2) ->
  upd_b (mfs_ind_set_slot (c_slot2 (f_cache s)) n1) s2 = (Some tt, s3) -> commit_b MFS_MAGIC_IND2 s3 = (Some n2, s4) ->
  forall s', upd_a (mfs_file_set_ind2 n2) s4 = (Some tt, s') ->
  fbase s' /\ fkept s s' /\ f_cache s' = f_cache s /\ forall p, plan_wf p -> ref (f_m s') (f_a s') p = cur s p.
Proof using MfsDeviceLaws0.
  intros Hs Hc Hk E1 Hz E2 E3 E4 s' E'.
  destruct (commit_b_spec MFS_MAGIC_IND _ _ _ Hs ltac:(done) E1) as (Hs1 & K1 & Ea1 & Ec1 & Hn1 & _ & Hsl1).
  rewrite Ea1 in Hz, E2. set (l2 := mfs_file_ind2 (f_a s)) in *. set (k := c_slot2 (f_cache s)) in *.
  assert (ind_slot_ok k) as Hk2 by apply (co_slot _ Hc).
  destruct (node_u32 _ _ _ (fb_m _ Hs1) Hn1) as (Hn132 & Hz1 & _).
  assert (forall i j, ind_slot_ok i -> ind_slot_ok j -> path_ok (f_m s) [(MFS_MAGIC_IND2, i); (MFS_MAGIC_IND, j)] l2) as Hp2.
  { intros i j Hi Hj. apply (fb_wf _ Hs (mk_plan 2 0 i j)). split; cbn; try lia; assumption || by auto. }
  assert (read_or_zero l2 MFS_MAGIC_IND2 s1 = (Some tt, s2)) as E2'
    by (unfold read_or_zero; by rewrite (proj2 (Z.eqb_neq l2 0) Hz)).
  destruct (cow_commit (f_m s) MFS_MAGIC_IND2 l2 k n1 n2 s1 s2 s3 s4 Hs1 (proj1 K1) (path_head _ _ _ _ _ (Hp2 k k Hk2 Hk2))
              Hn132 ltac:(done) E2' E3 E4) as (Hs4 & K4 & Ea4 & Ec4 & Hn2 & Hcow).
  assert (forall j, ind_slot_ok j -> path_ok (f_m s4) [(MFS_MAGIC_IND, j)] n1
            /\ walk (f_m s4) [(MFS_MAGIC_IND, j)] n1 = mfs_ind_slot (f_b s) j) as Hone.
  { intros j Hj. assert (path_ok (f_m s1) [(MFS_MAGIC_IND, j)] n1) as Hp1.
    { right. split; [exact Hn1|]. rewrite Hsl1 by exact Hj. apply (data_ptr_grown (f_m s)); [apply K1|].
      apply (co_ptr _ Hc); [lia|exact Hj]. }
    destruct (walk_kept _ (f_m s4) _ _ (gr_data _ _ (proj1 K4)) Hp1) as [-> Hok]. split; [exact Hok|]. cbn.
    rewrite (proj2 (Z.eqb_neq n1 0) Hz1). by apply Hsl1. }
  assert (forall q, plan_wf q -> kind q = 2 ->
            path_ok (f_m s4) (plan_path q) n2 /\ walk (f_m s4) (plan_path q) n2 = cur s q) as Htree.
  { intros q Hq Hkq. rewrite (plan_path_2 q Hkq). pose proof (pw_slot1 _ Hq ltac:(lia)) as Hj. pose proof (pw_slot2 _ Hq) as Hi.
    destruct (Hcow [(MFS_MAGIC_IND, slot1 q)] (slot2 q) Hi (Hp2 _ _ Hi Hj)) as [Hok Hw]; [intros _; apply (Hone _ Hj)|].
    split; [exact Hok|]. rewrite Hw. unfold cur, ref. rewrite (plan_path_2 q Hkq).
    unfold covers. rewrite Hk, Hkq. fold k. rewrite (Z.eqb_sym k). cbn [Z.eqb Pos.eqb negb andb].
    destruct (slot2 q =? k); [apply (Hone _ Hj)|]. unfold plan_root. rewrite Hkq. reflexivity. }
  assert (0 <= n2 < 2^32) as Hn232 by apply (node_u32 _ _ _ (fb_m _ Hs4) Hn2).
  destruct (upd_root_spec 2 n2 s4 s' ltac:(auto) Hs4 Hn232 (fun q Hq Hk => proj1 (Htree q Hq Hk)) E')
    as (Hs' & K' & _ & Ec' & Em' & Href).
  pose proof (fkept_trans _ _ _ K1 K4) as K14. split; [exact Hs'|]. split; [exact (fkept_trans _ _ _ K14 K')|].
  split; [congruence|]. intros p Hp. rewrite (Href p Hp).
  destruct (Z.eqb_spec (kind p) 2) as [Ek|Ek]; [exact (proj2 (Htree p Hp Ek))|].
  rewrite Ea4, Ea1. unfold cur. assert (covers (f_cache s) p = false) as ->.
  { apply not_true_iff_false. rewrite covers_spec. lia. }
  exact (proj2 (ref_grown _ _ _ (proj1 K14) (fb_wf _ Hs)) p Hp).
Qed.

(** Writing the cached block back: the tree alone now has every pointer. A two-level flush leaves
    the second-level block in B. *)
Lemma ind_flush_spec s s' :
  fbase s -> cache_ok s -> mfs_ind_flush s = (Some tt, s') ->
  fbase s' /\ fkept s s' /\ (forall p, plan_wf p -> ref (f_m s') (f_a s') p = cur s p)
  /\ c_kind (f_cache s') = c_kind (f_cache s) /\ c_slot2 (f_cache s') = c_slot2 (f_cache s)
  /\ (c_kind (f_cache s) <> 2 \/ c_dirty (f_cache s) = false ->
      cache_ok s' /\ forall p, plan_wf p -> cur s' p = ref (f_m s') (f_a s') p).
Proof using MfsDeviceLaws0.
  intros Hs Hc E. unfold mfs_ind_flush in E. fstep E as c s0 E0. apply get_cache_spec in E0 as [-> ->].
  destruct (Z.eqb_spec (c_kind (f_cache s)) 0) as [Hz|Hz]; cbn [orb] in E.
  { apply ret_Some in E as [_ <-]. assert (forall p, cur s p = ref (f_m s) (f_a s) p) as Hcur by (intros p; unfold cur, covers; by rewrite Hz).
    split; [exact Hs|]. split; [apply fkept_refl|]. split; [done|]. split; [done|]. split; [done|]. done. }
  destruct (c_dirty (f_cache s)) eqn:Ed; cbn [negb] in E.
  2: { apply ret_Some in E as [_ <-]. pose proof (fun p => clean_cur s p Hc Ed) as Hcur. split; [exact Hs|]. split; [apply fkept_refl|].
       split; [intros p Hp; symmetry; by apply Hcur|]. split; [done|]. split; [done|]. done. }
  fstep E as n1 s1 E1. fstep E as u s2 E2. destruct u. apply set_cache_spec in E as (Ea & Eb & Ec & Em).
  assert (forall t, fbase t -> f_a s' = f_a t -> f_b s' = f_b t -> f_m s' = f_m t -> fbase s') as Hmove
    by (intros t [H1 H2 H3 H4] Ha Hb Hm; split; rewrite ?Ha, ?Hb, ?Hm; assumption).
  rewrite Ec. cbn [c_kind c_slot2].
  destruct (co_kind _ Hc) as [|[Hk|Hk]]; [contradiction| |]; rewrite Hk in E2; cbn [Z.eqb Pos.eqb] in E2.
  - destruct (flush_one _ _ _ Hs Hc Hk E1 _ E2) as (Hs2 & K & Ec2 & Hb & Href).
    pose proof (Hmove _ Hs2 Ea Eb Em) as Hs'. split; [exact Hs'|]. unfold fkept. rewrite Ea, Em. split; [exact K|].
    split; [exact Href|]. split; [reflexivity|]. split; [reflexivity|]. intros _.
    rewrite <- Ea, <- Em. apply fresh_cache; [exact Hs'| | |..]; rewrite ?Ec; cbn [c_kind c_slot2]; [apply (co_kind _ Hc)|apply (co_low _ Hc)|apply (co_slot _ Hc)|].
    intros p Hp Hcov. rewrite Ea, Em, Eb, (Href p Hp). unfold cur. unfold covers in *. cbn [c_kind c_slot2] in Hcov. rewrite Hcov.
    apply Hb, (pw_slot1 _ Hp). apply andb_prop in Hcov as [Hcov _]. apply andb_prop in Hcov as [_ Hcov]. bool_to_prop. lia.
  - fstep E2 as a s3 E3. apply get_a_spec in E3 as [-> ->]. fstep E2 as u1 s3 E3. destruct u1. apply require_spec in E3 as [Hl ->].
    fstep E2 as u2 s4 E4. destruct u2. fstep E2 as u3 s5 E5. destruct u3. fstep E2 as n2 s6 E6.
    apply negb_true_iff, Z.eqb_neq in Hl.
    destruct (flush_two _ _ _ _ _ _ _ Hs Hc Hk E1 Hl E4 E5 E6 _ E2) as (Hs2 & K & Ec2 & Href).
    split; [exact (Hmove _ Hs2 Ea Eb Em)|]. unfold fkept. rewrite Ea, Em. split; [exact K|]. split; [exact Href|].
    split; [reflexivity|]. split; [reflexivity|]. intros [|]; [contradiction|discriminate].
Qed.

(** A new, empty second-level block changes no pointer. *)
Lemma new_ind2_spec s s1 s2 n :
  fbase s -> mfs_file_ind2 (f_a s) = 0 -> upd_b (zero_bytes 0 (Z.to_nat MFS_BLOCK)) s = (Some tt, s1) ->
  commit_b MFS_MAGIC_IND2 s1 = (Some n, s2) ->
  forall s', upd_a (mfs_file_set_ind2 n) s2 = (Some tt, s') ->
  fbase s' /\ fkept s s' /\ f_cache s' = f_cache s
  /\ (forall p, plan_wf p -> ref (f_m s') (f_a s') p = ref (f_m s) (f_a s) p)
  /\ forall i, ind_slot_ok i -> mfs_ind_slot (f_b s') i = 0 /\ next_ptr (f_m s') (mfs_file_ind2 (f_a s')) i = 0.
Proof using MfsDeviceLaws0.
  intros Hs Hz E1 E2 s' E'. apply upd_b_spec in E1 as (Ea1 & Eb1 & Ec1 & Em1).
  assert (fbase s1) as Hs1.
  { destruct Hs as [H1 H2 H3 H4]. split; rewrite ?Em1, ?Ea1, ?Eb1; auto. by apply zero_bytes_mem. }
  destruct (commit_b_spec MFS_MAGIC_IND2 _ _ _ Hs1 ltac:(done) E2) as (Hs2 & K2 & Ea2 & Ec2 & Hn & Hb2 & Hsl).
  destruct (node_u32 _ _ _ (fb_m _ Hs2) Hn) as (Hn32 & Hnz & _).
  assert (forall i, ind_slot_ok i -> slot_of (f_m s2) n i = 0) as Hzero
    by (intros i Hi; rewrite (Hsl i Hi), Eb1; by apply slot_zero).
  assert (forall q, plan_wf q -> kind q = 2 -> path_ok (f_m s2) (plan_path q) n /\ walk (f_m s2) (plan_path q) n = 0) as Htree.
  { intros q Hq Hk. rewrite (plan_path_2 q Hk). cbn. rewrite (proj2 (Z.eqb_neq n 0) Hnz), (Hzero _ (pw_slot2 _ Hq)).
    split; [right; split; [exact Hn|by left]|done]. }
  destruct (upd_root_spec 2 n s2 s' ltac:(auto) Hs2 Hn32 (fun q Hq Hk => proj1 (Htree q Hq Hk)) E')
    as (Hs' & K' & Eb' & Ec' & Em' & Href).
  assert (fkept s s2) as K by (split; [rewrite <- Em1; apply K2|rewrite Ea2, Ea1; apply head_refl]).
  split; [exact Hs'|]. split; [exact (fkept_trans _ _ _ K K')|]. split; [congruence|]. split.
  - intros p Hp. rewrite (Href p Hp). destruct (Z.eqb_spec (kind p) 2) as [Hk|Hk].
    + rewrite (proj2 (Htree p Hp Hk)). unfold ref, plan_root. rewrite Hk. cbn [Z.eqb Pos.eqb]. rewrite Hz. by rewrite walk_zero.
    + rewrite Ea2, Ea1. exact (proj2 (ref_grown _ _ _ (proj1 K) (fb_wf _ Hs)) p Hp).
  - intros i Hi. split; [rewrite Eb', (Hb2 i Hi), Eb1; by apply slot_zero|].
    apply upd_a_spec in E' as (Ea' & _). assert (mfs_file_ind2 (f_a s') = n) as ->.
    { rewrite Ea'. unfold mfs_file_ind2, mfs_file_set_ind2. by apply read_write_u32. }
    unfold next_ptr. rewrite (proj2 (Z.eqb_neq n 0) Hnz), Em'. by apply Hzero.
Qed.

End cache.

(** ** Looking up and changing pointers while writing *)

Section pointers.
Context {D : Type} `{!MfsDevice D, !MfsDeviceLaws D}.
Implicit Types (m : mfs D) (s : fstate D).

(** The last step of a load: the first-level block comes into B and becomes the cached one. *)
Lemma load_finish x c s s1 s' :
  fbase s -> c_kind c = 1 \/ c_kind c = 2 -> (c_kind c = 1 -> c_slot2 c = 0) -> ind_slot_ok (c_slot2 c) ->
  x = 0 \/ node_ok (f_m s) MFS_MAGIC_IND x ->
  (forall q, plan_wf q -> covers c q = true -> ref (f_m s) (f_a s) q = next_ptr (f_m s) x (slot1 q)) ->
  read_or_zero x MFS_MAGIC_IND s = (Some tt, s1) -> set_cache c s1 = (Some tt, s') ->
  fbase s' /\ cache_ok s' /\ fkept s s' /\ f_cache s' = c /\ forall q, plan_wf q -> cur s' q = ref (f_m s) (f_a s) q.
Proof using MfsDeviceLaws0.
  intros Hs Hk Hl Hi Hx Href E1 E2. destruct (read_or_zero_spec _ _ _ _ Hs Hx E1) as (Hs1 & K1 & Ea1 & Ec1 & Hsl).
  apply set_cache_spec in E2 as (Ea & Eb & Ec & Em).
  assert (fbase s') as Hs' by (destruct Hs1; split; rewrite ?Ea, ?Eb, ?Em; assumption).
  assert (forall q, plan_wf q -> ref (f_m s') (f_a s') q = ref (f_m s) (f_a s) q) as Hsame.
  { intros q Hq. rewrite Em, Ea, Ea1. exact (proj2 (ref_grown _ _ _ (proj1 K1) (fb_wf _ Hs)) q Hq). }
  destruct (fresh_cache s' Hs') as [Hc Hcur]; [rewrite Ec; lia|by rewrite Ec|by rewrite Ec| |].
  { intros q Hq Hcov. rewrite Ec in Hcov. rewrite (Hsame q Hq), (Href q Hq Hcov), Eb.
    apply Hsl, (pw_slot1 _ Hq). apply covers_spec in Hcov. lia. }
  split; [exact Hs'|]. split; [exact Hc|]. split.
  { unfold fkept. rewrite Em, Ea. exact K1. }
  split; [exact Ec|]. intros q Hq. rewrite (Hcur q Hq). exact (Hsame q Hq).
Qed.

(** The second-level block of a load, in B. *)
Lemma load_ind2 s s' :
  fbase s ->
  (if mfs_file_ind2 (f_a s) =? 0 then
     upd_b (zero_bytes 0 (Z.to_nat MFS_BLOCK));; l2 ← commit_b MFS_MAGIC_IND2; upd_a (mfs_file_set_ind2 l2)
   else read_b (mfs_file_ind2 (f_a s)) MFS_MAGIC_IND2) s = (Some tt, s') ->
  fbase s' /\ fkept s s' /\ (forall p, plan_wf p -> ref (f_m s') (f_a s') p = ref (f_m s) (f_a s) p)
  /\ forall i, ind_slot_ok i -> mfs_ind_slot (f_b s') i = next_ptr (f_m s') (mfs_file_ind2 (f_a s')) i.
Proof using MfsDeviceLaws0.
  intros Hs. destruct (Z.eqb_spec (mfs_file_ind2 (f_a s)) 0) as [Hz|Hz]; intros E.
  - fstep E as u s1 E1. destruct u. fstep E as n s2 E2.
    destruct (new_ind2_spec _ _ _ _ Hs Hz E1 E2 _ E) as (Hs' & K & _ & Href & Hi).
    split; [exact Hs'|]. split; [exact K|]. split; [exact Href|]. intros i Hi'. destruct (Hi i Hi') as [-> ->]. reflexivity.
  - pose proof (fb_wf _ Hs _ (root_plan_wf 2 ltac:(lia))) as Hp. rewrite (plan_path_2 (root_plan 2) eq_refl) in Hp.
    destruct (path_head _ _ _ _ _ Hp) as [Hn|Hn]; [contradiction|]. change (plan_root _ _) with (mfs_file_ind2 (f_a s)) in Hn.
    destruct (read_b_spec _ _ _ _ Hs Hn E) as (Hs' & K & Ea & _ & Hsl & _). split; [exact Hs'|]. split; [exact K|]. rewrite Ea. split.
    + intros p Hpw. exact (proj2 (ref_grown _ _ _ (proj1 K) (fb_wf _ Hs)) p Hpw).
    + intros i Hi. rewrite (Hsl i Hi). unfold next_ptr. rewrite (proj2 (Z.eqb_neq _ 0) Hz). symmetry.
      exact (slot_kept _ _ _ _ _ (gr_data _ _ (proj1 K)) Hn).
Qed.

(** Finding the first-level block of a group; [x] is its number. *)
Lemma load_group p s s' :
  plan_wf p -> kind p = 1 \/ kind p = 2 -> fbase s ->
  (if kind p =? 1 then read_or_zero (mfs_file_ind1 (f_a s)) MFS_MAGIC_IND
   else
     (if mfs_file_ind2 (f_a s) =? 0 then
        upd_b (zero_bytes 0 (Z.to_nat MFS_BLOCK));; l2 ← commit_b MFS_MAGIC_IND2; upd_a (mfs_file_set_ind2 l2)
      else read_b (mfs_file_ind2 (f_a s)) MFS_MAGIC_IND2);;
     b ← get_b;
     read_or_zero (mfs_ind_slot b (slot2 p)) MFS_MAGIC_IND) s = (Some tt, s') ->
  exists t x, fbase t /\ fkept s t /\ (forall q, plan_wf q -> ref (f_m t) (f_a t) q = ref (f_m s) (f_a s) q)
    /\ (x = 0 \/ node_ok (f_m t) MFS_MAGIC_IND x) /\ read_or_zero x MFS_MAGIC_IND t = (Some tt, s')
    /\ forall q, plan_wf q -> covers (mk_cache (kind p) (slot2 p) false) q = true ->
         ref (f_m t) (f_a t) q = next_ptr (f_m t) x (slot1 q).
Proof using MfsDeviceLaws0.
  intros Hp [Hk|Hk] Hs E; rewrite Hk in *; cbn [Z.eqb Pos.eqb] in E.
  - exists s, (mfs_file_ind1 (f_a s)). pose proof (fb_wf _ Hs p Hp) as Hp1. rewrite (plan_path_1 p Hk) in Hp1.
    apply path_head in Hp1. unfold plan_root in Hp1. rewrite Hk in Hp1. split; [exact Hs|]. split; [apply fkept_refl|].
    split; [reflexivity|]. split; [exact Hp1|]. split; [exact E|].
    intros q Hq Hcq. apply covers_spec in Hcq as (_ & Hkq & _). cbn [c_kind] in Hkq.
    unfold ref. rewrite (plan_path_1 q (eq_sym Hkq)), walk_next. unfold plan_root. rewrite <- Hkq. reflexivity.
  - fstep E as u t Et. destruct u. destruct (load_ind2 _ _ Hs Et) as (Ht & Kt & Hreft & Hslot).
    fstep E as b t1 Eb. apply get_b_spec in Eb as [-> ->]. exists t, (mfs_ind_slot (f_b t) (slot2 p)).
    split; [exact Ht|]. split; [exact Kt|]. split; [exact Hreft|]. split; [|split; [exact E|]].
    + pose proof (fb_wf _ Ht p Hp) as Hp2. rewrite (plan_path_2 p Hk) in Hp2. apply path_next in Hp2.
      unfold plan_root in Hp2. rewrite Hk in Hp2. cbn [Z.eqb Pos.eqb] in Hp2. rewrite <- (Hslot _ (pw_slot2 _ Hp)) in Hp2.
      exact (path_head _ _ _ _ _ Hp2).
    + intros q Hq Hcq. apply covers_spec in Hcq as (_ & Hkq & Hsq). cbn [c_kind c_slot2] in Hkq, Hsq.
      unfold ref. rewrite (plan_path_2 q (eq_sym Hkq)), !walk_next. unfold plan_root. rewrite <- Hkq. cbn [Z.eqb Pos.eqb walk].
      rewrite <- Hsq, <- (Hslot _ (pw_slot2 _ Hp)). reflexivity.
Qed.

Lemma ind_load_spec bi p s s' :
  0 <= bi -> mfs_map_plan bi = Some p -> kind p = 1 \/ kind p = 2 -> fbase s -> cache_ok s ->
  mfs_ind_load bi s = (Some tt, s') ->
  fbase s' /\ cache_ok s' /\ fkept s s' /\ covers (f_cache s') p = true /\ forall q, plan_wf q -> cur s' q = cur s q.
Proof using MfsDeviceLaws0.
  intros Hbi Hp Hk Hs Hc E. destruct (plan_spec _ _ Hbi Hp) as [Hpw _]. unfold mfs_ind_load in E.
  fstep E as p0 s0 E0. apply plan_of_Some in E0 as [E0 <-]. rewrite Hp in E0. injection E0 as <-.
  fstep E as c s0 E0. apply get_cache_spec in E0 as [-> ->]. rewrite (proj2 (Z.eqb_neq (kind p) 0)) in E by lia.
  destruct (_ && _) eqn:Ehit in E.
  { apply ret_Some in E as [_ <-]. apply andb_prop in Ehit as [H1 H2]. bool_to_prop. split; [exact Hs|]. split; [exact Hc|].
    split; [apply fkept_refl|]. split; [apply covers_spec; lia|]. reflexivity. }
  fstep E as u s1 E1. destruct u. destruct (ind_flush_spec _ _ Hs Hc E1) as (Hs1 & K1 & Href1 & _).
  fstep E as a s2 E2. apply get_a_spec in E2 as [-> ->]. fstep E as u s2 E2. destruct u.
  destruct (load_group p s1 s2 Hpw Hk Hs1 E2) as (t & x & Ht & Kt & Hreft & Hx & Er & Hnext).
  set (c := mk_cache (kind p) (slot2 p) false) in *.
  assert (c_kind c = 1 -> c_slot2 c = 0) as Hl by (cbn; intros; apply (pw_low2 _ Hpw); lia).
  destruct (load_finish x c t s2 s' Ht Hk Hl (pw_slot2 _ Hpw) Hx Hnext Er E) as (Hs' & Hc' & K' & Ec' & Hcur).
  split; [exact Hs'|]. split; [exact Hc'|]. split; [exact (fkept_trans _ _ _ K1 (fkept_trans _ _ _ Kt K'))|].
  split; [rewrite Ec'; apply covers_spec; cbn; lia|]. intros q Hq. rewrite (Hcur q Hq), (Hreft q Hq). exact (Href1 q Hq).
Qed.

(** One step down a tree. *)
Lemma read_slot_spec l magic i r s s' :
  fbase s -> node_ok (f_m s) magic l -> ind_slot_ok i ->
  (read_b l magic;; b ← get_b; mret (mfs_ind_slot b i)) s = (Some r, s') ->
  fbase s' /\ fkept s s' /\ f_a s' = f_a s /\ f_cache s' = f_cache s /\ r = slot_of (f_m s) l i.
Proof using MfsDeviceLaws0.
  intros Hs Hn Hi E. fstep E as u s1 E1. destruct u. destruct (read_b_spec _ _ _ _ Hs Hn E1) as (H1 & H2 & H3 & H4 & H5 & _).
  fstep E as b s2 E2. apply get_b_spec in E2 as [-> ->]. apply ret_Some in E as [<- <-].
  split; [exact H1|]. split; [exact H2|]. split; [exact H3|]. split; [exact H4|]. exact (H5 i Hi).
Qed.

Lemma read_ptr_spec l magic i r s s' :
  fbase s -> l = 0 \/ node_ok (f_m s) magic l -> ind_slot_ok i ->
  (if l =? 0 then mret 0 else (read_b l magic;; b ← get_b; mret (mfs_ind_slot b i))) s = (Some r, s') ->
  fbase s' /\ fkept s s' /\ f_a s' = f_a s /\ f_cache s' = f_cache s /\ r = next_ptr (f_m s) l i.
Proof using MfsDeviceLaws0.
  intros Hs Hl Hi. unfold next_ptr. destruct (Z.eqb_spec l 0) as [_|Hz].
  - intros E. apply ret_Some in E as [<- <-]. split; [exact Hs|]. split; [apply fkept_refl|]. done.
  - destruct Hl as [|Hn]; [contradiction|]. by apply read_slot_spec.
Qed.

(** The pointers of a three-level plan, in any state that has grown. *)
Lemma path3 m a p : plan_wf p -> kind p = 3 -> file_wf m a ->
  let l2 := next_ptr m (mfs_file_ind3 a) (slot3 p) in
  let l1 := next_ptr m l2 (slot2 p) in
  (forall i j k, ind_slot_ok i -> ind_slot_ok j -> ind_slot_ok k ->
     path_ok m [(MFS_MAGIC_IND3, i); (MFS_MAGIC_IND2, j); (MFS_MAGIC_IND, k)] (mfs_file_ind3 a))
  /\ (forall j k, ind_slot_ok j -> ind_slot_ok k -> path_ok m [(MFS_MAGIC_IND2, j); (MFS_MAGIC_IND, k)] l2)
  /\ (forall k, ind_slot_ok k -> path_ok m [(MFS_MAGIC_IND, k)] l1)
  /\ ref m a p = next_ptr m l1 (slot1 p).
Proof.
  intros Hp Hk Hwf l2 l1.
  assert (forall i j k, ind_slot_ok i -> ind_slot_ok j -> ind_slot_ok k ->
     path_ok m [(MFS_MAGIC_IND3, i); (MFS_MAGIC_IND2, j); (MFS_MAGIC_IND, k)] (mfs_file_ind3 a)) as H3.
  { intros i j k Hi Hj Hkk. apply (Hwf (mk_plan 3 i j k)). split; cbn; try lia; by auto. }
  pose proof (pw_slot3 _ Hp) as Hs3. pose proof (pw_slot2 _ Hp) as Hs2.
  assert (forall j k, ind_slot_ok j -> ind_slot_ok k -> path_ok m [(MFS_MAGIC_IND2, j); (MFS_MAGIC_IND, k)] l2) as H2.
  { intros j k Hj Hkk. exact (path_next _ _ _ _ _ (H3 _ j k Hs3 Hj Hkk)). }
  split; [exact H3|]. split; [exact H2|]. split; [intros k Hkk; exact (path_next _ _ _ _ _ (H2 _ k Hs2 Hkk))|].
  unfold ref. rewrite (plan_path_3 p Hk), !walk_next. unfold plan_root. rewrite Hk. reflexivity.
Qed.

(** Three-level lookup, without the cache. *)
Lemma ind_peek3_spec p r s s' :
  plan_wf p -> kind p = 3 -> fbase s -> mfs_ind_peek3 p s = (Some r, s') ->
  fbase s' /\ fkept s s' /\ f_a s' = f_a s /\ f_cache s' = f_cache s /\ r = ref (f_m s) (f_a s) p.
Proof using MfsDeviceLaws0.
  intros Hp Hk Hs E. pose proof (pw_slot1 _ Hp ltac:(lia)) as H1. pose proof (pw_slot2 _ Hp) as H2. pose proof (pw_slot3 _ Hp) as H3.
  destruct (path3 _ _ p Hp Hk (fb_wf _ Hs)) as (P3 & P2 & P1 & ->). unfold mfs_ind_peek3 in E.
  fstep E as a s0 E0. apply get_a_spec in E0 as [-> ->]. set (l3 := mfs_file_ind3 (f_a s)) in *.
  unfold next_ptr in *. destruct (Z.eqb_spec l3 0) as [Hz3|Hz3].
  { apply ret_Some in E as [<- <-]. split; [exact Hs|]. split; [apply fkept_refl|]. done. }
  destruct (path_head _ _ _ _ _ (P3 _ _ _ H3 H2 H1)) as [|N3]; [contradiction|].
  fstep E as u s1 E1. destruct u. destruct (read_b_spec _ _ _ _ Hs N3 E1) as (Hs1 & K1 & A1 & C1 & S1 & _).
  fstep E as b s2 E2. apply get_b_spec in E2 as [-> ->]. rewrite (S1 _ H3) in E. set (l2 := slot_of (f_m s) l3 (slot3 p)) in *.
  destruct (Z.eqb_spec l2 0) as [Hz2|Hz2].
  { apply ret_Some in E as [<- <-]. done. }
  destruct (path_head _ _ _ _ _ (P2 _ _ H2 H1)) as [|N2]; [contradiction|].
  fstep E as u s2 E2. destruct u.
  destruct (read_b_spec _ _ _ _ Hs1 (node_kept _ _ _ _ (gr_data _ _ (proj1 K1)) N2) E2) as (Hs2 & K2 & A2 & C2 & S2 & _).
  fstep E as b s3 E3. apply get_b_spec in E3 as [-> ->]. rewrite (S2 _ H2), (slot_kept _ _ _ _ _ (gr_data _ _ (proj1 K1)) N2) in E.
  set (l1 := slot_of (f_m s) l2 (slot2 p)) in *. pose proof (fkept_trans _ _ _ K1 K2) as K12.
  destruct (Z.eqb_spec l1 0) as [Hz1|Hz1].
  { apply ret_Some in E as [<- <-]. split; [exact Hs2|]. split; [exact K12|]. split; [congruence|]. split; [congruence|done]. }
  destruct (path_head _ _ _ _ _ (P1 _ H1)) as [|N1]; [contradiction|].
  destruct (read_slot_spec _ _ _ _ _ _ Hs2 (node_kept _ _ _ _ (gr_data _ _ (proj1 K12)) N1) H1 E) as (Hs3 & K3 & A3 & C3 & ->).
  split; [exact Hs3|]. split; [exact (fkept_trans _ _ _ K12 K3)|]. split; [congruence|]. split; [congruence|].
  exact (slot_kept _ _ _ _ _ (gr_data _ _ (proj1 K12)) N1).
Qed.

Lemma empty_cache s : f_cache s = MFS_IND_CACHE_EMPTY -> cache_ok s /\ forall p, cur s p = ref (f_m s) (f_a s) p.
Proof.
  intros E. split; [|intros p; unfold cur; by rewrite E]. split; rewrite E; cbn; try lia; [|done..]. unfold ind_slot_ok. done.
Qed.

(** The current pointer of a logical block. *)
Lemma ind_peek_spec bi p r s s' :
  0 <= bi -> mfs_map_plan bi = Some p -> fbase s -> cache_ok s -> mfs_ind_peek bi s = (Some r, s') ->
  fbase s' /\ cache_ok s' /\ fkept s s' /\ r = cur s p
  /\ c_kind (f_cache s') = (if kind p =? 0 then c_kind (f_cache s) else if kind p =? 3 then 0 else kind p)
  /\ forall q, plan_wf q -> cur s' q = cur s q.
Proof using MfsDeviceLaws0.
  intros Hbi Hp Hs Hc E. destruct (plan_spec _ _ Hbi Hp) as [Hpw _]. unfold mfs_ind_peek in E.
  fstep E as p0 s0 E0. apply plan_of_Some in E0 as [E0 <-]. rewrite Hp in E0. injection E0 as <-.
  fstep E as a s0 E0. apply get_a_spec in E0 as [-> ->].
  destruct (Z.eqb_spec (kind p) 0) as [Hk|Hk].
  { apply ret_Some in E as [<- <-]. split; [exact Hs|]. split; [exact Hc|]. split; [apply fkept_refl|].
    split; [|split; reflexivity]. unfold cur. assert (covers (f_cache s) p = false) as ->.
    { apply not_true_iff_false. rewrite covers_spec. lia. }
    unfold ref, plan_path, plan_root. rewrite Hk. reflexivity. }
  destruct (Z.eqb_spec (kind p) 3) as [Hk3|Hk3].
  - fstep E as u s1 E1. destruct u. destruct (ind_flush_spec _ _ Hs Hc E1) as (Hs1 & K1 & Href & _).
    fstep E as u s2 E2. destruct u. apply set_cache_spec in E2 as (Ea2 & Eb2 & Ec2 & Em2).
    assert (fbase s2) as Hs2 by (destruct Hs1; split; rewrite ?Ea2, ?Eb2, ?Em2; assumption).
    destruct (ind_peek3_spec _ _ _ _ Hpw Hk3 Hs2 E) as (Hs' & K' & Ea' & Ec' & ->). rewrite Ec2 in Ec'.
    destruct (empty_cache s' Ec') as [Hc' Hcur]. split; [exact Hs'|]. split; [exact Hc'|]. split.
    { apply (fkept_trans _ _ _ K1). unfold fkept in *. by rewrite Ea2, Em2 in K'. }
    split; [rewrite Ea2, Em2; exact (Href p Hpw)|]. split; [by rewrite Ec'|].
    intros q Hq. rewrite Hcur, Ea', Ea2. rewrite (proj2 (ref_grown _ _ (f_a s1) (proj1 K') ltac:(rewrite Em2; apply Hs1)) q Hq), Em2.
    exact (Href q Hq).
  - assert (kind p = 1 \/ kind p = 2) as Hk12 by (destruct (pw_kind _ Hpw); lia).
    fstep E as u s1 E1. destruct u. destruct (ind_load_spec _ _ _ _ Hbi Hp Hk12 Hs Hc E1) as (Hs1 & Hc1 & K1 & Hcov & Hcur).
    fstep E as b s2 E2. apply get_b_spec in E2 as [-> ->]. apply ret_Some in E as [<- <-].
    split; [exact Hs1|]. split; [exact Hc1|]. split; [exact K1|]. split; [|split; [apply covers_spec in Hcov; lia|exact Hcur]].
    rewrite <- (Hcur p Hpw). unfold cur. by rewrite Hcov.
Qed.

End pointers.

Section linking.
Context {D : Type} `{!MfsDevice D, !MfsDeviceLaws D}.
Implicit Types (m : mfs D) (s : fstate D).

Lemma plan_ext p q : kind p = kind q -> slot3 p = slot3 q -> slot2 p = slot2 q -> slot1 p = slot1 q -> p = q.
Proof. destruct p, q. cbn. congruence. Qed.

(** The pointer of [p] is replaced, every other one stays. *)
Definition relinked (p : MfsMapPlan) (db : Z) (f f' : MfsMapPlan -> Z) : Prop :=
  forall q, plan_wf q -> (q = p -> f' q = db) /\ (q <> p -> f' q = f q).

Lemma ind_link3_spec p db s s' :
  plan_wf p -> kind p = 3 -> fbase s -> data_ptr (f_m s) db -> mfs_ind_link3 p db s = (Some tt, s') ->
  fbase s' /\ fkept s s' /\ f_cache s' = f_cache s
  /\ relinked p db (ref (f_m s) (f_a s)) (ref (f_m s') (f_a s')).
Proof using MfsDeviceLaws0.
  intros Hp Hk Hs Hdb E. pose proof (pw_slot1 _ Hp ltac:(lia)) as H1. pose proof (pw_slot2 _ Hp) as H2. pose proof (pw_slot3 _ Hp) as H3.
  destruct (path3 _ _ p Hp Hk (fb_wf _ Hs)) as (P3 & P2 & P1 & _). unfold mfs_ind_link3 in E.
  fstep E as a t0 E0. apply get_a_spec in E0 as [-> ->]. set (l3 := mfs_file_ind3 (f_a s)) in *.
  fstep E as l2 t1 E1.
  destruct (read_ptr_spec _ _ _ _ _ _ Hs (path_head _ _ _ _ _ (P3 _ _ _ H3 H2 H1)) H3 E1) as (Ht1 & K1 & A1 & C1 & El2).
  rewrite <- El2 in P2, P1. fstep E as l1 t2 E2.
  assert (l2 = 0 \/ node_ok (f_m t1) MFS_MAGIC_IND2 l2) as Hl2.
  { destruct (path_head _ _ _ _ _ (P2 _ _ H2 H1)) as [|N]; [by left|right]. exact (node_kept _ _ _ _ (gr_data _ _ (proj1 K1)) N). }
  destruct (read_ptr_spec _ _ _ _ _ _ Ht1 Hl2 H2 E2) as (Ht2 & K2 & A2 & C2 & El1).
  assert (next_ptr (f_m t1) l2 (slot2 p) = next_ptr (f_m s) l2 (slot2 p)) as Enext.
  { unfold next_ptr. destruct (Z.eqb_spec l2 0) as [|Hz]; [reflexivity|].
    destruct (path_head _ _ _ _ _ (P2 _ _ H2 H1)) as [|N]; [contradiction|]. exact (slot_kept _ _ _ _ _ (gr_data _ _ (proj1 K1)) N). }
  rewrite Enext in El1. rewrite <- El1 in P1. pose proof (fkept_trans _ _ _ K1 K2) as K12.
  pose proof (data_ptr_u32 _ _ (fb_m _ Hs) Hdb) as Hdb32.
  fstep E as u t3 E3. destruct u. fstep E as u t4 E4. destruct u. fstep E as n1 t5 E5.
  destruct (cow_commit (f_m s) MFS_MAGIC_IND l1 (slot1 p) db n1 t2 t3 t4 t5 Ht2 (proj1 K12) (path_head _ _ _ _ _ (P1 _ H1))
              Hdb32 ltac:(done) E3 E4 E5) as (Ht5 & K5 & A5 & C5 & N1 & W1). clear E3 E4 E5.
  pose proof (fkept_trans _ _ _ K12 K5) as K15. destruct (node_u32 _ _ _ (fb_m _ Ht5) N1) as (Hn1 & _).
  fstep E as u t6 E6. destruct u. fstep E as u t7 E7. destruct u. fstep E as n2 t8 E8.
  destruct (cow_commit (f_m s) MFS_MAGIC_IND2 l2 (slot2 p) n1 n2 t5 t6 t7 t8 Ht5 (proj1 K15) (path_head _ _ _ _ _ (P2 _ _ H2 H1))
              Hn1 ltac:(done) E6 E7 E8) as (Ht8 & K8 & A8 & C8 & N2 & W2). clear E6 E7 E8.
  pose proof (fkept_trans _ _ _ K15 K8) as K18. destruct (node_u32 _ _ _ (fb_m _ Ht8) N2) as (Hn2 & _).
  fstep E as u t9 E9. destruct u. fstep E as u t10 E10. destruct u. fstep E as n3 t11 E11.
  destruct (cow_commit (f_m s) MFS_MAGIC_IND3 l3 (slot3 p) n2 n3 t8 t9 t10 t11 Ht8 (proj1 K18)
              (path_head _ _ _ _ _ (P3 _ _ _ H3 H2 H1)) Hn2 ltac:(done) E9 E10 E11) as (Ht11 & K11 & A11 & C11 & N3 & W3). clear E9 E10 E11.
  pose proof (fkept_trans _ _ _ K18 K11) as K. destruct (node_u32 _ _ _ (fb_m _ Ht11) N3) as (Hn3 & _).
  pose proof (data_ptr_grown _ _ _ (proj1 K15) Hdb) as Hdb5.
  assert (forall q, plan_wf q -> kind q = 3 -> path_ok (f_m t11) (plan_path q) n3
            /\ walk (f_m t11) (plan_path q) n3
               = if slot3 q =? slot3 p then if slot2 q =? slot2 p then if slot1 q =? slot1 p then db
                 else walk (f_m s) [(MFS_MAGIC_IND, slot1 q)] l1
                 else walk (f_m s) [(MFS_MAGIC_IND2, slot2 q); (MFS_MAGIC_IND, slot1 q)] l2
                 else ref (f_m s) (f_a s) q) as Htree.
  { intros q Hq Hkq. pose proof (pw_slot1 _ Hq ltac:(lia)) as Q1. pose proof (pw_slot2 _ Hq) as Q2. pose proof (pw_slot3 _ Hq) as Q3.
    destruct (W1 [] (slot1 q) Q1 (P1 _ Q1) (fun _ => Hdb5)) as [O1 V1].
    destruct (walk_kept _ _ _ _ (gr_data _ _ (proj1 K8)) O1) as [V1' O1'].
    destruct (W2 _ (slot2 q) Q2 (P2 _ _ Q2 Q1) (fun _ => O1')) as [O2 V2].
    destruct (walk_kept _ _ _ _ (gr_data _ _ (proj1 K11)) O2) as [V2' O2'].
    destruct (W3 _ (slot3 q) Q3 (P3 _ _ _ Q3 Q2 Q1) (fun _ => O2')) as [O3 V3].
    unfold ref. rewrite (plan_path_3 q Hkq). split; [exact O3|]. rewrite V3, V2', V2, V1', V1. unfold plan_root. rewrite Hkq. reflexivity. }
  destruct (upd_root_spec 3 n3 t11 s' ltac:(auto) Ht11 Hn3 (fun q Hq Hk => proj1 (Htree q Hq Hk)) E) as (Hs' & K' & _ & Ec' & _ & Href).
  assert (f_a t11 = f_a s) as Ea by congruence.
  split; [exact Hs'|]. split; [exact (fkept_trans _ _ _ K K')|]. split; [congruence|]. intros q Hq. rewrite (Href q Hq).
  destruct (Z.eqb_spec (kind q) 3) as [Hkq|Hkq].
  - rewrite (proj2 (Htree q Hq Hkq)). split.
    + intros ->. by rewrite !Z.eqb_refl.
    + intros Hne. assert (ref (f_m s) (f_a s) q
        = walk (f_m s) [(MFS_MAGIC_IND2, slot2 q); (MFS_MAGIC_IND, slot1 q)] (next_ptr (f_m s) l3 (slot3 q))) as ->.
      { unfold ref. rewrite (plan_path_3 q Hkq), walk_next. unfold plan_root. rewrite Hkq. reflexivity. }
      destruct (Z.eqb_spec (slot3 q) (slot3 p)) as [E3|]; [|reflexivity]. rewrite E3, <- El2.
      destruct (Z.eqb_spec (slot2 q) (slot2 p)) as [E2'|]; [|reflexivity].
      rewrite (walk_next _ MFS_MAGIC_IND2), E2', <- El1.
      destruct (Z.eqb_spec (slot1 q) (slot1 p)) as [E1'|]; [|reflexivity]. destruct Hne. apply plan_ext; congruence.
  - split; [intros ->; contradiction|]. intros _. rewrite Ea. exact (proj2 (ref_grown _ _ _ (proj1 K) (fb_wf _ Hs)) q Hq).
Qed.

Lemma uncovered_cur s : c_kind (f_cache s) = 0 -> forall q, cur s q = ref (f_m s) (f_a s) q.
Proof. intros Hk q. unfold cur, covers. by rewrite Hk. Qed.

Lemma cache_none s : c_kind (f_cache s) = 0 -> ind_slot_ok (c_slot2 (f_cache s)) -> cache_ok s.
Proof.
  intros Hk Hs. split; [by left|lia|done|done|]. intros p _ _ Hc. apply covers_spec in Hc. lia.
Qed.

(** A direct pointer. *)
Lemma set_direct_spec p db s s' :
  plan_wf p -> kind p = 0 -> fbase s -> data_ptr (f_m s) db -> upd_a (mfs_file_set_direct (slot1 p) db) s = (Some tt, s') ->
  fbase s' /\ fkept s s' /\ f_b s' = f_b s /\ f_cache s' = f_cache s /\ f_m s' = f_m s
  /\ relinked p db (ref (f_m s) (f_a s)) (ref (f_m s') (f_a s')).
Proof.
  intros Hp Hk Hs Hdb E. apply upd_a_spec in E as (Ea & Eb & Ec & Em). destruct Hs as [Hd Ha Hb Hwf].
  pose proof (data_ptr_u32 _ _ Hd Hdb) as H32.
  assert (f_a s' = set_root p db (f_a s)) as Er by (rewrite Ea; unfold set_root; by rewrite Hk).
  assert (forall q, plan_wf q -> same_root p q = true <-> q = p) as Hsame.
  { intros q Hq. unfold same_root. rewrite Hk, Z.eqb_refl. cbn [negb orb]. rewrite andb_true_iff, !Z.eqb_eq. split; [|intros ->; split; congruence].
    intros [H1 H2]. apply plan_ext; [congruence| |by rewrite (pw_low2 _ Hq), (pw_low2 _ Hp) by lia|congruence].
    by rewrite (pw_low3 _ Hq), (pw_low3 _ Hp) by lia. }
  assert (forall q, plan_wf q -> plan_root (f_a s') q = if same_root p q then db else plan_root (f_a s) q) as Hroot
    by (intros q Hq; rewrite Er; by apply root_set).
  assert (plan_path p = []) as Epath by (unfold plan_path; by rewrite Hk).
  split; [split|split; [split; [rewrite Em; apply grown_refl|rewrite Er; by apply head_set_root]|]].
  - by rewrite Em.
  - rewrite Ea. by apply byte_mem_write_u32.
  - by rewrite Eb.
  - intros q Hq. rewrite Em, (Hroot q Hq). destruct (same_root p q) eqn:Es; [|by apply Hwf].
    apply (Hsame q Hq) in Es as ->. rewrite Epath. exact Hdb.
  - do 3 (split; [assumption|]). rewrite Em. intros q Hq. unfold ref. rewrite (Hroot q Hq).
    destruct (same_root p q) eqn:Es; split.
    + intros ->. by rewrite Epath.
    + intros Hne. by apply (Hsame q Hq) in Es.
    + intros ->. by rewrite (proj2 (Hsame p Hp)) in Es.
    + done.
Qed.

(** Pointing a logical block at [db]. *)
Lemma ind_link_spec bi p db s s' :
  0 <= bi -> mfs_map_plan bi = Some p -> fbase s -> cache_ok s -> data_ptr (f_m s) db ->
  (kind p = 3 -> c_kind (f_cache s) = 0) -> mfs_ind_link bi db s = (Some tt, s') ->
  fbase s' /\ cache_ok s' /\ fkept s s' /\ relinked p db (cur s) (cur s') /\ c_kind (f_cache s') = c_kind (f_cache s).
Proof using MfsDeviceLaws0.
  intros Hbi Hp Hs Hc Hdb H3 E. destruct (plan_spec _ _ Hbi Hp) as [Hpw _]. unfold mfs_ind_link in E.
  fstep E as p0 s0 E0. apply plan_of_Some in E0 as [E0 <-]. rewrite Hp in E0. injection E0 as <-.
  fstep E as c s0 E0. apply get_cache_spec in E0 as [-> ->].
  destruct (Z.eqb_spec (kind p) 0) as [Hk|Hk]; [|destruct (Z.eqb_spec (kind p) 3) as [Hk3|Hk3]].
  - destruct (set_direct_spec p db s s' Hpw Hk Hs Hdb E) as (Hs' & K & Eb & Ec & Em & Hre).
    assert (forall q, covers (f_cache s) q = true -> q <> p) as Hne by (intros q Hq ->; apply covers_spec in Hq; lia).
    split; [exact Hs'|]. split; [|split; [exact K|split; [|by rewrite Ec]]].
    + destruct Hc as [C1 C2 C3 C4 C5]. split; rewrite ?Ec, ?Eb, ?Em; try assumption.
      intros q Hd Hq Hcov. rewrite (C5 q Hd Hq Hcov). symmetry. pose proof (proj2 (Hre q Hq) (Hne q Hcov)) as H. by rewrite Em in H.
    + intros q Hq. unfold cur. rewrite Ec, Eb. destruct (covers (f_cache s) q) eqn:Ecov; [|exact (Hre q Hq)].
      split; [|done]. intros Eq. by destruct (Hne q Ecov).
  - specialize (H3 Hk3). destruct (ind_link3_spec p db s s' Hpw Hk3 Hs Hdb E) as (Hs' & K & Ec & Hre).
    assert (cache_ok s') as Hc' by (apply cache_none; rewrite Ec; [done|apply (co_slot _ Hc)]).
    split; [exact Hs'|]. split; [exact Hc'|]. split; [exact K|]. split; [|by rewrite Ec]. intros q Hq.
    rewrite (uncovered_cur s H3), (uncovered_cur s') by congruence. exact (Hre q Hq).
  - destruct (Z.eqb_spec (c_kind (f_cache s)) (kind p)) as [E1|]; cbn [negb orb] in E; [|done].
    destruct (Z.eqb_spec (c_slot2 (f_cache s)) (slot2 p)) as [E2|]; cbn [negb] in E; [|done].
    fstep E as u s1 Eu. destruct u. apply upd_b_spec in Eu as (Ea1 & Eb1 & Ec1 & Em1).
    apply set_cache_spec in E as (Ea & Eb & Ec & Em). pose proof (data_ptr_u32 _ _ (fb_m _ Hs) Hdb) as H32.
    assert (f_m s' = f_m s) as Em' by congruence. assert (f_a s' = f_a s) as Ea' by congruence.
    assert (f_b s' = mfs_ind_set_slot (slot1 p) db (f_b s)) as Eb' by congruence.
    assert (forall q, covers (f_cache s') q = covers (f_cache s) q) as Ecov by (intros q; by rewrite Ec).
    split; [|split; [|split; [|split; [|by rewrite Ec]]]].
    + destruct Hs. split; rewrite ?Em', ?Ea', ?Eb'; try assumption. by apply byte_mem_write_u32.
    + destruct Hc as [C1 C2 C3 C4 C5]. split; rewrite ?Ec; cbn [c_kind c_slot2 c_dirty]; try assumption; [|done].
      intros i Hz Hi. rewrite Em', Eb', slot_set by exact H32. destruct (i =? slot1 p); [exact Hdb|by apply C4].
    + unfold fkept. rewrite Em', Ea'. split; [apply grown_refl|apply head_refl].
    + intros q Hq. unfold cur. rewrite Ecov, Eb', Em', Ea'. destruct (covers (f_cache s) q) eqn:Eq.
      * apply covers_spec in Eq as (_ & Q1 & Q2). rewrite slot_set by exact H32. split; [intros ->; by rewrite Z.eqb_refl|].
        intros Hne. destruct (Z.eqb_spec (slot1 q) (slot1 p)); [|done]. destruct Hne.
        pose proof (co_kind _ Hc). apply plan_ext; [congruence| |congruence|done].
        by rewrite (pw_low3 _ Hq), (pw_low3 _ Hpw) by lia.
      * split; [|done]. intros ->. assert (covers (f_cache s) p = true) as E' by (apply covers_spec; lia). congruence.
Qed.

End linking.
