(* ===== verification/MfsFile.v ===== *)
(** * MfsFile: file contents of MorionFS (src/user/srv/src/mfs_srv.rs)

    Reading collects the blocks of up to sixteen logical blocks and fetches them in one batch.
    Writing replaces each touched data block by a new one, and commits the node last. Truncation
    drops the pointers past the new end and clears the rest of the last block. This file shows that
    the three operations implement an array of bytes with a length, [afile]. *)

From S2P Require Import Prelude Bytes Crc Clock MfsBlock MfsItab MfsDir MfsGc MfsMount MfsPtr.

Section file_ops.
Context {D : Type} `{!MfsDevice D}.

(** ** Writing *)

(** One block's share of a write: [chunk] bytes of [src] at [boff] of logical block [bi]. *)
Definition write_block (bi boff chunk : Z) (src : mem) (done : Z) : F D unit :=
  old_db ← mfs_ind_peek bi;
  c ← (if old_db =? 0 then mret (zero_bytes 0 (Z.to_nat MFS_BLOCK) scratch) else read_data old_db);
  new_db ← commit_data (copy_to (MFS_HDR + boff) (slice_at done (Z.to_nat chunk) src) c);
  mfs_ind_link bi new_db.

(** [while done < count]: each turn moves at least one byte, so [count] turns are enough. *)
Fixpoint write_loop (fuel : nat) (offset count : Z) (src : mem) (done nblocks : Z) : F D unit :=
  if count <=? done then mret tt
  else match fuel with
       | O => fail
       | S fuel' =>
           let pos := w64 (offset + done) in
           let bi := pos / MFS_DATA_CAP in
           let boff := pos mod MFS_DATA_CAP in
           let chunk := Z.min (MFS_DATA_CAP - boff) (count - done) in
           require (bi <? MFS_FILE_MAX_BLOCKS);;
           write_block bi boff chunk src done;;
           (if nblocks <=? bi then upd_a (mfs_file_set_nblocks (w32 (bi + 1))) else mret tt);;
           write_loop fuel' offset count src (done + chunk) (if nblocks <=? bi then bi + 1 else nblocks)
       end.

(** What follows once the node is in A. *)
Definition write_loaded (now ino offset count : Z) (src : mem) : F D unit :=
  a ← get_a;
  let old_size := mfs_file_size a in
  let e := w64 (offset + count) in
  require (e <=? MFS_FILE_MAX_BLOCKS * MFS_DATA_CAP);;
  set_cache MFS_IND_CACHE_EMPTY;;
  write_loop (Z.to_nat count) offset count src 0 (mfs_file_nblocks a);;
  mfs_ind_flush;;
  (if old_size <? e then upd_a (mfs_file_set_size e) else mret tt);;
  upd_a (mfs_touch now false);;
  store_node ino.

Definition write_file (now ino offset count : Z) (src : mem) : F D unit :=
  load_node ino;; write_loaded now ino offset count src.

Definition mfs_write_file (now ino offset count : Z) (src : mem) (s : fstate D) : Z * fstate D :=
  let '(o, s) := write_file now ino offset count src s in
  (match o with Some _ => count | None => U64_MAX end, s).

(** ** Truncation *)

Definition mfs_unmap_block (bi : Z) : F D unit :=
  old ← mfs_ind_peek bi;
  if old =? 0 then mret tt else mfs_ind_link bi 0.

(** [while b < hi { .. b += 1 }], over the [n] blocks from [b] on. *)
Fixpoint unmap_range (n : nat) (b : Z) : F D unit :=
  match n with
  | O => mret tt
  | S n' => mfs_unmap_block b;; unmap_range n' (b + 1)
  end.
Fixpoint clear_direct (n : nat) (bi : Z) : F D unit :=
  match n with
  | O => mret tt
  | S n' => upd_a (mfs_file_set_direct bi 0);; clear_direct n' (bi + 1)
  end.

(** The blocks of one indirect area [[lo, hi)]: nothing to do, the whole tree dropped, or the tail
    unmapped slot by slot. *)
Definition drop_area (lo hi keep old_nb : Z) (drop_root : mem -> mem) : F D unit :=
  if lo <? old_nb then
    if keep <=? lo then upd_a drop_root
    else let b := Z.max keep lo in unmap_range (Z.to_nat (Z.min hi old_nb - b)) b
  else mret tt.

(** The last kept block is used in part: its rest is cleared. *)
Definition clear_tail (new_size keep : Z) : F D unit :=
  let tail := new_size mod MFS_DATA_CAP in
  if (0 <? keep) && negb (tail =? 0) then
    old_db ← mfs_ind_peek (keep - 1);
    if old_db =? 0 then mret tt
    else
      c ← read_data old_db;
      new_db ← commit_data (zero_bytes (MFS_HDR + tail) (Z.to_nat (MFS_DATA_CAP - tail)) c);
      mfs_ind_link (keep - 1) new_db;;
      mfs_ind_flush
  else mret tt.

Definition truncate_loaded (now ino new_size : Z) : F D unit :=
  a ← get_a;
  let old_size := mfs_file_size a in
  if new_size =? old_size then mret tt
  else if old_size <? new_size then
    upd_a (mfs_file_set_size new_size);; upd_a (mfs_touch now false);; store_node ino
  else
    let keep := div_ceil new_size MFS_DATA_CAP in
    let old_nb := mfs_file_nblocks a in
    let dir_end := MFS_FILE_DIRECT in
    let ind1_end := dir_end + MFS_IND_CAP in
    let ind2_end := ind1_end + MFS_IND_CAP * MFS_IND_CAP in
    set_cache MFS_IND_CACHE_EMPTY;;
    clear_direct (Z.to_nat (Z.min dir_end old_nb - keep)) keep;;
    drop_area dir_end ind1_end keep old_nb (mfs_file_set_ind1 0);;
    drop_area ind1_end ind2_end keep old_nb (mfs_file_set_ind2 0);;
    drop_area ind2_end old_nb keep old_nb (mfs_file_set_ind3 0);;
    mfs_ind_flush;;
    clear_tail new_size keep;;
    upd_a (mfs_file_set_size new_size);;
    upd_a (mfs_file_set_nblocks (w32 keep));;
    upd_a (mfs_touch now false);;
    store_node ino.

Definition truncate (now ino new_size : Z) : F D unit :=
  load_node ino;; truncate_loaded now ino new_size.

Definition mfs_truncate (now ino new_size : Z) (s : fstate D) : Z * fstate D :=
  let '(o, s) := truncate now ino new_size s in
  (match o with Some _ => 1 | None => U64_MAX end, s).

End file_ops.

(** ** Reading

    Data blocks are fetched past the write window, several at a time. *)

Class MfsReader (D : Type) : Type := {
  block_batch_read : Z -> list Z -> D -> bool * list (list Z) * D;
  block_raw_read : Z -> Z -> D -> bool * list Z * D
}.

(** A completed transfer yields the contents of the sectors; none changes them. *)
Class MfsReaderLaws (D : Type) `{!MfsDevice D, !MfsReader D} : Prop := {
  batch_read_ok v l d bss d' : block_batch_read v l d = (true, bss, d') -> bss = content d v <$> l /\ same_content d d';
  batch_read_bad v l d bss d' : block_batch_read v l d = (false, bss, d') -> same_content d d';
  raw_read_ok v lba d bs d' : block_raw_read v lba d = (true, bs, d') -> bs = content d v lba /\ same_content d d';
  raw_read_bad v lba d bs d' : block_raw_read v lba d = (false, bs, d') -> same_content d d'
}.

Section reading.
Context {D : Type} `{!MfsDevice D, !MfsReader D}.

(** The blocks of a window of [n] logical blocks; blocks past the last one count as holes. *)
Fixpoint map_window (n : nat) (bi nblocks : Z) : F D (list Z) :=
  match n with
  | O => mret []
  | S n' =>
      db ← (if bi <? nblocks then mfs_file_map bi else mret 0);
      dbs ← map_window n' (bi + 1) nblocks;
      mret (db :: dbs)
  end.

(** The fallback: one block after the other. *)
Fixpoint read_each (vol : Z) (lbas : list Z) (d : D) : option (list (list Z)) * D :=
  match lbas with
  | [] => (Some [], d)
  | lba :: lbas' =>
      let '(ok, bs, d) := block_raw_read vol (w32 lba) d in
      if negb ok then (None, d)
      else let '(o, d) := read_each vol lbas' d in ((fun bss => bs :: bss) <$> o, d)
  end.

Definition fetch_pages (vol : Z) (lbas : list Z) (d : D) : option (list (list Z)) * D :=
  match lbas with
  | [] => (Some [], d)
  | _ =>
      let '(ok, bss, d) := block_batch_read vol lbas d in
      if ok : bool then (Some bss, d) else read_each vol lbas d
  end.

Definition fetch (dbs : list Z) : F D (list (list Z)) := fun s =>
  let io := m_io (f_m s) in
  let lbas := (fun db => db * MFS_SECTORS_PER_BLOCK) <$> filter (fun db => db <> 0) dbs in
  let '(o, d) := fetch_pages (MFS_CUR_VOL io) lbas (MFS_DEV io) in
  (o, mk_fst (f_a s) (f_b s) (f_cache s) (set_io (f_m s) (mk_io (MFS_CUR_VOL io) (MFS_WB io) d))).

(** Check the pages and copy them out, holes as zeros. *)
Fixpoint copy_window (dbs : list Z) (pages : list (list Z)) (boff n done : Z) (dst : mem) : option (Z * mem) :=
  match dbs with
  | [] => Some (done, dst)
  | db :: dbs' =>
      if n <=? done then Some (done, dst)
      else
        let chunk := Z.min (MFS_DATA_CAP - boff) (n - done) in
        if db =? 0 then copy_window dbs' pages 0 n (done + chunk) (zero_bytes done (Z.to_nat chunk) dst)
        else match pages with
             | [] => None
             | pg :: pages' =>
                 if negb (mfs_ok (loaded pg) MFS_MAGIC_DATA) then None
                 else copy_window dbs' pages' 0 n (done + chunk)
                        (copy_to done (slice_at (MFS_HDR + boff) (Z.to_nat chunk) (loaded pg)) dst)
             end
  end.

(** [while done < n]: a window moves at least one byte. *)
Fixpoint read_loop (fuel : nat) (offset n nblocks done : Z) (dst : mem) : F D (Z * mem) :=
  if n <=? done then mret (done, dst)
  else match fuel with
       | O => fail
       | S fuel' =>
           let pos := w64 (offset + done) in
           let bi0 := pos / MFS_DATA_CAP in
           let first_boff := pos mod MFS_DATA_CAP in
           let jmax := Z.min (div_ceil (n - done + first_boff) MFS_DATA_CAP) MFS_RDBUF_PAGES in
           dbs ← map_window (Z.to_nat jmax) bi0 nblocks;
           pages ← fetch dbs;
           match copy_window dbs pages first_boff n done dst with
           | None => fail
           | Some (done, dst) => read_loop fuel' offset n nblocks done dst
           end
       end.

Definition read_file (ino offset count : Z) (dst : mem) : F D (Z * mem) :=
  load_node ino;;
  a ← get_a;
  let size := mfs_file_size a in
  if size <=? offset then mret (0, dst)
  else
    let e := Z.min (w64 (offset + count)) size in
    let n := w32 (e - offset) in
    read_loop (Z.to_nat n) offset n (mfs_file_nblocks a) 0 dst.

(** The destination of a failed read may hold a part of the data; it is not given. *)
Definition mfs_read_file (ino offset count : Z) (dst : mem) (s : fstate D) : Z * option mem * fstate D :=
  let '(o, s) := read_file ino offset count dst s in
  match o with
  | Some (n, dst) => (n, Some dst, s)
  | None => (U64_MAX, None, s)
  end.

End reading.

(** ** The bytes of a file *)

Section bytes.
Context {D : Type} `{!MfsDevice D, !MfsDeviceLaws D}.
Implicit Types (m : mfs D) (s : fstate D).

Definition data_byte m (q off : Z) : Z := if q =? 0 then 0 else loaded (mfs_view (m_io m) q) (MFS_HDR + off).
Definition byte_at m (f : MfsMapPlan -> Z) (pos : Z) : Z :=
  match mfs_map_plan (pos / MFS_DATA_CAP) with
  | Some p => data_byte m (f p) (pos mod MFS_DATA_CAP)
  | None => 0
  end.

Lemma data_byte_grown m m' q off : grown m m' -> data_ptr m q -> data_byte m' q off = data_byte m q off.
Proof.
  intros [K _ _] [->|(Hr & Hu & _)]; [reflexivity|]. unfold data_byte. by destruct (proj2 K q (proj1 Hr) Hu) as [_ ->].
Qed.

Lemma cur_ptr s p : fbase s -> cache_ok s -> plan_wf p -> data_ptr (f_m s) (cur s p).
Proof.
  intros Hs Hc Hp. unfold cur. destruct (covers _ p) eqn:E; [|apply path_walk_ok, (fb_wf _ Hs), Hp].
  apply covers_spec in E. apply (co_ptr _ Hc); [lia|]. apply (pw_slot1 _ Hp). lia.
Qed.

Lemma data_cap : MFS_DATA_CAP = 4088.
Proof. reflexivity. Qed.

(** Data blocks read and written through buffer C. *)
Lemma read_data_spec q c s s' :
  fbase s -> node_ok (f_m s) MFS_MAGIC_DATA q -> read_data q s = (Some c, s') ->
  fbase s' /\ grown (f_m s) (f_m s') /\ f_a s' = f_a s /\ f_b s' = f_b s /\ f_cache s' = f_cache s /\ byte_mem c
  /\ forall off, 0 <= off < MFS_DATA_CAP -> c (MFS_HDR + off) = data_byte (f_m s) q off.
Proof using MfsDeviceLaws0.
  intros [Hd Ha Hb Hwf] Hn. destruct (node_u32 _ _ _ Hd Hn) as (_ & Hz & Hr). unfold read_data.
  destruct (mfs_read_blk _ _ _) as [[ok c1] io] eqn:E. destruct ok; cbn [negb orb]; [|done].
  destruct (mfs_ok c1 MFS_MAGIC_DATA); cbn [negb]; [|done]. intros H. apply pair_equal_spec in H as [H <-]. injection H as <-.
  cbn [f_a f_b f_cache f_m]. destruct (read_durable _ _ _ _ _ Hd Hr E) as (Hd' & Hg & _ & Hag & Hby).
  destruct (ref_grown _ _ _ Hg Hwf) as [Hwf' _]. split; [by split|]. split; [exact Hg|]. do 3 (split; [reflexivity|]).
  split; [by apply Hby, scratch_bytes|]. intros off Ho. unfold data_byte. rewrite (proj2 (Z.eqb_neq q 0) Hz). apply Hag.
  rewrite data_cap in Ho. unfold MFS_HDR, MFS_BLOCK. lia.
Qed.

Lemma commit_data_spec c n s s' :
  fbase s -> byte_mem c -> commit_data c s = (Some n, s') ->
  fbase s' /\ grown (f_m s) (f_m s') /\ f_a s' = f_a s /\ f_b s' = f_b s /\ f_cache s' = f_cache s
  /\ node_ok (f_m s') MFS_MAGIC_DATA n
  /\ forall off, 0 <= off < MFS_DATA_CAP -> data_byte (f_m s') n off = c (MFS_HDR + off).
Proof using MfsDeviceLaws0.
  intros [Hd Ha Hb Hwf] Hc. unfold commit_data. destruct (mfs_commit _ _ _ _) as [[[ob c1] io] p] eqn:E.
  intros H. apply pair_equal_spec in H as [-> <-]. cbn [f_a f_b f_cache f_m].
  destruct (commit_durable _ MFS_MAGIC_DATA _ _ _ _ _ Hd Hc ltac:(done) E) as (Hd' & Hg & Hn & _ & Hag).
  destruct (ref_grown _ _ _ Hg Hwf) as [Hwf' _]. split; [by split|]. split; [exact Hg|]. do 3 (split; [reflexivity|]).
  split; [exact Hn|]. intros off Ho. unfold data_byte. destruct (node_u32 _ _ _ Hd' Hn) as (_ & Hz & _).
  rewrite (proj2 (Z.eqb_neq n 0) Hz). apply Hag. rewrite data_cap in Ho. unfold MFS_HDR, MFS_BLOCK. lia.
Qed.

(** A state that grew, with the same buffers. *)
Lemma cache_grown s s' :
  fbase s -> cache_ok s -> grown (f_m s) (f_m s') -> f_a s' = f_a s -> f_b s' = f_b s -> f_cache s' = f_cache s ->
  cache_ok s' /\ fkept s s' /\ forall q, plan_wf q -> cur s' q = cur s q.
Proof.
  intros Hs [C1 C2 C3 C4 C5] G Ea Eb Ec. destruct (ref_grown _ _ _ G (fb_wf _ Hs)) as [_ Href]. split; [|split].
  - split; rewrite ?Ec, ?Eb; try assumption.
    + intros i Hz Hi. exact (data_ptr_grown _ _ _ G (C4 i Hz Hi)).
    + intros p Hd Hp Hc. rewrite Ea, (Href p Hp). by apply C5.
  - split; [exact G|]. rewrite Ea. apply head_refl.
  - intros q Hq. unfold cur. rewrite Ec, Eb, Ea, (Href q Hq). reflexivity.
Qed.

(** The old contents of a block, in C. *)
Lemma old_data_spec q c s s' :
  fbase s -> data_ptr (f_m s) q ->
  (if q =? 0 then mret (zero_bytes 0 (Z.to_nat MFS_BLOCK) scratch) else read_data q) s = (Some c, s') ->
  fbase s' /\ grown (f_m s) (f_m s') /\ f_a s' = f_a s /\ f_b s' = f_b s /\ f_cache s' = f_cache s /\ byte_mem c
  /\ forall off, 0 <= off < MFS_DATA_CAP -> c (MFS_HDR + off) = data_byte (f_m s) q off.
Proof using MfsDeviceLaws0.
  intros Hs Hq. destruct (Z.eqb_spec q 0) as [->|Hz].
  - intros E. apply ret_Some in E as [<- <-]. split; [exact Hs|]. split; [apply grown_refl|]. do 3 (split; [reflexivity|]).
    split; [apply zero_bytes_mem, scratch_bytes|]. intros off Ho. unfold data_byte. cbn [Z.eqb].
    unfold zero_bytes, copy_to. destruct (_ && _); [|reflexivity]. rewrite nth_lookup.
    destruct (_ !! _) eqn:E; [by apply lookup_replicate in E as [-> _]|reflexivity].
  - destruct Hq as [|Hn]; [contradiction|]. by apply read_data_spec.
Qed.

(** One block's share of a write. *)
Lemma write_block_spec bi p boff chunk src done s s' :
  0 <= bi -> mfs_map_plan bi = Some p -> 0 <= boff -> 0 <= chunk -> boff + chunk <= MFS_DATA_CAP -> byte_mem src ->
  fbase s -> cache_ok s -> write_block bi boff chunk src done s = (Some tt, s') ->
  fbase s' /\ cache_ok s' /\ fkept s s' /\ (forall q, plan_wf q -> q <> p -> cur s' q = cur s q)
  /\ (forall q off, plan_wf q -> q <> p -> data_byte (f_m s') (cur s' q) off = data_byte (f_m s) (cur s q) off)
  /\ (forall off, 0 <= off < MFS_DATA_CAP -> data_byte (f_m s') (cur s' p) off
        = if (boff <=? off) && (off <? boff + chunk) then src (done + (off - boff)) else data_byte (f_m s) (cur s p) off).
Proof using MfsDeviceLaws0.
  intros Hbi Hp Hb0 Hch Hbc Hsrc Hs Hc E. destruct (plan_spec _ _ Hbi Hp) as [Hpw _]. unfold write_block in E.
  fstep E as q s1 E1. destruct (ind_peek_spec _ _ _ _ _ Hbi Hp Hs Hc E1) as (Hs1 & Hc1 & K1 & Eq & H3 & Hcur1).
  assert (data_ptr (f_m s1) q) as Hq by (rewrite Eq, <- (Hcur1 p Hpw); by apply cur_ptr).
  fstep E as c s2 E2. destruct (old_data_spec _ _ _ _ Hs1 Hq E2) as (Hs2 & G2 & Ea2 & Eb2 & Ec2 & Hcb & Hold).
  destruct (cache_grown _ _ Hs1 Hc1 G2 Ea2 Eb2 Ec2) as (Hc2 & K2 & Hcur2).
  fstep E as n s3 E3. set (c' := copy_to _ _ c) in E3.
  assert (byte_mem c') as Hcb' by (by apply byte_mem_copy_to, byte_mem_slice).
  destruct (commit_data_spec _ _ _ _ Hs2 Hcb' E3) as (Hs3 & G3 & Ea3 & Eb3 & Ec3 & Hn & Hnew).
  destruct (cache_grown _ _ Hs2 Hc2 G3 Ea3 Eb3 Ec3) as (Hc3 & K3 & Hcur3).
  assert (kind p = 3 -> c_kind (f_cache s3) = 0) as H3' by (intros Hk; rewrite Ec3, Ec2, H3, Hk; reflexivity).
  destruct (ind_link_spec _ _ _ _ _ Hbi Hp Hs3 Hc3 (or_intror Hn) H3' E) as (Hs' & Hc' & K' & Hre & _).
  pose proof (fkept_trans _ _ _ K1 (fkept_trans _ _ _ K2 (fkept_trans _ _ _ K3 K'))) as K.
  assert (forall r, plan_wf r -> r <> p -> cur s' r = cur s r) as Hother.
  { intros r Hr Hne. rewrite (proj2 (Hre r Hr) Hne), (Hcur3 r Hr), (Hcur2 r Hr). exact (Hcur1 r Hr). }
  split; [exact Hs'|]. split; [exact Hc'|]. split; [exact K|]. split; [exact Hother|]. split.
  - intros r off Hr Hne. rewrite (Hother r Hr Hne). apply data_byte_grown; [apply K|by apply cur_ptr].
  - intros off Ho. rewrite (proj1 (Hre p Hpw) eq_refl), (data_byte_grown _ _ _ _ (proj1 K') (or_intror Hn)), (Hnew off Ho).
    unfold c', copy_to. rewrite length_slice_at, Z2Nat.id by lia.
    assert ((MFS_HDR + boff <=? MFS_HDR + off) && (MFS_HDR + off <? MFS_HDR + boff + chunk)
            = (boff <=? off) && (off <? boff + chunk)) as -> by (apply eq_true_iff_eq; rewrite !andb_true_iff, !Z.leb_le, !Z.ltb_lt; lia).
    destruct (_ && _) eqn:Ein.
    + bool_to_prop. rewrite nth_lookup, lookup_slice_at by lia. unfold from_option, id. f_equal. rewrite Z2Nat.id by lia. lia.
    + rewrite (Hold off Ho), Eq. apply data_byte_grown; [apply K1|by apply cur_ptr].
Qed.

End bytes.

(** ** The write loop *)

Section writing.
Context {D : Type} `{!MfsDevice D, !MfsDeviceLaws D}.
Implicit Types (m : mfs D) (s : fstate D).

Definition max_bytes : Z := MFS_FILE_MAX_BLOCKS * MFS_DATA_CAP.
Lemma max_bytes_value : max_bytes = 4368065441992.
Proof. reflexivity. Qed.

Definition roots_kept (a a' : mem) : Prop := agree MFS_FILE_DIRECT_OFF MFS_FILE_RESERVED_OFF a' a.
(** The size and the metadata of a node. *)
Definition meta_same (a a' : mem) : Prop := agree MFS_FILE_SIZE_OFF (MFS_FILE_SIZE_OFF + 8) a' a /\ agree MFS_FILE_RESERVED_OFF MFS_BLOCK a' a.
Definition tail_null s : Prop := forall p, plan_wf p -> mfs_file_nblocks (f_a s) <= plan_index p -> cur s p = 0.

Lemma meta_trans a b c : meta_same a b -> meta_same b c -> meta_same a c.
Proof. intros [H1 H2] [H3 H4]. split; intros x Hx; [by rewrite H3, H1|by rewrite H4, H2]. Qed.

Lemma head_meta a a' : head_kept a a' -> meta_same a a' /\ mfs_file_nblocks a' = mfs_file_nblocks a.
Proof.
  intros [H1 H2]. split; [split; [|exact H2]; eapply agree_sub; [exact H1|done|done]|].
  apply read_u32_ext. eapply agree_sub; [exact H1|done|done].
Qed.

Lemma root_ext a a' p : roots_kept a a' -> plan_wf p -> plan_root a' p = plan_root a p.
Proof.
  intros H Hp. rewrite !(proj1 (root_off_spec _ p 0)). apply read_u32_ext.
  destruct (root_off_range p Hp) as (H1 & H2 & _). eapply agree_sub; [exact H|exact H1|exact H2].
Qed.

Lemma ref_ext m a a' : roots_kept a a' -> (file_wf m a -> file_wf m a') /\ forall p, plan_wf p -> ref m a' p = ref m a p.
Proof.
  intros H. split.
  - intros Hwf p Hp. rewrite (root_ext _ _ _ H Hp). by apply Hwf.
  - intros p Hp. unfold ref. by rewrite (root_ext _ _ _ H Hp).
Qed.

(** A change of the node that is not about block pointers. *)
Lemma upd_head_spec (f : mem -> mem) s s' :
  (forall a, roots_kept a (f a)) -> (forall a, byte_mem a -> byte_mem (f a)) -> fbase s -> cache_ok s ->
  upd_a f s = (Some tt, s') ->
  fbase s' /\ cache_ok s' /\ f_m s' = f_m s /\ f_a s' = f (f_a s) /\ forall q, plan_wf q -> cur s' q = cur s q.
Proof.
  intros Hf Hfb [Hd Ha Hb Hwf] [C1 C2 C3 C4 C5] E. apply upd_a_spec in E as (Ea & Eb & Ec & Em).
  destruct (ref_ext (f_m s) _ _ (Hf (f_a s))) as [Hwf' Href]. split; [|split; [|split; [exact Em|split; [exact Ea|]]]].
  - split; rewrite ?Em, ?Ea, ?Eb; auto.
  - split; rewrite ?Ec, ?Eb, ?Em; try assumption. intros p Hd' Hp Hc. rewrite Ea, (Href p Hp). by apply C5.
  - intros q Hq. unfold cur. rewrite Ec, Eb, Em, Ea, (Href q Hq). reflexivity.
Qed.

Lemma set_nblocks_kept v a : roots_kept a (mfs_file_set_nblocks v a) /\ meta_same a (mfs_file_set_nblocks v a).
Proof.
  unfold roots_kept, meta_same, mfs_file_set_nblocks. change MFS_FILE_NBLOCKS_OFF with 16. change MFS_FILE_DIRECT_OFF with 24.
  change MFS_FILE_SIZE_OFF with 8. change MFS_FILE_RESERVED_OFF with 4056.
  split; [|split]; intros x Hx; apply write_u32_out; lia.
Qed.

(** The bytes after one turn. *)
Lemma write_block_bytes pos p chunk src done s s' :
  0 <= pos -> mfs_map_plan (pos / MFS_DATA_CAP) = Some p -> 0 <= chunk -> pos mod MFS_DATA_CAP + chunk <= MFS_DATA_CAP ->
  byte_mem src -> fbase s -> cache_ok s ->
  write_block (pos / MFS_DATA_CAP) (pos mod MFS_DATA_CAP) chunk src done s = (Some tt, s') ->
  fbase s' /\ cache_ok s' /\ fkept s s' /\ (forall q, plan_wf q -> q <> p -> cur s' q = cur s q)
  /\ forall x, 0 <= x -> byte_at (f_m s') (cur s') x
       = if (pos <=? x) && (x <? pos + chunk) then src (done + (x - pos)) else byte_at (f_m s) (cur s) x.
Proof using MfsDeviceLaws0.
  intros Hpos Hp Hch Hbc Hsrc Hs Hc E. rewrite data_cap in *.
  pose proof (Z.mod_pos_bound pos 4088 ltac:(lia)) as Hm. assert (0 <= pos / 4088) as Hbi by (apply Z.div_pos; lia).
  destruct (write_block_spec _ p _ chunk src done s s' Hbi Hp (proj1 Hm) Hch Hbc Hsrc Hs Hc E) as (Hs' & Hc' & K & Hcur & Hoth & Hin).
  split; [exact Hs'|]. split; [exact Hc'|]. split; [exact K|]. split; [exact Hcur|]. intros x Hx. unfold byte_at. rewrite data_cap.
  pose proof (Z.mod_pos_bound x 4088 ltac:(lia)) as Hmx. pose proof (Z.div_mod x 4088 ltac:(lia)) as Dx.
  pose proof (Z.div_mod pos 4088 ltac:(lia)) as Dp. destruct (Z.eq_dec (x / 4088) (pos / 4088)) as [Ex|Ex].
  - rewrite Ex, Hp, (Hin _ Hmx). assert ((pos mod 4088 <=? x mod 4088) && (x mod 4088 <? pos mod 4088 + chunk)
      = (pos <=? x) && (x <? pos + chunk)) as -> by (apply eq_true_iff_eq; rewrite !andb_true_iff, !Z.leb_le, !Z.ltb_lt; lia).
    destruct (_ && _); [|reflexivity]. f_equal. lia.
  - assert ((pos <=? x) && (x <? pos + chunk) = false) as ->.
    { apply not_true_iff_false. rewrite andb_true_iff, Z.leb_le, Z.ltb_lt. intros [H1 H2]. apply Ex.
      symmetry. apply (Z.div_unique _ _ _ (x - 4088 * (pos / 4088))); lia. }
    destruct (mfs_map_plan (x / 4088)) as [q|] eqn:Eq; [|reflexivity]. apply Hoth.
    + apply (plan_spec (x / 4088)); [apply Z.div_pos; lia|exact Eq].
    + intros ->. apply Ex. apply (plan_inj _ _ p); [apply Z.div_pos; lia|exact Hbi|exact Eq|exact Hp].
Qed.

End writing.

Section write_loop.
Context {D : Type} `{!MfsDevice D, !MfsDeviceLaws D}.
Implicit Types (m : mfs D) (s : fstate D).

(** The number of blocks follows the highest block written. *)
Lemma grow_nblocks_spec bi nb s s' :
  0 <= bi < MFS_FILE_MAX_BLOCKS -> nb = mfs_file_nblocks (f_a s) -> fbase s -> cache_ok s ->
  (if nb <=? bi then upd_a (mfs_file_set_nblocks (w32 (bi + 1))) else mret tt) s = (Some tt, s') ->
  fbase s' /\ cache_ok s' /\ f_m s' = f_m s /\ meta_same (f_a s) (f_a s')
  /\ mfs_file_nblocks (f_a s') = (if nb <=? bi then bi + 1 else nb)
  /\ forall q, plan_wf q -> cur s' q = cur s q.
Proof.
  intros Hbi -> Hs Hc. destruct (Z.leb_spec (mfs_file_nblocks (f_a s)) bi) as [Hle|_]; intros E.
  - destruct (upd_head_spec _ _ _ (fun a => proj1 (set_nblocks_kept _ a)) (fun a => byte_mem_write_u32 _ _ a) Hs Hc E)
      as (Hs' & Hc' & Em & Ea & Hcur).
    split; [exact Hs'|]. split; [exact Hc'|]. split; [exact Em|]. rewrite Ea. split; [apply set_nblocks_kept|]. split; [|exact Hcur].
    unfold mfs_file_nblocks, mfs_file_set_nblocks. change MFS_FILE_MAX_BLOCKS with 1068509159 in Hbi.
    unfold w32. rewrite Z.mod_small by lia. apply read_write_u32. lia.
  - apply ret_Some in E as [_ <-]. split; [exact Hs|]. split; [exact Hc|]. split; [reflexivity|]. split; [|done]. by split.
Qed.

Lemma tail_null_grow bi p s s1 s' :
  0 <= bi -> mfs_map_plan bi = Some p -> mfs_file_nblocks (f_a s1) = mfs_file_nblocks (f_a s) ->
  (forall q, plan_wf q -> q <> p -> cur s1 q = cur s q) -> (forall q, plan_wf q -> cur s' q = cur s1 q) ->
  mfs_file_nblocks (f_a s') = (if mfs_file_nblocks (f_a s) <=? bi then bi + 1 else mfs_file_nblocks (f_a s)) ->
  tail_null s -> tail_null s'.
Proof.
  intros Hbi Hp _ H1 H' Enb Ht q Hq Hle. destruct (plan_spec _ _ Hbi Hp) as [Hpw Ei].
  assert (q <> p) as Hne.
  { intros ->. rewrite Enb, Ei in Hle. destruct (Z.leb_spec (mfs_file_nblocks (f_a s)) bi); lia. }
  rewrite (H' q Hq), (H1 q Hq Hne). apply Ht; [exact Hq|]. rewrite Enb in Hle.
  destruct (Z.leb_spec (mfs_file_nblocks (f_a s)) bi); lia.
Qed.

Lemma write_loop_spec fuel offset count src done nb s s' :
  0 <= offset -> 0 <= done -> offset + count <= max_bytes -> byte_mem src -> nb = mfs_file_nblocks (f_a s) ->
  fbase s -> cache_ok s -> write_loop fuel offset count src done nb s = (Some tt, s') ->
  fbase s' /\ cache_ok s' /\ grown (f_m s) (f_m s') /\ meta_same (f_a s) (f_a s') /\ (tail_null s -> tail_null s')
  /\ (nb <= MFS_FILE_MAX_BLOCKS -> mfs_file_nblocks (f_a s') <= MFS_FILE_MAX_BLOCKS)
  /\ forall x, 0 <= x -> byte_at (f_m s') (cur s') x
       = if (offset + done <=? x) && (x <? offset + count) then src (x - offset) else byte_at (f_m s) (cur s) x.
Proof using MfsDeviceLaws0.
  revert done nb s. induction fuel as [|fuel IH]; intros done nb s Ho Hd Hmax Hsrc Hnb Hs Hc E; cbn [write_loop] in E.
  all: destruct (Z.leb_spec count done) as [Hle|Hlt].
  1, 3: apply ret_Some in E as [_ <-]; split; [exact Hs|]; split; [exact Hc|]; split; [apply grown_refl|]; split; [by split|];
    split; [done|]; split; [by rewrite Hnb|]; intros x Hx;
    assert ((offset + done <=? x) && (x <? offset + count) = false) as -> by
      (apply not_true_iff_false; rewrite andb_true_iff, Z.leb_le, Z.ltb_lt; lia); reflexivity.
  { discriminate. }
  rewrite max_bytes_value in Hmax. set (pos := w64 (offset + done)) in E.
  assert (pos = offset + done) as Epos by (unfold pos, w64; apply Z.mod_small; lia).
  clearbody pos. set (chunk := Z.min (MFS_DATA_CAP - pos mod MFS_DATA_CAP) (count - done)) in E.
  fstep E as u s0 E0. destruct u. apply require_spec in E0 as [Hbi ->]. apply Z.ltb_lt in Hbi.
  assert (0 <= pos / MFS_DATA_CAP) as Hbi0 by (apply Z.div_pos; rewrite ?data_cap; lia).
  pose proof (Z.mod_pos_bound pos MFS_DATA_CAP ltac:(rewrite data_cap; lia)) as Hmod.
  assert (0 < chunk /\ pos mod MFS_DATA_CAP + chunk <= MFS_DATA_CAP /\ chunk <= count - done) as (Hc0 & Hc1 & Hc2) by lia.
  destruct (plan_total _ (conj Hbi0 Hbi)) as [p Hp].
  fstep E as u s1 E1. destruct u.
  destruct (write_block_bytes pos p chunk src done s s1 ltac:(lia) Hp ltac:(lia) Hc1 Hsrc Hs Hc E1) as (Hs1 & Hcc1 & K1 & Hcur1 & Hby1).
  destruct (head_meta _ _ (proj2 K1)) as [M1 N1]. fstep E as u s2 E2. destruct u.
  rewrite Hnb, <- N1 in E2. destruct (grow_nblocks_spec _ _ _ _ (conj Hbi0 Hbi) eq_refl Hs1 Hcc1 E2) as (Hs2 & Hcc2 & Em2 & M2 & N2 & Hcur2).
  assert (mfs_file_nblocks (f_a s2) = if nb <=? pos / MFS_DATA_CAP then pos / MFS_DATA_CAP + 1 else nb) as Enb
    by (rewrite N2, N1, <- Hnb; reflexivity).
  destruct (IH (done + chunk) _ s2 Ho ltac:(lia) ltac:(rewrite max_bytes_value; lia) Hsrc (eq_sym Enb) Hs2 Hcc2 E) as (Hs' & Hc' & G' & M' & T' & Nb' & Hby').
  split; [exact Hs'|]. split; [exact Hc'|]. split; [eapply grown_trans; [apply K1|rewrite <- Em2; exact G']|].
  split; [exact (meta_trans _ _ _ M1 (meta_trans _ _ _ M2 M'))|]. split.
  { intros Ht. apply T'. rewrite Hnb in Enb. exact (tail_null_grow _ p s s1 s2 Hbi0 Hp N1 Hcur1 Hcur2 Enb Ht). }
  split; [intros Hn; apply Nb'; destruct (nb <=? _); lia|].
  intros x Hx. rewrite (Hby' x Hx).
  assert (byte_at (f_m s2) (cur s2) x = byte_at (f_m s1) (cur s1) x) as ->.
  { unfold byte_at. rewrite Em2. destruct (mfs_map_plan (x / MFS_DATA_CAP)) as [q|] eqn:Eq; [|reflexivity]. rewrite Hcur2; [reflexivity|].
    apply (plan_spec (x / MFS_DATA_CAP)); [apply Z.div_pos; rewrite ?data_cap; lia|exact Eq]. }
  rewrite (Hby1 x Hx). replace (offset + (done + chunk)) with (pos + chunk) by lia. replace (offset + done) with pos by lia.
  destruct (Z.leb_spec (pos + chunk) x); destruct (Z.ltb_spec x (offset + count)); destruct (Z.leb_spec pos x); destruct (Z.ltb_spec x (pos + chunk));
    cbn [andb]; try lia; try reflexivity. f_equal. lia.
Qed.

End write_loop.

(** ** Files *)

Section files.
Context {D : Type} `{!MfsDevice D, !MfsDeviceLaws D}.
Implicit Types (m : mfs D) (s : fstate D).

Definition node_of m (ino : Z) : mem := loaded (mfs_view (m_io m) (itab_lookup m ino)).
Definition file_size m (ino : Z) : Z := mfs_file_size (node_of m ino).
Definition file_byte m (ino pos : Z) : Z := byte_at m (ref m (node_of m ino)) pos.

(** A well-formed file: a node with valid pointers, no block past the recorded number of blocks, and
    zeros past its end. *)
Record file_ok m (ino : Z) : Prop := {
  fo_node : node_ok m MFS_MAGIC_FILE (itab_lookup m ino);
  fo_wf : file_wf m (node_of m ino);
  fo_tail p : plan_wf p -> mfs_file_nblocks (node_of m ino) <= plan_index p -> ref m (node_of m ino) p = 0;
  fo_nblocks : mfs_file_nblocks (node_of m ino) <= MFS_FILE_MAX_BLOCKS;
  fo_size : file_size m ino <= max_bytes;
  fo_zero pos : 0 <= pos -> file_size m ino <= pos -> file_byte m ino pos = 0
}.

Lemma ref_kept m m' a : data_kept m m' -> file_wf m a -> file_wf m' a /\ forall p, plan_wf p -> ref m' a p = ref m a p.
Proof. intros K Hwf. split; intros p Hp; by apply (walk_kept m m' _ _ K (Hwf p Hp)). Qed.

Lemma data_byte_kept m m' q off : data_kept m m' -> data_ptr m q -> data_byte m' q off = data_byte m q off.
Proof.
  intros K [->|(Hr & Hu & _)]; [reflexivity|]. unfold data_byte. by destruct (proj2 K q (proj1 Hr) Hu) as [_ ->].
Qed.

Lemma byte_at_ext m m' f f' :
  (forall p, plan_wf p -> forall off, data_byte m' (f' p) off = data_byte m (f p) off) ->
  forall x, 0 <= x -> byte_at m' f' x = byte_at m f x.
Proof.
  intros H x Hx. unfold byte_at. destruct (mfs_map_plan (x / MFS_DATA_CAP)) as [p|] eqn:E; [|reflexivity]. apply H.
  apply (plan_spec (x / MFS_DATA_CAP)); [apply Z.div_pos; rewrite ?data_cap; lia|exact E].
Qed.

(** A file whose blocks are kept is kept. *)
Lemma file_kept m m' ino :
  data_kept m m' -> itab_lookup m' ino = itab_lookup m ino -> file_ok m ino ->
  file_ok m' ino /\ file_size m' ino = file_size m ino /\ forall x, 0 <= x -> file_byte m' ino x = file_byte m ino x.
Proof.
  intros K El [Hn Hwf Ht Hnb Hs Hz]. destruct (ref_kept m m' _ K Hwf) as [Hwf' Href].
  assert (node_of m' ino = node_of m ino) as En.
  { unfold node_of. rewrite El. destruct Hn as (Hr & Hu & _). by destruct (proj2 K _ (proj1 Hr) Hu) as [_ ->]. }
  assert (forall x, 0 <= x -> file_byte m' ino x = file_byte m ino x) as Hb.
  { unfold file_byte. rewrite En. apply byte_at_ext. intros p Hp off. rewrite (Href p Hp). apply data_byte_kept; [exact K|].
    apply path_walk_ok, Hwf, Hp. }
  unfold file_size in *. rewrite En in *. split; [|done]. split.
  - rewrite El. by apply (node_kept m).
  - by rewrite En.
  - rewrite En. intros p Hp Hle. rewrite (Href p Hp). by apply Ht.
  - by rewrite En.
  - unfold file_size. by rewrite En.
  - unfold file_size. rewrite En. intros pos Hp Hle. rewrite Hb by done. by apply Hz.
Qed.

Lemma ino_block_durable m ino v m' :
  durable m -> 0 < ino < MFS_INO_MAX -> mfs_ino_block ino m = (Some v, m') ->
  durable m' /\ grown m m' /\ v = itab_lookup m ino /\ forall b, mfs_view (m_io m') b = mfs_view (m_io m) b.
Proof using MfsDeviceLaws0.
  intros Hd Hino E. destruct (ino_block_spec _ _ _ _ (du_itab _ Hd) Hino E) as (Esp & Esu & Emem & H).
  destruct (H v eq_refl) as (Ev & Hwf' & Hv). split; [|split; [|done]].
  - destruct Hd as [_ Hx Hm Hsy Hsz Hsn]. split; [exact Hwf'| | | | |].
    + unfold node_ok in *. by rewrite Esp, Esu, Hv.
    + by rewrite Emem, Esu, Hv.
    + intros copy c Hc Hr Hdi. rewrite Esp, Esu, Hv in *. by apply Hsy.
    + by rewrite Esp, Esu.
    + by rewrite Esp, Esu.
  - split; [|done|done]. split; [by rewrite Esp|]. intros b Hb Hu. by rewrite Esp, Hv.
Qed.

Lemma load_node_spec ino s s' :
  0 < ino < MFS_INO_MAX -> durable (f_m s) -> file_ok (f_m s) ino -> byte_mem (f_a s) -> byte_mem (f_b s) ->
  load_node ino s = (Some tt, s') ->
  fbase s' /\ grown (f_m s) (f_m s') /\ f_b s' = f_b s /\ agree 0 MFS_BLOCK (f_a s') (node_of (f_m s) ino)
  /\ forall b, mfs_view (m_io (f_m s')) b = mfs_view (m_io (f_m s)) b.
Proof using MfsDeviceLaws0.
  intros Hino Hd Hf Ha Hb. unfold load_node. destruct (mfs_ino_block ino (f_m s)) as [[blk|] m1] eqn:E1; [|done].
  destruct (ino_block_durable _ _ _ _ Hd Hino E1) as (Hd1 & G1 & -> & Hv1). cbn [f_a f_b f_cache].
  destruct (Z.eqb_spec (itab_lookup (f_m s) ino) 0) as [|Hz]; [done|].
  destruct (mfs_read_blk _ _ _) as [[ok a] io] eqn:Er. destruct ok; cbn [negb orb]; [|done].
  destruct (mfs_ok a MFS_MAGIC_FILE); cbn [negb]; [|done]. intros H. apply pair_equal_spec in H as [_ <-]. cbn [f_a f_b f_m].
  destruct (node_u32 _ _ _ Hd (fo_node _ _ Hf)) as (_ & _ & Hr).
  destruct (read_durable _ _ _ _ _ Hd1 Hr Er) as (Hd2 & G2 & Hv2 & Hag & Hby). rewrite Hv1 in Hag.
  pose proof (grown_trans _ _ _ G1 G2) as G. destruct (ref_grown _ _ _ G (fo_wf _ _ Hf)) as [Hwf _].
  assert (roots_kept (node_of (f_m s) ino) a) as Hroots by (eapply agree_sub; [exact Hag|done|done]).
  split; [split; cbn [f_a f_b f_m]; auto; by apply (ref_ext _ _ _ Hroots)|]. split; [exact G|]. split; [reflexivity|].
  split; [exact Hag|]. intros b. cbn. rewrite Hv2. apply Hv1.
Qed.

Lemma store_node_spec ino s s' :
  0 < ino < MFS_INO_MAX -> fbase s -> store_node ino s = (Some tt, s') ->
  durable (f_m s') /\ committed (f_m s') /\ data_kept (f_m s) (f_m s')
  /\ node_ok (f_m s') MFS_MAGIC_FILE (itab_lookup (f_m s') ino)
  /\ agree MFS_HDR MFS_BLOCK (node_of (f_m s') ino) (f_a s)
  /\ MFS_WB (m_io (f_m s')) = []
  /\ forall ino', 0 < ino' < MFS_INO_MAX -> ino' <> ino -> itab_lookup (f_m s') ino' = itab_lookup (f_m s) ino'.
Proof using MfsDeviceLaws0.
  intros Hino [Hd Ha Hb Hwf]. unfold store_node, mfs_commit_object.
  destruct (mfs_commit _ _ _ _) as [[[ob a] io] p] eqn:Ec. destruct ob as [n|]; [|done].
  destruct (commit_durable _ MFS_MAGIC_FILE _ _ _ _ _ Hd Ha ltac:(done) Ec) as (Hd1 & G1 & Hn & _ & Hag).
  set (m1 := mk_mfs io p _ _) in *. destruct (mfs_itab_set ino n m1) as [[] m2] eqn:Ei; [|done].
  intros H. apply pair_equal_spec in H as [_ <-]. cbn [f_m]. destruct (node_u32 _ _ _ Hd1 Hn) as (Hn32 & _).
  destruct (itab_set_durable _ _ _ _ Hd1 Hino Hn32 Ei) as (Hd2 & Hcm & Hl).
  destruct (itab_set_spec _ _ _ _ (du_itab _ Hd1) Hino Hn32 Ei) as (_ & K2 & _ & _ & _ & _ & Hwb & _).
  assert (itab_lookup m2 ino = n) as El by (rewrite (Hl ino Hino); by rewrite Z.eqb_refl).
  split; [exact Hd2|]. split; [exact Hcm|]. split; [exact (data_kept_trans _ _ _ (gr_data _ _ G1) K2)|].
  rewrite El. split; [by apply (node_kept m1)|]. split; [|split; [exact Hwb|]].
  - unfold node_of. rewrite El. destruct Hn as (Hr & Hu & _). destruct (proj2 K2 _ (proj1 Hr) Hu) as [_ ->]. exact Hag.
  - intros ino' Hi' Hne. rewrite (Hl ino' Hi'), (proj2 (Z.eqb_neq ino' ino) Hne). by apply grown_lookup; [apply Hd|..].
Qed.

End files.

(** ** The file as an array of bytes *)

Record afile : Type := mk_afile { af_size : Z; af_byte : Z -> Z }.

Definition fwrite (offset count : Z) (src : Z -> Z) (f : afile) : afile :=
  mk_afile (Z.max (af_size f) (offset + count))
    (fun x => if (offset <=? x) && (x <? offset + count) then src (x - offset) else af_byte f x).
Definition ftruncate (n : Z) (f : afile) : afile := mk_afile n (fun x => if x <? n then af_byte f x else 0).
Definition fread (offset count : Z) (f : afile) : list Z :=
  af_byte f <$> seqZ offset (Z.min (offset + count) (af_size f) - offset).

Section array.
Context {D : Type} `{!MfsDevice D, !MfsDeviceLaws D}.
Implicit Types (m : mfs D) (s : fstate D) (f : afile).

Definition represents m (ino : Z) f : Prop :=
  file_ok m ino /\ file_size m ino = af_size f /\ forall x, 0 <= x -> file_byte m ino x = af_byte f x.

(** What every operation on file [ino] leaves alone. *)
Definition others_kept m m' (ino : Z) : Prop :=
  forall ino' f, 0 < ino' < MFS_INO_MAX -> ino' <> ino -> represents m ino' f -> represents m' ino' f.

Lemma others_step m m' ino :
  data_kept m m' -> (forall ino', 0 < ino' < MFS_INO_MAX -> ino' <> ino -> itab_lookup m' ino' = itab_lookup m ino') ->
  others_kept m m' ino.
Proof.
  intros K Hl ino' f Hi Hne (Hok & Hs & Hb). destruct (file_kept _ _ _ K (Hl _ Hi Hne) Hok) as (Hok' & Hs' & Hb').
  split; [exact Hok'|]. split; [congruence|]. intros x Hx. rewrite (Hb' x Hx). by apply Hb.
Qed.

(** A change of the node's head before it is stored. *)
Lemma upd_node_spec (g : mem -> mem) s s' :
  (forall a, roots_kept a (g a)) -> (forall a, byte_mem a -> byte_mem (g a)) -> fbase s -> upd_a g s = (Some tt, s') ->
  fbase s' /\ f_m s' = f_m s /\ f_a s' = g (f_a s) /\ forall q, plan_wf q -> ref (f_m s') (f_a s') q = ref (f_m s) (f_a s) q.
Proof.
  intros Hg Hb [Hd Ha Hbb Hwf] E. apply upd_a_spec in E as (Ea & Eb & _ & Em).
  destruct (ref_ext (f_m s) _ _ (Hg (f_a s))) as [Hwf' Href]. split; [split; rewrite ?Em, ?Ea, ?Eb; auto|].
  split; [exact Em|]. split; [exact Ea|]. by rewrite Em, Ea.
Qed.

Lemma set_size_kept v a :
  roots_kept a (mfs_file_set_size v a) /\ mfs_file_nblocks (mfs_file_set_size v a) = mfs_file_nblocks a
  /\ agree MFS_FILE_RESERVED_OFF MFS_BLOCK (mfs_file_set_size v a) a.
Proof.
  unfold roots_kept, mfs_file_set_size, mfs_file_nblocks. change MFS_FILE_NBLOCKS_OFF with 16. change MFS_FILE_DIRECT_OFF with 24.
  change MFS_FILE_SIZE_OFF with 8. change MFS_FILE_RESERVED_OFF with 4056.
  split; [intros x Hx; apply write_u64_out; lia|]. split; [apply read_u32_u64; lia|intros x Hx; apply write_u64_out; lia].
Qed.

Lemma touch_kept now a :
  roots_kept a (mfs_touch now false a) /\ mfs_file_nblocks (mfs_touch now false a) = mfs_file_nblocks a
  /\ mfs_file_size (mfs_touch now false a) = mfs_file_size a.
Proof.
  assert (agree MFS_HDR MFS_FILE_RESERVED_OFF (mfs_touch now false a) a) as H.
  { intros x Hx. unfold mfs_touch, mfs_set_ctime, mfs_set_mtime. change (mfs_meta_off false) with 4056.
    change MFS_FILE_RESERVED_OFF with 4056 in Hx. change MFS_META_CTIME with 16. change MFS_META_MTIME with 8.
    by rewrite !write_u64_out by lia. }
  split; [eapply agree_sub; [exact H|done|done]|]. split; [apply read_u32_ext|apply read_u64_ext]; (eapply agree_sub; [exact H|done|done]).
Qed.

Lemma touch_bytes now a : byte_mem a -> byte_mem (mfs_touch now false a).
Proof. intros H. unfold mfs_touch, mfs_set_ctime, mfs_set_mtime. by do 2 apply byte_mem_write_u64. Qed.

(** Storing a node with contents [f]. *)
Lemma store_file_spec now ino f s s1 s' :
  0 < ino < MFS_INO_MAX -> fbase s -> mfs_file_size (f_a s) = af_size f -> af_size f <= max_bytes ->
  (forall x, 0 <= x -> byte_at (f_m s) (ref (f_m s) (f_a s)) x = af_byte f x) ->
  (forall x, 0 <= x -> af_size f <= x -> af_byte f x = 0) ->
  (forall p, plan_wf p -> mfs_file_nblocks (f_a s) <= plan_index p -> ref (f_m s) (f_a s) p = 0) ->
  mfs_file_nblocks (f_a s) <= MFS_FILE_MAX_BLOCKS ->
  upd_a (mfs_touch now false) s = (Some tt, s1) -> store_node ino s1 = (Some tt, s') ->
  durable (f_m s') /\ committed (f_m s') /\ represents (f_m s') ino f /\ MFS_WB (m_io (f_m s')) = []
  /\ others_kept (f_m s) (f_m s') ino.
Proof using MfsDeviceLaws0.
  intros Hino Hs Hsz Hmax Hby Hz Ht Hnbm E1 E2.
  destruct (upd_node_spec _ _ _ (fun a => proj1 (touch_kept now a)) (touch_bytes now) Hs E1) as (Hs1 & Em1 & Ea1 & Href1).
  destruct (touch_kept now (f_a s)) as (_ & Tn & Ts). rewrite <- Ea1 in Tn, Ts.
  destruct (store_node_spec _ _ _ Hino Hs1 E2) as (Hd & Hcm & K & Hn & Hag & Hwb & Hl).
  destruct (ref_kept _ _ (f_a s1) K (fb_wf _ Hs1)) as [Hwf' Href'].
  assert (roots_kept (f_a s1) (node_of (f_m s') ino)) as Hroots by (eapply agree_sub; [exact Hag|done|done]).
  destruct (ref_ext (f_m s') _ _ Hroots) as [Hwf2 Href2].
  assert (forall p, plan_wf p -> ref (f_m s') (node_of (f_m s') ino) p = ref (f_m s) (f_a s) p) as Href.
  { intros p Hp. rewrite (Href2 p Hp), (Href' p Hp). exact (Href1 p Hp). }
  assert (file_size (f_m s') ino = af_size f) as Hsize.
  { unfold file_size. rewrite <- Hsz, <- Ts. apply read_u64_ext. eapply agree_sub; [exact Hag|done|done]. }
  assert (mfs_file_nblocks (node_of (f_m s') ino) = mfs_file_nblocks (f_a s)) as Hnb.
  { rewrite <- Tn. apply read_u32_ext. eapply agree_sub; [exact Hag|done|done]. }
  assert (forall x, 0 <= x -> file_byte (f_m s') ino x = af_byte f x) as Hbytes.
  { intros x Hx. rewrite <- (Hby x Hx). revert x Hx. apply byte_at_ext. intros p Hp off. rewrite (Href p Hp).
    rewrite <- Em1 at 2. apply data_byte_kept; [exact K|]. rewrite Em1. apply path_walk_ok, (fb_wf _ Hs), Hp. }
  split; [exact Hd|]. split; [exact Hcm|]. split; [split; [split|split; [exact Hsize|exact Hbytes]]|split; [exact Hwb|]].
  - exact Hn.
  - exact (Hwf2 Hwf').
  - rewrite Hnb. intros p Hp Hle. rewrite (Href p Hp). by apply Ht.
  - by rewrite Hnb.
  - by rewrite Hsize.
  - rewrite Hsize. intros x Hx Hle. rewrite (Hbytes x Hx). by apply Hz.
  - rewrite <- Em1. by apply others_step.
Qed.

End array.

(** ** Writing a file *)

Section write.
Context {D : Type} `{!MfsDevice D, !MfsDeviceLaws D}.
Implicit Types (m : mfs D) (s : fstate D) (f : afile).

(** An empty cache over a loaded node. *)
Lemma loaded_state ino f s s1 s2 :
  0 < ino < MFS_INO_MAX -> durable (f_m s) -> represents (f_m s) ino f -> byte_mem (f_a s) -> byte_mem (f_b s) ->
  load_node ino s = (Some tt, s1) -> set_cache MFS_IND_CACHE_EMPTY s1 = (Some tt, s2) ->
  fbase s2 /\ cache_ok s2 /\ grown (f_m s) (f_m s2) /\ f_a s2 = f_a s1 /\ mfs_file_size (f_a s1) = af_size f
  /\ tail_null s2 /\ mfs_file_nblocks (f_a s2) <= MFS_FILE_MAX_BLOCKS
  /\ forall x, 0 <= x -> byte_at (f_m s2) (cur s2) x = af_byte f x.
Proof using MfsDeviceLaws0.
  intros Hino Hd (Hok & Hsz & Hby) Ha Hb E1 E2. destruct (load_node_spec _ _ _ Hino Hd Hok Ha Hb E1) as (Hs1 & G & Eb & Hag & Hv).
  apply set_cache_spec in E2 as (Ea2 & Eb2 & Ec2 & Em2).
  assert (fbase s2) as Hs2 by (destruct Hs1; split; rewrite ?Ea2, ?Eb2, ?Em2; assumption).
  destruct (empty_cache s2 Ec2) as [Hc2 Hcur].
  assert (roots_kept (node_of (f_m s) ino) (f_a s1)) as Hroots by (eapply agree_sub; [exact Hag|done|done]).
  destruct (ref_grown _ _ _ G (fo_wf _ _ Hok)) as [_ Hg]. destruct (ref_ext (f_m s1) _ _ Hroots) as [_ He].
  assert (forall p, plan_wf p -> cur s2 p = ref (f_m s) (node_of (f_m s) ino) p) as Href.
  { intros p Hp. rewrite Hcur, Em2, Ea2, (He p Hp). exact (Hg p Hp). }
  split; [exact Hs2|]. split; [exact Hc2|]. split; [by rewrite Em2|]. split; [exact Ea2|]. split.
  { rewrite <- Hsz. apply read_u64_ext. eapply agree_sub; [exact Hag|done|done]. }
  assert (mfs_file_nblocks (f_a s2) = mfs_file_nblocks (node_of (f_m s) ino)) as Enb.
  { rewrite Ea2. apply read_u32_ext. eapply agree_sub; [exact Hag|done|done]. }
  split; [|split].
  - intros p Hp Hle. rewrite (Href p Hp). apply (fo_tail _ _ Hok p Hp). by rewrite <- Enb.
  - rewrite Enb. apply (fo_nblocks _ _ Hok).
  - intros x Hx. rewrite <- (Hby x Hx). revert x Hx. apply byte_at_ext. intros p Hp off. rewrite (Href p Hp), Em2.
    apply data_byte_grown; [exact G|]. apply path_walk_ok, (fo_wf _ _ Hok), Hp.
Qed.

(** A write that succeeds stays below the largest file. *)
Lemma write_in_range fuel offset count src nb s s' :
  0 <= offset < 2^64 -> 0 <= count < 2^32 -> w64 (offset + count) <= max_bytes ->
  write_loop fuel offset count src 0 nb s = (Some tt, s') -> w64 (offset + count) = offset + count.
Proof.
  rewrite max_bytes_value. intros Ho Hc He E. unfold w64 in *.
  destruct (Z.eq_dec count 0) as [->|Hz]; [rewrite Z.add_0_r in *; by apply Z.mod_small|].
  assert (offset < 4368065441992) as Hlt; [|apply Z.mod_small; lia].
  destruct fuel as [|fuel]; cbn [write_loop] in E; rewrite (proj2 (Z.leb_gt count 0)) in E by lia; [discriminate|].
  fstep E as u s0 E0. destruct u. apply require_spec in E0 as [Hb _]. apply Z.ltb_lt in Hb.
  rewrite Z.add_0_r in Hb. unfold w64 in Hb. rewrite Z.mod_small in Hb by lia. rewrite data_cap in Hb.
  change MFS_FILE_MAX_BLOCKS with 1068509159 in Hb. pose proof (Z.div_mod offset 4088 ltac:(lia)).
  pose proof (Z.mod_pos_bound offset 4088 ltac:(lia)). lia.
Qed.

(** Raising the size. *)
Lemma set_size_spec e s s' :
  0 <= e < 2^64 -> fbase s ->
  (if mfs_file_size (f_a s) <? e then upd_a (mfs_file_set_size e) else mret tt) s = (Some tt, s') ->
  fbase s' /\ f_m s' = f_m s /\ mfs_file_size (f_a s') = Z.max (mfs_file_size (f_a s)) e
  /\ mfs_file_nblocks (f_a s') = mfs_file_nblocks (f_a s)
  /\ forall q, plan_wf q -> ref (f_m s') (f_a s') q = ref (f_m s) (f_a s) q.
Proof.
  intros He Hs. destruct (Z.ltb_spec (mfs_file_size (f_a s)) e) as [Hlt|Hge]; intros E.
  - destruct (upd_node_spec _ _ _ (fun a => proj1 (set_size_kept e a)) (fun a => byte_mem_write_u64 _ _ a) Hs E) as (Hs' & Em & Ea & Href).
    split; [exact Hs'|]. split; [exact Em|]. rewrite Ea. split; [|split; [apply set_size_kept|by rewrite <- Ea]].
    unfold mfs_file_size at 1, mfs_file_set_size. rewrite read_write_u64 by exact He. lia.
  - apply ret_Some in E as [_ <-]. split; [exact Hs|]. split; [reflexivity|]. split; [lia|]. split; reflexivity.
Qed.

Lemma write_file_spec now ino offset count src f s s' :
  0 < ino < MFS_INO_MAX -> durable (f_m s) -> represents (f_m s) ino f -> byte_mem (f_a s) -> byte_mem (f_b s) -> byte_mem src ->
  0 <= offset < 2^64 -> 0 <= count < 2^32 -> write_file now ino offset count src s = (Some tt, s') ->
  durable (f_m s') /\ committed (f_m s') /\ represents (f_m s') ino (fwrite offset count src f)
  /\ MFS_WB (m_io (f_m s')) = [] /\ others_kept (f_m s) (f_m s') ino.
Proof using MfsDeviceLaws0.
  intros Hino Hd Hf Ha Hb Hsrc Ho Hcnt E. unfold write_file, write_loaded in E. fstep E as u s1 E1. destruct u.
  fstep E as a t E2. apply get_a_spec in E2 as [-> ->]. fstep E as u t E2. destruct u. apply require_spec in E2 as [He ->].
  apply Z.leb_le in He. change (w64 (offset + count) <= max_bytes) in He. fstep E as u s2 E2. destruct u.
  destruct (loaded_state _ f _ _ _ Hino Hd Hf Ha Hb E1 E2) as (Hs2 & Hc2 & G2 & Ea2 & Hsz & Ht2 & Hnb2 & Hby2).
  fstep E as u s3 E3. destruct u. pose proof (write_in_range _ _ _ _ _ _ _ Ho Hcnt He E3) as Ee. rewrite Ee in He, E. rewrite <- Ea2 in E3, E, Hsz.
  destruct (write_loop_spec _ offset count src 0 _ s2 s3 (proj1 Ho) ltac:(lia) He Hsrc eq_refl Hs2 Hc2 E3) as (Hs3 & Hc3 & G3 & M3 & T3 & Nb3 & Hby3).
  fstep E as u s4 E4. destruct u. destruct (ind_flush_spec _ _ Hs3 Hc3 E4) as (Hs4 & K4 & Href4 & _).
  destruct (head_meta _ _ (proj2 K4)) as [M4 N4]. pose proof (meta_trans _ _ _ M3 M4) as M.
  assert (mfs_file_size (f_a s4) = af_size f) as Hsz4.
  { rewrite <- Hsz. apply read_u64_ext. exact (proj1 M). }
  fstep E as u s5 E5. destruct u. rewrite Hsz, <- Hsz4 in E5. rewrite max_bytes_value in He.
  destruct (set_size_spec (offset + count) s4 s5 ltac:(lia) Hs4 E5) as (Hs5 & Em5 & Hsz5 & N5 & Href5). rewrite Hsz4 in Hsz5.
  fstep E as u s6 E6. destruct u.
  assert (forall p, plan_wf p -> ref (f_m s5) (f_a s5) p = cur s3 p) as Href by (intros p Hp; rewrite (Href5 p Hp); exact (Href4 p Hp)).
  destruct Hf as (Hok & Hfs & Hfb). pose proof (fo_size _ _ Hok) as Hmax. rewrite Hfs, max_bytes_value in Hmax.
  destruct (store_file_spec now ino (fwrite offset count src f) s5 s6 s' Hino Hs5 Hsz5) as (H1 & H2 & H3 & H4 & H5); [| | | | |exact E6|exact E|].
  - cbn. rewrite max_bytes_value. lia.
  - intros x Hx. transitivity (byte_at (f_m s3) (cur s3) x).
    + revert x Hx. apply byte_at_ext. intros p Hp off. rewrite (Href p Hp), Em5. apply data_byte_grown; [apply K4|by apply cur_ptr].
    + rewrite (Hby3 x Hx), Z.add_0_r. cbn. by rewrite (Hby2 x Hx).
  - intros x Hx Hle. cbn in *. assert ((offset <=? x) && (x <? offset + count) = false) as ->.
    { apply not_true_iff_false. rewrite andb_true_iff, Z.leb_le, Z.ltb_lt. lia. }
    rewrite <- (Hfb x Hx). apply (fo_zero _ _ Hok x Hx). lia.
  - intros p Hp Hle. rewrite (Href p Hp). apply (T3 Ht2 p Hp). by rewrite <- N4, <- N5.
  - rewrite N5, N4. exact (Nb3 Hnb2).
  - split; [exact H1|]. split; [exact H2|]. split; [exact H3|]. split; [exact H4|].
    intros ino' f' Hi Hne Hr. apply H5; [exact Hi|exact Hne|].
    assert (grown (f_m s) (f_m s5)) as G5.
    { rewrite Em5. eapply grown_trans; [exact G2|]. eapply grown_trans; [exact G3|apply K4]. }
    destruct Hr as (Hok' & Hs' & Hb'). destruct (file_kept _ _ ino' (gr_data _ _ G5)) as (O & S & B); [|exact Hok'|].
    + by apply grown_lookup; [apply Hd|..].
    + split; [exact O|]. split; [congruence|]. intros x Hx. rewrite (B x Hx). by apply Hb'.
Qed.

End write.

(** ** Reading a file *)

Section read.
Context {D : Type} `{!MfsDevice D, !MfsDeviceLaws D}.
Implicit Types (m : mfs D) (s : fstate D) (f : afile).

(** What reading keeps: everything but buffer B and the state of the device. *)
Record still s s' : Prop := {
  st_base : fbase s';
  st_a : f_a s' = f_a s;
  st_wb : MFS_WB (m_io (f_m s)) = [] -> MFS_WB (m_io (f_m s')) = [];
  st_view b : mfs_view (m_io (f_m s')) b = mfs_view (m_io (f_m s)) b;
  st_grown : grown (f_m s) (f_m s')
}.

Lemma still_refl s : fbase s -> still s s.
Proof. intros H. split; [exact H|done..|apply grown_refl]. Qed.
Lemma still_trans s1 s2 s3 : still s1 s2 -> still s2 s3 -> still s1 s3.
Proof.
  intros [A1 A2 A3 A4 A5] [B1 B2 B3 B4 B5]. split; [exact B1|congruence|auto|intros; by rewrite B4|by eapply grown_trans].
Qed.

Lemma read_blk_wb b dst (io : mfs_io D) ok buf io' :
  mfs_read_blk b dst io = (ok, buf, io') -> MFS_WB io = [] -> MFS_WB io' = [].
Proof.
  intros H Hw. unfold mfs_read_blk in H. rewrite (wb_has_empty _ _ Hw) in H. cbn [negb] in H.
  destruct (block_read_dev _ _ _) as [[ok1 bs] d]. injection H as _ _ <-. exact Hw.
Qed.

Lemma read_b_still blk magic s s' :
  fbase s -> node_ok (f_m s) magic blk -> read_b blk magic s = (Some tt, s') ->
  still s s' /\ forall slot, ind_slot_ok slot -> mfs_ind_slot (f_b s') slot = slot_of (f_m s) blk slot.
Proof using MfsDeviceLaws0.
  intros Hs Hn E. destruct (read_b_spec _ _ _ _ Hs Hn E) as (Hs' & K & Ea & _ & Hsl & Hv & _). split; [|exact Hsl].
  split; [exact Hs'|exact Ea| |exact Hv|apply K]. unfold read_b in E.
  destruct (mfs_read_blk _ _ _) as [[ok b] io] eqn:Er. destruct (_ || _); [done|]. apply pair_equal_spec in E as [_ <-].
  exact (read_blk_wb _ _ _ _ _ _ Er).
Qed.

(** A block that reads correctly passes its check. *)
Lemma read_b_total blk magic s :
  (forall v lba (d : D), (block_read_dev v lba d).1.1 = true) -> MFS_WB (m_io (f_m s)) = [] -> fbase s ->
  node_ok (f_m s) magic blk -> exists s', read_b blk magic s = (Some tt, s').
Proof using MfsDeviceLaws0.
  intros Hread Hwb [Hd _ _ _] Hn. destruct (node_u32 _ _ _ Hd Hn) as (_ & _ & Hr). unfold read_b.
  destruct (mfs_read_blk blk (f_b s) (m_io (f_m s))) as [[ok b] io] eqn:E. assert (ok = true) as ->.
  { unfold mfs_read_blk in E. rewrite (wb_has_empty _ _ Hwb) in E. cbn [negb] in E.
    match goal with H : context [block_read_dev ?v ?l ?d] |- _ => pose proof (Hread v l d) as Hok; destruct (block_read_dev v l d) as [[ok1 bs] d1] end.
    injection E as <- _ _. exact Hok. }
  destruct (read_durable _ _ _ _ _ Hd Hr E) as (_ & _ & _ & Hag & _). rewrite (ok_ext _ _ _ Hag). destruct Hn as (_ & _ & ->).
  cbn [negb orb]. eauto.
Qed.

(** One step down, for both directions of the proof. *)
Lemma read_slot_still l magic i (A : Type) (k : Z -> A) r s s' :
  fbase s -> node_ok (f_m s) magic l -> ind_slot_ok i ->
  (read_b l magic;; b ← get_b; mret (k (mfs_ind_slot b i))) s = (Some r, s') -> still s s' /\ r = k (slot_of (f_m s) l i).
Proof using MfsDeviceLaws0.
  intros Hs Hn Hi E. fstep E as u s1 E1. destruct u. destruct (read_b_still _ _ _ _ Hs Hn E1) as [Hst Hsl].
  fstep E as b s2 E2. apply get_b_spec in E2 as [-> ->]. apply ret_Some in E as [<- <-]. split; [exact Hst|]. by rewrite (Hsl i Hi).
Qed.

Lemma still_node s s' magic l : still s s' -> node_ok (f_m s) magic l -> node_ok (f_m s') magic l.
Proof. intros H. apply node_kept, (st_grown _ _ H). Qed.
Lemma still_slot s s' l i : still s s' -> slot_of (f_m s') l i = slot_of (f_m s) l i.
Proof. intros H. unfold slot_of. by rewrite (st_view _ _ H). Qed.
Lemma still_ref s s' p : still s s' -> fbase s -> plan_wf p -> ref (f_m s') (f_a s') p = ref (f_m s) (f_a s) p.
Proof.
  intros H Hs Hp. rewrite (st_a _ _ H). by apply (ref_grown _ _ _ (st_grown _ _ H) (fb_wf _ Hs)).
Qed.
Lemma still_byte s s' q off : still s s' -> data_byte (f_m s') q off = data_byte (f_m s) q off.
Proof. intros H. unfold data_byte. by rewrite (st_view _ _ H). Qed.

End read.

(** ** Computations that deliver a value *)

Section deliver.
Context {D : Type} `{!MfsDevice D, !MfsDeviceLaws D, !MfsReader D, !MfsReaderLaws D}.
Implicit Types (m : mfs D) (s : fstate D) (f : afile).

(** A device whose single-block reads complete. *)
Definition reads_ok : Prop :=
  (forall v lba (d : D), (block_read_dev v lba d).1.1 = true) /\ (forall v lba (d : D), (block_raw_read v lba d).1.1 = true).

(** [e] changes nothing, can only fail or yield [v], and yields it if the device reads. *)
Definition delivers {A} (e : F D A) s (v : A) : Prop :=
  (forall r s', e s = (Some r, s') -> still s s' /\ r = v)
  /\ (reads_ok -> MFS_WB (m_io (f_m s)) = [] -> exists r s', e s = (Some r, s')).

Lemma delivers_ret {A} (v : A) s : fbase s -> delivers (mret v) s v.
Proof.
  intros Hs. split; [|by eexists _, _]. intros r s' E. apply ret_Some in E as [<- <-]. split; [by apply still_refl|done].
Qed.

Lemma delivers_bind {A B} (e : F D A) (k : A -> F D B) s v w :
  delivers e s v -> (forall s1, still s s1 -> delivers (k v) s1 w) -> delivers (e ≫= k) s w.
Proof.
  intros [He Te] Hk. split.
  - intros r s' E. fstep E as x s1 E1. destruct (He _ _ E1) as [Hst ->].
    destruct (proj1 (Hk s1 Hst) _ _ E) as [Hst' ->]. split; [by eapply still_trans|done].
  - intros Hr Hwb. destruct (Te Hr Hwb) as (x & s1 & E1). destruct (He _ _ E1) as [Hst ->].
    destruct (proj2 (Hk s1 Hst) Hr (st_wb _ _ Hst Hwb)) as (y & s2 & E2). exists y, s2. unfold mbind, F_bind. by rewrite E1.
Qed.

Lemma delivers_get_a s : fbase s -> delivers get_a s (f_a s).
Proof. intros Hs. split; [|by eexists _, _]. intros r s' E. apply get_a_spec in E as [-> ->]. split; [by apply still_refl|done]. Qed.

Lemma delivers_slot l magic i {A} (k : Z -> A) s :
  fbase s -> node_ok (f_m s) magic l -> ind_slot_ok i ->
  delivers (read_b l magic;; b ← get_b; mret (k (mfs_ind_slot b i))) s (k (slot_of (f_m s) l i)).
Proof using MfsDeviceLaws0.
  intros Hs Hn Hi. split; [intros r s' E; by apply (read_slot_still l magic i A k)|].
  intros Hr Hwb. destruct (read_b_total _ _ _ (proj1 Hr) Hwb Hs Hn) as [s1 E1]. unfold mbind at 1, F_bind. rewrite E1. by eexists _, _.
Qed.

Lemma delivers_plan bi p s : mfs_map_plan bi = Some p -> fbase s -> delivers (plan_of bi) s p.
Proof. intros Hp Hs. unfold plan_of. rewrite Hp. by apply delivers_ret. Qed.

(** A step down that continues with the slot's value. *)
Lemma delivers_step l magic i {A} (k : Z -> F D A) s w :
  fbase s -> node_ok (f_m s) magic l -> ind_slot_ok i ->
  (forall s1, still s s1 -> delivers (k (slot_of (f_m s) l i)) s1 w) ->
  delivers (read_b l magic;; b ← get_b; k (mfs_ind_slot b i)) s w.
Proof using MfsDeviceLaws0.
  intros Hs Hn Hi Hk. split.
  - intros r s' E. fstep E as u s1 E1. destruct u. destruct (read_b_still _ _ _ _ Hs Hn E1) as [Hst Hsl].
    fstep E as b s2 E2. apply get_b_spec in E2 as [-> ->]. rewrite (Hsl i Hi) in E.
    destruct (proj1 (Hk s1 Hst) _ _ E) as [Hst' ->]. split; [by eapply still_trans|done].
  - intros Hr Hwb. destruct (read_b_total _ _ _ (proj1 Hr) Hwb Hs Hn) as [s1 E1].
    destruct (read_b_still _ _ _ _ Hs Hn E1) as [Hst Hsl]. destruct (proj2 (Hk s1 Hst) Hr (st_wb _ _ Hst Hwb)) as (y & s2 & E2).
    exists y, s2. unfold mbind at 1, F_bind. rewrite E1. unfold mbind, F_bind, get_b. by rewrite (Hsl i Hi).
Qed.

Lemma delivers_ext {A} (e e' : F D A) s v : e s = e' s -> delivers e s v -> delivers e' s v.
Proof. unfold delivers. by intros ->. Qed.

Lemma delivers_step_then l magic i {A B} (k : Z -> F D A) (j : A -> F D B) s w :
  fbase s -> node_ok (f_m s) magic l -> ind_slot_ok i ->
  (forall s1, still s s1 -> delivers (k (slot_of (f_m s) l i) ≫= j) s1 w) ->
  delivers ((read_b l magic;; b ← get_b; k (mfs_ind_slot b i)) ≫= j) s w.
Proof using MfsDeviceLaws0.
  intros Hs Hn Hi Hk.
  apply (delivers_ext (read_b l magic;; b ← get_b; k (mfs_ind_slot b i) ≫= j)); [|by apply (delivers_step l magic i (fun x => k x ≫= j))].
  unfold mbind, F_bind, get_b. by destruct (read_b l magic s) as [[[]|] s1].
Qed.

(** The block map. *)
Lemma file_map_delivers bi p s :
  0 <= bi -> mfs_map_plan bi = Some p -> fbase s -> delivers (mfs_file_map bi) s (ref (f_m s) (f_a s) p).
Proof using MfsDeviceLaws0.
  intros Hbi Hp Hs. destruct (plan_spec _ _ Hbi Hp) as [Hpw _]. unfold mfs_file_map.
  eapply delivers_bind; [by apply delivers_plan|]. intros s0 St0. eapply delivers_bind; [by apply delivers_get_a, St0|]. intros s1 St1'.
  pose proof (still_trans _ _ _ St0 St1') as St1. rewrite (st_a _ _ St0). clear St0 St1' s0.
  pose proof (fb_wf _ Hs p Hpw) as Hpath. unfold ref. unfold plan_path, plan_root in *.
  destruct (Z.eqb_spec (kind p) 0) as [K0|K0]; [apply delivers_ret, St1|].
  pose proof (pw_slot1 _ Hpw K0) as I1. pose proof (pw_slot2 _ Hpw) as I2. pose proof (pw_slot3 _ Hpw) as I3.
  (* the last level is the same for all kinds *)
  assert (forall l1 t, still s t -> path_ok (f_m s) [(MFS_MAGIC_IND, slot1 p)] l1 ->
            delivers (if l1 =? 0 then mret 0 else (read_b l1 MFS_MAGIC_IND;; b ← get_b; mret (mfs_ind_slot b (slot1 p)))) t
              (walk (f_m s) [(MFS_MAGIC_IND, slot1 p)] l1)) as Hlast.
  { intros l1 t St Hl. cbn [walk]. destruct (Z.eqb_spec l1 0) as [|Hz]; [apply delivers_ret, St|].
    destruct (path_head _ _ _ _ _ Hl) as [|Hn]; [contradiction|]. rewrite <- (still_slot s t _ _ St).
    apply (delivers_slot l1 MFS_MAGIC_IND (slot1 p) (fun x => x)); [apply St|by apply (still_node s)|exact I1]. }
  destruct (Z.eqb_spec (kind p) 1) as [K1|K1].
  { eapply delivers_bind; [apply delivers_ret, St1|]. intros t St. apply (Hlast _ t (still_trans _ _ _ St1 St) Hpath). }
  (* the two levels above it *)
  assert (forall l2 t, still s t -> path_ok (f_m s) [(MFS_MAGIC_IND2, slot2 p); (MFS_MAGIC_IND, slot1 p)] l2 ->
            delivers (l1 ← (if l2 =? 0 then mret None
                            else (read_b l2 MFS_MAGIC_IND2;; b ← get_b; mret (Some (mfs_ind_slot b (slot2 p)))));
                      match l1 with
                      | None => mret 0
                      | Some l1 => if l1 =? 0 then mret 0
                                   else (read_b l1 MFS_MAGIC_IND;; b ← get_b; mret (mfs_ind_slot b (slot1 p)))
                      end) t (walk (f_m s) [(MFS_MAGIC_IND2, slot2 p); (MFS_MAGIC_IND, slot1 p)] l2)) as Htwo.
  { intros l2 t St Hl. pose proof (path_next _ _ _ _ _ Hl) as Hnext. rewrite walk_next. unfold next_ptr in *.
    destruct (Z.eqb_spec l2 0) as [|Hz].
    { eapply delivers_bind; [apply delivers_ret, St|]. intros t' St'. apply delivers_ret, St'. }
    destruct (path_head _ _ _ _ _ Hl) as [|Hn]; [contradiction|].
    eapply delivers_bind; [apply (delivers_slot l2 MFS_MAGIC_IND2 (slot2 p) Some); [apply St|by apply (still_node s)|exact I2]|].
    intros t' St'. rewrite (still_slot s t _ _ St). apply Hlast; [by eapply still_trans|exact Hnext]. }
  destruct (Z.eqb_spec (kind p) 2) as [K2|K2]; [by apply Htwo|].
  pose proof (path_next _ _ _ _ _ Hpath) as Hnext. rewrite walk_next. unfold next_ptr in *. set (l3 := mfs_file_ind3 (f_a s)) in *.
  destruct (Z.eqb_spec l3 0) as [|Hz].
  { eapply delivers_bind; [apply delivers_ret, St1|]. intros t' St'. apply delivers_ret, St'. }
  destruct (path_head _ _ _ _ _ Hpath) as [|Hn]; [contradiction|].
  apply (delivers_step_then l3 MFS_MAGIC_IND3 (slot3 p)
    (fun l2 => if l2 =? 0 then mret None else (read_b l2 MFS_MAGIC_IND2;; b ← get_b; mret (Some (mfs_ind_slot b (slot2 p))))));
    [apply St1|by apply (still_node s)|exact I3|].
  intros t St. rewrite (still_slot s s1 _ _ St1). apply Htwo; [by eapply still_trans|exact Hnext].
Qed.

End deliver.

(** ** Windows of blocks *)

(** What [copy_window] reads: byte [r] of the blocks [dbs], laid end to end. *)
Definition block_byte (V : Z -> list Z) (q off : Z) : Z := if q =? 0 then 0 else loaded (V q) (MFS_HDR + off).
Definition window_byte (V : Z -> list Z) (dbs : list Z) (r : Z) : Z :=
  block_byte V (nth (Z.to_nat (r / MFS_DATA_CAP)) dbs 0) (r mod MFS_DATA_CAP).

Lemma window_byte_cons V db dbs r : MFS_DATA_CAP <= r -> window_byte V (db :: dbs) r = window_byte V dbs (r - MFS_DATA_CAP).
Proof.
  rewrite data_cap. intros Hr. unfold window_byte. rewrite data_cap.
  replace r with ((r - 4088) + 1 * 4088) at 1 2 by lia. rewrite Z.div_add, Z_mod_plus_full by lia.
  assert (0 <= (r - 4088) / 4088) by (apply Z.div_pos; lia).
  replace (Z.to_nat ((r - 4088) / 4088 + 1)) with (S (Z.to_nat ((r - 4088) / 4088))) by lia. reflexivity.
Qed.

Lemma window_byte_head V db dbs r : 0 <= r < MFS_DATA_CAP -> window_byte V (db :: dbs) r = block_byte V db r.
Proof. rewrite data_cap. intros Hr. unfold window_byte. rewrite data_cap, Z.div_small, Z.mod_small by lia. reflexivity. Qed.

Lemma copy_window_spec V dbs boff n done dst :
  (forall db, db ∈ dbs -> db <> 0 -> mfs_ok (loaded (V db)) MFS_MAGIC_DATA = true) ->
  0 <= boff < MFS_DATA_CAP -> (dbs = [] -> boff = 0) -> 0 <= done <= n ->
  exists done' dst', copy_window dbs (V <$> filter (fun db => db <> 0) dbs) boff n done dst = Some (done', dst')
    /\ (done' = n \/ done' = done + Z.of_nat (length dbs) * MFS_DATA_CAP - boff)
    /\ done <= done' <= n /\ done' <= done + Z.of_nat (length dbs) * MFS_DATA_CAP - boff
    /\ forall a, dst' a = if (done <=? a) && (a <? done') then window_byte V dbs (boff + (a - done)) else dst a.
Proof.
  revert boff done dst. induction dbs as [|db dbs IH]; intros boff done dst Hok Hb Hnil Hd; cbn [copy_window].
  { exists done, dst. rewrite (Hnil eq_refl) in *. split; [reflexivity|]. cbn [length]. split; [lia|]. split; [lia|]. split; [lia|]. intros a.
    assert ((done <=? a) && (a <? done) = false) as ->; [|reflexivity].
    apply not_true_iff_false. rewrite andb_true_iff, Z.leb_le, Z.ltb_lt. lia. }
  destruct (Z.leb_spec n done) as [Hle|Hlt].
  { exists done, dst. split; [reflexivity|]. cbn [length]. rewrite data_cap in *. split; [lia|]. split; [lia|]. split; [lia|]. intros a.
    assert ((done <=? a) && (a <? done) = false) as ->; [|reflexivity].
    apply not_true_iff_false. rewrite andb_true_iff, Z.leb_le, Z.ltb_lt. lia. }
  set (chunk := Z.min (MFS_DATA_CAP - boff) (n - done)).
  assert (0 < chunk /\ chunk <= n - done /\ chunk <= MFS_DATA_CAP - boff) as (C1 & C2 & C3) by lia.
  assert (chunk = MFS_DATA_CAP - boff \/ chunk = n - done) as C4 by lia.
  (* the first block, then the rest *)
  assert (forall pages dst1, pages = (V <$> filter (fun db => db <> 0) dbs) ->
            (forall a, dst1 a = if (done <=? a) && (a <? done + chunk) then block_byte V db (boff + (a - done)) else dst a) ->
            exists done' dst', copy_window dbs pages 0 n (done + chunk) dst1 = Some (done', dst')
              /\ (done' = n \/ done' = done + Z.of_nat (length (db :: dbs)) * MFS_DATA_CAP - boff)
              /\ done <= done' <= n /\ done' <= done + Z.of_nat (length (db :: dbs)) * MFS_DATA_CAP - boff
              /\ forall a, dst' a = if (done <=? a) && (a <? done') then window_byte V (db :: dbs) (boff + (a - done)) else dst a) as Hrest.
  { intros pages dst1 -> Hdst1. rewrite data_cap in *.
    destruct (IH 0 (done + chunk) dst1) as (done' & dst' & E & Hend & Hr & Hr' & Hbytes); [set_solver|rewrite ?data_cap; lia|done|lia|].
    exists done', dst'. rewrite ?data_cap in *. split; [exact E|]. cbn [length]. split; [lia|]. split; [lia|]. split; [lia|]. intros a. rewrite Hbytes, Hdst1.
    destruct (Z.leb_spec (done + chunk) a), (Z.ltb_spec a done'), (Z.leb_spec done a), (Z.ltb_spec a (done + chunk)); cbn [andb]; try lia; try reflexivity.
    - rewrite window_byte_cons by (rewrite data_cap; lia). rewrite data_cap. f_equal. lia.
    - rewrite window_byte_head; [reflexivity|]. rewrite data_cap. lia. }
  clear IH. destruct (Z.eqb_spec db 0) as [Hz|Hz].
  - rewrite filter_cons_False by (intros H; exact (H Hz)). apply Hrest; [reflexivity|]. intros a. unfold zero_bytes, copy_to.
    rewrite length_replicate, Z2Nat.id by lia. destruct (_ && _); [|reflexivity]. unfold block_byte. rewrite Hz. cbn [Z.eqb]. rewrite nth_lookup.
    destruct (_ !! _) eqn:E; [by apply lookup_replicate in E as [-> _]|reflexivity].
  - rewrite filter_cons_True by exact Hz. rewrite fmap_cons. rewrite (Hok db (list_elem_of_here _ _) Hz). cbn [negb].
    apply Hrest; [reflexivity|]. intros a. unfold copy_to. rewrite length_slice_at, Z2Nat.id by lia.
    destruct (_ && _) eqn:E; [|reflexivity]. bool_to_prop. rewrite nth_lookup, lookup_slice_at by lia. unfold from_option, id, block_byte.
    rewrite (proj2 (Z.eqb_neq db 0) Hz). f_equal. lia.
Qed.

Section windows_of_blocks.
Context {D : Type} `{!MfsDevice D, !MfsDeviceLaws D, !MfsReader D, !MfsReaderLaws D}.
Implicit Types (m : mfs D) (s : fstate D) (f : afile).

Definition blk_at m (a : mem) (i : Z) : Z :=
  match mfs_map_plan i with
  | Some p => ref m a p
  | None => 0
  end.

Lemma still_blk s s' i : still s s' -> fbase s -> 0 <= i -> blk_at (f_m s') (f_a s') i = blk_at (f_m s) (f_a s) i.
Proof.
  intros St Hs Hi. unfold blk_at. destruct (mfs_map_plan i) as [p|] eqn:E; [|reflexivity].
  apply still_ref; [exact St|exact Hs|]. by apply (plan_spec i).
Qed.

Lemma blk_ptr s i : fbase s -> 0 <= i -> data_ptr (f_m s) (blk_at (f_m s) (f_a s) i).
Proof.
  intros Hs Hi. unfold blk_at. destruct (mfs_map_plan i) as [p|] eqn:E; [|by left].
  apply path_walk_ok, (fb_wf _ Hs). by apply (plan_spec i).
Qed.

(** No block past the last one. *)
Definition no_tail s (nb : Z) : Prop := forall i, 0 <= i -> nb <= i -> blk_at (f_m s) (f_a s) i = 0.

Lemma map_window_delivers n bi nb s :
  fbase s -> 0 <= bi -> bi + Z.of_nat n <= MFS_FILE_MAX_BLOCKS -> no_tail s nb ->
  delivers (map_window n bi nb) s (blk_at (f_m s) (f_a s) <$> seqZ bi (Z.of_nat n)).
Proof using MfsDeviceLaws0.
  revert bi s. induction n as [|n IH]; intros bi s Hs Hbi Hmax Ht; cbn [map_window]; [by apply delivers_ret|].
  rewrite seqZ_cons by lia. rewrite fmap_cons.
  assert (delivers (if bi <? nb then mfs_file_map bi else mret 0) s (blk_at (f_m s) (f_a s) bi)) as Hd.
  { destruct (Z.ltb_spec bi nb) as [_|Hge]; [|rewrite (Ht bi Hbi Hge); by apply delivers_ret].
    destruct (plan_total bi ltac:(lia)) as [p Hp]. unfold blk_at. rewrite Hp. by apply file_map_delivers. }
  eapply delivers_bind; [exact Hd|]. intros s1 St.
  replace (Z.pred (Z.of_nat (S n))) with (Z.of_nat n) by lia. replace (Z.succ bi) with (bi + 1) by lia.
  assert (blk_at (f_m s1) (f_a s1) <$> seqZ (bi + 1) (Z.of_nat n) = blk_at (f_m s) (f_a s) <$> seqZ (bi + 1) (Z.of_nat n)) as Es.
  { apply list_fmap_ext. intros j x Hx. apply lookup_seqZ in Hx as [-> _]. apply still_blk; [exact St|exact Hs|lia]. }
  rewrite <- Es. eapply delivers_bind.
  - apply IH; [apply St|lia|lia|]. intros i Hi Hge. rewrite (still_blk _ _ _ St Hs Hi). by apply Ht.
  - intros s2 St2. apply delivers_ret, St2.
Qed.

(** The device may be replaced by one with the same contents. *)
Lemma dev_still s (d : D) :
  fbase s -> same_content (MFS_DEV (m_io (f_m s))) d ->
  still s (mk_fst (f_a s) (f_b s) (f_cache s) (set_io (f_m s) (mk_io (MFS_CUR_VOL (m_io (f_m s))) (MFS_WB (m_io (f_m s))) d))).
Proof using MfsDeviceLaws0.
  intros [Hd Ha Hb Hwf] Hsc. set (io := mk_io _ _ d). pose proof (w_mw _ (du_itab _ Hd)) as Hw.
  assert (forall b, mfs_view io b = mfs_view (m_io (f_m s)) b) as Hv by (intros b; unfold mfs_view, io; cbn; by rewrite Hsc).
  assert (meta_wf (set_io (f_m s) io)) as Hwf'.
  { split; [exact (w_store _ Hw)|exact (w_meta _ Hw)|exact (w_bb _ Hw)|exact (w_bmp _ Hw)]. }
  destruct (durable_grown (f_m s) (set_io (f_m s) io) Hd Hwf') as [Hd' G]; [| |reflexivity|reflexivity|].
  - destruct (durable_stable _ Hd) as (Hsy & Hsz & Hsn). split; [|done]. intros copy c Hc Hr Hdi. cbn. rewrite Hv. by apply Hsy.
  - split; [reflexivity|]. intros b _ Hu. split; [exact Hu|apply Hv].
  - split; [|reflexivity|done|exact Hv|exact G]. split; [exact Hd'|exact Ha|exact Hb|]. by apply (ref_grown (f_m s)).
Qed.

Lemma read_each_spec v lbas (d : D) o d' :
  Forall (fun lba => 0 <= lba < 2^32) lbas -> read_each v lbas d = (o, d') ->
  same_content d d' /\ (forall bss, o = Some bss -> bss = content d v <$> lbas)
  /\ ((forall v lba (d : D), (block_raw_read v lba d).1.1 = true) -> is_Some o).
Proof using MfsReaderLaws0.
  intros Hl. revert d o d'. induction Hl as [|lba lbas Hlba Hl IH]; intros d o d'; cbn [read_each].
  { intros [= <- <-]. split; [done|]. split; [by intros bss [= <-]|eauto]. }
  unfold w32. rewrite Z.mod_small by exact Hlba. destruct (block_raw_read v lba d) as [[[] bs] d1] eqn:E; cbn [negb].
  - apply raw_read_ok in E as [-> Hsc]. destruct (read_each v lbas d1) as [o1 d2] eqn:E2. destruct (IH _ _ _ E2) as (Hsc2 & Hv & Ht).
    intros [= <- <-]. split; [intros v' l'; by rewrite Hsc2|]. split.
    + intros bss H. destruct o1 as [bss1|]; [|done]. injection H as <-. rewrite fmap_cons, (Hv _ eq_refl). f_equal.
      apply list_fmap_ext. intros j x _. apply Hsc.
    + intros Hr. destruct (Ht Hr) as [x ->]. by eexists.
  - pose proof (raw_read_bad _ _ _ _ _ E) as Hsc. intros [= <- <-]. split; [exact Hsc|]. split; [done|]. intros Hr.
    pose proof (Hr v lba d) as H. rewrite E in H. discriminate.
Qed.

Lemma fetch_pages_spec v lbas (d : D) o d' :
  Forall (fun lba => 0 <= lba < 2^32) lbas -> fetch_pages v lbas d = (o, d') ->
  same_content d d' /\ (forall bss, o = Some bss -> bss = content d v <$> lbas)
  /\ ((forall v lba (d : D), (block_raw_read v lba d).1.1 = true) -> is_Some o).
Proof using MfsReaderLaws0.
  intros Hl. unfold fetch_pages. destruct lbas as [|lba lbas]; [intros [= <- <-]; split; [done|]; split; [by intros bss [= <-]|eauto]|].
  destruct (block_batch_read v (lba :: lbas) d) as [[[] bss] d1] eqn:E.
  - apply batch_read_ok in E as [-> Hsc]. intros [= <- <-]. split; [exact Hsc|]. split; [by intros bss [= <-]|eauto].
  - apply batch_read_bad in E. intros H. destruct (read_each_spec _ _ _ _ _ Hl H) as (Hsc & Hv & Ht).
    split; [intros v' l'; by rewrite Hsc|]. split; [|exact Ht]. intros bss1 H1. rewrite (Hv _ H1). apply list_fmap_ext. intros j x _. apply E.
Qed.

Lemma fetch_delivers dbs s :
  fbase s -> MFS_WB (m_io (f_m s)) = [] -> Forall (data_ptr (f_m s)) dbs ->
  delivers (fetch dbs) s (mfs_view (m_io (f_m s)) <$> filter (fun db => db <> 0) dbs).
Proof using MfsDeviceLaws0 MfsReaderLaws0.
  intros Hs Hwb Hdb. unfold fetch. set (nz := filter _ dbs). set (lbas := _ <$> nz).
  assert (Forall (fun lba => 0 <= lba < 2^32) lbas) as Hl.
  { apply Forall_fmap, Forall_forall. intros db Hin. apply list_elem_of_filter in Hin as [Hz Hin].
    rewrite Forall_forall in Hdb. destruct (Hdb db Hin) as [|Hn]; [done|]. destruct (node_u32 _ _ _ (fb_m _ Hs) Hn) as (_ & _ & Hr).
    cbn. change MFS_SECTORS_PER_BLOCK with 8. lia. }
  assert (content (MFS_DEV (m_io (f_m s))) (MFS_CUR_VOL (m_io (f_m s))) <$> lbas = mfs_view (m_io (f_m s)) <$> nz) as Ev.
  { unfold lbas. rewrite <- list_fmap_compose. apply list_fmap_ext. intros j x _. cbn. unfold mfs_view. by rewrite Hwb. }
  rewrite <- Ev. clearbody lbas. split.
  - intros r s' E. destruct (fetch_pages _ _ _) as [o d] eqn:Ef. destruct (fetch_pages_spec _ _ _ _ _ Hl Ef) as (Hsc & Hv & _).
    apply pair_equal_spec in E as [-> <-]. split; [by apply dev_still|by apply Hv].
  - intros [_ Hraw] _. destruct (fetch_pages _ _ _) as [o d] eqn:Ef. destruct (fetch_pages_spec _ _ _ _ _ Hl Ef) as (_ & _ & Ht).
    destruct (Ht Hraw) as [x ->]. by eexists _, _.
Qed.

End windows_of_blocks.

Section read_loop.
Context {D : Type} `{!MfsDevice D, !MfsDeviceLaws D, !MfsReader D, !MfsReaderLaws D}.
Implicit Types (m : mfs D) (s : fstate D) (f : afile).

(** As [delivers], for a value that is described, not given. *)
Definition yields {A} (e : F D A) s (P : A -> Prop) : Prop :=
  (forall r s', e s = (Some r, s') -> still s s' /\ P r)
  /\ (reads_ok -> MFS_WB (m_io (f_m s)) = [] -> exists r s', e s = (Some r, s')).

Lemma yields_bind {A B} (e : F D A) (k : A -> F D B) s v (P : B -> Prop) :
  delivers e s v -> (forall s1, still s s1 -> yields (k v) s1 P) -> yields (e ≫= k) s P.
Proof.
  intros [He Te] Hk. split.
  - intros r s' E. fstep E as x s1 E1. destruct (He _ _ E1) as [Hst ->].
    destruct (proj1 (Hk s1 Hst) _ _ E) as [Hst' HP]. split; [by eapply still_trans|exact HP].
  - intros Hr Hwb. destruct (Te Hr Hwb) as (x & s1 & E1). destruct (He _ _ E1) as [Hst ->].
    destruct (proj2 (Hk s1 Hst) Hr (st_wb _ _ Hst Hwb)) as (y & s2 & E2). exists y, s2. unfold mbind, F_bind. by rewrite E1.
Qed.

Lemma byte_at_blk s x : byte_at (f_m s) (ref (f_m s) (f_a s)) x
  = data_byte (f_m s) (blk_at (f_m s) (f_a s) (x / MFS_DATA_CAP)) (x mod MFS_DATA_CAP).
Proof. unfold byte_at, blk_at. by destruct (mfs_map_plan _). Qed.

(** A window over the blocks from [bi] on holds the file's bytes from there on. *)
Lemma window_file s bi n r :
  0 <= bi -> 0 <= r < Z.of_nat n * MFS_DATA_CAP ->
  window_byte (mfs_view (m_io (f_m s))) (blk_at (f_m s) (f_a s) <$> seqZ bi (Z.of_nat n)) r
  = byte_at (f_m s) (ref (f_m s) (f_a s)) (bi * MFS_DATA_CAP + r).
Proof.
  intros Hbi Hr. rewrite byte_at_blk. unfold window_byte. rewrite data_cap in *.
  pose proof (Z.div_mod r 4088 ltac:(lia)) as Dr. pose proof (Z.mod_pos_bound r 4088 ltac:(lia)) as Mr.
  assert (0 <= r / 4088 < Z.of_nat n) as Hq by lia.
  rewrite nth_lookup, list_lookup_fmap, lookup_seqZ_lt by lia. cbn [fmap option_fmap option_map from_option id]. rewrite Z2Nat.id by lia.
  replace (bi * 4088 + r) with (r + bi * 4088) by lia. rewrite Z.div_add, Z_mod_plus_full by lia. by rewrite Z.add_comm.
Qed.

Lemma read_loop_yields fuel offset n nb g done dst s :
  fbase s -> MFS_WB (m_io (f_m s)) = [] -> no_tail s nb -> 0 <= offset -> 0 <= done <= n -> offset + n <= max_bytes ->
  n - done <= Z.of_nat fuel -> (forall x, 0 <= x -> byte_at (f_m s) (ref (f_m s) (f_a s)) x = g x) ->
  yields (read_loop fuel offset n nb done dst) s
    (fun r => r.1 = n /\ forall a, r.2 a = if (done <=? a) && (a <? n) then g (offset + a) else dst a).
Proof using MfsDeviceLaws0 MfsReaderLaws0.
  revert done dst s. induction fuel as [|fuel IH]; intros done dst s Hs Hwb Ht Ho Hd Hmax Hf Hg; cbn [read_loop].
  all: destruct (Z.leb_spec n done) as [Hle|Hlt].
  1, 3: split; [|by eexists _, _]; intros r s' E; apply ret_Some in E as [<- <-]; split; [by apply still_refl|]; cbn [fst snd]; split; [lia|];
    intros a; assert ((done <=? a) && (a <? n) = false) as -> by
      (apply not_true_iff_false; rewrite andb_true_iff, Z.leb_le, Z.ltb_lt; lia); reflexivity.
  { lia. }
  rewrite max_bytes_value in Hmax. set (pos := w64 (offset + done)).
  assert (pos = offset + done) as Epos by (unfold pos, w64; apply Z.mod_small; lia). clearbody pos.
  set (jmax := Z.min _ MFS_RDBUF_PAGES). pose proof (Z.mod_pos_bound pos MFS_DATA_CAP ltac:(rewrite data_cap; lia)) as Hm.
  pose proof (Z.div_mod pos MFS_DATA_CAP ltac:(rewrite data_cap; lia)) as Dp.
  assert (0 <= pos / MFS_DATA_CAP) as Hbi by (apply Z.div_pos; rewrite ?data_cap; lia).
  assert (0 < jmax /\ pos / MFS_DATA_CAP + jmax <= MFS_FILE_MAX_BLOCKS) as [Hj Hjmax].
  { unfold jmax, div_ceil. change MFS_RDBUF_PAGES with 16. change MFS_FILE_MAX_BLOCKS with 1068509159. rewrite data_cap in *.
    split; [apply Z.min_glb_lt; [|lia]; apply Z.div_str_pos; lia|].
    assert ((n - done + pos mod 4088 + 4088 - 1) / 4088 <= 1068509159 - pos / 4088); [|lia].
    apply Z.lt_succ_r, Z.div_lt_upper_bound; lia. }
  clearbody jmax. set (dbs := blk_at (f_m s) (f_a s) <$> seqZ (pos / MFS_DATA_CAP) (Z.of_nat (Z.to_nat jmax))).
  assert (forall db, db ∈ dbs -> data_ptr (f_m s) db) as Hdbs.
  { intros db Hin. apply list_elem_of_fmap in Hin as (i & -> & Hi). apply elem_of_seqZ in Hi. apply blk_ptr; [exact Hs|lia]. }
  eapply yields_bind; [apply map_window_delivers; [exact Hs|exact Hbi|lia|exact Ht]|]. fold dbs. intros s1 St1.
  assert (Forall (data_ptr (f_m s1)) dbs) as Hdb1.
  { apply Forall_forall. intros db Hin. exact (data_ptr_grown _ _ _ (st_grown _ _ St1) (Hdbs db Hin)). }
  eapply yields_bind; [apply fetch_delivers; [apply St1|by apply (st_wb _ _ St1)|exact Hdb1]|]. intros s2 St2'.
  pose proof (still_trans _ _ _ St1 St2') as St2. rewrite (list_fmap_ext _ (mfs_view (m_io (f_m s)))) by (intros; apply (st_view _ _ St1)).
  destruct (copy_window_spec (mfs_view (m_io (f_m s))) dbs (pos mod MFS_DATA_CAP) n done dst) as (done' & dst' & -> & Hend & Hr & Hr' & Hbytes).
  { intros db Hin Hz. destruct (Hdbs db Hin) as [|(_ & _ & H)]; [contradiction|exact H]. }
  { exact Hm. }
  { intros E. apply (f_equal length) in E. unfold dbs in E. rewrite length_fmap, length_seqZ in E. cbn [length] in E. lia. }
  { exact Hd. }
  assert (length dbs = Z.to_nat jmax) as Elen by (unfold dbs; rewrite length_fmap, length_seqZ; lia). rewrite Elen, Z2Nat.id in Hend, Hr' by lia.
  assert (done < done') as Hprog by (rewrite data_cap in *; lia).
  destruct (IH done' dst' s2) as [H1 H2]; [apply St2|by apply (st_wb _ _ St2)| |exact Ho|lia|rewrite max_bytes_value; lia|lia| |].
  { intros i Hi Hge. rewrite (still_blk _ _ _ St2 Hs Hi). by apply Ht. }
  { intros x Hx. rewrite <- (Hg x Hx). revert x Hx. apply byte_at_ext. intros p Hp off. rewrite (still_ref _ _ p St2 Hs Hp). apply (still_byte _ _ _ _ St2). }
  split; [|exact H2]. intros r s' E. destruct (H1 r s' E) as [Hst [Hn Hres]]. split; [exact Hst|]. split; [exact Hn|].
  intros a. rewrite Hres, Hbytes. destruct (Z.leb_spec done' a), (Z.ltb_spec a n), (Z.leb_spec done a), (Z.ltb_spec a done'); cbn [andb]; try lia; try reflexivity.
  rewrite <- Hg by lia. unfold dbs. rewrite window_file; [|exact Hbi|rewrite data_cap in *; lia]. f_equal. lia.
Qed.

End read_loop.

Section read_file.
Context {D : Type} `{!MfsDevice D, !MfsDeviceLaws D, !MfsReader D, !MfsReaderLaws D}.
Implicit Types (m : mfs D) (s : fstate D) (f : afile).

Lemma read_node_total magic b dst m :
  reads_ok -> MFS_WB (m_io m) = [] -> durable m -> node_ok m magic b ->
  exists buf io, mfs_read_blk b dst (m_io m) = (true, buf, io) /\ mfs_ok buf magic = true /\ MFS_WB io = [].
Proof using MfsDeviceLaws0.
  intros [Hread _] Hwb Hd Hn. destruct (node_u32 _ _ _ Hd Hn) as (_ & _ & Hr).
  destruct (mfs_read_blk b dst (m_io m)) as [[ok buf] io] eqn:E. assert (ok = true) as ->.
  { unfold mfs_read_blk in E. rewrite (wb_has_empty _ _ Hwb) in E. cbn [negb] in E.
    match goal with H : context [block_read_dev ?v ?l ?d] |- _ => pose proof (Hread v l d) as Hok; destruct (block_read_dev v l d) as [[ok1 bs] d1] end.
    injection E as <- _ _. exact Hok. }
  exists buf, io. split; [reflexivity|]. split; [|exact (read_blk_wb _ _ _ _ _ _ E Hwb)].
  destruct (read_durable _ _ _ _ _ Hd Hr E) as (_ & _ & _ & Hag & _). rewrite (ok_ext _ _ _ Hag). apply Hn.
Qed.

Lemma ino_block_total ino m :
  reads_ok -> MFS_WB (m_io m) = [] -> durable m -> 0 < ino < MFS_INO_MAX ->
  exists v m', mfs_ino_block ino m = (Some v, m') /\ MFS_WB (m_io m') = [].
Proof using MfsDeviceLaws0.
  intros Hr Hwb Hd Hino. unfold mfs_ino_block. rewrite (proj2 (Z.eqb_neq ino 0)), (proj2 (Z.leb_gt _ _)) by lia. cbn [orb].
  destruct (ino_slot_range ino Hino) as [Hk _]. unfold mfs_ino_slot. set (k := ino / MFS_ITAB_SLOTS) in *. pose proof (du_itab _ Hd) as Hi.
  destruct (Z.eqb_spec (mfs_itab_table k (m_tab m)) 0) as [|Hz]; [eauto|]. destruct (_ =? k); [eauto|].
  pose proof (w_tables _ Hi _ (table_elem m k (w_len _ Hi) Hk) Hz) as Hn.
  destruct (read_node_total _ _ (mfs_itab_buf (m_tab m)) _ Hr Hwb Hd Hn) as (buf & io & -> & -> & Hw). cbn [negb orb]. eauto.
Qed.

Lemma load_node_total ino s :
  reads_ok -> MFS_WB (m_io (f_m s)) = [] -> durable (f_m s) -> 0 < ino < MFS_INO_MAX -> file_ok (f_m s) ino ->
  exists s', load_node ino s = (Some tt, s') /\ MFS_WB (m_io (f_m s')) = [].
Proof using MfsDeviceLaws0.
  intros Hr Hwb Hd Hino Hok. unfold load_node. destruct (ino_block_total ino _ Hr Hwb Hd Hino) as (v & m1 & E & Hw1). rewrite E.
  destruct (ino_block_durable _ _ _ _ Hd Hino E) as (Hd1 & G1 & -> & _). pose proof (fo_node _ _ Hok) as Hn.
  destruct (node_u32 _ _ _ Hd Hn) as (_ & Hz & _). rewrite (proj2 (Z.eqb_neq _ 0) Hz). cbn [f_a f_b f_cache].
  destruct (read_node_total _ _ (f_a s) _ Hr Hw1 Hd1 (node_kept _ _ _ _ (gr_data _ _ G1) Hn)) as (a & io & -> & -> & Hw).
  cbn [negb orb]. eauto.
Qed.

Lemma load_node_wb ino s s' :
  load_node ino s = (Some tt, s') -> MFS_WB (m_io (f_m s)) = [] -> MFS_WB (m_io (f_m s')) = [].
Proof.
  intros E Hwb. unfold load_node in E. destruct (mfs_ino_block ino (f_m s)) as [[blk|] m1] eqn:E1; [|done].
  assert (MFS_WB (m_io m1) = []) as Hw1.
  { unfold mfs_ino_block in E1. destruct (_ || _); [done|]. destruct (mfs_ino_slot ino) as [k j].
    destruct (_ =? 0); [by injection E1 as _ <-|]. destruct (_ =? k); [by injection E1 as _ <-|].
    destruct (mfs_read_blk _ _ _) as [[ok b] io] eqn:Er. destruct (_ || _); [done|]. injection E1 as _ <-. exact (read_blk_wb _ _ _ _ _ _ Er Hwb). }
  destruct (blk =? 0); [done|]. destruct (mfs_read_blk _ _ _) as [[ok a] io] eqn:Er. destruct (_ || _); [done|].
  apply pair_equal_spec in E as [_ <-]. exact (read_blk_wb _ _ _ _ _ _ Er Hw1).
Qed.

(** What reading leaves: every file as it was. *)
Definition files_kept m m' : Prop :=
  durable m' /\ MFS_WB (m_io m') = [] /\ forall ino f, 0 < ino < MFS_INO_MAX -> represents m ino f -> represents m' ino f.

Lemma grown_files m m' : durable m -> durable m' -> MFS_WB (m_io m') = [] -> grown m m' -> files_kept m m'.
Proof.
  intros Hd Hd' Hw G. split; [exact Hd'|]. split; [exact Hw|]. intros ino f Hi (Hok & Hs & Hb).
  destruct (file_kept _ _ ino (gr_data _ _ G)) as (O & S & B); [by apply grown_lookup; [apply Hd|..]|exact Hok|].
  split; [exact O|]. split; [congruence|]. intros x Hx. rewrite (B x Hx). by apply Hb.
Qed.

Lemma read_file_spec ino offset count dst f s :
  0 < ino < MFS_INO_MAX -> durable (f_m s) -> MFS_WB (m_io (f_m s)) = [] -> represents (f_m s) ino f ->
  byte_mem (f_a s) -> byte_mem (f_b s) -> 0 <= offset < 2^64 -> 0 <= count < 2^32 ->
  (forall r s', read_file ino offset count dst s = (Some r, s') ->
     files_kept (f_m s) (f_m s') /\ r.1 = Z.of_nat (length (fread offset count f))
     /\ forall a, r.2 a = if (0 <=? a) && (a <? r.1) then af_byte f (offset + a) else dst a)
  /\ (reads_ok -> exists r s', read_file ino offset count dst s = (Some r, s')).
Proof using MfsDeviceLaws0 MfsReaderLaws0.
  intros Hino Hd Hwb Hf Ha Hb Ho Hc. pose proof Hf as (Hok & Hfs & Hfb).
  pose proof (fo_size _ _ Hok) as Hmax. rewrite Hfs, max_bytes_value in Hmax.
  assert (forall s1, load_node ino s = (Some tt, s1) ->
            yields (a ← get_a;
                    let size := mfs_file_size a in
                    if size <=? offset then mret (0, dst)
                    else
                      let e := Z.min (w64 (offset + count)) size in
                      let n := w32 (e - offset) in
                      read_loop (Z.to_nat n) offset n (mfs_file_nblocks a) 0 dst) s1
              (fun r => r.1 = Z.of_nat (length (fread offset count f))
                        /\ forall a, r.2 a = if (0 <=? a) && (a <? r.1) then af_byte f (offset + a) else dst a)) as Hrest.
  { intros s1 E1. set (s2 := mk_fst (f_a s1) (f_b s1) MFS_IND_CACHE_EMPTY (f_m s1)).
    destruct (loaded_state ino f s s1 s2 Hino Hd Hf Ha Hb E1 eq_refl) as (Hs2 & Hc2 & G2 & _ & Hsz & Ht2 & _ & Hby2).
    assert (fbase s1) as Hs1 by (destruct Hs2; by split).
    assert (no_tail s1 (mfs_file_nblocks (f_a s1))) as Hnt.
    { intros i Hi Hge. unfold blk_at. destruct (mfs_map_plan i) as [p|] eqn:Ep; [|reflexivity]. destruct (plan_spec _ _ Hi Ep) as [Hp Ei].
      specialize (Ht2 p Hp). rewrite Ei in Ht2. exact (Ht2 Hge). }
    eapply yields_bind; [by apply delivers_get_a|]. intros s3 St. rewrite Hsz. unfold fread. rewrite length_fmap, length_seqZ.
    destruct (Z.leb_spec (af_size f) offset) as [Hle|Hlt].
    - split; [|by eexists _, _]. intros r s' E. apply ret_Some in E as [<- <-]. split; [apply still_refl, St|]. cbn [fst snd].
      split; [lia|]. intros a. assert ((0 <=? a) && (a <? 0) = false) as ->; [|reflexivity].
      apply not_true_iff_false. rewrite andb_true_iff, Z.leb_le, Z.ltb_lt. lia.
    - assert (w64 (offset + count) = offset + count) as -> by (unfold w64; apply Z.mod_small; lia).
      assert (w32 (Z.min (offset + count) (af_size f) - offset) = Z.min (offset + count) (af_size f) - offset) as ->
        by (unfold w32; apply Z.mod_small; lia).
      set (n := Z.min (offset + count) (af_size f) - offset). assert (0 <= n /\ offset + n <= 4368065441992) as [Hn0 Hnm] by lia.
      assert (MFS_WB (m_io (f_m s3)) = []) as Hw3 by (apply (st_wb _ _ St), (load_node_wb _ _ _ E1 Hwb)).
      destruct (read_loop_yields (Z.to_nat n) offset n (mfs_file_nblocks (f_a s1)) (af_byte f) 0 dst s3) as [H1 H2];
        [apply St|exact Hw3| |lia|lia|rewrite max_bytes_value; lia|lia| |].
      + intros i Hi Hge. rewrite (still_blk _ _ _ St Hs1 Hi). by apply Hnt.
      + intros x Hx. rewrite <- (Hby2 x Hx). revert x Hx. apply byte_at_ext. intros p Hp off.
        rewrite (still_ref _ _ p St Hs1 Hp), (still_byte _ _ _ _ St). reflexivity.
      + split; [|exact H2]. intros r s' E. destruct (H1 r s' E) as [Hst [Er Hres]]. split; [exact Hst|]. rewrite Er. split; [lia|exact Hres]. }
  split.
  - intros r s' E. unfold read_file in E. fstep E as u s1 E1. destruct u. destruct (proj1 (Hrest s1 E1) _ _ E) as [St Hr]. split; [|exact Hr].
    destruct (load_node_spec _ _ _ Hino Hd Hok Ha Hb E1) as (_ & G & _). apply grown_files; [exact Hd|apply St| |exact (grown_trans _ _ _ G (st_grown _ _ St))].
    apply (st_wb _ _ St), (load_node_wb _ _ _ E1 Hwb).
  - intros Hr. destruct (load_node_total ino s Hr Hwb Hd Hino Hok) as (s1 & E1 & Hw1).
    destruct (proj2 (Hrest s1 E1) Hr Hw1) as (r & s' & E). exists r, s'. unfold read_file, mbind at 1, F_bind. by rewrite E1.
Qed.

End read_file.

(** ** Truncation *)

Section truncation.
Context {D : Type} `{!MfsDevice D, !MfsDeviceLaws D}.
Implicit Types (m : mfs D) (s : fstate D) (f : afile).

(** The areas of the pointer trees. *)
Definition ind1_end : Z := MFS_FILE_DIRECT + MFS_IND_CAP.
Definition ind2_end : Z := ind1_end + MFS_IND_CAP * MFS_IND_CAP.

Lemma plan_kind p : plan_wf p ->
  0 <= plan_index p < MFS_FILE_MAX_BLOCKS
  /\ kind p = if plan_index p <? MFS_FILE_DIRECT then 0 else if plan_index p <? ind1_end then 1
              else if plan_index p <? ind2_end then 2 else 3.
Proof.
  intros [Hk Hd H1 H2 H3 L2 L3]. unfold ind_slot_ok, ind2_end, ind1_end, plan_index, MFS_FILE_MAX_BLOCKS in *.
  change MFS_IND_CAP with 1022 in *. change MFS_FILE_DIRECT with 1005 in *.
  destruct Hk as [Hk|[Hk|[Hk|Hk]]]; rewrite Hk in *; cbn [Z.eqb Pos.eqb];
    repeat match goal with |- context [?x <? ?y] => destruct (Z.ltb_spec x y) end; lia.
Qed.

Lemma plan_at i : 0 <= i < MFS_FILE_MAX_BLOCKS -> exists p, mfs_map_plan i = Some p /\ plan_wf p /\ plan_index p = i.
Proof. intros H. destruct (plan_total i H) as [p Hp]. exists p. split; [done|]. apply (plan_spec i); [lia|done]. Qed.

Lemma index_inj p q : plan_wf p -> plan_wf q -> plan_index p = plan_index q -> p = q.
Proof.
  intros Hp Hq E. destruct (plan_kind p Hp) as [_ Kp], (plan_kind q Hq) as [_ Kq]. rewrite E, <- Kq in Kp.
  destruct Hp as [Pk Pd P1 P2 P3 PL2 PL3], Hq as [Qk Qd Q1 Q2 Q3 QL2 QL3]. unfold plan_index in E. rewrite Kp in *.
  unfold ind_slot_ok in *. change MFS_IND_CAP with 1022 in *.
  destruct Qk as [K|[K|[K|K]]]; rewrite K in *; cbn [Z.eqb Pos.eqb] in E.
  - apply plan_ext; [congruence|rewrite PL3, QL3 by lia; reflexivity|rewrite PL2, QL2 by lia; reflexivity|exact E].
  - apply plan_ext; [congruence|rewrite PL3, QL3 by lia; reflexivity|rewrite PL2, QL2 by lia; reflexivity|lia].
  - specialize (P1 ltac:(lia)). specialize (Q1 ltac:(lia)). apply plan_ext; [congruence|rewrite PL3, QL3 by lia; reflexivity|lia|lia].
  - specialize (P1 ltac:(lia)). specialize (Q1 ltac:(lia)). apply plan_ext; [congruence|lia|lia|lia].
Qed.

(** Blocks [lo <= i < hi] have been unmapped. *)
Definition unmapped (lo hi : Z) s s' : Prop :=
  forall q, plan_wf q -> cur s' q = if (lo <=? plan_index q) && (plan_index q <? hi) then 0 else cur s q.

Lemma unmapped_none lo hi s : hi <= lo -> unmapped lo hi s s.
Proof.
  intros H q Hq. assert ((lo <=? plan_index q) && (plan_index q <? hi) = false) as ->; [|reflexivity].
  apply not_true_iff_false. rewrite andb_true_iff, Z.leb_le, Z.ltb_lt. lia.
Qed.

Lemma unmapped_app lo mid hi s1 s2 s3 :
  lo <= mid <= hi -> unmapped lo mid s1 s2 -> unmapped mid hi s2 s3 -> unmapped lo hi s1 s3.
Proof.
  intros H H1 H2 q Hq. rewrite (H2 q Hq), (H1 q Hq).
  destruct (Z.leb_spec lo (plan_index q)), (Z.ltb_spec (plan_index q) mid), (Z.leb_spec mid (plan_index q)), (Z.ltb_spec (plan_index q) hi);
    cbn [andb]; try lia; reflexivity.
Qed.

Lemma relinked_unmapped bi p s s' :
  plan_wf p -> plan_index p = bi -> relinked p 0 (cur s) (cur s') -> unmapped bi (bi + 1) s s'.
Proof.
  intros Hp Ei Hre q Hq. destruct (Hre q Hq) as [H1 H2].
  destruct (Z.leb_spec bi (plan_index q)), (Z.ltb_spec (plan_index q) (bi + 1)); cbn [andb].
  - apply H1, index_inj; [exact Hq|exact Hp|lia].
  - apply H2. intros ->. lia.
  - apply H2. intros ->. lia.
  - apply H2. intros ->. lia.
Qed.

Lemma unmap_block_spec bi p s s' :
  0 <= bi -> mfs_map_plan bi = Some p -> fbase s -> cache_ok s -> mfs_unmap_block bi s = (Some tt, s') ->
  fbase s' /\ cache_ok s' /\ fkept s s' /\ unmapped bi (bi + 1) s s'
  /\ c_kind (f_cache s') = (if kind p =? 0 then c_kind (f_cache s) else if kind p =? 3 then 0 else kind p).
Proof using MfsDeviceLaws0.
  intros Hbi Hp Hs Hc E. destruct (plan_spec _ _ Hbi Hp) as [Hpw Ei]. unfold mfs_unmap_block in E. fstep E as old s1 E1.
  destruct (ind_peek_spec _ _ _ _ _ Hbi Hp Hs Hc E1) as (Hs1 & Hc1 & K1 & Eq & Ek & Hcur1).
  destruct (Z.eqb_spec old 0) as [Hz|Hz].
  - apply ret_Some in E as [_ <-]. split; [exact Hs1|]. split; [exact Hc1|]. split; [exact K1|]. split; [|exact Ek].
    apply (relinked_unmapped bi p); [exact Hpw|exact Ei|]. intros q Hq. split; [intros ->; rewrite (Hcur1 _ Hpw); congruence|auto].
  - assert (kind p = 3 -> c_kind (f_cache s1) = 0) as H3 by (intros H; rewrite Ek, H; reflexivity).
    destruct (ind_link_spec _ _ 0 _ _ Hbi Hp Hs1 Hc1 (or_introl eq_refl) H3 E) as (Hs' & Hc' & K' & Hre & Ek').
    split; [exact Hs'|]. split; [exact Hc'|]. split; [exact (fkept_trans _ _ _ K1 K')|]. split; [|congruence].
    apply (relinked_unmapped bi p); [exact Hpw|exact Ei|]. intros q Hq. destruct (Hre q Hq) as [H1 H2]. split; [exact H1|].
    intros Hne. rewrite (H2 Hne). exact (Hcur1 q Hq).
Qed.

(** A run of blocks of one kind. *)
Lemma unmap_range_spec k n b s s' :
  k <> 0 -> (forall i, b <= i < b + Z.of_nat n -> 0 <= i < MFS_FILE_MAX_BLOCKS /\ forall p, mfs_map_plan i = Some p -> kind p = k) ->
  fbase s -> cache_ok s -> unmap_range n b s = (Some tt, s') ->
  fbase s' /\ cache_ok s' /\ fkept s s' /\ unmapped b (b + Z.of_nat n) s s'
  /\ (c_kind (f_cache s') = c_kind (f_cache s) \/ (n <> 0%nat /\ c_kind (f_cache s') = if k =? 3 then 0 else k)).
Proof using MfsDeviceLaws0.
  intros Hk. revert b s. induction n as [|n IH]; intros b s Hr Hs Hc E; cbn [unmap_range] in E.
  { apply ret_Some in E as [_ <-]. split; [exact Hs|]. split; [exact Hc|]. split; [apply fkept_refl|]. split; [apply unmapped_none; lia|by left]. }
  fstep E as u s1 E1. destruct u. destruct (Hr b ltac:(lia)) as [Hb Hkb]. destruct (plan_total b Hb) as [p Hp].
  destruct (unmap_block_spec b p s s1 ltac:(lia) Hp Hs Hc E1) as (Hs1 & Hc1 & K1 & U1 & Ek1).
  destruct (IH (b + 1) s1) as (Hs' & Hc' & K' & U' & Ek'); [intros i Hi; apply Hr; lia|exact Hs1|exact Hc1|exact E|].
  rewrite (Hkb p Hp), (proj2 (Z.eqb_neq k 0) Hk) in Ek1.
  split; [exact Hs'|]. split; [exact Hc'|]. split; [exact (fkept_trans _ _ _ K1 K')|]. split.
  - replace (b + Z.of_nat (S n)) with (b + 1 + Z.of_nat n) by lia. eapply unmapped_app; [|exact U1|exact U']. lia.
  - right. split; [done|]. destruct Ek' as [->|[_ ->]]; [exact Ek1|reflexivity].
Qed.

(** The direct pointers. *)
Lemma clear_direct_spec n b s s' :
  0 <= b -> (n <> 0%nat -> b + Z.of_nat n <= MFS_FILE_DIRECT) -> fbase s -> cache_ok s -> clear_direct n b s = (Some tt, s') ->
  fbase s' /\ cache_ok s' /\ fkept s s' /\ unmapped b (b + Z.of_nat n) s s' /\ c_kind (f_cache s') = c_kind (f_cache s).
Proof using MfsDeviceLaws0.
  revert b s. induction n as [|n IH]; intros b s Hb Hmax Hs Hc E; cbn [clear_direct] in E.
  { apply ret_Some in E as [_ <-]. split; [exact Hs|]. split; [exact Hc|]. split; [apply fkept_refl|]. split; [apply unmapped_none; lia|done]. }
  specialize (Hmax ltac:(done)). fstep E as u s1 E1. destruct u.
  assert (mfs_map_plan b = Some (mk_plan 0 0 0 b)) as Hp by (unfold mfs_map_plan; rewrite (proj2 (Z.ltb_lt _ _)) by lia; reflexivity).
  assert (mfs_ind_link b 0 s = (Some tt, s1)) as E1'.
  { unfold mfs_ind_link, plan_of. rewrite Hp. exact E1. }
  destruct (ind_link_spec _ _ 0 _ _ Hb Hp Hs Hc (or_introl eq_refl) ltac:(done) E1') as (Hs1 & Hc1 & K1 & Hre & Ek1).
  destruct (plan_spec _ _ Hb Hp) as [Hpw Ei]. pose proof (relinked_unmapped _ _ _ _ Hpw Ei Hre) as U1.
  destruct (IH (b + 1) s1) as (Hs' & Hc' & K' & U' & Ek'); [lia|lia|exact Hs1|exact Hc1|exact E|].
  split; [exact Hs'|]. split; [exact Hc'|]. split; [exact (fkept_trans _ _ _ K1 K')|]. split; [|congruence].
  replace (b + Z.of_nat (S n)) with (b + 1 + Z.of_nat n) by lia. eapply unmapped_app; [|exact U1|exact U']. lia.
Qed.

End truncation.

Section truncate.
Context {D : Type} `{!MfsDevice D, !MfsDeviceLaws D}.
Implicit Types (m : mfs D) (s : fstate D) (f : afile).

(** Dropping the root of a tree the cache is not in. *)
Lemma drop_root_spec k s s' :
  k = 1 \/ k = 2 \/ k = 3 -> c_kind (f_cache s) <> k -> fbase s -> cache_ok s ->
  upd_a (set_root (root_plan k) 0) s = (Some tt, s') ->
  fbase s' /\ cache_ok s' /\ fkept s s' /\ c_kind (f_cache s') = c_kind (f_cache s)
  /\ forall q, plan_wf q -> cur s' q = if kind q =? k then 0 else cur s q.
Proof.
  intros Hk Hck Hs Hc E.
  destruct (upd_root_spec k 0 s s' Hk Hs ltac:(lia) ltac:(intros; apply path_zero) E) as (Hs' & K & Eb & Ec & Em & Href).
  assert (forall q, covers (f_cache s) q = true -> (kind q =? k) = false) as Hcov.
  { intros q Hq. apply covers_spec in Hq. apply Z.eqb_neq. lia. }
  split; [exact Hs'|]. split; [|split; [exact K|split; [by rewrite Ec|]]].
  - destruct Hc as [C1 C2 C3 C4 C5]. split; rewrite ?Ec, ?Eb, ?Em; try assumption. intros q Hd Hq Hcq.
    rewrite <- Em at 1. rewrite (Href q Hq), (Hcov q Hcq). by apply C5.
  - intros q Hq. unfold cur. rewrite Ec, Eb. destruct (covers (f_cache s) q) eqn:Ecq; [by rewrite (Hcov q Ecq)|].
    rewrite (Href q Hq). destruct (kind q =? k); [apply walk_zero|reflexivity].
Qed.

(** The area of blocks mapped through tree [k]. *)
Definition area (k lo hi : Z) : Prop :=
  (k = 1 /\ lo = MFS_FILE_DIRECT /\ hi = ind1_end) \/ (k = 2 /\ lo = ind1_end /\ hi = ind2_end)
  \/ (k = 3 /\ lo = ind2_end /\ hi = MFS_FILE_MAX_BLOCKS).

Lemma area_spec k lo hi : area k lo hi ->
  0 <= lo <= hi /\ hi <= MFS_FILE_MAX_BLOCKS /\ (k = 1 \/ k = 2 \/ k = 3)
  /\ forall q, plan_wf q -> (kind q =? k) = (lo <=? plan_index q) && (plan_index q <? hi).
Proof.
  intros H. split; [|split; [|split; [unfold area in H; lia|]]].
  1, 2: unfold area, ind2_end, ind1_end, MFS_FILE_MAX_BLOCKS in *; change MFS_IND_CAP with 1022 in *; change MFS_FILE_DIRECT with 1005 in *; lia.
  intros q Hq. destruct (plan_kind q Hq) as [Hr ->].
  unfold area, ind2_end, ind1_end, MFS_FILE_MAX_BLOCKS in *; change MFS_IND_CAP with 1022 in *; change MFS_FILE_DIRECT with 1005 in *.
  apply eq_true_iff_eq. rewrite Z.eqb_eq, andb_true_iff, Z.leb_le, Z.ltb_lt.
  repeat match goal with |- context [?x <? ?y] => destruct (Z.ltb_spec x y) end; lia.
Qed.

Lemma drop_area_spec k lo hi hi' keep nb s s' :
  area k lo hi -> Z.min hi' nb = Z.min hi nb -> 0 <= keep -> c_kind (f_cache s) <> k ->
  (forall q, plan_wf q -> nb <= plan_index q -> cur s q = 0) ->
  fbase s -> cache_ok s -> drop_area lo hi' keep nb (set_root (root_plan k) 0) s = (Some tt, s') ->
  fbase s' /\ cache_ok s' /\ fkept s s' /\ unmapped (Z.max keep lo) hi s s'
  /\ (c_kind (f_cache s') = c_kind (f_cache s) \/ (lo < keep < hi /\ c_kind (f_cache s') = if k =? 3 then 0 else k)).
Proof using MfsDeviceLaws0.
  intros Harea Hhi Hkeep Hck Htail Hs Hc E. destruct (area_spec _ _ _ Harea) as (Hlh & Hmax & Hk & Hkind). unfold drop_area in E.
  destruct (Z.ltb_spec lo nb) as [Hlt|Hge].
  2: { apply ret_Some in E as [_ <-]. split; [exact Hs|]. split; [exact Hc|]. split; [apply fkept_refl|]. split; [|by left].
       intros q Hq. destruct (_ && _) eqn:Ei; [|reflexivity]. bool_to_prop. apply Htail; [exact Hq|lia]. }
  destruct (Z.leb_spec keep lo) as [Hle|Hgt].
  - destruct (drop_root_spec k s s' Hk Hck Hs Hc E) as (Hs' & Hc' & K' & Ek & Hcur).
    split; [exact Hs'|]. split; [exact Hc'|]. split; [exact K'|]. split; [|by left]. intros q Hq.
    rewrite (Hcur q Hq), (Hkind q Hq). by replace (Z.max keep lo) with lo by lia.
  - rewrite Hhi in E. replace (Z.max keep lo) with keep in * by lia. set (n := Z.to_nat (Z.min hi nb - keep)) in E.
    destruct (unmap_range_spec k n keep s s') as (Hs' & Hc' & K' & U' & Ek); [lia| |exact Hs|exact Hc|exact E|].
    { intros i Hi. split; [lia|]. intros p Hp. destruct (plan_spec i p ltac:(lia) Hp) as [Hpw Ei].
      apply Z.eqb_eq. rewrite (Hkind p Hpw), Ei. apply andb_true_iff. rewrite Z.leb_le, Z.ltb_lt. lia. }
    split; [exact Hs'|]. split; [exact Hc'|]. split; [exact K'|]. split.
    + intros q Hq. rewrite (U' q Hq). unfold n. destruct (Z.leb_spec keep (plan_index q)); cbn [andb]; [|reflexivity].
      destruct (Z.ltb_spec (plan_index q) (keep + Z.of_nat (Z.to_nat (Z.min hi nb - keep)))), (Z.ltb_spec (plan_index q) hi); try lia; try reflexivity.
      apply Htail; [exact Hq|lia].
    + destruct Ek as [->|[Hn ->]]; [by left|]. right. split; [lia|reflexivity].
Qed.

(** Every block from [keep] on. *)
Lemma drop_all_spec keep nb s s1 s2 s3 s' :
  0 <= keep <= MFS_FILE_MAX_BLOCKS -> nb <= MFS_FILE_MAX_BLOCKS -> f_cache s = MFS_IND_CACHE_EMPTY -> fbase s -> nb = mfs_file_nblocks (f_a s) ->
  tail_null s -> clear_direct (Z.to_nat (Z.min MFS_FILE_DIRECT nb - keep)) keep s = (Some tt, s1) ->
  drop_area MFS_FILE_DIRECT ind1_end keep nb (mfs_file_set_ind1 0) s1 = (Some tt, s2) ->
  drop_area ind1_end ind2_end keep nb (mfs_file_set_ind2 0) s2 = (Some tt, s3) ->
  drop_area ind2_end nb keep nb (mfs_file_set_ind3 0) s3 = (Some tt, s') ->
  fbase s' /\ cache_ok s' /\ fkept s s' /\ (c_kind (f_cache s') = 2 -> ind1_end < keep < ind2_end)
  /\ forall q, plan_wf q -> cur s' q = if keep <=? plan_index q then 0 else cur s q.
Proof using MfsDeviceLaws0.
  intros Hkeep Hnb Ec Hs Enb Ht E0 E1 E2 E3. destruct (empty_cache s Ec) as [Hc _]. unfold tail_null in Ht. rewrite <- Enb in Ht.
  destruct (clear_direct_spec (Z.to_nat (Z.min MFS_FILE_DIRECT nb - keep)) keep s s1 (proj1 Hkeep) ltac:(lia) Hs Hc E0) as (Hs1 & Hc1 & K1 & U1 & Ek1). rewrite Ec in Ek1. cbn in Ek1.
  pose proof (area_spec 1 MFS_FILE_DIRECT ind1_end ltac:(unfold area; lia)) as (A1 & _).
  pose proof (area_spec 2 ind1_end ind2_end ltac:(unfold area; lia)) as (A2 & _).
  pose proof (area_spec 3 ind2_end MFS_FILE_MAX_BLOCKS ltac:(unfold area; lia)) as (A3 & _).
  assert (forall lo hi t t', unmapped lo hi t t' -> (forall q, plan_wf q -> nb <= plan_index q -> cur t q = 0) ->
            forall q, plan_wf q -> nb <= plan_index q -> cur t' q = 0) as Hnull.
  { intros lo hi t t' U H q Hq Hge. rewrite (U q Hq). destruct (_ && _); auto. }
  pose proof (Hnull _ _ _ _ U1 Ht) as T1.
  destruct (drop_area_spec 1 MFS_FILE_DIRECT ind1_end ind1_end keep nb s1 s2 ltac:(unfold area; lia) eq_refl (proj1 Hkeep) ltac:(lia) T1 Hs1 Hc1 E1)
    as (Hs2 & Hc2 & K2 & U2 & Ek2). pose proof (Hnull _ _ _ _ U2 T1) as T2. cbn [Z.eqb Pos.eqb] in Ek2.
  destruct (drop_area_spec 2 ind1_end ind2_end ind2_end keep nb s2 s3 ltac:(unfold area; lia) eq_refl (proj1 Hkeep) ltac:(lia) T2 Hs2 Hc2 E2)
    as (Hs3 & Hc3 & K3 & U3 & Ek3). pose proof (Hnull _ _ _ _ U3 T2) as T3. cbn [Z.eqb Pos.eqb] in Ek3.
  destruct (drop_area_spec 3 ind2_end MFS_FILE_MAX_BLOCKS nb keep nb s3 s' ltac:(unfold area; lia) ltac:(lia) (proj1 Hkeep) ltac:(lia) T3 Hs3 Hc3 E3)
    as (Hs' & Hc' & K' & U' & Ek'). cbn [Z.eqb Pos.eqb] in Ek'.
  split; [exact Hs'|]. split; [exact Hc'|]. split; [exact (fkept_trans _ _ _ K1 (fkept_trans _ _ _ K2 (fkept_trans _ _ _ K3 K')))|].
  split; [lia|]. intros q Hq. rewrite (U' q Hq), (U3 q Hq), (U2 q Hq), (U1 q Hq). destruct (plan_kind q Hq) as [Hr _].
  destruct (Z.leb_spec keep (plan_index q)) as [Hle|Hlt].
  - repeat (destruct (_ && _) eqn:? in |- *; [reflexivity|]). apply Ht; [exact Hq|].
    repeat match goal with
           | H : true && _ = false |- _ => apply Z.ltb_ge in H
           | H : _ && _ = false |- _ => apply andb_false_iff in H; rewrite Z.leb_gt, Z.ltb_ge in H
           end. lia.
  - assert (forall lo hi, keep <= lo -> (lo <=? plan_index q) && (plan_index q <? hi) = false) as Hno.
    { intros lo hi Hlo. apply not_true_iff_false. rewrite andb_true_iff, Z.leb_le, Z.ltb_lt. lia. }
    rewrite !Hno by lia. reflexivity.
Qed.

End truncate.

(** ** The last block of a truncated file *)

Section tail.
Context {D : Type} `{!MfsDevice D, !MfsDeviceLaws D}.
Implicit Types (m : mfs D) (s : fstate D) (f : afile).

Definition clean s : Prop := c_kind (f_cache s) = 0 \/ c_dirty (f_cache s) = false.

Lemma clean_ref s : cache_ok s -> clean s -> forall p, plan_wf p -> cur s p = ref (f_m s) (f_a s) p.
Proof. intros Hc [H|H] p Hp; [by apply uncovered_cur|by apply clean_cur]. Qed.

Lemma clean_flush s : clean s -> mfs_ind_flush s = (Some tt, s).
Proof.
  intros H. unfold mfs_ind_flush, mbind, F_bind, get_cache.
  assert ((c_kind (f_cache s) =? 0) || negb (c_dirty (f_cache s)) = true) as ->; [|reflexivity].
  destruct H as [->| ->]; [reflexivity|by rewrite orb_true_r].
Qed.

(** Looking a pointer up leaves a clean cache clean. *)
Lemma peek_clean bi r s s' : clean s -> mfs_ind_peek bi s = (Some r, s') -> clean s'.
Proof.
  intros Hcl E. unfold mfs_ind_peek in E. fstep E as p s0 E0. apply plan_of_Some in E0 as [_ <-].
  fstep E as a s0 E0. apply get_a_spec in E0 as [-> ->]. destruct (kind p =? 0); [by apply ret_Some in E as [_ <-]|].
  destruct (kind p =? 3).
  - fstep E as u s1 E1. destruct u. fstep E as u s2 E2. destruct u. apply set_cache_spec in E2 as (_ & _ & Ec2 & _).
    assert (forall blk magic (t t' : fstate D), read_b blk magic t = (Some tt, t') -> f_cache t' = f_cache t) as Hrb.
    { intros blk magic t t' H. unfold read_b in H. destruct (mfs_read_blk _ _ _) as [[ok b] io].
      destruct (_ || _); [done|]. by apply pair_equal_spec in H as [_ <-]. }
    left. assert (f_cache s' = f_cache s2) as ->; [|by rewrite Ec2]. unfold mfs_ind_peek3 in E.
    fstep E as a s3 E3. apply get_a_spec in E3 as [-> ->].
    destruct (_ =? 0) in E; [by apply ret_Some in E as [_ <-]|]. fstep E as u3 t3 F3. destruct u3. apply Hrb in F3. rewrite <- F3.
    fstep E as b3 t4 F4. apply get_b_spec in F4 as [-> ->].
    destruct (_ =? 0) in E; [by apply ret_Some in E as [_ <-]|]. fstep E as u5 t5 F5. destruct u5. apply Hrb in F5. rewrite <- F5.
    fstep E as b5 t6 F6. apply get_b_spec in F6 as [-> ->].
    destruct (_ =? 0) in E; [by apply ret_Some in E as [_ <-]|]. fstep E as u7 t7 F7. destruct u7. apply Hrb in F7. rewrite <- F7.
    fstep E as b7 t8 F8. apply get_b_spec in F8 as [-> ->]. by apply ret_Some in E as [_ <-].
  - fstep E as u s1 E1. destruct u. fstep E as b s2 E2. apply get_b_spec in E2 as [-> ->]. apply ret_Some in E as [_ <-].
    unfold mfs_ind_load in E1. fstep E1 as p1 s2 E2. apply plan_of_Some in E2 as [_ <-]. fstep E1 as c s2 E2. apply get_cache_spec in E2 as [-> ->].
    destruct (kind p1 =? 0).
    { fstep E1 as u s2 E2. destruct u. fstep E1 as c s3 E3. apply get_cache_spec in E3 as [-> ->]. apply set_cache_spec in E1 as (_ & _ & Ec & _).
      left. by rewrite Ec. }
    destruct (_ && _); [by apply ret_Some in E1 as [_ <-]|]. fstep E1 as u s2 E2. destruct u. fstep E1 as a s3 E3. fstep E1 as u s4 E4.
    apply set_cache_spec in E1 as (_ & _ & Ec & _). right. by rewrite Ec.
Qed.

Lemma clear_tail_spec new_size keep s s' :
  0 <= new_size -> keep = div_ceil new_size MFS_DATA_CAP -> keep <= MFS_FILE_MAX_BLOCKS -> fbase s ->
  (new_size mod MFS_DATA_CAP <> 0 -> cache_ok s /\ clean s) -> clear_tail new_size keep s = (Some tt, s') ->
  fbase s' /\ fkept s s' /\ (forall q, plan_wf q -> keep <= plan_index q -> ref (f_m s') (f_a s') q = ref (f_m s) (f_a s) q)
  /\ forall x, 0 <= x -> byte_at (f_m s') (ref (f_m s') (f_a s')) x
       = if (new_size <=? x) && (x <? keep * MFS_DATA_CAP) then 0 else byte_at (f_m s) (ref (f_m s) (f_a s)) x.
Proof using MfsDeviceLaws0.
  intros Hn Ek Hmax Hs Hcache E. unfold clear_tail in E. rewrite data_cap in *. set (tail := new_size mod 4088) in *.
  pose proof (Z.div_mod new_size 4088 ltac:(lia)) as Dn. pose proof (Z.mod_pos_bound new_size 4088 ltac:(lia)) as Mn. fold tail in Dn, Mn.
  assert (keep = if tail =? 0 then new_size / 4088 else new_size / 4088 + 1) as Ek'.
  { rewrite Ek. unfold div_ceil. destruct (Z.eqb_spec tail 0) as [Hz|Hz].
    - symmetry. apply (Z.div_unique _ _ _ 4087); lia.
    - symmetry. apply (Z.div_unique _ _ _ (tail - 1)); lia. }
  assert (0 <= new_size / 4088) as Hq0 by (apply Z.div_pos; lia).
  destruct (Z.eqb_spec tail 0) as [Hz|Hz]; cbn [negb] in E.
  { rewrite andb_false_r in E. apply ret_Some in E as [_ <-]. split; [exact Hs|]. split; [apply fkept_refl|]. split; [done|].
    intros x Hx. assert ((new_size <=? x) && (x <? keep * 4088) = false) as ->; [|reflexivity].
    apply not_true_iff_false. rewrite andb_true_iff, Z.leb_le, Z.ltb_lt. lia. }
  rewrite (proj2 (Z.ltb_lt 0 keep)) in E by lia. cbn [andb] in E. destruct (Hcache Hz) as [Hc Hcl]. set (last := keep - 1) in *.
  destruct (plan_at last ltac:(lia)) as (p & Hp & Hpw & Ei). assert (0 <= last) as Hlast by lia.
  pose proof (clean_ref s Hc Hcl) as Href. fstep E as q s1 E1.
  destruct (ind_peek_spec _ _ _ _ _ Hlast Hp Hs Hc E1) as (Hs1 & Hc1 & K1 & Eq & Hk3 & Hcur1). pose proof (peek_clean _ _ _ _ Hcl E1) as Hcl1.
  (* which bytes are meant *)
  assert (forall x, 0 <= x -> (new_size <=? x) && (x <? keep * 4088) = (x / 4088 =? last) && (tail <=? x mod 4088)) as Hrange.
  { intros x Hx. pose proof (Z.div_mod x 4088 ltac:(lia)). pose proof (Z.mod_pos_bound x 4088 ltac:(lia)).
    apply eq_true_iff_eq. rewrite !andb_true_iff, !Z.leb_le, Z.ltb_lt, Z.eqb_eq. unfold last. split; [|lia].
    intros [H1 H2]. assert (x / 4088 = keep - 1) by (apply Z.le_antisymm; [apply Z.lt_succ_r, Z.div_lt_upper_bound; lia|apply Z.div_le_lower_bound; lia]). lia. }
  assert (data_ptr (f_m s) q) as Hq by (rewrite Eq; by apply cur_ptr).
  destruct (Z.eqb_spec q 0) as [Hqz|Hqz].
  - apply ret_Some in E as [_ <-]. pose proof (clean_ref s1 Hc1 Hcl1) as Href1. split; [exact Hs1|]. split; [exact K1|].
    assert (forall r, plan_wf r -> ref (f_m s1) (f_a s1) r = ref (f_m s) (f_a s) r) as Hsame.
    { intros r Hr. rewrite <- (Href1 r Hr), <- (Href r Hr). exact (Hcur1 r Hr). }
    split; [auto|]. intros x Hx. rewrite (Hrange x Hx).
    assert (byte_at (f_m s1) (ref (f_m s1) (f_a s1)) x = byte_at (f_m s) (ref (f_m s) (f_a s)) x) as ->.
    { revert x Hx. apply byte_at_ext. intros r Hr off. rewrite (Hsame r Hr). apply data_byte_grown; [apply K1|]. apply path_walk_ok, (fb_wf _ Hs), Hr. }
    destruct (_ && _) eqn:Ein; [|reflexivity]. apply andb_prop in Ein as [Ein _]. apply Z.eqb_eq in Ein.
    unfold byte_at. rewrite data_cap, Ein, Hp, <- (Href p Hpw), <- Eq, Hqz. reflexivity.
  - pose proof (data_ptr_grown _ _ _ (proj1 K1) Hq) as [|Hnq]; [contradiction|]. fstep E as c s2 E2.
    destruct (read_data_spec _ _ _ _ Hs1 Hnq E2) as (Hs2 & G2 & Ea2 & Eb2 & Ec2 & Hcb & Hold).
    destruct (cache_grown _ _ Hs1 Hc1 G2 Ea2 Eb2 Ec2) as (Hc2 & K2 & Hcur2). fstep E as n s3 E3. set (c' := zero_bytes _ _ c) in E3.
    assert (byte_mem c') as Hcb' by (by apply zero_bytes_mem).
    destruct (commit_data_spec _ _ _ _ Hs2 Hcb' E3) as (Hs3 & G3 & Ea3 & Eb3 & Ec3 & Hnn & Hnew).
    destruct (cache_grown _ _ Hs2 Hc2 G3 Ea3 Eb3 Ec3) as (Hc3 & K3 & Hcur3). fstep E as u s4 E4. destruct u.
    assert (kind p = 3 -> c_kind (f_cache s3) = 0) as H3' by (intros Hk; rewrite Ec3, Ec2, Hk3, Hk; reflexivity).
    destruct (ind_link_spec _ _ _ _ _ Hlast Hp Hs3 Hc3 (or_intror Hnn) H3' E4) as (Hs4 & Hc4 & K4 & Hre & _).
    destruct (ind_flush_spec _ _ Hs4 Hc4 E) as (Hs' & K' & Href' & _).
    pose proof (fkept_trans _ _ _ K1 (fkept_trans _ _ _ K2 (fkept_trans _ _ _ K3 (fkept_trans _ _ _ K4 K')))) as K.
    assert (forall r, plan_wf r -> r <> p -> ref (f_m s') (f_a s') r = ref (f_m s) (f_a s) r) as Hother.
    { intros r Hr Hne. rewrite (Href' r Hr), (proj2 (Hre r Hr) Hne), (Hcur3 r Hr), (Hcur2 r Hr), (Hcur1 r Hr). exact (Href r Hr). }
    split; [exact Hs'|]. split; [exact K|]. split; [intros r Hr Hge; apply Hother; [exact Hr|intros ->; lia]|].
    intros x Hx. rewrite (Hrange x Hx). unfold byte_at. rewrite data_cap. pose proof (Z.mod_pos_bound x 4088 ltac:(lia)) as Mx.
    destruct (mfs_map_plan (x / 4088)) as [r|] eqn:Er; [|by destruct (_ && _)].
    destruct (plan_spec _ _ (Z.div_pos x 4088 Hx ltac:(lia)) Er) as [Hr Eri].
    destruct (Z.eqb_spec (x / 4088) last) as [El|El]; cbn [andb].
    + assert (r = p) as -> by (rewrite El in Er; congruence).
      rewrite (Href' p Hpw), (proj1 (Hre p Hpw) eq_refl), (data_byte_grown _ _ _ _ (proj1 (fkept_trans _ _ _ K4 K')) (or_intror Hnn)), Hnew by (rewrite data_cap; lia).
      unfold c', zero_bytes, copy_to. rewrite length_replicate, Z2Nat.id by lia.
      assert ((MFS_HDR + tail <=? MFS_HDR + x mod 4088) && (MFS_HDR + x mod 4088 <? MFS_HDR + tail + (4088 - tail)) = (tail <=? x mod 4088)) as ->
        by (apply eq_true_iff_eq; rewrite andb_true_iff, !Z.leb_le, Z.ltb_lt; lia).
      destruct (tail <=? x mod 4088).
      * rewrite nth_lookup. destruct (_ !! _) eqn:El2; [by apply lookup_replicate in El2 as [-> _]|reflexivity].
      * rewrite Hold by (rewrite data_cap; lia). rewrite Eq, (Href p Hpw). apply data_byte_grown; [apply K1|]. apply path_walk_ok, (fb_wf _ Hs), Hpw.
    + rewrite Hother; [|exact Hr|intros ->; lia]. apply data_byte_grown; [apply K|]. apply path_walk_ok, (fb_wf _ Hs), Hr.
Qed.

End tail.

(** ** Truncating a file *)

Section truncate_file.
Context {D : Type} `{!MfsDevice D, !MfsDeviceLaws D}.
Implicit Types (m : mfs D) (s : fstate D) (f : afile).

(** Sizes for which [mfs_truncate] clears the rest of the last block: it does nothing when there is
    no rest, and looks in the wrong block when the last block is mapped through two levels. *)
Definition clearable (new_size : Z) : Prop :=
  let keep := div_ceil new_size MFS_DATA_CAP in
  new_size mod MFS_DATA_CAP = 0 \/ keep <= ind1_end \/ ind2_end < keep.

Lemma others_grown m m' m'' ino :
  durable m -> grown m m' -> others_kept m' m'' ino -> others_kept m m'' ino.
Proof.
  intros Hd G Ho ino' f Hi Hne (Hok & Hs & Hb). apply Ho; [exact Hi|exact Hne|].
  destruct (file_kept _ _ ino' (gr_data _ _ G)) as (O & S & B); [by apply grown_lookup; [apply Hd|..]|exact Hok|].
  split; [exact O|]. split; [congruence|]. intros x Hx. rewrite (B x Hx). by apply Hb.
Qed.

Lemma keep_range n : 0 <= n <= max_bytes -> 0 <= div_ceil n MFS_DATA_CAP <= MFS_FILE_MAX_BLOCKS /\ n <= div_ceil n MFS_DATA_CAP * MFS_DATA_CAP.
Proof.
  rewrite max_bytes_value, data_cap. unfold div_ceil. change MFS_FILE_MAX_BLOCKS with 1068509159. intros H.
  pose proof (Z.div_mod (n + 4088 - 1) 4088 ltac:(lia)). pose proof (Z.mod_pos_bound (n + 4088 - 1) 4088 ltac:(lia)). lia.
Qed.

(** Shrinking, from the loaded node to the stored one. *)
Lemma shrink_spec now ino new_size f s s1 s2 s3 s4 s5 s6 s7 s8 s9 s' (keep := div_ceil new_size MFS_DATA_CAP)
    (nb := mfs_file_nblocks (f_a s)) :
  0 < ino < MFS_INO_MAX -> 0 <= new_size -> new_size < af_size f -> af_size f <= max_bytes -> clearable new_size ->
  fbase s -> f_cache s = MFS_IND_CACHE_EMPTY -> tail_null s -> nb <= MFS_FILE_MAX_BLOCKS ->
  (forall x, 0 <= x -> byte_at (f_m s) (cur s) x = af_byte f x) ->
  clear_direct (Z.to_nat (Z.min MFS_FILE_DIRECT nb - keep)) keep s = (Some tt, s1) ->
  drop_area MFS_FILE_DIRECT ind1_end keep nb (mfs_file_set_ind1 0) s1 = (Some tt, s2) ->
  drop_area ind1_end ind2_end keep nb (mfs_file_set_ind2 0) s2 = (Some tt, s3) ->
  drop_area ind2_end nb keep nb (mfs_file_set_ind3 0) s3 = (Some tt, s4) ->
  mfs_ind_flush s4 = (Some tt, s5) -> clear_tail new_size keep s5 = (Some tt, s6) ->
  upd_a (mfs_file_set_size new_size) s6 = (Some tt, s7) -> upd_a (mfs_file_set_nblocks (w32 keep)) s7 = (Some tt, s8) ->
  upd_a (mfs_touch now false) s8 = (Some tt, s9) -> store_node ino s9 = (Some tt, s') ->
  durable (f_m s') /\ committed (f_m s') /\ represents (f_m s') ino (ftruncate new_size f)
  /\ grown (f_m s) (f_m s8) /\ others_kept (f_m s8) (f_m s') ino.
Proof using MfsDeviceLaws0.
  intros Hino Hn Hlt Hmax Hclr Hs Ec Ht Hnb Hby E0 E1 E2 E3 E4 E5 E6 E7 E8 E9.
  destruct (keep_range new_size ltac:(lia)) as [Hkeep Hcover]. fold keep in Hkeep, Hcover.
  destruct (drop_all_spec keep nb s s1 s2 s3 s4 Hkeep Hnb Ec Hs eq_refl Ht E0 E1 E2 E3) as (Hs4 & Hc4 & K4 & Hk2 & Hcur4).
  destruct (ind_flush_spec _ _ Hs4 Hc4 E4) as (Hs5 & K5 & Href5 & Ek5 & _ & Hc5).
  assert (new_size mod MFS_DATA_CAP <> 0 -> cache_ok s5 /\ clean s5) as Hclean.
  { intros Hz. assert (c_kind (f_cache s4) <> 2) as Hne.
    { intros H2. specialize (Hk2 H2). destruct Hclr as [H|H]; [contradiction|]. fold keep in H. lia. }
    destruct (Hc5 (or_introl Hne)) as [Hc _]. split; [exact Hc|]. unfold mfs_ind_flush in E4. fstep E4 as c t F. apply get_cache_spec in F as [-> ->].
    destruct (Z.eqb_spec (c_kind (f_cache s4)) 0) as [Hz0|]; [left; congruence|]. destruct (c_dirty (f_cache s4)) eqn:Ed; cbn [orb negb] in E4.
    - fstep E4 as nn t F. fstep E4 as u t1 F1. apply set_cache_spec in E4 as (_ & _ & Ek & _). right. by rewrite Ek.
    - apply ret_Some in E4 as [_ <-]. by right. }
  destruct (clear_tail_spec new_size keep s5 s6 Hn eq_refl ltac:(lia) Hs5 Hclean E5) as (Hs6 & K6 & Href6 & Hby6).
  destruct (upd_node_spec _ _ _ (fun a => proj1 (set_size_kept _ a)) (fun a => byte_mem_write_u64 _ _ a) Hs6 E6) as (Hs7 & Em7 & Ea7 & Href7).
  destruct (upd_node_spec _ _ _ (fun a => proj1 (set_nblocks_kept _ a)) (fun a => byte_mem_write_u32 _ _ a) Hs7 E7) as (Hs8 & Em8 & Ea8 & Href8).
  assert (mfs_file_nblocks (f_a s8) = keep) as Enb8.
  { rewrite Ea8. unfold mfs_file_nblocks, mfs_file_set_nblocks. change MFS_FILE_MAX_BLOCKS with 1068509159 in Hkeep.
    unfold w32. rewrite Z.mod_small by lia. apply read_write_u32. lia. }
  assert (mfs_file_size (f_a s8) = new_size) as Esz8.
  { transitivity (mfs_file_size (f_a s7)).
    - rewrite Ea8. unfold mfs_file_size, mfs_file_set_nblocks. apply read_u64_u32. change MFS_FILE_SIZE_OFF with 8. change MFS_FILE_NBLOCKS_OFF with 16. lia.
    - rewrite Ea7. unfold mfs_file_size, mfs_file_set_size. rewrite max_bytes_value in Hmax. apply read_write_u64. lia. }
  assert (forall q, plan_wf q -> ref (f_m s8) (f_a s8) q = ref (f_m s6) (f_a s6) q) as Href68 by (intros q Hq; rewrite (Href8 q Hq); exact (Href7 q Hq)).
  assert (grown (f_m s) (f_m s6)) as G6 by (eapply grown_trans; [apply K4|]; eapply grown_trans; [apply K5|apply K6]).
  assert (f_m s8 = f_m s6) as Em by congruence.
  destruct (empty_cache s Ec) as [Hc _].
  destruct (store_file_spec now ino (ftruncate new_size f) s8 s9 s' Hino Hs8 Esz8) as (H1 & H2 & H3 & _ & H5); [cbn; lia| | | | |exact E8|exact E9|].
  - intros x Hx. transitivity (byte_at (f_m s6) (ref (f_m s6) (f_a s6)) x).
    { revert x Hx. apply byte_at_ext. intros q Hq off. by rewrite (Href68 q Hq), Em. }
    rewrite (Hby6 x Hx). cbn [af_byte ftruncate]. rewrite data_cap in *. destruct (Z.ltb_spec x new_size) as [Hx1|Hx1].
    + rewrite (proj2 (Z.leb_gt _ _)) by lia. cbn [andb]. rewrite <- (Hby x Hx). unfold byte_at. rewrite data_cap.
      destruct (mfs_map_plan (x / 4088)) as [q|] eqn:Eq; [|reflexivity]. destruct (plan_spec _ _ (Z.div_pos x 4088 Hx ltac:(lia)) Eq) as [Hq Ei].
      rewrite (Href5 q Hq), (Hcur4 q Hq). assert (x / 4088 < keep) by (apply Z.div_lt_upper_bound; lia).
      rewrite (proj2 (Z.leb_gt _ _)) by lia. apply data_byte_grown; [|by apply cur_ptr]. eapply grown_trans; [apply K4|apply K5].
    + rewrite (proj2 (Z.leb_le _ _)) by lia. cbn [andb]. destruct (Z.ltb_spec x (keep * 4088)); [reflexivity|]. unfold byte_at. rewrite data_cap.
      destruct (mfs_map_plan (x / 4088)) as [q|] eqn:Eq; [|reflexivity]. destruct (plan_spec _ _ (Z.div_pos x 4088 Hx ltac:(lia)) Eq) as [Hq Ei].
      rewrite (Href5 q Hq), (Hcur4 q Hq). assert (keep <= x / 4088) by (apply Z.div_le_lower_bound; lia). by rewrite (proj2 (Z.leb_le _ _)) by lia.
  - intros x Hx Hge. cbn in *. by rewrite (proj2 (Z.ltb_ge _ _)) by lia.
  - intros q Hq Hge. rewrite Enb8 in Hge. rewrite (Href68 q Hq), (Href6 q Hq Hge), (Href5 q Hq), (Hcur4 q Hq). by rewrite (proj2 (Z.leb_le _ _)) by lia.
  - rewrite Enb8. lia.
  - split; [exact H1|]. split; [exact H2|]. split; [exact H3|]. split; [by rewrite Em|exact H5].
Qed.

Lemma truncate_spec now ino new_size f s s' :
  0 < ino < MFS_INO_MAX -> durable (f_m s) -> represents (f_m s) ino f -> byte_mem (f_a s) -> byte_mem (f_b s) ->
  0 <= new_size <= max_bytes -> (new_size < af_size f -> clearable new_size) -> truncate now ino new_size s = (Some tt, s') ->
  durable (f_m s') /\ represents (f_m s') ino (ftruncate new_size f) /\ others_kept (f_m s) (f_m s') ino
  /\ (new_size <> af_size f -> committed (f_m s')).
Proof using MfsDeviceLaws0.
  intros Hino Hd Hf Ha Hb Hn Hclr E. pose proof Hf as (Hok & Hfs & Hfb). pose proof (fo_size _ _ Hok) as Hmax. rewrite Hfs in Hmax.
  assert (forall x, 0 <= x -> af_size f <= x -> af_byte f x = 0) as Hzero.
  { intros x Hx Hge. rewrite <- (Hfb x Hx). apply (fo_zero _ _ Hok); [exact Hx|lia]. }
  unfold truncate, truncate_loaded in E. fstep E as u s1 E1. destruct u. fstep E as a t F. apply get_a_spec in F as [-> ->].
  set (s2 := mk_fst (f_a s1) (f_b s1) MFS_IND_CACHE_EMPTY (f_m s1)).
  destruct (loaded_state ino f s s1 s2 Hino Hd Hf Ha Hb E1 eq_refl) as (Hs2 & Hc2 & G2 & _ & Hsz & Ht2 & Hnb2 & Hby2).
  assert (fbase s1) as Hs1 by (destruct Hs2; by split). rewrite Hsz in E.
  destruct (Z.eqb_spec new_size (af_size f)) as [Heq|Hne].
  { apply ret_Some in E as [_ <-]. split; [apply Hs1|]. split; [|split; [|contradiction]].
    - destruct (file_kept _ _ ino (gr_data _ _ G2)) as (O & S & B); [by apply grown_lookup; [apply Hd|..]|exact Hok|].
      split; [exact O|]. split; [cbn; rewrite Heq, <- Hfs; exact S|]. intros x Hx. etransitivity; [exact (B x Hx)|]. rewrite (Hfb x Hx). cbn.
      destruct (Z.ltb_spec x new_size); [reflexivity|]. apply Hzero; lia.
    - apply (others_grown _ _ _ _ Hd G2). by intros ino' f' _ _ H. }
  destruct (Z.ltb_spec (af_size f) new_size) as [Hgt|Hle].
  - fstep E as u s3 E3. destruct u. fstep E as u s4 E4. destruct u.
    destruct (upd_node_spec _ _ _ (fun a => proj1 (set_size_kept _ a)) (fun a => byte_mem_write_u64 _ _ a) Hs1 E3) as (Hs3 & Em3 & Ea3 & Href3).
    destruct (set_size_kept new_size (f_a s1)) as (_ & Nk & _). rewrite <- Ea3 in Nk.
    assert (mfs_file_size (f_a s3) = new_size) as Esz.
    { rewrite Ea3. unfold mfs_file_size, mfs_file_set_size. rewrite max_bytes_value in Hn. apply read_write_u64. lia. }
    destruct (store_file_spec now ino (ftruncate new_size f) s3 s4 s' Hino Hs3 Esz) as (H1 & H2 & H3 & _ & H5); [cbn; lia| | | | |exact E4|exact E|].
    + intros x Hx. cbn. transitivity (af_byte f x).
      * rewrite <- (Hby2 x Hx). revert x Hx. apply byte_at_ext. intros q Hq off. rewrite (Href3 q Hq), Em3. reflexivity.
      * destruct (Z.ltb_spec x new_size); [reflexivity|]. apply Hzero; lia.
    + intros x Hx Hge. cbn in *. by rewrite (proj2 (Z.ltb_ge _ _)) by lia.
    + intros q Hq Hge. rewrite (Href3 q Hq). rewrite Nk in Hge. exact (Ht2 q Hq Hge).
    + rewrite Nk. exact Hnb2.
    + split; [exact H1|]. split; [exact H3|]. split; [|done]. apply (others_grown _ (f_m s3)); [exact Hd|by rewrite Em3|exact H5].
  - fstep E as u t0 F0. destruct u. assert (t0 = s2) as ->.
    { unfold set_cache in F0. by apply pair_equal_spec in F0 as [_ <-]. }
    fstep E as u t1 F1. destruct u. fstep E as u t2 F2. destruct u. fstep E as u t3 F3. destruct u. fstep E as u t4 F4. destruct u.
    fstep E as u t5 F5. destruct u. fstep E as u t6 F6. destruct u. fstep E as u t7 F7. destruct u. fstep E as u t8 F8. destruct u. fstep E as u t9 F9. destruct u.
    destruct (shrink_spec now ino new_size f s2 t1 t2 t3 t4 t5 t6 t7 t8 t9 s' Hino (proj1 Hn) ltac:(lia) Hmax (Hclr ltac:(lia)) Hs2 eq_refl Ht2 Hnb2 Hby2
                F1 F2 F3 F4 F5 F6 F7 F8 F9 E) as (H1 & H2 & H3 & G8 & H5).
    split; [exact H1|]. split; [exact H3|]. split; [|done]. exact (others_grown _ _ _ _ Hd (grown_trans _ _ _ G2 G8) H5).
Qed.

End truncate_file.

(** ** The file operations implement an array of bytes *)

(** A flush of a pointer block of the two-level tree leaves the upper block of the tree in buffer B
    under the name of the lower one: the next look at the same group answers with an entry of the
    upper block, the number of a pointer block instead of a data block. *)
Lemma peek_after_flush2 {D} `{!MfsDevice D, !MfsDeviceLaws D} bi p (s s' : fstate D) :
  0 <= bi -> mfs_map_plan bi = Some p -> kind p = 2 -> f_cache s = mk_cache 2 (slot2 p) true -> fbase s ->
  cache_ok s -> mfs_ind_flush s = (Some tt, s') ->
  mfs_ind_peek bi s' = (Some (slot_of (f_m s') (mfs_file_ind2 (f_a s')) (slot1 p)), s').
Proof.
  intros Hbi Hp Hk Ec Hs Hc E. destruct (plan_spec _ _ Hbi Hp) as [Hpw _].
  pose proof (pw_slot1 _ Hpw ltac:(lia)) as Hi. unfold mfs_ind_flush in E. fstep E as c s0 E0.
  apply get_cache_spec in E0 as [-> ->]. rewrite Ec in E. cbn [c_kind c_dirty c_slot2 Z.eqb Pos.eqb orb negb] in E.
  fstep E as n1 s1 E1. destruct (commit_b_spec MFS_MAGIC_IND _ _ _ Hs ltac:(done) E1) as (Hs1 & _ & _ & _ & Hn1 & _).
  fstep E as u s2 E2. destruct u. apply set_cache_spec in E as (Ea & Eb & Ec' & Em).
  fstep E2 as a t F0. apply get_a_spec in F0 as [-> ->]. fstep E2 as u t F0. destruct u.
  apply require_spec in F0 as [Hz ->]. apply negb_true_iff, Z.eqb_neq in Hz.
  fstep E2 as u t F0. destruct u. fstep E2 as u t1 F1. destruct u. fstep E2 as n2 t2 F2.
  assert (node_ok (f_m s1) MFS_MAGIC_IND2 (mfs_file_ind2 (f_a s1))) as Hx.
  { pose proof (fb_wf _ Hs1 _ (root_plan_wf 2 ltac:(lia))) as H2. rewrite (plan_path_2 (root_plan 2) eq_refl) in H2.
    destruct (path_head _ _ _ _ _ H2) as [H0|H0]; [contradiction|exact H0]. }
  destruct (read_b_spec _ _ _ _ Hs1 Hx F0) as (Ht & _). apply upd_b_spec in F1 as (Fa & Fb & _ & Fm).
  assert (fbase t1) as Ht1 by (destruct Ht; split; rewrite ?Fa, ?Fb, ?Fm; auto; by apply byte_mem_write_u32).
  destruct (commit_b_spec MFS_MAGIC_IND2 _ _ _ Ht1 ltac:(done) F2) as (Ht2 & _ & _ & _ & Hn2 & Hb2 & Hsl).
  destruct (node_u32 _ _ _ (fb_m _ Ht2) Hn2) as (Hn & _). apply upd_a_spec in E2 as (Ga & Gb & _ & Gm).
  unfold mfs_ind_peek, mfs_ind_load, plan_of, mbind, F_bind. rewrite Hp.
  cbn -[slot_of mfs_ind_slot mfs_file_ind2 Z.eqb]. rewrite Hk. change (2 =? 0) with false. change (2 =? 3) with false. cbv iota.
  cbv beta. rewrite Ec'. cbn [c_kind c_slot2]. rewrite !Z.eqb_refl.
  cbn -[slot_of mfs_ind_slot mfs_file_ind2]. rewrite Ea, Eb, Em, Ga, Gb, Gm, (Hb2 _ Hi), <- (Hsl _ Hi).
  assert (mfs_file_ind2 (mfs_file_set_ind2 n2 (f_a t2)) = n2) as -> by (by apply read_write_u32). reflexivity.
Qed.

(** C21. A write to a file. [mfs_write_file] answers the number of bytes to write or [u64::MAX]. In the
    first case the file is the old one with these bytes in place of the old ones and, when they end
    past its end, with the gap filled with zeros and the longer size; the change is on the disk and
    committed, and every other file is what it was. The offset may be any 64-bit number: one whose
    write would wrap around is refused. *)
Theorem file_write_refines {D} `{!MfsDevice D, !MfsDeviceLaws D} now ino offset count src f (s s' : fstate D) r :
  0 < ino < MFS_INO_MAX -> durable (f_m s) -> represents (f_m s) ino f ->
  byte_mem (f_a s) -> byte_mem (f_b s) -> byte_mem src -> 0 <= offset < 2^64 -> 0 <= count < 2^32 ->
  mfs_write_file now ino offset count src s = (r, s') ->
  r = U64_MAX
  \/ r = count /\ durable (f_m s') /\ committed (f_m s') /\ MFS_WB (m_io (f_m s')) = []
     /\ represents (f_m s') ino (fwrite offset count src f) /\ others_kept (f_m s) (f_m s') ino.
Proof.
  intros Hino Hd Hf Ha Hb Hsrc Ho Hcnt. unfold mfs_write_file. destruct (write_file _ _ _ _ _ _) as [[[]|] s1] eqn:E.
  - intros [= <- <-]. right. split; [reflexivity|].
    destruct (write_file_spec _ _ _ _ _ _ _ _ Hino Hd Hf Ha Hb Hsrc Ho Hcnt E) as (H1 & H2 & H3 & H4 & H5). auto.
  - intros [= <- _]. by left.
Qed.

Lemma slice_read (dst : mem) f offset count n :
  n = Z.of_nat (length (fread offset count f)) ->
  (forall a, 0 <= a < n -> dst a = af_byte f (offset + a)) -> slice_at 0 (Z.to_nat n) dst = fread offset count f.
Proof.
  intros Hn H. apply list_eq_same_length with (length (fread offset count f)); [done|rewrite length_slice_at; lia|].
  intros i x y Hi. rewrite lookup_slice_at by lia. intros [= <-]. unfold fread in *. rewrite length_fmap, length_seqZ in *.
  rewrite list_lookup_fmap, lookup_seqZ_lt by lia. intros [= <-]. rewrite H by lia. f_equal.
Qed.

(** C22. A read of a file. [mfs_read_file] answers [u64::MAX] or the number of bytes of the file from
    the offset on, at most the count; it puts exactly these bytes at the start of the destination
    and leaves the rest of the destination, this file and every other one as they were. When the
    device reads, it does not answer [u64::MAX]. *)
Theorem file_read_exact {D} `{!MfsDevice D, !MfsDeviceLaws D, !MfsReader D, !MfsReaderLaws D} ino offset count dst f (s s' : fstate D) r :
  0 < ino < MFS_INO_MAX -> durable (f_m s) -> MFS_WB (m_io (f_m s)) = [] -> represents (f_m s) ino f ->
  byte_mem (f_a s) -> byte_mem (f_b s) -> 0 <= offset < 2^64 -> 0 <= count < 2^32 ->
  mfs_read_file ino offset count dst s = (r, s') ->
  (r = (U64_MAX, None)
   \/ exists n dst', r = (n, Some dst') /\ n = Z.of_nat (length (fread offset count f))
       /\ slice_at 0 (Z.to_nat n) dst' = fread offset count f /\ (forall a, n <= a -> dst' a = dst a)
       /\ files_kept (f_m s) (f_m s'))
  /\ (@reads_ok D _ _ -> r.2 <> None).
Proof.
  intros Hino Hd Hwb Hf Ha Hb Ho Hcnt. destruct (read_file_spec ino offset count dst f s Hino Hd Hwb Hf Ha Hb Ho Hcnt) as [H1 H2].
  unfold mfs_read_file. destruct (read_file _ _ _ _ _) as [[[n dst']|] s1] eqn:E.
  - intros [= <- <-]. split; [|done]. right. exists n, dst'. split; [reflexivity|].
    destruct (H1 _ _ eq_refl) as (K & En & Hby). cbn [fst snd] in En, Hby. split; [exact En|].
    split; [apply slice_read; [exact En|]|split; [|exact K]]; intros a Ha'; rewrite Hby.
    + by rewrite (proj2 (Z.leb_le _ _)), (proj2 (Z.ltb_lt _ _)) by lia.
    + by rewrite (proj2 (Z.ltb_ge _ _)), andb_false_r by lia.
  - intros [= <- _]. split; [by left|]. intros Hr. destruct (H2 Hr) as (r & s2 & E2). discriminate.
Qed.

(** C23. Setting the size of a file. When [mfs_truncate] answers 1, the file has the new size: its
    bytes below it are kept, and whatever a later extension shows past it is zeros. The state is
    durable, committed if the size has changed, and every other file is what it was. The size must
    not exceed the largest file, and a file that shrinks to the middle of a block mapped through
    two levels is excluded: there the code looks for the block in the wrong place. *)
Theorem file_truncate_refines {D} `{!MfsDevice D, !MfsDeviceLaws D} now ino new_size f (s s' : fstate D) r :
  0 < ino < MFS_INO_MAX -> durable (f_m s) -> represents (f_m s) ino f -> byte_mem (f_a s) -> byte_mem (f_b s) ->
  0 <= new_size <= max_bytes -> (new_size < af_size f -> clearable new_size) ->
  mfs_truncate now ino new_size s = (r, s') ->
  r = U64_MAX
  \/ r = 1 /\ durable (f_m s') /\ represents (f_m s') ino (ftruncate new_size f) /\ others_kept (f_m s) (f_m s') ino
     /\ (new_size <> af_size f -> committed (f_m s')).
Proof.
  intros Hino Hd Hf Ha Hb Hn Hclr. unfold mfs_truncate. destruct (truncate _ _ _ _) as [[[]|] s1] eqn:E.
  - intros [= <- <-]. right. split; [reflexivity|]. exact (truncate_spec _ _ _ _ _ _ Hino Hd Hf Ha Hb Hn Hclr E).
  - intros [= <- _]. by left.
Qed.

(** ** A file on a volume in memory *)

Definition ram_reader (good : bool) : MfsReader ram_blocks := {|
  block_batch_read v l d := (good, (if good then (fun lba => block_of (d v lba)) <$> l else []), d);
  block_raw_read v lba d := (good, (if good then block_of (d v lba) else []), d)
|}.
Lemma ram_reader_laws good : @MfsReaderLaws ram_blocks (ram_mfs good) (ram_reader good).
Proof. split; cbn; intros until 0; by intros [= -> <- <-]. Qed.
Lemma ram_reads_ok : @reads_ok _ (ram_mfs true) (ram_reader true).
Proof. done. Qed.

(** What loading a node leaves, when it succeeds. *)
Definition load_result {D} `{!MfsDevice D} (ino : Z) (s : fstate D) : fstate D :=
  let '(ob, m) := mfs_ino_block ino (f_m s) in
  let '(_, a, io) := mfs_read_blk (default 0 ob) (f_a s) (m_io m) in
  mk_fst a (f_b s) (f_cache s) (set_io m io).
Lemma load_node_result {D} `{!MfsDevice D} ino (s s' : fstate D) :
  load_node ino s = (Some tt, s') -> s' = load_result ino s.
Proof.
  unfold load_node, load_result. destruct (mfs_ino_block ino (f_m s)) as [[b|] m]; [|done]. destruct (b =? 0); [done|].
  cbn [default]. cbn. destruct (mfs_read_blk _ _ _) as [[ok a] io]. destruct (_ || _); [done|].
  intros H. by apply pair_equal_spec in H as [_ <-].
Qed.

Local Notation new_volume := (@mfs_format _ (ram_mfs true) (fun _ => true) 512 0 (blank_mnt (fun _ _ => []))).
Definition idle {D} (m : mfs D) : fstate D := mk_fst scratch scratch MFS_IND_CACHE_EMPTY m.

Lemma root_scratch p : plan_root scratch p = 0.
Proof. unfold plan_root. by destruct (kind p =? 0), (kind p =? 1), (kind p =? 2). Qed.

(** A node of zeros is an empty file. *)
Lemma store_empty_spec {D} `{!MfsDevice D, !MfsDeviceLaws D} now ino (m : mfs D) s' :
  0 < ino < MFS_INO_MAX -> durable m ->
  store_node ino (mk_fst (mfs_touch now false scratch) scratch MFS_IND_CACHE_EMPTY m) = (Some tt, s') ->
  durable (f_m s') /\ committed (f_m s') /\ represents (f_m s') ino (mk_afile 0 (fun _ => 0)).
Proof.
  intros Hino Hd E. assert (forall p, ref m scratch p = 0) as Hz by (intros p; unfold ref; rewrite root_scratch; apply walk_zero).
  assert (fbase (idle m)) as Hs.
  { split; [exact Hd|apply scratch_bytes|apply scratch_bytes|]. intros p _. cbn [idle f_a f_m]. rewrite root_scratch. apply path_zero. }
  destruct (store_file_spec now ino (mk_afile 0 (fun _ => 0)) (idle m) (mk_fst (mfs_touch now false scratch) scratch MFS_IND_CACHE_EMPTY m) s' Hino Hs eq_refl) as (H1 & H2 & H3 & _);
    [rewrite max_bytes_value; cbn; lia| |done| |done|reflexivity|exact E|].
  - intros x Hx. unfold byte_at. destruct (mfs_map_plan _); [|reflexivity]. cbn [idle f_a f_m]. by rewrite Hz.
  - intros p _ _. apply Hz.
  - split; [exact H1|]. by split.
Qed.

(** Inode 5 made an empty file; three bytes written to it; the file emptied again. *)
Local Notation created := (@store_node _ (ram_mfs true) 5
  (mk_fst (mfs_touch 0 false scratch) scratch MFS_IND_CACHE_EMPTY (t_fs new_volume.2))).
Local Notation written := (@write_loaded _ (ram_mfs true) 0 5 0 3 (fun _ => 7) (@load_result _ (ram_mfs true) 5 (idle (f_m created.2)))).
Local Notation emptied := (@truncate_loaded _ (ram_mfs true) 0 5 0 (@load_result _ (ram_mfs true) 5 (idle (f_m written.2)))).

Definition completed (r : option unit * fstate ram_blocks) : bool :=
  match r.1 with Some _ => (length (MFS_WB (m_io (f_m r.2))) =? 0)%nat | None => false end.
Lemma completed_spec r : completed r = true -> exists s, r = (Some tt, s) /\ MFS_WB (m_io (f_m s)) = [].
Proof.
  destruct r as [[[]|] s]; [|done]. unfold completed. cbn [fst snd]. intros H. exists s. split; [done|].
  apply nil_length_inv. by apply Nat.eqb_eq.
Qed.

Lemma created_ok : completed created = true.
Proof. lazy. reflexivity. Qed.
Lemma written_ok : completed written = true.
Proof. lazy. reflexivity. Qed.
Lemma emptied_ok : completed emptied = true.
Proof. lazy. reflexivity. Qed.

Lemma ino_5 : 0 < 5 < MFS_INO_MAX.
Proof. done. Qed.
Lemma sevens_bytes : byte_mem (fun _ => 7).
Proof. intros a. done. Qed.
Lemma u64_0 : 0 <= 0 < 2^64.
Proof. done. Qed.
Lemma u64_1 : 0 <= 1 < 2^64.
Proof. done. Qed.
Lemma u32_3 : 0 <= 3 < 2^32.
Proof. done. Qed.
Lemma u32_10 : 0 <= 10 < 2^32.
Proof. done. Qed.
Lemma size_0 : 0 <= 0 <= max_bytes.
Proof. rewrite max_bytes_value. done. Qed.
Lemma clearable_0 : clearable 0.
Proof. by left. Qed.

Lemma created_spec :
  exists s, created = (Some tt, s) /\ MFS_WB (m_io (f_m s)) = [] /\ @durable _ (ram_mfs true) (f_m s)
    /\ @represents _ (ram_mfs true) (f_m s) 5 (mk_afile 0 (fun _ => 0)).
Proof.
  destruct (completed_spec _ created_ok) as (s & E & Hw). exists s. split; [exact E|]. split; [exact Hw|].
  destruct (@store_empty_spec _ (ram_mfs true) (ram_mfs_laws true) 0 5 _ s ino_5 new_volume_durable E) as (Hd & _ & Hf). by split.
Qed.

(** The next operation on inode 5 loads the node. *)
Lemma loads_5 m f :
  @durable _ (ram_mfs true) m -> MFS_WB (m_io m) = [] -> @represents _ (ram_mfs true) m 5 f ->
  @load_node _ (ram_mfs true) 5 (idle m) = (Some tt, @load_result _ (ram_mfs true) 5 (idle m)).
Proof.
  intros Hd Hw [Hok _].
  destruct (@load_node_total _ (ram_mfs true) (ram_mfs_laws true) (ram_reader true) 5 (idle m) ram_reads_ok Hw Hd ino_5 Hok) as (s & E & _).
  rewrite E. by rewrite (load_node_result _ _ _ E).
Qed.

Local Notation three := (fwrite 0 3 (fun _ => 7) (mk_afile 0 (fun _ => 0))).

Lemma written_spec :
  exists s s', created = (Some tt, s) /\ @mfs_write_file _ (ram_mfs true) 0 5 0 3 (fun _ => 7) (idle (f_m s)) = (3, s')
    /\ written = (Some tt, s') /\ MFS_WB (m_io (f_m s')) = [] /\ @durable _ (ram_mfs true) (f_m s) /\ @durable _ (ram_mfs true) (f_m s')
    /\ @represents _ (ram_mfs true) (f_m s) 5 (mk_afile 0 (fun _ => 0)) /\ @represents _ (ram_mfs true) (f_m s') 5 three.
Proof.
  destruct created_spec as (s & E & Hw & Hd & Hf). exists s.
  destruct (completed_spec _ written_ok) as (s' & E' & _). exists s'. pose proof E' as E1. rewrite E in E'. cbn [snd] in E'.
  assert (@write_file _ (ram_mfs true) 0 5 0 3 (fun _ => 7) (idle (f_m s)) = (Some tt, s')) as Ew.
  { unfold write_file. unfold mbind, F_bind. rewrite (loads_5 _ _ Hd Hw Hf). exact E'. }
  destruct (@write_file_spec _ (ram_mfs true) (ram_mfs_laws true) 0 5 0 3 (fun _ => 7) _ (idle (f_m s)) s' ino_5 Hd Hf
              scratch_bytes scratch_bytes sevens_bytes u64_0 u32_3 Ew) as (Hd' & _ & Hf' & Hw' & _).
  split; [exact E|]. split; [unfold mfs_write_file; by rewrite Ew|]. split; [exact E1|]. do 4 (split; [assumption|]). exact Hf'.
Qed.

(** Three bytes can be written to an empty file. *)
Lemma file_write_refines_witness :
  exists s s', created = (Some tt, s) /\ @mfs_write_file _ (ram_mfs true) 0 5 0 3 (fun _ => 7) (idle (f_m s)) = (3, s')
    /\ @represents _ (ram_mfs true) (f_m s') 5 three.
Proof.
  destruct written_spec as (s & s' & E & Ew & _ & _ & Hd & _ & Hf & _). exists s, s'. split; [exact E|]. split; [exact Ew|].
  destruct (@file_write_refines _ (ram_mfs true) (ram_mfs_laws true) 0 5 0 3 (fun _ => 7) _ (idle (f_m s)) s' 3 ino_5 Hd Hf
              scratch_bytes scratch_bytes sevens_bytes u64_0 u32_3 Ew) as [H|(_ & _ & _ & _ & Hf' & _)]; [discriminate H|exact Hf'].
Defined.

(** Two of them are read back. *)
Lemma file_read_exact_witness :
  exists s s' dst, @mfs_write_file _ (ram_mfs true) 0 5 0 3 (fun _ => 7) (idle (f_m created.2)) = (3, s)
    /\ @mfs_read_file _ (ram_mfs true) (ram_reader true) 5 1 10 scratch (idle (f_m s)) = (2, Some dst, s')
    /\ slice_at 0 2 dst = [7; 7].
Proof.
  destruct written_spec as (s0 & s & E & Ew & _ & Hw & _ & Hd & _ & Hf).
  destruct (@mfs_read_file _ (ram_mfs true) (ram_reader true) 5 1 10 scratch (idle (f_m s))) as [r s'] eqn:Er.
  pose proof (@file_read_exact _ (ram_mfs true) (ram_mfs_laws true) (ram_reader true) (ram_reader_laws true) 5 1 10 scratch three (idle (f_m s)) s' r
                ino_5 Hd Hw Hf scratch_bytes scratch_bytes u64_1 u32_10 Er) as [[->|(n & dst & -> & Hn & Hs & _)] Hr].
  - exfalso. exact (Hr ram_reads_ok eq_refl).
  - exists s, s', dst. split; [rewrite E; exact Ew|]. assert (n = 2) as -> by exact Hn. split; [exact Er|exact Hs].
Defined.

(** The file can be emptied again. *)
Lemma file_truncate_refines_witness :
  exists s s', @mfs_write_file _ (ram_mfs true) 0 5 0 3 (fun _ => 7) (idle (f_m created.2)) = (3, s)
    /\ @mfs_truncate _ (ram_mfs true) 0 5 0 (idle (f_m s)) = (1, s')
    /\ @represents _ (ram_mfs true) (f_m s') 5 (ftruncate 0 three).
Proof.
  destruct written_spec as (s0 & s & E & Ew & E1 & Hw & _ & Hd & _ & Hf).
  destruct (completed_spec _ emptied_ok) as (s' & E' & _). rewrite E1 in E'. cbn [snd] in E'.
  assert (@mfs_truncate _ (ram_mfs true) 0 5 0 (idle (f_m s)) = (1, s')) as Et.
  { unfold mfs_truncate, truncate. unfold mbind at 1, F_bind. rewrite (loads_5 _ _ Hd Hw Hf), E'. reflexivity. }
  exists s, s'. split; [rewrite E; exact Ew|]. split; [exact Et|].
  destruct (@file_truncate_refines _ (ram_mfs true) (ram_mfs_laws true) 0 5 0 three (idle (f_m s)) s' 1 ino_5 Hd Hf
              scratch_bytes scratch_bytes size_0 (fun _ => clearable_0) Et) as [H|(_ & _ & Hf' & _)]; [discriminate H|exact Hf'].
Defined.
