(* ===== verification/NetWire.v ===== *)
(** * NetWire: frames of the network stack (src/user/srv/src/netstack_srv.rs)

    The network stack builds and parses Ethernet frames in a page it shares with the network
    driver. This file holds the big-endian accessors, the Internet checksum, the builders and the
    parsers of IPv4, IPv6, TCP, UDP, ARP and ICMP, and shows that what is built is accepted and
    read back, and that the checksum rejects every frame with one changed byte. *)

From S2P Require Import Prelude Bytes.

Definition OUR_IP : list Z := [10; 0; 2; 15].
Definition GW_IP : list Z := [10; 0; 2; 2].
Definition ETH_IPV4 : Z := 0x0800.
Definition ETH_ARP : Z := 0x0806.
Definition ETH_IPV6 : Z := 0x86DD.
Definition IP_PROTO_ICMP : Z := 1.
Definition IP_PROTO_TCP : Z := 6.
Definition IP_PROTO_UDP : Z := 17.
Definition IP6_PROTO_ICMPV6 : Z := 58.
Definition ICMP_UNREACH : Z := 3.
Definition ICMP_ECHO_REQ : Z := 8.
Definition ICMP_ECHO_REPLY : Z := 0.
Definition ICMPV6_RS : Z := 133.
Definition ICMPV6_RA : Z := 134.
Definition ICMPV6_NS : Z := 135.
Definition ICMPV6_NA : Z := 136.
Definition ICMPV6_ECHO_REQ : Z := 128.
Definition ICMPV6_ECHO_REPLY : Z := 129.
Definition ICMPV6_DEST_UNREACH : Z := 1.
Definition ICMPV6_CODE_PORT_UNREACH : Z := 4.
Definition SCRATCH_OFF : Z := 1600.
Definition V6_ALL_ROUTERS : list Z := [0xff; 0x02; 0; 0; 0; 0; 0; 0; 0; 0; 0; 0; 0; 0; 0; 2].
Definition V6_MAC_ALL_ROUTERS : list Z := [0x33; 0x33; 0x00; 0x00; 0x00; 0x02].

(** ** Bytes in network order *)

Definition rd8 (m : mem) (a : Z) : Z := m a.
Definition rd16be (m : mem) (a : Z) : Z := Z.lor (w16 (Z.shiftl (rd8 m a) 8)) (rd8 m (a + 1)).
Definition rd32be (m : mem) (a : Z) : Z :=
  Z.lor (Z.lor (Z.lor (w32 (Z.shiftl (rd8 m a) 24)) (w32 (Z.shiftl (rd8 m (a + 1)) 16)))
           (w32 (Z.shiftl (rd8 m (a + 2)) 8))) (rd8 m (a + 3)).
Definition wr8 (a v : Z) (m : mem) : mem := write_byte a v m.
Definition wr16be (a v : Z) (m : mem) : mem := wr8 (a + 1) (w8 v) (wr8 a (w8 (Z.shiftr v 8)) m).
Definition wr32be (a v : Z) (m : mem) : mem := wr16be (a + 2) (w16 v) (wr16be a (w16 (Z.shiftr v 16)) m).

(** [for (i, b) in l.iter().enumerate() { wr8(a + i, *b) }]: [put_mac] and [put_v6]. *)
Fixpoint put_bytes (a : Z) (l : list Z) (m : mem) : mem :=
  match l with
  | [] => m
  | b :: l' => put_bytes (a + 1) l' (wr8 a b m)
  end.
Definition put_mac (a : Z) (l : list Z) (m : mem) : mem := put_bytes a l m.
Definition put_v6 (a : Z) (l : list Z) (m : mem) : mem := put_bytes a l m.
Definition get_v6 (m : mem) (a : Z) : list Z := rd8 m <$> seqZ a 16.
Definition get_mac (m : mem) (a : Z) : list Z := rd8 m <$> seqZ a 6.
Definition get_ip4 (m : mem) (a : Z) : list Z := rd8 m <$> seqZ a 4.
Definition mac_bytes (mac : Z) : list Z := take 6 (to_le 8 mac).

(** The addresses of an IPv4 header, byte by byte: [wr8(ip + 12 + i, src[i]); wr8(ip + 16 + i, dst[i])]. *)
Fixpoint put_ips (a : Z) (src dst : list Z) (m : mem) : mem :=
  match src, dst with
  | s :: src', d :: dst' => put_ips (a + 1) src' dst' (wr8 (a + 4) d (wr8 a s m))
  | _, _ => m
  end.

(** ** The Internet checksum *)

Fixpoint csum_words (n : nat) (m : mem) (base sum : Z) : Z :=
  match n with
  | O => sum
  | S n' => csum_words n' m (base + 2) (w32 (sum + rd16be m base))
  end.
(** [while i + 1 < len] runs [len / 2] times; a last odd byte is the high half of a word. *)
Definition csum_acc (m : mem) (base len sum : Z) : Z :=
  let sum := csum_words (Z.to_nat (len / 2)) m base sum in
  if Z.odd len then w32 (sum + w32 (Z.shiftl (rd8 m (base + (len - 1))) 8)) else sum.
(** [while s >> 16 != 0]: two turns are enough for any [u32]. *)
Fixpoint fold_loop (fuel : nat) (s : Z) : Z :=
  if Z.shiftr s 16 =? 0 then s
  else match fuel with
       | O => s
       | S f => fold_loop f (w32 (Z.land s 0xffff + Z.shiftr s 16))
       end.
Definition csum_fold (s : Z) : Z := w16 (fold_loop 3 s).
Definition not16 (v : Z) : Z := 0xffff - v.
Definition csum (m : mem) (base len : Z) : Z := not16 (csum_fold (csum_acc m base len 0)).

(** A local array, addressed from 0. *)
Definition local_array (l : list Z) : mem := copy_to 0 l (fun _ => 0).

Definition be16 (v : Z) : list Z := [w8 (Z.shiftr v 8); w8 v].
Definition be32 (v : Z) : list Z := [w8 (Z.shiftr v 24); w8 (Z.shiftr v 16); w8 (Z.shiftr v 8); w8 v].

Definition tcp_csum (src dst : list Z) (m : mem) (seg len : Z) : Z :=
  let ph := src ++ dst ++ [0; IP_PROTO_TCP] ++ be16 len in
  let s := csum_acc (local_array ph) 0 12 0 in
  let s := csum_acc m seg len s in
  not16 (csum_fold s).
Definition csum_v6 (src dst : list Z) (next : Z) (m : mem) (seg len : Z) : Z :=
  let ph := src ++ dst ++ be32 (w32 len) ++ [0; 0; 0; next] in
  let s := csum_acc (local_array ph) 0 40 0 in
  let s := csum_acc m seg len s in
  not16 (csum_fold s).
Definition udp6_csum (src dst : list Z) (m : mem) (seg len : Z) : Z := csum_v6 src dst IP_PROTO_UDP m seg len.

(** ** Addresses *)

Definition eui64_iid (mac : list Z) : list Z :=
  [Z.lxor (nth 0 mac 0) 2; nth 1 mac 0; nth 2 mac 0; 0xff; 0xfe; nth 3 mac 0; nth 4 mac 0; nth 5 mac 0].
Definition link_local_from_mac (mac : list Z) : list Z :=
  [0xfe; 0x80; 0; 0; 0; 0; 0; 0;
   Z.lxor (nth 0 mac 0) 2; nth 1 mac 0; nth 2 mac 0; 0xff; 0xfe; nth 3 mac 0; nth 4 mac 0; nth 5 mac 0].
Definition global_from_prefix (prefix mac : list Z) : list Z := take 8 prefix ++ eui64_iid mac.
Definition v6_eq (a b : list Z) : bool := bool_decide (take 16 a = take 16 b).
Definition v6_is_zero (a : list Z) : bool := v6_eq a (replicate 16 0).
Definition v4_mapped (a : list Z) : option (list Z) :=
  if bool_decide (take 10 a = replicate 10 0) && (nth 10 a 0 =? 0xff) && (nth 11 a 0 =? 0xff)
  then Some [nth 12 a 0; nth 13 a 0; nth 14 a 0; nth 15 a 0] else None.
Definition v6_is_loopback (a : list Z) : bool :=
  bool_decide (take 15 a = replicate 15 0) && (nth 15 a 0 =? 1).
Definition pack_ip4 (ip : list Z) : Z :=
  Z.lor (Z.lor (Z.lor (Z.shiftl (nth 0 ip 0) 24) (Z.shiftl (nth 1 ip 0) 16)) (Z.shiftl (nth 2 ip 0) 8)) (nth 3 ip 0).
Definition unpack_ip4 (v : Z) : list Z :=
  [w8 (Z.shiftr v 24); w8 (Z.shiftr v 16); w8 (Z.shiftr v 8); w8 v].

(** ** Building frames

    Every builder writes at [io] and answers the length of the frame. *)

Definition eth_header (io : Z) (dst_mac src_mac : list Z) (ethertype : Z) (m : mem) : mem :=
  wr16be (io + 12) ethertype (put_mac (io + 6) src_mac (put_mac io dst_mac m)).

(** The IPv4 header for [total] bytes; the checksum is cleared, computed and filled in. *)
Definition ip4_header (ip total proto : Z) (src dst : list Z) (m : mem) : mem :=
  let m := wr8 ip 0x45 m in
  let m := wr8 (ip + 1) 0 m in
  let m := wr16be (ip + 2) (w16 total) m in
  let m := wr16be (ip + 4) 0 m in
  let m := wr16be (ip + 6) 0x4000 m in
  let m := wr8 (ip + 8) 64 m in
  let m := wr8 (ip + 9) proto m in
  let m := wr16be (ip + 10) 0 m in
  let m := put_ips (ip + 12) src dst m in
  wr16be (ip + 10) (csum m ip 20) m.

Definition ip6_header (ip plen next hop : Z) (src dst : list Z) (m : mem) : mem :=
  let m := wr32be ip 0x60000000 m in
  let m := wr16be (ip + 4) (w16 plen) m in
  let m := wr8 (ip + 6) next m in
  let m := wr8 (ip + 7) hop m in
  let m := put_v6 (ip + 8) src m in
  put_v6 (ip + 24) dst m.

(** The TCP header with a cleared checksum, and the payload. *)
Definition tcp_header (tcp sport dport seq ack flags window : Z) (payload : list Z) (m : mem) : mem :=
  let m := wr16be tcp sport m in
  let m := wr16be (tcp + 2) dport m in
  let m := wr32be (tcp + 4) seq m in
  let m := wr32be (tcp + 8) ack m in
  let m := wr8 (tcp + 12) (Z.shiftl 5 4) m in
  let m := wr8 (tcp + 13) flags m in
  let m := wr16be (tcp + 14) window m in
  let m := wr16be (tcp + 16) 0 m in
  let m := wr16be (tcp + 18) 0 m in
  copy_to (tcp + 20) payload m.

Definition tcp_build (io src_mac : Z) (dst_mac src_ip dst_ip : list Z) (sport dport seq ack flags window : Z)
    (payload : list Z) (m : mem) : Z * mem :=
  let m := eth_header io dst_mac (mac_bytes src_mac) ETH_IPV4 m in
  let ip := io + 14 in
  let seg_len := 20 + Z.of_nat (length payload) in
  let m := ip4_header ip (20 + seg_len) IP_PROTO_TCP src_ip dst_ip m in
  let tcp := ip + 20 in
  let m := tcp_header tcp sport dport seq ack flags window payload m in
  let m := wr16be (tcp + 16) (tcp_csum src_ip dst_ip m tcp seg_len) m in
  (14 + 20 + seg_len, m).

Definition tcp_build6 (io src_mac : Z) (dst_mac src_ip dst_ip : list Z) (sport dport seq ack flags window : Z)
    (payload : list Z) (m : mem) : Z * mem :=
  let m := eth_header io dst_mac (mac_bytes src_mac) ETH_IPV6 m in
  let ip := io + 14 in
  let seg_len := 20 + Z.of_nat (length payload) in
  let m := ip6_header ip seg_len IP_PROTO_TCP 64 src_ip dst_ip m in
  let tcp := ip + 40 in
  let m := tcp_header tcp sport dport seq ack flags window payload m in
  let m := wr16be (tcp + 16) (csum_v6 src_ip dst_ip IP_PROTO_TCP m tcp seg_len) m in
  (14 + 40 + seg_len, m).

(** UDP; over IPv4 without a checksum. *)
Definition build_udp (io mac : Z) (dst_mac dst_ip : list Z) (sport dport payload_va plen : Z) (m : mem) : Z * mem :=
  let m := eth_header io dst_mac (mac_bytes mac) ETH_IPV4 m in
  let ip := io + 14 in
  let m := ip4_header ip (20 + 8 + plen) IP_PROTO_UDP OUR_IP dst_ip m in
  let udp := ip + 20 in
  let m := wr16be udp sport m in
  let m := wr16be (udp + 2) dport m in
  let m := wr16be (udp + 4) (w16 (8 + plen)) m in
  let m := wr16be (udp + 6) 0 m in
  let m := copy_to (udp + 8) (slice_at payload_va (Z.to_nat plen) m) m in
  (14 + 20 + 8 + plen, m).

Definition build_udp6 (io : Z) (src_mac dst_mac src dst : list Z) (sport dport payload_va plen : Z) (m : mem) : Z * mem :=
  let m := eth_header io dst_mac src_mac ETH_IPV6 m in
  let ip := io + 14 in
  let udp_len := 8 + plen in
  let m := ip6_header ip udp_len IP_PROTO_UDP 64 src dst m in
  let udp := ip + 40 in
  let m := wr16be udp sport m in
  let m := wr16be (udp + 2) dport m in
  let m := wr16be (udp + 4) (w16 udp_len) m in
  let m := wr16be (udp + 6) 0 m in
  let m := copy_to (udp + 8) (slice_at payload_va (Z.to_nat plen) m) m in
  let m := wr16be (udp + 6) (csum_v6 src dst IP_PROTO_UDP m udp udp_len) m in
  (14 + 40 + udp_len, m).

Definition build_arp_request (io mac : Z) (target : list Z) (m : mem) : Z * mem :=
  let f := io in
  let m := eth_header f (replicate 6 0xff) (mac_bytes mac) ETH_ARP m in
  let m := wr16be (f + 14) 1 m in
  let m := wr16be (f + 16) ETH_IPV4 m in
  let m := wr8 (f + 18) 6 m in
  let m := wr8 (f + 19) 4 m in
  let m := wr16be (f + 20) 1 m in
  let m := put_mac (f + 22) (mac_bytes mac) m in
  let m := put_bytes (f + 28) OUR_IP m in
  let m := put_mac (f + 32) (replicate 6 0) m in
  let m := put_bytes (f + 38) target m in
  (42, m).

(** *** ICMP *)

(** The head of an ICMPv6 message with a cleared checksum. *)
Definition icmp6_head (ic type code : Z) (m : mem) : mem :=
  wr16be (ic + 2) 0 (wr8 (ic + 1) code (wr8 ic type m)).
Definition icmp6_seal (src dst : list Z) (ic len : Z) (m : mem) : mem :=
  wr16be (ic + 2) (csum_v6 src dst IP6_PROTO_ICMPV6 m ic len) m.

Definition build_rs (io mac : Z) (m : mem) : Z * mem :=
  let src := link_local_from_mac (mac_bytes mac) in
  let m := eth_header io V6_MAC_ALL_ROUTERS (mac_bytes mac) ETH_IPV6 m in
  let ip := io + 14 in
  let m := ip6_header ip 16 IP6_PROTO_ICMPV6 255 src V6_ALL_ROUTERS m in
  let ic := ip + 40 in
  let m := icmp6_head ic ICMPV6_RS 0 m in
  let m := wr32be (ic + 4) 0 m in
  let m := wr8 (ic + 8) 1 m in
  let m := wr8 (ic + 9) 1 m in
  let m := put_mac (ic + 10) (mac_bytes mac) m in
  (14 + 40 + 16, icmp6_seal src V6_ALL_ROUTERS ic 16 m).

(** Neighbour solicitation and advertisement differ in type, flags and option. *)
Definition build_nd (io : Z) (mac dst_mac src dst target : list Z) (type flags opt : Z) (m : mem) : Z * mem :=
  let m := eth_header io dst_mac mac ETH_IPV6 m in
  let ip := io + 14 in
  let m := ip6_header ip 32 IP6_PROTO_ICMPV6 255 src dst m in
  let ic := ip + 40 in
  let m := icmp6_head ic type 0 m in
  let m := wr32be (ic + 4) flags m in
  let m := put_v6 (ic + 8) target m in
  let m := wr8 (ic + 24) opt m in
  let m := wr8 (ic + 25) 1 m in
  let m := put_mac (ic + 26) mac m in
  (14 + 40 + 32, icmp6_seal src dst ic 32 m).
Definition build_ns (io : Z) (mac src dst_mac dst target : list Z) (m : mem) : Z * mem :=
  build_nd io mac dst_mac src dst target ICMPV6_NS 0 1 m.
Definition build_na (io : Z) (mac src dst dst_mac target : list Z) (m : mem) : Z * mem :=
  build_nd io mac dst_mac src dst target ICMPV6_NA 0x60000000 2 m.

Definition build_echo6 (io : Z) (mac dst_mac src dst : list Z) (id seq : Z) (payload_va plen : Z) (m : mem) : Z * mem :=
  let m := eth_header io dst_mac mac ETH_IPV6 m in
  let ip := io + 14 in
  let icmp_len := 8 + plen in
  let m := ip6_header ip icmp_len IP6_PROTO_ICMPV6 64 src dst m in
  let ic := ip + 40 in
  let m := icmp6_head ic ICMPV6_ECHO_REQ 0 m in
  let m := wr16be (ic + 4) id m in
  let m := wr16be (ic + 6) seq m in
  let m := copy_to (ic + 8) (slice_at payload_va (Z.to_nat plen) m) m in
  (14 + 40 + icmp_len, icmp6_seal src dst ic icmp_len m).

(** A request turned into its reply in place. *)
Definition echo6_reply (io : Z) (mac : list Z) (plen : Z) (m : mem) : Z * mem :=
  let ip := io + 14 in
  let peer_mac := get_mac m (io + 6) in
  let src := get_v6 m (ip + 8) in
  let dst := get_v6 m (ip + 24) in
  let m := put_mac io peer_mac m in
  let m := put_mac (io + 6) mac m in
  let m := put_v6 (ip + 8) dst m in
  let m := put_v6 (ip + 24) src m in
  let ic := ip + 40 in
  let m := icmp6_head ic ICMPV6_ECHO_REPLY 0 m in
  (14 + 40 + plen, icmp6_seal dst src ic plen m).

Definition build_echo4 (io : Z) (mac dst_mac dst : list Z) (id seq payload_va plen : Z) (m : mem) : Z * mem :=
  let m := eth_header io dst_mac mac ETH_IPV4 m in
  let ip := io + 14 in
  let total := 20 + 8 + plen in
  let m := ip4_header ip total IP_PROTO_ICMP OUR_IP dst m in
  let ic := ip + 20 in
  let m := wr8 ic ICMP_ECHO_REQ m in
  let m := wr8 (ic + 1) 0 m in
  let m := wr16be (ic + 2) 0 m in
  let m := wr16be (ic + 4) id m in
  let m := wr16be (ic + 6) seq m in
  let m := copy_to (ic + 8) (slice_at payload_va (Z.to_nat plen) m) m in
  (14 + total, wr16be (ic + 2) (csum m ic (8 + plen)) m).

Definition is_echo_reply4 (m : mem) (io n : Z) (dst : list Z) (id seq : Z) : bool :=
  if (n <? 14 + 20 + 8) || negb (rd16be m (io + 12) =? ETH_IPV4) then false
  else
    let ip := io + 14 in
    let ihl := Z.land (rd8 m ip) 0x0f * 4 in
    if (ihl <? 20) || (n <? 14 + ihl + 8) || negb (rd8 m (ip + 9) =? IP_PROTO_ICMP) then false
    else if negb (bool_decide (get_ip4 m (ip + 12) = dst)) then false
    else
      let ic := ip + ihl in
      (rd8 m ic =? ICMP_ECHO_REPLY) && (rd16be m (ic + 4) =? id) && (rd16be m (ic + 6) =? seq).

(** ** Parsing frames *)

Record Ipv4Info : Type := mk_ip4 { src4 : list Z; dst4 : list Z; proto4 : Z; payload_off4 : Z; payload_len4 : Z }.
Record Ipv6Info : Type := mk_ip6 { src6 : list Z; dst6 : list Z; next6 : Z; payload_off6 : Z; payload_len6 : Z }.
Record TcpSeg : Type := mk_seg {
  sport : Z; dport : Z; seq : Z; ack : Z; flags : Z; window : Z; payload_off : Z; payload_len : Z
}.

Definition ipv4_parse (m : mem) (eth_va eth_len : Z) : option Ipv4Info :=
  if (eth_len <? 14 + 20) || negb (rd16be m (eth_va + 12) =? ETH_IPV4) then None
  else
    let ip := eth_va + 14 in
    let ip_len := eth_len - 14 in
    let ver_ihl := rd8 m ip in
    if negb (Z.shiftr ver_ihl 4 =? 4) then None
    else
      let ihl := Z.land ver_ihl 0x0f * 4 in
      if (ihl <? 20) || (ip_len <? ihl) then None
      else
        let total := rd16be m (ip + 2) in
        if (total <? ihl) || (ip_len <? total) then None
        else
          let frag := rd16be m (ip + 6) in
          if negb (Z.land frag 0x2000 =? 0) || negb (Z.land frag 0x1fff =? 0) then None
          else if negb (csum m ip ihl =? 0) then None
          else Some (mk_ip4 (get_ip4 m (ip + 12)) (get_ip4 m (ip + 16)) (rd8 m (ip + 9)) (ip + ihl) (total - ihl)).

Definition ipv6_parse (m : mem) (eth_va eth_len : Z) : option Ipv6Info :=
  if (eth_len <? 14 + 40) || negb (rd16be m (eth_va + 12) =? ETH_IPV6) then None
  else
    let ip := eth_va + 14 in
    if negb (Z.shiftr (rd8 m ip) 4 =? 6) then None
    else
      let plen := rd16be m (ip + 4) in
      if eth_len <? 14 + 40 + plen then None
      else Some (mk_ip6 (get_v6 m (ip + 8)) (get_v6 m (ip + 24)) (rd8 m (ip + 6)) (ip + 40) plen).

(** The fields of a TCP header at [tcp], if its length and checksum are right. *)
Definition tcp_fields (m : mem) (tcp plen csum : Z) : option TcpSeg :=
  let doff := Z.shiftr (rd8 m (tcp + 12)) 4 * 4 in
  if (doff <? 20) || (plen <? doff) then None
  else if negb (csum =? 0) then None
  else Some (mk_seg (rd16be m tcp) (rd16be m (tcp + 2)) (rd32be m (tcp + 4)) (rd32be m (tcp + 8))
               (rd8 m (tcp + 13)) (rd16be m (tcp + 14)) (tcp + doff) (plen - doff)).

Definition tcp_parse (m : mem) (info : Ipv4Info) : option TcpSeg :=
  if negb (proto4 info =? IP_PROTO_TCP) || (payload_len4 info <? 20) then None
  else tcp_fields m (payload_off4 info) (payload_len4 info)
         (tcp_csum (src4 info) (dst4 info) m (payload_off4 info) (payload_len4 info)).
Definition tcp_parse6 (m : mem) (info : Ipv6Info) : option TcpSeg :=
  if negb (next6 info =? IP_PROTO_TCP) || (payload_len6 info <? 20) then None
  else tcp_fields m (payload_off6 info) (payload_len6 info)
         (csum_v6 (src6 info) (dst6 info) IP_PROTO_TCP m (payload_off6 info) (payload_len6 info)).

Definition parse_seg_io (m : mem) (io fl : Z) : option TcpSeg := info ← ipv4_parse m io fl; tcp_parse m info.
Definition parse_seg_io6 (m : mem) (io fl : Z) : option TcpSeg := info ← ipv6_parse m io fl; tcp_parse6 m info.

(** The first option of type [want] of an ICMPv6 message; each option is at least eight bytes. *)
Fixpoint opt_loop (fuel : nat) (m : mem) (o e want : Z) : option (Z * Z) :=
  if e <? o + 8 then None
  else match fuel with
       | O => None
       | S f =>
           let ol := rd8 m (o + 1) * 8 in
           if ol <? 8 then None
           else if rd8 m o =? want then Some (o, ol) else opt_loop f m (o + ol) e want
       end.
Definition first_opt (m : mem) (ic plen want : Z) : option (Z * Z) :=
  opt_loop (Z.to_nat (plen / 8)) m (ic + 16) (ic + plen) want.
Definition opt_mac (m : mem) (o : Z) : list Z := get_mac m (o + 2).

(** [icmpv6_port_unreach]: the head of the packet is copied aside, then into the answer. *)
Definition icmpv6_port_unreach (mac io : Z) (info : Ipv6Info) (m : mem) : Z * mem :=
  let our := dst6 info in
  let peer := src6 info in
  let peer_mac := get_mac m (io + 6) in
  let ih := Z.min (40 + payload_len6 info) 48 in
  let scratch := io + SCRATCH_OFF in
  let m := copy_to scratch (slice_at (io + 14) (Z.to_nat ih) m) m in
  let m := eth_header io peer_mac (mac_bytes mac) ETH_IPV6 m in
  let ip := io + 14 in
  let plen := 8 + ih in
  let m := ip6_header ip plen IP6_PROTO_ICMPV6 64 our peer m in
  let ic := ip + 40 in
  let m := icmp6_head ic ICMPV6_DEST_UNREACH ICMPV6_CODE_PORT_UNREACH m in
  let m := wr32be (ic + 4) 0 m in
  let m := copy_to (ic + 8) (slice_at scratch (Z.to_nat ih) m) m in
  (14 + 40 + plen, icmp6_seal our peer ic plen m).

(** ** Bytes at an address *)

Definition holds (m : mem) (p : Z) (l : list Z) : Prop := slice_at p (length l) m = l.

Lemma holds_lookup m p l : holds m p l <-> forall i b, l !! i = Some b -> m (p + Z.of_nat i) = b.
Proof.
  unfold holds. split.
  - intros H i b Hi. pose proof (lookup_slice_at p (length l) m i (lookup_lt_Some _ _ _ Hi)) as E. rewrite H, Hi in E.
    by injection E as ->.
  - intros H. apply list_eq_same_length with (length l); [done|by rewrite length_slice_at|].
    intros i x y Hi. rewrite lookup_slice_at by done. intros [= <-] Hy. by apply H.
Qed.

Lemma holds_nth m p l i : holds m p l -> (i < length l)%nat -> m (p + Z.of_nat i) = nth i l 0.
Proof. intros H Hi. apply (proj1 (holds_lookup _ _ _) H). rewrite nth_lookup. destruct (lookup_lt_is_Some_2 l i Hi) as [x ->]. done. Qed.

Lemma holds_at m p l a : holds m p l -> p <= a < p + Z.of_nat (length l) -> m a = nth (Z.to_nat (a - p)) l 0.
Proof. intros H Ha. rewrite <- (holds_nth m p l) by (done || lia). f_equal. lia. Qed.

Lemma holds_app m p l1 l2 : holds m p (l1 ++ l2) <-> holds m p l1 /\ holds m (p + Z.of_nat (length l1)) l2.
Proof.
  rewrite !holds_lookup. split.
  - intros H. split; intros i b Hi.
    + apply H. by apply lookup_app_l_Some.
    + rewrite <- Z.add_assoc, <- Nat2Z.inj_add. apply H. rewrite lookup_app_r by lia. rewrite <- Hi. f_equal. lia.
  - intros [H1 H2] i b [Hi|[Hge Hi]]%lookup_app_Some; [by apply H1|].
    replace (p + Z.of_nat i) with (p + Z.of_nat (length l1) + Z.of_nat (i - length l1)) by lia. by apply H2.
Qed.

Lemma holds_ext m m' p l : agree p (p + Z.of_nat (length l)) m m' -> holds m p l -> holds m' p l.
Proof.
  rewrite !holds_lookup. intros H Hl i b Hi. rewrite <- H; [by apply Hl|]. pose proof (lookup_lt_Some _ _ _ Hi). lia.
Qed.

(** The next write goes on where the bytes so far end. *)
Lemma holds_copy m p q l l' : holds m p l -> q = p + Z.of_nat (length l) -> holds (copy_to q l' m) p (l ++ l').
Proof.
  intros H ->. apply holds_app. split.
  - eapply holds_ext; [|exact H]. intros a Ha. symmetry. apply copy_to_out. lia.
  - unfold holds. apply slice_copy.
Qed.

(** A field is filled in later. *)
Lemma holds_patch m p q l x l' y :
  holds m p (l ++ x ++ l') -> q = p + Z.of_nat (length l) -> length y = length x -> holds (copy_to q y m) p (l ++ y ++ l').
Proof.
  intros H -> Hy. rewrite !holds_app in *. destruct H as (H1 & H2 & H3). split; [|split].
  - eapply holds_ext; [|exact H1]. intros a Ha. symmetry. apply copy_to_out. lia.
  - unfold holds. apply slice_copy.
  - rewrite Hy. eapply holds_ext; [|exact H3]. intros a Ha. symmetry. apply copy_to_out. lia.
Qed.

Lemma holds_nil m p : holds m p [].
Proof. done. Qed.

(** The single writes as copies. *)
Lemma wr8_copy a v m x : wr8 a v m x = copy_to a [v] m x.
Proof.
  unfold wr8, write_byte, copy_to. cbn [length]. destruct (Z.eqb_spec x a) as [->|Hne].
  - rewrite (proj2 (Z.leb_le _ _)), (proj2 (Z.ltb_lt _ _)), Z.sub_diag by lia. done.
  - destruct (Z.leb_spec a x), (Z.ltb_spec x (a + Z.of_nat 1)); cbn [andb]; try done. lia.
Qed.

Lemma copy_copy a l1 l2 m x : copy_to (a + Z.of_nat (length l1)) l2 (copy_to a l1 m) x = copy_to a (l1 ++ l2) m x.
Proof.
  unfold copy_to. rewrite length_app.
  destruct (Z.leb_spec (a + Z.of_nat (length l1)) x) as [H1|H1]; cbn [andb].
  - rewrite (proj2 (Z.leb_le a x)) by lia. cbn [andb].
    replace (a + Z.of_nat (length l1) + Z.of_nat (length l2)) with (a + Z.of_nat (length l1 + length l2)) by lia.
    destruct (Z.ltb_spec x (a + Z.of_nat (length l1 + length l2))) as [H2|H2].
    + rewrite app_nth2 by lia. f_equal. lia.
    + by rewrite (proj2 (Z.ltb_ge _ _)) by lia.
  - destruct (Z.leb_spec a x) as [H2|H2]; cbn [andb]; [|done].
    rewrite !(proj2 (Z.ltb_lt _ _)) by lia. by rewrite app_nth1 by lia.
Qed.

Lemma copy_ext a l m m' x : (forall y, m y = m' y) -> copy_to a l m x = copy_to a l m' x.
Proof. intros H. unfold copy_to. by destruct (_ && _). Qed.

Lemma wr16be_copy a v m x : wr16be a v m x = copy_to a (be16 v) m x.
Proof.
  unfold wr16be. rewrite wr8_copy, (copy_ext _ _ _ (copy_to a [w8 (Z.shiftr v 8)] m)) by apply wr8_copy.
  apply (copy_copy a [_] [_]).
Qed.

Lemma shiftr_w16 v k : 0 <= k -> k <= 8 -> w8 (Z.shiftr (w16 v) k) = w8 (Z.shiftr v k).
Proof.
  intros H0 H8. unfold w8, w16. apply Z.bits_inj'. intros n Hn. destruct (Z.ltb_spec n 8).
  - by rewrite !Z.mod_pow2_bits_low, !Z.shiftr_spec, Z.mod_pow2_bits_low by lia.
  - by rewrite !Z.mod_pow2_bits_high by lia.
Qed.

Lemma w8_w16 v : w8 (w16 v) = w8 v.
Proof. pose proof (shiftr_w16 v 0 ltac:(lia) ltac:(lia)) as H. by rewrite !Z.shiftr_0_r in H. Qed.

Lemma wr32be_copy a v m x : wr32be a v m x = copy_to a (be32 v) m x.
Proof.
  unfold wr32be. rewrite wr16be_copy, (copy_ext _ _ _ (copy_to a (be16 (w16 (Z.shiftr v 16))) m)) by apply wr16be_copy.
  rewrite (copy_copy a (be16 _) (be16 _)). f_equal. unfold be16, be32. cbn [app].
  by rewrite !shiftr_w16, !w8_w16, Z.shiftr_shiftr by lia.
Qed.

Lemma put_bytes_copy a l m x : put_bytes a l m x = copy_to a l m x.
Proof.
  revert a m. induction l as [|b l IH]; intros a m; cbn [put_bytes].
  - unfold copy_to. destruct (_ && _) eqn:E; [|done]. apply andb_prop in E as [E1 E2]. cbn [length] in E2. bool_to_prop. lia.
  - rewrite IH, (copy_ext _ _ _ (copy_to a [b] m)) by apply wr8_copy. apply (copy_copy a [b] l).
Qed.

Lemma put_ips_copy a src dst m x :
  length src = 4%nat -> length dst = 4%nat -> put_ips a src dst m x = copy_to a (src ++ dst) m x.
Proof.
  intros Hs Hd. destruct src as [|s0 [|s1 [|s2 [|s3 []]]]], dst as [|d0 [|d1 [|d2 [|d3 []]]]]; try discriminate.
  cbn [put_ips app]. unfold wr8, write_byte, copy_to. cbn [length].
  destruct (Z.leb_spec a x); cbn [andb]; [destruct (Z.ltb_spec x (a + Z.of_nat 8))|].
  2, 3: by rewrite !(proj2 (Z.eqb_neq _ _)) by lia.
  assert (exists k, (k < 8)%nat /\ x = a + Z.of_nat k) as (k & Hk & ->) by (exists (Z.to_nat (x - a)); lia).
  replace (Z.to_nat (a + Z.of_nat k - a)) with k by lia.
  do 8 (destruct k as [|k]; [repeat match goal with |- context [?u =? ?v] =>
    first [rewrite (proj2 (Z.eqb_neq u v)) by lia | rewrite (proj2 (Z.eqb_eq u v)) by lia] end; reflexivity|]). lia.
Qed.

(** ** What the checksum computes *)

Definition bytes (l : list Z) : Prop := Forall is_byte l.

(** The sum of the 16-bit words of a byte string. *)
Fixpoint wsum (l : list Z) : Z :=
  match l with
  | [] => 0
  | [a] => a * 256
  | a :: b :: l' => a * 256 + b + wsum l'
  end.

Lemma list_two_ind {A} (P : list A -> Prop) :
  P [] -> (forall a, P [a]) -> (forall a b l, P l -> P (a :: b :: l)) -> forall l, P l.
Proof.
  intros H0 H1 H2 l. enough (P l /\ forall a, P (a :: l)) by tauto.
  induction l as [|b l [IH1 IH2]]; split; auto.
Qed.

Lemma wsum_bound l : bytes l -> 0 <= wsum l <= 65535 * ((Z.of_nat (length l) + 1) / 2).
Proof.
  induction l as [|a|a b l IH] using list_two_ind; intros H.
  - done.
  - apply Forall_cons in H as [Ha _]. unfold is_byte in Ha. cbn [wsum length]. change ((Z.of_nat 1 + 1) / 2) with 1. lia.
  - do 2 apply Forall_cons in H as [? H]. unfold is_byte in *. specialize (IH H). cbn [wsum length].
    replace (Z.of_nat (S (S (length l))) + 1) with (Z.of_nat (length l) + 1 + 1 * 2) by lia. rewrite Z.div_add by lia. lia.
Qed.

Lemma wsum_app l1 l2 : Nat.Even (length l1) -> wsum (l1 ++ l2) = wsum l1 + wsum l2.
Proof.
  induction l1 as [|a|a b l1 IH] using list_two_ind; intros H; [done|by destruct H as [k Hk]; cbn [length] in Hk; lia|].
  cbn [wsum app]. rewrite IH; [lia|]. destruct H as [k Hk]. exists (pred k). cbn [length] in Hk. lia.
Qed.

Lemma rd16be_value m a : is_byte (m a) -> is_byte (m (a + 1)) -> rd16be m a = m a * 256 + m (a + 1).
Proof.
  unfold is_byte, rd16be, rd8, w16. intros H1 H2. rewrite Z.shiftl_mul_pow2, Z.mod_small by lia.
  rewrite <- Z.shiftl_mul_pow2 by lia. by rewrite lor_shiftl_add by lia.
Qed.

Lemma be16_value v : 0 <= v < 2^16 -> w8 (Z.shiftr v 8) * 256 + w8 v = v.
Proof.
  intros H. unfold w8. rewrite Z.shiftr_div_pow2 by lia. change (2^8) with 256.
  rewrite (Z.mod_small (v / 256)) by (Z.to_euclidean_division_equations; lia). Z.to_euclidean_division_equations. lia.
Qed.
Lemma be16_bytes v : bytes (be16 v).
Proof. repeat constructor; apply Z.mod_pos_bound; lia. Qed.
Lemma be32_bytes v : bytes (be32 v).
Proof. repeat constructor; apply Z.mod_pos_bound; lia. Qed.

Lemma csum_words_spec n m base l sum :
  holds m base l -> bytes l -> (2 * n <= length l)%nat -> 0 <= sum -> sum + wsum (take (2 * n) l) < 2^32 ->
  csum_words n m base sum = sum + wsum (take (2 * n) l).
Proof.
  revert base l sum. induction n as [|n IH]; intros base l sum Hl Hb Hn Hs Hlt; cbn [csum_words]; [rewrite Nat.mul_0_r, take_0; cbn [wsum]; lia|].
  destruct l as [|a [|b l]]; cbn [length] in Hn; [lia|lia|].
  replace (2 * S n)%nat with (S (S (2 * n))) in * by lia. cbn [firstn wsum] in *.
  pose proof (proj1 (holds_app m base [a; b] l) Hl) as [Hab Hl']. change (Z.of_nat (length [a; b])) with 2 in Hl'.
  pose proof (holds_nth m base [a; b] 0 Hab ltac:(cbn; lia)) as E0. pose proof (holds_nth m base [a; b] 1 Hab ltac:(cbn; lia)) as E1.
  cbn in E0, E1. rewrite Z.add_0_r in E0. do 2 apply Forall_cons in Hb as [? Hb].
  change (Z.of_nat 1) with 1 in E1. rewrite rd16be_value, E0, E1 by (rewrite ?E0, ?E1; done). assert (0 <= wsum (take (2 * n) l)) as Hpos by apply wsum_bound, Forall_take, Hb.
  unfold is_byte in *. unfold w32. rewrite Z.mod_small by lia. rewrite (IH _ l) by (done || lia). lia.
Qed.

Lemma wsum_odd l : Nat.Odd (length l) -> wsum l = wsum (take (length l - 1) l) + nth (length l - 1) l 0 * 256.
Proof.
  induction l as [|a|a b l IH] using list_two_ind; intros H; [by destruct H as [k Hk]; cbn [length] in Hk; lia|done|].
  assert (Nat.Odd (length l)) as H' by (destruct H as [k Hk]; exists (pred k); cbn [length] in Hk; lia).
  specialize (IH H'). assert (0 < length l)%nat by (destruct H'; lia). cbn [wsum length].
  replace (S (S (length l)) - 1)%nat with (S (S (length l - 1))) by lia. cbn [firstn wsum nth]. lia.
Qed.

Lemma csum_acc_spec m base l sum :
  holds m base l -> bytes l -> 0 <= sum -> sum + wsum l < 2^32 ->
  csum_acc m base (Z.of_nat (length l)) sum = sum + wsum l.
Proof.
  intros Hl Hb Hs Hlt. unfold csum_acc. destruct (Z.odd (Z.of_nat (length l))) eqn:E.
  - apply Zodd_bool_iff, Zodd_ex_iff in E as [k Hk]. assert (Nat.Odd (length l)) as Ho by (exists (Z.to_nat k); lia).
    rewrite (wsum_odd l Ho) in *. set (h := (length l - 1)%nat) in *.
    replace (Z.to_nat (Z.of_nat (length l) / 2)) with (Z.to_nat k) by (rewrite Hk, Z.mul_comm, Z.div_add_l by lia; change (1 / 2) with 0; lia).
    assert (h = 2 * Z.to_nat k)%nat as Hh by lia. rewrite Hh in *. set (n := Z.to_nat k) in *.
    assert (is_byte (nth (2 * n) l 0)) as Hlast.
    { rewrite nth_lookup. destruct (lookup_lt_is_Some_2 l (2 * n) ltac:(lia)) as [x Hx]. rewrite Hx. by apply (proj1 (Forall_lookup _ _) Hb (2 * n)%nat). }
    rewrite (csum_words_spec n m base l) by (unfold is_byte in *; done || lia).
    assert (m (base + (Z.of_nat (length l) - 1)) = nth (2 * n) l 0) as Em.
    { rewrite <- (holds_nth m base l) by (done || lia). f_equal. lia. }
    unfold rd8. rewrite Em. assert (0 <= wsum (take (2 * n) l)) by apply wsum_bound, Forall_take, Hb.
    unfold is_byte in Hlast. unfold w32. rewrite Z.shiftl_mul_pow2 by lia. change (2^8) with 256. rewrite !Z.mod_small by (rewrite ?Z.mod_small by lia; lia). lia.
  - assert (Z.even (Z.of_nat (length l)) = true) as E' by (rewrite <- Z.negb_odd, E; done).
    apply Zeven_bool_iff, Zeven_ex_iff in E' as [k Hk].
    replace (Z.to_nat (Z.of_nat (length l) / 2)) with (Z.to_nat k) by (rewrite Hk, Z.mul_comm, Z.div_mul by lia; lia).
    assert (2 * Z.to_nat k = length l)%nat as Hn by lia.
    rewrite (csum_words_spec _ m base l) by (rewrite ?Hn, ?firstn_all; done || lia). by rewrite Hn, firstn_all.
Qed.

(** Folding keeps the value modulo 65535, and only zero folds to zero. *)
Lemma fold_step s : 0 <= s < 2^32 ->
  w32 (Z.land s 0xffff + Z.shiftr s 16) = s mod 2^16 + s / 2^16.
Proof.
  intros H. change 0xffff with (Z.ones 16). rewrite Z.land_ones, Z.shiftr_div_pow2 by lia. unfold w32. apply Z.mod_small.
  Z.to_euclidean_division_equations. lia.
Qed.

Lemma fold_loop_spec f s :
  0 <= s < 2^32 -> (s < 2^16 \/ (1 <= f)%nat /\ s <= 2^17 - 2 \/ (2 <= f)%nat) ->
  0 <= fold_loop f s < 2^16 /\ (fold_loop f s - s) mod 65535 = 0 /\ (fold_loop f s = 0 <-> s = 0).
Proof.
  revert s. induction f as [|f IH]; intros s Hs Hf; cbn [fold_loop]; rewrite Z.shiftr_div_pow2 by lia;
    destruct (Z.eqb_spec (s / 2^16) 0) as [Hz|Hz].
  1, 3: rewrite Z.sub_diag; split; [Z.to_euclidean_division_equations; lia|by rewrite Z.mod_0_l].
  - Z.to_euclidean_division_equations; lia.
  - rewrite <- Z.shiftr_div_pow2, fold_step by lia. set (t := s mod 2^16 + s / 2^16).
    assert (s = s mod 2^16 + 65536 * (s / 2^16)) as Es by (pose proof (Z.div_mod s (2^16) ltac:(lia)); lia).
    destruct (IH t) as (H1 & H2 & H3).
    { unfold t. Z.to_euclidean_division_equations. lia. }
    { unfold t. destruct Hf as [Hf|[[Hf1 Hf]|Hf]]; [left|left|right; left]; [..|split; [lia|]]; Z.to_euclidean_division_equations; lia. }
    split; [exact H1|]. split.
    + replace (fold_loop f t - s) with (fold_loop f t - t + (- (s / 2^16)) * 65535) by (unfold t; lia).
      by rewrite Z.mod_add by lia.
    + rewrite H3. unfold t. Z.to_euclidean_division_equations. lia.
Qed.

Lemma csum_fold_spec s :
  0 <= s < 2^32 -> 0 <= csum_fold s < 2^16 /\ (csum_fold s - s) mod 65535 = 0 /\ (csum_fold s = 0 <-> s = 0).
Proof.
  intros Hs. destruct (fold_loop_spec 3 s Hs ltac:(lia)) as (H1 & H2 & H3). unfold csum_fold, w16. by rewrite Z.mod_small by lia.
Qed.

(** A sum is accepted when it is a positive multiple of 65535. *)
Lemma csum_ok s : 0 <= s < 2^32 -> not16 (csum_fold s) = 0 <-> s mod 65535 = 0 /\ s <> 0.
Proof.
  intros Hs. destruct (csum_fold_spec s Hs) as (H1 & H2 & H3). unfold not16. split.
  - intros H. assert (csum_fold s = 65535) as E by lia. rewrite E in *. split; [|lia].
    Z.to_euclidean_division_equations. lia.
  - intros [Hm Hz]. assert (csum_fold s mod 65535 = 0) as Hf.
    { replace (csum_fold s) with (csum_fold s - s + s) by lia. by rewrite Z.add_mod, H2, Hm by lia. }
    assert (csum_fold s <> 0) by tauto. Z.to_euclidean_division_equations. lia.
Qed.

(** Filling in the computed checksum makes the sum acceptable. *)
Lemma csum_fill s : 0 <= s -> s + 65535 < 2^32 -> not16 (csum_fold (s + not16 (csum_fold s))) = 0.
Proof.
  intros Hs Hlt. destruct (csum_fold_spec s ltac:(lia)) as (H1 & H2 & H3). apply csum_ok; unfold not16; [lia|]. split; [|lia].
  replace (s + (0xffff - csum_fold s)) with (65535 - (csum_fold s - s)) by lia. by rewrite Zminus_mod, H2.
Qed.
Lemma not16_range s : 0 <= s < 2^32 -> 0 <= not16 (csum_fold s) < 2^16.
Proof. intros Hs. destruct (csum_fold_spec s Hs) as (H & _). unfold not16. lia. Qed.

(** ** Frames as byte strings *)

Lemma holds_mem_ext m m' p l : (forall x, m x = m' x) -> holds m p l -> holds m' p l.
Proof. intros H. apply holds_ext. by intros a _. Qed.

Section grow.
Context (m : mem) (p q : Z) (l : list Z) (Hl : holds m p l) (Hq : q = p + Z.of_nat (length l)).

Lemma holds_wr8 v : holds (wr8 q v m) p (l ++ [v]).
Proof using Hl Hq. eapply holds_mem_ext; [intros x; symmetry; apply wr8_copy|]. by apply holds_copy. Qed.
Lemma holds_wr16 v : holds (wr16be q v m) p (l ++ be16 v).
Proof using Hl Hq. eapply holds_mem_ext; [intros x; symmetry; apply wr16be_copy|]. by apply holds_copy. Qed.
Lemma holds_wr32 v : holds (wr32be q v m) p (l ++ be32 v).
Proof using Hl Hq. eapply holds_mem_ext; [intros x; symmetry; apply wr32be_copy|]. by apply holds_copy. Qed.
Lemma holds_put l' : holds (put_bytes q l' m) p (l ++ l').
Proof using Hl Hq. eapply holds_mem_ext; [intros x; symmetry; apply put_bytes_copy|]. by apply holds_copy. Qed.
Lemma holds_ips src dst : length src = 4%nat -> length dst = 4%nat -> holds (put_ips q src dst m) p (l ++ src ++ dst).
Proof using Hl Hq.
  intros Hs Hd. eapply holds_mem_ext; [intros x; symmetry; by apply put_ips_copy|]. by apply holds_copy.
Qed.

End grow.

Lemma holds_fill m p q l x l' v :
  holds m p (l ++ be16 x ++ l') -> q = p + Z.of_nat (length l) -> holds (wr16be q v m) p (l ++ be16 v ++ l').
Proof.
  intros H Hq. eapply holds_mem_ext; [intros y; symmetry; apply wr16be_copy|]. by apply (holds_patch _ _ _ _ (be16 x)).
Qed.

(** Sizes of the fields, for address arithmetic. *)
Lemma length_be16 v : length (be16 v) = 2%nat.
Proof. done. Qed.
Lemma length_be32 v : length (be32 v) = 4%nat.
Proof. done. Qed.
Lemma mac_bytes_length mac : length (mac_bytes mac) = 6%nat.
Proof. done. Qed.
Ltac sizes := rewrite ?length_app, ?mac_bytes_length, ?length_be16, ?length_be32; cbn [length]; lia.

Ltac solve_bytes :=
  unfold bytes in *;
  repeat first [apply Forall_app_2 | apply be16_bytes | apply be32_bytes | assumption | apply Forall_nil_2
               | apply Forall_singleton; first [assumption | unfold is_byte; lia]].

Definition ip4_bytes (total proto : Z) (src dst : list Z) (c : Z) : list Z :=
  ([0x45] ++ [0] ++ be16 (w16 total) ++ be16 0 ++ be16 0x4000 ++ [64] ++ [proto]) ++ be16 c ++ src ++ dst.
Definition ip6_bytes (plen next hop : Z) (src dst : list Z) : list Z :=
  be32 0x60000000 ++ be16 (w16 plen) ++ [next] ++ [hop] ++ src ++ dst.
Definition tcp_bytes (sport dport seq ack flags window : Z) (payload : list Z) (c : Z) : list Z :=
  (be16 sport ++ be16 dport ++ be32 seq ++ be32 ack ++ [80] ++ [flags] ++ be16 window) ++ be16 c ++ be16 0 ++ payload.
Definition eth_bytes (dst_mac src_mac : list Z) (ethertype : Z) : list Z := dst_mac ++ src_mac ++ be16 ethertype.

(** The checksum that belongs to a byte string with its checksum field cleared. *)
Definition filled (f : Z -> list Z) (pseudo : list Z) : Z := not16 (csum_fold (wsum pseudo + wsum (f 0))).

Lemma eth_header_spec io dst_mac src_mac t m :
  length dst_mac = 6%nat -> length src_mac = 6%nat -> holds (eth_header io dst_mac src_mac t m) io (eth_bytes dst_mac src_mac t).
Proof.
  intros Hd Hs. unfold eth_header, eth_bytes. rewrite (app_assoc dst_mac). apply holds_wr16; [|sizes].
  apply holds_put; [|sizes]. apply (holds_put _ _ _ [] (holds_nil _ _)). sizes.
Qed.

Lemma csum_holds m base l : holds m base l -> bytes l -> Z.of_nat (length l) < 2^17 - 2 ->
  csum m base (Z.of_nat (length l)) = not16 (csum_fold (wsum l)).
Proof.
  intros H Hb Hn. unfold csum. rewrite (csum_acc_spec _ _ l) by (try done; pose proof (wsum_bound l Hb); Z.to_euclidean_division_equations; lia).
  done.
Qed.

Lemma ip4_header_spec io ip total proto src dst l m :
  holds m io l -> ip = io + Z.of_nat (length l) -> length src = 4%nat -> length dst = 4%nat ->
  bytes src -> bytes dst -> is_byte proto ->
  holds (ip4_header ip total proto src dst m) io (l ++ ip4_bytes total proto src dst (filled (ip4_bytes total proto src dst) [])).
Proof.
  intros Hl Hip Hs Hd Hsb Hdb Hp. unfold ip4_header. set (m1 := put_ips _ _ _ _).
  assert (holds m1 io (l ++ ip4_bytes total proto src dst 0)) as H1.
  { unfold m1, ip4_bytes. rewrite !app_assoc. rewrite <- (app_assoc _ src dst). apply holds_ips; [|sizes|done|done].
    apply holds_wr16; [|sizes]. do 2 (apply holds_wr8; [|sizes]). do 3 (apply holds_wr16; [|sizes]). do 2 (apply holds_wr8; [|sizes]). exact Hl. }
  assert (bytes (ip4_bytes total proto src dst 0)) as Hb.
  { unfold ip4_bytes. solve_bytes. }
  pose proof (proj2 (proj1 (holds_app _ _ _ _) H1)) as H2. rewrite <- Hip in H2.
  pose proof (csum_holds m1 ip _ H2 Hb) as Ec. assert (Z.of_nat (length (ip4_bytes total proto src dst 0)) = 20) as E20 by (unfold ip4_bytes; sizes).
  rewrite E20 in Ec. rewrite Ec by lia. unfold filled. change (wsum []) with 0. rewrite Z.add_0_l.
  generalize (not16 (csum_fold (wsum (ip4_bytes total proto src dst 0)))). intros c. unfold ip4_bytes in *. rewrite app_assoc in H1 |- *.
  eapply holds_fill; [exact H1|sizes].
Qed.

Lemma ip6_header_spec io ip plen next hop src dst l m :
  holds m io l -> ip = io + Z.of_nat (length l) -> length src = 16%nat -> length dst = 16%nat ->
  holds (ip6_header ip plen next hop src dst m) io (l ++ ip6_bytes plen next hop src dst).
Proof.
  intros Hl Hip Hs Hd. unfold ip6_header, ip6_bytes. rewrite !app_assoc. do 2 (apply holds_put; [|sizes]).
  do 2 (apply holds_wr8; [|sizes]). apply holds_wr16; [|sizes]. apply holds_wr32; [|sizes]. exact Hl.
Qed.

Lemma tcp_header_spec io tcp sport dport seq ack flags window payload l m :
  holds m io l -> tcp = io + Z.of_nat (length l) ->
  holds (tcp_header tcp sport dport seq ack flags window payload m) io (l ++ tcp_bytes sport dport seq ack flags window payload 0).
Proof.
  intros Hl Htcp. unfold tcp_header, tcp_bytes. rewrite !app_assoc. apply holds_copy; [|sizes].
  do 3 (apply holds_wr16; [|sizes]). do 2 (apply holds_wr8; [|sizes]). do 2 (apply holds_wr32; [|sizes]). do 2 (apply holds_wr16; [|sizes]). exact Hl.
Qed.

(** A byte string with a checksum field at an even offset. *)
Definition fillable (f : Z -> list Z) : Prop :=
  exists a b, Nat.Even (length a) /\ forall c, f c = a ++ be16 c ++ b.

Lemma fill_wsum f c : fillable f -> 0 <= c < 2^16 -> wsum (f c) = wsum (f 0) + c.
Proof.
  intros (a & b & Ha & Hf) Hc. rewrite !Hf, !wsum_app by (done || by exists 1%nat).
  assert (forall v, 0 <= v < 2^16 -> wsum (be16 v) = v) as Hv by (intros v H; cbn [wsum be16]; rewrite Z.add_0_r; by apply be16_value).
  rewrite !Hv by lia. lia.
Qed.

Lemma fill_length f c c' : fillable f -> length (f c) = length (f c').
Proof. intros (a & b & _ & Hf). rewrite !Hf. sizes. Qed.

Lemma fill_bytes f c c' : fillable f -> bytes (f c) -> bytes (f c').
Proof.
  intros (a & b & _ & Hf). rewrite !Hf. unfold bytes. rewrite !Forall_app. intros (? & _ & ?). split; [done|]. split; [apply be16_bytes|done].
Qed.

Definition small (l : list Z) : Prop := bytes l /\ Z.of_nat (length l) < 2^16.
Lemma small_wsum l : small l -> 0 <= wsum l < 2^31.
Proof. intros [Hb Hl]. pose proof (wsum_bound l Hb). Z.to_euclidean_division_equations. lia. Qed.

Lemma filled_range f ps : small ps -> small (f 0) -> 0 <= filled f ps < 2^16.
Proof. intros H1%small_wsum H2%small_wsum. apply not16_range. lia. Qed.

Lemma filled_ok f ps : fillable f -> small ps -> small (f 0) ->
  not16 (csum_fold (wsum ps + wsum (f (filled f ps)))) = 0.
Proof.
  intros Hf Hp H0. rewrite (fill_wsum f _ Hf (filled_range f ps Hp H0)), Z.add_assoc.
  apply csum_fill; destruct Hp as [Hb Hl], H0 as [Hb0 Hl0]; pose proof (wsum_bound _ Hb); pose proof (wsum_bound _ Hb0);
    Z.to_euclidean_division_equations; lia.
Qed.

(** The checksum over a pseudo header and a byte string in memory. *)
Lemma pseudo_csum m seg ps l :
  holds m seg l -> small ps -> small l ->
  csum_acc m seg (Z.of_nat (length l)) (csum_acc (local_array ps) 0 (Z.of_nat (length ps)) 0) = wsum ps + wsum l.
Proof.
  intros Hl Hp Hs. pose proof (small_wsum _ Hp). pose proof (small_wsum _ Hs).
  assert (holds (local_array ps) 0 ps) as Hps by apply slice_copy.
  rewrite (csum_acc_spec (local_array ps) 0 ps 0 Hps (proj1 Hp)) by lia.
  rewrite (csum_acc_spec m seg l _ Hl (proj1 Hs)); lia.
Qed.

Lemma fill_holds m io seg l f c :
  fillable f -> holds m io (l ++ f 0) -> seg = io + Z.of_nat (length l) ->
  forall a b, (forall c, f c = a ++ be16 c ++ b) -> holds (wr16be (seg + Z.of_nat (length a)) c m) io (l ++ f c).
Proof.
  intros _ H -> a b Hf. rewrite Hf in H |- *. rewrite app_assoc in H |- *. eapply holds_fill; [exact H|]. sizes.
Qed.

Definition pseudo4 (src dst : list Z) (len : Z) : list Z := src ++ dst ++ [0; IP_PROTO_TCP] ++ be16 len.
Definition pseudo6 (src dst : list Z) (next len : Z) : list Z := src ++ dst ++ be32 (w32 len) ++ [0; 0; 0; next].

Lemma tcp_csum_holds m seg src dst l :
  holds m seg l -> small l -> length src = 4%nat -> length dst = 4%nat -> bytes src -> bytes dst ->
  tcp_csum src dst m seg (Z.of_nat (length l)) = not16 (csum_fold (wsum (pseudo4 src dst (Z.of_nat (length l))) + wsum l)).
Proof.
  intros Hl Hs H1 H2 B1 B2. unfold tcp_csum. fold (pseudo4 src dst (Z.of_nat (length l))). set (ps := pseudo4 _ _ _).
  assert (Z.of_nat (length ps) = 12) as E by (unfold ps, pseudo4; sizes). rewrite <- E at 1.
  rewrite pseudo_csum; [done|done| |done]. split; [|lia]. unfold ps, pseudo4. change [0; IP_PROTO_TCP] with ([0] ++ [IP_PROTO_TCP]).
  unfold IP_PROTO_TCP. solve_bytes.
Qed.

Lemma csum_v6_holds m seg src dst next l :
  holds m seg l -> small l -> length src = 16%nat -> length dst = 16%nat -> bytes src -> bytes dst -> is_byte next ->
  csum_v6 src dst next m seg (Z.of_nat (length l)) = not16 (csum_fold (wsum (pseudo6 src dst next (Z.of_nat (length l))) + wsum l)).
Proof.
  intros Hl Hs H1 H2 B1 B2 Hn. unfold csum_v6. fold (pseudo6 src dst next (Z.of_nat (length l))). set (ps := pseudo6 _ _ _ _).
  assert (Z.of_nat (length ps) = 40) as E by (unfold ps, pseudo6; sizes). rewrite <- E at 1.
  rewrite pseudo_csum; [done|done| |done]. split; [|lia]. unfold ps, pseudo6. change [0; 0; 0; next] with ([0] ++ [0] ++ [0] ++ [next]). solve_bytes.
Qed.

(** *** The frames of a TCP segment *)

Section tcp_frames.
Context (src_mac : Z) (dst_mac : list Z) (sport dport seq ack flags window : Z) (payload : list Z).
Context (Hpl : bytes payload) (Hflags : is_byte flags).

Let seg := tcp_bytes sport dport seq ack flags window payload.
Let seg_len := 20 + Z.of_nat (length payload).

Lemma seg_fillable : fillable seg.
Proof using Type. eexists _, _. split; [|intros c; reflexivity]. by exists 8%nat. Qed.
Lemma seg_length c : Z.of_nat (length (seg c)) = seg_len.
Proof using Type. unfold seg, tcp_bytes, seg_len. sizes. Qed.
Lemma seg_bytes c : bytes (seg c).
Proof using Hpl Hflags. unfold seg, tcp_bytes. solve_bytes. Qed.

Lemma tcp_build_frame io src dst m :
  length dst_mac = 6%nat -> length src = 4%nat -> length dst = 4%nat -> bytes src -> bytes dst -> seg_len < 2^16 ->
  let '(len, m') := tcp_build io src_mac dst_mac src dst sport dport seq ack flags window payload m in
  len = 34 + seg_len
  /\ holds m' io (eth_bytes dst_mac (mac_bytes src_mac) ETH_IPV4
       ++ ip4_bytes (20 + seg_len) IP_PROTO_TCP src dst (filled (ip4_bytes (20 + seg_len) IP_PROTO_TCP src dst) [])
       ++ seg (filled seg (pseudo4 src dst seg_len))).
Proof using Hpl Hflags.
  intros Hmac H1 H2 B1 B2 Hlen. unfold tcp_build. fold seg_len. split; [lia|].
  set (eth := eth_bytes _ _ _). set (iph := ip4_bytes _ _ _ _ _). set (m1 := ip4_header _ _ _ _ _ _).
  assert (holds m1 io (eth ++ iph)) as Hm1.
  { apply ip4_header_spec; try assumption; [apply eth_header_spec; done|unfold eth, eth_bytes; sizes|done]. }
  set (tcp := io + 14 + 20). set (m2 := tcp_header _ _ _ _ _ _ _ _ _).
  assert (tcp = io + Z.of_nat (length (eth ++ iph))) as Htcp by (unfold tcp, eth, iph, eth_bytes, ip4_bytes; sizes).
  assert (holds m2 io ((eth ++ iph) ++ seg 0)) as Hm2 by (by apply tcp_header_spec).
  rewrite app_assoc. pose proof (proj2 (proj1 (holds_app _ _ _ _) Hm2)) as Hseg. rewrite <- Htcp in Hseg.
  assert (small (seg 0)) as Hsm by (split; [apply seg_bytes|rewrite seg_length; lia]).
  pose proof (tcp_csum_holds m2 tcp src dst (seg 0) Hseg Hsm H1 H2 B1 B2) as Ec. rewrite seg_length in Ec. rewrite Ec.
  unfold filled.
  apply (fill_holds _ _ _ _ _ _ seg_fillable Hm2 Htcp _ _ (fun c => eq_refl)).
Qed.

Lemma tcp_build6_frame io src dst m :
  length dst_mac = 6%nat -> length src = 16%nat -> length dst = 16%nat -> bytes src -> bytes dst -> seg_len < 2^16 ->
  let '(len, m') := tcp_build6 io src_mac dst_mac src dst sport dport seq ack flags window payload m in
  len = 54 + seg_len
  /\ holds m' io (eth_bytes dst_mac (mac_bytes src_mac) ETH_IPV6 ++ ip6_bytes seg_len IP_PROTO_TCP 64 src dst
       ++ seg (filled seg (pseudo6 src dst IP_PROTO_TCP seg_len))).
Proof using Hpl Hflags.
  intros Hmac H1 H2 B1 B2 Hlen. unfold tcp_build6. fold seg_len. split; [lia|].
  set (eth := eth_bytes _ _ _). set (iph := ip6_bytes _ _ _ _ _). set (m1 := ip6_header _ _ _ _ _ _ _).
  assert (holds m1 io (eth ++ iph)) as Hm1.
  { apply ip6_header_spec; try assumption; [apply eth_header_spec; done|unfold eth, eth_bytes; sizes]. }
  set (tcp := io + 14 + 40). set (m2 := tcp_header _ _ _ _ _ _ _ _ _).
  assert (tcp = io + Z.of_nat (length (eth ++ iph))) as Htcp by (unfold tcp, eth, iph, eth_bytes, ip6_bytes; sizes).
  assert (holds m2 io ((eth ++ iph) ++ seg 0)) as Hm2 by (by apply tcp_header_spec).
  rewrite app_assoc. pose proof (proj2 (proj1 (holds_app _ _ _ _) Hm2)) as Hseg. rewrite <- Htcp in Hseg.
  assert (small (seg 0)) as Hsm by (split; [apply seg_bytes|rewrite seg_length; lia]).
  pose proof (csum_v6_holds m2 tcp src dst IP_PROTO_TCP (seg 0) Hseg Hsm H1 H2 B1 B2 ltac:(done)) as Ec. rewrite seg_length in Ec. rewrite Ec.
  unfold filled. apply (fill_holds _ _ _ _ _ _ seg_fillable Hm2 Htcp _ _ (fun c => eq_refl)).
Qed.

End tcp_frames.

(** ** Reading fields back *)

Lemma rd8_holds m a v : holds m a [v] -> rd8 m a = v.
Proof. intros H. pose proof (holds_nth m a [v] 0 H ltac:(cbn; lia)) as E. by rewrite Z.add_0_r in E. Qed.
Lemma rd16_holds m a v : holds m a (be16 v) -> 0 <= v < 2^16 -> rd16be m a = v.
Proof.
  intros H Hv. unfold be16 in H. pose proof (holds_nth m a _ 0 H ltac:(cbn; lia)) as E0. pose proof (holds_nth m a _ 1 H ltac:(cbn; lia)) as E1.
  cbn [nth] in E0, E1. rewrite Z.add_0_r in E0. change (Z.of_nat 1) with 1 in E1.
  assert (forall x, is_byte (w8 x)) as Hw by (intros x; apply Z.mod_pos_bound; lia).
  rewrite rd16be_value, E0, E1 by (rewrite ?E0, ?E1; apply Hw). by apply be16_value.
Qed.
Lemma rd32_holds m a v : holds m a (be32 v) -> 0 <= v < 2^32 -> rd32be m a = v.
Proof.
  intros H Hv. unfold be32 in H. pose proof (holds_nth m a _ 0 H ltac:(cbn; lia)) as E0. pose proof (holds_nth m a _ 1 H ltac:(cbn; lia)) as E1.
  pose proof (holds_nth m a _ 2 H ltac:(cbn; lia)) as E2. pose proof (holds_nth m a _ 3 H ltac:(cbn; lia)) as E3.
  cbn [nth] in E0, E1, E2, E3. rewrite Z.add_0_r in E0. change (Z.of_nat 1) with 1 in E1. change (Z.of_nat 2) with 2 in E2.
  change (Z.of_nat 3) with 3 in E3. unfold rd32be, rd8. rewrite E0, E1, E2, E3. clear -Hv. unfold w8, w32.
  rewrite !Z.shiftr_div_pow2 by lia. set (b3 := v / 2^24 mod 2^8). set (b2 := v / 2^16 mod 2^8). set (b1 := v / 2^8 mod 2^8). set (b0 := v mod 2^8).
  assert (0 <= b3 < 2^8 /\ 0 <= b2 < 2^8 /\ 0 <= b1 < 2^8 /\ 0 <= b0 < 2^8) as (H3 & H2 & H1 & H0) by (repeat split; apply Z.mod_pos_bound; lia).
  rewrite !(Z.mod_small (Z.shiftl _ _)) by (rewrite Z.shiftl_mul_pow2 by lia; lia). rewrite <- !Z.lor_assoc.
  rewrite (lor_shiftl_add b1 b0 8), (lor_shiftl_add b2 _ 16), (lor_shiftl_add b3 _ 24) by lia.
  clear H0 H1 H2 H3. unfold b0, b1, b2, b3. change (2^24) with 16777216. change (2^16) with 65536. change (2^8) with 256.
  Z.to_euclidean_division_equations. lia.
Qed.
Lemma get_holds m a l : holds m a l -> m <$> seqZ a (Z.of_nat (length l)) = l.
Proof. done. Qed.

(** The parts of a byte string, each at its address. *)
Ltac split_holds H :=
  repeat lazymatch type of H with
         | holds _ _ (_ ++ _) => let H' := fresh "P" in apply holds_app in H as [H' H]; split_holds H'
         end.

(** Reads at addresses that are equal to those of the parts. *)
Ltac read_parts :=
  repeat match goal with
         | H : holds ?m ?p [?v] |- context [rd8 ?m ?a] =>
             replace (rd8 m a) with v by (symmetry; replace a with p by sizes; exact (rd8_holds m p v H))
         | H : holds ?m ?p (be16 ?v) |- context [rd16be ?m ?a] =>
             replace (rd16be m a) with v by (symmetry; replace a with p by sizes; apply (rd16_holds m p v H); lia)
         | H : holds ?m ?p (be32 ?v) |- context [rd32be ?m ?a] =>
             replace (rd32be m a) with v by (symmetry; replace a with p by sizes; apply (rd32_holds m p v H); lia)
         end.

Lemma eth_type m io dst_mac src_mac t l :
  holds m io (eth_bytes dst_mac src_mac t ++ l) -> length dst_mac = 6%nat -> length src_mac = 6%nat -> 0 <= t < 2^16 ->
  rd16be m (io + 12) = t /\ holds m (io + 14) l.
Proof.
  intros H Hd Hs Ht. apply holds_app in H as [H Hl]. unfold eth_bytes in *. split_holds H. split.
  - by read_parts.
  - replace (io + 14) with (io + Z.of_nat (length (dst_mac ++ src_mac ++ be16 t))) by sizes. exact Hl.
Qed.

Lemma get_part m a n l p : holds m p l -> a = p -> n = Z.of_nat (length l) -> rd8 m <$> seqZ a n = l.
Proof. intros H -> ->. exact H. Qed.

Section ip4.
Context (total proto : Z) (src dst : list Z).
Context (Hs : length src = 4%nat) (Hd : length dst = 4%nat) (Bs : bytes src) (Bd : bytes dst) (Bp : is_byte proto).

Lemma ip4_fillable : fillable (ip4_bytes total proto src dst).
Proof using Type. eexists _, _. split; [|intros c; reflexivity]. by exists 5%nat. Qed.
Lemma ip4_length c : Z.of_nat (length (ip4_bytes total proto src dst c)) = 20.
Proof using Hs Hd. unfold ip4_bytes. sizes. Qed.
Lemma ip4_all_bytes c : bytes (ip4_bytes total proto src dst c).
Proof using Hs Hd Bs Bd Bp. unfold ip4_bytes. solve_bytes. Qed.

Lemma ip4_parse_frame m io dst_mac src_mac l n :
  holds m io (eth_bytes dst_mac src_mac ETH_IPV4 ++ ip4_bytes total proto src dst (filled (ip4_bytes total proto src dst) []) ++ l) ->
  length dst_mac = 6%nat -> length src_mac = 6%nat -> 20 <= total < 2^16 -> 14 + total <= n ->
  ipv4_parse m io n = Some (mk_ip4 src dst proto (io + 34) (total - 20)).
Proof using Hs Hd Bs Bd Bp.
  intros H Hdm Hsm Ht Hn. destruct (eth_type _ _ _ _ _ _ H Hdm Hsm ltac:(done)) as [Ety Hip].
  apply holds_app in Hip as [Hip _]. set (c := filled _ _) in *.
  assert (csum m (io + 14) 20 = 0) as Hc.
  { assert (small []) as Hnil by (split; [constructor|done]).
    assert (small (ip4_bytes total proto src dst 0)) as H0 by (split; [apply ip4_all_bytes|rewrite ip4_length; lia]).
    rewrite <- (ip4_length c). rewrite (csum_holds _ _ _ Hip) by (try apply ip4_all_bytes; rewrite ip4_length; lia).
    exact (filled_ok _ [] ip4_fillable Hnil H0). }
  unfold ip4_bytes in Hip. split_holds Hip. unfold ipv4_parse. cbv zeta. rewrite Ety.
  rewrite (proj2 (Z.ltb_ge n (14 + 20))), Z.eqb_refl by lia. cbn [orb negb].
  assert (w16 total = total) as Ew by (unfold w16; apply Z.mod_small; lia). rewrite Ew in *.
  read_parts. change (Z.shiftr 69 4 =? 4) with true. change (Z.land 69 15 * 4) with 20. cbn [negb].
  change (20 <? 20) with false. rewrite (proj2 (Z.ltb_ge (n - 14) 20)) by lia. cbn [orb].
  rewrite (proj2 (Z.ltb_ge total 20)), (proj2 (Z.ltb_ge (n - 14) total)) by lia. cbn [orb].
  change (Z.land 16384 8192 =? 0) with true. change (Z.land 16384 8191 =? 0) with true. cbn [orb negb]. rewrite Hc. cbn [Z.eqb negb].
  unfold get_ip4. match goal with Q : holds m _ src |- _ => rewrite (get_part _ _ _ src _ Q) by sizes end.
  match goal with Q : holds m _ dst |- _ => rewrite (get_part _ _ _ dst _ Q) by sizes end. do 2 f_equal; lia.
Qed.

End ip4.

Section ip6.
Context (plen next hop : Z) (src dst : list Z) (Hs : length src = 16%nat) (Hd : length dst = 16%nat).

Lemma ip6_length : Z.of_nat (length (ip6_bytes plen next hop src dst)) = 40.
Proof using Hs Hd. unfold ip6_bytes. sizes. Qed.

Lemma ip6_parse_frame m io dst_mac src_mac l n :
  holds m io (eth_bytes dst_mac src_mac ETH_IPV6 ++ ip6_bytes plen next hop src dst ++ l) ->
  length dst_mac = 6%nat -> length src_mac = 6%nat -> 0 <= plen < 2^16 -> 54 + plen <= n ->
  ipv6_parse m io n = Some (mk_ip6 src dst next (io + 54) plen).
Proof using Hs Hd.
  intros H Hdm Hsm Ht Hn. destruct (eth_type _ _ _ _ _ _ H Hdm Hsm ltac:(done)) as [Ety Hip].
  apply holds_app in Hip as [Hip _]. unfold ip6_bytes in Hip. split_holds Hip.
  unfold ipv6_parse. cbv zeta. rewrite Ety. rewrite (proj2 (Z.ltb_ge n (14 + 40))), Z.eqb_refl by lia. cbn [orb negb].
  assert (rd8 m (io + 14) = 96) as ->.
  { pose proof (holds_nth _ _ _ 0 P ltac:(cbn; lia)) as E. by rewrite Z.add_0_r in E. }
  change (Z.shiftr 96 4 =? 6) with true. cbn [negb]. assert (w16 plen = plen) as Ew by (unfold w16; apply Z.mod_small; lia). rewrite Ew in *.
  read_parts. rewrite (proj2 (Z.ltb_ge n _)) by lia. unfold get_v6.
  match goal with Q : holds m _ src |- _ => rewrite (get_part _ _ _ src _ Q) by sizes end.
  match goal with Q : holds m _ dst |- _ => rewrite (get_part _ _ _ dst _ Q) by sizes end. do 2 f_equal; lia.
Qed.

End ip6.

(** The fields of a TCP header. *)
Lemma tcp_fields_frame m tcp sport dport seq ack flags window payload c cs :
  holds m tcp (tcp_bytes sport dport seq ack flags window payload c) ->
  0 <= sport < 2^16 -> 0 <= dport < 2^16 -> 0 <= seq < 2^32 -> 0 <= ack < 2^32 -> 0 <= window < 2^16 -> cs = 0 ->
  tcp_fields m tcp (20 + Z.of_nat (length payload)) cs
  = Some (mk_seg sport dport seq ack flags window (tcp + 20) (Z.of_nat (length payload)))
  /\ slice_at (tcp + 20) (length payload) m = payload.
Proof.
  intros H Hsp Hdp Hseq Hack Hw ->. unfold tcp_bytes in H. split_holds H. unfold tcp_fields. cbv zeta. read_parts.
  change (Z.shiftr 80 4 * 4) with 20. change (20 <? 20) with false. rewrite (proj2 (Z.ltb_ge _ 20)) by lia. cbn [orb Z.eqb negb].
  split; [do 2 f_equal; lia|]. replace (tcp + 20) with (tcp + Z.of_nat (length (be16 sport ++ be16 dport ++ be32 seq ++ be32 ack ++ [80] ++ [flags] ++ be16 window))
    + Z.of_nat (length (be16 c)) + Z.of_nat (length (be16 0))) by sizes. exact H.
Qed.

(** ** A damaged segment is rejected *)

Lemma wsum_insert l i v x :
  l !! i = Some x -> exists k, (k = 1 \/ k = 256) /\ wsum (<[i := v]> l) = wsum l + k * (v - x).
Proof.
  revert i. induction l as [|a|a b l IH] using list_two_ind; intros i Hi; [done| |].
  - destruct i as [|i]; [|done]. injection Hi as ->. exists 256. split; [by right|]. change (<[0%nat := v]> [x]) with [v]. cbn [wsum]. lia.
  - destruct i as [|[|i]]; cbn [lookup list_lookup] in Hi.
    + injection Hi as ->. exists 256. split; [by right|]. change (<[0%nat := v]> (x :: b :: l)) with (v :: b :: l). cbn [wsum]. lia.
    + injection Hi as ->. exists 1. split; [by left|]. change (<[1%nat := v]> (a :: x :: l)) with (a :: v :: l). cbn [wsum]. lia.
    + destruct (IH i Hi) as (k & Hk & E). exists k. split; [exact Hk|].
      change (<[S (S i) := v]> (a :: b :: l)) with (a :: b :: <[i := v]> l). cbn [wsum]. rewrite E. lia.
Qed.

(** One byte of the memory changed. *)
Definition one_byte_changed (m m' : mem) (a : Z) : Prop :=
  is_byte (m' a) /\ m' a <> m a /\ forall x, x <> a -> m' x = m x.

Lemma slice_changed m m' a p n :
  one_byte_changed m m' a -> p <= a < p + Z.of_nat n -> slice_at p n m' = <[Z.to_nat (a - p) := m' a]> (slice_at p n m).
Proof.
  intros (_ & _ & H) Ha. apply list_eq_same_length with n; [by rewrite length_insert, length_slice_at|by rewrite length_slice_at|].
  intros i x y Hi. rewrite lookup_slice_at by lia. intros [= <-].
  destruct (decide (i = Z.to_nat (a - p))) as [->|Hne].
  - rewrite list_lookup_insert_eq by (rewrite length_slice_at; lia). intros [= <-]. f_equal. lia.
  - rewrite list_lookup_insert_ne by done. rewrite lookup_slice_at by lia. intros [= <-]. apply H. lia.
Qed.

Lemma small_changed m m' a p n :
  one_byte_changed m m' a -> p <= a < p + Z.of_nat n -> small (slice_at p n m) -> small (slice_at p n m').
Proof.
  intros Hch Ha [Hb Hn]. rewrite (slice_changed _ _ _ _ _ Hch Ha). split; [|by rewrite length_insert].
  apply Forall_insert; [exact Hb|apply Hch].
Qed.

(** A sum over the changed bytes is not acceptable if the old one was. *)
Lemma changed_sum m m' a p n base :
  one_byte_changed m m' a -> p <= a < p + Z.of_nat n -> small (slice_at p n m) -> 0 <= base < 2^31 ->
  not16 (csum_fold (base + wsum (slice_at p n m))) = 0 -> not16 (csum_fold (base + wsum (slice_at p n m'))) <> 0.
Proof.
  intros Hch Ha Hs Hb. pose proof (small_wsum _ Hs) as B. pose proof (small_wsum _ (small_changed _ _ _ _ _ Hch Ha Hs)) as B'.
  rewrite !csum_ok by lia. intros [H0 _] [H0' _]. revert H0'. rewrite (slice_changed _ _ _ _ _ Hch Ha).
  assert (slice_at p n m !! Z.to_nat (a - p) = Some (m a)) as Hl by (rewrite lookup_slice_at by lia; do 2 f_equal; lia).
  destruct (wsum_insert (slice_at p n m) (Z.to_nat (a - p)) (m' a) (m a) Hl) as (k & Hk & ->).
  destruct Hch as (H1 & H2 & _). pose proof (proj1 (Forall_lookup _ _) (proj1 Hs) _ _ Hl) as H3. unfold is_byte in *. rewrite Z.add_assoc.
  intros H0'. assert ((k * (m' a - m a)) mod 65535 = 0) as Hz.
  { rewrite Z.add_mod, H0 in H0' by lia. rewrite Z.add_0_l in H0'. by rewrite Z.mod_mod in H0' by lia. }
  clear -Hz Hk H1 H2 H3. apply Z.mod_divide in Hz as [q Hq]; [|lia]. destruct Hk as [-> | ->]; nia.
Qed.

Lemma tcp_fields_bad m tcp plen cs : cs <> 0 -> tcp_fields m tcp plen cs = None.
Proof. intros H. unfold tcp_fields. destruct (_ || _); [done|]. by rewrite (proj2 (Z.eqb_neq cs 0) H). Qed.
Lemma tcp_fields_good m tcp plen cs seg : tcp_fields m tcp plen cs = Some seg -> cs = 0.
Proof. unfold tcp_fields. destruct (_ || _); [done|]. by destruct (Z.eqb_spec cs 0). Qed.

Lemma slice_holds m p n : holds m p (slice_at p n m).
Proof. unfold holds. by rewrite length_slice_at. Qed.
Lemma tcp_csum_slice m seg src dst n :
  small (slice_at seg (Z.to_nat n) m) -> 0 <= n -> length src = 4%nat -> length dst = 4%nat -> bytes src -> bytes dst ->
  tcp_csum src dst m seg n = not16 (csum_fold (wsum (pseudo4 src dst n) + wsum (slice_at seg (Z.to_nat n) m))).
Proof.
  intros Hs Hn H1 H2 B1 B2. pose proof (tcp_csum_holds m seg src dst _ (slice_holds m seg (Z.to_nat n)) Hs H1 H2 B1 B2) as E.
  rewrite length_slice_at, Z2Nat.id in E by lia. exact E.
Qed.

Lemma pseudo4_bound src dst n : length src = 4%nat -> length dst = 4%nat -> bytes src -> bytes dst -> 0 <= wsum (pseudo4 src dst n) < 2^31.
Proof.
  intros H1 H2 B1 B2. apply small_wsum. split; [|unfold pseudo4; sizes]. unfold pseudo4. change [0; IP_PROTO_TCP] with ([0] ++ [6]). solve_bytes.
Qed.

(** A TCP segment with one damaged byte is dropped. If a segment of an IPv4 packet is accepted,
    and one byte of the segment, header or payload, is replaced by another byte, it is no longer
    accepted. *)
Theorem damaged_segment_rejected m m' a info seg :
  tcp_parse m info = Some seg -> bytes (slice_at (payload_off4 info) (Z.to_nat (payload_len4 info)) m) ->
  length (src4 info) = 4%nat -> length (dst4 info) = 4%nat -> bytes (src4 info) -> bytes (dst4 info) -> payload_len4 info < 2^16 ->
  payload_off4 info <= a < payload_off4 info + payload_len4 info -> one_byte_changed m m' a ->
  tcp_parse m' info = None.
Proof.
  intros Hp Hm H1 H2 B1 B2 Hlen Ha Hch. unfold tcp_parse in *. destruct (_ || _) eqn:E; [done|].
  apply orb_false_elim in E as [_ E]. apply Z.ltb_ge in E. apply tcp_fields_good in Hp. apply tcp_fields_bad.
  set (n := payload_len4 info) in *. set (p := payload_off4 info) in *.
  assert (p <= a < p + Z.of_nat (Z.to_nat n)) as Ha' by lia.
  assert (small (slice_at p (Z.to_nat n) m)) as Hs by (split; [exact Hm|rewrite length_slice_at; lia]).
  rewrite (tcp_csum_slice _ _ _ _ _ Hs) in Hp by (lia || assumption).
  rewrite (tcp_csum_slice _ _ _ _ _ (small_changed _ _ _ _ _ Hch Ha' Hs)) by (lia || assumption).
  eapply changed_sum; [exact Hch|exact Ha'|exact Hs|by apply pseudo4_bound|exact Hp].
Qed.

Section roundtrip.
Context (src_mac : Z) (dst_mac : list Z) (sport dport seq ack flags window : Z) (payload : list Z).
Context (Hmac : length dst_mac = 6%nat) (Hsp : 0 <= sport < 2^16) (Hdp : 0 <= dport < 2^16) (Hseq : 0 <= seq < 2^32) (Hack : 0 <= ack < 2^32).
Context (Hfl : is_byte flags) (Hw : 0 <= window < 2^16) (Hpl : bytes payload) (Hlen : 40 + Z.of_nat (length payload) < 2^16).

Let seg := tcp_bytes sport dport seq ack flags window payload.
Let seg_len := 20 + Z.of_nat (length payload).

Lemma seg_small c : small (seg c).
Proof using Hpl Hfl Hlen.
  split; [by apply seg_bytes|]. pose proof (seg_length sport dport seq ack flags window payload c) as E. fold seg in E. rewrite E. clear -Hlen. lia.
Qed.

(** Where the segment lies, once the packet header is known to be of length [h]. *)
Lemma seg_at m io t iph c h :
  holds m io (eth_bytes dst_mac (mac_bytes src_mac) t ++ iph ++ seg c) -> Z.of_nat (length iph) = h -> holds m (io + (14 + h)) (seg c).
Proof using Hmac.
  intros H Hh. rewrite app_assoc in H. apply holds_app in H as [_ H]. revert H. unfold eth_bytes.
  rewrite !length_app, !Nat2Z.inj_add, Hh, Hmac. by replace (io + (14 + h)) with (io + (Z.of_nat 6 + (Z.of_nat (length (mac_bytes src_mac)) + Z.of_nat (length (be16 t))) + h))
    by (rewrite mac_bytes_length, length_be16; lia).
Qed.

(** What reading the segment gives. *)
Definition seg_read (m : mem) (off : Z) (o : option TcpSeg) : Prop :=
  o = Some (mk_seg sport dport seq ack flags window (off + 20) (Z.of_nat (length payload)))
  /\ slice_at (off + 20) (length payload) m = payload.

Lemma tcp_roundtrip4 io src dst m :
  length src = 4%nat -> length dst = 4%nat -> bytes src -> bytes dst ->
  let '(len, m') := tcp_build io src_mac dst_mac src dst sport dport seq ack flags window payload m in
  seg_read m' (io + 34) (parse_seg_io m' io len) /\ ipv4_parse m' io len = Some (mk_ip4 src dst IP_PROTO_TCP (io + 34) seg_len).
Proof using Hmac Hsp Hdp Hseq Hack Hfl Hw Hpl Hlen.
  intros H1 H2 B1 B2. assert (seg_len < 2^16 /\ 20 <= 20 + seg_len < 2^16) as [Hl Ht] by (unfold seg_len; lia).
  pose proof (tcp_build_frame src_mac dst_mac sport dport seq ack flags window payload Hpl Hfl io src dst m Hmac H1 H2 B1 B2 Hl) as H.
  destruct (tcp_build _ _ _ _ _ _ _ _ _ _ _ _ _) as [len m']. destruct H as [Elen H]. change (tcp_bytes sport dport seq ack flags window payload) with seg in H. fold seg_len in H, Elen.
  set (c := filled seg (pseudo4 src dst seg_len)) in *.
  assert (is_byte IP_PROTO_TCP) as Hpr by done. assert (14 + (20 + seg_len) <= len) as Hle by lia.
  pose proof (ip4_parse_frame (20 + seg_len) IP_PROTO_TCP src dst H1 H2 B1 B2 Hpr m' io dst_mac _ _ len H Hmac (mac_bytes_length _) Ht Hle) as Eip.
  replace (20 + seg_len - 20) with seg_len in Eip by lia.
  pose proof (seg_at _ _ _ _ _ 20 H (ip4_length _ _ _ _ H1 H2 _)) as Hseg. change (14 + 20) with 34 in Hseg.
  split; [|exact Eip]. unfold parse_seg_io. rewrite Eip. cbn [mbind option_bind]. unfold tcp_parse. cbn [proto4 payload_len4 payload_off4 src4 dst4].
  rewrite Z.eqb_refl, (proj2 (Z.ltb_ge _ 20)) by (unfold seg_len; lia). cbn [negb orb].
  apply tcp_fields_frame with (c := c); try assumption.
  pose proof (tcp_csum_holds _ _ src dst _ Hseg (seg_small c) H1 H2 B1 B2) as Ec. pose proof (seg_length sport dport seq ack flags window payload c : Z.of_nat (length (seg c)) = seg_len) as El.
  rewrite El in Ec. rewrite Ec. apply filled_ok; [apply seg_fillable| |apply seg_small].
  split; [|unfold pseudo4; sizes]. unfold pseudo4. change [0; IP_PROTO_TCP] with ([0] ++ [6]). solve_bytes.
Qed.

Lemma tcp_roundtrip6 io src dst m :
  length src = 16%nat -> length dst = 16%nat -> bytes src -> bytes dst ->
  let '(len, m') := tcp_build6 io src_mac dst_mac src dst sport dport seq ack flags window payload m in
  seg_read m' (io + 54) (parse_seg_io6 m' io len) /\ ipv6_parse m' io len = Some (mk_ip6 src dst IP_PROTO_TCP (io + 54) seg_len).
Proof using Hmac Hsp Hdp Hseq Hack Hfl Hw Hpl Hlen.
  intros H1 H2 B1 B2. assert (seg_len < 2^16 /\ 0 <= seg_len < 2^16) as [Hl Ht] by (unfold seg_len; lia).
  pose proof (tcp_build6_frame src_mac dst_mac sport dport seq ack flags window payload Hpl Hfl io src dst m Hmac H1 H2 B1 B2 Hl) as H.
  destruct (tcp_build6 _ _ _ _ _ _ _ _ _ _ _ _ _) as [len m']. destruct H as [Elen H]. change (tcp_bytes sport dport seq ack flags window payload) with seg in H. fold seg_len in H, Elen.
  set (c := filled seg (pseudo6 src dst IP_PROTO_TCP seg_len)) in *.
  assert (is_byte IP_PROTO_TCP) as Hpr by done. assert (54 + seg_len <= len) as Hle by lia.
  pose proof (ip6_parse_frame seg_len IP_PROTO_TCP 64 src dst H1 H2 m' io dst_mac _ _ len H Hmac (mac_bytes_length _) Ht Hle) as Eip.
  pose proof (seg_at _ _ _ _ _ 40 H (ip6_length _ _ _ _ _ H1 H2)) as Hseg. change (14 + 40) with 54 in Hseg.
  split; [|exact Eip]. unfold parse_seg_io6. rewrite Eip. cbn [mbind option_bind]. unfold tcp_parse6. cbn [next6 payload_len6 payload_off6 src6 dst6].
  rewrite Z.eqb_refl, (proj2 (Z.ltb_ge _ 20)) by (unfold seg_len; lia). cbn [negb orb].
  apply tcp_fields_frame with (c := c); try assumption.
  pose proof (csum_v6_holds _ _ src dst IP_PROTO_TCP _ Hseg (seg_small c) H1 H2 B1 B2 Hpr) as Ec.
  pose proof (seg_length sport dport seq ack flags window payload c : Z.of_nat (length (seg c)) = seg_len) as El.
  rewrite El in Ec. rewrite Ec. apply filled_ok; [apply seg_fillable| |apply seg_small].
  split; [|unfold pseudo6; sizes]. unfold pseudo6. change [0; 0; 0; IP_PROTO_TCP] with ([0] ++ [0] ++ [0] ++ [6]). solve_bytes.
Qed.

End roundtrip.

(** C27. What the TCP builders produce, the parsers read. For both IP versions, a frame built from
    addresses, ports, sequence numbers, flags and a payload is accepted by the parsers at the
    length the builder answers, with every field and the payload unchanged and the addresses in
    the packet. *)
Theorem tcp_frame_roundtrip io src_mac dst_mac sport dport seq ack flags window payload m :
  length dst_mac = 6%nat -> 0 <= sport < 2^16 -> 0 <= dport < 2^16 -> 0 <= seq < 2^32 -> 0 <= ack < 2^32 ->
  is_byte flags -> 0 <= window < 2^16 -> bytes payload -> 40 + Z.of_nat (length payload) < 2^16 ->
  let good := seg_read sport dport seq ack flags window payload in
  (forall src dst, length src = 4%nat -> length dst = 4%nat -> bytes src -> bytes dst ->
     let '(len, m') := tcp_build io src_mac dst_mac src dst sport dport seq ack flags window payload m in
     good m' (io + 34) (parse_seg_io m' io len)
     /\ ipv4_parse m' io len = Some (mk_ip4 src dst IP_PROTO_TCP (io + 34) (20 + Z.of_nat (length payload))))
  /\ (forall src dst, length src = 16%nat -> length dst = 16%nat -> bytes src -> bytes dst ->
     let '(len, m') := tcp_build6 io src_mac dst_mac src dst sport dport seq ack flags window payload m in
     good m' (io + 54) (parse_seg_io6 m' io len)
     /\ ipv6_parse m' io len = Some (mk_ip6 src dst IP_PROTO_TCP (io + 54) (20 + Z.of_nat (length payload)))).
Proof. intros Hmac Hsp Hdp Hseq Hack Hfl Hw Hpl Hlen good. split; intros src dst H1 H2 B1 B2; [by apply tcp_roundtrip4|by apply tcp_roundtrip6]. Qed.

(** A segment with five bytes of payload in an empty page. *)
Definition demo_mac : list Z := [2; 0; 0; 0; 0; 2].
Definition demo_peer : list Z := [10; 0; 2; 2].
Definition demo_frame : Z * mem :=
  tcp_build 4096 0x123456789a demo_mac OUR_IP demo_peer 8080 80 0xfffffff0 7 0x18 0x7210 [104; 101; 108; 108; 111] (fun _ => 0).

Lemma tcp_frame_roundtrip_witness :
  let '(len, m') := demo_frame in len = 59 /\ (parse_seg_io m' 4096 len ≫= fun s => Some (seq s, payload_len s)) = Some (0xfffffff0, 5).
Proof.
  assert (Forall is_byte [104; 101; 108; 108; 111]) as Hb by (repeat constructor; unfold is_byte; lia).
  pose proof (tcp_frame_roundtrip 4096 0x123456789a demo_mac 8080 80 0xfffffff0 7 0x18 0x7210 [104; 101; 108; 108; 111] (fun _ => 0)
    eq_refl ltac:(lia) ltac:(lia) ltac:(lia) ltac:(lia) ltac:(unfold is_byte; lia) ltac:(lia) Hb ltac:(cbn; lia)) as [H _].
  specialize (H OUR_IP demo_peer eq_refl eq_refl).
  assert (bytes OUR_IP) as B1 by (repeat constructor; unfold is_byte; lia). assert (bytes demo_peer) as B2 by (repeat constructor; unfold is_byte; lia).
  specialize (H B1 B2). fold demo_frame in H. assert (demo_frame.1 = 59) as El by reflexivity. destruct demo_frame as [len m'].
  cbn [fst] in El. subst len. destruct H as [[E _] _]. split; [reflexivity|]. rewrite E. reflexivity.
Defined.

(** The third byte of the payload changed. *)
Lemma damaged_segment_rejected_witness :
  exists info, ipv4_parse demo_frame.2 4096 59 = Some info /\ is_some (tcp_parse demo_frame.2 info) = true
    /\ tcp_parse (write_byte 4152 109 demo_frame.2) info = None.
Proof.
  destruct (ipv4_parse demo_frame.2 4096 59) as [info|] eqn:E; [|by vm_compute in E]. exists info. split; [reflexivity|].
  assert (info = mk_ip4 OUR_IP demo_peer 6 4130 25) as -> by (vm_compute in E; by injection E as <-).
  destruct (tcp_parse demo_frame.2 _) as [s|] eqn:Es; [|by vm_compute in Es]. split; [reflexivity|].
  assert (bytes (slice_at 4130 25 demo_frame.2)) as Hb.
  { apply (bool_decide_unpack (Forall (fun b => 0 <= b < 256) (slice_at 4130 25 demo_frame.2))). vm_compute. exact I. }
  assert (bytes OUR_IP) as B1 by (repeat constructor; unfold is_byte; lia). assert (bytes demo_peer) as B2 by (repeat constructor; unfold is_byte; lia).
  assert (one_byte_changed demo_frame.2 (write_byte 4152 109 demo_frame.2) 4152) as Hc.
  { split; [unfold is_byte; rewrite write_byte_eq; lia|]. split; [rewrite write_byte_eq; vm_compute; discriminate|].
    intros x Hx. by apply write_byte_ne. }
  exact (damaged_segment_rejected demo_frame.2 _ 4152 _ s Es Hb eq_refl eq_refl B1 B2 ltac:(cbn; lia) ltac:(cbn; lia) Hc).
Defined.
