(* ===== verification/NetTcp.v ===== *)
(** * NetTcp: TCP connections of the network stack (src/user/srv/src/netstack_srv.rs)

    A connection keeps at most one unacknowledged segment and retransmits it when a timer expires;
    the receiver takes a segment only if it starts at the next expected sequence number. This file
    holds the connection record and the operations of its state machine, and proves that two
    connections joined by a network that loses, repeats, delays and reorders segments transfer
    their byte streams: what one side has taken is a prefix of what the other side has sent, and
    all of it once the sender holds nothing unacknowledged.

    The state machine proper works on the connection alone: an operation answers the segment to
    send, if any. The operations of the source put this segment into the shared page. *)

From S2P Require Import Prelude Bytes NetWire.

Definition TCP_FIN : Z := 0x01.
Definition TCP_SYN : Z := 0x02.
Definition TCP_RST : Z := 0x04.
Definition TCP_PSH : Z := 0x08.
Definition TCP_ACK : Z := 0x10.
Definition TCP_WINDOW : Z := 0x7210.
Definition TCP_RTO_MS : Z := 300.
Definition TCP_MAX_RETX : Z := 5.
Definition TCP_MSS : Z := 1400.
Definition PAY_MAX : Z := 1472.
Definition TCP_ROLE_CLIENT : Z := 0.
Definition TCP_ROLE_LISTENER : Z := 1.
Definition TCP_ROLE_SERVER : Z := 2.

Inductive TcpState : Type :=
| Closed | Listen | SynSent | SynRcvd | Established | FinWait1 | FinWait2 | CloseWait | TimeWait.
#[global] Instance TcpState_dec : EqDecision TcpState.
Proof. solve_decision. Defined.

Record TcpConn : Type := mk_conn {
  used : bool;
  owner : Z;
  role : Z;
  state : TcpState;
  nic : Z;
  mac : Z;
  dst_mac : list Z;
  local_port : Z;
  remote_ip : list Z;
  remote_port : Z;
  family : Z;
  remote6 : list Z;
  local6 : list Z;
  snd_una : Z;
  snd_nxt : Z;
  rcv_nxt : Z;
  retx : Z;
  rto_ms : Z;
  last_tx_ms : Z;
  tx_len : Z;
  tx : list Z;
  rx_len : Z;
  rx : list Z;
  accepted : bool
}.

Definition TcpConn_new : TcpConn :=
  mk_conn false 0 TCP_ROLE_CLIENT Closed 0 0 (replicate 6 0) 0 (replicate 4 0) 0 4 (replicate 16 0) (replicate 16 0)
    0 0 0 0 TCP_RTO_MS 0 0 (replicate 1400 0) 0 (replicate 1472 0) false.

(** Assignments to the fields. *)
Definition set_state (s : TcpState) (c : TcpConn) : TcpConn :=
  mk_conn (used c) (owner c) (role c) s (nic c) (mac c) (dst_mac c) (local_port c) (remote_ip c) (remote_port c)
    (family c) (remote6 c) (local6 c) (snd_una c) (snd_nxt c) (rcv_nxt c) (retx c) (rto_ms c) (last_tx_ms c)
    (tx_len c) (tx c) (rx_len c) (rx c) (accepted c).
Definition set_seqs (una nxt rcv : Z) (c : TcpConn) : TcpConn :=
  mk_conn (used c) (owner c) (role c) (state c) (nic c) (mac c) (dst_mac c) (local_port c) (remote_ip c) (remote_port c)
    (family c) (remote6 c) (local6 c) una nxt rcv (retx c) (rto_ms c) (last_tx_ms c)
    (tx_len c) (tx c) (rx_len c) (rx c) (accepted c).
Definition set_timer (n rto last : Z) (c : TcpConn) : TcpConn :=
  mk_conn (used c) (owner c) (role c) (state c) (nic c) (mac c) (dst_mac c) (local_port c) (remote_ip c) (remote_port c)
    (family c) (remote6 c) (local6 c) (snd_una c) (snd_nxt c) (rcv_nxt c) n rto last
    (tx_len c) (tx c) (rx_len c) (rx c) (accepted c).
Definition set_tx (n : Z) (b : list Z) (c : TcpConn) : TcpConn :=
  mk_conn (used c) (owner c) (role c) (state c) (nic c) (mac c) (dst_mac c) (local_port c) (remote_ip c) (remote_port c)
    (family c) (remote6 c) (local6 c) (snd_una c) (snd_nxt c) (rcv_nxt c) (retx c) (rto_ms c) (last_tx_ms c)
    n b (rx_len c) (rx c) (accepted c).
Definition set_rx (n : Z) (b : list Z) (c : TcpConn) : TcpConn :=
  mk_conn (used c) (owner c) (role c) (state c) (nic c) (mac c) (dst_mac c) (local_port c) (remote_ip c) (remote_port c)
    (family c) (remote6 c) (local6 c) (snd_una c) (snd_nxt c) (rcv_nxt c) (retx c) (rto_ms c) (last_tx_ms c)
    (tx_len c) (tx c) n b (accepted c).
Definition set_peer (m : Z) (dm ip : list Z) (port : Z) (c : TcpConn) : TcpConn :=
  mk_conn (used c) (owner c) (role c) (state c) (nic c) m dm (local_port c) ip port
    (family c) (remote6 c) (local6 c) (snd_una c) (snd_nxt c) (rcv_nxt c) (retx c) (rto_ms c) (last_tx_ms c)
    (tx_len c) (tx c) (rx_len c) (rx c) (accepted c).
Definition set_owner (u : bool) (o r n port : Z) (acc : bool) (c : TcpConn) : TcpConn :=
  mk_conn u o r (state c) n (mac c) (dst_mac c) port (remote_ip c) (remote_port c)
    (family c) (remote6 c) (local6 c) (snd_una c) (snd_nxt c) (rcv_nxt c) (retx c) (rto_ms c) (last_tx_ms c)
    (tx_len c) (tx c) (rx_len c) (rx c) acc.
Definition set_family (f : Z) (r6 l6 : list Z) (c : TcpConn) : TcpConn :=
  mk_conn (used c) (owner c) (role c) (state c) (nic c) (mac c) (dst_mac c) (local_port c) (remote_ip c) (remote_port c)
    f r6 l6 (snd_una c) (snd_nxt c) (rcv_nxt c) (retx c) (rto_ms c) (last_tx_ms c)
    (tx_len c) (tx c) (rx_len c) (rx c) (accepted c).

Definition has (flags bit : Z) : bool := negb (Z.land flags bit =? 0).
Definition wadd32 (a b : Z) : Z := w32 (a + b).

(** A segment to send: the arguments of [tcp_seg]. *)
Record segment : Type := mk_segment { s_seq : Z; s_ack : Z; s_flags : Z; s_data : list Z }.

(** ** The state machine *)

Definition connect_conn (isn now : Z) (c : TcpConn) : TcpConn * segment :=
  let c := set_tx 0 (tx c) (set_timer 0 TCP_RTO_MS now (set_seqs isn isn 0 c)) in
  let c := set_state SynSent c in
  (set_seqs (snd_una c) (wadd32 isn 1) (rcv_nxt c) c, mk_segment isn 0 TCP_SYN []).

(** [buf[..n].copy_from_slice(data)]. *)
Definition copy_front (data buf : list Z) : list Z := data ++ drop (length data) buf.

Definition send_conn (payload : list Z) (now : Z) (c : TcpConn) : TcpConn * option segment :=
  if negb (bool_decide (state c = Established)) || (0 <? tx_len c) then (c, None)
  else
    let n := Z.min (Z.of_nat (length payload)) TCP_MSS in
    let data := take (Z.to_nat n) payload in
    let c := set_timer 0 TCP_RTO_MS now (set_tx n (copy_front data (tx c)) c) in
    (set_seqs (snd_una c) (wadd32 (snd_nxt c) n) (rcv_nxt c) c,
     Some (mk_segment (snd_nxt c) (rcv_nxt c) (Z.lor TCP_PSH TCP_ACK) (take (Z.to_nat n) (tx c)))).

Definition close_conn (now : Z) (c : TcpConn) : TcpConn * option segment :=
  if bool_decide (state c = Established) || bool_decide (state c = CloseWait) then
    let c := set_tx 0 (tx c) (set_timer 0 TCP_RTO_MS now (set_state FinWait1 c)) in
    (set_seqs (snd_una c) (wadd32 (snd_nxt c) 1) (rcv_nxt c) c,
     Some (mk_segment (snd_nxt c) (rcv_nxt c) (Z.lor TCP_FIN TCP_ACK) []))
  else (c, None).

(** The segment [tcp_seg(conn, io, conn.snd_nxt, conn.rcv_nxt, TCP_ACK, &[])]. *)
Definition ack_now (c : TcpConn) : segment := mk_segment (snd_nxt c) (rcv_nxt c) TCP_ACK [].

(** Data at the expected sequence number is stored; [data] are its first [PAY_MAX] bytes. *)
Definition take_data (seg : TcpSeg) (data : list Z) (c : TcpConn) : TcpConn * bool :=
  if (0 <? payload_len seg) && (seq seg =? rcv_nxt c) then
    let c := set_rx (Z.min (payload_len seg) PAY_MAX) (copy_front data (rx c)) c in
    (set_seqs (snd_una c) (snd_nxt c) (wadd32 (rcv_nxt c) (w32 (payload_len seg))) c, true)
  else (c, false).
Definition acks_all (seg : TcpSeg) (c : TcpConn) : bool := has (flags seg) TCP_ACK && (ack seg =? snd_nxt c).
Definition take_fin (s : TcpState) (c : TcpConn) : TcpConn :=
  set_state s (set_seqs (snd_una c) (snd_nxt c) (wadd32 (rcv_nxt c) 1) c).
Definition all_acked (c : TcpConn) : TcpConn := set_seqs (snd_nxt c) (snd_nxt c) (rcv_nxt c) c.

Definition handle_conn (seg : TcpSeg) (data : list Z) (now : Z) (c : TcpConn) : TcpConn * option segment :=
  match state c with
  | SynSent =>
      if has (flags seg) TCP_RST then (set_state Closed c, None)
      else if (Z.land (flags seg) (Z.lor TCP_SYN TCP_ACK) =? Z.lor TCP_SYN TCP_ACK) && (ack seg =? snd_nxt c) then
        let c := set_seqs (ack seg) (snd_nxt c) (wadd32 (seq seg) 1) c in
        let c := set_state Established (set_timer 0 TCP_RTO_MS now c) in
        (c, Some (ack_now c))
      else (c, None)
  | SynRcvd =>
      if has (flags seg) TCP_RST then (set_state Closed c, None)
      else
        let c := if acks_all seg c && negb (snd_una c =? snd_nxt c)
                 then set_timer 0 TCP_RTO_MS (last_tx_ms c) (set_state Established (all_acked c)) else c in
        let '(c, need_ack) := take_data seg data c in
        (c, if need_ack : bool then Some (ack_now c) else None)
  | Established =>
      if has (flags seg) TCP_RST then (set_state Closed c, None)
      else
        let '(c, need_ack) := take_data seg data c in
        let c := if acks_all seg c && negb (snd_una c =? snd_nxt c)
                 then set_timer 0 TCP_RTO_MS (last_tx_ms c) (set_tx 0 (tx c) (all_acked c)) else c in
        let fin := has (flags seg) TCP_FIN in
        let c := if fin then take_fin CloseWait c else c in
        (c, if need_ack || fin then Some (ack_now c) else None)
  | CloseWait => ((if acks_all seg c then all_acked c else c), None)
  | FinWait1 =>
      let c := if acks_all seg c then set_state FinWait2 (all_acked c) else c in
      if has (flags seg) TCP_FIN then let c := take_fin TimeWait c in (c, Some (ack_now c)) else (c, None)
  | FinWait2 =>
      if has (flags seg) TCP_FIN then let c := take_fin TimeWait c in (c, Some (ack_now c)) else (c, None)
  | _ => (c, None)
  end.

Definition tick_conn (now : Z) (c : TcpConn) : TcpConn * option segment :=
  if bool_decide (state c = Closed) then (c, None)
  else
    let pending := bool_decide (state c = SynSent) || (0 <? tx_len c) in
    if negb pending || (w64 (now - last_tx_ms c) <? rto_ms c) then (c, None)
    else
      let c := set_timer (w32 (retx c + 1)) (rto_ms c) (last_tx_ms c) c in
      if TCP_MAX_RETX <? retx c then (set_state Closed c, None)
      else
        let c := set_timer (retx c) (w64 (rto_ms c * 2)) now c in
        (c, Some (if bool_decide (state c = SynSent) then mk_segment (snd_una c) 0 TCP_SYN []
                  else mk_segment (snd_una c) (rcv_nxt c) (Z.lor TCP_PSH TCP_ACK) (take (Z.to_nat (tx_len c)) (tx c)))).

(** ** The operations on the shared page *)

Definition tcp_seg (c : TcpConn) (io : Z) (s : segment) (m : mem) : Z * mem :=
  if family c =? 6
  then tcp_build6 io (mac c) (dst_mac c) (local6 c) (remote6 c) (local_port c) (remote_port c)
         (s_seq s) (s_ack s) (s_flags s) TCP_WINDOW (s_data s) m
  else tcp_build io (mac c) (dst_mac c) OUR_IP (remote_ip c) (local_port c) (remote_port c)
         (s_seq s) (s_ack s) (s_flags s) TCP_WINDOW (s_data s) m.
Definition emit (r : TcpConn * option segment) (io : Z) (m : mem) : TcpConn * Z * mem :=
  let '(c, o) := r in
  match o with
  | Some s => let '(len, m) := tcp_seg c io s m in (c, len, m)
  | None => (c, 0, m)
  end.

Definition tcp_connect (c : TcpConn) (io isn now : Z) (m : mem) : TcpConn * Z * mem :=
  let '(c, s) := connect_conn isn now c in emit (c, Some s) io m.
Definition tcp_send (c : TcpConn) (io : Z) (payload : list Z) (now : Z) (m : mem) : TcpConn * Z * mem :=
  emit (send_conn payload now c) io m.
Definition tcp_close (c : TcpConn) (io now : Z) (m : mem) : TcpConn * Z * mem := emit (close_conn now c) io m.
(** The payload of the segment is in the page the answer is built in; it is copied first. *)
Definition seg_data (seg : TcpSeg) (m : mem) : list Z :=
  slice_at (payload_off seg) (Z.to_nat (Z.min (payload_len seg) PAY_MAX)) m.
Definition tcp_handle (c : TcpConn) (io : Z) (seg : TcpSeg) (now : Z) (m : mem) : TcpConn * Z * mem :=
  emit (handle_conn seg (seg_data seg m) now c) io m.
Definition tcp_tick (c : TcpConn) (io now : Z) (m : mem) : TcpConn * Z * mem := emit (tick_conn now c) io m.

(** What [tcp_recv_op] does with the connection: the bytes it hands out, and the empty buffer. *)
Definition unread (c : TcpConn) : list Z := take (Z.to_nat (rx_len c)) (rx c).
Definition recv_conn (c : TcpConn) : TcpConn * list Z := (set_rx 0 (rx c) c, unread c).

(** The connection a listener makes for a SYN, and the SYN-ACK. *)
Definition server_conn (n m : Z) (dm : list Z) (src : list Z + list Z) (our6 : list Z) (seg : TcpSeg) (si now : Z) : TcpConn * segment :=
  let c := set_owner true 0 TCP_ROLE_SERVER n (dport seg) false TcpConn_new in
  let c := set_state SynRcvd c in
  let c := match src with
           | inl a => set_peer m dm a (sport seg) c
           | inr a => set_family 6 a our6 (set_peer m dm (remote_ip c) (sport seg) c)
           end in
  let una := Z.lxor 0x4d4f9000 (w32 (si * 0x0101)) in
  let c := set_timer 0 TCP_RTO_MS now (set_seqs una una (wadd32 (seq seg) 1) c) in
  (set_seqs (snd_una c) (wadd32 una 1) (rcv_nxt c) c, mk_segment una (rcv_nxt c) (Z.lor TCP_SYN TCP_ACK) []).

(** ** Two connections and a network

    [e_sent] records the bytes handed to [tcp_send] that were taken, [e_got] the bytes that the handler
    stored for the application, [e_read] the bytes that [tcp_recv_op] has given to the application,
    and [e_over] whether a segment was stored over bytes the application had not read: the receive
    buffer holds one segment, and the next one in order replaces it. A channel holds every segment ever sent: any of them may
    arrive at any time, any number of times, or never. *)

Record endpoint : Type := mk_ep { e_conn : TcpConn; e_sent : list Z; e_got : list Z; e_read : list Z; e_over : bool }.
Record net : Type := mk_net { e_a : endpoint; e_b : endpoint; ch_ab : list segment; ch_ba : list segment }.

(** A received segment as the parser hands it over: the data lie at [off]. *)
Definition arrives (s : segment) (seg : TcpSeg) : Prop :=
  seq seg = s_seq s /\ ack seg = s_ack s /\ flags seg = s_flags s /\ payload_len seg = Z.of_nat (length (s_data s)).
Definition data_of (s : segment) : list Z := take (Z.to_nat PAY_MAX) (s_data s).

Definition put (o : option segment) (ch : list segment) : list segment := match o with Some s => s :: ch | None => ch end.

(** The handler stores the data of the segment. *)
Definition stores (c : TcpConn) (s : segment) : bool :=
  (bool_decide (state c = SynRcvd) || bool_decide (state c = Established)) && negb (has (s_flags s) TCP_RST)
  && (0 <? Z.of_nat (length (s_data s))) && (s_seq s =? rcv_nxt c).

(** The moves of one side: [x] with the channel to the other side and the one from it. *)
Inductive move (inc : list segment) : endpoint -> list segment -> endpoint -> list segment -> Prop :=
| move_send x out payload now c o :
    send_conn payload now (e_conn x) = (c, o) ->
    move inc x out (mk_ep c (e_sent x ++ match o with Some s => s_data s | None => [] end) (e_got x) (e_read x) (e_over x)) (put o out)
| move_close x out now c o :
    close_conn now (e_conn x) = (c, o) -> move inc x out (mk_ep c (e_sent x) (e_got x) (e_read x) (e_over x)) (put o out)
| move_tick x out now c o :
    tick_conn now (e_conn x) = (c, o) -> move inc x out (mk_ep c (e_sent x) (e_got x) (e_read x) (e_over x)) (put o out)
| move_read x out :
    move inc x out (mk_ep (recv_conn (e_conn x)).1 (e_sent x) (e_got x) (e_read x ++ (recv_conn (e_conn x)).2) (e_over x)) out
| move_arrive x out s seg now c o :
    s ∈ inc -> arrives s seg -> handle_conn seg (data_of s) now (e_conn x) = (c, o) ->
    move inc x out
      (mk_ep c (e_sent x) (e_got x ++ if stores (e_conn x) s then take (Z.to_nat (rx_len c)) (rx c) else [])
         (e_read x) (e_over x || stores (e_conn x) s && (0 <? rx_len (e_conn x)))) (put o out)
| move_accept x out s seg n m dm src our6 si now c r :
    state (e_conn x) = Listen -> s ∈ inc -> arrives s seg -> has (s_flags s) TCP_SYN = true ->
    server_conn n m dm src our6 seg si now = (c, r) ->
    move inc x out (mk_ep c (e_sent x) (e_got x) (e_read x) (e_over x)) (r :: out).

Inductive step : net -> net -> Prop :=
| step_a s x out : move (ch_ba s) (e_a s) (ch_ab s) x out -> step s (mk_net x (e_b s) out (ch_ba s))
| step_b s x out : move (ch_ab s) (e_b s) (ch_ba s) x out -> step s (mk_net (e_a s) x (ch_ab s) out).

(** One side has just sent its SYN, the other one listens. *)
Definition start (s : net) : Prop :=
  exists c isn now, 0 <= isn < 2^32
    /\ rx_len c = 0 /\ e_a s = mk_ep (connect_conn isn now c).1 [] [] [] false /\ ch_ab s = [(connect_conn isn now c).2]
    /\ state (e_conn (e_b s)) = Listen /\ tx_len (e_conn (e_b s)) = 0 /\ rx_len (e_conn (e_b s)) = 0
    /\ e_sent (e_b s) = [] /\ e_got (e_b s) = [] /\ e_read (e_b s) = [] /\ e_over (e_b s) = false /\ ch_ba s = [].

Definition reachable (s : net) : Prop := exists s0, start s0 /\ rtc step s0 s.

(** ** The invariant of one direction *)

(** No FIN sent yet; nothing will be sent any more but acknowledgements; data are taken. *)
Definition opened (s : TcpState) : bool :=
  match s with SynSent | SynRcvd | Established | CloseWait => true | _ => false end.
Definition finished (s : TcpState) : bool :=
  match s with FinWait1 | FinWait2 | TimeWait | Closed => true | _ => false end.
Definition taking (s : TcpState) : bool := match s with SynRcvd | Established => true | _ => false end.
Definition synced (s : TcpState) : bool := match s with SynSent | Listen | Closed => false | _ => true end.
(** No data in flight. *)
Definition quiet (s : TcpState) : bool := match s with Established | CloseWait | Closed => false | _ => true end.

Definition st (x : endpoint) : TcpState := state (e_conn x).
Definition len (l : list Z) : Z := Z.of_nat (length l).

(** A data segment that carries the stream from position [k] on. *)
Definition carries (b : Z) (sent : list Z) (s : segment) : Prop :=
  exists k, s_seq s = w32 (b + Z.of_nat k) /\ s_data s = take (length (s_data s)) (drop k sent)
            /\ (k + length (s_data s) <= length sent)%nat.

(** From [x] to [y]; the first byte of the stream has sequence number [b]. *)
Record dir (b : Z) (x y : endpoint) (xy yx : list segment) : Prop := {
  d_prefix : e_got y `prefix_of` e_sent x;
  d_nxt : opened (st x) = true -> snd_nxt (e_conn x) = w32 (b + len (e_sent x));
  d_quiet : quiet (st x) = true -> tx_len (e_conn x) = 0;
  d_txlen : 0 <= tx_len (e_conn x) <= TCP_MSS;
  d_young : st x = SynSent \/ st x = SynRcvd \/ st x = Listen -> e_sent x = [];
  d_una : st x = SynSent -> snd_una (e_conn x) = w32 (b - 1);
  d_tx : st x = Established ->
    (tx_len (e_conn x) = 0 /\ snd_una (e_conn x) = snd_nxt (e_conn x) /\ e_got y = e_sent x)
    \/ (0 < tx_len (e_conn x) <= len (e_sent x) /\ snd_una (e_conn x) = w32 (b + (len (e_sent x) - tx_len (e_conn x)))
        /\ take (Z.to_nat (tx_len (e_conn x))) (tx (e_conn x)) = drop (length (e_sent x) - Z.to_nat (tx_len (e_conn x))) (e_sent x));
  d_fin s : s ∈ xy -> has (s_flags s) TCP_FIN = true -> finished (st x) = true;
  d_syn s : s ∈ xy -> has (s_flags s) TCP_SYN = true -> s_seq s = w32 (b - 1) /\ s_data s = [];
  d_rst s : s ∈ xy -> has (s_flags s) TCP_RST = false;
  d_mss s : s ∈ xy -> len (s_data s) <= TCP_MSS;
  d_data s : finished (st y) = false -> s ∈ xy -> s_data s <> [] -> carries b (e_sent x) s;
  d_rcv : synced (st y) = true -> taking (st y) = true \/ opened (st x) = true -> rcv_nxt (e_conn y) = w32 (b + len (e_got y));
  d_fresh : st y = SynSent \/ st y = Listen -> e_got y = [];
  d_ack s : opened (st x) = true -> s ∈ yx -> has (s_flags s) TCP_ACK = true ->
    exists j, 0 <= j <= len (e_got y) /\ s_ack s = w32 (b + j);
  d_wait : st x = CloseWait -> finished (st y) = true;
  d_listen : st x = Listen -> xy = [] /\ (st y = SynSent \/ st y = Closed) /\ forall s, s ∈ yx -> has (s_flags s) TCP_ACK = false
}.

Lemma w32_add a b : w32 (w32 a + b) = w32 (a + b).
Proof. unfold w32. apply Zplus_mod_idemp_l. Qed.
Lemma w32_inj b i j : 0 <= i < 2^32 -> 0 <= j < 2^32 -> w32 (b + i) = w32 (b + j) -> i = j.
Proof. unfold w32. intros Hi Hj H. Z.to_euclidean_division_equations. lia. Qed.

Lemma carries_grow b l l' s : l `prefix_of` l' -> carries b l s -> carries b l' s.
Proof.
  intros [l2 ->] (k & H1 & H2 & H3). exists k. split; [exact H1|]. rewrite length_app. split; [|lia].
  rewrite drop_app_le by lia. rewrite take_app_le by (rewrite length_drop; lia). exact H2.
Qed.

Lemma put_elem o s ch : s ∈ put o ch <-> o = Some s \/ s ∈ ch.
Proof. destruct o as [t|]; cbn; [rewrite elem_of_cons|]; naive_solver. Qed.

(** What the sender's side of a move must show. *)
Record sender_ok (b : Z) (x x' y : endpoint) (o : option segment) : Prop := {
  so_grow : e_sent x `prefix_of` e_sent x';
  so_opened : opened (st x') = true -> opened (st x) = true;
  so_finished : finished (st x) = true -> finished (st x') = true;
  so_nxt : opened (st x') = true -> snd_nxt (e_conn x') = w32 (b + len (e_sent x'));
  so_quiet : quiet (st x') = true -> tx_len (e_conn x') = 0;
  so_txlen : 0 <= tx_len (e_conn x') <= TCP_MSS;
  so_young : st x' = SynSent \/ st x' = SynRcvd \/ st x' = Listen -> e_sent x' = [];
  so_una : st x' = SynSent -> snd_una (e_conn x') = w32 (b - 1);
  so_tx : st x' = Established ->
    (tx_len (e_conn x') = 0 /\ snd_una (e_conn x') = snd_nxt (e_conn x') /\ e_got y = e_sent x')
    \/ (0 < tx_len (e_conn x') <= len (e_sent x') /\ snd_una (e_conn x') = w32 (b + (len (e_sent x') - tx_len (e_conn x')))
        /\ take (Z.to_nat (tx_len (e_conn x'))) (tx (e_conn x')) = drop (length (e_sent x') - Z.to_nat (tx_len (e_conn x'))) (e_sent x'));
  so_wait : st x' = CloseWait -> finished (st y) = true;
  so_listen : st x' = Listen -> st x = Listen /\ o = None;
  so_new s : o = Some s ->
    (has (s_flags s) TCP_FIN = true -> finished (st x') = true)
    /\ (has (s_flags s) TCP_SYN = true -> s_seq s = w32 (b - 1) /\ s_data s = [])
    /\ has (s_flags s) TCP_RST = false /\ len (s_data s) <= TCP_MSS
    /\ (finished (st y) = false -> s_data s <> [] -> carries b (e_sent x') s)
}.

Lemma dir_sender b x x' y xy yx o : dir b x y xy yx -> sender_ok b x x' y o -> dir b x' y (put o xy) yx.
Proof.
  intros [] []. split; try assumption.
  - etrans; eassumption.
  - intros s [Hs|Hs]%put_elem Hf; [by apply (so_new0 s Hs)|eauto].
  - intros s [Hs|Hs]%put_elem Hf; [by apply (so_new0 s Hs)|eauto].
  - intros s [Hs|Hs]%put_elem; [by apply (so_new0 s Hs)|eauto].
  - intros s [Hs|Hs]%put_elem; [by apply (so_new0 s Hs)|eauto].
  - intros s Hy [Hs|Hs]%put_elem Hd; [by apply (so_new0 s Hs)|]. eapply carries_grow; [eassumption|eauto].
  - intros Hy [Ht|Ho]; eauto.
  - intros s Ho. eauto.
  - intros Hl. destruct (so_listen0 Hl) as [Hx ->]. eauto.
Qed.

(** What the receiver's side of a move must show: [y] sends to [x]. *)
Record receiver_ok (b : Z) (y x x' : endpoint) (o : option segment) : Prop := {
  ro_grow : e_got x `prefix_of` e_got x';
  ro_prefix : e_got x' `prefix_of` e_sent y;
  ro_finished : finished (st x) = true -> finished (st x') = true;
  ro_rcv : synced (st x') = true -> taking (st x') = true \/ opened (st y) = true -> rcv_nxt (e_conn x') = w32 (b + len (e_got x'));
  ro_fresh : st x' = SynSent \/ st x' = Listen -> e_got x' = [];
  ro_listen : st y = Listen -> (st x' = SynSent \/ st x' = Closed) /\ forall s, o = Some s -> has (s_flags s) TCP_ACK = false;
  ro_new s : o = Some s -> opened (st y) = true -> has (s_flags s) TCP_ACK = true ->
    exists j, 0 <= j <= len (e_got x') /\ s_ack s = w32 (b + j)
}.

Lemma prefix_squeeze (a b c : list Z) : a `prefix_of` b -> b `prefix_of` c -> a = c -> b = c.
Proof. intros H1 H2 ->. by apply (anti_symm prefix). Qed.
Lemma prefix_len (a b : list Z) : a `prefix_of` b -> len a <= len b.
Proof. intros H%prefix_length. unfold len. lia. Qed.

Lemma dir_receiver b y x x' yx xy o : dir b y x yx xy -> receiver_ok b y x x' o -> dir b y x' yx (put o xy).
Proof.
  intros [] []. split; try assumption.
  - intros Hy. destruct (d_tx0 Hy) as [(H1 & H2 & H3)|H]; [left|by right]. split; [done|]. split; [done|]. by eapply prefix_squeeze.
  - intros s Hx. apply d_data0. destruct (finished (st x)) eqn:E; [|done]. by rewrite (ro_finished0 eq_refl) in Hx.
  - intros s Hy [Hs|Hs]%put_elem Hf; [eauto|]. destruct (d_ack0 s Hy Hs Hf) as (j & Hj & E). exists j. split; [|exact E].
    pose proof (prefix_len _ _ ro_grow0). lia.
  - intros Hy. apply ro_finished0. auto.
  - intros Hy. destruct (ro_listen0 Hy) as [H1 H2]. destruct (d_listen0 Hy) as (H3 & _ & H4). split; [exact H3|]. split; [exact H1|].
    intros s [Hs|Hs]%put_elem; auto.
Qed.

(** ** Every move keeps both directions *)

Ltac fields :=
  unfold st in *;
  cbn [e_conn e_sent e_got e_read e_over state snd_una snd_nxt rcv_nxt tx_len tx rx_len rx retx rto_ms last_tx_ms set_state set_seqs
       set_timer set_tx set_rx s_seq s_ack s_flags s_data opened finished quiet taking synced all_acked take_fin ack_now] in *.

(** Premises about the state that do not hold. *)
Ltac impossible := first [by intros [?|[?|?]] | by intros [?|?] | by intros].

Section moves.
Context (bx by' : Z) (x y : endpoint) (xy yx : list segment).
Context (D : dir bx x y xy yx) (E : dir by' y x yx xy).

(** A move that changes neither the state nor the fields of the invariant. *)
Lemma sender_sends x' o :
  st x' = st x -> e_sent x' = e_sent x -> snd_una (e_conn x') = snd_una (e_conn x) -> snd_nxt (e_conn x') = snd_nxt (e_conn x) ->
  tx_len (e_conn x') = tx_len (e_conn x) -> tx (e_conn x') = tx (e_conn x) -> (st x = Listen -> o = None) ->
  (forall s, o = Some s ->
    (has (s_flags s) TCP_FIN = true -> finished (st x) = true)
    /\ (has (s_flags s) TCP_SYN = true -> s_seq s = w32 (bx - 1) /\ s_data s = [])
    /\ has (s_flags s) TCP_RST = false /\ len (s_data s) <= TCP_MSS
    /\ (finished (st y) = false -> s_data s <> [] -> carries bx (e_sent x) s)) ->
  sender_ok bx x x' y o.
Proof using D.
  intros H1 H2 H3 H4 H5 H6 H7 H8. destruct D. split; rewrite ?H1, ?H2, ?H3, ?H4, ?H5, ?H6; try done. auto.
Qed.
Lemma receiver_sends x' o :
  st x' = st x -> e_got x' = e_got x -> rcv_nxt (e_conn x') = rcv_nxt (e_conn x) ->
  (st y = Listen -> forall s, o = Some s -> has (s_flags s) TCP_ACK = false) ->
  (forall s, o = Some s -> has (s_flags s) TCP_ACK = true ->
    s_ack s = rcv_nxt (e_conn x) /\ synced (st x) = true) ->
  receiver_ok by' y x x' o.
Proof using E.
  intros H1 H2 H3 H4 H5. destruct E. split; rewrite ?H1, ?H2, ?H3; try done.
  - intros Hy. split; [|by auto]. by apply d_listen0.
  - intros s Hs Hy Hf. destruct (H5 s Hs Hf) as (-> & Hsy). exists (len (e_got x)). split; [unfold len; lia|]. by apply d_rcv0; [|right].
Qed.
Lemma sender_same x' :
  st x' = st x -> e_sent x' = e_sent x -> snd_una (e_conn x') = snd_una (e_conn x) -> snd_nxt (e_conn x') = snd_nxt (e_conn x) ->
  tx_len (e_conn x') = tx_len (e_conn x) -> tx (e_conn x') = tx (e_conn x) -> sender_ok bx x x' y None.
Proof using D. intros. by apply sender_sends. Qed.
Lemma receiver_same x' :
  st x' = st x -> e_got x' = e_got x -> rcv_nxt (e_conn x') = rcv_nxt (e_conn x) -> receiver_ok by' y x x' None.
Proof using E. intros. by apply receiver_sends. Qed.

Lemma established_not_listen : synced (st x) = true -> st y <> Listen.
Proof using E. intros Hx Hy. destruct (d_listen _ _ _ _ _ E Hy) as (_ & [H|H] & _); rewrite H in Hx; discriminate. Qed.

Lemma move_send_ok payload now c o :
  send_conn payload now (e_conn x) = (c, o) ->
  let x' := mk_ep c (e_sent x ++ match o with Some s => s_data s | None => [] end) (e_got x) (e_read x) (e_over x) in
  sender_ok bx x x' y o /\ receiver_ok by' y x x' o.
Proof using D E.
  unfold send_conn. destruct (bool_decide_reflect (state (e_conn x) = Established)) as [Hst|Hst]; cbn [negb orb].
  2: { intros [= <- <-]. rewrite app_nil_r. split; [by apply sender_same|by apply receiver_same]. }
  destruct (Z.ltb_spec 0 (tx_len (e_conn x))) as [Htx|Htx].
  { intros [= <- <-]. rewrite app_nil_r. split; [by apply sender_same|by apply receiver_same]. }
  intros [= <- <-]. set (n := Z.min (Z.of_nat (length payload)) TCP_MSS). set (data := take (Z.to_nat n) payload).
  assert (length data = Z.to_nat n) as Hlen by (unfold data; rewrite length_take; unfold n, TCP_MSS; lia).
  assert (take (Z.to_nat n) (copy_front data (tx (e_conn x))) = data) as Hdata.
  { unfold copy_front. rewrite take_app_le by lia. rewrite <- Hlen. apply firstn_all. }
  assert (0 <= n <= TCP_MSS) as Hn by (unfold n, TCP_MSS; lia).
  destruct (d_tx _ _ _ _ _ D Hst) as [(H1 & H2 & H3)|[H1 _]]; [|lia].
  assert (snd_nxt (e_conn x) = w32 (bx + len (e_sent x))) as Hnxt by (apply (d_nxt _ _ _ _ _ D); unfold st; by rewrite Hst).
  assert (synced (st x) = true) as Hsy by (unfold st; by rewrite Hst). pose proof (established_not_listen Hsy) as Hnl.
  assert (taking (st x) = true) as Hta by (unfold st; by rewrite Hst). pose proof (d_rcv _ _ _ _ _ E Hsy (or_introl Hta)) as Hr.
  assert (len (e_sent x ++ data) = len (e_sent x) + n) as Hl by (unfold len; rewrite length_app; lia).
  split; split; fields; rewrite ?Hst, ?Hdata; fields; try done; try impossible.
  - by apply prefix_app_r.
  - intros _. unfold wadd32. rewrite Hnxt, w32_add, Hl. f_equal. lia.
  - intros _. destruct (decide (n = 0)) as [Hz|Hz].
    + left. assert (data = []) as -> by (apply nil_length_inv; lia). rewrite app_nil_r, Hz. split; [done|]. split; [|done].
      unfold wadd32. rewrite H2, Hnxt, w32_add. f_equal. lia.
    + right. rewrite Hl. split; [unfold len; lia|]. split; [rewrite H2, Hnxt; f_equal; lia|].
      rewrite length_app, Hlen. replace (length (e_sent x) + Z.to_nat n - Z.to_nat n)%nat with (length (e_sent x)) by lia. by rewrite drop_app_length.
  - intros s [= <-]. fields. split; [done|]. split; [done|]. split; [done|]. split; [unfold len; lia|]. intros _ _.
    exists (length (e_sent x)). fields. rewrite drop_app_length, firstn_all, length_app. split; [|split; [done|lia]]. exact Hnxt.
  - apply (d_prefix _ _ _ _ _ E).
  - intros s [= <-] Hy _. fields. exists (len (e_got x)). split; [unfold len; lia|exact Hr].
Qed.

Lemma move_close_ok now c o :
  close_conn now (e_conn x) = (c, o) ->
  let x' := mk_ep c (e_sent x) (e_got x) (e_read x) (e_over x) in sender_ok bx x x' y o /\ receiver_ok by' y x x' o.
Proof using D E.
  unfold close_conn. destruct (bool_decide (state (e_conn x) = Established) || bool_decide (state (e_conn x) = CloseWait)) eqn:Eb.
  2: { intros [= <- <-]. split; [by apply sender_same|by apply receiver_same]. }
  intros [= <- <-]. assert (state (e_conn x) = Established \/ state (e_conn x) = CloseWait) as Hst.
  { apply orb_prop in Eb as [H|H]; apply bool_decide_eq_true in H; auto. }
  assert (synced (st x) = true) as Hsy by (unfold st; by destruct Hst as [-> | ->]). pose proof (established_not_listen Hsy) as Hnl.
  split; split; fields; try done; try impossible.
  - intros s [= <-]. fields. split; [done|]. split; [done|]. split; [done|]. split; [unfold len, TCP_MSS; cbn [length]; lia|done].
  - apply (d_prefix _ _ _ _ _ E).
  - intros _ [?|Ho]; [done|]. apply (d_rcv _ _ _ _ _ E Hsy). by right.
  - intros s [= <-] Hy _. fields. exists (len (e_got x)). split; [unfold len; lia|]. apply (d_rcv _ _ _ _ _ E Hsy). by right.
Qed.

Lemma move_tick_ok now c o :
  tick_conn now (e_conn x) = (c, o) ->
  let x' := mk_ep c (e_sent x) (e_got x) (e_read x) (e_over x) in sender_ok bx x x' y o /\ receiver_ok by' y x x' o.
Proof using D E.
  unfold tick_conn. destruct (bool_decide_reflect (state (e_conn x) = Closed)) as [Hc|Hc].
  { intros [= <- <-]. split; [by apply sender_same|by apply receiver_same]. }
  destruct (_ || (_ <? _)) eqn:Ep; [intros [= <- <-]; split; [by apply sender_same|by apply receiver_same]|].
  apply orb_false_elim in Ep as [Ep _]. apply negb_false_iff, orb_prop in Ep.
  assert (state (e_conn x) = SynSent \/ state (e_conn x) = Established \/ state (e_conn x) = CloseWait) as Hst.
  { destruct Ep as [H|H]; [left; by apply bool_decide_eq_true in H|right]. apply Z.ltb_lt in H.
    pose proof (d_quiet _ _ _ _ _ D) as Hq. unfold st in Hq. revert Hq Hc.
    destruct (state (e_conn x)); auto; intros Hq ?; try contradiction; specialize (Hq eq_refl); lia. }
  pose proof (d_txlen _ _ _ _ _ D) as Htl. cbv zeta. fields. destruct (TCP_MAX_RETX <? _).
  { intros [= <- <-]. split; split; fields; try done; try impossible; [apply (d_prefix _ _ _ _ _ E)|].
    intros Hy. split; [by right|done]. }
  intros [= <- <-]. destruct (bool_decide_reflect (state (e_conn x) = SynSent)) as [Hss|Hss].
  - split; [apply sender_sends; fields; try done; try congruence|apply receiver_sends; fields; try done].
    + intros s [= <-]. fields. split; [done|]. split; [intros _; split; [by apply (d_una _ _ _ _ _ D)|done]|]. split; [done|].
      split; [unfold len, TCP_MSS; cbn [length]; lia|done].
    + intros _ s [= <-]. done.
    + intros s [= <-]. done.
  - assert (synced (st x) = true) as Hsy by (unfold st; by destruct Hst as [?|[-> | ->]]). pose proof (established_not_listen Hsy) as Hnl.
    split; [apply sender_sends; fields; try done; try naive_solver congruence|apply receiver_sends; fields; try done].
    + intros s [= <-]. fields. split; [done|]. split; [done|]. split; [done|].
      split; [unfold len; rewrite length_take; lia|]. intros Hy Hne. destruct Hst as [?|[Hst|Hst]]; [done| |].
      * destruct (d_tx _ _ _ _ _ D Hst) as [(H1 & _)|(H1 & H2 & H3)]; [by rewrite H1 in Hne|]. unfold len in *.
        exists (length (e_sent x) - Z.to_nat (tx_len (e_conn x)))%nat. fields. rewrite H3, length_drop. split; [rewrite H2; do 2 f_equal; lia|].
        split; [|lia]. symmetry. apply take_ge. rewrite length_drop. lia.
      * pose proof (d_wait _ _ _ _ _ D Hst) as Hf. unfold st in Hf. congruence.
    + intros s [= <-] _. done.
Qed.

Lemma move_read_ok :
  let x' := mk_ep (recv_conn (e_conn x)).1 (e_sent x) (e_got x) (e_read x ++ (recv_conn (e_conn x)).2) (e_over x) in sender_ok bx x x' y None /\ receiver_ok by' y x x' None.
Proof using D E. split; [by apply sender_same|by apply receiver_same]. Qed.

(** ** Arrivals *)

Section arrival.
Context (s : segment) (seg : TcpSeg) (Hs : s ∈ yx) (Ha : arrives s seg).
Context (Hy32 : len (e_sent y) < 2^32) (Hx32 : len (e_sent x) < 2^32).

(** Data at the expected number continue the stream. *)
Lemma data_continues :
  taking (st x) = true -> 0 < len (s_data s) -> s_seq s = rcv_nxt (e_conn x) ->
  (e_got x ++ s_data s) `prefix_of` e_sent y /\ data_of s = s_data s
  /\ wadd32 (rcv_nxt (e_conn x)) (w32 (len (s_data s))) = w32 (by' + len (e_got x ++ s_data s)).
Proof using E Hs Hy32.
  intros Ht Hl Hq. assert (synced (st x) = true) as Hsy by (unfold st in *; by destruct (state (e_conn x))).
  pose proof (d_rcv _ _ _ _ _ E Hsy (or_introl Ht)) as Hr. pose proof (d_mss _ _ _ _ _ E s Hs) as Hm.
  assert (finished (st x) = false) as Hf by (unfold st in *; by destruct (state (e_conn x))).
  assert (s_data s <> []) as Hne by (intros H; rewrite H in Hl; unfold len in Hl; cbn in Hl; lia).
  destruct (d_data _ _ _ _ _ E s Hf Hs Hne) as (k & Hk & Hd & Hkl). destruct (d_prefix _ _ _ _ _ E) as [rest Hp].
  assert (len (e_got x) <= len (e_sent y)) as Hg by (rewrite Hp; unfold len; rewrite length_app; lia).
  assert (k = length (e_got x)) as ->.
  { rewrite Hq, Hr in Hk. unfold len in *. apply w32_inj in Hk; lia. }
  split; [|split].
  - rewrite Hd, Hp, drop_app_length. apply prefix_app. exists (drop (length (s_data s)) rest). by rewrite take_drop.
  - unfold data_of. apply take_ge. unfold len, TCP_MSS, PAY_MAX in *. lia.
  - rewrite Hr. unfold wadd32. rewrite w32_add. unfold w32, len. rewrite Zplus_mod_idemp_r, length_app. f_equal. lia.
Qed.

(** An acknowledgement of everything. *)
Lemma acked_received : opened (st x) = true -> acks_all seg (e_conn x) = true -> e_got y = e_sent x.
Proof using D Hs Ha Hx32.
  intros Ho Hk. destruct Ha as (_ & Hack & Hfl & _). unfold acks_all in Hk. rewrite Hack, Hfl in Hk. apply andb_prop in Hk as [H1 H2].
  apply Z.eqb_eq in H2. destruct (d_ack _ _ _ _ _ D s Ho Hs H1) as (j & Hj & Ej). pose proof (d_nxt _ _ _ _ _ D Ho) as Hn.
  pose proof (prefix_len _ _ (d_prefix _ _ _ _ _ D)) as Hle. rewrite Ej, Hn in H2. apply w32_inj in H2; [|unfold len in *; lia|unfold len in *; lia].
  destruct (d_prefix _ _ _ _ _ D) as [rest Hp]. rewrite Hp in *. unfold len in *. rewrite length_app in *.
  assert (rest = []) as -> by (apply nil_length_inv; lia). by rewrite app_nil_r.
Qed.

Lemma fin_finished : has (flags seg) TCP_FIN = true -> finished (st y) = true.
Proof using E Hs Ha. intros H. destruct Ha as (_ & _ & Hfl & _). rewrite Hfl in H. by apply (d_fin _ _ _ _ _ E s). Qed.
Lemma no_rst : has (flags seg) TCP_RST = false.
Proof using E Hs Ha. destruct Ha as (_ & _ & Hfl & _). rewrite Hfl. by apply (d_rst _ _ _ _ _ E). Qed.

(** A side that takes data: what its handler may change. *)
Lemma taking_ok x' o :
  taking (st x) = true -> e_sent x' = e_sent x -> snd_nxt (e_conn x') = snd_nxt (e_conn x) -> tx (e_conn x') = tx (e_conn x) ->
  e_got x `prefix_of` e_got x' -> e_got x' `prefix_of` e_sent y ->
  (st x' = SynRcvd \/ st x' = Established) /\ rcv_nxt (e_conn x') = w32 (by' + len (e_got x')) \/ st x' = CloseWait /\ finished (st y) = true ->
  (tx_len (e_conn x') = tx_len (e_conn x) \/ tx_len (e_conn x') = 0) ->
  (st x' = SynRcvd -> st x = SynRcvd) ->
  (st x' = Established ->
     (tx_len (e_conn x') = 0 /\ snd_una (e_conn x') = snd_nxt (e_conn x) /\ e_got y = e_sent x)
     \/ (st x = Established /\ tx_len (e_conn x') = tx_len (e_conn x) /\ snd_una (e_conn x') = snd_una (e_conn x))) ->
  o = None \/ o = Some (ack_now (e_conn x')) ->
  sender_ok bx x x' y o /\ receiver_ok by' y x x' o.
Proof using D E.
  intros Ht H1 H2 H3 H4 H5 H6 H7 H8 H9 Ho.
  assert (synced (st x) = true /\ opened (st x) = true /\ finished (st x) = false) as (Hsy & Hop & Hfi) by (unfold st in *; by destruct (state (e_conn x))).
  pose proof (established_not_listen Hsy) as Hnl. pose proof (d_txlen _ _ _ _ _ D) as Hl.
  split; split; rewrite ?H1, ?H2, ?H3; try done.
  - by rewrite Hfi.
  - intros _. by apply (d_nxt _ _ _ _ _ D).
  - intros Hq. destruct H6 as [[[Hx|Hx] _]|[Hx _]]; rewrite Hx in Hq; try discriminate. specialize (H8 Hx).
    pose proof (d_quiet _ _ _ _ _ D) as Hq'. rewrite H8 in Hq'. specialize (Hq' eq_refl). lia.
  - lia.
  - intros Hx. apply (d_young _ _ _ _ _ D). destruct H6 as [[[Hx'|Hx'] _]|[Hx' _]]; rewrite Hx' in Hx; [|naive_solver..]. right. left. auto.
  - intros Hx. destruct H6 as [[[Hx'|Hx'] _]|[Hx' _]]; congruence.
  - intros Hx. destruct (H9 Hx) as [H|(Hx0 & -> & ->)]; [by left|]. exact (d_tx _ _ _ _ _ D Hx0).
  - intros Hx. destruct H6 as [[[Hx'|Hx'] _]|[_ H]]; congruence.
  - intros Hx. destruct H6 as [[[Hx'|Hx'] _]|[Hx' _]]; congruence.
  - intros t Ht'. destruct Ho as [->| ->]; [done|]. injection Ht' as <-. unfold ack_now. fields. split; [done|]. split; [done|]. split; [done|].
    split; [unfold len, TCP_MSS; cbn [length]; lia|done].
  - by rewrite Hfi.
  - intros Hs' Hor. destruct H6 as [[_ H]|[Hx Hf]]; [exact H|]. destruct Hor as [Hor|Hor]; [by rewrite Hx in Hor|].
    exfalso. unfold st in *. by destruct (state (e_conn y)).
  - intros Hx. destruct H6 as [[[Hx'|Hx'] _]|[Hx' _]]; rewrite Hx' in Hx; naive_solver.
  - intros t Ht' Hoy _. destruct Ho as [->| ->]; [done|]. injection Ht' as <-. unfold ack_now. fields. exists (len (e_got x')). split; [unfold len; lia|].
    destruct H6 as [[_ H]|[_ Hf]]; [exact H|]. exfalso. unfold st in *. by destruct (state (e_conn y)).
Qed.

(** What [take_data] does on both sides of its test, with the bytes that the application gets. *)
Lemma take_data_ok c0 c need :
  taking (st x) = true -> rcv_nxt c0 = rcv_nxt (e_conn x) -> take_data seg (data_of s) c0 = (c, need) ->
  let got := e_got x ++ if stores (e_conn x) s then take (Z.to_nat (rx_len c)) (rx c) else [] in
  e_got x `prefix_of` got /\ got `prefix_of` e_sent y /\ rcv_nxt c = w32 (by' + len got)
  /\ state c = state c0 /\ snd_una c = snd_una c0 /\ snd_nxt c = snd_nxt c0 /\ tx_len c = tx_len c0 /\ tx c = tx c0.
Proof using E Hs Ha Hy32.
  intros Ht Er. destruct Ha as (Hseq & _ & Hfl & Hlen). pose proof no_rst as Hnr. rewrite Hfl in Hnr.
  assert (synced (st x) = true) as Hsy by (unfold st in *; by destruct (state (e_conn x))).
  pose proof (d_rcv _ _ _ _ _ E Hsy (or_introl Ht)) as Hr.
  assert (stores (e_conn x) s = (0 <? payload_len seg) && (seq seg =? rcv_nxt c0)) as ->.
  { unfold stores. rewrite Hnr, Hseq, Hlen, Er. unfold st in Ht. by destruct (state (e_conn x)). }
  unfold take_data. destruct (_ && _) eqn:Ec; intros [= <- <-].
  - apply andb_prop in Ec as [H1 H2]. rewrite Hlen in H1. apply Z.ltb_lt in H1. apply Z.eqb_eq in H2. rewrite Hseq, Er in H2.
    destruct (data_continues Ht H1 H2) as (Hp & Hd & Hw). fields. rewrite Hd, Hlen, Er.
    pose proof (d_mss _ _ _ _ _ E s Hs) as Hm. unfold len, TCP_MSS in Hm.
    assert (take (Z.to_nat (Z.min (Z.of_nat (length (s_data s))) PAY_MAX)) (copy_front (s_data s) (rx c0)) = s_data s) as ->.
    { unfold copy_front, PAY_MAX. rewrite take_app_le by lia. apply take_ge. lia. }
    split; [by apply prefix_app_r|]. split; [exact Hp|]. split; [exact Hw|]. done.
  - rewrite app_nil_r. split; [done|]. split; [apply (d_prefix _ _ _ _ _ E)|]. split; [by rewrite Er|]. done.
Qed.

Lemma arrive_established now c o :
  st x = Established -> handle_conn seg (data_of s) now (e_conn x) = (c, o) ->
  let x' := mk_ep c (e_sent x) (e_got x ++ if stores (e_conn x) s then take (Z.to_nat (rx_len c)) (rx c) else [])
         (e_read x) (e_over x || stores (e_conn x) s && (0 <? rx_len (e_conn x))) in
  sender_ok bx x x' y o /\ receiver_ok by' y x x' o.
Proof using D E Hs Ha Hy32 Hx32.
  intros Hst Hh. unfold handle_conn in Hh. unfold st in Hst. rewrite Hst, no_rst in Hh.
  destruct (take_data seg (data_of s) (e_conn x)) as [c1 need] eqn:Et.
  assert (taking (st x) = true) as Ht by (unfold st; by rewrite Hst).
  destruct (take_data_ok _ _ _ Ht eq_refl Et) as (G1 & G2 & G3 & G4 & G5 & G6 & G7 & G8).
  set (c2 := if _ && negb _ then _ else c1) in Hh. set (c3 := if has _ TCP_FIN then _ else c2) in Hh.
  assert (rx_len c3 = rx_len c1 /\ rx c3 = rx c1 /\ snd_nxt c3 = snd_nxt (e_conn x) /\ tx c3 = tx (e_conn x)) as (X1 & X2 & X3 & X4)
    by (unfold c3, c2; destruct (has _ _), (_ && _); fields; auto).
  assert (c = c3) as -> by (by destruct (need || has (flags seg) TCP_FIN); injection Hh).
  rewrite X1, X2. apply taking_ok; fields; try assumption; try done.
  - unfold c3. destruct (has (flags seg) TCP_FIN) eqn:Ef.
    + right. split; [done|]. by apply fin_finished.
    + left. assert (state c2 = Established /\ rcv_nxt c2 = rcv_nxt c1) as [-> ->]; [|split; [by right|exact G3]].
      unfold c2. rewrite <- Hst, <- G4. by destruct (_ && negb _); fields.
  - unfold c3, c2. destruct (has _ _), (_ && _); fields; auto.
  - intros H. exfalso. revert H. unfold c3, c2. destruct (has _ _), (_ && _); fields; congruence.
  - intros H. assert (has (flags seg) TCP_FIN = false) as Ef by (unfold c3 in H; by destruct (has _ _)).
    unfold c3, c2 in *. rewrite Ef in *. destruct (acks_all seg c1 && negb (snd_una c1 =? snd_nxt c1)) eqn:Ek; fields; [left|right].
    + split; [done|]. split; [congruence|]. apply andb_prop in Ek as [Ek _]. unfold acks_all in Ek. rewrite G6 in Ek.
      apply acked_received; [unfold st; by rewrite Hst|exact Ek].
    + done.
  - destruct (need || has (flags seg) TCP_FIN); injection Hh as <-; auto.
Qed.

Lemma arrive_synrcvd now c o :
  st x = SynRcvd -> handle_conn seg (data_of s) now (e_conn x) = (c, o) ->
  let x' := mk_ep c (e_sent x) (e_got x ++ if stores (e_conn x) s then take (Z.to_nat (rx_len c)) (rx c) else [])
         (e_read x) (e_over x || stores (e_conn x) s && (0 <? rx_len (e_conn x))) in
  sender_ok bx x x' y o /\ receiver_ok by' y x x' o.
Proof using D E Hs Ha Hy32 Hx32.
  intros Hst Hh. unfold handle_conn in Hh. unfold st in Hst. rewrite Hst, no_rst in Hh.
  set (c0 := if _ && negb _ then _ else e_conn x) in Hh. destruct (take_data seg (data_of s) c0) as [c1 need] eqn:Et.
  assert (taking (st x) = true) as Ht by (unfold st; by rewrite Hst).
  assert (rcv_nxt c0 = rcv_nxt (e_conn x)) as Er by (unfold c0; by destruct (_ && _); fields).
  destruct (take_data_ok _ _ _ Ht Er Et) as (G1 & G2 & G3 & G4 & G5 & G6 & G7 & G8). injection Hh as <- <-.
  assert (snd_nxt c0 = snd_nxt (e_conn x) /\ tx c0 = tx (e_conn x) /\ tx_len c0 = tx_len (e_conn x)) as (X1 & X2 & X3)
    by (unfold c0; by destruct (_ && _); fields).
  assert (tx_len (e_conn x) = 0) as Hq by (apply (d_quiet _ _ _ _ _ D); unfold st; by rewrite Hst).
  apply taking_ok; fields; try assumption; try congruence.
  - left. split; [|exact G3]. rewrite G4. unfold c0. destruct (_ && _); fields; auto.
  - left. congruence.
  - intros H. left. split; [congruence|]. rewrite G4 in H. rewrite G5. unfold c0 in *. destruct (_ && _) eqn:Ek; fields; [|congruence].
    split; [done|]. apply andb_prop in Ek as [Ek _]. apply acked_received; [unfold st; by rewrite Hst|exact Ek].
  - destruct need; auto.
Qed.

(** Nothing is stored in the other states. *)
Lemma stores_taking : taking (st x) = false -> stores (e_conn x) s = false.
Proof using Type. unfold st, stores. by destruct (state (e_conn x)). Qed.

Lemma arrive_synsent now c o :
  st x = SynSent -> handle_conn seg (data_of s) now (e_conn x) = (c, o) ->
  let x' := mk_ep c (e_sent x) (e_got x) (e_read x) (e_over x) in sender_ok bx x x' y o /\ receiver_ok by' y x x' o.
Proof using D E Hs Ha.
  intros Hst Hh. unfold handle_conn in Hh. unfold st in Hst. rewrite Hst, no_rst in Hh. destruct (_ && _) eqn:Ec.
  2: { injection Hh as <- <-. split; [by apply sender_same|by apply receiver_same]. }
  injection Hh as <- <-. destruct Ha as (Hseq & Hack & Hfl & _). apply andb_prop in Ec as [H1 H2]. apply Z.eqb_eq in H1, H2.
  assert (has (s_flags s) TCP_SYN = true) as Hsyn.
  { unfold has. rewrite <- Hfl. destruct (Z.eqb_spec (Z.land (flags seg) TCP_SYN) 0) as [Hz|]; [exfalso|done].
    assert (Z.testbit (Z.land (flags seg) (Z.lor TCP_SYN TCP_ACK)) 1 = true) as Hb by (rewrite H1; reflexivity).
    assert (Z.testbit (Z.land (flags seg) TCP_SYN) 1 = true) as Hb2 by (rewrite Z.land_spec in Hb |- *; apply andb_prop in Hb as [-> _]; reflexivity).
    by rewrite Hz in Hb2. }
  destruct (d_syn _ _ _ _ _ E s Hs Hsyn) as [Eseq _].
  assert (st y <> Listen) as Hnl.
  { intros Hl. destruct (d_listen _ _ _ _ _ E Hl) as (Hnil & _). rewrite Hnil in Hs. by apply elem_of_nil in Hs. }
  assert (e_sent x = []) as Hsent by (apply (d_young _ _ _ _ _ D); by left). assert (e_got x = []) as Hgot by (apply (d_fresh _ _ _ _ _ E); by left).
  assert (tx_len (e_conn x) = 0) as Hq by (apply (d_quiet _ _ _ _ _ D); unfold st; by rewrite Hst).
  assert (wadd32 (seq seg) 1 = w32 (by' + len (e_got x))) as Hrcv.
  { rewrite Hseq, Eseq, Hgot. unfold wadd32. rewrite w32_add. unfold len. cbn [length]. f_equal. lia. }
  split; split; fields; rewrite ?Hst; fields; try done; try impossible.
  - intros _. apply (d_nxt _ _ _ _ _ D). unfold st. by rewrite Hst.
  - rewrite Hq. unfold TCP_MSS. lia.
  - intros _. left. split; [exact Hq|]. split; [congruence|]. rewrite Hsent. pose proof (d_prefix _ _ _ _ _ D) as Hp. rewrite Hsent in Hp. by apply prefix_nil_inv in Hp.
  - intros t [= <-]. fields. split; [done|]. split; [done|]. split; [done|]. split; [unfold len, TCP_MSS; cbn [length]; lia|done].
  - apply (d_prefix _ _ _ _ _ E).
  - intros t [= <-] _ _. fields. exists (len (e_got x)). split; [unfold len; lia|exact Hrcv].
Qed.

(** After the close: at most the peer's FIN is noted and acknowledged. *)
Lemma finishing_ok x' o :
  finished (st x) = true -> finished (st x') = true -> synced (st x) = true -> e_sent x' = e_sent x -> e_got x' = e_got x -> tx_len (e_conn x') = tx_len (e_conn x) ->
  quiet (st x) = true -> (rcv_nxt (e_conn x') = rcv_nxt (e_conn x) /\ o = None \/ finished (st y) = true /\ o = Some (ack_now (e_conn x'))) ->
  sender_ok bx x x' y o /\ receiver_ok by' y x x' o.
Proof using D E.
  intros Hf Hf' Hsy H1 H2 H3 Hq Ho. pose proof (d_quiet _ _ _ _ _ D Hq) as Htx. pose proof (established_not_listen Hsy) as Hnl.
  assert (opened (st x') = false) as Hop by (unfold st in *; by destruct (state (e_conn x'))).
  assert (finished (st y) = true -> opened (st y) = false) as Hfo by (unfold st; by destruct (state (e_conn y))).
  assert (forall P : Prop, st x' = SynSent \/ st x' = SynRcvd \/ st x' = Established \/ st x' = CloseWait \/ st x' = Listen -> P) as Hno
    by (intros P [H|[H|[H|[H|H]]]]; rewrite H in Hf'; discriminate).
  split; split; rewrite ?H1, ?H2, ?H3, ?Hop, ?Htx; try done; try (intros H; apply Hno; clear -H; tauto).
  - intros t Ht. destruct Ho as [[_ ->]|[_ ->]]; [done|]. injection Ht as <-. fields. split; [done|]. split; [done|]. split; [done|].
    split; [unfold len, TCP_MSS; cbn [length]; lia|done].
  - apply (d_prefix _ _ _ _ _ E).
  - intros _ [Ht|Hoy]; [unfold st in *; by destruct (state (e_conn x'))|]. destruct Ho as [[-> _]|[Hy _]]; [|by rewrite (Hfo Hy) in Hoy].
    apply (d_rcv _ _ _ _ _ E Hsy). by right.
  - intros t Ht Hoy _. destruct Ho as [[_ ->]|[Hy _]]; [done|]. by rewrite (Hfo Hy) in Hoy.
Qed.

Lemma move_arrive_ok now c o :
  handle_conn seg (data_of s) now (e_conn x) = (c, o) ->
  let x' := mk_ep c (e_sent x) (e_got x ++ if stores (e_conn x) s then take (Z.to_nat (rx_len c)) (rx c) else [])
         (e_read x) (e_over x || stores (e_conn x) s && (0 <? rx_len (e_conn x))) in
  sender_ok bx x x' y o /\ receiver_ok by' y x x' o.
Proof using D E Hs Ha Hy32 Hx32.
  intros Hh. destruct (taking (st x)) eqn:Ht.
  { destruct (st x) eqn:Hst; try discriminate; [by apply arrive_synrcvd with now|by apply arrive_established with now]. }
  rewrite (stores_taking Ht), app_nil_r, andb_false_l, orb_false_r. destruct (st x) eqn:Hst; try discriminate; [| |by apply arrive_synsent with now|..].
  all: unfold handle_conn in Hh; unfold st in Hst; rewrite Hst in Hh.
  - injection Hh as <- <-. split; [by apply sender_same|by apply receiver_same].
  - injection Hh as <- <-. split; [by apply sender_same|by apply receiver_same].
  - destruct (has (flags seg) TCP_FIN) eqn:Ef; injection Hh as <- <-.
    + apply finishing_ok; fields; rewrite ?Hst; fields; try done; try (by destruct (acks_all _ _)). right. split; [by apply fin_finished|done].
    + apply finishing_ok; fields; rewrite ?Hst; fields; try done; destruct (acks_all _ _); fields; rewrite ?Hst; auto.
  - destruct (has (flags seg) TCP_FIN) eqn:Ef; injection Hh as <- <-.
    + apply finishing_ok; fields; rewrite ?Hst; fields; try done. right. split; [by apply fin_finished|done].
    + apply finishing_ok; fields; rewrite ?Hst; fields; auto.
  - destruct (acks_all seg (e_conn x)); injection Hh as <- <-; [|split; [by apply sender_same|by apply receiver_same]].
    split; [|by apply receiver_same]. pose proof D as []. split; fields; rewrite ?Hst in *; fields; try done; try impossible.
  - injection Hh as <- <-. split; [by apply sender_same|by apply receiver_same].
Qed.

End arrival.

End moves.

Lemma lxor_u32 a b : 0 <= a < 2^32 -> 0 <= b < 2^32 -> 0 <= Z.lxor a b < 2^32.
Proof.
  intros Ha Hb. split; [apply Z.lxor_nonneg; lia|]. destruct (decide (Z.lxor a b = 0)) as [->|Hz]; [lia|].
  assert (0 <= Z.lxor a b) by (apply Z.lxor_nonneg; lia). apply Z.log2_lt_pow2; [lia|].
  pose proof (Z.log2_lxor a b ltac:(lia) ltac:(lia)) as Hl.
  assert (forall v, 0 <= v < 2^32 -> Z.log2 v < 32) as Hv.
  { intros v Hv. destruct (decide (v = 0)) as [->|]; [done|]. apply Z.log2_lt_pow2; lia. }
  pose proof (Hv a Ha). pose proof (Hv b Hb). lia.
Qed.

(** A listener takes a SYN. *)
Lemma move_accept_ok bx by' x y xy yx s seg n m dm src our6 si now c r :
  dir bx x y xy yx -> dir by' y x yx xy -> st x = Listen -> s ∈ yx -> arrives s seg -> has (s_flags s) TCP_SYN = true ->
  server_conn n m dm src our6 seg si now = (c, r) ->
  let x' := mk_ep c (e_sent x) (e_got x) (e_read x) (e_over x) in exists b, dir b x' y (r :: xy) yx /\ dir by' y x' yx (r :: xy).
Proof.
  intros D E Hst Hs (Hseq & _) Hsyn Hc. destruct (d_listen _ _ _ _ _ D Hst) as (-> & Hy & Hnack).
  assert (e_sent x = []) as Hsent by (apply (d_young _ _ _ _ _ D); auto). assert (e_got x = []) as Hgot by (apply (d_fresh _ _ _ _ _ E); auto).
  destruct (d_syn _ _ _ _ _ E s Hs Hsyn) as [Eseq _]. unfold server_conn in Hc. set (una := Z.lxor _ _) in Hc.
  assert (0 <= una < 2^32) as Hu by (apply lxor_u32; [lia|apply Z.mod_pos_bound; lia]).
  assert (state c = SynRcvd /\ snd_nxt c = w32 (una + 1 + 0) /\ tx_len c = 0 /\ rcv_nxt c = w32 (by' + 0) /\ r = mk_segment una (rcv_nxt c) (Z.lor TCP_SYN TCP_ACK) [])
    as (C1 & C2 & C3 & C4 & C5).
  { assert (wadd32 (seq seg) 1 = w32 (by' + 0)) as Hw by (rewrite Hseq, Eseq; unfold wadd32; rewrite w32_add; f_equal; lia).
    destruct src as [a|a]; injection Hc as <- <-; fields; rewrite Hw; unfold wadd32; rewrite Z.add_0_r; done. }
  clearbody una. clear Hc. exists (una + 1). assert (w32 (una + 1 - 1) = una) as Hun by (replace (una + 1 - 1) with una by lia; apply Z.mod_small; lia).
  assert (synced (st y) = false /\ st y <> Listen /\ st y <> CloseWait) as (Hsy & Hnl & Hnw) by (destruct Hy as [-> | ->]; done).
  assert (forall t, t ∈ [r] -> t = r) as Hr by (intros t Ht; by apply list_elem_of_singleton in Ht).
  split; split; fields; rewrite ?C1, ?Hsent, ?Hgot, ?C2, ?C3, ?C4; fields; try done; try impossible.
  - pose proof (d_prefix _ _ _ _ _ D) as Hp. by rewrite Hsent in Hp.
  - intros t Ht. rewrite (Hr t Ht), C5. done.
  - intros t Ht _. rewrite (Hr t Ht), C5. fields. done.
  - intros t Ht. rewrite (Hr t Ht), C5. done.
  - intros t Ht. rewrite (Hr t Ht), C5. fields. unfold len, TCP_MSS. cbn [length]. lia.
  - intros t _ Ht. rewrite (Hr t Ht), C5. done.
  - intros H. congruence.
  - intros H. exact (d_fresh _ _ _ _ _ D H).
  - intros t _ Ht Hf. by rewrite (Hnack t Ht) in Hf.
  - apply prefix_nil.
  - apply (d_nxt _ _ _ _ _ E).
  - apply (d_quiet _ _ _ _ _ E).
  - apply (d_txlen _ _ _ _ _ E).
  - apply (d_young _ _ _ _ _ E).
  - apply (d_una _ _ _ _ _ E).
  - intros H. destruct Hy; congruence.
  - apply (d_fin _ _ _ _ _ E).
  - apply (d_syn _ _ _ _ _ E).
  - apply (d_rst _ _ _ _ _ E).
  - apply (d_mss _ _ _ _ _ E).
  - intros t _. apply (d_data _ _ _ _ _ E). unfold st. by rewrite Hst.
  - intros t _ Ht _. rewrite (Hr t Ht), C5. fields. exists 0. unfold len. cbn [length]. split; [lia|exact C4].
Qed.

(** One move of [x]. *)
Lemma move_ok bx by' x y xy yx x' xy' :
  dir bx x y xy yx -> dir by' y x yx xy -> move yx x xy x' xy' -> len (e_sent y) < 2^32 -> len (e_sent x) < 2^32 ->
  exists b, dir b x' y xy' yx /\ dir by' y x' yx xy'.
Proof.
  intros D E Hm Hy Hx.
  assert (forall x' o, sender_ok bx x x' y o /\ receiver_ok by' y x x' o -> exists b, dir b x' y (put o xy) yx /\ dir by' y x' yx (put o xy)) as Hfin.
  { intros x1 o [H1 H2]. exists bx. split; [by eapply dir_sender|by eapply dir_receiver]. }
  destruct Hm.
  - apply Hfin. by eapply move_send_ok.
  - apply Hfin. by eapply move_close_ok.
  - apply Hfin. by eapply move_tick_ok.
  - apply (Hfin _ None). by eapply move_read_ok.
  - apply Hfin. by eapply move_arrive_ok.
  - by eapply move_accept_ok.
Qed.

(** ** Both directions together *)

Definition net_ok (s : net) : Prop :=
  exists ba bb, dir ba (e_a s) (e_b s) (ch_ab s) (ch_ba s) /\ dir bb (e_b s) (e_a s) (ch_ba s) (ch_ab s).

Definition in_range (s : net) : Prop := len (e_sent (e_a s)) < 2^32 /\ len (e_sent (e_b s)) < 2^32.

Lemma move_grows inc x out x' out' : move inc x out x' out' -> len (e_sent x) <= len (e_sent x').
Proof. intros []; cbn [e_sent]; try lia. unfold len. rewrite length_app. lia. Qed.

Lemma step_range s s' : step s s' -> in_range s' -> in_range s.
Proof.
  intros [t x out Hm|t x out Hm] [H1 H2]; cbn [e_a e_b] in *; apply move_grows in Hm; split; lia.
Qed.

Lemma step_ok s s' : step s s' -> in_range s -> net_ok s -> net_ok s'.
Proof.
  intros [t x out Hm|t x out Hm] [H1 H2] (ba & bb & D & E).
  - destruct (move_ok _ _ _ _ _ _ _ _ D E Hm H2 H1) as (b & D' & E'). by exists b, bb.
  - destruct (move_ok _ _ _ _ _ _ _ _ E D Hm H1 H2) as (b & E' & D'). by exists ba, b.
Qed.

Lemma start_ok s : start s -> net_ok s.
Proof.
  intros (c & isn & now & Hisn & _ & Ha & Hab & Hb & Htx & _ & Hsent & Hgot & _ & _ & Hba). exists (isn + 1), 0. rewrite Ha, Hab, Hba.
  assert (w32 (isn + 1 - 1) = isn) as Hw by (replace (isn + 1 - 1) with isn by lia; apply Z.mod_small; lia).
  assert (forall t, t ∈ [mk_segment isn 0 TCP_SYN []] -> t = mk_segment isn 0 TCP_SYN []) as Hr by (intros t Ht; by apply list_elem_of_singleton in Ht).
  assert (forall t : segment, t ∉ []) as Hnil by (intros t; apply not_elem_of_nil).
  unfold connect_conn. cbv zeta. cbn [fst snd]. split; split; fields; rewrite ?Hb, ?Hsent, ?Hgot, ?Htx; fields; try done; try impossible.
  - intros _. unfold wadd32, len. cbn [length]. f_equal. lia.
  - intros t Ht. by rewrite (Hr t Ht).
  - intros t Ht _. by rewrite (Hr t Ht).
  - intros t Ht. by rewrite (Hr t Ht).
  - intros t Ht. rewrite (Hr t Ht). unfold len, TCP_MSS. cbn [s_data length]. lia.
  - intros t _ Ht. by rewrite (Hr t Ht).
  - intros t _ Ht. by apply Hnil in Ht.
  - intros t Ht. by apply Hnil in Ht.
  - intros t Ht. by apply Hnil in Ht.
  - intros t Ht. by apply Hnil in Ht.
  - intros t Ht. by apply Hnil in Ht.
  - intros t _ Ht. by apply Hnil in Ht.
  - intros _. split; [done|]. split; [by left|]. intros t Ht. by rewrite (Hr t Ht).
Qed.

Lemma reachable_ok s : reachable s -> in_range s -> net_ok s.
Proof.
  intros (s0 & Hs0 & Hr). revert s Hr. apply (rtc_ind_r (fun s => in_range s -> net_ok s)); [by intros _; apply start_ok|].
  intros s s' _ Hst IH Hin. pose proof (step_range _ _ Hst Hin) as Hin0. exact (step_ok _ _ Hst Hin0 (IH Hin0)).
Qed.

(** ** What the application reads *)

(** The bytes read and the bytes waiting, against the bytes stored. *)
Definition reads_ok (x : endpoint) : Prop :=
  (e_read x ++ unread (e_conn x)) `sublist_of` e_got x /\
  (e_over x = false -> e_read x ++ unread (e_conn x) = e_got x).

Lemma send_unread payload now c : unread (send_conn payload now c).1 = unread c.
Proof. unfold send_conn. by destruct (_ || _). Qed.
Lemma close_unread now c : unread (close_conn now c).1 = unread c.
Proof. unfold close_conn. by destruct (_ || _). Qed.
Lemma tick_unread now c : unread (tick_conn now c).1 = unread c.
Proof.
  unfold tick_conn. destruct (bool_decide _); [done|]. cbv zeta. destruct (_ || _); [done|]. by destruct (_ <? _).
Qed.

Lemma take_data_skip seg data c : (0 <? payload_len seg) && (seq seg =? rcv_nxt c) = false -> take_data seg data c = (c, false).
Proof. unfold take_data. by intros ->. Qed.

(** A segment that is not stored leaves the receive buffer alone. *)
Lemma handle_unread s seg data now c :
  arrives s seg -> stores c s = false -> unread (handle_conn seg data now c).1 = unread c.
Proof.
  intros (H1 & _ & H3 & H4) Hs. unfold stores in Hs. rewrite <- H1, <- H3, <- H4 in Hs. unfold handle_conn.
  destruct (state c) eqn:Est; cbn [bool_decide decide_rel TcpState_dec orb andb] in Hs; try (repeat case_match; done);
    destruct (has (flags seg) TCP_RST); try done; cbn [negb andb] in Hs.
  - cbv zeta. rewrite take_data_skip; by destruct (_ && negb _).
  - rewrite take_data_skip by done. cbv zeta. destruct (_ && negb _), (has _ TCP_FIN); done.
Qed.

Lemma move_reads inc x out x' out' :
  move inc x out x' out' -> (st x = Listen -> e_got x = []) -> reads_ok x -> reads_ok x'.
Proof.
  intros Hm Hl [H1 H2]. unfold reads_ok. destruct Hm; cbn [e_conn e_read e_got e_over].
  - pose proof (send_unread payload now (e_conn x)) as Hu. rewrite H in Hu. cbn [fst] in Hu. by rewrite Hu.
  - pose proof (close_unread now (e_conn x)) as Hu. rewrite H in Hu. cbn [fst] in Hu. by rewrite Hu.
  - pose proof (tick_unread now (e_conn x)) as Hu. rewrite H in Hu. cbn [fst] in Hu. by rewrite Hu.
  - unfold recv_conn. cbn [fst snd]. unfold unread at 2 4. cbn [rx_len rx set_rx]. rewrite take_0, app_nil_r. done.
  - destruct (stores (e_conn x) s) eqn:Hs; cbn [andb].
    + split; [|intros [Ho Hr]%orb_false_iff].
      * apply sublist_app; [|done]. etrans; [|exact H1]. by apply sublist_inserts_r.
      * rewrite <- (H2 Ho). unfold unread at 2. apply Z.ltb_ge in Hr.
        replace (Z.to_nat (rx_len (e_conn x))) with 0%nat by lia. rewrite take_0, app_nil_r. done.
    + pose proof (handle_unread s seg (data_of s) now (e_conn x) ltac:(done) Hs) as Hu.
      match goal with E : handle_conn _ _ _ _ = _ |- _ => rewrite E in Hu end. cbn [fst] in Hu. rewrite Hu, orb_false_r, app_nil_r. done.
  - rewrite (Hl ltac:(done)) in *. apply sublist_nil_r, app_eq_nil in H1 as [-> _].
    match goal with E : server_conn _ _ _ _ _ _ _ _ = _ |- _ => unfold server_conn in E; injection E as <- _ end.
    by destruct src.
Qed.

Lemma start_reads s : start s -> reads_ok (e_a s) /\ reads_ok (e_b s).
Proof.
  intros (c & isn & now & _ & Hrc & Ha & _ & _ & _ & Hrb & _ & Hgb & Hdb & Hob & _).
  unfold reads_ok, unread. rewrite Ha, Hgb, Hdb, Hob, Hrb. cbn. rewrite Hrc. done.
Qed.

Lemma reachable_reads s : reachable s -> in_range s -> reads_ok (e_a s) /\ reads_ok (e_b s).
Proof.
  intros (s0 & Hs0 & Hr). revert s Hr. apply (rtc_ind_r (fun s => in_range s -> reads_ok (e_a s) /\ reads_ok (e_b s))).
  { intros _. by apply start_reads. }
  intros s s' Hr Hst IH Hin. pose proof (step_range _ _ Hst Hin) as Hin0. destruct (IH Hin0) as [Ra Rb].
  destruct (reachable_ok s (ex_intro _ s0 (conj Hs0 Hr)) Hin0) as (ba & bb & D & E).
  destruct Hst as [t x out Hm|t x out Hm]; cbn [e_a e_b].
  - split; [|done]. apply (move_reads _ _ _ _ _ Hm); [|done]. intros Hl. apply (d_fresh _ _ _ _ _ E). by right.
  - split; [done|]. apply (move_reads _ _ _ _ _ Hm); [|done]. intros Hl. apply (d_fresh _ _ _ _ _ D). by right.
Qed.

(** C8. Two connections transfer their streams. Two sides of a connection, one that has sent a SYN
    and one that listens, exchange segments over a network that may lose, repeat, delay and reorder
    them; both sides send data, close, read and run their timers at any time. As long as neither
    stream reaches 2^32 bytes, the bytes a side has stored are a prefix of the bytes the other side
    has sent, and a side that is established and holds no unacknowledged data has had all its bytes
    stored. What the application has read, followed by what waits for it, is what was stored, in
    order, as long as no segment was stored over unread bytes. The receive buffer holds one segment
    and is acknowledged before it is read, so an application that does not read in time loses
    bytes; then what it reads is still made of stored bytes in their order, with the replaced ones
    missing. *)
Theorem tcp_streams_intact s :
  reachable s -> in_range s ->
  (e_got (e_b s) `prefix_of` e_sent (e_a s) /\ e_got (e_a s) `prefix_of` e_sent (e_b s))
  /\ (st (e_a s) = Established -> tx_len (e_conn (e_a s)) = 0 -> e_got (e_b s) = e_sent (e_a s))
  /\ (st (e_b s) = Established -> tx_len (e_conn (e_b s)) = 0 -> e_got (e_a s) = e_sent (e_b s))
  /\ (forall x, x = e_a s \/ x = e_b s ->
        (e_over x = false -> e_read x ++ unread (e_conn x) = e_got x)
        /\ (e_read x ++ unread (e_conn x)) `sublist_of` e_got x).
Proof.
  intros Hr Hin. destruct (reachable_ok s Hr Hin) as (ba & bb & D & E). destruct (reachable_reads s Hr Hin) as [[Ra1 Ra2] [Rb1 Rb2]].
  split; [split; [apply (d_prefix _ _ _ _ _ D)|apply (d_prefix _ _ _ _ _ E)]|].
  split; [|split]; [..|by intros x [-> | ->]];
    intros H1 H2; [destruct (d_tx _ _ _ _ _ D H1) as [(_ & _ & H)|(H & _)]|destruct (d_tx _ _ _ _ _ E H1) as [(_ & _ & H)|(H & _)]]; done || lia.
Qed.

(** ** A run *)

Definition as_seg (s : segment) : TcpSeg := mk_seg 0 0 (s_seq s) (s_ack s) (s_flags s) 0 0 (Z.of_nat (length (s_data s))).
Lemma as_seg_arrives s : arrives s (as_seg s).
Proof. done. Qed.

Definition listening : TcpConn := set_state Listen (set_owner true 3 TCP_ROLE_LISTENER 0 80 false TcpConn_new).

(** The moves of a run, as functions; the segment that arrives is given by its index. *)
Definition do_send (payload : list Z) (x : endpoint) (out : list segment) : endpoint * list segment :=
  let '(c, o) := send_conn payload 0 (e_conn x) in
  (mk_ep c (e_sent x ++ match o with Some s => s_data s | None => [] end) (e_got x) (e_read x) (e_over x), put o out).
Definition do_arrive (i : nat) (inc : list segment) (x : endpoint) (out : list segment) : endpoint * list segment :=
  match inc !! i with
  | None => (x, out)
  | Some s =>
      let '(c, o) := handle_conn (as_seg s) (data_of s) 0 (e_conn x) in
      (mk_ep c (e_sent x) (e_got x ++ if stores (e_conn x) s then take (Z.to_nat (rx_len c)) (rx c) else [])
         (e_read x) (e_over x || stores (e_conn x) s && (0 <? rx_len (e_conn x))), put o out)
  end.
Definition do_accept (i : nat) (inc : list segment) (x : endpoint) (out : list segment) : endpoint * list segment :=
  match inc !! i with
  | None => (x, out)
  | Some s => let '(c, r) := server_conn 0 0 [] (inl []) [] (as_seg s) 0 0 in (mk_ep c (e_sent x) (e_got x) (e_read x) (e_over x), r :: out)
  end.

Lemma do_send_move payload inc x out : move inc x out (do_send payload x out).1 (do_send payload x out).2.
Proof. unfold do_send. destruct (send_conn payload 0 (e_conn x)) as [c o] eqn:E. by eapply move_send. Qed.
Lemma do_arrive_move i inc x out : is_Some (inc !! i) -> move inc x out (do_arrive i inc x out).1 (do_arrive i inc x out).2.
Proof.
  intros [s Hs]. unfold do_arrive. rewrite Hs. destruct (handle_conn _ _ _ _) as [c o] eqn:E.
  eapply move_arrive; [by eapply list_elem_of_lookup_2|apply as_seg_arrives|exact E].
Qed.
Lemma do_accept_move i inc x out s :
  inc !! i = Some s -> st x = Listen -> has (s_flags s) TCP_SYN = true -> move inc x out (do_accept i inc x out).1 (do_accept i inc x out).2.
Proof.
  intros Hs Hx Hf. unfold do_accept. rewrite Hs. destruct (server_conn _ _ _ _ _ _ _ _) as [c r] eqn:E.
  eapply move_accept; [exact Hx|by eapply list_elem_of_lookup_2|apply as_seg_arrives|exact Hf|exact E].
Qed.

Definition on_a (f : list segment -> endpoint -> list segment -> endpoint * list segment) (s : net) : net :=
  let r := f (ch_ba s) (e_a s) (ch_ab s) in mk_net r.1 (e_b s) r.2 (ch_ba s).
Definition on_b (f : list segment -> endpoint -> list segment -> endpoint * list segment) (s : net) : net :=
  let r := f (ch_ab s) (e_b s) (ch_ba s) in mk_net (e_a s) r.1 (ch_ab s) r.2.

Lemma on_a_step f s : move (ch_ba s) (e_a s) (ch_ab s) (f (ch_ba s) (e_a s) (ch_ab s)).1 (f (ch_ba s) (e_a s) (ch_ab s)).2 -> step s (on_a f s).
Proof. apply step_a. Qed.
Lemma on_b_step f s : move (ch_ab s) (e_b s) (ch_ba s) (f (ch_ab s) (e_b s) (ch_ba s)).1 (f (ch_ab s) (e_b s) (ch_ba s)).2 -> step s (on_b f s).
Proof. apply step_b. Qed.
Lemma arrive_a i s : bool_decide (is_Some (ch_ba s !! i)) = true -> step s (on_a (do_arrive i) s).
Proof. intros H. apply on_a_step, do_arrive_move. by apply bool_decide_eq_true in H. Qed.
Lemma arrive_b i s : bool_decide (is_Some (ch_ab s !! i)) = true -> step s (on_b (do_arrive i) s).
Proof. intros H. apply on_b_step, do_arrive_move. by apply bool_decide_eq_true in H. Qed.

(** The handshake, three bytes sent, delivered twice, and acknowledged. *)
Definition run0 : net :=
  mk_net (mk_ep (connect_conn 0xffffffff 0 TcpConn_new).1 [] [] [] false) (mk_ep listening [] [] [] false) [(connect_conn 0xffffffff 0 TcpConn_new).2] [].
Definition run1 : net := on_b (do_accept 0) run0.
Definition run2 : net := on_a (do_arrive 0) run1.
Definition run3 : net := on_a (fun _ => do_send [1; 2; 3]) run2.
Definition run4 : net := on_b (do_arrive 1) run3.
Definition run5 : net := on_b (do_arrive 0) run4.
Definition run6 : net := on_b (do_arrive 0) run5.
Definition run7 : net := on_a (do_arrive 0) run6.

(** The application reads. *)
Definition do_read (x : endpoint) (out : list segment) : endpoint * list segment :=
  (mk_ep (recv_conn (e_conn x)).1 (e_sent x) (e_got x) (e_read x ++ (recv_conn (e_conn x)).2) (e_over x), out).
Lemma do_read_move inc x out : move inc x out (do_read x out).1 (do_read x out).2.
Proof. apply move_read. Qed.
Definition run8 : net := on_b (fun _ => do_read) run7.

Lemma run_reachable : reachable run8.
Proof.
  exists run0. split.
  - exists TcpConn_new, 0xffffffff, 0. split; [lia|]. done.
  - apply rtc_l with run1.
    { apply on_b_step. eapply do_accept_move; [|vm_compute; reflexivity|]; [vm_compute; reflexivity|vm_compute; reflexivity]. }
    apply rtc_l with run2. { apply arrive_a. vm_compute. reflexivity. }
    apply rtc_l with run3. { apply (on_a_step (fun _ => do_send [1; 2; 3])), do_send_move. }
    apply rtc_l with run4. { apply arrive_b. vm_compute. reflexivity. }
    apply rtc_l with run5. { apply arrive_b. vm_compute. reflexivity. }
    apply rtc_l with run6. { apply arrive_b. vm_compute. reflexivity. }
    apply rtc_l with run7. { apply arrive_a. vm_compute. reflexivity. }
    apply rtc_once, (on_b_step (fun _ => do_read)), do_read_move.
Qed.

Lemma tcp_streams_intact_witness :
  reachable run8 /\ st (e_a run8) = Established /\ e_sent (e_a run8) = [1; 2; 3] /\ e_got (e_b run8) = e_sent (e_a run8)
  /\ e_read (e_b run8) = [1; 2; 3] /\ e_read (e_b run8) ++ unread (e_conn (e_b run8)) = e_got (e_b run8).
Proof.
  split; [exact run_reachable|]. assert (in_range run8) as Hin by (split; vm_compute; reflexivity).
  destruct (tcp_streams_intact run8 run_reachable Hin) as (_ & H1 & _ & H2).
  split; [vm_compute; reflexivity|]. split; [vm_compute; reflexivity|].
  split; [apply H1; vm_compute; reflexivity|]. split; [vm_compute; reflexivity|].
  apply (H2 (e_b run8)); [by right|vm_compute; reflexivity].
Defined.

(** Two segments in a row without a read: the first three bytes are acknowledged and lost. *)
Definition lost0 : net := on_a (fun _ => do_send [4; 5]) run7.
Definition lost1 : net := on_b (fun _ => do_read) (on_b (do_arrive 0) lost0).
Example unread_bytes_lost :
  e_got (e_b lost1) = [1; 2; 3; 4; 5] /\ e_read (e_b lost1) = [4; 5] /\ e_over (e_b lost1) = true.
Proof. vm_compute. repeat split. Qed.

(** ** From the connection to the frame and back *)

Definition addressed (c : TcpConn) : Prop :=
  length (dst_mac c) = 6%nat /\ 0 <= local_port c < 2^16 /\ 0 <= remote_port c < 2^16
  /\ length (remote_ip c) = 4%nat /\ bytes (remote_ip c) /\ length (remote6 c) = 16%nat /\ bytes (remote6 c)
  /\ length (local6 c) = 16%nat /\ bytes (local6 c).
Definition sendable (s : segment) : Prop :=
  0 <= s_seq s < 2^32 /\ 0 <= s_ack s < 2^32 /\ is_byte (s_flags s) /\ bytes (s_data s) /\ len (s_data s) <= TCP_MSS.

(** A segment survives its trip through a frame. The frame [tcp_seg] builds for a segment, in
    either address family, fits a page and is parsed to a segment with the connection's ports that
    [arrives] as the same segment, with the same data for the handler. *)
Theorem segment_crosses_the_wire c io s m :
  addressed c -> sendable s ->
  let '(n, m') := tcp_seg c io s m in
  0 < n <= 4096
  /\ exists seg, (if family c =? 6 then parse_seg_io6 m' io n else parse_seg_io m' io n) = Some seg
       /\ sport seg = local_port c /\ dport seg = remote_port c /\ arrives s seg /\ seg_data seg m' = data_of s.
Proof.
  intros (Hm & Hlp & Hrp & H4 & B4 & H6 & B6 & L6 & BL6) (Hs & Hk & Hf & Hd & Hl). unfold TCP_MSS, len in Hl.
  assert (40 + Z.of_nat (length (s_data s)) < 2^16) as Hlen by lia.
  assert (forall off n' m' o, 0 < n' <= 4096 ->
            seg_read (local_port c) (remote_port c) (s_seq s) (s_ack s) (s_flags s) TCP_WINDOW (s_data s) m' off o ->
            0 < n' <= 4096 /\ exists seg, o = Some seg /\ sport seg = local_port c /\ dport seg = remote_port c /\ arrives s seg /\ seg_data seg m' = data_of s) as Hfin.
  { intros off n' m' o Hn [-> Hsl]. split; [exact Hn|]. eexists. split; [reflexivity|]. cbn [sport dport]. split; [done|]. split; [done|]. split; [done|].
    unfold seg_data, data_of, PAY_MAX. cbn [payload_off payload_len]. replace (Z.to_nat (Z.min (Z.of_nat (length (s_data s))) 1472)) with (length (s_data s)) by lia.
    rewrite Hsl. symmetry. apply take_ge. lia. }
  assert (0 <= TCP_WINDOW < 2^16) as Hw by (unfold TCP_WINDOW; lia).
  unfold tcp_seg. destruct (family c =? 6).
  - pose proof (tcp_roundtrip6 (mac c) (dst_mac c) _ _ _ _ _ _ _ Hm Hlp Hrp Hs Hk Hf Hw Hd Hlen io (local6 c) (remote6 c) m L6 H6 BL6 B6) as H.
    pose proof (tcp_build6_frame (mac c) (dst_mac c) (local_port c) (remote_port c) (s_seq s) (s_ack s) (s_flags s) TCP_WINDOW (s_data s) Hd Hf io (local6 c) (remote6 c) m Hm L6 H6 BL6 B6 ltac:(lia)) as Hb.
    destruct (tcp_build6 _ _ _ _ _ _ _ _ _ _ _ _ _) as [n m']. destruct H as [H _], Hb as [-> _]. eapply Hfin; [|exact H]. lia.
  - assert (bytes OUR_IP) as BO by (repeat constructor; unfold is_byte; lia).
    pose proof (tcp_roundtrip4 (mac c) (dst_mac c) _ _ _ _ _ _ _ Hm Hlp Hrp Hs Hk Hf Hw Hd Hlen io OUR_IP (remote_ip c) m eq_refl H4 BO B4) as H.
    pose proof (tcp_build_frame (mac c) (dst_mac c) (local_port c) (remote_port c) (s_seq s) (s_ack s) (s_flags s) TCP_WINDOW (s_data s) Hd Hf io OUR_IP (remote_ip c) m Hm eq_refl H4 BO B4 ltac:(lia)) as Hb.
    destruct (tcp_build _ _ _ _ _ _ _ _ _ _ _ _ _) as [n m']. destruct H as [H _], Hb as [-> _]. eapply Hfin; [|exact H]. lia.
Qed.

Definition demo_conn : TcpConn :=
  set_peer 0x123456789a [2; 0; 0; 0; 0; 2] [10; 0; 2; 2] 80 (set_owner true 7 TCP_ROLE_CLIENT 0 8080 false TcpConn_new).

Lemma segment_crosses_the_wire_witness :
  let s := mk_segment 5 9 0x18 [104; 105] in
  let '(n, m') := tcp_seg demo_conn 4096 s (fun _ => 0) in
  exists seg, parse_seg_io m' 4096 n = Some seg /\ arrives s seg /\ seg_data seg m' = [104; 105].
Proof.
  assert (forall l, forallb (fun b => (0 <=? b) && (b <? 256)) l = true -> bytes l) as Hb.
  { intros l H. apply Forall_forall. intros b Hin. apply list_elem_of_In, (proj1 (forallb_forall _ _) H), andb_prop in Hin as [H1 H2].
    unfold is_byte. apply Z.leb_le in H1. apply Z.ltb_lt in H2. lia. }
  assert (addressed demo_conn) as Ha by (repeat split; try (vm_compute; congruence); apply Hb; reflexivity).
  assert (sendable (mk_segment 5 9 0x18 [104; 105])) as Hs.
  { repeat split; try (cbn; lia); [apply Hb; reflexivity|unfold len, TCP_MSS; cbn [s_data length]; lia]. }
  pose proof (segment_crosses_the_wire demo_conn 4096 _ (fun _ => 0) Ha Hs) as H. intros s. fold s in H.
  change (family demo_conn =? 6) with false in H. destruct (tcp_seg demo_conn 4096 s (fun _ => 0)) as [n m'].
  destruct H as (_ & seg & H1 & _ & _ & H2 & H3). exists seg. split; [exact H1|]. split; [exact H2|exact H3].
Defined.

(** ** Retransmission ends *)

(** Ticks at the given times, with what they send and when. *)
Fixpoint ticks (times : list Z) (c : TcpConn) : TcpConn * list (Z * segment) :=
  match times with
  | [] => (c, [])
  | now :: times' =>
      let '(c, o) := tick_conn now c in
      let '(c, l) := ticks times' c in
      (c, match o with Some s => (now, s) :: l | None => l end)
  end.

(** The segment that waits for its acknowledgement. *)
Definition unacked (c : TcpConn) : option segment :=
  match state c with
  | Closed => None
  | SynSent => Some (mk_segment (snd_una c) 0 TCP_SYN [])
  | _ => if 0 <? tx_len c then Some (mk_segment (snd_una c) (rcv_nxt c) (Z.lor TCP_PSH TCP_ACK) (take (Z.to_nat (tx_len c)) (tx c))) else None
  end.

(** The reference timer: of all the ticks, those at which a timer started at [last] with period
    [rto] runs out, when it is started again with twice the period each time. *)
Fixpoint expirations (last rto : Z) (times : list Z) : list Z :=
  match times with
  | [] => []
  | now :: times' =>
      if now <? last + rto then expirations last rto times' else now :: expirations now (2 * rto) times'
  end.

(** The clock does not go back, and stays below its width. *)
Fixpoint clock (last : Z) (times : list Z) : Prop :=
  match times with
  | [] => True
  | now :: times' => last <= now < 2^64 /\ clock now times'
  end.

Lemma clock_weaken last last' times : last' <= last -> clock last times -> clock last' times.
Proof. destruct times; cbn [clock]; [done|]. intros H [Ht Hc]. split; [lia|done]. Qed.

(** The [i]-th time the timer runs out is at least [rto * 2^i] after the one before. *)
Lemma expirations_spaced last rto times (i : nat) t :
  expirations last rto times !! i = Some t ->
  match i with 0%nat => last | S k => nth k (expirations last rto times) 0 end + rto * 2^Z.of_nat i <= t.
Proof.
  revert last rto i. induction times as [|now times IH]; intros last rto i; cbn [expirations]; [done|].
  destruct (Z.ltb_spec now (last + rto)) as [Hlt|Hge]; [apply IH|].
  destruct i as [|i]; [intros [= <-]; cbn; lia|]. intros Hi. apply IH in Hi. rewrite Nat2Z.inj_succ, Z.pow_succ_r by lia.
  destruct i; cbn [nth] in *; lia.
Qed.

Lemma tick_early now c s :
  unacked c = Some s -> 0 <= last_tx_ms c <= now -> now < 2^64 -> now < last_tx_ms c + rto_ms c -> tick_conn now c = (c, None).
Proof.
  intros _ Hl Hn He. unfold tick_conn. destruct (bool_decide _); [done|]. cbv zeta.
  assert (w64 (now - last_tx_ms c) = now - last_tx_ms c) as -> by (apply Z.mod_small; lia).
  rewrite (proj2 (Z.ltb_lt (now - last_tx_ms c) (rto_ms c))) by lia. by rewrite orb_true_r.
Qed.

Lemma tick_due now c s :
  unacked c = Some s -> 0 <= last_tx_ms c -> 0 < rto_ms c < 2^32 -> last_tx_ms c + rto_ms c <= now < 2^64 -> 0 <= retx c <= TCP_MAX_RETX ->
  let '(c', o) := tick_conn now c in
  if retx c <? TCP_MAX_RETX
  then o = Some s /\ unacked c' = Some s /\ retx c' = retx c + 1 /\ rto_ms c' = 2 * rto_ms c /\ last_tx_ms c' = now
  else o = None /\ state c' = Closed.
Proof.
  intros Hu Hl Hr Hn Hx. unfold TCP_MAX_RETX in *. unfold tick_conn.
  assert (state c <> Closed) as Hc by (intros H; unfold unacked in Hu; by rewrite H in Hu). rewrite bool_decide_false by done.
  assert (bool_decide (state c = SynSent) || (0 <? tx_len c) = true) as Hp.
  { unfold unacked in Hu. destruct (state c) eqn:Es; try done; destruct (0 <? tx_len c); try done; by rewrite orb_true_r. }
  rewrite Hp. assert (w64 (now - last_tx_ms c) = now - last_tx_ms c) as -> by (apply Z.mod_small; lia).
  rewrite (proj2 (Z.ltb_ge (now - last_tx_ms c) (rto_ms c))) by lia. cbn [negb orb]. cbv zeta. fields.
  assert (w32 (retx c + 1) = retx c + 1) as -> by (apply Z.mod_small; lia). unfold TCP_MAX_RETX.
  destruct (Z.ltb_spec 5 (retx c + 1)) as [H5|H5].
  { rewrite (proj2 (Z.ltb_ge (retx c) 5)) by lia. fields. done. }
  rewrite (proj2 (Z.ltb_lt (retx c) 5)) by lia. assert (w64 (rto_ms c * 2) = 2 * rto_ms c) as -> by (unfold w64; rewrite Z.mod_small; lia).
  fields. split; [|split; [exact Hu|done]]. rewrite <- Hu. unfold unacked. destruct (state c); try done; cbn [bool_decide decide_rel]; by destruct (0 <? tx_len c).
Qed.

Lemma ticks_closed times c : state c = Closed -> ticks times c = (c, []).
Proof.
  intros H. induction times as [|t times IH]; [done|]. cbn [ticks]. unfold tick_conn. rewrite bool_decide_true by done. by rewrite IH.
Qed.

Lemma ticks_timer (k : nat) times c s :
  unacked c = Some s -> retx c = 5 - Z.of_nat k -> (k <= 5)%nat -> 0 < rto_ms c -> rto_ms c * 2^(Z.of_nat k) < 2^32 ->
  0 <= last_tx_ms c -> clock (last_tx_ms c) times ->
  let fired := expirations (last_tx_ms c) (rto_ms c) times in
  exists c', ticks times c = (c', (fun t => (t, s)) <$> take k fired) /\
    (if (length fired <=? k)%nat then unacked c' = Some s else state c' = Closed).
Proof.
  intros Hu Hx Hk Hr Hb H0 Hclk. cbv zeta. revert c k Hu Hx Hk Hr Hb H0 Hclk.
  induction times as [|t times IH]; intros c k Hu Hx Hk Hr Hb H0 Hclk; cbn [ticks expirations].
  { exists c. split; [by destruct k|done]. }
  destruct Hclk as [Ht Hclk]. destruct (Z.ltb_spec t (last_tx_ms c + rto_ms c)) as [He|He].
  { rewrite (tick_early t c s) by (done || lia). apply (clock_weaken _ (last_tx_ms c)) in Hclk; [|lia].
    destruct (IH c k) as (c' & -> & Hc); [done..|]. by exists c'. }
  assert (0 < 2^Z.of_nat k) as Hp by (apply Z.pow_pos_nonneg; lia).
  pose proof (tick_due t c s Hu H0 ltac:(nia) ltac:(lia) ltac:(unfold TCP_MAX_RETX; lia)) as H.
  destruct (tick_conn t c) as [c1 o]. destruct k as [|k].
  - rewrite (proj2 (Z.ltb_ge _ _)) in H by (unfold TCP_MAX_RETX; lia). destruct H as [-> Hc]. rewrite ticks_closed by done.
    by exists c1.
  - rewrite (proj2 (Z.ltb_lt _ _)) in H by (unfold TCP_MAX_RETX; lia). destruct H as (-> & Hu1 & Hx1 & Hr1 & Hl1).
    rewrite Nat2Z.inj_succ, Z.pow_succ_r in Hb by lia.
    destruct (IH c1 k) as (c' & E & Hc); [done|lia|lia|lia|rewrite Hr1; lia|lia|by rewrite Hl1|].
    rewrite Hl1, Hr1 in E, Hc. rewrite E. by exists c'.
Qed.

(** C28. The retransmission timer. A segment has been sent and no acknowledgement arrives; the
    service ticks at any times it likes, early or late, as long as the clock does not go back. Then
    what the ticks send is this same segment, at the first five of the times at which a timer that
    starts with the sending at 300 ms and doubles its period runs out, and nothing at any other
    time: no repetition comes earlier than [300 * 2^i] ms after the one before it. When the timer
    runs out for the sixth time the connection is closed, and it stays silent; until then the
    segment is still waiting. *)
Theorem retransmission_bounded c s times :
  unacked c = Some s -> retx c = 0 -> rto_ms c = TCP_RTO_MS -> 0 <= last_tx_ms c -> clock (last_tx_ms c) times ->
  let fired := expirations (last_tx_ms c) TCP_RTO_MS times in
  exists c', ticks times c = (c', (fun t => (t, s)) <$> take 5 fired) /\
    (if (length fired <=? 5)%nat then unacked c' = Some s else state c' = Closed) /\
    (forall (i : nat) t, fired !! i = Some t ->
       match i with 0%nat => last_tx_ms c | S k => nth k fired 0 end + 300 * 2^Z.of_nat i <= t).
Proof.
  intros Hu Hx Hr Hl Hclk. destruct (ticks_timer 5 times c s) as (c' & E & Hc); rewrite ?Hr; [done|lia|lia|done|done|done|done|].
  rewrite Hr in E, Hc. exists c'. split; [done|]. split; [done|]. intros i t. apply expirations_spaced.
Qed.

Lemma retransmission_bounded_witness :
  exists c', ticks [10; 299; 301; 600; 910; 2200; 4600; 9400; 9410; 19000; 40000] (connect_conn 77 0 demo_conn).1
    = (c', (fun t => (t, mk_segment 77 0 2 [])) <$> [301; 910; 2200; 4600; 9400]) /\ state c' = Closed.
Proof.
  destruct (retransmission_bounded (connect_conn 77 0 demo_conn).1 (mk_segment 77 0 2 [])
    [10; 299; 301; 600; 910; 2200; 4600; 9400; 9410; 19000; 40000]) as (c' & E & Hc & _);
    [reflexivity|reflexivity|reflexivity|vm_compute; discriminate| |exists c'; split; [exact E|exact Hc]].
  vm_compute. repeat split; discriminate.
Defined.

(** ** What the state machine does not do *)

(** A repeated segment is not acknowledged again: once the acknowledgement of a segment is lost, no
    repetition of the segment brings another one. *)
Lemma duplicate_unanswered seg data now c :
  state c = Established -> has (flags seg) TCP_RST = false -> has (flags seg) TCP_FIN = false -> seq seg <> rcv_nxt c ->
  (handle_conn seg data now c).2 = None.
Proof.
  intros Hst Hr Hf Hq. unfold handle_conn. rewrite Hst, Hr. unfold take_data. rewrite (proj2 (Z.eqb_neq _ _) Hq), andb_false_r. by rewrite Hf.
Qed.

(** Data that arrive before the application has read the last ones replace them. *)
Lemma unread_replaced seg data now c :
  state c = Established -> has (flags seg) TCP_RST = false -> seq seg = rcv_nxt c -> 0 < payload_len seg <= PAY_MAX -> len data = payload_len seg ->
  let c' := (handle_conn seg data now c).1 in rx_len c' = payload_len seg /\ take (Z.to_nat (rx_len c')) (rx c') = data.
Proof.
  intros Hst Hr Hq Hl Hd. unfold handle_conn. rewrite Hst, Hr. unfold take_data. rewrite (proj2 (Z.ltb_lt 0 _)), (proj2 (Z.eqb_eq _ _) Hq) by lia.
  cbn [andb]. cbv zeta. destruct (acks_all _ _ && _), (has (flags seg) TCP_FIN); cbn [fst]; fields; rewrite Z.min_l by lia; (split; [done|]);
    unfold copy_front, len in *; rewrite <- Hd, Nat2Z.id; by rewrite take_app_length.
Qed.

(** In [CloseWait] an acknowledged segment stays in the buffer: the timer sends it again, with the
    sequence number of the next byte. *)
Lemma close_wait_resends seg data now now' c :
  state c = CloseWait -> acks_all seg c = true -> 0 < tx_len c -> rto_ms c <= w64 (now' - last_tx_ms c) -> 0 <= retx c < TCP_MAX_RETX ->
  (tick_conn now' (handle_conn seg data now c).1).2 = Some (mk_segment (snd_nxt c) (rcv_nxt c) 0x18 (take (Z.to_nat (tx_len c)) (tx c))).
Proof.
  intros Hst Hk Ht Hr Hx. unfold handle_conn. rewrite Hst, Hk. cbn [fst]. unfold tick_conn. fields. rewrite Hst. cbn [bool_decide decide_rel TcpState_dec].
  rewrite bool_decide_false by done. rewrite (bool_decide_false (CloseWait = SynSent)) by done. rewrite (proj2 (Z.ltb_lt 0 _)), (proj2 (Z.ltb_ge _ _)) by lia. cbn [orb negb]. fields.
  assert (w32 (retx c + 1) = retx c + 1) as -> by (unfold TCP_MAX_RETX in Hx; apply Z.mod_small; lia). rewrite (proj2 (Z.ltb_ge _ _)) by lia. fields.
  reflexivity.
Qed.
