(* ===== verification/NetStack.v ===== *)
(** * NetStack: the network service (src/user/srv/src/netstack_srv.rs)

    The state of the service (links, UDP sockets, TCP connections), the demultiplexing of received
    frames, the operations that applications request, and the retransmission timer. The drivers,
    the kernel calls and the other domains are behind the interface [NetEnv]. The theorems about
    these operations are in NetInv and NetLoop. *)

From S2P Require Import Prelude Cap Net Bytes NetWire NetTcp.

Definition MAX_SOCKS : Z := 4.
Definition MAX_TCONS : Z := 6.
Definition NET_REQ_TAG : Z := 0x4E455457.
Definition NET_OP_TX : Z := 0.
Definition NET_OP_RX : Z := 1.
Definition NET_OP_INFO : Z := 2.
Definition NETS_REQ_TAG : Z := 0x4E53544B.
Definition NETS_OP_SOCKET : Z := 0.
Definition NETS_OP_BIND : Z := 1.
Definition NETS_OP_SENDTO : Z := 2.
Definition NETS_OP_RECVFROM : Z := 3.
Definition NETS_OP_CLOSE : Z := 4.
Definition NETS_OP_TSOCKET : Z := 5.
Definition NETS_OP_TBIND : Z := 6.
Definition NETS_OP_TCONNECT : Z := 7.
Definition NETS_OP_TSEND : Z := 8.
Definition NETS_OP_TRECV : Z := 9.
Definition NETS_OP_TCLOSE : Z := 10.
Definition NETS_OP_TLISTEN : Z := 11.
Definition NETS_OP_TACCEPT : Z := 12.
Definition NETS_OP_SENDTO6 : Z := 13.
Definition NETS_OP_NETINFO : Z := 14.
Definition NETS_OP_PING4 : Z := 15.
Definition NETS_OP_PING6 : Z := 16.
Definition PING_TIMEOUT_MS : Z := 1000.

Record Link : Type := mk_link {
  l_domain : Z;
  l_io : Z;
  l_kind : Z;
  l_mac : Z;
  gw_mac : option (list Z);
  up : bool;
  v6_global : list Z;
  v6_gw : list Z;
  gw6_mac : option (list Z);
  v6_up : bool
}.
Definition Link_down (domain io kind : Z) : Link :=
  mk_link domain io kind 0 None false (replicate 16 0) (replicate 16 0) None false.
Definition set_gw_mac (g : option (list Z)) (l : Link) : Link :=
  mk_link (l_domain l) (l_io l) (l_kind l) (l_mac l) g (up l) (v6_global l) (v6_gw l) (gw6_mac l) (v6_up l).
Definition set_gw6_mac (g : option (list Z)) (l : Link) : Link :=
  mk_link (l_domain l) (l_io l) (l_kind l) (l_mac l) (gw_mac l) (up l) (v6_global l) (v6_gw l) g (v6_up l).
Definition set_v6 (global gw : list Z) (l : Link) : Link :=
  mk_link (l_domain l) (l_io l) (l_kind l) (l_mac l) (gw_mac l) (up l) global gw (gw6_mac l) true.
Definition set_up (m : Z) (l : Link) : Link :=
  mk_link (l_domain l) (l_io l) (l_kind l) m (gw_mac l) true (v6_global l) (v6_gw l) (gw6_mac l) (v6_up l).

Record Sock : Type := mk_sock { k_used : bool; k_port : Z; k_nic : Z; k_len : Z; k_data : list Z }.
Definition Sock_new : Sock := mk_sock false 0 0 0 (replicate 1472 0).

Record Stack : Type := mk_stack { links : list Link; nics : Z; socks : list Sock; tcons : list TcpConn }.
Definition Stack_zeroed : Stack :=
  mk_stack (replicate 8 (Link_down 0 0 0)) 0 (replicate 4 Sock_new) (replicate 6 TcpConn_new).

Definition link_at (n : Z) (st : Stack) : Link := nth (Z.to_nat n) (links st) (Link_down 0 0 0).
Definition conn_at (i : nat) (st : Stack) : TcpConn := nth i (tcons st) TcpConn_new.
Definition sock_at (i : nat) (st : Stack) : Sock := nth i (socks st) Sock_new.
Definition set_link (n : Z) (l : Link) (st : Stack) : Stack :=
  mk_stack (<[Z.to_nat n := l]> (links st)) (nics st) (socks st) (tcons st).
Definition set_conn (i : nat) (c : TcpConn) (st : Stack) : Stack :=
  mk_stack (links st) (nics st) (socks st) (<[i := c]> (tcons st)).
Definition set_sock (i : nat) (s : Sock) (st : Stack) : Stack :=
  mk_stack (links st) (nics st) (<[i := s]> (socks st)) (tcons st).

(** An application's request, and the layout of one link in the answer to [NETS_OP_NETINFO]. *)
Record NetSReq : Type := mk_req { r_op : Z; r_sock : Z; r_port : Z; r_addr : Z; r_len : Z; r_buf : Z }.
Definition NetSReq_decode (payload : list Z) : NetSReq :=
  mk_req (field 0 8 payload) (field 8 8 payload) (field 16 8 payload) (field 24 8 payload) (field 32 8 payload) (field 40 8 payload).

(** What the service uses of the rest of the system: a call to a driver ([sys_call_payload]), the
    owner of a port and the page tables as the kernel reports them, getting and sharing a page, and
    sleeping, during which the other domains run. The drivers and the applications share pages with the service. *)
Class NetEnv (D : Type) : Type := {
  sys_call_payload : Z -> Z -> list Z -> D -> mem -> Z * D * mem;
  sys_net_owner : D -> Z -> Z;
  sys_virt_to_phys : D -> Z -> Z;
  sys_sleep : Z -> D -> mem -> D * mem;
  sys_alloc_page : Z -> D -> mem -> Z * D * mem;
  sys_share_page : Z -> Z -> D -> mem -> Z * D * mem
}.

Section stack.
Context {D : Type} `{env : NetEnv D}.

Record world : Type := mk_world { w_st : Stack; w_mem : mem; w_dev : D }.
Definition on_st (f : Stack -> Stack) (w : world) : world := mk_world (f (w_st w)) (w_mem w) (w_dev w).
Definition on_mem (f : mem -> mem) (w : world) : world := mk_world (w_st w) (f (w_mem w)) (w_dev w).
Definition set_mem (m : mem) (w : world) : world := mk_world (w_st w) m (w_dev w).
Definition w_link (n : Z) (w : world) : Link := link_at n (w_st w).
Definition sleep (ms : Z) (w : world) : world :=
  let '(d, m) := sys_sleep ms (w_dev w) (w_mem w) in mk_world (w_st w) m d.

(** ** Links *)

Definition link_call (l : Link) (op len : Z) (w : world) : Z * world :=
  let req := to_le 8 op ++ to_le 8 len ++ to_le 8 (l_io l) in
  let '(r, d, m) := sys_call_payload (l_domain l) NET_REQ_TAG req (w_dev w) (w_mem w) in
  (r, mk_world (w_st w) m d).
Definition link_tx (l : Link) (len : Z) (w : world) : bool * world :=
  let '(r, w) := link_call l NET_OP_TX len w in (r =? 1, w).
Definition link_rx (l : Link) (w : world) : option Z * world :=
  let '(r, w) := link_call l NET_OP_RX 0 w in
  (if (r =? 0) || (r =? U64_MAX) then None else Some r, w).

(** A builder puts a frame into the page of the link. *)
Definition build (f : mem -> Z * mem) (w : world) : Z * world :=
  let '(len, m) := f (w_mem w) in (len, set_mem m w).
(** Build a frame and send it; the answer to the application. *)
Definition send_frame (l : Link) (f : mem -> Z * mem) (w : world) : Z * world :=
  let '(len, w) := build f w in
  let '(ok, w) := link_tx l len w in
  (if ok : bool then 1 else 0, w).

Definition link_v6_primary (st : Stack) (n : Z) : list Z :=
  let l := link_at n st in
  if v6_up l && negb (v6_is_zero (v6_global l)) then v6_global l else link_local_from_mac (mac_bytes (l_mac l)).

(** ** Delivery to UDP sockets *)

Definition sock_takes (n dport len : Z) (s : Sock) : bool :=
  k_used s && (k_nic s =? n) && (k_port s =? dport) && (len <=? PAY_MAX).
Definition deliver (n dport src_va len : Z) (w : world) : bool * world :=
  match position (sock_takes n dport len) (socks (w_st w)) with
  | Some i =>
      let s := sock_at i (w_st w) in
      let data := slice_at src_va (Z.to_nat len) (w_mem w) in
      (true, on_st (set_sock i (mk_sock (k_used s) (k_port s) (k_nic s) len (copy_front data (k_data s)))) w)
  | None => (false, w)
  end.

(** ** TCP input, loopback, timer *)

Definition SrcId : Type := (list Z + list Z)%type.

Definition tcp_match (c : TcpConn) (n : Z) (src : SrcId) (seg : TcpSeg) : bool :=
  if negb (used c) || negb (nic c =? n) || negb (local_port c =? dport seg) || negb (remote_port c =? sport seg) then false
  else match src with
       | inl a => (family c =? 4) && bool_decide (remote_ip c = a)
       | inr a => (family c =? 6) && v6_eq (remote6 c) a
       end.
Definition listens (n port : Z) (c : TcpConn) : bool :=
  used c && (role c =? TCP_ROLE_LISTENER) && bool_decide (state c = Listen) && (nic c =? n) && (local_port c =? port).
Definition free_slot (c : TcpConn) : bool := negb (used c).

Definition tcp_input (n : Z) (src : SrcId) (seg : TcpSeg) (now : Z) (w : world) : Z * world :=
  let st := w_st w in
  let io := l_io (link_at n st) in
  match position (fun c => tcp_match c n src seg) (tcons st) with
  | None =>
      if negb (has (flags seg) TCP_SYN) then (0, w)
      else match position (listens n (dport seg)) (tcons st) with
           | None => (0, w)
           | Some _ =>
               match position free_slot (tcons st) with
               | None => (0, w)
               | Some si =>
                   let l := link_at n st in
                   let dm := match src with
                             | inl _ => default (replicate 6 0) (gw_mac l)
                             | inr _ => default (default (replicate 6 0) (gw_mac l)) (gw6_mac l)
                             end in
                   let '(c, s) := server_conn n (l_mac l) dm src (link_v6_primary st n) seg (Z.of_nat si) now in
                   let '(len, m) := tcp_seg c io s (w_mem w) in
                   (len, mk_world (set_conn si c st) m (w_dev w))
               end
           end
  | Some idx =>
      let '(c, len, m) := tcp_handle (conn_at idx st) io seg now (w_mem w) in
      (len, mk_world (set_conn idx c st) m (w_dev w))
  end.

Fixpoint lo_pump_loop (guard : nat) (n len now : Z) (w : world) : world :=
  match guard with
  | O => w
  | S g =>
      if 0 <? len then
        match ipv4_parse (w_mem w) (l_io (w_link n w)) len with
        | None => w
        | Some info =>
            match tcp_parse (w_mem w) info with
            | None => w
            | Some seg => let '(len, w) := tcp_input n (inl (src4 info)) seg now w in lo_pump_loop g n len now w
            end
        end
      else w
  end.
Definition lo_pump (n len now : Z) (w : world) : world := lo_pump_loop 32 n len now w.

Definition tcp_emit_deliver (n len now : Z) (w : world) : world :=
  if len =? 0 then w
  else
    let local := match ipv4_parse (w_mem w) (l_io (w_link n w)) len with
                 | Some info => bool_decide (dst4 info = OUR_IP)
                 | None => false
                 end in
    if local then lo_pump n len now w else (link_tx (w_link n w) len w).2.

(** Run an operation of the connection's state machine on slot [i]. *)
Definition on_conn (i : nat) (f : TcpConn -> Z -> mem -> TcpConn * Z * mem) (w : world) : Z * world :=
  let c := conn_at i (w_st w) in
  let '(c', len, m) := f c (l_io (w_link (nic c) w)) (w_mem w) in
  (len, mk_world (set_conn i c' (w_st w)) m (w_dev w)).

Fixpoint tick_loop (i fuel : nat) (now : Z) (w : world) : world :=
  match fuel with
  | O => w
  | S f =>
      let c := conn_at i (w_st w) in
      let w := if used c && negb (bool_decide (state c = Closed)) then
                 let '(len, w) := on_conn i (fun c io => tcp_tick c io now) w in tcp_emit_deliver (nic c) len now w
               else w in
      tick_loop (S i) f now w
  end.
Definition tcp_tick_all (now : Z) (w : world) : world := tick_loop 0 (Z.to_nat MAX_TCONS) now w.

(** ** Received frames *)

Definition is_ours6 (n : Z) (a : list Z) (st : Stack) : bool :=
  let l := link_at n st in v6_eq a (link_local_from_mac (mac_bytes (l_mac l))) || v6_eq a (v6_global l).

Definition icmpv6_input (n io len : Z) (w : world) : Z * world :=
  let m := w_mem w in
  let l := w_link n w in
  if len <? 14 + 40 then (0, w)
  else
    let ip := io + 14 in
    if negb (Z.shiftr (rd8 m ip) 4 =? 6) || negb (rd8 m (ip + 6) =? IP6_PROTO_ICMPV6) then (0, w)
    else
      let plen := rd16be m (ip + 4) in
      if (plen <? 4) || (len <? 14 + 40 + plen) then (0, w)
      else
        let src := get_v6 m (ip + 8) in
        let ic := ip + 40 in
        let mac := mac_bytes (l_mac l) in
        let type := rd8 m ic in
        if type =? ICMPV6_RA then
          let prefix := match first_opt m ic plen 3 with
                        | Some (o, ol) => if 32 <=? ol then get_v6 m (o + 16) else replicate 16 0
                        | None => replicate 16 0
                        end in
          (0, if v6_is_zero prefix then w
              else on_st (set_link n (set_gw6_mac ((fun o => opt_mac m (fst o)) <$> first_opt m ic plen 1)
                                        (set_v6 (global_from_prefix prefix mac) src l))) w)
        else if type =? ICMPV6_NS then
          let target := get_v6 m (ic + 8) in
          if is_ours6 n target (w_st w) then
            let dst_mac := match first_opt m ic plen 1 with Some (o, _) => opt_mac m o | None => mac end in
            build (build_na io mac target src dst_mac target) w
          else (0, w)
        else if type =? ICMPV6_NA then
          (0, if v6_eq src (v6_gw l) then
                match first_opt m ic plen 2 with
                | Some (o, _) => on_st (set_link n (set_gw6_mac (Some (opt_mac m o)) l)) w
                | None => w
                end
              else w)
        else if type =? ICMPV6_ECHO_REQ then
          if is_ours6 n (get_v6 m (ip + 24)) (w_st w) then build (echo6_reply io mac plen) w else (0, w)
        else (0, w).

Definition udp6_input (n io : Z) (info : Ipv6Info) (w : world) : Z * world :=
  if payload_len6 info <? 8 then (0, w)
  else
    let udp := payload_off6 info in
    let ulen := rd16be (w_mem w) (udp + 4) in
    if (ulen <? 8) || (payload_len6 info <? ulen) then (0, w)
    else if negb (udp6_csum (src6 info) (dst6 info) (w_mem w) udp ulen =? 0) then (0, w)
    else if negb (is_ours6 n (dst6 info) (w_st w)) then (0, w)
    else
      let '(ok, w) := deliver n (rd16be (w_mem w) (udp + 2)) (udp + 8) (ulen - 8) w in
      if ok : bool then (0, w) else build (icmpv6_port_unreach (l_mac (w_link n w)) io info) w.

Definition ipv6_input (n io len now : Z) (w : world) : Z * world :=
  match ipv6_parse (w_mem w) io len with
  | None => (0, w)
  | Some info =>
      if next6 info =? IP6_PROTO_ICMPV6 then icmpv6_input n io len w
      else if next6 info =? IP_PROTO_UDP then udp6_input n io info w
      else if next6 info =? IP_PROTO_TCP then
        match tcp_parse6 (w_mem w) info with
        | Some seg => let '(len, w) := tcp_input n (inr (src6 info)) seg now w in (0, tcp_emit_deliver n len now w)
        | None => (0, w)
        end
      else (0, w)
  end.

Definition handle_arp (n f len : Z) (w : world) : world :=
  let m := w_mem w in
  if (42 <=? len) && (rd16be m (f + 20) =? 2) && bool_decide (get_ip4 m (f + 28) = GW_IP)
  then on_st (set_link n (set_gw_mac (Some (get_mac m (f + 22))) (w_link n w))) w else w.

Definition handle_ip4 (n f len now : Z) (w : world) : world :=
  let m := w_mem w in
  let ip := f + 14 in
  if negb (Z.shiftr (rd8 m ip) 4 =? 4) then w
  else
    let ihl := Z.land (rd8 m ip) 0x0f * 4 in
    if (ihl <? 20) || (len <? 14 + ihl) then w
    else
      let proto := rd8 m (ip + 9) in
      if proto =? IP_PROTO_TCP then
        match ipv4_parse m f len with
        | Some info =>
            match tcp_parse m info with
            | Some seg => let '(len, w) := tcp_input n (inl (src4 info)) seg now w in tcp_emit_deliver n len now w
            | None => w
            end
        | None => w
        end
      else if proto =? IP_PROTO_ICMP then w
      else if (proto =? IP_PROTO_UDP) && bool_decide (get_ip4 m (ip + 16) = OUR_IP) then
        let udp := ip + ihl in
        let ulen := rd16be m (udp + 4) in
        if (8 <=? ulen) && (14 + ihl + ulen <=? len) then (deliver n (rd16be m (udp + 2)) (udp + 8) (ulen - 8) w).2 else w
      else w.

Definition handle_frame (n len now : Z) (w : world) : world :=
  if len <? 14 then w
  else
    let f := l_io (w_link n w) in
    let et := rd16be (w_mem w) (f + 12) in
    if et =? ETH_ARP then handle_arp n f len w
    else if et =? ETH_IPV6 then
      let '(out, w) := ipv6_input n f len now w in
      if 0 <? out then (link_tx (w_link n w) out w).2 else w
    else if negb (et =? ETH_IPV4) || (len <? 34) then w
    else handle_ip4 n f len now w.

(** Learn the MAC address of the gateway: 40 rounds, five polls each. *)
Fixpoint arp_poll (k : nat) (n : Z) (w : world) : world :=
  match k with
  | O => w
  | S k =>
      let '(o, w) := link_rx (w_link n w) w in
      let w := match o with Some len => handle_frame n len 0 w | None => w end in
      arp_poll k n (sleep 10 w)
  end.
Fixpoint arp_rounds (tries : nat) (n : Z) (w : world) : world :=
  match tries with
  | O => w
  | S k =>
      match gw_mac (w_link n w) with
      | Some _ => w
      | None =>
          let l := w_link n w in
          let '(len, w) := build (build_arp_request (l_io l) (l_mac l) GW_IP) w in
          let '(_, w) := link_tx (w_link n w) len w in
          arp_rounds k n (arp_poll 5 n w)
      end
  end.
Definition arp_learn_gw (n : Z) (w : world) : world := arp_rounds 40 n w.

(** ** UDP sockets *)

Definition sock_alloc (n : Z) (w : world) : Z * world :=
  match position (fun s => negb (k_used s)) (socks (w_st w)) with
  | Some i => (Z.of_nat i + 1, on_st (set_sock i (mk_sock true 0 n 0 (k_data Sock_new))) w)
  | None => (0, w)
  end.
Definition sock_slot (id : Z) (st : Stack) : option nat :=
  if (id =? 0) || (MAX_SOCKS <? id) then None
  else let i := Z.to_nat (id - 1) in if k_used (sock_at i st) then Some i else None.
Definition sock_bind (id port from : Z) (w : world) : Z * world :=
  if negb (sys_net_owner (w_dev w) port =? from) then (0, w)
  else match sock_slot id (w_st w) with
       | Some i =>
           let s := sock_at i (w_st w) in
           if k_port s =? 0 then (1, on_st (set_sock i (mk_sock (k_used s) port (k_nic s) (k_len s) (k_data s))) w) else (0, w)
       | None => (0, w)
       end.
(** Out through the gateway, if its address is known. *)
Definition udp4_out (n : Z) (dst : list Z) (sport dport buf len : Z) (w : world) : Z * world :=
  let l := w_link n w in
  match gw_mac l with
  | Some gm => send_frame l (build_udp (l_io l) (l_mac l) gm dst sport dport buf len) w
  | None => (0, w)
  end.
Definition sock_sendto (req : NetSReq) (w : world) : Z * world :=
  if (r_buf req =? 0) || (r_len req =? 0) || (PAY_MAX <? r_len req) || (sys_virt_to_phys (w_dev w) (r_buf req) =? 0) then (0, w)
  else match sock_slot (r_sock req) (w_st w) with
       | None => (0, w)
       | Some i =>
           let s := sock_at i (w_st w) in
           let n := k_nic s in
           if (nics (w_st w) <=? n) || negb (up (w_link n w)) then (0, w)
           else
             let dst := unpack_ip4 (r_addr req) in
             let dport := w16 (r_port req) in
             if bool_decide (dst = OUR_IP) then (1, (deliver n dport (r_buf req) (r_len req) w).2)
             else udp4_out n dst (k_port s) dport (r_buf req) (r_len req) w
       end.
Definition sock_sendto6 (req : NetSReq) (w : world) : Z * world :=
  if (r_buf req =? 0) || (PAY_MAX <? r_len req) || (sys_virt_to_phys (w_dev w) (r_buf req) =? 0) then (0, w)
  else match sock_slot (r_sock req) (w_st w) with
       | None => (0, w)
       | Some i =>
           let s := sock_at i (w_st w) in
           let n := k_nic s in
           let l := w_link n w in
           if (nics (w_st w) <=? n) || negb (up l) then (0, w)
           else
             let dst6 := get_v6 (w_mem w) (r_buf req) in
             let dport := w16 (r_port req) in
             let pl := r_buf req + 16 in
             match v4_mapped dst6 with
             | Some v4 =>
                 if bool_decide (v4 = OUR_IP) then (1, (deliver n dport pl (r_len req) w).2)
                 else udp4_out n v4 (k_port s) dport pl (r_len req) w
             | None =>
                 if v6_is_loopback dst6 || is_ours6 n dst6 (w_st w) then (1, (deliver n dport pl (r_len req) w).2)
                 else match gw6_mac l with
                      | Some gm =>
                          send_frame l (build_udp6 (l_io l) (mac_bytes (l_mac l)) gm (link_v6_primary (w_st w) n) dst6
                                          (k_port s) dport pl (r_len req)) w
                      | None => (0, w)
                      end
             end
       end.
Definition sock_recvfrom (req : NetSReq) (w : world) : Z * world :=
  if (r_buf req =? 0) || (sys_virt_to_phys (w_dev w) (r_buf req) =? 0) then (0, w)
  else match sock_slot (r_sock req) (w_st w) with
       | None => (0, w)
       | Some i =>
           let s := sock_at i (w_st w) in
           if 0 <? k_len s then
             (k_len s, on_st (set_sock i (mk_sock (k_used s) (k_port s) (k_nic s) 0 (k_data s)))
                         (on_mem (copy_to (r_buf req) (take (Z.to_nat (k_len s)) (k_data s))) w))
           else (0, w)
       end.
Definition sock_close (id : Z) (w : world) : Z * world :=
  if (id =? 0) || (MAX_SOCKS <? id) then (0, w) else (1, on_st (set_sock (Z.to_nat (id - 1)) Sock_new) w).

(** ** TCP operations of the applications *)

Definition tcp_open (n from : Z) (w : world) : Z * world :=
  if nics (w_st w) <=? n then (0, w)
  else match position free_slot (tcons (w_st w)) with
       | Some i => (Z.of_nat i + 1, on_st (set_conn i (set_owner true from TCP_ROLE_CLIENT n 0 false TcpConn_new)) w)
       | None => (0, w)
       end.
Definition tcp_listen_internal (n port from : Z) (w : world) : Z * world :=
  if (nics (w_st w) <=? n) || negb (sys_net_owner (w_dev w) port =? from) then (0, w)
  else match position free_slot (tcons (w_st w)) with
       | Some i =>
           let c := set_state Listen (set_owner true from TCP_ROLE_LISTENER n port false TcpConn_new) in
           let c := set_peer (l_mac (w_link n w)) (dst_mac c) (remote_ip c) (remote_port c) c in
           (Z.of_nat i + 1, on_st (set_conn i c) w)
       | None => (0, w)
       end.
Definition tcp_slot (id : Z) (st : Stack) : option nat :=
  if (id =? 0) || (MAX_TCONS <? id) then None
  else let i := Z.to_nat (id - 1) in if used (conn_at i st) then Some i else None.
Definition tcp_slot_owned (id from : Z) (st : Stack) : option nat :=
  match tcp_slot id st with
  | Some i => if owner (conn_at i st) =? from then Some i else None
  | None => None
  end.
Definition acceptable (port n : Z) (c : TcpConn) : bool :=
  used c && (role c =? TCP_ROLE_SERVER) && bool_decide (state c = Established) && negb (accepted c)
  && (local_port c =? port) && (nic c =? n).
Definition tcp_accept_internal (id from : Z) (w : world) : Z * world :=
  match tcp_slot id (w_st w) with
  | Some i =>
      let l := conn_at i (w_st w) in
      if (role l =? TCP_ROLE_LISTENER) && (owner l =? from) then
        match position (acceptable (local_port l) (nic l)) (tcons (w_st w)) with
        | Some k =>
            let c := conn_at k (w_st w) in
            (Z.of_nat k + 1, on_st (set_conn k (set_owner (used c) from (role c) (nic c) (local_port c) true c)) w)
        | None => (0, w)
        end
      else (0, w)
  | None => (0, w)
  end.
Definition tcp_bind (id port from : Z) (w : world) : Z * world :=
  if negb (sys_net_owner (w_dev w) port =? from) then (0, w)
  else match tcp_slot_owned id from (w_st w) with
       | Some i =>
           let c := conn_at i (w_st w) in
           if local_port c =? 0
           then (1, on_st (set_conn i (set_owner (used c) (owner c) (role c) (nic c) port (accepted c) c)) w) else (0, w)
       | None => (0, w)
       end.
(** Run an operation on a slot and send what it built. *)
Definition run_conn (i : nat) (f : TcpConn -> Z -> mem -> TcpConn * Z * mem) (now : Z) (w : world) : Z * world :=
  let n := nic (conn_at i (w_st w)) in
  let '(len, w) := on_conn i f w in
  (len, tcp_emit_deliver n len now w).
Definition tcp_connect_op (id addr port now from : Z) (w : world) : Z * world :=
  match tcp_slot_owned id from (w_st w) with
  | None => (0, w)
  | Some i =>
      let c := conn_at i (w_st w) in
      let l := w_link (nic c) w in
      match gw_mac l with
      | None => (0, w)
      | Some gm =>
          if (local_port c =? 0) || negb (bool_decide (state c = Closed)) then (0, w)
          else
            let isn := Z.lxor 0x4d4f0000 (w32 (w32 id * 0x01010101)) in
            let '(len, w) :=
              run_conn i (fun c io => tcp_connect (set_peer (l_mac l) gm (unpack_ip4 addr) (w16 port) c) io isn now) now w in
            (if 0 <? len then 1 else 0, w)
      end
  end.
Definition tcp_send_op (id buf len now from : Z) (w : world) : Z * world :=
  if (buf =? 0) || (len =? 0) || (TCP_MSS <? len) || (sys_virt_to_phys (w_dev w) buf =? 0) then (0, w)
  else match tcp_slot_owned id from (w_st w) with
       | None => (0, w)
       | Some i =>
           let payload := slice_at buf (Z.to_nat len) (w_mem w) in
           let '(fl, w) := run_conn i (fun c io => tcp_send c io payload now) now w in
           (if 0 <? fl then 1 else 0, w)
       end.
Definition tcp_recv_op (id buf from : Z) (w : world) : Z * world :=
  if (buf =? 0) || (sys_virt_to_phys (w_dev w) buf =? 0) then (0, w)
  else match tcp_slot_owned id from (w_st w) with
       | None => (0, w)
       | Some i =>
           let c := conn_at i (w_st w) in
           if 0 <? rx_len c
           then (rx_len c, on_st (set_conn i (recv_conn c).1) (on_mem (copy_to buf (recv_conn c).2) w))
           else (0, w)
       end.
Definition tcp_close_op (id now from : Z) (w : world) : Z * world :=
  match tcp_slot_owned id from (w_st w) with
  | None => (0, w)
  | Some i =>
      let '(fl, w) := run_conn i (fun c io => tcp_close c io now) now w in
      (1, if (fl =? 0) && negb (id =? 0) && (id <=? MAX_TCONS) then on_st (set_conn (Z.to_nat (id - 1)) TcpConn_new) w else w)
  end.

(** ** Link state and echo *)

Definition req_nic (req : NetSReq) (st : Stack) : Z := if r_sock req <? nics st then r_sock req else 0.

Definition flag (b : bool) : Z := if b then 1 else 0.
Definition link_info (i : Z) (l : Link) : list Z :=
  to_le 8 i ++ to_le 8 (l_kind l) ++ to_le 8 (flag (up l)) ++ to_le 8 (pack_ip4 OUR_IP) ++ to_le 8 (pack_ip4 GW_IP)
  ++ to_le 8 (l_mac l) ++ to_le 8 (flag (v6_up l)) ++ v6_global l ++ v6_gw l.
Fixpoint netinfo_loop (fuel : nat) (i count : Z) (req : NetSReq) (w : world) : Z * world :=
  match fuel with
  | O => (count, w)
  | S f =>
      if (r_sock req =? U64_MAX) || (i =? r_sock req)
      then netinfo_loop f (i + 1) (count + 1) req (on_mem (copy_to (r_buf req + count * 88) (link_info i (w_link i w))) w)
      else netinfo_loop f (i + 1) count req w
  end.
Definition sock_netinfo (req : NetSReq) (w : world) : Z * world := netinfo_loop (Z.to_nat (nics (w_st w))) 0 0 req w.

(** Waiting for an echo: every frame that is not the answer is handled as usual. The queue of the
    driver is emptied before the clock advances; [fuel] bounds the frames taken from it. *)
Fixpoint ping_drain (fuel : nat) (n now : Z) (answers : mem -> Z -> bool) (w : world) : option (bool * world) :=
  match fuel with
  | O => None
  | S f =>
      let '(o, w) := link_rx (w_link n w) w in
      match o with
      | None => Some (false, w)
      | Some len => if answers (w_mem w) len then Some (true, w) else ping_drain f n now answers (handle_frame n len now w)
      end
  end.
Fixpoint ping_wait (rounds fuel : nat) (n now : Z) (answers : mem -> Z -> bool) (w : world) : option (Z * world) :=
  match rounds with
  | O => Some (0, w)
  | S r =>
      '(got, w) ← ping_drain fuel n now answers w;
      if got : bool then Some (1, w) else ping_wait r fuel n now answers (sleep 5 w)
  end.
Definition ping_rounds : nat := Z.to_nat (PING_TIMEOUT_MS / 5).

(** A message [b"..."] of the program lies at an address of its own; [text] is that address. *)
Definition sock_ping4 (fuel : nat) (text : Z) (req : NetSReq) (now : Z) (w : world) : option (Z * world) :=
  let n := req_nic req (w_st w) in
  if negb (up (w_link n w)) then Some (0, w)
  else
    let dst := unpack_ip4 (r_addr req) in
    if bool_decide (dst = OUR_IP) then Some (1, w)
    else
      let w := match gw_mac (w_link n w) with None => arp_learn_gw n w | Some _ => w end in
      let l := w_link n w in
      match gw_mac l with
      | None => Some (0, w)
      | Some gw =>
          let '(ok, w) := send_frame l (build_echo4 (l_io l) (mac_bytes (l_mac l)) gw dst 0x4d4f 1 text 11) w in
          if ok =? 0 then Some (0, w)
          else ping_wait ping_rounds fuel n now (fun m len => is_echo_reply4 m (l_io l) len dst 0x4d4f 1) w
      end.
Definition is_echo_reply6 (m : mem) (io len : Z) (dst : list Z) (id seq : Z) : bool :=
  (rd16be m (io + 12) =? ETH_IPV6)
  && match ipv6_parse m io len with
     | Some info =>
         (next6 info =? IP6_PROTO_ICMPV6) && (rd8 m (payload_off6 info) =? ICMPV6_ECHO_REPLY)
         && (rd16be m (payload_off6 info + 4) =? id) && (rd16be m (payload_off6 info + 6) =? seq) && v6_eq (src6 info) dst
     | None => false
     end.
Definition sock_ping6 (fuel : nat) (text : Z) (req : NetSReq) (now : Z) (w : world) : option (Z * world) :=
  let n := req_nic req (w_st w) in
  let l := w_link n w in
  if negb (up l) || negb (v6_up l) then Some (0, w)
  else
    let dst := get_v6 (w_mem w) (r_buf req) in
    let mac := mac_bytes (l_mac l) in
    let link_local := (nth 0 dst 0 =? 0xfe) && (Z.land (nth 1 dst 0) 0xc0 =? 0x80) in
    let src := if link_local then link_local_from_mac mac else link_v6_primary (w_st w) n in
    if v6_eq dst src then Some (1, w)
    else match gw6_mac l with
         | None => Some (0, w)
         | Some gm =>
             if link_local && negb (v6_eq dst (v6_gw l)) then Some (0, w)
             else
               let '(ok, w) := send_frame l (build_echo6 (l_io l) mac gm src dst 0x4d4f 1 text 12) w in
               if ok =? 0 then Some (0, w)
               else ping_wait ping_rounds fuel n now (fun m len => is_echo_reply6 m (l_io l) len dst 0x4d4f 1) w
         end.

(** ** Requests *)

Record Message : Type := mk_msg { m_from : Z; m_tag : Z; m_payload : list Z }.

Definition serve_req (fuel : nat) (text : Z) (from : Z) (req : NetSReq) (now : Z) (w : world) : option (Z * world) :=
  let op := r_op req in
  if op =? NETS_OP_SOCKET then
    Some (if r_sock req <? nics (w_st w) then sock_alloc (r_sock req) w else (0, w))
  else if op =? NETS_OP_BIND then Some (sock_bind (r_sock req) (w16 (r_port req)) from w)
  else if op =? NETS_OP_SENDTO then Some (sock_sendto req w)
  else if op =? NETS_OP_SENDTO6 then Some (sock_sendto6 req w)
  else if op =? NETS_OP_RECVFROM then Some (sock_recvfrom req w)
  else if op =? NETS_OP_CLOSE then Some (sock_close (r_sock req) w)
  else if op =? NETS_OP_TSOCKET then Some (tcp_open (r_sock req) from w)
  else if op =? NETS_OP_TBIND then Some (tcp_bind (r_sock req) (w16 (r_port req)) from w)
  else if op =? NETS_OP_TCONNECT then Some (tcp_connect_op (r_sock req) (r_addr req) (r_port req) now from w)
  else if op =? NETS_OP_TSEND then Some (tcp_send_op (r_sock req) (r_buf req) (r_len req) now from w)
  else if op =? NETS_OP_TRECV then Some (tcp_recv_op (r_sock req) (r_buf req) from w)
  else if op =? NETS_OP_TCLOSE then Some (tcp_close_op (r_sock req) now from w)
  else if op =? NETS_OP_TLISTEN then Some (tcp_listen_internal (r_sock req) (w16 (r_port req)) from w)
  else if op =? NETS_OP_TACCEPT then Some (tcp_accept_internal (r_sock req) from w)
  else if op =? NETS_OP_NETINFO then Some (sock_netinfo req w)
  else if op =? NETS_OP_PING4 then sock_ping4 fuel text req now w
  else if op =? NETS_OP_PING6 then sock_ping6 fuel text req now w
  else Some (0, w).
Definition serve_msg (fuel : nat) (text : Z) (msg : Message) (now : Z) (w : world) : option (Z * world) :=
  if negb (m_tag msg =? NETS_REQ_TAG) then Some (0, w)
  else serve_req fuel text (m_from msg) (NetSReq_decode (m_payload msg)) now w.

(** ** The main loop: frames of one link, one turn *)

Fixpoint rx_loop (k : nat) (n now : Z) (w : world) : world :=
  match k with
  | O => w
  | S k =>
      let '(o, w) := link_rx (w_link n w) w in
      match o with Some len => rx_loop k n now (handle_frame n len now w) | None => w end
  end.
Fixpoint rx_links (fuel : nat) (n now : Z) (w : world) : world :=
  match fuel with
  | O => w
  | S f =>
      let w := if (n <? nics (w_st w)) && up (w_link n w) then rx_loop 8 n now w else w in
      rx_links f (n + 1) now w
  end.
(** What the loop does after it has served the waiting requests. *)
Definition turn_rest (now : Z) (w : world) : world :=
  sleep 10 (tcp_tick_all now (rx_links (Z.to_nat (nics (w_st w))) 0 now w)).

(** ** Start *)

Definition sys_page (f : D -> mem -> Z * D * mem) (w : world) : bool * world :=
  let '(r, d, m) := f (w_dev w) (w_mem w) in (r =? 1, mk_world (w_st w) m d).

(** One link and one shared page per entry of the kernel's table; [None] when the service gives up. *)
Fixpoint share_links (fuel : nat) (i : Z) (es : list NicEntry) (w : world) : option world :=
  match fuel with
  | O => Some w
  | S f =>
      let e := nth (Z.to_nat i) es (mk_nic 0 0 0) in
      let w := on_st (set_link i (Link_down (nic_domain e) (io_vaddr e) (nic_kind e))) w in
      let '(ok, w) := sys_page (sys_alloc_page (io_vaddr e)) w in
      if negb ok then None
      else
        let '(ok, w) := sys_page (sys_share_page (io_vaddr e) (nic_domain e)) w in
        if negb ok then None else share_links f (i + 1) es w
  end.
Fixpoint mac_probe (t : nat) (many : bool) (l : Link) (w : world) : Z * world :=
  match t with
  | O => (0, w)
  | S t =>
      let '(mac, w) := link_call l NET_OP_INFO 0 w in
      if negb (mac =? 0) then (mac, w) else mac_probe t many l (if many then sleep 50 w else w)
  end.
Fixpoint bring_up (fuel : nat) (i : Z) (w : world) : option world :=
  match fuel with
  | O => Some w
  | S f =>
      let many := i =? 0 in
      let '(mac, w) := mac_probe (if many then 200 else 1) many (w_link i w) w in
      if mac =? 0 then if i =? 0 then None else bring_up f (i + 1) w
      else bring_up f (i + 1) (arp_learn_gw i (on_st (set_link i (set_up mac (w_link i w))) w))
  end.
Fixpoint ra_wait (tries : nat) (n : Z) (w : world) : world :=
  match tries with
  | O => w
  | S t =>
      if v6_up (w_link n w) then w
      else
        let '(o, w) := link_rx (w_link n w) w in
        let io := l_io (w_link n w) in
        let w := match o with
                 | Some len => if rd16be (w_mem w) (io + 12) =? ETH_IPV6 then (icmpv6_input n io len w).2 else w
                 | None => w
                 end in
        ra_wait t n (sleep 10 w)
  end.
Definition ipv6_probe (n : Z) (w : world) : world :=
  let l := w_link n w in
  let '(len, w) := build (build_rs (l_io l) (l_mac l)) w in
  ra_wait 40 n (link_tx (w_link n w) len w).2.
(** The service without its self-tests, up to the main loop. *)
Definition start_service (tbl : NicTable) (m : mem) (d : D) : option world :=
  let st := Stack_zeroed in
  if negb (magic tbl =? NIC_TABLE_MAGIC) then None
  else
    let count := Z.min (nic_count tbl) NIC_MAX in
    if count =? 0 then None
    else
      let st := mk_stack (links st) count (socks st) (tcons st) in
      w ← share_links (Z.to_nat count) 0 (entries tbl) (mk_world st m d);
      w ← bring_up (Z.to_nat count) 0 w;
      Some (ipv6_probe 0 w).

End stack.
Arguments world : clear implicits.
