(* ===== verification/NetInv.v ===== *)
(** * NetInv: the state of the network service stays well formed (src/user/srv/src/netstack_srv.rs)

    Every request of an application, every received frame and every timer event keeps the tables of
    the service well formed: integers within their width, indices within their tables, buffers of
    their size, and every bound connection in the hands of the domain that the kernel lists as the
    owner of its port. A request on a connection of another domain does nothing. *)

From S2P Require Import Prelude Cap Net Bytes NetWire NetTcp NetStack.

(** ** Memory holds bytes *)

Definition mem_ok (m : mem) : Prop := forall a, is_byte (m a).

Lemma wr8_ok a v m : is_byte v -> mem_ok m -> mem_ok (wr8 a v m).
Proof. intros Hv Hm x. unfold wr8, write_byte. destruct (x =? a); [exact Hv|apply Hm]. Qed.
Lemma w8_is_byte v : is_byte (w8 v).
Proof. apply Z.mod_pos_bound. lia. Qed.
Lemma wr16be_ok a v m : mem_ok m -> mem_ok (wr16be a v m).
Proof. intros Hm. apply wr8_ok; [apply w8_is_byte|]. apply wr8_ok; [apply w8_is_byte|exact Hm]. Qed.
Lemma wr32be_ok a v m : mem_ok m -> mem_ok (wr32be a v m).
Proof. intros Hm. by apply wr16be_ok, wr16be_ok. Qed.
Lemma put_bytes_ok a l m : bytes l -> mem_ok m -> mem_ok (put_bytes a l m).
Proof. intros Hl. revert a m. induction Hl as [|b l Hb Hl IH]; intros a m Hm; [exact Hm|]. apply IH. by apply wr8_ok. Qed.
Lemma copy_to_ok a l m : bytes l -> mem_ok m -> mem_ok (copy_to a l m).
Proof. intros Hl Hm x. rewrite <- put_bytes_copy. by apply put_bytes_ok. Qed.
Lemma put_ips_ok a src dst m : bytes src -> bytes dst -> mem_ok m -> mem_ok (put_ips a src dst m).
Proof.
  intros Hs. revert a dst m. induction Hs as [|s src Hs' Hs IH]; intros a [|d dst] m Hd Hm; cbn [put_ips]; try exact Hm.
  apply Forall_cons in Hd as [Hd1 Hd]. apply IH; [exact Hd|]. apply wr8_ok; [exact Hd1|]. by apply wr8_ok.
Qed.
Lemma slice_bytes p n m : mem_ok m -> bytes (slice_at p n m).
Proof. intros Hm. apply Forall_fmap, Forall_forall. intros a _. apply Hm. Qed.
Lemma get_v6_bytes p m : mem_ok m -> bytes (get_v6 m p).
Proof. intros Hm. apply Forall_fmap, Forall_forall. intros a _. apply Hm. Qed.
Lemma get_mac_bytes p m : mem_ok m -> bytes (get_mac m p).
Proof. intros Hm. apply Forall_fmap, Forall_forall. intros a _. apply Hm. Qed.
Lemma get_ip4_bytes p m : mem_ok m -> bytes (get_ip4 m p).
Proof. intros Hm. apply Forall_fmap, Forall_forall. intros a _. apply Hm. Qed.
Lemma mac_bytes_bytes a : bytes (mac_bytes a).
Proof. apply Forall_take, to_le_bytes. Qed.
Lemma nth_byte i l : bytes l -> is_byte (nth i l 0).
Proof.
  intros Hl. destruct (decide (i < length l)%nat) as [Hi|Hi]; [|rewrite nth_overflow by lia; unfold is_byte; lia].
  apply (proj1 (Forall_forall _ _) Hl), list_elem_of_In, nth_In. exact Hi.
Qed.
Lemma lxor_byte a b : is_byte a -> is_byte b -> is_byte (Z.lxor a b).
Proof.
  unfold is_byte. intros Ha Hb. split; [apply Z.lxor_nonneg; lia|].
  destruct (decide (Z.lxor a b = 0)) as [->|Hn]; [lia|]. apply (Z.log2_lt_pow2 _ 8); [assert (0 <= Z.lxor a b) by (apply Z.lxor_nonneg; lia); lia|].
  eapply Z.le_lt_trans; [apply Z.log2_lxor; lia|].
  apply Z.max_lub_lt; (destruct (decide (0 < a)), (decide (0 < b));
    try (apply Z.log2_lt_pow2; lia); rewrite ?(Z.log2_nonpos a), ?(Z.log2_nonpos b) by lia; lia).
Qed.

(** A list of bytes written out. *)
Ltac bytes_list :=
  repeat (apply Forall_cons; split); try apply Forall_nil_2; try (apply lxor_byte); try (apply nth_byte; assumption); try (unfold is_byte; lia).

Lemma eui64_bytes l : bytes l -> bytes (eui64_iid l).
Proof. intros Hl. unfold eui64_iid, bytes. bytes_list. Qed.
Lemma link_local_bytes l : bytes l -> bytes (link_local_from_mac l).
Proof. intros Hl. unfold link_local_from_mac, bytes. bytes_list. Qed.
Lemma global_bytes p l : bytes p -> bytes l -> bytes (global_from_prefix p l).
Proof. intros Hp Hl. apply Forall_app. split; [by apply Forall_take|by apply eui64_bytes]. Qed.
Lemma zeros_bytes n : bytes (replicate n 0).
Proof. apply Forall_replicate. unfold is_byte. lia. Qed.
Lemma ffs_bytes n : bytes (replicate n 0xff).
Proof. apply Forall_replicate. unfold is_byte. lia. Qed.
Lemma unpack_bytes v : bytes (unpack_ip4 v).
Proof. repeat constructor; apply w8_is_byte. Qed.
Lemma our_ip_bytes : bytes OUR_IP.
Proof. unfold OUR_IP, bytes. bytes_list. Qed.
Lemma gw_ip_bytes : bytes GW_IP.
Proof. unfold GW_IP, bytes. bytes_list. Qed.

Create HintDb memok.
#[export] Hint Resolve wr8_ok wr16be_ok wr32be_ok put_bytes_ok copy_to_ok put_ips_ok slice_bytes get_v6_bytes get_mac_bytes
  get_ip4_bytes mac_bytes_bytes link_local_bytes global_bytes zeros_bytes ffs_bytes unpack_bytes nth_byte w8_is_byte : memok.
#[export] Hint Resolve our_ip_bytes gw_ip_bytes : memok.
#[export] Hint Extern 1 (is_byte _) => (unfold is_byte; vm_compute; split; congruence) : memok.

Lemma eth_header_ok io a b t m : bytes a -> bytes b -> mem_ok m -> mem_ok (eth_header io a b t m).
Proof. intros. unfold eth_header, put_mac. auto with memok. Qed.
Lemma ip4_header_ok ip total proto src dst m : is_byte proto -> bytes src -> bytes dst -> mem_ok m -> mem_ok (ip4_header ip total proto src dst m).
Proof. intros. unfold ip4_header. auto 12 with memok. Qed.
Lemma ip6_header_ok ip plen next hop src dst m :
  is_byte next -> is_byte hop -> bytes src -> bytes dst -> mem_ok m -> mem_ok (ip6_header ip plen next hop src dst m).
Proof. intros. unfold ip6_header, put_v6. auto 12 with memok. Qed.
Lemma tcp_header_ok tcp sport dport seq ack flags window payload m :
  is_byte flags -> bytes payload -> mem_ok m -> mem_ok (tcp_header tcp sport dport seq ack flags window payload m).
Proof. intros. unfold tcp_header. auto 15 with memok. Qed.
Lemma icmp6_head_ok ic t c m : is_byte t -> is_byte c -> mem_ok m -> mem_ok (icmp6_head ic t c m).
Proof. intros. unfold icmp6_head. auto with memok. Qed.
#[export] Hint Resolve eth_header_ok ip4_header_ok ip6_header_ok tcp_header_ok icmp6_head_ok : memok.

Ltac builds := intros; unfold icmp6_seal, put_mac, put_v6; cbn [fst snd]; auto 25 with memok.

Lemma build_udp_ok io mac gm dst sp dp va n m : bytes gm -> bytes dst -> mem_ok m -> mem_ok (build_udp io mac gm dst sp dp va n m).2.
Proof. unfold build_udp. builds. Qed.
Lemma build_udp6_ok io mac gm src dst sp dp va n m :
  bytes mac -> bytes gm -> bytes src -> bytes dst -> mem_ok m -> mem_ok (build_udp6 io mac gm src dst sp dp va n m).2.
Proof. unfold build_udp6. builds. Qed.
Lemma build_arp_ok io mac m : mem_ok m -> mem_ok (build_arp_request io mac GW_IP m).2.
Proof. unfold build_arp_request. builds. Qed.
Lemma build_na_ok io mac src dst dm target m :
  bytes mac -> bytes src -> bytes dst -> bytes dm -> bytes target -> mem_ok m -> mem_ok (build_na io mac src dst dm target m).2.
Proof. unfold build_na, build_nd. builds. Qed.
Lemma echo6_reply_ok io mac plen m : bytes mac -> mem_ok m -> mem_ok (echo6_reply io mac plen m).2.
Proof. unfold echo6_reply. builds. Qed.
Lemma port_unreach_ok mac io info m : bytes (src6 info) -> bytes (dst6 info) -> mem_ok m -> mem_ok (icmpv6_port_unreach mac io info m).2.
Proof. unfold icmpv6_port_unreach. builds. Qed.
Lemma build_echo4_ok io mac gm dst id seq va n m : bytes mac -> bytes gm -> bytes dst -> mem_ok m -> mem_ok (build_echo4 io mac gm dst id seq va n m).2.
Proof. unfold build_echo4. builds. Qed.
Lemma build_echo6_ok io mac gm src dst id seq va n m :
  bytes mac -> bytes gm -> bytes src -> bytes dst -> mem_ok m -> mem_ok (build_echo6 io mac gm src dst id seq va n m).2.
Proof. unfold build_echo6. builds. Qed.

(** ** Connections *)

Definition is_u16 (x : Z) : Prop := 0 <= x < 2^16.
Definition is_u32 (x : Z) : Prop := 0 <= x < 2^32.
Definition addr_ok (n : nat) (l : list Z) : Prop := length l = n /\ bytes l.

Record conn_ok (n : Z) (c : TcpConn) : Prop := {
  c_nic : 0 <= nic c < n;
  c_local : is_u16 (local_port c);
  c_remote : is_u16 (remote_port c);
  c_dst : addr_ok 6 (dst_mac c);
  c_ip : addr_ok 4 (remote_ip c);
  c_r6 : addr_ok 16 (remote6 c);
  c_l6 : addr_ok 16 (local6 c);
  c_una : is_u32 (snd_una c);
  c_nxt : is_u32 (snd_nxt c);
  c_rcv : is_u32 (rcv_nxt c);
  c_retx : is_u32 (retx c);
  c_rto : is_u64 (rto_ms c);
  c_last : is_u64 (last_tx_ms c);
  c_txlen : 0 <= tx_len c <= TCP_MSS;
  c_tx : addr_ok 1400 (tx c);
  c_rxlen : 0 <= rx_len c <= PAY_MAX;
  c_rx : addr_ok 1472 (rx c)
}.

(** What identifies a connection; only the operations of applications change it. *)
Definition ident (c : TcpConn) : bool * Z * Z * Z * Z * bool * Z * list Z * Z :=
  (used c, owner c, role c, nic c, local_port c, accepted c, remote_port c, remote_ip c, family c).

Record seg_ok (seg : TcpSeg) : Prop := {
  g_sport : is_u16 (sport seg);
  g_dport : is_u16 (dport seg);
  g_seq : is_u32 (seq seg);
  g_ack : is_u32 (ack seg);
  g_len : 0 <= payload_len seg
}.

Lemma w16_range x : is_u16 (w16 x).
Proof. apply Z.mod_pos_bound. lia. Qed.
Lemma w32_range x : is_u32 (w32 x).
Proof. apply Z.mod_pos_bound. lia. Qed.
Lemma wadd32_range a b : is_u32 (wadd32 a b).
Proof. apply w32_range. Qed.
Lemma w64_range x : is_u64 (w64 x).
Proof. apply Z.mod_pos_bound. lia. Qed.

(** Reduce the fields of a connection after assignments. *)
Ltac conn_fields :=
  cbn [used owner role state nic mac dst_mac local_port remote_ip remote_port family remote6 local6 snd_una snd_nxt rcv_nxt
       retx rto_ms last_tx_ms tx_len tx rx_len rx accepted set_state set_seqs set_timer set_tx set_rx set_peer set_owner set_family
       all_acked take_fin ack_now s_seq s_ack s_flags s_data fst snd] in *.

Create HintDb conn.
#[export] Hint Resolve g_sport g_dport g_seq g_ack g_len w16_range w32_range wadd32_range w64_range : conn.
#[export] Hint Extern 1 (is_u32 0) => (unfold is_u32; lia) : conn.
#[export] Hint Extern 1 (0 <= 0 <= _) => (unfold TCP_MSS, PAY_MAX; lia) : conn.
#[export] Hint Extern 1 (is_u64 TCP_RTO_MS) => (unfold is_u64, TCP_RTO_MS; lia) : conn.

Section conn.
Context (n : Z) (c : TcpConn) (Hc : conn_ok n c).

Lemma state_ok s : conn_ok n (set_state s c).
Proof using Hc. destruct Hc. constructor; assumption. Qed.
Lemma seqs_ok a b r : is_u32 a -> is_u32 b -> is_u32 r -> conn_ok n (set_seqs a b r c).
Proof using Hc. destruct Hc. constructor; assumption. Qed.
Lemma timer_ok a b t : is_u32 a -> is_u64 b -> is_u64 t -> conn_ok n (set_timer a b t c).
Proof using Hc. destruct Hc. constructor; assumption. Qed.
Lemma tx_ok k b : 0 <= k <= TCP_MSS -> addr_ok 1400 b -> conn_ok n (set_tx k b c).
Proof using Hc. destruct Hc. constructor; assumption. Qed.
Lemma rx_ok k b : 0 <= k <= PAY_MAX -> addr_ok 1472 b -> conn_ok n (set_rx k b c).
Proof using Hc. destruct Hc. constructor; assumption. Qed.
Lemma peer_ok m dm ip port : addr_ok 6 dm -> addr_ok 4 ip -> is_u16 port -> conn_ok n (set_peer m dm ip port c).
Proof using Hc. destruct Hc. constructor; assumption. Qed.
Lemma owner_ok u o r k port a : 0 <= k < n -> is_u16 port -> conn_ok n (set_owner u o r k port a c).
Proof using Hc. destruct Hc. constructor; assumption. Qed.
Lemma family_ok f r6 l6 : addr_ok 16 r6 -> addr_ok 16 l6 -> conn_ok n (set_family f r6 l6 c).
Proof using Hc. destruct Hc. constructor; assumption. Qed.
End conn.
#[export] Hint Resolve state_ok seqs_ok timer_ok tx_ok rx_ok peer_ok owner_ok family_ok : conn.

Lemma addr_ok_zeros k : addr_ok k (replicate k 0).
Proof. split; [apply length_replicate|apply zeros_bytes]. Qed.
Lemma new_ok n : 0 < n -> conn_ok n TcpConn_new.
Proof.
  intros Hn. constructor; cbn [nic local_port remote_port dst_mac remote_ip remote6 local6 snd_una snd_nxt rcv_nxt retx rto_ms last_tx_ms tx_len tx rx_len rx TcpConn_new];
    try apply addr_ok_zeros; unfold is_u16, is_u32, is_u64, TCP_RTO_MS, TCP_MSS, PAY_MAX; lia.
Qed.

Lemma copy_front_ok k data buf : bytes data -> (length data <= k)%nat -> addr_ok k buf -> addr_ok k (copy_front data buf).
Proof.
  intros Hd Hl [Hb Hy]. unfold copy_front. split; [rewrite length_app, length_drop; lia|].
  apply Forall_app. split; [exact Hd|by apply Forall_drop].
Qed.

Lemma take_sendable sq ak fl k b : is_u32 sq -> is_u32 ak -> is_byte fl -> 0 <= k <= TCP_MSS -> addr_ok 1400 b ->
  sendable (mk_segment sq ak fl (take (Z.to_nat k) b)).
Proof.
  intros Hs Ha Hf Hk [Hl Hb]. split; [exact Hs|]. split; [exact Ha|]. split; [exact Hf|]. split; [by apply Forall_take|].
  unfold len, TCP_MSS in *. cbn [s_data]. rewrite length_take. lia.
Qed.
Lemma empty_sendable sq ak fl : is_u32 sq -> is_u32 ak -> is_byte fl -> sendable (mk_segment sq ak fl []).
Proof. intros Hs Ha Hf. split; [exact Hs|]. split; [exact Ha|]. split; [exact Hf|]. split; [constructor|]. unfold len, TCP_MSS. cbn. lia. Qed.
#[export] Hint Resolve take_sendable empty_sendable copy_front_ok : conn.
#[export] Hint Extern 1 (is_byte _) => (unfold is_byte; vm_compute; split; congruence) : conn.

Definition out_ok (o : option segment) : Prop := match o with Some s => sendable s | None => True end.
(** An operation of the state machine keeps the connection and its identity, and answers a segment
    that can be sent. *)
Definition op_ok (n : Z) (c : TcpConn) (r : TcpConn * option segment) : Prop :=
  conn_ok n r.1 /\ ident r.1 = ident c /\ out_ok r.2.

Section conn_ops.
Context (n : Z) (c : TcpConn) (Hc : conn_ok n c) (now : Z) (Hnow : is_u64 now).

Lemma connect_ok isn : is_u32 isn -> conn_ok n (connect_conn isn now c).1 /\ ident (connect_conn isn now c).1 = ident c /\ sendable (connect_conn isn now c).2.
Proof using Hc Hnow. intros Hi. pose proof Hc as []. unfold connect_conn. conn_fields. split; [|split; [done|]]; auto 12 with conn. Qed.

Lemma send_conn_ok payload : bytes payload -> op_ok n c (send_conn payload now c).
Proof using Hc Hnow.
  intros Hp. unfold send_conn, op_ok. destruct (_ || _); [done|]. pose proof Hc as []. cbv zeta. conn_fields. unfold out_ok.
  assert (0 <= Z.min (Z.of_nat (length payload)) TCP_MSS <= TCP_MSS) as Hm by (unfold TCP_MSS; lia).
  assert (bytes (take (Z.to_nat (Z.min (Z.of_nat (length payload)) TCP_MSS)) payload)) as Hb by (by apply Forall_take).
  assert (length (take (Z.to_nat (Z.min (Z.of_nat (length payload)) TCP_MSS)) payload) <= 1400)%nat as Hl by (rewrite length_take; unfold TCP_MSS; lia).
  split; [|split; [done|]]; auto 12 with conn.
Qed.
Lemma close_ok : op_ok n c (close_conn now c).
Proof using Hc Hnow.
  unfold close_conn, op_ok. destruct (_ || _); [|done]. pose proof Hc as []. cbv zeta. conn_fields. unfold out_ok.
  split; [|split; [done|]]; auto 12 with conn.
Qed.
Lemma tick_ok : op_ok n c (tick_conn now c).
Proof using Hc Hnow.
  unfold tick_conn, op_ok. destruct (bool_decide _); [done|]. cbv zeta. destruct (_ || _); [done|]. pose proof Hc as []. conn_fields.
  destruct (TCP_MAX_RETX <? _); conn_fields; unfold out_ok; [split; [|split; [done|]]; auto 12 with conn|].
  split; [|split; [done|]]; [auto 12 with conn|]. destruct (bool_decide _); auto 12 with conn.
Qed.
Lemma take_data_conn seg data : seg_ok seg -> bytes data -> Z.of_nat (length data) = Z.min (payload_len seg) PAY_MAX ->
  conn_ok n (take_data seg data c).1 /\ ident (take_data seg data c).1 = ident c.
Proof using Hc.
  intros Hg Hd Hl. unfold take_data. destruct (_ && _); [|done]. cbv zeta. conn_fields. split; [|done].
  pose proof Hc as []. pose proof (g_len _ Hg). apply seqs_ok; auto 12 with conn. apply rx_ok; auto 12 with conn; [unfold PAY_MAX in *; lia|].
  apply copy_front_ok; [exact Hd|unfold PAY_MAX in Hl; lia|auto with conn].
Qed.
End conn_ops.

Lemma acked_ok n c : conn_ok n c -> conn_ok n (all_acked c).
Proof. intros Hc. pose proof Hc as []. unfold all_acked. auto with conn. Qed.
Lemma fin_ok n c s : conn_ok n c -> conn_ok n (take_fin s c).
Proof. intros Hc. pose proof Hc as []. unfold take_fin. auto with conn. Qed.
Lemma ack_sendable n c : conn_ok n c -> sendable (ack_now c).
Proof. intros []. unfold ack_now. auto with conn. Qed.
Lemma retimed_ok n c : conn_ok n c -> conn_ok n (set_timer 0 TCP_RTO_MS (last_tx_ms c) c).
Proof. intros Hc. pose proof Hc as []. auto with conn. Qed.
Lemma emptied_conn n c : conn_ok n c -> conn_ok n (set_tx 0 (tx c) c).
Proof. intros Hc. pose proof Hc as []. auto with conn. Qed.
#[export] Hint Resolve acked_ok fin_ok : conn.

Lemma handle_ok n c now seg data :
  conn_ok n c -> is_u64 now -> seg_ok seg -> bytes data -> Z.of_nat (length data) = Z.min (payload_len seg) PAY_MAX ->
  op_ok n c (handle_conn seg data now c).
Proof.
  intros Hc Hnow Hg Hd Hl. pose proof (g_seq _ Hg). pose proof (g_ack _ Hg). unfold op_ok.
  assert (forall c' b, conn_ok n c' -> ident c' = ident c -> conn_ok n c' /\ ident c' = ident c /\ out_ok (if b : bool then Some (ack_now c') else None)) as Hfin.
  { intros c' b H1 H2. split; [exact H1|]. split; [exact H2|]. destruct b; [by eapply ack_sendable|done]. }
  unfold handle_conn. destruct (state c) eqn:Es; try done.
  - destruct (has _ _); [split; [cbn [fst]; auto with conn|done]|]. cbv zeta. destruct (_ && _); [|done]. pose proof Hc as [].
   
    cbn [fst snd]; apply (Hfin _ true); [auto 12 with conn|done].
  - destruct (has _ _); [split; [cbn [fst]; auto with conn|done]|]. cbv zeta.
    match goal with |- context [take_data seg data ?x] => assert (conn_ok n x /\ ident x = ident c) as [H1 H2] end.
    { destruct (_ && _); [|done]. split; [|done]. apply (retimed_ok n (set_state Established (all_acked c))), state_ok, acked_ok, Hc. }
    match type of H1 with conn_ok _ ?x => set (c0 := x) in *; clearbody c0 end.
    pose proof (take_data_conn n c0 H1 seg data Hg Hd Hl) as [H3 H4]. destruct (take_data seg data c0) as [c1 b]. cbn [fst snd] in *.
    cbn [fst snd]; apply Hfin; [exact H3|congruence].
  - destruct (has _ TCP_RST); [split; [cbn [fst]; auto with conn|done]|].
    pose proof (take_data_conn n c Hc seg data Hg Hd Hl) as [H3 H4]. destruct (take_data seg data c) as [c1 b]. cbn [fst snd] in *. cbv zeta.
    match goal with |- context [if has _ TCP_FIN then take_fin _ ?x else _] => assert (conn_ok n x /\ ident x = ident c) as [H1 H2] end.
    { destruct (_ && _); [|split; [exact H3|congruence]]. split; [|rewrite <- H4; done].
      apply (retimed_ok n (set_tx 0 (tx c1) (all_acked c1))), (emptied_conn n (all_acked c1)), acked_ok, H3. }
    match type of H1 with conn_ok _ ?x => set (c2 := x) in *; clearbody c2 end.
    cbn [fst snd]; apply Hfin; destruct (has (flags seg) TCP_FIN); auto with conn.
  - cbv zeta. assert (conn_ok n (if acks_all seg c then set_state FinWait2 (all_acked c) else c)) as H1 by (destruct (acks_all seg c); auto with conn).
    assert (ident (if acks_all seg c then set_state FinWait2 (all_acked c) else c) = ident c) as H2 by (by destruct (acks_all seg c)).
    destruct (has _ _); [|done]. cbn [fst snd]; apply (Hfin _ true); [auto with conn|exact H2].
  - destruct (has _ _); [|done]. cbv zeta. cbn [fst snd]; apply (Hfin _ true); [auto with conn|done].
  - destruct (acks_all seg c); [|done]. split; [cbn [fst]; auto with conn|done].
Qed.

Lemma server_conn_ok n k m dm src our6 seg si now :
  0 <= k < n -> addr_ok 6 dm -> match src with inl a => addr_ok 4 a | inr a => addr_ok 16 a end -> addr_ok 16 our6 -> seg_ok seg ->
  0 <= si < MAX_TCONS -> is_u64 now ->
  let '(c, s) := server_conn k m dm src our6 seg si now in
  conn_ok n c /\ sendable s /\ (used c, owner c, role c, nic c, local_port c, accepted c) = (true, 0, TCP_ROLE_SERVER, k, dport seg, false).
Proof.
  intros Hk Hdm Hsrc H6 Hg Hsi Hnow. pose proof Hg as [Hsp Hdp Hsq Hak _]. unfold server_conn. cbv zeta.
  assert (is_u32 (Z.lxor 0x4d4f9000 (w32 (si * 0x0101)))) as Hu.
  { unfold MAX_TCONS in Hsi. assert (si = 0 \/ si = 1 \/ si = 2 \/ si = 3 \/ si = 4 \/ si = 5) as Hs by lia.
    unfold is_u32. destruct Hs as [->|[->|[->|[->|[->| ->]]]]]; vm_compute; split; congruence. }
  pose proof (new_ok n ltac:(lia)) as Hn.
  assert (addr_ok 4 (remote_ip TcpConn_new)) as H4 by apply addr_ok_zeros.
  assert (conn_ok n (set_state SynRcvd (set_owner true 0 TCP_ROLE_SERVER k (dport seg) false TcpConn_new))) as Hx by auto with conn.
  set (c0 := set_state SynRcvd _) in *. assert (addr_ok 4 (remote_ip c0)) as H4' by exact H4.
  assert (ident c0 = (true, 0, TCP_ROLE_SERVER, k, dport seg, false, 0, remote_ip TcpConn_new, 4)) as Hid by done. clearbody c0.
  unfold ident in Hid. injection Hid as E1 E2 E3 E4 E5 E6 _ _ _.
  destruct src; conn_fields; (split; [auto 12 with conn|]); (split; [auto with conn|congruence]).
Qed.

(** ** Parsed segments *)

Lemma log2_lt k a : 0 < k -> 0 <= a < 2^k -> Z.log2 a < k.
Proof. intros Hk Ha. destruct (decide (a = 0)) as [->|Hn]; [done|]. apply Z.log2_lt_pow2; lia. Qed.
Lemma lor_lt k a b : 0 < k -> 0 <= a < 2^k -> 0 <= b < 2^k -> 0 <= Z.lor a b < 2^k.
Proof.
  intros Hk Ha Hb. assert (0 <= Z.lor a b) as H0 by (apply Z.lor_nonneg; lia). split; [exact H0|].
  destruct (decide (Z.lor a b = 0)) as [->|Hn]; [lia|]. apply Z.log2_lt_pow2; [lia|].
  rewrite Z.log2_lor by lia. apply Z.max_lub_lt; by apply log2_lt.
Qed.
Lemma rd16be_range m a : mem_ok m -> is_u16 (rd16be m a).
Proof. intros Hm. pose proof (Hm (a + 1)). apply (lor_lt 16); [lia|apply w16_range|unfold rd8, is_byte in *; lia]. Qed.
Lemma rd32be_range m a : mem_ok m -> is_u32 (rd32be m a).
Proof.
  intros Hm. pose proof (Hm (a + 3)). unfold rd32be, is_u32.
  repeat apply (lor_lt 32); try apply w32_range; try lia; unfold rd8, is_byte in *; lia.
Qed.

Lemma tcp_fields_ok m tcp plen cs seg : mem_ok m -> tcp_fields m tcp plen cs = Some seg -> seg_ok seg.
Proof.
  intros Hm. unfold tcp_fields. destruct ((_ <? 20) || _) eqn:E; [discriminate|]. destruct (negb _); [discriminate|].
  intros H. injection H as <-. apply orb_false_iff in E as [_ E]. apply Z.ltb_ge in E.
  constructor; cbn [sport dport seq ack payload_len]; auto using rd16be_range, rd32be_range. lia.
Qed.
Lemma tcp_parse_ok m info seg : mem_ok m -> tcp_parse m info = Some seg -> seg_ok seg.
Proof. intros Hm. unfold tcp_parse. destruct (_ || _); [discriminate|]. by apply tcp_fields_ok. Qed.
Lemma tcp_parse6_ok m info seg : mem_ok m -> tcp_parse6 m info = Some seg -> seg_ok seg.
Proof. intros Hm. unfold tcp_parse6. destruct (_ || _); [discriminate|]. by apply tcp_fields_ok. Qed.
Lemma get_ip4_ok m a : mem_ok m -> addr_ok 4 (get_ip4 m a).
Proof. intros Hm. split; [unfold get_ip4; by rewrite length_fmap, length_seqZ|by apply get_ip4_bytes]. Qed.
Lemma get_v6_ok m a : mem_ok m -> addr_ok 16 (get_v6 m a).
Proof. intros Hm. split; [unfold get_v6; by rewrite length_fmap, length_seqZ|by apply get_v6_bytes]. Qed.
Lemma get_mac_ok m a : mem_ok m -> addr_ok 6 (get_mac m a).
Proof. intros Hm. split; [unfold get_mac; by rewrite length_fmap, length_seqZ|by apply get_mac_bytes]. Qed.
Lemma ipv4_src_ok m io n info : mem_ok m -> ipv4_parse m io n = Some info -> addr_ok 4 (src4 info).
Proof.
  intros Hm. unfold ipv4_parse. repeat (match goal with |- context [if ?b then _ else _] => destruct b end; [discriminate|]; cbv zeta).
  intros H. injection H as <-. by apply get_ip4_ok.
Qed.
Lemma ipv6_info_ok m io n info : mem_ok m -> ipv6_parse m io n = Some info -> addr_ok 16 (src6 info) /\ addr_ok 16 (dst6 info) /\ is_u16 (payload_len6 info).
Proof.
  intros Hm. unfold ipv6_parse. repeat (match goal with |- context [if ?b then _ else _] => destruct b end; [discriminate|]; cbv zeta).
  intros H. injection H as <-. split; [by apply get_v6_ok|]. split; [by apply get_v6_ok|by apply rd16be_range].
Qed.

Lemma tcp_seg_ok n c io s m : conn_ok n c -> sendable s -> mem_ok m -> mem_ok (tcp_seg c io s m).2.
Proof.
  intros [] (_ & _ & Hf & Hd & _) Hm. destruct c_dst0, c_ip0, c_r7, c_l7. unfold tcp_seg. destruct (_ =? 6).
  - unfold tcp_build6. cbn [snd]. auto 12 with memok.
  - unfold tcp_build. cbn [snd]. auto 12 with memok.
Qed.

Definition triple_ok (n : Z) (c : TcpConn) (r : TcpConn * Z * mem) : Prop :=
  conn_ok n r.1.1 /\ ident r.1.1 = ident c /\ mem_ok r.2.
Lemma emit_ok n c r io m : op_ok n c r -> mem_ok m -> triple_ok n c (emit r io m).
Proof.
  destruct r as [c' [s|]]; intros (H1 & H2 & H3) Hm; cbn [emit]; [|by split].
  pose proof (tcp_seg_ok n c' io s m H1 H3 Hm) as H. destruct (tcp_seg c' io s m) as [len m']. by split.
Qed.
Lemma tcp_handle_ok n c io seg now m : conn_ok n c -> seg_ok seg -> is_u64 now -> mem_ok m -> triple_ok n c (tcp_handle c io seg now m).
Proof.
  intros Hc Hg Hn Hm. apply emit_ok; [|exact Hm]. apply handle_ok; auto; [by apply slice_bytes|].
  pose proof (g_len _ Hg). unfold seg_data. rewrite length_slice_at. unfold PAY_MAX. lia.
Qed.

(** ** The tables *)

Definition opt_ok (o : option (list Z)) : Prop := match o with Some a => addr_ok 6 a | None => True end.
Definition link_ok (l : Link) : Prop := opt_ok (gw_mac l) /\ addr_ok 16 (v6_global l) /\ addr_ok 16 (v6_gw l) /\ opt_ok (gw6_mac l).
Definition sock_ok (n : Z) (s : Sock) : Prop :=
  0 <= k_nic s < n /\ is_u16 (k_port s) /\ 0 <= k_len s <= PAY_MAX /\ addr_ok 1472 (k_data s).
Record stack_ok (st : Stack) : Prop := {
  t_nics : 0 < nics st <= NIC_MAX;
  t_links : length (links st) = 8%nat /\ Forall link_ok (links st);
  t_socks : length (socks st) = 4%nat /\ Forall (sock_ok (nics st)) (socks st);
  t_tcons : length (tcons st) = 6%nat /\ Forall (conn_ok (nics st)) (tcons st)
}.

Lemma forall_at {A} (P : A -> Prop) l d i : Forall P l -> P d -> P (nth i l d).
Proof.
  intros Hl Hd. destruct (decide (i < length l)%nat) as [Hi|Hi]; [by apply (proj1 (Forall_nth P d l))|].
  rewrite (nth_overflow l d) by lia. exact Hd.
Qed.
Lemma down_ok d io k : link_ok (Link_down d io k).
Proof. repeat split; try apply zeros_bytes. Qed.
Lemma sock_new_ok n : 0 < n -> sock_ok n Sock_new.
Proof. intros Hn. unfold sock_ok, Sock_new. cbn [k_nic k_port k_len k_data]. repeat split; try apply zeros_bytes; try apply length_replicate; unfold is_u16, PAY_MAX; lia. Qed.

Section tables.
Context (st : Stack) (Hst : stack_ok st).
Lemma link_at_ok n : link_ok (link_at n st).
Proof using Hst. apply (forall_at link_ok); [apply t_links, Hst|apply down_ok]. Qed.
Lemma conn_at_ok i : conn_ok (nics st) (conn_at i st).
Proof using Hst. apply (forall_at (conn_ok _)); [apply t_tcons, Hst|apply new_ok, t_nics, Hst]. Qed.
Lemma sock_at_ok i : sock_ok (nics st) (sock_at i st).
Proof using Hst. apply (forall_at (sock_ok _)); [apply t_socks, Hst|apply sock_new_ok, t_nics, Hst]. Qed.
Lemma set_link_ok n l : link_ok l -> stack_ok (set_link n l st).
Proof using Hst.
  destruct Hst as [? [? ?] ? ?]. intros Hl. constructor; cbn [nics links socks tcons set_link]; try assumption.
  split; [by rewrite length_insert|by apply Forall_insert].
Qed.
Lemma set_conn_ok i c : conn_ok (nics st) c -> stack_ok (set_conn i c st).
Proof using Hst.
  destruct Hst as [? ? ? [? ?]]. intros Hl. constructor; cbn [nics links socks tcons set_conn]; try assumption.
  split; [by rewrite length_insert|by apply Forall_insert].
Qed.
Lemma set_sock_ok i s : sock_ok (nics st) s -> stack_ok (set_sock i s st).
Proof using Hst.
  destruct Hst as [? ? [? ?] ?]. intros Hl. constructor; cbn [nics links socks tcons set_sock]; try assumption.
  split; [by rewrite length_insert|by apply Forall_insert].
Qed.
Lemma primary_ok n : addr_ok 16 (link_v6_primary st n).
Proof using Hst.
  unfold link_v6_primary. destruct (_ && _); [apply link_at_ok|]. split; [done|]. apply link_local_bytes, mac_bytes_bytes.
Qed.
End tables.

(** ** The environment and the invariant *)

(** The ports whose binding the kernel has dropped so far. net.rs documents that the bindings of a
    domain are dropped when it is destroyed; the kernel as it is never does so (Domains), so there
    no port is dropped. *)
Class PortHistory (D : Type) : Type := dropped : D -> Z -> Prop.

(** Between [d] and [d'] a port that has an owner keeps it, unless its binding is dropped. *)
Definition ports_kept {D : Type} `{NetEnv D, PortHistory D} (d d' : D) : Prop :=
  (forall p, dropped d p -> dropped d' p) /\
  (forall p, sys_net_owner d p <> U64_MAX -> sys_net_owner d' p = sys_net_owner d p \/ dropped d' p).

(** What the drivers, the kernel and the other domains promise: memory stays memory, and a port
    that has an owner keeps it until its binding is dropped. *)
Class NetEnvOk (D : Type) {env : NetEnv D} {ports : PortHistory D} : Prop := {
  call_mem dom tag req d m : mem_ok m -> mem_ok (sys_call_payload dom tag req d m).2;
  call_ports dom tag req d m : ports_kept d (sys_call_payload dom tag req d m).1.2;
  sleep_mem ms d m : mem_ok m -> mem_ok (sys_sleep ms d m).2;
  sleep_ports ms d m : ports_kept d (sys_sleep ms d m).1;
  alloc_mem va d m : mem_ok m -> mem_ok (sys_alloc_page va d m).2;
  alloc_ports va d m : ports_kept d (sys_alloc_page va d m).1.2;
  share_mem va dom d m : mem_ok m -> mem_ok (sys_share_page va dom d m).2;
  share_ports va dom d m : ports_kept d (sys_share_page va dom d m).1.2
}.

Section inv.
Context {D : Type} {env : NetEnv D} {ports : PortHistory D} {envok : NetEnvOk D}.

(** The connection speaks from a port of its owner, unless the kernel has dropped the binding. A connection that a listener has made has
    owner 0 until it is accepted. *)
Definition pending (c : TcpConn) : Prop := role c = TCP_ROLE_SERVER /\ accepted c = false.
Definition granted (d : D) (c : TcpConn) : Prop :=
  used c = true ->
  (local_port c <> 0 -> ~ pending c ->
     sys_net_owner d (local_port c) = owner c /\ owner c <> U64_MAX \/ dropped d (local_port c))
  /\ (pending c -> owner c = 0).

Record inv (w : world D) : Prop := {
  i_stack : stack_ok (w_st w);
  i_mem : mem_ok (w_mem w);
  i_granted : Forall (granted (w_dev w)) (tcons (w_st w))
}.

Lemma granted_ident d c c' : ident c' = ident c -> granted d c -> granted d c'.
Proof. unfold ident, granted, pending. intros H. injection H as -> -> -> _ -> -> _ _ _. done. Qed.
Lemma granted_new d : granted d TcpConn_new.
Proof. intros H. discriminate H. Qed.
Lemma granted_at w i : inv w -> granted (w_dev w) (conn_at i (w_st w)).
Proof. intros Hw. apply (forall_at (granted _)); [apply Hw|apply granted_new]. Qed.
Lemma granted_dev d d' c : ports_kept d d' -> granted d c -> granted d' c.
Proof.
  intros [Hd Ho] Hg H1. destruct (Hg H1) as [H2 H3]. split; [|exact H3]. intros H4 H5.
  destruct (H2 H4 H5) as [[H6 H7]|H6]; [|right; by apply Hd].
  destruct (Ho (local_port c)) as [H8|H8]; [congruence|left; split; congruence|by right].
Qed.

Lemma inv_mem w m : inv w -> mem_ok m -> inv (set_mem m w).
Proof. intros [] Hm. by constructor. Qed.
Lemma inv_link w n l : inv w -> link_ok l -> inv (on_st (set_link n l) w).
Proof. intros [] Hl. constructor; try assumption. by apply set_link_ok. Qed.
Lemma inv_sock w i s : inv w -> sock_ok (nics (w_st w)) s -> inv (on_st (set_sock i s) w).
Proof. intros [] Hs. constructor; try assumption. by apply set_sock_ok. Qed.
Lemma inv_conn w i c m : inv w -> conn_ok (nics (w_st w)) c -> granted (w_dev w) c -> mem_ok m -> inv (mk_world (set_conn i c (w_st w)) m (w_dev w)).
Proof. intros [] Hc Hg Hm. constructor; [by apply set_conn_ok|exact Hm|]. by apply Forall_insert. Qed.

Lemma link_call_inv l op len w : inv w -> inv (link_call l op len w).2.
Proof using envok.
  intros []. unfold link_call. set (req := _ ++ _).
  pose proof (call_mem (l_domain l) NET_REQ_TAG req (w_dev w) (w_mem w) ltac:(assumption)) as Hm.
  pose proof (call_ports (l_domain l) NET_REQ_TAG req (w_dev w) (w_mem w)) as Ho.
  destruct (sys_call_payload _ _ _ _ _) as [[r d] m]. cbn [fst snd] in *. constructor; try assumption.
  eapply Forall_impl; [eassumption|]. intros c. by apply granted_dev.
Qed.
Lemma link_tx_inv l len w : inv w -> inv (link_tx l len w).2.
Proof using envok. intros Hw. unfold link_tx. pose proof (link_call_inv l NET_OP_TX len w Hw) as H. by destruct (link_call _ _ _ _). Qed.
Lemma link_rx_inv l w : inv w -> inv (link_rx l w).2.
Proof using envok. intros Hw. unfold link_rx. pose proof (link_call_inv l NET_OP_RX 0 w Hw) as H. by destruct (link_call _ _ _ _). Qed.
Lemma sleep_inv ms w : inv w -> inv (sleep ms w).
Proof using envok.
  intros []. unfold sleep. pose proof (sleep_mem ms (w_dev w) (w_mem w) ltac:(assumption)) as Hm.
  pose proof (sleep_ports ms (w_dev w) (w_mem w)) as Ho. destruct (sys_sleep _ _ _) as [d m]. cbn [fst snd] in *.
  constructor; try assumption. eapply Forall_impl; [eassumption|]. intros c. by apply granted_dev.
Qed.

(** The number of links does not change. *)
Lemma link_call_nics l op len w : w_st (link_call l op len w).2 = w_st w.
Proof. unfold link_call. by destruct (sys_call_payload _ _ _ _ _) as [[r d] m]. Qed.
Lemma link_tx_st l len w : w_st (link_tx l len w).2 = w_st w.
Proof. unfold link_tx. pose proof (link_call_nics l NET_OP_TX len w) as H. by destruct (link_call _ _ _ _). Qed.
Lemma link_rx_st l w : w_st (link_rx l w).2 = w_st w.
Proof. unfold link_rx. pose proof (link_call_nics l NET_OP_RX 0 w) as H. by destruct (link_call _ _ _ _). Qed.
Lemma sleep_st ms w : w_st (sleep ms w) = w_st w.
Proof. unfold sleep. by destruct (sys_sleep _ _ _). Qed.

(** A step that keeps the invariant and the number of links. *)
Definition keeps (w w' : world D) : Prop := inv w -> inv w' /\ nics (w_st w') = nics (w_st w).
#[global] Instance keeps_preorder : PreOrder keeps.
Proof.
  split; [by intros w Hw|]. intros w1 w2 w3 H1 H2 Hw. destruct (H1 Hw) as [H3 E3]. destruct (H2 H3) as [H4 E4]. split; [exact H4|congruence].
Qed.
Lemma keeps_tx l len w : keeps w (link_tx l len w).2.
Proof using envok. intros Hw. split; [by apply link_tx_inv|by rewrite link_tx_st]. Qed.
Lemma keeps_rx l w : keeps w (link_rx l w).2.
Proof using envok. intros Hw. split; [by apply link_rx_inv|by rewrite link_rx_st]. Qed.
Lemma sleep_keeps ms w : keeps w (sleep ms w).
Proof using envok. intros Hw. split; [by apply sleep_inv|by rewrite sleep_st]. Qed.
Lemma keeps_build f w : (inv w -> mem_ok (f (w_mem w)).2) -> keeps w (build f w).2.
Proof. intros Hf Hw. specialize (Hf Hw). unfold build. destruct (f (w_mem w)) as [len m]. split; [by apply inv_mem|done]. Qed.
Lemma frame_keeps l f w : (inv w -> mem_ok (f (w_mem w)).2) -> keeps w (send_frame l f w).2.
Proof using envok.
  intros Hf. unfold send_frame. pose proof (keeps_build f w Hf) as H. destruct (build f w) as [len w1]. cbn [snd] in H.
  etransitivity; [exact H|]. pose proof (keeps_tx l len w1) as H2. by destruct (link_tx l len w1).
Qed.
Lemma keeps_copy a l w : (inv w -> bytes l) -> keeps w (on_mem (copy_to a l) w).
Proof. intros Hl Hw. split; [|done]. apply (inv_mem w _ Hw). apply copy_to_ok; [auto|apply Hw]. Qed.

(** ** Connections of the table *)

Lemma on_conn_keeps i f w :
  (forall c io m, conn_ok (nics (w_st w)) c -> granted (w_dev w) c -> mem_ok m ->
     conn_ok (nics (w_st w)) (f c io m).1.1 /\ granted (w_dev w) (f c io m).1.1 /\ mem_ok (f c io m).2) ->
  keeps w (on_conn i f w).2.
Proof.
  intros Hf Hw. unfold on_conn. specialize (Hf (conn_at i (w_st w)) (l_io (w_link (nic (conn_at i (w_st w))) w)) (w_mem w)).
  destruct (f _ _ _) as [[c' len] m]. cbn [fst snd] in *.
  destruct Hf as (H1 & H2 & H3); [apply conn_at_ok, Hw|by apply granted_at|apply Hw|]. split; [by apply inv_conn|done].
Qed.
Lemma triple_keeps d n c r : granted d c -> triple_ok n c r -> conn_ok n r.1.1 /\ granted d r.1.1 /\ mem_ok r.2.
Proof. intros Hg (H1 & H2 & H3). split; [exact H1|]. split; [by eapply granted_ident|exact H3]. Qed.

Definition src_ok (src : SrcId) : Prop := match src with inl a => addr_ok 4 a | inr a => addr_ok 16 a end.

Lemma position_lt {A} (p : A -> bool) l i : position p l = Some i -> (i < length l)%nat.
Proof. intros H. apply position_Some in H as [(x & Hx & _) _]. by eapply lookup_lt_Some. Qed.

Lemma tcp_input_keeps n src seg now w :
  0 <= n < nics (w_st w) -> src_ok src -> seg_ok seg -> is_u64 now -> keeps w (tcp_input n src seg now w).2.
Proof.
  intros Hn Hsrc Hg Hnow Hw. unfold tcp_input.
  destruct (position (fun c => tcp_match c n src seg) (tcons (w_st w))) as [idx|].
  - pose proof (tcp_handle_ok (nics (w_st w)) (conn_at idx (w_st w)) (l_io (link_at n (w_st w))) seg now (w_mem w)
      (conn_at_ok _ (i_stack w Hw) idx) Hg Hnow (i_mem w Hw)) as H. apply (triple_keeps (w_dev w)) in H; [|by apply granted_at].
    destruct (tcp_handle _ _ _ _ _) as [[c' len] m]. destruct H as (H1 & H2 & H3). split; [by apply inv_conn|done].
  - destruct (negb _); [done|]. destruct (position (listens _ _) _); [|done]. destruct (position free_slot _) as [si|] eqn:Esi; [|done].
    pose proof (link_at_ok _ (i_stack w Hw) n) as (L1 & L2 & L3 & L4).
    set (dm := match src with inl _ => _ | inr _ => _ end).
    assert (addr_ok 6 dm) as Hdm.
    { subst dm. pose proof (addr_ok_zeros 6) as Hz. destruct src, (gw_mac _), (gw6_mac _); cbn in *; assumption. }
    apply position_lt in Esi. rewrite (proj1 (t_tcons _ (i_stack w Hw))) in Esi.
    pose proof (server_conn_ok (nics (w_st w)) n (l_mac (link_at n (w_st w))) dm src (link_v6_primary (w_st w) n) seg (Z.of_nat si) now
      Hn Hdm Hsrc (primary_ok _ (i_stack w Hw) n) Hg ltac:(unfold MAX_TCONS; lia) Hnow) as Hs.
    destruct (server_conn _ _ _ _ _ _ _ _) as [c s]. destruct Hs as (Hc & Hs & Hid).
    pose proof (tcp_seg_ok _ c (l_io (link_at n (w_st w))) s (w_mem w) Hc Hs (i_mem w Hw)) as Hm.
    destruct (tcp_seg _ _ _ _) as [len m]. split; [|done]. apply inv_conn; try assumption.
    injection Hid as _ Ho Hr _ _ Ha. intros _. split; [|by rewrite Ho]. intros _ Hp. exfalso. by apply Hp.
Qed.

Lemma lo_pump_keeps g n len now w : 0 <= n < nics (w_st w) -> is_u64 now -> keeps w (lo_pump_loop g n len now w).
Proof.
  intros Hn Hnow. revert len w Hn. induction g as [|g IH]; intros len w Hn Hw; [done|]. cbn [lo_pump_loop].
  destruct (0 <? len); [|done]. destruct (ipv4_parse _ _ _) as [info|] eqn:Ei; [|done]. destruct (tcp_parse _ _) as [seg|] eqn:Eg; [|done].
  pose proof (tcp_input_keeps n (inl (src4 info)) seg now w Hn (ipv4_src_ok _ _ _ _ (i_mem w Hw) Ei) (tcp_parse_ok _ _ _ (i_mem w Hw) Eg) Hnow Hw) as [H1 H2].
  destruct (tcp_input _ _ _ _ _) as [len' w']. cbn [snd] in *. destruct (IH len' w') as [H3 H4]; [by rewrite H2|exact H1|]. split; [exact H3|congruence].
Qed.
Lemma deliver_keeps n len now w : 0 <= n < nics (w_st w) -> is_u64 now -> keeps w (tcp_emit_deliver n len now w).
Proof using envok.
  intros Hn Hnow. unfold tcp_emit_deliver. destruct (len =? 0); [done|]. cbv zeta.
  destruct (match ipv4_parse _ _ _ with Some _ => _ | None => _ end); [by apply lo_pump_keeps|apply keeps_tx].
Qed.

Lemma tick_loop_keeps i k now w : is_u64 now -> keeps w (tick_loop i k now w).
Proof using envok.
  intros Hnow. revert i w. induction k as [|k IH]; intros i w; [done|]. cbn [tick_loop]. cbv zeta.
  etransitivity; [|apply IH]. destruct (_ && _); [|done]. intros Hw.
  assert (keeps w (on_conn i (fun c io => tcp_tick c io now) w).2) as H1.
  { apply on_conn_keeps. intros c io m Hc Hg Hm. apply (triple_keeps _ _ c); [exact Hg|]. apply emit_ok; [by apply tick_ok|exact Hm]. }
  destruct (H1 Hw) as [H2 H3]. destruct (on_conn i _ w) as [len w1]. cbn [snd] in *.
  pose proof (c_nic _ _ (conn_at_ok _ (i_stack w Hw) i)) as Hn.
  destruct (deliver_keeps (nic (conn_at i (w_st w))) len now w1 ltac:(by rewrite H3) Hnow H2) as [H4 H5]. split; [exact H4|congruence].
Qed.

(** ** Received frames *)

Lemma sock_deliver_keeps n dport va len w : 0 <= len -> keeps w (deliver n dport va len w).2.
Proof.
  intros Hl Hw. unfold deliver. destruct (position _ _) as [i|] eqn:E; [|done]. split; [|done].
  apply position_Some in E as [(s & Hs & Ht) _]. unfold sock_takes in Ht. apply andb_prop in Ht as [_ Ht]. apply Z.leb_le in Ht.
  pose proof (sock_at_ok _ (i_stack w Hw) i) as (H1 & H2 & H3 & H4). apply inv_sock; [exact Hw|].
  split; [exact H1|]. split; [exact H2|]. cbn [k_len k_data]. split; [lia|].
  apply copy_front_ok; [apply slice_bytes, Hw|rewrite length_slice_at; unfold PAY_MAX in Ht; lia|exact H4].
Qed.

Lemma opt_mac_ok m o : mem_ok m -> addr_ok 6 (opt_mac m o).
Proof. intros Hm. by apply get_mac_ok. Qed.
Lemma global_ok p l : addr_ok 16 p -> bytes l -> addr_ok 16 (global_from_prefix p l).
Proof.
  intros [H1 H2] Hl. split; [|by apply global_bytes]. unfold global_from_prefix. by rewrite length_app, length_take, H1.
Qed.
Lemma prefix_ok m ic plen : mem_ok m ->
  addr_ok 16 (match first_opt m ic plen 3 with Some (o, ol) => if 32 <=? ol then get_v6 m (o + 16) else replicate 16 0 | None => replicate 16 0 end).
Proof. intros Hm. destruct (first_opt m ic plen 3) as [[o ol]|]; [|apply addr_ok_zeros]. destruct (32 <=? ol); [by apply get_v6_ok|apply addr_ok_zeros]. Qed.

Lemma icmpv6_input_keeps n io len w : keeps w (icmpv6_input n io len w).2.
Proof.
  intros Hw. unfold icmpv6_input. cbv zeta. destruct (len <? _); [done|]. destruct (_ || _); [done|]. destruct (_ || _); [done|].
  pose proof (i_mem w Hw) as Hm. pose proof (link_at_ok _ (i_stack w Hw) n) as (L1 & L2 & L3 & L4). fold (w_link n w) in *.
  destruct (_ =? ICMPV6_RA).
  { cbn [snd]. destruct (v6_is_zero _); [done|]. split; [|done]. apply inv_link; [exact Hw|]. split; [exact L1|].
    split; [apply global_ok; [by apply prefix_ok|apply mac_bytes_bytes]|]. split; [by apply get_v6_ok|].
    cbn [set_gw6_mac gw6_mac]. destruct (first_opt _ _ _ 1) as [[o ol]|]; cbn; [by apply opt_mac_ok|done]. }
  destruct (_ =? ICMPV6_NS).
  { destruct (is_ours6 _ _ _); [|done]. revert Hw. apply keeps_build. intros Hw. apply build_na_ok; auto using mac_bytes_bytes, get_v6_bytes.
    destruct (first_opt _ _ _ 1) as [[o ol]|]; [by apply opt_mac_ok|apply mac_bytes_bytes]. }
  destruct (_ =? ICMPV6_NA).
  { cbn [snd]. destruct (v6_eq _ _); [|done]. destruct (first_opt _ _ _ 2) as [[o ol]|]; [|done]. split; [|done]. apply inv_link; [exact Hw|].
    split; [exact L1|]. split; [exact L2|]. split; [exact L3|by apply opt_mac_ok]. }
  destruct (_ =? ICMPV6_ECHO_REQ); [|done]. destruct (is_ours6 _ _ _); [|done]. revert Hw. apply keeps_build. intros Hw. apply echo6_reply_ok; [apply mac_bytes_bytes|exact Hm].
Qed.

Lemma udp6_input_keeps n io info w : addr_ok 16 (src6 info) -> addr_ok 16 (dst6 info) -> keeps w (udp6_input n io info w).2.
Proof.
  intros [_ Hs] [_ Hd]. unfold udp6_input. cbv zeta. destruct (_ <? 8); [done|]. destruct (_ || _) eqn:E; [done|]. apply orb_false_iff in E as [E _].
  apply Z.ltb_ge in E. destruct (negb _); [done|]. destruct (negb _); [done|].
  pose proof (sock_deliver_keeps n (rd16be (w_mem w) (payload_off6 info + 2)) (payload_off6 info + 8) (rd16be (w_mem w) (payload_off6 info + 4) - 8) w ltac:(lia)) as H.
  destruct (deliver _ _ _ _ _) as [ok w']. cbn [snd] in H. destruct ok; [exact H|]. etransitivity; [exact H|].
  apply keeps_build. intros Hw. by apply port_unreach_ok; [| |apply Hw].
Qed.

(** Input to a connection, and its answer. *)
Lemma input_deliver_keeps n src seg now w :
  0 <= n < nics (w_st w) -> src_ok src -> seg_ok seg -> is_u64 now ->
  keeps w (let '(len, w') := tcp_input n src seg now w in tcp_emit_deliver n len now w').
Proof using envok.
  intros Hn Hs Hg Hnow Hw. pose proof (tcp_input_keeps n src seg now w Hn Hs Hg Hnow Hw) as [H1 H2]. destruct (tcp_input _ _ _ _ _) as [len w1].
  cbn [snd] in *. destruct (deliver_keeps n len now w1 ltac:(by rewrite H2) Hnow H1) as [H3 H4]. split; [exact H3|congruence].
Qed.

Lemma ipv6_input_keeps n io len now w : 0 <= n < nics (w_st w) -> is_u64 now -> keeps w (ipv6_input n io len now w).2.
Proof using envok.
  intros Hn Hnow Hw. unfold ipv6_input. destruct (ipv6_parse _ _ _) as [info|] eqn:Ei; [|done].
  destruct (ipv6_info_ok _ _ _ _ (i_mem w Hw) Ei) as (Hs & Hd & _). destruct (_ =? IP6_PROTO_ICMPV6); [by apply icmpv6_input_keeps|].
  destruct (_ =? IP_PROTO_UDP); [by apply udp6_input_keeps|]. destruct (_ =? IP_PROTO_TCP); [|done].
  destruct (tcp_parse6 _ _) as [seg|] eqn:Eg; [|done].
  pose proof (input_deliver_keeps n (inr (src6 info)) seg now w Hn Hs (tcp_parse6_ok _ _ _ (i_mem w Hw) Eg) Hnow Hw) as H.
  by destruct (tcp_input _ _ _ _ _) as [len' w'].
Qed.
Lemma handle_arp_keeps n f len w : keeps w (handle_arp n f len w).
Proof.
  intros Hw. unfold handle_arp. destruct (_ && _); [|done]. split; [|done]. apply inv_link; [exact Hw|].
  pose proof (link_at_ok _ (i_stack w Hw) n) as (L1 & L2 & L3 & L4). split; [apply get_mac_ok, Hw|done].
Qed.
Lemma handle_ip4_keeps n f len now w : 0 <= n < nics (w_st w) -> is_u64 now -> keeps w (handle_ip4 n f len now w).
Proof using envok.
  intros Hn Hnow Hw. unfold handle_ip4. cbv zeta. destruct (negb _); [done|]. destruct (_ || _); [done|].
  destruct (_ =? IP_PROTO_TCP).
  { destruct (ipv4_parse _ _ _) as [info|] eqn:Ei; [|done]. destruct (tcp_parse _ _) as [seg|] eqn:Eg; [|done].
    apply input_deliver_keeps; auto; [exact (ipv4_src_ok _ _ _ _ (i_mem w Hw) Ei)|exact (tcp_parse_ok _ _ _ (i_mem w Hw) Eg)]. }
  destruct (_ =? IP_PROTO_ICMP); [done|]. destruct (_ && _); [|done]. destruct (_ && _) eqn:E; [|done]. apply andb_prop in E as [E _].
  apply Z.leb_le in E. apply sock_deliver_keeps; [lia|exact Hw].
Qed.
Lemma handle_frame_keeps n len now w : 0 <= n < nics (w_st w) -> is_u64 now -> keeps w (handle_frame n len now w).
Proof using envok.
  intros Hn Hnow. unfold handle_frame. cbv zeta. destruct (len <? 14); [done|]. destruct (_ =? ETH_ARP); [apply handle_arp_keeps|].
  destruct (_ =? ETH_IPV6).
  { pose proof (ipv6_input_keeps n (l_io (w_link n w)) len now w Hn Hnow) as H. destruct (ipv6_input _ _ _ _ _) as [out w1]. cbn [snd] in H.
    destruct (0 <? out); [|exact H]. etransitivity; [exact H|]. apply keeps_tx. }
  destruct (_ || _); [done|]. by apply handle_ip4_keeps.
Qed.


Lemma arp_poll_keeps k n w : 0 <= n < nics (w_st w) -> keeps w (arp_poll k n w).
Proof using envok.
  revert w. induction k as [|k IH]; intros w Hn Hw; [done|]. cbn [arp_poll].
  destruct (keeps_rx (w_link n w) w Hw) as [H1 E1]. destruct (link_rx _ w) as [o w1]. cbn [snd] in *. cbv zeta.
  assert (keeps w1 (match o with Some len => handle_frame n len 0 w1 | None => w1 end)) as H2.
  { destruct o; [|done]. apply handle_frame_keeps; [by rewrite E1|unfold is_u64; lia]. }
  destruct (H2 H1) as [H3 E3]. destruct (sleep_keeps 10 _ H3) as [H4 E4]. destruct (IH _ ltac:(by rewrite E4, E3, E1) H4) as [H5 E5].
  split; [exact H5|congruence].
Qed.
Lemma arp_rounds_keeps k n w : 0 <= n < nics (w_st w) -> keeps w (arp_rounds k n w).
Proof using envok.
  revert w. induction k as [|k IH]; intros w Hn Hw; [done|]. cbn [arp_rounds]. destruct (gw_mac _); [done|].
  pose proof (keeps_build (build_arp_request (l_io (w_link n w)) (l_mac (w_link n w)) GW_IP) w (fun H => build_arp_ok _ _ _ (i_mem w H)) Hw) as [H1 E1].
  destruct (build _ w) as [len w1]. cbn [snd] in *. destruct (keeps_tx (w_link n w1) len w1 H1) as [H2 E2]. destruct (link_tx _ len w1) as [ok w2]. cbn [snd] in *.
  destruct (arp_poll_keeps 5 n w2 ltac:(by rewrite E2, E1) H2) as [H3 E3]. destruct (IH _ ltac:(by rewrite E3, E2, E1) H3) as [H4 E4].
  split; [exact H4|congruence].
Qed.
Lemma rx_loop_keeps k n now w : 0 <= n < nics (w_st w) -> is_u64 now -> keeps w (rx_loop k n now w).
Proof using envok.
  intros Hn Hnow. revert w Hn. induction k as [|k IH]; intros w Hn Hw; [done|]. cbn [rx_loop].
  destruct (keeps_rx (w_link n w) w Hw) as [H1 E1]. destruct (link_rx _ w) as [[len|] w1]; cbn [snd] in *; [|done].
  destruct (handle_frame_keeps n len now w1 ltac:(by rewrite E1) Hnow H1) as [H2 E2]. destruct (IH _ ltac:(by rewrite E2, E1) H2) as [H3 E3].
  split; [exact H3|congruence].
Qed.
Lemma rx_links_keeps k n now w : 0 <= n -> is_u64 now -> keeps w (rx_links k n now w).
Proof using envok.
  intros Hn Hnow. revert n w Hn. induction k as [|k IH]; intros n w Hn; [done|]. cbn [rx_links]. cbv zeta.
  etransitivity; [|apply IH; lia]. destruct (_ && _) eqn:E; [|done]. apply andb_prop in E as [E _]. apply Z.ltb_lt in E. by apply rx_loop_keeps.
Qed.
Lemma ping_drain_keeps k n now f w got w' : 0 <= n < nics (w_st w) -> is_u64 now -> ping_drain k n now f w = Some (got, w') -> keeps w w'.
Proof using envok.
  intros Hn Hnow. revert w Hn. induction k as [|k IH]; intros w Hn Hp Hw; [discriminate|]. cbn [ping_drain] in Hp.
  destruct (keeps_rx (w_link n w) w Hw) as [H1 E1]. destruct (link_rx _ w) as [[len|] w1]; cbn [snd] in *; [|by injection Hp as _ <-].
  destruct (f _ _); [by injection Hp as _ <-|].
  destruct (handle_frame_keeps n len now w1 ltac:(by rewrite E1) Hnow H1) as [H2 E2]. destruct (IH _ ltac:(by rewrite E2, E1) Hp H2) as [H3 E3].
  split; [exact H3|congruence].
Qed.
Lemma ping_wait_keeps r k n now f w v w' : 0 <= n < nics (w_st w) -> is_u64 now -> ping_wait r k n now f w = Some (v, w') -> keeps w w'.
Proof using envok.
  intros Hn Hnow. revert w Hn. induction r as [|r IH]; intros w Hn Hp Hw; cbn [ping_wait] in Hp; [by injection Hp as _ <-|].
  destruct (ping_drain k n now f w) as [[got w1]|] eqn:Ed; [|discriminate]. cbn in Hp.
  destruct (ping_drain_keeps k n now f w got w1 Hn Hnow Ed Hw) as [H1 E1]. destruct got; [by injection Hp as _ <-|].
  destruct (sleep_keeps 5 w1 H1) as [H2 E2]. destruct (IH _ ltac:(by rewrite E2, E1) Hp H2) as [H3 E3]. split; [exact H3|congruence].
Qed.

(** ** Requests on UDP sockets *)

Record req_ok (req : NetSReq) : Prop := {
  q_sock : is_u64 (r_sock req);
  q_len : is_u64 (r_len req)
}.

Lemma sock_alloc_keeps n w : 0 <= n < nics (w_st w) -> keeps w (sock_alloc n w).2.
Proof.
  intros Hn Hw. unfold sock_alloc. destruct (position _ _) as [i|]; [|done]. split; [|done]. apply inv_sock; [exact Hw|].
  destruct (sock_new_ok (nics (w_st w)) ltac:(lia)) as (_ & H2 & H3 & H4). done.
Qed.
Lemma sock_bind_keeps id port from w : is_u16 port -> keeps w (sock_bind id port from w).2.
Proof.
  intros Hp Hw. unfold sock_bind. destruct (negb _); [done|]. destruct (sock_slot _ _) as [i|]; [|done]. destruct (_ =? 0); [|done].
  split; [|done]. apply inv_sock; [exact Hw|]. destruct (sock_at_ok _ (i_stack w Hw) i) as (H1 & H2 & H3 & H4). done.
Qed.
Lemma udp4_out_keeps n dst sp dp buf len w : bytes dst -> keeps w (udp4_out n dst sp dp buf len w).2.
Proof using envok.
  intros Hd Hw. unfold udp4_out. cbv zeta. pose proof (link_at_ok _ (i_stack w Hw) n) as (L1 & _). fold (w_link n w) in L1.
  destruct (gw_mac _); [|done]. revert Hw. apply frame_keeps. intros Hw. apply build_udp_ok; [apply L1|exact Hd|apply Hw].
Qed.
Lemma v4_mapped_bytes a v : bytes a -> v4_mapped a = Some v -> bytes v.
Proof. intros Ha. unfold v4_mapped. destruct (_ && _); [|discriminate]. intros H. injection H as <-. unfold bytes. bytes_list. Qed.
Lemma sock_sendto_keeps req w : req_ok req -> keeps w (sock_sendto req w).2.
Proof using envok.
  intros [_ Hl]. unfold sock_sendto. destruct (_ || _); [done|]. destruct (sock_slot _ _) as [i|]; [|done]. cbv zeta. destruct (_ || _); [done|].
  destruct (bool_decide _); [apply sock_deliver_keeps, Hl|apply udp4_out_keeps, unpack_bytes].
Qed.
Lemma sock_sendto6_keeps req w : req_ok req -> keeps w (sock_sendto6 req w).2.
Proof using envok.
  intros [_ [Hl _]] Hw. unfold sock_sendto6. destruct (_ || _); [done|]. destruct (sock_slot _ _) as [i|]; [|done]. cbv zeta. destruct (_ || _); [done|].
  pose proof (get_v6_bytes (r_buf req) _ (i_mem w Hw)) as Hb. destruct (v4_mapped _) as [v4|] eqn:E4.
  { destruct (bool_decide _); [by apply sock_deliver_keeps|]. apply udp4_out_keeps; [by eapply v4_mapped_bytes|exact Hw]. }
  destruct (_ || _); [by apply sock_deliver_keeps|].
  pose proof (link_at_ok _ (i_stack w Hw) (k_nic (sock_at i (w_st w)))) as (_ & _ & _ & L4). fold (w_link (k_nic (sock_at i (w_st w))) w) in L4.
  destruct (gw6_mac _); [|done]. pose proof (primary_ok _ (i_stack w Hw) (k_nic (sock_at i (w_st w)))) as [_ Hp]. revert Hw. apply frame_keeps. intros Hw.
  apply build_udp6_ok; [apply mac_bytes_bytes|apply L4|exact Hp|exact Hb|apply Hw].
Qed.
Lemma sock_recvfrom_keeps req w : keeps w (sock_recvfrom req w).2.
Proof.
  intros Hw. unfold sock_recvfrom. destruct (_ || _); [done|]. destruct (sock_slot _ _) as [i|]; [|done]. destruct (0 <? _); [|done].
  destruct (sock_at_ok _ (i_stack w Hw) i) as (H1 & H2 & H3 & H4). split; [|done].
  apply inv_sock; [|split; [exact H1|]; split; [exact H2|]; split; [cbn; unfold PAY_MAX; lia|exact H4]].
  apply (inv_mem w _ Hw), copy_to_ok; [apply Forall_take, H4|apply Hw].
Qed.
Lemma sock_close_keeps id w : keeps w (sock_close id w).2.
Proof. intros Hw. unfold sock_close. destruct (_ || _); [done|]. split; [|done]. apply inv_sock; [exact Hw|]. apply sock_new_ok, (t_nics _ (i_stack w Hw)). Qed.
Lemma netinfo_keeps k i cnt req w : keeps w (netinfo_loop k i cnt req w).2.
Proof.
  revert i cnt w. induction k as [|k IH]; intros i cnt w; [done|]. cbn [netinfo_loop]. destruct (_ || _); [|apply IH].
  etransitivity; [|apply IH]. apply keeps_copy. intros Hw. pose proof (link_at_ok _ (i_stack w Hw) i) as (_ & [_ L2] & [_ L3] & _).
  unfold link_info. repeat (apply Forall_app; split); auto using to_le_bytes.
Qed.

(** ** Requests on TCP connections *)

Lemma inv_set_conn w i c : inv w -> conn_ok (nics (w_st w)) c -> granted (w_dev w) c -> inv (on_st (set_conn i c) w).
Proof. intros Hw Hc Hg. apply (inv_conn w i c (w_mem w)); try assumption. apply Hw. Qed.
Lemma run_conn_keeps i f now w :
  is_u64 now ->
  (forall c io m, conn_ok (nics (w_st w)) c -> granted (w_dev w) c -> mem_ok m ->
     conn_ok (nics (w_st w)) (f c io m).1.1 /\ granted (w_dev w) (f c io m).1.1 /\ mem_ok (f c io m).2) ->
  keeps w (run_conn i f now w).2.
Proof using envok.
  intros Hnow Hf Hw. unfold run_conn. destruct (on_conn_keeps i f w Hf Hw) as [H1 E1]. destruct (on_conn i f w) as [len w1]. cbn [snd] in *.
  pose proof (c_nic _ _ (conn_at_ok _ (i_stack w Hw) i)) as Hn.
  destruct (deliver_keeps (nic (conn_at i (w_st w))) len now w1 ltac:(by rewrite E1) Hnow H1) as [H2 E2]. split; [exact H2|congruence].
Qed.
Lemma tcp_open_keeps n from w : 0 <= n -> keeps w (tcp_open n from w).2.
Proof.
  intros Hn Hw. unfold tcp_open. destruct (Z.leb_spec (nics (w_st w)) n); [done|]. destruct (position _ _) as [i|]; [|done]. split; [|done].
  apply inv_set_conn; [exact Hw|apply owner_ok; [apply new_ok, (t_nics _ (i_stack w Hw))|lia|unfold is_u16; lia]|]. intros _. split; [done|by intros [? ?]].
Qed.
Lemma tcp_listen_keeps n port from w : 0 <= n -> is_u16 port -> from <> U64_MAX -> keeps w (tcp_listen_internal n port from w).2.
Proof.
  intros Hn Hp Hf Hw. unfold tcp_listen_internal. destruct (Z.leb_spec (nics (w_st w)) n); [done|]. destruct (Z.eqb_spec (sys_net_owner (w_dev w) port) from) as [Ho|]; [|done].
  cbn [negb orb]. destruct (position _ _) as [i|]; [|done]. split; [|done]. pose proof (new_ok (nics (w_st w)) (proj1 (t_nics _ (i_stack w Hw)))) as Hnew.
  apply inv_set_conn; [exact Hw| |intros _; split; [by left|by intros [? ?]]]. apply peer_ok; [auto with conn|apply addr_ok_zeros|apply addr_ok_zeros|unfold is_u16; cbn; lia].
Qed.
Lemma tcp_slot_used id st i : tcp_slot id st = Some i -> used (conn_at i st) = true /\ i = Z.to_nat (id - 1).
Proof. unfold tcp_slot. destruct (_ || _); [discriminate|]. cbv zeta. destruct (used _) eqn:E; [|discriminate]. intros H. injection H as <-. done. Qed.
Lemma tcp_slot_owner id from st i : tcp_slot_owned id from st = Some i -> used (conn_at i st) = true /\ owner (conn_at i st) = from /\ i = Z.to_nat (id - 1).
Proof.
  unfold tcp_slot_owned. destruct (tcp_slot id st) as [k|] eqn:E; [|discriminate]. destruct (Z.eqb_spec (owner (conn_at k st)) from); [|discriminate].
  intros H. injection H as <-. apply tcp_slot_used in E as [? ?]. done.
Qed.
Lemma tcp_accept_keeps id from w : keeps w (tcp_accept_internal id from w).2.
Proof.
  intros Hw. unfold tcp_accept_internal. destruct (tcp_slot id (w_st w)) as [i|] eqn:Ei; [|done]. apply tcp_slot_used in Ei as [Hu _]. cbv zeta.
  destruct (_ && _) eqn:El; [|done]. apply andb_prop in El as [El1 El2]. apply Z.eqb_eq in El1, El2.
  destruct (position _ _) as [k|] eqn:Ek; [|done]. split; [|done]. pose proof (conn_at_ok _ (i_stack w Hw) k) as Hk. pose proof Hk as [].
  apply inv_set_conn; [exact Hw|by apply owner_ok|].
  apply position_Some in Ek as [(c & Hc & Ha) _]. assert (conn_at k (w_st w) = c) as -> by (by apply nth_lookup_Some). unfold acceptable in Ha.
  apply andb_prop in Ha as [Ha _]. apply andb_prop in Ha as [_ Hp]. apply Z.eqb_eq in Hp.
  intros _. split; [|by intros [_ ?]]. intros Hp0 _. cbn [local_port owner set_owner] in *. rewrite Hp in *.
  destruct (granted_at w i Hw Hu) as [Hg _]. rewrite El2 in Hg. apply Hg; [exact Hp0|]. intros [Hr _]. rewrite El1 in Hr. discriminate.
Qed.
Lemma tcp_bind_keeps id port from w : is_u16 port -> from <> U64_MAX -> keeps w (tcp_bind id port from w).2.
Proof.
  intros Hp Hf Hw. unfold tcp_bind. destruct (Z.eqb_spec (sys_net_owner (w_dev w) port) from) as [Ho|]; [|done]. cbn [negb].
  destruct (tcp_slot_owned _ _ _) as [i|] eqn:Ei; [|done]. apply tcp_slot_owner in Ei as (Hu & Hown & _). destruct (_ =? 0); [|done]. split; [|done].
  pose proof (conn_at_ok _ (i_stack w Hw) i) as Hk. pose proof Hk as []. apply inv_set_conn; [exact Hw|by apply owner_ok|].
  intros _. split; [|exact (proj2 (granted_at w i Hw Hu))]. intros _ _. cbn [local_port owner set_owner]. left. by rewrite Hown.
Qed.
Lemma isn_ok id : is_u64 id -> is_u32 (Z.lxor 0x4d4f0000 (w32 (w32 id * 0x01010101))).
Proof.
  intros _. pose proof (w32_range (w32 id * 0x01010101)) as [H1 H2]. split; [apply Z.lxor_nonneg; lia|].
  destruct (decide (Z.lxor 0x4d4f0000 (w32 (w32 id * 0x01010101)) = 0)) as [->|Hn]; [lia|].
  apply Z.log2_lt_pow2; [assert (0 <= Z.lxor 0x4d4f0000 (w32 (w32 id * 0x01010101))) by (apply Z.lxor_nonneg; lia); lia|].
  eapply Z.le_lt_trans; [apply Z.log2_lxor; lia|]. apply Z.max_lub_lt; [by vm_compute|apply log2_lt; lia].
Qed.
Lemma tcp_connect_op_keeps id addr port now from w : is_u64 id -> is_u64 now -> keeps w (tcp_connect_op id addr port now from w).2.
Proof using envok.
  intros Hid Hnow Hw. unfold tcp_connect_op. destruct (tcp_slot_owned _ _ _) as [i|]; [|done]. cbv zeta.
  pose proof (link_at_ok _ (i_stack w Hw) (nic (conn_at i (w_st w)))) as (L1 & _). fold (w_link (nic (conn_at i (w_st w))) w) in L1.
  destruct (gw_mac _) as [gm|]; [|done]. destruct (_ || _); [done|]. destruct L1 as [L1 L2].
  match goal with |- context [run_conn i ?f now w] => pose proof (run_conn_keeps i f now w Hnow) as H; destruct (run_conn i f now w) as [len w1] end.
  cbn [snd] in *. apply H; [|exact Hw]. intros c io m Hc Hg Hm. set (c1 := set_peer _ _ _ _ c).
  assert (conn_ok (nics (w_st w)) c1) as Hc1 by (apply peer_ok; [exact Hc|done|split; [done|apply unpack_bytes]|apply w16_range]).
  assert (granted (w_dev w) c1) as Hg1 by exact Hg. clearbody c1. apply (triple_keeps _ _ c1 _ Hg1). unfold tcp_connect.
  pose proof (connect_ok _ c1 Hc1 now Hnow _ (isn_ok id Hid)) as (H1 & H2 & H3). destruct (connect_conn _ now c1) as [c2 s]. by apply emit_ok.
Qed.
Lemma tcp_send_op_keeps id buf len now from w : is_u64 now -> keeps w (tcp_send_op id buf len now from w).2.
Proof using envok.
  intros Hnow Hw. unfold tcp_send_op. destruct (_ || _); [done|]. destruct (tcp_slot_owned _ _ _) as [i|]; [|done]. cbv zeta.
  match goal with |- context [run_conn i ?f now w] => pose proof (run_conn_keeps i f now w Hnow) as H; destruct (run_conn i f now w) as [fl w1] end.
  cbn [snd] in *. apply H; [|exact Hw]. intros c io m Hc Hg Hm. apply (triple_keeps _ _ c _ Hg), emit_ok; [|exact Hm].
  apply send_conn_ok; auto. apply slice_bytes, Hw.
Qed.
Lemma tcp_recv_op_keeps id buf from w : keeps w (tcp_recv_op id buf from w).2.
Proof.
  intros Hw. unfold tcp_recv_op. destruct (_ || _); [done|]. destruct (tcp_slot_owned _ _ _) as [i|]; [|done]. cbv zeta. destruct (0 <? _); [|done]. split; [|done].
  pose proof (conn_at_ok _ (i_stack w Hw) i) as Hk. pose proof Hk as []. apply inv_set_conn; [|apply rx_ok; auto with conn|exact (granted_at w i Hw)].
  apply (inv_mem w _ Hw), copy_to_ok; [apply Forall_take; by destruct c_rx0|apply Hw].
Qed.
Lemma tcp_close_op_keeps id now from w : is_u64 now -> keeps w (tcp_close_op id now from w).2.
Proof using envok.
  intros Hnow Hw. unfold tcp_close_op. destruct (tcp_slot_owned _ _ _) as [i|]; [|done].
  match goal with |- context [run_conn i ?f now w] => pose proof (run_conn_keeps i f now w Hnow) as H; destruct (run_conn i f now w) as [fl w1] end.
  cbn [snd] in *. destruct H as [H1 E1]; [|exact Hw|].
  { intros c io m Hc Hg Hm. apply (triple_keeps _ _ c _ Hg), emit_ok; [by apply close_ok|exact Hm]. }
  destruct (_ && _); [|done]. split; [|exact E1]. apply inv_set_conn; [exact H1|apply new_ok, (t_nics _ (i_stack w1 H1))|apply granted_new].
Qed.

Lemma req_nic_range req w : inv w -> req_ok req -> 0 <= req_nic req (w_st w) < nics (w_st w).
Proof.
  intros Hw [[Hs _] _]. unfold req_nic. pose proof (t_nics _ (i_stack w Hw)). destruct (Z.ltb_spec (r_sock req) (nics (w_st w))); lia.
Qed.
Lemma sock_ping4_keeps fuel text req now w v w' : req_ok req -> is_u64 now -> sock_ping4 fuel text req now w = Some (v, w') -> keeps w w'.
Proof using envok.
  intros Hq Hnow Hp Hw. pose proof (req_nic_range req w Hw Hq) as Hn. unfold sock_ping4 in Hp. cbv zeta in Hp. set (n := req_nic req (w_st w)) in *. clearbody n.
  destruct (negb _); [by injection Hp as _ <-|]. destruct (bool_decide _); [by injection Hp as _ <-|].
  set (w1 := match gw_mac (w_link n w) with Some _ => w | None => _ end) in Hp.
  assert (keeps w w1) as H1 by (subst w1; clear Hp; destruct (gw_mac (w_link n w)); [reflexivity|by apply arp_rounds_keeps]). clearbody w1. destruct (H1 Hw) as [H2 E2].
  pose proof (link_at_ok _ (i_stack w1 H2) n) as (L1 & _). fold (w_link n w1) in L1. destruct (gw_mac (w_link n w1)) as [gw|]; [|by injection Hp as _ <-].
  match type of Hp with context [send_frame ?l ?f w1] => assert (keeps w1 (send_frame l f w1).2) as H3; [|destruct (send_frame l f w1) as [ok w2]] end.
  { apply frame_keeps. intros H. apply build_echo4_ok; [apply mac_bytes_bytes|apply L1|apply unpack_bytes|apply H]. }
  cbn [snd] in H3. destruct (H3 H2) as [H4 E4]. destruct (ok =? 0); [injection Hp as _ <-; split; [exact H4|congruence]|].
  destruct (ping_wait_keeps _ _ _ _ _ _ _ _ ltac:(by rewrite E4, E2) Hnow Hp H4) as [H5 E5]. split; [exact H5|congruence].
Qed.
Lemma sock_ping6_keeps fuel text req now w v w' : req_ok req -> is_u64 now -> sock_ping6 fuel text req now w = Some (v, w') -> keeps w w'.
Proof using envok.
  intros Hq Hnow Hp Hw. pose proof (req_nic_range req w Hw Hq) as Hn. unfold sock_ping6 in Hp. cbv zeta in Hp. set (n := req_nic req (w_st w)) in *. clearbody n.
  destruct (_ || _); [by injection Hp as _ <-|]. pose proof (get_v6_bytes (r_buf req) _ (i_mem w Hw)) as Hb.
  set (src := if _ && _ then _ else _) in Hp.
  assert (bytes src) as Hs by (subst src; destruct (_ && _); [apply link_local_bytes, mac_bytes_bytes|apply primary_ok, Hw]). clearbody src.
  destruct (v6_eq _ _); [by injection Hp as _ <-|].
  pose proof (link_at_ok _ (i_stack w Hw) n) as (_ & _ & _ & L4). fold (w_link n w) in L4. destruct (gw6_mac (w_link n w)) as [gw|]; [|by injection Hp as _ <-].
  destruct (_ && negb _); [by injection Hp as _ <-|].
  match type of Hp with context [send_frame ?l ?f w] => assert (keeps w (send_frame l f w).2) as H3; [|destruct (send_frame l f w) as [ok w2]] end.
  { apply frame_keeps. intros H. apply build_echo6_ok; [apply mac_bytes_bytes|apply L4|exact Hs|exact Hb|apply H]. }
  cbn [snd] in H3. destruct (H3 Hw) as [H4 E4]. destruct (ok =? 0); [injection Hp as _ <-; split; [exact H4|congruence]|].
  destruct (ping_wait_keeps _ _ _ _ _ _ _ _ ltac:(by rewrite E4) Hnow Hp H4) as [H5 E5]. split; [exact H5|congruence].
Qed.

(** ** Start and turns of the service *)

Lemma sys_page_keeps f w :
  (forall d m, mem_ok m -> mem_ok (f d m).2) -> (forall d m, ports_kept d (f d m).1.2) ->
  keeps w (sys_page f w).2.
Proof.
  intros Hm Ho [H1 H2 H3]. unfold sys_page. specialize (Hm (w_dev w) (w_mem w) H2). specialize (Ho (w_dev w) (w_mem w)).
  destruct (f (w_dev w) (w_mem w)) as [[r d] m]. cbn [fst snd] in *. split; [|done]. constructor; try assumption.
  eapply Forall_impl; [exact H3|]. intros c. by apply granted_dev.
Qed.
Lemma share_links_keeps k i es w w' : share_links k i es w = Some w' -> keeps w w'.
Proof using envok.
  revert i w. induction k as [|k IH]; intros i w; cbn [share_links]; [intros H; by injection H as <-|]. cbv zeta. set (e := nth _ _ _).
  set (w0 := on_st _ w).
  assert (keeps w w0) as H0 by (intros Hw; split; [|done]; apply inv_link; [exact Hw|apply down_ok]). clearbody w0.
  pose proof (sys_page_keeps (sys_alloc_page (io_vaddr e)) w0 (alloc_mem _) (alloc_ports _)) as H1. destruct (sys_page _ w0) as [[] w1]; [|discriminate]. cbn [snd negb] in *.
  pose proof (sys_page_keeps (sys_share_page (io_vaddr e) (nic_domain e)) w1 (share_mem _ _) (share_ports _ _)) as H2. destruct (sys_page _ w1) as [[] w2]; [|discriminate]. cbn [snd negb] in *.
  intros H. etransitivity; [exact H0|]. etransitivity; [exact H1|]. etransitivity; [exact H2|]. by eapply IH.
Qed.
Lemma mac_probe_keeps t b l w : keeps w (mac_probe t b l w).2.
Proof using envok.
  revert w. induction t as [|t IH]; intros w; [done|]. cbn [mac_probe].
  assert (keeps w (link_call l NET_OP_INFO 0 w).2) as H by (intros Hw; split; [by apply link_call_inv|by rewrite link_call_nics]).
  destruct (link_call l NET_OP_INFO 0 w) as [a w1]. cbn [snd] in H. destruct (negb _); [exact H|]. etransitivity; [exact H|].
  etransitivity; [|apply IH]. destruct b; [apply sleep_keeps|done].
Qed.
Lemma bring_up_keeps k i w w' : 0 <= i -> i + Z.of_nat k <= nics (w_st w) -> bring_up k i w = Some w' -> keeps w w'.
Proof using envok.
  revert i w. induction k as [|k IH]; intros i w Hi Hk; cbn [bring_up]; [intros H; by injection H as <-|]. cbv zeta. intros H Hw.
  destruct (mac_probe_keeps (if i =? 0 then 200 else 1) (i =? 0) (w_link i w) w Hw) as [H1 E1].
  destruct (mac_probe _ _ _ _) as [a w1]. cbn [snd] in *. destruct (a =? 0).
  { destruct (i =? 0); [discriminate|]. destruct (IH (i + 1) w1 ltac:(lia) ltac:(rewrite E1; lia) H H1) as [H2 E2]. split; [exact H2|congruence]. }
  assert (inv (on_st (set_link i (set_up a (w_link i w1))) w1)) as H2 by (apply inv_link; [exact H1|exact (link_at_ok _ (i_stack w1 H1) i)]).
  set (w2 := on_st _ w1) in *. assert (nics (w_st w2) = nics (w_st w1)) as E2 by done. clearbody w2.
  destruct (arp_rounds_keeps 40 i w2 ltac:(rewrite E2, E1; lia) H2) as [H3 E3].
  destruct (IH (i + 1) (arp_learn_gw i w2) ltac:(lia) ltac:(unfold arp_learn_gw; rewrite E3, E2, E1; lia) H H3) as [H4 E4]. split; [exact H4|]. unfold arp_learn_gw in E4. congruence.
Qed.
Lemma build_rs_ok io a m : mem_ok m -> mem_ok (build_rs io a m).2.
Proof.
  assert (bytes V6_ALL_ROUTERS) by (unfold V6_ALL_ROUTERS, bytes; bytes_list). assert (bytes V6_MAC_ALL_ROUTERS) by (unfold V6_MAC_ALL_ROUTERS, bytes; bytes_list).
  unfold build_rs. builds.
Qed.
Lemma ra_wait_keeps t n w : keeps w (ra_wait t n w).
Proof using envok.
  revert w. induction t as [|t IH]; intros w; [done|]. cbn [ra_wait]. destruct (v6_up _); [done|].
  pose proof (keeps_rx (w_link n w) w) as H. destruct (link_rx _ w) as [o w1]. cbn [snd] in H. cbv zeta. etransitivity; [exact H|]. etransitivity; [|apply IH].
  etransitivity; [|apply sleep_keeps]. destruct o as [len|]; [|done]. destruct (_ =? ETH_IPV6); [apply icmpv6_input_keeps|done].
Qed.
Lemma ipv6_probe_keeps n w : keeps w (ipv6_probe n w).
Proof using envok.
  unfold ipv6_probe. cbv zeta. pose proof (keeps_build (build_rs (l_io (w_link n w)) (l_mac (w_link n w))) w (fun H => build_rs_ok _ _ _ (i_mem w H))) as H.
  destruct (build _ w) as [len w1]. cbn [snd] in H. etransitivity; [exact H|]. etransitivity; [apply keeps_tx|apply ra_wait_keeps].
Qed.
Lemma start_inv tbl m d w : mem_ok m -> 0 <= nic_count tbl -> start_service tbl m d = Some w -> inv w.
Proof using envok.
  intros Hm Hcnt. unfold start_service. destruct (negb _); [discriminate|]. cbv zeta. set (n := Z.min (nic_count tbl) NIC_MAX). destruct (Z.eqb_spec n 0); [discriminate|].
  assert (0 < n <= NIC_MAX) as Hn by (subst n; unfold NIC_MAX in *; lia). clearbody n.
  assert (inv (mk_world (mk_stack (links Stack_zeroed) n (socks Stack_zeroed) (tcons Stack_zeroed)) m d)) as H0.
  { constructor; cbn [w_st w_mem w_dev]; [|exact Hm|apply Forall_replicate, granted_new]. constructor; cbn [links nics socks tcons Stack_zeroed]; [exact Hn| | |].
    - split; [apply length_replicate|apply Forall_replicate, down_ok].
    - split; [apply length_replicate|apply Forall_replicate, sock_new_ok; lia].
    - split; [apply length_replicate|apply Forall_replicate, new_ok; lia]. }
  destruct (share_links _ _ _ _) as [w1|] eqn:E1; [|discriminate]. cbn [mbind option_bind]. destruct (share_links_keeps _ _ _ _ _ E1 H0) as [H1 N1]. cbn [w_st nics] in N1.
  destruct (bring_up _ _ w1) as [w2|] eqn:E2; [|discriminate]. cbn [mbind option_bind]. intros H. injection H as <-.
  destruct (bring_up_keeps (Z.to_nat n) 0 w1 w2 ltac:(lia) ltac:(rewrite N1; lia) E2 H1) as [H2 _]. by apply ipv6_probe_keeps.
Qed.

Lemma field_u64 i l : bytes l -> is_u64 (field i 8 l).
Proof.
  intros Hl. unfold field. pose proof (from_le_bound (take 8 (drop i l)) (Forall_take _ _ _ (Forall_drop _ _ _ Hl))) as H. split; [lia|].
  eapply Z.lt_le_trans; [apply H|]. change (2^64) with (256 ^ 8). apply Z.pow_le_mono_r; [lia|]. rewrite length_take. lia.
Qed.
Lemma decode_ok l : bytes l -> req_ok (NetSReq_decode l).
Proof. intros Hl. constructor; by apply field_u64. Qed.

Lemma serve_req_keeps fuel text from req now w v w' :
  req_ok req -> is_u64 now -> from <> U64_MAX -> serve_req fuel text from req now w = Some (v, w') -> keeps w w'.
Proof using envok.
  intros Hq Hnow Hf. pose proof Hq as [Hs Hl]. unfold serve_req. cbv zeta.
  assert (forall r : Z * world D, keeps w r.2 -> Some r = Some (v, w') -> keeps w w') as Hr by (intros r H E; by injection E as ->).
  pose proof (w16_range (r_port req)) as Hp.
  repeat (match goal with |- context [if r_op req =? ?x then _ else _] => destruct (r_op req =? x) end;
    [first [apply Hr | idtac]|]).
  - destruct (Z.ltb_spec (r_sock req) (nics (w_st w))); [|done]. apply sock_alloc_keeps. unfold is_u64 in Hs. lia.
  - by apply sock_bind_keeps.
  - by apply sock_sendto_keeps.
  - by apply sock_sendto6_keeps.
  - apply sock_recvfrom_keeps.
  - apply sock_close_keeps.
  - apply tcp_open_keeps, Hs.
  - by apply tcp_bind_keeps.
  - by apply tcp_connect_op_keeps.
  - by apply tcp_send_op_keeps.
  - apply tcp_recv_op_keeps.
  - by apply tcp_close_op_keeps.
  - by apply tcp_listen_keeps; [apply Hs| |].
  - apply tcp_accept_keeps.
  - apply netinfo_keeps.
  - by apply sock_ping4_keeps.
  - by apply sock_ping6_keeps.
  - apply (Hr (0, w)). done.
Qed.
Lemma turn_keeps now w : is_u64 now -> keeps w (turn_rest now w).
Proof using envok.
  intros Hnow. unfold turn_rest, tcp_tick_all. etransitivity; [|apply sleep_keeps]. etransitivity; [|by apply tick_loop_keeps]. by apply rx_links_keeps.
Qed.

(** ** The buffer of a request

    The buffer address of a request is an address of the service's own space, which also holds its
    code, its stack and the tables themselves; the service writes there, and reads from there,
    without asking whose memory it is. [spare] are the addresses that are mapped in the service's
    space and belong to none of these: pages the applications share with it. *)

(** How many bytes at the buffer address serving the request can touch. *)
Definition buffer_len (st : Stack) (req : NetSReq) : Z :=
  let op := r_op req in
  if op =? NETS_OP_SENDTO then if PAY_MAX <? r_len req then 0 else r_len req
  else if op =? NETS_OP_SENDTO6 then if PAY_MAX <? r_len req then 0 else 16 + r_len req
  else if op =? NETS_OP_RECVFROM then PAY_MAX
  else if op =? NETS_OP_TSEND then if TCP_MSS <? r_len req then 0 else r_len req
  else if op =? NETS_OP_TRECV then PAY_MAX
  else if op =? NETS_OP_NETINFO then nics st * 88
  else if op =? NETS_OP_PING6 then 16
  else 0.

(** The operations that refuse a buffer that is null or not mapped. *)
Definition checks_buffer (op : Z) : bool :=
  (op =? NETS_OP_SENDTO) || (op =? NETS_OP_SENDTO6) || (op =? NETS_OP_RECVFROM) || (op =? NETS_OP_TSEND) || (op =? NETS_OP_TRECV).

Definition buffer_ok (spare : Z -> Prop) (msg : Message) (w : world D) : Prop :=
  let req := NetSReq_decode (m_payload msg) in
  m_tag msg <> NETS_REQ_TAG
  \/ checks_buffer (r_op req) = true /\ (r_buf req = 0 \/ sys_virt_to_phys (w_dev w) (r_buf req) = 0)
  \/ forall a, r_buf req <= a < r_buf req + buffer_len (w_st w) req -> spare a.

(** The operations that write at the buffer address. *)
Definition fills_buffer (op : Z) : bool :=
  (op =? NETS_OP_RECVFROM) || (op =? NETS_OP_TRECV) || (op =? NETS_OP_NETINFO).

Lemma link_info_length i l : link_ok l -> length (link_info i l) = 88%nat.
Proof. intros (_ & [H1 _] & [H2 _] & _). unfold link_info. rewrite !length_app, !length_to_le, H1, H2. done. Qed.

Lemma netinfo_frame k i cnt req (w : world D) a :
  stack_ok (w_st w) -> a < r_buf req + cnt * 88 \/ r_buf req + (cnt + Z.of_nat k) * 88 <= a ->
  w_mem (netinfo_loop k i cnt req w).2 a = w_mem w a.
Proof.
  revert i cnt w. induction k as [|k IH]; intros i cnt w Hw Ha; [done|]. cbn [netinfo_loop]. destruct (_ || _).
  - rewrite IH; [|done|lia]. cbn [on_mem w_mem]. apply copy_to_out.
    rewrite link_info_length by (by apply link_at_ok). lia.
  - apply IH; [done|lia].
Qed.

(** These operations write only into the buffer, and talk to no driver. *)
Lemma fills_frame fuel text from req now (w w' : world D) v :
  stack_ok (w_st w) -> fills_buffer (r_op req) = true -> serve_req fuel text from req now w = Some (v, w') ->
  (forall a, a < r_buf req \/ r_buf req + buffer_len (w_st w) req <= a -> w_mem w' a = w_mem w a) /\
  (checks_buffer (r_op req) = true -> r_buf req = 0 \/ sys_virt_to_phys (w_dev w) (r_buf req) = 0 -> w' = w).
Proof.
  intros Hw Hop. assert (r_op req = NETS_OP_RECVFROM \/ r_op req = NETS_OP_TRECV \/ r_op req = NETS_OP_NETINFO) as Ho.
  { unfold fills_buffer in Hop. repeat (apply orb_true_iff in Hop as [Hop|Hop]); apply Z.eqb_eq in Hop; tauto. }
  clear Hop. unfold serve_req, buffer_len. cbv zeta.
  destruct Ho as [->|[->| ->]];
    repeat (match goal with |- context [if ?x =? ?y then _ else _] =>
              let b := eval vm_compute in (x =? y) in match b with true => idtac | false => idtac end; change (x =? y) with b; cbv iota end).
  - unfold sock_recvfrom. destruct (_ || _) eqn:Eb; [by intros [= <- <-]|]. intros H. split.
    + destruct (sock_slot _ _) as [i|]; [|by injection H as <- <-]. destruct (0 <? _); [|by injection H as <- <-]. injection H as <- <-.
      intros a Ha. cbn [on_st on_mem w_mem]. apply copy_to_out. destruct (sock_at_ok _ Hw i) as (_ & _ & H3 & _). rewrite length_take. lia.
    + intros _ Hb. apply orb_false_iff in Eb as [E1 E2]. apply Z.eqb_neq in E1, E2. tauto.
  - unfold tcp_recv_op. destruct (_ || _) eqn:Eb; [by intros [= <- <-]|]. intros H. split.
    + destruct (tcp_slot_owned _ _ _) as [i|]; [|by injection H as <- <-]. cbv zeta in H. destruct (0 <? _); [|by injection H as <- <-]. injection H as <- <-.
      intros a Ha. cbn [on_st on_mem w_mem recv_conn snd]. apply copy_to_out. pose proof (c_rxlen _ _ (conn_at_ok _ Hw i)). unfold unread. rewrite length_take. lia.
    + intros _ Hb. apply orb_false_iff in Eb as [E1 E2]. apply Z.eqb_neq in E1, E2. tauto.
  - intros H. split; [|done]. intros a Ha. injection H as H. pose proof (netinfo_frame (Z.to_nat (nics (w_st w))) 0 0 req w a Hw) as Hf.
    unfold sock_netinfo in H. rewrite H in Hf. apply Hf. pose proof (t_nics _ Hw). lia.
Qed.

(** The main loop: serve a message whose buffer is not the service's own memory, or do the rest of
    a turn. *)
Inductive svc_step (spare : Z -> Prop) : world D -> world D -> Prop :=
| svc_msg fuel text msg now w v w' :
    is_u64 now -> bytes (m_payload msg) -> m_from msg <> U64_MAX -> buffer_ok spare msg w ->
    serve_msg fuel text msg now w = Some (v, w') -> svc_step spare w w'
| svc_turn now w : is_u64 now -> svc_step spare w (turn_rest now w).
Definition served (spare : Z -> Prop) (w : world D) : Prop :=
  exists tbl m d w0, mem_ok m /\ 0 <= nic_count tbl /\ start_service tbl m d = Some w0 /\ rtc (svc_step spare) w0 w.

Lemma step_keeps spare w w' : svc_step spare w w' -> keeps w w'.
Proof using envok.
  intros [fuel text msg now w0 v w1 Hnow Hb Hf _ Hs|now w0 Hnow]; [|by apply turn_keeps]. unfold serve_msg in Hs.
  destruct (negb _); [by injection Hs as _ <-|]. by eapply serve_req_keeps; [apply decode_ok| | |].
Qed.
Lemma served_state spare w : served spare w -> inv w.
Proof using envok.
  intros (tbl & m & d & w0 & Hm & Hc & Hs & Hr). pose proof (start_inv tbl m d w0 Hm Hc Hs) as H0. clear Hs.
  induction Hr as [|w0 w1 w2 H1 _ IH]; [exact H0|]. apply IH. by apply (step_keeps spare w0 w1).
Qed.

(** Requests other than an echo. *)
Definition is_echo (msg : Message) : bool :=
  let op := r_op (NetSReq_decode (m_payload msg)) in (op =? NETS_OP_PING4) || (op =? NETS_OP_PING6).

(** C11. The state of the network service is well typed. In every state that the service reaches
    from its start by receiving frames of any content and serving messages of any domain whose
    buffer is not the service's own memory, every table has its length, every index into a table
    lies inside it, every port, sequence number, counter and timer lies within its width, every
    length of stored data lies within the buffer it counts, and every address is a list of bytes of
    its size. Such a message, if it is not a request for an echo, is answered; one that asks for
    data (RECVFROM, TRECV, NETINFO) changes no memory but that of its buffer. A message whose buffer
    address lies in the service's own memory or, for NETINFO and PING6, is not mapped is excluded:
    the service writes there, or faults, without a check. *)
Theorem service_state_typed spare w :
  served spare w ->
  stack_ok (w_st w) /\ mem_ok (w_mem w)
  /\ forall fuel text msg now, buffer_ok spare msg w -> is_echo msg = false ->
     exists v w', serve_msg fuel text msg now w = Some (v, w') /\
       (fills_buffer (r_op (NetSReq_decode (m_payload msg))) = true -> forall a, ~ spare a -> w_mem w' a = w_mem w a).
Proof using envok.
  intros Hs. apply served_state in Hs as []. split; [assumption|]. split; [assumption|].
  intros fuel text msg now Hb He. unfold is_echo in He. apply orb_false_iff in He as [H1 H2].
  assert (is_Some (serve_msg fuel text msg now w)) as [[v w'] Hsm].
  { unfold serve_msg, serve_req. destruct (negb _); [by eexists|]. cbv zeta. rewrite H1, H2.
    repeat (match goal with |- context [if ?b then _ else _] => destruct b end; try by eexists). }
  exists v, w'. split; [exact Hsm|]. intros Hop a Ha. unfold serve_msg in Hsm.
  destruct (Z.eqb_spec (m_tag msg) NETS_REQ_TAG) as [Ht|Ht]; cbn [negb] in Hsm; [|by injection Hsm as <- <-].
  destruct (fills_frame _ _ _ _ _ _ _ _ i_stack0 Hop Hsm) as [F1 F2].
  destruct Hb as [Hb|[[Hb1 Hb2]|Hb]]; [done|by rewrite F2|].
  apply F1. destruct (decide (r_buf (NetSReq_decode (m_payload msg)) <= a)); [|lia]. right. apply Z.nlt_ge. intros Hlt. by apply Ha, Hb.
Qed.

(** C9. TCP ports are used by their owners. In every state that the service reaches by serving
    messages whose buffer is not its own memory and receiving frames, a connection with a local port
    that is not waiting to be accepted belongs to the domain that the kernel lists as the owner of
    that port, though the kernel's table changes while the service runs; and every connection with
    a local port that requests of a domain other than 0 can operate on has a port of that domain.
    A port whose binding the kernel has dropped in between is excluded: the service is not told, and
    keeps the connection. *)
Theorem ports_authorised spare w :
  served spare w ->
  (forall i c, tcons (w_st w) !! i = Some c -> used c = true -> local_port c <> 0 -> ~ pending c ->
     ~ dropped (w_dev w) (local_port c) -> sys_net_owner (w_dev w) (local_port c) = owner c)
  /\ (forall id from i, from <> 0 -> tcp_slot_owned id from (w_st w) = Some i -> local_port (conn_at i (w_st w)) <> 0 ->
     ~ dropped (w_dev w) (local_port (conn_at i (w_st w))) -> sys_net_owner (w_dev w) (local_port (conn_at i (w_st w))) = from).
Proof using envok.
  intros Hs. apply served_state in Hs as Hi. split.
  - intros i c Hc Hu Hp Hn Hd. pose proof (i_granted w Hi) as Hg. rewrite Forall_lookup in Hg.
    by destruct (proj1 (Hg i c Hc Hu) Hp Hn) as [[H _]|H].
  - intros id from i H0 Hi' Hp Hd. apply tcp_slot_owner in Hi' as (Hu & Ho & _). destruct (granted_at w i Hi Hu) as [H1 H2].
    destruct (H1 Hp) as [[H3 _]|H3]; [|congruence|done]. intros Hpe. rewrite <- Ho in H0. by apply H0, H2.
Qed.

(** The requests on an existing connection. *)
Definition conn_request (op : Z) : bool :=
  (op =? NETS_OP_TBIND) || (op =? NETS_OP_TCONNECT) || (op =? NETS_OP_TSEND) || (op =? NETS_OP_TRECV) || (op =? NETS_OP_TCLOSE)
  || (op =? NETS_OP_TACCEPT).

Lemma slot_foreign id from st : (forall i, tcp_slot id st = Some i -> owner (conn_at i st) <> from) -> tcp_slot_owned id from st = None.
Proof.
  intros H. unfold tcp_slot_owned. destruct (tcp_slot id st) as [i|]; [|done]. by rewrite (proj2 (Z.eqb_neq _ _) (H i eq_refl)).
Qed.

(** C29. A request on a connection of another domain does nothing. A request to bind, connect, send
    on, receive from, close or accept from a connection that does not exist or that the sender of
    the request does not own is answered 0; no connection, no memory and no driver is touched. *)
Theorem foreign_request_refused fuel text from req now (w : world D) :
  conn_request (r_op req) = true ->
  (forall i, tcp_slot (r_sock req) (w_st w) = Some i -> owner (conn_at i (w_st w)) <> from) ->
  serve_req fuel text from req now w = Some (0, w).
Proof.
  intros Hop Hf. apply slot_foreign in Hf as Hs. unfold serve_req. cbv zeta. unfold conn_request in Hop.
  assert (r_op req = NETS_OP_TBIND \/ r_op req = NETS_OP_TCONNECT \/ r_op req = NETS_OP_TSEND \/ r_op req = NETS_OP_TRECV \/ r_op req = NETS_OP_TCLOSE
          \/ r_op req = NETS_OP_TACCEPT) as H by (repeat (apply orb_true_iff in Hop as [Hop|Hop]); apply Z.eqb_eq in Hop; tauto). clear Hop.
  destruct H as [->|[->|[->|[->|[->| ->]]]]];
    repeat (match goal with |- context [if ?x =? ?y then _ else _] =>
              let b := eval vm_compute in (x =? y) in match b with true => idtac | false => idtac end; change (x =? y) with b; cbv iota end); f_equal.
  - unfold tcp_bind. rewrite Hs. by destruct (negb _).
  - unfold tcp_connect_op. by rewrite Hs.
  - unfold tcp_send_op. rewrite Hs. by destruct (_ || (sys_virt_to_phys _ _ =? 0)).
  - unfold tcp_recv_op. rewrite Hs. by destruct (_ || _).
  - unfold tcp_close_op. by rewrite Hs.
  - unfold tcp_accept_internal. destruct (tcp_slot _ _) as [i|]; [|done]. rewrite (proj2 (Z.eqb_neq _ _) (Hf i eq_refl)), andb_false_r. done.
Qed.

(** ** What the service does not protect *)

(** A UDP socket has no owner: any domain closes any socket. *)
Lemma foreign_socket_closed fuel text from req now (w : world D) :
  r_op req = NETS_OP_CLOSE -> 1 <= r_sock req <= MAX_SOCKS ->
  serve_req fuel text from req now w = Some (1, on_st (set_sock (Z.to_nat (r_sock req - 1)) Sock_new) w).
Proof.
  intros Ho Hs. unfold serve_req. rewrite Ho. cbv zeta. change (NETS_OP_CLOSE =? NETS_OP_SOCKET) with false. cbv iota.
  unfold sock_close. unfold MAX_SOCKS in *. rewrite (proj2 (Z.eqb_neq (r_sock req) 0)), (proj2 (Z.ltb_ge 4 (r_sock req))) by lia. reflexivity.
Qed.

(** Once the connection slots are used up, a SYN to a listener gets no answer. A connection that no
    one has accepted stays in its slot whatever happens to it. *)
Lemma table_full_refuses n src seg now (w : world D) :
  (forall c, c ∈ tcons (w_st w) -> used c = true) -> (forall c, c ∈ tcons (w_st w) -> tcp_match c n src seg = false) ->
  tcp_input n src seg now w = (0, w).
Proof.
  intros Hu Hm. unfold tcp_input.
  rewrite (proj2 (position_None (fun c => tcp_match c n src seg) _)) by (intros i c Hc; by eapply Hm, list_elem_of_lookup_2).
  destruct (negb _); [done|]. destruct (position (listens _ _) _); [|done].
  rewrite (proj2 (position_None free_slot _)); [done|]. intros i c Hc. unfold free_slot. by rewrite (Hu c (list_elem_of_lookup_2 _ _ _ Hc)).
Qed.

End inv.

(** ** An environment: the kernel's port table and a driver with a queue of frames

    While the service sleeps, other domains bind ports through the kernel ([(dom, Some port)] in
    [s_todo]), or lose all their bindings ([(dom, None)]) as net.rs documents it. *)

Record sim : Type := mk_sim {
  s_bind : list Binding; s_caps : cap_state; s_frames : list (list Z); s_todo : list (Z * option Z); s_gone : list Z
}.

#[export] Instance sim_env : NetEnv sim := {
  sys_call_payload dom tag req d m :=
    let op := field 0 8 req in
    if op =? NET_OP_TX then (1, d, m)
    else if op =? NET_OP_RX then
      match s_frames d with
      | [] => (0, d, m)
      | f :: fs => (Z.of_nat (length f), mk_sim (s_bind d) (s_caps d) fs (s_todo d) (s_gone d), copy_to (field 16 8 req) (w8 <$> f) m)
      end
    else (0x563412005452, d, m);
  sys_net_owner d p := Net.owner p (s_bind d);
  sys_virt_to_phys _ va := va;
  sys_sleep ms d m :=
    match s_todo d with
    | [] => (d, m)
    | (dom, Some p) :: l => (mk_sim (snd (Net.bind dom p (s_caps d) (s_bind d))) (s_caps d) (s_frames d) l (s_gone d), m)
    | (dom, None) :: l =>
        (mk_sim (Net.remove_domain dom (s_bind d)) (s_caps d) (s_frames d) l
           ((b_port <$> filter (fun x => b_domain x = dom) (s_bind d)) ++ s_gone d), m)
    end;
  sys_alloc_page va d m := (1, d, copy_to va (replicate 4096 0) m);
  sys_share_page va dom d m := (1, d, m)
}.

#[export] Instance sim_ports : PortHistory sim := fun d p => p ∈ s_gone d.

Lemma owner_kept b x p : Net.owner p b <> U64_MAX -> Net.owner p (b ++ [x]) = Net.owner p b.
Proof. unfold Net.owner. induction b as [|y b IH]; cbn; [done|]. destruct (b_port y =? p); [done|exact IH]. Qed.
Lemma bind_keeps_owner d p caps b q : Net.owner q b <> U64_MAX -> Net.owner q (snd (Net.bind d p caps b)) = Net.owner q b.
Proof. intros H. unfold Net.bind. destruct (negb _); [done|]. destruct (existsb _ _); [done|]. destruct (_ <=? _); [done|]. by apply owner_kept. Qed.
(** Dropping the bindings of a domain loses its ports only. *)
Lemma remove_keeps_owner dom b p :
  Net.owner p (Net.remove_domain dom b) = Net.owner p b \/ p ∈ b_port <$> filter (fun x => b_domain x = dom) b.
Proof.
  unfold Net.owner, Net.remove_domain. induction b as [|x b IH]; [by left|]. rewrite !filter_cons.
  destruct (Z.eqb_spec (b_domain x) dom) as [E|E]; cbn [negb].
  - rewrite decide_False, decide_True by done. cbn [find fmap list_fmap]. rewrite elem_of_cons.
    destruct (Z.eqb_spec (b_port x) p) as [->|]; [by right; left|]. destruct IH as [IH|IH]; [by left|by right; right].
  - rewrite decide_True, decide_False by done. cbn [find]. destruct (b_port x =? p); [by left|exact IH].
Qed.

Lemma ports_kept_refl (d d' : sim) : s_bind d' = s_bind d -> s_gone d' = s_gone d -> ports_kept d d'.
Proof. intros E1 E2. split; unfold dropped, sim_ports, sys_net_owner, sim_env; [by rewrite E2|rewrite E1; by left]. Qed.

#[export] Instance sim_ok : NetEnvOk sim.
Proof.
  constructor; intros; try by apply ports_kept_refl.
  all: cbn [sys_call_payload sys_sleep sys_alloc_page sys_share_page sim_env fst snd]; try done.
  - cbv zeta. destruct (_ =? _); [done|]. destruct (_ =? _); [|done]. destruct (s_frames d); [done|]. apply copy_to_ok; [|done].
    apply Forall_fmap, Forall_forall. intros x _. apply w8_is_byte.
  - cbv zeta. destruct (_ =? _); [by apply ports_kept_refl|]. destruct (_ =? _); [|by apply ports_kept_refl].
    destruct (s_frames d); by apply ports_kept_refl.
  - by destruct (s_todo d) as [|[dom [p|]] l].
  - destruct (s_todo d) as [|[dom [q|]] l]; [by apply ports_kept_refl|split|split];
      unfold dropped, sim_ports, sys_net_owner; cbn [sim_env s_gone s_bind fst]; intros p Hp; [done| | |].
    + left. by apply bind_keeps_owner.
    + apply elem_of_app. by right.
    + rewrite elem_of_app. destruct (remove_keeps_owner dom (s_bind d) p) as [E|E]; [by left|by right; left].
  - apply copy_to_ok; [apply zeros_bytes|assumption].
Qed.

(** The gateway answers the ARP request; domain 1 may use ports 80 to 90 and domain 2 ports 443 to
    450. Domain 2 asks for port 80 first, in vain. *)
Definition arp_reply : list Z :=
  replicate 12 0 ++ be16 ETH_ARP ++ replicate 6 0 ++ be16 2 ++ [2; 0; 0; 0; 0; 2] ++ GW_IP ++ replicate 10 0.
Definition sim0 : sim := mk_sim [] (mk_cap_state [[]; [Some (Cap.Net 80 90)]; [Some (Cap.Net 443 450)]] []) [arp_reply]
  [(2, Some 80); (1, Some 80); (2, Some 443)] [].
Definition one_nic : NicTable := mk_nic_table NIC_TABLE_MAGIC 1 [mk_nic 16 0x10000 1].
Definition boot : option (world sim) := start_service one_nic (fun _ => 0) sim0.
Definition dead : world sim := mk_world Stack_zeroed (fun _ => 0) sim0.
Definition w_boot : world sim := default dead boot.
Definition request (from op sock port addr len buf : Z) : Message :=
  mk_msg from NETS_REQ_TAG (to_le 8 op ++ to_le 8 sock ++ to_le 8 port ++ to_le 8 addr ++ to_le 8 len ++ to_le 8 buf).
Definition serve (msg : Message) (w : world sim) : option (Z * world sim) := serve_msg 1 0x20000 msg 10 w.
Definition after (msg : Message) (w : world sim) : world sim := (default (0, w) (serve msg w)).2.
Definition answer (msg : Message) (w : world sim) : option Z := fst <$> serve msg w.
Definition w_socket : world sim := after (request 1 NETS_OP_TSOCKET 0 0 0 0 0) w_boot.
Definition w_bound : world sim := after (request 1 NETS_OP_TBIND 1 80 0 0 0) w_socket.

(** Two pages that applications share with the service. *)
Definition shared_pages (a : Z) : Prop := 0x30000 <= a < 0x31000 \/ 0x40000 <= a < 0x41000.

Lemma boot_served : served shared_pages w_boot.
Proof.
  assert (match boot with Some _ => true | None => false end = true) as H by (vm_compute; reflexivity).
  destruct boot as [w|] eqn:Hw; [|discriminate H]. clear H.
  exists one_nic, (fun _ => 0), sim0, w. unfold w_boot. rewrite Hw. split; [intros a; unfold is_byte; lia|]. split; [done|]. split; [exact Hw|apply rtc_refl].
Qed.
Lemma after_served msg w :
  served shared_pages w -> bytes (m_payload msg) -> m_from msg <> U64_MAX -> buffer_ok shared_pages msg w -> served shared_pages (after msg w).
Proof.
  intros (tbl & m & d & w0 & Hm & Hc & Hs & Hr) Hb Hf Hbuf. exists tbl, m, d, w0. split; [exact Hm|]. split; [exact Hc|]. split; [exact Hs|].
  unfold after. destruct (serve msg w) as [[v w']|] eqn:E; [|exact Hr]. cbn. eapply rtc_r; [exact Hr|].
  eapply svc_msg; [|exact Hb|exact Hf|exact Hbuf|exact E]. unfold is_u64. lia.
Qed.
(** A request that uses no buffer. *)
Definition bufferless (msg : Message) : bool :=
  negb (existsb (Z.eqb (r_op (NetSReq_decode (m_payload msg))))
    [NETS_OP_SENDTO; NETS_OP_SENDTO6; NETS_OP_RECVFROM; NETS_OP_TSEND; NETS_OP_TRECV; NETS_OP_NETINFO; NETS_OP_PING6]).
Lemma bufferless_ok spare msg (w : world sim) : bufferless msg = true -> buffer_ok spare msg w.
Proof.
  unfold bufferless. cbn [existsb]. rewrite orb_false_r, !negb_orb, !andb_true_iff, !negb_true_iff. intros (H1 & H2 & H3 & H4 & H5 & H6 & H7).
  right. right. intros a. unfold buffer_len. rewrite H1, H2, H3, H4, H5, H6, H7. lia.
Qed.
Lemma request_bytes from op sock port addr len buf : bytes (m_payload (request from op sock port addr len buf)).
Proof. cbn [m_payload request]. repeat (apply Forall_app; split); apply to_le_bytes. Qed.
Lemma bound_served : served shared_pages w_bound.
Proof.
  unfold w_bound, w_socket. apply after_served; [|apply request_bytes|discriminate|apply bufferless_ok; vm_compute; reflexivity].
  apply after_served; [exact boot_served|apply request_bytes|discriminate|apply bufferless_ok; vm_compute; reflexivity].
Qed.

(** A request for the link state with its buffer in a shared page. *)
Definition ask_links : Message := request 1 NETS_OP_NETINFO U64_MAX 0 0 0 0x30000.
Lemma service_state_typed_witness :
  served shared_pages w_bound /\ stack_ok (w_st w_bound) /\
  exists v w', serve_msg 1 0x20000 ask_links 10 w_bound = Some (v, w') /\ w_mem w' 0x50000 = w_mem w_bound 0x50000.
Proof.
  split; [exact bound_served|]. destruct (service_state_typed shared_pages w_bound bound_served) as (H1 & _ & H2). split; [exact H1|].
  destruct (H2 1%nat 0x20000 ask_links 10) as (v & w' & E & Hm); [|vm_compute; reflexivity|exists v, w'; split; [exact E|]].
  - right. right. intros a Ha. left. revert Ha.
    assert (buffer_len (w_st w_bound) (NetSReq_decode (m_payload ask_links)) = 88) as -> by (vm_compute; reflexivity).
    assert (r_buf (NetSReq_decode (m_payload ask_links)) = 0x30000) as -> by (vm_compute; reflexivity). lia.
  - apply Hm; [vm_compute; reflexivity|unfold shared_pages; lia].
Defined.
Lemma ports_authorised_witness :
  local_port (conn_at 0 (w_st w_bound)) = 80 /\ sys_net_owner (w_dev w_bound) (local_port (conn_at 0 (w_st w_bound))) = 1.
Proof.
  split; [vm_compute; reflexivity|]. apply (proj2 (ports_authorised shared_pages w_bound bound_served) 1 1 0%nat); [discriminate|vm_compute; reflexivity|vm_compute; discriminate|].
  assert (s_gone (w_dev w_bound) = []) as E by (vm_compute; reflexivity). unfold dropped, sim_ports. rewrite E. apply not_elem_of_nil.
Defined.
(** Domain 2 tries to send on the connection of domain 1. *)
Lemma foreign_request_refused_witness :
  conn_request NETS_OP_TSEND = true
  /\ serve_req 1 0x20000 2 (mk_req NETS_OP_TSEND 1 0 0 4 0x30000) 10 w_bound = Some (0, w_bound).
Proof.
  split; [reflexivity|]. apply (foreign_request_refused 1 0x20000 2 (mk_req NETS_OP_TSEND 1 0 0 4 0x30000) 10 w_bound); [reflexivity|].
  intros i Hi. apply tcp_slot_used in Hi as [_ ->]. vm_compute. discriminate.
Defined.
