(* ===== verification/NetLoop.v ===== *)
(** * NetLoop: two applications on one machine (src/user/srv/src/netstack_srv.rs)

    A segment to the machine's own address is not sent to a driver: the service parses the frame it
    has just built and hands it to the connection of the other side, then the answer of that side
    to the first one, until no answer comes ([lo_pump]). This file shows that a connection made
    this way is established by one request, and that data sent by one request can be received by
    the other application. *)

From S2P Require Import Prelude Bytes NetWire NetTcp NetStack NetInv.

(** ** One connection of the table that hears a segment *)

Definition hears (n p q : Z) (c : TcpConn) : bool :=
  used c && (nic c =? n) && (local_port c =? p) && (remote_port c =? q) && (family c =? 4) && bool_decide (remote_ip c = OUR_IP).
Definition only (f : TcpConn -> bool) (l : list TcpConn) (i : nat) : Prop :=
  forall j c, l !! j = Some c -> f c = bool_decide (j = i).

Lemma hears_match n p q c seg : dport seg = p -> sport seg = q -> tcp_match c n (inl OUR_IP) seg = hears n p q c.
Proof. intros <- <-. unfold tcp_match, hears. destruct (used c), (nic c =? n), (local_port c =? _), (remote_port c =? _); reflexivity. Qed.
Lemma hears_ident n p q c c' : ident c' = ident c -> hears n p q c' = hears n p q c.
Proof. unfold ident, hears. intros H. by injection H as -> _ _ -> -> _ -> -> ->. Qed.
Lemma only_position f l i : only f l i -> (i < length l)%nat -> position f l = Some i.
Proof.
  intros Ho Hi. apply position_Some. destruct (lookup_lt_is_Some_2 l i Hi) as [c Hc]. split.
  - exists c. split; [exact Hc|]. rewrite (Ho i c Hc). by apply bool_decide_eq_true.
  - intros j y Hj Hy. rewrite (Ho j y Hy). apply bool_decide_eq_false. lia.
Qed.
Lemma only_insert f l i j c : only f l i -> f c = bool_decide (j = i) -> only f (<[j := c]> l) i.
Proof.
  intros Ho Hf k c' Hk. destruct (decide (j = k)) as [<-|Hn].
  - pose proof (lookup_lt_Some _ _ _ Hk) as Hlt. rewrite length_insert in Hlt. rewrite list_lookup_insert_eq in Hk by exact Hlt. injection Hk as <-. exact Hf.
  - rewrite list_lookup_insert_ne in Hk by exact Hn. by apply Ho.
Qed.
Lemma conn_at_lookup i st c : tcons st !! i = Some c -> conn_at i st = c.
Proof. intros H. by apply nth_lookup_Some. Qed.
Lemma at_set_eq i c st : (i < length (tcons st))%nat -> conn_at i (set_conn i c st) = c.
Proof. intros Hi. apply conn_at_lookup. cbn [tcons set_conn]. by apply list_lookup_insert_eq. Qed.
Lemma at_set_ne i j c st : j <> i -> conn_at i (set_conn j c st) = conn_at i st.
Proof. intros Hn. unfold conn_at. cbn [tcons set_conn]. rewrite !nth_lookup. by rewrite list_lookup_insert_ne. Qed.
Lemma only_at f st i : only f (tcons st) i -> (i < length (tcons st))%nat -> f (conn_at i st) = true.
Proof.
  intros Ho Hi. destruct (lookup_lt_is_Some_2 _ _ Hi) as [c Hc]. rewrite (conn_at_lookup _ _ _ Hc), (Ho i c Hc). by apply bool_decide_eq_true.
Qed.

(** ** The frame of a segment to this machine *)

Definition is_local (c : TcpConn) : Prop := family c = 4 /\ remote_ip c = OUR_IP.

Lemma hears_parts n p q c : hears n p q c = true -> used c = true /\ nic c = n /\ local_port c = p /\ remote_port c = q /\ is_local c.
Proof.
  unfold hears. intros H. repeat (apply andb_prop in H as [H ?]). bool_to_prop. apply bool_decide_eq_true in H0. repeat split; assumption.
Qed.

Lemma local_frame n c io s m :
  conn_ok n c -> is_local c -> sendable s ->
  let '(len, m') := tcp_seg c io s m in
  0 < len /\ exists info seg, ipv4_parse m' io len = Some info /\ src4 info = OUR_IP /\ dst4 info = OUR_IP
    /\ tcp_parse m' info = Some seg /\ sport seg = local_port c /\ dport seg = remote_port c /\ arrives s seg /\ seg_data seg m' = data_of s.
Proof.
  intros Hc [Hf Hip] (Hs & Hk & Hfl & Hd & Hl). unfold TCP_MSS, NetTcp.len in Hl. pose proof (c_local _ _ Hc) as Hlp. pose proof (c_remote _ _ Hc) as Hrp. destruct (c_dst _ _ Hc) as [Hm _].
  unfold tcp_seg. rewrite Hf, Hip. change (4 =? 6) with false. cbv iota.
  assert (0 <= TCP_WINDOW < 2^16) as Hw by (unfold TCP_WINDOW; lia). assert (40 + Z.of_nat (length (s_data s)) < 2^16) as Hlen by lia.
  pose proof (tcp_roundtrip4 (mac c) (dst_mac c) _ _ _ _ _ _ _ Hm Hlp Hrp Hs Hk Hfl Hw Hd Hlen io OUR_IP OUR_IP m eq_refl eq_refl our_ip_bytes our_ip_bytes) as H.
  pose proof (tcp_build_frame (mac c) (dst_mac c) (local_port c) (remote_port c) (s_seq s) (s_ack s) (s_flags s) TCP_WINDOW (s_data s) Hd Hfl io OUR_IP OUR_IP m Hm eq_refl eq_refl our_ip_bytes our_ip_bytes ltac:(lia)) as Hb.
  destruct (tcp_build _ _ _ _ _ _ _ _ _ _ _ _ _) as [len' m']. destruct H as [[Hp Hsl] Hi], Hb as [-> _]. split; [lia|].
  unfold parse_seg_io in Hp. rewrite Hi in Hp. cbn [mbind option_bind] in Hp. eexists _, _. split; [exact Hi|]. split; [done|]. split; [done|]. split; [exact Hp|].
  cbn [sport dport]. split; [done|]. split; [done|]. split; [done|]. unfold seg_data, data_of, PAY_MAX. cbn [payload_off payload_len].
  replace (Z.to_nat (Z.min (Z.of_nat (length (s_data s))) 1472)) with (length (s_data s)) by lia. rewrite Hsl. symmetry. apply take_ge. lia.
Qed.

Section loop.
Context {D : Type} {env : NetEnv D}.

(** The state after the pump has handed on the answer [r] of connection [c]. *)
Definition pump_answer (g : nat) (n : Z) (r : option segment) (c : TcpConn) (now : Z) (w : world D) : world D :=
  match r with
  | Some s => let '(len, m) := tcp_seg c (l_io (w_link n w)) s (w_mem w) in lo_pump_loop g n len now (set_mem m w)
  | None => w
  end.

Lemma pump_zero g n now (w : world D) : lo_pump_loop g n 0 now w = w.
Proof. by destruct g. Qed.

(** One round: the connection that hears the segment handles it. *)
Lemma pump_round k g n c s i now (w : world D) :
  conn_ok k c -> is_local c -> sendable s -> only (hears n (remote_port c) (local_port c)) (tcons (w_st w)) i -> (i < length (tcons (w_st w)))%nat ->
  exists seg m, arrives s seg /\
    pump_answer (S g) n (Some s) c now w
    = (let r := handle_conn seg (data_of s) now (conn_at i (w_st w)) in
       pump_answer g n r.2 r.1 now (mk_world (set_conn i r.1 (w_st w)) m (w_dev w))).
Proof.
  intros Hc Hl Hs Ho Hi. unfold pump_answer at 1. pose proof (local_frame k c (l_io (w_link n w)) s (w_mem w) Hc Hl Hs) as H.
  destruct (tcp_seg _ _ _ _) as [len m]. destruct H as (Hpos & info & seg & Hip & Hsrc & _ & Hp & Hsp & Hdp & Ha & Hdat).
  exists seg, m. split; [exact Ha|]. cbn [lo_pump_loop]. rewrite (proj2 (Z.ltb_lt 0 len) Hpos).
  change (w_mem (set_mem m w)) with m. change (w_link n (set_mem m w)) with (w_link n w). rewrite Hip, Hp, Hsrc. unfold tcp_input. cbn [w_st set_mem].
  assert (position (fun c0 => tcp_match c0 n (inl OUR_IP) seg) (tcons (w_st w)) = Some i) as ->.
  { apply only_position; [|exact Hi]. intros j c0 Hj. rewrite (hears_match n (remote_port c) (local_port c)) by assumption. by apply Ho. }
  unfold tcp_handle. cbn [w_mem set_mem]. rewrite Hdat. cbv zeta. destruct (handle_conn seg (data_of s) now (conn_at i (w_st w))) as [c' [s'|]]; cbn [emit fst snd].
  - unfold pump_answer. cbn [w_link w_st w_mem]. fold (w_link n w). unfold w_link, link_at. cbn [w_st links set_conn].
    destruct (tcp_seg c' _ s' m) as [len' m']. reflexivity.
  - unfold pump_answer. apply pump_zero.
Qed.

(** ** The two sides of an established connection *)

(** Slots [i] and [k] hold the two sides; side [i] has port [p], side [k] port [q]. *)
Record joined (n p q : Z) (i k : nat) (st : Stack) : Prop := {
  j_len : (i < length (tcons st))%nat /\ (k < length (tcons st))%nat;
  j_ne : i <> k;
  j_a : only (hears n p q) (tcons st) i;
  j_b : only (hears n q p) (tcons st) k;
  j_est : state (conn_at i st) = Established /\ state (conn_at k st) = Established;
  j_ab : snd_nxt (conn_at i st) = rcv_nxt (conn_at k st);
  j_ba : snd_nxt (conn_at k st) = rcv_nxt (conn_at i st);
  j_idle : tx_len (conn_at i st) = 0 /\ tx_len (conn_at k st) = 0;
  j_una : snd_una (conn_at i st) = snd_nxt (conn_at i st) /\ snd_una (conn_at k st) = snd_nxt (conn_at k st)
}.

Lemma joined_sym n p q i k st : joined n p q i k st -> joined n q p k i st.
Proof. intros [[? ?] ? ? ? [? ?] ? ? [? ?] [? ?]]. constructor; auto. Qed.

Definition got (data : list Z) (c : TcpConn) : TcpConn :=
  set_seqs (snd_una c) (snd_nxt c) (wadd32 (rcv_nxt c) (Z.of_nat (length data))) (set_rx (Z.of_nat (length data)) (copy_front data (rx c)) c).

Lemma handle_data now seg c sq ak data :
  state c = Established -> sq = rcv_nxt c -> ak = snd_nxt c -> snd_una c = snd_nxt c -> (0 < length data <= 1400)%nat ->
  arrives (mk_segment sq ak (Z.lor TCP_PSH TCP_ACK) data) seg ->
  handle_conn seg (data_of (mk_segment sq ak (Z.lor TCP_PSH TCP_ACK) data)) now c = (got data c, Some (ack_now (got data c))).
Proof.
  intros Hst Hsq Hak Hu Hl (H1 & H2 & H3 & H4). cbn [s_seq s_ack s_flags s_data] in *. unfold handle_conn. rewrite Hst.
  unfold acks_all, take_data, has. rewrite H1, H3, H4, Hsq, (proj2 (Z.ltb_lt 0 _)) by lia.
  change (Z.land (Z.lor TCP_PSH TCP_ACK) TCP_RST =? 0) with true. change (Z.land (Z.lor TCP_PSH TCP_ACK) TCP_FIN =? 0) with true.
  unfold data_of. cbn [s_data]. rewrite take_ge by (unfold PAY_MAX; lia). rewrite Z.min_l by (unfold PAY_MAX; lia).
  assert (w32 (Z.of_nat (length data)) = Z.of_nat (length data)) as -> by (apply Z.mod_small; lia).
  cbn [andb negb orb]. cbv zeta. conn_fields. fold (got data c).
  rewrite Z.eqb_refl. assert (negb (snd_una (got data c) =? snd_nxt (got data c)) = false) as -> by (unfold got; conn_fields; by rewrite Hu, Z.eqb_refl).
  by rewrite andb_false_r.
Qed.
Lemma handle_ack now seg c s :
  state c = Established -> s_flags s = TCP_ACK -> s_data s = [] -> s_ack s = snd_nxt c -> snd_una c <> snd_nxt c -> arrives s seg ->
  handle_conn seg (data_of s) now c = (set_timer 0 TCP_RTO_MS (last_tx_ms c) (set_tx 0 (tx c) (all_acked c)), None).
Proof.
  intros Hst Hf Hd Hk Hu (H1 & H2 & H3 & H4). unfold handle_conn. rewrite Hst. unfold acks_all, take_data, has.
  rewrite H2, H3, H4, Hf, Hd, Hk. change (0 <? Z.of_nat (length [])) with false. change (Z.land TCP_ACK TCP_RST =? 0) with true.
  change (Z.land TCP_ACK TCP_FIN =? 0) with true. change (Z.land TCP_ACK TCP_ACK =? 0) with false. cbn [andb negb orb].
  rewrite Z.eqb_refl, (proj2 (Z.eqb_neq _ _) Hu). reflexivity.
Qed.

(** The sender after its data have been acknowledged. *)
Definition done_sending (data : list Z) (now : Z) (c : TcpConn) : TcpConn :=
  set_timer 0 TCP_RTO_MS now (set_tx 0 (copy_front data (tx c)) (set_seqs (wadd32 (snd_nxt c) (Z.of_nat (length data)))
    (wadd32 (snd_nxt c) (Z.of_nat (length data))) (rcv_nxt c) c)).

Lemma wadd_ne a n : is_u32 a -> 0 < n < 2^32 -> a <> wadd32 a n.
Proof. unfold is_u32, wadd32, w32. intros Ha Hn. Z.to_euclidean_division_equations. lia. Qed.

Lemma joined_set n p q i k st a b :
  joined n p q i k st -> ident a = ident (conn_at i st) -> ident b = ident (conn_at k st) ->
  state a = Established -> state b = Established -> snd_nxt a = rcv_nxt b -> snd_nxt b = rcv_nxt a ->
  tx_len a = 0 -> tx_len b = 0 -> snd_una a = snd_nxt a -> snd_una b = snd_nxt b ->
  joined n p q i k (set_conn i a (set_conn k b st)).
Proof.
  intros [[Hi Hk] Hne Ha Hb _ _ _ _ _] Ia Ib. intros. pose proof (only_at _ _ _ Ha Hi) as Ta. pose proof (only_at _ _ _ Hb Hk) as Tb.
  assert (forall x y f, only f (tcons st) x -> (y < length (tcons st))%nat -> f (conn_at y st) = bool_decide (y = x)) as Hat.
  { intros x y f Hf Hy. destruct (lookup_lt_is_Some_2 _ _ Hy) as [c Hc]. rewrite (conn_at_lookup _ _ _ Hc). by apply Hf. }
  constructor; rewrite ?at_set_eq, ?(at_set_ne k i), ?at_set_eq by (cbn [tcons set_conn]; rewrite ?length_insert; auto); auto.
  - cbn [tcons set_conn]. rewrite !length_insert. auto.
  - cbn [tcons set_conn]. apply only_insert; [apply only_insert|]; [exact Ha|rewrite (hears_ident _ _ _ _ _ Ib); by apply Hat|rewrite (hears_ident _ _ _ _ _ Ia); by apply Hat].
  - cbn [tcons set_conn]. apply only_insert; [apply only_insert|]; [exact Hb|rewrite (hears_ident _ _ _ _ _ Ib); by apply Hat|rewrite (hears_ident _ _ _ _ _ Ia); by apply Hat].
Qed.

Lemma set_conn_twice i k a a' b st : i <> k -> set_conn i a' (set_conn k b (set_conn i a st)) = set_conn i a' (set_conn k b st).
Proof. intros H. unfold set_conn. cbn [links nics socks tcons]. by rewrite (list_insert_insert_ne _ k i) by congruence; rewrite list_insert_insert_eq. Qed.
Lemma set_length i c st : length (tcons (set_conn i c st)) = length (tcons st).
Proof. apply length_insert. Qed.
Lemma only_set f st i j c : only f (tcons st) i -> f c = f (conn_at j st) -> (j < length (tcons st))%nat -> only f (tcons (set_conn j c st)) i.
Proof.
  intros Ho Hf Hj. apply only_insert; [exact Ho|]. rewrite Hf. destruct (lookup_lt_is_Some_2 _ _ Hj) as [x Hx]. rewrite (conn_at_lookup _ _ _ Hx). by apply Ho.
Qed.

(** An operation that builds a segment to this machine starts the pump. *)
Lemma run_local nn i f now c1 s (w : world D) :
  let io := l_io (w_link (nic (conn_at i (w_st w))) w) in
  f (conn_at i (w_st w)) io (w_mem w) = emit (c1, Some s) io (w_mem w) -> conn_ok nn c1 -> is_local c1 -> sendable s ->
  exists len, 0 < len /\ run_conn i f now w = (len, pump_answer 32 (nic (conn_at i (w_st w))) (Some s) c1 now (on_st (set_conn i c1) w)).
Proof.
  intros io Hf Hc Hl Hs. unfold run_conn, on_conn. fold io. rewrite Hf. cbn [emit]. unfold pump_answer. set (n := nic _) in *.
  change (w_mem (on_st (set_conn i c1) w)) with (w_mem w). change (l_io (w_link n (on_st (set_conn i c1) w))) with io.
  pose proof (local_frame nn c1 io s (w_mem w) Hc Hl Hs) as H. destruct (tcp_seg c1 io s (w_mem w)) as [len m].
  destruct H as (Hpos & info & seg & Hip & _ & Hdst & _). exists len. split; [exact Hpos|]. f_equal. unfold tcp_emit_deliver.
  rewrite (proj2 (Z.eqb_neq len 0)) by lia. cbn [w_mem]. change (w_link n (mk_world (set_conn i c1 (w_st w)) m (w_dev w))) with (w_link n w). fold io.
  rewrite Hip, Hdst, bool_decide_true by done. reflexivity.
Qed.

Lemma got_ok nn c data : conn_ok nn c -> bytes data -> (length data <= 1400)%nat -> conn_ok nn (got data c).
Proof.
  intros Hc Hd Hl. pose proof (c_una _ _ Hc). pose proof (c_nxt _ _ Hc). pose proof (c_rx _ _ Hc). unfold got. apply seqs_ok; auto with conn.
  apply rx_ok; [exact Hc|unfold PAY_MAX; lia|]. apply copy_front_ok; [exact Hd|lia|assumption].
Qed.

(** The sender with its data on the way. *)
Definition sending (data : list Z) (now : Z) (c : TcpConn) : TcpConn :=
  set_seqs (snd_una c) (wadd32 (snd_nxt c) (Z.of_nat (length data))) (rcv_nxt c)
    (set_timer 0 TCP_RTO_MS now (set_tx (Z.of_nat (length data)) (copy_front data (tx c)) c)).
Lemma send_value data now c :
  state c = Established -> tx_len c = 0 -> (length data <= 1400)%nat ->
  send_conn data now c = (sending data now c, Some (mk_segment (snd_nxt c) (rcv_nxt c) (Z.lor TCP_PSH TCP_ACK) data)).
Proof.
  intros Hs Ht Hl. unfold send_conn. rewrite Hs, Ht, bool_decide_true by done. cbn [negb orb]. change (0 <? 0) with false. cbv zeta iota.
  rewrite Z.min_l by (unfold TCP_MSS; lia). rewrite Nat2Z.id, firstn_all. unfold sending. conn_fields. do 3 f_equal. unfold copy_front. apply take_app_length.
Qed.

Lemma send_local n p q i k payload now (w : world D) :
  stack_ok (w_st w) -> joined n p q i k (w_st w) -> is_u64 now -> bytes payload -> (0 < length payload <= 1400)%nat ->
  exists len m, 0 < len /\
    run_conn i (fun c io => tcp_send c io payload now) now w
    = (len, mk_world (set_conn i (done_sending payload now (conn_at i (w_st w))) (set_conn k (got payload (conn_at k (w_st w))) (w_st w))) m (w_dev w)).
Proof.
  intros Hst Hj Hnow Hb Hl. pose proof Hj as [[Hi Hk] Hne Ja Jb [Ea Eb] Jab Jba [Ta _] [Ua Ub]].
  pose proof (conn_at_ok _ Hst i) as Ca. pose proof (conn_at_ok _ Hst k) as Cb. set (nn := nics (w_st w)) in *.
  destruct (hears_parts _ _ _ _ (only_at _ _ _ Ja Hi)) as (_ & Na & Pa & Qa & La). destruct (hears_parts _ _ _ _ (only_at _ _ _ Jb Hk)) as (_ & Nb & Pb & Qb & Lb).
  set (a := conn_at i (w_st w)) in *. set (b := conn_at k (w_st w)) in *.
  pose proof (send_conn_ok nn a Ca now Hnow payload Hb) as (C1 & I1 & S1). pose proof (got_ok nn b payload Cb Hb ltac:(lia)) as Cg.
  rewrite (send_value payload now a Ea Ta) in C1, I1, S1 by lia. cbn [fst snd out_ok] in C1, I1, S1.
  set (c1 := sending payload now a) in *.
  destruct (run_local nn i (fun c io => tcp_send c io payload now) now c1 (mk_segment (snd_nxt a) (rcv_nxt a) (Z.lor TCP_PSH TCP_ACK) payload) w) as (len & Hpos & Hrun); [|exact C1|exact La|exact S1|].
  { cbv zeta. unfold tcp_send. fold a. by rewrite (send_value payload now a Ea Ta) by lia. }
  fold a in Hrun. rewrite Na in Hrun. exists len.
  destruct (pump_round nn 31 n c1 _ k now (on_st (set_conn i c1) w) C1 La S1) as (seg1 & m1 & A1 & R1).
  { cbn [w_st on_st]. change (remote_port c1) with (remote_port a). change (local_port c1) with (local_port a). rewrite Pa, Qa.
    apply only_set; [exact Jb|by rewrite (hears_ident _ _ _ _ _ I1)|exact Hi]. }
  { cbn [w_st on_st]. by rewrite set_length. }
  rewrite Hrun, R1. cbn [w_st on_st]. rewrite at_set_ne by exact Hne. fold b.
  rewrite (handle_data now seg1 b (snd_nxt a) (rcv_nxt a) payload Eb Jab (eq_sym Jba) Ub Hl A1). cbv zeta. cbn [fst snd w_dev on_st].
  assert (sendable (ack_now (got payload b))) as S2 by (by eapply ack_sendable).
  set (st2 := set_conn k (got payload b) (set_conn i c1 (w_st w))).
  destruct (pump_round nn 30 n (got payload b) _ i now (mk_world st2 m1 (w_dev w)) Cg Lb S2) as (seg2 & m2 & A2 & R2).
  { cbn [w_st]. change (remote_port (got payload b)) with (remote_port b). change (local_port (got payload b)) with (local_port b). rewrite Pb, Qb.
    unfold st2. apply only_set; [apply only_set; [exact Ja|by rewrite (hears_ident _ _ _ _ _ I1)|exact Hi]| |by rewrite set_length].
    rewrite at_set_ne by exact Hne. reflexivity. }
  { cbn [w_st]. unfold st2. by rewrite !set_length. }
  rewrite R2. cbn [w_st]. assert (conn_at i st2 = c1) as Ei by (unfold st2; rewrite at_set_ne by congruence; by apply at_set_eq). rewrite Ei.
  rewrite (handle_ack now seg2 c1 (ack_now (got payload b))); [|exact Ea|done|done| | |exact A2].
  - cbv zeta. cbn [fst snd w_dev pump_answer]. exists m2. split; [exact Hpos|]. f_equal. unfold st2. by rewrite set_conn_twice.
  - cbn [ack_now s_ack]. unfold got, c1, sending. conn_fields. by rewrite Jab.
  - unfold c1, sending. conn_fields. rewrite Ua. apply wadd_ne; [apply (c_nxt _ _ Ca)|lia].
Qed.

Lemma slot_of i (st : Stack) : stack_ok st -> (i < length (tcons st))%nat -> used (conn_at i st) = true ->
  tcp_slot_owned (Z.of_nat i + 1) (owner (conn_at i st)) st = Some i.
Proof.
  intros Hst Hi Hu. rewrite (proj1 (t_tcons _ Hst)) in Hi. unfold tcp_slot_owned, tcp_slot, MAX_TCONS.
  rewrite (proj2 (Z.eqb_neq _ _)), (proj2 (Z.ltb_ge _ _)) by lia. cbn [orb]. replace (Z.to_nat (Z.of_nat i + 1 - 1)) with i by lia.
  rewrite Hu. by rewrite Z.eqb_refl.
Qed.

Lemma joined_sent n p q i k st data now :
  joined n p q i k st ->
  joined n p q i k (set_conn i (done_sending data now (conn_at i st)) (set_conn k (got data (conn_at k st)) st)).
Proof.
  intros Hj. pose proof Hj as [_ _ _ _ [Ea Eb] Jab Jba [Ta Tb] [Ua Ub]]. apply (joined_set _ _ _ _ _ _ _ _ Hj); try done.
  unfold done_sending, got. conn_fields. by rewrite Jab.
Qed.
Lemma joined_read n p q i k st c :
  joined n p q i k st -> c = set_rx 0 (rx (conn_at k st)) (conn_at k st) -> joined n p q i k (set_conn k c st).
Proof.
  intros Hj ->. pose proof Hj as [[Hi Hk] _ _ _ [Ea Eb] Jab Jba [Ta Tb] [Ua Ub]].
  assert (set_conn i (conn_at i st) (set_conn k (set_rx 0 (rx (conn_at k st)) (conn_at k st)) st) = set_conn k (set_rx 0 (rx (conn_at k st)) (conn_at k st)) st) as <-.
  { unfold set_conn. cbn [links nics socks tcons]. f_equal. apply list_insert_id. rewrite list_lookup_insert_ne by (intros ->; by apply (j_ne _ _ _ _ _ _ Hj)).
    destruct (lookup_lt_is_Some_2 _ _ Hi) as [x Hx]. by rewrite (conn_at_lookup _ _ _ Hx). }
  apply (joined_set _ _ _ _ _ _ _ _ Hj); done.
Qed.

(** C10. Data sent over the loopback arrive. If two slots of the table hold the two sides of an
    established connection of this machine, a request to send at most 1400 bytes on one side is
    answered 1, and a request to receive on the other side then answers the number of bytes and
    puts these bytes into the buffer of the receiver; no driver is called, no other connection
    changes, and the two sides are ready for the next transfer, in either direction. *)
Theorem loopback_delivers n p q i k buf len buf' now (w : world D) :
  stack_ok (w_st w) -> mem_ok (w_mem w) -> is_u64 now -> joined n p q i k (w_st w) -> 0 < len <= TCP_MSS ->
  buf <> 0 -> buf' <> 0 -> sys_virt_to_phys (w_dev w) buf <> 0 -> sys_virt_to_phys (w_dev w) buf' <> 0 ->
  let data := slice_at buf (Z.to_nat len) (w_mem w) in
  let '(r1, w1) := tcp_send_op (Z.of_nat i + 1) buf len now (owner (conn_at i (w_st w))) w in
  let '(r2, w2) := tcp_recv_op (Z.of_nat k + 1) buf' (owner (conn_at k (w_st w))) w1 in
  r1 = 1 /\ r2 = len /\ slice_at buf' (Z.to_nat len) (w_mem w2) = data /\ w_dev w2 = w_dev w
  /\ joined n p q i k (w_st w2) /\ joined n q p k i (w_st w2) /\ stack_ok (w_st w2)
  /\ forall j, j <> i -> j <> k -> conn_at j (w_st w2) = conn_at j (w_st w).
Proof.
  intros Hst Hm Hnow Hj Hl Hb Hb' Hv Hv'. cbv zeta. pose proof Hj as [[Hi Hk] Hne Ja Jb _ _ _ _ _].
  destruct (hears_parts _ _ _ _ (only_at _ _ _ Ja Hi)) as (Ua & _). destruct (hears_parts _ _ _ _ (only_at _ _ _ Jb Hk)) as (Ub & _).
  set (data := slice_at buf (Z.to_nat len) (w_mem w)). assert (bytes data) as Hd by (by apply slice_bytes).
  assert (Z.of_nat (length data) = len) as Hlen by (unfold data; rewrite length_slice_at; lia).
  unfold TCP_MSS in Hl. assert (0 < length data <= 1400)%nat as Hlen' by lia.
  destruct (send_local n p q i k data now w Hst Hj Hnow Hd Hlen') as (fl & m & Hfl & Hrun).
  unfold tcp_send_op, TCP_MSS. rewrite (proj2 (Z.eqb_neq buf 0)), (proj2 (Z.eqb_neq len 0)), (proj2 (Z.ltb_ge 1400 len)), (proj2 (Z.eqb_neq _ 0) Hv) by lia. cbn [orb].
  rewrite (slot_of i _ Hst Hi Ua). fold data. cbv zeta. rewrite Hrun, (proj2 (Z.ltb_lt 0 fl) Hfl).
  set (a := done_sending data now _) in *. set (b := got data _) in *. set (st1 := set_conn i a (set_conn k b (w_st w))) in *.
  pose proof (joined_sent n p q i k (w_st w) data now Hj : joined n p q i k st1) as Hj1. pose proof (j_len _ _ _ _ _ _ Hj1) as [Hi1 Hk1].
  assert (conn_at k st1 = b) as Ek by (unfold st1; rewrite at_set_ne by congruence; by apply at_set_eq).
  assert (stack_ok st1) as Hst1.
  { unfold st1. pose proof (conn_at_ok _ Hst i) as Ca. apply set_conn_ok; [apply set_conn_ok; [exact Hst|apply got_ok; [by apply conn_at_ok|exact Hd|lia]]|].
    unfold a, done_sending. pose proof (c_nxt _ _ Ca). pose proof (c_rcv _ _ Ca). pose proof (c_tx _ _ Ca). apply timer_ok; auto with conn.
    apply tx_ok; auto with conn. apply copy_front_ok; [exact Hd|lia|assumption]. }
  unfold tcp_recv_op. cbn [w_dev w_st w_mem]. rewrite (proj2 (Z.eqb_neq buf' 0) Hb'), (proj2 (Z.eqb_neq _ 0) Hv'). cbn [orb].
  assert (owner (conn_at k (w_st w)) = owner (conn_at k st1)) as -> by (by rewrite Ek).
  rewrite (slot_of k st1 Hst1 Hk1) by (by rewrite Ek). cbv zeta. rewrite Ek.
  assert (rx_len b = len) as Er by exact Hlen. unfold recv_conn, unread. rewrite Er, (proj2 (Z.ltb_lt 0 len)) by lia.
  cbn [on_st on_mem w_st w_mem w_dev fst snd].
  assert (take (Z.to_nat len) (rx b) = data) as ->.
  { change (rx b) with (copy_front data (rx (conn_at k (w_st w)))). unfold copy_front. rewrite <- Hlen, Nat2Z.id. apply take_app_length. }
  split; [done|]. split; [done|]. split; [rewrite <- Hlen, Nat2Z.id; apply slice_copy|]. split; [done|].
  assert (joined n p q i k (set_conn k (set_rx 0 (rx b) b) st1)) as Hj2 by (apply joined_read; [exact Hj1|by rewrite Ek]).
  split; [exact Hj2|]. split; [by apply joined_sym|]. split.
  - apply set_conn_ok; [exact Hst1|]. pose proof (conn_at_ok _ Hst1 k) as Ck. rewrite Ek in Ck. pose proof (c_rx _ _ Ck). apply rx_ok; auto with conn.
  - intros j H1 H2. unfold st1. by rewrite !at_set_ne by congruence.
Qed.

(** ** Connecting *)

Lemma position_insert {A} (f : A -> bool) l i x y : l !! i = Some y -> f x = f y -> position f (<[i := x]> l) = position f l.
Proof.
  revert i. induction l as [|z l IH]; intros [|i] Hy Hf; cbn in *; try discriminate; [by injection Hy as ->; rewrite Hf|].
  destruct (f z); [done|]. f_equal. exact (IH i Hy Hf).
Qed.
Lemma position_is_Some {A} (f : A -> bool) l i x : l !! i = Some x -> f x = true -> is_Some (position f l).
Proof. intros Hx Hf. destruct (position f l) eqn:E; [by eexists|]. rewrite (proj1 (position_None f l) E i x Hx) in Hf. discriminate. Qed.

(** The connection that a listener makes, by its fields. *)
Record fresh_server (n p q rcv : Z) (c : TcpConn) (s : segment) : Prop := {
  fs_hears : hears n q p c = true;
  fs_state : state c = SynRcvd;
  fs_una : is_u32 (snd_una c);
  fs_nxt : snd_nxt c = wadd32 (snd_una c) 1;
  fs_rcv : rcv_nxt c = rcv;
  fs_tx : tx_len c = 0;
  fs_seg : s = mk_segment (snd_una c) rcv (Z.lor TCP_SYN TCP_ACK) []
}.

(** A SYN that no connection hears makes a connection at the listener. *)
Lemma pump_listen k g n c s now si (w : world D) :
  stack_ok (w_st w) -> 0 <= n < nics (w_st w) -> is_u64 now ->
  conn_ok k c -> is_local c -> sendable s -> has (s_flags s) TCP_SYN = true ->
  (forall j x, tcons (w_st w) !! j = Some x -> hears n (remote_port c) (local_port c) x = false) ->
  is_Some (position (listens n (remote_port c)) (tcons (w_st w))) -> position free_slot (tcons (w_st w)) = Some si ->
  exists sc r m, fresh_server n (local_port c) (remote_port c) (wadd32 (s_seq s) 1) sc r /\ conn_ok (nics (w_st w)) sc /\ sendable r /\
    pump_answer (S g) n (Some s) c now w = pump_answer g n (Some r) sc now (mk_world (set_conn si sc (w_st w)) m (w_dev w)).
Proof.
  intros Hst Hn Hnow Hc Hl Hs Hsyn Hno [li Hli] Hsi. unfold pump_answer at 1. pose proof (local_frame k c (l_io (w_link n w)) s (w_mem w) Hc Hl Hs) as H.
  destruct (tcp_seg _ _ _ _) as [len m]. destruct H as (Hpos & info & seg & Hip & Hsrc & _ & Hp & Hsp & Hdp & (A1 & A2 & A3 & A4) & _).
  cbn [lo_pump_loop]. rewrite (proj2 (Z.ltb_lt 0 len) Hpos). change (w_mem (set_mem m w)) with m. change (w_link n (set_mem m w)) with (w_link n w).
  rewrite Hip, Hp, Hsrc. unfold tcp_input. cbn [w_st set_mem w_mem w_dev].
  rewrite (proj2 (position_None (fun c0 => tcp_match c0 n (inl OUR_IP) seg) _)).
  2: { intros j x Hj. rewrite (hears_match n (remote_port c) (local_port c)) by assumption. by eapply Hno. }
  rewrite A3, Hsyn. cbn [negb]. rewrite Hdp, Hli, Hsi.
  assert (seg_ok seg) as Hg.
  { destruct Hs as (S1 & S2 & _). constructor; [rewrite Hsp; apply (c_local _ _ Hc)|rewrite Hdp; apply (c_remote _ _ Hc)|by rewrite A1|by rewrite A2|lia]. }
  destruct (link_at_ok _ Hst n) as (L1 & _).
  assert (addr_ok 6 (default (replicate 6 0) (gw_mac (link_at n (w_st w))))) as Hdm by (destruct (gw_mac _); [exact L1|apply addr_ok_zeros]).
  pose proof (position_lt _ _ _ Hsi) as Hlt. rewrite (proj1 (t_tcons _ Hst)) in Hlt.
  pose proof (server_conn_ok (nics (w_st w)) n (l_mac (link_at n (w_st w))) _ (inl OUR_IP) (link_v6_primary (w_st w) n) seg (Z.of_nat si) now
    Hn Hdm (conj eq_refl our_ip_bytes) (primary_ok _ Hst n) Hg ltac:(unfold MAX_TCONS; lia) Hnow) as Hsv.
  destruct (server_conn _ _ _ _ _ _ _ _) as [sc r] eqn:Esv. destruct Hsv as (Csc & Sr & Hid).
  unfold server_conn in Esv. cbv zeta in Esv. injection Esv as Esc Er. injection Hid as Iu _ _ In Il _.
  exists sc, r, m. split; [|split; [exact Csc|split; [exact Sr|]]].
  - constructor; try (by rewrite <- Esc); try apply (c_una _ _ Csc).
    + unfold hears. rewrite Iu, In, Il, Hdp, <- Esc. conn_fields. rewrite Hsp, !Z.eqb_refl, bool_decide_true by done. done.
    + rewrite <- Esc. conn_fields. by rewrite A1.
    + rewrite <- Er, <- Esc. conn_fields. by rewrite A1.
  - unfold pump_answer. cbn [w_st w_mem w_link]. unfold w_link, link_at. cbn [links set_conn w_st]. destruct (tcp_seg sc _ r m) as [len' m']. reflexivity.
Qed.

Definition opened_client (s : segment) (now : Z) (c : TcpConn) : TcpConn :=
  set_state Established (set_timer 0 TCP_RTO_MS now (set_seqs (s_ack s) (snd_nxt c) (wadd32 (s_seq s) 1) c)).
Lemma handle_synack now seg c s :
  state c = SynSent -> s_flags s = Z.lor TCP_SYN TCP_ACK -> s_ack s = snd_nxt c -> arrives s seg ->
  handle_conn seg (data_of s) now c = (opened_client s now c, Some (ack_now (opened_client s now c))).
Proof.
  intros Hst Hf Hk (H1 & H2 & H3 & H4). unfold handle_conn. rewrite Hst. unfold has. rewrite H1, H2, H3, Hf, Hk. unfold opened_client. rewrite Hk, (Z.eqb_refl (snd_nxt c)). reflexivity.
Qed.
Definition opened_server (c : TcpConn) : TcpConn := set_timer 0 TCP_RTO_MS (last_tx_ms c) (set_state Established (all_acked c)).
Lemma handle_third now seg c s :
  state c = SynRcvd -> s_flags s = TCP_ACK -> s_data s = [] -> s_ack s = snd_nxt c -> snd_una c <> snd_nxt c -> arrives s seg ->
  handle_conn seg (data_of s) now c = (opened_server c, None).
Proof.
  intros Hst Hf Hd Hk Hu (H1 & H2 & H3 & H4). unfold handle_conn. rewrite Hst. unfold acks_all, has.
  rewrite H2, H3, Hf, Hk. change (Z.land TCP_ACK TCP_RST =? 0) with true. change (Z.land TCP_ACK TCP_ACK =? 0) with false. cbn [andb negb].
  rewrite Z.eqb_refl, (proj2 (Z.eqb_neq _ _) Hu). cbn [andb negb]. cbv zeta. unfold take_data. rewrite H4, Hd. reflexivity.
Qed.

(** The client with its SYN on the way. *)
Definition syn_client (m : Z) (gm : list Z) (q isn now : Z) (c : TcpConn) : TcpConn :=
  (connect_conn isn now (set_peer m gm OUR_IP q c)).1.

(** The client's and the listener's connection in the table: no other connection joins the ports. *)
Lemma only_new n p q i si st c1 sc :
  i <> si -> (i < length (tcons st))%nat -> (si < length (tcons st))%nat -> hears n p q c1 = true -> hears n p q sc = false ->
  (forall j x, j <> i -> tcons st !! j = Some x -> hears n p q x = false) ->
  only (hears n p q) (tcons (set_conn si sc (set_conn i c1 st))) i.
Proof.
  intros Hne Hi Hs H1 H2 Hno j x Hx. cbn [tcons set_conn] in Hx. destruct (decide (j = si)) as [->|Hjs].
  - rewrite list_lookup_insert_eq in Hx by (by rewrite length_insert). injection Hx as <-. by rewrite bool_decide_false by congruence.
  - rewrite list_lookup_insert_ne in Hx by congruence. destruct (decide (j = i)) as [->|Hji].
    + rewrite list_lookup_insert_eq in Hx by exact Hi. injection Hx as <-. by rewrite bool_decide_true.
    + rewrite list_lookup_insert_ne in Hx by congruence. rewrite bool_decide_false by exact Hji. by eapply Hno.
Qed.
Lemma set_conn_swap i k a b st : i <> k -> set_conn i a (set_conn k b st) = set_conn k b (set_conn i a st).
Proof. intros H. unfold set_conn. cbn [links nics socks tcons]. by rewrite (list_insert_insert_ne _ i k). Qed.
Lemma hears_swapped n p q c : p <> q -> hears n p q c = true -> hears n q p c = false.
Proof.
  intros Hpq H. destruct (hears_parts _ _ _ _ H) as (_ & _ & H1 & _). unfold hears. rewrite H1, (proj2 (Z.eqb_neq p q) Hpq), andb_false_r. reflexivity.
Qed.

(** The SYN-ACK and the last acknowledgement. *)
Lemma handshake_rounds nn n p q i si c1 sc r now st m d :
  is_u64 now -> conn_ok nn c1 -> conn_ok nn sc -> sendable r -> i <> si -> (i < length (tcons st))%nat -> (si < length (tcons st))%nat ->
  conn_at i st = c1 -> conn_at si st = sc -> only (hears n p q) (tcons st) i -> only (hears n q p) (tcons st) si ->
  state c1 = SynSent -> tx_len c1 = 0 -> fresh_server n p q (snd_nxt c1) sc r ->
  exists m', pump_answer 31 n (Some r) sc now (mk_world st m d)
    = mk_world (set_conn i (opened_client r now c1) (set_conn si (opened_server sc) st)) m' d
    /\ joined n p q i si (set_conn i (opened_client r now c1) (set_conn si (opened_server sc) st)).
Proof.
  intros Hnow C1 Csc Sr Hne Hi Hs Ei Es Oa Ob Hst Htx1 [Hh Hss Hun Hnx Hrc Htx Hsg].
  destruct (hears_parts _ _ _ _ Hh) as (_ & _ & Psc & Qsc & Lsc). pose proof (only_at _ _ _ Oa Hi) as H1. rewrite Ei in H1.
  destruct (hears_parts _ _ _ _ H1) as (_ & _ & P1 & Q1 & L1). assert (s_ack r = snd_nxt c1) as Hack by (by rewrite Hsg).
  assert (s_seq r = snd_una sc) as Hseq by (by rewrite Hsg). set (c2 := opened_client r now c1). set (s2 := opened_server sc).
  assert (conn_ok nn c2) as C2 by (pose proof (c_nxt _ _ C1); unfold c2, opened_client; rewrite Hack; auto 8 with conn).
  destruct (pump_round nn 30 n sc r i now (mk_world st m d) Csc Lsc Sr) as (seg2 & m2 & A2 & ->); cbn [w_st]; [by rewrite Psc, Qsc|exact Hi|].
  rewrite Ei, (handle_synack now seg2 c1 r); [|exact Hst|by rewrite Hsg|exact Hack|exact A2]. cbv zeta. cbn [fst snd w_dev]. fold c2.
  destruct (pump_round nn 29 n c2 (ack_now c2) si now (mk_world (set_conn i c2 st) m2 d) C2 L1) as (seg3 & m3 & A3 & ->); cbn [w_st].
  { by eapply ack_sendable. }
  { change (remote_port c2) with (remote_port c1). change (local_port c2) with (local_port c1). rewrite P1, Q1. apply only_set; [exact Ob|by rewrite Ei|exact Hi]. }
  { by rewrite set_length. }
  rewrite at_set_ne by exact Hne. rewrite Es, (handle_third now seg3 sc (ack_now c2)); [|exact Hss|reflexivity|reflexivity| | |exact A3].
  2: { unfold c2, opened_client. conn_fields. by rewrite Hseq, Hnx. }
  2: { rewrite Hnx. apply wadd_ne; [exact Hun|lia]. }
  cbv zeta. cbn [fst snd w_dev pump_answer w_st]. fold s2. exists m3. split; [by rewrite set_conn_swap by congruence|].
  constructor; rewrite ?at_set_eq, ?(at_set_ne si i), ?at_set_eq by (rewrite ?set_length; auto); auto.
  - rewrite !set_length. auto.
  - apply only_set; [apply only_set; [exact Oa|by rewrite Es|exact Hs]|rewrite at_set_ne by congruence; by rewrite Ei|by rewrite set_length].
  - apply only_set; [apply only_set; [exact Ob|by rewrite Es|exact Hs]|rewrite at_set_ne by congruence; by rewrite Ei|by rewrite set_length].
  - unfold c2, opened_client, s2, opened_server. conn_fields. by rewrite Hseq, Hnx.
Qed.

(** An application reaches a listener of this machine with one request. If a connection is
    bound to port [p] and closed, a listener waits on port [q] of the same link, a slot is free and
    no other connection joins these ports, then the request to connect to the machine's own
    address is answered 1, and afterwards the connection and the formerly free slot hold the two
    sides of an established connection; no driver is called and no other connection changes. *)
Theorem loopback_connects n p q i si gm addr port now (w : world D) :
  stack_ok (w_st w) -> is_u64 now -> (i < length (tcons (w_st w)))%nat ->
  let c := conn_at i (w_st w) in
  used c = true -> state c = Closed -> family c = 4 -> nic c = n -> local_port c = p -> p <> 0 ->
  unpack_ip4 addr = OUR_IP -> w16 port = q -> p <> q -> gw_mac (w_link n w) = Some gm ->
  (forall j x, tcons (w_st w) !! j = Some x -> hears n q p x = false) ->
  (forall j x, j <> i -> tcons (w_st w) !! j = Some x -> hears n p q x = false) ->
  (exists li x, tcons (w_st w) !! li = Some x /\ listens n q x = true) ->
  position free_slot (tcons (w_st w)) = Some si ->
  let '(r, w1) := tcp_connect_op (Z.of_nat i + 1) addr port now (owner c) w in
  r = 1 /\ joined n p q i si (w_st w1) /\ w_dev w1 = w_dev w
  /\ forall j, j <> i -> j <> si -> conn_at j (w_st w1) = conn_at j (w_st w).
Proof.
  intros Hst Hnow Hi c Hu Hcl Hfam Hnic Hp Hp0 Haddr Hport Hpq Hgm Hno1 Hno2 (li & lx & Hli & Hlx) Hsi.
  pose proof (conn_at_ok _ Hst i) as Cc. fold c in Cc. set (nn := nics (w_st w)) in *.
  pose proof (c_nic _ _ Cc) as Hn. rewrite Hnic in Hn.
  destruct (lookup_lt_is_Some_2 _ _ Hi) as [c' Hc']. assert (c' = c) as -> by (by rewrite <- (conn_at_lookup _ _ _ Hc')).
  pose proof (position_lt _ _ _ Hsi) as Hlt.
  assert (si <> i) as Hne.
  { intros ->. apply position_Some in Hsi as [(x & Hx & Hf) _]. rewrite Hc' in Hx. injection Hx as <-. unfold free_slot in Hf. by rewrite Hu in Hf. }
  destruct (link_at_ok _ Hst n) as (L1 & _). fold (w_link n w) in L1. rewrite Hgm in L1. cbn [opt_ok] in L1.
  set (isn := Z.lxor 0x4d4f0000 (w32 (w32 (Z.of_nat i + 1) * 0x01010101))).
  assert (is_u32 isn) as Hisn.
  { apply isn_ok. rewrite (proj1 (t_tcons _ Hst)) in Hi. unfold is_u64. lia. }
  set (c0 := set_peer (l_mac (w_link n w)) gm OUR_IP q c).
  assert (conn_ok nn c0) as C0 by (apply peer_ok; [exact Cc|exact L1|split; [done|apply our_ip_bytes]|rewrite <- Hport; apply w16_range]).
  destruct (connect_ok nn c0 C0 now Hnow isn Hisn) as (C1 & _ & S1). set (c1 := (connect_conn isn now c0).1) in *. set (s1 := (connect_conn isn now c0).2) in *.
  assert (is_local c1) as Lc1 by (split; [exact Hfam|done]).
  assert (tcp_slot_owned (Z.of_nat i + 1) (owner c) (w_st w) = Some i) as Hslot by (by apply slot_of).
  unfold tcp_connect_op. rewrite Hslot. fold c. cbv zeta. rewrite Hnic, Hgm, Hp, (proj2 (Z.eqb_neq p 0) Hp0), Hcl, bool_decide_true by done.
  cbn [orb negb]. fold isn. rewrite Haddr, Hport.
  destruct (run_local nn i (fun c io => tcp_connect (set_peer (l_mac (w_link n w)) gm OUR_IP q c) io isn now) now c1 s1 w) as (len & Hpos & Hrun);
    [reflexivity|exact C1|exact Lc1|exact S1|].
  rewrite Hrun. fold c. rewrite Hnic, (proj2 (Z.ltb_lt 0 len) Hpos). split; [done|]. clear Hrun.
  assert (local_port c1 = p) as P1 by exact Hp. assert (remote_port c1 = q) as Q1 by done.
  assert (hears n p q c1 = true) as H1.
  { unfold hears. rewrite P1, Q1. change (used c1) with (used c). change (nic c1) with (nic c). rewrite Hu, Hnic, (proj1 Lc1), !Z.eqb_refl, bool_decide_true by done. reflexivity. }
  destruct (pump_listen nn 31 n c1 s1 now si (on_st (set_conn i c1) w)) as (sc & r & m & Fs & Csc & Sr & ->); try assumption; cbn [w_st on_st].
  { by apply set_conn_ok. }
  { reflexivity. }
  { rewrite P1, Q1. intros j x Hx. cbn [tcons set_conn] in Hx. destruct (decide (i = j)) as [<-|Hij].
    - rewrite list_lookup_insert_eq in Hx by exact Hi. injection Hx as <-. by apply hears_swapped.
    - rewrite list_lookup_insert_ne in Hx by exact Hij. by eapply Hno1. }
  { rewrite Q1. eapply (position_is_Some _ _ li lx); [|exact Hlx]. cbn [tcons set_conn]. rewrite list_lookup_insert_ne; [exact Hli|]. intros <-.
    rewrite Hc' in Hli. injection Hli as <-. unfold listens in Hlx. rewrite Hcl in Hlx. by rewrite andb_false_r in Hlx. }
  { cbn [tcons set_conn]. rewrite (position_insert _ _ _ _ _ Hc'); [exact Hsi|]. unfold free_slot. by change (used c1) with (used c). }
  rewrite P1, Q1 in Fs. cbn [w_st w_dev on_st]. set (st2 := set_conn si sc (set_conn i c1 (w_st w))).
  destruct (handshake_rounds nn n p q i si c1 sc r now st2 m (w_dev w)) as (m' & -> & Hj); try assumption; try congruence; unfold st2; rewrite ?set_length; auto.
  - rewrite at_set_ne by congruence. by apply at_set_eq.
  - apply at_set_eq. by rewrite set_length.
  - apply only_new; auto. apply hears_swapped; [congruence|apply Fs].
  - rewrite set_conn_swap by congruence. apply only_new; auto; [apply Fs|by apply hears_swapped|]. intros j x _. apply Hno1.
  - split; [exact Hj|]. split; [done|]. intros j H2 H3. cbn [w_st]. by rewrite !at_set_ne by congruence.
Qed.

End loop.

(** ** A listener of domain 1 on port 80 and a client of domain 2 on port 443 *)

Lemma only_check f l i : forallb (fun jc => Bool.eqb (f jc.2) (bool_decide (jc.1 = i))) (imap pair l) = true -> only f l i.
Proof.
  intros H j c Hc. apply Bool.eqb_prop, (proj1 (forallb_forall _ _) H (j, c)), list_elem_of_In, list_elem_of_lookup. exists j. by rewrite list_lookup_imap, Hc.
Qed.
Lemma none_check {A} (f : A -> bool) l : forallb (fun x => negb (f x)) l = true -> forall j x, l !! j = Some x -> f x = false.
Proof.
  intros H j x Hx. apply negb_true_iff, (proj1 (forallb_forall _ _) H x), list_elem_of_In. by eapply list_elem_of_lookup_2.
Qed.

Definition our_addr : Z := pack_ip4 OUR_IP.
Definition w_listening : world sim := after (request 1 NETS_OP_TLISTEN 0 80 0 0 0) w_boot.
Definition w_client : world sim :=
  after (request 2 NETS_OP_TBIND 2 443 0 0 0) (after (request 2 NETS_OP_TSOCKET 0 0 0 0 0) w_listening).
Definition w_joined : world sim :=
  after (request 1 NETS_OP_TACCEPT 1 0 0 0 0) (after (request 2 NETS_OP_TCONNECT 2 80 our_addr 0 0) w_client).

Lemma client_served : served shared_pages w_client.
Proof.
  unfold w_client, w_listening. do 3 (apply after_served; [|apply request_bytes|discriminate|apply bufferless_ok; vm_compute; reflexivity]).
  exact boot_served.
Qed.
Lemma joined_served : served shared_pages w_joined.
Proof.
  unfold w_joined. do 2 (apply after_served; [|apply request_bytes|discriminate|apply bufferless_ok; vm_compute; reflexivity]). exact client_served.
Qed.

Lemma loopback_connects_witness :
  let '(r, w1) := tcp_connect_op 2 our_addr 80 10 2 w_client in r = 1 /\ joined 0 443 80 1 2 (w_st w1).
Proof.
  pose proof (loopback_connects 0 443 80 1 2 [2; 0; 0; 0; 0; 2] our_addr 80 10 w_client (i_stack _ (served_state _ _ client_served))) as H.
  change (Z.of_nat 1 + 1) with 2 in H. assert (owner (conn_at 1 (w_st w_client)) = 2) as Eo by (vm_compute; reflexivity). cbv zeta in H. rewrite Eo in H.
  destruct (tcp_connect_op 2 our_addr 80 10 2 w_client) as [r w1].
  destruct H as (H1 & H2 & _).
  - unfold is_u64. lia.
  - apply Nat.ltb_lt. vm_compute. reflexivity.
  - vm_compute. reflexivity.
  - vm_compute. reflexivity.
  - vm_compute. reflexivity.
  - vm_compute. reflexivity.
  - vm_compute. reflexivity.
  - discriminate.
  - vm_compute. reflexivity.
  - reflexivity.
  - discriminate.
  - vm_compute. reflexivity.
  - apply none_check. vm_compute. reflexivity.
  - intros j x _. apply none_check. vm_compute. reflexivity.
  - exists 0%nat, (conn_at 0 (w_st w_client)). split; vm_compute; reflexivity.
  - vm_compute. reflexivity.
  - split; assumption.
Defined.

Lemma ready : joined 0 443 80 1 2 (w_st w_joined).
Proof.
  constructor; try (apply only_check; vm_compute; reflexivity); try (vm_compute; reflexivity); try (split; vm_compute; reflexivity); [|discriminate].
  split; apply Nat.ltb_lt; vm_compute; reflexivity.
Qed.

(** The client sends the first bytes of a page, the server receives them in another page. *)
Lemma loopback_delivers_witness :
  let '(r1, w1) := tcp_send_op 2 0x30000 5 20 2 w_joined in
  let '(r2, w2) := tcp_recv_op 3 0x40000 1 w1 in
  r1 = 1 /\ r2 = 5 /\ slice_at 0x40000 5 (w_mem w2) = slice_at 0x30000 5 (w_mem w_joined).
Proof.
  pose proof (loopback_delivers 0 443 80 1 2 0x30000 5 0x40000 20 w_joined (i_stack _ (served_state _ _ joined_served)) (i_mem _ (served_state _ _ joined_served))
    ltac:(unfold is_u64; lia) ready ltac:(unfold TCP_MSS; lia) ltac:(discriminate) ltac:(discriminate) ltac:(discriminate) ltac:(discriminate)) as H.
  assert (owner (conn_at 1 (w_st w_joined)) = 2) as Ea by (vm_compute; reflexivity). assert (owner (conn_at 2 (w_st w_joined)) = 1) as Eb by (vm_compute; reflexivity).
  cbv zeta in H. rewrite Ea, Eb in H. change (Z.of_nat 1 + 1) with 2 in H. change (Z.of_nat 2 + 1) with 3 in H.
  destruct (tcp_send_op 2 0x30000 5 20 2 w_joined) as [r1 w1]. destruct (tcp_recv_op 3 0x40000 1 w1) as [r2 w2].
  destruct H as (H1 & H2 & H3 & _). split; [exact H1|]. split; [exact H2|exact H3].
Defined.
