(* ===== verification/Pci.v ===== *)
(** * PCI configuration space and the local APIC (kernel/src/arch/pci.rs, kernel/src/arch/apic.rs)

    The hardware is the parameter [Hardware]: what a read of the configuration data port gives
    for the address last written to the address port, what a write does, the model-specific
    registers and the memory-mapped registers of the local APIC. Enumeration, the base address
    registers, the walk of the capability list, the read-modify-write of a configuration
    register and the snapshot behind [SYS_PCI_INFO] are translated.

    The main result: the walk for the MSI-X capability, which stops after 48 steps, is complete:
    it fails only when no capability that can be reached, in any number of steps, is MSI-X. *)

From S2P Require Import Prelude Addr Cap Key Klog Frames Sched Net Pager Irq Kernel.

(** ** The hardware *)

Class Hardware (H : Type) : Type := {
  (** Configuration data for the 32-bit address in port 0xCF8. A read has no side effect. *)
  cfg_read : Z -> H -> Z;
  cfg_write : Z -> Z -> H -> H;
  rdmsr : Z -> H -> Z;
  wrmsr : Z -> Z -> H -> H;
  (** 32-bit device registers at a physical address. *)
  mmio_read : Z -> H -> Z;
  mmio_write : Z -> Z -> H -> H;
}.

Definition REG_COMMAND : Z := 0x04.
Definition REG_STATUS : Z := 0x06.
Definition REG_CAP_PTR : Z := 0x34.
Definition CMD_INTX_DISABLE : Z := Z.shiftl 1 10.
Definition STATUS_CAP_LIST : Z := Z.shiftl 1 4.
Definition CAP_ID_MSIX : Z := 0x11.
Definition PCI_MAX : Z := 64.

Record PciDevice : Type := mk_pci {
  p_bus : Z; p_dev : Z; p_func : Z; p_vendor : Z; p_device : Z; p_class : Z; p_subclass : Z; p_progif : Z;
}.

Record MsixCap : Type := mk_msix_cap { cap_ptr : Z; table_offset : Z; table_bir : Z; table_size : Z }.

Section hardware.
Context {H : Type} {hardware : Hardware H}.

(** ** Reading *)

(** The value both access functions write to the address port. *)
Definition config_addr (bus dev func offset : Z) : Z :=
  Z.lor (Z.lor (Z.lor (Z.lor 0x80000000 (Z.shiftl bus 16)) (Z.shiftl dev 11)) (Z.shiftl func 8))
    (Z.land offset 0xFC).

Definition config_read_dword (bus dev func offset : Z) (h : H) : Z := cfg_read (config_addr bus dev func offset) h.

Definition config_read_word (bus dev func offset : Z) (h : H) : Z :=
  let dword := config_read_dword bus dev func (Z.land offset (Z.lxor 0xFF 0x3)) h in
  Z.land (Z.shiftr dword (Z.land offset 0x2 * 8)) 0xFFFF.

Definition config_read_byte (bus dev func offset : Z) (h : H) : Z :=
  let dword := config_read_dword bus dev func (Z.land offset (Z.lxor 0xFF 0x3)) h in
  Z.land (Z.shiftr dword (Z.land offset 0x3 * 8)) 0xFF.

Definition read_ids (bus dev func : Z) (h : H) : option (Z * Z) :=
  let vd := config_read_dword bus dev func 0x00 h in
  let vendor := w16 (Z.land vd 0xFFFF) in
  let device := w16 (Z.shiftr vd 16) in
  if vendor =? 0xFFFF then None else Some (vendor, device).

(** ** Enumeration *)

(** One round of the loop over functions: the device pushed, if any. *)
Definition scan_function (h : H) (bus dev func : Z) : list PciDevice :=
  match read_ids bus dev func h with
  | Some (vendor, device) =>
      let cc := config_read_dword bus dev func 0x08 h in
      [mk_pci bus dev func vendor device (w8 (Z.land (Z.shiftr cc 24) 0xFF)) (w8 (Z.land (Z.shiftr cc 16) 0xFF))
         (w8 (Z.land (Z.shiftr cc 8) 0xFF))]
  | None => []
  end.

Definition multifunction (h : H) (bus dev : Z) : bool :=
  let header := config_read_dword bus dev 0 0x0C h in negb (Z.land (Z.shiftr header 16) 0x80 =? 0).

Definition scan_slot (h : H) (bus dev : Z) : list PciDevice :=
  match read_ids bus dev 0 h with
  | None => []
  | Some _ =>
      let max_func := if multifunction h bus dev then 8 else 1 in
      func ← seqZ 0 max_func; scan_function h bus dev func
  end.

Definition enumerate (h : H) : list PciDevice :=
  bus ← seqZ 0 256; dev ← seqZ 0 32; scan_slot h bus dev.

(** ** Base address registers and finding a device *)

Definition read_bar (bus dev func index : Z) (h : H) : option Z :=
  let off := w8 (0x10 + w8 (index * 4)) in
  let low := config_read_dword bus dev func off h in
  if negb (Z.land low 0x1 =? 0) then None
  else
    let addr :=
      if Z.land (Z.shiftr low 1) 0x3 =? 2 then
        let high := config_read_dword bus dev func (w8 (off + 4)) h in
        Z.lor (Z.shiftl high 32) (Z.land low 0xFFFFFFF0)
      else Z.land low 0xFFFFFFF0 in
    if addr =? 0 then None else Some addr.

Definition read_bar0 (bus dev func : Z) (h : H) : option Z := read_bar bus dev func 0 h.

(** The loop of the [find_*] functions: the first device that matches and has the register. *)
Fixpoint find_with (matches : PciDevice -> bool) (index : Z) (devices : list PciDevice) (h : H)
  : option (Z * Z * Z * Z) :=
  match devices with
  | [] => None
  | d :: devices =>
      if matches d then
        match read_bar (p_bus d) (p_dev d) (p_func d) index h with
        | Some bar => Some (p_bus d, p_dev d, p_func d, bar)
        | None => find_with matches index devices h
        end
      else find_with matches index devices h
  end.

Definition is_nvme (d : PciDevice) : bool := (p_class d =? 0x01) && (p_subclass d =? 0x08) && (p_progif d =? 0x02).
Definition is_virtio_net (d : PciDevice) : bool :=
  (p_class d =? 0x02) && (p_vendor d =? 0x1AF4) && ((p_device d =? 0x1041) || (p_device d =? 0x1000)).
Definition is_ahci (d : PciDevice) : bool := (p_class d =? 0x01) && (p_subclass d =? 0x06) && (p_progif d =? 0x01).
Definition is_xhci (d : PciDevice) : bool := (p_class d =? 0x0C) && (p_subclass d =? 0x03) && (p_progif d =? 0x30).
Definition is_e1000e (d : PciDevice) : bool := (p_class d =? 0x02) && (p_vendor d =? 0x8086) && (p_device d =? 0x10D3).
Definition is_e1000 (d : PciDevice) : bool := (p_class d =? 0x02) && (p_vendor d =? 0x8086) && (p_device d =? 0x100E).
Definition is_virtio_blk (d : PciDevice) : bool :=
  (p_class d =? 0x01) && (p_vendor d =? 0x1AF4) && ((p_device d =? 0x1042) || (p_device d =? 0x1001)).

Definition find_nvme := find_with is_nvme 0.
Definition find_net := find_with is_virtio_net 4.
Definition find_ahci := find_with is_ahci 5.
Definition find_xhci := find_with is_xhci 0.
Definition find_e1000e := find_with is_e1000e 0.
Definition find_e1000 := find_with is_e1000 0.
Definition find_virtio_blk := find_with is_virtio_blk 4.

(** ** Writing *)

Definition config_write_dword (bus dev func offset value : Z) (h : H) : H :=
  cfg_write (config_addr bus dev func offset) value h.

Definition config_update_word (bus dev func offset clear set : Z) (h : H) : Z * H :=
  let dword_off := Z.land offset (Z.lxor 0xFF 0x3) in
  let dword := config_read_dword bus dev func dword_off h in
  let shift := Z.land offset 0x2 * 8 in
  let cur := w16 (Z.land (Z.shiftr dword shift) 0xFFFF) in
  let new := Z.lor (Z.land cur (Z.lxor 0xFFFF clear)) set in
  let merged := Z.lor (Z.land dword (Z.lxor 0xFFFFFFFF (w32 (Z.shiftl 0xFFFF shift)))) (w32 (Z.shiftl new shift)) in
  (cur, config_write_dword bus dev func dword_off merged h).

Definition disable_intx (bus dev func : Z) (h : H) : H :=
  snd (config_update_word bus dev func REG_COMMAND 0 CMD_INTX_DISABLE h).

Definition enable_msix (bus dev func cap_ptr : Z) (h : H) : H :=
  snd (config_update_word bus dev func (w8 (cap_ptr + 2)) 0x4000 0x8000 h).

(** ** The capability list *)

Definition msix_at (bus dev func ptr : Z) (h : H) : MsixCap :=
  let ctrl := config_read_word bus dev func (w8 (ptr + 2)) h in
  let table := config_read_dword bus dev func (w8 (ptr + 4)) h in
  mk_msix_cap ptr (Z.land table (Z.lxor 0xFFFFFFFF 0x7)) (w8 (Z.land table 0x7)) (w16 (Z.land ctrl 0x7FF + 1)).

Definition cap_next (bus dev func ptr : Z) (h : H) : Z := Z.land (config_read_byte bus dev func (w8 (ptr + 1)) h) 0xFC.

Fixpoint find_msix_loop (fuel : nat) (bus dev func ptr : Z) (h : H) : option MsixCap :=
  match fuel with
  | O => None
  | S fuel =>
      if ptr <? 0x40 then None
      else if config_read_byte bus dev func ptr h =? CAP_ID_MSIX then Some (msix_at bus dev func ptr h)
      else
        let next := cap_next bus dev func ptr h in
        if next =? 0 then None else find_msix_loop fuel bus dev func next h
  end.

Definition find_msix (bus dev func : Z) (h : H) : option MsixCap :=
  if Z.land (config_read_word bus dev func REG_STATUS h) STATUS_CAP_LIST =? 0 then None
  else find_msix_loop 48 bus dev func (Z.land (config_read_byte bus dev func REG_CAP_PTR h) 0xFC) h.

(** ** The snapshot of the device list *)

(** [PCI_TABLE[..PCI_COUNT]]. *)
Definition publish (devices : list PciDevice) : list PciDevice := take (Z.to_nat PCI_MAX) devices.

(** The three words of the record. *)
Definition info_record (d : PciDevice) (h : H) : list Z :=
  [Z.lor (p_vendor d) (Z.shiftl (p_device d) 16);
   Z.lor (Z.lor (Z.lor (Z.lor (Z.lor (p_class d) (Z.shiftl (p_subclass d) 8)) (Z.shiftl (p_progif d) 16))
     (Z.shiftl (p_bus d) 24)) (Z.shiftl (p_dev d) 32)) (Z.shiftl (p_func d) 40);
   default 0 (read_bar (p_bus d) (p_dev d) (p_func d) 0 h)].

Definition syscall_pci_info (table : list PciDevice) (h : H) (a1 a2 : Z) : sysres :=
  if (Z.of_nat (length table) <=? a1) || (a2 =? 0) then Return 0 []
  else
    match lookupZ table a1 with
    | None => Return 0 []
    | Some d =>
        if negb (is_user_address a2) || negb (is_user_address (w64 (a2 + 3 * 8 - 1))) then Return 0 []
        else Return 1 [Store a2 (mjoin (le64 8 <$> info_record d h))]
    end.

(** ** The local APIC *)

Definition MSR_APIC_BASE : Z := 0x1B.
Definition REG_ID : Z := 0x20.
Definition REG_TPR : Z := 0x80.
Definition REG_EOI : Z := 0xB0.
Definition REG_SVR : Z := 0xF0.
Definition REG_LVT0 : Z := 0x350.
Definition APIC_BASE_ENABLE : Z := Z.shiftl 1 11.
Definition SVR_SW_ENABLE : Z := Z.shiftl 1 8.
Definition SPURIOUS_VECTOR : Z := 0xFF.
Definition LVT0_EXTINT : Z := 0x700.
Definition LVT_MASKED : Z := Z.shiftl 1 16.
Definition MSI_ADDR_BASE : Z := 0xFEE00000.

Record lapic : Type := mk_lapic { BASE : Z; APIC_ID : Z }.

Definition apic_rd (l : lapic) (off : Z) (h : H) : Z := mmio_read (w64 (BASE l + off)) h.
Definition apic_wr (l : lapic) (off v : Z) (h : H) : H := mmio_write (w64 (BASE l + off)) v h.

Definition apic_init (l : lapic) (h : H) : option Z * lapic * H :=
  let val := rdmsr MSR_APIC_BASE h in
  let base := Z.land val 0x000FFFFFFFFFF000 in
  if base =? 0 then (None, l, h)
  else
    let h := if Z.land val APIC_BASE_ENABLE =? 0 then wrmsr MSR_APIC_BASE (Z.lor val APIC_BASE_ENABLE) h else h in
    let l := mk_lapic base (APIC_ID l) in
    let svr := apic_rd l REG_SVR h in
    let h := apic_wr l REG_SVR (Z.lor (Z.lor (Z.land svr (Z.lxor 0xFFFFFFFF 0xFF)) SVR_SW_ENABLE) SPURIOUS_VECTOR) h in
    let h := apic_wr l REG_TPR 0 h in
    let lvt0 := apic_rd l REG_LVT0 h in
    let h := if Z.land lvt0 (Z.lor LVT0_EXTINT LVT_MASKED) =? LVT0_EXTINT then h else apic_wr l REG_LVT0 LVT0_EXTINT h in
    let l := mk_lapic (BASE l) (Z.shiftr (apic_rd l REG_ID h) 24) in
    (Some (APIC_ID l), l, h).

Definition msi_address (l : lapic) : Z := Z.lor MSI_ADDR_BASE (w32 (Z.shiftl (APIC_ID l) 12)).

Definition eoi (l : lapic) (h : H) : H := apic_wr l REG_EOI 0 h.

End hardware.

(** ** Enumeration is exact *)

Section enumerate.
Context {H : Type} {hardware : Hardware H}.

Definition present (h : H) (bus dev func : Z) : Prop := is_Some (read_ids bus dev func h).

(** What the configuration space says of one location. *)
Definition describe (h : H) (bus dev func : Z) : PciDevice :=
  let vd := config_read_dword bus dev func 0x00 h in
  let cc := config_read_dword bus dev func 0x08 h in
  mk_pci bus dev func (vd mod 2^16) ((vd / 2^16) mod 2^16) ((cc / 2^24) mod 2^8) ((cc / 2^16) mod 2^8)
    ((cc / 2^8) mod 2^8).

Lemma w_land n a : 0 <= n -> (Z.land a (2^n - 1)) mod 2^n = a mod 2^n.
Proof.
  intros Hn. replace (2^n - 1) with (Z.ones n) by (rewrite Z.ones_equiv; lia). rewrite Z.land_ones by lia.
  apply Z.mod_mod. apply Z.pow_nonzero; lia.
Qed.

Lemma scan_function_spec h bus dev func d :
  d ∈ scan_function h bus dev func <-> present h bus dev func /\ d = describe h bus dev func.
Proof.
  unfold scan_function, present, describe. unfold read_ids. cbv zeta.
  pose proof (w_land 16 (config_read_dword bus dev func 0 h) ltac:(lia)) as E. change (2^16 - 1) with 0xFFFF in E.
  pose proof (w_land 8 (Z.shiftr (config_read_dword bus dev func 8 h) 24) ltac:(lia)) as E1.
  pose proof (w_land 8 (Z.shiftr (config_read_dword bus dev func 8 h) 16) ltac:(lia)) as E2.
  pose proof (w_land 8 (Z.shiftr (config_read_dword bus dev func 8 h) 8) ltac:(lia)) as E3.
  change (2^8 - 1) with 0xFF in *. rewrite Z.shiftr_div_pow2 in E1, E2, E3 by lia.
  unfold w16, w8. rewrite !Z.shiftr_div_pow2 by lia. rewrite E, E1, E2, E3.
  destruct (_ =? 0xFFFF).
  - split; [by intros ?%elem_of_nil | intros [[? ?] _]; done].
  - rewrite list_elem_of_singleton. split; [intros ->; split; [by eexists | done] | by intros [_ ->]].
Qed.

Lemma scan_slot_spec h bus dev d :
  d ∈ scan_slot h bus dev <->
  exists func, 0 <= func < 8 /\ (func = 0 \/ multifunction h bus dev = true) /\
    present h bus dev 0 /\ present h bus dev func /\ d = describe h bus dev func.
Proof.
  unfold scan_slot, present. destruct (read_ids bus dev 0 h) as [v|] eqn:E.
  2:{ split; [by intros ?%elem_of_nil | intros (? & _ & _ & [? ?] & _); done]. }
  cbv zeta. rewrite list_elem_of_bind. setoid_rewrite scan_function_spec. setoid_rewrite elem_of_seqZ.
  unfold present. split.
  - intros (f & [Hp ->] & Hf). exists f. destruct (multifunction h bus dev).
    + split; [lia|]. split; [by right | eauto].
    + split; [lia|]. split; [left; lia | eauto].
  - intros (f & Hf & Hor & _ & Hp & ->). exists f. split; [done|].
    destruct (multifunction h bus dev); [lia|]. destruct Hor; [lia | done].
Qed.

(** [enumerate] finds exactly the functions that answer: those present at a slot whose function 0
    is present, functions 1 to 7 only of slots marked multi-function, each with the identifiers
    and the class its configuration space holds. *)
Theorem enumerate_exact h d :
  d ∈ enumerate h <->
  exists bus dev func, 0 <= bus < 256 /\ 0 <= dev < 32 /\ 0 <= func < 8 /\
    (func = 0 \/ multifunction h bus dev = true) /\ present h bus dev 0 /\ present h bus dev func /\
    d = describe h bus dev func.
Proof.
  unfold enumerate. rewrite list_elem_of_bind. setoid_rewrite list_elem_of_bind. setoid_rewrite scan_slot_spec.
  setoid_rewrite elem_of_seqZ. split.
  - intros (bus & (dev & (f & ? & ? & ? & ? & ?) & ?) & ?). exists bus, dev, f. repeat (split; [lia || done|]). done.
  - intros (bus & dev & f & ? & ? & ? & ? & ? & ? & ?). exists bus. split; [|lia]. exists dev. split; [|lia].
    exists f. done.
Qed.

Lemma find_with_spec matches index devices h b dv f bar :
  find_with matches index devices h = Some (b, dv, f, bar) ->
  exists d, d ∈ devices /\ matches d = true /\ p_bus d = b /\ p_dev d = dv /\ p_func d = f /\
    read_bar b dv f index h = Some bar.
Proof.
  induction devices as [|d devices IH]; cbn [find_with]; [done|]. intros E.
  assert (Hrec : find_with matches index devices h = Some (b, dv, f, bar) -> exists d0, d0 ∈ d :: devices /\
    matches d0 = true /\ p_bus d0 = b /\ p_dev d0 = dv /\ p_func d0 = f /\ read_bar b dv f index h = Some bar).
  { intros E'. destruct (IH E') as (d0 & Hd & Hr). exists d0. split; [by apply list_elem_of_further | done]. }
  destruct (matches d) eqn:Em; [|by apply Hrec].
  destruct (read_bar (p_bus d) (p_dev d) (p_func d) index h) as [bar'|] eqn:Eb; [|by apply Hrec].
  injection E as <- <- <- <-. exists d. split; [apply list_elem_of_here|]. done.
Qed.

End enumerate.

(** ** Updating a register *)

(** An update of a 16-bit register changes the requested bits of that register and nothing else of
    the dword around it. *)
Lemma update_word_bits {H} {hardware : Hardware H} bus dev func offset clear set (h : H) :
  0 <= offset < 256 -> 0 <= clear < 2^16 -> 0 <= set < 2^16 ->
  let dword := config_read_dword bus dev func (Z.land offset (Z.lxor 0xFF 0x3)) h in
  0 <= dword < 2^32 ->
  exists v, snd (config_update_word bus dev func offset clear set h) =
      config_write_dword bus dev func (Z.land offset (Z.lxor 0xFF 0x3)) v h /\
    forall i, 0 <= i < 32 ->
      let shift := Z.land offset 0x2 * 8 in
      Z.testbit v i =
        if decide (shift <= i < shift + 16) then
          Z.testbit set (i - shift) || Z.testbit dword i && negb (Z.testbit clear (i - shift))
        else Z.testbit dword i.
Proof.
  intros Ho Hc Hs dword Hd. eexists. split; [reflexivity|]. intros i Hi shift. fold dword. fold shift.
  assert (Hsh : shift = 0 \/ shift = 16).
  { unfold shift. change 2 with (2^1). assert (Z.land offset (2^1) = 0 \/ Z.land offset (2^1) = 2^1) as [->| ->]; [|lia..].
    destruct (Z.testbit offset 1) eqn:E; [right | left]; apply Z.bits_inj'; intros j Hj;
      rewrite ?Z.land_spec, ?Z.bits_0, Z.pow2_bits_eqb by lia; destruct (Z.eqb_spec 1 j) as [<-|]; rewrite ?E, ?andb_false_r; done. }
  assert (H16 : 0 <= 0xFFFF < 2^16) by lia.
  unfold w32, w16. change 0xFFFFFFFF with (Z.ones 32). change 0xFFFF with (Z.ones 16).
  rewrite Z.lor_spec, Z.land_spec, Z.lxor_spec, Z.ones_spec_low by lia.
  rewrite !Z.mod_pow2_bits_low by lia.
  destruct (Z.lt_ge_cases i shift) as [Hlt|Hge].
  { rewrite !Z.shiftl_spec_low by lia. rewrite decide_False by lia. cbn. by rewrite andb_true_r, orb_false_r. }
  rewrite !Z.shiftl_spec by lia. destruct (Z.lt_ge_cases i (shift + 16)) as [Hlt|Hhi].
  - rewrite decide_True by lia. rewrite Z.ones_spec_low by lia. cbn [xorb]. rewrite andb_false_r. cbn [orb].
    rewrite Z.lor_spec, Z.land_spec, Z.lxor_spec, Z.ones_spec_low by lia.
    rewrite Z.mod_pow2_bits_low by lia. rewrite Z.land_spec, Z.ones_spec_low, Z.shiftr_spec by lia.
    replace (i - shift + shift) with i by lia. cbn [xorb]. rewrite andb_true_r. rewrite orb_comm. by destruct (Z.testbit clear _).
  - rewrite decide_False by lia. rewrite Z.ones_spec_high by lia. cbn [xorb]. rewrite andb_true_r.
    assert (Hz : forall x, 0 <= x < 2^16 -> Z.testbit x (i - shift) = false).
    { intros x Hx. destruct (Z.eq_dec x 0) as [->|]; [apply Z.bits_0|]. apply Z.bits_above_log2; [lia|].
      apply Z.lt_le_trans with 16; [apply Z.log2_lt_pow2; lia | lia]. }
    rewrite Z.lor_spec, Z.land_spec, (Hz set), orb_false_r by done.
    rewrite (Hz (_ mod 2^16)) by (apply Z.mod_pos_bound; lia). by rewrite orb_false_r.
Qed.

(** ** The capability walk is complete *)

Lemma not_NoDup_repeats {A} `{!EqDecision A} (l : list A) :
  ~ NoDup l -> exists (i j : nat) x, (i < j)%nat /\ l !! i = Some x /\ l !! j = Some x.
Proof.
  induction l as [|x l IH]; intros Hn; [exfalso; apply Hn, NoDup_nil_2|].
  destruct (decide (x ∈ l)) as [Hin|Hout].
  - apply list_elem_of_lookup in Hin as [j Hj]. exists 0%nat, (S j), x. split; [lia | done].
  - destruct IH as (i & j & y & Hij & Hi & Hj); [intros Hl; apply Hn; by constructor|].
    exists (S i), (S j), y. split; [lia | done].
Qed.

Section walk.
Context {H : Type} {hardware : Hardware H} (h : H) (bus dev func : Z).

Definition cap_head : Z := Z.land (config_read_byte bus dev func REG_CAP_PTR h) 0xFC.
Definition has_cap_list : Prop := Z.land (config_read_word bus dev func REG_STATUS h) STATUS_CAP_LIST <> 0.

(** The capability structures the list links together: the head and every successor, as long as
    the pointers lie past the standard header. *)
Inductive reachable_cap : Z -> Prop :=
| reach_head : has_cap_list -> 0x40 <= cap_head -> reachable_cap cap_head
| reach_next p : reachable_cap p -> 0x40 <= cap_next bus dev func p h -> reachable_cap (cap_next bus dev func p h).

Definition is_msix (p : Z) : Prop := config_read_byte bus dev func p h = CAP_ID_MSIX.

Fixpoint nth_cap (n : nat) (p : Z) : Z :=
  match n with O => p | S n => nth_cap n (cap_next bus dev func p h) end.

Lemma nth_cap_S n p : nth_cap (S n) p = cap_next bus dev func (nth_cap n p) h.
Proof using Type. revert p. induction n as [|n IH]; intros p; [done|]. cbn [nth_cap] in *. apply IH. Qed.

Lemma nth_cap_add n k p : nth_cap (n + k) p = nth_cap n (nth_cap k p).
Proof using Type. revert p. induction k as [|k IH]; intros p; [by rewrite Nat.add_0_r|]. rewrite Nat.add_succ_r. apply IH. Qed.

(** [n] steps from [p] stay past the standard header. *)
Definition walks (n : nat) (p : Z) : Prop := forall j, (j <= n)%nat -> 0x40 <= nth_cap j p.

Lemma reachable_walk q :
  reachable_cap q -> has_cap_list /\ exists n, q = nth_cap n cap_head /\ walks n cap_head.
Proof using Type.
  induction 1 as [Hl Hh | p _ [Hl (n & -> & Hw)] Hge].
  - split; [done|]. exists 0%nat. split; [done|]. intros j Hj. assert (j = 0%nat) as -> by lia. done.
  - split; [done|]. exists (S n). split; [by rewrite nth_cap_S|]. intros j Hj.
    destruct (decide (j = S n)) as [->|]; [by rewrite nth_cap_S | apply Hw; lia].
Qed.

(** Pointers have their low two bits clear and fit in a byte. *)
Lemma pointer_mask x : exists a, Z.land x 0xFC = 4 * a /\ 0 <= a < 64.
Proof using Type.
  exists (Z.land (Z.shiftr x 2) (Z.ones 6)). split.
  - change 0xFC with (Z.shiftl (Z.ones 6) 2). rewrite Z.mul_comm. change 4 with (2^2).
    rewrite <- Z.shiftl_mul_pow2, Z.shiftl_land by lia. apply Z.bits_inj'. intros i Hi.
    rewrite !Z.land_spec. destruct (Z.lt_ge_cases i 2).
    + by rewrite !Z.shiftl_spec_low, !andb_false_r by lia.
    + rewrite !Z.shiftl_spec, Z.shiftr_spec by lia. by replace (i - 2 + 2) with i by lia.
  - rewrite Z.land_ones by lia. apply Z.mod_pos_bound. lia.
Qed.

Lemma nth_cap_pointer n : exists a, nth_cap n cap_head = 4 * a /\ 0 <= a < 64.
Proof using Type. destruct n as [|n]; [|rewrite nth_cap_S]; apply pointer_mask. Qed.

(** There are 48 places for a capability, so what a walk reaches it reaches in 47 steps. *)
Lemma walk_shortens n :
  walks n cap_head -> exists m, (m < 48)%nat /\ nth_cap m cap_head = nth_cap n cap_head /\ walks m cap_head.
Proof using Type.
  induction n as [n IH] using lt_wf_ind. intros Hw. destruct (decide (n < 48)%nat) as [|Hge]; [by exists n|].
  destruct (not_NoDup_repeats ((fun j => nth_cap j cap_head) <$> seq 0 49)) as (i & j & x & Hij & Hi & Hj).
  - intros Hnd. apply NoDup_ListNoDup in Hnd.
    pose proof (NoDup_incl_length Hnd (l' := (fun a => 64 + 4 * a) <$> seqZ 0 48)) as Hlen.
    rewrite !length_fmap, length_seq, length_seqZ in Hlen. enough (49 <= 48)%nat by lia. apply Hlen.
    intros y Hy. apply list_elem_of_In. apply list_elem_of_In in Hy.
    apply list_elem_of_fmap in Hy as (k & -> & Hk). apply elem_of_seq in Hk.
    destruct (nth_cap_pointer k) as (a & Ha & Hb). specialize (Hw k ltac:(lia)).
    apply list_elem_of_fmap. exists (a - 16). split; [lia|]. apply elem_of_seqZ. lia.
  - rewrite list_lookup_fmap in Hi, Hj.
    destruct (seq 0 49 !! i) as [i'|] eqn:Ei; [|done]. destruct (seq 0 49 !! j) as [j'|] eqn:Ej; [|done].
    apply lookup_seq in Ei as [-> Hi49]. apply lookup_seq in Ej as [-> Hj49]. cbn in Hi, Hj. injection Hi as Hi. injection Hj as Hj.
    assert (En : nth_cap (n - j + i) cap_head = nth_cap n cap_head).
    { rewrite nth_cap_add, Hi, <- Hj, <- nth_cap_add. f_equal. lia. }
    destruct (IH (n - j + i)%nat ltac:(lia)) as (m & Hm & Em & Hwm); [intros t Ht; apply Hw; lia|].
    exists m. split; [done|]. split; [congruence | done].
Qed.

Lemma loop_none n p m :
  find_msix_loop n bus dev func p h = None -> (m < n)%nat -> walks m p -> ~ is_msix (nth_cap m p).
Proof using Type.
  revert p m. induction n as [|n IH]; intros p m E Hm Hw; [lia|]. cbn [find_msix_loop] in E.
  pose proof (Hw 0%nat ltac:(lia)) as H0. cbn [nth_cap] in H0. rewrite (proj2 (Z.ltb_ge _ _)) in E by lia.
  destruct (Z.eqb_spec (config_read_byte bus dev func p h) CAP_ID_MSIX) as [|Hne]; [done|].
  destruct m as [|m]; [exact Hne|]. cbn [nth_cap].
  pose proof (Hw 1%nat ltac:(lia)) as H1. cbn [nth_cap] in H1. cbv zeta in E. rewrite (proj2 (Z.eqb_neq _ 0)) in E by lia.
  apply IH; [done | lia |]. intros j Hj. apply (Hw (S j)). lia.
Qed.

Lemma loop_some n p c :
  find_msix_loop n bus dev func p h = Some c ->
  exists m, walks m p /\ is_msix (nth_cap m p) /\ c = msix_at bus dev func (nth_cap m p) h /\
    forall j, (j < m)%nat -> ~ is_msix (nth_cap j p).
Proof using Type.
  revert p. induction n as [|n IH]; intros p E; [done|]. cbn [find_msix_loop] in E.
  destruct (Z.ltb_spec p 0x40) as [|Hp]; [done|].
  destruct (Z.eqb_spec (config_read_byte bus dev func p h) CAP_ID_MSIX) as [He|Hne].
  - injection E as <-. exists 0%nat. split; [intros j Hj; by assert (j = 0%nat) as -> by lia|]. split; [done|]. split; [done|]. lia.
  - cbv zeta in E. destruct (_ =? 0); [done|]. destruct (IH _ E) as (m & Hw & Hm & -> & Hf).
    exists (S m). split; [|split; [done|split; [done|]]].
    + intros [|j] Hj; [exact Hp | apply Hw; lia].
    + intros [|j] Hj; [exact Hne | apply Hf; lia].
Qed.

Lemma walk_reachable n : has_cap_list -> walks n cap_head -> reachable_cap (nth_cap n cap_head).
Proof using Type.
  intros Hl. induction n as [|n IH]; intros Hw.
  - apply reach_head; [done | apply (Hw 0%nat); lia].
  - rewrite nth_cap_S. apply reach_next; [apply IH; intros j Hj; apply Hw; lia|]. rewrite <- nth_cap_S. apply Hw. lia.
Qed.

Lemma msix_at_fields p :
  let c := msix_at bus dev func p h in
  table_offset c mod 8 = 0 /\ 0 <= table_bir c < 8 /\ 1 <= table_size c <= 2048.
Proof using Type.
  cbn. split; [|split].
  - change 8 with (2^3). rewrite <- Z.land_ones by lia. rewrite <- Z.land_assoc. change (Z.land _ (Z.ones 3)) with 0 at 1.
    apply Z.land_0_r.
  - change 7 with (Z.ones 3). rewrite Z.land_ones by lia. unfold w8. change (2^3) with 8. change (2^8) with 256.
    pose proof (Z.mod_pos_bound (config_read_dword bus dev func ((p + 4) mod 256) h) 8 ltac:(lia)).
    rewrite Z.mod_small; lia.
  - change 0x7FF with (Z.ones 11). rewrite Z.land_ones by lia. unfold w16.
    change (2^11) with 2048. change (2^16) with 65536.
    pose proof (Z.mod_pos_bound (config_read_word bus dev func (w8 (p + 2)) h) 2048 ltac:(lia)).
    rewrite Z.mod_small; lia.
Qed.

(** The walk for the MSI-X capability is complete although it stops after 48 steps, on every
    configuration space, cyclic and malformed lists included. When [find_msix] fails, no capability
    that the list links, after any number of steps, is MSI-X. When it succeeds, it returns the
    decoded registers of a linked MSI-X structure, at an aligned offset past the standard header,
    with a table of 1 to 2048 entries in one of the BARs 0 to 7. *)
Theorem find_msix_complete :
  match find_msix bus dev func h with
  | None => forall p, reachable_cap p -> ~ is_msix p
  | Some c =>
      reachable_cap (cap_ptr c) /\ is_msix (cap_ptr c) /\ c = msix_at bus dev func (cap_ptr c) h /\
      cap_ptr c mod 4 = 0 /\ 0x40 <= cap_ptr c < 0x100 /\
      table_offset c mod 8 = 0 /\ 0 <= table_bir c < 8 /\ 1 <= table_size c <= 2048
  end.
Proof using Type.
  unfold find_msix. destruct (Z.eqb_spec (Z.land (config_read_word bus dev func REG_STATUS h) STATUS_CAP_LIST) 0) as [E|Hl].
  { intros p Hp. apply reachable_walk in Hp as [Hl _]. done. }
  fold cap_head. destruct (find_msix_loop 48 bus dev func cap_head h) as [c|] eqn:E.
  - apply loop_some in E as (m & Hw & Hm & -> & _). cbn [cap_ptr msix_at].
    destruct (nth_cap_pointer m) as (a & Ha & Hb). pose proof (Hw m ltac:(lia)).
    split; [by apply walk_reachable|]. split; [done|]. split; [done|].
    split; [rewrite Ha, Z.mul_comm; by apply Z.mod_mul|]. split; [lia|]. apply msix_at_fields.
  - intros p Hp. apply reachable_walk in Hp as (_ & n & -> & Hw).
    destruct (walk_shortens n Hw) as (m & Hm & <- & Hwm). by apply (loop_none 48).
Qed.

End walk.

(** ** Configuration addresses

    Different functions have disjoint address ranges. *)

Lemma config_addr_val bus dev func off :
  0 <= bus < 256 -> 0 <= dev < 32 -> 0 <= func < 8 ->
  config_addr bus dev func off = 0x80000000 + bus * 2^16 + dev * 2^11 + func * 2^8 + Z.land off 0xFC.
Proof.
  intros Hb Hd Hf. unfold config_addr. destruct (pointer_mask off) as (a & Ha & Hr). rewrite Ha.
  assert (E1 : Z.lor 0x80000000 (Z.shiftl bus 16) = Z.shiftl (0x8000 + bus) 16).
  { change 0x80000000 with (Z.shiftl 0x8000 16). rewrite <- Z.shiftl_lor. f_equal.
    change 0x8000 with (Z.shiftl 0x80 8). rewrite lor_shiftl_add by lia. done. }
  rewrite E1, lor_shiftl_add by (rewrite ?Z.shiftl_mul_pow2; lia).
  replace ((0x8000 + bus) * 2^16 + Z.shiftl dev 11) with (Z.shiftl ((0x8000 + bus) * 2^5 + dev) 11)
    by (rewrite !Z.shiftl_mul_pow2 by lia; lia).
  rewrite lor_shiftl_add by (rewrite ?Z.shiftl_mul_pow2; lia).
  replace (((0x8000 + bus) * 2^5 + dev) * 2^11 + Z.shiftl func 8)
    with (Z.shiftl (((0x8000 + bus) * 2^5 + dev) * 2^3 + func) 8) by (rewrite !Z.shiftl_mul_pow2 by lia; lia).
  rewrite lor_shiftl_add by lia. lia.
Qed.

Lemma config_addr_inj b1 d1 f1 o1 b2 d2 f2 o2 :
  0 <= b1 < 256 -> 0 <= d1 < 32 -> 0 <= f1 < 8 -> 0 <= b2 < 256 -> 0 <= d2 < 32 -> 0 <= f2 < 8 ->
  config_addr b1 d1 f1 o1 = config_addr b2 d2 f2 o2 -> b1 = b2 /\ d1 = d2 /\ f1 = f2.
Proof.
  intros. rewrite !config_addr_val in * by done. destruct (pointer_mask o1) as (x & E1 & ?), (pointer_mask o2) as (y & E2 & ?).
  lia.
Qed.
