(* ===== verification/Acpi.v ===== *)
(** * ACPI tables (kernel/src/arch/acpi.rs)

    From the RSDP to the root table to the table with a signature; the DMAR table, which describes
    the DMA remapping units; and the two tables soft-off reads. Firmware may hand over anything, so
    every function is total on arbitrary memory; a slice index out of range, and a read outside the
    identity mapping, are panics.

    Results: the DMAR parser never panics and never loops, whatever the bytes, and reports exactly
    the remapping structures in the chain; the search for a table touches identity-mapped memory
    only. The code that reads the power tables has no such guarantee (examples). *)

From S2P Require Import Prelude Addr Bytes.

Record Drhd : Type := mk_drhd { segment : Z; include_all : bool; reg_base : Z; scope_count : Z }.

Record DmarSummary : Type := mk_dmar {
  found : bool; table_len : Z; dmar_checksum_ok : bool; host_address_width : Z; drhd_count : Z; rmrr_count : Z;
  first_drhd : Drhd;
}.

Definition drhd_default : Drhd := mk_drhd 0 false 0 0.
Definition dmar_default : DmarSummary := mk_dmar false 0 false 0 0 0 drhd_default.

Definition ACPI_HEADER_LEN : Z := 36.
Definition DMAR_STRUCTS_OFF : Z := 48.

Definition SIG_DMAR : list Z := [0x44; 0x4D; 0x41; 0x52].
Definition SIG_XSDT : list Z := [0x58; 0x53; 0x44; 0x54].
Definition SIG_RSDT : list Z := [0x52; 0x53; 0x44; 0x54].
Definition SIG_FACP : list Z := [0x46; 0x41; 0x43; 0x50].
Definition SIG_DSDT : list Z := [0x44; 0x53; 0x44; 0x54].
Definition SIG_S5 : list Z := [0x5F; 0x53; 0x35; 0x5F].
Definition SIG_RSDP : list Z := [0x52; 0x53; 0x44; 0x20; 0x50; 0x54; 0x52; 0x20].

(** ** Little-endian reads; an index past the end panics *)

Fixpoint rd_bytes (n : nat) (b : list Z) (off : Z) : res (list Z) :=
  match n with
  | O => Ok []
  | S n => x ← index b off; l ← rd_bytes n b (off + 1); Ok (x :: l)
  end.

Definition rd16 (b : list Z) (off : Z) : res Z := l ← rd_bytes 2 b off; Ok (from_le l).
Definition rd32 (b : list Z) (off : Z) : res Z := l ← rd_bytes 4 b off; Ok (from_le l).
Definition rd64 (b : list Z) (off : Z) : res Z := l ← rd_bytes 8 b off; Ok (from_le l).

Definition checksum_ok (bytes : list Z) : bool := foldl (fun acc b => w8 (acc + b)) 0 bytes =? 0.

Definition starts_with (b sig : list Z) : bool := bool_decide (take (length sig) b = sig).

(** ** DMAR *)

(** One remapping structure at [off], of type [ty] and length [slen]. *)
Definition note_struct (t : list Z) (off ty slen : Z) (s : DmarSummary) : res DmarSummary :=
  if ty =? 0 then
    if 16 <=? slen then
      seg ← rd16 t (off + 6);
      flags ← index t (off + 4);
      base ← rd64 t (off + 8);
      let drhd := mk_drhd seg (negb (Z.land flags 1 =? 0)) base (w16 ((slen - 16) / 8)) in
      Ok (mk_dmar (found s) (table_len s) (dmar_checksum_ok s) (host_address_width s) (w32 (drhd_count s + 1)) (rmrr_count s)
            (if drhd_count s =? 0 then drhd else first_drhd s))
    else Ok s
  else if ty =? 1 then
    Ok (mk_dmar (found s) (table_len s) (dmar_checksum_ok s) (host_address_width s) (drhd_count s) (w32 (rmrr_count s + 1))
          (first_drhd s))
  else Ok s.

(** The [while] loop; running out of fuel is a panic here, so that a result shows that it ends. *)
Fixpoint dmar_loop (fuel : nat) (t : list Z) (len off : Z) (s : DmarSummary) : res DmarSummary :=
  if off + 4 <=? len then
    match fuel with
    | O => Panic
    | S fuel =>
        ty ← rd16 t off;
        slen ← rd16 t (off + 2);
        if (slen <? 4) || (len <? off + slen) then Ok s
        else s ← note_struct t off ty slen s; dmar_loop fuel t len (off + slen) s
    end
  else Ok s.

Definition parse_dmar (bytes : list Z) : res DmarSummary :=
  if (Z.of_nat (length bytes) <? DMAR_STRUCTS_OFF) || negb (starts_with bytes SIG_DMAR) then Ok dmar_default
  else
    len ← rd32 bytes 4;
    if (len <? DMAR_STRUCTS_OFF) || (Z.of_nat (length bytes) <? len) then Ok dmar_default
    else
      let t := take (Z.to_nat len) bytes in
      haw ← index t 36;
      dmar_loop (length bytes) t len DMAR_STRUCTS_OFF (mk_dmar true len (checksum_ok t) haw 0 0 drhd_default).

(** ** Walking physical memory *)

Section memory.
Context (m : mem).

(** [slice::from_raw_parts] at a physical address: outside the identity mapping it faults. *)
Definition phys_slice (paddr len : Z) : res (list Z) :=
  if is_identity_mapped paddr len then Ok (slice_at paddr (Z.to_nat len) m) else Panic.

Definition table_at (paddr : Z) (sig : list Z) : res (option (list Z)) :=
  if (paddr =? 0) || negb (is_identity_mapped paddr ACPI_HEADER_LEN) then Ok None
  else
    hdr ← phys_slice paddr ACPI_HEADER_LEN;
    if negb (starts_with hdr sig) then Ok None
    else
      len ← rd32 hdr 4;
      if (len <? ACPI_HEADER_LEN) || negb (is_identity_mapped paddr len) then Ok None
      else t ← phys_slice paddr len; Ok (Some t).

Definition xsdt_or_rsdt (rsdp : Z) : res (option (Z * bool)) :=
  if (rsdp =? 0) || negb (is_identity_mapped rsdp 20) then Ok None
  else
    h ← phys_slice rsdp 20;
    if negb (starts_with h SIG_RSDP) || negb (checksum_ok h) then Ok None
    else
      revision ← index h 15;
      let old := rsdt ← rd32 h 16; Ok (if rsdt =? 0 then None else Some (rsdt, false)) in
      if (2 <=? revision) && is_identity_mapped rsdp ACPI_HEADER_LEN then
        h36 ← phys_slice rsdp ACPI_HEADER_LEN;
        xsdt ← rd64 h36 24;
        if negb (xsdt =? 0) then Ok (Some (xsdt, true)) else old
      else old.

Fixpoint find_loop (n : nat) (i : Z) (table : list Z) (is_xsdt : bool) (sig : list Z) : res (option (list Z)) :=
  match n with
  | O => Ok None
  | S n =>
      let off := ACPI_HEADER_LEN + i * (if is_xsdt : bool then 8 else 4) in
      paddr ← (if is_xsdt : bool then rd64 table off else rd32 table off);
      if paddr =? 0 then find_loop n (i + 1) table is_xsdt sig
      else
        o ← table_at paddr sig;
        match o with Some t => Ok (Some t) | None => find_loop n (i + 1) table is_xsdt sig end
  end.

Definition find_table (rsdp : Z) (sig : list Z) : res (option (list Z)) :=
  o ← xsdt_or_rsdt rsdp;
  match o with
  | None => Ok None
  | Some (root, is_xsdt) =>
      t ← table_at root (if is_xsdt : bool then SIG_XSDT else SIG_RSDT);
      match t with
      | None => Ok None
      | Some table =>
          let ent := if is_xsdt : bool then 8 else 4 in
          let count := (Z.of_nat (length table) - ACPI_HEADER_LEN) / ent in
          find_loop (Z.to_nat count) 0 table is_xsdt sig
      end
  end.

Definition probe_dmar (rsdp : Z) : res DmarSummary :=
  o ← find_table rsdp SIG_DMAR;
  match o with Some bytes => parse_dmar bytes | None => Ok dmar_default end.

(** ** Soft-off *)

Definition fadt_pm1 (rsdp : Z) : res (Z * Z) :=
  o ← find_table rsdp SIG_FACP;
  match o with
  | None => Ok (0, 0)
  | Some t =>
      if Z.of_nat (length t) <? 0x48 then Ok (0, 0)
      else a ← rd32 t 0x40; b ← rd32 t 0x44; Ok (w16 a, w16 b)
  end.

(** What follows the name [_S5_] at [i]: [None] when the scan goes on. *)
Definition s5_at (bytes : list Z) (len i : Z) : res (option (option Z)) :=
  let j := i + 4 in
  if negb (j <? len) then Ok None
  else
    b ← index bytes j;
    if negb (b =? 0x12) then Ok None
    else
      let j := j + 1 in
      if negb (j <? len) then Ok None
      else
        lead ← index bytes j;
        let j := j + 1 + Z.shiftr lead 6 in
        let j := if j <? len then j + 1 else j in
        if negb (j <? len) then Ok None
        else
          op ← index bytes j;
          let byte := x ← index bytes (j + 1); Ok (Some (Some (Z.land x 0x7))) in
          if (op =? 0x0A) && (j + 1 <? len) then byte
          else if (op =? 0x0B) && (j + 2 <? len) then byte
          else if (op =? 0x0C) && (j + 4 <? len) then byte
          else if op =? 0x00 then Ok (Some (Some 0))
          else if op =? 0x01 then Ok (Some (Some 1))
          else Ok (Some None).

Fixpoint s5_loop (fuel : nat) (bytes : list Z) (len i : Z) : res (option Z) :=
  if i + 4 <=? len then
    match fuel with
    | O => Panic
    | S fuel =>
        if bool_decide (take 4 (drop (Z.to_nat i) bytes) = SIG_S5) then
          o ← s5_at bytes len i;
          match o with Some v => Ok v | None => s5_loop fuel bytes len (i + 1) end
        else s5_loop fuel bytes len (i + 1)
    end
  else Ok None.

Definition dsdt_s5 (rsdp : Z) : res (option Z) :=
  o ← find_table rsdp SIG_FACP;
  match o with
  | None => Ok None
  | Some fadt =>
      dsdt_addr ←
        (if 0x90 <=? Z.of_nat (length fadt) then
           x ← rd64 fadt 0x8C; if negb (x =? 0) then Ok x else rd32 fadt 0x28
         else rd32 fadt 0x28);
      if dsdt_addr =? 0 then Ok None
      else
        sig ← phys_slice dsdt_addr 4;
        if negb (bool_decide (sig = SIG_DSDT)) then Ok None
        else
          h ← phys_slice dsdt_addr 8;
          l ← rd32 h 4;
          let len := Z.min l 0x40000 in
          if len <? 8 then Ok None
          else bytes ← phys_slice dsdt_addr len; s5_loop (Z.to_nat len) bytes len 0
  end.

(** The writes of [poweroff] to 16-bit ports, given what the ports read; without a PM1a block the
    port of the common emulators is used. *)
Definition sleep_value (cur slp_s5 : Z) : Z := Z.lor (Z.land cur (Z.lxor 0xFFFF (Z.shiftl 7 10))) slp_s5.

Definition poweroff (rsdp : Z) (port_in : Z -> Z) : res (list (Z * Z)) :=
  pm1 ← fadt_pm1 rsdp;
  s ← dsdt_s5 rsdp;
  let s5 := default 5 s in
  let slp_s5 := Z.lor (w16 (Z.shiftl s5 10)) (Z.shiftl 1 13) in
  let '(pm1a, pm1b) := pm1 in
  if negb (pm1a =? 0) then
    Ok ((pm1a, sleep_value (port_in pm1a) slp_s5) ::
        (if negb (pm1b =? 0) then [(pm1b, sleep_value (port_in pm1b) slp_s5)] else []))
  else Ok [(0x604, sleep_value (port_in 0x604) slp_s5)].

End memory.

(** ** Reads in range *)

Lemma rd_bytes_ok n b off :
  0 <= off -> off + Z.of_nat n <= Z.of_nat (length b) -> rd_bytes n b off = Ok (take n (drop (Z.to_nat off) b)).
Proof.
  revert off. induction n as [|n IH]; intros off Ho Hl; cbn [rd_bytes]; [done|].
  destruct (lookup_lt_is_Some_2 b (Z.to_nat off)) as [x Hx]; [lia|].
  assert (Hi : index b off = Ok x).
  { apply index_ok. rewrite <- (Z2Nat.id off), lookupZ_nat by lia. done. }
  unfold mbind, res_bind. rewrite Hi, IH by lia.
  replace (Z.to_nat (off + 1)) with (S (Z.to_nat off)) by lia. by rewrite (drop_S _ _ _ Hx).
Qed.

Lemma rd16_ok b off : 0 <= off -> off + 2 <= Z.of_nat (length b) -> rd16 b off = Ok (field (Z.to_nat off) 2 b).
Proof. intros. unfold rd16, mbind, res_bind. by rewrite rd_bytes_ok by lia. Qed.

Lemma rd32_ok b off : 0 <= off -> off + 4 <= Z.of_nat (length b) -> rd32 b off = Ok (field (Z.to_nat off) 4 b).
Proof. intros. unfold rd32, mbind, res_bind. by rewrite rd_bytes_ok by lia. Qed.

Lemma rd64_ok b off : 0 <= off -> off + 8 <= Z.of_nat (length b) -> rd64 b off = Ok (field (Z.to_nat off) 8 b).
Proof. intros. unfold rd64, mbind, res_bind. by rewrite rd_bytes_ok by lia. Qed.

Lemma index_in_table {A} (l : list A) i : 0 <= i < Z.of_nat (length l) -> exists x, index l i = Ok x /\ l !! Z.to_nat i = Some x.
Proof.
  intros Hi. destruct (lookup_lt_is_Some_2 l (Z.to_nat i)) as [x Hx]; [lia|]. exists x. split; [|done].
  apply index_ok. rewrite <- (Z2Nat.id i), lookupZ_nat by lia. done.
Qed.

(** ** The chain of remapping structures *)

(** The structures from [off] on, as type, offset and length: each at least four bytes long and
    inside the table. *)
Inductive chain (t : list Z) (len : Z) : Z -> list (Z * Z * Z) -> Prop :=
| chain_end off : len < off + 4 -> chain t len off []
| chain_bad off :
    off + 4 <= len -> (field (Z.to_nat (off + 2)) 2 t < 4 \/ len < off + field (Z.to_nat (off + 2)) 2 t) -> chain t len off []
| chain_cons off l :
    off + 4 <= len -> 4 <= field (Z.to_nat (off + 2)) 2 t -> off + field (Z.to_nat (off + 2)) 2 t <= len ->
    chain t len (off + field (Z.to_nat (off + 2)) 2 t) l ->
    chain t len off ((field (Z.to_nat off) 2 t, off, field (Z.to_nat (off + 2)) 2 t) :: l).

Definition is_drhd (x : Z * Z * Z) : bool := let '(ty, _, slen) := x in (ty =? 0) && (16 <=? slen).
Definition is_rmrr (x : Z * Z * Z) : bool := let '(ty, _, _) := x in ty =? 1.

Definition drhd_of (t : list Z) (x : Z * Z * Z) : Drhd :=
  let '(_, off, slen) := x in
  mk_drhd (field (Z.to_nat (off + 6)) 2 t) (negb (Z.land (nth (Z.to_nat (off + 4)) t 0) 1 =? 0))
    (field (Z.to_nat (off + 8)) 8 t) (w16 ((slen - 16) / 8)).

Definition count_if {A} (p : A -> bool) (l : list A) : Z := Z.of_nat (length (List.filter p l)).

(** What the summary is after the structures of [l]. *)
Definition summarise (t : list Z) (l : list (Z * Z * Z)) (s : DmarSummary) : DmarSummary :=
  mk_dmar (found s) (table_len s) (dmar_checksum_ok s) (host_address_width s) (w32 (drhd_count s + count_if is_drhd l))
    (w32 (rmrr_count s + count_if is_rmrr l))
    (if drhd_count s =? 0 then match List.find is_drhd l with Some x => drhd_of t x | None => first_drhd s end else first_drhd s).

Lemma chain_length t len off l : 0 <= off -> chain t len off l -> off <= len + 3 -> 4 * Z.of_nat (length l) <= len + 3 - off.
Proof. intros Ho Hc Hlen. induction Hc as [off H|off H _|off l H H1 H2 _ IH]; cbn [length]; lia. Qed.

Lemma count_if_cons {A} (p : A -> bool) x l : count_if p (x :: l) = (if p x then 1 else 0) + count_if p l.
Proof. unfold count_if. cbn. destruct (p x); cbn [length]; lia. Qed.

Lemma count_if_bound {A} (p : A -> bool) l : 0 <= count_if p l <= Z.of_nat (length l).
Proof. induction l as [|x l IH]; [done|]. rewrite count_if_cons. cbn [length]. destruct (p x); lia. Qed.

Lemma summarise_nil t s : 0 <= drhd_count s < 2^32 -> 0 <= rmrr_count s < 2^32 -> summarise t [] s = s.
Proof.
  intros Hd Hr. destruct s as [a b c d e f g]. unfold summarise. cbn in *. unfold w32, count_if. cbn.
  rewrite !Z.add_0_r, !Z.mod_small by lia. by destruct (e =? 0).
Qed.

Lemma note_struct_ok t off ty slen s l :
  Forall is_byte t -> 0 <= off -> 4 <= slen -> off + slen <= Z.of_nat (length t) ->
  0 <= drhd_count s -> drhd_count s + Z.of_nat (length l) + 1 < 2^32 ->
  0 <= rmrr_count s -> rmrr_count s + Z.of_nat (length l) + 1 < 2^32 ->
  exists s', note_struct t off ty slen s = Ok s' /\ summarise t l s' = summarise t ((ty, off, slen) :: l) s /\
    0 <= drhd_count s' <= drhd_count s + 1 /\ 0 <= rmrr_count s' <= rmrr_count s + 1.
Proof.
  intros Hb Ho Hsl Hlen Hd Hdl Hr Hrl. unfold note_struct, summarise. rewrite !count_if_cons. cbn [is_drhd is_rmrr List.find].
  pose proof (count_if_bound is_drhd l). pose proof (count_if_bound is_rmrr l).
  destruct (Z.eqb_spec ty 0) as [->|Hty].
  - cbn [andb]. destruct (Z.leb_spec 16 slen) as [H16|H16].
    + rewrite rd16_ok, rd64_ok by lia. destruct (index_in_table t (off + 4)) as (fl & Hfl & Hfl'); [lia|].
      unfold mbind, res_bind. rewrite Hfl. eexists. split; [reflexivity|]. cbn.
      assert (Ew : w32 (drhd_count s + 1) = drhd_count s + 1) by (unfold w32; apply Z.mod_small; lia).
      rewrite Ew. split; [|lia]. f_equal.
      * f_equal. lia.
      * rewrite (proj2 (Z.eqb_neq (drhd_count s + 1) 0)) by lia. destruct (drhd_count s =? 0); [|done].
        by rewrite (nth_lookup_Some _ _ _ _ Hfl').
    + exists s. split; [done|]. split; [|lia]. cbn. by rewrite !Z.add_0_l.
  - cbn [andb]. destruct (Z.eqb_spec ty 1) as [->|Hty1].
    + eexists. split; [reflexivity|]. cbn.
      assert (Ew : w32 (rmrr_count s + 1) = rmrr_count s + 1) by (unfold w32; apply Z.mod_small; lia).
      rewrite Ew. split; [|lia]. by rewrite Z.add_0_l, Z.add_assoc.
    + exists s. split; [done|]. split; [|lia]. cbn. by rewrite !Z.add_0_l.
Qed.

Lemma field_ge0 off n l : Forall is_byte l -> 0 <= field off n l.
Proof.
  intros Hl. unfold field. apply from_le_bound. apply Forall_take, Forall_drop. exact Hl.
Qed.

(** The loop meets every structure of the chain and ends. *)
Lemma dmar_loop_ok fuel t len off s :
  Forall is_byte t -> Z.of_nat (length t) = len -> len < 2^32 -> 48 <= off <= len + 3 -> len - off < 4 * Z.of_nat fuel ->
  0 <= drhd_count s -> drhd_count s + (len + 3 - off) / 4 < 2^31 ->
  0 <= rmrr_count s -> rmrr_count s + (len + 3 - off) / 4 < 2^31 ->
  exists l, chain t len off l /\ dmar_loop fuel t len off s = Ok (summarise t l s).
Proof.
  revert off s. induction fuel as [|fuel IH]; intros off s Hb Hlen Hl32 Ho Hf Hd Hdl Hr Hrl.
  - exists []. cbn [dmar_loop]. rewrite (proj2 (Z.leb_gt _ _)) by lia. split; [apply chain_end; lia|].
    rewrite summarise_nil; [done | |]; Z.to_euclidean_division_equations; lia.
  - cbn [dmar_loop]. destruct (Z.leb_spec (off + 4) len) as [H4|H4].
    2:{ exists []. split; [apply chain_end; lia|]. rewrite summarise_nil; [done | |]; Z.to_euclidean_division_equations; lia. }
    rewrite !rd16_ok by lia. unfold mbind, res_bind. set (ty := field (Z.to_nat off) 2 t). set (slen := field (Z.to_nat (off + 2)) 2 t).
    destruct (Z.ltb_spec slen 4) as [Hs|Hs]; cbn [orb].
    { exists []. split; [apply chain_bad; fold slen; lia|].
      rewrite summarise_nil; [done | |]; Z.to_euclidean_division_equations; lia. }
    destruct (Z.ltb_spec len (off + slen)) as [Hx|Hx].
    { exists []. split; [apply chain_bad; fold slen; lia|].
      rewrite summarise_nil; [done | |]; Z.to_euclidean_division_equations; lia. }
    assert (Hdiv : (len + 3 - (off + slen)) / 4 + 1 <= (len + 3 - off) / 4) by (Z.to_euclidean_division_equations; lia).
    assert (Hpos : 0 <= (len + 3 - (off + slen)) / 4) by (apply Z.div_pos; lia).
    destruct (note_struct_ok t off ty slen s []) as (s1 & E1 & _ & D1 & R1); cbn [length]; try done; try lia.
    destruct (IH (off + slen) s1) as (l & Hc & El); [done|done|done|lia|lia|lia|lia|lia|lia|].
    exists ((ty, off, slen) :: l). split; [by apply chain_cons|].
    pose proof (chain_length t len (off + slen) l ltac:(lia) Hc ltac:(lia)) as Hll.
    assert (Hll' : Z.of_nat (length l) <= (len + 3 - (off + slen)) / 4) by (apply Z.div_le_lower_bound; lia).
    destruct (note_struct_ok t off ty slen s l) as (s2 & E2 & Es & _); try done; try lia.
    rewrite E1. rewrite E1 in E2. injection E2 as <-. by rewrite El, Es.
Qed.

(** C40. The DMAR parser is total on whatever the firmware provides: it neither panics on an index nor
    loops, for any byte string. A table with a consistent header is summarised by the chain of its
    remapping structures, up to the first that is shorter than four bytes or leaves the table: the
    number of DRHD and RMRR structures and the fields of the first DRHD are exact. Anything else
    gives the empty summary. *)
Theorem parse_dmar_exact bytes :
  Forall is_byte bytes ->
  let len := field 4 4 bytes in
  let t := take (Z.to_nat len) bytes in
  if (48 <=? Z.of_nat (length bytes)) && starts_with bytes SIG_DMAR && (48 <=? len) && (len <=? Z.of_nat (length bytes)) then
    exists l, chain t len DMAR_STRUCTS_OFF l /\
      parse_dmar bytes = Ok (mk_dmar true len (checksum_ok t) (nth 36 bytes 0) (count_if is_drhd l) (count_if is_rmrr l)
        match List.find is_drhd l with Some x => drhd_of t x | None => drhd_default end)
  else parse_dmar bytes = Ok dmar_default.
Proof.
  intros Hb len t. unfold parse_dmar, DMAR_STRUCTS_OFF. destruct (Z.leb_spec 48 (Z.of_nat (length bytes))) as [Hl|Hl].
  2:{ by rewrite (proj2 (Z.ltb_lt _ _)) by lia. }
  rewrite (proj2 (Z.ltb_ge _ _)) by lia. cbn [orb andb]. destruct (starts_with bytes SIG_DMAR); [|done]. cbn [negb andb].
  rewrite rd32_ok by lia. change (Z.to_nat 4) with 4%nat. fold len. unfold mbind, res_bind.
  destruct (Z.leb_spec 48 len) as [H48|H48]; [|by rewrite (proj2 (Z.ltb_lt _ _)) by lia].
  rewrite (proj2 (Z.ltb_ge _ _)) by lia. cbn [orb andb].
  destruct (Z.leb_spec len (Z.of_nat (length bytes))) as [Hle|Hle]; [|by rewrite (proj2 (Z.ltb_lt _ _)) by lia].
  rewrite (proj2 (Z.ltb_ge _ _)) by lia. fold t.
  assert (Ht : Z.of_nat (length t) = len) by (unfold t; rewrite length_take; lia).
  destruct (index_in_table t 36) as (haw & Hh & Hh'); [lia|]. rewrite Hh.
  assert (Hl32 : 0 <= len < 2^32).
  { pose proof (from_le_bound (take 4 (drop 4 bytes)) (Forall_take _ _ _ (Forall_drop _ _ _ Hb))) as H0.
    rewrite length_take, length_drop in H0. replace (4 `min` (length bytes - 4))%nat with 4%nat in H0 by lia. exact H0. }
  assert (Hhaw : nth 36 bytes 0 = haw).
  { unfold t in Hh'. apply lookup_take_Some in Hh' as [Hh' _]. by apply nth_lookup_Some. }
  destruct (dmar_loop_ok (length bytes) t len 48 (mk_dmar true len (checksum_ok t) haw 0 0 drhd_default)) as (l & Hc & El);
    cbn [drhd_count rmrr_count]; try done; try lia.
  - unfold t. by apply Forall_take.
  - Z.to_euclidean_division_equations. lia.
  - Z.to_euclidean_division_equations. lia.
  - exists l. split; [exact Hc|]. rewrite El, Hhaw. unfold summarise. cbn. f_equal. f_equal.
    + unfold w32. apply Z.mod_small. pose proof (count_if_bound is_drhd l). pose proof (chain_length t len 48 l ltac:(lia) Hc ltac:(lia)). lia.
    + unfold w32. apply Z.mod_small. pose proof (count_if_bound is_rmrr l). pose proof (chain_length t len 48 l ltac:(lia) Hc ltac:(lia)). lia.
Qed.

(** ** The search for a table reads identity-mapped memory only *)

Section search.
Context (m : mem) (Hm : forall x, is_byte (m x)).

Lemma phys_slice_ok a n : is_identity_mapped a n = true -> phys_slice m a n = Ok (slice_at a (Z.to_nat n) m).
Proof using Type. intros E. unfold phys_slice. by rewrite E. Qed.

Lemma phys_slice_bytes a n : Forall is_byte (slice_at a n m).
Proof using Hm. unfold slice_at. apply Forall_fmap, Forall_true. intros x. apply Hm. Qed.

Lemma table_at_total paddr sig :
  exists o, table_at m paddr sig = Ok o /\ (forall t, o = Some t -> 36 <= Z.of_nat (length t) /\ Forall is_byte t).
Proof using Hm.
  unfold table_at. destruct (paddr =? 0); cbn [orb]; [eexists; by split|].
  destruct (is_identity_mapped paddr ACPI_HEADER_LEN) eqn:E; cbn [negb orb]; [|eexists; by split].
  unfold mbind, res_bind. rewrite phys_slice_ok by done. destruct (starts_with _ sig); cbn [negb]; [|eexists; by split].
  rewrite rd32_ok by (rewrite ?length_slice_at; unfold ACPI_HEADER_LEN; lia).
  set (len := field _ _ _). destruct (Z.ltb_spec len ACPI_HEADER_LEN) as [|Hl]; cbn [orb]; [eexists; by split|].
  destruct (is_identity_mapped paddr len) eqn:E2; cbn [negb]; [|eexists; by split]. rewrite phys_slice_ok by done.
  eexists. split; [done|]. intros t [= <-]. rewrite length_slice_at. unfold ACPI_HEADER_LEN in *. split; [lia | apply phys_slice_bytes].
Qed.

Lemma xsdt_or_rsdt_total rsdp : exists o, xsdt_or_rsdt m rsdp = Ok o.
Proof using Type.
  unfold xsdt_or_rsdt. destruct (rsdp =? 0); cbn [orb]; [eauto|].
  destruct (is_identity_mapped rsdp 20) eqn:E; cbn [negb]; [|eauto]. unfold mbind, res_bind. rewrite phys_slice_ok by done.
  destruct (negb (starts_with _ _) || _); [eauto|].
  destruct (index_in_table (slice_at rsdp (Z.to_nat 20) m) 15) as (r & -> & _); [rewrite length_slice_at; lia|].
  rewrite (rd32_ok (slice_at rsdp (Z.to_nat 20) m)) by (rewrite ?length_slice_at; lia).
  destruct (2 <=? r); cbn [andb]; [|eauto]. destruct (is_identity_mapped rsdp ACPI_HEADER_LEN) eqn:E2; [|eauto].
  rewrite phys_slice_ok by done. rewrite rd64_ok by (rewrite ?length_slice_at; unfold ACPI_HEADER_LEN; lia).
  destruct (negb _); eauto.
Qed.

Lemma find_loop_total n i table is_xsdt sig :
  0 <= i -> ACPI_HEADER_LEN + (i + Z.of_nat n) * (if is_xsdt : bool then 8 else 4) <= Z.of_nat (length table) ->
  exists o, find_loop m n i table is_xsdt sig = Ok o /\ (forall t, o = Some t -> 36 <= Z.of_nat (length t) /\ Forall is_byte t).
Proof using Hm.
  revert i. induction n as [|n IH]; intros i Hi Hlen; cbn [find_loop]; [eexists; by split|].
  assert (Hrd : exists p, (if is_xsdt then rd64 table (ACPI_HEADER_LEN + i * (if is_xsdt : bool then 8 else 4))
                           else rd32 table (ACPI_HEADER_LEN + i * (if is_xsdt : bool then 8 else 4))) = Ok p).
  { unfold ACPI_HEADER_LEN in *. destruct is_xsdt; [rewrite rd64_ok by lia | rewrite rd32_ok by lia]; eauto. }
  destruct Hrd as [p Hp]. cbv zeta. unfold mbind, res_bind. rewrite Hp.
  destruct (IH (i + 1)) as (o & Eo & Ho); [lia | lia |]. destruct (p =? 0); [eauto|].
  destruct (table_at_total p sig) as (o1 & -> & Ho1). destruct o1 as [t|]; [eauto | eauto].
Qed.

Lemma find_table_total rsdp sig :
  exists o, find_table m rsdp sig = Ok o /\ (forall t, o = Some t -> 36 <= Z.of_nat (length t) /\ Forall is_byte t).
Proof using Hm.
  unfold find_table, mbind, res_bind. destruct (xsdt_or_rsdt_total rsdp) as [o ->].
  destruct o as [[root x]|]; [|eexists; by split].
  destruct (table_at_total root (if x : bool then SIG_XSDT else SIG_RSDT)) as (o & -> & Ho).
  destruct o as [t|]; [|eexists; by split]. destruct (Ho t eq_refl) as [Hl _]. apply find_loop_total; [lia|].
  unfold ACPI_HEADER_LEN in *. rewrite Z2Nat.id by (apply Z.div_pos; destruct x; lia). rewrite Z.add_0_l.
  pose proof (Z.mul_div_le (Z.of_nat (length t) - 36) (if x : bool then 8 else 4)). destruct x; lia.
Qed.

(** Probing for DMA remapping units always gives an answer. *)
Lemma find_dmar_total rsdp :
  exists o, find_table m rsdp SIG_DMAR = Ok o /\ probe_dmar m rsdp = match o with Some b => parse_dmar b | None => Ok dmar_default end.
Proof using Hm.
  destruct (find_table_total rsdp SIG_DMAR) as (o & E & _). exists o. split; [done|]. unfold probe_dmar, mbind, res_bind. by rewrite E.
Qed.

End search.

(** ** Examples *)

(** One DRHD with a device scope and one RMRR. *)
Definition sample_dmar : list Z :=
  SIG_DMAR ++ to_le 4 88 ++ replicate 28 0 ++ [0x2F] ++ replicate 11 0 ++
  (to_le 2 0 ++ to_le 2 24 ++ [1; 0] ++ to_le 2 0 ++ to_le 8 0xFED90000 ++ replicate 8 0) ++
  (to_le 2 1 ++ to_le 2 16 ++ replicate 12 0).

Lemma sample_dmar_bytes : Forall is_byte sample_dmar.
Proof.
  apply Forall_forall. intros x Hx. unfold is_byte.
  assert (Hall : forallb (fun b => (0 <=? b) && (b <? 256)) sample_dmar = true) by (vm_compute; reflexivity).
  rewrite forallb_forall in Hall. specialize (Hall x (proj1 (list_elem_of_In _ _) Hx)). bool_to_prop. lia.
Qed.

Lemma parse_dmar_exact_witness :
  exists l, chain (take (Z.to_nat (field 4 4 sample_dmar)) sample_dmar) (field 4 4 sample_dmar) DMAR_STRUCTS_OFF l /\
    count_if is_drhd l = 1 /\ count_if is_rmrr l = 1.
Proof.
  pose proof (parse_dmar_exact sample_dmar sample_dmar_bytes) as T. cbv zeta in T.
  assert (C : (48 <=? Z.of_nat (length sample_dmar)) && starts_with sample_dmar SIG_DMAR && (48 <=? field 4 4 sample_dmar) &&
    (field 4 4 sample_dmar <=? Z.of_nat (length sample_dmar)) = true) by (vm_compute; reflexivity).
  rewrite C in T. destruct T as (l & Hc & E). exists l. split; [exact Hc|].
  assert (P : parse_dmar sample_dmar = Ok (mk_dmar true 88 false 0x2F 1 1 (mk_drhd 0 true 0xFED90000 1))) by (vm_compute; reflexivity).
  rewrite P in E. split.
  - exact (eq_sym (f_equal (fun r => match r with Ok s => drhd_count s | Panic => 0 end) E)).
  - exact (eq_sym (f_equal (fun r => match r with Ok s => rmrr_count s | Panic => 0 end) E)).
Defined.

(** Firmware tables in memory: an RSDP at 0x1000 and an RSDT at 0x2000 with one entry, the FADT at 0x3000. *)
Definition fadt_memory (fadt : list Z) : mem :=
  copy_to 0x3000 fadt (copy_to 0x2000 (SIG_RSDT ++ to_le 4 40 ++ replicate 28 0 ++ to_le 4 0x3000)
    (copy_to 0x1000 (SIG_RSDP ++ [0xC1; 0; 0; 0; 0; 0; 0; 0] ++ to_le 4 0x2000) (fun _ => 0))).

(** A FADT of 0x90 bytes: the 64-bit address at 0x8C is read past its end. *)
Example fadt_boundary_panics : dsdt_s5 (fadt_memory (SIG_FACP ++ to_le 4 0x90 ++ replicate 0x88 0)) 0x1000 = Panic.
Proof. vm_compute. reflexivity. Qed.

(** A FADT that is only a header: the 32-bit address at 0x28 is. *)
Example fadt_short_panics : dsdt_s5 (fadt_memory (SIG_FACP ++ to_le 4 36 ++ replicate 28 0)) 0x1000 = Panic.
Proof. vm_compute. reflexivity. Qed.

(** A DSDT address outside the identity mapping is dereferenced. *)
Example dsdt_unchecked :
  dsdt_s5 (fadt_memory (SIG_FACP ++ to_le 4 0x94 ++ replicate 0x84 0 ++ to_le 8 (2^40))) 0x1000 = Panic.
Proof. vm_compute. reflexivity. Qed.
