(* ===== verification/Iommu.v ===== *)
(** * DMA remapping (kernel/src/arch/iommu.rs)

    The kernel builds VT-d tables in physical memory: a root table, one context table per bus, and
    second-level page tables for two windows (the NVMe controller and all other devices), then
    points the unit at them and switches translation on. The registers of the unit are the parameter
    [UnitRegs]; the tables are translated, and [vtd_translate] is what the unit does with them, after
    the VT-d specification.

    Results: through these tables no device reaches physical memory at or above the limit of its
    window, and a function that was not enumerated reaches none; the exact image of every I/O address
    is given. It shows that the tables are not the identity they are meant to be: second-level
    entries are eight bytes long and the kernel writes them sixteen apart. *)

From S2P Require Import Prelude Addr Cap Key Klog Frames Sched Net Pager Irq Kernel Paging Pci Acpi.

(** ** Registers and flags *)

Definition REG_VER : Z := 0x00.
Definition REG_CAP : Z := 0x08.
Definition REG_ECAP : Z := 0x10.
Definition REG_GCMD : Z := 0x18.
Definition REG_GSTS : Z := 0x1C.
Definition REG_RTADDR : Z := 0x20.
Definition REG_FSTS : Z := 0x34.
Definition REG_FECTL : Z := 0x38.
Definition REG_FRCD : Z := 0xB0.
Definition FRCD_BYTES : Z := 16.
Definition MAX_FAULT_REPORTS : Z := 8.
Definition GCMD_SRTP : Z := Z.shiftl 1 30.
Definition GCMD_TE : Z := Z.shiftl 1 31.
Definition GSTS_RTPS : Z := Z.shiftl 1 30.
Definition GSTS_TES : Z := Z.shiftl 1 31.
Definition CAP_SAGAW_30 : Z := Z.shiftl 1 8.
Definition CAP_SAGAW_39 : Z := Z.shiftl 1 9.
Definition CAP_SAGAW_48 : Z := Z.shiftl 1 10.
Definition TABLE_BYTES : Z := 4096.
Definition PAGE_MASK : Z := Z.lxor (2^64 - 1) 0xFFF.
Definition ENTRY_BYTES : Z := 16.
Definition SLPT_R : Z := 1.
Definition SLPT_W : Z := 2.
Definition SLPT_PS : Z := 128.
Definition CTX_TT_TRANSLATED : Z := 0.
Definition DEFAULT_WINDOW_LIMIT : Z := 4 * Z.shiftl 1 30.
Definition TARGET_WINDOW_LIMIT : Z := 3 * Z.shiftl 1 30.

(** A register access may advance the unit. *)
Class UnitRegs (H : Type) : Type := {
  unit_rd32 : Z -> H -> Z * H;
  unit_rd64 : Z -> H -> Z * H;
  unit_wr32 : Z -> Z -> H -> H;
  unit_wr64 : Z -> Z -> H -> H;
}.

(** ** Entries *)

Definition window_1g_pages (limit : Z) : Z := Z.shiftr limit 30.
Definition window_permits (iova limit : Z) : bool := iova <? limit.

Definition root_entry (ctx_pa : Z) : Z * Z := (Z.lor (Z.land ctx_pa PAGE_MASK) 1, 0).
Definition context_entry (tt aw slpt_pa : Z) : Z * Z :=
  (Z.lor (Z.lor 1 (Z.shiftl (Z.land tt 3) 2)) (Z.land slpt_pa PAGE_MASK), Z.land aw 7).
Definition agaw_index (agaw : Z) : Z := (agaw - 30) / 9.
Definition slpt_table_entry (next_pa : Z) : Z := Z.lor (Z.lor (Z.land next_pa PAGE_MASK) SLPT_R) SLPT_W.
Definition slpt_identity_page (pa : Z) : Z := Z.lor (Z.lor (Z.lor (Z.land pa PAGE_MASK) SLPT_R) SLPT_W) SLPT_PS.
Definition devfn (dev func : Z) : Z := Z.lor (Z.shiftl dev 3) (Z.land func 7).

(** Fault records. *)
Definition fault_sid (fedata : Z) : Z := w16 (Z.shiftr fedata 16).
Definition fault_reason (fedata : Z) : Z := w8 (Z.land (Z.shiftr fedata 8) 0xF).
Definition fault_iova (feaddr feuaddr : Z) : Z := Z.land (Z.lor (Z.shiftl feuaddr 32) feaddr) PAGE_MASK.
Definition fault_record_index (fsts : Z) : Z := Z.land (Z.shiftr fsts 8) 0xFF.
Definition fault_record_valid (info : Z) : bool := negb (Z.land info 1 =? 0).

(** ** Tables; the state is physical memory and the frame allocator *)

Definition alloc_zeroed_page (s : mf) : option Z * mf :=
  match allocate_frame (snd s) with
  | (Some pa, f) => (Some pa, (zero_page (fst s) pa, f))
  | (None, f) => (None, (fst s, f))
  end.

Definition write_entry (table_pa idx lo hi : Z) (m : memory) : memory :=
  let at_ := table_pa + idx * ENTRY_BYTES in wr64 (wr64 m at_ lo) (at_ + 8) hi.

(** The loop of [fill_1g_ident], with its assertion. *)
Fixpoint fill_loop (n : nat) (i table_pa limit : Z) (m : memory) : res memory :=
  match n with
  | O => Ok m
  | S n =>
      let iova := Z.shiftl i 30 in
      if window_permits iova limit
      then fill_loop n (i + 1) table_pa limit (write_entry table_pa i (slpt_identity_page iova) 0 m)
      else Panic
  end.

Definition fill_1g_ident (table_pa limit : Z) (m : memory) : res memory :=
  fill_loop (Z.to_nat (window_1g_pages limit)) 0 table_pa limit m.

Definition build_window_slpt (aw limit : Z) (s : mf) : res (option Z * mf) :=
  match alloc_zeroed_page s with
  | (None, s) => Ok (None, s)
  | (Some top, s) =>
      if aw =? 48 then
        match alloc_zeroed_page s with
        | (None, s) => Ok (None, s)
        | (Some pml3, (m, f)) =>
            m ← fill_1g_ident pml3 limit (write_entry top 0 (slpt_table_entry pml3) 0 m); Ok (Some top, (m, f))
        end
      else m ← fill_1g_ident top limit (fst s); Ok (Some top, (m, snd s))
  end.

Definition ctx_table_for (buses : list (Z * Z)) (bus : Z) (s : mf) : option Z * list (Z * Z) * mf :=
  match find (fun x => fst x =? bus) buses with
  | Some x => (Some (snd x), buses, s)
  | None =>
      match alloc_zeroed_page s with
      | (Some pa, s) => (Some pa, buses ++ [(bus, pa)], s)
      | (None, s) => (None, buses, s)
      end
  end.

Definition is_at (target : option (Z * Z * Z)) (d : PciDevice) : bool :=
  bool_decide (target = Some (p_bus d, p_dev d, p_func d)).

(** The loop over the devices: [None] when a context table cannot be had. *)
Fixpoint context_loop (devices : list PciDevice) (target : option (Z * Z * Z)) (aw_idx default_top : Z)
  (target_top : option Z) (buses : list (Z * Z)) (s : mf) : option (list (Z * Z)) * mf :=
  match devices with
  | [] => (Some buses, s)
  | d :: devices =>
      match ctx_table_for buses (p_bus d) s with
      | (None, _, s) => (None, s)
      | (Some ctx_pa, buses, (m, f)) =>
          let top := if is_at target d then default default_top target_top else default_top in
          let '(lo, hi) := context_entry CTX_TT_TRANSLATED aw_idx top in
          context_loop devices target aw_idx default_top target_top buses
            (write_entry ctx_pa (devfn (p_dev d) (p_func d)) lo hi m, f)
      end
  end.

Definition root_loop (buses : list (Z * Z)) (root_pa : Z) (m : memory) : memory :=
  foldl (fun m x => let '(lo, hi) := root_entry (snd x) in write_entry root_pa (fst x) lo hi m) m buses.

(** Steps 1 to 3 of [init] after the default window: the root table, or [None] when memory is
    exhausted. *)
Definition build_tables (devices : list PciDevice) (target : option (Z * Z * Z)) (aw default_top : Z) (s : mf)
  : res (option Z * mf) :=
  t ← (match target with
       | Some _ =>
           t ← build_window_slpt aw TARGET_WINDOW_LIMIT s;
           match t with (Some top, s) => Ok (Some (Some top), s) | (None, s) => Ok (None, s) end
       | None => Ok (Some None, s)
       end);
  match t with
  | (None, s) => Ok (None, s)
  | (Some target_top, s) =>
      match alloc_zeroed_page s with
      | (None, s) => Ok (None, s)
      | (Some root_pa, s) =>
          match context_loop devices target (agaw_index aw) default_top target_top [] s with
          | (None, s) => Ok (None, s)
          | (Some buses, (m, f)) => Ok (Some root_pa, (root_loop buses root_pa m, f))
          end
      end
  end.

(** ** Switching on *)

Record world (H : Type) : Type := mk_world {
  w_mem : memory; w_frames : frames; w_hw : H; IOMMU_BASE : Z; TARGET_SID : Z; FAULT_REPORTS : Z; LAST_FAULT_SIG : Z;
}.
Arguments mk_world {H}. Arguments w_mem {H}. Arguments w_frames {H}. Arguments w_hw {H}. Arguments IOMMU_BASE {H}.
Arguments TARGET_SID {H}. Arguments FAULT_REPORTS {H}. Arguments LAST_FAULT_SIG {H}.

Section unit.
Context {H : Type} {hardware : Hardware H} {regs : UnitRegs H}.

Definition set_gcmd (base bits : Z) (h : H) : H :=
  let '(cur, h) := unit_rd32 (base + REG_GCMD) h in unit_wr32 (base + REG_GCMD) (Z.lor cur bits) h.

(** The polling loop; the fuel is what [spins] leaves. *)
Fixpoint wait_gsts (fuel : nat) (base bits : Z) (h : H) : bool * H :=
  let '(v, h) := unit_rd32 (base + REG_GSTS) h in
  if Z.land v bits =? bits then (true, h)
  else match fuel with O => (false, h) | S fuel => wait_gsts fuel base bits h end.

Definition SPINS : nat := Z.to_nat 1000000.

(** Step 4 of [init]. *)
Definition enable_remapping (base root_pa : Z) (h : H) : bool * H :=
  let h := unit_wr64 (base + REG_RTADDR) root_pa h in
  let h := set_gcmd base GCMD_SRTP h in
  let '(ok, h) := wait_gsts SPINS base GSTS_RTPS h in
  if negb ok then (false, h)
  else
    let h := set_gcmd base GCMD_TE h in
    let '(ok, h) := wait_gsts SPINS base GSTS_TES h in
    let '(gsts, h) := unit_rd32 (base + REG_GSTS) h in
    if negb ok then (false, h) else (true, unit_wr32 (base + REG_FECTL) 0 h).

Definition choose_width (cap : Z) : option Z :=
  if negb (Z.land cap CAP_SAGAW_39 =? 0) then Some 39
  else if negb (Z.land cap CAP_SAGAW_48 =? 0) then Some 48
  else if negb (Z.land cap CAP_SAGAW_30 =? 0) then Some 30
  else None.

Definition with_state (w : world H) (s : mf) (h : H) : world H :=
  mk_world (fst s) (snd s) h (IOMMU_BASE w) (TARGET_SID w) (FAULT_REPORTS w) (LAST_FAULT_SIG w).

Definition init (is_safe : bool) (rsdp : Z) (devices : list PciDevice) (w : world H) : res (bool * world H) :=
  if is_safe then Ok (false, w)
  else
    dmar ← probe_dmar (w_mem w) rsdp;
    if negb (found dmar) || (drhd_count dmar =? 0) then Ok (false, w)
    else
      let base := reg_base (first_drhd dmar) in
      if negb (is_identity_mapped base TABLE_BYTES) then Ok (false, w)
      else
        let '(ver, h) := unit_rd32 (base + REG_VER) (w_hw w) in
        let '(cap, h) := unit_rd64 (base + REG_CAP) h in
        let '(ecap, h) := unit_rd64 (base + REG_ECAP) h in
        match choose_width cap with
        | None => Ok (false, with_state w (w_mem w, w_frames w) h)
        | Some aw =>
            d ← build_window_slpt aw DEFAULT_WINDOW_LIMIT (w_mem w, w_frames w);
            match d with
            | (None, s) => Ok (false, with_state w s h)
            | (Some default_top, s) =>
                let target := (fun x => let '(b, d, f, _) := x in (b, d, f)) <$> find_nvme devices h in
                let sid := match target with
                           | Some (b, d, f) => Z.lor (Z.lor (Z.shiftl b 8) (Z.shiftl d 3)) f
                           | None => TARGET_SID w
                           end in
                let finish ok (s : mf) h :=
                  Ok (ok, mk_world (fst s) (snd s) h (if ok : bool then base else IOMMU_BASE w) sid (FAULT_REPORTS w)
                            (LAST_FAULT_SIG w)) in
                t ← build_tables devices target aw default_top s;
                match t with
                | (None, s) => finish false s h
                | (Some root_pa, s) => let '(ok, h) := enable_remapping base root_pa h in finish ok s h
                end
            end
        end.

(** The line [poll_faults] prints: the record it found and the faulting address. *)
Record fault_report : Type := mk_report { f_target : Z; f_fsts : Z; f_index : Z; f_info : Z; f_iova : Z }.

Definition poll_faults (w : world H) : option fault_report * world H :=
  let base := IOMMU_BASE w in
  if (base =? 0) || (MAX_FAULT_REPORTS <=? FAULT_REPORTS w) then (None, w)
  else
    let '(fsts, h) := unit_rd32 (base + REG_FSTS) (w_hw w) in
    if fsts =? 0 then (None, with_state w (w_mem w, w_frames w) h)
    else
      let '(fectl, h) := unit_rd32 (base + REG_FECTL) h in
      let idx := fault_record_index fsts in
      let '(info, h) := unit_rd32 (base + REG_FRCD + idx * FRCD_BYTES) h in
      let retry := negb (fault_record_valid info) && negb (idx =? 0) in
      let '(info, h) := if retry then unit_rd32 (base + REG_FRCD) h else (info, h) in
      let idx := if retry then 0 else idx in
      let at_ := REG_FRCD + idx * FRCD_BYTES in
      let '(addr_lo, h) := unit_rd32 (base + at_ + 8) h in
      let '(addr_hi, h) := unit_rd32 (base + at_ + 12) h in
      let iova := fault_iova addr_lo addr_hi in
      let sig := Z.lor (Z.shiftl info 32) (Z.land iova 0xFFFFFFFF) in
      let fresh := negb (sig =? LAST_FAULT_SIG w) in
      let h := unit_wr32 (base + REG_FSTS) fsts h in
      (if fresh then Some (mk_report (TARGET_SID w) fsts idx info iova) else None,
       mk_world (w_mem w) (w_frames w) h base (TARGET_SID w) (if fresh then FAULT_REPORTS w + 1 else FAULT_REPORTS w)
         (if fresh then sig else LAST_FAULT_SIG w)).

End unit.

(** ** What the unit does with the tables

    Legacy-mode translation of the VT-d specification: root and context entries are sixteen bytes,
    second-level entries eight; an entry with neither read nor write permission is not present. *)

Fixpoint slpt_walk (level : nat) (m : memory) (table iova : Z) : option Z :=
  match level with
  | O => None
  | S l =>
      let shift := 12 + 9 * Z.of_nat l in
      let e := Paging.rd64 m (table + 8 * Z.land (Z.shiftr iova shift) 0x1FF) in
      if Z.land e 3 =? 0 then None
      else if Nat.eqb l 0 || negb (Z.land e SLPT_PS =? 0) then Some (Z.land e PAGE_MASK + iova mod 2^shift)
      else slpt_walk l m (Z.land e PAGE_MASK) iova
  end.

Definition vtd_translate (m : memory) (root bus df iova : Z) : option Z :=
  let re := Paging.rd64 m (root + 16 * bus) in
  if Z.land re 1 =? 0 then None
  else
    let ctx := Z.land re PAGE_MASK in
    let lo := Paging.rd64 m (ctx + 16 * df) in
    let hi := Paging.rd64 m (ctx + 16 * df + 8) in
    if Z.land lo 1 =? 0 then None
    else
      let tt := Z.land (Z.shiftr lo 2) 3 in
      if tt =? 2 then Some iova
      else if negb (tt =? 0) then None
      else
        let idx := Z.land hi 7 in
        if 2 ^ (30 + 9 * idx) <=? iova then None
        else slpt_walk (Z.to_nat (idx + 2)) m (Z.land lo PAGE_MASK) iova.

(** ** Words of pages *)

Notation word := Paging.rd64.

Definition page (p : Z) : Prop := p mod 4096 = 0 /\ 0 <= p < 2^35.
(** Offsets of 8-byte words in a page. *)
Definition slot (o : Z) : Prop := 0 <= o < 4096 /\ o mod 8 = 0.

Lemma page_slot_inj p q o r : page p -> page q -> slot o -> slot r -> p + o = q + r -> p = q /\ o = r.
Proof. intros [Hp _] [Hq _] [Ho _] [Hr _] E. Z.to_euclidean_division_equations. lia. Qed.

Lemma page_slot_aligned p o : page p -> slot o -> (p + o) mod 8 = 0.
Proof. intros [Hp _] [Ho Ho8]. Z.to_euclidean_division_equations. lia. Qed.

Lemma word_wr64 m p q o r v :
  page p -> page q -> slot o -> slot r -> 0 <= v < 2^64 ->
  word (wr64 m (q + r) v) (p + o) = if decide (p = q /\ o = r) then v else word m (p + o).
Proof.
  intros Hp Hq Ho Hr Hv. rewrite rd64_wr64 by (done || by apply page_slot_aligned).
  apply decide_ext. split; [intros E; by apply page_slot_inj | by intros [-> ->]].
Qed.

Lemma word_write_entry m p t o i lo hi :
  page p -> page t -> slot o -> 0 <= i < 256 -> 0 <= lo < 2^64 -> 0 <= hi < 2^64 ->
  word (write_entry t i lo hi m) (p + o) =
  if decide (p = t /\ o = 16 * i) then lo else if decide (p = t /\ o = 16 * i + 8) then hi else word m (p + o).
Proof.
  intros Hp Ht Ho Hi Hlo Hhi. unfold write_entry, ENTRY_BYTES. cbv zeta. rewrite (Z.mul_comm i).
  assert (S1 : slot (16 * i)) by (split; [lia | Z.to_euclidean_division_equations; lia]).
  assert (S2 : slot (16 * i + 8)) by (split; [lia | Z.to_euclidean_division_equations; lia]).
  rewrite <- Z.add_assoc, word_wr64, word_wr64 by done. repeat case_decide; try done; lia.
Qed.

Lemma word_zero_page m p q o :
  page p -> page q -> slot o -> word (zero_page m q) (p + o) = if decide (p = q) then 0 else word m (p + o).
Proof.
  intros Hp Hq Ho. rewrite rd64_zero_page; [|apply Hq | by apply page_slot_aligned].
  apply decide_ext. destruct Hp as [Hp _], Hq as [Hq _], Ho as [Ho _]. split; [|intros ->; lia].
  intros E. Z.to_euclidean_division_equations. lia.
Qed.

(** ** Allocated pages keep their contents *)

Definition taken (f : frames) (p : Z) : Prop := page p /\ ~ is_free f (p / 4096).

(** Everything taken in [s] is taken in [s'] with the same words. *)
Definition extends (s s' : mf) : Prop :=
  forall p, taken (snd s) p -> taken (snd s') p /\ forall o, slot o -> word (fst s') (p + o) = word (fst s) (p + o).

#[export] Instance extends_preorder : PreOrder extends.
Proof.
  split.
  - intros s p Hp. done.
  - intros s1 s2 s3 H1 H2 p Hp. destruct (H1 p Hp) as [Hp2 E1]. destruct (H2 p Hp2) as [Hp3 E2].
    split; [done|]. intros o Ho. by rewrite E2, E1.
Qed.

Lemma alloc_zeroed_page_spec s p s' :
  alloc_zeroed_page s = (Some p, s') ->
  taken (snd s') p /\ ~ taken (snd s) p /\ extends s s' /\ (forall o, slot o -> word (fst s') (p + o) = 0).
Proof.
  unfold alloc_zeroed_page. destruct (allocate_frame (snd s)) as [[q|] f] eqn:E; [|done]. intros [= <- <-].
  apply allocate_frame_Some in E as (idx & Hi & -> & Hfree & _ & ->). rewrite MAX_val in Hi. unfold FRAME_SIZE.
  assert (Hp : page (idx * 4096)) by (split; [by apply Z.mod_mul | lia]).
  assert (Hd : idx * 4096 / 4096 = idx) by (by apply Z.div_mul).
  assert (Htest : forall j, 0 <= j -> is_free (with_free (with_bitmap (snd s) (bitmap_set idx (FRAME_BITMAP (snd s))))
      (w64 (FREE_FRAMES (snd s) - 1))) j -> is_free (snd s) j /\ j <> idx).
  { intros j Hj. unfold is_free. cbn. rewrite bitmap_test_set by lia. case_decide; [done|]. done. }
  split; [|split; [|split]].
  - split; [exact Hp|]. cbn [snd]. rewrite Hd. intros Hf. by destruct (Htest idx ltac:(lia) Hf).
  - intros [_ Hn]. rewrite Hd in Hn. done.
  - intros r [Hr Hn]. split; [split; [exact Hr|]|].
    + cbn [snd]. intros Hf. apply Htest in Hf as [Hf _]; [done|]. apply Z.div_pos; [apply Hr | lia].
    + intros o Ho. cbn [fst]. rewrite word_zero_page by done. rewrite decide_False; [done|]. intros ->. by rewrite Hd in Hn.
  - intros o Ho. cbn [fst]. rewrite word_zero_page by done. by rewrite decide_True by done.
Qed.

(** Writing to a page that was not taken. *)
Lemma extends_write s m f t i lo hi :
  extends s (m, f) -> page t -> ~ taken (snd s) t -> 0 <= i < 256 -> 0 <= lo < 2^64 -> 0 <= hi < 2^64 ->
  extends s (write_entry t i lo hi m, f).
Proof.
  intros He Ht Hn Hi Hlo Hhi p Hp. destruct (He p Hp) as [Hp2 Hw]. split; [exact Hp2|]. intros o Ho. cbn [fst] in *.
  rewrite word_write_entry by (done || apply Hp). assert (p <> t) by (by intros ->).
  rewrite !decide_False by tauto. by apply Hw.
Qed.

(** ** Entries *)

Lemma PAGE_MASK_val : PAGE_MASK = Z.shiftl (Z.ones 52) 12.
Proof. reflexivity. Qed.

Lemma mask_page a fl : a mod 4096 = 0 -> 0 <= a < 2^52 -> 0 <= fl < 4096 -> Z.land (Z.lor a fl) PAGE_MASK = a.
Proof.
  intros Ha Hb Hf. rewrite PAGE_MASK_val. apply Z.bits_inj'. intros i Hi. rewrite Z.land_spec, Z.lor_spec.
  destruct (Z.lt_ge_cases i 12).
  { rewrite Z.shiftl_spec_low, andb_false_r by lia. symmetry. apply testbit_page; auto. }
  rewrite Z.shiftl_spec by lia. rewrite (testbit_flags fl), orb_false_r by lia. destruct (Z.lt_ge_cases i 52).
  - rewrite Z.ones_spec_low by lia. apply andb_true_r.
  - rewrite (testbit_page a) by auto. done.
Qed.

Lemma mask_page_0 a : a mod 4096 = 0 -> 0 <= a < 2^52 -> Z.land a PAGE_MASK = a.
Proof. intros Ha Hb. rewrite <- (Z.lor_0_r a) at 1. apply mask_page; lia. Qed.

Lemma land_flags a fl b : a mod 4096 = 0 -> 0 <= a < 2^52 -> 0 <= b < 4096 -> Z.land (Z.lor a fl) b = Z.land fl b.
Proof.
  intros Ha Hb Hbit. apply Z.bits_inj'. intros i Hi. rewrite !Z.land_spec, Z.lor_spec.
  destruct (Z.lt_ge_cases i 12).
  - by rewrite (testbit_page a) by auto.
  - by rewrite (testbit_flags b), !andb_false_r by lia.
Qed.

Lemma identity_page_val a : a mod 4096 = 0 -> 0 <= a < 2^52 -> slpt_identity_page a = Z.lor a 0x83.
Proof. intros Ha Hb. unfold slpt_identity_page. rewrite mask_page_0 by done. by rewrite <- !Z.lor_assoc. Qed.

Lemma table_entry_val a : a mod 4096 = 0 -> 0 <= a < 2^52 -> slpt_table_entry a = Z.lor a 3.
Proof. intros Ha Hb. unfold slpt_table_entry. rewrite mask_page_0 by done. by rewrite <- Z.lor_assoc. Qed.

Lemma context_entry_val aw a :
  a mod 4096 = 0 -> 0 <= a < 2^52 -> 0 <= aw < 8 -> context_entry CTX_TT_TRANSLATED aw a = (Z.lor a 1, aw).
Proof.
  intros Ha Hb Hw. unfold context_entry. rewrite mask_page_0 by done. change (Z.lor 1 _) with 1 at 1. f_equal; [apply Z.lor_comm|].
  change 7 with (Z.ones 3). rewrite Z.land_ones by lia. apply Z.mod_small. lia.
Qed.

Lemma page_52 p : page p -> p mod 4096 = 0 /\ 0 <= p < 2^52.
Proof. intros [H1 H2]. split; [done | lia]. Qed.

(** ** The window tables *)

(** Entry [j] of the table that holds the large pages, as the unit reads it. *)
Definition leaf (limit j : Z) : Z :=
  if Z.even j && (j / 2 <? limit / 2^30) then slpt_identity_page (j / 2 * 2^30) else 0.

Definition leafs (m : memory) (t limit : Z) : Prop := forall j, 0 <= j < 512 -> word m (t + 8 * j) = leaf limit j.

Lemma gib_page i : 0 <= i < 2^20 -> (i * 2^30) mod 4096 = 0 /\ 0 <= i * 2^30 < 2^52.
Proof. intros Hi. split; [|lia]. replace (i * 2^30) with (i * 262144 * 4096) by lia. by apply Z.mod_mul. Qed.

Lemma identity_page_range i : 0 <= i < 2^20 -> 0 <= slpt_identity_page (i * 2^30) < 2^64.
Proof. intros Hi. destruct (gib_page i Hi). rewrite identity_page_val by done. apply lor_range; (done || lia). Qed.

Lemma slot_8 j : 0 <= j < 512 -> slot (8 * j).
Proof. intros Hj. split; [lia|]. rewrite Z.mul_comm. by apply Z.mod_mul. Qed.

(** The fill loop from page [i] on: it does not panic, and it changes the entries sixteen bytes apart. *)
Lemma fill_loop_spec n i t limit m :
  page t -> 0 <= i -> i + Z.of_nat n <= 256 -> i + Z.of_nat n <= limit / 2^30 ->
  exists m', fill_loop n i t limit m = Ok m' /\
    (forall p o, page p -> slot o -> p <> t -> word m' (p + o) = word m (p + o)) /\
    (forall j, 0 <= j < 512 -> word m' (t + 8 * j) =
       if decide (2 * i <= j < 2 * (i + Z.of_nat n)) then (if Z.even j then slpt_identity_page (j / 2 * 2^30) else 0)
       else word m (t + 8 * j)).
Proof.
  revert i m. induction n as [|n IH]; intros i m Ht Hi Hn Hl; cbn [fill_loop].
  { exists m. split; [done|]. split; [done|]. intros j Hj. by rewrite decide_False by lia. }
  assert (Hperm : window_permits (Z.shiftl i 30) limit = true).
  { unfold window_permits. apply Z.ltb_lt. rewrite Z.shiftl_mul_pow2 by lia.
    pose proof (Z.mul_div_le limit (2^30) ltac:(lia)). nia. }
  cbv zeta. rewrite Hperm. rewrite Z.shiftl_mul_pow2 by lia.
  pose proof (identity_page_range i ltac:(lia)) as Hv.
  destruct (IH (i + 1) (write_entry t i (slpt_identity_page (i * 2^30)) 0 m)) as (m' & E & Hout & Hin); [done|lia|lia|lia|].
  exists m'. split; [done|]. split.
  - intros p o Hp Ho Hne. rewrite Hout by done. rewrite word_write_entry by (done || lia). by rewrite !decide_False by tauto.
  - intros j Hj. rewrite Hin by done. rewrite word_write_entry by (done || lia || by apply slot_8).
    destruct (decide (2 * (i + 1) <= j < 2 * (i + 1 + Z.of_nat n))) as [H1|H1].
    { rewrite decide_True by lia. done. }
    destruct (decide (t = t /\ 8 * j = 16 * i)) as [[_ H2]|H2].
    { rewrite decide_True by lia. assert (j = 2 * i) as -> by lia. rewrite Z.even_mul. cbn [orb Z.even].
      rewrite (Z.mul_comm 2 i), Z.div_mul by lia. done. }
    destruct (decide (t = t /\ 8 * j = 16 * i + 8)) as [[_ H3]|H3].
    { rewrite decide_True by lia. assert (j = 2 * i + 1) as -> by lia. by rewrite Z.add_1_r, Z.even_succ, Z.odd_mul. }
    by rewrite decide_False by lia.
Qed.

Lemma fill_1g_ident_spec t limit m :
  page t -> 0 <= limit -> limit / 2^30 <= 256 -> (forall o, slot o -> word m (t + o) = 0) ->
  exists m', fill_1g_ident t limit m = Ok m' /\ leafs m' t limit /\
    (forall p o, page p -> slot o -> p <> t -> word m' (p + o) = word m (p + o)).
Proof.
  intros Ht Hl0 Hl Hz. unfold fill_1g_ident, window_1g_pages. rewrite Z.shiftr_div_pow2 by lia.
  assert (0 <= limit / 2^30) by (apply Z.div_pos; lia).
  destruct (fill_loop_spec (Z.to_nat (limit / 2^30)) 0 t limit m) as (m' & E & Hout & Hin); [done|lia|lia|lia|].
  exists m'. split; [done|]. split; [|done]. intros j Hj. rewrite Hin by done. rewrite Z2Nat.id, Z.add_0_l by lia. unfold leaf.
  rewrite Hz by (by apply slot_8). destruct (Z.even j) eqn:Ej; cbn [andb].
  - apply Z.even_spec in Ej as [x ->]. rewrite (Z.mul_comm 2 x), Z.div_mul by lia.
    destruct (Z.ltb_spec x (limit / 2^30)); [by rewrite decide_True by lia | by rewrite decide_False by lia].
  - by case_decide.
Qed.

(** A window: its tables are the pages [fp]. *)
Definition window (m : memory) (top aw limit : Z) (fp : list Z) : Prop :=
  (aw <> 48 /\ fp = [top] /\ leafs m top limit) \/
  (aw = 48 /\ exists pml3, fp = [top; pml3] /\ page pml3 /\ leafs m pml3 limit /\
     forall j, 0 <= j < 512 -> word m (top + 8 * j) = if j =? 0 then slpt_table_entry pml3 else 0).

Lemma window_extends s s' top aw limit fp :
  window (fst s) top aw limit fp -> (forall p, p ∈ fp -> taken (snd s) p) -> extends s s' -> window (fst s') top aw limit fp.
Proof.
  intros Hw Hfp He.
  assert (Hsame : forall p j, p ∈ fp -> 0 <= j < 512 -> word (fst s') (p + 8 * j) = word (fst s) (p + 8 * j)).
  { intros p j Hp Hj. apply (He p (Hfp p Hp)). by apply slot_8. }
  destruct Hw as [(Ha & -> & Hl)|(Ha & pml3 & -> & Hp & Hl & Ht)].
  - left. split; [done|]. split; [done|]. intros j Hj. rewrite Hsame; [by apply Hl | set_solver | done].
  - right. split; [done|]. exists pml3. split; [done|]. split; [done|]. split.
    + intros j Hj. rewrite Hsame; [by apply Hl | set_solver | done].
    + intros j Hj. rewrite Hsame; [by apply Ht | set_solver | done].
Qed.

Lemma extends_outside s m f m' t :
  extends s (m, f) -> ~ taken (snd s) t -> (forall p o, page p -> slot o -> p <> t -> word m' (p + o) = word m (p + o)) ->
  extends s (m', f).
Proof.
  intros He Hn Hout p Hp. destruct (He p Hp) as [Hp2 Hw]. split; [exact Hp2|]. intros o Ho. cbn [fst] in *.
  rewrite Hout; [by apply Hw | apply Hp | done | by intros ->].
Qed.

Lemma build_window_spec aw limit s top s' :
  0 <= limit -> limit / 2^30 <= 256 -> build_window_slpt aw limit s = Ok (Some top, s') ->
  exists fp, window (fst s') top aw limit fp /\ top ∈ fp /\ (forall p, p ∈ fp -> taken (snd s') p /\ ~ taken (snd s) p) /\ extends s s'.
Proof.
  intros Hl0 Hl E. unfold build_window_slpt in E. destruct (alloc_zeroed_page s) as [[t1|] s1] eqn:E1; [|done].
  apply alloc_zeroed_page_spec in E1 as (T1 & N1 & X1 & Z1). destruct (Z.eqb_spec aw 48) as [->|Haw].
  - destruct (alloc_zeroed_page s1) as [[t2|] [m2 f2]] eqn:E2; [|done].
    apply alloc_zeroed_page_spec in E2 as (T2 & N2 & X2 & Z2). cbn [fst snd] in *.
    assert (Hne : t1 <> t2) by (by intros ->).
    assert (P1 : page t1) by apply T1. assert (P2 : page t2) by apply T2.
    pose proof (page_52 t2 P2) as [A2 B2]. rewrite table_entry_val in E by done.
    assert (Hv : 0 <= Z.lor t2 3 < 2^64) by (apply lor_range; (done || lia)).
    destruct (fill_1g_ident_spec t2 limit (write_entry t1 0 (Z.lor t2 3) 0 m2)) as (m3 & E3 & Hleaf & Hout); [done|done|done| |].
    { intros o Ho. rewrite word_write_entry by (done || lia). rewrite !decide_False by (intros [? _]; done). by apply Z2. }
    unfold mbind, res_bind in E. rewrite E3 in E. injection E as <- <-. exists [t1; t2]. cbn [fst snd].
    split; [right; split; [done|]; exists t2; split; [done|]; split; [done|]; split; [done|]|split; [set_solver|split]].
    + intros j Hj. rewrite Hout by (done || by apply slot_8). rewrite word_write_entry by (done || lia || by apply slot_8).
      rewrite table_entry_val by done. destruct (Z.eqb_spec j 0) as [->|Hj0]; [by rewrite decide_True by done|].
      rewrite (decide_False (P := _ /\ 8 * j = 16 * 0)) by lia.
      destruct (decide (t1 = t1 /\ 8 * j = 16 * 0 + 8)) as [[_ Hj1]|]; [done|].
      destruct (X2 t1 T1) as [_ Hw]. rewrite Hw by (by apply slot_8). apply Z1. by apply slot_8.
    + intros p Hp. rewrite !elem_of_cons in Hp. destruct Hp as [->|[->|Hp%elem_of_nil]]; [|split; [done|]|done].
      * split; [by apply X2 | done].
      * intros Ht. apply N2. by apply X1.
    + assert (Xa : extends s (m2, f2)) by (by transitivity s1).
      apply (extends_outside s (write_entry t1 0 (Z.lor t2 3) 0 m2) f2 m3 t2); [| |done].
      * apply extends_write; (done || lia).
      * intros Ht. apply N2. by apply X1.
  - destruct (fill_1g_ident_spec t1 limit (fst s1)) as (m3 & E3 & Hleaf & Hout); [apply T1|done|done|done|].
    unfold mbind, res_bind in E. rewrite E3 in E. injection E as <- <-. exists [t1]. cbn [fst snd].
    split; [left; done|]. split; [set_solver|]. split.
    + intros p ->%list_elem_of_singleton. done.
    + apply (extends_outside s (fst s1) (snd s1) m3 t1); [by destruct s1 | done | done].
Qed.

(** ** The image of an I/O address *)

Definition window_image (aw limit iova : Z) : option Z :=
  let shift := if aw =? 30 then 21 else 30 in
  let j := iova / 2^shift in
  if (iova <? 2^aw) && Z.even j && (j / 2 <? limit / 2^30) then Some (j / 2 * 2^30 + iova mod 2^shift) else None.

Lemma window_image_below aw limit iova pa :
  0 <= iova -> 0 <= limit -> window_image aw limit iova = Some pa -> 0 <= pa < limit.
Proof.
  intros Hi Hl. unfold window_image. cbv zeta. set (shift := if aw =? 30 then 21 else 30).
  assert (Hs : 0 <= shift <= 30) by (unfold shift; destruct (aw =? 30); lia).
  destruct (_ && (_ <? _)) eqn:E; [|done]. apply andb_prop in E as [_ E]. apply Z.ltb_lt in E. intros [= <-].
  pose proof (Z.mod_pos_bound iova (2^shift) ltac:(apply Z.pow_pos_nonneg; lia)) as Hm.
  pose proof (Z.pow_le_mono_r 2 shift 30 ltac:(lia) ltac:(lia)) as Hp.
  assert (0 <= iova / 2^shift / 2) by (apply Z.div_pos; [apply Z.div_pos; [done | apply Z.pow_pos_nonneg; lia] | lia]).
  pose proof (Z.mul_div_le limit (2^30) ltac:(lia)). nia.
Qed.

(** The image in terms of the pieces a last-level entry covers. *)
Lemma window_image_piece aw limit j x :
  let piece := if aw =? 30 then 2^21 else 2^30 in
  0 <= x < piece ->
  window_image aw limit (j * piece + x) =
  if (j * piece + x <? 2^aw) && Z.even j && (j / 2 <? limit / 2^30) then Some (j / 2 * 2^30 + x) else None.
Proof.
  intros piece Hx. unfold window_image. cbv zeta.
  assert (Hp : 2 ^ (if aw =? 30 then 21 else 30) = piece) by (unfold piece; by destruct (aw =? 30)). rewrite Hp.
  assert (0 < piece) by lia. rewrite Z.div_add_l, Z.div_small, Z.add_0_r by lia.
  by rewrite (Z.add_comm (j * piece) x), Z.mod_add, Z.mod_small, (Z.add_comm x) by lia.
Qed.

Lemma slpt_walk_S l m table iova :
  slpt_walk (S l) m table iova =
  let shift := 12 + 9 * Z.of_nat l in
  let e := word m (table + 8 * Z.land (Z.shiftr iova shift) 0x1FF) in
  if Z.land e 3 =? 0 then None
  else if Nat.eqb l 0 || negb (Z.land e SLPT_PS =? 0) then Some (Z.land e PAGE_MASK + iova mod 2^shift)
  else slpt_walk l m (Z.land e PAGE_MASK) iova.
Proof. reflexivity. Qed.

Lemma leaf_walk m t limit l iova :
  page t -> (1 <= l <= 2)%nat -> leafs m t limit -> limit / 2^30 <= 256 -> 0 <= iova ->
  slpt_walk (S l) m t iova =
  let shift := 12 + 9 * Z.of_nat l in
  let j := (iova / 2^shift) mod 512 in
  if Z.even j && (j / 2 <? limit / 2^30) then Some (j / 2 * 2^30 + iova mod 2^shift) else None.
Proof.
  intros Ht Hl Hleaf Hlim Hi. cbn [slpt_walk]. set (shift := 12 + 9 * Z.of_nat l). change 0x1FF with (Z.ones 9).
  rewrite Z.land_ones, Z.shiftr_div_pow2 by lia. change (2^9) with 512. set (j := (iova / 2^shift) mod 512).
  assert (Hj : 0 <= j < 512) by (apply Z.mod_pos_bound; lia). rewrite Hleaf by done. unfold leaf.
  destruct (Z.even j && (j / 2 <? limit / 2^30)) eqn:E; [|done]. apply andb_prop in E as [_ E]. apply Z.ltb_lt in E.
  assert (0 <= j / 2) by (apply Z.div_pos; lia). destruct (gib_page (j / 2)) as [A B]; [lia|].
  rewrite identity_page_val, !land_flags, mask_page by (done || lia || (unfold SLPT_PS; lia)).
  change (Z.land 0x83 3 =? 0) with false. change (Z.land 0x83 SLPT_PS =? 0) with false. cbn [negb]. by rewrite orb_true_r.
Qed.

Lemma window_walk m top aw limit fp iova :
  window m top aw limit fp -> page top -> aw = 30 \/ aw = 39 \/ aw = 48 -> limit / 2^30 <= 256 -> 0 <= iova < 2^aw ->
  slpt_walk (Z.to_nat (agaw_index aw + 2)) m top iova = window_image aw limit iova.
Proof.
  intros Hw Ht Haw Hlim Hi. unfold window_image. rewrite (proj2 (Z.ltb_lt _ _)) by lia. cbn [andb].
  destruct Haw as [-> | [-> | -> ]].
  - destruct Hw as [(_ & _ & Hl)|(Hx & _)]; [|done]. change (Z.to_nat (agaw_index 30 + 2)) with 2%nat.
    rewrite (leaf_walk m top limit) by (done || lia). cbv zeta. change (12 + 9 * Z.of_nat 1) with 21. change (30 =? 30) with true.
    rewrite (Z.mod_small (iova / 2^21) 512); [done|]. Z.to_euclidean_division_equations. lia.
  - destruct Hw as [(_ & _ & Hl)|(Hx & _)]; [|done]. change (Z.to_nat (agaw_index 39 + 2)) with 3%nat.
    rewrite (leaf_walk m top limit) by (done || lia). cbv zeta. change (12 + 9 * Z.of_nat 2) with 30. change (39 =? 30) with false.
    rewrite (Z.mod_small (iova / 2^30) 512); [done|]. Z.to_euclidean_division_equations. lia.
  - destruct Hw as [(Hx & _)|(_ & pml3 & _ & Hp & Hl & Htop)]; [done|]. change (Z.to_nat (agaw_index 48 + 2)) with 4%nat.
    rewrite slpt_walk_S. cbv zeta. change (12 + 9 * Z.of_nat 3) with 39. change 0x1FF with (Z.ones 9).
    rewrite Z.land_ones, Z.shiftr_div_pow2 by lia. change (2^9) with 512.
    assert (Hj : (iova / 2^39) mod 512 = iova / 2^39) by (apply Z.mod_small; Z.to_euclidean_division_equations; lia).
    rewrite Hj. rewrite Htop by (Z.to_euclidean_division_equations; lia). change (48 =? 30) with false.
    destruct (Z.eqb_spec (iova / 2^39) 0) as [E0|E0].
    + pose proof (page_52 pml3 Hp) as [A B]. rewrite table_entry_val, !land_flags, mask_page by (done || lia || (unfold SLPT_PS; lia)).
      change (Z.land 3 3 =? 0) with false. change (Z.land 3 SLPT_PS =? 0) with true. cbn [Nat.eqb orb negb].
      rewrite (leaf_walk m pml3 limit) by (done || lia). cbv zeta. change (12 + 9 * Z.of_nat 2) with 30.
      rewrite (Z.mod_small (iova / 2^30) 512); [done|]. Z.to_euclidean_division_equations. lia.
    + change (Z.land 0 3 =? 0) with true. cbv iota. rewrite (proj2 (Z.ltb_ge _ _)); [by rewrite andb_false_r|].
      Z.to_euclidean_division_equations. lia.
Qed.

(** ** Context tables *)

Definition loc_ok (d : PciDevice) : Prop := 0 <= p_bus d < 256 /\ 0 <= p_dev d < 32 /\ 0 <= p_func d < 8.

(** Whether one of [devices] is function [k] of bus [b]. *)
Definition listed (devices : list PciDevice) (b k : Z) : bool :=
  existsb (fun d => (p_bus d =? b) && (devfn (p_dev d) (p_func d) =? k)) devices.

Lemma devfn_val dev func : 0 <= func < 8 -> devfn dev func = dev * 8 + func.
Proof.
  intros Hf. unfold devfn. change 7 with (Z.ones 3). rewrite Z.land_ones, Z.mod_small by lia. by apply lor_shiftl_add.
Qed.

Lemma devfn_range dev func : 0 <= dev < 32 -> 0 <= func < 8 -> 0 <= devfn dev func < 256.
Proof. intros Hd Hf. rewrite devfn_val by done. lia. Qed.

Lemma listed_spec devices b dev func :
  Forall loc_ok devices -> 0 <= func < 8 ->
  listed devices b (devfn dev func) = true <-> exists d, d ∈ devices /\ (p_bus d, p_dev d, p_func d) = (b, dev, func).
Proof.
  intros Hok Hf. unfold listed. rewrite existsb_exists. setoid_rewrite <- list_elem_of_In. split.
  - intros (d & Hd & E). exists d. split; [done|]. apply andb_prop in E as [E1%Z.eqb_eq E2%Z.eqb_eq].
    rewrite Forall_forall in Hok. destruct (Hok d Hd) as (_ & _ & Hfd). rewrite !devfn_val in E2 by done.
    f_equal; [f_equal|]; lia.
  - intros (d & Hd & [= <- <- <-]). exists d. by rewrite !Z.eqb_refl.
Qed.

Lemma slot_16 k : 0 <= k < 256 -> slot (16 * k) /\ slot (16 * k + 8).
Proof. intros Hk. split; (split; [lia | Z.to_euclidean_division_equations; lia]). Qed.

Lemma listed_uncovered (done : list PciDevice) (buses : list (Z * Z)) bus k :
  (forall d, d ∈ done -> exists p, (p_bus d, p) ∈ buses) -> (forall p, (bus, p) ∉ buses) -> listed done bus k = false.
Proof.
  intros Hc Hn. apply not_true_iff_false. unfold listed. rewrite existsb_exists. intros (d & Hd%list_elem_of_In & E).
  apply andb_prop in E as [E%Z.eqb_eq _]. destruct (Hc d Hd) as [p Hp]. rewrite E in Hp. by apply (Hn p).
Qed.

Lemma listed_snoc done d b k :
  listed (done ++ [d]) b k = listed done b k || ((p_bus d =? b) && (devfn (p_dev d) (p_func d) =? k)).
Proof. unfold listed. rewrite existsb_app. cbn [existsb]. by rewrite orb_false_r. Qed.

Section contexts.
Variables (target : option (Z * Z * Z)) (aw_idx default_top : Z) (target_top : option Z).

(** The window of function [k] of bus [b]. *)
Definition top_of (b k : Z) : Z :=
  if bool_decide (target = Some (b, k / 8, k mod 8)) then default default_top target_top else default_top.

Lemma top_of_loc d :
  loc_ok d ->
  (if is_at target d then default default_top target_top else default_top) = top_of (p_bus d) (devfn (p_dev d) (p_func d)).
Proof.
  intros (_ & _ & Hf). unfold top_of, is_at. rewrite devfn_val by done.
  rewrite Z.div_add_l, Z.div_small, Z.add_0_r by lia. by rewrite Z.add_comm, Z.mod_add, Z.mod_small by lia.
Qed.

Hypothesis tops_page : forall b k, page (top_of b k).
Hypothesis aw_range : 0 <= aw_idx < 8.

(** The state of [context_loop] after the devices [done], started in [s0]. *)
Record contexts (s0 : mf) (done : list PciDevice) (buses : list (Z * Z)) (s : mf) : Prop := mk_contexts {
  ctx_extends : extends s0 s;
  ctx_pages : forall b p, (b, p) ∈ buses -> 0 <= b < 256 /\ taken (snd s) p /\ ~ taken (snd s0) p;
  ctx_fun : forall b p q, (b, p) ∈ buses -> (b, q) ∈ buses -> p = q;
  ctx_inj : forall b c p, (b, p) ∈ buses -> (c, p) ∈ buses -> b = c;
  ctx_cover : forall d, d ∈ done -> exists p, (p_bus d, p) ∈ buses;
  ctx_words : forall b p k, (b, p) ∈ buses -> 0 <= k < 256 ->
    word (fst s) (p + 16 * k) = (if listed done b k then Z.lor (top_of b k) 1 else 0) /\
    word (fst s) (p + (16 * k + 8)) = (if listed done b k then aw_idx else 0);
}.

Lemma contexts_start s0 : contexts s0 [] [] s0.
Proof. split; [reflexivity | ..]; intros *; rewrite ?elem_of_nil; done. Qed.

Lemma ctx_table_for_spec s0 done buses s bus p buses' s' :
  contexts s0 done buses s -> 0 <= bus < 256 -> ctx_table_for buses bus s = (Some p, buses', s') ->
  contexts s0 done buses' s' /\ (bus, p) ∈ buses'.
Proof using Type*.
  intros [Hx Hp Hf Hi Hc Hw] Hb. unfold ctx_table_for. destruct (find _ _) as [[b q]|] eqn:E.
  { intros [= <- <- <-]. apply find_some in E as [Hin%list_elem_of_In Eb%Z.eqb_eq]. cbn [fst snd] in *. subst b. done. }
  assert (Hn : forall q, (bus, q) ∉ buses).
  { intros q Hq%list_elem_of_In. apply (find_none _ _ E) in Hq. cbn in Hq. lia. }
  destruct (alloc_zeroed_page s) as [[q|] s1] eqn:Ea; [|done]. intros [= <- <- <-].
  apply alloc_zeroed_page_spec in Ea as (T & N & X & Zr). split; [|set_solver].
  assert (Hq0 : forall b, (b, q) ∉ buses) by (intros b Hbq; by destruct (Hp b q Hbq) as (_ & Ht & _)).
  assert (Hq : ~ taken (snd s0) q) by (intros Ht; apply N; by apply Hx).
  split; [by transitivity s | | | | |].
  - intros b r [Hr|[= -> ->]%list_elem_of_singleton]%elem_of_app; [|done].
    destruct (Hp b r Hr) as (? & ? & ?). split; [done|]. split; [by apply X | done].
  - intros b r1 r2. rewrite !elem_of_app, !list_elem_of_singleton.
    intros [H1|H1] [H2|H2]; simplify_eq; [by apply (Hf b) | by apply Hn in H1 | by apply Hn in H2 | done].
  - intros b c r. rewrite !elem_of_app, !list_elem_of_singleton.
    intros [H1|H1] [H2|H2]; simplify_eq; [by apply (Hi b c r) | by apply Hq0 in H1 | by apply Hq0 in H2 | done].
  - intros d Hd. destruct (Hc d Hd) as [r Hr]. exists r. set_solver.
  - intros b r k Hr Hk. destruct (slot_16 k Hk) as [S1 S2]. apply elem_of_app in Hr as [Hr|[= -> ->]%list_elem_of_singleton].
    + destruct (Hp b r Hr) as (_ & Ht & _). destruct (X r Ht) as [_ Hsame]. rewrite !Hsame by done. by apply Hw.
    + rewrite (listed_uncovered done buses) by auto. by rewrite !Zr by done.
Qed.

Lemma contexts_write s0 done buses m f d p :
  contexts s0 done buses (m, f) -> loc_ok d -> (p_bus d, p) ∈ buses ->
  let k := devfn (p_dev d) (p_func d) in
  contexts s0 (done ++ [d]) buses (write_entry p k (Z.lor (top_of (p_bus d) k) 1) aw_idx m, f).
Proof using Type*.
  intros [Hx Hp Hf Hi Hc Hw] Hd Hin k. destruct Hd as (Hb & Hdev & Hfn).
  assert (Hk : 0 <= k < 256) by (by apply devfn_range). destruct (Hp _ p Hin) as (_ & [Pp _] & Np).
  pose proof (page_52 _ (tops_page (p_bus d) k)) as [A B].
  assert (Hv : 0 <= Z.lor (top_of (p_bus d) k) 1 < 2^64) by (apply lor_range; (done || lia)).
  split; [| done | done | done | |].
  - apply extends_write; (done || lia).
  - intros e [He|He%list_elem_of_singleton]%elem_of_app; [by apply Hc | subst e; by exists p].
  - intros b q j Hq Hj. cbn [fst]. destruct (Hp b q Hq) as (_ & [Pq _] & _). destruct (slot_16 j Hj) as [S1 S2].
    destruct (Hw b q j Hq Hj) as [W1 W2]. rewrite listed_snoc, !word_write_entry by (done || lia).
    destruct (decide (q = p /\ j = k)) as [[-> ->]|Hne].
    + assert (b = p_bus d) as -> by (by apply (Hi _ _ p)). fold k. rewrite !Z.eqb_refl, orb_true_r.
      rewrite decide_True by done. rewrite decide_False by lia. by rewrite decide_True by done.
    + rewrite !decide_False by lia. assert ((p_bus d =? b) && (devfn (p_dev d) (p_func d) =? j) = false) as ->; [|by rewrite orb_false_r].
      apply not_true_iff_false. intros E. apply andb_prop in E as [E1%Z.eqb_eq E2%Z.eqb_eq]. apply Hne. subst b.
      split; [by apply (Hf (p_bus d)) | done].
Qed.

Lemma context_loop_spec devices s0 done buses s buses' s' :
  contexts s0 done buses s -> Forall loc_ok devices ->
  context_loop devices target aw_idx default_top target_top buses s = (Some buses', s') ->
  contexts s0 (done ++ devices) buses' s'.
Proof using Type*.
  revert done buses s. induction devices as [|d devices IH]; intros done buses s Hc Hok; cbn [context_loop].
  { intros [= <- <-]. by rewrite app_nil_r. }
  apply Forall_cons in Hok as [Hd Hok]. destruct (ctx_table_for buses (p_bus d) s) as [[[p|] bs] [m f]] eqn:E; [|done].
  apply (ctx_table_for_spec s0 done) in E as [Hc' Hin]; [|done | apply Hd]. rewrite top_of_loc by done.
  pose proof (page_52 _ (tops_page (p_bus d) (devfn (p_dev d) (p_func d)))) as [A B]. cbv zeta.
  rewrite context_entry_val by done. intros El. rewrite cons_middle, app_assoc. apply (IH (done ++ [d])) in El; [done | | done].
  by apply contexts_write.
Qed.

End contexts.

(** ** The root table *)

Lemma root_entry_val p : page p -> root_entry p = (Z.lor p 1, 0).
Proof. intros [A B]%page_52. unfold root_entry. by rewrite mask_page_0. Qed.

Lemma root_loop_spec buses root m :
  page root -> (forall b p, (b, p) ∈ buses -> 0 <= b < 256 /\ page p) ->
  (forall b p q, (b, p) ∈ buses -> (b, q) ∈ buses -> p = q) ->
  let m' := root_loop buses root m in
  (forall q o, page q -> slot o -> q <> root -> word m' (q + o) = word m (q + o)) /\
  (forall b p, (b, p) ∈ buses -> word m' (root + 16 * b) = Z.lor p 1) /\
  (forall b, 0 <= b < 256 -> (forall p, (b, p) ∉ buses) -> word m' (root + 16 * b) = word m (root + 16 * b)).
Proof.
  intros Hr. induction buses as [|[c q] buses IH] using rev_ind; intros Hp Hf m'.
  { split; [done|]. split; [|done]. intros b p Hb%elem_of_nil. done. }
  assert (Hl : forall x, x ∈ buses -> x ∈ buses ++ [(c, q)]) by (intros x Hx; apply elem_of_app; by left).
  assert (Hcq : (c, q) ∈ buses ++ [(c, q)]) by (apply elem_of_app; right; by apply list_elem_of_singleton).
  destruct IH as (I1 & I2 & I3); [by eauto | intros b p r H1 H2; by apply (Hf b); apply Hl|].
  destruct (Hp c q Hcq) as [Hc Hq]. pose proof (page_52 q Hq) as [A B].
  assert (Hv : 0 <= Z.lor q 1 < 2^64) by (apply lor_range; (done || lia)).
  assert (E : m' = write_entry root c (Z.lor q 1) 0 (root_loop buses root m)).
  { unfold m', root_loop. rewrite foldl_app. cbn [foldl fst snd]. by rewrite root_entry_val. }
  rewrite E. split; [|split].
  - intros r o Pr So Hne. rewrite word_write_entry by (done || lia). rewrite !decide_False by tauto. by apply I1.
  - intros b p Hb. destruct (Hp b p Hb) as [Hb' _]. destruct (slot_16 b Hb') as [S1 _].
    rewrite word_write_entry by (done || lia). destruct (decide (root = root /\ 16 * b = 16 * c)) as [[_ Ebc]|Hne].
    + assert (b = c) as -> by lia. f_equal. by apply (Hf c).
    + rewrite decide_False by lia. apply I2. apply elem_of_app in Hb as [Hb|Hb%list_elem_of_singleton]; [done|]. simplify_eq. tauto.
  - intros b Hb Hn. destruct (slot_16 b Hb) as [S1 _]. rewrite word_write_entry by (done || lia).
    assert (b <> c) by (intros ->; by apply (Hn q)). rewrite !decide_False by lia. apply I3; [done|]. intros p Hb'. by apply (Hn p), Hl.
Qed.

(** ** One translation *)

Lemma translate_absent m root b k iova : word m (root + 16 * b) = 0 -> vtd_translate m root b k iova = None.
Proof. intros E. unfold vtd_translate. by rewrite E. Qed.

Lemma translate_no_context m root b k iova p :
  page p -> word m (root + 16 * b) = Z.lor p 1 -> word m (p + 16 * k) = 0 -> vtd_translate m root b k iova = None.
Proof.
  intros [A B]%page_52 E1 E2. unfold vtd_translate. rewrite E1, land_flags, mask_page by (done || lia).
  change (Z.land 1 1 =? 0) with false. cbv iota. by rewrite E2.
Qed.

Definition widths (aw : Z) : Prop := aw = 30 \/ aw = 39 \/ aw = 48.

Lemma widths_index aw : widths aw -> 0 <= agaw_index aw < 8 /\ 30 + 9 * agaw_index aw = aw.
Proof. intros [-> | [-> | -> ]]; done. Qed.

Lemma translate_window m root b k iova p top aw limit fp :
  page p -> page top -> widths aw -> limit / 2^30 <= 256 -> 0 <= iova -> word m (root + 16 * b) = Z.lor p 1 ->
  word m (p + 16 * k) = Z.lor top 1 -> word m (p + (16 * k + 8)) = agaw_index aw -> window m top aw limit fp ->
  vtd_translate m root b k iova = window_image aw limit iova.
Proof.
  intros Pp Pt Haw Hlim Hi E1 E2 E3 Hw. pose proof (page_52 p Pp) as [A B]. pose proof (page_52 top Pt) as [C D].
  destruct (widths_index aw Haw) as [Hidx Hwd]. unfold vtd_translate. rewrite E1, land_flags, mask_page by (done || lia).
  change (Z.land 1 1 =? 0) with false. cbv iota zeta. rewrite <- Z.add_assoc, E2, E3, land_flags, mask_page by (done || lia).
  change (Z.land 1 1 =? 0) with false. cbv iota.
  assert (Htt : Z.land (Z.shiftr (Z.lor top 1) 2) 3 = 0).
  { apply Z.bits_inj'. intros i Hi'. rewrite Z.land_spec, Z.shiftr_spec, Z.lor_spec, Z.bits_0 by done.
    destruct (Z.lt_ge_cases i 2); [|change 3 with (Z.ones 2); rewrite Z.ones_spec_high by lia; apply andb_false_r].
    rewrite (testbit_page top) by (done || lia). change 1 with (Z.ones 1). by rewrite Z.ones_spec_high by lia. }
  rewrite Htt. cbn [Z.eqb negb]. change 7 with (Z.ones 3). rewrite Z.land_ones, Z.mod_small by (done || lia). rewrite Hwd.
  destruct (Z.leb_spec (2^aw) iova) as [Hge|Hlt].
  - unfold window_image. rewrite (proj2 (Z.ltb_ge _ _)) by lia. done.
  - by apply (window_walk m top aw limit fp).
Qed.

(** ** All tables *)

(** The limit of the window of function [k] of bus [b]. *)
Definition limit_of (target : option (Z * Z * Z)) (b k : Z) : Z :=
  if bool_decide (target = Some (b, k / 8, k mod 8)) then TARGET_WINDOW_LIMIT else DEFAULT_WINDOW_LIMIT.

Lemma limit_of_bound target b k : 0 <= limit_of target b k /\ limit_of target b k / 2^30 <= 256.
Proof. unfold limit_of. by case_bool_decide. Qed.

(** [top] is the allocated table of a window. *)
Definition serves (s : mf) (top aw limit : Z) : Prop :=
  exists fp, window (fst s) top aw limit fp /\ top ∈ fp /\ forall p, p ∈ fp -> taken (snd s) p.

Lemma serves_page s top aw limit : serves s top aw limit -> page top.
Proof. intros (fp & _ & Hin & Ht). apply (Ht top Hin). Qed.

Lemma serves_extends s s' top aw limit : extends s s' -> serves s top aw limit -> serves s' top aw limit.
Proof.
  intros He (fp & Hw & Hin & Ht). exists fp. split; [by apply (window_extends s)|]. split; [done|].
  intros p Hp. by apply (He p (Ht p Hp)).
Qed.

Section tables.
Variables (devices : list PciDevice) (target : option (Z * Z * Z)) (aw : Z).
Hypotheses (devices_ok : Forall loc_ok devices) (aw_ok : widths aw).

(** What the unit does for every function and address. *)
Definition translates (m : memory) (root : Z) : Prop :=
  forall b k iova, 0 <= b < 256 -> 0 <= k < 256 -> 0 <= iova ->
    vtd_translate m root b k iova = if listed devices b k then window_image aw (limit_of target b k) iova else None.

Lemma assemble s dt tt root s1 buses m f :
  (forall b k, serves s (top_of target dt tt b k) aw (limit_of target b k)) ->
  alloc_zeroed_page s = (Some root, s1) ->
  context_loop devices target (agaw_index aw) dt tt [] s1 = (Some buses, (m, f)) ->
  extends s (root_loop buses root m, f) /\ translates (root_loop buses root m) root.
Proof using devices_ok aw_ok.
  intros Hs Ea Ec. apply alloc_zeroed_page_spec in Ea as (T & N & X & Zr). destruct (widths_index aw aw_ok) as [Hidx _].
  apply (context_loop_spec _ _ _ _ (fun b k => serves_page _ _ _ _ (Hs b k)) Hidx _ s1 []) in Ec;
    [|apply contexts_start | exact devices_ok].
  destruct Ec as [Hx Hp Hf _ Hc Hw]. cbn [fst snd app] in *.
  assert (Pr : page root) by apply T.
  destruct (root_loop_spec buses root m Pr) as (R1 & R2 & R3); [|done|].
  { intros b p Hb. destruct (Hp b p Hb) as (? & Ht & _). split; [done | apply Ht]. }
  assert (He : extends s (root_loop buses root m, f)).
  { apply (extends_outside s m f _ root); [by transitivity s1 | done | done]. }
  split; [done|]. intros b k iova Hb Hk Hi. destruct (slot_16 b Hb) as [Sb _].
  destruct (decide (b ∈ buses.*1)) as [([b' p] & -> & Hin)%list_elem_of_fmap|Hno].
  - cbn [fst] in *. destruct (Hp _ p Hin) as (_ & [Pp _] & Np). assert (Hne : p <> root) by (by intros ->).
    destruct (Hw _ p k Hin Hk) as [W1 W2]. destruct (slot_16 k Hk) as [S1 S2].
    rewrite <- R1 in W1, W2 by done. destruct (listed devices b' k).
    + destruct (serves_extends _ _ _ _ _ He (Hs b' k)) as (fp & Hwin & _).
      apply (translate_window _ _ _ _ _ p (top_of target dt tt b' k) aw _ fp); try done;
        [by eapply serves_page | apply limit_of_bound | by apply R2].
    + apply (translate_no_context _ _ _ _ _ p); [done | by apply R2 | done].
  - assert (Hnone : forall p, (b, p) ∉ buses) by (intros p Hin; apply Hno, list_elem_of_fmap; by exists (b, p)).
    rewrite (listed_uncovered devices buses) by done. apply translate_absent. rewrite R3 by done.
    destruct (Hx root T) as [_ Hsame]. rewrite Hsame by done. by apply Zr.
Qed.

Lemma build_tables_spec dt s root s' :
  serves s dt aw DEFAULT_WINDOW_LIMIT -> build_tables devices target aw dt s = Ok (Some root, s') ->
  extends s s' /\ translates (fst s') root.
Proof using devices_ok aw_ok.
  intros Hdt E. unfold build_tables in E.
  assert (Hrest : forall tt s1, extends s s1 ->
    (forall b k, serves s1 (top_of target dt tt b k) aw (limit_of target b k)) ->
    match alloc_zeroed_page s1 with
    | (None, s2) => Ok (None, s2)
    | (Some root_pa, s2) =>
        match context_loop devices target (agaw_index aw) dt tt [] s2 with
        | (None, s3) => Ok (None, s3)
        | (Some buses, (m, f)) => Ok (Some root_pa, (root_loop buses root_pa m, f))
        end
    end = Ok (Some root, s') -> extends s s' /\ translates (fst s') root).
  { intros tt s1 X Hs. destruct (alloc_zeroed_page s1) as [[r|] s2] eqn:Ea; [|done].
    destruct (context_loop _ _ _ _ _ _ _) as [[buses|] [m f]] eqn:Ec; [|done]. intros [= <- <-].
    destruct (assemble s1 dt tt r s2 buses m f Hs Ea Ec) as [X2 Ht]. split; [by transitivity s1 | done]. }
  destruct target as [loc|] eqn:Etg; unfold mbind, res_bind in E.
  - destruct (build_window_slpt aw TARGET_WINDOW_LIMIT s) as [[[tt|] s1]|] eqn:Ew; [|done|done].
    apply build_window_spec in Ew as (fp & Hw & Hin & Ht & X); [|done|done].
    apply (Hrest (Some tt) s1 X); [|done]. intros b k. unfold top_of, limit_of. case_bool_decide.
    + exists fp. split; [done|]. split; [done|]. intros p Hp. by apply Ht.
    + by apply (serves_extends s).
  - apply (Hrest None s); [reflexivity | | done]. intros b k. unfold top_of, limit_of. by rewrite bool_decide_false.
Qed.

End tables.

(** ** Start-up *)

Definition location (d : PciDevice) : Z * Z * Z := (p_bus d, p_dev d, p_func d).

Lemma listed_locations devices bus dev func :
  Forall loc_ok devices -> 0 <= func < 8 -> listed devices bus (devfn dev func) = bool_decide ((bus, dev, func) ∈ location <$> devices).
Proof.
  intros Hok Hf. apply eq_bool_prop_intro. rewrite !Is_true_true, bool_decide_eq_true, listed_spec by done.
  rewrite list_elem_of_fmap. split; intros (d & H1 & H2); exists d; split; done.
Qed.

Lemma limit_of_devfn target bus dev func :
  0 <= func < 8 -> limit_of target bus (devfn dev func) =
  if bool_decide (target = Some (bus, dev, func)) then TARGET_WINDOW_LIMIT else DEFAULT_WINDOW_LIMIT.
Proof.
  intros Hf. unfold limit_of. rewrite devfn_val by done. rewrite Z.div_add_l, Z.div_small, Z.add_0_r by lia.
  by rewrite (Z.add_comm (dev * 8)), Z.mod_add, Z.mod_small by lia.
Qed.

Lemma choose_width_widths cap aw : choose_width cap = Some aw -> widths aw.
Proof. unfold choose_width, widths. repeat case_match; intros [= <-]; tauto. Qed.

Section confined.
Context {H : Type} {hardware : Hardware H} {regs : UnitRegs H}.

(** The NVMe controller [init] gives the smaller window. *)
Definition nvme_at (devices : list PciDevice) (h : H) : option (Z * Z * Z) :=
  (fun x => let '(b, d, f, _) := x in (b, d, f)) <$> find_nvme devices h.

(** C13. When [init] reports that DMA remapping is on, the unit was switched on with a root table
    through which every function of every bus translates as follows, at whatever I/O address. A
    function that was not enumerated reaches nothing. An enumerated function never reaches physical
    memory at or above the limit of its window (3 GiB for the NVMe controller, 4 GiB for all
    others), but the window is not the identity that the comments promise, because second-level
    entries are written sixteen bytes apart and read eight bytes apart: with 39 or 48 address bits,
    GiB [2 * i] of the I/O addresses is GiB [i] of memory for every [i] below the limit and every
    other address is blocked, so that only the first GiB is the identity, the second is blocked,
    and addresses at and above the limit (up to twice the limit) are translated; with 30 address
    bits the same holds for pieces of 2 MiB of I/O addresses. No page that was allocated before is
    changed, so the tables are built outside of everything in use. *)
Theorem dma_confined rsdp devices (w w' : world H) :
  Forall loc_ok devices -> init false rsdp devices w = Ok (true, w') ->
  exists root aw h,
    enable_remapping (IOMMU_BASE w') root h = (true, w_hw w') /\ widths aw /\
    extends (w_mem w, w_frames w) (w_mem w', w_frames w') /\
    forall bus dev func iova,
      0 <= bus < 256 -> 0 <= dev < 32 -> 0 <= func < 8 -> 0 <= iova ->
      let limit := if bool_decide (nvme_at devices h = Some (bus, dev, func)) then TARGET_WINDOW_LIMIT else DEFAULT_WINDOW_LIMIT in
      let image := vtd_translate (w_mem w') root bus (devfn dev func) iova in
      ((bus, dev, func) ∉ location <$> devices -> image = None) /\
      ((bus, dev, func) ∈ location <$> devices ->
         (forall pa, image = Some pa -> 0 <= pa < limit) /\
         let piece := if aw =? 30 then 2^21 else 2^30 in
         forall j x, 0 <= x < piece -> iova = j * piece + x ->
           image = if (iova <? 2^aw) && Z.even j && (j / 2 <? limit / 2^30) then Some (j / 2 * 2^30 + x) else None).
Proof.
  intros Hok E. unfold init, mbind, res_bind in E. destruct (probe_dmar _ _) as [dmar|]; [|done].
  destruct (negb (found dmar) || _); [done|]. destruct (negb (is_identity_mapped _ _)); [done|].
  destruct (unit_rd32 _ _) as [ver h1]. destruct (unit_rd64 _ h1) as [cap h2]. destruct (unit_rd64 _ h2) as [ecap h].
  destruct (choose_width cap) as [aw|] eqn:Eaw; [|done]. apply choose_width_widths in Eaw.
  destruct (build_window_slpt _ _ _) as [[[dt|] s1]|] eqn:Ew; [|done|done].
  apply build_window_spec in Ew as (fp & Hw & Hin & Ht & X1); [|done|done].
  destruct (build_tables _ _ _ _ _) as [[[root|] s2]|] eqn:Eb; [|done|done].
  destruct (enable_remapping _ root h) as [ok h'] eqn:Een. injection E as -> <-.
  apply build_tables_spec in Eb as [X2 Htr]; [|done | done | exists fp; split; [done|]; split; [done|]; intros p Hp; by apply Ht].
  exists root, aw, h. cbn [IOMMU_BASE w_hw w_mem w_frames]. split; [done|]. split; [done|]. split.
  { transitivity s1; [exact X1|]. by destruct s2. }
  intros bus dev func iova Hb Hd Hf Hi. cbv zeta. pose proof (Htr bus (devfn dev func) iova Hb (devfn_range _ _ Hd Hf) Hi) as E.
  rewrite listed_locations, limit_of_devfn in E by done. fold (nvme_at devices h) in E. split.
  - intros Hn. rewrite bool_decide_false in E by done. exact E.
  - intros Hin'. rewrite bool_decide_true in E by done. rewrite E. split.
    + intros pa Hpa. apply window_image_below in Hpa; [done | done |]. rewrite <- limit_of_devfn by done. apply limit_of_bound.
    + intros j x Hx ->. by apply window_image_piece.
Qed.

End confined.

(** The windows are not the identity: the second GiB is blocked, and the third is the second. *)
Lemma window_not_identity aw limit x :
  aw = 39 \/ aw = 48 -> 2 * 2^30 <= limit -> 0 <= x < 2^30 ->
  window_image aw limit x = Some x /\ window_image aw limit (2^30 + x) = None /\ window_image aw limit (2 * 2^30 + x) = Some (2^30 + x).
Proof.
  intros Haw Hl Hx. assert (Hlim : 2 <= limit / 2^30) by (apply Z.div_le_lower_bound; lia).
  assert (Hp : 2^39 <= 2^aw) by (destruct Haw as [-> | -> ]; lia).
  assert (Hd : forall c, 0 <= c -> (c * 2^30 + x) / 2^30 = c /\ (c * 2^30 + x) mod 2^30 = x).
  { intros c Hc. rewrite Z.div_add_l, Z.div_small, Z.add_0_r by lia. by rewrite Z.add_comm, Z.mod_add, Z.mod_small by lia. }
  unfold window_image. assert (aw =? 30 = false) as -> by (destruct Haw as [-> | -> ]; done). cbv zeta.
  destruct (Hd 0) as [D0 M0]; [done|]. destruct (Hd 1) as [D1 _]; [done|]. destruct (Hd 2) as [D2 M2]; [done|].
  rewrite Z.mul_0_l, Z.add_0_l in D0, M0. rewrite Z.mul_1_l in D1.
  rewrite D0, M0, D1, D2, M2. rewrite !(proj2 (Z.ltb_lt _ (2^aw))) by lia. cbn [Z.even andb].
  change (0 / 2) with 0. change (2 / 2) with 1. rewrite !(proj2 (Z.ltb_lt _ (limit / 2^30))) by lia. done.
Qed.

(** ** A start-up *)

Module Sample.

(** The NVMe controller answers at 0:3.0 with a register window; the unit is always ready. *)
#[export] Instance hardware : Hardware unit := {|
  cfg_read a _ := if a =? 0x80001810 then 0xFEB00000 else 0; cfg_write _ _ h := h; rdmsr _ _ := 0; wrmsr _ _ h := h;
  mmio_read _ _ := 0; mmio_write _ _ h := h |}.
#[export] Instance regs : UnitRegs unit := {|
  unit_rd32 a h := (if Z.land a 0xFFF =? REG_GSTS then 0xC0000000 else 0, h);
  unit_rd64 a h := (if Z.land a 0xFFF =? REG_CAP then CAP_SAGAW_39 else 0, h);
  unit_wr32 _ _ h := h; unit_wr64 _ _ h := h |}.

Definition nvme : PciDevice := mk_pci 0 3 0 0x1B36 0x10 1 8 2.
Definition nic : PciDevice := mk_pci 1 0 0 0x1AF4 0x1041 2 0 0.
Definition start : world unit :=
  mk_world (fadt_memory sample_dmar)
    (mk_frames (foldr bitmap_set (FRAME_BITMAP frames_boot) (seqZ 0 16)) 4096 4080 [] []) tt 0 0 0 0.

Definition result : world unit := match init false 0x1000 [nvme; nic] start with Ok (_, w) => w | Panic => start end.

Lemma init_ok : init false 0x1000 [nvme; nic] start = Ok (true, result).
Proof.
  assert (E : match init false 0x1000 [nvme; nic] start with Ok (ok, _) => ok | Panic => false end = true) by (vm_compute; reflexivity).
  unfold result. revert E. by destruct (init _ _ _ _) as [[[] w]|].
Qed.

End Sample.
Import (hints) Sample.

Lemma dma_confined_witness :
  exists root aw h, enable_remapping (IOMMU_BASE Sample.result) root h = (true, w_hw Sample.result) /\
    vtd_translate (w_mem Sample.result) root 2 (devfn 0 0) 0x1000 = None /\
    vtd_translate (w_mem Sample.result) root 0 (devfn 3 0) 0x1000 = (if 0x1000 <? 2^aw then Some 0x1000 else None).
Proof.
  assert (N1 : (2, 0, 0) ∉ location <$> [Sample.nvme; Sample.nic]) by (apply (bool_decide_unpack _); exact I).
  assert (N2 : (0, 3, 0) ∈ location <$> [Sample.nvme; Sample.nic]) by (apply (bool_decide_unpack _); exact I).
  destruct (dma_confined 0x1000 [Sample.nvme; Sample.nic] Sample.start Sample.result) as (root & aw & h & He & _ & _ & Ht).
  { repeat constructor; cbn; lia. }
  { exact Sample.init_ok. }
  exists root, aw, h. split; [exact He|]. split.
  - destruct (Ht 2 0 0 0x1000) as [E _]; [lia..|]. exact (E N1).
  - destruct (Ht 0 3 0 0x1000) as [_ E]; [lia..|]. destruct h. destruct (E N2) as [_ E2].
    rewrite (E2 0 0x1000); [|destruct (aw =? 30); lia | destruct (aw =? 30); lia].
    change (Z.even 0) with true. rewrite andb_true_r. by destruct (0x1000 <? 2^aw).
Defined.
