(* ===== verification/Device.v ===== *)
(** * Device grants (kernel/src/device.rs, the device part of kernel/src/main.rs,
    user/libdevice/src/grant.rs and msix.rs, publish_nic_table of kernel/src/net.rs)

    A PCI device is handed to a driver domain at boot: message-signalled interrupts are prepared,
    a block of DMA memory and a descriptor page are allocated and mapped, the registers are mapped
    and the capabilities are granted. At run time the driver asks for the descriptor, reads the
    configuration space of its own device and has MSI-X switched on.

    Results: no interrupt vector is granted to two domains; through the system calls a driver
    domain reaches the configuration space of devices of its own kind only; the descriptor the
    kernel writes is the one the driver library reads. *)

From S2P Require Import Prelude Addr Cap Key Klog Frames Elf Sched Net Pager Irq Kernel Paging Exec Pci Bytes.

(** ** Constants *)

Definition PAGE : Z := 4096.
Definition DEVICE_CFG_VADDR : Z := USER_SPACE_BASE + 0x810000.
Definition DEVICE_BAR_VADDR : Z := USER_SPACE_BASE + 0x820000.
Definition DEVICE_DMA_VADDR : Z := USER_SPACE_BASE + 0x830000.
Definition DEVICE_MSIX_VADDR : Z := USER_SPACE_BASE + 0x840000.
Definition DEVICE_MULTI_CFG_VADDR : Z := USER_SPACE_BASE + 0x600000.
Definition DEVICE_MULTI_BAR_VADDR : Z := USER_SPACE_BASE + 0x610000.
Definition DEVICE_MULTI_DMA_VADDR : Z := USER_SPACE_BASE + 0x650000.
Definition DEVICE_MULTI_BAR_STRIDE : Z := 0x4000.
Definition DEVICE_MULTI_DMA_STRIDE : Z := 0x10000.
Definition DEVICE_MULTI_SLOTS : Z := 16.
Definition DEVICE_GRANT_MAGIC : Z := 0x004445564F532131.
Definition DEVICE_SELF : Z := U64_MAX.

(** ** Data *)

Record DeviceGrant : Type := mk_device_grant {
  g_magic : Z; g_bar_paddr : Z; g_bar_vaddr : Z; g_bar_bytes : Z; g_dma_paddr : Z; g_dma_vaddr : Z; g_dma_bytes : Z;
  g_msix_vector_base : Z; g_msix_vector_count : Z; g_msix_table_offset : Z; g_msix_msg_addr : Z;
  g_page_size : Z; g_reserved : Z; g_msix_table_vaddr : Z;
}.

(** The [#[repr(C)]] layout: seven [u64], six [u32], one [u64]. *)
Definition grant_bytes (g : DeviceGrant) : list Z :=
  to_le 8 (g_magic g) ++ to_le 8 (g_bar_paddr g) ++ to_le 8 (g_bar_vaddr g) ++ to_le 8 (g_bar_bytes g) ++
  to_le 8 (g_dma_paddr g) ++ to_le 8 (g_dma_vaddr g) ++ to_le 8 (g_dma_bytes g) ++
  to_le 4 (g_msix_vector_base g) ++ to_le 4 (g_msix_vector_count g) ++ to_le 4 (g_msix_table_offset g) ++
  to_le 4 (g_msix_msg_addr g) ++ to_le 4 (g_page_size g) ++ to_le 4 (g_reserved g) ++ to_le 8 (g_msix_table_vaddr g).

Record GrantRequest : Type := mk_request {
  r_domain : Z; r_bus : Z; r_dev : Z; r_func : Z; r_bar_paddr : Z; r_bar_pages : Z; r_dma_pages : Z; r_msix_vectors : Z;
}.

Record DeviceBinding : Type := mk_device_binding {
  e_domain : Z; e_bus : Z; e_dev : Z; e_func : Z; e_bar_paddr : Z; e_cfg_paddr : Z;
}.

Record MsixPending : Type := mk_pending { m_domain : Z; m_bus : Z; m_dev : Z; m_func : Z; m_cap_ptr : Z }.

Record MsixSetup : Type := mk_setup { vector : Z; count : Z; s_table_offset : Z; msg_addr : Z; table_vaddr : Z }.

Definition MSIX_DISABLED : MsixSetup := mk_setup 0 0 0 0 0.

(** ** The state: the kernel, the tables of the device module, the local APIC and the hardware *)

Record devices (H : Type) : Type := mk_devices {
  v_kernel : kernel;
  BINDINGS : list DeviceBinding;
  MSI_NEXT : Z;
  MSIX_PENDING : list MsixPending;
  v_lapic : lapic;
  v_hw : H;
}.
Arguments mk_devices {H}. Arguments v_kernel {H}. Arguments BINDINGS {H}. Arguments MSI_NEXT {H}.
Arguments MSIX_PENDING {H}. Arguments v_lapic {H}. Arguments v_hw {H}.

Section state.
Context {H : Type}.
Notation devices := (devices H).

Definition set_kernel (s : devices) (x : kernel) : devices :=
  mk_devices x (BINDINGS s) (MSI_NEXT s) (MSIX_PENDING s) (v_lapic s) (v_hw s).
Definition set_bindings (s : devices) (x : list DeviceBinding) : devices :=
  mk_devices (v_kernel s) x (MSI_NEXT s) (MSIX_PENDING s) (v_lapic s) (v_hw s).
Definition set_msi_next (s : devices) (x : Z) : devices :=
  mk_devices (v_kernel s) (BINDINGS s) x (MSIX_PENDING s) (v_lapic s) (v_hw s).
Definition set_msix_pending (s : devices) (x : list MsixPending) : devices :=
  mk_devices (v_kernel s) (BINDINGS s) (MSI_NEXT s) x (v_lapic s) (v_hw s).
Definition set_hw (s : devices) (x : H) : devices :=
  mk_devices (v_kernel s) (BINDINGS s) (MSI_NEXT s) (MSIX_PENDING s) (v_lapic s) x.
Definition set_lapic (s : devices) (x : lapic) : devices :=
  mk_devices (v_kernel s) (BINDINGS s) (MSI_NEXT s) (MSIX_PENDING s) x (v_hw s).

Definition DM (A : Type) : Type := devices -> res (A * devices).

#[export] Instance DM_ret : MRet DM := fun _ a s => Ok (a, s).
#[export] Instance DM_bind : MBind DM := fun _ _ f m s => match m s with Ok (a, s') => f a s' | Panic => Panic end.

Definition dgets {A} (f : devices -> A) : DM A := fun s => Ok (f s, s).
Definition dmodify (f : devices -> devices) : DM unit := fun s => Ok (tt, f s).
(** Kernel code called from the device module. *)
Definition lift {A} (m : M A) : DM A :=
  fun s => match m (v_kernel s) with Ok (a, k) => Ok (a, set_kernel s k) | Panic => Panic end.

(** [for i in start..start + n { body(i) }]. *)
Fixpoint dloop (n : nat) (i : Z) (body : Z -> DM unit) : DM unit :=
  match n with O => mret tt | S n => _ ← body i; dloop n (i + 1) body end.

End state.
Arguments DM : clear implicits.

(** ** MSI-X *)

Section device.
Context {H : Type} {hardware : Hardware H} {mapper : Mapper}.
Notation DM := (DM H).

Definition dgrant (d : Z) (c : Capability) : DM bool := lift (on_caps_res (Cap.grant d c)).

Definition alloc_msi_vectors (n : Z) : DM (option Z) :=
  if n =? 0 then mret None
  else
    next ← dgets MSI_NEXT;
    let stop := w32 (next + n) in
    if MSI_VECTOR_BASE + MSI_VECTOR_COUNT <? stop then mret None
    else _ ← dmodify (fun s => set_msi_next s stop); mret (Some next).

Definition apic_init_dm : DM (option Z) :=
  fun s => let '(o, l, h) := apic_init (v_lapic s) (v_hw s) in Ok (o, set_hw (set_lapic s l) h).

(** Where the driver finds the table: [None] when MSI-X stays off. *)
Definition place_table (domain bus dev func want_vectors bar_pages : Z) (cap : MsixCap) : DM (option Z) :=
  let table_bytes := table_offset cap + want_vectors * 16 in
  if table_bir cap =? 0 then
    if w64 (bar_pages * PAGE) <? table_bytes then mret None else mret (Some DEVICE_BAR_VADDR)
  else
    bar ← dgets (fun s => read_bar bus dev func (table_bir cap) (v_hw s));
    match bar with
    | None => mret None
    | Some msix_bar =>
        let pages := div_ceil table_bytes PAGE in
        _ ← dloop (Z.to_nat pages) 0 (fun i =>
              lift (map_mmio domain (w64 (DEVICE_MSIX_VADDR + i * PAGE)) (w64 (msix_bar + i * PAGE))));
        mret (Some DEVICE_MSIX_VADDR)
    end.

(** The end of [setup_msix], once the table is placed. *)
Definition prepare_vectors (domain bus dev func want_vectors : Z) (cap : MsixCap) (table : Z) : DM MsixSetup :=
  id ← apic_init_dm;
  match id with
  | None => mret MSIX_DISABLED
  | Some _ =>
      o ← alloc_msi_vectors want_vectors;
      match o with
      | None => mret MSIX_DISABLED
      | Some v =>
          _ ← dmodify (fun s => set_hw s (disable_intx bus dev func (v_hw s)));
          _ ← dmodify (fun s => set_msix_pending s (MSIX_PENDING s ++ [mk_pending domain bus dev func (cap_ptr cap)]));
          _ ← dloop (Z.to_nat want_vectors) 0 (fun i => _ ← dgrant domain (Cap.Irq (w8 (v + i))); mret tt);
          addr ← dgets (fun s => msi_address (v_lapic s));
          mret (mk_setup v want_vectors (table_offset cap) addr table)
      end
  end.

Definition setup_msix (domain bus dev func want_vectors bar_pages : Z) : DM MsixSetup :=
  if want_vectors =? 0 then mret MSIX_DISABLED
  else
    o ← dgets (fun s => find_msix bus dev func (v_hw s));
    match o with
    | None => mret MSIX_DISABLED
    | Some cap =>
        if table_size cap <? w16 want_vectors then mret MSIX_DISABLED
        else
          t ← place_table domain bus dev func want_vectors bar_pages cap;
          match t with
          | None => mret MSIX_DISABLED
          | Some table => prepare_vectors domain bus dev func want_vectors cap table
          end
    end.

(** [enable_msix]: the first pending entry of the calling domain. *)
Definition device_enable_msix : DM bool :=
  me ← lift current_domain;
  pending ← dgets MSIX_PENDING;
  match position (fun p => m_domain p =? me) pending with
  | None => mret false
  | Some idx =>
      match pending !! idx with
      | None => mret false
      | Some p =>
          _ ← dmodify (fun s => set_msix_pending s (delete idx pending));
          _ ← dmodify (fun s => set_hw s (enable_msix (m_bus p) (m_dev p) (m_func p) (m_cap_ptr p) (v_hw s)));
          mret true
      end
  end.

(** ** Bindings *)

Fixpoint bind_in (b : DeviceBinding) (l : list DeviceBinding) : list DeviceBinding :=
  match l with
  | [] => [b]
  | e :: l => if e_domain e =? e_domain b then b :: l else e :: bind_in b l
  end.

Definition bind (b : DeviceBinding) : DM unit := dmodify (fun s => set_bindings s (bind_in b (BINDINGS s))).
Definition bind_push (b : DeviceBinding) : DM unit := dmodify (fun s => set_bindings s (BINDINGS s ++ [b])).

(** [bindings.iter().find(|e| e.domain == me)]. *)
Definition binding_of (me : Z) (l : list DeviceBinding) : option DeviceBinding := find (fun e => e_domain e =? me) l.

(** ** Granting *)

(** [ptr::write_bytes] and [ptr::write] through the identity mapping. *)
Definition zero_memory (p n : Z) : DM unit :=
  lift (modify (fun k => set_mem k (fun x => if (p <=? x) && (x <? p + n) then 0 else k_mem k x))).
Definition write_memory (p : Z) (bytes : list Z) : DM unit := lift (modify (fun k => set_mem k (copy_to p bytes (k_mem k)))).

Definition grant_at (req : GrantRequest) (cfg_vaddr bar_vaddr dma_vaddr : Z) (multi : bool) : DM bool :=
  let bar_paddr := page_floor (r_bar_paddr req) in
  let dma_pages := Z.max (r_dma_pages req) 1 in
  msix ← setup_msix (r_domain req) (r_bus req) (r_dev req) (r_func req) (r_msix_vectors req) (r_bar_pages req);
  dma ← lift (on_frames (allocate_frames dma_pages));
  match dma with
  | None => mret false
  | Some dma_paddr =>
      _ ← zero_memory dma_paddr (w64 (dma_pages * PAGE));
      cfg ← lift (on_frames allocate_frame);
      match cfg with
      | None => mret false
      | Some cfg_paddr =>
          let desc := mk_device_grant DEVICE_GRANT_MAGIC bar_paddr bar_vaddr (w64 (r_bar_pages req * PAGE)) dma_paddr
                        dma_vaddr (w64 (dma_pages * PAGE)) (vector msix) (count msix) (s_table_offset msix)
                        (msg_addr msix) PAGE 0 (table_vaddr msix) in
          _ ← write_memory cfg_paddr (grant_bytes desc);
          let b := mk_device_binding (r_domain req) (r_bus req) (r_dev req) (r_func req) bar_paddr cfg_paddr in
          _ ← (if multi then bind_push b else bind b);
          _ ← lift (map_user_page (r_domain req) cfg_vaddr cfg_paddr ReadWrite);
          _ ← dloop (Z.to_nat (r_bar_pages req)) 0 (fun i =>
                lift (map_mmio (r_domain req) (w64 (bar_vaddr + i * PAGE)) (w64 (bar_paddr + i * PAGE))));
          _ ← dloop (Z.to_nat dma_pages) 0 (fun i =>
                lift (map_user_page (r_domain req) (w64 (dma_vaddr + i * PAGE)) (w64 (dma_paddr + i * PAGE)) ReadWrite));
          _ ← dgrant (r_domain req) (Mmio bar_paddr);
          mret true
      end
  end.

Definition device_grant (req : GrantRequest) : DM bool :=
  grant_at req DEVICE_CFG_VADDR DEVICE_BAR_VADDR DEVICE_DMA_VADDR false.

(** The windows of instance [i]. *)
Definition slot_cfg (i : Z) : Z := DEVICE_MULTI_CFG_VADDR + i * PAGE.
Definition slot_bar (i : Z) : Z := DEVICE_MULTI_BAR_VADDR + i * DEVICE_MULTI_BAR_STRIDE.
Definition slot_dma (i : Z) : Z := DEVICE_MULTI_DMA_VADDR + i * DEVICE_MULTI_DMA_STRIDE.

Definition grant_slot (req : GrantRequest) (slot : Z) : DM bool :=
  grant_at req (slot_cfg slot) (slot_bar slot) (slot_dma slot) true.

Definition map_zero_cfg (domain vaddr : Z) : DM unit :=
  o ← lift (on_frames allocate_frame);
  match o with
  | None => mret tt
  | Some cfg_paddr =>
      _ ← zero_memory cfg_paddr PAGE;
      lift (map_user_page domain vaddr cfg_paddr ReadWrite)
  end.

Definition grant_empty (domain : Z) : DM unit := map_zero_cfg domain DEVICE_CFG_VADDR.

Definition grant_empty_multi_from (domain first : Z) : DM unit :=
  dloop (Z.to_nat (DEVICE_MULTI_SLOTS - first)) first (fun i => map_zero_cfg domain (slot_cfg i)).

(** ** System calls *)

Definition config_read (offset : Z) : DM (option Z) :=
  me ← lift current_domain;
  dgets (fun s =>
    match binding_of me (BINDINGS s) with
    | Some e => Some (config_read_dword (e_bus e) (e_dev e) (e_func e) (w8 offset) (v_hw s))
    | None => None
    end).

Definition pci_addr (bus dev func : Z) : Z := Z.lor (Z.lor (Z.shiftl bus 16) (Z.shiftl dev 8)) func.

Definition split_pci_addr (a : Z) : option (Z * Z * Z) :=
  if negb (Z.shiftr a 24 =? 0) then None
  else
    let bus := Z.land (Z.shiftr a 16) 0xFF in
    let dev := Z.land (Z.shiftr a 8) 0xFF in
    let func := Z.land a 0xFF in
    if (31 <? dev) || (7 <? func) then None else Some (bus, dev, func).

Definition selects (a1 bus dev func : Z) : bool :=
  (a1 =? DEVICE_SELF) || bool_decide (split_pci_addr a1 = Some (bus, dev, func)).

Definition pack_info (vendor device class_code : Z) : Z :=
  Z.lor (Z.lor (Z.shiftl vendor 48) (Z.shiftl device 32)) (Z.land class_code 0x00FFFFFF).

Definition syscall_info (a1 : Z) : DM Z :=
  me ← lift current_domain;
  dgets (fun s =>
    match binding_of me (BINDINGS s) with
    | None => 0
    | Some e =>
        if negb (selects a1 (e_bus e) (e_dev e) (e_func e)) then 0
        else
          let ids := config_read_dword (e_bus e) (e_dev e) (e_func e) 0x00 (v_hw s) in
          if Z.land ids 0xFFFF =? 0xFFFF then 0
          else
            let class := config_read_dword (e_bus e) (e_dev e) (e_func e) 0x08 (v_hw s) in
            pack_info (w16 (Z.land ids 0xFFFF)) (w16 (Z.shiftr ids 16)) class
    end).

Definition syscall_grant (a1 : Z) : DM Z :=
  me ← lift current_domain;
  o ← dgets (fun s => binding_of me (BINDINGS s));
  match o with
  | None => mret 0
  | Some e =>
      if negb (selects a1 (e_bus e) (e_dev e) (e_func e)) then mret 0
      else
        ok ← lift (has_cap me (Mmio (e_bar_paddr e)));
        if negb ok then mret 0
        else
          magic ← dgets (fun s => rd64 (k_mem (v_kernel s)) (e_cfg_paddr e));
          if negb (magic =? DEVICE_GRANT_MAGIC) then mret 0 else mret DEVICE_CFG_VADDR
  end.

(** The four arms of [syscall_dispatch] that end here. *)
Definition sys_msix_enable : DM Z := ok ← device_enable_msix; mret (b2z ok).
Definition sys_device_config_read (a1 : Z) : DM Z := o ← config_read (w32 a1); mret (default U64_MAX o).

(** ** Boot *)

(** The domains [main] has created for the drivers and the protocol stack. *)
Record boot_domains : Type := mk_boot_domains {
  block_domain : Z; net_domain : Z; e1000e_domain : Z; e1000_domain : Z; blk2_domain : Z; ahci_domain : Z;
  xhci_domain : Z; netstack_domain : Z;
}.

Context (doms : boot_domains).

(** [match find { Some => grant(..), None => grant_empty(..) }]; whether a device was found. *)
Definition assign (found : option (Z * Z * Z * Z)) (domain bar_pages dma_pages msix_vectors : Z) : DM bool :=
  match found with
  | Some (bus, dev, func, bar) =>
      _ ← device_grant (mk_request domain bus dev func bar bar_pages dma_pages msix_vectors);
      mret true
  | None => _ ← grant_empty domain; mret false
  end.

Definition nic_bytes (t : NicTable) : list Z :=
  to_le 8 (magic t) ++ to_le 8 (nic_count t) ++
  mjoin ((fun e => to_le 8 (nic_domain e) ++ to_le 8 (io_vaddr e) ++ to_le 8 (nic_kind e)) <$> entries t).

Definition publish_nic_table (netstack : Z) (es : list NicEntry) : DM bool :=
  o ← lift (on_frames allocate_frame);
  match o with
  | None => mret false
  | Some paddr =>
      _ ← write_memory paddr (nic_bytes (nic_table es));
      _ ← lift (map_user_page netstack NIC_TABLE_VADDR paddr ReadOnly);
      mret true
  end.

(** The cards found, numbered in the order of probing. *)
Definition nic_list (net e1000e e1000 : bool) : list NicEntry :=
  let add (found : bool) domain kind l :=
    if found then l ++ [mk_nic domain (nic_io_vaddr (Z.of_nat (length l))) kind] else l in
  add e1000 (e1000_domain doms) 3 (add e1000e (e1000e_domain doms) 2 (add net (net_domain doms) 1 [])).

(** The loop over the xHCI controllers; [xhci_count] instances are granted already. *)
Fixpoint grant_xhci (ds : list PciDevice) (xhci_count : Z) : DM Z :=
  match ds with
  | [] => mret xhci_count
  | d :: ds =>
      if negb (is_xhci d) then grant_xhci ds xhci_count
      else
        bar ← dgets (fun s => read_bar0 (p_bus d) (p_dev d) (p_func d) (v_hw s));
        match bar with
        | None => grant_xhci ds xhci_count
        | Some bar0 =>
            if DEVICE_MULTI_SLOTS <=? xhci_count then mret xhci_count
            else
              _ ← grant_slot (mk_request (xhci_domain doms) (p_bus d) (p_dev d) (p_func d) bar0 4 16 0) xhci_count;
              grant_xhci ds (xhci_count + 1)
        end
  end.

(** The boot-disk restriction of the SAFE build. *)
Definition restrict_boot_disk (boot_disk : option (Z * Z)) (ds : list PciDevice) : list PciDevice :=
  match boot_disk with
  | Some (dev, func) =>
      filter (fun d => (negb (p_class d =? 0x01) || ((p_dev d =? dev) && (p_func d =? func))) = true) ds
  | None => ds
  end.

(** The device part of [main]. *)
Definition boot_devices (ds : list PciDevice) : DM unit :=
  nvme ← dgets (fun s => find_nvme ds (v_hw s));
  _ ← assign nvme (block_domain doms) 4 7 3;
  net ← dgets (fun s => find_net ds (v_hw s));
  net_found ← assign net (net_domain doms) 4 8 2;
  e1000e ← dgets (fun s => find_e1000e ds (v_hw s));
  e1000e_found ← assign e1000e (e1000e_domain doms) 8 8 0;
  e1000 ← dgets (fun s => find_e1000 ds (v_hw s));
  e1000_found ← assign e1000 (e1000_domain doms) 8 8 0;
  _ ← publish_nic_table (netstack_domain doms) (nic_list net_found e1000e_found e1000_found);
  blk ← dgets (fun s => find_virtio_blk ds (v_hw s));
  _ ← assign blk (blk2_domain doms) 4 8 2;
  ahci ← dgets (fun s => find_ahci ds (v_hw s));
  _ ← assign ahci (ahci_domain doms) 2 6 0;
  _ ← dgrant (block_domain doms) (SendTo (ahci_domain doms));
  _ ← dgrant (block_domain doms) (MapInto (ahci_domain doms));
  _ ← dgrant (ahci_domain doms) (SendTo (block_domain doms));
  n ← grant_xhci ds 0;
  if n <? DEVICE_MULTI_SLOTS then grant_empty_multi_from (xhci_domain doms) n else mret tt.

End device.
#[global] Arguments binding_of : simpl never.

(** ** Invariants of device code *)

Lemma find_msix_size {H} {hardware : Hardware H} bus dev func (h : H) c :
  find_msix bus dev func h = Some c -> 1 <= table_size c <= 2048.
Proof.
  unfold find_msix. destruct (_ =? 0); [done|]. intros E. apply loop_some in E as (m & _ & _ & -> & _).
  apply msix_at_fields.
Qed.

Section keeps.
Context {H : Type} {hardware : Hardware H} {mapper : Mapper}.

Definition keeps {A} (I : devices H -> Prop) (m : DM H A) : Prop := forall s a s', I s -> m s = Ok (a, s') -> I s'.

Lemma DM_bind_ok {A B} (m : DM H A) (f : A -> DM H B) s b s' :
  (m ≫= f) s = Ok (b, s') <-> exists a s1, m s = Ok (a, s1) /\ f a s1 = Ok (b, s').
Proof using Type.
  unfold mbind, DM_bind. destruct (m s) as [[a s1]|]; split.
  - eauto.
  - intros (a' & s1' & [= <- <-] & E). exact E.
  - discriminate.
  - by intros (? & ? & ? & _).
Qed.

Lemma lift_ok {A} (m : M A) (s : devices H) a s' :
  lift m s = Ok (a, s') <-> exists k, m (v_kernel s) = Ok (a, k) /\ s' = set_kernel s k.
Proof using Type.
  unfold lift. destruct (m (v_kernel s)) as [[x k]|]; split.
  - intros [= <- <-]. eauto.
  - by intros (? & [= <- <-] & ->).
  - done.
  - by intros (? & ? & _).
Qed.

Context (I : devices H -> Prop).

Lemma keeps_ret {A} (a : A) : keeps I (mret a).
Proof using Type. by intros s b s' Hs [= <- <-]. Qed.

Lemma keeps_dgets {A} (f : devices H -> A) : keeps I (dgets f).
Proof using Type. by intros s b s' Hs [= <- <-]. Qed.

Lemma keeps_bind {A B} (m : DM H A) (f : A -> DM H B) : keeps I m -> (forall a, keeps I (f a)) -> keeps I (m ≫= f).
Proof using Type.
  intros Hm Hf s b s' Hs E. apply DM_bind_ok in E as (a & s1 & E1 & E2). exact (Hf a s1 b s' (Hm s a s1 Hs E1) E2).
Qed.

Lemma keeps_dloop n i body : (forall j, i <= j < i + Z.of_nat n -> keeps I (body j)) -> keeps I (dloop n i body).
Proof using Type.
  revert i. induction n as [|n IH]; intros i Hb; cbn [dloop]; [apply keeps_ret|].
  apply keeps_bind; [apply Hb; lia|]. intros _. apply IH. intros j Hj. apply Hb. lia.
Qed.

(** Invariants that say nothing of memory, of the local APIC and of the hardware. *)
Context (I_mem : forall s k, I s -> memory_only (v_kernel s) k -> I (set_kernel s k))
        (I_hw : forall s l h, I s -> I (set_hw (set_lapic s l) h)).

Lemma keeps_lift_memory {A} (m : M A) : transforms memory_only m -> keeps I (lift m).
Proof using I_mem.
  intros Hm s a s' Hs E. apply lift_ok in E as (k & Ek & ->). apply I_mem; [done|]. exact (Hm _ _ _ Ek).
Qed.

Lemma keeps_zero_memory p n : keeps I (zero_memory p n).
Proof using I_mem. apply keeps_lift_memory, (memory_modify (fun k x => if (p <=? x) && (x <? p + n) then 0 else k_mem k x)). Qed.

Lemma keeps_write_memory p l : keeps I (write_memory p l).
Proof using I_mem. apply keeps_lift_memory, (memory_modify (fun k => copy_to p l (k_mem k))). Qed.

Lemma keeps_map_user_page d v p perm : keeps I (lift (map_user_page d v p perm)).
Proof using I_mem. apply keeps_lift_memory, memory_map_user_page. Qed.

Lemma keeps_map_mmio d v p : keeps I (lift (map_mmio d v p)).
Proof using I_mem. apply keeps_lift_memory, memory_map_mmio. Qed.

Lemma keeps_on_frames {A} (f : frames -> A * frames) : keeps I (lift (on_frames f)).
Proof using I_mem. apply keeps_lift_memory, memory_frames. Qed.

Lemma keeps_apic_init : keeps I apic_init_dm.
Proof using I_hw.
  intros s a s' Hs E. unfold apic_init_dm in E. destruct (apic_init _ _) as [[o l] h]. injection E as <- <-. by apply I_hw.
Qed.

Lemma keeps_place_table domain bus dev func want bar_pages cap : keeps I (place_table domain bus dev func want bar_pages cap).
Proof using I_mem.
  unfold place_table. cbv zeta. destruct (_ =? 0); [destruct (_ <? _); apply keeps_ret|].
  apply keeps_bind; [apply keeps_dgets|]. intros [bar|]; [|apply keeps_ret].
  apply keeps_bind; [|intros _; apply keeps_ret]. apply keeps_dloop. intros j _. apply keeps_map_mmio.
Qed.

Lemma keeps_map_zero_cfg d v : keeps I (map_zero_cfg d v).
Proof using I_mem.
  unfold map_zero_cfg. apply keeps_bind; [apply keeps_on_frames|]. intros [p|]; [|apply keeps_ret].
  apply keeps_bind; [apply keeps_zero_memory|]. intros _. apply keeps_map_user_page.
Qed.

(** The part of a grant after the interrupt set-up, for invariants that survive the binding and the
    capability. *)
Lemma keeps_grant_at req cfg bar dma multi :
  keeps I (setup_msix (r_domain req) (r_bus req) (r_dev req) (r_func req) (r_msix_vectors req) (r_bar_pages req)) ->
  (forall b, e_domain b = r_domain req -> e_bus b = r_bus req -> e_dev b = r_dev req -> e_func b = r_func req ->
     keeps I (if multi : bool then bind_push b else bind b)) ->
  (forall a, keeps I (dgrant (r_domain req) (Mmio a))) ->
  keeps I (grant_at req cfg bar dma multi).
Proof using I_mem.
  intros Hm Hb Hg. unfold grant_at. cbv zeta. apply keeps_bind; [exact Hm|]. intros msix.
  apply keeps_bind; [apply keeps_on_frames|]. intros [p|]; [|apply keeps_ret].
  apply keeps_bind; [apply keeps_zero_memory|]. intros _.
  apply keeps_bind; [apply keeps_on_frames|]. intros [c|]; [|apply keeps_ret].
  apply keeps_bind; [apply keeps_write_memory|]. intros _.
  apply keeps_bind; [by apply Hb|]. intros _.
  apply keeps_bind; [apply keeps_map_user_page|]. intros _.
  apply keeps_bind; [apply keeps_dloop; intros; apply keeps_map_mmio|]. intros _.
  apply keeps_bind; [apply keeps_dloop; intros; apply keeps_map_user_page|]. intros _.
  apply keeps_bind; [apply Hg|]. intros _. apply keeps_ret.
Qed.

(** All of boot, for invariants that every grant to a driver domain keeps. *)
Section boot.
Context (doms : boot_domains) (ds : list PciDevice).
Context (kind : Z -> PciDevice -> Prop).
Context (I_grant : forall req cfg bar dma multi d, d ∈ ds -> kind (r_domain req) d ->
           r_bus req = p_bus d -> r_dev req = p_dev d -> r_func req = p_func d ->
           0 <= r_msix_vectors req < 2^32 -> keeps I (grant_at req cfg bar dma multi)).
Context (I_cap : forall d c, match c with Cap.Irq _ => False | _ => True end -> keeps I (dgrant d c)).

Lemma keeps_assign matches index domain bar_pages dma_pages vectors h :
  (forall d, matches d = true -> kind domain d) -> 0 <= vectors < 2^32 ->
  keeps I (assign (find_with matches index ds h) domain bar_pages dma_pages vectors).
Proof using I_mem I_grant.
  intros Hk Hv. destruct (find_with matches index ds h) as [[[[b dv] f] bar]|] eqn:E; cbn [assign].
  - apply find_with_spec in E as (d & Hd & Hm & <- & <- & <- & _).
    apply keeps_bind; [|intros _; apply keeps_ret]. apply (I_grant _ _ _ _ _ d); cbn; auto.
  - apply keeps_bind; [apply keeps_map_zero_cfg|]. intros _. apply keeps_ret.
Qed.

Lemma keeps_grant_xhci l n :
  (forall d, d ∈ l -> d ∈ ds) -> (forall d, is_xhci d = true -> kind (xhci_domain doms) d) -> keeps I (grant_xhci doms l n).
Proof using I_grant.
  intros Hl Hk. revert n. induction l as [|d l IH]; intros n; cbn [grant_xhci]; [apply keeps_ret|].
  assert (Hl' : forall x, x ∈ l -> x ∈ ds) by (intros x Hx; by apply Hl, list_elem_of_further).
  destruct (is_xhci d) eqn:Ex; cbn [negb]; [|by apply IH]. apply keeps_bind; [apply keeps_dgets|].
  intros [bar|]; [|by apply IH]. destruct (_ <=? _); [apply keeps_ret|].
  apply keeps_bind; [|intros _; by apply IH]. apply (I_grant _ _ _ _ _ d); cbn; auto; [|lia]. apply Hl, list_elem_of_here.
Qed.

Lemma keeps_publish_nic_table d es : keeps I (publish_nic_table d es).
Proof using I_mem.
  unfold publish_nic_table. apply keeps_bind; [apply keeps_on_frames|]. intros [p|]; [|apply keeps_ret].
  apply keeps_bind; [apply keeps_write_memory|]. intros _. apply keeps_bind; [apply keeps_map_user_page|]. intros _. apply keeps_ret.
Qed.

Lemma keeps_boot_devices :
  (forall d, is_nvme d = true -> kind (block_domain doms) d) ->
  (forall d, is_virtio_net d = true -> kind (net_domain doms) d) ->
  (forall d, is_e1000e d = true -> kind (e1000e_domain doms) d) ->
  (forall d, is_e1000 d = true -> kind (e1000_domain doms) d) ->
  (forall d, is_virtio_blk d = true -> kind (blk2_domain doms) d) ->
  (forall d, is_ahci d = true -> kind (ahci_domain doms) d) ->
  (forall d, is_xhci d = true -> kind (xhci_domain doms) d) ->
  keeps I (boot_devices doms ds).
Proof using I_mem I_grant I_cap.
  intros K1 K2 K3 K4 K5 K6 K7. unfold boot_devices.
  assert (Hfind : forall {B} matches index domain bp dp v (f : bool -> DM H B),
    (forall d, matches d = true -> kind domain d) -> 0 <= v < 2^32 -> (forall b, keeps I (f b)) ->
    keeps I (o ← dgets (fun s => find_with matches index ds (v_hw s)); b ← assign o domain bp dp v; f b)).
  { intros B matches index domain bp dp v f Hk Hv Hf s a s' Hs E. apply DM_bind_ok in E as (o & s1 & [= <- <-] & E).
    revert E. apply (keeps_bind (assign _ _ _ _ _)); [by apply keeps_assign | exact Hf | exact Hs]. }
  do 4 (apply Hfind; [done | lia | intros ?]).
  apply keeps_bind; [apply keeps_publish_nic_table | intros _].
  do 2 (apply Hfind; [done | lia | intros ?]).
  do 3 (apply keeps_bind; [by apply I_cap | intros _]).
  apply keeps_bind; [by apply keeps_grant_xhci|]. intros n. destruct (_ <? _); [|apply keeps_ret].
  unfold grant_empty_multi_from. apply keeps_dloop. intros j _. apply keeps_map_zero_cfg.
Qed.

End boot.
End keeps.

(** ** Interrupt vectors *)

Section vectors.
Context {H : Type} {hardware : Hardware H} {mapper : Mapper}.

Definition msi_vector (v : Z) : Prop := MSI_VECTOR_BASE <= v < MSI_VECTOR_BASE + MSI_VECTOR_COUNT.
Definition holds (s : devices H) (d v : Z) : Prop := held (k_caps (v_kernel s)) d (Cap.Irq v).

(** Vectors below [lo] have at most one holder; those handed out above it belong to [d0]. *)
Record segment (d0 lo : Z) (s : devices H) : Prop := {
  seg_next : MSI_VECTOR_BASE <= lo <= MSI_NEXT s /\ MSI_NEXT s <= MSI_VECTOR_BASE + MSI_VECTOR_COUNT;
  seg_held : forall d v, msi_vector v -> holds s d v -> v < lo \/ (d = d0 /\ v < MSI_NEXT s);
  seg_one : forall d1 d2 v, msi_vector v -> v < lo -> holds s d1 v -> holds s d2 v -> d1 = d2;
}.

(** The allocation cursor is in the segment, nothing at or above it is held, and no vector has two
    holders. *)
Record exclusive (s : devices H) : Prop := {
  ex_next : MSI_VECTOR_BASE <= MSI_NEXT s <= MSI_VECTOR_BASE + MSI_VECTOR_COUNT;
  ex_held : forall d v, msi_vector v -> holds s d v -> v < MSI_NEXT s;
  ex_one : forall d1 d2 v, msi_vector v -> holds s d1 v -> holds s d2 v -> d1 = d2;
}.

Lemma segment_exclusive d0 lo s : segment d0 lo s -> exclusive s.
Proof using Type.
  intros [Hn Hh Ho]. split.
  - lia.
  - intros d v Hv Hd. destruct (Hh d v Hv Hd) as [|[_ ?]]; lia.
  - intros d1 d2 v Hv H1 H2. destruct (Z.lt_ge_cases v lo) as [Hlt|]; [by apply (Ho d1 d2 v)|].
    destruct (Hh d1 v Hv H1) as [|[-> _]]; [lia|]. destruct (Hh d2 v Hv H2) as [|[-> _]]; [lia | done].
Qed.

Lemma exclusive_caps s s' :
  k_caps (v_kernel s') = k_caps (v_kernel s) -> MSI_NEXT s' = MSI_NEXT s -> exclusive s -> exclusive s'.
Proof using Type. intros E1 E2 [Hn Hh Ho]. split; unfold holds in *; rewrite ?E1, ?E2; auto. Qed.

Lemma exclusive_mem s k : exclusive s -> memory_only (v_kernel s) k -> exclusive (set_kernel s k).
Proof using Type. intros Hs (m & f & ->). revert Hs. by apply exclusive_caps. Qed.

Lemma exclusive_hw s l h : exclusive s -> exclusive (set_hw (set_lapic s l) h).
Proof using Type. by apply exclusive_caps. Qed.

Lemma dgrant_ok (d : Z) c (s : devices H) b s' :
  dgrant d c s = Ok (b, s') ->
  exists x, Cap.grant d c (k_caps (v_kernel s)) = Ok (b, x) /\ s' = set_kernel s (set_caps (v_kernel s) x).
Proof using Type.
  intros E. apply lift_ok in E as (k & E & ->). unfold on_caps_res in E.
  destruct (Cap.grant d c (k_caps (v_kernel s))) as [[b' x]|]; [|done]. injection E as <- <-. eauto.
Qed.

Lemma dgrant_holds d c (s : devices H) b s' d' v :
  dgrant d c s = Ok (b, s') -> holds s' d' v -> holds s d' v \/ (d' = d /\ Cap.Irq v = c).
Proof using Type.
  intros E Hd. apply dgrant_ok in E as (x & E & ->). apply grant_spec in E as [_ E]. unfold holds in *. cbn in Hd.
  apply E in Hd. tauto.
Qed.

Lemma exclusive_dgrant d c : match c with Cap.Irq _ => False | _ => True end -> keeps exclusive (dgrant (H := H) d c).
Proof using Type.
  intros Hc s b s' [Hn Hh Ho] E.
  assert (Hold : forall d' v, holds s' d' v -> holds s d' v).
  { intros d' v Hd. destruct (dgrant_holds d c s b s' d' v E Hd) as [|[-> <-]]; done. }
  apply dgrant_ok in E as (x & _ & ->). split; [exact Hn | |]; eauto.
Qed.

Lemma segment_grant d0 lo v :
  lo <= v -> keeps (fun s => segment d0 lo s /\ v < MSI_NEXT s)
               (_ ← dgrant (H := H) d0 (Cap.Irq (w8 v)); mret tt).
Proof using Type.
  intros Hlo s a s' [[Hn Hh Ho] Hv] E. apply DM_bind_ok in E as (b & s1 & E & [= <- <-]).
  assert (Hw : w8 v = v) by (unfold w8, MSI_VECTOR_BASE, MSI_VECTOR_COUNT in *; apply Z.mod_small; lia).
  rewrite Hw in E.
  assert (Hold : forall d' x, holds s1 d' x -> holds s d' x \/ (d' = d0 /\ x = v)).
  { intros d' x Hd. destruct (dgrant_holds _ _ s b s1 d' x E Hd) as [|[-> [= ->]]]; auto. }
  apply dgrant_ok in E as (x & _ & ->). split; [|exact Hv]. split; [exact Hn | |].
  - intros d y Hy Hd. destruct (Hold d y Hd) as [|[-> ->]]; [by apply (Hh d y) | right; split; [done | exact Hv]].
  - intros d1 d2 y Hy Hlt H1 H2. destruct (Hold d1 y H1) as [|[_ ->]]; [|lia].
    destruct (Hold d2 y H2) as [|[_ ->]]; [|lia]. eauto.
Qed.

(** The cursor never wraps: a count the device's table can hold modulo 2^16 is below 2^32 minus
    the end of the segment. *)
Lemma exclusive_setup d bus dev func want bar_pages :
  0 <= want < 2^32 -> keeps exclusive (setup_msix d bus dev func want bar_pages).
Proof using Type.
  intros Hw. unfold setup_msix. destruct (Z.eqb_spec want 0) as [|Hnz]; [apply keeps_ret|].
  intros s a s' Hs E. apply DM_bind_ok in E as (o & s1 & [= <- <-] & E).
  destruct (find_msix bus dev func (v_hw s)) as [cap|] eqn:Ec; [|by injection E as <- <-].
  apply find_msix_size in Ec. destruct (Z.ltb_spec (table_size cap) (w16 want)) as [|Hsz]; [by injection E as <- <-|].
  apply DM_bind_ok in E as (t & s1 & E1 & E).
  apply (keeps_place_table exclusive exclusive_mem) in E1; [|done].
  destruct t as [t|]; [|by injection E as <- <-]. clear Hs s. unfold prepare_vectors in E.
  apply DM_bind_ok in E as (id & s2 & E2 & E). apply (keeps_apic_init exclusive exclusive_hw) in E2; [|done].
  destruct id as [id|]; [|by injection E as <- <-].
  apply DM_bind_ok in E as (o & s3 & E3 & E). unfold alloc_msi_vectors in E3.
  rewrite (proj2 (Z.eqb_neq want 0)) in E3 by done. cbv [mbind DM_bind dgets dmodify mret DM_ret] in E3.
  destruct (Z.ltb_spec (MSI_VECTOR_BASE + MSI_VECTOR_COUNT) (w32 (MSI_NEXT s2 + want))) as [|Hend].
  { injection E3 as <- <-. by injection E as <- <-. }
  injection E3 as <- <-. destruct E2 as [Hn Hh Ho]. clear E1 s1.
  assert (Hstop : w32 (MSI_NEXT s2 + want) = MSI_NEXT s2 + want).
  { unfold w32, w16, MSI_VECTOR_BASE, MSI_VECTOR_COUNT in *. apply Z.mod_small. split; [lia|].
    destruct (Z.lt_ge_cases want (2^32 - 2^16)); [lia|].
    assert (want mod 2^16 = want - (2^32 - 2^16)).
    { replace want with (want - (2^32 - 2^16) + 65535 * 2^16) at 1 by lia. rewrite Z.mod_add by lia. apply Z.mod_small. lia. }
    lia. }
  rewrite Hstop in *. set (v := MSI_NEXT s2) in *.
  do 2 (apply DM_bind_ok in E as (? & ? & [= <- <-] & E)).
  apply DM_bind_ok in E as (? & s4 & E4 & E). apply DM_bind_ok in E as (? & ? & [= <- <-] & [= <- <-]).
  assert (Hk : segment d v s4 /\ MSI_NEXT s4 = v + want); [|exact (segment_exclusive d v s4 (proj1 Hk))].
  revert E4. apply (keeps_dloop (fun s => segment d v s /\ MSI_NEXT s = v + want)).
  - intros j Hj s5 [] s6 [Hs En] E. rewrite Z2Nat.id in Hj by lia.
    destruct (segment_grant d v (v + j) ltac:(lia) s5 tt s6) as [Hs' Hlt]; [split; [done | lia] | exact E|].
    split; [done|]. apply DM_bind_ok in E as (b & s7 & E & [= <-]). apply dgrant_ok in E as (? & _ & ->). exact En.
  - split; [|done]. split; [cbn; lia | |].
    + intros d' y Hy Hd. left. exact (Hh d' y Hy Hd).
    + intros d1 d2 y Hy _. exact (Ho d1 d2 y Hy).
Qed.

Lemma exclusive_grant_at req cfg bar dma multi :
  0 <= r_msix_vectors req < 2^32 -> keeps exclusive (grant_at req cfg bar dma multi).
Proof using Type.
  intros Hv. apply keeps_grant_at; [exact exclusive_mem | by apply exclusive_setup | | intros a; by apply exclusive_dgrant].
  intros b _ _ _ _. destruct multi; intros s [] s' Hs [= <-]; revert Hs; by apply exclusive_caps.
Qed.

(** C15. Message-signalled interrupt vectors are exclusive. Whatever devices are present and however
    their configuration spaces look, after the device part of boot every vector of the segment
    0x50..0x5F is held by at most one domain, and only vectors below the allocation cursor are held
    at all, so that the next grant is disjoint too; the cursor cannot wrap around. *)
Theorem msi_vectors_exclusive (doms : boot_domains) ds s s' :
  exclusive s -> boot_devices doms ds s = Ok (tt, s') ->
  exclusive s' /\
  (forall req b s'', 0 <= r_msix_vectors req < 2^32 -> device_grant req s' = Ok (b, s'') -> exclusive s'').
Proof using Type.
  intros Hs E. assert (Hs' : exclusive s').
  { revert Hs E. apply (keeps_boot_devices exclusive exclusive_mem doms ds (fun _ _ => True)); try done.
    - intros req cfg bar dma multi d _ _ _ _ _ Hv. by apply exclusive_grant_at.
    - intros d c Hc. by apply exclusive_dgrant. }
  split; [done|]. intros req b s'' Hv. by apply exclusive_grant_at.
Qed.

End vectors.

(** ** Drivers are confined to their devices *)

Section confined.
Context {H : Type} {hardware : Hardware H} {mapper : Mapper}.
Context (doms : boot_domains) (ds : list PciDevice).

(** The kind of device each driver domain is there for. *)
Definition driver_for (me : Z) (d : PciDevice) : Prop :=
  (me = block_domain doms /\ is_nvme d = true) \/ (me = net_domain doms /\ is_virtio_net d = true) \/
  (me = e1000e_domain doms /\ is_e1000e d = true) \/ (me = e1000_domain doms /\ is_e1000 d = true) \/
  (me = blk2_domain doms /\ is_virtio_blk d = true) \/ (me = ahci_domain doms /\ is_ahci d = true) \/
  (me = xhci_domain doms /\ is_xhci d = true).

Definition own (me bus dev func : Z) : Prop :=
  exists d, d ∈ ds /\ driver_for me d /\ p_bus d = bus /\ p_dev d = dev /\ p_func d = func.

(** Every entry of the two tables names a device of its domain's kind. *)
Definition provenance (s : devices H) : Prop :=
  (forall e, e ∈ BINDINGS s -> own (e_domain e) (e_bus e) (e_dev e) (e_func e)) /\
  (forall p, p ∈ MSIX_PENDING s -> own (m_domain p) (m_bus p) (m_dev p) (m_func p)).

Lemma provenance_mem s k : provenance s -> memory_only (v_kernel s) k -> provenance (set_kernel s k).
Proof using Type. done. Qed.

Lemma provenance_hw s l h : provenance s -> provenance (set_hw (set_lapic s l) h).
Proof using Type. done. Qed.

Lemma provenance_dgrant d c : keeps provenance (dgrant (H := H) d c).
Proof using Type. intros s b s' Hs E. apply dgrant_ok in E as (x & _ & ->). exact Hs. Qed.

Lemma elem_of_bind_in b l e : e ∈ bind_in b l -> e = b \/ e ∈ l.
Proof using Type.
  induction l as [|x l IH]; cbn [bind_in]; [by intros ->%list_elem_of_singleton; left|].
  destruct (_ =? _).
  - intros [->|?]%elem_of_cons; [by left | right; by apply list_elem_of_further].
  - intros [->|He]%elem_of_cons; [right; apply list_elem_of_here|].
    destruct (IH He) as [->|]; [by left | right; by apply list_elem_of_further].
Qed.

Lemma provenance_setup d bus dev func want bar_pages :
  own d bus dev func -> keeps provenance (setup_msix d bus dev func want bar_pages).
Proof using Type.
  intros Ho. unfold setup_msix. destruct (_ =? 0); [apply keeps_ret|]. apply keeps_bind; [apply keeps_dgets|].
  intros [cap|]; [|apply keeps_ret]. destruct (_ <? _); [apply keeps_ret|].
  apply keeps_bind; [apply (keeps_place_table _ provenance_mem)|]. intros [t|]; [|apply keeps_ret]. unfold prepare_vectors.
  apply keeps_bind; [apply (keeps_apic_init _ provenance_hw)|]. intros [id|]; [|apply keeps_ret].
  apply keeps_bind.
  { intros s o s' Hs E. unfold alloc_msi_vectors in E. destruct (_ =? 0); [by injection E as <- <-|].
    cbv [mbind DM_bind dgets dmodify mret DM_ret] in E. destruct (_ <? _); injection E as <- <-; exact Hs. }
  intros [v|]; [|apply keeps_ret]. apply keeps_bind; [by intros s [] s' Hs [= <-]|]. intros _.
  apply keeps_bind.
  { intros s [] s' [Hb Hp] [= <-]. split; [exact Hb|]. cbn. intros p [?| ->%list_elem_of_singleton]%elem_of_app; auto. }
  intros _. apply keeps_bind; [|intros _; apply keeps_bind; [apply keeps_dgets | intros; apply keeps_ret]].
  apply keeps_dloop. intros j _. apply keeps_bind; [apply provenance_dgrant | intros _; apply keeps_ret].
Qed.

Lemma provenance_grant_at req cfg bar dma multi :
  own (r_domain req) (r_bus req) (r_dev req) (r_func req) -> keeps provenance (grant_at req cfg bar dma multi).
Proof using Type.
  intros Ho. apply keeps_grant_at; [exact provenance_mem | by apply provenance_setup | | intros a; apply provenance_dgrant].
  intros b E1 E2 E3 E4.
  assert (Hb : own (e_domain b) (e_bus b) (e_dev b) (e_func b)) by by rewrite E1, E2, E3, E4.
  destruct multi; intros s [] s' [Hs Hp] [= <-]; (split; [|exact Hp]); cbn.
  - intros e [?| ->%list_elem_of_singleton]%elem_of_app; auto.
  - intros e [->|?]%elem_of_bind_in; auto.
Qed.

Lemma provenance_boot s0 s :
  BINDINGS s0 = [] -> MSIX_PENDING s0 = [] -> boot_devices doms ds s0 = Ok (tt, s) -> provenance s.
Proof using Type.
  intros Hb Hp. assert (Hs : provenance s0).
  { split; [rewrite Hb | rewrite Hp]; by intros ? ?%elem_of_nil. }
  revert Hs. apply (keeps_boot_devices provenance provenance_mem doms ds driver_for).
  - intros req cfg bar dma multi d Hd Hk E1 E2 E3 _. apply provenance_grant_at. exists d. auto.
  - intros d c _. apply provenance_dgrant.
  - unfold driver_for. tauto.
  - unfold driver_for. tauto.
  - unfold driver_for. tauto.
  - unfold driver_for. tauto.
  - unfold driver_for. tauto.
  - unfold driver_for. tauto.
  - unfold driver_for. tauto.
Qed.

Lemma binding_own me s e :
  provenance s -> binding_of me (BINDINGS s) = Some e -> own me (e_bus e) (e_dev e) (e_func e).
Proof using Type.
  intros [Hb _] E. apply find_some in E as [Hin Hd]. apply Z.eqb_eq in Hd. subst me. by apply Hb, list_elem_of_In.
Qed.

Definition result {A} (r : res (A * devices H)) : res A := match r with Ok (a, _) => Ok a | Panic => Panic end.

(** What SYS_PCI_INFO reads of the configuration space. *)
Lemma pci_info_reads table h3 h4 a1 a2 :
  (forall d off, d ∈ table -> off = 0x10 \/ off = 0x14 ->
     config_read_dword (p_bus d) (p_dev d) (p_func d) off h3 = config_read_dword (p_bus d) (p_dev d) (p_func d) off h4) ->
  syscall_pci_info table h3 a1 a2 = syscall_pci_info table h4 a1 a2.
Proof using Type.
  intros Hag. unfold syscall_pci_info. destruct (_ || _); [done|]. destruct (lookupZ table a1) as [d|] eqn:E; [|done].
  destruct (_ || _); [done|]. apply lookupZ_Some in E as [_ E]. apply list_elem_of_lookup_2 in E.
  assert (info_record d h3 = info_record d h4) as ->; [|done]. unfold info_record, read_bar. change (w8 (0x10 + w8 (0 * 4))) with 0x10. change (w8 (0x10 + 4)) with 0x14.
  cbv zeta. by rewrite (Hag d 0x10 E), (Hag d 0x14 E) by tauto.
Qed.

(** C12. Through the calls of the device module a driver reaches its own kind of device only. After
    the device part of boot, for a running domain [me] and any state of the rest of the kernel: what
    it learns from SYS_DEVICE_CONFIG_READ and SYS_DEVICE_INFO depends on the configuration space of
    devices of its own kind and of no other; SYS_MSIX_ENABLE is refused or is one write to the
    configuration space of such a device; and a domain that is no driver is refused by these calls
    and by SYS_DEVICE_GRANT. SYS_PCI_INFO is not confined: it shows any domain the identifiers, class
    and first register window of every enumerated device; of the configuration space it reads the two
    registers of that window only. *)
Theorem boot_devices_confined s0 s k h1 h2 me :
  BINDINGS s0 = [] -> MSIX_PENDING s0 = [] -> boot_devices doms ds s0 = Ok (tt, s) ->
  Sched.current_domain (k_sched k) = Ok me ->
  (forall d off, d ∈ ds -> driver_for me d ->
     config_read_dword (p_bus d) (p_dev d) (p_func d) off h1 = config_read_dword (p_bus d) (p_dev d) (p_func d) off h2) ->
  let at_hw h := set_hw (set_kernel s k) h in
  (forall a1, result (sys_device_config_read a1 (at_hw h1)) = result (sys_device_config_read a1 (at_hw h2)) /\
              result (syscall_info a1 (at_hw h1)) = result (syscall_info a1 (at_hw h2))) /\
  (sys_msix_enable (at_hw h1) = Ok (0, at_hw h1) \/
   exists d off v pend, d ∈ ds /\ driver_for me d /\
     sys_msix_enable (at_hw h1) =
     Ok (1, set_hw (set_msix_pending (at_hw h1) pend) (config_write_dword (p_bus d) (p_dev d) (p_func d) off v h1))) /\
  ((forall d, d ∈ ds -> ~ driver_for me d) -> forall a1,
     result (sys_device_config_read a1 (at_hw h1)) = Ok U64_MAX /\ result (syscall_info a1 (at_hw h1)) = Ok 0 /\
     result (syscall_grant a1 (at_hw h1)) = Ok 0 /\ result (sys_msix_enable (at_hw h1)) = Ok 0) /\
  (forall h3 h4 a1 a2,
     (forall d off, d ∈ publish ds -> off = 0x10 \/ off = 0x14 ->
        config_read_dword (p_bus d) (p_dev d) (p_func d) off h3 = config_read_dword (p_bus d) (p_dev d) (p_func d) off h4) ->
     syscall_pci_info (publish ds) h3 a1 a2 = syscall_pci_info (publish ds) h4 a1 a2).
Proof using Type.
  intros Hb Hp E Hme Hag at_hw. pose proof (provenance_boot s0 s Hb Hp E) as Hs.
  assert (Hcur : forall h, lift current_domain (at_hw h) = Ok (me, at_hw h)).
  { intros h. unfold lift, current_domain, try. cbn. by rewrite Hme. }
  assert (Hrun : forall {B} (f : Z -> DM H B) h, (lift current_domain ≫= f) (at_hw h) = f me (at_hw h)).
  { intros B f h. unfold mbind, DM_bind. by rewrite Hcur. }
  assert (Hread : forall h a1, result (sys_device_config_read a1 (at_hw h)) =
     Ok (default U64_MAX ((fun e => config_read_dword (e_bus e) (e_dev e) (e_func e) (w8 (w32 a1)) h) <$> binding_of me (BINDINGS s)))).
  { intros h a1. unfold sys_device_config_read, config_read, mbind, DM_bind. rewrite Hcur. cbn.
    by destruct (binding_of me (BINDINGS s)). }
  assert (Hown : forall e off, binding_of me (BINDINGS s) = Some e ->
     config_read_dword (e_bus e) (e_dev e) (e_func e) off h1 = config_read_dword (e_bus e) (e_dev e) (e_func e) off h2).
  { intros e off He. destruct (binding_own me s e Hs He) as (d & Hd & Hk & <- & <- & <-). by apply Hag. }
  split; [|split; [|split; [|intros h3 h4 a1 a2; apply pci_info_reads]]].
  - intros a1. split.
    + rewrite !Hread. destruct (binding_of me (BINDINGS s)) as [e|] eqn:He; [|done]. cbn. by rewrite (Hown e).
    + unfold syscall_info. rewrite !Hrun. cbn. destruct (binding_of me (BINDINGS s)) as [e|] eqn:He; [|done].
      by rewrite !(Hown e).
  - unfold sys_msix_enable, device_enable_msix, mbind, DM_bind. rewrite Hcur. cbn. destruct (position _ (MSIX_PENDING s)) as [i|] eqn:Ei; [|by left].
    apply position_Some in Ei as [(p & Hi & Hd) _]. rewrite Hi. right. apply Z.eqb_eq in Hd. subst me.
    destruct (proj2 Hs p (list_elem_of_lookup_2 _ _ _ Hi)) as (d & Hin & Hk & E1 & E2 & E3).
    rewrite <- E1, <- E2, <- E3. eexists d, _, _, _. split; [done|]. split; [done|]. reflexivity.
  - intros Hno a1.
    assert (He : binding_of me (BINDINGS s) = None).
    { destruct (binding_of me (BINDINGS s)) as [e|] eqn:He; [|done].
      destruct (binding_own me s e Hs He) as (d & Hd & Hk & _). by destruct (Hno d Hd). }
    split; [by rewrite Hread, He|]. split; [unfold syscall_info; rewrite Hrun; cbn; by rewrite He|].
    split.
    { unfold syscall_grant. rewrite Hrun. unfold mbind, DM_bind. cbn. by rewrite He. }
    unfold sys_msix_enable, device_enable_msix, mbind, DM_bind. rewrite Hcur. cbn. destruct (position _ (MSIX_PENDING s)) as [i|] eqn:Ei; [|done].
    apply position_Some in Ei as [(p & Hi & Hd) _]. apply Z.eqb_eq in Hd. subst me.
    destruct (proj2 Hs p (list_elem_of_lookup_2 _ _ _ Hi)) as (d & Hin & Hk & _). by destruct (Hno d Hin).
Qed.

End confined.

(** ** A machine with an NVMe controller, for the witnesses *)

(** Configuration space by address; absent registers read as ones, as an absent device does. *)
Record sim_hw : Type := mk_sim { sim_cfg : list (Z * Z) }.

Definition sim_lookup (a : Z) (l : list (Z * Z)) : Z :=
  match find (fun x => fst x =? a) l with Some x => snd x | None => 0xFFFFFFFF end.

#[export] Instance sim_hardware : Hardware sim_hw := {
  cfg_read a h := sim_lookup a (sim_cfg h);
  cfg_write a v h := mk_sim ((a, v) :: sim_cfg h);
  rdmsr _ _ := 0xFEE00900;
  wrmsr _ _ h := h;
  mmio_read _ _ := 0;
  mmio_write _ _ h := h;
}.

(** Device 0:4.0, class 01:08:02, a 64-bit BAR0 above 4 GiB, MSI-X with 17 entries in BAR0. *)
Definition nvme_cfg : list (Z * Z) :=
  (fun x => (config_addr 0 4 0 (fst x), snd x)) <$>
  [(0x00, 0x00101B36); (0x04, 0x00100007); (0x08, 0x01080202); (0x0C, 0x00000000); (0x10, 0x00000004); (0x14, 0x00000008);
   (0x34, 0x00000040); (0x40, 0x00104011); (0x44, 0x00002000); (0x48, 0x00003000)].

Definition sim_machine : sim_hw := mk_sim nvme_cfg.

Definition sim_doms : boot_domains := mk_boot_domains 0 1 2 3 4 5 6 7.

Definition sim_kernel : kernel :=
  set_frames (set_domains (set_caps sample_kernel (Cap.init 8))
    ((fun i => Some (mk_domain i (0x1000 * (1 + i)))) <$> seqZ 0 8)) (sample_frames (seqZ 16 120)).

Definition sim_devices : devices sim_hw := mk_devices sim_kernel [] MSI_VECTOR_BASE [] (mk_lapic 0 0) sim_machine.

Example enumerate_sim : enumerate sim_machine = [mk_pci 0 4 0 0x1B36 0x0010 0x01 0x08 0x02].
Proof. vm_compute. reflexivity. Qed.

Definition sim_nvme : PciDevice := mk_pci 0 4 0 0x1B36 0x0010 0x01 0x08 0x02.

Notation sim_boot := (boot_devices (mapper := soft_mapper) sim_doms [sim_nvme] sim_devices).

(** The run succeeds: the NVMe driver (domain 0) holds vectors 0x50 to 0x52 and is bound. *)
Lemma sim_boot_runs :
  match sim_boot with
  | Ok (_, s) =>
      (MSI_NEXT s =? 0x53) && match has 0 (Cap.Irq 0x52) (k_caps (v_kernel s)) with Ok b => b | Panic => false end &&
      is_some (binding_of 0 (BINDINGS s)) && Nat.eqb (length (MSIX_PENDING s)) 1
  | Panic => false
  end = true.
Proof. vm_cast_no_check (eq_refl true). Qed.

Lemma held_init n d c : ~ held (Cap.init n) d c.
Proof.
  intros (slots & i & Hd & Hi). apply lookupZ_Some in Hd as [_ Hd]. unfold Cap.init in Hd. cbn [CAP_TABLE] in Hd.
  apply lookup_replicate in Hd as [-> _]. unfold empty_caps in Hi. by apply lookup_replicate in Hi as [? _].
Qed.

Lemma sim_devices_exclusive : exclusive sim_devices.
Proof.
  split.
  - unfold MSI_VECTOR_BASE, MSI_VECTOR_COUNT. cbn. unfold MSI_VECTOR_BASE. lia.
  - intros d v _ Hd. by apply held_init in Hd.
  - intros d1 d2 v _ Hd. by apply held_init in Hd.
Qed.

Lemma sim_boot_ok : exists s, sim_boot = Ok (tt, s) /\ holds s 0 0x52.
Proof.
  pose proof sim_boot_runs as R. destruct sim_boot as [[[] s]|]; [|discriminate R]. exists s. split; [reflexivity|].
  apply andb_prop in R as [R _]. apply andb_prop in R as [R _]. apply andb_prop in R as [_ R].
  destruct (has 0 (Cap.Irq 0x52) (k_caps (v_kernel s))) as [b|] eqn:Eh; [|discriminate R]. subst b.
  exact (proj1 (has_spec _ _ _ _ Eh) eq_refl).
Qed.

Lemma msi_vectors_exclusive_witness : exists s', sim_boot = Ok (tt, s') /\ exclusive s' /\ holds s' 0 0x52.
Proof.
  destruct sim_boot_ok as (s' & E & Hh). exists s'. split; [exact E|]. split; [|exact Hh].
  exact (proj1 (msi_vectors_exclusive (mapper := soft_mapper) sim_doms [sim_nvme] sim_devices s' sim_devices_exclusive E)).
Defined.

(** The same machine with another device added. *)
Definition sim_machine2 : sim_hw := mk_sim ((config_addr 1 0 0 0, 0x10D38086) :: nvme_cfg).

Lemma boot_devices_confined_witness :
  exists s, sim_boot = Ok (tt, s) /\
    result (sys_device_config_read 0x10 (set_hw (set_kernel s sample_kernel) sim_machine)) =
    result (sys_device_config_read 0x10 (set_hw (set_kernel s sample_kernel) sim_machine2)).
Proof.
  destruct sim_boot_ok as (s & E & _). exists s. split; [exact E|].
  refine (proj1 (proj1 (boot_devices_confined (mapper := soft_mapper) sim_doms [sim_nvme] sim_devices s sample_kernel
    sim_machine sim_machine2 0 eq_refl eq_refl E _ _) 0x10)).
  - vm_compute. reflexivity.
  - intros d off ->%list_elem_of_singleton _. unfold config_read_dword. cbn [p_bus p_dev p_func sim_nvme cfg_read sim_hardware].
    unfold sim_lookup, sim_machine2. cbn [sim_cfg find fst].
    destruct (Z.eqb_spec (config_addr 1 0 0 0) (config_addr 0 4 0 off)) as [Ea|]; [|reflexivity].
    apply config_addr_inj in Ea as [Ea _]; [discriminate Ea | lia..].
Defined.

(** ** The driver library (user/libdevice) *)

Module Driver.

Definition DEVICE_CFG_VADDR : Z := 0x0000008000810000.
Definition DEVICE_MULTI_CFG_VADDR : Z := 0x0000008000600000.
Definition DEVICE_MULTI_SLOTS : Z := 16.
Definition DEVICE_GRANT_MAGIC : Z := 0x004445564F532131.

(** [ptr::read_volatile] of the library's own [DeviceGrant], in the memory of the domain. *)
Definition read_grant (p : Z) (m : mem) : DeviceGrant :=
  let b := slice_at p 88 m in
  mk_device_grant (field 0 8 b) (field 8 8 b) (field 16 8 b) (field 24 8 b) (field 32 8 b) (field 40 8 b) (field 48 8 b)
    (field 56 4 b) (field 60 4 b) (field 64 4 b) (field 68 4 b) (field 72 4 b) (field 76 4 b) (field 80 8 b).

Definition zeroed : DeviceGrant := mk_device_grant 0 0 0 0 0 0 0 0 0 0 0 0 0 0.

(** [page] is what the system call returned. *)
Definition load (page : Z) (m : mem) : DeviceGrant := if page =? 0 then zeroed else read_grant page m.

Definition is_valid (g : DeviceGrant) : bool := g_magic g =? DEVICE_GRANT_MAGIC.

Definition load_at (slot : Z) (m : mem) : DeviceGrant :=
  if DEVICE_MULTI_SLOTS <=? slot then zeroed else read_grant (DEVICE_MULTI_CFG_VADDR + slot * 4096) m.

Definition page_size_of (g : DeviceGrant) : Z := if g_page_size g =? 0 then 4096 else g_page_size g.

(** The four 32-bit stores of [write_table_entry]: address and value. *)
Definition write_table_entry (g : DeviceGrant) (entry vector : Z) : list (Z * Z) :=
  let base := w64 (g_msix_table_vaddr g + g_msix_table_offset g + w64 (entry * 16)) in
  [(base, g_msix_msg_addr g); (w64 (base + 4), 0); (w64 (base + 8), w32 vector); (w64 (base + 12), 0)].

End Driver.

Record grant_fits (g : DeviceGrant) : Prop := {
  fits64 : Forall is_u64 [g_magic g; g_bar_paddr g; g_bar_vaddr g; g_bar_bytes g; g_dma_paddr g; g_dma_vaddr g; g_dma_bytes g;
                          g_msix_table_vaddr g];
  fits32 : Forall (fun v => 0 <= v < 2^32)
             [g_msix_vector_base g; g_msix_vector_count g; g_msix_table_offset g; g_msix_msg_addr g; g_page_size g; g_reserved g];
}.

Lemma u64_le v : is_u64 v -> from_le (to_le 8 v) = v.
Proof. intros Hv. apply from_to_le. exact Hv. Qed.

Lemma u32_le v : 0 <= v < 2^32 -> from_le (to_le 4 v) = v.
Proof. intros Hv. apply from_to_le. exact Hv. Qed.

(** The descriptor the kernel writes is the descriptor the driver library reads: the two crates
    agree on the layout, on the addresses and on the magic number, and a cleared page is taken for
    the absence of a device. *)
Theorem device_grant_roundtrip p g m :
  grant_fits g -> g_magic g = DEVICE_GRANT_MAGIC -> p <> 0 ->
  Driver.load p (copy_to p (grant_bytes g) m) = g /\
  Driver.is_valid (Driver.load p (copy_to p (grant_bytes g) m)) = true /\
  (forall m', (forall i, 0 <= i < PAGE -> m' (p + i) = 0) -> Driver.is_valid (Driver.load p m') = false) /\
  Driver.is_valid (Driver.load 0 m) = false /\
  Driver.DEVICE_CFG_VADDR = DEVICE_CFG_VADDR /\ (forall i, Driver.DEVICE_MULTI_CFG_VADDR + i * 4096 = slot_cfg i) /\
  Driver.DEVICE_MULTI_SLOTS = DEVICE_MULTI_SLOTS.
Proof.
  intros [H64 H32] Hm Hp.
  assert (Hload : Driver.load p (copy_to p (grant_bytes g) m) = g).
  { unfold Driver.load. rewrite (proj2 (Z.eqb_neq p 0)) by done. unfold Driver.read_grant.
    rewrite (slice_load p (grant_bytes g) m 88) by reflexivity.
    rewrite !Forall_cons in H64. rewrite !Forall_cons in H32. destruct H64 as (A1 & A2 & A3 & A4 & A5 & A6 & A7 & A8 & _).
    destruct H32 as (B1 & B2 & B3 & B4 & B5 & B6 & _).
    destruct g as [g1 g2 g3 g4 g5 g6 g7 g8 g9 g10 g11 g12 g13 g14]. cbn [g_magic g_bar_paddr g_bar_vaddr g_bar_bytes g_dma_paddr
      g_dma_vaddr g_dma_bytes g_msix_vector_base g_msix_vector_count g_msix_table_offset g_msix_msg_addr g_page_size g_reserved
      g_msix_table_vaddr] in *.
    f_equal; first [exact (u64_le _ A1) | exact (u64_le _ A2) | exact (u64_le _ A3) | exact (u64_le _ A4) | exact (u64_le _ A5)
      | exact (u64_le _ A6) | exact (u64_le _ A7) | exact (u64_le _ A8) | exact (u32_le _ B1) | exact (u32_le _ B2)
      | exact (u32_le _ B3) | exact (u32_le _ B4) | exact (u32_le _ B5) | exact (u32_le _ B6)]. }
  split; [exact Hload|]. split; [unfold Driver.is_valid; by rewrite Hload, Hm|].
  split; [|done]. intros m' Hz.
  unfold Driver.load. rewrite (proj2 (Z.eqb_neq p 0)) by done. unfold Driver.is_valid, Driver.read_grant. cbn [g_magic].
  assert (E : slice_at p 88 m' = replicate 88 0).
  { apply list_eq_same_length with 88%nat; [by rewrite length_replicate | apply length_slice_at|].
    intros i x y Hi. rewrite lookup_slice_at by lia. intros [= <-]. rewrite lookup_replicate. intros [-> _].
    apply Hz. unfold PAGE. lia. }
  rewrite E. reflexivity.
Qed.

(** ** The windows of the instances *)

(** The pages of the 16 instances (one descriptor page, four register pages, sixteen DMA pages each)
    do not overlap and lie between the stack and the windows of single devices. *)
Lemma slot_windows_disjoint i j :
  0 <= i < DEVICE_MULTI_SLOTS -> 0 <= j < DEVICE_MULTI_SLOTS ->
  let windows s := [(slot_cfg s, 1); (slot_bar s, 4); (slot_dma s, 16)] in
  (forall w, w ∈ windows i -> USER_STACK_TOP <= fst w /\ fst w + snd w * PAGE <= DEVICE_CFG_VADDR) /\
  (forall a b v w, windows i !! a = Some v -> windows j !! b = Some w -> i <> j \/ a <> b ->
     fst v + snd v * PAGE <= fst w \/ fst w + snd w * PAGE <= fst v).
Proof.
  unfold DEVICE_MULTI_SLOTS, slot_cfg, slot_bar, slot_dma, DEVICE_MULTI_CFG_VADDR, DEVICE_MULTI_BAR_VADDR,
    DEVICE_MULTI_DMA_VADDR, DEVICE_MULTI_BAR_STRIDE, DEVICE_MULTI_DMA_STRIDE, DEVICE_CFG_VADDR, USER_STACK_TOP, USER_SPACE_BASE, PAGE.
  intros Hi Hj. split.
  - intros w Hw. rewrite !elem_of_cons in Hw.
    destruct Hw as [->|[->|[->|Hw%elem_of_nil]]]; cbn [fst snd]; [lia..|done].
  - intros a b v w Ha Hb Hne.
    destruct a as [|[|[|a]]]; [..|done]; destruct b as [|[|[|b]]]; try done; injection Ha as <-; injection Hb as <-; cbn [fst snd]; lia.
Qed.

(** ** PCI addresses of the system calls *)

Lemma split_pci_addr_pack bus dev func :
  0 <= bus < 256 -> 0 <= dev < 32 -> 0 <= func < 8 -> split_pci_addr (pci_addr bus dev func) = Some (bus, dev, func).
Proof.
  intros Hb Hd Hf. unfold split_pci_addr, pci_addr.
  rewrite <- Z.lor_assoc, (lor_shiftl_add dev func 8), lor_shiftl_add by lia.
  assert (E1 : Z.shiftr (bus * 2^16 + (dev * 2^8 + func)) 24 = 0) by (rewrite Z.shiftr_div_pow2 by lia; apply Z.div_small; lia).
  rewrite E1. cbn [Z.eqb negb]. rewrite shiftr_high by lia.
  change 0xFF with (Z.ones 8). rewrite !Z.land_ones by lia. rewrite (Z.mod_small bus) by lia.
  replace (bus * 2^16 + (dev * 2^8 + func)) with ((bus * 2^8 + dev) * 2^8 + func) by lia. rewrite shiftr_high by lia.
  rewrite !(Z.add_comm (_ * 2^8)), !Z.mod_add, !Z.mod_small by lia.
  by rewrite (proj2 (Z.ltb_ge 31 dev)), (proj2 (Z.ltb_ge 7 func)) by lia.
Qed.

(** ** What the code does at the edges *)

(** A domain with several instances: the run-time grant answers with the window of single devices,
    which is not mapped in it, and only its first instance can be named. *)
Definition xhci_request (dev : Z) : GrantRequest := mk_request 0 0 dev 0 (0x10000000 + dev * 0x1000) 1 1 0.

Definition answers {H} (r : res (Z * devices H)) (v : Z) : bool := match r with Ok (x, _) => x =? v | Panic => false end.

Example multi_instance_calls :
  match (_ ← grant_slot (mapper := soft_mapper) (xhci_request 5) 0; grant_slot (mapper := soft_mapper) (xhci_request 6) 1) sim_devices with
  | Ok (_, s) =>
      answers (syscall_grant DEVICE_SELF s) DEVICE_CFG_VADDR &&
      is_none (walk (k_mem (v_kernel s)) 0x1000 DEVICE_CFG_VADDR) &&
      is_some (walk (k_mem (v_kernel s)) 0x1000 (slot_cfg 1)) &&
      answers (syscall_grant (pci_addr 0 6 0) s) 0
  | Panic => false
  end = true.
Proof. vm_cast_no_check (eq_refl true). Qed.

(** The boot-disk restriction compares device and function only: controllers on other buses stay. *)
Example boot_disk_ignores_bus :
  restrict_boot_disk (Some (0, 0)) [mk_pci 1 0 0 0x144D 0xA808 0x01 0x08 0x02; mk_pci 2 0 0 0x1B36 0x0010 0x01 0x08 0x02] =
  [mk_pci 1 0 0 0x144D 0xA808 0x01 0x08 0x02; mk_pci 2 0 0 0x1B36 0x0010 0x01 0x08 0x02].
Proof. reflexivity. Qed.

Lemma device_grant_roundtrip_witness :
  Driver.load 0x5000 (copy_to 0x5000 (grant_bytes (mk_device_grant DEVICE_GRANT_MAGIC 0x800000000 DEVICE_BAR_VADDR 0x4000 0x10000
    DEVICE_DMA_VADDR 0x7000 0x50 3 0x2000 0xFEE00000 PAGE 0 DEVICE_BAR_VADDR)) (fun _ => 0xAA)) =
  mk_device_grant DEVICE_GRANT_MAGIC 0x800000000 DEVICE_BAR_VADDR 0x4000 0x10000 DEVICE_DMA_VADDR 0x7000 0x50 3 0x2000 0xFEE00000 PAGE 0
    DEVICE_BAR_VADDR.
Proof.
  apply device_grant_roundtrip; [|reflexivity | lia].
  split; cbn; repeat constructor; unfold is_u64, DEVICE_BAR_VADDR, DEVICE_DMA_VADDR, USER_SPACE_BASE, PAGE; try lia;
    vm_compute; (discriminate || reflexivity).
Defined.
