(* ===== verification/Virtio.v ===== *)
(** * The virtio transport of the driver library (user/libdevice/src/virtio.rs, mmio.rs) and the
    receive ring of the network driver (user/srv/src/net_srv.rs)

    Discovery of the device's register blocks, reset and feature negotiation, and the virtqueues:
    rings in memory shared with the device. Device registers are the parameter [Regs]; ring memory
    is a byte array.

    The main result: a virtqueue is a pair of bounded first-in-first-out queues between driver and
    device, although both sides only exchange 16-bit indices that wrap around. *)

From S2P Require Import Prelude Bytes.

(** ** Constants *)

Definition PAGE : Z := 4096.
Definition CAP_ID_VENDOR : Z := 0x09.
Definition CAP_COMMON : Z := 1.
Definition CAP_NOTIFY : Z := 2.
Definition CAP_ISR : Z := 3.
Definition CAP_DEVICE : Z := 4.
Definition ST_ACKNOWLEDGE : Z := 1.
Definition ST_DRIVER : Z := 2.
Definition ST_DRIVER_OK : Z := 4.
Definition ST_FEATURES_OK : Z := 8.
Definition ST_FAILED : Z := 0x80.
Definition FEAT_VERSION_1 : Z := 1.
Definition C_DEV_FEAT_SEL : Z := 0x00.
Definition C_DEV_FEAT : Z := 0x04.
Definition C_DRV_FEAT_SEL : Z := 0x08.
Definition C_DRV_FEAT : Z := 0x0C.
Definition C_MSIX_CONFIG : Z := 0x10.
Definition C_NUM_QUEUES : Z := 0x12.
Definition C_STATUS : Z := 0x14.
Definition C_Q_SELECT : Z := 0x16.
Definition C_Q_SIZE : Z := 0x18.
Definition C_Q_MSIX : Z := 0x1A.
Definition C_Q_ENABLE : Z := 0x1C.
Definition C_Q_NOTIFY_OFF : Z := 0x1E.
Definition C_Q_DESC : Z := 0x20.
Definition C_Q_DRIVER : Z := 0x28.
Definition C_Q_DEVICE : Z := 0x30.
Definition OFF_AVAIL : Z := 0x100.
Definition OFF_USED : Z := 0x200.
Definition DESC_F_WRITE : Z := 2.

(** ** Register blocks *)

Record Caps : Type := mk_caps { common : Z; notify : Z; isr : Z; device : Z; notify_mult : Z }.

Section cfg.
Context (cfg : Z -> Z).

Definition cfg_u32 (off : Z) : Z := cfg (Z.land off (Z.lxor (2^32 - 1) 0x3)).
Definition cfg_u16 (off : Z) : Z := w16 (Z.shiftr (cfg (Z.land off (Z.lxor (2^32 - 1) 0x3))) (Z.land off 0x2 * 8)).
Definition cfg_u8 (off : Z) : Z := w8 (Z.shiftr (cfg (Z.land off (Z.lxor (2^32 - 1) 0x3))) (Z.land off 0x3 * 8)).

(** One capability of the list. *)
Definition note_cap (bar_vaddr ptr : Z) (caps : Caps) : Caps :=
  if cfg_u8 ptr =? CAP_ID_VENDOR then
    let cfg_type := cfg_u8 (ptr + 3) in
    let va := w64 (bar_vaddr + cfg_u32 (ptr + 8)) in
    if cfg_type =? CAP_COMMON then mk_caps va (notify caps) (isr caps) (device caps) (notify_mult caps)
    else if cfg_type =? CAP_NOTIFY then mk_caps (common caps) va (isr caps) (device caps) (cfg_u32 (ptr + 16))
    else if cfg_type =? CAP_ISR then mk_caps (common caps) (notify caps) va (device caps) (notify_mult caps)
    else if cfg_type =? CAP_DEVICE then mk_caps (common caps) (notify caps) (isr caps) va (notify_mult caps)
    else caps
  else caps.

(** The [while] loop; the fuel is what [guard] leaves. *)
Fixpoint discover_loop (fuel : nat) (bar_vaddr ptr : Z) (caps : Caps) : Caps :=
  match fuel with
  | O => caps
  | S fuel =>
      if ptr <? 0x40 then caps
      else
        let next := Z.land (cfg_u8 (ptr + 1)) 0xFC in
        let caps := note_cap bar_vaddr ptr caps in
        if next =? 0 then caps else discover_loop fuel bar_vaddr next caps
  end.

Definition discover_caps (bar_vaddr : Z) : option Caps :=
  if Z.land (cfg_u16 0x06) (Z.shiftl 1 4) =? 0 then None
  else
    let caps := discover_loop 48 bar_vaddr (Z.land (cfg_u8 0x34) 0xFC) (mk_caps 0 0 0 0 0) in
    if (common caps =? 0) || (notify caps =? 0) || (device caps =? 0) then None else Some caps.

End cfg.

(** ** Registers *)

(** Volatile accesses of 1, 2, 4 or 8 bytes; a read may change the device (the ISR register). *)
Class Regs (D : Type) : Type := {
  reg_rd : Z -> Z -> D -> Z * D;       (* width, address *)
  reg_wr : Z -> Z -> Z -> D -> D;      (* width, address, value *)
}.

Inductive NegError : Type := NoVersion1 | FeaturesRejected.

Section regs.
Context {D : Type} {regs : Regs D} (c : Caps).

Definition r8 (off : Z) (d : D) : Z * D := reg_rd 1 (common c + off) d.
Definition r16 (off : Z) (d : D) : Z * D := reg_rd 2 (common c + off) d.
Definition r32 (off : Z) (d : D) : Z * D := reg_rd 4 (common c + off) d.
Definition wr_8 (off v : Z) (d : D) : D := reg_wr 1 (common c + off) v d.
Definition wr_16 (off v : Z) (d : D) : D := reg_wr 2 (common c + off) v d.
Definition wr_32 (off v : Z) (d : D) : D := reg_wr 4 (common c + off) v d.
Definition wr_64 (off v : Z) (d : D) : D := reg_wr 8 (common c + off) v d.

Definition status (d : D) : Z * D := r8 C_STATUS d.
Definition set_status (v : Z) (d : D) : D := wr_8 C_STATUS v d.
Definition num_queues (d : D) : Z * D := r16 C_NUM_QUEUES d.
Definition read_isr (d : D) : Z * D := reg_rd 1 (isr c) d.
Definition set_config_msix (v : Z) (d : D) : D := wr_16 C_MSIX_CONFIG v d.
Definition notify_queue (qindex notify_off : Z) (d : D) : D :=
  reg_wr 2 (w64 (notify c + w64 (notify_off * notify_mult c))) qindex d.

(** [while status() != 0 && spins < 1000]; the fuel is what [spins] leaves. *)
Fixpoint reset_wait (fuel : nat) (d : D) : D :=
  let '(v, d) := status d in
  if v =? 0 then d else match fuel with O => d | S fuel => reset_wait fuel d end.

Definition reset (d : D) : D := reset_wait 1000 (set_status 0 d).
Definition failed (d : D) : D := set_status ST_FAILED d.
Definition driver_ok (d : D) : D :=
  set_status (Z.lor (Z.lor (Z.lor ST_ACKNOWLEDGE ST_DRIVER) ST_FEATURES_OK) ST_DRIVER_OK) d.

Definition read_features (d : D) : Z * Z * D :=
  let d := wr_32 C_DEV_FEAT_SEL 0 d in
  let '(f0, d) := r32 C_DEV_FEAT d in
  let d := wr_32 C_DEV_FEAT_SEL 1 d in
  let '(f1, d) := r32 C_DEV_FEAT d in
  (f0, f1, d).

Definition negotiate (pick_feat0 : Z -> Z) (d : D) : (NegError + Z) * D :=
  let d := reset d in
  let d := set_status (Z.lor ST_ACKNOWLEDGE ST_DRIVER) d in
  let '(dev0, dev1, d) := read_features d in
  if Z.land dev1 FEAT_VERSION_1 =? 0 then (inl NoVersion1, d)
  else
    let d := wr_32 C_DRV_FEAT_SEL 0 d in
    let d := wr_32 C_DRV_FEAT (pick_feat0 dev0) d in
    let d := wr_32 C_DRV_FEAT_SEL 1 d in
    let d := wr_32 C_DRV_FEAT FEAT_VERSION_1 d in
    let d := set_status (Z.lor (Z.lor ST_ACKNOWLEDGE ST_DRIVER) ST_FEATURES_OK) d in
    let '(st, d) := status d in
    if Z.land st ST_FEATURES_OK =? 0 then (inl FeaturesRejected, d) else (inr dev0, d).

Definition setup_queue (idx want msix_index desc_pa avail_pa used_pa : Z) (d : D) : Z * Z * D :=
  let d := wr_16 C_Q_SELECT idx d in
  let '(max, d) := r16 C_Q_SIZE d in
  if max =? 0 then (0, 0, d)
  else
    let size := if max <? want then max else want in
    let d := wr_16 C_Q_SIZE size d in
    let d := wr_64 C_Q_DESC desc_pa d in
    let d := wr_64 C_Q_DRIVER avail_pa d in
    let d := wr_64 C_Q_DEVICE used_pa d in
    let d := wr_16 C_Q_MSIX msix_index d in
    let d := wr_16 C_Q_ENABLE 1 d in
    let '(off, d) := r16 C_Q_NOTIFY_OFF d in
    (size, off, d).

End regs.

(** ** Virtqueues *)

(** Native little-endian accesses of [n] bytes. *)
Definition rd (n : nat) (a : Z) (m : mem) : Z := from_le (slice_at a n m).
Definition wr (n : nat) (a v : Z) (m : mem) : mem := copy_to a (to_le n v) m.

Record Vq : Type := mk_vq { size : Z; desc : Z; avail : Z; used : Z; notify_off : Z }.

Definition zero_page (va : Z) (m : mem) : mem := zero_bytes va (Z.to_nat PAGE) m.

Definition Vq_new (dma_vaddr ring_page size notify_off : Z) : Vq :=
  let page := w64 (dma_vaddr + ring_page * PAGE) in
  mk_vq size page (w64 (page + OFF_AVAIL)) (w64 (page + OFF_USED)) notify_off.

Section vq.
Context (q : Vq).

Definition set_desc (idx addr len flags next : Z) (m : mem) : mem :=
  let d := desc q + idx * 16 in
  wr 2 (d + 14) next (wr 2 (d + 12) flags (wr 4 (d + 8) len (wr 8 d addr m))).

Definition avail_push (desc_head : Z) (m : mem) : Z * mem :=
  let a := rd 2 (avail q + 2) m in
  let slot := a mod size q in
  let m := wr 2 (avail q + 4 + slot * 2) desc_head m in
  (a, wr 2 (avail q + 2) (w16 (a + 1)) m).

Definition used_idx (m : mem) : Z := rd 2 (used q + 2) m.

Definition used_elem (slot : Z) (m : mem) : Z * Z :=
  let e := used q + 4 + slot * 8 in (w16 (rd 4 e m), rd 4 (e + 4) m).

End vq.

(** ** The network driver's use of its receive ring (net_srv.rs) *)

Module NetRx.

Definition RX_BUF_PAGE : Z := 2.
Definition BUF_SZ : Z := 2048.
Definition VNET_HDR_LEN : Z := 12.

Record RxFrame : Type := mk_rx { id : Z; buf_va : Z; raw_len : Z; eth_va : Z; len : Z }.

(** The loop of [post_rx_buffers], from descriptor [i] on. *)
Fixpoint post_loop (fuel : nat) (q : Vq) (dma_paddr i : Z) (m : mem) : mem :=
  match fuel with
  | O => m
  | S fuel =>
      let buf_pa := w64 (dma_paddr + RX_BUF_PAGE * PAGE + i * BUF_SZ) in
      let m := set_desc q i buf_pa BUF_SZ DESC_F_WRITE 0 m in
      post_loop fuel q dma_paddr (i + 1) (snd (avail_push q i m))
  end.

Definition post_rx_buffers (q : Vq) (dma_paddr : Z) (m : mem) : mem := post_loop (Z.to_nat (size q)) q dma_paddr 0 m.

Definition poll_rx (q : Vq) (dma_vaddr last_used : Z) (m : mem) : option RxFrame * Z :=
  if last_used =? used_idx q m then (None, last_used)
  else
    let slot := last_used mod size q in
    let '(i, rlen) := used_elem q slot m in
    let buf := w64 (dma_vaddr + RX_BUF_PAGE * PAGE + i * BUF_SZ) in
    (Some (mk_rx i buf rlen (w64 (buf + VNET_HDR_LEN)) (saturating_sub rlen VNET_HDR_LEN)), w16 (last_used + 1)).

Definition recycle (q : Vq) (i : Z) (m : mem) : mem := snd (avail_push q i m).

End NetRx.

(** ** Reading back *)

Lemma rd_wr_same n a v m : 0 <= v < 256 ^ Z.of_nat n -> rd n a (wr n a v m) = v.
Proof. intros Hv. unfold rd, wr. rewrite slice_load by apply length_to_le. by apply from_to_le. Qed.

Lemma rd_ext n a m m' : (forall x, a <= x < a + Z.of_nat n -> m x = m' x) -> rd n a m = rd n a m'.
Proof. intros E. unfold rd. by rewrite (slice_at_ext a n m m'). Qed.

Lemma wr_out n a v m x : x < a \/ a + Z.of_nat n <= x -> wr n a v m x = m x.
Proof. intros Hx. apply copy_to_out. by rewrite length_to_le. Qed.

Lemma rd_wr_other n k a b v m :
  a + Z.of_nat n <= b \/ b + Z.of_nat k <= a -> rd n a (wr k b v m) = rd n a m.
Proof. intros Hd. apply rd_ext. intros x Hx. apply wr_out. lia. Qed.

(** ** A queue between two wrapping cursors *)

(** The entries from cursor [cur] up to index [idx], both 16-bit, in a ring of [n] slots. *)
Definition between {A} (entry : Z -> A) (n idx cur : Z) : list A :=
  (fun i => entry ((cur + i) mod n)) <$> seqZ 0 ((idx - cur) mod 2^16).

(** The number of slots divides 2^16, so that wrapping indices name slots consistently. *)
Definition ring_size (n : Z) : Prop := 0 < n <= 2^15 /\ 2^16 mod n = 0.

Lemma wrap_slot n x : ring_size n -> (x mod 2^16) mod n = x mod n.
Proof.
  intros [Hn Hd]. apply Z.mod_divide in Hd as [k Hk]; [|lia].
  rewrite (Z.div_mod x (2^16)) at 2 by lia. rewrite Hk at 2.
  replace (k * n * (x / 2^16) + x mod 2^16) with (x mod 2^16 + (k * (x / 2^16)) * n) by lia.
  by rewrite Z.mod_add by lia.
Qed.

Lemma between_length {A} (entry : Z -> A) n idx cur : Z.of_nat (length (between entry n idx cur)) = (idx - cur) mod 2^16.
Proof. unfold between. rewrite length_fmap, length_seqZ. apply Z2Nat.id. apply Z.mod_pos_bound. lia. Qed.

Lemma between_ext {A} (e e' : Z -> A) n idx cur :
  0 < n -> (forall i, 0 <= i < n -> e i = e' i) -> between e n idx cur = between e' n idx cur.
Proof. intros Hn E. unfold between. apply list_fmap_ext. intros _ i _. apply E. apply Z.mod_pos_bound. done. Qed.

Lemma between_push {A} (e e' : Z -> A) n idx cur x :
  ring_size n -> 0 <= idx < 2^16 -> 0 <= cur < 2^16 -> Z.of_nat (length (between e n idx cur)) < n ->
  (forall i, 0 <= i < n -> i <> idx mod n -> e' i = e i) -> e' (idx mod n) = x ->
  between e' n (w16 (idx + 1)) cur = between e n idx cur ++ [x].
Proof.
  intros Hn Hi Hc Hlen He Hx. rewrite between_length in Hlen. destruct Hn as [Hn Hd]. unfold between, w16.
  set (c := (idx - cur) mod 2^16) in *. pose proof (Z.mod_pos_bound (idx - cur) (2^16) ltac:(lia)) as Hc0. fold c in Hc0.
  assert (Ec : ((idx + 1) mod 2^16 - cur) mod 2^16 = c + 1).
  { rewrite Zminus_mod_idemp_l. replace (idx + 1 - cur) with (idx - cur + 1) by lia. rewrite <- Zplus_mod_idemp_l.
    fold c. apply Z.mod_small. lia. }
  assert (Hidx : (cur + c) mod n = idx mod n).
  { rewrite <- (wrap_slot n (cur + c)) by (split; done). unfold c. rewrite Zplus_mod_idemp_r.
    replace (cur + (idx - cur)) with idx by lia. by rewrite (Z.mod_small idx (2^16)) by lia. }
  rewrite Ec, seqZ_app by lia. change (seqZ (0 + c) 1) with [0 + c]. rewrite fmap_app. cbn [fmap list_fmap].
  replace (cur + (0 + c)) with (cur + c) by lia. rewrite Hidx, Hx. f_equal.
  apply list_fmap_ext. intros k i Hin. apply list_elem_of_lookup_2, elem_of_seqZ in Hin.
  apply He; [apply Z.mod_pos_bound; lia|]. rewrite <- Hidx. intros E.
  assert (Hz : (c - i) mod n = 0).
  { replace (c - i) with ((cur + c) - (cur + i)) by lia. rewrite Zminus_mod, <- E, Z.sub_diag. by apply Z.mod_0_l; lia. }
  rewrite Z.mod_small in Hz by lia. lia.
Qed.

Lemma between_pop {A} (e : Z -> A) n idx cur :
  ring_size n -> 0 <= idx < 2^16 -> 0 <= cur < 2^16 -> idx <> cur ->
  between e n idx cur = e (cur mod n) :: between e n idx (w16 (cur + 1)).
Proof.
  intros Hn Hi Hc Hne. unfold between, w16.
  assert (Hpos : 0 < (idx - cur) mod 2^16).
  { pose proof (Z.mod_pos_bound (idx - cur) (2^16) ltac:(lia)).
    destruct (Z.eq_dec ((idx - cur) mod 2^16) 0) as [E|]; [|lia]. exfalso. apply Z.mod_divide in E as [k Hk]; lia. }
  assert (Ec : (idx - (cur + 1) mod 2^16) mod 2^16 = (idx - cur) mod 2^16 - 1).
  { rewrite Zminus_mod_idemp_r. replace (idx - (cur + 1)) with (idx - cur - 1) by lia. rewrite <- Zminus_mod_idemp_l.
    apply Z.mod_small. pose proof (Z.mod_pos_bound (idx - cur) (2^16) ltac:(lia)). lia. }
  rewrite Ec, seqZ_cons by lia. cbn [fmap list_fmap]. rewrite Z.add_0_r. f_equal.
  replace (Z.pred ((idx - cur) mod 2^16)) with ((idx - cur) mod 2^16 - 1) by lia.
  change (Z.succ 0) with (1 + 0). rewrite <- fmap_add_seqZ, <- list_fmap_compose.
  apply list_fmap_ext. intros k i _. cbn. f_equal.
  rewrite <- (wrap_slot n ((cur + 1) mod 2^16 + i)), Zplus_mod_idemp_l, (wrap_slot n (cur + 1 + i)) by done. f_equal. lia.
Qed.

Lemma between_empty {A} (e : Z -> A) n idx cur :
  0 <= idx < 2^16 -> 0 <= cur < 2^16 -> (between e n idx cur = [] <-> idx = cur).
Proof.
  intros Hi Hc. rewrite <- length_zero_iff_nil. pose proof (between_length e n idx cur) as Hl. split; intros E.
  - rewrite E in Hl. symmetry in Hl. apply Z.mod_divide in Hl as [k Hk]; lia.
  - subst. rewrite Z.sub_diag in Hl. change (0 mod 2^16) with 0 in Hl. lia.
Qed.

(** ** One virtqueue, seen from both sides *)

(** The layout [Vq::new] gives a queue of at most 16 entries. *)
Record ring_ok (q : Vq) : Prop := {
  ok_size : 1 <= size q <= 16;
  ok_pow : 2^16 mod size q = 0;
  ok_avail : avail q = desc q + OFF_AVAIL;
  ok_used : used q = desc q + OFF_USED;
}.

Definition byte_mem (m : mem) : Prop := forall x, is_byte (m x).

Lemma byte_mem_wr n a v m : byte_mem m -> byte_mem (wr n a v m).
Proof.
  intros Hm x. destruct (decide (a <= x < a + Z.of_nat n)) as [Hx|Hx]; [|rewrite wr_out by lia; apply Hm].
  unfold wr. replace x with (a + Z.of_nat (Z.to_nat (x - a))) by lia.
  destruct (lookup_lt_is_Some_2 (to_le n v) (Z.to_nat (x - a))) as [b Hb]; [rewrite length_to_le; lia|].
  rewrite (copy_to_in _ _ _ _ b Hb). pose proof (to_le_bytes n v) as Hall. rewrite Forall_lookup in Hall. eauto.
Qed.

Lemma rd_range n a m : byte_mem m -> 0 <= rd n a m < 256 ^ Z.of_nat n.
Proof.
  intros Hm. unfold rd. assert (Hb : Forall is_byte (slice_at a n m)).
  { unfold slice_at. apply Forall_fmap, Forall_true. intros x. apply Hm. }
  apply from_le_bound in Hb. by rewrite length_slice_at in Hb.
Qed.

Section ring.
Context (q : Vq) (ok : ring_ok q).

Definition avail_idx (m : mem) : Z := rd 2 (avail q + 2) m.
Definition avail_entry (m : mem) (i : Z) : Z := rd 2 (avail q + 4 + i * 2) m.

(** The heads the device has not fetched yet, and the completions the driver has not read yet. *)
Definition available (m : mem) (seen : Z) : list Z := between (avail_entry m) (size q) (avail_idx m) seen.
Definition unread (m : mem) (last : Z) : list (Z * Z) := between (fun i => used_elem q i m) (size q) (used_idx q m) last.

(** What the device does to the used ring when it has finished with a chain: the element, then
    the index. *)
Definition device_complete (i len : Z) (m : mem) : mem :=
  let idx := used_idx q m in
  let e := used q + 4 + (idx mod size q) * 8 in
  wr 2 (used q + 2) (w16 (idx + 1)) (wr 4 (e + 4) len (wr 4 e i m)).

Lemma ring_size_ok : ring_size (size q).
Proof using ok. destruct ok as [Hs Hp _ _]. split; [lia | done]. Qed.

Lemma ring_slot_range x : 0 <= x mod size q < 16.
Proof using ok. destruct ok as [Hs _ _ _]. pose proof (Z.mod_pos_bound x (size q)). lia. Qed.

Lemma available_ext m m' seen :
  (forall x, avail q <= x < avail q + 0x100 -> m x = m' x) -> available m seen = available m' seen.
Proof using ok.
  intros E. destruct ok as [Hs _ _ _]. unfold available.
  assert (avail_idx m = avail_idx m') as -> by (apply rd_ext; intros x Hx; apply E; lia).
  apply between_ext; [lia|]. intros i Hi. apply rd_ext. intros x Hx. apply E. lia.
Qed.

Lemma unread_ext m m' last :
  (forall x, used q <= x < used q + 0x100 -> m x = m' x) -> unread m last = unread m' last.
Proof using ok.
  intros E. destruct ok as [Hs _ _ _]. unfold unread.
  assert (used_idx q m = used_idx q m') as -> by (apply rd_ext; intros x Hx; apply E; lia).
  apply between_ext; [lia|]. intros i Hi. unfold used_elem. f_equal; [f_equal|]; apply rd_ext; intros x Hx; apply E; lia.
Qed.

Lemma push_out h m x : x < avail q \/ avail q + 0x100 <= x -> snd (avail_push q h m) x = m x.
Proof using ok.
  intros Hx. unfold avail_push. cbn [snd]. pose proof (ring_slot_range (rd 2 (avail q + 2) m)).
  rewrite !wr_out by lia. done.
Qed.

Lemma available_push m seen h :
  byte_mem m -> 0 <= seen < 2^16 -> 0 <= h < 2^16 -> Z.of_nat (length (available m seen)) < size q ->
  available (snd (avail_push q h m)) seen = available m seen ++ [h].
Proof using ok.
  intros Hm Hs Hh Hlen. unfold available in *. unfold avail_push. cbn [snd]. fold (avail_idx m).
  set (a := avail_idx m) in *. pose proof (ring_slot_range a) as Ha.
  assert (Hr : 0 <= a < 2^16) by (apply (rd_range 2); done).
  unfold avail_idx at 1. rewrite rd_wr_same by (unfold w16; apply Z.mod_pos_bound; lia).
  apply (between_push (avail_entry m)); [exact ring_size_ok | done | done | done | |].
  - intros i Hi Hne. unfold avail_entry. rewrite !rd_wr_other by lia. done.
  - unfold avail_entry. rewrite rd_wr_other by lia. by rewrite rd_wr_same.
Qed.

Lemma used_elem_same i e m : e = used q + 4 + i * 8 -> used_elem q i m = (w16 (rd 4 e m), rd 4 (e + 4) m).
Proof using Type. by intros ->. Qed.

Lemma complete_out i len m x : x < used q \/ used q + 0x100 <= x -> device_complete i len m x = m x.
Proof using ok.
  intros Hx. unfold device_complete. cbv zeta. pose proof (ring_slot_range (used_idx q m)).
  rewrite !wr_out by lia. done.
Qed.

Lemma unread_complete m last i len :
  byte_mem m -> 0 <= last < 2^16 -> 0 <= i < 2^16 -> 0 <= len < 2^32 -> Z.of_nat (length (unread m last)) < size q ->
  unread (device_complete i len m) last = unread m last ++ [(i, len)].
Proof using ok.
  intros Hm Hl Hi Hlen Hn. unfold unread in *. unfold device_complete. cbv zeta.
  set (a := used_idx q m) in *. pose proof (ring_slot_range a) as Ha.
  assert (Hr : 0 <= a < 2^16) by (apply (rd_range 2); done).
  unfold used_idx at 1. rewrite rd_wr_same by (unfold w16; apply Z.mod_pos_bound; lia).
  apply (between_push (fun i => used_elem q i m)); [exact ring_size_ok | done | done | done | |].
  - intros j Hj Hne. unfold used_elem. rewrite !rd_wr_other by lia. done.
  - unfold used_elem. rewrite !(rd_wr_other 4 2) by lia. rewrite (rd_wr_other 4 4) by lia.
    rewrite !rd_wr_same by (change (256 ^ Z.of_nat 4) with (2^32); lia). unfold w16. by rewrite Z.mod_small by lia.
Qed.

Lemma set_desc_out idx addr len flags next m x :
  0 <= idx < 16 -> x < desc q \/ desc q + 0x100 <= x -> set_desc q idx addr len flags next m x = m x.
Proof using Type. intros Hi Hx. unfold set_desc. cbv zeta. rewrite !wr_out by lia. done. Qed.

Lemma byte_mem_push h m : byte_mem m -> byte_mem (snd (avail_push q h m)).
Proof using Type. intros Hm. by apply byte_mem_wr, byte_mem_wr. Qed.

Lemma byte_mem_complete i len m : byte_mem m -> byte_mem (device_complete i len m).
Proof using Type. intros Hm. by apply byte_mem_wr, byte_mem_wr, byte_mem_wr. Qed.

Lemma byte_mem_set_desc idx addr len flags next m : byte_mem m -> byte_mem (set_desc q idx addr len flags next m).
Proof using Type. intros Hm. by apply byte_mem_wr, byte_mem_wr, byte_mem_wr, byte_mem_wr. Qed.

End ring.

(** ** The receive ring of the network driver *)

(** The driver and the device working on one ring. [seen] is the device's cursor in the available
    ring and [last_used] the driver's in the used ring; the lists say which buffers the device has
    fetched and the driver has taken out, and which frames were completed and delivered so far. *)
Record nic : Type := mk_nic_state {
  n_mem : mem; seen : Z; last_used : Z; at_device : list Z; at_driver : list Z;
  completed : list (Z * Z); delivered : list (Z * Z);
}.

Section nic.
Context (q : Vq) (dma_vaddr dma_paddr : Z).

Inductive nic_step : nic -> nic -> Prop :=
| device_fetches s :
    avail_idx q (n_mem s) <> seen s ->
    nic_step s (mk_nic_state (n_mem s) (w16 (seen s + 1)) (last_used s)
                  (avail_entry q (n_mem s) (seen s mod size q) :: at_device s) (at_driver s) (completed s) (delivered s))
| device_completes s i len l1 l2 :
    at_device s = l1 ++ i :: l2 -> 0 <= len < 2^32 ->
    nic_step s (mk_nic_state (device_complete q i len (n_mem s)) (seen s) (last_used s) (l1 ++ l2) (at_driver s)
                  (completed s ++ [(i, len)]) (delivered s))
| driver_polls s f last' :
    NetRx.poll_rx q dma_vaddr (last_used s) (n_mem s) = (Some f, last') ->
    nic_step s (mk_nic_state (n_mem s) (seen s) last' (at_device s) (NetRx.id f :: at_driver s) (completed s)
                  (delivered s ++ [(NetRx.id f, NetRx.raw_len f)]))
| driver_recycles s i l1 l2 :
    at_driver s = l1 ++ i :: l2 ->
    nic_step s (mk_nic_state (NetRx.recycle q i (n_mem s)) (seen s) (last_used s) (at_device s) (l1 ++ l2) (completed s)
                  (delivered s))
| other_memory s m' :
    byte_mem m' -> (forall x, desc q <= x < desc q + PAGE -> m' x = n_mem s x) ->
    nic_step s (mk_nic_state m' (seen s) (last_used s) (at_device s) (at_driver s) (completed s) (delivered s)).

(** The ring page is cleared, then the buffers are posted. *)
Definition nic_start (m : mem) : nic :=
  mk_nic_state (NetRx.post_rx_buffers q dma_paddr (zero_page (desc q) m)) 0 0 [] [] [] [].

(** Every buffer is in exactly one of the four places, and the frames delivered so far are the
    first of the completed ones. *)
Record nic_inv (s : nic) : Prop := {
  inv_bytes : byte_mem (n_mem s);
  inv_seen : 0 <= seen s < 2^16;
  inv_last : 0 <= last_used s < 2^16;
  inv_places : available q (n_mem s) (seen s) ++ at_device s ++ (fst <$> unread q (n_mem s) (last_used s)) ++ at_driver s
               ≡ₚ seqZ 0 (size q);
  inv_stream : completed s = delivered s ++ unread q (n_mem s) (last_used s);
}.

Context (ok : ring_ok q).

Lemma places_bounds s i :
  nic_inv s -> i ∈ available q (n_mem s) (seen s) ++ at_device s ++ (fst <$> unread q (n_mem s) (last_used s)) ++ at_driver s ->
  0 <= i < 2^16.
Proof using ok.
  intros Hs Hi. rewrite (inv_places s Hs) in Hi. apply elem_of_seqZ in Hi. pose proof (ok_size q ok). lia.
Qed.

Lemma places_length s :
  nic_inv s -> (length (available q (n_mem s) (seen s)) + length (at_device s) + length (unread q (n_mem s) (last_used s)) +
    length (at_driver s) = Z.to_nat (size q))%nat.
Proof using Type.
  intros Hs. pose proof (Permutation_length (inv_places s Hs)) as Hl. rewrite !length_app, length_fmap, length_seqZ in Hl. lia.
Qed.

Lemma nic_inv_step s s' : nic_inv s -> nic_step s s' -> nic_inv s'.
Proof using ok.
  intros Hs Hstep. pose proof (places_length s Hs) as Hlen. pose proof (fun i => places_bounds s i Hs) as Hrange.
  pose proof (ring_size_ok q ok) as Hsz. pose proof (ok_size q ok) as Hsize.
  pose proof (ok_avail q ok) as Ea. pose proof (ok_used q ok) as Eu. unfold OFF_AVAIL, OFF_USED in *.
  destruct Hs as [Hm Hse Hla Hpl Hst]. destruct Hstep as [s Hne | s i len l1 l2 Hd Hl | s f last' Hp | s i l1 l2 Hd | s m' Hm' Hag].
  - assert (Hr : 0 <= avail_idx q (n_mem s) < 2^16) by (by apply (rd_range 2)).
    unfold available in Hpl. rewrite (between_pop _ _ _ _ Hsz Hr Hse Hne) in Hpl.
    split; cbn [n_mem seen last_used at_device at_driver completed delivered]; [done | unfold w16; apply Z.mod_pos_bound; lia | done | | done].
    rewrite <- Hpl. unfold available. solve_Permutation.
  - rewrite Hd in *. rewrite length_app in Hlen. cbn [length] in Hlen.
    assert (Hi : 0 <= i < 2^16) by (apply Hrange; rewrite !elem_of_app, elem_of_cons; tauto).
    assert (Hroom : Z.of_nat (length (unread q (n_mem s) (last_used s))) < size q) by lia.
    split; cbn [n_mem seen last_used at_device at_driver completed delivered]; [by apply byte_mem_complete | done | done | |].
    + rewrite (unread_complete q ok) by done.
      rewrite (available_ext q ok _ (n_mem s)) by (intros x Hx; apply (complete_out q ok); lia).
      rewrite fmap_app. cbn [fmap list_fmap fst]. rewrite <- Hpl.
      solve_Permutation.
    + rewrite (unread_complete q ok) by done. rewrite Hst. by rewrite app_assoc.
  - unfold NetRx.poll_rx in Hp. destruct (Z.eqb_spec (last_used s) (used_idx q (n_mem s))) as [|Hne]; [done|].
    assert (Hr : 0 <= used_idx q (n_mem s) < 2^16) by (by apply (rd_range 2)).
    unfold unread in Hpl, Hst. rewrite (between_pop _ _ _ _ Hsz Hr Hla (not_eq_sym Hne)) in Hpl, Hst.
    cbn beta in Hpl, Hst. destruct (used_elem q (last_used s mod size q) (n_mem s)) as [i rlen] eqn:Ee.
    injection Hp as <- <-. cbn [NetRx.id NetRx.raw_len].
    split; cbn [n_mem seen last_used at_device at_driver completed delivered]; [done | done | unfold w16; apply Z.mod_pos_bound; lia | |].
    + rewrite <- Hpl. cbn [fmap list_fmap fst]. apply Permutation_app_head, Permutation_app_head.
      unfold unread. solve_Permutation.
    + rewrite Hst. unfold unread. by rewrite <- app_assoc.
  - rewrite Hd in *. rewrite length_app in Hlen. cbn [length] in Hlen.
    assert (Hi : 0 <= i < 2^16) by (apply Hrange; rewrite !elem_of_app, elem_of_cons; tauto).
    assert (Hroom : Z.of_nat (length (available q (n_mem s) (seen s))) < size q) by lia.
    assert (Hun : unread q (NetRx.recycle q i (n_mem s)) (last_used s) = unread q (n_mem s) (last_used s)).
    { apply (unread_ext q ok). intros x Hx. apply (push_out q ok). lia. }
    split; cbn [n_mem seen last_used at_device at_driver completed delivered]; [by apply byte_mem_push | done | done | |].
    + rewrite Hun. unfold NetRx.recycle. rewrite (available_push q ok) by done. rewrite <- Hpl.
      solve_Permutation.
    + by rewrite Hun.
  - split; cbn [n_mem seen last_used at_device at_driver completed delivered]; [done | done | done | |].
    + rewrite (available_ext q ok _ (n_mem s)), (unread_ext q ok _ (n_mem s)); [done|..];
        intros x Hx; apply Hag; unfold PAGE; lia.
    + rewrite (unread_ext q ok _ (n_mem s)); [done|]. intros x Hx; apply Hag; unfold PAGE; lia.
Qed.

(** Posting the buffers from [i] on. *)
Lemma post_loop_spec n i m :
  byte_mem m -> available q m 0 = seqZ 0 i -> unread q m 0 = [] -> 0 <= i -> i + Z.of_nat n = size q ->
  let m' := NetRx.post_loop n q dma_paddr i m in
  byte_mem m' /\ available q m' 0 = seqZ 0 (size q) /\ unread q m' 0 = [].
Proof using ok.
  pose proof (ok_size q ok) as Hsize. pose proof (ok_avail q ok) as Ea. pose proof (ok_used q ok) as Eu. unfold OFF_AVAIL, OFF_USED in *.
  revert i m. induction n as [|n IH]; intros i m Hm Hav Hun Hi Hn; cbn [NetRx.post_loop].
  { replace (size q) with i by lia. done. }
  set (m1 := set_desc q i _ _ _ _ m).
  assert (Hm1 : byte_mem m1) by (by apply byte_mem_set_desc).
  assert (Hav1 : available q m1 0 = seqZ 0 i).
  { rewrite <- Hav. apply (available_ext q ok). intros x Hx. apply set_desc_out; lia. }
  assert (Hun1 : unread q m1 0 = []).
  { rewrite <- Hun. apply (unread_ext q ok). intros x Hx. apply set_desc_out; lia. }
  apply IH; [by apply byte_mem_push | | | lia | lia].
  - rewrite (available_push q ok); [|done|lia|lia|rewrite Hav1, length_seqZ; lia]. rewrite Hav1.
    rewrite seqZ_app by lia. done.
  - rewrite <- Hun1. apply (unread_ext q ok). intros x Hx. apply (push_out q ok). lia.
Qed.

Lemma nic_inv_start m : byte_mem m -> nic_inv (nic_start m).
Proof using ok.
  intros Hm. pose proof (ok_size q ok) as Hsize. pose proof (ok_avail q ok) as Ea. pose proof (ok_used q ok) as Eu. unfold OFF_AVAIL, OFF_USED in *.
  set (m0 := zero_page (desc q) m).
  assert (Hz : forall x, desc q <= x < desc q + PAGE -> m0 x = 0).
  { intros x Hx. unfold m0, zero_page, zero_bytes, PAGE in *. replace x with (desc q + Z.of_nat (Z.to_nat (x - desc q))) by lia.
    apply copy_to_in. apply lookup_replicate_2. lia. }
  assert (Hm0 : byte_mem m0).
  { intros x. destruct (decide (desc q <= x < desc q + PAGE)) as [Hx|Hx]; [rewrite Hz by done; unfold is_byte; lia|].
    unfold m0, zero_page, zero_bytes. rewrite copy_to_out; [apply Hm|]. rewrite length_replicate. unfold PAGE in *. lia. }
  assert (H0 : forall a, desc q <= a -> a + 2 <= desc q + PAGE -> rd 2 a m0 = 0).
  { intros a H1 H2. unfold rd. rewrite (slice_at_ext a 2 m0 (fun _ => 0)); [reflexivity|]. intros x Hx. apply Hz. lia. }
  destruct (post_loop_spec (Z.to_nat (size q)) 0 m0) as (P1 & P2 & P3); [done | | | lia | lia |].
  - apply between_empty; [unfold avail_idx; rewrite H0 by (unfold PAGE; lia); lia | lia |]. apply H0; unfold PAGE; lia.
  - apply between_empty; [unfold used_idx; rewrite H0 by (unfold PAGE; lia); lia | lia |]. apply H0; unfold PAGE; lia.
  - split; cbn [nic_start n_mem seen last_used at_device at_driver completed delivered]; [exact P1 | lia | lia | |].
    + unfold NetRx.post_rx_buffers. fold m0. rewrite P2, P3. cbn. by rewrite app_nil_r.
    + unfold NetRx.post_rx_buffers. fold m0. by rewrite P3.
Qed.

(** C14. The receive ring loses and duplicates nothing. From the posting of the buffers on, whatever
    the order in which the device fetches buffers and completes those it has, and the driver polls
    and recycles, with other memory changing freely: each of the buffers is in exactly one place
    (available to the device, at the device, completed but unread, or at the driver), so that no
    ring ever overflows; and the frames the driver has polled are, in order, the first frames the
    device completed, the rest being the ones still in the used ring. The 16-bit indices may wrap
    any number of times. *)
Theorem rx_ring_exact m s :
  byte_mem m -> rtc nic_step (nic_start m) s ->
  available q (n_mem s) (seen s) ++ at_device s ++ (fst <$> unread q (n_mem s) (last_used s)) ++ at_driver s
    ≡ₚ seqZ 0 (size q) /\
  completed s = delivered s ++ unread q (n_mem s) (last_used s).
Proof using ok.
  intros Hm Hr. assert (Hinv : nic_inv s); [|destruct Hinv; done].
  pose proof (nic_inv_start m Hm) as H0. induction Hr as [|s1 s2 s3 Hstep _ IH]; [done|].
  apply IH. exact (nic_inv_step s1 s2 H0 Hstep).
Qed.

End nic.

(** A device that offers a power of two gets a queue the ring results apply to: the size the driver
    settles on is the smaller of two powers of two, and at most what it asked for. *)
Lemma setup_queue_size {D} {regs : Regs D} c idx a b msix dp ap up (d : D) size off d' :
  0 <= a <= 15 -> 0 <= b <= 4 -> fst (r16 c C_Q_SIZE (wr_16 c C_Q_SELECT idx d)) = 2^a ->
  setup_queue c idx (2^b) msix dp ap up d = (size, off, d') ->
  size = 2 ^ Z.min a b /\ 1 <= size <= 16 /\ 2^16 mod size = 0.
Proof.
  intros Ha Hb Hmax E. unfold setup_queue in E. destruct (r16 c C_Q_SIZE _) as [max d1]. cbn [fst] in Hmax. subst max.
  rewrite (proj2 (Z.eqb_neq _ 0)) in E by (apply Z.pow_nonzero; lia). destruct (r16 c C_Q_NOTIFY_OFF _) as [o d2].
  injection E as <- _ _.
  assert (Es : (if 2^a <? 2^b then 2^a else 2^b) = 2 ^ Z.min a b).
  { destruct (Z.ltb_spec (2^a) (2^b)) as [Hlt|Hge].
    - apply Z.pow_lt_mono_r_iff in Hlt; [|lia..]. by rewrite Z.min_l by lia.
    - rewrite Z.min_r; [done|]. destruct (Z.le_gt_cases b a); [done|]. exfalso.
      pose proof (Z.pow_lt_mono_r 2 a b). lia. }
  rewrite Es. split; [done|]. set (e := Z.min a b). assert (He : 0 <= e <= 4) by lia.
  split.
  - pose proof (Z.pow_le_mono_r 2 0 e). pose proof (Z.pow_le_mono_r 2 e 4). lia.
  - replace 16 with (e + (16 - e)) by lia. rewrite Z.pow_add_r, Z.mul_comm by lia. apply Z.mod_mul. apply Z.pow_nonzero; lia.
Qed.

Lemma Vq_new_ok dma ring_page n off :
  1 <= n <= 16 -> 2^16 mod n = 0 -> 0 <= dma -> 0 <= ring_page -> dma + ring_page * PAGE + PAGE <= 2^64 ->
  ring_ok (Vq_new dma ring_page n off).
Proof.
  intros Hn Hp Hd Hr Ht. unfold PAGE in *. split; cbn; unfold w64, OFF_AVAIL, OFF_USED, PAGE; [done | done | |];
    rewrite !Z.mod_small; try done; rewrite ?Z.mod_small; lia.
Qed.

(** Negotiation succeeds only with a device that has VERSION_1 and has accepted the features. *)
Lemma negotiate_sound {D} {regs : Regs D} c pick (d : D) f0 d' :
  negotiate c pick d = (inr f0, d') ->
  (exists d1 f1 d2, read_features c d1 = (f0, f1, d2) /\ Z.land f1 FEAT_VERSION_1 <> 0) /\
  (exists d3 st, status c d3 = (st, d') /\ Z.land st ST_FEATURES_OK <> 0).
Proof.
  unfold negotiate. destruct (read_features c _) as [[dev0 dev1] d2] eqn:Ef. destruct (Z.eqb_spec (Z.land dev1 FEAT_VERSION_1) 0); [done|].
  destruct (status c _) as [st d4] eqn:Es. destruct (Z.eqb_spec (Z.land st ST_FEATURES_OK) 0); [done|].
  intros [= <- <-]. split; [eauto 6 | eauto].
Qed.

(** ** Witness: eight buffers, one frame of 60 bytes received and its buffer posted again *)

Definition sample_q : Vq := Vq_new 0x1000 0 8 0.

Lemma sample_q_ok : ring_ok sample_q.
Proof. apply Vq_new_ok; unfold PAGE; try lia. reflexivity. Qed.

Definition sample_nic : nic :=
  let m := n_mem (nic_start sample_q 0x9000 (fun _ => 0xAA)) in
  mk_nic_state (NetRx.recycle sample_q 0 (device_complete sample_q 0 60 m)) 1 1 [] [] [(0, 60)] [(0, 60)].

Lemma rx_ring_exact_witness :
  rtc (nic_step sample_q 0x1000) (nic_start sample_q 0x9000 (fun _ => 0xAA)) sample_nic /\
  completed sample_nic = delivered sample_nic ++ unread sample_q (n_mem sample_nic) (last_used sample_nic) /\
  available sample_q (n_mem sample_nic) (seen sample_nic) = [1; 2; 3; 4; 5; 6; 7; 0].
Proof.
  assert (R : rtc (nic_step sample_q 0x1000) (nic_start sample_q 0x9000 (fun _ => 0xAA)) sample_nic).
  { set (s0 := nic_start sample_q 0x9000 (fun _ => 0xAA)).
    apply rtc_l with (mk_nic_state (n_mem s0) 1 0 [0] [] [] []).
    { refine (device_fetches sample_q 0x1000 s0 _). vm_compute. discriminate. }
    apply rtc_l with (mk_nic_state (device_complete sample_q 0 60 (n_mem s0)) 1 0 [] [] [(0, 60)] []).
    { refine (device_completes sample_q 0x1000 (mk_nic_state (n_mem s0) 1 0 [0] [] [] []) 0 60 [] [] eq_refl _). lia. }
    apply rtc_l with (mk_nic_state (device_complete sample_q 0 60 (n_mem s0)) 1 1 [] [0] [(0, 60)] [(0, 60)]).
    { refine (driver_polls sample_q 0x1000 (mk_nic_state (device_complete sample_q 0 60 (n_mem s0)) 1 0 [] [] [(0, 60)] [])
        (NetRx.mk_rx 0 0x3000 60 0x300C 48) 1 _). vm_compute. reflexivity. }
    apply rtc_once.
    refine (driver_recycles sample_q 0x1000 (mk_nic_state (device_complete sample_q 0 60 (n_mem s0)) 1 1 [] [0] [(0, 60)] [(0, 60)])
      0 [] [] eq_refl). }
  split; [exact R|]. split; [|vm_compute; reflexivity].
  refine (proj2 (rx_ring_exact sample_q 0x1000 0x9000 sample_q_ok (fun _ => 0xAA) sample_nic _ R)).
  intros x. unfold is_byte. lia.
Defined.
